(* ===== verification/_CoqProject ===== *)
-Q . S2P
Prelude.v
PyText.v
PyHash.v
UnifiedDiff.v
DiffMap.v
DiffAnchor.v
PrefixTable.v
PyFloat.v
PyDecimal.v
Effects.v
PyValue.v
PyJson.v
BranchPatterns.v
RunFailures.v
PolicyErrors.v
PolicyDocuments.v
IgnoreMatcher.v
ReviewIgnore.v
Verdict.v
RunStore.v
PolicySnapshots.v
PolicyPrepare.v
RunWorker.v
RunLifecycle.v
GithubProjection.v
GithubProjectionFacts.v
Eligibility.v
Enqueue.v
EnqueueFacts.v
Rerun.v
Triggers.v
VcsInput.v
PromptRender.v
PromptBudget.v
PromptFacts.v
PromptFit.v
PromptExamples.v
PromptBraces.v
Manifests.v
ManifestFacts.v
Publication.v
Coordinates.v
DiffSnapshots.v
CoverageSchema.v
RunCoverage.v
CoverageProjection.v
CoverageRestore.v
Findings.v
FindingsFacts.v
AnswersV2.v
ReviewPath.v
Reflection.v
ReflectionFacts.v
ReflectionTheorems.v
VerifiedReview.v
VerifiedReviewFacts.v
VerifiedReviewTheorems.v
Llm.v
LlmSettings.v
LlmTransport.v
LlmTasks.v
LlmGateway.v
LlmHistory.v
LlmFacts.v
LlmCalls.v
LlmTheorems.v
LlmCache.v
LlmKeys.v
CheckRuns.v
Jsonb.v
RunActions.v
StoreReview.v
ModelAnswers.v
ModelAnswerFacts.v
StoreReviewTheorems.v
AnswerHandoff.v
