(* ===== verification/Prelude.v ===== *)
(** * The review service: a verification library

    The repository is the backend of a pull-request review service.  Webhooks of GitHub, GitLab and
    Bitbucket project pull requests and create runs; a worker claims a run, fetches the diff and the
    policy documents of the base revision, asks a model for a review, post-processes and stores it;
    a publisher posts the stored review; a reconciler recovers runs whose worker died.  PostgreSQL
    rows are the shared state, RabbitMQ carries pointers to them.  This library models the parts
    that decide: the text and diff formats, the policies, the run state machine and publication.
    All paths below are under [src/]; [A/] is [app/modules/reviews/application/], [I/] is
    [app/modules/reviews/infrastructure/].

    ** Files

    - [Prelude]: results, stateful results, tactics, Python's sort and small list operations.
    - [PyText]: Python's [str] as a list of code points: splitting, stripping, Unicode categories,
      decimal numbers, UTF-8, with their laws.
    - [PyHash]: JSON in canonical form and executable SHA-256 and SHA-1, checked on test vectors.
    - [PrefixTable]: tables of reachable prefixes shared by two matchers, and [while] loops with
      binary fuel and a measure.
    - [UnifiedDiff]: [A/unified_diff.py].  The line walk [parse_hunks] with its state [Walk].
    - [DiffMap]: [A/diff_map.py] and the file record of [A/vcs_diff.py].  [build_diff_map_from_facts].
    - [DiffAnchor]: [A/diff_anchor.py].  [resolve_anchor].
    - [BranchPatterns]: [app/common/application/branch_patterns.py].
    - [RunFailures]: [A/run_failures.py].
    - [PolicyErrors]: [A/policy_errors.py].
    - [IgnoreMatcher]: the class [IgnoreMatcher] of [A/review_ignore.py]; its attributes are
      [MatcherState], which survives an exception.
    - [ReviewIgnore]: the rest of [A/review_ignore.py].
    - [Verdict]: [A/verdict.py].
    - [RunStore]: the rows and transactions of [I/run_lifecycle_store.py], with the parts of
      [I/run_repository.py], [I/webhook_runs.py], [I/github_pull_request_projection.py],
      [app/modules/integrations/gitlab/infrastructure/connection_store.py] and
      [app/modules/workspaces/infrastructure/github_repository_rebinding.py] that write runs.
    - [RunWorker]: [A/handle_review_run.py], [A/reconcile_runs.py], [A/cancel_run.py],
      [A/run_delivery.py] and the T8 guard of [A/store_review_output.py].
    - [RunLifecycle]: the transition system made of those transactions.
    - [Publication]: [A/publish_run_review.py].
    - [PolicyDocuments]: [A/policy_documents.py] and the documents of [A/policy_snapshot.py].  The
      source of the base revision is an argument whose answers may depend on the calls before.
    - [PolicySnapshots]: the snapshot of [A/policy_snapshot.py], its digest, builder and checks
      ([A/prepare_policy_snapshot.py], [A/policy_snapshot_integrity.py]).
    - [PolicyPrepare]: [I/policy_snapshot_unit_of_work.py] and [PreparePolicySnapshot]; other workers
      act between any two calls of the store.
    - [GithubProjection], [GithubProjectionFacts]: [A/project_github_pull_request.py] and its store
      in [I/github_pull_request_projection.py].
    - [Eligibility]: [A/determine_ci_eligibility.py].  [determine] reads the rows twice around the
      provider's answer.
    - [Enqueue], [EnqueueFacts]: [A/try_enqueue_webhook_run.py], [I/webhook_runs.py],
      [I/ci_eligibility_candidates.py], [A/publish_cancellation_signals.py].  The gate is used
      through the class [EligibilityGate].
    - [Rerun]: [A/rerun_run.py] and [I/rerun_store.py].
    - [Triggers]: [A/sweep_no_ci.py], [A/trigger_from_delivery.py] and their queries, proved against
      the class [EnqueuerLaws] that the enqueue use case implements.
    - [VcsInput]: [A/vcs_diff.py] and the file records of [A/prompt_builder.py].  [fetch_execute] is
      [FetchVcsReviewInput.execute]; its state is the list of blob requests made so far.
    - [Coordinates]: [A/publication_coordinates.py].
    - [DiffSnapshots]: [A/get_run_diff.py].  The rows [StoreDiffSnapshot] writes and the model input
      read back from them.
    - [CoverageSchema]: [A/coverage_schema.py].  Codes, items, readers of the stored JSON.
    - [RunCoverage]: [A/run_coverage.py] and [app/common/application/git_identity.py]; names with a
      trailing underscore are the functions the code writes with a leading one.
    - [CoverageProjection], [CoverageRestore]: what a projected and a restored coverage mean.
    - [Findings]: [A/findings_post_processor.py] and the first-version answer of
      [A/review_output.py].  [process] is [FindingsPostProcessor.process].
    - [FindingsFacts]: its theorems.
    - [PromptRender]: [A/prompt_builder.py].  [render_input] is [PromptBuilder.render_input].
    - [PromptBudget]: [A/prompt_budget.py].  [fit_review_context] is the function of that name; a
      choice is what is shown of each file.
    - [PromptFacts], [PromptFit], [PromptBraces], [PromptExamples]: their theorems and witnesses.
    - [Manifests]: the call manifest of [A/policy_snapshot.py], [PromptBuilder.build_manifest] and
      the provenance guard of [A/prompt_budget.py]; [ManifestFacts] its theorems.
    - [AnswersV2]: the evidence-carrying answer of [A/review_output.py] with its checks.
    - [ReviewPath]: [A/review_path.py].
    - [Reflection], [ReflectionFacts], [ReflectionTheorems]: [A/reflection_pass.py].  [build_verifier_prompt]
      and [verify_recorded] are the methods of those names; what is shown of a file is the list of the
      indices of its lines.
    - [VerifiedReview], [VerifiedReviewFacts], [VerifiedReviewTheorems]: [A/execute_review.py].
      [execute_review] is [ExecuteReviewRun.execute] and [run_reflection_pass] its method of that
      name; a candidate carries its position in the answer, which the code keeps by object identity.
    - [PyFloat], [PyDecimal], [PyValue], [PyJson]: binary64 floats with their texts, Python's [decimal]
      at its default precision, JSON values as [json] writes them, and [json.loads] with its errors,
      proved to end and to read back what is written.
    - [Effects]: coroutines of one process as trees of questions and shared updates, their
      interleavings, and a program logic that holds in each of them ([safe_pool]).
    - [Llm]: [A/llm.py] and [A/review_result_cache.py].
    - [LlmSettings]: [I/llm/settings.py]; [LlmKeys] where its keys can be sent.
    - [LlmTransport]: [I/llm/transport.py], requests and the reading of answers.
    - [LlmTasks]: the functions of [I/llm/gateway.py] that ask nothing.
    - [LlmGateway]: [LlmGateway] and the key rotation of the transport as coroutines; every await,
      clock, random or identity read is a constructor of [query], the counters of the attempts and
      the key that answered last are [Shared].
    - [LlmHistory], [LlmFacts], [LlmCalls], [LlmTheorems], [LlmCache]: histories of questions, the
      specification of [generate], the calls it pays its counter for, its theorems, and the entries of
      the answer cache.
    - [CheckRuns]: [A/check_runs.py] and [A/bitbucket_status.py].
    - [Jsonb]: what a [JSONB] column refuses and keeps; the class [JsonbColumn] is the form in which
      PostgreSQL returns a value.
    - [RunActions]: [I/run_action_records.py], [I/run_action_payloads.py] and the two readers of the
      trace in [I/run_repository.py].
    - [StoreReview], [StoreReviewTheorems]: [A/store_review_output.py], the reading back of an answer
      in [A/review_output.py], [A/post_processing_diff_map.py] and the rows [I/run_repository.py]
      writes.  [store_review] is [StoreReviewOutput.execute]; the state is the tables it touches.
    - [ModelAnswers], [ModelAnswerFacts]: [I/llm/answers.py] and the schema files under
      [review/schemas/].  [validate_review_answer_v2] is the function of that name; the messages of the
      two validators are arguments.
    - [AnswerHandoff]: an accepted answer, reviewed by the reflection pass, is what the storing handler
      accepts.

    ** What the theorems show

    - Formats: [parse_hunks] accepts exactly the patches of a declarative grammar, numbers their
      rows and reads back what is printed; a diff map built from any provider facts is well formed
      and fails only in two described cases; the trace text of a name is bounded and reversible.
    - Anchors: a finding is anchored exactly on new-side lines of one hunk of a usable file.
    - Matchers: the boolean table of the branch filter decides its glob language; the ignore matcher
      decides the mask language within its budgets, its wildcard loop ends on every input, its cache
      stays right; the policy reader accepts exactly the mask grammar within its limits, and
      applying the policy withholds exactly the names its contract describes.
    - Failures: retries respect a provider's [Retry-After] up to a day; policy codes and the run
      catalogue agree; messages are safe and readable back.
    - Lifecycle: over every interleaving of workers, reconciler, publisher, users and provider
      events, attempts are bounded, a final run keeps its state (only a missing
      origin is filled in when its repository is bound again), a lease fences a running attempt, a pull
      request has one active run; the handler's sequences of transactions refine the transition
      system, and the reconciler moves an expired run on.
    - Publication: at most five tries, and only of a current, active, uncancelled review.
    - Policies: a loaded document is typed (its text printable, its checksums those of its bytes) and
      is the regular file of the pinned revision; the first attempt of a run stores its policy, and
      whatever other workers do every later attempt returns that snapshot, checked, without reading
      the repository.
    - Events: projecting pull-request deliveries keeps the rows well formed, the newest snapshot wins
      and obsolete runs are cancelled and told; the CI gate admits exactly the stated candidates; a
      webhook run is created only for what the gate admitted on the locked rows, once, and its
      message is confirmed before it is marked; a message not confirmed is among those the next replay
      finds, oldest first; a rerun keeps the authority of its run; replays
      drain the unpublished messages and the sweep settles every due candidate.
    - Input: a fetch accounts for every provider file, fails only for the causes listed and never
      repeats a failed blob request; the model gets exactly the stored files that are allowed, and
      storing a patch loses nothing.  A published position is the finding's line on the provider's
      side of the diff.
    - Coverage: complete means every file was sent whole or is outside the review; what is stored is
      read back; nothing that is read back claims more than the stored files support; the final
      adjustment keeps the counters a partition and only lowers a result.
    - Findings: every finding ends in one bucket, an inline comment is anchored, confident, allowed
      and within the caps, processing a valid answer always returns, and the body shows as much as
      its character budget allows.
    - Prompts: the length accounting of the fit equals the length of the rendered prompt; a prompt
      that renders is fitted into its budget or shows no diff and no excerpt, no more of any file
      would have fitted and no fewer excerpts could have been dropped; the brace expansion returns
      the globs a pattern stands for and ends.
    - Manifests: a manifest shows a range of a changed file exactly when every line of it is in the
      prompt; the guard passes a manifest exactly when every block is admissible.
    - Second-version answers: the two checks of a finding accept exactly the anchors that lie in one
      hunk and were shown, and exactly the evidence and rules the manifest shows.
    - Reflection: a verifier prompt is within its budget, shows the policy, every candidate and only
      cited code, and its manifest is of what it shows; an answer is accepted exactly when each
      decision is backed by the manifest of its call.
    - Verified reviews: every item of an answer is published or recorded as dropped; a published
      finding passed each check and stands on a supporting, backed decision; a run with a snapshot
      publishes only what its verifier left, under a summary of the backend that always validates.
    - Check runs: the view tells the state of the run and every code of the catalogue has its text.
    - Model calls: in every interleaving of the calls of a process an attempt makes at most its calls,
      each with a number of its own,
      every request passes the fences (lease, time, context, budget, stored input) just before it is
      sent, every paid answer is recorded unless the arithmetic of its charge fails, an answer is
      given only when it was checked, and the loop over the primary model ends.  A key is sent only
      to the endpoint it was configured for, over https or to a host named as an internal one; a cached answer is read back whole.
    - Answers of models: the text of an answer is accepted exactly when it is an object of the schema
      with valid findings and summary, up to the order of the findings and a start line that repeats its
      line; every other text gives one to twenty messages and nothing else; a stored answer is accepted
      again as it is.
    - Storing: a stored review is the whole answer, every finding and every drop a row the table
      accepts, under the lease of its worker, and the pointer names exactly what is published; what a
      reflection pass makes of an accepted answer is accepted again and post-processed to its end; one dropped finding
      on a line beyond the column's range is never stored, and its review neither.
    - Trace: which steps are recorded; they are read back in order, up to key order and the notation of
      numbers, each response whole up to the row limit and above it as the longest text that fits.

    ** Conventions, bounds and fuel

    Python integers are [Z] or [nat], strings lists of code points, times microseconds; the floats
    of the gateway are binary64 and its decimals those of Python's default context, elsewhere floats
    and decimals are the rationals they denote. Exceptions are [Err] values; code that mutates an
    object is explicit state passing. Code outside the repository is an argument: the Markdown
    parser, the HTTP date parser, the URL and IDNA codecs, the texts of validation errors, the
    provider gateways, the review pipeline, the compiled lint patterns (search predicates). Of a
    pydantic model the field constraints and validators are kept, its type checks are Rocq's types,
    or the readers of [ModelAnswers]. [iterate] runs [2 ^ k] turns: the wildcard loop takes [k] from
    a measure of its mask and name ([segment_fuel]) and the publication loop takes 8 turns for at
    most 5; the JSON reader has two turns per character; all are proved to end within them; the loop
    of the gateway has [turn_fuel] turns, one per wait its policy allows, and never uses them up.
    The nesting [json.loads] allows is an argument. The footer loop has the four turns the code
    gives it. Limits of the code (transition budgets, mask and path limits, attempts, [int]'s 4300
    digits) keep their values. A transaction under row locks is one function of the database; SQL
    ties in an [ORDER BY] are broken by the order of the rows. Clocks of different processes are one
    clock that moves between transactions: skew is not modelled.

    ** Not modelled

    HTTP and AMQP adapters, routers, settings and process wiring, NOTIFY delivery, telemetry and
    logging; what PostgreSQL refuses of a JSON text; the building of context payloads and of
    conventions; the code index, authentication, billing and analytics; SQL beyond the guarded
    updates and the selections named above.

    ** Plan

    Open: the GitLab and Bitbucket projections, sessions, and the exclusions and ranking of the code
    index.  Each is one file with the operations of its modules, its invariant and the refinement of
    its doc comments. *)

From Stdlib Require Export ZArith NArith Lia Permutation Sorting.Sorted Bool.
From stdpp Require Export base tactics list option sorting.
#[global] Set Default Proof Using "Type".

Declare Scope dmc_scope.
Delimit Scope dmc_scope with dmc.
#[global] Open Scope dmc_scope.

Create HintDb dmc.
Create Rewrite HintDb dmc_bool.

(** ** Results of code that can raise *)

(** A Python function that may raise returns [Ok v], or [Err e] for the raised error. *)
Inductive result (E A : Type) : Type :=
| Ok (a : A)
| Err (e : E).
Arguments Ok {E A} _.
Arguments Err {E A} _.

#[export] Instance result_ret {E} : MRet (result E) := λ A a, Ok a.
#[export] Instance result_bind {E} : MBind (result E) := λ A B f m,
  match m with Ok a => f a | Err e => Err e end.
#[export] Instance result_fmap {E} : FMap (result E) := λ A B f m,
  match m with Ok a => Ok (f a) | Err e => Err e end.

(** [raise_when b e]: the guard [if b: raise e]. *)
Definition raise_when {E} (b : bool) (e : E) : result E unit :=
  if b then Err e else Ok tt.

(** Replace the error of a computation ([except X as exc: raise Y from exc]). *)
Definition map_err {E F A} (f : E → F) (r : result E A) : result F A :=
  match r with Ok a => Ok a | Err e => Err (f e) end.

(** The value of a computation that does not fail. *)
Definition ok_or {E A} (d : A) (r : result E A) : A :=
  match r with Ok a => a | Err _ => d end.

Definition is_ok {E A} (r : result E A) : bool :=
  match r with Ok _ => true | Err _ => false end.

(** ** Stateful code that can raise

    The state survives an exception, as the attributes of a Python object do. *)
Definition stateT (S E A : Type) : Type := S → S * result E A.

#[export] Instance stateT_ret {S E} : MRet (stateT S E) := λ A a s, (s, Ok a).
#[export] Instance stateT_bind {S E} : MBind (stateT S E) := λ A B f m s,
  match m s with
  | (s', Ok a) => f a s'
  | (s', Err e) => (s', Err e)
  end.

Definition get_state {S E} : stateT S E S := λ s, (s, Ok s).
Definition put_state {S E} (s' : S) : stateT S E unit := λ _, (s', Ok tt).
Definition raise_st {S E A} (e : E) : stateT S E A := λ s, (s, Err e).

(** ** Provider calls with checkpoints

    A provider adapter runs the caller's checkpoint before each of its requests and lets what the
    checkpoint raises through.  What it does besides is not the service's code: the call is the
    number of its checkpoints and how it ends. *)
Inductive provider_call (E A : Type) : Type :=
| CallDone (r : result E A)
| CallCheckpoint (rest : provider_call E A).
Arguments CallDone {E A} _.
Arguments CallCheckpoint {E A} _.

Fixpoint run_call {S E A} (checkpoint : stateT S E unit) (c : provider_call E A) : stateT S E A :=
  match c with
  | CallDone r => λ s, (s, r)
  | CallCheckpoint rest => checkpoint ≫= λ _, run_call checkpoint rest
  end.

(** The exceptions of a provider as those of its caller. *)
Fixpoint call_map_err {E F A} (f : E → F) (c : provider_call E A) : provider_call F A :=
  match c with
  | CallDone r => CallDone (map_err f r)
  | CallCheckpoint rest => CallCheckpoint (call_map_err f rest)
  end.

(** How many checkpoints a call makes when all of them pass, and what it then returns. *)
Fixpoint call_checkpoints {E A} (c : provider_call E A) : nat :=
  match c with CallDone _ => O | CallCheckpoint rest => S (call_checkpoints rest) end.
Fixpoint call_result {E A} (c : provider_call E A) : result E A :=
  match c with CallDone r => r | CallCheckpoint rest => call_result rest end.

(** ** Tactics *)

(** Turn the boolean tests of the translated code into propositions. *)
#[export] Hint Rewrite andb_true_iff orb_true_iff andb_false_iff orb_false_iff
  negb_true_iff negb_false_iff
  Z.eqb_eq Z.eqb_neq Z.ltb_lt Z.ltb_ge Z.leb_le Z.leb_gt
  N.eqb_eq N.eqb_neq N.ltb_lt N.ltb_ge N.leb_le N.leb_gt
  Nat.eqb_eq Nat.eqb_neq Nat.ltb_lt Nat.ltb_ge Nat.leb_le Nat.leb_gt
  bool_decide_eq_true bool_decide_eq_false : dmc_bool.

Ltac to_prop := autorewrite with dmc_bool in *.

(** Split the matches of a hypothesis or of the goal, and clean up. *)
Ltac dmc_step :=
  match goal with
  | H : Ok _ = Ok _ |- _ => injection H as H
  | H : Err _ = Err _ |- _ => injection H as H
  | H : Ok _ = Err _ |- _ => discriminate H
  | H : Err _ = Ok _ |- _ => discriminate H
  | _ => progress simplify_eq/=
  end.
Ltac dmc_simp := repeat dmc_step.
Ltac split_match_in H :=
  repeat (match type of H with
          | context [match ?x with _ => _ end] => destruct x eqn:?; dmc_simp; try discriminate
          end).

(** ** Python's stable sort

    [list.sort] and [sorted] are stable and so is this insertion sort: the two agree on every
    input whose key order is a total preorder. *)
Section PySort.
Context {A : Type} (leb : A → A → bool).

Fixpoint py_insert (x : A) (l : list A) : list A :=
  match l with
  | [] => [x]
  | y :: l' => if leb x y then x :: y :: l' else y :: py_insert x l'
  end.

Definition py_sorted (l : list A) : list A := foldr py_insert [] l.

Definition leP (x y : A) : Prop := leb x y = true.
End PySort.

(** [next((x for x in l if p(x)), None)] *)
Fixpoint find_first {A} (p : A → bool) (l : list A) : option A :=
  match l with
  | [] => None
  | x :: l' => if p x then Some x else find_first p l'
  end.

(** [any(..)], [all(..)], [sum(..)] over a list, and [enumerate]. *)
Definition py_any {A} (p : A → bool) (l : list A) : bool := existsb p l.
Definition py_all {A} (p : A → bool) (l : list A) : bool := forallb p l.
Definition py_sum (l : list Z) : Z := foldr Z.add 0%Z l.
Definition py_len {A} (l : list A) : Z := Z.of_nat (length l).
Definition enumerate {A} (l : list A) : list (nat * A) := imap pair l.

(** [l[:n]]: a negative bound counts from the end. *)
Definition py_prefix {A} (n : Z) (l : list A) : list A :=
  if (0 <=? n)%Z then take (Z.to_nat n) l else take (length l - Z.to_nat (- n)) l.

(** [dict.fromkeys(l)]: each element once, at its first place. *)
Definition py_unique {A} `{EqDecision A} (l : list A) : list A := rev (remove_dups (rev l)).

(** Membership of a list that stands for a Python set or tuple of constants. *)
Definition mem {A} (eqb : A → A → bool) (x : A) (l : list A) : bool := existsb (eqb x) l.

(** ** Lemmas on results *)

Lemma raise_when_ok {E} b (e : E) u : raise_when b e = Ok u → b = false.
Proof. unfold raise_when. by destruct b. Qed.

Lemma bind_ok {E A B} (m : result E A) (f : A → result E B) (b : B) :
  (m ≫= f) = Ok b ↔ ∃ a, m = Ok a ∧ f a = Ok b.
Proof.
  destruct m as [a|e]; cbn; split; [by exists a|by intros (? & [= ->] & ?)|done|].
  by intros (? & [=] & _).
Qed.

Lemma map_err_ok {A E E'} (g : E → E') (r : result E A) a : map_err g r = Ok a ↔ r = Ok a.
Proof. destruct r; cbn; split; congruence. Qed.

(** ** Lemmas on sorting *)
Section PySortFacts.
Context {A : Type} (leb : A → A → bool).

Lemma py_insert_perm x l : Permutation (py_insert leb x l) (x :: l).
Proof.
  induction l as [|y l IH]; cbn; [done|].
  destruct (leb x y); [done|]. rewrite IH. apply Permutation_swap.
Qed.

Lemma py_sorted_perm l : Permutation (py_sorted leb l) l.
Proof.
  induction l as [|x l IH]; cbn; [done|].
  rewrite py_insert_perm. by apply Permutation_skip.
Qed.

Lemma length_py_sorted l : length (py_sorted leb l) = length l.
Proof. apply Permutation_length, py_sorted_perm. Qed.

Lemma elem_of_py_sorted x l : x ∈ py_sorted leb l ↔ x ∈ l.
Proof. by rewrite py_sorted_perm. Qed.

Lemma In_py_sorted x l : In x (py_sorted leb l) ↔ In x l.
Proof. rewrite <- !list_elem_of_In. apply elem_of_py_sorted. Qed.

Lemma py_insert_sorted x l :
  (∀ a b, leb a b = true ∨ leb b a = true) →
  Sorted (leP leb) l → Sorted (leP leb) (py_insert leb x l).
Proof.
  intros Htot. induction l as [|y l IH]; cbn; intros Hs; [by repeat constructor|].
  destruct (leb x y) eqn:Hxy; [by constructor; [|constructor]|].
  assert (Hyx : leP leb y x) by (unfold leP; destruct (Htot x y); congruence).
  inv Hs. constructor; [by apply IH|].
  destruct l as [|z l]; cbn; [by constructor|].
  destruct (leb x z); constructor; [done|]. by inv H2.
Qed.

Lemma py_sorted_sorted l :
  (∀ a b, leb a b = true ∨ leb b a = true) → Sorted (leP leb) (py_sorted leb l).
Proof. intros Htot. induction l; cbn; [constructor|by apply py_insert_sorted]. Qed.

(** A list that is already in order is returned as it is. *)
Lemma py_sorted_id l : Sorted (leP leb) l → py_sorted leb l = l.
Proof.
  unfold py_sorted.
  induction 1 as [|x l Hs IH Hhd]; cbn; [done|]. rewrite IH.
  destruct Hhd as [|y l Hxy]; cbn; [done|]. by rewrite Hxy.
Qed.
End PySortFacts.

(** ** Lemmas on searching, counting and slicing *)

Lemma find_first_some {A} (p : A → bool) l x :
  find_first p l = Some x → In x l ∧ p x = true.
Proof. induction l; cbn; [done|]. destruct (p a) eqn:?; naive_solver. Qed.

Lemma find_first_none {A} (p : A → bool) l :
  find_first p l = None ↔ ∀ x, In x l → p x = false.
Proof.
  induction l as [|a l IH]; cbn; [by split|].
  destruct (p a) eqn:Hp; split; intros H; try done.
  - by rewrite (H a) in Hp by (by left).
  - intros x [<-|Hx]; [done|]. by apply IH.
  - apply IH. intros x Hx. apply H. by right.
Qed.

Lemma find_first_split {A} (p : A → bool) l x :
  find_first p l = Some x →
  ∃ l1 l2, l = l1 ++ x :: l2 ∧ p x = true ∧ ∀ y, In y l1 → p y = false.
Proof.
  induction l as [|a l IH]; cbn; [done|]. destruct (p a) eqn:Hp; intros H.
  - simplify_eq. exists [], l. naive_solver.
  - destruct (IH H) as (l1 & l2 & -> & Hx & Hl1). exists (a :: l1), l2. naive_solver.
Qed.

Lemma In_py_unique {A} `{EqDecision A} (x : A) l : In x (py_unique l) ↔ In x l.
Proof.
  unfold py_unique. rewrite <- in_rev, <- list_elem_of_In, elem_of_remove_dups.
  by rewrite list_elem_of_In, <- in_rev.
Qed.

Lemma NoDup_py_unique {A} `{EqDecision A} (l : list A) : NoDup (py_unique l).
Proof. unfold py_unique. apply NoDup_ListNoDup, NoDup_rev, NoDup_ListNoDup, NoDup_remove_dups. Qed.

Lemma py_sum_app l1 l2 : py_sum (l1 ++ l2) = (py_sum l1 + py_sum l2)%Z.
Proof. unfold py_sum. induction l1; cbn; lia. Qed.

Lemma py_sum_perm l1 l2 : Permutation l1 l2 → py_sum l1 = py_sum l2.
Proof. unfold py_sum. induction 1; cbn; lia. Qed.

Lemma py_len_app {A} (l1 l2 : list A) : py_len (l1 ++ l2) = (py_len l1 + py_len l2)%Z.
Proof. unfold py_len. rewrite length_app. lia. Qed.

Lemma py_len_nonneg {A} (l : list A) : (0 ≤ py_len l)%Z.
Proof. unfold py_len. lia. Qed.

#[export] Hint Resolve py_len_nonneg : dmc.
