(* ===== verification/PyText.v ===== *)
(** * Python text: strings as code points, and the Unicode facts the code tests

    A Python [str] is a sequence of code points (lone surrogates included), here a list of [N].
    This file holds the string operations the modelled modules call, with their laws: [split],
    [join], [startswith], [strip], decimal printing and reading, the UTF-8 length, and the
    character classes of Unicode 15.1, the database of the Python 3.13 the service pins
    ([unicodedata.category], [str.isspace], the [\d] of [re]). *)

From Stdlib Require Import Ascii String Decimal DecimalN DecimalFacts.
From stdpp Require Import numbers.
From S2P Require Import Prelude.
Open Scope N_scope.

Abbreviation char := N (only parsing).
Abbreviation pystr := (list N).

(** ** Literals *)

Fixpoint string_bytes (s : string) : list N :=
  match s with
  | EmptyString => []
  | String a s' => N_of_ascii a :: string_bytes s'
  end.

(** Decode well-formed UTF-8. *)
Fixpoint utf8_decode (bs : list N) : pystr :=
  match bs with
  | [] => []
  | b0 :: r =>
      if b0 <? 128 then b0 :: utf8_decode r
      else match r with
           | [] => []
           | b1 :: r1 =>
               if b0 <? 224 then ((b0 - 192) * 64 + (b1 - 128)) :: utf8_decode r1
               else match r1 with
                    | [] => []
                    | b2 :: r2 =>
                        if b0 <? 240
                        then ((b0 - 224) * 4096 + (b1 - 128) * 64 + (b2 - 128)) :: utf8_decode r2
                        else match r2 with
                             | [] => []
                             | b3 :: r3 =>
                                 ((b0 - 240) * 262144 + (b1 - 128) * 4096
                                  + (b2 - 128) * 64 + (b3 - 128)) :: utf8_decode r3
                             end
                    end
           end
  end.

(** [u8 "text"]: the Python string literal. *)
Definition u8 (s : string) : pystr := utf8_decode (string_bytes s).
Arguments u8 s%_string : simpl never.

(** ** Equality and order *)

Fixpoint str_eqb (a b : pystr) : bool :=
  match a, b with
  | [], [] => true
  | x :: a', y :: b' => (x =? y) && str_eqb a' b'
  | _, _ => false
  end.
Infix "=?s" := str_eqb (at level 70, no associativity) : dmc_scope.

(** Python compares strings by code point, lexicographically. *)
Fixpoint str_leb (a b : pystr) : bool :=
  match a, b with
  | [], _ => true
  | _ :: _, [] => false
  | x :: a', y :: b' => if x <? y then true else if y <? x then false else str_leb a' b'
  end.

Definition ostr_eqb (a b : option pystr) : bool :=
  match a, b with
  | None, None => true
  | Some x, Some y => x =?s y
  | _, _ => false
  end.

Definition str_mem (s : pystr) (l : list pystr) : bool := existsb (str_eqb s) l.
Definition char_mem (c : char) (s : pystr) : bool := existsb (N.eqb c) s.

(** ** Searching, splitting and trimming *)

Fixpoint startswith (s p : pystr) {struct p} : bool :=
  match p, s with
  | [], _ => true
  | c :: p', d :: s' => (c =? d) && startswith s' p'
  | _ :: _, [] => false
  end.
Definition endswith (s p : pystr) : bool := startswith (rev s) (rev p).

(** [s.find(p)]: the first index where [p] starts, [None] for -1. *)
Fixpoint str_find (s p : pystr) : option nat :=
  if startswith s p then Some O
  else match s with
       | [] => None
       | _ :: s' => S <$> str_find s' p
       end.
Definition contains (s p : pystr) : bool :=
  match str_find s p with Some _ => true | None => false end.

Fixpoint split_on (sep : char) (s : pystr) : list pystr :=
  match s with
  | [] => [[]]
  | c :: s' =>
      if c =? sep then [] :: split_on sep s'
      else match split_on sep s' with
           | w :: ws => (c :: w) :: ws
           | [] => [[c]]
           end
  end.

Fixpoint join (sep : pystr) (ws : list pystr) : pystr :=
  match ws with
  | [] => []
  | [w] => w
  | w :: ws' => w ++ sep ++ join sep ws'
  end.

Fixpoint count_char (c : char) (s : pystr) : N :=
  match s with
  | [] => 0
  | d :: s' => (if c =? d then 1 else 0) + count_char c s'
  end.

Fixpoint lstrip_with (p : char → bool) (s : pystr) : pystr :=
  match s with
  | [] => []
  | c :: s' => if p c then lstrip_with p s' else s
  end.
Definition rstrip_with (p : char → bool) (s : pystr) : pystr := rev (lstrip_with p (rev s)).
Definition strip_with (p : char → bool) (s : pystr) : pystr := rstrip_with p (lstrip_with p s).

(** A [dict] with string keys, as its items: [d.get(k)]. *)
Fixpoint assoc {A} (k : pystr) (l : list (pystr * A)) : option A :=
  match l with
  | [] => None
  | (k', v) :: rest => if k =?s k' then Some v else assoc k rest
  end.

(** [a or b] of two optional strings. *)
Definition py_or (a b : option pystr) : option pystr :=
  match a with None | Some [] => b | _ => a end.

(** ** Control characters, spaces and digits of Unicode 15.1 *)

Definition LF : char := 10.
Definition CR : char := 13.
Definition NUL : char := 0.
Definition SLASH : char := 47.
Definition BACKSLASH : char := 92.
Definition STAR : char := 42.

Definition in_range (c : char) (r : N * N) : bool := (fst r <=? c) && (c <=? snd r).
Definition in_ranges (rs : list (N * N)) (c : char) : bool := existsb (in_range c) rs.

(** General categories, as closed ranges of code points. *)
Definition Cc_ranges : list (N * N) := [(0, 31); (127, 159)].
Definition Cs_ranges : list (N * N) := [(55296, 57343)].
Definition Zl_ranges : list (N * N) := [(8232, 8232)].
Definition Zp_ranges : list (N * N) := [(8233, 8233)].
Definition Zs_ranges : list (N * N) :=
  [(32, 32); (160, 160); (5760, 5760); (8192, 8202); (8239, 8239); (8287, 8287); (12288, 12288)].
Definition Cf_ranges : list (N * N) :=
  [(173, 173); (1536, 1541); (1564, 1564); (1757, 1757); (1807, 1807); (2192, 2193);
   (2274, 2274); (6158, 6158); (8203, 8207); (8234, 8238); (8288, 8292); (8294, 8303);
   (65279, 65279); (65529, 65531); (69821, 69821); (69837, 69837); (78896, 78911);
   (113824, 113827); (119155, 119162); (917505, 917505); (917536, 917631)].

Definition is_Cc := in_ranges Cc_ranges.
Definition is_Cs := in_ranges Cs_ranges.
Definition is_Cf := in_ranges Cf_ranges.
Definition is_Zs := in_ranges Zs_ranges.
Definition is_Zl := in_ranges Zl_ranges.
Definition is_Zp := in_ranges Zp_ranges.
(** [category(c).startswith("Z")] *)
Definition is_Z (c : char) : bool := is_Zs c || is_Zl c || is_Zp c.

(** [str.isspace] of one character. *)
Definition is_space : char → bool :=
  in_ranges [(9, 13); (28, 32); (133, 133); (160, 160); (5760, 5760); (8192, 8202);
             (8232, 8233); (8239, 8239); (8287, 8287); (12288, 12288)].

(** First code points of the runs of decimal digits (category Nd, the [\d] of [re]). *)
Definition Nd_zeros : list N :=
  [48; 1632; 1776; 1984; 2406; 2534; 2662; 2790; 2918; 3046; 3174; 3302; 3430; 3558; 3664;
   3792; 3872; 4160; 4240; 6112; 6160; 6470; 6608; 6784; 6800; 6992; 7088; 7232; 7248;
   42528; 43216; 43264; 43472; 43504; 43600; 44016; 65296; 66720; 68912; 69734; 69872;
   69942; 70096; 70384; 70736; 70864; 71248; 71360; 71472; 71904; 72016; 72784; 73040;
   73120; 73552; 92768; 92864; 93008; 120782; 120792; 120802; 120812; 120822; 123200;
   123632; 124144; 125264; 130032].

(** The value of a decimal digit, as [int] reads it. *)
Definition decimal_value (c : char) : option N :=
  match find_first (λ z, (z <=? c) && (c <=? z + 9)) Nd_zeros with
  | Some z => Some (c - z)
  | None => None
  end.

(** The longest run of [\d] at the start, its digit values, and the rest. *)
Fixpoint take_digits (s : pystr) : list N * pystr :=
  match s with
  | [] => ([], [])
  | c :: s' =>
      match decimal_value c with
      | Some d => let '(ds, r) := take_digits s' in (d :: ds, r)
      | None => ([], s)
      end
  end.

(** [int(text)] of a non-empty run of digits. *)
Definition digits_value (ds : list N) : N := fold_left (λ acc d, acc * 10 + d) ds 0.

(** ** Decimal and hexadecimal printing *)

Fixpoint uint_digits (u : uint) : list N :=
  match u with
  | Decimal.Nil => []
  | D0 u => 0 :: uint_digits u
  | D1 u => 1 :: uint_digits u
  | D2 u => 2 :: uint_digits u
  | D3 u => 3 :: uint_digits u
  | D4 u => 4 :: uint_digits u
  | D5 u => 5 :: uint_digits u
  | D6 u => 6 :: uint_digits u
  | D7 u => 7 :: uint_digits u
  | D8 u => 8 :: uint_digits u
  | D9 u => 9 :: uint_digits u
  end.

Definition str_of_N (n : N) : pystr := (λ d, 48 + d) <$> uint_digits (N.to_uint n).
Definition str_of_nat (n : nat) : pystr := str_of_N (N.of_nat n).
Definition str_of_Z (z : Z) : pystr :=
  match z with
  | Zneg p => 45 :: str_of_N (Npos p)
  | _ => str_of_N (Z.to_N z)
  end.

Definition hex_char (d : N) : char := if d <? 10 then 48 + d else 87 + d.
(** The [w] low hexadecimal digits. *)
Fixpoint hex_fixed (w : nat) (n : N) : pystr :=
  match w with
  | O => []
  | S w' => hex_fixed w' (n / 16) ++ [hex_char (n mod 16)]
  end.

(** ** UTF-8 encoding *)

(** Bytes of one code point; [None] for a lone surrogate ([UnicodeEncodeError]). *)
Definition utf8_char (c : char) : option (list N) :=
  if is_Cs c then None
  else if c <? 128 then Some [c]
  else if c <? 2048 then Some [192 + c / 64; 128 + c mod 64]
  else if c <? 65536 then Some [224 + c / 4096; 128 + (c / 64) mod 64; 128 + c mod 64]
  else Some [240 + c / 262144; 128 + (c / 4096) mod 64; 128 + (c / 64) mod 64; 128 + c mod 64].

Fixpoint utf8_encode (s : pystr) : option (list N) :=
  match s with
  | [] => Some []
  | c :: s' =>
      match utf8_char c, utf8_encode s' with
      | Some bs, Some r => Some (bs ++ r)
      | _, _ => None
      end
  end.

(** A text without a lone surrogate, which [encode] takes. *)
Definition encodable (s : pystr) : bool := forallb (λ c, negb (is_Cs c)) s.

(** ** Case conversion, as far as ASCII tests can see it

    The modelled code only ever compares a case-converted string with ASCII text. So a non-ASCII
    character whose conversion holds no ASCII character may be kept as it is: it matches no ASCII
    text before the conversion and none after it. The characters whose conversion does hold one
    are listed. *)
Definition ascii_lower (c : char) : char := if (65 <=? c) && (c <=? 90) then c + 32 else c.

Definition lower_char (c : char) : pystr :=
  if c =? 304 then [105; 775]
  else if c =? 8490 then [107]
  else [ascii_lower c].
Definition str_lower (s : pystr) : pystr := s ≫= lower_char.

Definition casefold_table : list (N * pystr) :=
  [(223, [115; 115]); (304, [105; 775]); (329, [700; 110]); (383, [115]); (496, [106; 780]);
   (7830, [104; 817]); (7831, [116; 776]); (7832, [119; 778]); (7833, [121; 778]);
   (7834, [97; 702]); (7838, [115; 115]); (8490, [107]); (64256, [102; 102]);
   (64257, [102; 105]); (64258, [102; 108]); (64259, [102; 102; 105]);
   (64260, [102; 102; 108]); (64261, [115; 116]); (64262, [115; 116])].
Definition casefold_char (c : char) : pystr :=
  match find_first (λ e, fst e =? c) casefold_table with
  | Some e => snd e
  | None => [ascii_lower c]
  end.
Definition casefold (s : pystr) : pystr := s ≫= casefold_char.

(** * Laws *)

Lemma str_eqb_eq a b : (a =?s b) = true ↔ a = b.
Proof.
  revert b. induction a as [|x a IH]; intros [|y b]; cbn; try done.
  rewrite andb_true_iff, N.eqb_eq, IH. naive_solver.
Qed.

Lemma str_eqb_refl a : (a =?s a) = true.
Proof. by apply str_eqb_eq. Qed.

Lemma str_eqb_neq a b : (a =?s b) = false ↔ a ≠ b.
Proof. rewrite <- not_true_iff_false, str_eqb_eq. done. Qed.

Lemma ostr_eqb_eq a b : ostr_eqb a b = true ↔ a = b.
Proof. destruct a, b; cbn; rewrite ?str_eqb_eq; naive_solver. Qed.

#[export] Hint Rewrite str_eqb_eq str_eqb_neq ostr_eqb_eq : dmc_bool.

Lemma str_mem_In s l : str_mem s l = true ↔ In s l.
Proof.
  unfold str_mem. rewrite existsb_exists. setoid_rewrite str_eqb_eq. naive_solver.
Qed.

Lemma char_mem_In c s : char_mem c s = true ↔ In c s.
Proof.
  unfold char_mem. rewrite existsb_exists. setoid_rewrite N.eqb_eq. naive_solver.
Qed.

Lemma str_leb_total a b : str_leb a b = true ∨ str_leb b a = true.
Proof.
  revert b. induction a as [|x a IH]; intros [|y b]; cbn; auto.
  destruct (N.ltb_spec x y), (N.ltb_spec y x); auto.
Qed.

Lemma str_leb_antisym a b : str_leb a b = true → str_leb b a = true → a = b.
Proof.
  revert b. induction a as [|x a IH]; intros [|y b]; cbn; try done.
  destruct (N.ltb_spec x y), (N.ltb_spec y x); try done; try lia.
  intros. assert (x = y) as -> by lia. f_equal. by apply IH.
Qed.

Lemma str_leb_trans a b c : str_leb a b = true → str_leb b c = true → str_leb a c = true.
Proof.
  revert b c. induction a as [|x a IH]; intros [|y b] [|z c]; cbn; try done.
  destruct (N.ltb_spec x y), (N.ltb_spec y x), (N.ltb_spec y z), (N.ltb_spec z y),
    (N.ltb_spec x z), (N.ltb_spec z x); try done; try lia. apply IH.
Qed.

Lemma startswith_iff s p : startswith s p = true ↔ ∃ r, s = p ++ r.
Proof.
  revert p. induction s as [|d s IH]; intros [|c p]; cbn.
  - split; [by exists []|done].
  - by split; [|intros [r [=]]].
  - split; [by exists (d :: s)|done].
  - rewrite andb_true_iff, N.eqb_eq, IH. naive_solver.
Qed.

Lemma startswith_app p r : startswith (p ++ r) p = true.
Proof. apply startswith_iff. eauto. Qed.

Lemma endswith_iff s p : endswith s p = true ↔ ∃ r, s = r ++ p.
Proof.
  unfold endswith. rewrite startswith_iff. split; intros [r Hr].
  - exists (rev r). by rewrite <- (rev_involutive s), Hr, rev_app_distr, rev_involutive.
  - exists (rev r). by rewrite Hr, rev_app_distr.
Qed.

Lemma split_on_nonempty sep s : split_on sep s ≠ [].
Proof. destruct s as [|c s]; cbn; [done|]. destruct (c =? sep); [done|]. by case_match. Qed.

Lemma join_cons sep w ws : ws ≠ [] → join sep (w :: ws) = w ++ sep ++ join sep ws.
Proof. by destruct ws. Qed.

Lemma join_split sep s : join [sep] (split_on sep s) = s.
Proof.
  induction s as [|c s IH]; cbn [split_on]; [done|].
  destruct (N.eqb_spec c sep) as [->|Hne].
  - rewrite join_cons by apply split_on_nonempty. cbn. by rewrite IH.
  - destruct (split_on sep s) as [|w ws] eqn:E; [by apply split_on_nonempty in E|].
    destruct ws; cbn in *; congruence.
Qed.

Lemma split_on_no_sep sep s : Forall (λ w, ¬ In sep w) (split_on sep s).
Proof.
  induction s as [|c s IH]; cbn; [constructor; [intros []|constructor]|].
  destruct (N.eqb_spec c sep) as [->|Hne]; [constructor; [intros []|done]|].
  destruct (split_on sep s) as [|w ws]; cbn in *; [constructor; [intros [?|[]]; done|done]|].
  inv IH. constructor; [|done]. intros [?|?]; done.
Qed.

Lemma split_on_notin sep w : ¬ In sep w → split_on sep w = [w].
Proof.
  induction w as [|c w IH]; cbn; [done|]. intros H.
  destruct (N.eqb_spec c sep); [naive_solver|]. by rewrite IH by naive_solver.
Qed.

Lemma split_on_app_sep sep w s :
  ¬ In sep w → split_on sep (w ++ sep :: s) = w :: split_on sep s.
Proof.
  induction w as [|c w IH]; cbn; intros H; [by rewrite N.eqb_refl|].
  destruct (N.eqb_spec c sep); [naive_solver|]. by rewrite IH by naive_solver.
Qed.

Lemma split_join sep ws :
  ws ≠ [] → Forall (λ w, ¬ In sep w) ws → split_on sep (join [sep] ws) = ws.
Proof.
  intros Hne Hws. induction Hws as [|w ws Hw Hws IH]; [done|].
  destruct ws as [|w' ws]; [by apply split_on_notin|].
  rewrite join_cons by done. cbn [app]. rewrite split_on_app_sep by done. by rewrite IH.
Qed.

(** ** Printing a number and reading it back *)

Lemma fold_digits_pos u p :
  fold_left (λ acc d, acc * 10 + d) (uint_digits u) (Npos p) = Npos (Pos.of_uint_acc u p).
Proof. revert p. induction u; intros p; cbn; [done|..]; rewrite <- IHu; f_equal; lia. Qed.

Lemma fold_digits u : digits_value (uint_digits u) = N.of_uint u.
Proof.
  unfold digits_value. induction u; cbn in *; try done; by rewrite <- fold_digits_pos.
Qed.

Lemma digits_value_str n : digits_value (uint_digits (N.to_uint n)) = n.
Proof. rewrite fold_digits. apply DecimalN.Unsigned.of_to. Qed.

Lemma uint_digits_bound u : Forall (λ d, d ≤ 9) (uint_digits u).
Proof. induction u; cbn; constructor; (done || lia). Qed.

Lemma decimal_value_digit d : d ≤ 9 → decimal_value (48 + d) = Some d.
Proof.
  intros H. unfold decimal_value. cbn -[N.add N.leb].
  rewrite (proj2 (N.leb_le 48 (48 + d))) by lia.
  rewrite (proj2 (N.leb_le (48 + d) (48 + 9))) by lia. cbn [andb]. f_equal. lia.
Qed.

Definition starts_nondigit (s : pystr) : Prop :=
  match s with [] => True | c :: _ => decimal_value c = None end.

Lemma take_digits_app ds s :
  Forall (λ d, d ≤ 9) ds → starts_nondigit s →
  take_digits (((λ d, 48 + d) <$> ds) ++ s) = (ds, s).
Proof.
  intros Hds Hs. induction Hds as [|d ds Hd Hds IH]; cbn -[N.add].
  - destruct s; [done|]. cbn in *. by rewrite Hs.
  - rewrite decimal_value_digit by done. by rewrite IH.
Qed.

(** Reading back a printed number leaves the text that follows it. *)
Lemma take_digits_str n s :
  starts_nondigit s →
  ∃ ds, take_digits (str_of_N n ++ s) = (ds, s) ∧ digits_value ds = n ∧ ds ≠ [].
Proof.
  intros Hs. exists (uint_digits (N.to_uint n)). split; [|split].
  - apply take_digits_app; [apply uint_digits_bound|done].
  - apply digits_value_str.
  - intros Hnil. destruct n as [|p]; [done|]. cbn in Hnil.
    pose proof (DecimalPos.Unsigned.to_uint_nonnil p) as Hn.
    by destruct (Pos.to_uint p).
Qed.

Lemma str_of_N_inj n m : str_of_N n = str_of_N m → n = m.
Proof.
  intros H. pose proof (take_digits_str n [] I) as (ds & H1 & <- & _).
  pose proof (take_digits_str m [] I) as (ds' & H2 & <- & _).
  rewrite H in H1. congruence.
Qed.

Lemma str_of_nat_inj n m : str_of_nat n = str_of_nat m → n = m.
Proof. intros H%str_of_N_inj. lia. Qed.

(** ASCII text encodes to itself. *)
Lemma utf8_encode_ascii s : Forall (λ c, c < 128) s → utf8_encode s = Some s.
Proof.
  induction 1 as [|c s Hc _ IH]; [done|]. cbn [utf8_encode]. unfold utf8_char.
  assert (is_Cs c = false) as ->.
  { unfold is_Cs, in_ranges, Cs_ranges, in_range. cbn [existsb fst snd].
    rewrite (proj2 (N.leb_gt _ _)) by lia. done. }
  by rewrite (proj2 (N.ltb_lt _ _) Hc), IH.
Qed.

Lemma hex_fixed_ascii w n : Forall (λ c, c < 128) (hex_fixed w n).
Proof.
  revert n. induction w as [|w IH]; intros n; [constructor|]. cbn. apply Forall_app. split; [apply IH|].
  constructor; [|constructor]. unfold hex_char. pose proof (N.mod_lt n 16). case_match; lia.
Qed.

Lemma str_of_N_ascii n : Forall (λ c, c < 128) (str_of_N n).
Proof.
  unfold str_of_N. apply Forall_fmap. generalize (N.to_uint n).
  induction u; cbn; constructor; (done || lia || auto); cbn; lia.
Qed.

Lemma str_of_Z_ascii z : Forall (λ c, c < 128) (str_of_Z z).
Proof.
  unfold str_of_Z. destruct z; try apply str_of_N_ascii. constructor; [lia|apply str_of_N_ascii].
Qed.

Lemma utf8_encode_app a b :
  utf8_encode (a ++ b) =
  match utf8_encode a, utf8_encode b with Some x, Some y => Some (x ++ y) | _, _ => None end.
Proof.
  induction a as [|c a IH]; cbn [app utf8_encode]; [by destruct (utf8_encode b)|].
  rewrite IH. destruct (utf8_char c), (utf8_encode a), (utf8_encode b); try done. by rewrite (assoc_L (++)).
Qed.
