(* ===== verification/PyHash.v ===== *)
(** * Canonical JSON and the SHA digests of the standard library

    [json.dumps(value, sort_keys=True, separators=(",", ":"))], the only form the service hashes,
    and the [hashlib] functions [sha256] (identities and digests of the diff map, of policies and
    of findings) and [sha1] (GitLab line codes), on byte lists. *)

From Stdlib Require Import Ascii String.
From S2P Require Import Prelude PyText.
Open Scope N_scope.
#[local] Set Warnings "-register-all".

(** ** JSON values *)

Inductive json : Type :=
| JNull
| JBool (b : bool)
| JInt (z : Z)
| JStr (s : pystr)
| JList (l : list json)
| JObj (kvs : list (pystr * json)).

Definition JOpt {A} (f : A → json) (o : option A) : json :=
  match o with Some a => f a | None => JNull end.

Definition u_escape (c : N) : pystr := 92 :: 117 :: hex_fixed 4 c.

(** The short escapes, common to both modes. *)
Definition json_short_escape (c : N) : option pystr :=
  if c =? 34 then Some [92; 34]
  else if c =? 92 then Some [92; 92]
  else if c =? 10 then Some [92; 110]
  else if c =? 13 then Some [92; 114]
  else if c =? 9 then Some [92; 116]
  else if c =? 12 then Some [92; 102]
  else if c =? 8 then Some [92; 98]
  else None.

(** One character under [ensure_ascii]: above the BMP it is a surrogate pair. *)
Definition json_char (ensure_ascii : bool) (c : N) : pystr :=
  match json_short_escape c with
  | Some e => e
  | None =>
      if ensure_ascii then
        if (32 <=? c) && (c <=? 126) then [c]
        else if c <? 65536 then u_escape c
        else let v := c - 65536 in
             u_escape (55296 + v / 1024) ++ u_escape (56320 + v mod 1024)
      else if c <? 32 then u_escape c else [c]
  end.

Definition json_string (ensure_ascii : bool) (s : pystr) : pystr :=
  34 :: (s ≫= json_char ensure_ascii) ++ [34].

Definition key_leb {A} (a b : pystr * A) : bool := str_leb (fst a) (fst b).

(** The compact form with sorted keys. *)
Fixpoint json_dumps (ensure_ascii : bool) (j : json) : pystr :=
  match j with
  | JNull => u8 "null"
  | JBool true => u8 "true"
  | JBool false => u8 "false"
  | JInt z => str_of_Z z
  | JStr s => json_string ensure_ascii s
  | JList l => u8 "[" ++ join [44] (map (json_dumps ensure_ascii) l) ++ u8 "]"
  | JObj kvs =>
      let shown := map (λ kv, (fst kv, json_dumps ensure_ascii (snd kv))) kvs in
      u8 "{"
      ++ join [44] (map (λ kv, json_string ensure_ascii (fst kv) ++ 58 :: snd kv)
                        (py_sorted key_leb shown))
      ++ u8 "}"
  end.

(** ** Words of 32 bits *)

Definition w32 (n : N) : N := n mod 4294967296.
Definition add32 (a b : N) : N := w32 (a + b).
Definition not32 (a : N) : N := 4294967295 - a.
Definition rotr32 (k a : N) : N := N.lor (N.shiftr a k) (w32 (N.shiftl a (32 - k))).
Definition rotl32 (k a : N) : N := rotr32 (32 - k) a.

Fixpoint be_bytes (n : nat) (v : N) : list N :=
  match n with
  | O => []
  | S n' => be_bytes n' (v / 256) ++ [v mod 256]
  end.

Definition be_word (bs : list N) : N := fold_left (λ acc b, acc * 256 + b) bs 0.

Fixpoint chunks {A} (fuel n : nat) (l : list A) : list (list A) :=
  match fuel with
  | O => []
  | S fuel' => match l with
               | [] => []
               | _ => take n l :: chunks fuel' n (drop n l)
               end
  end.

(** Merkle-Damgard padding to 64-byte blocks, as words. *)
Definition sha_blocks (msg : list N) : list (list N) :=
  let len := N.of_nat (length msg) in
  let zeros := N.to_nat ((119 - len mod 64) mod 64) in
  let padded := msg ++ 128 :: replicate zeros 0 ++ be_bytes 8 (len * 8) in
  map (λ b, map be_word (chunks 16 4 b)) (chunks (S (length padded / 64)) 64 padded).

(** ** SHA-256 *)

Definition sha256_K : list N :=
  [1116352408; 1899447441; 3049323471; 3921009573; 961987163; 1508970993;
   2453635748; 2870763221; 3624381080; 310598401; 607225278; 1426881987;
   1925078388; 2162078206; 2614888103; 3248222580; 3835390401; 4022224774;
   264347078; 604807628; 770255983; 1249150122; 1555081692; 1996064986;
   2554220882; 2821834349; 2952996808; 3210313671; 3336571891; 3584528711;
   113926993; 338241895; 666307205; 773529912; 1294757372; 1396182291;
   1695183700; 1986661051; 2177026350; 2456956037; 2730485921; 2820302411;
   3259730800; 3345764771; 3516065817; 3600352804; 4094571909; 275423344;
   430227734; 506948616; 659060556; 883997877; 958139571; 1322822218;
   1537002063; 1747873779; 1955562222; 2024104815; 2227730452; 2361852424;
   2428436474; 2756734187; 3204031479; 3329325298].
Definition sha256_H0 : list N :=
  [1779033703; 3144134277; 1013904242; 2773480762;
   1359893119; 2600822924; 528734635; 1541459225].

(** The message schedule, newest word first. *)
Fixpoint sha256_schedule (n : nat) (w : list N) : list N :=
  match n with
  | O => w
  | S n' =>
      let g i := nth i w 0 in
      let s0 := N.lxor (N.lxor (rotr32 7 (g 14%nat)) (rotr32 18 (g 14%nat))) (N.shiftr (g 14%nat) 3) in
      let s1 := N.lxor (N.lxor (rotr32 17 (g 1%nat)) (rotr32 19 (g 1%nat))) (N.shiftr (g 1%nat) 10) in
      sha256_schedule n' (w32 (g 15%nat + s0 + g 6%nat + s1) :: w)
  end.

Definition sha256_round (st : list N) (kw : N * N) : list N :=
  match st with
  | [a; b; c; d; e; f; g; h] =>
      let S1 := N.lxor (N.lxor (rotr32 6 e) (rotr32 11 e)) (rotr32 25 e) in
      let ch := N.lxor (N.land e f) (N.land (not32 e) g) in
      let t1 := h + S1 + ch + fst kw + snd kw in
      let S0 := N.lxor (N.lxor (rotr32 2 a) (rotr32 13 a)) (rotr32 22 a) in
      let maj := N.lxor (N.lxor (N.land a b) (N.land a c)) (N.land b c) in
      [w32 (t1 + S0 + maj); a; b; c; add32 d t1; e; f; g]
  | _ => st
  end.

Definition sha256_block (st block : list N) : list N :=
  let w := rev (sha256_schedule 48 (rev block)) in
  zip_with add32 st (fold_left sha256_round (zip sha256_K w) st).

Definition sha256_hex (msg : list N) : pystr :=
  fold_left sha256_block (sha_blocks msg) sha256_H0 ≫= hex_fixed 8.

(** ** SHA-1 *)

Fixpoint sha1_schedule (n : nat) (w : list N) : list N :=
  match n with
  | O => w
  | S n' =>
      let g i := nth i w 0 in
      sha1_schedule n'
        (rotl32 1 (N.lxor (N.lxor (g 2%nat) (g 7%nat)) (N.lxor (g 13%nat) (g 15%nat))) :: w)
  end.

Definition sha1_round (st : list N) (iw : nat * N) : list N :=
  match st with
  | [a; b; c; d; e] =>
      let '(i, w) := iw in
      let '(f, k) :=
        if (i <? 20)%nat then (N.lxor (N.land b c) (N.land (not32 b) d), 1518500249)
        else if (i <? 40)%nat then (N.lxor (N.lxor b c) d, 1859775393)
        else if (i <? 60)%nat
        then (N.lxor (N.lxor (N.land b c) (N.land b d)) (N.land c d), 2400959708)
        else (N.lxor (N.lxor b c) d, 3395469782) in
      [w32 (rotl32 5 a + f + e + k + w); a; rotl32 30 b; c; d]
  | _ => st
  end.

Definition sha1_block (st block : list N) : list N :=
  let w := rev (sha1_schedule 64 (rev block)) in
  zip_with add32 st (fold_left sha1_round (imap pair w) st).

Definition sha1_hex (msg : list N) : pystr :=
  fold_left sha1_block (sha_blocks msg)
    [1732584193; 4023233417; 2562383102; 271733878; 3285377520] ≫= hex_fixed 8.

(** [sha256(text.encode("utf-8")).hexdigest()]; [None] is the [UnicodeEncodeError] of a lone
    surrogate. *)
Definition sha256_text (s : pystr) : option pystr := sha256_hex <$> utf8_encode s.
Definition sha1_text (s : pystr) : option pystr := sha1_hex <$> utf8_encode s.

(** The digest of a JSON value. Its ASCII text always encodes to itself. *)
Definition json_digest (j : json) : pystr := sha256_hex (json_dumps true j).

Arguments sha256_hex _ : simpl never.
Arguments sha1_hex _ : simpl never.
Arguments json_digest _ : simpl never.
Arguments json_dumps _ _ : simpl never.
#[global] Strategy 1000 [sha256_hex sha1_hex json_dumps json_digest].

(** ** The published test vectors *)

Example sha256_abc :
  sha256_hex (string_bytes "abc")
  = u8 "ba7816bf8f01cfea414140de5dae2223b00361a396177a9cb410ff61f20015ad".
Proof. vm_compute. reflexivity. Qed.

Example sha256_two_blocks :
  sha256_hex (string_bytes "abcdbcdecdefdefgefghfghighijhijkijkljklmklmnlmnomnopnopq")
  = u8 "248d6a61d20638b8e5c026930c3e6039a33ce45964ff2167f6ecedd419db06c1".
Proof. vm_compute. reflexivity. Qed.

Example sha1_abc :
  sha1_hex (string_bytes "abc") = u8 "a9993e364706816aba3e25717850c26c9cd0d89d".
Proof. vm_compute. reflexivity. Qed.

(** ** Shape of a digest *)

Lemma hex_fixed_length w n : length (hex_fixed w n) = w.
Proof. revert n. induction w; intros n; cbn; [done|]. rewrite length_app, IHw. cbn. lia. Qed.

Lemma sha256_round_length st kw : length st = 8%nat → length (sha256_round st kw) = 8%nat.
Proof. intros H. do 9 (destruct st as [|? st]; try discriminate). done. Qed.

Lemma sha256_block_length st b : length st = 8%nat → length (sha256_block st b) = 8%nat.
Proof.
  intros H. unfold sha256_block. rewrite length_zip_with.
  enough (length (fold_left sha256_round (zip sha256_K (rev (sha256_schedule 48 (rev b)))) st)
          = 8%nat) by lia.
  generalize (zip sha256_K (rev (sha256_schedule 48 (rev b)))). intros l.
  revert st H. induction l; intros st H; [done|]. cbn. by apply IHl, sha256_round_length.
Qed.

(** A digest has 64 characters. *)
Lemma sha256_hex_length msg : length (sha256_hex msg) = 64%nat.
Proof.
  unfold sha256_hex. generalize (sha_blocks msg) as bs. intros bs.
  assert (H : length (fold_left sha256_block bs sha256_H0) = 8%nat).
  { assert (length sha256_H0 = 8%nat) as Hst by done. revert Hst. generalize sha256_H0.
    induction bs; intros st Hst; [done|]. cbn. by apply IHbs, sha256_block_length. }
  revert H. generalize (fold_left sha256_block bs sha256_H0). intros l H.
  do 9 (destruct l as [|? l]; try discriminate). cbn [mbind list_bind].
  by rewrite !length_app, !hex_fixed_length.
Qed.
