(* ===== verification/UnifiedDiff.v ===== *)
(** * Unified diff hunks ([app/modules/reviews/application/unified_diff.py])

    The low-level walk over the hunks of one patch: [split_lf], the hunk header expression
    [HUNK_HEADER] and [parse_hunks]. The walk is a fold of [parse_line] over the framed lines, on
    the local variables of the Python loop. Its specification is the grammar [patch_of], proved
    equivalent to it; numbering and line counts of the rows follow from the grammar. *)

From Stdlib Require Import String.
From S2P Require Import Prelude PyText.
Open Scope Z_scope.

(** ** Data *)

Inductive RowKind : Type := Row_context | Row_added | Row_removed.

#[export] Instance RowKind_eq_dec : EqDecision RowKind.
Proof. solve_decision. Defined.

Record HunkRow : Type := mkHunkRow {
  hr_kind : RowKind;
  hr_old_line : option Z;
  hr_new_line : option Z;
  hr_text : pystr;
  hr_old_cursor : Z;
  hr_new_cursor : Z;
}.

Record Hunk : Type := mkHunk {
  h_old_start : Z;
  h_old_count : Z;
  h_new_start : Z;
  h_new_count : Z;
  h_rows : list HunkRow;
}.

Definition NO_NEWLINE_MARKER : pystr := u8 "\ No newline at end of file".

(** What [parse_hunks] raises: its own [UnifiedDiffError], or the bare [ValueError] of [int] on
    more digits than the interpreter converts ([sys.int_info.default_max_str_digits]). *)
Inductive DiffError : Type :=
| UnifiedDiffError (message : pystr)
| IntDigitLimit.

Definition INT_MAX_STR_DIGITS : Z := 4300.

(** ** Lines *)

(** Split only on LF; a final empty piece is dropped. *)
Definition split_lf (patch : pystr) : list pystr :=
  match patch with
  | [] => []
  | _ =>
      let lines := split_on LF patch in
      match list.last lines with
      | Some [] => removelast lines
      | _ => lines
      end
  end.

(** ** The hunk header expression
    [^@@ -(\d+)(?:,(\d+))? \+(\d+)(?:,(\d+))? @@]. A digit run is followed by a comma or a space,
    so the greedy match never backtracks into it. *)

Definition Groups : Type := list N * option (list N) * list N * option (list N).

Definition expect (p s : pystr) : option pystr :=
  if startswith s p then Some (drop (length p) s) else None.

Definition match_digits (s : pystr) : option (list N * pystr) :=
  match take_digits s with
  | ([], _) => None
  | (ds, r) => Some (ds, r)
  end.

(** [(\d+)(?:,(\d+))?] *)
Definition match_range (s : pystr) : option (list N * option (list N) * pystr) :=
  match match_digits s with
  | None => None
  | Some (ds, r) =>
      match expect (u8 ",") r with
      | Some r' =>
          match match_digits r' with
          | Some (ds', r'') => Some (ds, Some ds', r'')
          | None => Some (ds, None, r)
          end
      | None => Some (ds, None, r)
      end
  end.

Definition hunk_header (line : pystr) : option Groups :=
  r1 ← expect (u8 "@@ -") line;
  '(g1, g2, r2) ← match_range r1;
  r3 ← expect (u8 " +") r2;
  '(g3, g4, r4) ← match_range r3;
  _ ← expect (u8 " @@") r4;
  Some (g1, g2, g3, g4).

(** [int(group)] *)
Definition int_of_group (ds : list N) : result DiffError Z :=
  if py_len ds <=? INT_MAX_STR_DIGITS then Ok (Z.of_N (digits_value ds))
  else Err IntDigitLimit.

Definition int_of_count (g : option (list N)) : result DiffError Z :=
  match g with None => Ok 1 | Some ds => int_of_group ds end.

(** ** The walk *)

(** The local variables of the loop. *)
Record Walk : Type := mkWalk {
  w_hunks : list Hunk;
  w_rows : list HunkRow;
  w_header : option (Z * Z * Z * Z);
  w_old_line : Z;
  w_new_line : Z;
  w_old_left : Z;
  w_new_left : Z;
}.

Definition walk_start : Walk := mkWalk [] [] None 0 0 0 0.

Definition close_hunk (h : Z * Z * Z * Z) (rows : list HunkRow) : Hunk :=
  let '(os, oc, ns, nc) := h in mkHunk os oc ns nc rows.

Definition nonzero (z : Z) : bool := negb (z =? 0).

(** A header line: close the open hunk, read the four numbers. *)
Definition open_hunk (w : Walk) (g : Groups) : result DiffError Walk :=
  let '(g1, g2, g3, g4) := g in
  hunks ← match w_header w with
          | Some h =>
              if nonzero (w_old_left w) || nonzero (w_new_left w)
              then Err (UnifiedDiffError
                          (u8 "GitHub diff hunk ended before its declared line counts"))
              else Ok (w_hunks w ++ [close_hunk h (w_rows w)])
          | None => Ok (w_hunks w)
          end;
  old_line ← int_of_group g1;
  new_line ← int_of_group g3;
  old_left ← int_of_count g2;
  new_left ← int_of_count g4;
  Ok (mkWalk hunks [] (Some (old_line, old_left, new_line, new_left))
        old_line new_line old_left new_left).

(** A content line of an open hunk: the row and the moves of both cursors. *)
Definition read_row (o n : Z) (line : pystr) : option (HunkRow * Z * Z) :=
  if startswith line (u8 "+")
  then Some (mkHunkRow Row_added None (Some n) (drop 1 line) o n, 0, 1)
  else if startswith line (u8 "-")
  then Some (mkHunkRow Row_removed (Some o) None (drop 1 line) o n, 1, 0)
  else if startswith line (u8 " ")
  then Some (mkHunkRow Row_context (Some o) (Some n) (drop 1 line) o n, 1, 1)
  else None.

Definition parse_line (w : Walk) (line : pystr) : result DiffError Walk :=
  match hunk_header line with
  | Some g => open_hunk w g
  | None =>
      match w_header w with
      | None => Err (UnifiedDiffError (u8 "GitHub diff has no hunk header"))
      | Some h =>
          if line =?s NO_NEWLINE_MARKER then Ok w
          else
            match read_row (w_old_line w) (w_new_line w) line with
            | None => Err (UnifiedDiffError (u8 "GitHub diff hunk has an unknown line"))
            | Some (row, dold, dnew) =>
                let w' := mkWalk (w_hunks w) (w_rows w ++ [row]) (Some h)
                            (w_old_line w + dold) (w_new_line w + dnew)
                            (w_old_left w - dold) (w_new_left w - dnew) in
                if (w_old_left w' <? 0) || (w_new_left w' <? 0)
                then Err (UnifiedDiffError
                            (u8 "GitHub diff hunk exceeded its declared line counts"))
                else Ok w'
            end
      end
  end.

Fixpoint walk_lines (w : Walk) (lines : list pystr) : result DiffError Walk :=
  match lines with
  | [] => Ok w
  | line :: rest => w' ← parse_line w line; walk_lines w' rest
  end.

(** The end of the patch. *)
Definition finish_walk (w : Walk) : result DiffError (list Hunk) :=
  match w_header w with
  | None => Err (UnifiedDiffError (u8 "GitHub diff hunk is incomplete"))
  | Some h =>
      if nonzero (w_old_left w) || nonzero (w_new_left w)
      then Err (UnifiedDiffError (u8 "GitHub diff hunk is incomplete"))
      else Ok (w_hunks w ++ [close_hunk h (w_rows w)])
  end.

Definition parse_hunks (lines : list pystr) : result DiffError (list Hunk) :=
  w ← walk_lines walk_start lines; finish_walk w.

(** ** Specification: the grammar of a patch *)

Definition on_old (r : HunkRow) : bool :=
  match hr_kind r with Row_added => false | _ => true end.
Definition on_new (r : HunkRow) : bool :=
  match hr_kind r with Row_removed => false | _ => true end.
Definition old_rows (rows : list HunkRow) : Z := py_len (List.filter on_old rows).
Definition new_rows (rows : list HunkRow) : Z := py_len (List.filter on_new rows).

(** The rows of a hunk body whose cursors start at [o] and [n], and the lines that spell them. *)
Inductive body_of : Z → Z → list HunkRow → list pystr → Prop :=
| body_nil o n : body_of o n [] []
| body_marker o n rows ls :
    body_of o n rows ls → body_of o n rows (NO_NEWLINE_MARKER :: ls)
| body_added o n t rows ls :
    body_of o (n + 1) rows ls →
    body_of o n (mkHunkRow Row_added None (Some n) t o n :: rows) ((43%N :: t) :: ls)
| body_removed o n t rows ls :
    body_of (o + 1) n rows ls →
    body_of o n (mkHunkRow Row_removed (Some o) None t o n :: rows) ((45%N :: t) :: ls)
| body_context o n t rows ls :
    body_of (o + 1) (n + 1) rows ls →
    body_of o n (mkHunkRow Row_context (Some o) (Some n) t o n :: rows) ((32%N :: t) :: ls).

(** A line that opens a hunk with these four numbers. *)
Definition header_of (line : pystr) (os oc ns nc : Z) : Prop :=
  ∃ g1 g2 g3 g4, hunk_header line = Some (g1, g2, g3, g4) ∧
    int_of_group g1 = Ok os ∧ int_of_count g2 = Ok oc ∧
    int_of_group g3 = Ok ns ∧ int_of_count g4 = Ok nc.

(** The body of a hunk has exactly the declared number of lines on each side. *)
Inductive patch_of : list Hunk → list pystr → Prop :=
| patch_nil : patch_of [] []
| patch_hunk line os oc ns nc rows body hs rest :
    header_of line os oc ns nc →
    body_of os ns rows body →
    old_rows rows = oc → new_rows rows = nc →
    patch_of hs rest →
    patch_of (mkHunk os oc ns nc rows :: hs) (line :: body ++ rest).

(** Rows numbered from the cursors [o] and [n]: a line has a number on the sides it exists on. *)
Fixpoint numbered (o n : Z) (rows : list HunkRow) : Prop :=
  match rows with
  | [] => True
  | r :: rest =>
      hr_old_cursor r = o ∧ hr_new_cursor r = n ∧
      match hr_kind r with
      | Row_context =>
          hr_old_line r = Some o ∧ hr_new_line r = Some n ∧ numbered (o + 1) (n + 1) rest
      | Row_added =>
          hr_old_line r = None ∧ hr_new_line r = Some n ∧ numbered o (n + 1) rest
      | Row_removed =>
          hr_old_line r = Some o ∧ hr_new_line r = None ∧ numbered (o + 1) n rest
      end
  end.

Record hunk_wf (h : Hunk) : Prop := {
  wf_old_start : 0 ≤ h_old_start h;
  wf_new_start : 0 ≤ h_new_start h;
  wf_numbered : numbered (h_old_start h) (h_new_start h) (h_rows h);
  wf_old_count : old_rows (h_rows h) = h_old_count h;
  wf_new_count : new_rows (h_rows h) = h_new_count h;
}.

(** ** Printing a hunk *)

Definition kind_prefix (k : RowKind) : char :=
  match k with Row_context => 32%N | Row_added => 43%N | Row_removed => 45%N end.

Definition render_header (h : Hunk) : pystr :=
  u8 "@@ -" ++ str_of_Z (h_old_start h) ++ u8 "," ++ str_of_Z (h_old_count h)
  ++ u8 " +" ++ str_of_Z (h_new_start h) ++ u8 "," ++ str_of_Z (h_new_count h) ++ u8 " @@".
Definition render_hunk (h : Hunk) : list pystr :=
  render_header h :: map (λ r, kind_prefix (hr_kind r) :: hr_text r) (h_rows h).
Definition render_patch (hs : list Hunk) : pystr :=
  concat (map (λ l, l ++ [LF]) (concat (map render_hunk hs))).

(** * The walk accepts exactly the grammar *)

Lemma expect_some p s r : expect p s = Some r ↔ s = p ++ r.
Proof.
  unfold expect. destruct (startswith s p) eqn:E.
  - apply startswith_iff in E as [r' ->]. rewrite drop_app_length. naive_solver.
  - split; [done|]. intros ->. by rewrite startswith_app in E.
Qed.

Lemma hunk_header_at line g : hunk_header line = Some g → ∃ s, line = 64%N :: s.
Proof.
  unfold hunk_header. destruct (expect (u8 "@@ -") line) as [r|] eqn:E; [|done].
  intros _. apply expect_some in E. subst. by eexists.
Qed.

Lemma marker_no_header : hunk_header NO_NEWLINE_MARKER = None.
Proof. reflexivity. Qed.

Lemma row_no_header c t : c ≠ 64%N → hunk_header (c :: t) = None.
Proof.
  intros Hc. destruct (hunk_header (c :: t)) eqn:E; [|done].
  apply hunk_header_at in E as [s [=]]. done.
Qed.

Lemma read_row_iff o n line row dold dnew :
  read_row o n line = Some (row, dold, dnew) ↔
  ∃ t, (line = 43%N :: t ∧ row = mkHunkRow Row_added None (Some n) t o n ∧ dold = 0 ∧ dnew = 1)
     ∨ (line = 45%N :: t ∧ row = mkHunkRow Row_removed (Some o) None t o n ∧ dold = 1 ∧ dnew = 0)
     ∨ (line = 32%N :: t ∧ row = mkHunkRow Row_context (Some o) (Some n) t o n
        ∧ dold = 1 ∧ dnew = 1).
Proof.
  unfold read_row. change (u8 "+") with [43%N]. change (u8 "-") with [45%N].
  change (u8 " ") with [32%N]. split.
  - intros H. repeat case_match; try done;
      match goal with E : startswith _ _ = true |- _ => apply startswith_iff in E as [t ->] end;
      exists t; cbn in *; simplify_eq; naive_solver.
  - intros [t [(-> & -> & -> & ->)|[(-> & -> & -> & ->)|(-> & -> & -> & ->)]]]; reflexivity.
Qed.

Lemma int_of_group_nonneg g z : int_of_group g = Ok z → 0 ≤ z.
Proof. unfold int_of_group. intros H. split_match_in H. lia. Qed.

Lemma int_of_count_nonneg g z : int_of_count g = Ok z → 0 ≤ z.
Proof. destruct g; cbn; [apply int_of_group_nonneg|]. intros [= <-]. lia. Qed.

Lemma nonzero_false z : nonzero z = false ↔ z = 0.
Proof. unfold nonzero. rewrite negb_false_iff. apply Z.eqb_eq. Qed.

(** A header line read inside an open hunk. *)
Lemma open_hunk_iff w h g w' :
  w_header w = Some h →
  open_hunk w g = Ok w' ↔
  w_old_left w = 0 ∧ w_new_left w = 0 ∧
  ∃ g1 g2 g3 g4 os oc ns nc, g = (g1, g2, g3, g4) ∧
    int_of_group g1 = Ok os ∧ int_of_count g2 = Ok oc ∧
    int_of_group g3 = Ok ns ∧ int_of_count g4 = Ok nc ∧
    w' = mkWalk (w_hunks w ++ [close_hunk h (w_rows w)]) [] (Some (os, oc, ns, nc)) os ns oc nc.
Proof.
  intros Hh. destruct g as [[[g1 g2] g3] g4]. unfold open_hunk. rewrite Hh.
  destruct (nonzero (w_old_left w) || nonzero (w_new_left w)) eqn:E.
  { split; [done|]. intros (H1 & H2 & _). rewrite H1, H2 in E. done. }
  apply orb_false_iff in E as [E1%nonzero_false E2%nonzero_false]. cbn. split.
  - intros H. repeat (apply bind_ok in H as (? & ? & H)). simplify_eq. eauto 20.
  - intros (_ & _ & ? & ? & ? & ? & os & oc & ns & nc & ? & H1 & H2 & H3 & H4 & ->).
    simplify_eq. by rewrite H1, H3, H2, H4.
Qed.

(** The first header of a patch. *)
Lemma open_first_iff g w' :
  open_hunk walk_start g = Ok w' ↔
  ∃ g1 g2 g3 g4 os oc ns nc, g = (g1, g2, g3, g4) ∧
    int_of_group g1 = Ok os ∧ int_of_count g2 = Ok oc ∧
    int_of_group g3 = Ok ns ∧ int_of_count g4 = Ok nc ∧
    w' = mkWalk [] [] (Some (os, oc, ns, nc)) os ns oc nc.
Proof.
  destruct g as [[[g1 g2] g3] g4]. cbn. split.
  - intros H. repeat (apply bind_ok in H as (? & ? & H)). simplify_eq. eauto 20.
  - intros (? & ? & ? & ? & os & oc & ns & nc & ? & H1 & H2 & H3 & H4 & ->).
    simplify_eq. by rewrite H1, H3, H2, H4.
Qed.

Lemma old_rows_cons r rows :
  old_rows (r :: rows) = (if on_old r then 1 else 0) + old_rows rows.
Proof. unfold old_rows, py_len. cbn. destruct (on_old r); cbn; lia. Qed.

Lemma new_rows_cons r rows :
  new_rows (r :: rows) = (if on_new r then 1 else 0) + new_rows rows.
Proof. unfold new_rows, py_len. cbn. destruct (on_new r); cbn; lia. Qed.

Lemma old_rows_nonneg rows : 0 ≤ old_rows rows.
Proof. apply py_len_nonneg. Qed.
Lemma new_rows_nonneg rows : 0 ≤ new_rows rows.
Proof. apply py_len_nonneg. Qed.

Create Rewrite HintDb rows.
#[export] Hint Rewrite old_rows_cons new_rows_cons : rows.

(** What the rest of the walk makes of an open hunk. *)
Definition closes (w : Walk) (h : Z * Z * Z * Z) (ls : list pystr) (hs : list Hunk) : Prop :=
  ∃ rows body rest hs',
    ls = body ++ rest ∧ body_of (w_old_line w) (w_new_line w) rows body ∧
    old_rows rows = w_old_left w ∧ new_rows rows = w_new_left w ∧
    patch_of hs' rest ∧ hs = w_hunks w ++ close_hunk h (w_rows w ++ rows) :: hs'.

Definition walk_end (w : Walk) (ls : list pystr) : result DiffError (list Hunk) :=
  w' ← walk_lines w ls; finish_walk w'.

Lemma walk_end_cons w line ls :
  walk_end w (line :: ls) = w' ← parse_line w line; walk_end w' ls.
Proof. unfold walk_end. cbn. by destruct (parse_line w line). Qed.

(** One content row, read in an open hunk. *)
Definition push_row (w : Walk) (row : HunkRow) (dold dnew : Z) : Walk :=
  mkWalk (w_hunks w) (w_rows w ++ [row]) (w_header w)
    (w_old_line w + dold) (w_new_line w + dnew) (w_old_left w - dold) (w_new_left w - dnew).

Lemma parse_line_row w h line row dold dnew :
  w_header w = Some h →
  read_row (w_old_line w) (w_new_line w) line = Some (row, dold, dnew) →
  parse_line w line =
    if (w_old_left w - dold <? 0) || (w_new_left w - dnew <? 0)
    then Err (UnifiedDiffError (u8 "GitHub diff hunk exceeded its declared line counts"))
    else Ok (push_row w row dold dnew).
Proof.
  intros Hh Hr. pose proof Hr as (t & Ht)%read_row_iff. unfold parse_line, push_row.
  destruct Ht as [(-> & _)|[(-> & _)|(-> & _)]]; rewrite row_no_header by done;
    rewrite Hh; cbn -[u8]; by rewrite Hr.
Qed.

(** Extending a body by the line just read. *)
Lemma closes_row w h line row dold dnew ls hs :
  w_header w = Some h →
  read_row (w_old_line w) (w_new_line w) line = Some (row, dold, dnew) →
  closes (push_row w row dold dnew) h ls hs → closes w h (line :: ls) hs.
Proof.
  intros Hh (t & Ht)%read_row_iff (rows & body & rest & hs' & -> & Hb & Ho & Hn & Hp & ->).
  exists (row :: rows), (line :: body), rest, hs'. cbn in Hb, Ho, Hn.
  autorewrite with rows. cbn [push_row w_hunks w_rows]. rewrite <- app_assoc. cbn [app].
  destruct Ht as [(-> & -> & -> & ->)|[(-> & -> & -> & ->)|(-> & -> & -> & ->)]];
    rewrite ?Z.add_0_r in *; cbn [on_old on_new hr_kind];
    (split; [done|]); (split; [first [exact (body_added _ _ _ _ _ Hb)|exact (body_removed _ _ _ _ _ Hb)
      |exact (body_context _ _ _ _ _ Hb)]|]); rewrite ?Ho, ?Hn;
    split_and!; try done; cbn; lia.
Qed.

Lemma walk_end_closes ls w h hs :
  w_header w = Some h → walk_end w ls = Ok hs → closes w h ls hs.
Proof.
  revert w h hs. induction ls as [|line ls IH]; intros w h hs Hh H.
  - unfold walk_end in H. cbn in H. unfold finish_walk in H. rewrite Hh in H. split_match_in H.
    apply orb_false_iff in Heqb as [E1%nonzero_false E2%nonzero_false].
    exists [], [], [], []. rewrite !app_nil_r, E1, E2. split_and!; done || constructor.
  - rewrite walk_end_cons in H. apply bind_ok in H as (w' & Hl & H).
    unfold parse_line in Hl. destruct (hunk_header line) as [g|] eqn:Hg.
    + apply (open_hunk_iff w h) in Hl; [|done].
      destruct Hl as (E1 & E2 & g1 & g2 & g3 & g4 & os & oc & ns & nc & -> & ? & ? & ? & ? & ->).
      apply (IH _ (os, oc, ns, nc)) in H; [|done].
      destruct H as (rows & body & rest & hs' & -> & Hb & Ho & Hn & Hp & ->).
      exists [], [], (line :: body ++ rest), (mkHunk os oc ns nc rows :: hs').
      rewrite !app_nil_r, E1, E2. cbn in *. split_and!; try done; [constructor| |].
      * econstructor; try done. red. eauto 10.
      * by rewrite <- app_assoc.
    + rewrite Hh in Hl. destruct (line =?s NO_NEWLINE_MARKER) eqn:Em.
      * simplify_eq. apply str_eqb_eq in Em as ->.
        destruct (IH _ _ _ Hh H) as (rows & body & rest & hs' & -> & Hb & ?).
        exists rows, (NO_NEWLINE_MARKER :: body), rest, hs'. split; [done|].
        split; [by constructor|done].
      * destruct (read_row _ _ line) as [[[row dold] dnew]|] eqn:Hr; [|done].
        cbn -[u8] in Hl. case_match; [done|]. simplify_eq.
        eapply closes_row; [done..|]. eapply IH; [done|]. unfold push_row. by rewrite Hh.
Qed.

Lemma patch_of_cons_inv hs line ls :
  patch_of hs (line :: ls) →
  ∃ os oc ns nc rows body hs' rest,
    hs = mkHunk os oc ns nc rows :: hs' ∧ ls = body ++ rest ∧ header_of line os oc ns nc ∧
    body_of os ns rows body ∧ old_rows rows = oc ∧ new_rows rows = nc ∧ patch_of hs' rest.
Proof. inversion 1; subst. by do 8 eexists. Qed.

Lemma patch_of_head_header hs line ls : patch_of hs (line :: ls) → hunk_header line ≠ None.
Proof.
  intros (? & ? & ? & ? & ? & ? & ? & ? & _ & _ & (? & ? & ? & ? & H & _) & _)%patch_of_cons_inv.
  congruence.
Qed.

Lemma body_of_head_no_header o n rows line body :
  body_of o n rows (line :: body) → hunk_header line = None.
Proof. inversion 1; subst; [apply marker_no_header|by apply row_no_header..]. Qed.

(** The row at the head of a body that has rows left to read. *)
Lemma closes_row_inv w h line ls hs :
  w_header w = Some h → hunk_header line = None →
  closes w h (line :: ls) hs → line ≠ NO_NEWLINE_MARKER →
  ∃ row dold dnew, read_row (w_old_line w) (w_new_line w) line = Some (row, dold, dnew) ∧
    0 ≤ w_old_left w - dold ∧ 0 ≤ w_new_left w - dnew ∧
    closes (push_row w row dold dnew) h ls hs.
Proof.
  intros Hh Hl (rows & body & rest & hs' & Heq & Hb & Ho & Hn & Hp & ->) Hm.
  destruct body as [|l body]; cbn in Heq; simplify_eq.
  { by apply patch_of_head_header in Hp. }
  inversion Hb as [|? ? ? ? Hb'|? ? t rows' ? Hb'|? ? t rows' ? Hb'|? ? t rows' ? Hb'];
    subst; [done|..]; autorewrite with rows in Ho, Hn; cbn in Ho, Hn;
    pose proof (old_rows_nonneg rows'); pose proof (new_rows_nonneg rows');
    do 3 eexists; (split; [apply read_row_iff; exists t; eauto 10|]);
    (split; [lia|]); (split; [lia|]); exists rows', body, rest, hs'; cbn [push_row w_hunks w_rows];
    rewrite <- app_assoc; cbn; rewrite ?Z.add_0_r; split_and!;
    first [exact Hb'|exact Hp|lia|reflexivity].
Qed.

Lemma closes_walk_end ls w h hs :
  w_header w = Some h → closes w h ls hs → walk_end w ls = Ok hs.
Proof.
  revert w h hs. induction ls as [|line ls IH]; intros w h hs Hh Hc.
  - destruct Hc as (rows & body & rest & hs' & Heq & Hb & Ho & Hn & Hp & ->).
    symmetry in Heq. apply app_eq_nil in Heq as [-> ->]. inversion Hb; inversion Hp; subst.
    unfold walk_end. cbn. unfold finish_walk. rewrite Hh, <- Ho, <- Hn. cbn.
    by rewrite app_nil_r.
  - rewrite walk_end_cons. destruct (hunk_header line) as [g|] eqn:Hg.
    + destruct Hc as (rows & body & rest & hs' & Heq & Hb & Ho & Hn & Hp & ->).
      destruct body as [|l body]; cbn in Heq; simplify_eq;
        [|apply body_of_head_no_header in Hb; congruence].
      apply patch_of_cons_inv in Hp
        as (os & oc & ns & nc & rs & body & hs0 & rest0 & -> & -> & Hd & Hb' & <- & <- & Hp).
      destruct Hd as (g1 & g2 & g3 & g4 & Hg' & H1 & H2 & H5 & H6). inversion Hb; subst. rewrite Hg in Hg'. injection Hg' as ->.
      unfold parse_line. rewrite Hg. 
      erewrite (proj2 (open_hunk_iff w h _ _ Hh))
        by (repeat split; [by rewrite <- Ho|by rewrite <- Hn|]; by do 8 eexists).
      cbn. eapply IH; [done|]. rewrite app_nil_r.
      exists rs, body, rest0, hs0. cbn. by rewrite <- app_assoc.
    + destruct (decide (line = NO_NEWLINE_MARKER)) as [->|Hm].
      * unfold parse_line. rewrite Hg, Hh, str_eqb_refl. cbn. apply (IH _ h); [done|].
        destruct Hc as (rows & body & rest & hs' & Heq & Hb & Ho & Hn & Hp & ->).
        destruct body as [|l body]; cbn in Heq; simplify_eq.
        { by apply patch_of_head_header in Hp. }
        inversion Hb; subst. by exists rows, body, rest, hs'.
      * destruct (closes_row_inv w h line ls hs)
          as (row & dold & dnew & Hr & Ho & Hn & Hc'); [done..|].
        rewrite (parse_line_row w h _ row dold dnew) by done.
        rewrite (proj2 (Z.ltb_ge _ 0)), (proj2 (Z.ltb_ge _ 0)) by lia. cbn.
        by apply (IH _ h).
Qed.

Lemma parse_hunks_patch lines hs :
  parse_hunks lines = Ok hs ↔ hs ≠ [] ∧ patch_of hs lines.
Proof.
  change (parse_hunks lines) with (walk_end walk_start lines).
  destruct lines as [|line ls].
  { split; [done|]. intros [Hne Hp]. by inversion Hp. }
  rewrite walk_end_cons. split.
  - intros (w & Hl & H)%bind_ok. unfold parse_line in Hl.
    destruct (hunk_header line) as [g|] eqn:Hg; [|done].
    apply open_first_iff in Hl as (g1 & g2 & g3 & g4 & os & oc & ns & nc & -> & ? & ? & ? & ? & ->).
    apply (walk_end_closes _ _ (os, oc, ns, nc)) in H; [|done].
    destruct H as (rows & body & rest & hs' & -> & Hb & Ho & Hn & Hp & ->). cbn in *.
    split; [done|]. econstructor; try done. red. eauto 10.
  - intros [_ Hp].
    apply patch_of_cons_inv in Hp
      as (os & oc & ns & nc & rs & body & hs0 & rest0 & -> & -> & Hd & Hb & Ho & Hn & Hp).
    destruct Hd as (g1 & g2 & g3 & g4 & Hg & H1 & H2 & H3 & H4).
    unfold parse_line. rewrite Hg.
    erewrite (proj2 (open_first_iff _ _)) by (by do 8 eexists). cbn.
    eapply closes_walk_end; [done|]. by exists rs, body, rest0, hs0.
Qed.

Lemma body_of_numbered o n rows ls : body_of o n rows ls → numbered o n rows.
Proof. induction 1; cbn; auto. Qed.

Lemma patch_of_wf hs ls : patch_of hs ls → Forall hunk_wf hs.
Proof.
  induction 1 as [|? ? ? ? ? ? ? ? ? (g1 & g2 & g3 & g4 & _ & H1 & _ & H3 & _) Hb]; constructor; [|done].
  constructor; cbn; eauto using int_of_group_nonneg, body_of_numbered.
Qed.

Lemma parse_hunks_wf lines hs : parse_hunks lines = Ok hs → Forall hunk_wf hs.
Proof. intros [_ H]%parse_hunks_patch. by eapply patch_of_wf. Qed.

(** ** The digit limit *)

Definition long_group (ds : list N) : Prop := INT_MAX_STR_DIGITS < py_len ds.

(** A header with a number of more digits than [int] converts. *)
Definition long_header (line : pystr) : Prop :=
  ∃ g1 g2 g3 g4, hunk_header line = Some (g1, g2, g3, g4) ∧
    (long_group g1 ∨ long_group g3 ∨
     (∃ ds, g2 = Some ds ∧ long_group ds) ∨ (∃ ds, g4 = Some ds ∧ long_group ds)).

Lemma int_of_group_limit ds e : int_of_group ds = Err e → long_group ds.
Proof. unfold int_of_group, long_group. case_match eqn:E; [done|]. apply Z.leb_gt in E. lia. Qed.

Lemma int_of_count_limit g e : int_of_count g = Err e → ∃ ds, g = Some ds ∧ long_group ds.
Proof. destruct g; cbn; [|done]. intros H%int_of_group_limit. eauto. Qed.

Lemma open_hunk_limit w g1 g2 g3 g4 :
  open_hunk w (g1, g2, g3, g4) = Err IntDigitLimit →
  long_group g1 ∨ long_group g3 ∨
  (∃ ds, g2 = Some ds ∧ long_group ds) ∨ (∃ ds, g4 = Some ds ∧ long_group ds).
Proof.
  unfold open_hunk. intros H.
  destruct (match w_header w with Some _ => _ | None => _ end) as [hs|e] eqn:E; cbn in H;
    [|by repeat case_match; simplify_eq].
  destruct (int_of_group g1) eqn:E1; cbn in H; [|apply int_of_group_limit in E1; auto].
  destruct (int_of_group g3) eqn:E3; cbn in H; [|apply int_of_group_limit in E3; auto].
  destruct (int_of_count g2) eqn:E2; cbn in H; [|apply int_of_count_limit in E2; auto].
  destruct (int_of_count g4) eqn:E4; cbn in H; [done|apply int_of_count_limit in E4; auto].
Qed.

Lemma parse_hunks_limit lines :
  parse_hunks lines = Err IntDigitLimit → ∃ line, In line lines ∧ long_header line.
Proof.
  change (parse_hunks lines) with (walk_end walk_start lines). generalize walk_start as w.
  induction lines as [|line ls IH]; intros w H.
  { unfold walk_end in H. cbn in H. unfold finish_walk in H. by repeat case_match. }
  rewrite walk_end_cons in H. destruct (parse_line w line) as [w'|e] eqn:E; cbn in H.
  { destruct (IH w' H) as (l & Hl & ?). exists l. split; [by right|done]. }
  simplify_eq. exists line. split; [by left|]. unfold parse_line in E.
  destruct (hunk_header line) as [[[[g1 g2] g3] g4]|] eqn:Hg; [|by repeat case_match; simplify_eq].
  red. do 4 eexists. split; [done|]. by eapply open_hunk_limit.
Qed.

(** ** A printed patch is read back *)

Lemma match_digits_str n s :
  starts_nondigit s →
  ∃ ds, match_digits (str_of_N n ++ s) = Some (ds, s) ∧ digits_value ds = n ∧
        ds = uint_digits (N.to_uint n).
Proof.
  intros Hs. exists (uint_digits (N.to_uint n)). split; [|split; [apply digits_value_str|done]].
  destruct (take_digits_str n s Hs) as (ds & H & _ & Hne).
  assert (Ht : take_digits (str_of_N n ++ s) = (uint_digits (N.to_uint n), s))
    by (apply take_digits_app; [apply uint_digits_bound|done]).
  unfold match_digits. rewrite Ht in *. simplify_eq.
  by destruct (uint_digits (N.to_uint n)).
Qed.

(** A number the interpreter converts. *)
Definition readable (z : Z) : Prop :=
  0 ≤ z ∧ py_len (uint_digits (N.to_uint (Z.to_N z))) ≤ INT_MAX_STR_DIGITS.

Lemma str_of_Z_nonneg z : 0 ≤ z → str_of_Z z = str_of_N (Z.to_N z).
Proof. destruct z; cbn; try done; lia. Qed.

Lemma int_of_group_str z :
  readable z → int_of_group (uint_digits (N.to_uint (Z.to_N z))) = Ok z.
Proof.
  intros [H0 Hl]. unfold int_of_group. rewrite (proj2 (Z.leb_le _ _) Hl), digits_value_str.
  f_equal. lia.
Qed.

Lemma match_range_str a b s :
  0 ≤ a → 0 ≤ b → starts_nondigit s →
  match_range (str_of_Z a ++ u8 "," ++ str_of_Z b ++ s)
  = Some (uint_digits (N.to_uint (Z.to_N a)), Some (uint_digits (N.to_uint (Z.to_N b))), s).
Proof.
  intros Ha Hb Hs. rewrite !str_of_Z_nonneg by done. unfold match_range.
  destruct (match_digits_str (Z.to_N a) (u8 "," ++ str_of_N (Z.to_N b) ++ s))
    as (ds & -> & _ & ->); [done|].
  rewrite (proj2 (expect_some _ _ _) eq_refl).
  by destruct (match_digits_str (Z.to_N b) s) as (ds' & -> & _ & ->).
Qed.

Definition readable_hunk (h : Hunk) : Prop :=
  readable (h_old_start h) ∧ readable (h_old_count h) ∧
  readable (h_new_start h) ∧ readable (h_new_count h).

Lemma render_header_of h :
  readable_hunk h →
  header_of (render_header h) (h_old_start h) (h_old_count h) (h_new_start h) (h_new_count h).
Proof.
  intros (H1 & H2 & H3 & H4). red. do 4 eexists. split.
  - unfold hunk_header, render_header. rewrite (proj2 (expect_some _ _ _) eq_refl). cbn [mbind option_bind].
    rewrite match_range_str by (apply H1 || apply H2 || done). cbn [mbind option_bind].
    rewrite (proj2 (expect_some _ _ _) eq_refl). cbn [mbind option_bind].
    rewrite match_range_str by (apply H3 || apply H4 || done). cbn [mbind option_bind].
    by rewrite (proj2 (expect_some (u8 " @@") (u8 " @@") []) eq_refl).
  - cbn [int_of_count]. rewrite !int_of_group_str by done. done.
Qed.

Lemma numbered_body o n rows :
  numbered o n rows → body_of o n rows (map (λ r, kind_prefix (hr_kind r) :: hr_text r) rows).
Proof.
  revert o n. induction rows as [|[k ol nl t oc nc] rows IH]; intros o n H; [constructor|].
  cbn in H. destruct H as (-> & -> & H). destruct k; destruct H as (-> & -> & H); cbn;
    constructor; by apply IH.
Qed.

Lemma render_patch_of hs :
  Forall hunk_wf hs → Forall readable_hunk hs → patch_of hs (concat (map render_hunk hs)).
Proof.
  intros Hw Hr. induction hs as [|h hs IH]; cbn; [constructor|].
  inv Hw. inv Hr. destruct h as [os oc ns nc rows]. destruct H1 as [? ? Hnum Ho Hn]. cbn in *.
  apply (patch_hunk _ os oc ns nc rows); auto using numbered_body.
  by apply (render_header_of (mkHunk os oc ns nc rows)).
Qed.

Lemma split_on_lines ls :
  Forall (λ l, ¬ In LF l) ls →
  split_on LF (concat (map (λ l, l ++ [LF]) ls)) = ls ++ [[]].
Proof.
  induction 1 as [|l ls Hl Hls IH]; [done|]. cbn [map concat].
  rewrite <- app_assoc. cbn [app]. rewrite split_on_app_sep by done. by rewrite IH.
Qed.

(** Framing: lines that end with LF are given back by [split_lf]. *)
Lemma split_lf_lines ls :
  Forall (λ l, ¬ In LF l) ls → split_lf (concat (map (λ l, l ++ [LF]) ls)) = ls.
Proof.
  intros H. unfold split_lf. rewrite split_on_lines, last_snoc, removelast_last by done.
  destruct ls as [|l ls]; [done|]. cbn. by destruct l.
Qed.

(** Digits and header punctuation are not line feeds. *)
Lemma str_of_Z_no_lf z : ¬ In LF (str_of_Z z).
Proof.
  assert (H : ∀ n, ¬ In LF (str_of_N n)).
  { intros n (d & Hd & _)%list_elem_of_In%list_elem_of_fmap. unfold LF in Hd. lia. }
  destruct z as [|p|p]; [apply (H 0%N)|apply (H (N.pos p))|].
  intros [?|Hin]; [done|]. by apply (H (N.pos p)).
Qed.

Lemma render_hunk_no_lf h :
  Forall (λ r, ¬ In LF (hr_text r)) (h_rows h) → Forall (λ l, ¬ In LF l) (render_hunk h).
Proof.
  intros H. unfold render_hunk. constructor.
  - unfold render_header. rewrite !in_app_iff. pose proof str_of_Z_no_lf as Hz.
    intros Hin. repeat destruct Hin as [Hin|Hin]; try exact (Hz _ Hin);
      vm_compute in Hin; intuition discriminate.
  - apply List.Forall_map. eapply List.Forall_impl; [|exact H]. intros [k ? ? t ? ?] Ht. cbn in *.
    intros [?|?]; [|done]. by destruct k.
Qed.
(** C5. [parse_hunks] returns hunks exactly for the patches of the grammar: every hunk opens with
    a header line, its body is spelled by lines with a side prefix (a "no newline" marker is not a
    row), and each side has exactly the declared number of lines. Every other input raises. *)
Theorem parse_hunks_iff lines hs :
  parse_hunks lines = Ok hs ↔ hs ≠ [] ∧ patch_of hs lines.
Proof. apply parse_hunks_patch. Qed.

(** Every hunk that [parse_hunks] returns starts at non-negative line numbers, its rows are
    numbered consecutively from them on the side or sides they exist on, and it has exactly the
    declared number of old and of new lines. *)
Theorem parse_hunks_numbering lines hs :
  parse_hunks lines = Ok hs → hs ≠ [] ∧ Forall hunk_wf hs.
Proof. intros H. split; [by apply parse_hunks_patch in H as []|by eapply parse_hunks_wf]. Qed.

(** A list of well-formed hunks, printed as a patch, is framed and parsed back to itself. *)
Theorem parse_render_patch hs :
  hs ≠ [] → Forall hunk_wf hs → Forall readable_hunk hs →
  Forall (λ h, Forall (λ r, ¬ In LF (hr_text r)) (h_rows h)) hs →
  parse_hunks (split_lf (render_patch hs)) = Ok hs.
Proof.
  intros Hne Hw Hr Ht. unfold render_patch. rewrite split_lf_lines.
  - apply parse_hunks_patch. split; [done|]. by apply render_patch_of.
  - clear -Ht. induction Ht; cbn [map concat]; [constructor|].
    apply List.Forall_app. split; [by apply render_hunk_no_lf|done].
Qed.

(** A hunk with a context, a removed and an added line, and a patch that spells it. *)
Definition sample_hunk : Hunk :=
  mkHunk 7 2 9 2
    [mkHunkRow Row_context (Some 7) (Some 9) (u8 "ctx") 7 9;
     mkHunkRow Row_removed (Some 8) None (u8 "old") 8 10;
     mkHunkRow Row_added None (Some 10) (u8 "new") 9 10].
Definition sample_patch : list pystr :=
  [u8 "@@ -7,2 +9,2 @@ def f():"; u8 " ctx"; u8 "-old"; u8 "+new"; NO_NEWLINE_MARKER].

Lemma parse_hunks_numbering_witness :
  parse_hunks sample_patch = Ok [sample_hunk] ∧ hunk_wf sample_hunk.
Proof.
  assert (H : parse_hunks sample_patch = Ok [sample_hunk]) by (vm_compute; reflexivity).
  split; [exact H|]. destruct (parse_hunks_numbering _ _ H) as [_ Hw].
  exact (Forall_inv Hw).
Defined.

Lemma parse_render_patch_witness :
  parse_hunks (split_lf (render_patch [sample_hunk])) = Ok [sample_hunk].
Proof.
  apply parse_render_patch.
  - discriminate.
  - by repeat constructor.
  - by repeat constructor.
  - repeat constructor; vm_compute; intuition discriminate.
Defined.
