(* ===== verification/DiffMap.v ===== *)
(** * The diff map ([app/modules/reviews/application/diff_map.py])

    DiffMap/v1: the immutable map of one pull request diff, built from the files the provider
    returned ([VcsFile], of [vcs_diff.py]). [build_diff_map_from_facts] and everything it calls
    are translated: the path contract, change types, patch states, hunks with their row identities
    and the digests. [diagnostic_text], the escape of provider names for the trace, is here too.

    The theorems show that the map holds canonical paths only, that withheld files carry no hunk,
    that in a file every line number of either side belongs to one row (numbers increase strictly
    through its hunks), that a complete file agrees with the provider's statistics, and that the
    trace escape is reversible and bounded. *)

From Stdlib Require Import String.
From S2P Require Import Prelude PyText PyHash UnifiedDiff.
Open Scope Z_scope.

(** ** Provider files *)

(** [FileStatus], the statuses GitHub reports. *)
Inductive FileStatus : Type :=
| Status_added | Status_removed | Status_modified | Status_renamed
| Status_copied | Status_changed | Status_unchanged.

#[export] Instance FileStatus_eq_dec : EqDecision FileStatus.
Proof. solve_decision. Defined.

Definition FileStatus_value (s : FileStatus) : pystr :=
  match s with
  | Status_added => u8 "added"
  | Status_removed => u8 "removed"
  | Status_modified => u8 "modified"
  | Status_renamed => u8 "renamed"
  | Status_copied => u8 "copied"
  | Status_changed => u8 "changed"
  | Status_unchanged => u8 "unchanged"
  end.

Inductive OmissionReason : Type :=
| Omit_binary | Omit_empty_file | Omit_too_large | Omit_generated | Omit_missing_patch.

#[export] Instance OmissionReason_eq_dec : EqDecision OmissionReason.
Proof. solve_decision. Defined.

Record VcsFile : Type := mkVcsFile {
  vf_filename : pystr;
  vf_status : FileStatus;
  vf_blob_sha : option pystr;
  vf_previous_filename : option pystr;
  vf_additions : Z;
  vf_deletions : Z;
  vf_changes : Z;
  vf_patch : option pystr;
  vf_size : option Z;
  vf_omission_reason : option OmissionReason;
  vf_git_mode : option pystr;
}.

(** ** The map *)

Inductive VcsProviderName : Type := Provider_github | Provider_gitlab | Provider_bitbucket.

Definition VcsProviderName_value (p : VcsProviderName) : pystr :=
  match p with
  | Provider_github => u8 "github"
  | Provider_gitlab => u8 "gitlab"
  | Provider_bitbucket => u8 "bitbucket"
  end.

(** The [ValueError] text of an unknown provider. *)
Definition vcs_provider_name (provider : pystr) : result pystr VcsProviderName :=
  if provider =?s u8 "github" then Ok Provider_github
  else if provider =?s u8 "gitlab" then Ok Provider_gitlab
  else if provider =?s u8 "bitbucket" then Ok Provider_bitbucket
  else Err (u8 "unsupported VCS provider").

Inductive DiffSide : Type := Side_LEFT | Side_RIGHT.

Inductive ChangeType : Type :=
| Change_added | Change_modified | Change_deleted | Change_renamed | Change_copied
| Change_mode_changed | Change_unsupported.

#[export] Instance ChangeType_eq_dec : EqDecision ChangeType.
Proof. solve_decision. Defined.

Definition ChangeType_value (c : ChangeType) : pystr :=
  match c with
  | Change_added => u8 "added"
  | Change_modified => u8 "modified"
  | Change_deleted => u8 "deleted"
  | Change_renamed => u8 "renamed"
  | Change_copied => u8 "copied"
  | Change_mode_changed => u8 "mode_changed"
  | Change_unsupported => u8 "unsupported"
  end.

Inductive PatchState : Type :=
| Patch_complete | Patch_missing | Patch_truncated | Patch_malformed | Patch_binary
| Patch_unsupported | Patch_metadata_only.

#[export] Instance PatchState_eq_dec : EqDecision PatchState.
Proof. solve_decision. Defined.

Definition PatchState_value (p : PatchState) : pystr :=
  match p with
  | Patch_complete => u8 "complete"
  | Patch_missing => u8 "missing"
  | Patch_truncated => u8 "truncated"
  | Patch_malformed => u8 "malformed"
  | Patch_binary => u8 "binary"
  | Patch_unsupported => u8 "unsupported"
  | Patch_metadata_only => u8 "metadata_only"
  end.

Inductive DiffOmissionReason : Type := Omission_unsupported_path | Omission_identity_unresolved.

#[export] Instance DiffOmissionReason_eq_dec : EqDecision DiffOmissionReason.
Proof. solve_decision. Defined.

Definition DiffOmissionReason_value (r : DiffOmissionReason) : pystr :=
  match r with
  | Omission_unsupported_path => u8 "unsupported_path"
  | Omission_identity_unresolved => u8 "identity_unresolved"
  end.

Record DiffRow : Type := mkDiffRow {
  dr_row_id : pystr;
  dr_kind : RowKind;
  dr_old_line : option Z;
  dr_new_line : option Z;
  dr_text : pystr;
  dr_old_cursor : Z;
  dr_new_cursor : Z;
}.

#[export] Instance DiffRow_eq_dec : EqDecision DiffRow.
Proof. solve_decision. Defined.

Record DiffHunk : Type := mkDiffHunk {
  dh_hunk_id : pystr;
  dh_old_start : Z;
  dh_old_count : Z;
  dh_new_start : Z;
  dh_new_count : Z;
  dh_complete : bool;
  dh_rows : list DiffRow;
}.

Record DiffFile : Type := mkDiffFile {
  df_file_id : pystr;
  df_old_path : option pystr;
  df_new_path : option pystr;
  df_provider_old_path : option pystr;
  df_provider_new_path : option pystr;
  df_change_type : ChangeType;
  df_blob_sha : option pystr;
  df_additions : Z;
  df_deletions : Z;
  df_patch_state : PatchState;
  df_patch_digest : option pystr;
  df_omission_reason : option DiffOmissionReason;
  df_hunks : list DiffHunk;
}.

Definition anchorable (f : DiffFile) : bool :=
  bool_decide (df_omission_reason f = None) && bool_decide (df_patch_state f = Patch_complete).

(** A UUID as its 128-bit value; [str] prints it in groups of hex digits. *)
Abbreviation UUID := N (only parsing).
Definition str_of_uuid (u : UUID) : pystr :=
  let h := hex_fixed 32 u in
  take 8 h ++ u8 "-" ++ take 4 (drop 8 h) ++ u8 "-" ++ take 4 (drop 12 h) ++ u8 "-"
  ++ take 4 (drop 16 h) ++ u8 "-" ++ drop 20 h.

Record DiffMap : Type := mkDiffMap {
  dm_schema_version : Z;
  dm_parser_version : pystr;
  dm_provider : VcsProviderName;
  dm_repository_id : UUID;
  dm_code_change_number : Z;
  dm_policy_base_sha : pystr;
  dm_head_sha : pystr;
  dm_diff_old_sha : option pystr;
  dm_file_list_complete : bool;
  dm_incomplete_reasons : list pystr;
  dm_files : list DiffFile;
  dm_digest : pystr;
}.

Definition file_by_id (m : DiffMap) (file_id : pystr) : option DiffFile :=
  find_first (λ f, df_file_id f =?s file_id) (dm_files m).

Definition DIFF_MAP_SCHEMA_VERSION : Z := 1.
Definition DIFF_MAP_PARSER_VERSION : pystr := u8 "unified-hunks/v1".
Definition MAX_PATH_BYTES : Z := 1024.
Definition MAX_PATH_SEGMENTS : Z := 128.
Definition MAX_DIAGNOSTIC_CHARS : Z := 1024.
Definition FILE_COUNT_MISMATCH : pystr := u8 "file_count_mismatch".

(** ** The path contract *)

Definition reserved_segment (s : pystr) : bool :=
  str_mem s [u8 ""; u8 "."; u8 ".."].

Definition is_supported_path (path : pystr) : bool :=
  match utf8_encode path with
  | None => false
  | Some encoded =>
      if (path =?s []) || (MAX_PATH_BYTES <? py_len encoded) || char_mem BACKSLASH path
      then false
      else if py_any is_Cc path then false
      else let segments := split_on SLASH path in
           (py_len segments <=? MAX_PATH_SEGMENTS)
           && py_all (λ s, negb (reserved_segment s)) segments
  end.

(** ** Provider names in the trace *)

Definition escaped_category (c : char) : bool :=
  is_Cc c || is_Cf c || is_Cs c || is_Zl c || is_Zp c.

Definition escape_char (c : char) : pystr :=
  if (c =? 92)%N then [92; 92]%N
  else if negb (escaped_category c) then [c]
  else if (c <=? 255)%N then (92 :: 120 :: hex_fixed 2 c)%N
  else if (c <=? 65535)%N then (92 :: 117 :: hex_fixed 4 c)%N
  else (92 :: 85 :: hex_fixed 8 c)%N.

(** The loop, on the parts kept so far and their size. *)
Fixpoint diagnostic_loop (path : pystr) (parts : pystr) (size : Z) : pystr :=
  match path with
  | [] => parts
  | c :: rest =>
      let part := escape_char c in
      if MAX_DIAGNOSTIC_CHARS <? size + py_len part then parts ++ [8230%N]
      else diagnostic_loop rest (parts ++ part) (size + py_len part)
  end.

Definition diagnostic_text (path : pystr) : pystr := diagnostic_loop path [] 0.

(** ** Building one file *)

Definition change_type (f : VcsFile) : ChangeType :=
  match vf_status f with
  | Status_added => Change_added
  | Status_modified => Change_modified
  | Status_removed => Change_deleted
  | Status_renamed => Change_renamed
  | Status_copied => Change_copied
  | Status_changed => if nonzero (vf_changes f) then Change_modified else Change_mode_changed
  | Status_unchanged => Change_unsupported
  end.

Definition is_move (c : ChangeType) : bool :=
  match c with Change_renamed | Change_copied => true | _ => false end.

Definition paths (f : VcsFile) (c : ChangeType) : option pystr * option pystr :=
  match c with
  | Change_added => (None, Some (vf_filename f))
  | Change_deleted => (Some (vf_filename f), None)
  | Change_renamed | Change_copied => (vf_previous_filename f, Some (vf_filename f))
  | _ => (Some (vf_filename f), Some (vf_filename f))
  end.

Definition canonical (path : option pystr) : option pystr :=
  match path with
  | Some p => if is_supported_path p then Some p else None
  | None => None
  end.

Definition unsupported_name (path : option pystr) : bool :=
  match path with Some p => negb (is_supported_path p) | None => false end.

Definition omission (c : ChangeType) (old_path new_path : option pystr)
  : option DiffOmissionReason :=
  if is_move c && bool_decide (old_path = None) then Some Omission_identity_unresolved
  else if unsupported_name old_path || unsupported_name new_path
  then Some Omission_unsupported_path
  else None.

(** A CR is removed only as CRLF framing of the whole patch. *)
Definition split_patch (patch : pystr) : list pystr :=
  let lines := split_lf patch in
  if negb (bool_decide (lines = [])) && py_all (λ l, endswith l [CR]) lines
  then map (λ l, removelast l) lines
  else lines.

(** [_MalformedPatch] carries its text; [IntDigitLimit] is not caught. *)
Inductive MapError : Type :=
| MalformedPatch (message : pystr)
| MapIntDigitLimit
| UnicodeEncodeError.

Definition diff_row (hunk_id : pystr) (index : nat) (r : HunkRow) : DiffRow :=
  mkDiffRow (hunk_id ++ u8 ":" ++ str_of_nat index) (hr_kind r) (hr_old_line r) (hr_new_line r)
    (hr_text r) (hr_old_cursor r) (hr_new_cursor r).

(** The loop over parsed hunks: [index] is [len(hunks)], then the two running ends. *)
Fixpoint number_hunks (file_id : pystr) (index : nat) (old_end new_end : Z) (parsed : list Hunk)
  : result MapError (list DiffHunk) :=
  match parsed with
  | [] => Ok []
  | h :: rest =>
      if (nonzero (h_old_count h) && negb (nonzero (h_old_start h)))
         || (nonzero (h_new_count h) && negb (nonzero (h_new_start h)))
      then Err (MalformedPatch (u8 "an existing line cannot have number zero"))
      else if (h_old_start h <? old_end) || (h_new_start h <? new_end)
      then Err (MalformedPatch (u8 "hunks overlap or are out of order"))
      else
        let hunk_id := file_id ++ u8 ":" ++ str_of_nat index in
        let hunk := mkDiffHunk hunk_id (h_old_start h) (h_old_count h) (h_new_start h)
                      (h_new_count h) true (imap (diff_row hunk_id) (h_rows h)) in
        hunks ← number_hunks file_id (S index) (h_old_start h + h_old_count h)
                  (h_new_start h + h_new_count h) rest;
        Ok (hunk :: hunks)
  end.

Definition map_diff_error (e : DiffError) : MapError :=
  match e with
  | UnifiedDiffError m => MalformedPatch m
  | IntDigitLimit => MapIntDigitLimit
  end.

Definition diff_parse_hunks (file_id : pystr) (lines : list pystr)
  : result MapError (list DiffHunk) :=
  parsed ← map_err map_diff_error (parse_hunks lines);
  number_hunks file_id 0 0 0 parsed.

Definition kind_eqb (k : RowKind) (r : DiffRow) : bool := bool_decide (dr_kind r = k).
Definition count_rows (p : DiffRow → bool) (hunks : list DiffHunk) : Z :=
  py_len (List.filter p (concat (map dh_rows hunks))).

Definition patch_state (file_id : pystr) (f : VcsFile)
  : result MapError (PatchState * list DiffHunk) :=
  match vf_patch f with
  | None | Some [] =>
      Ok (if vf_changes f =? 0 then Patch_metadata_only else Patch_missing, [])
  | Some patch =>
      if char_mem NUL patch then Ok (Patch_binary, [])
      else
        let lines := split_patch patch in
        if py_any (λ l, startswith l (u8 "@@@")) lines then Ok (Patch_unsupported, [])
        else
          match diff_parse_hunks file_id lines with
          | Err (MalformedPatch _) => Ok (Patch_malformed, [])
          | Err e => Err e
          | Ok hunks =>
              let added := count_rows (kind_eqb Row_added) hunks in
              let removed := count_rows (kind_eqb Row_removed) hunks in
              if negb (added =? vf_additions f) || negb (removed =? vf_deletions f)
              then Ok (Patch_truncated, hunks)
              else Ok (Patch_complete, hunks)
          end
  end.

Definition build_file (identity : list json) (f : VcsFile) : result MapError DiffFile :=
  let c := change_type f in
  let '(old_path, new_path) := paths f c in
  let file_id :=
    take 32 (json_digest (JList (identity ++
      [JStr (ChangeType_value c); JOpt JStr old_path; JOpt JStr new_path]))) in
  let om := omission c old_path new_path in
  patch_digest ← match vf_patch f with
                 | None => Ok None
                 | Some p => match sha256_text p with
                             | Some d => Ok (Some d)
                             | None => Err UnicodeEncodeError
                             end
                 end;
  '(state, hunks) ← patch_state file_id f;
  Ok {| df_file_id := file_id;
        df_old_path := canonical old_path;
        df_new_path := canonical new_path;
        df_provider_old_path := old_path;
        df_provider_new_path := new_path;
        df_change_type := c;
        df_blob_sha := vf_blob_sha f;
        df_additions := vf_additions f;
        df_deletions := vf_deletions f;
        df_patch_state := state;
        df_patch_digest := patch_digest;
        df_omission_reason := om;
        df_hunks := if bool_decide (om = None) then hunks else [] |}.

Definition file_digest_entry (f : DiffFile) : json :=
  JObj [(u8 "file_id", JStr (df_file_id f));
        (u8 "old_path", JOpt JStr (df_old_path f));
        (u8 "new_path", JOpt JStr (df_new_path f));
        (u8 "provider_old_path", JOpt JStr (df_provider_old_path f));
        (u8 "provider_new_path", JOpt JStr (df_provider_new_path f));
        (u8 "change_type", JStr (ChangeType_value (df_change_type f)));
        (u8 "blob_sha", JOpt JStr (df_blob_sha f));
        (u8 "additions", JInt (df_additions f));
        (u8 "deletions", JInt (df_deletions f));
        (u8 "patch_state", JStr (PatchState_value (df_patch_state f)));
        (u8 "patch_digest", JOpt JStr (df_patch_digest f));
        (u8 "omission_reason",
         JOpt (λ r, JStr (DiffOmissionReason_value r)) (df_omission_reason f))].

(** ** Building the map *)

Fixpoint build_files (identity : list json) (files : list VcsFile)
  : result MapError (list DiffFile) :=
  match files with
  | [] => Ok []
  | f :: rest =>
      df ← build_file identity f;
      dfs ← build_files identity rest;
      Ok (df :: dfs)
  end.

Definition build_diff_map_from_facts (files : list VcsFile) (provider : VcsProviderName)
    (repository_id : UUID) (code_change_number : Z) (policy_base_sha head_sha : pystr)
    (diff_old_sha : option pystr) (file_list_complete : bool) : result MapError DiffMap :=
  let identity := [JStr (VcsProviderName_value provider); JStr (str_of_uuid repository_id);
                   JInt code_change_number; JStr head_sha] in
  diff_files ← build_files identity files;
  let incomplete_reasons := if file_list_complete then [] else [FILE_COUNT_MISMATCH] in
  let payload :=
    JObj [(u8 "schema_version", JInt DIFF_MAP_SCHEMA_VERSION);
          (u8 "parser_version", JStr DIFF_MAP_PARSER_VERSION);
          (u8 "provider", JStr (VcsProviderName_value provider));
          (u8 "repository_id", JStr (str_of_uuid repository_id));
          (u8 "code_change_number", JInt code_change_number);
          (u8 "policy_base_sha", JStr policy_base_sha);
          (u8 "head_sha", JStr head_sha);
          (u8 "diff_old_sha", JOpt JStr diff_old_sha);
          (u8 "file_list_complete", JBool file_list_complete);
          (u8 "incomplete_reasons", JList (map JStr incomplete_reasons));
          (u8 "files", JList (map file_digest_entry diff_files))] in
  Ok {| dm_schema_version := DIFF_MAP_SCHEMA_VERSION;
        dm_parser_version := DIFF_MAP_PARSER_VERSION;
        dm_provider := provider;
        dm_repository_id := repository_id;
        dm_code_change_number := code_change_number;
        dm_policy_base_sha := policy_base_sha;
        dm_head_sha := head_sha;
        dm_diff_old_sha := diff_old_sha;
        dm_file_list_complete := file_list_complete;
        dm_incomplete_reasons := incomplete_reasons;
        dm_files := diff_files;
        dm_digest := json_digest payload |}.

(** * Invariants of the map *)

Definition rows_of (f : DiffFile) : list DiffRow := concat (map dh_rows (df_hunks f)).
Definition file_old_lines (f : DiffFile) : list Z := omap dr_old_line (rows_of f).
Definition file_new_lines (f : DiffFile) : list Z := omap dr_new_line (rows_of f).

(** A row has a line on the sides its kind says, and its cursors are those lines. *)
Definition row_ok (r : DiffRow) : Prop :=
  (dr_new_line r = None ↔ dr_kind r = Row_removed) ∧
  (dr_old_line r = None ↔ dr_kind r = Row_added) ∧
  dr_old_cursor r = default (dr_old_cursor r) (dr_old_line r) ∧
  dr_new_cursor r = default (dr_new_cursor r) (dr_new_line r).

(** A hunk of the map: both sides number their lines consecutively from the declared start, and
    the kind of a row says on which sides it exists. *)
Record dhunk_wf (h : DiffHunk) : Prop := {
  dwf_old : omap dr_old_line (dh_rows h) = seqZ (dh_old_start h) (dh_old_count h);
  dwf_new : omap dr_new_line (dh_rows h) = seqZ (dh_new_start h) (dh_new_count h);
  dwf_old_count : 0 ≤ dh_old_count h;
  dwf_new_count : 0 ≤ dh_new_count h;
  dwf_old_start : 0 ≤ dh_old_start h ∧ (dh_old_count h ≠ 0 → 1 ≤ dh_old_start h);
  dwf_new_start : 0 ≤ dh_new_start h ∧ (dh_new_count h ≠ 0 → 1 ≤ dh_new_start h);
  dwf_sides : Forall row_ok (dh_rows h);
}.

(** Hunks follow each other on both sides, from the given ends. *)
Fixpoint hunks_ordered (old_end new_end : Z) (hs : list DiffHunk) : Prop :=
  match hs with
  | [] => True
  | h :: rest =>
      old_end ≤ dh_old_start h ∧ new_end ≤ dh_new_start h ∧ dhunk_wf h ∧
      hunks_ordered (dh_old_start h + dh_old_count h) (dh_new_start h + dh_new_count h) rest
  end.

(** What every file of the map satisfies. *)
Record diff_file_wf (f : DiffFile) : Prop := {
  fwf_old_path : ∀ p, df_old_path f = Some p → is_supported_path p = true;
  fwf_new_path : ∀ p, df_new_path f = Some p → is_supported_path p = true;
  fwf_withheld : df_omission_reason f ≠ None → df_hunks f = [];
  fwf_identity : df_omission_reason f = None →
    df_old_path f = df_provider_old_path f ∧ df_new_path f = df_provider_new_path f;
  fwf_state : df_hunks f ≠ [] →
    df_patch_state f = Patch_complete ∨ df_patch_state f = Patch_truncated;
  fwf_hunks : hunks_ordered 0 0 (df_hunks f);
  fwf_statistics : anchorable f = true →
    count_rows (kind_eqb Row_added) (df_hunks f) = df_additions f ∧
    count_rows (kind_eqb Row_removed) (df_hunks f) = df_deletions f;
}.

(** ** Hunks *)

Lemma seqZ_shift n m : 0 ≤ m → n :: seqZ (n + 1) m = seqZ n (m + 1).
Proof. intros. rewrite (seqZ_cons n (m + 1)) by lia. f_equal. f_equal; lia. Qed.

Lemma numbered_new_lines o n rows :
  numbered o n rows → omap hr_new_line rows = seqZ n (new_rows rows).
Proof.
  revert o n. induction rows as [|[k ol nl t oc nc] rows IH]; intros o n H; [done|].
  cbn in H. autorewrite with rows. pose proof (new_rows_nonneg rows).
  destruct H as (_ & _ & H), k; destruct H as (-> & -> & H); cbn; rewrite (IH _ _ H);
    rewrite ?seqZ_shift by done; f_equal; lia.
Qed.

Lemma numbered_old_lines o n rows :
  numbered o n rows → omap hr_old_line rows = seqZ o (old_rows rows).
Proof.
  revert o n. induction rows as [|[k ol nl t oc nc] rows IH]; intros o n H; [done|].
  cbn in H. autorewrite with rows. pose proof (old_rows_nonneg rows).
  destruct H as (_ & _ & H), k; destruct H as (-> & -> & H); cbn; rewrite (IH _ _ H);
    rewrite ?seqZ_shift by done; f_equal; lia.
Qed.

Lemma numbered_sides o n rows :
  numbered o n rows → Forall (λ r, ∀ hid i, row_ok (diff_row hid i r)) rows.
Proof.
  revert o n. induction rows as [|[k ol nl t oc nc] rows IH]; intros o n H; [done|].
  cbn in H. destruct H as (-> & -> & H).
  destruct k; destruct H as (-> & -> & H); (constructor; [done|by eapply IH]).
Qed.

Lemma omap_diff_rows {B} (g : DiffRow → option B) (g' : HunkRow → option B) hid rows :
  (∀ i r, g (diff_row hid i r) = g' r) →
  omap g (imap (diff_row hid) rows) = omap g' rows.
Proof.
  intros Hg. assert (H : ∀ k, omap g (imap (λ i, diff_row hid (k + i)) rows) = omap g' rows).
  { induction rows as [|r rows IH]; intros k; [done|]. rewrite imap_cons. cbn. rewrite Hg.
    assert (E : omap g (imap ((λ i, diff_row hid (k + i)) ∘ S) rows) = omap g' rows).
    { rewrite <- (IH (S k)). f_equal. apply imap_ext. intros i x _. cbn. f_equal. lia. }
    by rewrite E. }
  exact (H 0%nat).
Qed.

Lemma diff_rows_sides hid rows :
  Forall (λ r, ∀ hid i, row_ok (diff_row hid i r)) rows →
  Forall row_ok (imap (diff_row hid) rows).
Proof.
  intros H. apply Forall_lookup. intros i r Hr.
  apply list_lookup_imap_Some in Hr as (x & Hx & ->).
  by apply (Forall_lookup_1 _ _ _ _ H Hx).
Qed.

Lemma nonzero_true z : nonzero z = true ↔ z ≠ 0.
Proof. unfold nonzero. rewrite negb_true_iff. apply Z.eqb_neq. Qed.

Lemma number_hunks_ordered fid i oe ne parsed hunks :
  Forall hunk_wf parsed → number_hunks fid i oe ne parsed = Ok hunks →
  hunks_ordered oe ne hunks.
Proof.
  intros Hw. revert i oe ne hunks.
  induction Hw as [|h parsed [H1 H2 Hn Ho Hc] Hw IH]; intros i oe ne hunks H; cbn in H.
  { by simplify_eq. }
  case_match eqn:E1; [done|]. case_match eqn:E2; [done|].
  apply bind_ok in H as (hs & Hrest & [= <-]). cbn.
  apply orb_false_iff in E2 as [?%Z.ltb_ge ?%Z.ltb_ge].
  apply orb_false_iff in E1 as [E1 E1'].
  rewrite andb_false_iff, negb_false_iff, nonzero_false, nonzero_true in E1, E1'.
  pose proof (old_rows_nonneg (h_rows h)). pose proof (new_rows_nonneg (h_rows h)).
  split_and!; [done..| |by eapply IH].
  constructor; cbn; try lia.
  - rewrite (omap_diff_rows _ hr_old_line) by done. rewrite <- Ho. by eapply numbered_old_lines.
  - rewrite (omap_diff_rows _ hr_new_line) by done. rewrite <- Hc. by eapply numbered_new_lines.
  - eapply diff_rows_sides, numbered_sides, Hn.
Qed.

Lemma diff_parse_hunks_ordered fid lines hunks :
  diff_parse_hunks fid lines = Ok hunks → hunks_ordered 0 0 hunks.
Proof.
  intros (parsed & Hp & H)%bind_ok. destruct (parse_hunks lines) eqn:E; [|done].
  cbn in Hp. simplify_eq. eapply number_hunks_ordered; [by eapply parse_hunks_wf|done].
Qed.

(** Strictly increasing numbers, all at least [lo]. *)
Definition increasing_from (lo : Z) (l : list Z) : Prop :=
  StronglySorted Z.lt l ∧ Forall (λ x, lo ≤ x) l.

Lemma seqZ_increasing n m : increasing_from n (seqZ n m).
Proof.
  split.
  - assert (H : ∀ k b, StronglySorted Z.lt (seqZ b (Z.of_nat k))).
    { induction k as [|k IH]; intros b; [constructor|].
      rewrite seqZ_cons by lia. constructor.
      - replace (Z.pred (Z.of_nat (S k))) with (Z.of_nat k) by lia. apply IH.
      - apply List.Forall_forall. intros x Hx%list_elem_of_In%elem_of_seqZ. lia. }
    destruct (Z.le_gt_cases 0 m).
    + rewrite <- (Z2Nat.id m) by done. apply H.
    + rewrite seqZ_nil by lia. constructor.
  - apply List.Forall_forall. intros x Hx%list_elem_of_In%elem_of_seqZ. lia.
Qed.

Lemma increasing_app lo mid l1 l2 :
  increasing_from lo l1 → Forall (λ x, x < mid) l1 → lo ≤ mid →
  increasing_from mid l2 → increasing_from lo (l1 ++ l2).
Proof.
  intros [H1 F1] Hm Hle [H2 F2]. split.
  - induction H1 as [|x l1 H1 IH Hx]; [done|]. cbn. inv F1. inv Hm.
    constructor; [by apply IH|]. apply List.Forall_app. split; [done|].
    eapply List.Forall_impl; [|exact F2]. cbn. lia.
  - apply List.Forall_app. split; [done|]. eapply List.Forall_impl; [|exact F2]. cbn. lia.
Qed.

Lemma hunks_new_increasing oe ne hs :
  hunks_ordered oe ne hs →
  increasing_from ne (omap dr_new_line (concat (map dh_rows hs))).
Proof.
  revert oe ne. induction hs as [|h hs IH]; intros oe ne; cbn [hunks_ordered map concat].
  { intros _. split; constructor. }
  intros (Ho & Hn & [Eo En ? ? ? ? ?] & Hrest). rewrite omap_app, En.
  apply (increasing_app _ (dh_new_start h + dh_new_count h)); [| |lia|by eapply IH].
  - destruct (seqZ_increasing (dh_new_start h) (dh_new_count h)) as [Hs Hf]. split; [done|].
    eapply List.Forall_impl; [|exact Hf]. cbn. lia.
  - apply List.Forall_forall. intros x Hx%list_elem_of_In%elem_of_seqZ. lia.
Qed.

Lemma hunks_old_increasing oe ne hs :
  hunks_ordered oe ne hs →
  increasing_from oe (omap dr_old_line (concat (map dh_rows hs))).
Proof.
  revert oe ne. induction hs as [|h hs IH]; intros oe ne; cbn [hunks_ordered map concat].
  { intros _. split; constructor. }
  intros (Ho & Hn & [Eo En ? ? ? ? ?] & Hrest). rewrite omap_app, Eo.
  apply (increasing_app _ (dh_old_start h + dh_old_count h)); [| |lia|by eapply IH].
  - destruct (seqZ_increasing (dh_old_start h) (dh_old_count h)) as [Hs Hf]. split; [done|].
    eapply List.Forall_impl; [|exact Hf]. cbn. lia.
  - apply List.Forall_forall. intros x Hx%list_elem_of_In%elem_of_seqZ. lia.
Qed.

Lemma seqZ_positive s c : 0 ≤ s ∧ (c ≠ 0 → 1 ≤ s) → 0 ≤ c → Forall (λ x, 1 ≤ x) (seqZ s c).
Proof. intros. apply List.Forall_forall. intros x Hx%list_elem_of_In%elem_of_seqZ. lia. Qed.

Lemma hunks_lines_positive oe ne hs :
  hunks_ordered oe ne hs →
  Forall (λ x, 1 ≤ x) (omap dr_old_line (concat (map dh_rows hs))) ∧
  Forall (λ x, 1 ≤ x) (omap dr_new_line (concat (map dh_rows hs))).
Proof.
  revert oe ne. induction hs as [|h hs IH]; intros oe ne; cbn [hunks_ordered map concat]; [done|].
  intros (Ho & Hn & [Eo En ? ? ? ? ?] & Hrest). rewrite !omap_app, Eo, En.
  destruct (IH _ _ Hrest) as [H1 H2].
  split; apply List.Forall_app; (split; [by apply seqZ_positive|done]).
Qed.

(** ** Files *)

Lemma patch_state_spec fid f state hunks :
  patch_state fid f = Ok (state, hunks) →
  hunks_ordered 0 0 hunks ∧
  (hunks ≠ [] → state = Patch_complete ∨ state = Patch_truncated) ∧
  (state = Patch_complete →
     count_rows (kind_eqb Row_added) hunks = vf_additions f ∧
     count_rows (kind_eqb Row_removed) hunks = vf_deletions f).
Proof.
  unfold patch_state. intros H.
  destruct (vf_patch f) as [[|c patch]|]; [by destruct (vf_changes f =? 0); simplify_eq| |by destruct (vf_changes f =? 0); simplify_eq].
  case_match; [by simplify_eq|]. case_match; [by simplify_eq|].
  destruct (diff_parse_hunks _ _) as [hs|[]] eqn:E; try done; [|by simplify_eq].
  apply diff_parse_hunks_ordered in E.
  case_match eqn:Hc; simplify_eq; split_and!; auto; try done.
  intros _. apply orb_false_iff in Hc as [Hc1 Hc2].
  by rewrite negb_false_iff, Z.eqb_eq in Hc1, Hc2.
Qed.

Lemma number_hunks_error fid i oe ne parsed e :
  number_hunks fid i oe ne parsed = Err e → ∃ m, e = MalformedPatch m.
Proof.
  revert i oe ne. induction parsed as [|h parsed IH]; intros i oe ne H; cbn in H; [done|].
  case_match; [simplify_eq; by eexists|]. case_match; [simplify_eq; by eexists|].
  destruct (number_hunks fid (S i) _ _ parsed) eqn:E; cbn in H; simplify_eq. by eapply IH.
Qed.

(** The two inputs that no patch state describes. *)
Definition map_failure (f : VcsFile) (e : MapError) : Prop :=
  ∃ patch, vf_patch f = Some patch ∧
    ((e = UnicodeEncodeError ∧ utf8_encode patch = None) ∨
     (e = MapIntDigitLimit ∧ ∃ line, In line (split_patch patch) ∧ long_header line)).

Lemma patch_state_error fid f e : patch_state fid f = Err e → map_failure f e.
Proof.
  unfold patch_state, map_failure. intros H.
  destruct (vf_patch f) as [[|c patch]|]; [done| |done].
  case_match; [done|]. case_match; [done|].
  destruct (diff_parse_hunks _ _) as [hs|e'] eqn:E; [by case_match|].
  unfold diff_parse_hunks in E. eexists. split; [done|].
  destruct (parse_hunks _) as [parsed|[]] eqn:Ep; cbn in E; simplify_eq; try done.
  - by apply number_hunks_error in E as [m ->].
  - right. split; [done|]. by apply parse_hunks_limit.
Qed.

Lemma canonical_supported path p : canonical path = Some p → is_supported_path p = true.
Proof. destruct path as [q|]; cbn; [|done]. case_match; naive_solver. Qed.

Lemma canonical_id path : unsupported_name path = false → canonical path = path.
Proof. destruct path as [q|]; cbn; [|done]. rewrite negb_false_iff. by intros ->. Qed.

Lemma omission_none c old_path new_path :
  omission c old_path new_path = None →
  unsupported_name old_path = false ∧ unsupported_name new_path = false.
Proof.
  unfold omission. case_match; [done|]. case_match eqn:E; [done|].
  intros _. by apply orb_false_iff in E.
Qed.

Lemma build_file_wf identity f df : build_file identity f = Ok df → diff_file_wf df.
Proof.
  unfold build_file. destruct (paths f (change_type f)) as [old_path new_path].
  intros (pd & _ & H)%bind_ok. apply bind_ok in H as ([state hunks] & Hs & [= <-]).
  apply patch_state_spec in Hs as (Hord & Hst & Hcount). constructor; cbn.
  - apply canonical_supported.
  - apply canonical_supported.
  - intros Hne. by rewrite bool_decide_eq_false_2.
  - intros [H1 H2]%omission_none. by rewrite !canonical_id.
  - by case_match.
  - by case_match.
  - unfold anchorable. cbn. rewrite andb_true_iff, !bool_decide_eq_true. intros [H1 H2].
    rewrite bool_decide_eq_true_2 by done. by apply Hcount.
Qed.

Lemma build_file_error identity f e : build_file identity f = Err e → map_failure f e.
Proof.
  unfold build_file. destruct (paths f (change_type f)) as [old_path new_path]. intros H.
  destruct (match vf_patch f with Some _ => _ | None => _ end) as [pd|e'] eqn:E; cbn in H.
  - destruct (patch_state _ f) as [[state hunks]|e'] eqn:Es; cbn in H; simplify_eq.
    by apply patch_state_error in Es.
  - simplify_eq. destruct (vf_patch f) as [patch|] eqn:Ep; [|done]. exists patch.
    split; [done|]. left. unfold sha256_text in E.
    destruct (utf8_encode patch); cbn in E; by simplify_eq.
Qed.

Lemma build_files_forall identity files dfs :
  build_files identity files = Ok dfs →
  Forall2 (λ f df, build_file identity f = Ok df) files dfs.
Proof.
  revert dfs. induction files as [|f files IH]; intros dfs H; cbn in H; [by simplify_eq|].
  apply bind_ok in H as (df & Hf & H). apply bind_ok in H as (rest & Hr & [= <-]).
  constructor; auto.
Qed.

Lemma build_files_error identity files e :
  build_files identity files = Err e → ∃ f, In f files ∧ build_file identity f = Err e.
Proof.
  induction files as [|f files IH]; cbn; [done|].
  destruct (build_file identity f) eqn:E; cbn; [|intros [= ->]; eauto].
  destruct (build_files identity files); cbn; [done|].
  intros [= ->]. destruct IH as (g & ? & ?); eauto.
Qed.

Lemma build_map_inv files provider rid n base head old complete m :
  build_diff_map_from_facts files provider rid n base head old complete = Ok m →
  Forall2 (λ f df, build_file [JStr (VcsProviderName_value provider); JStr (str_of_uuid rid);
                               JInt n; JStr head] f = Ok df) files (dm_files m) ∧
  dm_file_list_complete m = complete ∧
  dm_incomplete_reasons m = (if complete then [] else [FILE_COUNT_MISMATCH]) ∧
  dm_head_sha m = head ∧ dm_diff_old_sha m = old.
Proof.
  unfold build_diff_map_from_facts. intros (dfs & Hf & [= <-])%bind_ok. cbn.
  by apply build_files_forall in Hf.
Qed.

Definition map_wf (m : DiffMap) : Prop := Forall diff_file_wf (dm_files m).

Lemma build_map_wf files provider rid n base head old complete m :
  build_diff_map_from_facts files provider rid n base head old complete = Ok m → map_wf m.
Proof.
  intros (H & _)%build_map_inv. red. clear -H.
  induction H; constructor; [by eapply build_file_wf|done].
Qed.

Lemma file_lines_increase f :
  diff_file_wf f →
  increasing_from 1 (file_old_lines f) ∧ increasing_from 1 (file_new_lines f).
Proof.
  intros [_ _ _ _ _ H _]. destruct (hunks_lines_positive _ _ _ H).
  by destruct (hunks_old_increasing _ _ _ H), (hunks_new_increasing _ _ _ H).
Qed.

(** ** The trace escape *)

Definition escape (path : pystr) : pystr := path ≫= escape_char.

(** The loop keeps the longest escaped prefix that fits, and says so when it stops. *)
Lemma diagnostic_loop_spec path parts size :
  size = py_len parts → size ≤ MAX_DIAGNOSTIC_CHARS →
  (py_len (parts ++ escape path) ≤ MAX_DIAGNOSTIC_CHARS ∧
     diagnostic_loop path parts size = parts ++ escape path) ∨
  (MAX_DIAGNOSTIC_CHARS < py_len (parts ++ escape path) ∧
   ∃ shown hidden, path = shown ++ hidden ∧
     diagnostic_loop path parts size = (parts ++ escape shown) ++ [8230%N] ∧
     py_len (parts ++ escape shown) ≤ MAX_DIAGNOSTIC_CHARS).
Proof.
  revert parts size. induction path as [|c path IH]; intros parts size -> Hs.
  { left. cbn. by rewrite app_nil_r. }
  cbn [diagnostic_loop]. rewrite <- py_len_app.
  assert (Hesc : parts ++ escape (c :: path) = (parts ++ escape_char c) ++ escape path)
    by (unfold escape; by rewrite <- app_assoc).
  destruct (Z.ltb_spec MAX_DIAGNOSTIC_CHARS (py_len (parts ++ escape_char c))) as [Hl|Hl].
  - right. split.
    + rewrite Hesc, py_len_app. pose proof (py_len_nonneg (escape path)). lia.
    + exists [], (c :: path). cbn. by rewrite app_nil_r.
  - rewrite Hesc. destruct (IH (parts ++ escape_char c) _ eq_refl Hl) as [?|[? (sh & hid & -> & H1 & H2)]];
      [by left|right; split; [done|]].
    exists (c :: sh), hid. split; [done|].
    replace (parts ++ escape (c :: sh)) with ((parts ++ escape_char c) ++ escape sh); [done|].
    unfold escape. cbn. by rewrite <- app_assoc.
Qed.

Lemma hex_char_inj a b : (a < 16)%N → (b < 16)%N → hex_char a = hex_char b → a = b.
Proof.
  unfold hex_char. intros Ha Hb. destruct (N.ltb_spec a 10), (N.ltb_spec b 10); lia.
Qed.

Lemma hex_fixed_inj w n m :
  (n < 16 ^ N.of_nat w)%N → (m < 16 ^ N.of_nat w)%N → hex_fixed w n = hex_fixed w m → n = m.
Proof.
  revert n m. induction w as [|w IH]; intros n m Hn Hm H; cbn [hex_fixed] in H.
  { cbn in Hn, Hm. lia. }
  apply app_inj_tail in H as [H1 H2].
  rewrite Nat2N.inj_succ, N.pow_succ_r' in Hn, Hm.
  apply hex_char_inj in H2; [|by apply N.mod_upper_bound..].
  apply IH in H1; [|by apply N.Div0.div_lt_upper_bound..].
  rewrite (N.div_mod' n 16), (N.div_mod' m 16). by rewrite H1, H2.
Qed.

Definition code_point (c : char) : Prop := (c < 1114112)%N.

(** The escape of a character is determined by any text it begins. *)
Lemma escape_char_prefix c d r r' :
  code_point c → code_point d →
  escape_char c ++ r = escape_char d ++ r' → c = d ∧ r = r'.
Proof.
  intros Hc Hd. unfold code_point in *.
  assert (Hfix : ∀ w n m (x y : pystr),
    (n < 16 ^ N.of_nat w)%N → (m < 16 ^ N.of_nat w)%N →
    hex_fixed w n ++ x = hex_fixed w m ++ y → n = m ∧ x = y).
  { intros w n m x y Hn Hm Heq. apply app_inj_1 in Heq as [E ->]; [|by rewrite !hex_fixed_length].
    by apply hex_fixed_inj in E. }
  unfold escape_char. revert Hfix. generalize hex_fixed as hx. intros hx Hfix.
  destruct (N.eqb_spec c 92) as [Ec|Ec], (N.eqb_spec d 92) as [Ed|Ed];
    destruct (escaped_category c), (escaped_category d); cbn [negb];
    repeat match goal with |- context [(?a <=? ?b)%N] => destruct (N.leb_spec a b) end;
    cbn [app]; intros [=]; try (split; [congruence|done]); try congruence;
    (eapply Hfix; [| |eassumption]; cbn; lia).
Qed.

Lemma escape_inj p q :
  Forall code_point p → Forall code_point q → escape p = escape q → p = q.
Proof.
  assert (Hne : ∀ c r, escape_char c ++ r ≠ []).
  { intros c r. unfold escape_char. by repeat case_match. }
  intros Hp. revert q. induction Hp as [|c p Hc Hp IH]; intros q Hq H.
  - destruct q; [done|]. symmetry in H. by apply Hne in H.
  - destruct Hq as [|d q Hd Hq]; [by apply Hne in H|].
    apply escape_char_prefix in H as [-> H]; [|done..]. f_equal. by apply IH.
Qed.

(** * Properties *)

(** C6. Every file of a built map is well formed: its paths satisfy the path contract, a file with
    an omission reason has no hunk, only complete and truncated patches have hunks, hunks are
    ordered and numbered on both sides, and a complete usable file has exactly the added and
    removed rows of the provider's statistics. The map has one entry per provider file and an
    incompleteness reason exactly when the file list is incomplete. *)
Theorem build_diff_map_invariant files provider rid n base head old complete m :
  build_diff_map_from_facts files provider rid n base head old complete = Ok m →
  map_wf m ∧ length (dm_files m) = length files ∧
  (dm_incomplete_reasons m = [] ↔ complete = true).
Proof.
  intros H. split; [by eapply build_map_wf|].
  apply build_map_inv in H as (H & _ & -> & _). split.
  - symmetry. by eapply Forall2_length.
  - by destruct complete.
Qed.

(** In a built map the line numbers of a file increase strictly through all its hunks, on the
    old side and on the new side, and start from one: a number names at most one row. *)
Theorem map_line_numbers_increase files provider rid n base head old complete m f :
  build_diff_map_from_facts files provider rid n base head old complete = Ok m →
  In f (dm_files m) →
  increasing_from 1 (file_old_lines f) ∧ increasing_from 1 (file_new_lines f).
Proof.
  intros H%build_map_wf Hin. apply file_lines_increase.
  by apply (proj1 (List.Forall_forall _ _) H).
Qed.

(** C39. A malformed patch never makes the map fail: building raises only for a patch with a lone
    surrogate, which has no UTF-8 digest, or for a hunk header whose number has more digits than
    the interpreter converts. *)
Theorem build_diff_map_error files provider rid n base head old complete e :
  build_diff_map_from_facts files provider rid n base head old complete = Err e →
  ∃ f, In f files ∧ map_failure f e.
Proof.
  unfold build_diff_map_from_facts. intros H.
  destruct (build_files _ files) as [dfs|e'] eqn:E; cbn in H; simplify_eq.
  apply build_files_error in E as (f & Hf & He). exists f. split; [done|].
  by apply build_file_error in He.
Qed.

(** The trace text of a provider name has at most 1024 characters and an ellipsis, and it is
    reversible: two names whose escapes fit are shown alike only when they are the same name. *)
Theorem diagnostic_text_bounded_reversible p q :
  Forall code_point p → Forall code_point q →
  py_len (diagnostic_text p) ≤ MAX_DIAGNOSTIC_CHARS + 1 ∧
  (py_len (escape p) ≤ MAX_DIAGNOSTIC_CHARS → py_len (escape q) ≤ MAX_DIAGNOSTIC_CHARS →
   diagnostic_text p = diagnostic_text q → p = q).
Proof.
  intros Hp Hq. unfold diagnostic_text.
  destruct (diagnostic_loop_spec p [] 0) as [[H1 ->]|[H1 (? & ? & _ & -> & H2)]]; [done..| |].
  - split; [cbn [app] in *; lia|]. intros _ Hq'.
    destruct (diagnostic_loop_spec q [] 0) as [[H3 ->]|[H3 _]]; [done..| |cbn [app] in *; lia].
    by apply escape_inj.
  - split; [|cbn [app] in *; lia]. rewrite py_len_app. cbn [app] in *. change (py_len [8230%N]) with 1. lia.
Qed.

(** ** Witnesses *)

Definition sample_patch_text : pystr := join [LF] (take 4 sample_patch).
Definition sample_vcs_file : VcsFile :=
  mkVcsFile (u8 "src/app.py") Status_modified None None 1 1 2 (Some sample_patch_text)
    None None None.
Definition sample_build : result MapError DiffMap :=
  build_diff_map_from_facts [sample_vcs_file] Provider_github 255%N 12 (u8 "base") (u8 "head")
    None true.
Definition sample_map : DiffMap :=
  match sample_build with
  | Ok m => m
  | Err _ => mkDiffMap 0 [] Provider_github 0%N 0 [] [] None true [] [] []
  end.

Lemma sample_build_ok : sample_build = Ok sample_map.
Proof. vm_compute. reflexivity. Qed.

Lemma build_diff_map_invariant_witness :
  map_wf sample_map ∧ length (dm_files sample_map) = 1%nat ∧
  (dm_incomplete_reasons sample_map = [] ↔ true = true).
Proof.
  exact (build_diff_map_invariant [sample_vcs_file] Provider_github 255%N 12 (u8 "base")
           (u8 "head") None true sample_map sample_build_ok).
Defined.

Lemma map_line_numbers_increase_witness :
  ∃ f, In f (dm_files sample_map) ∧ file_new_lines f = [9; 10] ∧
       increasing_from 1 (file_old_lines f) ∧ increasing_from 1 (file_new_lines f).
Proof.
  destruct (dm_files sample_map) as [|f l] eqn:E; [vm_compute in E; discriminate|].
  exists f. split; [by left|]. split.
  - replace f with (hd f (dm_files sample_map)) by (by rewrite E). vm_compute. reflexivity.
  - refine (map_line_numbers_increase [sample_vcs_file] Provider_github 255%N 12 (u8 "base")
              (u8 "head") None true sample_map f sample_build_ok _).
    rewrite E. by left.
Defined.

(** A patch that is one lone surrogate. *)
Definition surrogate_file : VcsFile :=
  mkVcsFile (u8 "a") Status_modified None None 1 1 2 (Some [55296%N]) None None None.

Lemma build_diff_map_error_witness :
  ∃ f, In f [surrogate_file] ∧ map_failure f UnicodeEncodeError.
Proof.
  apply (build_diff_map_error [surrogate_file] Provider_github 255%N 12 (u8 "base") (u8 "head")
           None true).
  vm_compute. reflexivity.
Defined.

Lemma diagnostic_text_witness :
  py_len (diagnostic_text (u8 "a\b")) ≤ MAX_DIAGNOSTIC_CHARS + 1.
Proof.
  refine (proj1 (diagnostic_text_bounded_reversible (u8 "a\b") (u8 "a\b") _ _));
    repeat constructor.
Defined.
