(* ===== verification/DiffAnchor.v ===== *)
(** * Inline anchors ([app/modules/reviews/application/diff_anchor.py])

    [resolve_anchor] maps a finding's path and lines to a position of the new side of the diff
    map, or says why there is none. The theorems give the exact condition under which a position
    is returned, and show that the [range_gap] rejection cannot happen on a built map. *)

From Stdlib Require Import String.
From S2P Require Import Prelude PyText PyHash UnifiedDiff DiffMap.
Open Scope Z_scope.

Inductive AnchorRejection : Type :=
| Reject_unknown_path
| Reject_wrong_side
| Reject_line_absent
| Reject_cross_hunk_range
| Reject_range_gap
| Reject_incomplete_diff
| Reject_anchor_not_visible
| Reject_ignored_file
| Reject_unsupported_provider_anchor.

#[export] Instance AnchorRejection_eq_dec : EqDecision AnchorRejection.
Proof. solve_decision. Defined.

Record Anchor : Type := mkAnchor {
  an_file_id : pystr;
  an_side : DiffSide;
  an_start_line : option Z;
  an_line : Z;
  an_hunk_id : pystr;
}.

(** [Anchor | AnchorRejection] *)
Inductive AnchorResult : Type :=
| Anchored (a : Anchor)
| Rejected (r : AnchorRejection).

Definition has_new_line (line : Z) (r : DiffRow) : bool :=
  bool_decide (dr_new_line r = Some line).

(** The first hunk with a row of this new line, and its position: Python compares the two hunks
    of a range by identity. *)
Fixpoint hunk_with_new_line_at (i : nat) (hunks : list DiffHunk) (line : Z)
  : option (nat * DiffHunk) :=
  match hunks with
  | [] => None
  | h :: rest =>
      if py_any (has_new_line line) (dh_rows h) then Some (i, h)
      else hunk_with_new_line_at (S i) rest line
  end.
Definition hunk_with_new_line (f : DiffFile) (line : Z) : option (nat * DiffHunk) :=
  hunk_with_new_line_at 0 (df_hunks f) line.

Definition unanchorable (f : DiffFile) : AnchorRejection :=
  let lineless :=
    match df_patch_state f with Patch_metadata_only | Patch_binary => true | _ => false end in
  if bool_decide (df_omission_reason f = None) && lineless
  then Reject_line_absent else Reject_incomplete_diff.

(** The loop over the files when no file has [path] as its new path. *)
Fixpoint missing_path (files : list DiffFile) (path : pystr) : AnchorRejection :=
  match files with
  | [] => Reject_unknown_path
  | f :: rest =>
      if bool_decide (df_change_type f = Change_deleted)
         && ostr_eqb (df_old_path f) (Some path)
      then Reject_wrong_side
      else if negb (bool_decide (df_omission_reason f = None))
              && ostr_eqb (df_provider_new_path f) (Some path)
      then Reject_incomplete_diff
      else missing_path rest path
  end.

(** [range(start, line + 1)] *)
Definition py_range (start stop : Z) : list Z := seqZ start (stop - start).

Definition lines_invalid (start_line : option Z) (line : Z) : bool :=
  (line <? 1) ||
  match start_line with
  | Some s => negb ((1 <=? s) && (s <? line))
  | None => false
  end.

Definition file_with_new_path (m : DiffMap) (path : pystr) : option DiffFile :=
  find_first (λ f, ostr_eqb (df_new_path f) (Some path)) (dm_files m).

Definition resolve_anchor (m : DiffMap) (path : pystr) (start_line : option Z) (line : Z)
  : result pystr AnchorResult :=
  if lines_invalid start_line line
  then Err (u8 "anchor lines must satisfy 1 <= start_line < line")
  else
    match file_with_new_path m path with
    | None => Ok (Rejected (missing_path (dm_files m) path))
    | Some file =>
        if negb (anchorable file) then Ok (Rejected (unanchorable file))
        else
          match hunk_with_new_line file line with
          | None => Ok (Rejected Reject_line_absent)
          | Some (i, hunk) =>
              let anchor := Anchored (mkAnchor (df_file_id file) Side_RIGHT start_line line
                                        (dh_hunk_id hunk)) in
              match start_line with
              | None => Ok anchor
              | Some start =>
                  match hunk_with_new_line file start with
                  | None => Ok (Rejected Reject_line_absent)
                  | Some (j, _) =>
                      if negb (j =? i)%nat then Ok (Rejected Reject_cross_hunk_range)
                      else
                        let present := map dr_new_line (dh_rows hunk) in
                        if py_any (λ n, negb (bool_decide (Some n ∈ present)))
                             (py_range start (line + 1))
                        then Ok (Rejected Reject_range_gap)
                        else Ok anchor
                  end
              end
          end
    end.

(** * What an anchor means *)

(** The new lines of a hunk. *)
Definition hunk_new_lines (h : DiffHunk) : list Z := omap dr_new_line (dh_rows h).

Lemma has_new_line_any line h :
  py_any (has_new_line line) (dh_rows h) = true ↔ line ∈ hunk_new_lines h.
Proof.
  unfold py_any, hunk_new_lines, has_new_line.
  rewrite existsb_exists, list_elem_of_omap. setoid_rewrite bool_decide_eq_true.
  by setoid_rewrite list_elem_of_In.
Qed.

Lemma hunk_at_some i hunks line j h :
  hunk_with_new_line_at i hunks line = Some (j, h) →
  (i ≤ j)%nat ∧ hunks !! (j - i)%nat = Some h ∧ line ∈ hunk_new_lines h.
Proof.
  revert i. induction hunks as [|x hunks IH]; intros i; cbn [hunk_with_new_line_at]; [done|].
  destruct (py_any _ _) eqn:E.
  - intros [= <- <-]. rewrite Nat.sub_diag. apply has_new_line_any in E. done.
  - intros (H1 & H2 & H3)%IH. split; [lia|]. split; [|done].
    by replace (j - i)%nat with (S (j - S i)) by lia.
Qed.

Lemma hunk_at_none i hunks line :
  hunk_with_new_line_at i hunks line = None ↔ ∀ h, In h hunks → line ∉ hunk_new_lines h.
Proof.
  revert i. induction hunks as [|x hunks IH]; intros i; cbn [hunk_with_new_line_at]; [by split|].
  destruct (py_any _ _) eqn:E.
  - split; [done|]. intros H. apply has_new_line_any in E. by destruct (H x (or_introl eq_refl)).
  - rewrite IH. split; [|intros H h Hh; apply H; by right].
    intros H h [<-|Hh]; [|by apply H]. rewrite <- has_new_line_any. congruence.
Qed.

(** In a well-formed file a new line belongs to one hunk. *)
Lemma hunks_ordered_lookup_lt oe ne hs i j hi hj x y :
  hunks_ordered oe ne hs → hs !! i = Some hi → hs !! j = Some hj → (i < j)%nat →
  x ∈ hunk_new_lines hi → y ∈ hunk_new_lines hj → x < y.
Proof.
  intros Ho Hi Hj Hlt Hx Hy. apply hunks_new_increasing in Ho as [Hs _].
  apply list_elem_of_split_length in Hi as (l1 & l2 & -> & ->).
  rewrite lookup_app_r in Hj by lia.
  replace (j - length l1)%nat with (S (j - S (length l1))) in Hj by lia. cbn in Hj.
  apply list_elem_of_lookup_2 in Hj. rewrite map_app, concat_app, omap_app in Hs.
  cbn [map concat] in Hs. rewrite omap_app in Hs.
  apply StronglySorted_app_1_r in Hs.
  eapply StronglySorted_app_1_elem_of; [exact Hs|exact Hx|].
  apply list_elem_of_omap in Hy as (r & Hr & Hry).
  apply list_elem_of_omap. exists r. split; [|done].
  apply list_elem_of_In, in_concat. exists (dh_rows hj).
  split; [by apply in_map, list_elem_of_In|by apply list_elem_of_In].
Qed.

Lemma new_line_one_hunk oe ne hs i j hi hj x :
  hunks_ordered oe ne hs → hs !! i = Some hi → hs !! j = Some hj →
  x ∈ hunk_new_lines hi → x ∈ hunk_new_lines hj → i = j.
Proof.
  intros Ho Hi Hj Hx Hy. destruct (Nat.lt_trichotomy i j) as [Hl|[->|Hl]]; [|done|].
  - pose proof (hunks_ordered_lookup_lt _ _ _ _ _ _ _ x x Ho Hi Hj Hl Hx Hy). lia.
  - pose proof (hunks_ordered_lookup_lt _ _ _ _ _ _ _ x x Ho Hj Hi Hl Hy Hx). lia.
Qed.

(** The lines of a range lie in one hunk of an usable file, the first one with this new path. *)
Definition anchors (m : DiffMap) (path : pystr) (start_line : option Z) (line : Z)
    (f : DiffFile) (h : DiffHunk) : Prop :=
  file_with_new_path m path = Some f ∧ anchorable f = true ∧ In h (df_hunks f) ∧
  ∀ n, default line start_line ≤ n ≤ line → n ∈ hunk_new_lines h.

Lemma file_with_new_path_wf m path f :
  map_wf m → file_with_new_path m path = Some f → diff_file_wf f.
Proof.
  intros Hm [Hin _]%find_first_some. by apply (proj1 (List.Forall_forall _ _) Hm).
Qed.

Lemma hunk_lines_contiguous h a b n :
  dhunk_wf h → a ∈ hunk_new_lines h → b ∈ hunk_new_lines h → a ≤ n ≤ b → n ∈ hunk_new_lines h.
Proof.
  intros [_ E _ _ _ _ _]. unfold hunk_new_lines. rewrite E, !elem_of_seqZ. lia.
Qed.

Lemma hunks_ordered_In oe ne hs h : hunks_ordered oe ne hs → In h hs → dhunk_wf h.
Proof.
  revert oe ne. induction hs as [|x hs IH]; intros oe ne; cbn; [done|].
  intros (_ & _ & Hx & Hrest) [->|Hin]; [done|by eapply IH].
Qed.

(** The hunk found for a line is the only one with it. *)
Lemma hunk_with_new_line_unique f line h :
  diff_file_wf f → In h (df_hunks f) → line ∈ hunk_new_lines h →
  ∃ i, hunk_with_new_line f line = Some (i, h) ∧ df_hunks f !! i = Some h.
Proof.
  intros Hf Hin Hl. unfold hunk_with_new_line.
  destruct (hunk_with_new_line_at 0 (df_hunks f) line) as [[i h']|] eqn:E.
  - apply hunk_at_some in E as (_ & Hi & Hl'). rewrite Nat.sub_0_r in Hi.
    apply list_elem_of_In, list_elem_of_lookup in Hin as [j Hj].
    assert (i = j) as -> by (eapply new_line_one_hunk; [apply Hf|done..]).
    exists j. by simplify_eq.
  - apply hunk_at_none with (h := h) in E; [|done]. by destruct E.
Qed.

Lemma hunk_with_new_line_some f line i h :
  hunk_with_new_line f line = Some (i, h) →
  In h (df_hunks f) ∧ df_hunks f !! i = Some h ∧ line ∈ hunk_new_lines h.
Proof.
  intros (_ & Hi & Hl)%hunk_at_some. rewrite Nat.sub_0_r in Hi. split; [|done].
  apply list_elem_of_In. by eapply list_elem_of_lookup_2.
Qed.

Lemma present_new_lines n h :
  bool_decide (Some n ∈ map dr_new_line (dh_rows h)) = bool_decide (n ∈ hunk_new_lines h).
Proof.
  apply bool_decide_ext. unfold hunk_new_lines. rewrite list_elem_of_omap.
  change (map dr_new_line (dh_rows h)) with (dr_new_line <$> dh_rows h).
  rewrite list_elem_of_fmap. naive_solver.
Qed.

Lemma range_gap_false h start line :
  (∀ n, start ≤ n ≤ line → n ∈ hunk_new_lines h) ↔
  py_any (λ n, negb (bool_decide (Some n ∈ map dr_new_line (dh_rows h))))
    (py_range start (line + 1)) = false.
Proof.
  unfold py_any, py_range. rewrite <- not_true_iff_false, existsb_exists. split.
  - intros H (n & Hn & Hb). rewrite negb_true_iff, present_new_lines, bool_decide_eq_false in Hb.
    apply Hb, H. apply list_elem_of_In, elem_of_seqZ in Hn. lia.
  - intros H n Hn. destruct (bool_decide_reflect (n ∈ hunk_new_lines h)) as [|Hni]; [done|].
    destruct H. exists n. rewrite present_new_lines, bool_decide_eq_false_2 by done.
    split; [|done]. apply list_elem_of_In, elem_of_seqZ. lia.
Qed.

Lemma lines_valid start_line line :
  lines_invalid start_line line = false → 1 ≤ default line start_line ≤ line.
Proof.
  unfold lines_invalid. intros [H1 H2]%orb_false_iff. apply Z.ltb_ge in H1.
  destruct start_line as [s|]; cbn; [|lia].
  apply negb_false_iff, andb_true_iff in H2 as [?%Z.leb_le ?%Z.ltb_lt]. lia.
Qed.

(** ** Properties *)

Lemma resolve_anchor_sound m path start_line line a :
  map_wf m → resolve_anchor m path start_line line = Ok (Anchored a) →
  ∃ f h, anchors m path start_line line f h ∧
         a = mkAnchor (df_file_id f) Side_RIGHT start_line line (dh_hunk_id h).
Proof.
  intros Hm. unfold resolve_anchor, anchors. destruct (lines_invalid _ _); [done|].
  destruct (file_with_new_path m path) as [f|] eqn:Hf; [|done].
  destruct (anchorable f) eqn:Ha; cbn [negb]; [|done].
  destruct (hunk_with_new_line f line) as [[i h]|] eqn:Hh; [|done].
  apply hunk_with_new_line_some in Hh as (Hin & Hi & Hl).
  destruct start_line as [start|]; cbn [default].
  - destruct (hunk_with_new_line f start) as [[j h']|] eqn:Hs; [|done].
    case_match; [done|]. case_match eqn:Hg; [done|]. intros [= <-].
    exists f, h. split_and!; try done. by apply range_gap_false.
  - intros [= <-]. exists f, h. split_and!; try done. intros n Hn.
    by replace n with line by (cbn in Hn; lia).
Qed.

(** C7. On a built map, [resolve_anchor] returns a position exactly when every line of the
    requested range is a new-side line of one hunk of the usable file with this new path; the
    position is that file and hunk, on the right side, with the requested lines unchanged. *)
Theorem resolve_anchor_iff m path start_line line a :
  map_wf m → lines_invalid start_line line = false →
  resolve_anchor m path start_line line = Ok (Anchored a) ↔
  ∃ f h, anchors m path start_line line f h ∧
         a = mkAnchor (df_file_id f) Side_RIGHT start_line line (dh_hunk_id h).
Proof.
  intros Hm Hv. split; [by apply resolve_anchor_sound|].
  intros (f & h & (Hf & Ha & Hin & Hall) & ->). unfold resolve_anchor. rewrite Hv, Hf, Ha.
  pose proof (file_with_new_path_wf _ _ _ Hm Hf) as Hw. cbn [negb].
  pose proof (lines_valid _ _ Hv) as Hr.
  destruct (hunk_with_new_line_unique f line h Hw Hin) as (i & -> & Hi); [apply Hall; lia|].
  destruct start_line as [start|]; [|done].
  change (default line (Some start)) with start in Hall, Hr.
  destruct (hunk_with_new_line_unique f start h Hw Hin) as (j & -> & Hj); [apply Hall; lia|].
  assert (j = i) as ->.
  { apply (new_line_one_hunk 0 0 (df_hunks f) j i h h line);
      [apply Hw|done|done|apply Hall; lia..]. }
  rewrite Nat.eqb_refl. cbn [negb]. by rewrite (proj1 (range_gap_false h start line) Hall).
Qed.

(** On a built map the rejection [range_gap] never happens: the new lines of a hunk have no
    gap, so a range whose two ends lie in one hunk lies in it entirely. *)
Theorem resolve_anchor_no_range_gap m path start_line line :
  map_wf m → resolve_anchor m path start_line line ≠ Ok (Rejected Reject_range_gap).
Proof.
  intros Hm. unfold resolve_anchor. case_match; [done|].
  destruct (file_with_new_path m path) as [f|] eqn:Hf.
  - pose proof (file_with_new_path_wf _ _ _ Hm Hf) as Hw.
    case_match; [unfold unanchorable; by case_match|].
    destruct (hunk_with_new_line f line) as [[i h]|] eqn:Hh; [|done].
    destruct start_line as [start|]; [|done].
    destruct (hunk_with_new_line f start) as [[j h']|] eqn:Hs; [|done].
    apply hunk_with_new_line_some in Hh as (Hin & Hi & Hl).
    apply hunk_with_new_line_some in Hs as (_ & Hj & Hl').
    destruct (j =? i)%nat eqn:Hji; cbn [negb]; [|done]. apply Nat.eqb_eq in Hji as ->.
    simplify_eq. rewrite (proj1 (range_gap_false h start line)); [done|].
    intros n Hn. eapply hunk_lines_contiguous; [|exact Hl'|exact Hl|done].
    eapply hunks_ordered_In; [apply Hw|done].
  - clear. induction (dm_files m); cbn; [done|]. by repeat case_match.
Qed.

Lemma sample_map_wf : map_wf sample_map.
Proof.
  exact (build_map_wf [sample_vcs_file] Provider_github 255%N 12 (u8 "base") (u8 "head") None
           true sample_map sample_build_ok).
Qed.

Lemma resolve_anchor_iff_witness :
  ∃ a f h, resolve_anchor sample_map (u8 "src/app.py") (Some 9) 10 = Ok (Anchored a) ∧
           anchors sample_map (u8 "src/app.py") (Some 9) 10 f h.
Proof.
  destruct (resolve_anchor sample_map (u8 "src/app.py") (Some 9) 10) as [[a|r]|e] eqn:E;
    [|vm_compute in E; discriminate..].
  pose proof (resolve_anchor_iff sample_map (u8 "src/app.py") (Some 9) 10 a sample_map_wf eq_refl)
    as [H _].
  destruct (H E) as (f & h & Ha & _). by exists a, f, h.
Defined.

Lemma resolve_anchor_no_range_gap_witness :
  resolve_anchor sample_map (u8 "src/app.py") (Some 9) 10 ≠ Ok (Rejected Reject_range_gap).
Proof. exact (resolve_anchor_no_range_gap sample_map _ _ _ sample_map_wf). Defined.
