(* ===== verification/PrefixTable.v ===== *)
(** * Tables of reachable prefixes, and loops with a measure

    Two matchers of the service ([branch_patterns.py], [review_ignore.py]) read a pattern token
    by token and keep, for each prefix of the subject, whether the tokens so far match it.  This
    file holds what they share: tokens that stand for one letter or for a run of letters, the
    language of a token list, the two table updates and their meaning.  It also holds the
    iteration of a [while] loop with binary fuel, and its totality from a measure. *)

From stdpp Require Import numbers.
From S2P Require Import Prelude.

Section Table.
Context {A : Type}.

(** [One m]: one letter accepted by [m]; [Many ext]: any number of letters accepted by [ext]. *)
Inductive tk : Type :=
| One (m : A → bool)
| Many (ext : A → bool).

Definition tok_lang (t : tk) (v : list A) : Prop :=
  match t with
  | One m => ∃ a, v = [a] ∧ m a = true
  | Many ext => Forall (λ a, ext a = true) v
  end.

(** The words a list of tokens stands for. *)
Fixpoint words (ts : list tk) (s : list A) : Prop :=
  match ts with
  | [] => s = []
  | t :: ts' => ∃ u v, s = u ++ v ∧ tok_lang t u ∧ words ts' v
  end.

(** The ascending pass of a run of letters over the table; [prev] is the entry before, as
    already updated. *)
Fixpoint star_pass (ext : A → bool) (prev : bool) (xs : list A) (rs : list bool) : list bool :=
  match xs, rs with
  | x :: xs', r :: rs' =>
      let r' := r || (prev && ext x) in
      r' :: star_pass ext r' xs' rs'
  | _, _ => rs
  end.

(** The pass of one letter: every entry moves one place on if its letter is accepted. *)
Definition one_pass (m : A → bool) (xs : list A) (rs : list bool) : list bool :=
  zip_with (λ r x, r && m x) rs xs.

Definition table_step (xs : list A) (t : tk) (rs : list bool) : list bool :=
  match t with
  | One m => false :: one_pass m xs rs
  | Many ext => match rs with [] => [] | r :: rs' => r :: star_pass ext r xs rs' end
  end.

Definition table_start (xs : list A) : list bool := true :: repeat false (length xs).

Definition after (P : list A → Prop) (t : tk) (s : list A) : Prop :=
  ∃ u v, s = u ++ v ∧ P u ∧ tok_lang t v.

(** [tab P pre xs rs]: [rs] tells, for each prefix [u] of [xs], whether [P (pre ++ u)]. *)
Inductive tab (P : list A → Prop) : list A → list A → list bool → Prop :=
| tab_nil pre r : (r = true ↔ P pre) → tab P pre [] [r]
| tab_cons pre x xs r rs :
    (r = true ↔ P pre) → tab P (pre ++ [x]) xs rs → tab P pre (x :: xs) (r :: rs).

Lemma after_many_snoc P ext s x :
  after P (Many ext) (s ++ [x]) ↔ P (s ++ [x]) ∨ (after P (Many ext) s ∧ ext x = true).
Proof.
  split.
  - intros (u & v & E & Hu & Hv). destruct v as [|d v _] using rev_ind.
    { left. by rewrite app_nil_r in E; subst. }
    rewrite app_assoc in E. apply app_inj_tail in E as [-> ->]. right.
    apply Forall_app in Hv as [Hv1 Hv2]. inv Hv2. split; [|done]. by exists u, v.
  - intros [HP|[(u & v & -> & Hu & Hv) Hc]].
    + exists (s ++ [x]), []. rewrite app_nil_r. repeat split; [done|constructor].
    + exists u, (v ++ [x]). cbn in *. rewrite Forall_app, app_assoc. naive_solver.
Qed.

Lemma after_one_snoc P m s x : after P (One m) (s ++ [x]) ↔ P s ∧ m x = true.
Proof.
  split.
  - intros (u & v & E & Hu & a & -> & Ha). by apply app_inj_tail in E as [-> ->].
  - intros [HP Hx]. exists s, [x]. repeat split; try done. by exists x.
Qed.

Lemma after_nil P t : after P t [] ↔ P [] ∧ tok_lang t [].
Proof.
  split.
  - intros (u & v & E & Hu & Hv). symmetry in E. by apply app_eq_nil in E as [-> ->].
  - intros [HP Ht]. by exists [], [].
Qed.

Lemma star_pass_tab P ext xs : ∀ pre prev rs r,
  (prev = true ↔ after P (Many ext) pre) → tab P pre xs (r :: rs) →
  tab (after P (Many ext)) pre xs (prev :: star_pass ext prev xs rs).
Proof.
  induction xs as [|x xs IH]; intros pre prev rs r Hprev Htab.
  - inv Htab. by constructor.
  - inversion Htab as [|? ? ? ? ? Hr Hrs]; subst.
    destruct rs as [|r1 rs]; [inv Hrs|]. cbn. constructor; [done|].
    assert (Hr1 : r1 = true ↔ P (pre ++ [x])) by (by inv Hrs).
    eapply (IH _ _ _ r1); [|done].
    rewrite after_many_snoc, orb_true_iff, andb_true_iff. naive_solver.
Qed.

Lemma one_pass_tab P m xs : ∀ pre rs first,
  tab P pre xs rs → (first = true ↔ after P (One m) pre) →
  tab (after P (One m)) pre xs (first :: one_pass m xs rs).
Proof.
  induction xs as [|x xs IH]; intros pre rs first Htab Hfirst.
  - inv Htab. by constructor.
  - inversion Htab as [|? ? ? r rs' Hr Hrs]; subst. cbn. constructor; [done|].
    apply IH; [done|]. rewrite after_one_snoc, andb_true_iff. naive_solver.
Qed.

Lemma table_step_tab P t xs rs :
  tab P [] xs rs → tab (after P t) [] xs (table_step xs t rs).
Proof.
  intros Htab. destruct t as [m|ext]; cbn.
  - apply one_pass_tab; [done|]. rewrite after_nil. split; [done|]. by intros [_ (a & [=] & _)].
  - destruct rs as [|r rs]; [by inv Htab|]. eapply star_pass_tab; [|done].
    rewrite after_nil. assert (r = true ↔ P []) by (by inv Htab). cbn. rewrite Forall_nil. tauto.
Qed.

Lemma tab_any P pre xs rs :
  tab P pre xs rs → py_any id rs = false → ∀ u v, xs = u ++ v → ¬ P (pre ++ u).
Proof.
  unfold py_any. induction 1 as [pre r Hr|pre x xs r rs Hr Ht IH]; cbn; intros Hany u v E.
  - symmetry in E. apply app_eq_nil in E as [-> ->]. rewrite app_nil_r. to_prop. naive_solver.
  - apply orb_false_iff in Hany as [Hr0 Hany]. cbn in Hr0. destruct u as [|d u]; cbn in E.
    + rewrite app_nil_r. naive_solver.
    + simplify_eq. specialize (IH Hany u v eq_refl). by rewrite <- app_assoc in IH.
Qed.

Lemma tab_last P pre xs rs :
  tab P pre xs rs → default false (list.last rs) = true ↔ P (pre ++ xs).
Proof.
  induction 1 as [pre r Hr|pre x xs r rs Hr Ht IH]; [by rewrite app_nil_r|].
  rewrite <- app_assoc in IH. destruct rs; [by inv Ht|]. exact IH.
Qed.

Lemma tab_start xs : tab (λ s, s = []) [] xs (table_start xs).
Proof.
  assert (H : ∀ ys pre first, (first = true ↔ pre = []) →
            tab (λ s, s = []) pre ys (first :: repeat false (length ys))).
  { induction ys as [|y ys IH]; intros pre first Hf; cbn; constructor; try done.
    apply IH. split; [done|]. intros E. by apply app_eq_nil in E as [_ [=]]. }
  by apply H.
Qed.

Lemma tab_length P pre xs rs : tab P pre xs rs → length rs = S (length xs).
Proof. induction 1; cbn; congruence. Qed.

(** [accepts P ts xs]: [xs] is a word of [P] followed by a word of [ts]. *)
Definition accepts (P : list A → Prop) (ts : list tk) (xs : list A) : Prop :=
  ∃ u v, xs = u ++ v ∧ P u ∧ words ts v.

Lemma accepts_nil P xs : accepts P [] xs ↔ P xs.
Proof.
  split.
  - intros (u & v & -> & HP & ->). by rewrite app_nil_r.
  - intros HP. exists xs, []. by rewrite app_nil_r.
Qed.

Lemma accepts_cons P t ts xs : accepts (after P t) ts xs ↔ accepts P (t :: ts) xs.
Proof.
  split.
  - intros (? & v & -> & (u & w & -> & Hu & Hw) & Hv). exists u, (w ++ v).
    rewrite app_assoc. repeat split; try done. by exists w, v.
  - intros (u & ? & -> & Hu & w & v & -> & Hw & Hv).
    exists (u ++ w), v. rewrite app_assoc. repeat split; try done. by exists u, w.
Qed.

Lemma accepts_start ts xs : accepts (λ s, s = []) ts xs ↔ words ts xs.
Proof.
  split; [by intros (u & v & -> & -> & Hg)|]. intros Hg. by exists [], xs.
Qed.

(** An empty table stops the search. *)
Lemma tab_dead P ts xs rs :
  tab P [] xs rs → py_any id rs = false → ¬ accepts P ts xs.
Proof. intros Ht Hany (u & v & Hb & HP & _). by destruct (tab_any _ _ _ _ Ht Hany u v Hb). Qed.

(** The whole table decides membership. *)
Definition decide_words (ts : list tk) (xs : list A) : bool :=
  default false (list.last (fold_left (λ rs t, table_step xs t rs) ts (table_start xs))).

Lemma decide_words_iff ts xs : decide_words ts xs = true ↔ words ts xs.
Proof.
  rewrite <- accepts_start. unfold decide_words. pose proof (tab_start xs) as Ht.
  revert Ht. generalize (table_start xs), (λ s : list A, s = []).
  induction ts as [|t ts IH]; intros rs P Ht; cbn.
  - by rewrite (tab_last _ _ _ _ Ht), accepts_nil.
  - rewrite (IH _ (after P t)) by (by apply table_step_tab). apply accepts_cons.
Qed.
End Table.
Arguments tk : clear implicits.

(** ** Loops *)

(** The body of a [while] loop gives the next state or the result.  [iterate k] runs at most
    [2 ^ k] turns and stops at the first result. *)
Section Loop.
Context {S R : Type} (body : S → S + R).

Fixpoint iterate (k : nat) (s : S) : S + R :=
  match k with
  | O => body s
  | Datatypes.S k' => match iterate k' s with inl s' => iterate k' s' | inr r => inr r end
  end.

(** [ends s r]: the loop started in [s] ends with [r]. *)
Inductive ends : S → R → Prop :=
| ends_now s r : body s = inr r → ends s r
| ends_later s s' r : body s = inl s' → ends s' r → ends s r.

(** [turns n s s']: [n] turns lead from [s] to [s']. *)
Inductive turns : nat → S → S → Prop :=
| turns_0 s : turns 0 s s
| turns_S n s s' s'' : body s = inl s' → turns n s' s'' → turns (Datatypes.S n) s s''.

Lemma turns_app n m s s' s'' : turns n s s' → turns m s' s'' → turns (n + m) s s''.
Proof. induction 1; cbn; [done|]. intros. econstructor; [done|]. by apply IHturns. Qed.

Lemma turns_ends n s s' r : turns n s s' → ends s' r → ends s r.
Proof. induction 1; [done|]. intros. eapply ends_later; [done|]. by apply IHturns. Qed.

Lemma iterate_spec k : ∀ s,
  match iterate k s with
  | inl s' => turns (2 ^ k) s s'
  | inr r => ends s r
  end.
Proof.
  induction k as [|k IH]; intros s; cbn.
  - destruct (body s) eqn:E; [|by apply ends_now]. econstructor; [done|constructor].
  - pose proof (IH s) as H1. destruct (iterate k s) as [s1|r]; [|done].
    pose proof (IH s1) as H2. destruct (iterate k s1) as [s2|r].
    + rewrite Nat.add_0_r. by eapply turns_app.
    + by eapply turns_ends.
Qed.

(** An invariant and a measure that decreases bound the number of turns. *)
Lemma turns_measure (Inv : S → Prop) (mu : S → Z) n s s' :
  (∀ s s', Inv s → body s = inl s' → Inv s' ∧ (0 ≤ mu s' < mu s)%Z) →
  Inv s → (0 ≤ mu s)%Z → turns n s s' → (Z.of_nat n ≤ mu s)%Z ∧ Inv s'.
Proof.
  intros Hstep Hinv Hmu Ht. induction Ht as [s|n s s1 s2 Hb Ht IH]; [done|].
  destruct (Hstep s s1 Hinv Hb) as [H1 H2]. destruct IH as [H3 H4]; [done|lia|]. split; [lia|done].
Qed.

(** So the loop with enough fuel has a result. *)
Lemma iterate_total (Inv : S → Prop) (mu : S → Z) k s :
  (∀ s s', Inv s → body s = inl s' → Inv s' ∧ (0 ≤ mu s' < mu s)%Z) →
  Inv s → (0 ≤ mu s < 2 ^ Z.of_nat k)%Z → ∃ r, iterate k s = inr r ∧ ends s r.
Proof.
  intros Hstep Hinv Hmu. pose proof (iterate_spec k s) as H.
  destruct (iterate k s) as [s'|r]; [|by exists r].
  apply (turns_measure Inv mu) in H as [H _]; [|done..|lia].
  rewrite Nat2Z.inj_pow in H. change (Z.of_nat 2) with 2%Z in H. lia.
Qed.

(** Rule of the loop: what holds of every result reached from [s] under the invariant. *)
Lemma ends_ind_inv (Inv : S → Prop) (Q : R → Prop) s r :
  (∀ s s', Inv s → body s = inl s' → Inv s') →
  (∀ s r, Inv s → body s = inr r → Q r) →
  Inv s → ends s r → Q r.
Proof. intros Hstep Hend Hinv He. induction He; eauto. Qed.
End Loop.

(** Fuel for a measure: [2 ^ fuel_for mu] is larger than [mu]. *)
Definition fuel_for (mu : Z) : nat := Z.to_nat (Z.succ (Z.log2 mu)).

Lemma fuel_for_enough mu : (0 ≤ mu)%Z → (mu < 2 ^ Z.of_nat (fuel_for mu))%Z.
Proof.
  intros H. unfold fuel_for. pose proof (Z.log2_nonneg mu).
  rewrite Z2Nat.id by lia. destruct (decide (mu = 0%Z)) as [->|Hm]; [done|].
  apply Z.log2_spec. lia.
Qed.
