(* ===== verification/PyFloat.v ===== *)
(** * Python's [float] and its texts

    Binary64 numbers of the Standard Library's [SpecFloat]: conversion from integers, true division,
    [min] and [max], [math.ceil] and [int], the texts [float] reads and the texts [repr], [:.0f] and
    [:g] write, all correctly rounded. *)

From Stdlib Require Import String SpecFloat.
From stdpp Require Import numbers.
From S2P Require Import Prelude PyText.
#[local] Open Scope Z_scope.

Abbreviation float := spec_float.

#[export] Instance float_eq_dec : EqDecision spec_float.
Proof. solve_decision. Defined.

Definition fadd : float → float → float := SFadd 53 1024.
Definition fsub : float → float → float := SFsub 53 1024.
Definition fmul : float → float → float := SFmul 53 1024.
Definition fdiv : float → float → float := SFdiv 53 1024.

(** [x < y] and [x <= y]; both fail when a side is not a number. *)
Infix "<?f" := SFltb (at level 70, no associativity) : dmc_scope.
Infix "<=?f" := SFleb (at level 70, no associativity) : dmc_scope.

(** [float(z)] *)
Definition float_of_Z (z : Z) : float := binary_normalize 53 1024 z 0 false.

(** [a / b] of integers, for [b] positive: one rounding of the exact quotient. *)
Definition true_divide (a b : Z) : float :=
  if a =? 0 then S754_zero false
  else let '(q, e, l) := SFdiv_core_binary 53 1024 (Z.abs a) 0 b 0 in
       binary_round_aux 53 1024 (a <? 0) q e l.

(** [min(x, y)] and [max(x, y)]: the first argument unless the second is strictly better. *)
Definition py_fmin (x y : float) : float := if (y <?f x) then y else x.
Definition py_fmax (x y : float) : float := if (x <?f y) then y else x.

Definition is_finite (x : float) : bool :=
  match x with S754_zero _ | S754_finite _ _ _ => true | _ => false end.

(** [bool(x)] *)
Definition float_truthy (x : float) : bool := match x with S754_zero _ => false | _ => true end.

(** The absolute value of a finite number as a fraction. *)
Definition fraction (m : positive) (e : Z) : Z * Z :=
  if 0 <=? e then (Zpos m * 2 ^ e, 1) else (Zpos m, 2 ^ (- e)).

(** [int(x)]; [None] is the error of an infinite or undefined number. *)
Definition float_trunc (x : float) : option Z :=
  match x with
  | S754_zero _ => Some 0
  | S754_finite s m e => let '(a, b) := fraction m e in Some (if s then - (a / b) else a / b)
  | _ => None
  end.

(** [math.ceil(x)] *)
Definition float_ceil (x : float) : option Z :=
  match x with
  | S754_zero _ => Some 0
  | S754_finite s m e =>
      let '(a, b) := fraction m e in Some (if s then - (a / b) else - ((- a) / b))
  | _ => None
  end.

(** ** Reading *)

(** Underscores stand between digits only. *)
Fixpoint underscores_ok (after_digit : bool) (s : pystr) : bool :=
  match s with
  | [] => true
  | c :: s' =>
      if (c =? 95)%N
      then after_digit
           && match s' with
              | d :: _ => bool_decide (is_Some (decimal_value d))
              | [] => false
              end
           && underscores_ok false s'
      else underscores_ok (bool_decide (is_Some (decimal_value c))) s'
  end.

Definition without_underscores (s : pystr) : pystr := base.filter (λ c, (c ≠ 95)%N) s.

(** A sign, and the rest of the text. *)
Definition take_sign (s : pystr) : bool * pystr :=
  match s with
  | c :: s' => if (c =? 45)%N then (true, s') else if (c =? 43)%N then (false, s') else (false, s)
  | [] => (false, [])
  end.

(** [digits], [digits.digits] or [.digits], then an optional exponent: the coefficient, its number of
    digits and the exponent of ten. *)
Definition read_number (s : pystr) : option (N * nat * Z) :=
  let '(whole, s1) := take_digits s in
  let '(part, s2) := match s1 with c :: s1' => if (c =? 46)%N then take_digits s1' else ([], s1)
                                | [] => ([], []) end in
  let digits := whole ++ part in
  if bool_decide (digits = []) then None
  else
    let value k := Some (digits_value digits, length digits, k - Z.of_nat (length part)) in
    match s2 with
    | [] => value 0
    | c :: s3 =>
        if (c =? 101)%N || (c =? 69)%N then
          let '(neg, s4) := take_sign s3 in
          match take_digits s4 with
          | ([], _) => None
          | (ds, []) => value (if neg : bool then - Z.of_N (digits_value ds) else Z.of_N (digits_value ds))
          | (_, _ :: _) => None
          end
        else None
    end.

(** The number nearest to [c * 10 ^ k]; a magnitude outside the range needs no power of ten. *)
Definition float_of_decimal (neg : bool) (c : N) (digits : nat) (k : Z) : float :=
  if (c =? 0)%N then S754_zero neg
  else if 400 <? Z.of_nat digits + k then S754_infinity neg
  else if Z.of_nat digits + k <? -400 then S754_zero neg
  else
    let z := if neg then - Z.of_N c else Z.of_N c in
    if 0 <=? k then binary_normalize 53 1024 (z * 10 ^ k) 0 neg else true_divide z (10 ^ (- k)).

(** [float(s)]; [None] is its [ValueError]. *)
Definition float_of_str (s : pystr) : option float :=
  let t := strip_with is_space s in
  if negb (underscores_ok false t) then None
  else
    let '(neg, rest) := take_sign (without_underscores t) in
    let name := str_lower rest in
    if (name =?s u8 "inf") || (name =?s u8 "infinity") then Some (S754_infinity neg)
    else if name =?s u8 "nan" then Some S754_nan
    else '(c, digits, k) ← read_number rest; Some (float_of_decimal neg c digits k).

(** ** Writing *)

(** [a / b] rounded to the nearest integer, ties to even. *)
Definition div_half_even (a b : Z) : Z :=
  let q := a / b in
  match 2 * (a mod b) ?= b with
  | Lt => q
  | Gt => q + 1
  | Eq => if Z.even q then q else q + 1
  end.

Definition ndigits (z : Z) : Z := Z.of_nat (length (str_of_Z z)).

(** The decimal exponent of the fraction [a / b]. *)
Definition exponent10 (a b : Z) : Z :=
  let k := ndigits a - ndigits b in
  if (if 0 <=? k then b * 10 ^ k <=? a else b <=? a * 10 ^ (- k)) then k else k - 1.

(** The fraction [a / b * 10 ^ k]. *)
Definition scaled (a b k : Z) : Z * Z := if 0 <=? k then (a * 10 ^ k, b) else (a, b * 10 ^ (- k)).

(** [n] significant digits and the exponent of the first one. *)
Definition significant (n a b : Z) : Z * Z :=
  let x := exponent10 a b in
  let '(a', b') := scaled a b (n - 1 - x) in
  let d := div_half_even a' b' in
  if d =? 10 ^ n then (d / 10, x + 1) else (d, x).

Definition zeros (n : Z) : pystr := repeat 48%N (Z.to_nat n).
Definition sign_text (neg : bool) : pystr := if neg then u8 "-" else [].
Definition strip_zeros (s : pystr) : pystr := rstrip_with (N.eqb 48) s.

(** [ds] are the significant digits, [x] the exponent of the first: positional notation. *)
Definition positional (ds : pystr) (x : Z) : pystr * pystr :=
  if x <? 0 then (u8 "0", zeros (- x - 1) ++ ds)
  else (take (Z.to_nat (x + 1)) ds ++ zeros (x + 1 - py_len ds), drop (Z.to_nat (x + 1)) ds).

(** The exponent has a sign and at least two digits. *)
Definition exponent_text (x : Z) : pystr :=
  u8 "e" ++ (if x <? 0 then u8 "-" else u8 "+")
  ++ (if Z.abs x <? 10 then u8 "0" else []) ++ str_of_Z (Z.abs x).

Definition dotted (whole part : pystr) : pystr :=
  whole ++ (if part =?s [] then [] else u8 "." ++ part).

Definition scientific (ds : pystr) (x : Z) : pystr := dotted (take 1 ds) (drop 1 ds) ++ exponent_text x.

Definition special_text (x : float) : option pystr :=
  match x with
  | S754_nan => Some (u8 "nan")
  | S754_infinity s => Some (sign_text s ++ u8 "inf")
  | _ => None
  end.

(** [f"{x:.0f}"] *)
Definition format_0f (x : float) : pystr :=
  match x with
  | S754_zero s => sign_text s ++ u8 "0"
  | S754_finite s m e =>
      let '(a, b) := fraction m e in sign_text s ++ str_of_Z (div_half_even a b)
  | _ => default [] (special_text x)
  end.

(** [f"{x:g}"] *)
Definition format_g (x : float) : pystr :=
  match x with
  | S754_zero s => sign_text s ++ u8 "0"
  | S754_finite s m e =>
      let '(a, b) := fraction m e in
      let '(d, k) := significant 6 a b in
      let ds := strip_zeros (str_of_Z d) in
      sign_text s
      ++ (if (-4 <=? k) && (k <? 6) then let '(whole, part) := positional ds k in dotted whole part
          else scientific ds k)
  | _ => default [] (special_text x)
  end.

(** The nearest decimal of [n] digits that reads back as the number, if there is one. *)
Definition shortest_at (x : float) (a b n : Z) : option (Z * Z) :=
  let k := exponent10 a b in
  let '(a', b') := scaled a b (n - 1 - k) in
  let low := a' / b' in
  let reads d := bool_decide (float_of_decimal false (Z.to_N d) (Z.to_nat (ndigits d)) (k - n + 1) = x) in
  let near := div_half_even a' b' in
  let far := if near =? low then low + 1 else low in
  let answer d := Some (d, k + ndigits d - n) in
  if reads near then answer near else if reads far then answer far else None.

(** The digits of [repr]: the first length from 1 to 17 that reads back. *)
Fixpoint shortest_from (x : float) (a b n : Z) (fuel : nat) : option (Z * Z) :=
  match fuel with
  | O => None
  | S fuel' =>
      match shortest_at x a b n with
      | Some r => Some r
      | None => shortest_from x a b (n + 1) fuel'
      end
  end.

(** [repr(x)] *)
Definition float_repr (x : float) : pystr :=
  match x with
  | S754_zero s => sign_text s ++ u8 "0.0"
  | S754_finite s m e =>
      let '(a, b) := fraction m e in
      match shortest_from (S754_finite false m e) a b 1 17 with
      | Some (d, k) =>
          let ds := strip_zeros (str_of_Z d) in
          sign_text s
          ++ (if (-4 <=? k) && (k <? 16)
              then let '(whole, part) := positional ds k in
                   whole ++ u8 "." ++ (if part =?s [] then u8 "0" else part)
              else scientific ds k)
      | None => []
      end
  | _ => default [] (special_text x)
  end.

(** ** Samples *)

Example float_texts_sample :
  (λ s, float_repr <$> float_of_str (u8 s))
    <$> ["0.1"; "3"; "1e16"; "1e15"; "123456789012345678"; "0.0001"; "0.00001"; "5e-324"; "-2.5";
         "1e400"; "1_000.5"; " 12 "; ".5"; "9007199254740993"; "1.7976931348623157e308"]%string
  = (λ s, Some (u8 s))
    <$> ["0.1"; "3.0"; "1e+16"; "1000000000000000.0"; "1.2345678901234568e+17"; "0.0001"; "1e-05";
         "5e-324"; "-2.5"; "inf"; "1000.5"; "12.0"; "0.5"; "9007199254740992.0";
         "1.7976931348623157e+308"]%string.
Proof. vm_compute. reflexivity. Qed.

Example format_sample :
  ((λ s, format_g <$> float_of_str (u8 s))
     <$> ["90"; "1e22"; "123456789"; "0.0001"; "0.00001234567"; "999999.5"; "2.5"]%string
   = (λ s, Some (u8 s))
     <$> ["90"; "1e+22"; "1.23457e+08"; "0.0001"; "1.23457e-05"; "1e+06"; "2.5"]%string)
  ∧ ((λ s, format_0f <$> float_of_str (u8 s)) <$> ["-0.4"; "2.5"; "3.5"; "89.999"]%string
     = (λ s, Some (u8 s)) <$> ["-0"; "2"; "4"; "90"]%string)
  ∧ ((λ s, float_of_str (u8 s)) <$> ["1__0"; "_1"; "1_"; "."; "1e"; "0x10"; ""]%string
     = repeat None 7).
Proof. vm_compute. repeat split. Qed.
