(* ===== verification/PyDecimal.v ===== *)
(** * Python's [decimal] in its default context

    28 digits, rounding half to even, exponents up to 999999; invalid operations, divisions by zero
    and overflows raise.  Reading, writing, comparing and the operations money is computed with. *)

From Stdlib Require Import String QArith.
From stdpp Require Import numbers.
From S2P Require Import Prelude PyText PyFloat.
#[local] Open Scope Z_scope.

(** A finite number is [(-1) ^ neg * coeff * 10 ^ exp]; the payload of a NaN is not kept. *)
Inductive decimal : Type :=
| Dec (neg : bool) (coeff : N) (exp : Z)
| DInf (neg : bool)
| DNaN (signaling : bool).

Inductive DecimalException : Type := InvalidOperation | DivisionByZero | Overflow.

#[export] Instance decimal_eq_dec : EqDecision decimal.
Proof. solve_decision. Defined.

Abbreviation deciding := (result DecimalException).

Definition PREC : Z := 28.
Definition EMAX : Z := 999999.
Definition ETINY : Z := - EMAX - PREC + 1.

Definition dec_of_Z (z : Z) : decimal := Dec (z <? 0) (Z.abs_N z) 0.

(** The number of digits of a coefficient. *)
Definition clen (c : N) : Z := py_len (str_of_N c).

Definition dec_finite (d : decimal) : bool := match d with Dec _ _ _ => true | _ => false end.

(** The coefficient at another exponent, rounded. *)
Definition rescale (c : N) (e e' : Z) : N :=
  if e' <=? e then (c * Z.to_N (10 ^ (e - e')))%N
  else Z.to_N (div_half_even (Z.of_N c) (10 ^ (e' - e))).

(** The result of an operation, made to fit the context. *)
Definition dec_fix (neg : bool) (c : N) (e : Z) : deciding decimal :=
  if (c =? 0)%N then Ok (Dec neg 0 (Z.min (Z.max e ETINY) EMAX))
  else
    let least := clen c + e - PREC in
    if EMAX - PREC + 1 <? least then Err Overflow
    else
      let e' := Z.max least ETINY in
      if e' <=? e then Ok (Dec neg c e)
      else
        let c' := rescale c e e' in
        if PREC <? clen c' then
          if EMAX - PREC + 1 <? e' + 1 then Err Overflow else Ok (Dec neg (c' / 10) (e' + 1))
        else Ok (Dec neg c' e').

(** A NaN operand: a signalling one raises. *)
Definition nan_result (a b : decimal) : option (deciding decimal) :=
  match a, b with
  | DNaN true, _ | _, DNaN true => Some (Err InvalidOperation)
  | DNaN false, _ | _, DNaN false => Some (Ok (DNaN false))
  | _, _ => None
  end.

Definition signed (neg : bool) (c : N) : Z := if neg then - Z.of_N c else Z.of_N c.

Definition dec_add (a b : decimal) : deciding decimal :=
  match nan_result a b with
  | Some r => r
  | None =>
      match a, b with
      | Dec n1 c1 e1, Dec n2 c2 e2 =>
          let e := Z.min e1 e2 in
          let z := signed n1 c1 * 10 ^ (e1 - e) + signed n2 c2 * 10 ^ (e2 - e) in
          dec_fix (if z =? 0 then n1 && n2 else z <? 0) (Z.abs_N z) e
      | DInf n1, DInf n2 => if Bool.eqb n1 n2 then Ok a else Err InvalidOperation
      | DInf _, _ => Ok a
      | _, _ => Ok b
      end
  end.

Definition dec_zero (d : decimal) : bool := match d with Dec _ c _ => (c =? 0)%N | _ => false end.
Definition dec_neg (d : decimal) : bool := match d with Dec n _ _ | DInf n => n | DNaN _ => false end.

Definition dec_mul (a b : decimal) : deciding decimal :=
  match nan_result a b with
  | Some r => r
  | None =>
      match a, b with
      | Dec n1 c1 e1, Dec n2 c2 e2 => dec_fix (xorb n1 n2) (c1 * c2)%N (e1 + e2)
      | _, _ => if dec_zero a || dec_zero b then Err InvalidOperation
                else Ok (DInf (xorb (dec_neg a) (dec_neg b)))
      end
  end.

(** Trailing zeros of an exact quotient, dropped up to the ideal exponent. *)
Fixpoint drop_zeros (fuel : nat) (c : N) (e ideal : Z) : N * Z :=
  match fuel with
  | O => (c, e)
  | S fuel' =>
      if (e <? ideal) && (c mod 10 =? 0)%N then drop_zeros fuel' (c / 10) (e + 1) ideal else (c, e)
  end.

Definition dec_div (a b : decimal) : deciding decimal :=
  match nan_result a b with
  | Some r => r
  | None =>
      match a, b with
      | Dec n1 c1 e1, Dec n2 c2 e2 =>
          let neg := xorb n1 n2 in
          if (c2 =? 0)%N then Err (if (c1 =? 0)%N then InvalidOperation else DivisionByZero)
          else if (c1 =? 0)%N then dec_fix neg 0 (e1 - e2)
          else
            let shift := clen c2 - clen c1 + PREC + 1 in
            let e := e1 - e2 - shift in
            let a := if 0 <=? shift then Z.of_N c1 * 10 ^ shift else Z.of_N c1 in
            let b := if 0 <=? shift then Z.of_N c2 else Z.of_N c2 * 10 ^ (- shift) in
            let q := Z.to_N (a / b) in
            if a mod b =? 0
            then let '(c, e') := drop_zeros (Z.to_nat (clen q)) q e (e1 - e2) in dec_fix neg c e'
            else dec_fix neg (if (q mod 5 =? 0)%N then q + 1 else q)%N e
      | DInf _, DInf _ => Err InvalidOperation
      | DInf n1, _ => Ok (DInf (xorb n1 (dec_neg b)))
      | _, _ => Ok (Dec (xorb (dec_neg a) (dec_neg b)) 0 ETINY)
      end
  end.

(** [a.quantize(b)] for a finite [b] of exponent [e'] within the context. *)
Definition dec_quantize (a : decimal) (e' : Z) : deciding decimal :=
  match a with
  | DNaN true => Err InvalidOperation
  | DNaN false => Ok a
  | DInf _ => Err InvalidOperation
  | Dec n c e =>
      if (c =? 0)%N then dec_fix n 0 e'
      else if (EMAX <? clen c + e - 1) || (PREC <? clen c + e - e') then Err InvalidOperation
      else
        let c' := rescale c e e' in
        if PREC <? clen c' then Err InvalidOperation else dec_fix n c' e'
  end.

(** The order of two numbers; ordering a NaN raises. *)
Definition dec_compare (a b : decimal) : deciding comparison :=
  match a, b with
  | DNaN _, _ | _, DNaN _ => Err InvalidOperation
  | Dec n1 c1 e1, Dec n2 c2 e2 =>
      let e := Z.min e1 e2 in
      Ok (signed n1 c1 * 10 ^ (e1 - e) ?= signed n2 c2 * 10 ^ (e2 - e))
  | DInf n1, DInf n2 => Ok (if Bool.eqb n1 n2 then Eq else if n1 then Lt else Gt)
  | DInf n, _ => Ok (if n then Lt else Gt)
  | _, DInf n => Ok (if n then Gt else Lt)
  end.

Definition dec_lt (a b : decimal) : deciding bool :=
  c ← dec_compare a b; Ok (match c with Lt => true | _ => false end).
Definition dec_gt (a b : decimal) : deciding bool := dec_lt b a.
Definition dec_le (a b : decimal) : deciding bool :=
  c ← dec_compare a b; Ok (match c with Gt => false | _ => true end).

(** [max(a, b)] *)
Definition dec_max (a b : decimal) : deciding decimal :=
  better ← dec_gt b a; Ok (if better : bool then b else a).

(** ** Texts *)

(** [str(d)] *)
Definition dec_str (d : decimal) : pystr :=
  match d with
  | DNaN s => if s then u8 "sNaN" else u8 "NaN"
  | DInf n => sign_text n ++ u8 "Infinity"
  | Dec n c e =>
      let digits := str_of_N c in
      let left := e + py_len digits in
      let dot := if (e <=? 0) && (-6 <? left) then left else 1 in
      let '(whole, part) :=
        if dot <=? 0 then (u8 "0", zeros (- dot) ++ digits)
        else (take (Z.to_nat dot) digits ++ zeros (dot - py_len digits), drop (Z.to_nat dot) digits) in
      sign_text n ++ dotted whole part
      ++ (if left =? dot then []
          else u8 "E" ++ (if left <? dot then [] else u8 "+") ++ str_of_Z (left - dot))
  end.

(** The exponents [Decimal(s)] can hold. *)
Definition MAX_EMAX : Z := 999999999999999999.
Definition MIN_ETINY : Z := -1999999999999999997.

(** [Decimal(s)] for a text; [None] is its [InvalidOperation]. *)
Definition dec_of_str (s : pystr) : option decimal :=
  let '(neg, rest) := take_sign (without_underscores (strip_with is_space s)) in
  let name := str_lower rest in
  let all_digits t := bool_decide (snd (take_digits t) = []) in
  if (name =?s u8 "inf") || (name =?s u8 "infinity") then Some (DInf neg)
  else if startswith name (u8 "nan") && all_digits (drop 3 name) then Some (DNaN false)
  else if startswith name (u8 "snan") && all_digits (drop 4 name) then Some (DNaN true)
  else
    '(c, _, e) ← read_number rest;
    if (MIN_ETINY <=? e) && (e + clen c - 1 <=? MAX_EMAX) then Some (Dec neg c e) else None.

(** ** Values *)

Definition pow10 (e : Z) : Q := if 0 <=? e then inject_Z (10 ^ e) else / inject_Z (10 ^ (- e)).

(** The rational a finite number denotes. *)
Definition dec_value (d : decimal) : Q :=
  match d with Dec n c e => inject_Z (signed n c) * pow10 e | _ => 0 end.

Example decimal_sample :
  let D s := default (DNaN true) (dec_of_str (u8 s)) in
  let show (r : deciding decimal) := match r with Ok d => Some (dec_str d) | Err _ => None end in
  show <$>
    [dec_div (D "1") (D "1000000"); dec_div (D "123.4500") (D "1000000");
     dec_div (D "0") (D "1000000"); dec_div (D "123456789012345678901234567890") (D "1000000");
     dec_quantize (D "1e22") (-6); dec_quantize (D "1e21") (-6); dec_quantize (D "0.0000005") (-6);
     dec_quantize (D "0.0000015") (-6); dec_quantize (D "-0.0000005") (-6);
     dec_add (D "9999999999999999999999999999.9") (D "0"); dec_mul (D "1e999999") (D "10");
     dec_mul (D "1e-999999") (D "1e-20"); dec_mul (D "1e-999999") (D "1e-28");
     dec_mul (D "inf") (D "0"); dec_mul (D "5") (D "0.56125"); Ok (D "0e7"); Ok (D "0.0000001")]%string
  = (λ o, u8 <$> o) <$>
    [Some "0.000001"; Some "0.00012345"; Some "0"; Some "123456789012345678901234.5679"; None;
     Some "1000000000000000000000.000000"; Some "0.000000"; Some "0.000002"; Some "-0.000000";
     Some "1.000000000000000000000000000E+28"; None; Some "1E-1000019"; Some "0E-1000026"; None;
     Some "2.80625"; Some "0E+7"; Some "1E-7"]%string.
Proof. vm_compute. reflexivity. Qed.

Example decimal_read_sample :
  (λ s, bool_decide (dec_of_str (u8 s) = None))
    <$> ["1e9999999999999999999"; "1e999999999999999999"; "1e-1999999999999999998"; "0e1000000000000000000"]%string
  = [true; false; true; true].
Proof. vm_compute. reflexivity. Qed.
