(* ===== verification/Effects.v ===== *)
(** * Programs that await

    A coroutine is a tree: it returns, updates the state it shares with the other coroutines of the
    process without awaiting, or asks the world (a provider, a store, a clock) and continues with any
    answer.  Coroutines of one process interleave at every step; [safe] is a program logic for one
    of them, and [safe_pool] shows that it holds of each one in every interleaving. *)

From stdpp Require Import relations list.
From S2P Require Import Prelude.

Section Effects.
Context {S Q : Type} {R : Q → Type}.

Inductive prog (A : Type) : Type :=
| Ret (a : A)
| Local (f : S → S) (k : S → prog A)
| Ask (q : Q) (k : R q → prog A).
#[local] Arguments Ret {A} _.
#[local] Arguments Local {A} _ _.
#[local] Arguments Ask {A} _ _.

Fixpoint prog_bind {A B} (f : A → prog B) (p : prog A) : prog B :=
  match p with
  | Ret a => f a
  | Local g k => Local g (λ s, prog_bind f (k s))
  | Ask q k => Ask q (λ r, prog_bind f (k r))
  end.

(** What one coroutine asked and was told. *)
Record event : Type := Event { ev_query : Q; ev_answer : R ev_query }.

(** ** Runs of a process *)

Inductive step {A} : S → prog A → list event → S → prog A → list event → Prop :=
| step_local s f k t : step s (Local f k) t (f s) (k s) t
| step_ask s q k t r : step s (Ask q k) t s (k r) (t ++ [Event q r]).

(** The shared state, and each coroutine with its own history. *)
Record pool (A : Type) : Type := mkPool { pl_state : S; pl_tasks : list (prog A * list event) }.
#[local] Arguments mkPool {A} _ _.
#[local] Arguments pl_state {A} _.
#[local] Arguments pl_tasks {A} _.

Inductive pool_step {A} : pool A → pool A → Prop :=
| pool_step_at s s' tasks i p t p' t' :
    tasks !! i = Some (p, t) → step s p t s' p' t' →
    pool_step (mkPool s tasks) (mkPool s' (<[i := (p', t')]> tasks)).

Definition pool_start {A} (s : S) (ps : list (prog A)) : pool A := mkPool s ((λ p, (p, [])) <$> ps).

(** ** A program logic *)

Section Logic.
Context (I : S → Prop).

(** Whatever the shared state is meanwhile (as long as [I] holds of it) and whatever is answered,
    the program keeps [I], asks only what [ok] allows after what it has seen, and returns only what
    [Φ] allows. *)
Fixpoint safe {A} (ok : list event → Q → Prop) (Φ : list event → A → Prop) (p : prog A)
    (t : list event) : Prop :=
  match p with
  | Ret a => Φ t a
  | Local f k => ∀ s, I s → I (f s) ∧ safe ok Φ (k s) t
  | Ask q k => ok t q ∧ ∀ r, safe ok Φ (k r) (t ++ [Event q r])
  end.

Lemma safe_weaken {A} (ok ok' : list event → Q → Prop) (Φ Ψ : list event → A → Prop) p t :
  safe ok Φ p t → (∀ t' q, ok t' q → ok' t' q) → (∀ t' a, Φ t' a → Ψ t' a) → safe ok' Ψ p t.
Proof.
  intros H Hok HΦ. revert t H. induction p as [a|f k IH|q k IH]; intros t H; cbn in *; [by apply HΦ| |].
  - intros s Hs. destruct (H s Hs) as [Hi Hk]. split; [done|by apply IH].
  - destruct H as [Hq Hk]. split; [by apply Hok|]. intros r. by apply IH.
Qed.

Lemma safe_mono {A} ok (Φ Ψ : list event → A → Prop) p t :
  safe ok Φ p t → (∀ t' a, Φ t' a → Ψ t' a) → safe ok Ψ p t.
Proof. intros H HΦ. by eapply safe_weaken. Qed.

Lemma safe_bind {A B} ok (Φ : list event → B → Prop) (f : A → prog B) p t :
  safe ok (λ t' a, safe ok Φ (f a) t') p t → safe ok Φ (prog_bind f p) t.
Proof.
  revert t. induction p as [a|g k IH|q k IH]; intros t H; cbn in *; [done| |].
  - intros s Hs. destruct (H s Hs) as [Hi Hk]. split; [done|by apply IH].
  - destruct H as [Hq Hk]. split; [done|]. intros r. by apply IH.
Qed.

(** Two specifications of one program. *)
Lemma safe_and {A} ok ok' (Φ Ψ : list event → A → Prop) p t :
  safe ok Φ p t → safe ok' Ψ p t →
  safe (λ t' q, ok t' q ∧ ok' t' q) (λ t' a, Φ t' a ∧ Ψ t' a) p t.
Proof.
  revert t. induction p as [a|g k IH|q k IH]; intros t H H'; cbn in *; [done| |].
  - intros s Hs. destruct (H s Hs), (H' s Hs). split; [done|by apply IH].
  - destruct H, H'. split; [done|]. intros r. by apply IH.
Qed.

Lemma safe_step {A} ok (Φ : list event → A → Prop) s p t s' p' t' :
  step s p t s' p' t' → safe ok Φ p t → I s → I s' ∧ safe ok Φ p' t'.
Proof.
  destruct 1 as [s f k t|s q k t r]; cbn; intros H Hs; [by apply H|].
  destruct H as [_ H]. split; [done|apply H].
Qed.

(** Every question of a history was allowed when it was asked. *)
Definition asked_ok (ok : list event → Q → Prop) (t : list event) : Prop :=
  ∀ t1 e t2, t = t1 ++ e :: t2 → ok t1 (ev_query e).

Lemma asked_ok_snoc ok t e : asked_ok ok t → ok t (ev_query e) → asked_ok ok (t ++ [e]).
Proof.
  intros Ht He t1 e' t2 E. destruct t2 as [|e2 t2 _] using rev_ind.
  - apply app_inj_tail in E as [-> ->]. done.
  - rewrite app_comm_cons, app_assoc in E. apply app_inj_tail in E as [-> _]. by eapply Ht.
Qed.

Lemma step_asked {A} ok (Φ : list event → A → Prop) s p t s' p' t' :
  step s p t s' p' t' → safe ok Φ p t → asked_ok ok t → asked_ok ok t'.
Proof.
  destruct 1 as [s f k t|s q k t r]; cbn; intros H Ht; [done|].
  destruct H as [H _]. by apply asked_ok_snoc.
Qed.

(** In every interleaving the invariant holds, and each coroutine respects its specification. *)
Theorem safe_pool {A} (ok : nat → list event → Q → Prop) (Φ : nat → list event → A → Prop) s ps c :
  I s → (∀ i p, ps !! i = Some p → safe (ok i) (Φ i) p []) →
  rtc pool_step (pool_start s ps) c →
  I (pl_state c) ∧ ∀ i p t, pl_tasks c !! i = Some (p, t) →
    asked_ok (ok i) t ∧ safe (ok i) (Φ i) p t.
Proof.
  intros Hs Hps Hc.
  cut (∀ c0, rtc pool_step c0 c →
       (I (pl_state c0) ∧ ∀ i p t, pl_tasks c0 !! i = Some (p, t) →
          asked_ok (ok i) t ∧ safe (ok i) (Φ i) p t) →
       I (pl_state c) ∧ ∀ i p t, pl_tasks c !! i = Some (p, t) →
         asked_ok (ok i) t ∧ safe (ok i) (Φ i) p t).
  { intros H. apply (H _ Hc). split; [done|]. intros i p t Hi. cbn in Hi.
    rewrite list_lookup_fmap in Hi. destruct (ps !! i) as [p'|] eqn:E; [|done].
    injection Hi as -> <-. split; [|by apply Hps]. intros t1 e t2 Ht. by destruct t1. }
  clear Hc. intros c0 Hc0. induction Hc0 as [|c1 c2 c3 H12 H23 IH]; [done|]. intros [H1 H2]. apply IH.
  clear IH H23. destruct H12 as [s1 s2 tasks i p t p' t' Hi Hstep]. cbn [pl_state pl_tasks] in *.
  destruct (H2 i p t Hi) as [Ha Hp]. destruct (safe_step _ _ _ _ _ _ _ _ Hstep Hp H1) as [Hs2 Hp2].
  split; [done|]. intros j p1 t1 Hj. destruct (decide (j = i)) as [->|Hne].
  - rewrite list_lookup_insert_eq in Hj by (by eapply lookup_lt_Some).
    injection Hj as <- <-. split; [by eapply step_asked|done].
  - rewrite list_lookup_insert_ne in Hj by done. by apply H2.
Qed.
End Logic.

Lemma step_cases {A} s (p : prog A) t s' p' t' :
  step s p t s' p' t' →
  match p with
  | Ret _ => False
  | Local f k => s' = f s ∧ p' = k s ∧ t' = t
  | Ask q k => s' = s ∧ ∃ r, p' = k r ∧ t' = t ++ [Event q r]
  end.
Proof. destruct 1; eauto. Qed.

(** A coroutine makes finitely many steps, whatever is answered. *)
Lemma step_terminates {A} (p : prog A) :
  ∀ s t, Acc (λ c' c, step (fst (fst c)) (snd (fst c)) (snd c) (fst (fst c')) (snd (fst c')) (snd c'))
           (s, p, t).
Proof.
  induction p as [a|f k IH|q k IH]; intros s t; constructor; intros [[s' p'] t'] H;
    apply step_cases in H; cbn in H; destruct_and?; [done|..]; destruct_or?; naive_solver.
Qed.

(** One coroutine alone, with a world that answers by what was asked before. *)
Fixpoint run_alone {A} (world : list event → ∀ q, R q) (p : prog A) (s : S) (t : list event)
  : S * list event * A :=
  match p with
  | Ret a => (s, t, a)
  | Local f k => run_alone world (k s) (f s) t
  | Ask q k => run_alone world (k (world t q)) s (t ++ [Event q (world t q)])
  end.

Lemma run_alone_safe {A} (I : S → Prop) ok (Φ : list event → A → Prop) world p s t :
  safe I ok Φ p t → I s →
  let '(s', t', a) := run_alone world p s t in I s' ∧ Φ t' a.
Proof.
  revert s t. induction p as [a|f k IH|q k IH]; intros s t H Hs; cbn in *; [done| |].
  - destruct (H s Hs). by apply IH.
  - destruct H as [_ H]. by apply IH.
Qed.

(** While the other coroutines wait, a run alone is a run of the process. *)
Lemma run_alone_at {A} world (p : prog A) : ∀ s t i tasks,
  tasks !! i = Some (p, t) →
  let '(s', t', a) := run_alone world p s t in
  rtc pool_step (mkPool s tasks) (mkPool s' (<[i := (Ret a, t')]> tasks)).
Proof.
  induction p as [a|f k IH|q k IH]; intros s t i tasks Hi; cbn.
  - rewrite list_insert_id by done. apply rtc_refl.
  - specialize (IH s (f s) t i (<[i := (k s, t)]> tasks)).
    rewrite list_lookup_insert_eq in IH by (by eapply lookup_lt_Some). specialize (IH eq_refl).
    destruct (run_alone _ _ _ _) as [[s' t'] a]. rewrite list_insert_insert_eq in IH.
    eapply rtc_l; [|exact IH]. by eapply pool_step_at; [|constructor].
  - specialize (IH (world t q) s (t ++ [Event q (world t q)]) i (<[i := (k (world t q), t ++ [Event q (world t q)])]> tasks)).
    rewrite list_lookup_insert_eq in IH by (by eapply lookup_lt_Some). specialize (IH eq_refl).
    destruct (run_alone _ _ _ _) as [[s' t'] a]. rewrite list_insert_insert_eq in IH.
    eapply rtc_l; [|exact IH]. by eapply pool_step_at; [|constructor].
Qed.

(** A run alone is a run of the process with this one coroutine. *)
Lemma run_alone_pool {A} world (p : prog A) s t :
  let '(s', t', a) := run_alone world p s t in
  rtc pool_step (mkPool s [(p, t)]) (mkPool s' [(Ret a, t')]).
Proof.
  pose proof (run_alone_at world p s t 0 [(p, t)] eq_refl) as H. by destruct (run_alone _ _ _ _) as [[s' t'] a].
Qed.

(** ** Local state and exceptions

    The attributes of the objects one coroutine owns survive an exception. *)
Section Tasks.
Context {L E : Type}.

Definition task (A : Type) : Type := L → prog (L * result E A).

#[export] Instance task_ret : MRet task := λ A a l, Ret (l, Ok a).
#[export] Instance task_bind : MBind task := λ A B f m l,
  prog_bind (λ lr, match snd lr with Ok a => f a (fst lr) | Err e => Ret (fst lr, Err e) end) (m l).

Definition raise {A} (e : E) : task A := λ l, Ret (l, Err e).
Definition lift {A} (r : result E A) : task A := λ l, Ret (l, r).
Definition own : task L := λ l, Ret (l, Ok l).
Definition modify (f : L → L) : task unit := λ l, Ret (f l, Ok tt).
Definition ask (q : Q) : task (R q) := λ l, Ask q (λ r, Ret (l, Ok r)).
(** Read the shared state and update it, in one step. *)
Definition shared (f : S → S) : task S := λ l, Local f (λ s, Ret (l, Ok s)).
Definition peek : task S := shared id.

(** [try: m] with a handler for every exception; a clause that does not match raises it again. *)
Definition try_catch {A} (m : task A) (h : E → task A) : task A := λ l,
  prog_bind (λ lr, match snd lr with Ok a => Ret (fst lr, Ok a) | Err e => h e (fst lr) end) (m l).

(** Run [m] to its end and hand its outcome over. *)
Definition attempt {A} (m : task A) : task (result E A) := λ l,
  prog_bind (λ lr, Ret (fst lr, Ok (snd lr))) (m l).

(** *** Rules *)

Context (I : S → Prop) (ok : list event → Q → Prop).

Definition tsafe {A} (m : task A) (l : L) (t : list event)
    (Φ : list event → L → result E A → Prop) : Prop :=
  safe I ok (λ t' lr, Φ t' (fst lr) (snd lr)) (m l) t.

Lemma tsafe_mono {A} (m : task A) l t Φ Ψ :
  tsafe m l t Φ → (∀ t' l' r, Φ t' l' r → Ψ t' l' r) → tsafe m l t Ψ.
Proof. intros H HΦ. eapply safe_mono; [exact H|]. intros t' [l' r]. apply HΦ. Qed.

Lemma tsafe_ret {A} (a : A) l t Φ : Φ t l (Ok a) → tsafe (mret a) l t Φ.
Proof. done. Qed.

Lemma tsafe_raise {A} (e : E) l t (Φ : _ → _ → result E A → Prop) :
  Φ t l (Err e) → tsafe (raise e) l t Φ.
Proof. done. Qed.

Lemma tsafe_lift {A} (r : result E A) l t Φ : Φ t l r → tsafe (lift r) l t Φ.
Proof. done. Qed.

Lemma tsafe_own l t Φ : Φ t l (Ok l) → tsafe own l t Φ.
Proof. done. Qed.

Lemma tsafe_modify f l t Φ : Φ t (f l) (Ok tt) → tsafe (modify f) l t Φ.
Proof. done. Qed.

Lemma tsafe_ask q l t Φ :
  ok t q → (∀ r, Φ (t ++ [Event q r]) l (Ok r)) → tsafe (ask q) l t Φ.
Proof. done. Qed.

Lemma tsafe_shared f l t Φ :
  (∀ s, I s → I (f s) ∧ Φ t l (Ok s)) → tsafe (shared f) l t Φ.
Proof. done. Qed.

Lemma tsafe_peek l t Φ : (∀ s, I s → Φ t l (Ok s)) → tsafe peek l t Φ.
Proof. intros H. apply tsafe_shared. intros s Hs. split; [done|by apply H]. Qed.

Lemma tsafe_bind {A B} (m : task A) (f : A → task B) l t Φ :
  tsafe m l t (λ t' l' r, match r with Ok a => tsafe (f a) l' t' Φ | Err e => Φ t' l' (Err e) end) →
  tsafe (m ≫= f) l t Φ.
Proof.
  intros H. apply safe_bind. eapply safe_mono; [exact H|]. by intros t' [l' [a|e]].
Qed.

Lemma tsafe_catch {A} (m : task A) h l t Φ :
  tsafe m l t (λ t' l' r, match r with Ok a => Φ t' l' (Ok a) | Err e => tsafe (h e) l' t' Φ end) →
  tsafe (try_catch m h) l t Φ.
Proof.
  intros H. apply safe_bind. eapply safe_mono; [exact H|]. by intros t' [l' [a|e]].
Qed.

Lemma tsafe_attempt {A} (m : task A) l t Φ :
  tsafe m l t (λ t' l' r, Φ t' l' (Ok r)) → tsafe (attempt m) l t Φ.
Proof. intros H. apply safe_bind. eapply safe_mono; [exact H|]. by intros t' [l' r]. Qed.
End Tasks.
End Effects.

Arguments prog : clear implicits.
Arguments event : clear implicits.
Arguments pool : clear implicits.
Arguments task : clear implicits.
Arguments prog _ {_} _ _.
Arguments event {_} _.
Arguments pool _ {_} _ _.
Arguments task _ {_} _ _ _ _.
Arguments Ret {_ _ _ _} _.
Arguments Local {_ _ _ _} _ _.
Arguments Ask {_ _ _ _} _ _.
Arguments mkPool {_ _ _ _} _ _.
Arguments pl_state {_ _ _ _} _.
Arguments pl_tasks {_ _ _ _} _.
