(* ===== verification/PyValue.v ===== *)
(** * JSON values as Python holds them

    Numbers keep the text they were read from, so that a reader may take them as a [float] or as a
    [Decimal]; objects keep the order of their keys.  [dumps] is [json.dumps] without ASCII
    escapes. *)

From Stdlib Require Import String.
From stdpp Require Import numbers.
From S2P Require Import Prelude PyText PyHash PyFloat.
#[local] Open Scope Z_scope.

(** [VFloat] is a number with a fraction or an exponent, or one of the constants [NaN],
    [Infinity] and [-Infinity]. *)
Inductive pyval : Type :=
| VNone
| VBool (b : bool)
| VInt (z : Z)
| VFloat (literal : pystr)
| VStr (s : pystr)
| VList (l : list pyval)
| VDict (kvs : list (pystr * pyval)).

Definition VOpt {A} (f : A → pyval) (o : option A) : pyval :=
  match o with Some a => f a | None => VNone end.

Definition VReal (x : float) : pyval := VFloat (float_repr x).

(** [bool(v)] *)
Definition value_truthy (v : pyval) : bool :=
  match v with
  | VNone => false
  | VBool b => b
  | VInt z => negb (z =? 0)
  | VFloat literal => match float_of_str literal with Some x => float_truthy x | None => true end
  | VStr s => negb (s =?s [])
  | VList l => negb (bool_decide (length l = 0%nat))
  | VDict kvs => negb (bool_decide (length kvs = 0%nat))
  end.

Definition is_none_value (v : pyval) : bool := match v with VNone => true | _ => false end.

(** [d[k] = v]: in place, or at the end. *)
Fixpoint dict_set {A} (k : pystr) (v : A) (d : list (pystr * A)) : list (pystr * A) :=
  match d with
  | [] => [(k, v)]
  | kv :: d' => if fst kv =?s k then (k, v) :: d' else kv :: dict_set k v d'
  end.

(** [{**a, **b}] *)
Definition dict_merge {A} (a b : list (pystr * A)) : list (pystr * A) :=
  fold_left (λ d kv, dict_set (fst kv) (snd kv) d) b a.

(** The text of a number with a fraction, as [json] writes it. *)
Definition json_float (literal : pystr) : pystr :=
  match float_of_str literal with
  | Some x =>
      match special_text x with
      | None => float_repr x
      | Some t => if t =?s u8 "nan" then u8 "NaN"
                  else if t =?s u8 "inf" then u8 "Infinity" else u8 "-Infinity"
      end
  | None => literal
  end.

(** [json.dumps(v, sort_keys=sort, separators=(item, key), ensure_ascii=False)] *)
Fixpoint dumps (sort : bool) (item key : pystr) (v : pyval) : pystr :=
  match v with
  | VNone => u8 "null"
  | VBool true => u8 "true"
  | VBool false => u8 "false"
  | VInt z => str_of_Z z
  | VFloat literal => json_float literal
  | VStr s => json_string false s
  | VList l => u8 "[" ++ join item (map (dumps sort item key) l) ++ u8 "]"
  | VDict kvs =>
      let shown := map (λ kv, (fst kv, dumps sort item key (snd kv))) kvs in
      u8 "{"
      ++ join item (map (λ kv, json_string false (fst kv) ++ key ++ snd kv)
                        (if sort then py_sorted key_leb shown else shown))
      ++ u8 "}"
  end.

(** The canonical form every digest is taken of, and the default one. *)
Definition canonical_dumps : pyval → pystr := dumps true (u8 ",") (u8 ":").
Definition plain_dumps : pyval → pystr := dumps false (u8 ", ") (u8 ": ").

(** [sha256(canonical.encode("utf-8")).hexdigest()]; [None] is a lone surrogate's error. *)
Definition value_digest (v : pyval) : option pystr := sha256_text (canonical_dumps v).

(** [int(s)] for a text, with its limit of digits; [None] is its [ValueError]. *)
Definition int_of_str (s : pystr) : option Z :=
  let t := strip_with is_space s in
  if negb (underscores_ok false (snd (take_sign t))) then None
  else
    let '(neg, rest) := take_sign (without_underscores t) in
    match take_digits rest with
    | ([], _) => None
    | (ds, []) =>
        if (4300 <? length ds)%nat then None
        else Some (if neg : bool then - Z.of_N (digits_value ds) else Z.of_N (digits_value ds))
    | (_, _ :: _) => None
    end.

(** [s.replace(old, new)] for a nonempty [old]. *)
Fixpoint str_replace_from (fuel : nat) (s old new : pystr) : pystr :=
  match fuel, s with
  | S fuel', c :: s' =>
      if startswith s old then new ++ str_replace_from fuel' (drop (length old) s) old new
      else c :: str_replace_from fuel' s' old new
  | _, _ => s
  end.
Definition str_replace (s old new : pystr) : pystr := str_replace_from (length s) s old new.

Lemma str_eqb_sym a b : (a =?s b) = (b =?s a).
Proof.
  apply eq_bool_prop_intro. rewrite !Is_true_true, !str_eqb_eq. by split.
Qed.

Lemma dict_set_get {A} k (v : A) d k' :
  assoc k' (dict_set k v d) = if k =?s k' then Some v else assoc k' d.
Proof.
  induction d as [|[k1 v1] d IH]; cbn [dict_set assoc].
  - rewrite (str_eqb_sym k' k). by destruct (k =?s k').
  - cbn [fst]. destruct (k1 =?s k) eqn:E; cbn [assoc].
    + apply str_eqb_eq in E as ->. rewrite (str_eqb_sym k' k). by destruct (k =?s k').
    + destruct (k' =?s k1) eqn:E1; [|done].
      apply str_eqb_eq in E1 as ->. by rewrite (str_eqb_sym k k1), E.
Qed.

Example dumps_sample :
  plain_dumps (VList [VFloat (u8 "0.90"); VInt 1; VNone; VBool true; VFloat (u8 "1E2"); VDict []])
  = u8 "[0.9, 1, null, true, 100.0, {}]"
  ∧ int_of_str (u8 " -1_000 ") = Some (-1000) ∧ int_of_str (u8 "+_1") = None
  ∧ str_replace (u8 "a key, akey") (u8 "key") (u8 "***") = u8 "a ***, a***".
Proof. vm_compute. repeat split. Qed.
