(* ===== verification/PyJson.v ===== *)
(** * Reading JSON as Python reads it

    [json.loads] of the standard library on a text, with the decoder's own messages and positions,
    and the law that a written value is read back.  A number with a fraction or an exponent, and the
    three constants that are no JSON, keep their text. *)

From Stdlib Require Import String DecimalN DecimalPos DecimalFacts.
From stdpp Require Import numbers.
From S2P Require Import Prelude PyText PyHash PyFloat PyValue.
#[local] Open Scope Z_scope.

(** A [JSONDecodeError] with the number of characters left at its position, the [RecursionError] of
    nesting and the [ValueError] of an integer with too many digits. *)
Inductive JsonErr : Type :=
| J_decode (msg : pystr) (left : Z)
| J_nested
| J_digits
| J_fuel.

Definition is_json_space (c : char) : bool := char_mem c [32; 9; 10; 13]%N.
Fixpoint skip_ws (s : pystr) : pystr :=
  match s with
  | c :: s' => if is_json_space c then skip_ws s' else s
  | [] => []
  end.

(** ** Strings *)

Definition hex_value (c : char) : option N :=
  if ((48 <=? c) && (c <=? 57))%N then Some (c - 48)%N
  else if ((97 <=? c) && (c <=? 102))%N then Some (c - 87)%N
  else if ((65 <=? c) && (c <=? 70))%N then Some (c - 55)%N
  else None.
Definition hex4 (a b c d : char) : option N :=
  a ← hex_value a; b ← hex_value b; c ← hex_value c; d ← hex_value d;
  Some (((a * 16 + b) * 16 + c) * 16 + d)%N.

Definition is_high (u : N) : bool := ((55296 <=? u) && (u <=? 56319))%N.
Definition is_low (u : N) : bool := ((56320 <=? u) && (u <=? 57343))%N.
Definition join_pair (u l : N) : N := (65536 + (u - 55296) * 1024 + (l - 56320))%N.

Definition short_escape (e : char) : option char :=
  if (e =? 34)%N then Some 34%N
  else if (e =? 92)%N then Some 92%N
  else if (e =? 47)%N then Some 47%N
  else if (e =? 98)%N then Some 8%N
  else if (e =? 102)%N then Some 12%N
  else if (e =? 110)%N then Some 10%N
  else if (e =? 114)%N then Some 13%N
  else if (e =? 116)%N then Some 9%N
  else None.

Definition add_char (c : char) (r : result JsonErr (pystr * pystr)) : result JsonErr (pystr * pystr) :=
  '(t, rest) ← r; Ok (c :: t, rest).

Definition unterminated (start : Z) : result JsonErr (pystr * pystr) :=
  Err (J_decode (u8 "Unterminated string starting at") start).
Definition bad_unicode (at_u : pystr) : result JsonErr (pystr * pystr) :=
  Err (J_decode (u8 "Invalid \uXXXX escape") (py_len at_u)).

(** The text after an opening quote and what follows it; [start] is the position of that quote.  The
    four digits of an escape are not the last characters, nor are those of a pair. *)
Fixpoint scan_string (start : Z) (s : pystr) : result JsonErr (pystr * pystr) :=
  match s with
  | [] => unterminated start
  | c :: s1 =>
      if (c =? 34)%N then Ok ([], s1)
      else if (c =? 92)%N then
        match s1 with
        | [] => unterminated start
        | e :: s2 =>
            if (e =? 117)%N then
              match s2 with
              | h1 :: h2 :: h3 :: h4 :: ((_ :: _) as s3) =>
                  match hex4 h1 h2 h3 h4 with
                  | None => bad_unicode s1
                  | Some u =>
                      match is_high u, s3 with
                      | true, b :: ((v :: g1 :: g2 :: g3 :: g4 :: ((_ :: _) as s4)) as at_v) =>
                          if ((b =? 92) && (v =? 117))%N then
                            match hex4 g1 g2 g3 g4 with
                            | None => bad_unicode at_v
                            | Some l => if is_low l then add_char (join_pair u l) (scan_string start s4)
                                        else add_char u (scan_string start s3)
                            end
                          else add_char u (scan_string start s3)
                      | _, _ => add_char u (scan_string start s3)
                      end
                  end
              | _ => bad_unicode s1
              end
            else match short_escape e with
                 | Some x => add_char x (scan_string start s2)
                 | None => Err (J_decode (u8 "Invalid \escape") (py_len s))
                 end
        end
      else if (c <=? 31)%N then Err (J_decode (u8 "Invalid control character at") (py_len s))
      else add_char c (scan_string start s1)
  end.

(** ** Numbers *)

Definition is_ascii_digit (c : char) : bool := ((48 <=? c) && (c <=? 57))%N.
Fixpoint digit_run (s : pystr) : pystr * pystr :=
  match s with
  | c :: s' => if is_ascii_digit c then let '(ds, r) := digit_run s' in (c :: ds, r) else ([], s)
  | [] => ([], [])
  end.

(** The digits before a fraction: a zero, or a run that starts with another digit. *)
Definition whole_part (s : pystr) : option (pystr * pystr) :=
  match s with
  | c :: s' =>
      if (c =? 48)%N then Some ([c], s')
      else if is_ascii_digit c then Some (digit_run s) else None
  | [] => None
  end.

Definition fraction_part (s : pystr) : pystr * pystr :=
  match s with
  | c :: ((d :: _) as s') =>
      if (c =? 46)%N && is_ascii_digit d then let '(ds, r) := digit_run s' in (c :: ds, r) else ([], s)
  | _ => ([], s)
  end.

Definition exponent_part (s : pystr) : pystr * pystr :=
  match s with
  | e :: s' =>
      if ((e =? 101) || (e =? 69))%N then
        let '(sign, s'') := match s' with
                            | c :: s'' => if ((c =? 45) || (c =? 43))%N then ([c], s'') else ([], s')
                            | [] => ([], [])
                            end in
        match digit_run s'' with
        | ([], _) => ([], s)
        | (ds, r) => (e :: sign ++ ds, r)
        end
      else ([], s)
  | [] => ([], [])
  end.

Definition MAX_INT_DIGITS : Z := 4300.
Definition digits_int (ds : pystr) : Z := Z.of_N (digits_value ((λ c, (c - 48)%N) <$> ds)).

Definition expecting_value (s : pystr) : JsonErr := J_decode (u8 "Expecting value") (py_len s).

Definition scan_number (s : pystr) : result JsonErr (pyval * pystr) :=
  let '(neg, s1) := match s with c :: s' => if (c =? 45)%N then (true, s') else (false, s) | [] => (false, []) end in
  match whole_part s1 with
  | None => Err (expecting_value s)
  | Some (whole, s2) =>
      let '(frac, s3) := fraction_part s2 in
      let '(expo, s4) := exponent_part s3 in
      if bool_decide (frac = []) && bool_decide (expo = []) then
        if MAX_INT_DIGITS <? py_len whole then Err J_digits
        else Ok (VInt (if neg : bool then - digits_int whole else digits_int whole), s4)
      else Ok (VFloat ((if neg : bool then [45%N] else []) ++ whole ++ frac ++ expo), s4)
  end.

(** ** Values *)

Definition CONSTANTS : list (pystr * pyval) :=
  [(u8 "null", VNone); (u8 "true", VBool true); (u8 "false", VBool false);
   (u8 "NaN", VFloat (u8 "NaN")); (u8 "Infinity", VFloat (u8 "Infinity"));
   (u8 "-Infinity", VFloat (u8 "-Infinity"))].

Definition scan_constant (s : pystr) : option (pyval * pystr) :=
  kv ← find_first (λ kv, startswith s (fst kv)) CONSTANTS;
  Some (snd kv, drop (length (fst kv)) s).

Definition scan_atom (s : pystr) : result JsonErr (pyval * pystr) :=
  match scan_constant s with Some r => Ok r | None => scan_number s end.

Definition bad (msg : string) (s : pystr) : JsonErr := J_decode (u8 msg) (py_len s).

(** [depth] levels may be opened below; the key and the colon of a member are read first. *)
Definition scan_key (s : pystr) : result JsonErr (pystr * pystr) :=
  match s with
  | c :: s' =>
      if (c =? 34)%N then
        '(k, r) ← scan_string (py_len s) s';
        match skip_ws r with
        | d :: r' => if (d =? 58)%N then Ok (k, skip_ws r') else Err (bad "Expecting ':' delimiter" (skip_ws r))
        | [] => Err (bad "Expecting ':' delimiter" [])
        end
      else Err (bad "Expecting property name enclosed in double quotes" s)
  | [] => Err (bad "Expecting property name enclosed in double quotes" [])
  end.

(** After a value: the closing bracket, or a comma with a value to come. *)
Definition after_value (close : char) (trailing : string) (s : pystr) : result JsonErr (bool * pystr) :=
  match skip_ws s with
  | c :: r =>
      if (c =? close)%N then Ok (true, r)
      else if (c =? 44)%N then
        match skip_ws r with
        | d :: _ => if (d =? close)%N then Err (bad trailing (c :: r)) else Ok (false, skip_ws r)
        | [] => Ok (false, [])
        end
      else Err (bad "Expecting ',' delimiter" (c :: r))
  | [] => Err (bad "Expecting ',' delimiter" [])
  end.

Fixpoint scan (fuel depth : nat) (s : pystr) : result JsonErr (pyval * pystr) :=
  match fuel with
  | O => Err J_fuel
  | S fuel' =>
      match s with
      | [] => Err (expecting_value [])
      | c :: s1 =>
          if (c =? 34)%N then '(t, r) ← scan_string (py_len s) s1; Ok (VStr t, r)
          else if (c =? 123)%N then
            match depth with
            | O => Err J_nested
            | S depth' =>
                match skip_ws s1 with
                | d :: r => if (d =? 125)%N then Ok (VDict [], r) else scan_members fuel' depth' [] (d :: r)
                | [] => scan_members fuel' depth' [] []
                end
            end
          else if (c =? 91)%N then
            match depth with
            | O => Err J_nested
            | S depth' =>
                match skip_ws s1 with
                | d :: r => if (d =? 93)%N then Ok (VList [], r) else scan_items fuel' depth' [] (d :: r)
                | [] => scan_items fuel' depth' [] []
                end
            end
          else scan_atom s
      end
  end
with scan_members (fuel depth : nat) (kvs : list (pystr * pyval)) (s : pystr) : result JsonErr (pyval * pystr) :=
  match fuel with
  | O => Err J_fuel
  | S fuel' =>
      '(k, r) ← scan_key s;
      '(v, r) ← scan fuel' depth r;
      let kvs := dict_set k v kvs in
      '(closed, r) ← after_value 125%N "Illegal trailing comma before end of object" r;
      if closed : bool then Ok (VDict kvs, r) else scan_members fuel' depth kvs r
  end
with scan_items (fuel depth : nat) (vs : list pyval) (s : pystr) : result JsonErr (pyval * pystr) :=
  match fuel with
  | O => Err J_fuel
  | S fuel' =>
      '(v, r) ← scan fuel' depth s;
      let vs := vs ++ [v] in
      '(closed, r) ← after_value 93%N "Illegal trailing comma before end of array" r;
      if closed : bool then Ok (VList vs, r) else scan_items fuel' depth vs r
  end.

(** [json.loads(doc)], with room for [depth] nested values. *)
Definition loads (depth : nat) (doc : pystr) : result JsonErr pyval :=
  match doc with
  | 65279%N :: _ => Err (J_decode (u8 "Unexpected UTF-8 BOM (decode using utf-8-sig)") (py_len doc))
  | _ =>
      '(v, r) ← scan (S (2 * length doc)) depth (skip_ws doc);
      match skip_ws r with
      | [] => Ok v
      | r => Err (bad "Extra data" r)
      end
  end.

(** [doc.count("\n", 0, pos) + 1] *)
Definition error_line (doc : pystr) (left : Z) : Z :=
  py_len (List.filter (N.eqb 10) (py_prefix (py_len doc - left) doc)) + 1.

Definition json_text (s : string) : pystr := (λ c, if (c =? 39)%N then 34%N else c) <$> u8 s.
Arguments json_text s%_string.
Example loads_samples :
  (loads 3 ∘ json_text) <$> ["{'a': [1, -0, 2.50, 1e5], 'b': {'c': null, 'a': '\u0041\n\ud83d\ude00\ud83d'}, 'a': true}"; " [] "; "[1,]";
     "{'a' 1}"; "[[[[1]]]]"; "1 2"; "01"; "-"; "NaN"; "'\x'"; "'abc"; "{'a':1,}"; "1.e5"; "nul"; "['\u12'"]%string
  = [Ok (VDict [(u8 "a", VBool true);
                (u8 "b", VDict [(u8 "c", VNone); (u8 "a", VStr (u8 "A" ++ [10; 128512; 55357]%N))])]);
     Ok (VList []); Err (bad "Illegal trailing comma before end of array" (u8 ",]"));
     Err (bad "Expecting ':' delimiter" (u8 "1}")); Err J_nested; Err (bad "Extra data" (u8 "2"));
     Err (bad "Extra data" (u8 "1")); Err (bad "Expecting value" (u8 "-")); Ok (VFloat (u8 "NaN"));
     Err (bad "Invalid \escape" (u8 "\x."));  Err (bad "Unterminated string starting at" (u8 ".abc"));
     Err (bad "Illegal trailing comma before end of object" (u8 ",}")); Err (bad "Extra data" (u8 ".e5"));
     Err (bad "Expecting value" (u8 "nul")); Err (bad "Invalid \uXXXX escape" (u8 "u12."))].
Proof. by vm_compute. Qed.

(** ** The reader ends *)

Lemma add_char_ok c m t r : add_char c m = Ok (t, r) → ∃ t', t = c :: t' ∧ m = Ok (t', r).
Proof. destruct m as [[t' r']|]; [|done]. cbn. intros [= <- <-]. by exists t'. Qed.

Lemma scan_string_length start : ∀ n s t r, (length s ≤ n)%nat → scan_string start s = Ok (t, r) → (length r < length s)%nat.
Proof.
  induction n as [|n IH]; intros s t r Hn H; [by destruct s; [|cbn in Hn; lia]|].
  destruct s as [|c s1]; [done|]. cbn [length] in *. cbn [scan_string] in H.
  assert (Hrec : ∀ c' s' t', (length s' ≤ length s1)%nat → add_char c' (scan_string start s') = Ok (t', r) → (length r < S (length s1))%nat).
  { intros c' s' t' Hs' (t'' & _ & H')%add_char_ok. apply IH in H'; lia. }
  unfold bad_unicode, unterminated in H.
  repeat (case_match; try done); simplify_eq; cbn [length] in *; try lia;
    (eapply Hrec; [|exact H]; cbn [length] in *; lia).
Qed.

Lemma skip_ws_length s : (length (skip_ws s) ≤ length s)%nat.
Proof. induction s as [|c s IH]; [done|]. cbn. case_match; cbn; lia. Qed.

Lemma digit_run_app s : ∀ ds r, digit_run s = (ds, r) → s = ds ++ r.
Proof.
  induction s as [|c s IH]; cbn; intros ds r; [by intros [= <- <-]|].
  destruct (is_ascii_digit c); [|by intros [= <- <-]].
  destruct (digit_run s) as [ds' r'] eqn:E. intros [= <- <-]. cbn. f_equal. by apply IH.
Qed.

Lemma fraction_part_app s ds r : fraction_part s = (ds, r) → s = ds ++ r.
Proof.
  unfold fraction_part. destruct s as [|c [|d s]]; try (by intros [= <- <-]).
  destruct (_ && _); [|by intros [= <- <-]]. destruct (digit_run (d :: s)) as [ds' r'] eqn:E.
  intros [= <- <-]. cbn [app]. f_equal. by apply digit_run_app.
Qed.

Lemma exponent_part_app s ds r : exponent_part s = (ds, r) → s = ds ++ r.
Proof.
  unfold exponent_part. destruct s as [|e s']; [by intros [= <- <-]|].
  destruct (_ || _); [|by intros [= <- <-]].
  destruct s' as [|c s'']; [by intros [= <- <-]|]. destruct (_ || _);
    destruct (digit_run _) as [[|d ds'] r'] eqn:E; intros [= <- <-]; try done;
    apply digit_run_app in E; cbn [app]; by rewrite E.
Qed.

Lemma whole_part_app s ds r : whole_part s = Some (ds, r) → s = ds ++ r ∧ ds ≠ [].
Proof.
  unfold whole_part. destruct s as [|c s]; [done|]. destruct (c =? 48)%N; [by intros [= <- <-]|].
  destruct (is_ascii_digit c) eqn:Ec; [|done]. intros [= H]. split; [by apply digit_run_app|].
  cbn in H. rewrite Ec in H. destruct (digit_run s). by injection H as <- <-.
Qed.

Lemma scan_number_length s v r : scan_number s = Ok (v, r) → (length r < length s)%nat.
Proof.
  unfold scan_number. destruct s as [|c s]; [done|].
  assert (∃ neg s1, (if (c =? 45)%N then (true, s) else (false, c :: s)) = (neg, s1) ∧ (length s1 ≤ length (c :: s))%nat)
    as (neg & s1 & -> & Hl) by (destruct (c =? 45)%N; do 2 eexists; (split; [done|]); cbn; lia).
  destruct (whole_part s1) as [[whole s2]|] eqn:E1; [|done]. apply whole_part_app in E1 as [-> Hw].
  destruct (fraction_part s2) as [frac s3] eqn:E2. apply fraction_part_app in E2 as ->.
  destruct (exponent_part s3) as [expo s4] eqn:E3. apply exponent_part_app in E3 as ->.
  assert (Hz : length whole ≠ 0%nat) by (by destruct whole). rewrite !length_app in Hl.
  intros H. repeat (case_match; try done); simplify_eq; lia.
Qed.

Lemma scan_atom_length s v r : scan_atom s = Ok (v, r) → (length r < length s)%nat.
Proof.
  unfold scan_atom. destruct (scan_constant s) as [[v' r']|] eqn:E; [|apply scan_number_length]. intros [= <- <-].
  unfold scan_constant in E. destruct (find_first _ _) as [[k w]|] eqn:Ef; [|done]. cbn in E. injection E as <- <-.
  apply find_first_some in Ef as [Hin Hs]. cbn in Hs. apply startswith_iff in Hs as [s' ->].
  cbn [fst snd]. rewrite length_drop, length_app.
  assert (length k ≠ 0)%nat; [|lia]. repeat (destruct Hin as [[= <- <-]|Hin]; [done|]). done.
Qed.

Lemma scan_key_length s k r : scan_key s = Ok (k, r) → (length r < length s)%nat.
Proof.
  unfold scan_key. destruct s as [|c s]; [done|]. destruct (c =? 34)%N; [|done].
  intros ([k' r'] & H & Hr)%bind_ok. apply (scan_string_length _ _ _ _ _ (Nat.le_refl _)) in H.
  assert (Hs := skip_ws_length r'). destruct (skip_ws r') as [|d r'']; [done|].
  destruct (d =? 58)%N; [|done]. injection Hr as <- <-.
  assert (Hs' := skip_ws_length r''). cbn [length] in *. lia.
Qed.

Lemma after_value_length close trailing s b r : after_value close trailing s = Ok (b, r) → (length r < length s)%nat.
Proof.
  unfold after_value. assert (Hs := skip_ws_length s). destruct (skip_ws s) as [|c r']; [done|].
  assert (Hs' := skip_ws_length r'). cbn [length] in *.
  destruct (c =? close)%N; [intros [= <- <-]; lia|]. destruct (c =? 44)%N; [|done].
  destruct (skip_ws r') as [|d r'']; [intros [= <- <-]; cbn; lia|].
  destruct (d =? close)%N; [done|]. intros [= <- <-]. lia.
Qed.

(** Every reader leaves less than it is given, and with two turns per character never runs out. *)
Definition reads_on (more fuel : nat) (s : pystr) (m : result JsonErr (pyval * pystr)) : Prop :=
  match m with
  | Ok (_, r) => (length r < length s)%nat
  | Err e => (2 * length s + more < fuel)%nat → e ≠ J_fuel
  end.

Lemma scan_string_fuel start : ∀ n s, (length s ≤ n)%nat → scan_string start s ≠ Err J_fuel.
Proof.
  induction n as [|n IH]; intros s Hn H; [by destruct s; [|cbn in Hn; lia]|].
  destruct s as [|c s1]; [done|]. cbn [length] in *. cbn [scan_string] in H.
  assert (Hrec : ∀ c' s', (length s' ≤ length s1)%nat → add_char c' (scan_string start s') ≠ Err J_fuel).
  { intros c' s' Hs' H'. apply (IH s'); [lia|]. destruct (scan_string start s') as [[]|]; [done|]. by injection H' as ->. }
  unfold bad_unicode, unterminated in H.
  repeat (case_match; try done); simplify_eq; (eapply Hrec; [|exact H]; cbn [length] in *; lia).
Qed.

Lemma scan_reads_on fuel :
  (∀ depth s, reads_on 0 fuel s (scan fuel depth s))
  ∧ (∀ depth kvs s, reads_on 0 fuel s (scan_members fuel depth kvs s))
  ∧ (∀ depth vs s, reads_on 1 fuel s (scan_items fuel depth vs s)).
Proof.
  induction fuel as [|fuel (IHv & IHm & IHi)]; [split_and!; intros; cbn; lia|]. split_and!.
  - intros depth [|c s1]; [done|]. cbn [scan].
    assert (Hs := skip_ws_length s1).
    assert (Hlift : ∀ k s' m, (k ≤ 1)%nat → (length s' ≤ length s1)%nat → reads_on k fuel s' m → reads_on 0 (S fuel) (c :: s1) m).
    { intros k s' [[v r]|e]; cbn; [lia|]. intros ?? He ?. apply He. lia. }
    destruct (c =? 34)%N.
    { destruct (scan_string _ s1) as [[t r]|e] eqn:E; cbn.
      - apply (scan_string_length _ _ _ _ _ (Nat.le_refl _)) in E. lia.
      - intros _ ->. by apply (scan_string_fuel _ _ _ (Nat.le_refl _)) in E. }
    destruct (c =? 123)%N.
    { destruct depth as [|depth]; [done|]. destruct (skip_ws s1) as [|d r]; [eapply Hlift, IHm; cbn; lia|].
      cbn [length] in Hs. destruct (d =? 125)%N; [cbn; lia|eapply Hlift, IHm; cbn; lia]. }
    destruct (c =? 91)%N.
    { destruct depth as [|depth]; [done|]. destruct (skip_ws s1) as [|d r]; [eapply Hlift, IHi; cbn; lia|].
      cbn [length] in Hs. destruct (d =? 93)%N; [cbn; lia|eapply Hlift, IHi; cbn; lia]. }
    destruct (scan_atom (c :: s1)) as [[v r]|e] eqn:E; [by apply scan_atom_length in E|].
    cbn. intros _ ->. unfold scan_atom, scan_number, expecting_value in E. repeat (case_match; try done).
  - intros depth kvs s. cbn [scan_members].
    destruct (scan_key s) as [[k r]|e] eqn:E; cbn.
    2:{ intros _ ->. unfold scan_key in E. repeat (case_match; try done).
        destruct (scan_string _ _) as [[]|] eqn:E'; cbn in E; [repeat (case_match; try done)|].
        injection E as ->. by apply (scan_string_fuel _ _ _ (Nat.le_refl _)) in E'. }
    apply scan_key_length in E. specialize (IHv depth r). destruct (scan fuel depth r) as [[v r']|e]; cbn in *;
      [|intros ?; apply IHv; lia].
    destruct (after_value _ _ r') as [[b r'']|e] eqn:Ea; cbn.
    + apply after_value_length in Ea. destruct b; [cbn; lia|].
      specialize (IHm depth (dict_set k v kvs) r''). destruct (scan_members _ _ _ r'') as [[]|]; cbn in *; [lia|].
      intros ?. apply IHm. lia.
    + intros _ ->. unfold after_value in Ea. repeat (case_match; try done).
  - intros depth vs s. cbn [scan_items]. specialize (IHv depth s).
    destruct (scan fuel depth s) as [[v r']|e]; cbn in *; [|intros ?; apply IHv; lia].
    destruct (after_value _ _ r') as [[b r'']|e] eqn:Ea; cbn.
    + apply after_value_length in Ea. destruct b; [cbn; lia|].
      specialize (IHi depth (vs ++ [v]) r''). destruct (scan_items _ _ _ r'') as [[]|]; cbn in *; [lia|].
      intros ?. apply IHi. lia.
    + intros _ ->. unfold after_value in Ea. repeat (case_match; try done).
Qed.

Lemma loads_ends depth doc : loads depth doc ≠ Err J_fuel.
Proof.
  intros H. assert (Hloads : loads depth doc = ('(v, r) ← scan (S (2 * length doc)) depth (skip_ws doc);
                     match skip_ws r with [] => Ok v | r => Err (bad "Extra data" r) end)).
  { unfold loads in *. by repeat (case_match; try done). }
  rewrite Hloads in H. destruct (scan_reads_on (S (2 * length doc))) as [Hr _]. specialize (Hr depth (skip_ws doc)).
  assert (Hs := skip_ws_length doc). destruct (scan _ _ _) as [[v r]|e]; cbn in *; [by destruct (skip_ws r)|].
  injection H as ->. apply Hr; [lia|done].
Qed.

(** ** A written value is read back *)

(** The value with every such number as Python writes it. *)
Fixpoint as_written (v : pyval) : pyval :=
  match v with
  | VFloat literal => VFloat (json_float literal)
  | VList l => VList (map as_written l)
  | VDict kvs => VDict (map (λ kv, (fst kv, as_written (snd kv))) kvs)
  | _ => v
  end.

Definition float_writable (literal : pystr) : bool :=
  match scan_atom (json_float literal) with
  | Ok (VFloat l, []) => l =?s json_float literal
  | _ => false
  end.

(** What [depth] nested levels can hold: integers the decoder takes, numbers whose text it reads back,
    distinct keys. *)
Fixpoint writable_as (fl : pystr → bool) (depth : nat) (v : pyval) {struct v} : bool :=
  match v with
  | VInt z => py_len (str_of_N (Z.abs_N z)) <=? MAX_INT_DIGITS
  | VFloat literal => fl literal
  | VList l => match depth with O => false | S d => forallb (writable_as fl d) l end
  | VDict kvs =>
      match depth with
      | O => false
      | S d => bool_decide (NoDup (fst <$> kvs)) && forallb (λ kv, writable_as fl d (snd kv)) kvs
      end
  | _ => true
  end.
Abbreviation writable := (writable_as float_writable).

Lemma pyval_nested (P : pyval → Prop) :
  P VNone → (∀ b, P (VBool b)) → (∀ z, P (VInt z)) → (∀ l, P (VFloat l)) → (∀ s, P (VStr s)) →
  (∀ l, Forall P l → P (VList l)) → (∀ kvs, Forall (λ kv, P (snd kv)) kvs → P (VDict kvs)) → ∀ v, P v.
Proof.
  intros Hn Hb Hi Hf Hs Hl Hd. fix IH 1. intros [| | | | |l|kvs]; [done|apply Hb|apply Hi|apply Hf|apply Hs| |].
  - apply Hl. induction l; constructor; [apply IH|assumption].
  - apply Hd. induction kvs; constructor; [apply IH|assumption].
Qed.

(** A string ends with its own quote. *)
Lemma json_char_plain c : (32 ≤ c)%N → c ≠ 34%N → c ≠ 92%N → json_char false c = [c].
Proof.
  intros H1 H2 H3. unfold json_char, json_short_escape.
  rewrite !(proj2 (N.eqb_neq _ _)) by lia. by rewrite (proj2 (N.ltb_ge _ _)) by lia.
Qed.

Lemma scan_json_char start c s : s ≠ [] →
  scan_string start (json_char false c ++ s) = add_char c (scan_string start s).
Proof.
  intros Hs. destruct (decide (c < 32)%N) as [Hc|Hc].
  - assert (Hin : c ∈ N.of_nat <$> seq 0 32).
    { apply list_elem_of_fmap. exists (N.to_nat c). split; [lia|]. apply elem_of_seq. lia. }
    destruct s as [|d s]; [done|]. cbn [seq fmap list_fmap] in Hin. rewrite !elem_of_cons in Hin.
    repeat (destruct Hin as [->|Hin]; [reflexivity|]). by apply elem_of_nil in Hin.
  - destruct (decide (c = 34%N)) as [->|?]; [done|]. destruct (decide (c = 92%N)) as [->|?]; [done|].
    rewrite json_char_plain by lia. cbn [app scan_string].
    rewrite !(proj2 (N.eqb_neq _ _)) by lia. by rewrite (proj2 (N.leb_gt _ _)) by lia.
Qed.

Lemma scan_json_string start t r : scan_string start ((t ≫= json_char false) ++ 34%N :: r) = Ok (t, r).
Proof.
  induction t as [|c t IH]; [done|]. rewrite bind_cons, <- app_assoc, scan_json_char; [by rewrite IH|].
  by destruct (t ≫= json_char false).
Qed.

(** What follows a value in a text: nothing, or a character no number goes on with. *)
Definition ends_number (s : pystr) : bool :=
  match s with
  | [] => true
  | c :: _ => char_mem c [44; 93; 125; 32; 9; 10; 13]%N
  end.

Lemma ends_number_head c s : ends_number (c :: s) = true →
  is_ascii_digit c = false ∧ (c =? 46)%N = false ∧ ((c =? 101) || (c =? 69))%N = false
  ∧ ((c =? 45) || (c =? 43))%N = false.
Proof.
  unfold ends_number, char_mem. rewrite existsb_exists. intros (x & Hin & ->%N.eqb_eq).
  repeat (destruct Hin as [<-|Hin]; [by split_and!|]). done.
Qed.

Lemma digit_run_more s rest : ends_number rest = true → ∀ ds r,
  digit_run s = (ds, r) → digit_run (s ++ rest) = (ds, r ++ rest).
Proof.
  intros Hr. induction s as [|c s IH]; cbn [digit_run app]; intros ds r.
  - intros [= <- <-]. destruct rest as [|c rest]; [done|]. cbn. by rewrite (proj1 (ends_number_head _ _ Hr)).
  - destruct (is_ascii_digit c); [|by intros [= <- <-]]. destruct (digit_run s) as [ds' r'].
    rewrite (IH _ _ eq_refl). by intros [= <- <-].
Qed.

Lemma fraction_part_more s rest ds r : ends_number rest = true →
  fraction_part s = (ds, r) → fraction_part (s ++ rest) = (ds, r ++ rest).
Proof.
  intros Hr. unfold fraction_part. destruct s as [|c [|d s]].
  - intros [= <- <-]. destruct rest as [|c [|d rest]]; try done. cbn.
    by rewrite (proj1 (proj2 (ends_number_head _ _ Hr))).
  - intros [= <- <-]. destruct rest as [|d rest]; [done|]. cbn [app].
    by rewrite (proj1 (ends_number_head _ _ Hr)), andb_false_r.
  - cbn [app]. destruct (_ && _); [|by intros [= <- <-]].
    change (d :: s ++ rest) with ((d :: s) ++ rest). destruct (digit_run (d :: s)) as [ds' r'] eqn:E.
    rewrite (digit_run_more _ _ Hr _ _ E). by intros [= <- <-].
Qed.

Lemma exponent_part_more s rest ds r : ends_number rest = true →
  exponent_part s = (ds, r) → exponent_part (s ++ rest) = (ds, r ++ rest).
Proof.
  intros Hr. unfold exponent_part. destruct s as [|e s'].
  { intros [= <- <-]. destruct rest as [|c rest]; [done|]. cbn [app].
    by rewrite (proj1 (proj2 (proj2 (ends_number_head _ _ Hr)))). }
  cbn [app]. destruct (_ || _); [|by intros [= <- <-]].
  assert (∃ sign s'', match s' with c :: s'' => if ((c =? 45) || (c =? 43))%N then ([c], s'') else ([], s') | [] => ([], []) end = (sign, s'')
    ∧ match s' ++ rest with c :: s'' => if ((c =? 45) || (c =? 43))%N then ([c], s'') else ([], s' ++ rest) | [] => ([], []) end = (sign, s'' ++ rest))
    as (sign & s'' & -> & ->).
  { destruct s' as [|c s']; cbn [app].
    - do 2 eexists. split; [done|]. destruct rest as [|c rest]; [done|].
      by rewrite (proj2 (proj2 (proj2 (ends_number_head _ _ Hr)))).
    - destruct (_ || _); eauto. }
  destruct (digit_run s'') as [ds' r'] eqn:E. rewrite (digit_run_more _ _ Hr _ _ E).
  destruct ds'; by intros [= <- <-].
Qed.

Lemma whole_part_more s rest ds r : ends_number rest = true →
  whole_part s = Some (ds, r) → whole_part (s ++ rest) = Some (ds, r ++ rest).
Proof.
  intros Hr. unfold whole_part. destruct s as [|c s]; [done|]. cbn [app].
  destruct (c =? 48)%N; [by intros [= <- <-]|]. destruct (is_ascii_digit c); [|done].
  intros [= H]. f_equal. by apply (digit_run_more (c :: s)).
Qed.

Lemma scan_number_more s rest v r : ends_number rest = true →
  scan_number s = Ok (v, r) → scan_number (s ++ rest) = Ok (v, r ++ rest).
Proof.
  intros Hr. unfold scan_number. destruct s as [|c s]; [done|]. cbn [app].
  set (neg := (c =? 45)%N).
  assert (∃ b s1, (if neg then (true, s) else (false, c :: s)) = (b, s1)
    ∧ (if neg then (true, s ++ rest) else (false, c :: s ++ rest)) = (b, s1 ++ rest)) as (b & s1 & -> & ->)
    by (destruct neg; eauto).
  destruct (whole_part s1) as [[whole s2]|] eqn:E1; [|done]. rewrite (whole_part_more _ _ _ _ Hr E1).
  destruct (fraction_part s2) as [frac s3] eqn:E2. rewrite (fraction_part_more _ _ _ _ Hr E2).
  destruct (exponent_part s3) as [expo s4] eqn:E3. rewrite (exponent_part_more _ _ _ _ Hr E3).
  destruct (_ && _); [destruct (_ <? _); [done|]|]; by intros [= <- <-].
Qed.

(** A constant and a number start with different characters. *)
Lemma scan_constant_head c s v r : scan_constant (c :: s) = Some (v, r) →
  char_mem c [110; 116; 102; 78; 73; 45]%N = true ∧ (c = 45%N → ∃ s', s = 73%N :: s').
Proof.
  unfold scan_constant. destruct (find_first _ _) as [[k w]|] eqn:Ef; [|done]. intros _.
  apply find_first_some in Ef as [Hin Hs]. cbn in Hs. apply startswith_iff in Hs as [s' Hs].
  let t := eval vm_compute in CONSTANTS in change CONSTANTS with t in Hin.
  repeat (destruct Hin as [[= <- <-]|Hin]; [injection Hs as -> ->; split; [done|intros ?; first [discriminate|by eexists]]|]). done.
Qed.

Lemma scan_constant_none s v r rest : scan_number s = Ok (v, r) → ends_number rest = true → scan_constant (s ++ rest) = None.
Proof.
  intros Hn Hr. destruct s as [|c s]; [done|]. cbn [app].
  destruct (scan_constant (c :: s ++ rest)) as [[v' r']|] eqn:E; [|done]. exfalso.
  apply scan_constant_head in E as [Hc H45]. unfold char_mem in Hc. apply existsb_exists in Hc as (x & Hin & ->%N.eqb_eq).
  do 5 (destruct Hin as [<-|Hin]; [done|]). destruct Hin as [<-|[]]. destruct (H45 eq_refl) as [s' Hs].
  destruct s as [|d s]; [done|]. by injection Hs as -> _.
Qed.

Lemma scan_atom_more s rest v : ends_number rest = true →
  scan_atom s = Ok (v, []) → scan_atom (s ++ rest) = Ok (v, rest).
Proof.
  intros Hr. unfold scan_atom. destruct (scan_constant s) as [[v' r']|] eqn:E.
  - intros [= -> ->]. unfold scan_constant in E. destruct (find_first _ _) as [[k w]|] eqn:Ef; [|done].
    cbn in E. injection E as -> E. apply find_first_some in Ef as [Hin Hs]. cbn in Hs.
    apply startswith_iff in Hs as [s' ->]. rewrite drop_app_length in E. subst s'. rewrite app_nil_r.
    repeat (destruct Hin as [[= <- <-]|Hin]; [done|]). done.
  - intros Hn. rewrite (scan_constant_none _ _ _ _ Hn Hr). by rewrite (scan_number_more _ _ _ _ Hr Hn).
Qed.

(** The first character of a written value. *)
Definition starts_value (c : char) : bool :=
  negb (is_json_space c) && negb (c =? 93)%N && negb (c =? 125)%N && negb (c =? 44)%N && negb (c =? 65279)%N.

Lemma scan_atom_head s v r : scan_atom s = Ok (v, r) →
  ∃ c s', s = c :: s' ∧ starts_value c = true ∧ (c =? 34)%N = false ∧ (c =? 123)%N = false ∧ (c =? 91)%N = false.
Proof.
  destruct s as [|c s]; [done|]. intros H. exists c, s. split; [done|].
  assert (Hc : char_mem c [32; 9; 10; 13; 93; 125; 44; 65279; 34; 123; 91]%N = false).
  { apply not_true_iff_false. intros Hc. unfold scan_atom in H.
    assert (scan_number (c :: s) = Ok (v, r) ∨ char_mem c [110; 116; 102; 78; 73; 45]%N = true) as [Hn|Hn].
    { destruct (scan_constant (c :: s)) as [[v' r']|] eqn:E; [right|by left]. by apply scan_constant_head in E as [? _]. }
    all: unfold char_mem in Hc; apply existsb_exists in Hc as (x & Hin & ->%N.eqb_eq).
    all: repeat (destruct Hin as [<-|Hin]; [done|]); done. }
  unfold starts_value, is_json_space, char_mem in *. cbn [existsb] in *.
  rewrite !orb_false_iff in Hc. destruct_and! Hc.
  repeat match goal with E : (c =? _)%N = false |- _ => rewrite E; clear E end. done.
Qed.

Lemma scan_atom_value fuel depth s v r : scan_atom s = Ok (v, r) → scan (S fuel) depth s = Ok (v, r).
Proof.
  intros H. destruct (scan_atom_head _ _ _ H) as (c & s' & -> & _ & E1 & E2 & E3).
  cbn [scan]. by rewrite E1, E2, E3.
Qed.

Lemma to_uint_head n u : N.to_uint n = Decimal.D0 u → n = 0%N ∧ u = Decimal.Nil.
Proof.
  intros H. assert (E := DecimalN.Unsigned.to_of (N.to_uint n)). rewrite DecimalN.Unsigned.of_to, H in E.
  unfold Decimal.unorm in E. cbn [Decimal.nzhead] in E.
  assert (u = Decimal.Nil) as ->.
  { destruct (Decimal.nzhead u) eqn:Eu; try done; [by injection E|]. by apply DecimalFacts.nzhead_nonzero in Eu. }
  split; [|done]. apply (f_equal N.of_uint) in H. by rewrite DecimalN.Unsigned.of_to in H.
Qed.

Lemma digit_run_digits ds rest : Forall (λ d, (d ≤ 9)%N) ds → ends_number rest = true →
  digit_run (((λ d, (48 + d)%N) <$> ds) ++ rest) = ((λ d, (48 + d)%N) <$> ds, rest).
Proof.
  intros Hds Hr. apply (digit_run_more _ _ Hr _ []). induction Hds as [|d ds Hd Hds IH]; [done|].
  rewrite fmap_cons. cbn [digit_run]. unfold is_ascii_digit at 1.
  rewrite (proj2 (N.leb_le _ _)), (proj2 (N.leb_le _ _)) by lia. cbn [andb]. by rewrite IH.
Qed.

Lemma whole_part_str n rest : ends_number rest = true → whole_part (str_of_N n ++ rest) = Some (str_of_N n, rest).
Proof.
  intros Hr. unfold str_of_N. assert (Hrun := digit_run_digits _ rest (uint_digits_bound (N.to_uint n)) Hr).
  assert (Hz := to_uint_head n). unfold whole_part.
  destruct (N.to_uint n) as [|u|u|u|u|u|u|u|u|u|u] eqn:E; cbn in Hrun |- *; try by rewrite Hrun.
  - exfalso. destruct n as [|p]; [done|]. by apply (DecimalPos.Unsigned.to_uint_nonnil p).
  - by destruct (Hz u eq_refl) as [_ ->].
Qed.

Lemma digits_int_str n : digits_int (str_of_N n) = Z.of_N n.
Proof.
  unfold digits_int, str_of_N. rewrite <- list_fmap_compose. f_equal.
  rewrite <- (digits_value_str n) at 2. f_equal. rewrite <- (list_fmap_id (uint_digits _)) at 2.
  apply list_fmap_ext. intros i d _. cbn. lia.
Qed.

Lemma scan_number_str z rest : py_len (str_of_N (Z.abs_N z)) ≤ MAX_INT_DIGITS → ends_number rest = true →
  scan_number (str_of_Z z ++ rest) = Ok (VInt z, rest).
Proof.
  intros Hz Hr. assert (Hw := whole_part_str (Z.abs_N z) rest Hr).
  assert (Hsplit : ∃ neg, (let '(neg', s1) := match str_of_Z z ++ rest with
      c :: s' => if (c =? 45)%N then (true, s') else (false, str_of_Z z ++ rest) | [] => (false, []) end in
      neg' = neg ∧ s1 = str_of_N (Z.abs_N z) ++ rest) ∧ z = (if neg : bool then - Z.of_N (Z.abs_N z) else Z.of_N (Z.abs_N z))).
  { destruct z as [|p|p]; [exists false; split; [|lia]; by split|exists false; split; [|lia]|exists true; split; [|lia]; by split].
    unfold whole_part in Hw. cbn [str_of_Z Z.to_N Z.abs_N] in *. destruct (str_of_N (N.pos p) ++ rest) as [|c s]; [done|].
    destruct (c =? 45)%N eqn:E; [|done]. by apply N.eqb_eq in E as ->. }
  destruct Hsplit as (neg & Hs & Hneg). unfold scan_number.
  destruct (match str_of_Z z ++ rest with c :: s' => _ | [] => _ end) as [neg' s1]. destruct Hs as [-> ->].
  rewrite Hw. cbv beta iota.
  assert (Hf := fraction_part_more [] rest [] [] Hr eq_refl).
  assert (He := exponent_part_more [] rest [] [] Hr eq_refl). cbn [app] in Hf, He. rewrite Hf, He.
  rewrite !bool_decide_true by done. cbn [andb]. rewrite (proj2 (Z.ltb_ge _ _)) by done.
  rewrite digits_int_str. by destruct neg; rewrite <- Hneg.
Qed.

(** ** Objects and lists *)

Definition spaces (ws : pystr) : bool := forallb is_json_space ws.

Lemma skip_ws_value c s : is_json_space c = false → skip_ws (c :: s) = c :: s.
Proof. intros H. cbn [skip_ws]. by rewrite H. Qed.

Lemma skip_spaces ws s : spaces ws = true → skip_ws (ws ++ s) = skip_ws s.
Proof. induction ws as [|c ws IH]; [done|]. unfold spaces. cbn [forallb app skip_ws]. intros [-> ?]%andb_true_iff. by apply IH. Qed.

Section Writing.
Context (wi wk : pystr).
Hypothesis (Hi : spaces wi = true) (Hk : spaces wk = true).
Abbreviation text := (dumps false (44%N :: wi) (58%N :: wk)).

Definition reads_back (v : pyval) : Prop :=
  ∀ fuel depth rest, writable depth v = true → ends_number rest = true → (2 * length (text v ++ rest) < fuel)%nat →
    scan fuel depth (text v ++ rest) = Ok (as_written v, rest).

Lemma text_head depth v : writable depth v = true → ∃ c s, text v = c :: s ∧ starts_value c = true.
Proof.
  destruct v as [|[]|z|l|s|l|kvs]; intros Hw; try (by do 2 eexists).
  - cbn [dumps]. assert (Hn : scan_number (str_of_Z z) = Ok (VInt z, [])).
    { rewrite <- (app_nil_r (str_of_Z z)). apply scan_number_str; [|done]. by cbn [writable_as] in Hw; apply Z.leb_le in Hw. }
    assert (Ha : scan_atom (str_of_Z z) = Ok (VInt z, [])).
    { unfold scan_atom. assert (Hc := scan_constant_none _ _ _ [] Hn eq_refl). rewrite app_nil_r in Hc. by rewrite Hc. }
    destruct (scan_atom_head _ _ _ Ha) as (c & s & -> & Hc & _). eauto.
  - cbn [dumps writable_as] in *. unfold float_writable in Hw. destruct (scan_atom _) as [[v r]|] eqn:E; [|done].
    destruct (scan_atom_head _ _ _ E) as (c & s & -> & Hc & _). eauto.
Qed.

Lemma starts_value_head c : starts_value c = true →
  is_json_space c = false ∧ (c =? 93)%N = false ∧ (c =? 125)%N = false ∧ (c =? 44)%N = false
  ∧ (c =? 65279)%N = false.
Proof. unfold starts_value. rewrite !andb_true_iff, !negb_true_iff. by intros [[[[? ?] ?] ?] ?]. Qed.

Lemma ends_close c rest : char_mem c [93; 125; 44]%N = true → ends_number (c :: rest) = true.
Proof.
  unfold char_mem. intros (x & Hin & ->%N.eqb_eq)%existsb_exists.
  repeat (destruct Hin as [<-|Hin]; [done|]). done.
Qed.

(** A comma and its space, or the closing bracket. *)
Lemma after_value_close close trailing rest : is_json_space close = false →
  after_value close trailing (close :: rest) = Ok (true, rest).
Proof. intros H. unfold after_value. rewrite skip_ws_value by done. by rewrite N.eqb_refl. Qed.

Lemma after_value_comma close trailing c s : (close =? 93)%N || (close =? 125)%N = true → starts_value c = true →
  after_value close trailing (44%N :: wi ++ c :: s) = Ok (false, c :: s).
Proof using Hi.
  intros Hc (H1 & H2 & H3 & _)%starts_value_head. unfold after_value. rewrite skip_ws_value by done.
  rewrite skip_spaces, (skip_ws_value c) by done.
  apply orb_true_iff in Hc as [->%N.eqb_eq| ->%N.eqb_eq]; cbn -[N.eqb]; by rewrite ?H2, ?H3.
Qed.

Lemma scan_items_text depth vs : ∀ fuel acc rest,
  vs ≠ [] → Forall reads_back vs → forallb (writable depth) vs = true →
  (2 * length (join (44%N :: wi) (map text vs) ++ 93%N :: rest) + 1 < fuel)%nat →
  scan_items fuel depth acc (join (44%N :: wi) (map text vs) ++ 93%N :: rest)
  = Ok (VList (acc ++ map as_written vs), rest).
Proof using Hi.
  induction vs as [|v vs IH]; intros fuel acc rest Hne Hall Hw Hf; [done|].
  apply Forall_cons_1 in Hall as [Hv Hall]. cbn [forallb] in Hw. apply andb_true_iff in Hw as [Hwv Hw].
  destruct fuel as [|fuel]; [lia|]. cbn [scan_items map join] in *.
  destruct vs as [|v' vs].
  - cbn [map] in *. rewrite (Hv fuel depth) by (done || lia). cbn [mbind result_bind].
    by rewrite after_value_close.
  - destruct (text_head depth v') as (c & s & Ht & Hc).
    { cbn [forallb] in Hw. by apply andb_true_iff in Hw as [? _]. }
    cbn [map] in *. set (tail := join (44%N :: wi) (text v' :: map text vs)) in *.
    assert (∃ s', tail = c :: s') as [s' Htail].
    { unfold tail. cbn [join]. rewrite Ht. destruct (map text vs); eauto. }
    rewrite <- !app_assoc in Hf |- *. cbn [app] in Hf |- *.
    rewrite (Hv fuel depth) by (done || lia). cbn [mbind result_bind].
    rewrite Htail. cbn [app]. rewrite after_value_comma by done. cbn [mbind result_bind].
    change (c :: s' ++ 93%N :: rest) with ((c :: s') ++ 93%N :: rest). rewrite <- Htail.
    rewrite (IH fuel (acc ++ [as_written v]) rest); try done.
    2:{ clear -Hf. rewrite !length_app in Hf |- *. cbn [length] in *. rewrite !length_app in Hf. cbn [length] in *. lia. }
    by rewrite <- app_assoc.
Qed.
Lemma scan_key_text k s c : starts_value c = true →
  scan_key (json_string false k ++ 58%N :: wk ++ c :: s) = Ok (k, c :: s).
Proof using Hk.
  intros (Hc & _)%starts_value_head. unfold json_string. cbn [app scan_key].
  change (34 =? 34)%N with true. cbv iota. rewrite <- app_assoc. cbn [app].
  rewrite scan_json_string. cbn [mbind result_bind]. rewrite skip_ws_value by done.
  change (58 =? 58)%N with true. cbv iota. by rewrite skip_spaces, skip_ws_value.
Qed.

Lemma dict_set_new {A} k (v : A) d : k ∉ fst <$> d → dict_set k v d = d ++ [(k, v)].
Proof.
  induction d as [|[k' v'] d IH]; [done|]. rewrite fmap_cons, not_elem_of_cons. intros [Hne Hd]. cbn.
  rewrite (proj2 (str_eqb_neq _ _)) by done. by rewrite IH.
Qed.

Abbreviation member := (λ kv : pystr * pyval, json_string false (fst kv) ++ (58%N :: wk) ++ text (snd kv)).
Abbreviation members kvs := (join (44%N :: wi) (map member kvs)).

Lemma scan_members_text depth kvs : ∀ fuel acc rest,
  kvs ≠ [] → Forall (λ kv, reads_back (snd kv)) kvs → forallb (λ kv, writable depth (snd kv)) kvs = true →
  NoDup (fst <$> acc ++ kvs) → (2 * length (members kvs ++ 125%N :: rest) < fuel)%nat →
  scan_members fuel depth acc (members kvs ++ 125%N :: rest)
  = Ok (VDict (acc ++ map (λ kv, (fst kv, as_written (snd kv))) kvs), rest).
Proof using Hi Hk.
  induction kvs as [|[k v] kvs IH]; intros fuel acc rest Hne Hall Hw Hnd Hf; [done|].
  apply Forall_cons_1 in Hall as [Hv Hall]. cbn [forallb snd] in Hw, Hv. apply andb_true_iff in Hw as [Hwv Hw].
  destruct fuel as [|fuel]; [lia|]. cbn [scan_members].
  assert (Hnew : k ∉ fst <$> acc).
  { rewrite fmap_app, fmap_cons in Hnd. apply NoDup_app in Hnd as (_ & Hnd & _). intros Hin. apply (Hnd k Hin). by left. }
  destruct (text_head depth v Hwv) as (c & s & Ht & Hc).
  assert (Hm : ∀ tail, ∃ n, (n + length (text v ++ tail) = length (member (k, v) ++ tail) ∧ 0 < n)%nat
    ∧ scan_key (member (k, v) ++ tail) = Ok (k, text v ++ tail)).
  { intros tail. exists (length (json_string false k) + S (length wk))%nat. cbn [fst snd]. split.
    - rewrite !length_app. cbn. lia.
    - rewrite <- !app_assoc. cbn [app]. rewrite Ht. cbn [app]. by apply scan_key_text. }
  destruct kvs as [|[k' v'] kvs].
  - cbn [map join] in *. destruct (Hm (125%N :: rest)) as (n & [Hn Hpos] & ->). cbn [mbind result_bind].
    rewrite (Hv fuel depth) by (done || lia). cbn [mbind result_bind]. rewrite dict_set_new by done.
    by rewrite after_value_close.
  - change (members ((k, v) :: (k', v') :: kvs))
      with (member (k, v) ++ (44%N :: wi) ++ members ((k', v') :: kvs)) in *.
    set (tail := members ((k', v') :: kvs)) in *.
    assert (∃ s', tail = 34%N :: s') as [s' Htail] by (unfold tail; cbn; destruct (map _ kvs); eauto).
    rewrite <- !app_assoc in Hf |- *.
    destruct (Hm ((44%N :: wi) ++ tail ++ 125%N :: rest)) as (n & [Hn Hpos] & Hkey).
    rewrite <- !app_assoc in Hkey, Hn. cbn [fst snd app] in Hkey, Hn, Hf |- *. rewrite Hkey. cbn [mbind result_bind].
    rewrite (Hv fuel depth) by (done || (rewrite <- Hn in Hf; lia)). cbn [mbind result_bind]. cbn [app].
    rewrite Htail. cbn [app]. rewrite after_value_comma by done. cbn [mbind result_bind].
    change (34%N :: s' ++ 125%N :: rest) with ((34%N :: s') ++ 125%N :: rest). rewrite <- Htail.
    rewrite dict_set_new by done.
    assert (Htl : (2 * length (tail ++ 125%N :: rest) < fuel)%nat).
    { rewrite <- Hn in Hf. clear -Hf. rewrite !length_app in *. cbn [length] in *. rewrite !length_app in *. cbn [length] in *. lia. }
    specialize (IH fuel (acc ++ [(k, as_written v)]) rest). fold tail in IH. rewrite IH; try done.
    + by rewrite <- app_assoc.
    + rewrite <- app_assoc. rewrite !fmap_app in Hnd |- *. exact Hnd.
Qed.

Lemma dumps_reads_back v : reads_back v.
Proof using Hi Hk.
  induction v as [|b|z|l|t|l IH|kvs IH] using pyval_nested; intros fuel depth rest Hw Hr Hf;
    (destruct fuel as [|fuel]; [lia|]).
  - by apply scan_atom_value.
  - destruct b; by apply scan_atom_value.
  - apply scan_atom_value. cbn [writable_as dumps] in *. apply Z.leb_le in Hw.
    unfold scan_atom. assert (Hn := scan_number_str z [] Hw eq_refl). rewrite app_nil_r in Hn.
    rewrite (scan_constant_none _ _ _ _ Hn Hr). by apply scan_number_str.
  - apply scan_atom_value. cbn [writable_as dumps as_written] in *. unfold float_writable in Hw.
    destruct (scan_atom (json_float l)) as [[[| | |l'| | |] [|]]|] eqn:E; try done.
    apply str_eqb_eq in Hw as ->. by apply scan_atom_more.
  - cbn [dumps]. unfold json_string. cbn [app scan]. change (34 =? 34)%N with true. cbv iota.
    rewrite <- app_assoc. cbn [app]. by rewrite scan_json_string.
  - destruct depth as [|depth]; [done|]. cbn [writable_as] in Hw.
    destruct l as [|v l]; [done|]. cbn [dumps] in Hf |- *.
    change (u8 "[") with [91%N] in *. change (u8 "]") with [93%N] in *. rewrite <- !app_assoc in Hf |- *.
    cbn [app] in Hf |- *. cbn [scan]. change (91 =? 34)%N with false. change (91 =? 123)%N with false.
    change (91 =? 91)%N with true. cbv iota.
    destruct (text_head depth v) as (c & s & Ht & Hc); [by cbn [forallb] in Hw; apply andb_true_iff in Hw as [? _]|].
    assert (∃ s', join (44%N :: wi) (map text (v :: l)) = c :: s') as [s' Hs]
      by (cbn [map join]; rewrite Ht; destruct (map text l); eauto).
    rewrite Hs. cbn [app]. destruct (starts_value_head _ Hc) as (H1 & H2 & _). rewrite skip_ws_value by done. rewrite H2.
    change (c :: s' ++ 93%N :: rest) with ((c :: s') ++ 93%N :: rest). rewrite <- Hs.
    apply scan_items_text; try done. cbn [length] in Hf. lia.
  - destruct depth as [|depth]; [done|]. cbn [writable_as] in Hw. apply andb_true_iff in Hw as [Hnd Hw].
    apply bool_decide_eq_true_1 in Hnd. destruct kvs as [|[k v] kvs]; [done|].
    cbn [dumps] in Hf |- *. rewrite !map_map in Hf |- *. cbn [fst snd] in Hf |- *.
    change (u8 "{") with [123%N] in *. change (u8 "}") with [125%N] in *. rewrite <- !app_assoc in Hf |- *.
    cbn [app] in Hf |- *. cbn [scan]. change (123 =? 34)%N with false. change (123 =? 123)%N with true. cbv iota.
    change (map _ ((k, v) :: kvs)) with (map member ((k, v) :: kvs)).
    assert (∃ s', members ((k, v) :: kvs) = 34%N :: s') as [s' Hs] by (cbn; destruct (map _ kvs); eauto).
    rewrite Hs. cbn [app]. rewrite skip_ws_value by done. change (34 =? 125)%N with false. cbv iota.
    change (34%N :: s' ++ 125%N :: rest) with ((34%N :: s') ++ 125%N :: rest). rewrite <- Hs.
    apply scan_members_text; try done.
    assert (2 * S (length (members ((k, v) :: kvs) ++ 125%N :: rest)) < S fuel)%nat by exact Hf. lia.
Qed.
End Writing.

(** [json.loads(json.dumps(v, separators=(item, key)))], whatever spaces follow the separators. *)
Lemma loads_dumps depth wi wk v : spaces wi = true → spaces wk = true → writable depth v = true →
  loads depth (dumps false (44%N :: wi) (58%N :: wk) v) = Ok (as_written v).
Proof.
  intros Hi Hk Hw. destruct (text_head wi wk depth v Hw) as (c & s & Ht & Hc).
  assert (Hs : scan (S (2 * length (dumps false (44%N :: wi) (58%N :: wk) v))) depth
                 (skip_ws (dumps false (44%N :: wi) (58%N :: wk) v)) = Ok (as_written v, [])).
  { rewrite Ht, skip_ws_value by apply (starts_value_head _ Hc). rewrite <- Ht.
    rewrite <- (app_nil_r (dumps _ _ _ v)) at 2. apply dumps_reads_back; try done. rewrite app_nil_r. lia. }
  unfold loads. rewrite Hs, Ht. destruct (starts_value_head _ Hc) as (_ & _ & _ & _ & Hbom).
  apply N.eqb_neq in Hbom. by repeat (case_match; try done).
Qed.

(** ** What is read can be written *)

Lemma digits_value_acc ds : ∀ a,
  fold_left (λ acc d, acc * 10 + d)%N ds a = (a * 10 ^ N.of_nat (length ds) + digits_value ds)%N.
Proof.
  unfold digits_value. induction ds as [|d ds IH]; intros a; cbn [fold_left length]; [by rewrite N.mul_1_r, N.add_0_r|].
  rewrite (IH (a * 10 + d)%N), (IH (0 * 10 + d)%N), Nat2N.inj_succ, N.pow_succ_r'. lia.
Qed.

Lemma digits_value_cons d ds : digits_value (d :: ds) = (d * 10 ^ N.of_nat (length ds) + digits_value ds)%N.
Proof. unfold digits_value at 1. cbn [fold_left]. rewrite digits_value_acc. lia. Qed.

Lemma digits_value_bound ds : Forall (λ d, (d ≤ 9)%N) ds → (digits_value ds < 10 ^ N.of_nat (length ds))%N.
Proof.
  induction 1 as [|d ds Hd _ IH]; [done|]. rewrite digits_value_cons. cbn [length]. rewrite Nat2N.inj_succ, N.pow_succ_r'. nia.
Qed.

(** A number has no more digits than any text of digits it is read from. *)
Lemma str_of_N_short ds : Forall (λ d, (d ≤ 9)%N) ds → ds ≠ [] → (length (str_of_N (digits_value ds)) ≤ length ds)%nat.
Proof.
  intros Hds Hne. set (n := digits_value ds). assert (Hn := digits_value_bound _ Hds). fold n in Hn.
  unfold str_of_N. rewrite length_fmap. assert (Hv := digits_value_str n). assert (Hz := to_uint_head n).
  destruct (uint_digits (N.to_uint n)) as [|d ds'] eqn:E; [cbn; lia|]. cbn [length].
  destruct (decide (d = 0%N)) as [->|Hd].
  - destruct (N.to_uint n) eqn:Eu; cbn in E; try done; injection E as E; subst.
    destruct (Hz _ eq_refl) as [_ ->]. cbn. destruct ds; [done|cbn; lia].
  - rewrite digits_value_cons in Hv. apply Nat.le_succ_l, Nat.nle_gt. intros Hle.
    assert (10 ^ N.of_nat (length ds) ≤ 10 ^ N.of_nat (length ds'))%N by (apply N.pow_le_mono_r; lia). nia.
Qed.

Fixpoint every_float (p : pystr → bool) (v : pyval) : bool :=
  match v with
  | VFloat literal => p literal
  | VList l => forallb (every_float p) l
  | VDict kvs => forallb (λ kv, every_float p (snd kv)) kvs
  | _ => true
  end.

Lemma digit_run_all s : ∀ ds r, digit_run s = (ds, r) → Forall (λ c, is_ascii_digit c = true) ds.
Proof.
  induction s as [|c s IH]; cbn; intros ds r; [by intros [= <- <-]; constructor|].
  destruct (is_ascii_digit c) eqn:E; [|by intros [= <- <-]; constructor].
  destruct (digit_run s) as [ds' r']. intros [= <- <-]. constructor; [done|by eapply IH].
Qed.

Lemma scan_number_writable depth s v r : scan_number s = Ok (v, r) → writable_as (λ _, true) depth v = true.
Proof.
  unfold scan_number. destruct (match s with c :: s' => _ | [] => _ end) as [neg s1].
  destruct (whole_part s1) as [[whole s2]|] eqn:E; [|done].
  destruct (fraction_part s2) as [frac s3]. destruct (exponent_part s3) as [expo s4].
  destruct (_ && _); [|by intros [= <- <-]]. destruct (MAX_INT_DIGITS <? py_len whole) eqn:El; [done|].
  intros [= <- <-]. cbn [writable_as]. apply Z.leb_le. apply Z.ltb_ge in El. etrans; [|exact El].
  assert (Hall : Forall (λ c, is_ascii_digit c = true) whole).
  { unfold whole_part in E. destruct s1 as [|c s1]; [done|]. destruct (c =? 48)%N eqn:E0.
    - apply N.eqb_eq in E0 as ->. injection E as <- <-. by repeat constructor.
    - destruct (is_ascii_digit c); [|done]. eapply (digit_run_all (c :: s1)). by injection E. }
  apply whole_part_app in E as [_ Hne].
  replace (Z.abs_N _) with (digits_value ((λ c, (c - 48)%N) <$> whole)) by (unfold digits_int; destruct neg; lia).
  unfold py_len. apply inj_le. rewrite <- (length_fmap (λ c, (c - 48)%N) whole). apply str_of_N_short; [|by destruct whole].
  apply Forall_fmap. eapply Forall_impl; [exact Hall|]. intros c Hc. unfold is_ascii_digit in Hc.
  apply andb_true_iff in Hc as [?%N.leb_le ?%N.leb_le]. cbn. lia.
Qed.

Lemma scan_atom_writable depth s v r : scan_atom s = Ok (v, r) → writable_as (λ _, true) depth v = true.
Proof.
  unfold scan_atom. destruct (scan_constant s) as [[v' r']|] eqn:E; [|apply scan_number_writable]. intros [= <- <-].
  unfold scan_constant in E. destruct (find_first _ _) as [[k w]|] eqn:Ef; [|done]. cbn in E. injection E as <- <-.
  apply find_first_some in Ef as [Hin _]. repeat (destruct Hin as [[= <- <-]|Hin]; [done|]). done.
Qed.

Lemma dict_set_keys {A} k (v : A) d : fst <$> dict_set k v d = if bool_decide (k ∈ fst <$> d) then fst <$> d else (fst <$> d) ++ [k].
Proof.
  induction d as [|[k' v'] d IH]; [done|]. cbn [dict_set fst]. rewrite fmap_cons. cbn [fst].
  destruct (k' =?s k) eqn:E.
  - apply str_eqb_eq in E as ->. rewrite bool_decide_true by left. by rewrite fmap_cons.
  - rewrite fmap_cons, IH. cbn [fst]. apply str_eqb_neq in E. destruct (decide (k ∈ fst <$> d)) as [Hin|Hin].
    + rewrite !bool_decide_true; [done|by right|done].
    + rewrite !bool_decide_false; [done| |done]. by rewrite not_elem_of_cons.
Qed.

Lemma dict_set_forall {A} (p : A → bool) k v d :
  p v = true → forallb (λ kv, p (snd kv)) d = true → forallb (λ kv, p (snd kv)) (dict_set k v d) = true.
Proof.
  intros Hv. induction d as [|[k' v'] d IH]; cbn; [by rewrite Hv|]. intros [H1 H2]%andb_true_iff.
  destruct (k' =?s k); cbn; [by rewrite Hv|]. rewrite H1. by apply IH.
Qed.

Definition keys_distinct (kvs : list (pystr * pyval)) : Prop := NoDup (fst <$> kvs).
Lemma dict_set_distinct k v kvs : keys_distinct kvs → keys_distinct (dict_set k v kvs).
Proof.
  unfold keys_distinct. rewrite dict_set_keys. destruct (decide (k ∈ fst <$> kvs)) as [Hin|Hin].
  - by rewrite bool_decide_true.
  - rewrite bool_decide_false by done. intros Hnd. apply NoDup_app. split_and!; [done| |by apply NoDup_singleton].
    intros x Hx ->%list_elem_of_singleton. done.
Qed.

Lemma scan_writable fuel :
  (∀ depth s v r, scan fuel depth s = Ok (v, r) → writable_as (λ _, true) depth v = true)
  ∧ (∀ depth kvs s v r, scan_members fuel depth kvs s = Ok (v, r) →
       keys_distinct kvs → forallb (λ kv, writable_as (λ _, true) depth (snd kv)) kvs = true →
       writable_as (λ _, true) (S depth) v = true)
  ∧ (∀ depth vs s v r, scan_items fuel depth vs s = Ok (v, r) →
       forallb (writable_as (λ _, true) depth) vs = true → writable_as (λ _, true) (S depth) v = true).
Proof.
  induction fuel as [|fuel (IHv & IHm & IHi)]; [done|]. split_and!.
  - intros depth s v r H. cbn [scan] in H. destruct s as [|c s1]; [done|].
    destruct (c =? 34)%N; [by apply bind_ok in H as ([t r'] & _ & [= <- <-])|].
    destruct (c =? 123)%N.
    { destruct depth as [|depth]; [done|].
      assert (Hnew : ∀ s', scan_members fuel depth [] s' = Ok (v, r) → writable_as (λ _, true) (S depth) v = true)
        by (intros s' H'; eapply IHm; [exact H'|constructor|done]).
      destruct (skip_ws s1) as [|d r']; [by eapply Hnew|]. destruct (d =? 125)%N; [|by eapply Hnew].
      by injection H as <- <-. }
    destruct (c =? 91)%N; [|by eapply scan_atom_writable].
    destruct depth as [|depth]; [done|].
    destruct (skip_ws s1) as [|d r']; [by eapply IHi|]. destruct (d =? 93)%N; [by injection H as <- <-|by eapply IHi].
  - intros depth kvs s v r H Hnd Hall. cbn [scan_members] in H.
    apply bind_ok in H as ([k r1] & _ & ([w r2] & Hw & ([closed r3] & _ & H)%bind_ok)%bind_ok).
    apply IHv in Hw. apply (dict_set_distinct k w) in Hnd.
    assert (Hall' := dict_set_forall (writable_as (λ _, true) depth) k w kvs Hw Hall).
    destruct closed; [|by eapply IHm]. injection H as <- <-. cbn [writable_as].
    by rewrite bool_decide_true.
  - intros depth vs s v r H Hall. cbn [scan_items] in H.
    apply bind_ok in H as ([w r2] & Hw & ([closed r3] & _ & H)%bind_ok). apply IHv in Hw.
    assert (Hall' : forallb (writable_as (λ _, true) depth) (vs ++ [w]) = true)
      by (rewrite forallb_app, Hall; cbn; by rewrite Hw).
    destruct closed; [|by eapply IHi]. by injection H as <- <-.
Qed.

Lemma writable_floats fl depth v : writable_as (λ _, true) depth v = true → every_float fl v = true → writable_as fl depth v = true.
Proof.
  revert depth. induction v as [|b|z|l|t|l IH|kvs IH] using pyval_nested; intros depth; try done.
  - destruct depth as [|depth]; [done|]. cbn [writable_as every_float]. intros H1 H2.
    apply forallb_forall. intros v Hv. rewrite forallb_forall in H1, H2. rewrite Forall_forall in IH.
    apply IH; [by apply list_elem_of_In|by apply H1|by apply H2].
  - destruct depth as [|depth]; [done|]. cbn [writable_as every_float]. intros [-> H1]%andb_true_iff H2.
    apply forallb_forall. intros v Hv. rewrite forallb_forall in H1, H2. rewrite Forall_forall in IH.
    apply IH; [by apply list_elem_of_In|by apply H1|by apply H2].
Qed.

Lemma loads_nested depth doc v : loads depth doc = Ok v → writable_as (λ _, true) depth v = true.
Proof.
  intros H. assert (∃ r, scan (S (2 * length doc)) depth (skip_ws doc) = Ok (v, r)) as [r Hs].
  { unfold loads in H. destruct (scan _ depth _) as [[v' r]|] eqn:E; [|by repeat (case_match; try done)].
    exists r. f_equal. f_equal. cbn in H. repeat (case_match; try done); by injection H. }
  by eapply scan_writable.
Qed.
