(* ===== verification/BranchPatterns.v ===== *)
(** * Target-branch filter patterns ([app/common/application/branch_patterns.py])

    The validation of the patterns of a repository and the matcher that selects the target
    branch of a pull request.  [_pattern_matches] keeps a table of booleans and no
    backtracking stack; [glob] is the meaning its doc comment gives to a pattern, and
    [pattern_matches_glob] shows that the table decides it. *)

From Stdlib Require Import String.
From S2P Require Import Prelude PyText PrefixTable.
From stdpp Require Import numbers.
#[local] Open Scope Z_scope.

Definition BRANCH_PATTERN_MAX_LENGTH : Z := 255.
Definition BRANCH_FILTER_MAX_PATTERNS : Z := 20.
Definition FORBIDDEN_CHARACTERS : pystr := u8 "?[]{}!\~^:".

(** ** Validation *)

Definition DOT : char := 46%N.
Definition is_bad_branch_char (c : char) : bool := is_space c || is_Cc c || is_Cs c.

Definition pattern_error (pattern : pystr) : option pystr :=
  if pattern =?s [] then Some (u8 "must not be empty")
  else if BRANCH_PATTERN_MAX_LENGTH <? py_len pattern
  then Some (u8 "must be at most 255 characters")
  else if py_any is_bad_branch_char pattern
  then Some (u8 "must not contain whitespace, control or surrogate characters")
  else if contains pattern (u8 "***")
  then Some (u8 "must not contain three or more '*' in a row")
  else if py_any (λ c, char_mem c pattern) FORBIDDEN_CHARACTERS
  then Some (u8 "must not contain any of ? [ ] { } ! \ ~ ^ :")
  else if contains pattern (u8 "..") || contains pattern (u8 "//")
  then Some (u8 "must not contain '..' or '//'")
  else if py_any (λ segment, startswith segment [DOT]) (split_on SLASH pattern)
  then Some (u8 "must not have a segment starting with '.'")
  else if startswith pattern (u8 "/") || startswith pattern (u8 "-")
  then Some (u8 "must not start with '/' or '-'")
  else if endswith pattern (u8 "/") || endswith pattern (u8 ".") || endswith pattern (u8 ".lock")
  then Some (u8 "must not end with '/', '.' or '.lock'")
  else if pattern =?s u8 "@" then Some (u8 "must not be '@'")
  else None.

(** The [ValueError] of the validation: the message of a bad pattern quotes the pattern with
    [repr] before the reason, so the error keeps the two apart. *)
Inductive BranchFilterError : Type :=
| TooManyPatterns
| RepeatedPattern
| BadPattern (pattern reason : pystr).

Fixpoint validate_each (patterns : list pystr) : result BranchFilterError unit :=
  match patterns with
  | [] => Ok tt
  | p :: patterns' =>
      match pattern_error p with
      | Some reason => Err (BadPattern p reason)
      | None => validate_each patterns'
      end
  end.

Definition validate_branch_patterns (patterns : list pystr) : result BranchFilterError unit :=
  _ ← raise_when (BRANCH_FILTER_MAX_PATTERNS <? py_len patterns) TooManyPatterns;
  _ ← raise_when (negb (py_len (remove_dups patterns) =? py_len patterns)) RepeatedPattern;
  validate_each patterns.

(** ** Matching *)

Inductive token : Type :=
| TStars
| TStar
| TChar (c : char).

Fixpoint tokens (pattern : pystr) : list token :=
  match pattern with
  | [] => []
  | c :: rest =>
      if (c =? STAR)%N then
        match rest with
        | d :: rest' => if (d =? STAR)%N then TStars :: tokens rest' else TStar :: tokens rest
        | [] => [TStar]
        end
      else TChar c :: tokens rest
  end.

(** [extends t c]: the star token [t] may run over the character [c]. *)
Definition extends (t : token) (c : char) : bool :=
  match t with
  | TStars => true
  | TStar => negb (c =? SLASH)%N
  | TChar _ => false
  end.

(** A star updates the table in place, ascending, from its second entry; a character moves each
    entry one place on. *)
Definition token_step (branch : pystr) (t : token) (reachable : list bool) : list bool :=
  match t with
  | TChar c => false :: zip_with (λ r d, r && (d =? c)%N) reachable branch
  | _ => match reachable with
         | [] => []
         | r :: reachable' => r :: star_pass (extends t) r branch reachable'
         end
  end.

Fixpoint run_tokens (branch : pystr) (ts : list token) (reachable : list bool) : bool :=
  match ts with
  | [] => default false (list.last reachable)
  | t :: ts' =>
      let reachable' := token_step branch t reachable in
      if py_any id reachable' then run_tokens branch ts' reachable' else false
  end.

Definition pattern_matches (branch pattern : pystr) : bool :=
  run_tokens branch (tokens pattern) (true :: repeat false (length branch)).

Definition branch_matches (branch : pystr) (patterns : list pystr) : bool :=
  match patterns with
  | [] => true
  | _ => py_any (pattern_matches branch) patterns
  end.

(** ** The meaning of a pattern *)

Inductive glob : list token → pystr → Prop :=
| glob_nil : glob [] []
| glob_char c ts s : glob ts s → glob (TChar c :: ts) (c :: s)
| glob_stars w ts s : glob ts s → glob (TStars :: ts) (w ++ s)
| glob_star w ts s : SLASH ∉ w → glob ts s → glob (TStar :: ts) (w ++ s).

Definition filter_selects (patterns : list pystr) (branch : pystr) : Prop :=
  patterns = [] ∨ ∃ p, p ∈ patterns ∧ glob (tokens p) branch.

(** ** The table decides the meaning *)

Definition tk_of (t : token) : tk char :=
  match t with
  | TChar c => One (λ d, (d =? c)%N)
  | _ => Many (extends t)
  end.

Lemma token_step_table branch t rs : token_step branch t rs = table_step branch (tk_of t) rs.
Proof. by destruct t. Qed.

Lemma star_word w : Forall (λ c, extends TStar c = true) w ↔ SLASH ∉ w.
Proof.
  rewrite list.Forall_forall. split.
  - intros H Hin. apply H in Hin. by to_prop.
  - intros H c Hc. cbn. to_prop. intros ->. done.
Qed.

Lemma glob_words ts s : glob ts s ↔ words (tk_of <$> ts) s.
Proof.
  split.
  - induction 1 as [|c ts s _ IH|w ts s _ IH|w ts s Hw _ IH]; cbn; [done|..].
    + exists [c], s. repeat split; [|done]. exists c. by rewrite N.eqb_refl.
    + exists w, s. repeat split; [|done]. by apply list.Forall_forall.
    + exists w, s. repeat split; [|done]. by apply star_word.
  - revert s. induction ts as [|t ts IH]; cbn; [intros s ->; constructor|].
    intros s (u & v & -> & Hu & Hv). apply IH in Hv. destruct t as [| |c]; cbn in Hu.
    + by constructor.
    + constructor; [|done]. by apply star_word.
    + destruct Hu as (a & -> & Ha). apply N.eqb_eq in Ha as ->. by constructor.
Qed.

Lemma run_tokens_spec branch ts : ∀ P rs, tab P [] branch rs →
  run_tokens branch ts rs = true ↔ accepts P (tk_of <$> ts) branch.
Proof.
  induction ts as [|t ts IH]; intros P rs Htab; cbn [run_tokens fmap list_fmap].
  - by rewrite (tab_last _ _ _ _ Htab), accepts_nil.
  - rewrite token_step_table, <- accepts_cons.
    pose proof (table_step_tab P (tk_of t) branch rs Htab) as Hstep. cbv zeta.
    destruct (py_any id (table_step branch (tk_of t) rs)) eqn:Hany; [by apply IH|].
    split; [done|]. intros H. by destruct (tab_dead _ _ _ _ Hstep Hany H).
Qed.

Lemma pattern_matches_glob branch pattern :
  pattern_matches branch pattern = true ↔ glob (tokens pattern) branch.
Proof.
  unfold pattern_matches. rewrite (run_tokens_spec _ _ _ _ (tab_start branch)).
  by rewrite accepts_start, glob_words.
Qed.

(** ** Properties *)

(** The branch filter selects exactly the branches its patterns describe: an empty filter
    selects every branch; otherwise some pattern, read left to right as literal characters, [*]
    for any characters but [/] and [**] for any characters, matches the whole branch name.  The
    boolean table, its in-place star pass and its early exit decide this relation on every
    input. *)
Theorem branch_matches_selects branch patterns :
  branch_matches branch patterns = true ↔ filter_selects patterns branch.
Proof.
  unfold branch_matches, filter_selects. destruct patterns as [|p ps]; [naive_solver|].
  unfold py_any. rewrite existsb_exists. split.
  - intros (q & Hq & Hm). right. exists q.
    by rewrite list_elem_of_In, <- pattern_matches_glob.
  - intros [[=]|(q & Hq & Hm)]. exists q.
    by rewrite <- list_elem_of_In, pattern_matches_glob.
Qed.
