(* ===== verification/RunFailures.v ===== *)
(** * Failures of a run attempt ([run_failures.py])

    The catalogue of error codes, the classification of an attempt's exception, the reading of
    a provider's [Retry-After] and the retry delays.  A [timedelta] is its number of
    microseconds; a [datetime] is microseconds of its wall clock with an optional offset from
    UTC. *)

From Stdlib Require Import String QArith.
From S2P Require Import Prelude PyText.
From stdpp Require Import numbers.
#[local] Open Scope Z_scope.

Definition seconds (n : Z) : Z := n * 1000000.
Definition minutes (n : Z) : Z := seconds (60 * n).

Definition MAX_ATTEMPTS : Z := 3.
Definition LEASE : Z := minutes 5.
Definition HEARTBEAT_INTERVAL : Z := seconds 60.
Definition FAST_ATTEMPT_DEADLINE : Z := minutes 8.
Definition RECONCILER_QUEUED_GRACE : Z := minutes 10.
Definition RETRY_AFTER_CEILING : Z := seconds 86400.
Definition CEILING_SECONDS : Z := RETRY_AFTER_CEILING / seconds 1.

(** ** The error codes *)

Definition RETRYABLE_POLICY_ERROR_CODES : list pystr :=
  [u8 "policy_fetch_transient"; u8 "policy_rate_limited"].

Definition TERMINAL_POLICY_ERROR_CODES : list pystr :=
  [u8 "policy_document_too_large"; u8 "policy_document_decode_error";
   u8 "policy_document_control_character"; u8 "policy_document_type_unsupported";
   u8 "policy_ignore_block_duplicate"; u8 "policy_ignore_block_nested";
   u8 "policy_ignore_block_unclosed"; u8 "policy_ignore_info_invalid";
   u8 "policy_ignore_pattern_invalid"; u8 "policy_ignore_limit_exceeded";
   u8 "policy_path_invalid"; u8 "policy_match_budget_exceeded";
   u8 "policy_prompt_budget_exceeded"; u8 "policy_access_denied";
   u8 "policy_revision_unavailable"; u8 "policy_snapshot_integrity_error";
   u8 "policy_context_violation"].

Definition RETRYABLE_ERROR_CODES : list pystr :=
  [u8 "llm_timeout"; u8 "llm_rate_limited"; u8 "llm_unavailable"; u8 "diff_fetch_failed";
   u8 "bitbucket_fetch_failed"; u8 "bitbucket_commit_messages_fetch_failed";
   u8 "commit_messages_fetch_failed"; u8 "verification_unavailable"; u8 "internal_error"]
  ++ RETRYABLE_POLICY_ERROR_CODES.

Definition KNOWN_ERROR_CODES : list pystr :=
  RETRYABLE_ERROR_CODES ++ TERMINAL_POLICY_ERROR_CODES ++
  [u8 "llm_invalid_output"; u8 "llm_context_overflow"; u8 "llm_payment_required";
   u8 "verification_invalid_output"; u8 "verification_context_overflow";
   u8 "verification_budget_exceeded"; u8 "verification_deadline_exceeded";
   u8 "budget_exceeded"; u8 "deadline_exceeded"; u8 "github_forbidden";
   u8 "bitbucket_source_unavailable"; u8 "bitbucket_review_limit_exceeded";
   u8 "bitbucket_request_budget_exceeded"; u8 "bitbucket_invalid_response";
   u8 "bitbucket_response_budget_exceeded"; u8 "bitbucket_engine_unsupported";
   u8 "github_publish_failed"; u8 "pr_base_changed"; u8 "lease_expired"].

(** ** Retry-After *)

(** What [parsedate_to_datetime] gives: the wall clock and, when the date names a zone, its
    offset from UTC; [None] when it raises [ValueError]. *)
Definition parsed_date : Type := Z * option Z.

Section RetryAfter.
Context (parsedate_to_datetime : pystr → option parsed_date).

(** The instant, in microseconds since the epoch; a date without a zone is read as UTC. *)
Definition aware_http_date (value : pystr) : option Z :=
  match parsedate_to_datetime value with
  | None => None
  | Some (wall, Some offset) => Some (wall - offset)
  | Some (wall, None) => Some wall
  end.

Definition is_ascii_digit (c : char) : bool := (48 <=? c)%N && (c <=? 57)%N.
Definition ascii_int (s : pystr) : Z := Z.of_N (digits_value ((λ c, (c - 48)%N) <$> s)).

Definition parse_retry_after (value : option pystr) (date : option pystr) (now : Z)
  : option Z :=
  match value with
  | None => None
  | Some v =>
      if v =?s [] then None
      else if py_all is_ascii_digit v then
        let stripped := lstrip_with (N.eqb 48) v in
        let digits := if stripped =?s [] then [48%N] else stripped in
        if py_len (str_of_Z CEILING_SECONDS) <? py_len digits
        then Some RETRY_AFTER_CEILING
        else Some (seconds (Z.min (ascii_int digits) CEILING_SECONDS))
      else
        match aware_http_date v with
        | None => None
        | Some retry_at =>
            let reference :=
              match date with
              | Some d => if d =?s [] then None else aware_http_date d
              | None => None
              end in
            let reference := default now reference in
            Some (Z.min (Z.max (retry_at - reference) 0) RETRY_AFTER_CEILING)
        end
  end.
End RetryAfter.

(** ** Failures *)

Definition cancellation_reason (pr_open head_current cancel_requested : bool) : option pystr :=
  if negb pr_open then Some (u8 "pr_closed")
  else if negb head_current then Some (u8 "superseded")
  else if cancel_requested then Some (u8 "cancelled_by_user") else None.

Record RunFailure : Type := mkRunFailure {
  rf_error_code : pystr;
  rf_message : pystr;
  rf_retry_after : option Z;
  rf_rate_limited : bool
}.

Definition run_failure (error_code message : pystr) (retry_after : option Z)
    (rate_limited : bool) : RunFailure :=
  mkRunFailure error_code (if message =?s [] then error_code else message)
    retry_after rate_limited.

(** A delay hint in seconds: a finite number, or an infinite or undefined float. *)
Inductive hint : Type :=
| HintFinite (q : Q)
| HintPosInf
| HintNegInf
| HintNaN.

(** The exceptions an attempt can end with, as [classify_failure] tells them apart: a
    [RunFailure], an [InvalidReviewOutput] with its text, and any other exception with its
    class name, text, [error_code] attribute when it is a string and [retry_after_s] attribute
    when it is a number. *)
Inductive attempt_exc : Type :=
| ExcRunFailure (f : RunFailure)
| ExcInvalidReviewOutput (text : pystr)
| ExcOther (class_name text : pystr) (error_code : option pystr) (retry_after_s : option hint).

(** [round(q)]: half to even. *)
Definition Qround_half_even (q : Q) : Z :=
  let n := Qnum q in
  let d := Zpos (Qden q) in
  let f := n / d in
  let twice := 2 * (n - f * d) in
  if twice <? d then f
  else if d <? twice then f + 1
  else if Z.even f then f else f + 1.

Definition timedelta_of_seconds (q : Q) : Z := Qround_half_even (q * inject_Z 1000000).

Definition ceiling_seconds_q : Q := inject_Z CEILING_SECONDS.

(** The delay of [min(retry_after_s, ceiling)] when [retry_after_s > 0]. *)
Definition hint_delay (h : hint) : option Z :=
  match h with
  | HintFinite q =>
      if Qle_bool q 0 then None
      else Some (timedelta_of_seconds (if Qle_bool q ceiling_seconds_q then q
                                       else ceiling_seconds_q))
  | HintPosInf => Some (timedelta_of_seconds ceiling_seconds_q)
  | HintNegInf | HintNaN => None
  end.

Definition classify_failure (exc : attempt_exc) : RunFailure :=
  match exc with
  | ExcRunFailure f => f
  | ExcInvalidReviewOutput text => run_failure (u8 "llm_invalid_output") text None false
  | ExcOther class_name text error_code retry_after_s =>
      let internal := run_failure (u8 "internal_error") (class_name ++ u8 ": " ++ text) None false in
      match error_code with
      | Some c =>
          if str_mem c KNOWN_ERROR_CODES then
            if c =?s u8 "llm_rate_limited"
            then run_failure c text (retry_after_s ≫= hint_delay) false
            else run_failure c text None false
          else internal
      | None => internal
      end
  end.

(** ** Retry delays *)

Record RetryDelays : Type := mkRetryDelays { rd_short : Z; rd_medium : Z; rd_long : Z }.

Definition default_delays : RetryDelays := mkRetryDelays (seconds 30) (minutes 2) (minutes 10).

Inductive retry_queue : Type := Queue_30s | Queue_2m | Queue_10m.
#[export] Instance retry_queue_eq_dec : EqDecision retry_queue.
Proof. solve_decision. Defined.

Definition for_failure (delays : RetryDelays) (attempt : Z) (failure : RunFailure)
  : retry_queue * Z :=
  let has_hint := match rf_retry_after failure with Some _ => true | None => false end in
  let rate_limited := (rf_error_code failure =?s u8 "llm_rate_limited") || has_hint in
  let long_wait :=
    match rf_retry_after failure with
    | Some r => if rate_limited && (rd_medium delays <? r) then Some r else None
    | None => None
    end in
  match long_wait with
  | Some r => (Queue_10m, Z.min (Z.max r (rd_long delays)) RETRY_AFTER_CEILING)
  | None =>
      if rate_limited || (2 <=? attempt) then (Queue_2m, rd_medium delays)
      else (Queue_30s, rd_short delays)
  end.

(** ** Facts *)

Lemma retryable_known c : str_mem c RETRYABLE_ERROR_CODES = true → str_mem c KNOWN_ERROR_CODES = true.
Proof.
  unfold KNOWN_ERROR_CODES. rewrite !str_mem_In. intros H. apply in_app_iff. by left.
Qed.

Lemma round_bounds q (lo hi : Z) :
  (inject_Z lo <= q)%Q → (q <= inject_Z hi)%Q → lo ≤ Qround_half_even q ≤ hi.
Proof.
  destruct q as [n d]. unfold Qle, inject_Z, Qround_half_even. cbn [Qnum Qden]. intros H1 H2.
  pose proof (Z.div_mod n (Zpos d)). pose proof (Z.mod_pos_bound n (Zpos d)).
  set (f := n / Zpos d) in *.
  assert (lo ≤ f) by (apply Z.div_le_lower_bound; lia).
  assert (f ≤ hi) by (apply Z.div_le_upper_bound; lia).
  assert (n - f * Zpos d > 0 → f < hi) by nia.
  repeat case_match; to_prop; lia.
Qed.

Lemma hint_delay_bounds h d : hint_delay h = Some d → 0 ≤ d ≤ RETRY_AFTER_CEILING.
Proof.
  assert (E : ∀ q, (0 <= q)%Q → (q <= ceiling_seconds_q)%Q →
            0 ≤ timedelta_of_seconds q ≤ RETRY_AFTER_CEILING).
  { intros q H1 H2. apply round_bounds.
    - change (inject_Z 0) with (0 * inject_Z 1000000)%Q.
      by apply Qmult_le_compat_r.
    - change (inject_Z RETRY_AFTER_CEILING) with (ceiling_seconds_q * inject_Z 1000000)%Q.
      by apply Qmult_le_compat_r. }
  destruct h as [q| | |]; cbn; try done.
  - destruct (Qle_bool q 0) eqn:H0; [done|]. intros [= <-].
    assert (Hq : (0 <= q)%Q).
    { apply Qlt_le_weak, Qnot_le_lt. intros H. apply Qle_bool_iff in H. congruence. }
    destruct (Qle_bool q ceiling_seconds_q) eqn:H1.
    + apply E; [done|]. by apply Qle_bool_iff.
    + by apply E.
  - intros [= <-]. by apply E.
Qed.

(** ** Decimal numbers of any length *)

Lemma digits_value_app ds es :
  digits_value (ds ++ es) = (digits_value ds * 10 ^ N.of_nat (length es) + digits_value es)%N.
Proof.
  unfold digits_value. rewrite fold_left_app.
  generalize (fold_left (λ acc d, acc * 10 + d)%N ds 0%N). intros a. revert a.
  induction es as [|e es IH]; intros a; cbn [fold_left length]; [change (10 ^ N.of_nat 0)%N with 1%N; lia|].
  rewrite IH, (IH (0 * 10 + e)%N), Nat2N.inj_succ, N.pow_succ_r'. lia.
Qed.

Lemma digits_value_lead d ds :
  d ≠ 0%N → (10 ^ N.of_nat (length ds) ≤ digits_value (d :: ds))%N.
Proof.
  intros Hd. change (d :: ds) with ([d] ++ ds). rewrite digits_value_app.
  change (digits_value [d]) with (0 * 10 + d)%N.
  assert (1 ≤ d)%N by lia. nia.
Qed.

Lemma ascii_int_strip v : ascii_int (lstrip_with (N.eqb 48) v) = ascii_int v.
Proof.
  induction v as [|c v IH]; [done|]. cbn [lstrip_with].
  destruct (48 =? c)%N eqn:Hc; [|done]. apply N.eqb_eq in Hc as <-. by rewrite IH.
Qed.

Lemma lstrip_head p v c r : lstrip_with p v = c :: r → p c = false.
Proof. induction v as [|d v IH]; cbn; [done|]. destruct (p d) eqn:?; naive_solver. Qed.

Lemma lstrip_all (q p : char → bool) v : py_all q v = true → py_all q (lstrip_with p v) = true.
Proof.
  unfold py_all. induction v as [|d v IH]; cbn; [done|]. intros H. apply andb_true_iff in H as [H1 H2].
  destruct (p d); [by apply IH|]. cbn. by rewrite H1, H2.
Qed.

Lemma ascii_int_long v :
  py_all is_ascii_digit v = true → 5 < py_len (lstrip_with (N.eqb 48) v) →
  CEILING_SECONDS ≤ ascii_int v.
Proof.
  intros Hd Hlen. rewrite <- ascii_int_strip.
  apply (lstrip_all _ (N.eqb 48)) in Hd.
  destruct (lstrip_with (N.eqb 48) v) as [|c r] eqn:E; [unfold py_len in Hlen; cbn in Hlen; lia|].
  pose proof (lstrip_head _ _ _ _ E) as Hc. apply N.eqb_neq in Hc.
  unfold py_all in Hd. cbn in Hd. unfold is_ascii_digit in Hd. to_prop.
  destruct Hd as [[Hc1 Hc2] _]. unfold ascii_int. cbn [fmap list_fmap].
  pose proof (digits_value_lead (c - 48) ((λ c, (c - 48)%N) <$> r)) as Hl.
  rewrite length_fmap in Hl. unfold py_len in Hlen. cbn [length] in Hlen.
  assert (10 ^ 5 ≤ 10 ^ N.of_nat (length r))%N by (apply N.pow_le_mono_r; lia).
  change CEILING_SECONDS with 86400. change (10 ^ 5)%N with 100000%N in *. lia.
Qed.

Lemma parse_retry_after_digits parse v date now :
  v ≠ [] → py_all is_ascii_digit v = true →
  parse_retry_after parse (Some v) date now
  = Some (seconds (Z.min (ascii_int v) CEILING_SECONDS)).
Proof.
  intros Hv Hd. unfold parse_retry_after.
  rewrite (proj2 (str_eqb_neq v []) Hv), Hd. cbv zeta.
  change (py_len (str_of_Z CEILING_SECONDS)) with 5.
  destruct (lstrip_with (N.eqb 48) v) as [|c r] eqn:E.
  - cbn - [ascii_int Z.min]. rewrite <- (ascii_int_strip v), E. done.
  - rewrite (proj2 (str_eqb_neq (c :: r) [])) by done.
    destruct (5 <? py_len (c :: r)) eqn:Hlen; to_prop.
    + rewrite Z.min_r; [done|]. apply ascii_int_long; [done|]. by rewrite E.
    + by rewrite <- E, ascii_int_strip.
Qed.

Lemma parse_retry_after_range parse value date now d :
  parse_retry_after parse value date now = Some d → 0 ≤ d ≤ RETRY_AFTER_CEILING.
Proof.
  destruct value as [v|]; [|done].
  destruct (decide (v = [])) as [->|Hv]; [done|].
  destruct (py_all is_ascii_digit v) eqn:Hd.
  - rewrite parse_retry_after_digits by done. intros [= <-]. unfold seconds.
    assert (0 ≤ ascii_int v) by (unfold ascii_int; lia).
    change CEILING_SECONDS with 86400. change RETRY_AFTER_CEILING with 86400000000. lia.
  - cbn. rewrite (proj2 (str_eqb_neq v []) Hv), Hd.
    destruct (aware_http_date parse v); [|done]. intros [= <-].
    change RETRY_AFTER_CEILING with 86400000000. lia.
Qed.

(** ** Properties *)

(**  Reading a [Retry-After]: a decimal value of any length, leading zeros included, gives
    its number of seconds capped at one day, without the digit limit of [int] mattering; and
    whatever the header, the response date and the clock, a delay that is read lies between zero
    and the one-day ceiling. *)
Theorem parse_retry_after_bounded parse date now :
  (∀ v, v ≠ [] → py_all is_ascii_digit v = true →
     parse_retry_after parse (Some v) date now
     = Some (seconds (Z.min (ascii_int v) CEILING_SECONDS)))
  ∧ ∀ value d, parse_retry_after parse value date now = Some d → 0 ≤ d ≤ RETRY_AFTER_CEILING.
Proof.
  split; [intros v; apply parse_retry_after_digits|intros value d; apply parse_retry_after_range].
Qed.

Lemma parse_retry_after_bounded_witness :
  parse_retry_after (λ _, None) (Some (u8 "0000120")) None 0 = Some (seconds 120).
Proof.
  apply (proj1 (parse_retry_after_bounded (λ _, None) None 0) (u8 "0000120"));
    [discriminate|vm_compute; reflexivity].
Defined.

(**  A retry never comes before the provider's [Retry-After] allows: with the configured
    delays in increasing order below one day, the delay chosen for a failure is at least its
    [Retry-After] (up to the one-day ceiling), at least the short delay and at most one day; and
    the classification of any exception gives such a hint only to [llm_rate_limited]. *)
Theorem retry_delay_respects_hint delays attempt exc :
  0 ≤ rd_short delays ≤ rd_medium delays → rd_medium delays ≤ rd_long delays ≤ RETRY_AFTER_CEILING →
  let failure := classify_failure exc in
  let delay := snd (for_failure delays attempt failure) in
  rd_short delays ≤ delay ≤ RETRY_AFTER_CEILING
  ∧ (∀ r, rf_retry_after failure = Some r → Z.min r RETRY_AFTER_CEILING ≤ delay)
  ∧ ((∀ f, exc ≠ ExcRunFailure f) → ∀ r, rf_retry_after failure = Some r →
       rf_error_code failure = u8 "llm_rate_limited" ∧ 0 ≤ r ≤ RETRY_AFTER_CEILING).
Proof.
  intros H1 H2. cbv zeta. split; [|split].
  - unfold for_failure. repeat (case_match; to_prop); simplify_eq; cbn [snd]; lia.
  - intros r Hr. unfold for_failure. rewrite Hr, orb_true_r. cbn [andb orb].
    destruct (rd_medium delays <? r) eqn:E; to_prop; cbn [snd]; lia.
  - intros Hf r. destruct exc as [f|text|cls text ec hint]; [by destruct (Hf f)|done|].
    unfold classify_failure. destruct ec as [c|]; [|done]. destruct (str_mem c KNOWN_ERROR_CODES); [|done].
    destruct (c =?s u8 "llm_rate_limited") eqn:E; [|done]. apply str_eqb_eq in E as ->.
    cbn. intros Hr. split; [done|]. destruct hint as [h|]; [|done]. by apply hint_delay_bounds in Hr.
Qed.

Lemma retry_delay_respects_hint_witness :
  Z.min (minutes 30) RETRY_AFTER_CEILING
  ≤ snd (for_failure default_delays 1
           (classify_failure (ExcOther (u8 "LlmRateLimited") (u8 "slow down")
              (Some (u8 "llm_rate_limited")) (Some (HintFinite (inject_Z 1800)))))).
Proof.
  apply (proj1 (proj2 (retry_delay_respects_hint default_delays 1
    (ExcOther (u8 "LlmRateLimited") (u8 "slow down") (Some (u8 "llm_rate_limited"))
       (Some (HintFinite (inject_Z 1800)))) ltac:(vm_compute; split; discriminate)
       ltac:(vm_compute; split; discriminate)))).
  vm_compute. reflexivity.
Defined.
