(* ===== verification/PolicyErrors.v ===== *)
(** * Policy failures and their diagnostics ([policy_errors.py])

    A policy failure carries a message that is safe to show: a fixed text, then the place of
    the problem, in which the only author-written text is a shortened, cleaned mask. *)

From Stdlib Require Import String.
From stdpp Require Import numbers.
From S2P Require Import Prelude PyText PyHash RunFailures.
#[local] Open Scope Z_scope.

Inductive PolicyErrorCode : Type :=
| DOCUMENT_TOO_LARGE | DOCUMENT_DECODE_ERROR | DOCUMENT_CONTROL_CHARACTER
| DOCUMENT_TYPE_UNSUPPORTED | IGNORE_BLOCK_DUPLICATE | IGNORE_BLOCK_NESTED
| IGNORE_BLOCK_UNCLOSED | IGNORE_INFO_INVALID | IGNORE_PATTERN_INVALID
| IGNORE_LIMIT_EXCEEDED | PATH_INVALID | MATCH_BUDGET_EXCEEDED | PROMPT_BUDGET_EXCEEDED
| ACCESS_DENIED | REVISION_UNAVAILABLE | FETCH_TRANSIENT | RATE_LIMITED
| SNAPSHOT_INTEGRITY_ERROR | CONTEXT_VIOLATION.

#[export] Instance PolicyErrorCode_eq_dec : EqDecision PolicyErrorCode.
Proof. solve_decision. Defined.

Definition PolicyErrorCode_value (c : PolicyErrorCode) : pystr :=
  match c with
  | DOCUMENT_TOO_LARGE => u8 "policy_document_too_large"
  | DOCUMENT_DECODE_ERROR => u8 "policy_document_decode_error"
  | DOCUMENT_CONTROL_CHARACTER => u8 "policy_document_control_character"
  | DOCUMENT_TYPE_UNSUPPORTED => u8 "policy_document_type_unsupported"
  | IGNORE_BLOCK_DUPLICATE => u8 "policy_ignore_block_duplicate"
  | IGNORE_BLOCK_NESTED => u8 "policy_ignore_block_nested"
  | IGNORE_BLOCK_UNCLOSED => u8 "policy_ignore_block_unclosed"
  | IGNORE_INFO_INVALID => u8 "policy_ignore_info_invalid"
  | IGNORE_PATTERN_INVALID => u8 "policy_ignore_pattern_invalid"
  | IGNORE_LIMIT_EXCEEDED => u8 "policy_ignore_limit_exceeded"
  | PATH_INVALID => u8 "policy_path_invalid"
  | MATCH_BUDGET_EXCEEDED => u8 "policy_match_budget_exceeded"
  | PROMPT_BUDGET_EXCEEDED => u8 "policy_prompt_budget_exceeded"
  | ACCESS_DENIED => u8 "policy_access_denied"
  | REVISION_UNAVAILABLE => u8 "policy_revision_unavailable"
  | FETCH_TRANSIENT => u8 "policy_fetch_transient"
  | RATE_LIMITED => u8 "policy_rate_limited"
  | SNAPSHOT_INTEGRITY_ERROR => u8 "policy_snapshot_integrity_error"
  | CONTEXT_VIOLATION => u8 "policy_context_violation"
  end.

Definition RETRYABLE_POLICY_CODES : list PolicyErrorCode := [FETCH_TRANSIENT; RATE_LIMITED].

Definition POLICY_DETAIL_SEPARATOR : pystr := u8 " | ".

(** [error_message.split(SEPARATOR, 1)[1]] when the separator occurs. *)
Definition policy_error_detail (error_message : option pystr) : option pystr :=
  match error_message with
  | None => None
  | Some m =>
      match str_find m POLICY_DETAIL_SEPARATOR with
      | None => None
      | Some i => Some (drop (i + length POLICY_DETAIL_SEPARATOR) m)
      end
  end.

(** The documents a failure can name ([policy_snapshot.py]). *)
Definition RULES_DOCUMENT_PATH : pystr := u8 ".review/rules.md".
Definition AGENTS_DOCUMENT_PATH : pystr := u8 "AGENTS.md".

Definition MAX_EXCERPT_CHARS : nat := 80.
Definition BACKQUOTE : char := 96%N.
Definition ELLIPSIS : pystr := u8 "...".

Definition clean_char (c : char) : char :=
  if is_Cc c then 63%N else if (c =? BACKQUOTE)%N then 39%N else c.

Definition safe_excerpt (text : pystr) : pystr :=
  let cleaned := clean_char <$> text in
  if (length cleaned <=? MAX_EXCERPT_CHARS)%nat then cleaned
  else take MAX_EXCERPT_CHARS cleaned ++ ELLIPSIS.

(** ** The failure *)

Record PolicyErrorArgs : Type := mkPolicyErrorArgs {
  pe_source_path : option pystr;
  pe_policy_base_sha : option pystr;
  pe_line : option Z;
  pe_column : option Z;
  pe_pattern_index : option Z;
  pe_limit : option Z;
  pe_actual : option Z;
  pe_excerpt : option pystr;
  pe_retry_after : option Z;
  pe_unit : option pystr;
  pe_actual_is_lower_bound : bool;
  pe_http_status : option Z;
  pe_pin_head : bool
}.

Definition no_args : PolicyErrorArgs :=
  mkPolicyErrorArgs None None None None None None None None None None false None false.

(** The exception: its [RunFailure] part and its own attributes, [pe_excerpt] already safe. *)
Record PolicyError : Type := mkPolicyError {
  pe_failure : RunFailure;
  pe_code : PolicyErrorCode;
  pe_safe_message : pystr;
  pe_args : PolicyErrorArgs
}.

Definition opt_part {A} (f : A → pystr) (o : option A) : list pystr :=
  match o with Some a => [f a] | None => [] end.

(** The places named after the message: document, line, column, mask and limit. *)
Definition detail_parts (a : PolicyErrorArgs) : list pystr :=
  let allowed limit :=
    u8 "allowed " ++ str_of_Z limit ++
    match pe_unit a with
    | Some unit => if unit =?s [] then [] else u8 " " ++ unit
    | None => []
    end in
  opt_part (λ p, u8 "file `" ++ p ++ u8 "`") (pe_source_path a)
  ++ opt_part (λ l, u8 "line " ++ str_of_Z l) (pe_line a)
  ++ opt_part (λ c, u8 "column " ++ str_of_Z c) (pe_column a)
  ++ opt_part (λ e, u8 "mask `" ++ safe_excerpt e ++ u8 "`") (pe_excerpt a)
  ++ match pe_limit a with
     | Some limit =>
         if pe_actual_is_lower_bound a
         then [u8 "actual more than " ++ str_of_Z limit ++ u8 ", " ++ allowed limit]
         else match pe_actual a with
              | Some actual => [u8 "actual " ++ str_of_Z actual ++ u8 ", " ++ allowed limit]
              | None => [allowed limit]
              end
     | None => []
     end.

Definition detail (a : PolicyErrorArgs) : pystr := join (u8 ", ") (detail_parts a).

Definition set_excerpt (e : option pystr) (a : PolicyErrorArgs) : PolicyErrorArgs :=
  mkPolicyErrorArgs (pe_source_path a) (pe_policy_base_sha a) (pe_line a) (pe_column a)
    (pe_pattern_index a) (pe_limit a) (pe_actual a) e (pe_retry_after a) (pe_unit a)
    (pe_actual_is_lower_bound a) (pe_http_status a) (pe_pin_head a).

Definition set_source_path (p : option pystr) (a : PolicyErrorArgs) : PolicyErrorArgs :=
  mkPolicyErrorArgs p (pe_policy_base_sha a) (pe_line a) (pe_column a)
    (pe_pattern_index a) (pe_limit a) (pe_actual a) (pe_excerpt a) (pe_retry_after a) (pe_unit a)
    (pe_actual_is_lower_bound a) (pe_http_status a) (pe_pin_head a).

Definition policy_error (c : PolicyErrorCode) (message : pystr) (a : PolicyErrorArgs)
  : PolicyError :=
  let full := if detail a =?s [] then message
              else message ++ POLICY_DETAIL_SEPARATOR ++ detail a in
  mkPolicyError (run_failure (PolicyErrorCode_value c) full (pe_retry_after a) false)
    c message (set_excerpt (safe_excerpt <$> pe_excerpt a) a).

Definition retryable (e : PolicyError) : bool :=
  bool_decide (pe_code e ∈ RETRYABLE_POLICY_CODES).

Definition located (e : PolicyError) (source_path : pystr) : PolicyError :=
  policy_error (pe_code e) (pe_safe_message e) (set_source_path (Some source_path) (pe_args e)).

Definition diagnostic (e : PolicyError) : list (pystr * json) :=
  let a := pe_args e in
  [(u8 "code", JStr (PolicyErrorCode_value (pe_code e)));
   (u8 "source_path", JOpt JStr (pe_source_path a));
   (u8 "policy_base_sha", JOpt JStr (pe_policy_base_sha a));
   (u8 "message", JStr (pe_safe_message e));
   (u8 "line", JOpt JInt (pe_line a));
   (u8 "column", JOpt JInt (pe_column a));
   (u8 "pattern_index", JOpt JInt (pe_pattern_index a));
   (u8 "limit", JOpt JInt (pe_limit a));
   (u8 "actual", JOpt JInt (pe_actual a));
   (u8 "actual_is_lower_bound", JBool (pe_actual_is_lower_bound a));
   (u8 "retryable", JBool (retryable e))].

(** ** Facts *)

Lemma clean_char_safe c : is_Cc (clean_char c) = false ∧ clean_char c ≠ BACKQUOTE.
Proof.
  unfold clean_char. destruct (is_Cc c) eqn:H; [by split|].
  destruct (c =? BACKQUOTE)%N eqn:E; [by split|]. split; [done|]. by apply N.eqb_neq.
Qed.

Lemma clean_char_idem c : clean_char (clean_char c) = clean_char c.
Proof.
  destruct (clean_char_safe c) as [H1 H2]. apply N.eqb_neq in H2.
  unfold clean_char at 1. by rewrite H1, H2.
Qed.

Lemma safe_excerpt_safe text c :
  In c (safe_excerpt text) → is_Cc c = false ∧ c ≠ BACKQUOTE.
Proof.
  assert (Hclean : ∀ d, In d (clean_char <$> text) → is_Cc d = false ∧ d ≠ BACKQUOTE).
  { intros d Hd. apply in_map_iff in Hd as (e & <- & _). apply clean_char_safe. }
  unfold safe_excerpt. destruct (_ <=? _)%nat; [by apply Hclean|].
  intros H. apply in_app_iff in H as [H|H].
  - apply Hclean. rewrite <- (take_drop MAX_EXCERPT_CHARS (clean_char <$> text)).
    apply in_app_iff. by left.
  - by destruct H as [<-|[<-|[<-|[]]]].
Qed.

Lemma safe_excerpt_length text : (length (safe_excerpt text) ≤ 83)%nat.
Proof.
  unfold safe_excerpt. destruct (_ <=? _)%nat eqn:H; to_prop; unfold MAX_EXCERPT_CHARS in *; [lia|].
  rewrite length_app, length_take. change (length ELLIPSIS) with 3%nat. lia.
Qed.

Lemma clean_idem (text : pystr) : clean_char <$> (clean_char <$> text) = clean_char <$> text.
Proof. rewrite <- list_fmap_compose. apply list_fmap_ext. intros ? ? _. apply clean_char_idem. Qed.

Lemma safe_excerpt_idem text : safe_excerpt (safe_excerpt text) = safe_excerpt text.
Proof.
  assert (Hclean : clean_char <$> safe_excerpt text = safe_excerpt text).
  { unfold safe_excerpt. destruct (_ <=? _)%nat.
    - apply clean_idem.
    - by rewrite fmap_app, fmap_take, clean_idem. }
  unfold safe_excerpt at 1. rewrite Hclean. unfold safe_excerpt.
  destruct (length (clean_char <$> text) <=? MAX_EXCERPT_CHARS)%nat eqn:H; [by rewrite H|].
  to_prop. rewrite (proj2 (Nat.leb_gt _ _)).
  - rewrite take_app_le by (rewrite length_take; lia). by rewrite take_take, Nat.min_id.
  - rewrite length_app, length_take. change (length ELLIPSIS) with 3%nat. lia.
Qed.

Definition BAR : char := 124%N.

Lemma no_bar_no_separator s : BAR ∉ s → startswith s POLICY_DETAIL_SEPARATOR = false.
Proof.
  change POLICY_DETAIL_SEPARATOR with [32%N; BAR; 32%N]. intros Hs.
  destruct s as [|c [|d s]]; cbn [startswith]; rewrite ?andb_false_r; try done.
  apply not_elem_of_cons in Hs as [_ Hs]. apply not_elem_of_cons in Hs as [Hd _].
  by rewrite (proj2 (N.eqb_neq BAR d) Hd), andb_false_r.
Qed.

Lemma str_find_no_bar s : BAR ∉ s → str_find s POLICY_DETAIL_SEPARATOR = None.
Proof.
  induction s as [|c s IH]; intros Hs; cbn [str_find]; rewrite no_bar_no_separator by done; [done|].
  apply not_elem_of_cons in Hs as [_ Hs]. by rewrite IH.
Qed.

(** The first separator of a stored message is the one after a text without bars. *)
Lemma str_find_separator m r :
  BAR ∉ m → str_find (m ++ POLICY_DETAIL_SEPARATOR ++ r) POLICY_DETAIL_SEPARATOR = Some (length m).
Proof.
  change POLICY_DETAIL_SEPARATOR with [32%N; BAR; 32%N].
  induction m as [|c m IH]; intros Hm; [by destruct r|].
  apply not_elem_of_cons in Hm as [_ Hm]. cbn [app str_find].
  assert (E : startswith (c :: m ++ [32%N; BAR; 32%N] ++ r) [32%N; BAR; 32%N] = false).
  { destruct m as [|d m]; cbn [app startswith]; [by rewrite andb_false_r|].
    apply not_elem_of_cons in Hm as [Hd _].
    by rewrite (proj2 (N.eqb_neq BAR d) Hd), andb_false_r. }
  cbn [app] in E, IH |- *. rewrite E, IH by done. done.
Qed.

(** ** Properties *)

(** The catalogue of run failures and the policy codes agree: every policy code is a known
    error code, so classification keeps it, and it is retried by the run exactly when the policy
    failure calls itself retryable; distinct policy codes have distinct values. *)
Theorem policy_codes_catalogued e e' :
  str_mem (PolicyErrorCode_value (pe_code e)) KNOWN_ERROR_CODES = true
  ∧ retryable e = str_mem (PolicyErrorCode_value (pe_code e)) RETRYABLE_ERROR_CODES
  ∧ (PolicyErrorCode_value (pe_code e) = PolicyErrorCode_value (pe_code e') → pe_code e = pe_code e').
Proof.
  unfold retryable. destruct (pe_code e), (pe_code e'); vm_compute;
    (split; [reflexivity|split; [reflexivity|intros; first [reflexivity|discriminate]]]).
Qed.

(**  The message of a policy failure is safe and readable back: the quoted mask has at most
    83 characters, none a control character or a backquote; naming the document later keeps the
    mask, code and text; and when the fixed text has no bar, the author-facing location is read
    back from the stored message exactly (no location when there is none). *)
Theorem policy_message_safe c message a path :
  let e := policy_error c message a in
  (∀ x, pe_excerpt (pe_args e) = Some x →
     (length x ≤ 83)%nat ∧ ∀ k, In k x → is_Cc k = false ∧ k ≠ BACKQUOTE)
  ∧ located e path = policy_error c message (set_source_path (Some path) a)
  ∧ (BAR ∉ message → message ≠ [] →
       policy_error_detail (Some (rf_message (pe_failure e)))
       = if detail a =?s [] then None else Some (detail a)).
Proof.
  cbv zeta. split; [|split].
  - cbn. intros x Hx. apply fmap_Some in Hx as (t & _ & ->).
    split; [apply safe_excerpt_length|intros k; apply safe_excerpt_safe].
  - destruct a as [? ? ? ? ? ? ? ex ? ? ? ? ?]. unfold located, policy_error, detail, detail_parts.
    cbn. destruct ex as [x|]; cbn; by rewrite ?safe_excerpt_idem.
  - intros Hbar Hne. unfold policy_error, run_failure, policy_error_detail. cbn.
    destruct (detail a =?s []) eqn:E.
    + rewrite (proj2 (str_eqb_neq message []) Hne). by rewrite str_find_no_bar.
    + rewrite (proj2 (str_eqb_neq (message ++ _) [])) by (by destruct message).
      rewrite str_find_separator by done.
      rewrite drop_app_ge by lia.
      by replace (length message + length POLICY_DETAIL_SEPARATOR - length message)%nat
        with 3%nat by (change (length POLICY_DETAIL_SEPARATOR) with 3%nat; lia).
Qed.

Lemma policy_message_safe_witness :
  policy_error_detail (Some (rf_message (pe_failure
    (policy_error IGNORE_PATTERN_INVALID (u8 "Invalid review-ignore mask") (set_excerpt (Some (u8 "a`b")) no_args)))))
  = Some (u8 "mask `a'b`").
Proof.
  apply (proj2 (proj2 (policy_message_safe IGNORE_PATTERN_INVALID (u8 "Invalid review-ignore mask")
    (set_excerpt (Some (u8 "a`b")) no_args) []))); [|discriminate].
  apply (bool_decide_unpack _). vm_compute. exact I.
Defined.
