(* ===== verification/PolicyDocuments.v ===== *)
(** * Policy documents ([policy_documents.py])

    [.review/rules.md] and [AGENTS.md] of the pinned base revision: how a path is found in the Git
    tree, which bytes are accepted and what is kept of them.  Bytes are numbers below 256.  The
    source of the revision is an argument; its answers may depend on the calls made before, whose
    number is the state of a load. *)

From Stdlib Require Import String.
From stdpp Require Import numbers.
From S2P Require Import Prelude PyText PyHash RunFailures PolicyErrors.
#[local] Open Scope Z_scope.

Definition byte : Type := N.

(** ** Strict UTF-8 *)

Definition continuation (b : byte) : bool := in_range b (128, 191)%N.

(** [bytes.decode("utf-8", errors="strict")]; [None] is [UnicodeDecodeError].  The second byte is
    narrowed where an overlong form, a surrogate or a number past the last code point would begin. *)
Fixpoint utf8_strict (bs : list byte) : option pystr :=
  match bs with
  | [] => Some []
  | b0 :: r0 =>
      if (b0 <? 128)%N then cons b0 <$> utf8_strict r0
      else if in_range b0 (194, 223)%N then
        match r0 with
        | b1 :: r1 =>
            if continuation b1
            then cons ((b0 - 192) * 64 + (b1 - 128))%N <$> utf8_strict r1 else None
        | [] => None
        end
      else if in_range b0 (224, 239)%N then
        match r0 with
        | b1 :: b2 :: r2 =>
            if in_range b1 (if (b0 =? 224)%N then 160%N else 128%N,
                            if (b0 =? 237)%N then 159%N else 191%N) && continuation b2
            then cons ((b0 - 224) * 4096 + (b1 - 128) * 64 + (b2 - 128))%N <$> utf8_strict r2
            else None
        | _ => None
        end
      else if in_range b0 (240, 244)%N then
        match r0 with
        | b1 :: b2 :: b3 :: r3 =>
            if in_range b1 (if (b0 =? 240)%N then 144%N else 128%N,
                            if (b0 =? 244)%N then 143%N else 191%N)
               && continuation b2 && continuation b3
            then cons ((b0 - 240) * 262144 + (b1 - 128) * 4096 + (b2 - 128) * 64 + (b3 - 128))%N
                   <$> utf8_strict r3
            else None
        | _ => None
        end
      else None
  end.

(** ** Documents *)

Definition MAX_DOCUMENT_BYTES : Z := 65536.
Definition BOM : list byte := [239; 187; 191]%N.
Definition LFS_POINTER : list byte := string_bytes "version https://git-lfs.github.com/spec/v1".

Inductive DocumentPresence : Type := Doc_present | Doc_missing.
#[export] Instance DocumentPresence_eq_dec : EqDecision DocumentPresence.
Proof. solve_decision. Defined.

Definition DocumentPresence_value (p : DocumentPresence) : pystr :=
  match p with Doc_present => u8 "present" | Doc_missing => u8 "missing" end.

Record PolicyDocument : Type := mkPolicyDocument {
  pd_path : pystr;
  pd_presence : DocumentPresence;
  pd_blob_oid : option pystr;
  pd_raw_sha256 : option pystr;
  pd_text_sha256 : option pystr;
  pd_text : option pystr;
  pd_byte_count : option Z;
  pd_line_count : option Z
}.
#[export] Instance PolicyDocument_eq_dec : EqDecision PolicyDocument.
Proof. solve_decision. Defined.

Definition is_none {A} (o : option A) : bool := match o with None => true | Some _ => false end.

(** [PolicyDocument.__post_init__]: a missing document has no content, a present one all of it. *)
Definition document_fields_ok (d : PolicyDocument) : bool :=
  let absent := [is_none (pd_blob_oid d); is_none (pd_raw_sha256 d); is_none (pd_text_sha256 d);
                 is_none (pd_text d); is_none (pd_byte_count d); is_none (pd_line_count d)] in
  match pd_presence d with
  | Doc_missing => forallb id absent
  | Doc_present => negb (existsb id absent)
  end.

Definition is_missing (d : PolicyDocument) : bool := bool_decide (pd_presence d = Doc_missing).

Definition missing_document (path : pystr) : PolicyDocument :=
  mkPolicyDocument path Doc_missing None None None None None None.

Definition document_error (code : PolicyErrorCode) (message : pystr) (path : pystr)
    (base : option pystr) (line column limit actual : option Z) : PolicyError :=
  policy_error code message
    (mkPolicyErrorArgs (Some path) base line column None limit actual None None None false None false).

Definition too_large (path : pystr) (base : option pystr) (actual : Z) : PolicyError :=
  document_error DOCUMENT_TOO_LARGE
    (u8 "The policy document exceeds " ++ str_of_Z MAX_DOCUMENT_BYTES ++ u8 " bytes") path base
    None None (Some MAX_DOCUMENT_BYTES) (Some actual).

Fixpoint bytes_prefix (p bs : list byte) : bool :=
  match p, bs with
  | [], _ => true
  | x :: p', y :: bs' => (x =? y)%N && bytes_prefix p' bs'
  | _ :: _, [] => false
  end.

(** [raw.removeprefix(_BOM)] *)
Definition remove_bom (raw : list byte) : list byte :=
  if bytes_prefix BOM raw then drop 3 raw else raw.

(** [text.replace("\r\n", "\n").replace("\r", "\n")] *)
Fixpoint replace_crlf (s : pystr) : pystr :=
  match s with
  | [] => []
  | c :: s' =>
      match s' with
      | d :: s'' => if (c =? CR)%N && (d =? LF)%N then LF :: replace_crlf s'' else c :: replace_crlf s'
      | [] => [c]
      end
  end.
Definition replace_cr (s : pystr) : pystr := (λ c, if (c =? CR)%N then LF else c) <$> s.
Definition normalize_newlines (s : pystr) : pystr := replace_cr (replace_crlf s).

Definition TAB : char := 9%N.
Definition forbidden_control (c : char) : bool :=
  ((c <? 32)%N && negb (c =? TAB)%N) || (c =? 127)%N.

(** The first forbidden character of a line, and of all lines, as line and column. *)
Fixpoint line_control (column : Z) (line : pystr) : option Z :=
  match line with
  | [] => None
  | c :: line' => if forbidden_control c then Some column else line_control (column + 1) line'
  end.
Fixpoint text_control (number : Z) (lines : list pystr) : option (Z * Z) :=
  match lines with
  | [] => None
  | line :: lines' =>
      match line_control 1 line with
      | Some column => Some (number, column)
      | None => text_control (number + 1) lines'
      end
  end.

Definition document_line_count (text : pystr) : Z :=
  Z.of_N (count_char LF text)
  + (if negb (text =?s []) && negb (endswith text [LF]) then 1 else 0).

(** The digest of a text; a decoded text is always encodable. *)
Definition text_digest (text : pystr) : option pystr := sha256_hex <$> utf8_encode text.

Definition normalize_document (path : pystr) (raw : list byte) (blob_oid : pystr)
    (base : option pystr) : result PolicyError PolicyDocument :=
  if MAX_DOCUMENT_BYTES <? py_len raw then Err (too_large path base (py_len raw))
  else if bytes_prefix LFS_POINTER raw then
    Err (document_error DOCUMENT_TYPE_UNSUPPORTED
           (u8 "The policy document must be a regular Git blob, not an LFS pointer") path base
           None None None None)
  else
    match utf8_strict (remove_bom raw) with
    | None => Err (document_error DOCUMENT_DECODE_ERROR
                     (u8 "The policy document must be valid UTF-8") path base None None None None)
    | Some decoded =>
        let text := normalize_newlines decoded in
        match text_control 1 (split_on LF text) with
        | Some (line, column) =>
            Err (document_error DOCUMENT_CONTROL_CHARACTER
                   (u8 "The policy document contains a forbidden control character") path base
                   (Some line) (Some column) None None)
        | None =>
            Ok (mkPolicyDocument path Doc_present (Some blob_oid) (Some (sha256_hex raw))
                  (text_digest text) (Some text) (Some (py_len raw))
                  (Some (document_line_count text)))
        end
    end.

(** ** Loading *)

Inductive PolicyEntryKind : Type := Kind_file | Kind_directory | Kind_symlink | Kind_submodule.
#[export] Instance PolicyEntryKind_eq_dec : EqDecision PolicyEntryKind.
Proof. solve_decision. Defined.

Record PolicyTreeEntry : Type := mkPolicyTreeEntry {
  te_kind : PolicyEntryKind; te_oid : pystr; te_size : option Z
}.
Definition entries : Type := list (pystr * PolicyTreeEntry).

(** [PolicyDocumentSource] *)
Record PolicyDocumentSource : Type := mkPolicyDocumentSource {
  ps_list_entries : nat → option pystr → result PolicyError entries;
  ps_read_blob : nat → pystr → result PolicyError (list byte)
}.

Record LoadedPolicyDocument : Type := mkLoadedPolicyDocument {
  ld_document : PolicyDocument; ld_raw : option (list byte)
}.

Section Load.
Context (source : PolicyDocumentSource) (policy_base_sha : pystr).

Definition loading (A : Type) : Type := stateT nat PolicyError A.
Definition list_entries (oid : option pystr) : loading entries :=
  λ n, (S n, ps_list_entries source n oid).
Definition read_blob (oid : pystr) : loading (list byte) := λ n, (S n, ps_read_blob source n oid).

Definition unsupported (path : pystr) : PolicyError :=
  document_error DOCUMENT_TYPE_UNSUPPORTED (u8 "The policy document must be a regular Git blob") path
    (Some policy_base_sha) None None None None.

(** [except PolicyError]: the document is named when the source did not name one. *)
Definition locate (path : pystr) (e : PolicyError) : PolicyError :=
  match pe_source_path (pe_args e) with
  | Some _ => e
  | None => located e path
  end.

(** A size the source does not know is checked when the bytes are there. *)
Definition load_entry (path name : pystr) (es : entries) : loading LoadedPolicyDocument :=
  match assoc name es with
  | None => mret (mkLoadedPolicyDocument (missing_document path) None)
  | Some entry =>
      if negb (bool_decide (te_kind entry = Kind_file)) then raise_st (unsupported path)
      else if MAX_DOCUMENT_BYTES <? default 0 (te_size entry)
      then raise_st (too_large path (Some policy_base_sha) (default 0 (te_size entry)))
      else λ n,
        match read_blob (te_oid entry) n with
        | (n', Err e) => (n', Err (locate path e))
        | (n', Ok raw) =>
            (n', document ← normalize_document path raw (te_oid entry) (Some policy_base_sha);
                 Ok (mkLoadedPolicyDocument document (Some raw)))
        end
  end.

Fixpoint load_path (path : pystr) (directories : list pystr) (name : pystr) (es : entries)
  : loading LoadedPolicyDocument :=
  match directories with
  | [] => load_entry path name es
  | directory :: rest =>
      match assoc directory es with
      | None => mret (mkLoadedPolicyDocument (missing_document path) None)
      | Some parent =>
          if negb (bool_decide (te_kind parent = Kind_directory)) then raise_st (unsupported path)
          else (es' ← list_entries (Some (te_oid parent)); load_path path rest name es')
      end
  end.

(** [*directories, name = path.split("/")] *)
Definition load_from (root : entries) (path : pystr) : loading LoadedPolicyDocument :=
  let parts := split_on SLASH path in
  load_path path (removelast parts) (List.last parts []) root.

Definition load_document (path : pystr) : loading LoadedPolicyDocument :=
  root ← list_entries None; load_from root path.

(** [LoadPolicyDocuments.execute] *)
Definition load_documents : loading (LoadedPolicyDocument * LoadedPolicyDocument) :=
  root ← list_entries None;
  rules ← load_from root RULES_DOCUMENT_PATH;
  agents ← load_from root AGENTS_DOCUMENT_PATH;
  mret (rules, agents).
End Load.

(** ** Integrity of a staged document ([policy_snapshot_integrity.py]) *)

Definition integrity_error (message : pystr) (source_path base : option pystr) : PolicyError :=
  policy_error SNAPSHOT_INTEGRITY_ERROR message
    (mkPolicyErrorArgs source_path base None None None None None None None None false None false).

Definition verify_policy_document (d : PolicyDocument) (raw : option (list byte))
  : result PolicyError unit :=
  let fail (message : pystr) := Err (integrity_error message (Some (pd_path d)) None) in
  if is_missing d then
    match raw with
    | Some _ => fail (u8 "A missing policy document stores raw bytes")
    | None => Ok tt
    end
  else
    match raw with
    | None => fail (u8 "The stored raw_sha256 does not match the stored raw bytes")
    | Some bytes =>
        if negb (ostr_eqb (Some (sha256_hex bytes)) (pd_raw_sha256 d))
        then fail (u8 "The stored raw_sha256 does not match the stored raw bytes")
        else if negb (bool_decide (pd_byte_count d = Some (py_len bytes)))
        then fail (u8 "The stored byte_count does not match the stored raw bytes")
        else match pd_text d with
             | None => fail (u8 "The stored text_sha256 does not match the stored text")
             | Some text =>
                 if negb (ostr_eqb (text_digest text) (pd_text_sha256 d))
                 then fail (u8 "The stored text_sha256 does not match the stored text")
                 else if negb (bool_decide (pd_line_count d = Some (document_line_count text)))
                 then fail (u8 "The stored line_count does not match the stored text")
                 else Ok tt
             end
    end.

(** ** Facts *)

#[local] Ltac Zify.zify_post_hook ::= Z.to_euclidean_division_equations.

Lemma is_Cs_false c : is_Cs c = false ↔ (c < 55296 ∨ 57343 < c)%N.
Proof.
  unfold is_Cs, in_ranges, Cs_ranges, in_range. cbn [existsb fst snd].
  rewrite orb_false_r, andb_false_iff, !N.leb_gt. done.
Qed.

Lemma in_range_iff c lo hi : in_range c (lo, hi) = true ↔ (lo ≤ c ≤ hi)%N.
Proof. unfold in_range. cbn [fst snd]. rewrite andb_true_iff, !N.leb_le. done. Qed.
Lemma in_range_false c lo hi : in_range c (lo, hi) = false ↔ (c < lo ∨ hi < c)%N.
Proof. unfold in_range. cbn [fst snd]. rewrite andb_false_iff, !N.leb_gt. done. Qed.

Lemma in_range_1 c lo hi : (lo ≤ c ≤ hi)%N → in_range c (lo, hi) = true.
Proof. by apply in_range_iff. Qed.
Lemma in_range_0 c lo hi : (c < lo ∨ hi < c)%N → in_range c (lo, hi) = false.
Proof. by apply in_range_false. Qed.

Ltac split_eqb :=
  repeat match goal with |- context [(?a =? ?b)%N] => destruct (N.eqb_spec a b) end.

(** The four shapes of an encoded character, decoded. *)
Lemma utf8_strict_1 b0 r : (b0 < 128)%N → utf8_strict (b0 :: r) = cons b0 <$> utf8_strict r.
Proof. intros ?. cbn [utf8_strict]. by rewrite (proj2 (N.ltb_lt _ _)). Qed.
Lemma utf8_strict_2 x y r :
  (2 ≤ x < 32)%N → (y < 64)%N →
  utf8_strict (192 + x :: 128 + y :: r)%N = cons (x * 64 + y)%N <$> utf8_strict r.
Proof.
  intros ? ?. cbn [utf8_strict]. unfold continuation.
  rewrite (proj2 (N.ltb_ge _ _)), !in_range_1 by lia. do 2 f_equal. lia.
Qed.
Lemma utf8_strict_3 x y z r :
  (x < 16 → y < 64 → z < 64 → (x = 0 → 32 ≤ y) → (x = 13 → y < 32) →
  utf8_strict (224 + x :: 128 + y :: 128 + z :: r)
  = cons (x * 4096 + y * 64 + z) <$> utf8_strict r)%N.
Proof.
  intros ? ? ? H0 H13. cbn [utf8_strict]. unfold continuation.
  rewrite (proj2 (N.ltb_ge _ _)), (in_range_0 (224 + x) 194 223), (in_range_1 (224 + x)) by lia.
  rewrite !in_range_1 by (split_eqb; lia).
  cbn [andb]. do 2 f_equal. lia.
Qed.
Lemma utf8_strict_4 w x y z r :
  (w < 5 → x < 64 → y < 64 → z < 64 → (w = 0 → 16 ≤ x) → (w = 4 → x < 16) →
  utf8_strict (240 + w :: 128 + x :: 128 + y :: 128 + z :: r)
  = cons (w * 262144 + x * 4096 + y * 64 + z) <$> utf8_strict r)%N.
Proof.
  intros ? ? ? ? H0 H4. cbn [utf8_strict]. unfold continuation.
  rewrite (proj2 (N.ltb_ge _ _)), (in_range_0 (240 + w) 194 223), (in_range_0 (240 + w) 224 239),
    (in_range_1 (240 + w)) by lia.
  rewrite !in_range_1 by (split_eqb; lia).
  cbn [andb]. do 2 f_equal. lia.
Qed.

Lemma utf8_strict_char c bs r :
  (c < 1114112)%N → utf8_char c = Some bs →
  utf8_strict (bs ++ r) = cons c <$> utf8_strict r.
Proof.
  intros Hc. unfold utf8_char. destruct (is_Cs c) eqn:Es; [done|]. apply is_Cs_false in Es.
  destruct (N.ltb_spec c 128); [intros [= <-]; by apply utf8_strict_1|].
  destruct (N.ltb_spec c 2048); [intros [= <-]|destruct (N.ltb_spec c 65536); intros [= <-]];
    cbn [app].
  - rewrite utf8_strict_2 by lia. do 2 f_equal. lia.
  - rewrite utf8_strict_3 by lia. do 2 f_equal. lia.
  - rewrite utf8_strict_4 by lia. do 2 f_equal. lia.
Qed.

(** The same shapes, encoded. *)
Lemma utf8_char_2 x y :
  (2 ≤ x < 32 → y < 64 → utf8_char (x * 64 + y) = Some [192 + x; 128 + y])%N.
Proof.
  intros ? ?. unfold utf8_char.
  rewrite (proj2 (is_Cs_false _)), (proj2 (N.ltb_ge _ 128)), (proj2 (N.ltb_lt _ 2048)) by lia.
  do 2 f_equal; [|f_equal]; lia.
Qed.
Lemma utf8_char_3 x y z :
  (x < 16 → y < 64 → z < 64 → (x = 0 → 32 ≤ y) → (x = 13 → y < 32) →
  utf8_char (x * 4096 + y * 64 + z) = Some [224 + x; 128 + y; 128 + z])%N.
Proof.
  intros ? ? ? ? ?. unfold utf8_char.
  rewrite (proj2 (is_Cs_false _)), (proj2 (N.ltb_ge _ 128)), (proj2 (N.ltb_ge _ 2048)),
    (proj2 (N.ltb_lt _ 65536)) by lia.
  do 2 f_equal; [|f_equal; [|f_equal]]; lia.
Qed.
Lemma utf8_char_4 w x y z :
  (w < 5 → x < 64 → y < 64 → z < 64 → (w = 0 → 16 ≤ x) → (w = 4 → x < 16) →
  utf8_char (w * 262144 + x * 4096 + y * 64 + z) = Some [240 + w; 128 + x; 128 + y; 128 + z])%N.
Proof.
  intros ? ? ? ? ? ?. unfold utf8_char.
  rewrite (proj2 (is_Cs_false _)), (proj2 (N.ltb_ge _ 128)), (proj2 (N.ltb_ge _ 2048)),
    (proj2 (N.ltb_ge _ 65536)) by lia.
  do 2 f_equal; [|f_equal; [|f_equal; [|f_equal]]]; lia.
Qed.

(** A narrowed second byte. *)
Lemma second_byte b0 b1 k1 lo k2 hi :
  in_range b1 (if (b0 =? k1)%N then lo else 128%N, if (b0 =? k2)%N then hi else 191%N) = true →
  (128 ≤ lo → hi ≤ 191 → (128 ≤ b1 ≤ 191) ∧ (b0 = k1 → lo ≤ b1) ∧ (b0 = k2 → b1 ≤ hi))%N.
Proof.
  intros E%in_range_iff ? ?. revert E. split_eqb; intros; split_and!; intros; lia.
Qed.

(** A decoded character is what its bytes encode. *)
Lemma utf8_strict_inv b0 r0 s :
  utf8_strict (b0 :: r0) = Some s →
  ∃ c bs r s', b0 :: r0 = bs ++ r ∧ bs ≠ [] ∧ utf8_char c = Some bs ∧ (c < 1114112)%N
               ∧ s = c :: s' ∧ utf8_strict r = Some s'.
Proof.
  cbn [utf8_strict]. unfold continuation. destruct (N.ltb_spec b0 128) as [E0|E0].
  { intros (s' & Hs & ->)%fmap_Some. exists b0, [b0], r0, s'. unfold utf8_char.
    rewrite (proj2 (is_Cs_false b0)), (proj2 (N.ltb_lt b0 128)) by lia. split_and!; done || lia. }
  destruct (in_range b0 (194, 223)%N) eqn:E1.
  { apply in_range_iff in E1. destruct r0 as [|b1 r]; [done|]. case_match eqn:E2; [|done].
    apply in_range_iff in E2. intros (s' & Hs & ->)%fmap_Some. exists ((b0 - 192) * 64 + (b1 - 128))%N, [b0; b1], r, s'.
    rewrite utf8_char_2 by lia. split_and!; try done; [|lia]. do 2 f_equal; [|f_equal]; lia. }
  destruct (in_range b0 (224, 239)%N) eqn:E2.
  { apply in_range_iff in E2. destruct r0 as [|b1 [|b2 r]]; [done..|]. case_match eqn:E3; [|done].
    apply andb_true_iff in E3 as [E3 E4%in_range_iff]. apply second_byte in E3; [|lia..].
    intros (s' & Hs & ->)%fmap_Some.
    exists ((b0 - 224) * 4096 + (b1 - 128) * 64 + (b2 - 128))%N, [b0; b1; b2], r, s'.
    rewrite utf8_char_3 by lia. split_and!; try done; [|lia].
    do 2 f_equal; [|f_equal; [|f_equal]]; lia. }
  destruct (in_range b0 (240, 244)%N) eqn:E3; [|done]. apply in_range_iff in E3.
  destruct r0 as [|b1 [|b2 [|b3 r]]]; [done..|]. case_match eqn:E4; [|done].
  apply andb_true_iff in E4 as [[E4 E5%in_range_iff]%andb_true_iff E6%in_range_iff].
  apply second_byte in E4; [|lia..].
  intros (s' & Hs & ->)%fmap_Some.
  exists ((b0 - 240) * 262144 + (b1 - 128) * 4096 + (b2 - 128) * 64 + (b3 - 128))%N,
    [b0; b1; b2; b3], r, s'.
  rewrite utf8_char_4 by lia. split_and!; try done; [|lia].
  do 2 f_equal; [|f_equal; [|f_equal; [|f_equal]]]; lia.
Qed.

Definition code_point (c : char) : Prop := (c < 1114112)%N.

Lemma utf8_strict_iff bs s : utf8_strict bs = Some s ↔ utf8_encode s = Some bs ∧ Forall code_point s.
Proof.
  split.
  - revert s. induction bs as [bs IH] using (induction_ltof1 _ (@length N)). unfold ltof in IH.
    intros s. destruct bs as [|b0 r0]; [by intros [= <-]|].
    intros (c & bs & r & s' & Hb & Hne & Hu & Hc & -> & Hs)%utf8_strict_inv.
    apply IH in Hs as [He Hf]; cycle 1.
    { apply (f_equal length) in Hb. rewrite length_app in Hb. destruct bs; [done|].
      unfold byte in *. cbn [length] in *. lia. }
    split; [|by constructor]. cbn [utf8_encode]. rewrite Hu, He. by f_equal.
  - intros [He Hf]. revert bs He. induction Hf as [|c s Hc _ IH]; cbn [utf8_encode];
      [by intros ? [= <-]|]. intros bs He.
    destruct (utf8_char c) as [e|] eqn:Hu; [|done]. destruct (utf8_encode s) as [r|]; [|done].
    injection He as <-. rewrite (utf8_strict_char c e r Hc Hu), (IH r eq_refl). done.
Qed.

Lemma utf8_encode_is_Some s : is_Some (utf8_encode s) ↔ Forall (λ c, is_Cs c = false) s.
Proof.
  induction s as [|c s IH]; cbn [utf8_encode]; [split; [constructor|by exists []]|].
  rewrite Forall_cons, <- IH. unfold utf8_char.
  destruct (is_Cs c); [split; [by intros [? ?]|by intros [? _]]|].
  split; [intros [? Hs]; split; [done|]; destruct (utf8_encode s); [by eexists|];
          revert Hs; by repeat case_match|].
  intros [_ [r ->]]. repeat case_match; by eexists.
Qed.

(** Newlines: what is left of a text, and that nothing else changes. *)
Lemma replace_crlf_in c s : In c (replace_crlf s) → c = LF ∨ In c s.
Proof.
  induction s as [s IH] using (induction_ltof1 _ (@length N)). unfold ltof in IH.
  destruct s as [|a [|b s]]; [done|by right|]. cbn [replace_crlf].
  destruct ((a =? CR)%N && (b =? LF)%N) eqn:E.
  - intros [<-|Hc]; [by left|]. apply IH in Hc; [|cbn; lia]. cbn. tauto.
  - intros [<-|Hc]; [right; by left|]. apply (IH (b :: s)) in Hc; [|cbn; lia].
    destruct Hc; [by left|right; by right].
Qed.
Lemma in_replace_crlf c s : In c s → c ≠ CR → In c (replace_crlf s).
Proof.
  induction s as [s IH] using (induction_ltof1 _ (@length N)). unfold ltof in IH.
  destruct s as [|a [|b s]]; [done|done|]. cbn [replace_crlf]. intros Hin Hc.
  destruct ((a =? CR)%N && (b =? LF)%N) eqn:E.
  - apply andb_true_iff in E as [Ha%N.eqb_eq Hb%N.eqb_eq].
    destruct Hin as [<-|[<-|Hin]]; [done|by left|right; apply IH; [cbn; lia|done..]].
  - destruct Hin as [<-|Hin]; [by left|right; apply (IH (b :: s)); [cbn; lia|done..]].
Qed.
Lemma normalize_newlines_in c s :
  In c (normalize_newlines s) → c = LF ∨ (In c s ∧ c ≠ CR).
Proof.
  unfold normalize_newlines, replace_cr.
  intros (d & <- & Hd)%in_map_iff. destruct (N.eqb_spec d CR); [by left|].
  destruct (replace_crlf_in d s Hd); [by left|by right].
Qed.
Lemma in_normalize_newlines c s : In c s → c ≠ CR → In c (normalize_newlines s).
Proof.
  intros Hin Hc. unfold normalize_newlines, replace_cr. apply in_map_iff. exists c.
  destruct (N.eqb_spec c CR); [done|]. split; [done|by apply in_replace_crlf].
Qed.

(** A text no line of which has a forbidden character. *)
Definition printable (c : char) : Prop := c = LF ∨ forbidden_control c = false.

Lemma line_control_None k line :
  line_control k line = None ↔ Forall (λ c, forbidden_control c = false) line.
Proof.
  revert k. induction line as [|c line IH]; intros k; cbn [line_control]; [done|].
  rewrite Forall_cons, <- (IH (k + 1)). destruct (forbidden_control c); naive_solver.
Qed.
Lemma text_control_None k lines :
  text_control k lines = None ↔ Forall (Forall (λ c, forbidden_control c = false)) lines.
Proof.
  revert k. induction lines as [|l lines IH]; intros k; cbn [text_control]; [done|].
  rewrite Forall_cons, <- (IH (k + 1)), <- (line_control_None 1).
  destruct (line_control 1 l); naive_solver.
Qed.
Lemma split_lines_Forall (P : char → Prop) s :
  Forall (Forall P) (split_on LF s) ↔ Forall (λ c, c = LF ∨ P c) s.
Proof.
  induction s as [|c s IH]; cbn [split_on]; [by rewrite !Forall_cons|].
  rewrite Forall_cons, <- IH. destruct (N.eqb_spec c LF) as [->|Hc].
  - rewrite Forall_cons. split; [intros [_ ?]; split; [by left|done]|by intros [_ ?]].
  - destruct (split_on LF s) as [|w ws] eqn:E; [by apply split_on_nonempty in E|].
    rewrite !Forall_cons. naive_solver.
Qed.
Lemma text_control_printable s : text_control 1 (split_on LF s) = None ↔ Forall printable s.
Proof. rewrite text_control_None. apply split_lines_Forall. Qed.

(** ** What a document holds *)

(** The text that a blob encodes: no control character but tabs and line ends. *)
Definition accepted_text (raw : list byte) (s : pystr) : Prop :=
  utf8_encode s = Some (remove_bom raw) ∧ Forall code_point s
  ∧ Forall (λ c, c = CR ∨ printable c) s.

(** A stored document and its bytes: complete, the checksums of the bytes and of the text, a text
    that prints. *)
Record valid_document (path : pystr) (d : PolicyDocument) (raw : option (list byte)) : Prop := {
  vd_path : pd_path d = path;
  vd_fields : document_fields_ok d = true;
  vd_verified : verify_policy_document d raw = Ok tt;
  vd_text : ∀ text, pd_text d = Some text → Forall code_point text ∧ Forall printable text
                                          ∧ ¬ In CR text;
  vd_bytes : ∀ n, pd_byte_count d = Some n → 0 ≤ n ≤ MAX_DOCUMENT_BYTES
}.

Lemma missing_valid path : valid_document path (missing_document path) None.
Proof. by split. Qed.

Lemma normalized_printable s :
  Forall printable (normalize_newlines s) ↔ Forall (λ c, c = CR ∨ printable c) s.
Proof.
  rewrite !List.Forall_forall. split.
  - intros Hs c Hc. destruct (decide (c = CR)) as [->|Hn]; [by left|right].
    by apply Hs, in_normalize_newlines.
  - intros Hs c [->|[Hc Hn]]%normalize_newlines_in; [by left|].
    by destruct (Hs c Hc).
Qed.

Lemma normalized_chars (P : char → Prop) s : P LF → Forall P s → Forall P (normalize_newlines s).
Proof.
  rewrite !List.Forall_forall. intros HL Hs c [->|[Hc _]]%normalize_newlines_in; [done|by apply Hs].
Qed.

Lemma text_digest_normalized s bytes :
  utf8_encode s = Some bytes → is_Some (text_digest (normalize_newlines s)).
Proof.
  intros He. unfold text_digest. apply fmap_is_Some, utf8_encode_is_Some, normalized_chars; [done|].
  apply utf8_encode_is_Some. by rewrite He.
Qed.

Lemma normalize_document_iff path raw oid base doc :
  normalize_document path raw oid base = Ok doc ↔
  py_len raw ≤ MAX_DOCUMENT_BYTES ∧ bytes_prefix LFS_POINTER raw = false
  ∧ ∃ s, accepted_text raw s
      ∧ doc = mkPolicyDocument path Doc_present (Some oid) (Some (sha256_hex raw))
                (text_digest (normalize_newlines s)) (Some (normalize_newlines s))
                (Some (py_len raw)) (Some (document_line_count (normalize_newlines s))).
Proof.
  unfold normalize_document, accepted_text. destruct (Z.ltb_spec MAX_DOCUMENT_BYTES (py_len raw)).
  { split; [done|]. intros [? _]. lia. }
  destruct (bytes_prefix LFS_POINTER raw); [split; [done|by intros (_ & ? & _)]|].
  destruct (utf8_strict (remove_bom raw)) as [s|] eqn:Eu; cycle 1.
  { split; [done|]. intros (_ & _ & s & (He & Hc & _) & _).
    by rewrite (proj2 (utf8_strict_iff _ _) (conj He Hc)) in Eu. }
  pose proof (proj1 (utf8_strict_iff _ _) Eu) as [He Hc]. cbv zeta.
  destruct (text_control 1 (split_on LF (normalize_newlines s))) as [[l k]|] eqn:Et.
  - split; [done|]. intros (_ & _ & s' & (He' & Hc' & Hp) & _).
    rewrite (proj2 (utf8_strict_iff _ _) (conj He' Hc')) in Eu. injection Eu as ->.
    by rewrite (proj2 (text_control_printable _)) in Et by by apply normalized_printable.
  - apply text_control_printable, normalized_printable in Et. split.
    + intros [= <-]. split; [done|]. split; [done|]. by exists s.
    + intros (_ & _ & s' & (He' & Hc' & Hp) & ->).
      rewrite (proj2 (utf8_strict_iff _ _) (conj He' Hc')) in Eu. by injection Eu as ->.
Qed.

Lemma normalize_document_valid path raw oid base doc :
  normalize_document path raw oid base = Ok doc → valid_document path doc (Some raw).
Proof.
  intros (Hl & _ & s & (He & Hc & Hp) & ->)%normalize_document_iff.
  destruct (text_digest_normalized s _ He) as [h Hh]. rewrite Hh. split.
  - done.
  - done.
  - unfold verify_policy_document, is_missing.
    cbn [pd_presence pd_raw_sha256 pd_text_sha256 pd_text pd_byte_count pd_line_count].
    rewrite (bool_decide_eq_false_2 (Doc_present = Doc_missing)) by done.
    rewrite !(proj2 (ostr_eqb_eq _ _)), !bool_decide_eq_true_2 by done. done.
  - intros text [= <-]. split; [by apply normalized_chars|].
    split; [by apply normalized_printable|]. by intros [?|[_ ?]]%normalize_newlines_in.
  - intros n [= <-]. split; [apply py_len_nonneg|done].
Qed.

(** ** What a load returns *)

Section LoadFacts.
Context (source : PolicyDocumentSource) (base : pystr).

(** What the listings of the revision say of a path: the entry, or that there is none. *)
Fixpoint listed_at (directories : list pystr) (name : pystr) (es : entries)
    (found : option PolicyTreeEntry) : Prop :=
  match directories with
  | [] => assoc name es = found
  | directory :: rest =>
      (assoc directory es = None ∧ found = None)
      ∨ ∃ parent k es', assoc directory es = Some parent ∧ te_kind parent = Kind_directory
          ∧ ps_list_entries source k (Some (te_oid parent)) = Ok es'
          ∧ listed_at rest name es' found
  end.

Definition path_listed (root : entries) (path : pystr) : option PolicyTreeEntry → Prop :=
  listed_at (removelast (split_on SLASH path)) (List.last (split_on SLASH path) []) root.

(** The document of a path: the regular file listed there, read by its id; missing when the
    listings show none. *)
Definition document_of (path : pystr) (d : LoadedPolicyDocument)
    (found : option PolicyTreeEntry) : Prop :=
  valid_document path (ld_document d) (ld_raw d)
  ∧ match found with
    | None => ld_document d = missing_document path ∧ ld_raw d = None
    | Some entry =>
        te_kind entry = Kind_file
        ∧ ∃ k raw, ps_read_blob source k (te_oid entry) = Ok raw ∧ ld_raw d = Some raw
            ∧ normalize_document path raw (te_oid entry) (Some base) = Ok (ld_document d)
    end.

(** A failure of a load: of the source's listing, or one that names the document. *)
Definition load_failure (path : pystr) (e : PolicyError) : Prop :=
  (∃ k oid, ps_list_entries source k (Some oid) = Err e)
  ∨ pe_source_path (pe_args e) = Some path
  ∨ ∃ k oid, ps_read_blob source k oid = Err e ∧ is_Some (pe_source_path (pe_args e)).

Lemma normalize_document_error path raw oid b e :
  normalize_document path raw oid b = Err e → pe_source_path (pe_args e) = Some path.
Proof. unfold normalize_document. intros. repeat case_match; by simplify_eq. Qed.

Lemma load_entry_sound path name es n n' o :
  load_entry source base path name es n = (n', o) →
  match o with
  | Ok d => ∃ found, assoc name es = found ∧ document_of path d found
  | Err e => load_failure path e
  end.
Proof.
  unfold load_entry, read_blob. destruct (assoc name es) as [entry|] eqn:Ea; cycle 1.
  { intros [= <- <-]. exists None. split; [done|]. split; [apply missing_valid|done]. }
  case_bool_decide as Hk; cbn [negb]; [|intros [= <- <-]; right; by left].
  destruct (MAX_DOCUMENT_BYTES <? _); [intros [= <- <-]; right; by left|].
  destruct (ps_read_blob source n (te_oid entry)) as [raw|e] eqn:Er; cycle 1.
  { intros [= <- <-]. unfold locate. destruct (pe_source_path (pe_args e)) eqn:Ep.
    - right. right. exists n, (te_oid entry). by rewrite Ep.
    - right. by left. }
  destruct (normalize_document path raw (te_oid entry) (Some base)) as [doc|e] eqn:En.
  - intros [= <- <-]. exists (Some entry). split; [done|].
    split; [by eapply normalize_document_valid|]. split; [done|]. by exists n, raw.
  - intros [= <- <-]. right. left. by eapply normalize_document_error.
Qed.

Lemma load_path_sound path name directories es n n' o :
  load_path source base path directories name es n = (n', o) →
  match o with
  | Ok d => ∃ found, listed_at directories name es found ∧ document_of path d found
  | Err e => load_failure path e
  end.
Proof.
  revert es n. induction directories as [|directory rest IH]; intros es n; cbn [load_path listed_at].
  { apply load_entry_sound. }
  destruct (assoc directory es) as [parent|] eqn:Ea; cycle 1.
  { intros [= <- <-]. exists None. split; [by left|]. split; [apply missing_valid|done]. }
  case_bool_decide as Hk; cbn [negb]; [|intros [= <- <-]; right; by left].
  unfold list_entries, mbind, stateT_bind.
  destruct (ps_list_entries source n (Some (te_oid parent))) as [es'|e] eqn:El; cycle 1.
  { intros [= <- <-]. left. by exists n, (te_oid parent). }
  intros Hl. apply IH in Hl. destruct o; [|done]. destruct Hl as (found & Hf & Hd).
  exists found. split; [|done]. right. by exists parent, n, es'.
Qed.

(** C34.  Reading both policy documents: what is returned is typed.  Each document has its own
    path, either all of its content fields or none, at most 65536 bytes, a text of code points
    without carriage returns and control characters, and checksums, sizes and line counts that
    verify against the bytes; it is the regular file the listings of the revision show at the
    path, read by its id, or missing exactly when they show nothing there.  A failure comes from a
    listing or names its document. *)
Theorem policy_documents_typed n n' o :
  load_documents source base n = (n', o) →
  match o with
  | Ok (rules, agents) =>
      ∃ root rules_entry agents_entry,
        ps_list_entries source n None = Ok root
        ∧ path_listed root RULES_DOCUMENT_PATH rules_entry
        ∧ document_of RULES_DOCUMENT_PATH rules rules_entry
        ∧ path_listed root AGENTS_DOCUMENT_PATH agents_entry
        ∧ document_of AGENTS_DOCUMENT_PATH agents agents_entry
  | Err e =>
      ps_list_entries source n None = Err e
      ∨ load_failure RULES_DOCUMENT_PATH e ∨ load_failure AGENTS_DOCUMENT_PATH e
  end.
Proof.
  unfold load_documents, list_entries, mbind, stateT_bind, mret, stateT_ret.
  destruct (ps_list_entries source n None) as [root|e] eqn:Er; [|intros [= <- <-]; by left].
  unfold load_from. destruct (load_path source base RULES_DOCUMENT_PATH _ _ root (S n))
    as [n1 [rules|e]] eqn:E1; apply load_path_sound in E1;
    [|intros [= <- <-]; right; by left].
  destruct (load_path source base AGENTS_DOCUMENT_PATH _ _ root n1)
    as [n2 [agents|e]] eqn:E2; apply load_path_sound in E2;
    [|intros [= <- <-]; right; by right].
  intros [= <- <-]. destruct E1 as (f1 & Hf1 & Hd1), E2 as (f2 & Hf2 & Hd2). by exists root, f1, f2.
Qed.
End LoadFacts.

(** A revision with an [AGENTS.md] of Windows lines and no rules directory. *)
Definition sample_source : PolicyDocumentSource :=
  mkPolicyDocumentSource
    (λ _ _, Ok [(u8 "AGENTS.md", mkPolicyTreeEntry Kind_file (u8 "b1") None)])
    (λ _ _, Ok (BOM ++ string_bytes "Be" ++ [13; 10]%N ++ string_bytes "kind")).

Definition sample_loaded : LoadedPolicyDocument * LoadedPolicyDocument :=
  (mkLoadedPolicyDocument (missing_document RULES_DOCUMENT_PATH) None,
   mkLoadedPolicyDocument
     (mkPolicyDocument AGENTS_DOCUMENT_PATH Doc_present (Some (u8 "b1"))
        (Some (sha256_hex (BOM ++ string_bytes "Be" ++ [13; 10]%N ++ string_bytes "kind")))
        (text_digest (u8 "Be" ++ [LF] ++ u8 "kind")) (Some (u8 "Be" ++ [LF] ++ u8 "kind"))
        (Some 11) (Some 2))
     (Some (BOM ++ string_bytes "Be" ++ [13; 10]%N ++ string_bytes "kind"))).

Lemma policy_documents_typed_witness :
  ∃ root rules_entry agents_entry,
    ps_list_entries sample_source 0 None = Ok root
    ∧ path_listed sample_source root RULES_DOCUMENT_PATH rules_entry
    ∧ document_of sample_source (u8 "c0") RULES_DOCUMENT_PATH (fst sample_loaded) rules_entry
    ∧ path_listed sample_source root AGENTS_DOCUMENT_PATH agents_entry
    ∧ document_of sample_source (u8 "c0") AGENTS_DOCUMENT_PATH (snd sample_loaded) agents_entry.
Proof.
  apply (policy_documents_typed sample_source (u8 "c0") 0%nat 2%nat (Ok sample_loaded)).
  vm_compute. reflexivity.
Defined.
