(* ===== verification/IgnoreMatcher.v ===== *)
(** * The path matcher of the ignore policy ([review_ignore.py], class [IgnoreMatcher])

    The matcher answers which mask of the policy covers a repository path.  It is an object:
    its cache and its two transition counters are the state, which survives an exception.
    [_match_segment] is the backtracking-free wildcard loop on indices and [_match_segments] the
    table over path segments; [wild] and [mask_matches] are the mask language they decide. *)

From Stdlib Require Import String.
From stdpp Require Import numbers gmap.
From S2P Require Import Prelude PyText PrefixTable RunFailures PolicyErrors DiffMap.
#[local] Open Scope Z_scope.

Definition MAX_TRANSITIONS_PER_PATH : Z := 8000000.
Definition MAX_TRANSITIONS_PER_RUN : Z := 80000000.
Definition STARSTAR : pystr := u8 "**".

(** ** State *)

(** The attributes the matcher writes: the answers of earlier calls and the counters. *)
Record MatcherState : Type := mkMatcherState {
  ms_results : gmap pystr (option pystr);
  ms_run_transitions : Z;
  ms_path_transitions : Z
}.

(** The attributes fixed by the constructor: each mask with its segments, and the base. *)
Record Matcher : Type := mkMatcher {
  im_patterns : list (pystr * list pystr);
  im_policy_base_sha : option pystr
}.

Definition new_matcher (patterns : list pystr) (policy_base_sha : option pystr) : Matcher :=
  mkMatcher ((λ p, (p, split_on SLASH p)) <$> patterns) policy_base_sha.
Definition new_state : MatcherState := mkMatcherState ∅ 0 0.

Abbreviation matching := (stateT MatcherState PolicyError).

(** ** Operations *)

Definition budget_error (base : option pystr) (limit actual : Z) : PolicyError :=
  policy_error MATCH_BUDGET_EXCEEDED
    (u8 "The review-ignore policy is too expensive to evaluate")
    (mkPolicyErrorArgs (Some RULES_DOCUMENT_PATH) base None None None (Some limit) (Some actual)
       None None (Some (u8 "transitions")) true None false).

Definition path_error (base : option pystr) : PolicyError :=
  policy_error PATH_INVALID (u8 "A repository path violates the path contract")
    (mkPolicyErrorArgs None base None None None None None None None None false None false).

Definition spend (base : option pystr) : matching unit := λ s,
  let path := ms_path_transitions s + 1 in
  let run := ms_run_transitions s + 1 in
  let s' := mkMatcherState (ms_results s) run path in
  if (MAX_TRANSITIONS_PER_PATH <? path) || (MAX_TRANSITIONS_PER_RUN <? run) then
    let '(limit, actual) :=
      if MAX_TRANSITIONS_PER_PATH <? path then (MAX_TRANSITIONS_PER_PATH, path)
      else (MAX_TRANSITIONS_PER_RUN, run) in
    (s', Err (budget_error base limit actual))
  else (s', Ok tt).

(** The locals of [_match_segment]; [star = None] and [restart = None] are the source's -1. *)
Record SegmentLoop : Type := mkSegmentLoop {
  sl_mask_index : nat;
  sl_name_index : nat;
  sl_star : option (nat * nat);
  sl_state : MatcherState
}.

Definition segment_body (base : option pystr) (mask name : pystr) (l : SegmentLoop)
  : SegmentLoop + (MatcherState * result PolicyError bool) :=
  let mask_index := sl_mask_index l in
  let name_index := sl_name_index l in
  if (name_index <? length name)%nat then
    match spend base (sl_state l) with
    | (s, Err e) => inr (s, Err e)
    | (s, Ok _) =>
        if bool_decide (mask !! mask_index = Some STAR) then
          inl (mkSegmentLoop (mask_index + 1) name_index (Some (mask_index, name_index)) s)
        else if bool_decide (mask !! mask_index = name !! name_index) then
          inl (mkSegmentLoop (mask_index + 1) (name_index + 1) (sl_star l) s)
        else
          match sl_star l with
          | Some (star, restart) =>
              inl (mkSegmentLoop (star + 1) (restart + 1) (Some (star, restart + 1)%nat) s)
          | None => inr (s, Ok false)
          end
    end
  else inr (sl_state l, Ok (py_all (N.eqb STAR) (drop mask_index mask))).

(** More turns than the loop can take: see [segment_measure]. *)
Definition segment_fuel (mask name : pystr) : nat :=
  fuel_for (((py_len mask + 1) * (py_len name + 2) + py_len name + 1) * (py_len mask + 2)
            + py_len mask).

(** The loop; [None] stands for a loop that did not end within its fuel. *)
Definition match_segment_run (base : option pystr) (mask name : pystr) (s : MatcherState)
  : option (MatcherState * result PolicyError bool) :=
  match iterate (segment_body base mask name) (segment_fuel mask name)
          (mkSegmentLoop 0 0 None s) with
  | inr r => Some r
  | inl _ => None
  end.

Definition match_segment (base : option pystr) (mask name : pystr) : matching bool := λ s,
  default (s, Ok false) (match_segment_run base mask name s).

(** A [**] spends one transition per table entry and carries [seen] along. *)
Fixpoint stars_entries (base : option pystr) (seen : bool) (reachable : list bool)
  : matching (list bool) :=
  match reachable with
  | [] => mret []
  | r :: reachable' =>
      _ ← spend base;
      rest ← stars_entries base (seen || r) reachable';
      mret ((seen || r) :: rest)
  end.

(** A plain segment is matched only at the reachable entries. *)
Fixpoint segment_entries (base : option pystr) (segment : pystr) (path : list pystr)
    (reachable : list bool) : matching (list bool) :=
  match path, reachable with
  | name :: path', r :: reachable' =>
      b ← (if r then match_segment base segment name else mret false);
      rest ← segment_entries base segment path' reachable';
      mret (b :: rest)
  | _, _ => mret []
  end.

Definition following (base : option pystr) (segment : pystr) (path : list pystr)
    (reachable : list bool) : matching (list bool) :=
  if segment =?s STARSTAR then stars_entries base false reachable
  else (entries ← segment_entries base segment path reachable; mret (false :: entries)).

Fixpoint match_segments_from (base : option pystr) (mask path : list pystr)
    (reachable : list bool) : matching bool :=
  match mask with
  | [] => mret (default false (reachable !! length path))
  | segment :: mask' =>
      reachable' ← following base segment path reachable;
      if py_any id reachable' then match_segments_from base mask' path reachable'
      else mret false
  end.

Definition match_segments (base : option pystr) (mask path : list pystr) : matching bool :=
  match_segments_from base mask path (table_start path).

Fixpoint first_match (base : option pystr) (patterns : list (pystr * list pystr))
    (segments : list pystr) : matching (option pystr) :=
  match patterns with
  | [] => mret None
  | (pattern, mask) :: patterns' =>
      b ← match_segments base mask segments;
      if (b : bool) then mret (Some pattern) else first_match base patterns' segments
  end.

Definition remember (path : pystr) (matched : option pystr) : matching unit := λ s,
  (mkMatcherState (<[path := matched]> (ms_results s)) (ms_run_transitions s)
     (ms_path_transitions s), Ok tt).

Definition reset_path : matching unit := λ s,
  (mkMatcherState (ms_results s) (ms_run_transitions s) 0, Ok tt).

(** A path not seen before. *)
Definition match_new_path (m : Matcher) (path : pystr) : matching (option pystr) :=
  _ ← reset_path;
  matched ← first_match (im_policy_base_sha m) (im_patterns m) (split_on SLASH path);
  _ ← remember path matched;
  mret matched.

Definition match_path (m : Matcher) (path : pystr) : matching (option pystr) := λ s,
  match ms_results s !! path with
  | Some known => (s, Ok known)
  | None =>
      if negb (is_supported_path path) then (s, Err (path_error (im_policy_base_sha m)))
      else match_new_path m path s
  end.

(** ** The mask language *)

(** One segment: [*] is any run of characters, every other character stands for itself. *)
Definition wild_tk (c : char) : tk char :=
  if (c =? STAR)%N then Many (λ _, true) else One (λ d, (d =? c)%N).
Definition wild (mask name : pystr) : Prop := words (wild_tk <$> mask) name.
Arguments wild _ _ : simpl never.

(** A whole mask: [**] is any run of segments, another segment is matched by [wild]. *)
Inductive mask_matches : list pystr → list pystr → Prop :=
| mm_nil : mask_matches [] []
| mm_stars skipped mask path :
    mask_matches mask path → mask_matches (STARSTAR :: mask) (skipped ++ path)
| mm_segment segment name mask path :
    segment ≠ STARSTAR → wild segment name → mask_matches mask path →
    mask_matches (segment :: mask) (name :: path).

Definition covers (pattern path : pystr) : Prop :=
  mask_matches (split_on SLASH pattern) (split_on SLASH path).

(** ** Laws of the mask language *)

Lemma wild_nil name : wild [] name ↔ name = [].
Proof. done. Qed.

Lemma wild_star mask name : wild (STAR :: mask) name ↔ ∃ w v, name = w ++ v ∧ wild mask v.
Proof.
  unfold wild. cbn. split.
  - intros (u & v & -> & _ & Hv). by exists u, v.
  - intros (u & v & -> & Hv). exists u, v. repeat split; [|done]. by apply list.Forall_forall.
Qed.

Lemma wild_char c mask name :
  c ≠ STAR → wild (c :: mask) name ↔ ∃ name', name = c :: name' ∧ wild mask name'.
Proof.
  intros Hc. unfold wild. cbn. unfold wild_tk at 1. rewrite (proj2 (N.eqb_neq c STAR) Hc). cbn.
  split.
  - intros (u & v & -> & (a & -> & Ha) & Hv). apply N.eqb_eq in Ha as ->. by exists v.
  - intros (v & -> & Hv). exists [c], v. repeat split; [|done]. exists c. by rewrite N.eqb_refl.
Qed.

Lemma wild_lits lit mask name :
  STAR ∉ lit → wild (lit ++ mask) name ↔ ∃ name', name = lit ++ name' ∧ wild mask name'.
Proof.
  revert name. induction lit as [|c lit IH]; intros name Hl.
  - split; [|by intros (? & -> & ?)]. intros H. by exists name.
  - apply not_elem_of_cons in Hl as [Hc Hl]. cbn [app]. rewrite wild_char by congruence. split.
    + intros (n1 & -> & H). apply IH in H as (n2 & -> & H); [|done]. by exists n2.
    + intros (n2 & -> & H). exists (lit ++ n2). split; [done|]. apply IH; [done|]. by exists n2.
Qed.

Lemma wild_star_cons mask x name :
  wild (STAR :: mask) (x :: name) ↔ wild mask (x :: name) ∨ wild (STAR :: mask) name.
Proof.
  rewrite !wild_star. split.
  - intros ([|y w] & v & E & Hv); cbn in E; simplify_eq; [by left|]. right. by exists w, v.
  - intros [H|(w & v & -> & Hv)]; [by exists [], (x :: name)|]. by exists (x :: w), v.
Qed.

Lemma wild_star_prefix mask w name : wild (STAR :: mask) name → wild (STAR :: mask) (w ++ name).
Proof.
  rewrite !wild_star. intros (u & v & -> & Hv). exists (w ++ u), v. by rewrite app_assoc.
Qed.

Lemma wild_empty mask : wild mask [] ↔ py_all (N.eqb STAR) mask = true.
Proof.
  unfold py_all. induction mask as [|c mask IH]; cbn [forallb]; [done|].
  rewrite andb_true_iff, N.eqb_eq. destruct (decide (c = STAR)) as [->|Hc].
  - rewrite wild_star, <- IH. split.
    + intros (w & v & E & Hv). symmetry in E. by apply app_eq_nil in E as [-> ->].
    + intros [_ H]. by exists [], [].
  - rewrite wild_char by done. split; [by intros (? & [=] & _)|]. by intros [<- _].
Qed.

(** After a star and the literals it already matched, a second star takes over. *)
Lemma wild_star_star lit mask name :
  STAR ∉ lit → wild (STAR :: lit ++ STAR :: mask) (lit ++ name) ↔ wild (STAR :: mask) name.
Proof.
  intros Hl. rewrite wild_star. split.
  - intros (w & v & E & Hv). apply wild_lits in Hv as (u & -> & Hu); [|done].
    rewrite app_assoc in E.
    apply (f_equal (drop (length lit))) in E.
    rewrite drop_app_length, drop_app_le in E by (rewrite length_app; lia).
    rewrite E. by apply wild_star_prefix.
  - intros H. exists [], (lit ++ name). split; [done|]. apply wild_lits; [done|]. by exists name.
Qed.

(** A mismatch after the literals moves the star one character on. *)
Lemma wild_star_retry lit mask x name :
  STAR ∉ lit → head mask ≠ Some STAR → head mask ≠ Some x →
  wild (STAR :: lit ++ mask) (lit ++ x :: name)
  ↔ wild (STAR :: lit ++ mask) (drop 1 (lit ++ x :: name)).
Proof.
  intros Hl Hs Hx.
  assert (Hno : ¬ wild (lit ++ mask) (lit ++ x :: name)).
  { intros H. apply wild_lits in H as (n & E & H); [|done]. apply app_inv_head in E as <-.
    destruct mask as [|c mask]; [by apply wild_nil in H|].
    apply wild_char in H as (n & E & _); [|by intros ->]. by simplify_eq. }
  destruct (lit ++ x :: name) as [|y n] eqn:E; [by destruct lit|].
  rewrite wild_star_cons. cbn. rewrite drop_0. tauto.
Qed.

Lemma wild_star_end lit mask :
  STAR ∉ lit → wild (STAR :: lit ++ mask) lit ↔ py_all (N.eqb STAR) mask = true.
Proof.
  intros Hl. rewrite wild_star, <- wild_empty. split.
  - intros (w & v & E & Hv). apply wild_lits in Hv as (u & -> & Hu); [|done].
    assert (Hlen : length lit = (length w + (length lit + length u))%nat)
      by (rewrite <- !length_app; by rewrite <- E).
    assert (u = []) as -> by (destruct u; [done|cbn in Hlen; lia]). done.
  - intros H. exists [], lit. split; [done|]. apply wild_lits; [done|].
    exists []. by rewrite app_nil_r.
Qed.

Lemma wild_mismatch mask x name :
  head mask ≠ Some STAR → head mask ≠ Some x → ¬ wild mask (x :: name).
Proof.
  intros Hs Hx H. destruct mask as [|c mask]; [by apply wild_nil in H|].
  apply wild_char in H as (n & E & _); [|by intros ->]. by simplify_eq.
Qed.

(** ** The budget *)

Definition in_budget (s : MatcherState) : Prop :=
  0 ≤ ms_path_transitions s ≤ MAX_TRANSITIONS_PER_PATH
  ∧ 0 ≤ ms_run_transitions s ≤ MAX_TRANSITIONS_PER_RUN.

(** From [s] to [s'] the two counters grew alike and the cache did not change. *)
Definition charged (s s' : MatcherState) : Prop :=
  ms_results s' = ms_results s
  ∧ ms_path_transitions s' - ms_path_transitions s
    = ms_run_transitions s' - ms_run_transitions s
  ∧ ms_run_transitions s ≤ ms_run_transitions s'.

(** A budget failure: one counter is one past its limit and is the one reported. *)
Definition over_budget (base : option pystr) (s : MatcherState) (e : PolicyError) : Prop :=
  (ms_path_transitions s = MAX_TRANSITIONS_PER_PATH + 1
   ∧ e = budget_error base MAX_TRANSITIONS_PER_PATH (MAX_TRANSITIONS_PER_PATH + 1))
  ∨ (ms_path_transitions s ≤ MAX_TRANSITIONS_PER_PATH
     ∧ ms_run_transitions s = MAX_TRANSITIONS_PER_RUN + 1
     ∧ e = budget_error base MAX_TRANSITIONS_PER_RUN (MAX_TRANSITIONS_PER_RUN + 1)).

(** The outcome of a computation started within the budget: a value that satisfies [Q], or the
    budget failure. *)
Definition outcome {A} (base : option pystr) (Q : A → Prop) (s : MatcherState)
    (o : MatcherState * result PolicyError A) : Prop :=
  charged s (fst o)
  ∧ match snd o with
    | Ok a => in_budget (fst o) ∧ Q a
    | Err e => over_budget base (fst o) e
    end.

Definition triple {A} (base : option pystr) (m : matching A) (Q : A → Prop) : Prop :=
  ∀ s, in_budget s → outcome base Q s (m s).

Lemma charged_refl s : charged s s.
Proof. unfold charged. repeat split; lia. Qed.
Lemma charged_trans s1 s2 s3 : charged s1 s2 → charged s2 s3 → charged s1 s3.
Proof. unfold charged. intros (-> & ? & ?) (-> & ? & ?). repeat split; lia. Qed.
#[local] Hint Resolve charged_refl charged_trans : dmc.

Lemma triple_ret {A} base (a : A) (Q : A → Prop) : Q a → triple base (mret a) Q.
Proof. intros HQ s Hs. split; cbn; auto with dmc. Qed.

Lemma triple_bind {A B} base (m : matching A) (f : A → matching B) (Q : A → Prop) R :
  triple base m Q → (∀ a, Q a → triple base (f a) R) → triple base (m ≫= f) R.
Proof.
  intros Hm Hf s Hs. specialize (Hm s Hs). unfold mbind, stateT_bind, outcome in *.
  destruct (m s) as [s1 [a|e]]; cbn in *; [|done].
  destruct Hm as (Hc & Hb & HQ). specialize (Hf a HQ s1 Hb). unfold outcome in Hf.
  destruct (f a s1) as [s2 r]; cbn in *. destruct Hf as [Hc2 Hr]. split; [eauto with dmc|done].
Qed.

Lemma triple_mono {A} base (m : matching A) (Q R : A → Prop) :
  triple base m Q → (∀ a, Q a → R a) → triple base m R.
Proof.
  intros Hm HQ s Hs. destruct (Hm s Hs) as [Hc Hr]. split; [done|].
  destruct (snd (m s)); naive_solver.
Qed.

Lemma spend_triple base : triple base (spend base) (λ _, True).
Proof.
  intros s [Hp Hr]. unfold outcome, spend, over_budget, in_budget, charged in *. cbv zeta.
  destruct (_ || _) eqn:E; cbn.
  - destruct (MAX_TRANSITIONS_PER_PATH <? ms_path_transitions s + 1) eqn:E1; cbn; to_prop.
    + split; [repeat split; lia|]. left.
      assert (Hx : ms_path_transitions s + 1 = MAX_TRANSITIONS_PER_PATH + 1) by lia. by rewrite Hx.
    + split; [repeat split; lia|]. right. destruct E as [E|E]; [lia|].
      assert (Hx : ms_run_transitions s + 1 = MAX_TRANSITIONS_PER_RUN + 1) by lia. by rewrite Hx.
  - to_prop. repeat split; lia.
Qed.

(** ** The loop over one segment *)

Section Segment.
Context (base : option pystr) (mask name : pystr) (s0 : MatcherState).

(** What the locals mean: without a star the rest of the mask must match the rest of the name;
    with a star at [star] the literals after it match the name from [restart] to here, and the
    whole question is the one from the star on. *)
Definition aligned (l : SegmentLoop) : Prop :=
  match sl_star l with
  | None => wild mask name ↔ wild (drop (sl_mask_index l) mask) (drop (sl_name_index l) name)
  | Some (star, restart) =>
      ∃ lit, (STAR ∉ lit)
        ∧ sl_mask_index l = (star + 1 + length lit)%nat
        ∧ sl_name_index l = (restart + length lit)%nat
        ∧ drop star mask = STAR :: lit ++ drop (sl_mask_index l) mask
        ∧ drop restart name = lit ++ drop (sl_name_index l) name
        ∧ (wild mask name ↔ wild (drop star mask) (drop restart name))
  end.

Definition segment_inv (l : SegmentLoop) : Prop :=
  (sl_mask_index l ≤ length mask)%nat ∧ (sl_name_index l ≤ length name)%nat
  ∧ in_budget (sl_state l) ∧ charged s0 (sl_state l) ∧ aligned l.

(** It decreases at every turn: the star moves on, or its restart, or the mask index. *)
Definition segment_measure (l : SegmentLoop) : Z :=
  let '(star, restart) :=
    match sl_star l with
    | Some (star, restart) => (Z.of_nat star, Z.of_nat restart)
    | None => (-1, -1)
    end in
  ((py_len mask - star) * (py_len name + 2) + (py_len name - restart)) * (py_len mask + 2)
  + (py_len mask - Z.of_nat (sl_mask_index l)).

Lemma head_drop (i : nat) (l : pystr) : head (drop i l) = l !! i.
Proof. revert i. by induction l as [|x l IH]; intros [|i]; cbn. Qed.

Lemma segment_star_step l s :
  segment_inv l → in_budget s → charged s0 s → (sl_name_index l < length name)%nat →
  mask !! sl_mask_index l = Some STAR →
  let l' := mkSegmentLoop (sl_mask_index l + 1) (sl_name_index l)
              (Some (sl_mask_index l, sl_name_index l)) s in
  segment_inv l' ∧ 0 ≤ segment_measure l' < segment_measure l.
Proof.
  unfold segment_inv at 2. intros (Hm & Hn & _ & _ & Ha) Hb Hc Hlt Hstar. cbv zeta.
  pose proof (lookup_lt_Some _ _ _ Hstar) as Hmlt.
  pose proof (drop_S _ _ _ Hstar) as Hd. rewrite <- Nat.add_1_r in Hd.
  split.
  - split_and!; cbn; try done; try lia. exists []. cbn.
    rewrite Nat.add_0_r. split_and!; try done; try lia; [set_solver|].
    unfold aligned in Ha. destruct (sl_star l) as [[star restart]|]; [|by rewrite Ha].
    destruct Ha as (lit & Hl & H1 & H2 & H3 & H4 & H5).
    by rewrite H5, H3, H4, Hd, wild_star_star by done.
  - unfold segment_measure. unfold py_len, aligned in *. destruct l as [mi ni st ls]; cbn in *.
    destruct st as [[star restart]|].
    + destruct Ha as (lit & _ & H1 & H2 & _). nia.
    + nia.
Qed.

Lemma segment_char_step l s c :
  segment_inv l → in_budget s → charged s0 s →
  mask !! sl_mask_index l = Some c → name !! sl_name_index l = Some c → c ≠ STAR →
  let l' := mkSegmentLoop (sl_mask_index l + 1) (sl_name_index l + 1) (sl_star l) s in
  segment_inv l' ∧ 0 ≤ segment_measure l' < segment_measure l.
Proof.
  unfold segment_inv at 2. intros (Hm & Hn & _ & _ & Ha) Hb Hc Hmc Hnc Hstar. cbv zeta.
  pose proof (lookup_lt_Some _ _ _ Hmc) as Hmlt. pose proof (lookup_lt_Some _ _ _ Hnc) as Hnlt.
  pose proof (drop_S _ _ _ Hmc) as Hdm. pose proof (drop_S _ _ _ Hnc) as Hdn.
  rewrite <- Nat.add_1_r in Hdm, Hdn.
  destruct l as [mi ni st ls]; cbn in *. split.
  - split_and!; cbn; try done; try lia. unfold aligned in *; cbn in *.
    destruct st as [[star restart]|].
    + destruct Ha as (lit & Hl & H1 & H2 & H3 & H4 & H5). exists (lit ++ [c]).
      rewrite length_app, <- !app_assoc. cbn. rewrite <- Hdm, <- Hdn.
      split_and!; try done; try lia. set_solver.
    + rewrite Ha, Hdm, Hdn. rewrite wild_char by done. naive_solver.
  - unfold segment_measure, aligned, py_len in *. cbn in *. destruct st as [[star restart]|].
    + destruct Ha as (lit & _ & H1 & H2 & _). nia.
    + nia.
Qed.

Lemma segment_retry_step l s star restart :
  segment_inv l → in_budget s → charged s0 s → (sl_name_index l < length name)%nat →
  sl_star l = Some (star, restart) →
  mask !! sl_mask_index l ≠ Some STAR → mask !! sl_mask_index l ≠ name !! sl_name_index l →
  let l' := mkSegmentLoop (star + 1) (restart + 1) (Some (star, restart + 1)%nat) s in
  segment_inv l' ∧ 0 ≤ segment_measure l' < segment_measure l.
Proof.
  unfold segment_inv at 2. intros (Hm & Hn & _ & _ & Ha) Hb Hc Hlt Hst Hs Hne. cbv zeta.
  destruct (lookup_lt_is_Some_2 _ _ Hlt) as [x Hx].
  pose proof (drop_S _ _ _ Hx) as Hdn.
  destruct l as [mi ni st ls]; cbn in *. subst st. unfold aligned in Ha; cbn in Ha.
  destruct Ha as (lit & Hl & -> & -> & H3 & H4 & H5). split.
  - split_and!; cbn; try done; try lia.
    exists []. cbn. rewrite ?Nat.add_0_r.
    assert (Hd1 : drop (star + 1) mask = lit ++ drop (star + 1 + length lit) mask).
    { rewrite <- drop_drop. by rewrite H3. }
    split_and!; try done; try lia; [set_solver|by rewrite Hd1|].
    rewrite H5, H3, H4, Hdn, wild_star_retry by (rewrite ?head_drop; congruence).
    by rewrite <- Hdn, <- H4, drop_drop, <- H3.
  - unfold segment_measure, py_len. cbn. nia.
Qed.

Lemma segment_step l l' :
  segment_inv l → segment_body base mask name l = inl l' →
  segment_inv l' ∧ 0 ≤ segment_measure l' < segment_measure l.
Proof.
  intros Hinv. pose proof Hinv as (_ & _ & Hb & Hc & _). unfold segment_body. cbv zeta.
  destruct (sl_name_index l <? length name)%nat eqn:Hlt; [|done]. to_prop.
  pose proof (spend_triple base (sl_state l) Hb) as [Hc' Hr].
  destruct (spend base (sl_state l)) as [s [u|e]]; [|done]. cbn in Hc', Hr.
  destruct Hr as [Hb' _]. assert (Hc0 : charged s0 s) by eauto with dmc.
  destruct (bool_decide (mask !! _ = Some STAR)) eqn:E1; to_prop.
  { intros [= <-]. by apply segment_star_step. }
  destruct (bool_decide (mask !! _ = name !! _)) eqn:E2; to_prop.
  - intros [= <-]. destruct (lookup_lt_is_Some_2 _ _ Hlt) as [c Hn].
    apply (segment_char_step l s c); congruence.
  - destruct (sl_star l) as [[star restart]|] eqn:E3; [|done]. intros [= <-].
    by apply (segment_retry_step l).
Qed.

Lemma segment_end l r :
  segment_inv l → segment_body base mask name l = inr r →
  outcome base (λ b, b = true ↔ wild mask name) s0 r.
Proof.
  intros (Hm & Hn & Hb & Hc & Ha). unfold segment_body. cbv zeta.
  destruct (sl_name_index l <? length name)%nat eqn:Hlt; to_prop.
  - pose proof (spend_triple base (sl_state l) Hb) as [Hc' Hr].
    destruct (spend base (sl_state l)) as [s [u|e]]; cbn in Hc', Hr.
    2:{ intros [= <-]. split; [eauto with dmc|done]. }
    destruct (bool_decide (mask !! _ = Some STAR)) eqn:E1; [done|].
    destruct (bool_decide (mask !! _ = name !! _)) eqn:E2; [done|]. to_prop.
    unfold aligned in Ha. destruct (sl_star l) as [[star restart]|]; [done|].
    intros [= <-]. split; [eauto with dmc|]. cbn. split; [tauto|]. split; [done|].
    destruct (lookup_lt_is_Some_2 _ _ Hlt) as [c Hc2].
    rewrite Ha, (drop_S _ _ _ Hc2). intros H.
    apply wild_mismatch in H; [done|by rewrite head_drop|rewrite head_drop; congruence].
  - intros [= <-]. split; [done|]. cbn. split; [done|].
    assert (Hd : drop (sl_name_index l) name = []) by (apply drop_ge; lia).
    unfold aligned in Ha. destruct (sl_star l) as [[star restart]|].
    + destruct Ha as (lit & Hl & _ & _ & H3 & H4 & H5).
      rewrite H5, H3, H4, Hd, app_nil_r. by rewrite wild_star_end.
    + by rewrite Ha, Hd, wild_empty.
Qed.

(** The loop ends within its fuel, whatever the mask and the name. *)
Lemma match_segment_ends :
  in_budget s0 → ∃ r, match_segment_run base mask name s0 = Some r
    ∧ outcome base (λ b, b = true ↔ wild mask name) s0 r.
Proof.
  intros Hb. set (l0 := mkSegmentLoop 0 0 None s0).
  assert (Hinv : segment_inv l0).
  { unfold segment_inv. split_and!; cbn; auto with dmc; try lia. }
  assert (Hmu : 0 ≤ segment_measure l0
                ∧ segment_measure l0 < 2 ^ Z.of_nat (segment_fuel mask name)).
  { assert (E : segment_measure l0
        = ((py_len mask + 1) * (py_len name + 2) + py_len name + 1) * (py_len mask + 2)
          + py_len mask) by (unfold segment_measure; cbn; lia).
    pose proof (py_len_nonneg mask). pose proof (py_len_nonneg name).
    assert (0 ≤ segment_measure l0) by (rewrite E; nia).
    split; [done|]. unfold segment_fuel. rewrite <- E. by apply fuel_for_enough. }
  destruct (iterate_total (segment_body base mask name) segment_inv segment_measure
              (segment_fuel mask name) l0 segment_step Hinv Hmu) as (r & Hr & He).
  exists r. unfold match_segment_run. fold l0. rewrite Hr. split; [done|].
  eapply (ends_ind_inv _ segment_inv); [|by apply segment_end|done|done].
  intros. by eapply segment_step.
Qed.
End Segment.

Lemma match_segment_triple base mask name :
  triple base (match_segment base mask name) (λ b, b = true ↔ wild mask name).
Proof.
  intros s Hs. unfold match_segment.
  by destruct (match_segment_ends base mask name s Hs) as (r & -> & Hr).
Qed.

(** ** The table over the segments of a path *)

(** [wild] is decidable, by the table of prefixes. *)
Definition wildb (mask name : pystr) : bool := decide_words (wild_tk <$> mask) name.

Lemma wildb_iff mask name : wildb mask name = true ↔ wild mask name.
Proof. apply decide_words_iff. Qed.

Definition seg_tk (segment : pystr) : tk pystr :=
  if segment =?s STARSTAR then Many (λ _, true) else One (wildb segment).

Lemma mask_matches_words mask path : mask_matches mask path ↔ words (seg_tk <$> mask) path.
Proof.
  split.
  - induction 1 as [|skipped mask path _ IH|segment name mask path Hs Hw _ IH]; cbn; [done|..].
    + exists skipped, path. repeat split; [|done]. by apply list.Forall_forall.
    + exists [name], path. repeat split; [|done]. unfold seg_tk.
      rewrite (proj2 (str_eqb_neq _ _) Hs). exists name. by rewrite wildb_iff.
  - revert path. induction mask as [|segment mask IH]; cbn; [intros ? ->; constructor|].
    intros path (u & v & -> & Hu & Hv). apply IH in Hv. unfold seg_tk in Hu.
    destruct (segment =?s STARSTAR) eqn:E; to_prop.
    + subst. by constructor.
    + destruct Hu as (a & -> & Ha). apply mm_segment; [done| |done]. by apply wildb_iff.
Qed.

Lemma stars_entries_triple base : ∀ rs seen (path : list pystr), length rs = length path →
  triple base (stars_entries base seen rs) (λ out, out = star_pass (λ _, true) seen path rs).
Proof.
  induction rs as [|r rs IH]; intros seen [|x path] Hl; try done; cbn; [by apply triple_ret|].
  eapply triple_bind; [apply spend_triple|]. intros _ _.
  eapply triple_bind; [by apply (IH (seen || r) path); cbn in Hl; lia|]. intros out ->.
  apply triple_ret. by rewrite andb_true_r, (orb_comm r).
Qed.

Lemma segment_entries_triple base segment path : ∀ rs,
  triple base (segment_entries base segment path rs) (λ out, out = one_pass (wildb segment) path rs).
Proof.
  induction path as [|name path IH]; intros [|r rs]; try (by apply triple_ret). cbn.
  eapply (triple_bind _ _ _ (λ b, b = r && wildb segment name)).
  - destruct r; [|by apply triple_ret].
    eapply triple_mono; [apply match_segment_triple|]. intros b Hb. cbn.
    apply eq_true_iff_eq. by rewrite wildb_iff.
  - intros b ->. eapply triple_bind; [apply IH|]. intros out ->. by apply triple_ret.
Qed.

Lemma following_triple base segment path rs :
  length rs = S (length path) →
  triple base (following base segment path rs)
    (λ out, out = table_step path (seg_tk segment) rs).
Proof.
  intros Hl. unfold following, seg_tk. destruct (segment =?s STARSTAR).
  - destruct rs as [|r rs]; [done|]. cbn [stars_entries table_step].
    eapply triple_bind; [apply spend_triple|]. intros _ _.
    eapply triple_bind; [apply (stars_entries_triple base rs (false || r) path); cbn in Hl; lia|].
    intros out ->. by apply triple_ret.
  - eapply triple_bind; [apply segment_entries_triple|]. intros out ->. by apply triple_ret.
Qed.

Lemma match_segments_from_triple base path mask : ∀ P rs, tab P [] path rs →
  triple base (match_segments_from base mask path rs)
    (λ b, b = true ↔ accepts P (seg_tk <$> mask) path).
Proof.
  induction mask as [|segment mask IH]; intros P rs Htab; cbn [match_segments_from].
  - apply triple_ret. cbn. rewrite accepts_nil. pose proof (tab_last _ _ _ _ Htab) as Hlast.
    rewrite last_lookup, (tab_length _ _ _ _ Htab) in Hlast. exact Hlast.
  - pose proof (table_step_tab P (seg_tk segment) path rs Htab) as Hstep.
    eapply triple_bind; [apply following_triple, (tab_length _ _ _ _ Htab)|]. intros out ->.
    cbn [fmap list_fmap]. destruct (py_any id _) eqn:Hany.
    + eapply triple_mono; [by apply IH|]. intros b Hb. by rewrite Hb, accepts_cons.
    + apply triple_ret. split; [done|]. rewrite <- accepts_cons.
      intros H. by destruct (tab_dead _ _ _ _ Hstep Hany H).
Qed.

Lemma match_segments_triple base mask path :
  triple base (match_segments base mask path) (λ b, b = true ↔ mask_matches mask path).
Proof.
  eapply triple_mono; [apply match_segments_from_triple, tab_start|].
  intros b Hb. by rewrite Hb, accepts_start, mask_matches_words.
Qed.

(** ** The answer for a path *)

(** [first_cover patterns path r]: [r] is the first of [patterns] that covers [path], if any. *)
Definition first_cover (patterns : list pystr) (path : pystr) (r : option pystr) : Prop :=
  match r with
  | Some p => ∃ before behind, patterns = before ++ p :: behind ∧ covers p path
                ∧ Forall (λ q, ¬ covers q path) before
  | None => Forall (λ q, ¬ covers q path) patterns
  end.

Lemma first_cover_unique patterns path r r' :
  first_cover patterns path r → first_cover patterns path r' → r = r'.
Proof.
  revert r r'. induction patterns as [|q ps IH]; intros r r' H1 H2.
  - destruct r as [p|]; [by destruct H1 as ([] & ? & [=] & _)|].
    by destruct r' as [p|]; [destruct H2 as ([] & ? & [=] & _)|].
  - assert (D : ∀ r, first_cover (q :: ps) path r →
              (r = Some q ∧ covers q path) ∨ (¬ covers q path ∧ first_cover ps path r)).
    { intros [p|].
      - intros ([|b before] & behind & E & Hp & Hb); cbn in E; simplify_eq; [by left|].
        inv Hb. right. split; [done|]. by exists before, behind.
      - intros H. inv H. by right. }
    destruct (D _ H1) as [[-> ?]|[? ?]], (D _ H2) as [[-> ?]|[? ?]]; try done. by apply IH.
Qed.

Lemma first_match_triple base patterns path :
  triple base
    (first_match base ((λ p, (p, split_on SLASH p)) <$> patterns) (split_on SLASH path))
    (first_cover patterns path).
Proof.
  induction patterns as [|p ps IH]; cbn; [apply triple_ret; constructor|].
  eapply triple_bind; [apply match_segments_triple|]. intros b Hb. destruct b.
  - apply triple_ret. exists [], ps. repeat split; [|constructor]. by apply Hb.
  - assert (Hp : ¬ covers p path) by (intros H; apply Hb in H; done).
    eapply triple_mono; [apply IH|]. intros [q|]; cbn.
    + intros (before & behind & -> & Hq & Hbe). exists (p :: before), behind.
      repeat split; [done|]. by constructor.
    + by constructor.
Qed.

(** The cache holds right answers, for canonical paths only, and the counters are in range. *)
Record matcher_inv (patterns : list pystr) (s : MatcherState) : Prop := {
  mi_budget : in_budget s;
  mi_cache : ∀ path r, ms_results s !! path = Some r →
    first_cover patterns path r ∧ is_supported_path path = true
}.

(** What one call of [match] promises. *)
Definition match_answer (patterns : list pystr) (base : option pystr) (path : pystr)
    (s s' : MatcherState) (r : result PolicyError (option pystr)) : Prop :=
  match r with
  | Ok a => matcher_inv patterns s' ∧ first_cover patterns path a
            ∧ is_supported_path path = true ∧ ms_results s' = <[path := a]> (ms_results s)
  | Err e => ms_results s' = ms_results s ∧ ms_results s !! path = None
             ∧ ((is_supported_path path = false ∧ s' = s ∧ e = path_error base)
                ∨ (is_supported_path path = true ∧ over_budget base s' e))
  end.

Lemma match_new_path_eq patterns base path s :
  match_new_path (new_matcher patterns base) path s
  = match first_match base ((λ p, (p, split_on SLASH p)) <$> patterns) (split_on SLASH path)
            (mkMatcherState (ms_results s) (ms_run_transitions s) 0) with
    | (s', Ok a) => (mkMatcherState (<[path := a]> (ms_results s')) (ms_run_transitions s')
                       (ms_path_transitions s'), Ok a)
    | (s', Err e) => (s', Err e)
    end.
Proof.
  unfold match_new_path, mbind, stateT_bind, reset_path, remember. cbn.
  by destruct (first_match _ _ _ _) as [s' [a|e]].
Qed.

Lemma match_path_answer patterns base path s :
  matcher_inv patterns s →
  match_answer patterns base path s (fst (match_path (new_matcher patterns base) path s))
    (snd (match_path (new_matcher patterns base) path s)).
Proof.
  intros [Hb Hcache]. unfold match_path. destruct (ms_results s !! path) as [a|] eqn:Hp.
  { cbn. destruct (Hcache path a Hp). split_and!; try done. by rewrite insert_id. }
  destruct (is_supported_path path) eqn:Hsup; cbn [negb].
  2:{ cbn. split_and!; try done. by left. }
  rewrite match_new_path_eq.
  set (s1 := mkMatcherState (ms_results s) (ms_run_transitions s) 0).
  assert (Hb1 : in_budget s1) by (destruct Hb; unfold in_budget; cbn; split; [done|lia]).
  pose proof (first_match_triple base patterns path s1 Hb1) as [Hc Hr].
  destruct (first_match base _ (split_on SLASH path) s1) as [s2 [a|e]]; cbn in *.
  - destruct Hr as [Hb2 Ha]. destruct Hc as [Hres _]. cbn in Hres. rewrite Hres.
    split; [|done]. split; [done|]. cbn. intros q r Hq.
    destruct (decide (q = path)) as [->|Hne].
    + rewrite lookup_insert_eq in Hq. by simplify_eq.
    + rewrite lookup_insert_ne in Hq by done. by apply Hcache.
  - destruct Hc as [Hres _]. cbn in Hres. split_and!; try done. by right.
Qed.

(** ** Properties *)

(** C4.  [IgnoreMatcher.match] answers with the first mask of the policy that covers the whole
    path in the mask language ([*] inside a segment, [**] for whole segments), or none when no
    mask does.  It fails only for a path outside the path contract, or when a transition counter
    is one past its limit, with the crossed limit in the failure; a failure leaves the cache
    alone.  The state it starts from and every state it returns after an answer has right cached
    answers and counters within their limits, so this holds of every sequence of calls. *)
Theorem match_path_correct patterns base path s :
  matcher_inv patterns new_state
  ∧ (matcher_inv patterns s →
     let '(s', r) := match_path (new_matcher patterns base) path s in
     match_answer patterns base path s s' r).
Proof.
  split.
  - split; [unfold in_budget; cbn; split; split; discriminate|]. cbn. intros q r Hq.
    by rewrite lookup_empty in Hq.
  - intros Hinv. pose proof (match_path_answer patterns base path s Hinv) as H.
    by destruct (match_path _ path s).
Qed.

Definition sample_masks : list pystr := [u8 "docs/**"; u8 "**/*.min.js"].

Lemma match_path_correct_witness :
  snd (match_path (new_matcher sample_masks None) (u8 "web/app.min.js") new_state)
    = Ok (Some (u8 "**/*.min.js"))
  ∧ first_cover sample_masks (u8 "web/app.min.js") (Some (u8 "**/*.min.js")).
Proof.
  pose proof (proj2 (match_path_correct sample_masks None (u8 "web/app.min.js") new_state)
                (proj1 (match_path_correct sample_masks None [] new_state))) as H.
  assert (E : snd (match_path (new_matcher sample_masks None) (u8 "web/app.min.js") new_state)
              = Ok (Some (u8 "**/*.min.js"))) by (vm_compute; reflexivity).
  destruct (match_path _ _ new_state) as [s' r]; cbn in E; subst r. split; [reflexivity|].
  exact (proj1 (proj2 H)).
Defined.

(** The wildcard loop of one segment ends on every mask and name, within [segment_fuel]
    turns: with the budget not crossed it answers whether the name is in the language of the
    mask, otherwise it raises the budget failure; both counters grow by the same number of
    transitions. *)
Theorem match_segment_decides base mask name s :
  in_budget s → ∃ s' r, match_segment_run base mask name s = Some (s', r) ∧ charged s s'
  ∧ match r with
    | Ok b => in_budget s' ∧ (b = true ↔ wild mask name)
    | Err e => over_budget base s' e
    end.
Proof.
  intros Hs. destruct (match_segment_ends base mask name s Hs) as ([s' r] & H & Hc & Hr).
  by exists s', r.
Qed.

Lemma match_segment_decides_witness :
  in_budget new_state ∧ wild (u8 "a*b*c") (u8 "axxbyybzc").
Proof.
  assert (Hb : in_budget new_state) by (unfold in_budget; cbn; split; split; discriminate).
  split; [exact Hb|].
  destruct (match_segment_decides None (u8 "a*b*c") (u8 "axxbyybzc") new_state Hb)
    as (s' & r & H & _ & Hr).
  assert (E : snd <$> match_segment_run None (u8 "a*b*c") (u8 "axxbyybzc") new_state
              = Some (Ok true)) by (vm_compute; reflexivity).
  rewrite H in E. injection E as ->. apply Hr. reflexivity.
Defined.
