(* ===== verification/ReviewIgnore.v ===== *)
(** * The ignore policy of a run ([review_ignore.py])

    The [review-ignore] block of the rules document: its masks, their grammar and limits, the
    digest of the policy, its recovery from a stored snapshot, and the decisions it takes on a
    diff map.  The Markdown parser ([markdown-it]) is a parameter: a function from the text to
    its block tokens. *)

From Stdlib Require Import String.
From stdpp Require Import numbers gmap.
From S2P Require Import Prelude PyText PyHash PolicyErrors DiffMap DiffAnchor IgnoreMatcher.
#[local] Open Scope Z_scope.

Definition MATCHER_VERSION : pystr := u8 "review-ignore/v1".
Definition LIMITS_VERSION : pystr := u8 "policy-limits/v1".
Definition BUILTIN_EXCLUSIONS_VERSION : pystr := u8 "builtin-exclusions/v1".
Definition MAX_PATTERN_LINES : Z := 256.
Definition MAX_PATTERN_BYTES : Z := 256.
Definition MAX_PATTERN_SEGMENTS : Z := 32.
Definition INFO : pystr := u8 "review-ignore".
Definition FORBIDDEN_LITERALS : pystr := u8 "\!?[]{}".
Definition TAB : char := 9%N.
Definition SPACE : char := 32%N.

Record IgnorePatternLine : Type := mkIgnorePatternLine { ipl_pattern : pystr; ipl_line : Z }.
Record IgnorePolicy : Type := mkIgnorePolicy {
  ip_patterns : list pystr;
  ip_source_lines : list IgnorePatternLine;
  ip_digest : pystr
}.
Record IgnoreDecision : Type := mkIgnoreDecision {
  id_file_id : pystr;
  id_matched_pattern : pystr;
  id_matched_path : pystr
}.
Record IgnoreResult : Type := mkIgnoreResult {
  ir_decisions : list IgnoreDecision;
  ir_denied_paths : gset pystr
}.

Definition decision_for (r : IgnoreResult) (file_id : pystr) : option IgnoreDecision :=
  find_first (λ d, id_file_id d =?s file_id) (ir_decisions r).

(** ** The digest *)

Definition ignore_payload (patterns : list pystr) (matcher_version builtin_version limits_version : pystr)
  : json :=
  JObj [(u8 "version", JInt 1);
        (u8 "matcher_version", JStr matcher_version);
        (u8 "builtin_exclusions_version", JStr builtin_version);
        (u8 "sorted_unique_patterns", JList (JStr <$> patterns));
        (u8 "rename_copy_propagation", JStr (u8 "both-paths/v1"));
        (u8 "policy_document_exemption", JStr (u8 "base-policy-role-only/v1"));
        (u8 "limits_version", JStr limits_version)].

Definition ignore_digest (patterns : list pystr)
    (matcher_version builtin_version limits_version : pystr) : pystr :=
  json_digest (ignore_payload patterns matcher_version builtin_version limits_version).

(** [sorted({item.pattern for item in lines})]: code point order, each mask once. *)
Definition policy_patterns (lines : list IgnorePatternLine) : list pystr :=
  py_sorted str_leb (remove_dups (ipl_pattern <$> lines)).

Definition policy (lines : list IgnorePatternLine) : IgnorePolicy :=
  let patterns := policy_patterns lines in
  mkIgnorePolicy patterns lines
    (ignore_digest patterns MATCHER_VERSION BUILTIN_EXCLUSIONS_VERSION LIMITS_VERSION).

(** ** The grammar of a mask *)

Definition is_ascii_letter (c : char) : bool :=
  ((65 <=? c) && (c <=? 90) || (97 <=? c) && (c <=? 122))%N.

Definition drive_prefix (segment : pystr) : bool :=
  match segment with
  | c :: d :: _ => is_ascii_letter c && (d =? 58)%N
  | _ => false
  end.

Definition bad_mask_space (c : char) : bool := is_Cc c || (is_Z c && negb (c =? SPACE)%N).

Fixpoint invalid_chars (position : Z) (segment : pystr) : option (Z * pystr) :=
  match segment with
  | [] => None
  | c :: rest =>
      if (c =? STAR)%N && bool_decide (head rest = Some STAR)
      then Some (position, u8 "'**' is allowed only as a whole segment")
      else if char_mem c FORBIDDEN_LITERALS
      then Some (position, u8 "the character is reserved in a mask")
      else if bad_mask_space c
      then Some (position, u8 "control and non-space whitespace characters are not allowed")
      else invalid_chars (position + 1) rest
  end.

Fixpoint invalid_segments (first : bool) (column : Z) (segments : list pystr)
  : option (Z * pystr) :=
  match segments with
  | [] => None
  | segment :: rest =>
      if segment =?s [] then Some (column, u8 "empty path segment")
      else if (segment =?s u8 ".") || (segment =?s u8 "..")
      then Some (column, u8 "'.' and '..' segments are not allowed")
      else if first && drive_prefix segment
      then Some (column, u8 "a drive prefix is not allowed")
      else match (if segment =?s STARSTAR then None else invalid_chars column segment) with
           | Some e => Some e
           | None => invalid_segments false (column + py_len segment + 1) rest
           end
  end.

Definition invalid_pattern (pattern : pystr) : option (Z * pystr) :=
  invalid_segments true 1 (split_on SLASH pattern).

(** ** Reading the rules document *)

(** The fields of a Markdown token the reader uses. *)
Record MdToken : Type := mkMdToken {
  tok_type : pystr;
  tok_map : option (nat * nat);
  tok_info : pystr;
  tok_level : Z;
  tok_markup : pystr;
  tok_content : pystr
}.

(** What the reader raises: a policy failure; an [IndexError] for a token that points past the
    text; a [UnicodeEncodeError] for a mask with a lone surrogate. *)
Inductive IgnoreError : Type :=
| IE_policy (e : PolicyError)
| IE_index
| IE_encode.

Definition is_blank (c : char) : bool := (c =? SPACE)%N || (c =? TAB)%N.

Fixpoint take_run (c : char) (s : pystr) : pystr * pystr :=
  match s with
  | d :: s' => if (d =? c)%N then let '(run, rest) := take_run c s' in (d :: run, rest) else ([], s)
  | [] => ([], [])
  end.

(** [ {0,3}(`{3,}|~{3,})[ \t]*] on the whole line, with its group. *)
Definition closing_fence (line : pystr) : option pystr :=
  let '(spaces, rest) := take_run SPACE line in
  let fence c := let '(run, tail) := take_run c rest in
    if (3 <=? length run)%nat && py_all is_blank tail then Some run else None in
  if (length spaces <=? 3)%nat then
    match fence 96%N with Some run => Some run | None => fence 126%N end
  else None.

Section Parse.
Context (markdown_parse : pystr → list MdToken) (policy_base_sha : option pystr).

Definition rules_error (c : PolicyErrorCode) (message : pystr) (line column index limit actual : option Z)
    (excerpt : option pystr) : IgnoreError :=
  IE_policy (policy_error c message
    (mkPolicyErrorArgs (Some RULES_DOCUMENT_PATH) policy_base_sha line column index limit actual
       excerpt None None false None false)).

Definition block_error (c : PolicyErrorCode) (message : pystr) (line : Z) : IgnoreError :=
  rules_error c message (Some line) None None None None None.

(** One token of the scan for the block; [block] is the one found so far. *)
Definition scan_token (source : list pystr) (block : option MdToken) (t : MdToken)
  : result IgnoreError (option MdToken) :=
  match tok_map t with
  | None => Ok block
  | Some (first, last) =>
      if negb (tok_type t =?s u8 "fence") then Ok block
      else
        let info := strip_with is_blank (tok_info t) in
        let opening_line := Z.of_nat first + 1 in
        if negb (info =?s INFO) then
          if startswith info (INFO ++ [SPACE]) || startswith info (INFO ++ [TAB])
          then Err (block_error IGNORE_INFO_INVALID
                      (u8 "review-ignore does not take additional parameters") opening_line)
          else Ok block
        else if negb (tok_level t =? 0) then
          Err (block_error IGNORE_BLOCK_NESTED
                 (u8 "The review-ignore block must be at the top level of the document") opening_line)
        else match block with
        | Some _ => Err (block_error IGNORE_BLOCK_DUPLICATE
                           (u8 "Only one review-ignore block is allowed") opening_line)
        | None =>
            closing ← (if (first <? last - 1)%nat
                       then match source !! (last - 1)%nat with Some l => Ok l | None => Err IE_index end
                       else Ok []);
            let unclosed := block_error IGNORE_BLOCK_UNCLOSED
                              (u8 "The review-ignore block has no closing fence") opening_line in
            match closing_fence closing with
            | Some run => if startswith run (tok_markup t) then Ok (Some t) else Err unclosed
            | None => Err unclosed
            end
        end
  end.

Fixpoint scan_tokens (source : list pystr) (block : option MdToken) (ts : list MdToken)
  : result IgnoreError (option MdToken) :=
  match ts with
  | [] => Ok block
  | t :: ts' => block' ← scan_token source block t; scan_tokens source block' ts'
  end.

(** The non-empty lines of the block, with their line numbers in the document. *)
Fixpoint pattern_lines (line : Z) (raws : list pystr) : list IgnorePatternLine :=
  match raws with
  | [] => []
  | raw :: raws' =>
      let pattern := strip_with is_blank raw in
      if pattern =?s [] then pattern_lines (line + 1) raws'
      else mkIgnorePatternLine pattern line :: pattern_lines (line + 1) raws'
  end.

Fixpoint check_lines (index : Z) (lines : list IgnorePatternLine) : result IgnoreError unit :=
  match lines with
  | [] => Ok tt
  | item :: lines' =>
      match utf8_encode (ipl_pattern item) with
      | None => Err IE_encode
      | Some encoded =>
          let size := py_len encoded in
          let segments := Z.of_N (count_char SLASH (ipl_pattern item)) + 1 in
          if (MAX_PATTERN_BYTES <? size) || (MAX_PATTERN_SEGMENTS <? segments) then
            let too_long := MAX_PATTERN_BYTES <? size in
            Err (rules_error IGNORE_LIMIT_EXCEEDED (u8 "A review-ignore mask is too long")
                   (Some (ipl_line item)) None (Some index)
                   (Some (if too_long then MAX_PATTERN_BYTES else MAX_PATTERN_SEGMENTS))
                   (Some (if too_long then size else segments)) (Some (ipl_pattern item)))
          else match invalid_pattern (ipl_pattern item) with
               | Some (column, reason) =>
                   Err (rules_error IGNORE_PATTERN_INVALID
                          (u8 "Invalid review-ignore mask: " ++ reason)
                          (Some (ipl_line item)) (Some column) (Some index) None None
                          (Some (ipl_pattern item)))
               | None => check_lines (index + 1) lines'
               end
      end
  end.

Definition block_lines (first : nat) (content : pystr) : list IgnorePatternLine :=
  pattern_lines (Z.of_nat first + 2) (split_on LF content).

Definition parse_review_ignore (rules_text : option pystr) : result IgnoreError IgnorePolicy :=
  let text := default [] rules_text in
  if text =?s [] then Ok (policy [])
  else
    block ← scan_tokens (split_on LF text) None (markdown_parse text);
    match block with
    | None => Ok (policy [])
    | Some t =>
        match tok_map t with
        | None => Ok (policy [])
        | Some (first, _) =>
            let lines := block_lines first (tok_content t) in
            if MAX_PATTERN_LINES <? py_len lines then
              Err (rules_error IGNORE_LIMIT_EXCEEDED
                     (u8 "The review-ignore block has more than 256 masks")
                     (Some (Z.of_nat first + 1)) None None (Some MAX_PATTERN_LINES)
                     (Some (py_len lines)) None)
            else (_ ← check_lines 0 lines; Ok (policy lines))
        end
    end.
End Parse.

(** ** The policy of a stored snapshot *)

(** Re-parse the staged rules for the source lines of the masks; any drift keeps the stored masks
    without lines.  The warning of that branch is not part of the value. *)
Definition snapshot_ignore_policy (markdown_parse : pystr → list MdToken)
    (rules_text : option pystr) (policy_base_sha : pystr) (patterns : list pystr)
    (digest matcher_version builtin_version limits_version : pystr)
  : result IgnoreError IgnorePolicy :=
  let stored := mkIgnorePolicy patterns [] digest in
  match parse_review_ignore markdown_parse (Some policy_base_sha) rules_text with
  | Err (IE_policy _) => Ok stored
  | Err e => Err e
  | Ok p =>
      if negb (bool_decide (ip_patterns p = patterns)) then Ok stored
      else if negb (ignore_digest (ip_patterns p) matcher_version builtin_version limits_version
                    =?s digest)
      then Ok stored
      else Ok (mkIgnorePolicy patterns (ip_source_lines p) digest)
  end.

(** ** Decisions on a diff map *)

Definition file_names (f : DiffFile) : list pystr :=
  opt_part id (df_old_path f) ++ opt_part id (df_new_path f).

(** The names a decision withholds: the source of a copy stays its own file. *)
Definition withheld_names (f : DiffFile) : list pystr :=
  match df_change_type f, df_new_path f with
  | Change_copied, Some p => [p]
  | _, _ => file_names f
  end.

(** The first of the names that a mask covers, with the mask. *)
Fixpoint match_names (m : Matcher) (names : list pystr) : matching (option (pystr * pystr)) :=
  match names with
  | [] => mret None
  | path :: names' =>
      pattern ← match_path m path;
      match pattern with
      | Some p => mret (Some (p, path))
      | None => match_names m names'
      end
  end.

Fixpoint ignore_files (m : Matcher) (builtin_excluded : pystr → bool) (files : list DiffFile)
    (acc : IgnoreResult) : matching IgnoreResult :=
  match files with
  | [] => mret acc
  | f :: files' =>
      let names := file_names f in
      let withheld := list_to_set (withheld_names f) in
      let denied := if py_any builtin_excluded names
                    then ir_denied_paths acc ∪ withheld else ir_denied_paths acc in
      match df_omission_reason f with
      | Some _ =>
          ignore_files m builtin_excluded files'
            (mkIgnoreResult (ir_decisions acc) (denied ∪ list_to_set names))
      | None =>
          hit ← match_names m (py_unique names);
          ignore_files m builtin_excluded files'
            (match hit with
             | Some (p, path) =>
                 mkIgnoreResult (ir_decisions acc ++ [mkIgnoreDecision (df_file_id f) p path])
                   (denied ∪ withheld)
             | None => mkIgnoreResult (ir_decisions acc) denied
             end)
      end
  end.

Definition apply_ignore (m : Matcher) (diff_map : DiffMap) (builtin_excluded : pystr → bool)
  : matching IgnoreResult :=
  ignore_files m builtin_excluded (dm_files diff_map) (mkIgnoreResult [] ∅).

(** ** What a well-formed mask is *)

Definition char_ok (c : char) : Prop :=
  char_mem c FORBIDDEN_LITERALS = false ∧ bad_mask_space c = false.

Definition no_double_star (segment : pystr) : Prop :=
  ∀ a b, segment ≠ a ++ STAR :: STAR :: b.

Definition segment_ok (segment : pystr) : Prop :=
  segment ≠ [] ∧ segment ≠ u8 "." ∧ segment ≠ u8 ".."
  ∧ (segment = STARSTAR ∨ (no_double_star segment ∧ Forall char_ok segment)).

Definition mask_grammar (pattern : pystr) : Prop :=
  Forall segment_ok (split_on SLASH pattern)
  ∧ ∀ s, head (split_on SLASH pattern) = Some s → drive_prefix s = false.

Lemma invalid_chars_none segment : ∀ position,
  invalid_chars position segment = None ↔ no_double_star segment ∧ Forall char_ok segment.
Proof.
  induction segment as [|c rest IH]; intros position; cbn.
  { split; [|done]. intros _. split; [|constructor]. by intros [|? ?] b. }
  rewrite Forall_cons. unfold char_ok at 1.
  assert (Hd : no_double_star (c :: rest)
               ↔ ¬ (c = STAR ∧ head rest = Some STAR) ∧ no_double_star rest).
  { unfold no_double_star. split.
    - intros H. split.
      + intros [-> Hh]. destruct rest as [|d rest]; [done|]. simplify_eq/=. by apply (H [] rest).
      + intros a b ->. by apply (H (c :: a) b).
    - intros [H1 H2] [|d a] b E; cbn in E; simplify_eq; [|by apply (H2 a b)]. by apply H1. }
  rewrite Hd. destruct ((c =? STAR)%N && bool_decide (head rest = Some STAR)) eqn:E1.
  { to_prop. naive_solver. }
  destruct (char_mem c FORBIDDEN_LITERALS); [naive_solver|].
  destruct (bad_mask_space c); [naive_solver|]. rewrite IH.
  apply andb_false_iff in E1. rewrite N.eqb_neq, bool_decide_eq_false in E1. naive_solver.
Qed.

Lemma invalid_segments_none segments : ∀ first column,
  invalid_segments first column segments = None
  ↔ Forall segment_ok segments
    ∧ ∀ s, first = true → head segments = Some s → drive_prefix s = false.
Proof.
  induction segments as [|s rest IH]; intros first column; cbn; [by split; [|done]|].
  rewrite Forall_cons. unfold segment_ok at 1.
  destruct (s =?s []) eqn:E1; to_prop; [naive_solver|].
  destruct ((s =?s u8 ".") || (s =?s u8 "..")) eqn:E2.
  { to_prop. naive_solver. }
  destruct (first && drive_prefix s) eqn:E3.
  { to_prop. naive_solver congruence. }
  assert (Hs : (if s =?s STARSTAR then None else invalid_chars column s) = None
               ↔ s = STARSTAR ∨ (no_double_star s ∧ Forall char_ok s)).
  { destruct (s =?s STARSTAR) eqn:E4; to_prop; [naive_solver|].
    rewrite invalid_chars_none. naive_solver. }
  destruct (if s =?s STARSTAR then None else invalid_chars column s) as [e|].
  { split; [done|]. intros [[(_ & _ & _ & H) _] _]. by apply Hs in H. }
  rewrite IH. to_prop. destruct Hs as [Hs _]. specialize (Hs eq_refl).
  split; [|naive_solver]. intros [H1 H2]. split; [naive_solver|].
  intros s' -> [= <-]. by destruct E3.
Qed.

Lemma invalid_chars_column segment : ∀ position c r,
  invalid_chars position segment = Some (c, r) → position ≤ c < position + py_len segment.
Proof.
  unfold py_len. induction segment as [|d rest IH]; intros position c r; cbn [invalid_chars length]; [done|].
  repeat case_match; intros; simplify_eq; try lia. apply IH in H2. lia.
Qed.

Lemma invalid_segments_column segments : ∀ first column c r,
  invalid_segments first column segments = Some (c, r) →
  column ≤ c ≤ column + py_len (join [SLASH] segments).
Proof.
  induction segments as [|s rest IH]; intros first column c r; cbn [invalid_segments]; [done|].
  assert (Hl : py_len s + (if bool_decide (rest = []) then 0 else 1 + py_len (join [SLASH] rest))
               = py_len (join [SLASH] (s :: rest))).
  { case_bool_decide as E; [subst; cbn; lia|].
    rewrite join_cons, !py_len_app by done. cbn. unfold py_len. cbn [length]. lia. }
  pose proof (py_len_nonneg s). pose proof (py_len_nonneg (join [SLASH] rest)).
  assert (0 ≤ py_len (join [SLASH] (s :: rest))) by apply py_len_nonneg.
  destruct (s =?s []); [intros; simplify_eq; lia|].
  destruct (_ || _); [intros; simplify_eq; lia|].
  destruct (_ && _); [intros; simplify_eq; lia|].
  destruct (if s =?s STARSTAR then _ else _) as [[c' r']|] eqn:E.
  - intros [= <- <-]. destruct (s =?s STARSTAR); [done|]. apply invalid_chars_column in E.
    destruct (bool_decide (rest = [])); lia.
  - intros H'. destruct rest as [|s2 rest]; [done|]. apply IH in H'.
    rewrite bool_decide_false in Hl by done. lia.
Qed.

(** ** The policy that is read *)

(** A policy the reader may return: its masks in strict code point order, exactly those of the
    block's lines, each within the limits and the grammar. *)
Record policy_wf (p : IgnorePolicy) : Prop := {
  pwf_sorted : Sorted (leP str_leb) (ip_patterns p);
  pwf_unique : NoDup (ip_patterns p);
  pwf_lines : ∀ q, In q (ip_patterns p) ↔ In q (ipl_pattern <$> ip_source_lines p);
  pwf_count : py_len (ip_source_lines p) ≤ MAX_PATTERN_LINES;
  pwf_masks : ∀ q, In q (ip_patterns p) →
    mask_grammar q
    ∧ (∃ bytes, utf8_encode q = Some bytes ∧ py_len bytes ≤ MAX_PATTERN_BYTES)
    ∧ Z.of_N (count_char SLASH q) < MAX_PATTERN_SEGMENTS;
  pwf_digest : ip_digest p
    = ignore_digest (ip_patterns p) MATCHER_VERSION BUILTIN_EXCLUSIONS_VERSION LIMITS_VERSION
}.

Lemma In_policy_patterns lines q : In q (policy_patterns lines) ↔ In q (ipl_pattern <$> lines).
Proof.
  unfold policy_patterns. rewrite In_py_sorted, <- !list_elem_of_In. apply elem_of_remove_dups.
Qed.

Definition line_ok (l : IgnorePatternLine) : Prop :=
  mask_grammar (ipl_pattern l)
  ∧ (∃ bytes, utf8_encode (ipl_pattern l) = Some bytes ∧ py_len bytes ≤ MAX_PATTERN_BYTES)
  ∧ Z.of_N (count_char SLASH (ipl_pattern l)) < MAX_PATTERN_SEGMENTS.

Lemma invalid_pattern_none q : invalid_pattern q = None ↔ mask_grammar q.
Proof.
  unfold invalid_pattern, mask_grammar. rewrite invalid_segments_none. naive_solver.
Qed.

Lemma check_lines_ok base lines : ∀ index,
  check_lines base index lines = Ok tt ↔ Forall line_ok lines.
Proof.
  induction lines as [|item lines IH]; intros index; cbn [check_lines].
  { split; [constructor|done]. }
  rewrite Forall_cons. unfold line_ok at 1.
  destruct (utf8_encode (ipl_pattern item)) as [bytes|] eqn:He; [|naive_solver]. cbv zeta.
  destruct (_ || _) eqn:E.
  { split; [done|]. intros [(_ & (b & [= <-] & Hb) & Hs) _]. to_prop. lia. }
  rewrite <- invalid_pattern_none.
  destruct (invalid_pattern (ipl_pattern item)) as [[c r]|]; [naive_solver|].
  rewrite IH. to_prop. split; [|naive_solver]. intros H. split; [|done].
  split; [done|]. split; [exists bytes; split; [done|lia]|lia].
Qed.

Lemma policy_wf_lines lines :
  py_len lines ≤ MAX_PATTERN_LINES → Forall line_ok lines → policy_wf (policy lines).
Proof.
  intros Hc Hl. constructor; cbn.
  - apply py_sorted_sorted, str_leb_total.
  - unfold policy_patterns. rewrite py_sorted_perm. apply NoDup_remove_dups.
  - apply In_policy_patterns.
  - done.
  - intros q Hq. apply In_policy_patterns, in_map_iff in Hq as (l & <- & Hin).
    rewrite list.Forall_forall in Hl. apply Hl. by apply list_elem_of_In.
  - done.
Qed.

Lemma parse_review_ignore_policy parse base text p :
  parse_review_ignore parse base text = Ok p → policy_wf p.
Proof.
  assert (H0 : policy_wf (policy [])) by (apply policy_wf_lines; [done|constructor]).
  unfold parse_review_ignore. destruct (default [] text =?s []); [by intros [= <-]|].
  intros H. apply bind_ok in H as (block & _ & H).
  destruct block as [t|]; [|by simplify_eq]. destruct (tok_map t) as [[first last]|]; [|by simplify_eq].
  cbv zeta in H. destruct (MAX_PATTERN_LINES <? _) eqn:E; [done|]. to_prop.
  apply bind_ok in H as ([] & Hok & H). simplify_eq.
  apply policy_wf_lines; [done|]. by eapply check_lines_ok.
Qed.

(** ** Decisions *)

Definition mtriple {A} (patterns : list pystr) (base : option pystr) (m : matching A)
    (Q : A → Prop) : Prop :=
  ∀ s, matcher_inv patterns s →
    match snd (m s) with
    | Ok a => matcher_inv patterns (fst (m s)) ∧ Q a
    | Err e => over_budget base (fst (m s)) e
    end.

Section Decisions.
Context (patterns : list pystr) (base : option pystr).
#[local] Abbreviation M := (new_matcher patterns base).

Lemma mtriple_ret {A} (a : A) (Q : A → Prop) : Q a → mtriple patterns base (mret a) Q.
Proof. by intros HQ s Hs. Qed.

Lemma mtriple_bind {A B} (m : matching A) (f : A → matching B) (Q : A → Prop) R :
  mtriple patterns base m Q → (∀ a, Q a → mtriple patterns base (f a) R) →
  mtriple patterns base (m ≫= f) R.
Proof.
  intros Hm Hf s Hs. specialize (Hm s Hs). unfold mbind, stateT_bind.
  destruct (m s) as [s1 [a|e]]; cbn in *; [|done].
  destruct Hm as (Hb & HQ). by apply (Hf a HQ s1 Hb).
Qed.

Lemma match_path_mtriple path :
  is_supported_path path = true →
  mtriple patterns base (match_path M path) (first_cover patterns path).
Proof.
  intros Hp s Hs. pose proof (match_path_answer patterns base path s Hs) as H.
  unfold match_answer in H. destruct (snd (match_path _ path s)); [naive_solver|].
  destruct H as (_ & _ & [(E & _)|(_ & H)]); congruence.
Qed.

(** The first of the names that some mask covers, with the first such mask. *)
Definition first_hit (names : list pystr) (hit : option (pystr * pystr)) : Prop :=
  match hit with
  | Some (p, path) => ∃ before behind, names = before ++ path :: behind
      ∧ Forall (λ n, first_cover patterns n None) before ∧ first_cover patterns path (Some p)
  | None => Forall (λ n, first_cover patterns n None) names
  end.

Lemma match_names_mtriple names :
  Forall (λ n, is_supported_path n = true) names →
  mtriple patterns base (match_names M names) (first_hit names).
Proof.
  induction 1 as [|n names Hn _ IH]; cbn; [apply mtriple_ret; constructor|].
  eapply mtriple_bind; [by apply match_path_mtriple|]. intros [p|] Hp.
  - apply mtriple_ret. by exists [], names.
  - intros s Hs. specialize (IH s Hs). destruct (snd (match_names _ _ s)) as [[[q path]|]|e]; [..|done].
    + destruct IH as (Hi & before & behind & -> & Hb & Hq). split; [done|].
      exists (n :: before), behind. split; [done|]. by split; [constructor|].
    + split; [by apply IH|]. constructor; [done|]. by apply IH.
Qed.

(** The decision a file gets: none when it is withheld as unsupported, else by its names. *)
Definition decides (f : DiffFile) (d : option IgnoreDecision) : Prop :=
  match df_omission_reason f with
  | Some _ => d = None
  | None => ∃ hit, first_hit (py_unique (file_names f)) hit
              ∧ d = (λ h, mkIgnoreDecision (df_file_id f) (fst h) (snd h)) <$> hit
  end.

Definition has_name (f : DiffFile) (path : pystr) : Prop :=
  df_old_path f = Some path ∨ df_new_path f = Some path.

(** A hit withholds every name of the file, but of a copy only the new one. *)
Definition withholds (f : DiffFile) (path : pystr) : Prop :=
  has_name f path
  ∧ (df_change_type f = Change_copied → df_new_path f ≠ None → df_new_path f = Some path).

(** The names a file denies as a source. *)
Definition denies (builtin_excluded : pystr → bool) (f : DiffFile) (d : option IgnoreDecision)
    (path : pystr) : Prop :=
  ((∃ name, has_name f name ∧ builtin_excluded name = true) ∧ withholds f path)
  ∨ (df_omission_reason f ≠ None ∧ has_name f path)
  ∨ (d ≠ None ∧ withholds f path).

Lemma In_file_names f p :
  In p (file_names f) ↔ df_old_path f = Some p ∨ df_new_path f = Some p.
Proof.
  unfold file_names. rewrite in_app_iff.
  destruct (df_old_path f), (df_new_path f); cbn; naive_solver.
Qed.

Lemma elem_of_file_names f p : p ∈ file_names f ↔ has_name f p.
Proof. by rewrite list_elem_of_In, In_file_names. Qed.

Lemma elem_of_withheld_names f p : p ∈ withheld_names f ↔ withholds f p.
Proof.
  unfold withholds, withheld_names.
  destruct (df_change_type f) eqn:E; try (rewrite elem_of_file_names; naive_solver).
  destruct (df_new_path f) as [q|] eqn:E2.
  - unfold has_name. rewrite E2, list_elem_of_singleton. naive_solver.
  - rewrite elem_of_file_names. naive_solver.
Qed.

Lemma builtin_hit builtin_excluded f :
  py_any builtin_excluded (file_names f) = true
  ↔ ∃ name, has_name f name ∧ builtin_excluded name = true.
Proof.
  unfold py_any. rewrite existsb_exists.
  split; intros (n & Hn & Hb); exists n; (split; [|done]); by apply In_file_names.
Qed.

Definition ignore_spec (builtin_excluded : pystr → bool) (files : list DiffFile)
    (acc r : IgnoreResult) : Prop :=
  ∃ ds, Forall2 decides files ds
    ∧ ir_decisions r = ir_decisions acc ++ omap id ds
    ∧ ∀ path, path ∈ ir_denied_paths r
        ↔ path ∈ ir_denied_paths acc
          ∨ ∃ i f d, files !! i = Some f ∧ ds !! i = Some d ∧ denies builtin_excluded f d path.

Lemma ignore_spec_cons builtin_excluded f d files acc acc' r :
  decides f d → ignore_spec builtin_excluded files acc' r →
  ir_decisions acc' = ir_decisions acc ++ option_list d →
  (∀ path, path ∈ ir_denied_paths acc'
     ↔ path ∈ ir_denied_paths acc ∨ denies builtin_excluded f d path) →
  ignore_spec builtin_excluded (f :: files) acc r.
Proof.
  intros Hd (ds & HF & Hdec & Hden) Hacc Hacc2. exists (d :: ds). split; [by constructor|]. split.
  - rewrite Hdec, Hacc, <- app_assoc. by destruct d.
  - intros path. rewrite Hden, Hacc2. split.
    + intros [[H|H]|(i & f' & d' & H1 & H2 & H3)]; [by left| |].
      * right. by exists O, f, d.
      * right. by exists (S i), f', d'.
    + intros [H|([|i] & f' & d' & H1 & H2 & H3)]; [by left; left| |].
      * cbn in H1, H2. simplify_eq. left. by right.
      * right. by exists i, f', d'.
Qed.

Lemma mtriple_mono {A} (m : matching A) (Q R : A → Prop) :
  mtriple patterns base m Q → (∀ a, Q a → R a) → mtriple patterns base m R.
Proof. intros Hm HQ s Hs. specialize (Hm s Hs). destruct (snd (m s)); naive_solver. Qed.

Lemma file_names_supported f :
  diff_file_wf f → Forall (λ n, is_supported_path n = true) (py_unique (file_names f)).
Proof.
  intros Hf. apply list.Forall_forall. intros n Hn.
  apply list_elem_of_In, In_py_unique, In_file_names in Hn as [Hn|Hn];
    [by apply (fwf_old_path f Hf)|by apply (fwf_new_path f Hf)].
Qed.

Lemma ignore_files_mtriple builtin_excluded files : Forall diff_file_wf files → ∀ acc,
  mtriple patterns base (ignore_files M builtin_excluded files acc)
    (ignore_spec builtin_excluded files acc).
Proof.
  induction 1 as [|f files Hf _ IH]; intros acc; cbn [ignore_files].
  { apply mtriple_ret. exists []. split; [constructor|]. split; [by rewrite app_nil_r|].
    intros path. split; [by left|]. intros [H|(i & f & d & H & _)]; [done|]. by rewrite lookup_nil in H. }
  cbv zeta. destruct (df_omission_reason f) as [o|] eqn:Ho.
  - eapply mtriple_mono; [apply IH|]. intros r Hr.
    eapply (ignore_spec_cons _ f None); [by unfold decides; rewrite Ho|done|by rewrite app_nil_r|].
    intros path. unfold denies. rewrite Ho, <- builtin_hit, <- elem_of_file_names, <- elem_of_withheld_names.
    cbn. destruct (py_any builtin_excluded (file_names f)); set_solver.
  - eapply mtriple_bind; [by apply match_names_mtriple, file_names_supported|]. intros hit Hhit.
    eapply mtriple_mono; [apply IH|]. intros r Hr.
    eapply (ignore_spec_cons _ f ((λ h, mkIgnoreDecision (df_file_id f) (fst h) (snd h)) <$> hit));
      [by unfold decides; rewrite Ho; exists hit|done|..].
    + destruct hit as [[p path]|]; cbn; [done|by rewrite app_nil_r].
    + intros path. unfold denies.
      rewrite Ho, <- builtin_hit, <- elem_of_file_names, <- elem_of_withheld_names.
      destruct (py_any builtin_excluded (file_names f)), hit as [[p q]|]; set_solver.
Qed.
End Decisions.

(** ** Properties *)

(** Whatever tokens the Markdown parser gives, a policy that the rules document yields has
    its masks unique and in code point order, exactly those of the lines of the block, at most
    256 lines, each mask at most 256 bytes and 32 segments and in the mask grammar, and the digest
    of those masks; every other document is refused. *)
Theorem parse_review_ignore_wf parse base text p :
  parse_review_ignore parse base text = Ok p → policy_wf p.
Proof. apply parse_review_ignore_policy. Qed.

Definition sample_rules : pystr :=
  join [LF] [u8 "# Rules"; u8 "```review-ignore"; u8 "docs/**"; u8 "*.lock"; u8 "docs/**"; u8 "```"; []].
(** The one fence token of [sample_rules]. *)
Definition sample_tokens (text : pystr) : list MdToken :=
  [mkMdToken (u8 "fence") (Some (1, 6)%nat) (u8 "review-ignore") 0 (u8 "```")
     (join [LF] [u8 "docs/**"; u8 "*.lock"; u8 "docs/**"; []])].
Definition sample_policy : IgnorePolicy :=
  match parse_review_ignore sample_tokens None (Some sample_rules) with
  | Ok p => p
  | Err _ => policy []
  end.

Lemma parse_review_ignore_wf_witness :
  policy_wf sample_policy ∧ ip_patterns sample_policy = [u8 "*.lock"; u8 "docs/**"].
Proof.
  split; [|vm_compute; reflexivity].
  apply (parse_review_ignore_wf sample_tokens None (Some sample_rules)).
  vm_compute. reflexivity.
Defined.

(**  The mask grammar: [_invalid_pattern] accepts a mask exactly when every segment is
    non-empty, not a dot segment, and either [**] or free of double stars, reserved, control and
    odd space characters, and the first has no drive prefix; a rejected mask has its violation at
    a column of the mask or just behind it. *)
Theorem invalid_pattern_correct pattern :
  (invalid_pattern pattern = None ↔ mask_grammar pattern)
  ∧ ∀ c r, invalid_pattern pattern = Some (c, r) → 1 ≤ c ≤ py_len pattern + 1.
Proof.
  split; [apply invalid_pattern_none|]. intros c r H.
  apply invalid_segments_column in H. rewrite join_split in H. lia.
Qed.

Lemma invalid_pattern_correct_witness : 1 ≤ 3 ≤ py_len (u8 "a/?b") + 1.
Proof.
  apply (proj2 (invalid_pattern_correct (u8 "a/?b")) 3 (u8 "the character is reserved in a mask")).
  vm_compute. reflexivity.
Defined.

(** C8.  Applying the policy to a well-formed diff map fails only by the transition budget, and
    otherwise decides each file by the first of its names that a mask covers and the first such
    mask, in file order, one decision at most per file and none for a file withheld by the map.
    The denied names are exactly: the withheld names of a file that a built-in exclusion or a
    decision hits (only the new name of a copy) and every name of a file withheld by the map. *)
Theorem apply_ignore_correct patterns base m builtin_excluded s :
  map_wf m → matcher_inv patterns s →
  let '(s', r) := apply_ignore (new_matcher patterns base) m builtin_excluded s in
  match r with
  | Ok res => matcher_inv patterns s'
      ∧ ∃ ds, Forall2 (decides patterns) (dm_files m) ds
          ∧ ir_decisions res = omap id ds
          ∧ ∀ path, path ∈ ir_denied_paths res
              ↔ ∃ i f d, dm_files m !! i = Some f ∧ ds !! i = Some d
                  ∧ denies builtin_excluded f d path
  | Err e => over_budget base s' e
  end.
Proof.
  intros Hm Hs. unfold apply_ignore.
  pose proof (ignore_files_mtriple patterns base builtin_excluded (dm_files m) Hm
                (mkIgnoreResult [] ∅) s Hs) as H.
  destruct (ignore_files _ _ _ _ s) as [s' [r|e]]; cbn in H; [|done].
  destruct H as (Hi & ds & HF & Hd & Hden). split; [done|]. exists ds.
  split; [done|]. split; [done|]. intros path. rewrite Hden. cbn. set_solver.
Qed.

Lemma sample_matcher_inv : matcher_inv [u8 "**"] new_state.
Proof.
  split; [unfold in_budget; cbn; split; split; discriminate|]. cbn. intros q r Hq.
  by rewrite lookup_empty in Hq.
Qed.

Lemma apply_ignore_correct_witness :
  let '(s', r) := apply_ignore (new_matcher [u8 "**"] None) sample_map (λ _, false) new_state in
  match r with
  | Ok res => matcher_inv [u8 "**"] s'
      ∧ ∃ ds, Forall2 (decides [u8 "**"]) (dm_files sample_map) ds
          ∧ ir_decisions res = omap id ds
          ∧ ∀ path, path ∈ ir_denied_paths res
              ↔ ∃ i f d, dm_files sample_map !! i = Some f ∧ ds !! i = Some d
                  ∧ denies (λ _, false) f d path
  | Err e => over_budget None s' e
  end.
Proof.
  exact (apply_ignore_correct [u8 "**"] None sample_map (λ _, false) new_state
           sample_map_wf sample_matcher_inv).
Defined.

(**  The policy read back from a stored snapshot always has the stored masks and the stored
    digest, whatever its rules text parses to; lines are attached only when the masks that parse
    again are the stored ones and hash, with the stored versions, to the stored digest. *)
Theorem snapshot_ignore_policy_stored parse text base patterns digest mv bv lv p :
  snapshot_ignore_policy parse text base patterns digest mv bv lv = Ok p →
  ip_patterns p = patterns ∧ ip_digest p = digest
  ∧ (ip_source_lines p ≠ [] →
     ignore_digest patterns mv bv lv = digest
     ∧ ∀ q, In q patterns ↔ In q (ipl_pattern <$> ip_source_lines p)).
Proof.
  unfold snapshot_ignore_policy.
  destruct (parse_review_ignore _ _ text) as [p'|[e| |]] eqn:E; [|by intros [= <-]|done|done].
  destruct (bool_decide (ip_patterns p' = patterns)) eqn:E1; cbn [negb]; [|by intros [= <-]].
  destruct (ignore_digest _ _ _ _ =?s digest) eqn:E2; cbn [negb]; intros [= <-]; [|done].
  to_prop. subst. split; [done|]. split; [done|]. intros _. split; [done|].
  apply parse_review_ignore_policy in E. exact (pwf_lines p' E).
Qed.

Lemma snapshot_ignore_policy_stored_witness :
  let digest := ip_digest sample_policy in
  ∃ p, snapshot_ignore_policy sample_tokens (Some sample_rules) (u8 "base")
         (ip_patterns sample_policy) digest MATCHER_VERSION BUILTIN_EXCLUSIONS_VERSION LIMITS_VERSION
       = Ok p ∧ ip_patterns p = ip_patterns sample_policy ∧ ip_digest p = digest.
Proof.
  cbv zeta. exists sample_policy. split; [vm_compute; reflexivity|].
  destruct (snapshot_ignore_policy_stored sample_tokens (Some sample_rules) (u8 "base")
    (ip_patterns sample_policy) (ip_digest sample_policy) MATCHER_VERSION
    BUILTIN_EXCLUSIONS_VERSION LIMITS_VERSION sample_policy) as (H1 & H2 & _);
    [vm_compute; reflexivity|].
  split; [exact H1|exact H2].
Defined.
