(* ===== verification/Verdict.v ===== *)
(** * Verdict, severity counts and findings hash ([verdict.py]) *)

From Stdlib Require Import String.
From stdpp Require Import numbers.
From S2P Require Import Prelude PyText PyHash DiffMap.
#[local] Open Scope Z_scope.

Inductive Severity : Type := Sev_critical | Sev_high | Sev_medium | Sev_low | Sev_info.
#[export] Instance Severity_eq_dec : EqDecision Severity.
Proof. solve_decision. Defined.

Definition Severity_value (s : Severity) : pystr :=
  match s with
  | Sev_critical => u8 "critical"
  | Sev_high => u8 "high"
  | Sev_medium => u8 "medium"
  | Sev_low => u8 "low"
  | Sev_info => u8 "info"
  end.

Inductive Category : Type := Cat_security | Cat_correctness | Cat_performance | Cat_readability.
#[export] Instance Category_eq_dec : EqDecision Category.
Proof. solve_decision. Defined.

Definition Category_value (c : Category) : pystr :=
  match c with
  | Cat_security => u8 "security"
  | Cat_correctness => u8 "correctness"
  | Cat_performance => u8 "performance"
  | Cat_readability => u8 "readability"
  end.

Inductive Verdict : Type := V_blocking | V_attention | V_clean.
#[export] Instance Verdict_eq_dec : EqDecision Verdict.
Proof. solve_decision. Defined.

Inductive SeverityThreshold : Type := Th_all | Th_warning | Th_critical.

Definition SEVERITIES : list Severity := [Sev_critical; Sev_high; Sev_medium; Sev_low; Sev_info].

Definition PUBLISHED_SEVERITIES (t : SeverityThreshold) : list Severity :=
  match t with
  | Th_all => SEVERITIES
  | Th_warning => [Sev_critical; Sev_high; Sev_medium; Sev_low]
  | Th_critical => [Sev_critical; Sev_high]
  end.

Record HashedFinding : Type := mkHashedFinding {
  hf_path : pystr;
  hf_line_start : Z;
  hf_line_end : option Z;
  hf_severity : Severity;
  hf_category : Category;
  hf_title : pystr;
  hf_body : pystr;
  hf_suggestion : option pystr;
  hf_inline : bool
}.

(** The counts, as the function from each severity to its number. *)
Definition severity_counts (severities : list Severity) (s : Severity) : Z :=
  py_len (List.filter (λ x, bool_decide (x = s)) severities).

Definition severity_count_phrase (counts : Severity → Z) : pystr :=
  join (u8 ", ") ((λ s, Severity_value s ++ u8 ": " ++ str_of_Z (counts s)) <$> SEVERITIES).

Definition positive (z : Z) : bool := negb (z =? 0).

Definition verdict (severities : list Severity) : Verdict :=
  let counts := severity_counts severities in
  if positive (counts Sev_critical) || positive (counts Sev_high) then V_blocking
  else if positive (counts Sev_medium) || positive (counts Sev_low) then V_attention
  else V_clean.

Definition coverage_verdict (severities : list Severity) (coverage_status : option pystr)
  : option Verdict :=
  let result := verdict severities in
  if bool_decide (result = V_clean) && negb (ostr_eqb coverage_status (Some (u8 "complete")))
  then None else Some result.

Definition ascii_upper (c : char) : char :=
  if (97 <=? c)%N && (c <=? 122)%N then (c - 32)%N else c.

(** [repository_review_event.upper()]: the stored values are ASCII. *)
Definition review_event (repository_review_event : pystr) (run_verdict : option Verdict) : pystr :=
  if ((ascii_upper <$> repository_review_event) =?s u8 "REQUEST_CHANGES")
     && bool_decide (run_verdict = Some V_blocking)
  then u8 "REQUEST_CHANGES" else u8 "COMMENT".

Definition hashed_json (f : HashedFinding) : json :=
  JObj [(u8 "path", JStr (hf_path f));
        (u8 "line_start", JInt (hf_line_start f));
        (u8 "line_end", JOpt JInt (hf_line_end f));
        (u8 "severity", JStr (Severity_value (hf_severity f)));
        (u8 "category", JStr (Category_value (hf_category f)));
        (u8 "title", JStr (hf_title f));
        (u8 "body", JStr (hf_body f));
        (u8 "suggestion", JOpt JStr (hf_suggestion f));
        (u8 "inline", JBool (hf_inline f))].

Definition hash_key (f : HashedFinding) : pystr := json_dumps true (hashed_json f).
Definition hash_leb (a b : HashedFinding) : bool := str_leb (hash_key a) (hash_key b).

(** [None] when the text has a lone surrogate, which [encode] refuses. *)
Definition findings_hash (findings : list HashedFinding) : option pystr :=
  sha256_text (json_dumps false (JList (hashed_json <$> py_sorted hash_leb findings))).

(** [uuid5]: the first 16 bytes of the SHA-1 of namespace and name, with version and variant. *)
Definition hex_value (c : char) : N := if (c <? 58)%N then (c - 48)%N else (c - 87)%N.
Definition hex_number (s : pystr) : N := fold_left (λ acc c, (acc * 16 + hex_value c)%N) s 0%N.

Definition uuid5 (namespace : UUID) (name : pystr) : option UUID :=
  (λ bytes,
     let v := hex_number (take 32 (sha1_hex (be_bytes 16 namespace ++ bytes))) in
     let v := N.lor (N.land v (N.lxor (N.ones 128) (N.shiftl 15 76))) (N.shiftl 5 76) in
     N.lor (N.land v (N.lxor (N.ones 128) (N.shiftl 3 62))) (N.shiftl 2 62))
  <$> utf8_encode name.

Definition publish_message_id (run_id : UUID) (head_sha hash_ : pystr) : option UUID :=
  uuid5 run_id (head_sha ++ u8 ":" ++ hash_).

Example uuid5_vector : uuid5 5 (u8 "abc:def") = Some 55675818302147415455009826777005560657%N.
Proof. vm_compute. reflexivity. Qed.

(** ** Facts *)

Lemma severity_counts_positive severities s :
  positive (severity_counts severities s) = true ↔ In s severities.
Proof.
  unfold positive, severity_counts. rewrite negb_true_iff, Z.eqb_neq. unfold py_len.
  split.
  - intros H. destruct (List.filter _ severities) as [|x l] eqn:E; [done|].
    assert (Hin : In x (List.filter (λ x, bool_decide (x = s)) severities)) by (rewrite E; by left).
    apply List.filter_In in Hin as [Hin Hx]. by case_bool_decide; subst.
  - intros Hin. assert (Hf : In s (List.filter (λ x, bool_decide (x = s)) severities)).
    { apply List.filter_In. by rewrite bool_decide_true. }
    destruct (List.filter _ severities); [done|]. cbn. lia.
Qed.

(** Sorting by a total preorder whose ties are equal gives one list per multiset. *)
Lemma sorted_perm_eq {A} (leb : A → A → bool) l1 : ∀ l2,
  (∀ a b c, leb a b = true → leb b c = true → leb a c = true) →
  (∀ a b, In a l1 → In b l1 → leb a b = true → leb b a = true → a = b) →
  Sorted (leP leb) l1 → Sorted (leP leb) l2 → Permutation l1 l2 → l1 = l2.
Proof.
  induction l1 as [|a l1 IH]; intros l2 Htr Hanti H1 H2 Hp.
  - by apply Permutation_nil_l in Hp as ->.
  - destruct l2 as [|b l2]; [by apply Permutation_sym, Permutation_nil_l in Hp|].
    apply Sorted_StronglySorted in H1, H2; [|by intros ? ? ?; apply Htr..].
    inversion H1 as [|? ? S1 F1]; inversion H2 as [|? ? S2 F2]; subst.
    assert (a = b) as ->.
    { assert (Ha : In a (b :: l2)) by (eapply Permutation_in; [done|by left]).
      assert (Hb : In b (a :: l1)) by (eapply Permutation_in; [symmetry; done|by left]).
      destruct Ha as [->|Ha]; [done|]. destruct Hb as [->|Hb]; [done|].
      rewrite List.Forall_forall in F1, F2.
      apply Hanti; [by left|by right|by apply F1|by apply F2]. }
    f_equal. apply IH; [done| | | |by eapply Permutation_cons_inv].
    + intros x y Hx Hy. apply Hanti; by right.
    + by apply StronglySorted_Sorted.
    + by apply StronglySorted_Sorted.
Qed.

(** ** Properties *)

(**  The verdict and what is done with it: a run is blocking exactly when some finding is
    critical or high, otherwise attention exactly when some is medium or low; a clean verdict is
    kept only for complete coverage and a risk verdict always; changes are requested only for a
    blocking verdict of an opted-in repository. *)
Theorem coverage_verdict_sound severities status event :
  (coverage_verdict severities status = Some V_blocking
     ↔ In Sev_critical severities ∨ In Sev_high severities)
  ∧ (coverage_verdict severities status = Some V_attention
     ↔ ¬ In Sev_critical severities ∧ ¬ In Sev_high severities
       ∧ (In Sev_medium severities ∨ In Sev_low severities))
  ∧ (coverage_verdict severities status = Some V_clean
     ↔ status = Some (u8 "complete") ∧ ∀ s, In s severities → s = Sev_info)
  ∧ (review_event event (coverage_verdict severities status) = u8 "REQUEST_CHANGES"
     ↔ (ascii_upper <$> event) = u8 "REQUEST_CHANGES"
       ∧ (In Sev_critical severities ∨ In Sev_high severities)).
Proof.
  assert (Hb : coverage_verdict severities status = Some V_blocking
     ↔ In Sev_critical severities ∨ In Sev_high severities).
  { unfold coverage_verdict, verdict. rewrite <- !severity_counts_positive.
    destruct (positive (_ Sev_critical)), (positive (_ Sev_high)), (positive (_ Sev_medium)),
      (positive (_ Sev_low)), (ostr_eqb _ _); cbn; naive_solver. }
  split; [done|]. split; [|split].
  - unfold coverage_verdict, verdict. rewrite <- !severity_counts_positive.
    destruct (positive (_ Sev_critical)), (positive (_ Sev_high)), (positive (_ Sev_medium)),
      (positive (_ Sev_low)), (ostr_eqb _ _); cbn; naive_solver.
  - assert (Hinfo : (∀ s, In s severities → s = Sev_info)
       ↔ ¬ In Sev_critical severities ∧ ¬ In Sev_high severities
         ∧ ¬ In Sev_medium severities ∧ ¬ In Sev_low severities).
    { split; [intros H; repeat split; intros Hi; by apply H in Hi|].
      intros (?&?&?&?) [] Hs; tauto. }
    rewrite Hinfo, <- ostr_eqb_eq, <- !severity_counts_positive.
    unfold coverage_verdict, verdict.
    destruct (positive (_ Sev_critical)), (positive (_ Sev_high)), (positive (_ Sev_medium)),
      (positive (_ Sev_low)), (ostr_eqb _ _); cbn; naive_solver.
  - unfold review_event. rewrite <- Hb.
    destruct ((ascii_upper <$> event) =?s u8 "REQUEST_CHANGES") eqn:E; to_prop; cbn [andb].
    + case_bool_decide; [naive_solver|]. split; [discriminate|naive_solver].
    + split; [discriminate|naive_solver].
Qed.

(**  The findings hash does not depend on the order in which the findings are read: two
    listings of the same findings hash alike, provided findings with the same canonical JSON are
    the same finding. *)
Theorem findings_hash_order l1 l2 :
  Permutation l1 l2 →
  (∀ a b, In a l1 → In b l1 → hash_key a = hash_key b → a = b) →
  findings_hash l1 = findings_hash l2.
Proof.
  intros Hp Hinj. unfold findings_hash. do 4 f_equal.
  apply (sorted_perm_eq hash_leb).
  - intros a b c. apply str_leb_trans.
  - intros a b Ha Hb H1 H2. rewrite In_py_sorted in Ha, Hb.
    apply Hinj; [done..|]. by apply str_leb_antisym.
  - apply py_sorted_sorted. intros. apply str_leb_total.
  - apply py_sorted_sorted. intros. apply str_leb_total.
  - by rewrite !py_sorted_perm.
Qed.

Definition sample_hashed (path : string) (sev : Severity) : HashedFinding :=
  mkHashedFinding (u8 path) 3 None sev Cat_security (u8 "t") (u8 "b") None true.

Lemma findings_hash_order_witness :
  findings_hash [sample_hashed "a" Sev_high; sample_hashed "b" Sev_low]
  = findings_hash [sample_hashed "b" Sev_low; sample_hashed "a" Sev_high].
Proof.
  apply findings_hash_order; [apply Permutation_swap|].
  intros a b [<-|[<-|[]]] [<-|[<-|[]]] H; try reflexivity;
    exfalso; vm_compute in H; discriminate H.
Defined.
