(* ===== verification/RunStore.v ===== *)
(** * The persisted runs and their transactions

    The rows of [runs] and of what a run is joined with ([infrastructure/models.py]), and the
    store operations that change a run: [infrastructure/run_lifecycle_store.py], the T8 and cancel
    parts of [infrastructure/run_repository.py], the cancellations of the provider projections,
    the retirement of a connection and the creation of a run.  Each operation runs under the row
    locks of its transaction, so it is a function of the database; [SELECT .. FOR UPDATE] and
    [UPDATE .. WHERE .. RETURNING] become the lookup and the guarded update they are.  A NULL in a
    comparison makes it false, as in SQL.  [NOTIFY run_updated] appends to [db_events]. *)

From Stdlib Require Import String QArith.
From stdpp Require Import numbers gmap.
From S2P Require Import Prelude PyText DiffMap Verdict RunFailures.
#[local] Open Scope Z_scope.

(** ** Rows *)

Inductive RunState : Type :=
| Queued | Running | Publishing | Succeeded | Failed | Cancelled | Skipped.
#[export] Instance RunState_eq_dec : EqDecision RunState.
Proof. solve_decision. Defined.

Definition TERMINAL_STATES : list RunState := [Succeeded; Failed; Cancelled; Skipped].
Definition terminal (s : RunState) : bool := bool_decide (s ∈ TERMINAL_STATES).
Definition active (s : RunState) : bool := bool_decide (s ∈ [Queued; Running; Publishing]).

Inductive Engine : Type := Engine_fast | Engine_deep.
#[export] Instance Engine_eq_dec : EqDecision Engine.
Proof. solve_decision. Defined.

(** What is fixed when the run is created; only a missing origin can be filled in later. *)
Record Pinned : Type := mkPinned {
  pin_code_change_id : UUID;
  pin_origin : option UUID;
  pin_base_sha : pystr;
  pin_head_sha : pystr;
  pin_engine : Engine
}.

(** The columns of [runs] that the lifecycle reads or writes. *)
Record Run : Type := mkRun {
  run_pinned : Pinned;
  run_state : RunState;
  run_attempt : Z;
  run_available_at : Z;
  run_lease_until : option Z;
  run_worker_id : option pystr;
  run_cancel_requested : bool;
  run_error_code : option pystr;
  run_error_message : option pystr;
  run_started_at : option Z;
  run_finished_at : option Z;
  run_signal_requested_at : option Z;
  run_review_body : option pystr
}.

Definition run_head_sha (r : Run) : pystr := pin_head_sha (run_pinned r).

(** The pull request of a run with its repository, installation and workspace. *)
Record CodeChange : Type := mkCodeChange {
  cc_open : bool;
  cc_head_sha : pystr;
  cc_repository_id : UUID;
  cc_repository_enabled : bool;
  cc_installation_id : UUID;
  cc_installation_deleted : bool;
  cc_installation_available : bool;
  cc_provider : pystr;
  cc_workspace_id : UUID;
  cc_daily_budget_usd : Q;
  cc_spent_today_usd : Q
}.

Record Finding : Type := mkFinding {
  fi_id : UUID;
  fi_hashed : HashedFinding;
  fi_confidence : Q;
  fi_rule_name : option pystr;
  fi_inline : bool;
  fi_drop_reason : option pystr;
  fi_published : bool
}.

Record Comment : Type := mkComment {
  co_finding_id : UUID;
  co_review_id : Z;
  co_comment_id : Z;
  co_findings_hash : pystr
}.

(** [db_bitbucket_active] and [db_gitlab_targets] are the runs for which the queries
    [active_bitbucket_run_origin] and [active_gitlab_target_metadata] find their rows. *)
Record Db : Type := mkDb {
  db_runs : gmap UUID Run;
  db_changes : gmap UUID CodeChange;
  db_findings : gmap UUID (list Finding);
  db_comments : list Comment;
  db_bitbucket_active : gset UUID;
  db_gitlab_targets : gset UUID;
  db_events : list (UUID * RunState)
}.

(** ** Updates *)

Definition set_runs (rs : gmap UUID Run) (d : Db) : Db :=
  mkDb rs (db_changes d) (db_findings d) (db_comments d) (db_bitbucket_active d)
    (db_gitlab_targets d) (db_events d).
Definition set_findings (fs : gmap UUID (list Finding)) (cs : list Comment) (d : Db) : Db :=
  mkDb (db_runs d) (db_changes d) fs cs (db_bitbucket_active d)
    (db_gitlab_targets d) (db_events d).
Definition notify (id : UUID) (s : RunState) (d : Db) : Db :=
  mkDb (db_runs d) (db_changes d) (db_findings d) (db_comments d) (db_bitbucket_active d)
    (db_gitlab_targets d) (db_events d ++ [(id, s)]).

Definition put_run (id : UUID) (r : Run) (d : Db) : Db := set_runs (<[id := r]> (db_runs d)) d.

(** The columns a transition to a final state writes. *)
Definition finish_run (s : RunState) (code message : option pystr) (now : Z) (r : Run) : Run :=
  mkRun (run_pinned r) s (run_attempt r) (run_available_at r) None (run_worker_id r)
    (run_cancel_requested r) code message (run_started_at r) (Some now)
    (run_signal_requested_at r) (run_review_body r).

(** ** Joined reads *)

(** [_joined().where(Run.id == run_id)] *)
Definition joined (d : Db) (id : UUID) : option (Run * CodeChange) :=
  r ← db_runs d !! id;
  c ← db_changes d !! pin_code_change_id (run_pinned r);
  Some (r, c).

(** [run_origin.origin_active]: the installation of the run is still the one of its repository. *)
Definition run_origin_active (r : Run) (c : CodeChange) : bool :=
  bool_decide (pin_origin (run_pinned r) = Some (cc_installation_id c))
  && negb (cc_installation_deleted c) && cc_installation_available c.

(** [run_lifecycle_store._origin_active]: that, and for Bitbucket the connection behind it. *)
Definition origin_active (d : Db) (id : UUID) (r : Run) (c : CodeChange) : bool :=
  if run_origin_active r c then
    if cc_provider c =?s u8 "bitbucket" then bool_decide (id ∈ db_bitbucket_active d) else true
  else false.

Definition pr_cancellation (r : Run) (c : CodeChange) : option pystr :=
  cancellation_reason (cc_open c) (run_head_sha r =?s cc_head_sha c) (run_cancel_requested r).

(** [SqlAlchemyRunLifecycleStore.cancellation_reason] *)
Definition store_cancellation_reason (d : Db) (id : UUID) : option pystr :=
  match joined d id with
  | None => None
  | Some (r, c) =>
      if negb (origin_active d id r c) then Some (u8 "installation_unavailable")
      else pr_cancellation r c
  end.

Definition published_findings (d : Db) (id : UUID) : list Finding :=
  List.filter (λ f, bool_decide (fi_drop_reason f = None)) (default [] (db_findings d !! id)).

(** ** The worker's transitions *)

Definition claim (id : UUID) (worker : pystr) (now lease : Z) (d : Db) : Db * result unit Z :=
  match db_runs d !! id with
  | Some r =>
      if bool_decide (run_state r = Queued) then
        let r' := mkRun (run_pinned r) Running (run_attempt r + 1) (run_available_at r)
                    (Some lease) (Some worker) (run_cancel_requested r) None None
                    (Some (default now (run_started_at r))) (run_finished_at r)
                    (run_signal_requested_at r) (run_review_body r) in
        (notify id Running (put_run id r' d), Ok (run_attempt r'))
      else (d, Err tt)
  | None => (d, Err tt)
  end.

Definition before (t : option Z) (now : Z) : bool :=
  match t with Some x => x <? now | None => false end.

Definition owned (from_state : RunState) (worker : option pystr) (now : Z) (r : Run) : bool :=
  bool_decide (run_state r = from_state)
  && match worker with
     | Some w => bool_decide (run_worker_id r = Some w)
     | None => if bool_decide (from_state = Running) then before (run_lease_until r) now else true
     end.

(** The state and error [finish] writes: a pinned publication yields to a cancellation of its pull
    request, and an inactive origin cancels. *)
Definition finish_target (d : Db) (id : UUID) (r : Run) (c : CodeChange) (pinned : bool)
    (state : RunState) (code message : option pystr) : RunState * option pystr * option pystr :=
  let reason := if pinned then pr_cancellation r c else None in
  if negb (origin_active d id r c) then
    (Cancelled, Some (default (u8 "installation_unavailable") reason), None)
  else match reason with
       | Some why => (Cancelled, Some why, None)
       | None => (state, code, message)
       end.

(** [expected]: for a publication pinned to what it read, whether the locked rows still match. *)
Definition finish (id : UUID) (from_state : RunState) (worker : option pystr)
    (state : RunState) (code message : option pystr) (now : Z)
    (expected : option (Run → CodeChange → bool)) (d : Db) : Db * bool :=
  match joined d id with
  | None => (d, false)
  | Some (r, c) =>
      let stale := match expected with
                   | Some matches => negb (bool_decide (run_state r = Publishing)) || negb (matches r c)
                   | None => false
                   end in
      if stale then (d, false)
      else
        let '(target, code', message') :=
          finish_target d id r c (bool_decide (expected ≠ None)) state code message in
        if owned from_state worker now r
        then (notify id target (put_run id (finish_run target code' message' now r) d), true)
        else (d, false)
  end.

Definition set_lease (lease : option Z) (r : Run) : Run :=
  mkRun (run_pinned r) (run_state r) (run_attempt r) (run_available_at r) lease (run_worker_id r)
    (run_cancel_requested r) (run_error_code r) (run_error_message r) (run_started_at r)
    (run_finished_at r) (run_signal_requested_at r) (run_review_body r).

Definition extend_lease (id : UUID) (worker : pystr) (lease : Z) (d : Db) : Db * bool :=
  match db_runs d !! id with
  | Some r =>
      if bool_decide (run_state r ∈ [Running; Publishing])
         && bool_decide (run_worker_id r = Some worker)
      then (put_run id (set_lease (Some lease) r) d, true)
      else (d, false)
  | None => (d, false)
  end.

Definition requeue (id : UUID) (worker : option pystr) (available_at clock : Z) (d : Db)
  : Db * bool :=
  match joined d id with
  | None => (d, false)
  | Some (r, c) =>
      if negb (origin_active d id r c) then
        (fst (finish id Running worker Cancelled (Some (u8 "installation_unavailable")) None clock
                None d), false)
      else if owned Running worker available_at r then
        let r' := mkRun (run_pinned r) Queued (run_attempt r) available_at None (run_worker_id r)
                    (run_cancel_requested r) (run_error_code r) (run_error_message r)
                    (run_started_at r) (run_finished_at r) (run_signal_requested_at r)
                    (run_review_body r) in
        (notify id Queued (put_run id r' d), true)
      else (d, false)
  end.

(** ** Entering publication (T8)

    [lock_for_publishing] and the guard of [StoreReviewOutput], then [store_review_output] and
    [enter_publishing], in one transaction.  A stored answer keeps the body and findings stored
    before it. *)
Definition publishing_guard (worker : pystr) (r : Run) (c : CodeChange) : bool :=
  bool_decide (run_state r = Running) && bool_decide (run_worker_id r = Some worker)
  && negb (run_cancel_requested r) && (run_head_sha r =?s cc_head_sha c).

Definition store_output (id : UUID) (worker : pystr) (body : pystr) (findings : list Finding)
    (answered : bool) (lease : Z) (d : Db) : Db * bool :=
  match joined d id with
  | None => (d, false)
  | Some (r, c) =>
      if negb (publishing_guard worker r c) then (d, false)
      else if bool_decide (run_state r ∈ [Succeeded; Cancelled]) then (d, false)
      else
        let body' := if answered then run_review_body r else Some body in
        let d1 := if answered then d
                  else set_findings (<[id := default [] (db_findings d !! id) ++ findings]>
                                       (db_findings d)) (db_comments d) d in
        let r' := mkRun (run_pinned r) Publishing (run_attempt r) (run_available_at r)
                    (Some lease) (run_worker_id r) (run_cancel_requested r) (run_error_code r)
                    (run_error_message r) (run_started_at r) (run_finished_at r)
                    (run_signal_requested_at r) body' in
        (notify id Publishing (put_run id r' d1), true)
  end.

(** ** Completing publication (T14, T15) *)

Definition set_inline (b : bool) (f : Finding) : Finding :=
  mkFinding (fi_id f) (fi_hashed f) (fi_confidence f) (fi_rule_name f) b (fi_drop_reason f)
    (fi_published f).
Definition set_published (f : Finding) : Finding :=
  mkFinding (fi_id f) (fi_hashed f) (fi_confidence f) (fi_rule_name f) (fi_inline f)
    (fi_drop_reason f) true.

(** [insert(Comment) .. on_conflict_do_nothing]: one comment per finding and per comment id. *)
Definition insert_comment (c : Comment) (cs : list Comment) : list Comment :=
  if existsb (λ c', (co_finding_id c' =? co_finding_id c)%N || (co_comment_id c' =? co_comment_id c)) cs
  then cs else cs ++ [c].

Definition place_findings (review_id : Z) (comment_ids : list Z) (hash : pystr)
    (moved : list UUID) (findings : list Finding) (cs : list Comment)
  : (Finding → Finding) * list Comment :=
  let inline := List.filter fi_inline findings in
  if negb (bool_decide (moved = [])) then
    (λ f, if fi_inline f && bool_decide (fi_id f ∈ moved) then set_inline false f else f, cs)
  else if bool_decide (length comment_ids = length inline) then
    (id, fold_left (λ cs fc, insert_comment (mkComment (fi_id (fst fc)) review_id (snd fc) hash) cs)
           (zip inline comment_ids) cs)
  else (id, cs).

Definition is_published_row (f : Finding) : bool := bool_decide (fi_drop_reason f = None).

Definition complete_publication (id : UUID) (review_id : Z) (comment_ids : list Z) (hash : pystr)
    (moved : list UUID) (now : Z) (expected : option (Run → CodeChange → bool)) (d : Db)
  : Db * option RunState :=
  match joined d id with
  | None => (d, None)
  | Some (r, c) =>
      if negb (bool_decide (run_state r = Publishing)) then (d, None)
      else
        let mismatch := match expected with Some matches => negb (matches r c) | None => false end in
        if mismatch then (d, None)
        else if negb (origin_active d id r c) then
          let code := default (u8 "installation_unavailable")
                        (if bool_decide (expected ≠ None) then pr_cancellation r c else None) in
          (notify id Cancelled
             (put_run id (finish_run Cancelled (Some code) (run_error_message r) now r) d),
           Some Cancelled)
        else
          let '(place, cs) := place_findings review_id comment_ids hash moved
                                (published_findings d id) (db_comments d) in
          let rows := (λ f, if is_published_row f then set_published (place f) else f)
                      <$> default [] (db_findings d !! id) in
          let reason := pr_cancellation r c in
          let final := if bool_decide (reason = None) then Succeeded else Cancelled in
          (notify id final
             (put_run id (finish_run final reason (run_error_message r) now r)
                (set_findings (<[id := rows]> (db_findings d)) cs d)),
           Some final)
  end.

(** ** Cancellation requests *)

Definition request_cancel_flag (r : Run) : Run :=
  mkRun (run_pinned r) (run_state r) (run_attempt r) (run_available_at r) (run_lease_until r)
    (run_worker_id r) true (run_error_code r) (run_error_message r) (run_started_at r)
    (run_finished_at r) (run_signal_requested_at r) (run_review_body r).

(** A queued run is cancelled at once; one that was attempted asks for a close signal, [keep]
    tells whether an earlier request keeps its time. *)
Definition cancel_queued (code : pystr) (now : Z) (keep : bool) (r : Run) : Run :=
  mkRun (run_pinned r) Cancelled (run_attempt r) (run_available_at r) (run_lease_until r)
    (run_worker_id r) (run_cancel_requested r) (Some code) (run_error_message r)
    (run_started_at r) (Some now)
    (if (1 <=? run_attempt r) && negb (keep && bool_decide (run_signal_requested_at r ≠ None))
     then Some now else run_signal_requested_at r)
    (run_review_body r).

Record CancelRequestResult : Type := mkCancelRequestResult {
  cr_found : bool;
  cr_changed : bool;
  cr_signal_requested : bool
}.

(** [SqlAlchemyRunRepository.request_cancel]; [authorized] is the caller's grant on the run. *)
Definition request_cancel (id : UUID) (authorized : bool) (now : Z) (d : Db)
  : Db * CancelRequestResult :=
  match db_runs d !! id with
  | Some r =>
      if negb authorized then (d, mkCancelRequestResult false false false)
      else if bool_decide (run_state r = Queued) then
        (notify id Cancelled (put_run id (cancel_queued (u8 "cancelled_by_user") now false r) d),
         mkCancelRequestResult true true (1 <=? run_attempt r))
      else if bool_decide (run_state r ∈ [Running; Publishing]) then
        if run_cancel_requested r then (d, mkCancelRequestResult true false false)
        else (put_run id (request_cancel_flag r) d, mkCancelRequestResult true true false)
      else (d, mkCancelRequestResult true false false)
  | None => (d, mkCancelRequestResult false false false)
  end.

(** One run of a pull request whose head moved or that was closed, in the loops of the GitHub,
    GitLab and Bitbucket projections. *)
Definition project_cancel_run (reason : pystr) (now : Z) (keep : bool) (id : UUID) (d : Db) : Db :=
  match db_runs d !! id with
  | Some r =>
      if bool_decide (run_state r = Queued)
      then notify id Cancelled (put_run id (cancel_queued reason now keep r) d)
      else if active (run_state r) && negb (run_cancel_requested r)
      then put_run id (request_cancel_flag r) d
      else d
  | None => d
  end.

(** [_retire_runs]: a removed connection fences even an unexpired lease. *)
Definition retire_run (reason : pystr) (now : Z) (id : UUID) (d : Db) : Db :=
  match db_runs d !! id with
  | Some r =>
      if active (run_state r) then
        let r' := mkRun (run_pinned r) Cancelled (run_attempt r) (run_available_at r) None None true
                    (Some reason) (run_error_message r) (run_started_at r) (Some now)
                    (if (1 <=? run_attempt r) && bool_decide (run_signal_requested_at r = None)
                     then Some now else run_signal_requested_at r)
                    (run_review_body r) in
        notify id Cancelled (put_run id r' d)
      else d
  | None => d
  end.

(** A NULL origin is filled with the installation its repository still has; a recorded origin is
    kept, and so is every other column. *)
Definition fill_origin (installation : UUID) (r : Run) : Run :=
  match pin_origin (run_pinned r) with
  | Some _ => r
  | None =>
      let p := run_pinned r in
      mkRun (mkPinned (pin_code_change_id p) (Some installation) (pin_base_sha p) (pin_head_sha p)
               (pin_engine p))
        (run_state r) (run_attempt r) (run_available_at r) (run_lease_until r) (run_worker_id r)
        (run_cancel_requested r) (run_error_code r) (run_error_message r) (run_started_at r)
        (run_finished_at r) (run_signal_requested_at r) (run_review_body r)
  end.

(** What the move of a repository to another installation does to one of its runs: its NULL origin
    is filled whatever its state, final ones included, and a run of the old installation that is
    still active is cancelled. *)
Definition rebind_cancel_run (now : Z) (id : UUID) (d : Db) : Db :=
  match joined d id with
  | Some (r, c) =>
      let r1 := fill_origin (cc_installation_id c) r in
      let d1 := put_run id r1 d in
      if bool_decide (pin_origin (run_pinned r1) = Some (cc_installation_id c))
         && active (run_state r1)
      then notify id Cancelled
             (put_run id (finish_run Cancelled (Some (u8 "installation_replaced"))
                            (run_error_message r1) now r1) d1)
      else d1
  | None => d
  end.

(** ** Creation (T1, T3) *)

Definition active_run_of (d : Db) (code_change : UUID) : bool :=
  existsb (λ kv, active (run_state (snd kv))
                 && (pin_code_change_id (run_pinned (snd kv)) =? code_change)%N)
    (map_to_list (db_runs d)).

Definition new_run (p : Pinned) (now : Z) : Run :=
  mkRun p Queued 0 now None None false None None None None None None.

(** [insert_webhook_run] and [insert_rerun], under the pull request lock: a pull request with an
    active run gets no second one, and [duplicate], the unique key of the head already taken,
    inserts nothing. *)
Definition insert_run (id : UUID) (p : Pinned) (now : Z) (duplicate : bool) (d : Db) : Db * bool :=
  if bool_decide (db_runs d !! id = None) && negb (active_run_of d (pin_code_change_id p))
     && negb duplicate
  then (notify id Queued (put_run id (new_run p now) d), true)
  else (d, false).

(** ** What the reconciler reads *)

Definition stale (now available_before : Z) (r : Run) : bool :=
  (bool_decide (run_state r = Queued) && (run_available_at r <? available_before))
  || (bool_decide (run_state r ∈ [Running; Publishing]) && before (run_lease_until r) now).

Definition run_rows (d : Db) : list (UUID * Run) := map_to_list (db_runs d).

Definition inactive_origin (d : Db) (kv : UUID * Run) : bool :=
  match joined d (fst kv) with
  | Some (r, c) => negb (origin_active d (fst kv) r c)
  | None => false
  end.

(** [order_by(Run.id).limit(limit)] *)
Definition stale_inactive_origins (now available_before : Z) (limit : nat) (d : Db) : list UUID :=
  take limit (fst <$> py_sorted (λ a b, (fst a <=? fst b)%N)
    (List.filter (λ kv, stale now available_before (snd kv) && inactive_origin d kv) (run_rows d))).

Definition retire_stale_origin (id : UUID) (now available_before : Z) (d : Db) : Db * bool :=
  match joined d id with
  | Some (r, c) =>
      if stale now available_before r && negb (origin_active d id r c)
      then finish id (run_state r) None Cancelled (Some (u8 "installation_unavailable")) None now
             None d
      else (d, false)
  | None => (d, false)
  end.

Definition lease_leb (a b : UUID * Run) : bool :=
  default 0 (run_lease_until (snd a)) <=? default 0 (run_lease_until (snd b)).

Definition expired_running (now : Z) (limit : nat) (d : Db) : list (UUID * Z) :=
  take limit ((λ kv, (fst kv, run_attempt (snd kv))) <$> py_sorted lease_leb
    (List.filter (λ kv, bool_decide (run_state (snd kv) = Running)
                        && before (run_lease_until (snd kv)) now) (run_rows d))).

(** The runs whose pointer may be sent again: [_pointer_rows] keeps active origins only. *)
Definition has_pointer (d : Db) (id : UUID) : bool :=
  match joined d id with
  | Some (r, c) => origin_active d id r c
                   && ((cc_provider c =?s u8 "github")
                       || ((cc_provider c =?s u8 "gitlab") && bool_decide (id ∈ db_gitlab_targets d))
                       || (cc_provider c =?s u8 "bitbucket"))
  | None => false
  end.

Definition expired_publishing (now : Z) (limit : nat) (d : Db) : list UUID :=
  take limit (fst <$> py_sorted lease_leb
    (List.filter (λ kv, bool_decide (run_state (snd kv) = Publishing)
                        && before (run_lease_until (snd kv)) now && has_pointer d (fst kv))
       (run_rows d))).

Definition stale_queued (available_before : Z) (limit : nat) (d : Db) : list UUID :=
  take limit (fst <$> py_sorted (λ a b, run_available_at (snd a) <=? run_available_at (snd b))
    (List.filter (λ kv, bool_decide (run_state (snd kv) = Queued)
                        && (run_available_at (snd kv) <? available_before)
                        && bool_decide (pin_engine (run_pinned (snd kv)) = Engine_fast)
                        && has_pointer d (fst kv)) (run_rows d))).
