(* ===== verification/PolicySnapshots.v ===== *)
(** * Policy snapshots ([policy_snapshot.py], [prepare_policy_snapshot.py],
      [policy_snapshot_integrity.py])

    The immutable policy of a run: both documents, the masks and every pinned version, the digest
    that covers them and the checks that a stored snapshot passes before it is used.  The version of
    the Markdown parser is the installed library's: an argument. *)

From Stdlib Require Import String.
From stdpp Require Import numbers.
From S2P Require Import Prelude PyText PyHash DiffMap Verdict RunFailures PolicyErrors.
From S2P Require Import PolicyDocuments ReviewIgnore.
#[local] Open Scope Z_scope.

(** ** Pinned prompts and execution *)

Record PromptBindings : Type := mkPromptBindings {
  pb_review_system_checksum : pystr;
  pb_conventions_checksum : pystr;
  pb_verifier_checksum : pystr;
  pb_review_system_key : pystr;
  pb_review_system_version : pystr;
  pb_conventions_key : pystr;
  pb_conventions_version : pystr;
  pb_verifier_key : pystr;
  pb_verifier_version : pystr;
  pb_review_system_id : option UUID;
  pb_conventions_id : option UUID;
  pb_verifier_id : option UUID
}.
#[export] Instance PromptBindings_eq_dec : EqDecision PromptBindings.
Proof. solve_decision. Defined.

Definition nonempty (s : pystr) : bool := negb (s =?s []).
Definition truthy (o : option pystr) : bool :=
  match o with Some s => nonempty s | None => false end.

Definition bindings_complete (b : PromptBindings) : bool :=
  py_all nonempty [pb_review_system_checksum b; pb_conventions_checksum b; pb_verifier_checksum b]
  && py_all (λ i, negb (is_none i)) [pb_review_system_id b; pb_conventions_id b; pb_verifier_id b].

Definition pins_review_prompt (b : PromptBindings) (prompt_version_id : UUID) : bool :=
  bool_decide (pb_review_system_id b = Some prompt_version_id).

Definition DEFAULT_MAX_POLICY_TOKENS : Z := 12000.

Record ExecutionProfile : Type := mkExecutionProfile {
  ep_profile_name : pystr;
  ep_review_model : pystr;
  ep_verifier_model : pystr;
  ep_conventions_model : option pystr;
  ep_max_policy_tokens : Z;
  ep_max_input_tokens : Z;
  ep_max_calls_per_run : Z;
  ep_fallback_review_model : option pystr;
  ep_fallback_verifier_model : option pystr;
  ep_fallback_conventions_model : option pystr;
  ep_primary_provider_route : option pystr;
  ep_fallback_provider_route : option pystr;
  ep_tokenizer_version : option pystr;
  ep_counter_version : option pystr;
  ep_temperature : option pystr;
  ep_response_schema_version : option pystr;
  ep_recovery_profile_version : option pystr;
  ep_budget_profile_version : option pystr
}.
#[export] Instance ExecutionProfile_eq_dec : EqDecision ExecutionProfile.
Proof. solve_decision. Defined.

(** What [Decimal(text)] reads: a signed number with an optional exponent, infinity or a NaN, with
    white space around it and underscores anywhere. *)
Definition drop_sign (s : pystr) : pystr :=
  match s with c :: s' => if (c =? 43)%N || (c =? 45)%N then s' else s | [] => [] end.
Definition all_digits (s : pystr) : bool := snd (take_digits s) =?s [].
Definition decimal_exponent (s : pystr) : bool :=
  match s with
  | [] => true
  | c :: s' => (ascii_lower c =? 101)%N && nonempty (drop_sign s') && all_digits (drop_sign s')
  end.
Definition decimal_number (s : pystr) : bool :=
  let '(whole, rest) := take_digits s in
  match rest with
  | 46%N :: rest' =>
      let '(fraction, exponent) := take_digits rest' in
      negb (bool_decide (whole = [] ∧ fraction = [])) && decimal_exponent exponent
  | _ => negb (bool_decide (whole = [])) && decimal_exponent rest
  end.
Definition decimal_special (s : pystr) : bool :=
  let t := ascii_lower <$> s in
  (t =?s u8 "inf") || (t =?s u8 "infinity")
  || (startswith t (u8 "nan") && all_digits (drop 3 t))
  || (startswith t (u8 "snan") && all_digits (drop 4 t)).
Definition is_decimal (text : pystr) : bool :=
  let s := drop_sign (List.filter (λ c, negb (c =? 95)%N) (strip_with is_space text)) in
  decimal_number s || decimal_special s.

(** [ExecutionProfile.__post_init__] *)
Definition profile_ok (p : ExecutionProfile) : bool :=
  match ep_temperature p with Some t => is_decimal t | None => true end.

Definition profile_complete (p : ExecutionProfile) : bool :=
  py_all truthy [Some (ep_review_model p); Some (ep_verifier_model p); ep_primary_provider_route p;
                 ep_tokenizer_version p; ep_counter_version p; ep_temperature p;
                 ep_response_schema_version p; ep_recovery_profile_version p;
                 ep_budget_profile_version p].

Definition profile_of (name review_model verifier_model : pystr) (conventions_model : option pystr)
    (max_input_tokens : Z) : ExecutionProfile :=
  mkExecutionProfile name review_model verifier_model conventions_model DEFAULT_MAX_POLICY_TOKENS
    max_input_tokens 4 None None None None None None None None None None None.
Definition profile_fast (review_model verifier_model : pystr) (conventions_model : option pystr)
  : ExecutionProfile := profile_of (u8 "fast") review_model verifier_model conventions_model 60000.
Definition profile_deep (review_model verifier_model : pystr) (conventions_model : option pystr)
  : ExecutionProfile := profile_of (u8 "deep") review_model verifier_model conventions_model 150000.

(** ** The snapshot *)

Definition POLICY_SNAPSHOT_SCHEMA_VERSION : Z := 1.
Definition PARSER_PROFILE : pystr := u8 "rules-markdown/v1".
Definition PRIORITY_MATCHER_VERSION : pystr := u8 "priority-matcher/v1".

Record PolicySnapshot : Type := mkPolicySnapshot {
  sn_schema_version : Z;
  sn_snapshot_id : UUID;
  sn_run_id : UUID;
  sn_repository_id : UUID;
  sn_policy_base_sha : pystr;
  sn_rules : PolicyDocument;
  sn_agents : PolicyDocument;
  sn_ignore_patterns : list pystr;
  sn_ignore_digest : pystr;
  sn_parser_profile : pystr;
  sn_parser_version : pystr;
  sn_matcher_version : pystr;
  sn_limits_version : pystr;
  sn_builtin_exclusions_version : pystr;
  sn_priority_matcher_version : pystr;
  sn_service_defaults_rule_version_id : UUID;
  sn_defaults_checksum : pystr;
  sn_prompt_bindings : PromptBindings;
  sn_execution_profile : ExecutionProfile;
  sn_policy_digest : pystr;
  sn_created_at : option Z;
  sn_severity_threshold : option SeverityThreshold;
  sn_max_comments : option Z
}.

(** [PolicySnapshot.__post_init__] *)
Definition snapshot_paths_ok (s : PolicySnapshot) : bool :=
  (pd_path (sn_rules s) =?s RULES_DOCUMENT_PATH) && (pd_path (sn_agents s) =?s AGENTS_DOCUMENT_PATH).

Definition document_has_text (d : PolicyDocument) : bool :=
  negb (is_missing d) && nonempty (strip_with is_space (default [] (pd_text d))).
Definition has_custom_rules (s : PolicySnapshot) : bool := document_has_text (sn_rules s).
Definition has_agents_doc (s : PolicySnapshot) : bool := document_has_text (sn_agents s).
Definition is_ready_for_llm (s : PolicySnapshot) : bool :=
  nonempty (sn_policy_digest s) && bindings_complete (sn_prompt_bindings s)
  && profile_complete (sn_execution_profile s).

(** ** JSON of the pinned versions *)

Definition JUuid (o : option UUID) : json := JOpt (λ u, JStr (str_of_uuid u)) o.

(** [pinned_to_json]: the fields in their order, identifiers printed. *)
Definition bindings_to_json (b : PromptBindings) : list (pystr * json) :=
  [(u8 "review_system_checksum", JStr (pb_review_system_checksum b));
   (u8 "conventions_checksum", JStr (pb_conventions_checksum b));
   (u8 "verifier_checksum", JStr (pb_verifier_checksum b));
   (u8 "review_system_key", JStr (pb_review_system_key b));
   (u8 "review_system_version", JStr (pb_review_system_version b));
   (u8 "conventions_key", JStr (pb_conventions_key b));
   (u8 "conventions_version", JStr (pb_conventions_version b));
   (u8 "verifier_key", JStr (pb_verifier_key b));
   (u8 "verifier_version", JStr (pb_verifier_version b));
   (u8 "review_system_id", JUuid (pb_review_system_id b));
   (u8 "conventions_id", JUuid (pb_conventions_id b));
   (u8 "verifier_id", JUuid (pb_verifier_id b))].

Definition profile_to_json (p : ExecutionProfile) : list (pystr * json) :=
  [(u8 "profile_name", JStr (ep_profile_name p));
   (u8 "review_model", JStr (ep_review_model p));
   (u8 "verifier_model", JStr (ep_verifier_model p));
   (u8 "conventions_model", JOpt JStr (ep_conventions_model p));
   (u8 "max_policy_tokens", JInt (ep_max_policy_tokens p));
   (u8 "max_input_tokens", JInt (ep_max_input_tokens p));
   (u8 "max_calls_per_run", JInt (ep_max_calls_per_run p));
   (u8 "fallback_review_model", JOpt JStr (ep_fallback_review_model p));
   (u8 "fallback_verifier_model", JOpt JStr (ep_fallback_verifier_model p));
   (u8 "fallback_conventions_model", JOpt JStr (ep_fallback_conventions_model p));
   (u8 "primary_provider_route", JOpt JStr (ep_primary_provider_route p));
   (u8 "fallback_provider_route", JOpt JStr (ep_fallback_provider_route p));
   (u8 "tokenizer_version", JOpt JStr (ep_tokenizer_version p));
   (u8 "counter_version", JOpt JStr (ep_counter_version p));
   (u8 "temperature", JOpt JStr (ep_temperature p));
   (u8 "response_schema_version", JOpt JStr (ep_response_schema_version p));
   (u8 "recovery_profile_version", JOpt JStr (ep_recovery_profile_version p));
   (u8 "budget_profile_version", JOpt JStr (ep_budget_profile_version p))].

(** [UUID(text)] for a text of 32 hexadecimal digits and hyphens; the other spellings the
    constructor reads are never stored. *)
Definition hex_digit (c : char) : option N :=
  if in_range c (48, 57)%N then Some (c - 48)%N
  else if in_range c (97, 102)%N then Some (c - 87)%N
  else if in_range c (65, 70)%N then Some (c - 55)%N
  else None.
Fixpoint hex_fold (acc : N) (s : pystr) : option N :=
  match s with
  | [] => Some acc
  | c :: s' => d ← hex_digit c; hex_fold (acc * 16 + d)%N s'
  end.
Definition uuid_of_str (text : pystr) : option UUID :=
  let digits := List.filter (λ c, negb (c =? 45)%N) text in
  if (length digits =? 32)%nat then hex_fold 0 digits else None.

(** The fields of a stored object: [None] for a missing required field and for a value of another
    type, which no writer of these columns stores. *)
Definition read_str (stored : list (pystr * json)) (name : pystr) (dflt : option pystr)
  : option pystr :=
  match assoc name stored with Some (JStr s) => Some s | Some _ => None | None => dflt end.
Definition read_int (stored : list (pystr * json)) (name : pystr) (dflt : Z) : option Z :=
  match assoc name stored with Some (JInt z) => Some z | Some _ => None | None => Some dflt end.
Definition read_opt (stored : list (pystr * json)) (name : pystr) : option (option pystr) :=
  match assoc name stored with
  | Some (JStr s) => Some (Some s)
  | Some JNull | None => Some None
  | Some _ => None
  end.
Definition read_uuid (stored : list (pystr * json)) (name : pystr) : option (option UUID) :=
  match assoc name stored with
  | Some (JStr s) => Some <$> uuid_of_str s
  | Some JNull | None => Some None
  | Some _ => None
  end.

(** [_bindings] and [_profile]: a key of a later version is not read. *)
Definition bindings_of_json (stored : list (pystr * json)) : option PromptBindings :=
  review_system_checksum ← read_str stored (u8 "review_system_checksum") None;
  conventions_checksum ← read_str stored (u8 "conventions_checksum") None;
  verifier_checksum ← read_str stored (u8 "verifier_checksum") None;
  review_system_key ← read_str stored (u8 "review_system_key") (Some (u8 "review.system"));
  review_system_version ← read_str stored (u8 "review_system_version") (Some (u8 "v2"));
  conventions_key ← read_str stored (u8 "conventions_key") (Some (u8 "review.conventions"));
  conventions_version ← read_str stored (u8 "conventions_version") (Some (u8 "v2"));
  verifier_key ← read_str stored (u8 "verifier_key") (Some (u8 "review.verifier"));
  verifier_version ← read_str stored (u8 "verifier_version") (Some (u8 "v2"));
  review_system_id ← read_uuid stored (u8 "review_system_id");
  conventions_id ← read_uuid stored (u8 "conventions_id");
  verifier_id ← read_uuid stored (u8 "verifier_id");
  Some (mkPromptBindings review_system_checksum conventions_checksum verifier_checksum
          review_system_key review_system_version conventions_key conventions_version verifier_key
          verifier_version review_system_id conventions_id verifier_id).

Definition profile_of_json (stored : list (pystr * json)) : option ExecutionProfile :=
  profile_name ← read_str stored (u8 "profile_name") None;
  review_model ← read_str stored (u8 "review_model") None;
  verifier_model ← read_str stored (u8 "verifier_model") None;
  conventions_model ← read_opt stored (u8 "conventions_model");
  max_policy_tokens ← read_int stored (u8 "max_policy_tokens") DEFAULT_MAX_POLICY_TOKENS;
  max_input_tokens ← read_int stored (u8 "max_input_tokens") 60000;
  max_calls_per_run ← read_int stored (u8 "max_calls_per_run") 4;
  fallback_review_model ← read_opt stored (u8 "fallback_review_model");
  fallback_verifier_model ← read_opt stored (u8 "fallback_verifier_model");
  fallback_conventions_model ← read_opt stored (u8 "fallback_conventions_model");
  primary_provider_route ← read_opt stored (u8 "primary_provider_route");
  fallback_provider_route ← read_opt stored (u8 "fallback_provider_route");
  tokenizer_version ← read_opt stored (u8 "tokenizer_version");
  counter_version ← read_opt stored (u8 "counter_version");
  temperature ← read_opt stored (u8 "temperature");
  response_schema_version ← read_opt stored (u8 "response_schema_version");
  recovery_profile_version ← read_opt stored (u8 "recovery_profile_version");
  budget_profile_version ← read_opt stored (u8 "budget_profile_version");
  let p := mkExecutionProfile profile_name review_model verifier_model conventions_model
             max_policy_tokens max_input_tokens max_calls_per_run fallback_review_model
             fallback_verifier_model fallback_conventions_model primary_provider_route
             fallback_provider_route tokenizer_version counter_version temperature
             response_schema_version recovery_profile_version budget_profile_version in
  if profile_ok p then Some p else None.

(** ** The digest *)

Definition document_payload (d : PolicyDocument) : json :=
  JObj [(u8 "path", JStr (pd_path d));
        (u8 "presence", JStr (DocumentPresence_value (pd_presence d)));
        (u8 "raw_sha256", JOpt JStr (pd_raw_sha256 d));
        (u8 "text_sha256", JOpt JStr (pd_text_sha256 d))].

Definition canonical_policy_payload (schema_version : Z) (policy_base_sha : pystr)
    (documents : list PolicyDocument)
    (ignore_digest parser_profile parser_version limits_version defaults_checksum : pystr)
    (prompt_bindings execution_profile : list (pystr * json)) (priority_matcher_version : pystr)
  : json :=
  JObj [(u8 "schema_version", JInt schema_version);
        (u8 "policy_base_sha", JStr policy_base_sha);
        (u8 "documents", JList (document_payload <$> documents));
        (u8 "ignore_digest", JStr ignore_digest);
        (u8 "parser_profile", JStr parser_profile);
        (u8 "exact_parser_version", JStr parser_version);
        (u8 "limits_version", JStr limits_version);
        (u8 "defaults_checksum", JStr defaults_checksum);
        (u8 "prompt_bindings", JObj prompt_bindings);
        (u8 "execution_profile", JObj execution_profile);
        (u8 "priority_matcher_version", JStr priority_matcher_version)].

(** ** Building *)

Record RunPolicyPins : Type := mkRunPolicyPins {
  rp_run_id : UUID;
  rp_repository_id : UUID;
  rp_policy_base_sha : pystr;
  rp_service_defaults_rule_version_id : UUID;
  rp_defaults_checksum : pystr;
  rp_prompt_bindings : PromptBindings;
  rp_execution_profile : ExecutionProfile;
  rp_severity_threshold : option SeverityThreshold;
  rp_max_comments : option Z
}.

Definition build_policy_snapshot (PARSER_VERSION : pystr) (pins : RunPolicyPins)
    (rules agents : PolicyDocument) (ignore : IgnorePolicy) (snapshot_id : UUID) : PolicySnapshot :=
  let canonical :=
    canonical_policy_payload POLICY_SNAPSHOT_SCHEMA_VERSION (rp_policy_base_sha pins)
      [rules; agents] (ip_digest ignore) PARSER_PROFILE PARSER_VERSION LIMITS_VERSION
      (rp_defaults_checksum pins) (bindings_to_json (rp_prompt_bindings pins))
      (profile_to_json (rp_execution_profile pins)) PRIORITY_MATCHER_VERSION in
  mkPolicySnapshot POLICY_SNAPSHOT_SCHEMA_VERSION snapshot_id (rp_run_id pins)
    (rp_repository_id pins) (rp_policy_base_sha pins) rules agents (ip_patterns ignore)
    (ip_digest ignore) PARSER_PROFILE PARSER_VERSION MATCHER_VERSION LIMITS_VERSION
    BUILTIN_EXCLUSIONS_VERSION PRIORITY_MATCHER_VERSION (rp_service_defaults_rule_version_id pins)
    (rp_defaults_checksum pins) (rp_prompt_bindings pins) (rp_execution_profile pins)
    (json_digest canonical) None (rp_severity_threshold pins) (rp_max_comments pins).

(** ** Integrity *)

Definition verify_policy_snapshot (s : PolicySnapshot)
    (prompt_bindings execution_profile : list (pystr * json)) : result PolicyError unit :=
  let fail (message : pystr) := Err (integrity_error message None (Some (sn_policy_base_sha s))) in
  if negb (ignore_digest (sn_ignore_patterns s) (sn_matcher_version s)
             (sn_builtin_exclusions_version s) (sn_limits_version s) =?s sn_ignore_digest s)
  then fail (u8 "The stored ignore_digest does not match the stored masks")
  else if negb (json_digest
                  (canonical_policy_payload (sn_schema_version s) (sn_policy_base_sha s)
                     [sn_rules s; sn_agents s] (sn_ignore_digest s) (sn_parser_profile s)
                     (sn_parser_version s) (sn_limits_version s) (sn_defaults_checksum s)
                     prompt_bindings execution_profile (sn_priority_matcher_version s))
                =?s sn_policy_digest s)
  then fail (u8 "The stored policy_digest does not match the stored snapshot")
  else Ok tt.

Definition verify_snapshot_pins (s : PolicySnapshot) (pins : option RunPolicyPins)
  : result PolicyError unit :=
  let fail (message : pystr) := Err (integrity_error message None (Some (sn_policy_base_sha s))) in
  match pins with
  | None => fail (u8 "A pinned version of the run is missing")
  | Some p =>
      if negb (sn_repository_id s =? rp_repository_id p)%N
      then fail (u8 "The stored repository_id is not the repository of the run")
      else if negb (sn_policy_base_sha s =?s rp_policy_base_sha p)
      then fail (u8 "The stored policy_base_sha is not the pinned base of the run")
      else if negb (sn_service_defaults_rule_version_id s =? rp_service_defaults_rule_version_id p)%N
      then fail (u8 "The stored service_defaults_rule_version_id is not the rule version of the run")
      else if negb (sn_defaults_checksum s =?s rp_defaults_checksum p)
      then fail (u8 "The stored defaults_checksum is not the checksum of the pinned rule version")
      else if negb (bool_decide (sn_prompt_bindings s = rp_prompt_bindings p))
      then fail (u8 "The stored prompt_bindings are not the prompt versions of the run")
      else Ok tt
  end.

(** ** Versions of the execution profile ([prompt_budget.py]) *)

Definition SUPPORTED_TOKENIZER_VERSIONS : list pystr := [u8 "tokenizer/v1"].
Definition SUPPORTED_COUNTER_VERSIONS : list pystr := [u8 "counter/v1"; u8 "counter/v2"].
Definition SUPPORTED_RECOVERY_PROFILE_VERSIONS : list pystr := [u8 "recovery/v1"].
Definition SUPPORTED_BUDGET_PROFILE_VERSIONS : list pystr := [u8 "budget/v1"].

Definition check_version (name : pystr) (version : option pystr) (supported : list pystr)
  : result PolicyError unit :=
  match version with
  | Some v =>
      raise_when (negb (str_mem v supported))
        (policy_error SNAPSHOT_INTEGRITY_ERROR
           (u8 "Unknown " ++ name ++ u8 " '" ++ v ++ u8 "' in execution profile") no_args)
  | None => Ok tt
  end.

Definition validate_execution_profile_versions (p : ExecutionProfile) : result PolicyError unit :=
  _ ← check_version (u8 "tokenizer_version") (ep_tokenizer_version p) SUPPORTED_TOKENIZER_VERSIONS;
  _ ← check_version (u8 "counter_version") (ep_counter_version p) SUPPORTED_COUNTER_VERSIONS;
  _ ← check_version (u8 "recovery_profile_version") (ep_recovery_profile_version p)
        SUPPORTED_RECOVERY_PROFILE_VERSIONS;
  check_version (u8 "budget_profile_version") (ep_budget_profile_version p)
    SUPPORTED_BUDGET_PROFILE_VERSIONS.

(** ** Facts: identifiers and pinned versions read back *)

Lemma hex_digit_char d : (d < 16)%N → hex_digit (hex_char d) = Some d.
Proof.
  intros Hd. unfold hex_digit, hex_char, in_range. cbn [fst snd].
  destruct (N.ltb_spec d 10).
  - rewrite !(proj2 (N.leb_le _ _)) by lia. cbn [andb]. f_equal. lia.
  - rewrite (proj2 (N.leb_gt (87 + d) 57)), andb_false_r by lia.
    rewrite !(proj2 (N.leb_le _ _)) by lia. cbn [andb]. f_equal. lia.
Qed.

Lemma hex_fold_app acc s t : hex_fold acc (s ++ t) = hex_fold acc s ≫= λ n, hex_fold n t.
Proof.
  revert acc. induction s as [|c s IH]; intros acc; cbn [app hex_fold]; [done|].
  destruct (hex_digit c); [apply IH|done].
Qed.

Lemma hex_fold_fixed w acc n :
  hex_fold acc (hex_fixed w n) = Some (acc * 16 ^ N.of_nat w + n mod 16 ^ N.of_nat w)%N.
Proof.
  revert acc n. induction w as [|w IH]; intros acc n; cbn [hex_fixed hex_fold].
  { f_equal. rewrite N.mod_1_r. lia. }
  rewrite hex_fold_app, IH. cbn [option_bind mbind hex_fold].
  rewrite hex_digit_char by (apply N.mod_lt; lia). cbn. f_equal.
  rewrite Nat2N.inj_succ, N.pow_succ_r'.
  rewrite (N.Div0.mod_mul_r n 16 (16 ^ N.of_nat w)). lia.
Qed.

Lemma length_hex_fixed w n : length (hex_fixed w n) = w.
Proof.
  revert n. induction w as [|w IH]; intros n; cbn [hex_fixed]; [done|].
  rewrite length_app, IH. cbn. lia.
Qed.

Lemma hex_fixed_no_hyphen w n : Forall (λ c, c ≠ 45%N) (hex_fixed w n).
Proof.
  revert n. induction w as [|w IH]; intros n; cbn [hex_fixed]; [constructor|].
  apply Forall_app. split; [done|]. constructor; [|constructor].
  unfold hex_char. generalize (n mod 16)%N. intros d. destruct (N.ltb_spec d 10); lia.
Qed.

Lemma filter_no_hyphen s :
  Forall (λ c, c ≠ 45%N) s → List.filter (λ c, negb (c =? 45)%N) s = s.
Proof.
  induction 1 as [|c s Hc _ IH]; cbn [List.filter]; [done|].
  rewrite (proj2 (N.eqb_neq _ _) Hc). cbn [negb]. by rewrite IH.
Qed.

Lemma take_drop_more {A} (l : list A) n k : take k (drop n l) ++ drop (n + k) l = drop n l.
Proof. rewrite <- drop_drop. apply take_drop. Qed.

Lemma uuid_roundtrip u : (u < 2 ^ 128)%N → uuid_of_str (str_of_uuid u) = Some u.
Proof.
  intros Hu. unfold uuid_of_str, str_of_uuid. cbv zeta.
  set (h := hex_fixed 32 u).
  assert (Forall (λ c, c ≠ 45%N) h) as Hh by apply hex_fixed_no_hyphen.
  rewrite !List.filter_app. change (List.filter _ (u8 "-")) with (@nil N). cbn [app].
  rewrite !filter_no_hyphen by auto using Forall_take, Forall_drop.
  assert (take 8 h ++ take 4 (drop 8 h) ++ take 4 (drop 12 h) ++ take 4 (drop 16 h) ++ drop 20 h
          = h) as ->.
  { pose proof (take_drop_more h 16 4) as E16. pose proof (take_drop_more h 12 4) as E12.
    pose proof (take_drop_more h 8 4) as E8. cbn [Nat.add] in E16, E12, E8.
    rewrite E16, E12, E8. apply take_drop. }
  subst h. rewrite length_hex_fixed, Nat.eqb_refl, hex_fold_fixed. f_equal.
  rewrite N.mod_small; [lia|]. change (16 ^ N.of_nat 32)%N with (2 ^ 128)%N. done.
Qed.

Definition uuid_ok (o : option UUID) : Prop := ∀ u, o = Some u → (u < 2 ^ 128)%N.

Definition bindings_ok (b : PromptBindings) : Prop :=
  uuid_ok (pb_review_system_id b) ∧ uuid_ok (pb_conventions_id b) ∧ uuid_ok (pb_verifier_id b).

Lemma read_uuid_json stored name o :
  assoc name stored = Some (JUuid o) → uuid_ok o → read_uuid stored name = Some o.
Proof.
  intros Ha Ho. unfold read_uuid. rewrite Ha. destruct o as [u|]; [|done].
  change (Some <$> uuid_of_str (str_of_uuid u) = Some (Some u)).
  rewrite uuid_roundtrip; [done|by apply Ho].
Qed.
Lemma read_opt_json stored name o :
  assoc name stored = Some (JOpt JStr o) → read_opt stored name = Some o.
Proof. intros Ha. unfold read_opt. rewrite Ha. by destruct o. Qed.

Lemma read_str_json stored name d s :
  assoc name stored = Some (JStr s) → read_str stored name d = Some s.
Proof. intros Ha. unfold read_str. by rewrite Ha. Qed.
Lemma read_int_json stored name d z :
  assoc name stored = Some (JInt z) → read_int stored name d = Some z.
Proof. intros Ha. unfold read_int. by rewrite Ha. Qed.

Lemma bindings_roundtrip b : bindings_ok b → bindings_of_json (bindings_to_json b) = Some b.
Proof.
  intros (H1 & H2 & H3). unfold bindings_of_json.
  rewrite (read_uuid_json _ (u8 "review_system_id") (pb_review_system_id b)) by done.
  rewrite (read_uuid_json _ (u8 "conventions_id") (pb_conventions_id b)) by done.
  rewrite (read_uuid_json _ (u8 "verifier_id") (pb_verifier_id b)) by done.
  by destruct b.
Qed.

Lemma profile_roundtrip p : profile_ok p = true → profile_of_json (profile_to_json p) = Some p.
Proof.
  intros Hp. unfold profile_of_json.
  repeat match goal with
  | |- context [read_opt ?stored ?name] => erewrite (read_opt_json stored name) by reflexivity
  | |- context [read_str ?stored ?name ?d] => erewrite (read_str_json stored name) by reflexivity
  | |- context [read_int ?stored ?name ?d] => erewrite (read_int_json stored name) by reflexivity
  end.
  cbn [mbind option_bind]. cbv zeta.
  match goal with |- (if profile_ok ?q then _ else _) = _ => replace q with p by by destruct p end.
  by rewrite Hp.
Qed.
