(* ===== verification/PolicyPrepare.v ===== *)
(** * The policy of a run ([policy_snapshot_unit_of_work.py], [prepare_policy_snapshot.py])

    The stored documents and snapshots, and the use case that reads, stages and stores them.  Each
    call of the store is a function of the database that the call finds: the statements of one call
    run under the lock of the run's row where the code takes it.  Other workers change the database
    between two calls; [env] says how, and [policy_step] lists what they may do.  A call that raises
    leaves the database as it was. *)

From Stdlib Require Import String QArith.
From stdpp Require Import numbers gmap.
From S2P Require Import Prelude PyText PyHash DiffMap Verdict RunFailures PolicyErrors.
From S2P Require Import PolicyDocuments ReviewIgnore RunStore PolicySnapshots.
#[local] Open Scope Z_scope.

(** ** Rows *)

(** [RunPolicyDocument]; the path is the key of the row within its run. *)
Record DocumentRow : Type := mkDocumentRow {
  dr_presence : DocumentPresence;
  dr_blob_oid : option pystr;
  dr_raw_sha256 : option pystr;
  dr_text_sha256 : option pystr;
  dr_raw_bytes : option (list byte);
  dr_text : option pystr;
  dr_byte_count : option Z;
  dr_line_count : option Z
}.

(** [RunPolicySnapshot]; the run is the key. *)
Record SnapshotRow : Type := mkSnapshotRow {
  sr_snapshot_id : UUID;
  sr_repository_id : UUID;
  sr_schema_version : Z;
  sr_policy_base_sha : pystr;
  sr_ignore_patterns : list pystr;
  sr_ignore_digest : pystr;
  sr_parser_profile : pystr;
  sr_parser_version : pystr;
  sr_matcher_version : pystr;
  sr_limits_version : pystr;
  sr_builtin_exclusions_version : pystr;
  sr_priority_matcher_version : pystr;
  sr_service_defaults_rule_version_id : UUID;
  sr_defaults_checksum : pystr;
  sr_prompt_bindings : list (pystr * json);
  sr_execution_profile : list (pystr * json);
  sr_policy_digest : pystr;
  sr_severity_threshold : option SeverityThreshold;
  sr_max_comments : option Z;
  sr_created_at : Z
}.

(** The columns of [runs] that pin its policy. *)
Record PolicyColumns : Type := mkPolicyColumns {
  pc_rule_version_id : UUID;
  pc_prompt_version_id : UUID;
  pc_conventions_prompt_version_id : option UUID;
  pc_verifier_prompt_version_id : option UUID;
  pc_severity_threshold : option SeverityThreshold;
  pc_max_comments : option Z
}.

Record PolicyDb : Type := mkPolicyDb {
  p_base : Db;
  p_columns : gmap UUID PolicyColumns;
  p_rules : gmap UUID pystr;
  p_prompts : gmap UUID (pystr * Z);
  p_documents : gmap UUID (gmap pystr DocumentRow);
  p_snapshots : gmap UUID SnapshotRow
}.

Definition set_documents (m : gmap UUID (gmap pystr DocumentRow)) (d : PolicyDb) : PolicyDb :=
  mkPolicyDb (p_base d) (p_columns d) (p_rules d) (p_prompts d) m (p_snapshots d).
Definition set_snapshots (m : gmap UUID SnapshotRow) (d : PolicyDb) : PolicyDb :=
  mkPolicyDb (p_base d) (p_columns d) (p_rules d) (p_prompts d) (p_documents d) m.

(** What a call raises: a policy failure, a cancelled run, no pinned versions, a row no writer
    stores, a lost path, a violated constraint, or what the masks' reader raises besides. *)
Inductive PrepareError : Type :=
| PE_policy (e : PolicyError)
| PE_cancelled (reason : pystr)
| PE_no_pins
| PE_row
| PE_key
| PE_constraint
| PE_ignore (e : IgnoreError).

(** ** The store *)

Definition document_rows (d : PolicyDb) (run_id : UUID) : gmap pystr DocumentRow :=
  default ∅ (p_documents d !! run_id).

Definition document_of_row (path : pystr) (r : DocumentRow) : PolicyDocument :=
  mkPolicyDocument path (dr_presence r) (dr_blob_oid r) (dr_raw_sha256 r) (dr_text_sha256 r)
    (dr_text r) (dr_byte_count r) (dr_line_count r).

(** The names of the content columns that do not match the presence. *)
Definition wrong_columns (r : DocumentRow) : list pystr :=
  let present := bool_decide (dr_presence r = Doc_present) in
  fst <$> List.filter (λ c, eqb (snd c) present)
    [(u8 "blob_oid", is_none (dr_blob_oid r)); (u8 "raw_sha256", is_none (dr_raw_sha256 r));
     (u8 "text_sha256", is_none (dr_text_sha256 r)); (u8 "text", is_none (dr_text r));
     (u8 "byte_count", is_none (dr_byte_count r)); (u8 "line_count", is_none (dr_line_count r))].

Definition read_document (path : pystr) (r : DocumentRow) : result PolicyError LoadedPolicyDocument :=
  let document := document_of_row path r in
  if document_fields_ok document then
    _ ← verify_policy_document document (dr_raw_bytes r);
    Ok (mkLoadedPolicyDocument document (dr_raw_bytes r))
  else
    Err (integrity_error
           (u8 "The stored fields of a policy document do not match its presence: "
            ++ join (u8 ", ") (wrong_columns r)) (Some path) None).

Fixpoint read_documents (rows : list (pystr * DocumentRow))
  : result PolicyError (list LoadedPolicyDocument) :=
  match rows with
  | [] => Ok []
  | (path, r) :: rest =>
      item ← read_document path r;
      items ← read_documents rest;
      Ok (item :: items)
  end.

Definition path_leb (a b : pystr * DocumentRow) : bool := str_leb (fst a) (fst b).

Definition get_staged_documents (d : PolicyDb) (run_id : UUID)
  : result PolicyError (list LoadedPolicyDocument) :=
  read_documents (py_sorted path_leb (map_to_list (document_rows d run_id))).

(** [{item.document.path: item.document for item in staged}], asked for one path *)
Definition by_path (staged : list LoadedPolicyDocument) (path : pystr) : option PolicyDocument :=
  assoc path ((λ i, (pd_path (ld_document i), ld_document i)) <$> staged).

Section Pins.
Context (execution_profile : ExecutionProfile).

(** [get_pins]; the foreign keys of a run keep its version rows. *)
Definition pinned_prompt (d : PolicyDb) (o : option UUID) : option (option (UUID * pystr * Z)) :=
  match o with
  | None => Some None
  | Some id =>
      match p_prompts d !! id with
      | Some (checksum, version) => Some (Some (id, checksum, version))
      | None => None
      end
  end.

Definition version_text (version : Z) : pystr := u8 "v" ++ str_of_Z version.

Definition run_bindings (id : UUID) (checksum : pystr) (version : Z)
    (conventions verifier : option (UUID * pystr * Z)) : PromptBindings :=
  mkPromptBindings checksum
    (match conventions with Some (_, c, _) => c | None => [] end)
    (match verifier with Some (_, c, _) => c | None => [] end)
    (u8 "review.system") (version_text version) (u8 "review.conventions")
    (match conventions with Some (_, _, v) => version_text v | None => u8 "v2" end)
    (u8 "review.verifier")
    (match verifier with Some (_, _, v) => version_text v | None => u8 "v2" end)
    (Some id)
    (match conventions with Some (i, _, _) => Some i | None => None end)
    (match verifier with Some (i, _, _) => Some i | None => None end).

Definition get_pins (d : PolicyDb) (run_id : UUID) : option RunPolicyPins :=
  '(run, change) ← joined (p_base d) run_id;
  columns ← p_columns d !! run_id;
  defaults_checksum ← p_rules d !! pc_rule_version_id columns;
  '(checksum, version) ← p_prompts d !! pc_prompt_version_id columns;
  conventions ← pinned_prompt d (pc_conventions_prompt_version_id columns);
  verifier ← pinned_prompt d (pc_verifier_prompt_version_id columns);
  Some (mkRunPolicyPins run_id (cc_repository_id change) (pin_base_sha (run_pinned run))
          (pc_rule_version_id columns) defaults_checksum
          (run_bindings (pc_prompt_version_id columns) checksum version conventions verifier)
          execution_profile (pc_severity_threshold columns) (pc_max_comments columns)).

(** [_lock_active_run]: a run whose origin is gone, then one that is not running, is refused; the
    check is [run_origin.origin_active], without the Bitbucket query of the lifecycle store. *)
Definition lock_active_run (d : PolicyDb) (run_id : UUID) : result PrepareError unit :=
  match joined (p_base d) run_id with
  | None => Err (PE_cancelled (u8 "installation_unavailable"))
  | Some (run, change) =>
      if negb (run_origin_active run change)
      then Err (PE_cancelled (u8 "installation_unavailable"))
      else if negb (bool_decide (run_state run = Running))
      then Err (PE_cancelled (u8 "run_inactive"))
      else Ok tt
  end.

Definition row_of_document (item : LoadedPolicyDocument) : DocumentRow :=
  let d := ld_document item in
  mkDocumentRow (pd_presence d) (pd_blob_oid d) (pd_raw_sha256 d) (pd_text_sha256 d) (ld_raw item)
    (pd_text d) (pd_byte_count d) (pd_line_count d).

(** [ck_run_policy_documents_content_matches_presence] *)
Definition document_check (r : DocumentRow) : bool :=
  let missing := bool_decide (dr_presence r = Doc_missing) in
  eqb missing (is_none (dr_text r)) && eqb missing (is_none (dr_raw_bytes r))
  && eqb missing (is_none (dr_raw_sha256 r)) && eqb missing (is_none (dr_text_sha256 r))
  && eqb missing (is_none (dr_blob_oid r)).

(** An [INSERT .. ON CONFLICT DO NOTHING]: a constraint of the row is checked in any case. *)
Definition insert_document (run_id : UUID) (item : LoadedPolicyDocument) (d : PolicyDb)
  : result PrepareError PolicyDb :=
  let row := row_of_document item in
  let path := pd_path (ld_document item) in
  if negb (document_check row) then Err PE_constraint
  else match document_rows d run_id !! path with
       | Some _ => Ok d
       | None => Ok (set_documents (<[run_id := <[path := row]> (document_rows d run_id)]> (p_documents d)) d)
       end.

Fixpoint insert_documents (run_id : UUID) (items : list LoadedPolicyDocument) (d : PolicyDb)
  : result PrepareError PolicyDb :=
  match items with
  | [] => Ok d
  | item :: rest => d' ← insert_document run_id item d; insert_documents run_id rest d'
  end.

Definition stage_documents (run_id : UUID) (items : list LoadedPolicyDocument) (d : PolicyDb)
  : result PrepareError (PolicyDb * list LoadedPolicyDocument) :=
  _ ← lock_active_run d run_id;
  d' ← insert_documents run_id items d;
  staged ← map_err PE_policy (get_staged_documents d' run_id);
  Ok (d', staged).

Definition lost_document (base : pystr) : PolicyError :=
  integrity_error (u8 "The policy snapshot has lost a document") None (Some base).

(** The snapshot of a row and its documents. *)
Definition snapshot_of_row (run_id : UUID) (r : SnapshotRow) (rules agents : PolicyDocument)
    (bindings : PromptBindings) (profile : ExecutionProfile) : PolicySnapshot :=
  mkPolicySnapshot (sr_schema_version r) (sr_snapshot_id r) run_id (sr_repository_id r)
    (sr_policy_base_sha r) rules agents (sr_ignore_patterns r) (sr_ignore_digest r)
    (sr_parser_profile r) (sr_parser_version r) (sr_matcher_version r) (sr_limits_version r)
    (sr_builtin_exclusions_version r) (sr_priority_matcher_version r)
    (sr_service_defaults_rule_version_id r) (sr_defaults_checksum r) bindings profile
    (sr_policy_digest r) (Some (sr_created_at r)) (sr_severity_threshold r) (sr_max_comments r).

(** [set(staged) != {RULES, AGENTS}]: the paths are distinct, so two of them are the two. *)
Definition policy_documents (staged : list LoadedPolicyDocument)
  : option (PolicyDocument * PolicyDocument) :=
  if (length staged =? 2)%nat then
    rules ← by_path staged RULES_DOCUMENT_PATH;
    agents ← by_path staged AGENTS_DOCUMENT_PATH;
    Some (rules, agents)
  else None.

Definition of_option {A} (e : PrepareError) (o : option A) : result PrepareError A :=
  match o with Some a => Ok a | None => Err e end.

(** The snapshot of the stored rows, its digests checked. *)
Definition read_snapshot (d : PolicyDb) (run_id : UUID) (row : SnapshotRow)
  : result PrepareError PolicySnapshot :=
  staged ← map_err PE_policy (get_staged_documents d run_id);
  '(rules, agents) ← of_option (PE_policy (lost_document (sr_policy_base_sha row)))
                       (policy_documents staged);
  bindings ← of_option PE_row (bindings_of_json (sr_prompt_bindings row));
  profile ← of_option PE_row (profile_of_json (sr_execution_profile row));
  let snapshot := snapshot_of_row run_id row rules agents bindings profile in
  _ ← map_err PE_policy
        (verify_policy_snapshot snapshot (sr_prompt_bindings row) (sr_execution_profile row));
  Ok snapshot.

Definition get_snapshot (d : PolicyDb) (run_id : UUID) : result PrepareError (option PolicySnapshot) :=
  match p_snapshots d !! run_id with
  | None => Ok None
  | Some row =>
      snapshot ← read_snapshot d run_id row;
      _ ← map_err PE_policy (verify_snapshot_pins snapshot (get_pins d run_id));
      Ok (Some snapshot)
  end.

Definition row_of_snapshot (s : PolicySnapshot) (now : Z) : SnapshotRow :=
  mkSnapshotRow (sn_snapshot_id s) (sn_repository_id s) (sn_schema_version s)
    (sn_policy_base_sha s) (sn_ignore_patterns s) (sn_ignore_digest s) (sn_parser_profile s)
    (sn_parser_version s) (sn_matcher_version s) (sn_limits_version s)
    (sn_builtin_exclusions_version s) (sn_priority_matcher_version s)
    (sn_service_defaults_rule_version_id s) (sn_defaults_checksum s)
    (bindings_to_json (sn_prompt_bindings s)) (profile_to_json (sn_execution_profile s))
    (sn_policy_digest s) (sn_severity_threshold s) (sn_max_comments s) now.

(** [ck_run_policy_snapshots_publication_settings] *)
Definition snapshot_check (r : SnapshotRow) : bool :=
  match sr_severity_threshold r, sr_max_comments r with
  | None, None => true
  | Some _, Some n => 0 <? n
  | _, _ => false
  end.

(** [snapshot_id] is unique. *)
Definition snapshot_id_used (d : PolicyDb) (id : UUID) : bool :=
  existsb (λ kv, (sr_snapshot_id (snd kv) =? id)%N) (map_to_list (p_snapshots d)).

Definition insert_snapshot (s : PolicySnapshot) (now : Z) (d : PolicyDb)
  : result PrepareError PolicyDb :=
  let row := row_of_snapshot s now in
  if negb (snapshot_check row) then Err PE_constraint
  else match p_snapshots d !! sn_run_id s with
       | Some _ => Ok d
       | None =>
           if snapshot_id_used d (sn_snapshot_id s) then Err PE_constraint
           else Ok (set_snapshots (<[sn_run_id s := row]> (p_snapshots d)) d)
       end.

Definition create_snapshot (s : PolicySnapshot) (now : Z) (d : PolicyDb)
  : result PrepareError (PolicyDb * PolicySnapshot) :=
  _ ← lock_active_run d (sn_run_id s);
  d' ← insert_snapshot s now d;
  stored ← get_snapshot d' (sn_run_id s);
  match stored with
  | Some snapshot => Ok (d', snapshot)
  | None => Err PE_row
  end.
End Pins.

(** ** The use case *)

(** The state of one execution: the database, the calls made to the store and to the source. *)
Record PrepareState : Type := mkPrepareState {
  pp_db : PolicyDb; pp_store_calls : nat; pp_source_calls : nat
}.

Section Prepare.
Context (markdown_parse : pystr → list MdToken) (PARSER_VERSION : pystr).
Context (execution_profile : ExecutionProfile) (source_factory : RunPolicyPins → PolicyDocumentSource).
Context (env : nat → PolicyDb → PolicyDb) (uuid4 : UUID) (now : Z).

Definition preparing (A : Type) : Type := stateT PrepareState PrepareError A.

(** A call of the store finds what the other workers have left; a failed one changes nothing. *)
Definition store_call {A} (f : PolicyDb → result PrepareError (PolicyDb * A)) : preparing A :=
  λ s, let d := env (pp_store_calls s) (pp_db s) in
       match f d with
       | Ok (d', a) => (mkPrepareState d' (S (pp_store_calls s)) (pp_source_calls s), Ok a)
       | Err e => (mkPrepareState d (S (pp_store_calls s)) (pp_source_calls s), Err e)
       end.
Definition store_read {A} (f : PolicyDb → result PrepareError A) : preparing A :=
  store_call (λ d, a ← f d; Ok (d, a)).

Definition source_call {A} (m : loading A) : preparing A :=
  λ s, let '(n, r) := m (pp_source_calls s) in
       (mkPrepareState (pp_db s) (pp_store_calls s) n, map_err PE_policy r).

Definition checked {A} (r : result PrepareError A) : preparing A :=
  match r with Ok a => mret a | Err e => raise_st e end.

(** Each document commits before the next read. *)
Fixpoint load_missing (pins : RunPolicyPins) (run_id : UUID) (missing : list pystr)
    (staged : list LoadedPolicyDocument) : preparing (list LoadedPolicyDocument) :=
  match missing with
  | [] => mret staged
  | path :: rest =>
      loaded ← source_call (load_document (source_factory pins) (rp_policy_base_sha pins) path);
      staged' ← store_call (stage_documents run_id [loaded]);
      load_missing pins run_id rest staged'
  end.

Definition ignore_error (e : IgnoreError) : PrepareError :=
  match e with IE_policy e' => PE_policy e' | _ => PE_ignore e end.

Definition differs (base : pystr) : PolicyError :=
  integrity_error (u8 "The stored policy snapshot differs from the pinned sources") None (Some base).

(** The rest of the attempt once the documents are staged. *)
Definition store_policy (pins : RunPolicyPins) (staged : list LoadedPolicyDocument)
  : preparing PolicySnapshot :=
  rules ← checked (of_option PE_key (by_path staged RULES_DOCUMENT_PATH));
  agents ← checked (of_option PE_key (by_path staged AGENTS_DOCUMENT_PATH));
  ignore ← checked (map_err ignore_error
             (parse_review_ignore markdown_parse (Some (rp_policy_base_sha pins)) (pd_text rules)));
  let snapshot := build_policy_snapshot PARSER_VERSION pins rules agents ignore uuid4 in
  stored ← store_call (create_snapshot execution_profile snapshot now);
  if negb (sn_policy_digest stored =?s sn_policy_digest snapshot)
  then raise_st (PE_policy (differs (rp_policy_base_sha pins)))
  else mret stored.

(** [PreparePolicySnapshot.execute] *)
Definition prepare_policy (run_id : UUID) : preparing PolicySnapshot :=
  found ← store_read (λ d, get_snapshot execution_profile d run_id);
  match found with
  | Some snapshot =>
      _ ← checked (map_err PE_policy
            (validate_execution_profile_versions (sn_execution_profile snapshot)));
      mret snapshot
  | None =>
      read ← store_read (λ d, Ok (get_pins execution_profile d run_id));
      pins ← checked (of_option PE_no_pins read);
      _ ← checked (map_err PE_policy (validate_execution_profile_versions (rp_execution_profile pins)));
      staged ← store_read (λ d, map_err PE_policy (get_staged_documents d run_id));
      let staged_paths := (λ i, pd_path (ld_document i)) <$> staged in
      let missing := List.filter (λ p, negb (str_mem p staged_paths))
                       [RULES_DOCUMENT_PATH; AGENTS_DOCUMENT_PATH] in
      staged' ← load_missing pins run_id missing staged;
      store_policy pins staged'
  end.
End Prepare.

(** ** What other workers may do *)

(** Another worker stages or stores something for any run; anything happens to the runs and to the
    version rows.  Nothing deletes a run or updates a row of the two policy tables. *)
Inductive policy_step (d : PolicyDb) : PolicyDb → Prop :=
| Step_stage run_id items d' staged :
    stage_documents run_id items d = Ok (d', staged) → policy_step d d'
| Step_create profile s now d' stored :
    create_snapshot profile s now d = Ok (d', stored) → policy_step d d'
| Step_other base columns rules prompts :
    policy_step d (mkPolicyDb base columns rules prompts (p_documents d) (p_snapshots d)).

Definition policy_steps : PolicyDb → PolicyDb → Prop := rtc policy_step.

(** ** Rows are written once *)

Record grows (d d' : PolicyDb) : Prop := {
  g_documents : ∀ id path row, document_rows d id !! path = Some row → document_rows d' id !! path = Some row;
  g_snapshots : p_snapshots d ⊆ p_snapshots d'
}.

#[export] Instance grows_preorder : PreOrder grows.
Proof.
  split; [by split|]. intros d1 d2 d3 [HD1 HS1] [HD2 HS2].
  split; [eauto|by transitivity (p_snapshots d2)].
Qed.

Lemma insert_document_grows run_id item d d' :
  insert_document run_id item d = Ok d' → grows d d'.
Proof.
  unfold insert_document. destruct (negb _); [done|].
  destruct (document_rows d run_id !! _) eqn:E; intros [= <-]; [done|]. split; [|done].
  intros id path row Hr. unfold document_rows. cbn [p_documents set_documents].
  destruct (decide (id = run_id)) as [->|Hn].
  - rewrite lookup_insert_eq. cbn [default]. apply lookup_insert_Some. right. split; [|done].
    intros <-. congruence.
  - by rewrite lookup_insert_ne.
Qed.

Lemma insert_documents_grows run_id items d d' :
  insert_documents run_id items d = Ok d' → grows d d'.
Proof.
  revert d. induction items as [|item items IH]; intros d; cbn [insert_documents]; [by intros [= <-]|].
  intros (d1 & H1%insert_document_grows & H2%IH)%bind_ok. by transitivity d1.
Qed.

Lemma stage_documents_grows run_id items d d' staged :
  stage_documents run_id items d = Ok (d', staged) → grows d d'.
Proof.
  intros (_ & _ & (d1 & H1%insert_documents_grows & (l & _ & [= <- <-])%bind_ok)%bind_ok)%bind_ok.
  done.
Qed.

Lemma insert_snapshot_grows s now d d' : insert_snapshot s now d = Ok d' → grows d d'.
Proof.
  unfold insert_snapshot. destruct (negb _); [done|].
  destruct (p_snapshots d !! sn_run_id s) eqn:E; [by intros [= <-]|].
  destruct (snapshot_id_used _ _); [done|]. intros [= <-]. split; [done|].
  by apply insert_subseteq.
Qed.

Lemma create_snapshot_inv profile s now d d' stored :
  create_snapshot profile s now d = Ok (d', stored) →
  lock_active_run d (sn_run_id s) = Ok tt ∧ insert_snapshot s now d = Ok d'
  ∧ get_snapshot profile d' (sn_run_id s) = Ok (Some stored).
Proof.
  intros ([] & Hl & (d1 & Hi & (o & Hg & Ho)%bind_ok)%bind_ok)%bind_ok.
  destruct o as [s1|]; [|done]. by injection Ho as <- <-.
Qed.

Lemma policy_step_grows d d' : policy_step d d' → grows d d'.
Proof.
  intros [? ? ? ? H1|? ? ? ? ? H1|? ? ? ?]; [..|by split].
  - by eapply stage_documents_grows.
  - apply create_snapshot_inv in H1 as (_ & H1 & _). by eapply insert_snapshot_grows.
Qed.

Lemma policy_steps_grow d d' : policy_steps d d' → grows d d'.
Proof.
  induction 1 as [|d1 d2 d3 Hs%policy_step_grows _ IH]; [done|]. by transitivity d2.
Qed.

(** ** Reading a snapshot *)

Lemma assoc_None_keys {A} k (l : list (pystr * A)) : assoc k l = None ↔ (k ∉ l.*1).
Proof.
  induction l as [|[k' v] l IH]; cbn [assoc fmap list_fmap fst]; [split; [set_solver|done]|].
  rewrite not_elem_of_cons. destruct (k =?s k') eqn:E; autorewrite with dmc_bool in E.
  - split; [done|]. by intros [? _].
  - rewrite IH. tauto.
Qed.
Lemma assoc_Some_keys {A} k v (l : list (pystr * A)) :
  NoDup l.*1 → assoc k l = Some v ↔ (k, v) ∈ l.
Proof.
  induction l as [|[k' v'] l IH]; cbn [assoc fmap list_fmap fst]; [intros _; split; [done|set_solver]|].
  intros [Hn Hd]%NoDup_cons. rewrite elem_of_cons. destruct (k =?s k') eqn:E; autorewrite with dmc_bool in E.
  - subst k'. split; [intros [= ->]; by left|]. intros [[= ->]|Hk]; [done|].
    exfalso. apply Hn. apply list_elem_of_fmap. by exists (k, v).
  - rewrite IH by done. split; [by right|]. intros [[= -> _]|?]; done.
Qed.

Lemma read_document_ok path r item :
  read_document path r = Ok item →
  ld_document item = document_of_row path r ∧ ld_raw item = dr_raw_bytes r
  ∧ document_fields_ok (document_of_row path r) = true
  ∧ verify_policy_document (document_of_row path r) (dr_raw_bytes r) = Ok tt.
Proof.
  unfold read_document. cbv zeta. destruct (document_fields_ok _) eqn:E; [|done].
  intros ([] & Hv & [= <-])%bind_ok. done.
Qed.

Lemma read_documents_ok rows items :
  read_documents rows = Ok items ↔ Forall2 (λ pr item, read_document (fst pr) (snd pr) = Ok item) rows items.
Proof.
  revert items. induction rows as [|[path r] rows IH]; intros items; cbn [read_documents].
  { split; [by intros [= <-]|intros Hf; by inversion Hf]. }
  split.
  - intros (item & Hi & (rest & Hr & [= <-])%bind_ok)%bind_ok. constructor; [done|by apply IH].
  - intros Hf. inversion Hf as [|? item ? rest Hi Hr]; simplify_eq. cbn [fst snd] in Hi.
    rewrite Hi. cbn. apply IH in Hr. by rewrite Hr.
Qed.

Definition sorted_rows (d : PolicyDb) (run_id : UUID) : list (pystr * DocumentRow) :=
  py_sorted path_leb (map_to_list (document_rows d run_id)).

Lemma sorted_rows_lookup d run_id path r :
  (path, r) ∈ sorted_rows d run_id ↔ document_rows d run_id !! path = Some r.
Proof. unfold sorted_rows. rewrite elem_of_py_sorted. apply elem_of_map_to_list. Qed.

Lemma sorted_rows_NoDup d run_id : NoDup (sorted_rows d run_id).*1.
Proof.
  unfold sorted_rows. rewrite (fmap_Permutation fst _ _ (py_sorted_perm path_leb _)).
  apply NoDup_fst_map_to_list.
Qed.

(** What a successful read says of a path. *)
Lemma staged_by_path d run_id staged path :
  get_staged_documents d run_id = Ok staged →
  by_path staged path = document_of_row path <$> document_rows d run_id !! path.
Proof.
  intros Hs%read_documents_ok. unfold by_path. fold (sorted_rows d run_id) in Hs.
  assert ((λ i, (pd_path (ld_document i), ld_document i)) <$> staged
          = (λ pr, (fst pr, document_of_row (fst pr) (snd pr))) <$> sorted_rows d run_id) as ->.
  { induction Hs as [|[p r] item rows items Hr _ IH]; [done|]. cbn [fmap list_fmap fst snd] in *.
    apply read_document_ok in Hr as (-> & _). by f_equal. }
  set (view := λ pr : pystr * DocumentRow, (fst pr, document_of_row (fst pr) (snd pr))).
  assert ((view <$> sorted_rows d run_id).*1 = (sorted_rows d run_id).*1) as Hk
    by (rewrite <- list_fmap_compose; done).
  destruct (document_rows d run_id !! path) as [r|] eqn:Er; cbn [fmap option_fmap option_map].
  - apply assoc_Some_keys; [rewrite Hk; apply sorted_rows_NoDup|].
    apply list_elem_of_fmap. exists (path, r). split; [done|]. by apply sorted_rows_lookup.
  - apply assoc_None_keys. rewrite Hk, list_elem_of_fmap. intros ([p r] & -> & Hp).
    apply sorted_rows_lookup in Hp. cbn [fst] in Er. congruence.
Qed.

Lemma staged_verified d run_id staged path r :
  get_staged_documents d run_id = Ok staged → document_rows d run_id !! path = Some r →
  document_fields_ok (document_of_row path r) = true
  ∧ verify_policy_document (document_of_row path r) (dr_raw_bytes r) = Ok tt.
Proof.
  intros Hs%read_documents_ok Hr%sorted_rows_lookup. fold (sorted_rows d run_id) in Hs.
  apply list_elem_of_lookup_1 in Hr as [i Hi].
  destruct (Forall2_lookup_l _ _ _ _ _ Hs Hi) as (item & _ & Hitem).
  by apply read_document_ok in Hitem as (_ & _ & ? & ?).
Qed.

(** A snapshot that is read is intact: its documents, masks and versions match their checksums, and
    its pins are those of the run. *)
Record snapshot_intact (profile : ExecutionProfile) (d : PolicyDb) (s : PolicySnapshot) : Prop := {
  si_rules : ∃ raw, pd_path (sn_rules s) = RULES_DOCUMENT_PATH
             ∧ document_fields_ok (sn_rules s) = true
             ∧ verify_policy_document (sn_rules s) raw = Ok tt;
  si_agents : ∃ raw, pd_path (sn_agents s) = AGENTS_DOCUMENT_PATH
              ∧ document_fields_ok (sn_agents s) = true
              ∧ verify_policy_document (sn_agents s) raw = Ok tt;
  si_masks : sn_ignore_digest s = ignore_digest (sn_ignore_patterns s) (sn_matcher_version s)
                                    (sn_builtin_exclusions_version s) (sn_limits_version s);
  si_digest : ∃ bindings profile',
      bindings_of_json bindings = Some (sn_prompt_bindings s)
      ∧ profile_of_json profile' = Some (sn_execution_profile s)
      ∧ sn_policy_digest s
        = json_digest (canonical_policy_payload (sn_schema_version s) (sn_policy_base_sha s)
            [sn_rules s; sn_agents s] (sn_ignore_digest s) (sn_parser_profile s)
            (sn_parser_version s) (sn_limits_version s) (sn_defaults_checksum s) bindings profile'
            (sn_priority_matcher_version s));
  si_pins : ∃ pins, get_pins profile d (sn_run_id s) = Some pins
      ∧ sn_repository_id s = rp_repository_id pins
      ∧ sn_policy_base_sha s = rp_policy_base_sha pins
      ∧ sn_service_defaults_rule_version_id s = rp_service_defaults_rule_version_id pins
      ∧ sn_defaults_checksum s = rp_defaults_checksum pins
      ∧ sn_prompt_bindings s = rp_prompt_bindings pins
}.

Lemma verify_policy_snapshot_ok s b p :
  verify_policy_snapshot s b p = Ok tt ↔
  sn_ignore_digest s = ignore_digest (sn_ignore_patterns s) (sn_matcher_version s)
                         (sn_builtin_exclusions_version s) (sn_limits_version s)
  ∧ sn_policy_digest s
    = json_digest (canonical_policy_payload (sn_schema_version s) (sn_policy_base_sha s)
        [sn_rules s; sn_agents s] (sn_ignore_digest s) (sn_parser_profile s)
        (sn_parser_version s) (sn_limits_version s) (sn_defaults_checksum s) b p
        (sn_priority_matcher_version s)).
Proof.
  unfold verify_policy_snapshot. cbv zeta.
  repeat (match goal with |- context [negb (?a =?s ?b)] => destruct (a =?s b) eqn:? end;
          cbn [negb]; autorewrite with dmc_bool in * );
    (split; [done||(intros _; split; by symmetry)|intros [? ?]; congruence||done]).
Qed.

Lemma verify_snapshot_pins_ok s o :
  verify_snapshot_pins s o = Ok tt ↔
  ∃ pins, o = Some pins ∧ sn_repository_id s = rp_repository_id pins
    ∧ sn_policy_base_sha s = rp_policy_base_sha pins
    ∧ sn_service_defaults_rule_version_id s = rp_service_defaults_rule_version_id pins
    ∧ sn_defaults_checksum s = rp_defaults_checksum pins
    ∧ sn_prompt_bindings s = rp_prompt_bindings pins.
Proof.
  unfold verify_snapshot_pins. destruct o as [p|]; [|by split; [|intros (? & ? & _)]]. cbv zeta.
  split.
  - repeat case_match; try done. intros _. exists p.
    repeat match goal with
    | H : negb _ = false |- _ => apply negb_false_iff in H
    | H : (_ =? _)%N = true |- _ => apply N.eqb_eq in H
    | H : bool_decide _ = true |- _ => apply bool_decide_eq_true in H
    end. autorewrite with dmc_bool in *. done.
  - intros (? & [= <-] & -> & -> & -> & -> & ->).
    by rewrite !N.eqb_refl, !str_eqb_refl, bool_decide_eq_true_2.
Qed.

Lemma get_snapshot_inv profile d run_id s :
  get_snapshot profile d run_id = Ok (Some s) →
  ∃ row r a b p, p_snapshots d !! run_id = Some row
    ∧ document_rows d run_id !! RULES_DOCUMENT_PATH = Some r
    ∧ document_rows d run_id !! AGENTS_DOCUMENT_PATH = Some a
    ∧ bindings_of_json (sr_prompt_bindings row) = Some b
    ∧ profile_of_json (sr_execution_profile row) = Some p
    ∧ s = snapshot_of_row run_id row (document_of_row RULES_DOCUMENT_PATH r)
            (document_of_row AGENTS_DOCUMENT_PATH a) b p
    ∧ snapshot_intact profile d s.
Proof.
  unfold get_snapshot. destruct (p_snapshots d !! run_id) as [row|] eqn:Er; [|done].
  intros (s0 & Hread & ([] & Hq & [= ->])%bind_ok)%bind_ok. unfold read_snapshot in Hread.
  apply bind_ok in Hread as (staged & Hs & (docs & Hd & Hrest)%bind_ok).
  destruct (get_staged_documents d run_id) as [l|] eqn:Eg; [|done]. injection Hs as ->.
  unfold policy_documents in Hd. destruct (_ =? 2)%nat; [|done].
  rewrite !(staged_by_path _ _ _ _ Eg) in Hd.
  destruct (document_rows d run_id !! RULES_DOCUMENT_PATH) as [r|] eqn:E1; [|done].
  destruct (document_rows d run_id !! AGENTS_DOCUMENT_PATH) as [a|] eqn:E2; [|done].
  injection Hd as <-.
  apply bind_ok in Hrest as (b & Hb & (p & Hp & Hrest)%bind_ok).
  destruct (bindings_of_json _) eqn:Eb; [|done]. injection Hb as ->.
  destruct (profile_of_json _) eqn:Ep; [|done]. injection Hp as ->.
  apply bind_ok in Hrest as ([] & Hv & [= <-]).
  destruct (verify_policy_snapshot _ _ _) as [[]|] eqn:Ev; [|done].
  destruct (verify_snapshot_pins _ _) as [[]|] eqn:Eq; [|done].
  apply verify_policy_snapshot_ok in Ev as [Hm Hg]. apply verify_snapshot_pins_ok in Eq.
  destruct (staged_verified _ _ _ _ _ Eg E1) as [Hf1 Hv1].
  destruct (staged_verified _ _ _ _ _ Eg E2) as [Hf2 Hv2].
  exists row, r, a, b, p. repeat (split; [done|]). split; [by exists (dr_raw_bytes r)|
    by exists (dr_raw_bytes a)|done| |done].
  by exists (sr_prompt_bindings row), (sr_execution_profile row).
Qed.

(** The snapshot of a run does not change. *)
Lemma get_snapshot_stable profile profile' d d' run_id s s' :
  get_snapshot profile d run_id = Ok (Some s) → grows d d' →
  get_snapshot profile' d' run_id = Ok (Some s') → s' = s.
Proof.
  intros (row & r & a & b & p & Hrow & Hr & Ha & Hb & Hp & -> & _)%get_snapshot_inv [HD HS].
  intros (row' & r' & a' & b' & p' & Hrow' & Hr' & Ha' & Hb' & Hp' & -> & _)%get_snapshot_inv.
  apply HD in Hr, Ha. apply (lookup_weaken _ _ _ _ Hrow) in HS. by simplify_eq.
Qed.

(** ** Executions *)

Section PrepareFacts.
Context (markdown_parse : pystr → list MdToken) (PARSER_VERSION : pystr).
Context (execution_profile : ExecutionProfile) (source_factory : RunPolicyPins → PolicyDocumentSource).
Context (env : nat → PolicyDb → PolicyDb) (uuid4 : UUID) (now : Z).
Hypothesis env_steps : ∀ n d, policy_steps d (env n d).

(** A computation that changes the database by policy steps only. *)
Definition stepping {A} (m : preparing A) : Prop :=
  ∀ s s' r, m s = (s', r) → policy_steps (pp_db s) (pp_db s').

Lemma stepping_ret {A} (a : A) : stepping (mret a).
Proof using. intros s s' r [= <- <-]. constructor. Qed.
Lemma stepping_checked {A} (r : result PrepareError A) : stepping (checked r).
Proof using. destruct r; intros s s' o [= <- <-]; constructor. Qed.
Lemma stepping_raise {A} (e : PrepareError) : stepping (raise_st (A := A) e : preparing A).
Proof using. intros s s' o [= <- <-]. constructor. Qed.
Lemma stepping_bind {A B} (m : preparing A) (f : A → preparing B) :
  stepping m → (∀ a, stepping (f a)) → stepping (m ≫= f).
Proof using.
  intros Hm Hf s s' r. unfold mbind, stateT_bind. destruct (m s) as [s1 [a|e]] eqn:Em.
  - intros Hr. transitivity (pp_db s1); [by eapply Hm|by eapply Hf].
  - intros [= <- <-]. by eapply Hm.
Qed.
Lemma stepping_source {A} (m : loading A) : stepping (source_call m).
Proof using. intros s s' r. unfold source_call. destruct (m _). intros [= <- <-]. constructor. Qed.
Lemma stepping_store {A} (f : PolicyDb → result PrepareError (PolicyDb * A)) :
  (∀ d d' a, f d = Ok (d', a) → policy_steps d d') → stepping (store_call env f).
Proof using env_steps.
  intros Hf s s' r. unfold store_call. destruct (f _) as [[d' x]|e] eqn:Ef; intros [= <- <-]; cbn.
  - transitivity (env (pp_store_calls s) (pp_db s)); [apply env_steps|by eapply Hf].
  - apply env_steps.
Qed.
Lemma stepping_read {A} (f : PolicyDb → result PrepareError A) : stepping (store_read env f).
Proof using env_steps.
  apply stepping_store. intros d d' y (x & _ & [= <- <-])%bind_ok. constructor.
Qed.

Lemma stepping_load pins run_id missing staged :
  stepping (load_missing source_factory env pins run_id missing staged).
Proof using env_steps.
  revert staged. induction missing as [|path rest IH]; intros staged; cbn [load_missing];
    [apply stepping_ret|].
  apply stepping_bind; [apply stepping_source|intros loaded].
  apply stepping_bind; [|auto]. apply stepping_store. intros d d' a Hs.
  apply rtc_once. by eapply Step_stage.
Qed.

Lemma stepping_store_policy pins staged :
  stepping (store_policy markdown_parse PARSER_VERSION execution_profile env uuid4 now pins staged).
Proof using env_steps.
  unfold store_policy. do 3 (apply stepping_bind; [apply stepping_checked|intros ?]).
  apply stepping_bind.
  - apply stepping_store. intros d d' y Hs. apply rtc_once. by eapply Step_create.
  - intros stored. destruct (negb _); [apply stepping_raise|apply stepping_ret].
Qed.

Lemma stepping_execute run_id :
  stepping (prepare_policy markdown_parse PARSER_VERSION execution_profile source_factory env uuid4 now run_id).
Proof using env_steps.
  unfold prepare_policy. apply stepping_bind; [apply stepping_read|intros [s|]].
  - apply stepping_bind; [apply stepping_checked|intros; apply stepping_ret].
  - apply stepping_bind; [apply stepping_read|intros ?].
    do 2 (apply stepping_bind; [apply stepping_checked|intros ?]).
    apply stepping_bind; [apply stepping_read|intros ?].
    apply stepping_bind; [apply stepping_load|intros ?]. apply stepping_store_policy.
Qed.

(** What is returned is the stored snapshot. *)
Lemma store_policy_returns pins staged s s' snapshot :
  store_policy markdown_parse PARSER_VERSION execution_profile env uuid4 now pins staged s
  = (s', Ok snapshot) →
  get_snapshot execution_profile (pp_db s') (rp_run_id pins) = Ok (Some snapshot).
Proof using.
  unfold store_policy, mbind, stateT_bind, checked.
  destruct (by_path staged RULES_DOCUMENT_PATH) as [rules|]; [|done]. cbn [of_option].
  destruct (by_path staged AGENTS_DOCUMENT_PATH) as [agents|]; [|done]. cbn [of_option].
  unfold mret, stateT_ret.
  destruct (map_err ignore_error _) as [ignore|]; [|done]. cbv zeta beta iota.
  unfold store_call. destruct (create_snapshot _ _ _ _) as [[d' stored]|] eqn:Ec; [|done].
  destruct (negb _); [done|]. intros [= <- <-].
  apply create_snapshot_inv in Ec as (_ & _ & Hg). exact Hg.
Qed.

Lemma get_pins_run profile d run_id pins :
  get_pins profile d run_id = Some pins →
  rp_run_id pins = run_id ∧ rp_execution_profile pins = profile.
Proof using.
  unfold get_pins. destruct (joined _ _) as [[run change]|]; [|done]. cbn.
  destruct (p_columns d !! run_id) as [c|]; [|done]. cbn.
  destruct (p_rules d !! _); [|done]. cbn. destruct (p_prompts d !! _) as [[? ?]|]; [|done]. cbn.
  destruct (pinned_prompt d (pc_conventions_prompt_version_id c)); [|done]. cbn.
  destruct (pinned_prompt d (pc_verifier_prompt_version_id c)); [|done]. cbn.
  by intros [= <-].
Qed.

Lemma execute_returns run_id s s' snapshot :
  prepare_policy markdown_parse PARSER_VERSION execution_profile source_factory env uuid4 now run_id s
  = (s', Ok snapshot) →
  get_snapshot execution_profile (pp_db s') run_id = Ok (Some snapshot)
  ∧ (is_Some (p_snapshots (env (pp_store_calls s) (pp_db s)) !! run_id) →
     pp_source_calls s' = pp_source_calls s).
Proof using.
  unfold prepare_policy. unfold mbind at 1, stateT_bind at 1. unfold store_read at 1, store_call at 1.
  set (d := env (pp_store_calls s) (pp_db s)).
  destruct (get_snapshot execution_profile d run_id) as [[found|]|] eqn:Eg; [..|done];
    cbn [mbind result_bind].
  { unfold mbind, stateT_bind, checked, mret, stateT_ret. destruct (map_err _ _); [|done].
    intros [= <- <-]. done. }
  unfold mbind at 1, stateT_bind at 1. unfold store_read at 1, store_call at 1.
  cbn [mbind result_bind pp_db pp_store_calls pp_source_calls].
  set (d1 := env (S (pp_store_calls s)) d).
  destruct (get_pins execution_profile d1 run_id) as [pins|] eqn:Ep; [|done]. cbn [of_option].
  pose proof (proj1 (get_pins_run _ _ _ _ Ep)) as Hrun.
  unfold mbind at 1, stateT_bind at 1. cbn [checked mret stateT_ret].
  unfold mbind at 1, stateT_bind at 1. destruct (map_err _ _); [|done]. cbn [checked mret stateT_ret].
  unfold mbind at 1, stateT_bind at 1. destruct (store_read _ _ _) as [s2 [staged|]]; [|done].
  unfold mbind at 1, stateT_bind at 1. destruct (load_missing _ _ _ _ _ _ _) as [s3 [staged'|]]; [|done].
  intros Hs%store_policy_returns. rewrite Hrun in Hs. split; [done|].
  intros [row Hrow]. exfalso. revert Eg. unfold get_snapshot. rewrite Hrow.
  intros (? & _ & (? & _ & Eg)%bind_ok)%bind_ok. done.
Qed.
End PrepareFacts.

(** ** One policy per run *)

(** A worker of the fleet: its libraries, settings, source, clock and identifiers, and what the
    others do between its calls. *)
Record PolicyWorker : Type := mkPolicyWorker {
  pw_markdown : pystr → list MdToken;
  pw_parser_version : pystr;
  pw_profile : ExecutionProfile;
  pw_source : RunPolicyPins → PolicyDocumentSource;
  pw_env : nat → PolicyDb → PolicyDb;
  pw_uuid : UUID;
  pw_now : Z
}.

Definition prepare_as (w : PolicyWorker) : UUID → preparing PolicySnapshot :=
  prepare_policy (pw_markdown w) (pw_parser_version w) (pw_profile w) (pw_source w) (pw_env w) (pw_uuid w)
    (pw_now w).

Definition others_step (w : PolicyWorker) : Prop := ∀ n d, policy_steps d (pw_env w n d).

(** C11.  A run has one policy, whoever prepares it and whatever the other workers do in between:
    the snapshot an attempt returns is intact (the documents, masks and versions match their
    checksums and the pins are those of the run), every later successful attempt, by any worker
    with any settings and any source, returns exactly the same snapshot, and it does so without
    reading the repository. *)
Theorem one_policy_per_run w1 w2 run_id s1 s1' p1 s2 s2' p2 :
  others_step w1 → others_step w2 →
  prepare_as w1 run_id s1 = (s1', Ok p1) →
  policy_steps (pp_db s1') (pp_db s2) →
  prepare_as w2 run_id s2 = (s2', Ok p2) →
  p2 = p1 ∧ sn_run_id p1 = run_id ∧ snapshot_intact (pw_profile w1) (pp_db s1') p1
  ∧ pp_source_calls s2' = pp_source_calls s2.
Proof.
  intros He1 He2 H1 Hbetween H2.
  pose proof (stepping_execute _ _ _ _ _ _ _ He2 run_id _ _ _ H2) as Hsteps.
  apply execute_returns in H1 as [Hg1 _]. apply execute_returns in H2 as [Hg2 Hcalls].
  destruct (get_snapshot_inv _ _ _ _ Hg1) as (row & r & a & b & p & Hrow & _ & _ & _ & _ & Hp1 & Hi).
  split; [|split; [|split; [done|]]].
  - eapply get_snapshot_stable; [exact Hg1| |exact Hg2].
    transitivity (pp_db s2); by apply policy_steps_grow.
  - by rewrite Hp1.
  - apply Hcalls. exists row.
    assert (grows (pp_db s1') (pw_env w2 (pp_store_calls s2) (pp_db s2))) as [_ HS].
    { transitivity (pp_db s2); apply policy_steps_grow; [done|apply He2]. }
    by eapply lookup_weaken.
Qed.

(** ** The first attempt *)

Lemma rows_insert_eq d id m : document_rows (set_documents (<[id := m]> (p_documents d)) d) id = m.
Proof. unfold document_rows. cbn [p_documents set_documents]. by rewrite lookup_insert_eq. Qed.

Lemma valid_row path item :
  valid_document path (ld_document item) (ld_raw item) →
  document_check (row_of_document item) = true
  ∧ read_document path (row_of_document item) = Ok item
  ∧ document_of_row path (row_of_document item) = ld_document item.
Proof.
  intros [Hpath Hf Hv _ _].
  assert (document_of_row path (row_of_document item) = ld_document item) as Hd
    by (subst path; by destruct item as [[] ?]).
  unfold read_document. rewrite Hd, Hf. cbn [dr_raw_bytes row_of_document]. rewrite Hv.
  split; [|split; [by destruct item|done]].
  destruct item as [[q pr b rs ts t bc lc] raw]. cbn in *. destruct pr.
  - unfold document_fields_ok in Hf. cbn in Hf.
    destruct b, rs, ts, t, bc, lc; try done. by destruct raw.
  - unfold document_fields_ok in Hf. cbn in Hf.
    destruct b, rs, ts, t, bc, lc; try done. by destruct raw.
Qed.

(** A run all of whose rows verify is read completely. *)
Lemma get_staged_ok d run_id :
  map_Forall (λ path r, is_ok (read_document path r) = true) (document_rows d run_id) →
  ∃ staged, get_staged_documents d run_id = Ok staged
            ∧ length staged = size (document_rows d run_id).
Proof.
  intros Hall. unfold get_staged_documents. fold (sorted_rows d run_id).
  assert (Forall (λ pr, is_ok (read_document (fst pr) (snd pr)) = true) (sorted_rows d run_id)) as Hf.
  { apply Forall_forall. intros [path r] Hr%sorted_rows_lookup. by apply (Hall path r). }
  assert (∃ staged, read_documents (sorted_rows d run_id) = Ok staged) as [staged Hs].
  { induction Hf as [|[path r] rows Hr _ [items IH]]; [by exists []|]. cbn [read_documents fst snd] in *.
    destruct (read_document path r) as [item|]; [|done]. exists (item :: items). cbn. by rewrite IH. }
  exists staged. split; [done|]. apply read_documents_ok, Forall2_length in Hs. rewrite <- Hs.
  unfold sorted_rows. by rewrite length_py_sorted, length_map_to_list.
Qed.

Lemma insert_fresh d run_id item path :
  valid_document path (ld_document item) (ld_raw item) → document_rows d run_id !! path = None →
  insert_document run_id item d
  = Ok (set_documents (<[run_id := <[path := row_of_document item]> (document_rows d run_id)]>
                         (p_documents d)) d).
Proof.
  intros Hv Hn. destruct (valid_row path item Hv) as [Hc _]. unfold insert_document. cbv zeta.
  by rewrite Hc, (vd_path _ _ _ Hv), Hn.
Qed.

Definition rows_valid (m : gmap pystr DocumentRow) : Prop :=
  map_Forall (λ path r, is_ok (read_document path r) = true) m.

Lemma rows_valid_insert m path item :
  valid_document path (ld_document item) (ld_raw item) → rows_valid m →
  rows_valid (<[path := row_of_document item]> m).
Proof.
  intros Hv Hm. apply map_Forall_insert_2; [|done].
  by rewrite (proj1 (proj2 (valid_row path item Hv))).
Qed.

(** Staging a document that is not there. *)
Lemma stage_fresh d run_id item path :
  lock_active_run d run_id = Ok tt → rows_valid (document_rows d run_id) →
  valid_document path (ld_document item) (ld_raw item) → document_rows d run_id !! path = None →
  ∃ staged,
    let m := <[path := row_of_document item]> (document_rows d run_id) in
    let d' := set_documents (<[run_id := m]> (p_documents d)) d in
    stage_documents run_id [item] d = Ok (d', staged) ∧ document_rows d' run_id = m ∧ rows_valid m
    ∧ get_staged_documents d' run_id = Ok staged ∧ length staged = size m.
Proof.
  intros Hl Hm Hv Hn.
  set (m := <[path := row_of_document item]> (document_rows d run_id)).
  set (d' := set_documents (<[run_id := m]> (p_documents d)) d).
  assert (document_rows d' run_id = m) as Hrows by apply rows_insert_eq.
  assert (rows_valid m) as Hm' by by apply rows_valid_insert.
  destruct (get_staged_ok d' run_id) as (staged & Hs & Hlen); [by rewrite Hrows|].
  exists staged. cbv zeta. rewrite Hrows in Hlen.
  split; [|done]. unfold stage_documents. rewrite Hl. cbn [mbind result_bind].
  cbn [insert_documents]. rewrite (insert_fresh d run_id item path Hv Hn).
  cbn [mbind result_bind]. fold m. fold d'. by rewrite Hs.
Qed.

Definition with_created_at (t : Z) (s : PolicySnapshot) : PolicySnapshot :=
  mkPolicySnapshot (sn_schema_version s) (sn_snapshot_id s) (sn_run_id s) (sn_repository_id s)
    (sn_policy_base_sha s) (sn_rules s) (sn_agents s) (sn_ignore_patterns s) (sn_ignore_digest s)
    (sn_parser_profile s) (sn_parser_version s) (sn_matcher_version s) (sn_limits_version s)
    (sn_builtin_exclusions_version s) (sn_priority_matcher_version s)
    (sn_service_defaults_rule_version_id s) (sn_defaults_checksum s) (sn_prompt_bindings s)
    (sn_execution_profile s) (sn_policy_digest s) (Some t) (sn_severity_threshold s)
    (sn_max_comments s).

(** The masks' digest of a parsed policy is the one the stored versions give. *)
Lemma parse_review_ignore_digest md base text ignore :
  parse_review_ignore md base text = Ok ignore →
  ip_digest ignore = ignore_digest (ip_patterns ignore) MATCHER_VERSION BUILTIN_EXCLUSIONS_VERSION
                       LIMITS_VERSION.
Proof.
  unfold parse_review_ignore. cbv zeta. destruct (_ =?s []); [by intros [= <-]|].
  intros (block & _ & Hb)%bind_ok. destruct block as [t|]; [|by injection Hb as <-].
  destruct (tok_map t) as [[first ?]|]; [|by injection Hb as <-].
  destruct (_ <? _); [done|]. by apply bind_ok in Hb as (? & _ & [= <-]).
Qed.

Lemma create_snapshot_fresh profile pv pins rules agents ignore id now d staged :
  get_pins profile d (rp_run_id pins) = Some pins →
  bindings_ok (rp_prompt_bindings pins) → profile_ok (rp_execution_profile pins) = true →
  lock_active_run d (rp_run_id pins) = Ok tt →
  get_staged_documents d (rp_run_id pins) = Ok staged →
  policy_documents staged = Some (rules, agents) →
  p_snapshots d !! rp_run_id pins = None → snapshot_id_used d id = false →
  ip_digest ignore = ignore_digest (ip_patterns ignore) MATCHER_VERSION BUILTIN_EXCLUSIONS_VERSION
                       LIMITS_VERSION →
  let s := build_policy_snapshot pv pins rules agents ignore id in
  snapshot_check (row_of_snapshot s now) = true →
  let d' := set_snapshots (<[rp_run_id pins := row_of_snapshot s now]> (p_snapshots d)) d in
  create_snapshot profile s now d = Ok (d', with_created_at now s).
Proof.
  intros Hpins Hb Hp Hl Hs Hd Hn Hu Hi s Hc d'. unfold create_snapshot.
  change (sn_run_id s) with (rp_run_id pins). rewrite Hl. cbn [mbind result_bind].
  assert (insert_snapshot s now d = Ok d') as ->.
  { unfold insert_snapshot. cbv zeta. rewrite Hc. change (sn_run_id s) with (rp_run_id pins).
    rewrite Hn. change (sn_snapshot_id s) with id. by rewrite Hu. }
  cbn [mbind result_bind].
  assert (get_snapshot profile d' (rp_run_id pins) = Ok (Some (with_created_at now s))) as ->; [|done].
  set (stored := with_created_at now s).
  assert (read_snapshot d' (rp_run_id pins) (row_of_snapshot s now) = Ok stored) as Hread.
  { unfold read_snapshot. change (get_staged_documents d') with (get_staged_documents d).
    rewrite Hs. cbn [map_err mbind result_bind]. rewrite Hd. cbn [of_option mbind result_bind].
    change (sr_prompt_bindings (row_of_snapshot s now)) with (bindings_to_json (rp_prompt_bindings pins)).
    change (sr_execution_profile (row_of_snapshot s now))
      with (profile_to_json (rp_execution_profile pins)).
    rewrite (bindings_roundtrip _ Hb). cbn [of_option mbind result_bind].
    rewrite (profile_roundtrip _ Hp). cbn [of_option mbind result_bind]. cbv zeta.
    by rewrite (proj2 (verify_policy_snapshot_ok _ _ _)). }
  unfold get_snapshot. subst d'. cbn [p_snapshots set_snapshots]. rewrite lookup_insert_eq, Hread.
  change (get_pins profile (set_snapshots _ d)) with (get_pins profile d). cbn [mbind result_bind].
  by rewrite (proj2 (verify_snapshot_pins_ok stored _)) by by exists pins.
Qed.

Lemma load_document_valid source base path n n' item :
  load_document source base path n = (n', Ok item) →
  valid_document path (ld_document item) (ld_raw item).
Proof.
  unfold load_document, mbind, stateT_bind. destruct (list_entries source None n) as [m [root|]]; [|done].
  intros Hl. unfold load_from in Hl. apply load_path_sound in Hl as (found & _ & Hv & _). done.
Qed.

(** The settings of a run are both there or both absent. *)
Definition settings_ok (pins : RunPolicyPins) : Prop :=
  match rp_severity_threshold pins, rp_max_comments pins with
  | None, None => True
  | Some _, Some n => 0 < n
  | _, _ => False
  end.

Section FirstAttempt.
Context (w : PolicyWorker) (d : PolicyDb) (run_id : UUID) (pins : RunPolicyPins).
Context (k k1 k2 : nat) (rules agents : LoadedPolicyDocument) (ignore : IgnorePolicy).
Hypothesis undisturbed : ∀ n x, pw_env w n x = x.
Hypothesis pinned : get_pins (pw_profile w) d run_id = Some pins.
Hypothesis identifiers : bindings_ok (rp_prompt_bindings pins).
Hypothesis profile : profile_ok (pw_profile w) = true.
Hypothesis versions : validate_execution_profile_versions (pw_profile w) = Ok tt.
Hypothesis active : lock_active_run d run_id = Ok tt.
Hypothesis no_rows : p_documents d !! run_id = None.
Hypothesis no_snapshot : p_snapshots d !! run_id = None.
Hypothesis fresh_id : snapshot_id_used d (pw_uuid w) = false.
Hypothesis rules_read :
  load_document (pw_source w pins) (rp_policy_base_sha pins) RULES_DOCUMENT_PATH k = (k1, Ok rules).
Hypothesis agents_read :
  load_document (pw_source w pins) (rp_policy_base_sha pins) AGENTS_DOCUMENT_PATH k1 = (k2, Ok agents).
Hypothesis masks_read :
  parse_review_ignore (pw_markdown w) (Some (rp_policy_base_sha pins)) (pd_text (ld_document rules))
  = Ok ignore.
Hypothesis settings : settings_ok pins.

Definition prepared_snapshot : PolicySnapshot :=
  with_created_at (pw_now w)
    (build_policy_snapshot (pw_parser_version w) pins (ld_document rules) (ld_document agents) ignore
       (pw_uuid w)).

(** Both documents are staged by two calls of the store. *)
Lemma first_attempt_loads c :
  ∃ d2 staged,
    load_missing (pw_source w) (pw_env w) pins run_id [RULES_DOCUMENT_PATH; AGENTS_DOCUMENT_PATH] []
      (mkPrepareState d c k) = (mkPrepareState d2 (S (S c)) k2, Ok staged)
    ∧ get_staged_documents d2 run_id = Ok staged
    ∧ by_path staged RULES_DOCUMENT_PATH = Some (ld_document rules)
    ∧ by_path staged AGENTS_DOCUMENT_PATH = Some (ld_document agents)
    ∧ length staged = 2%nat
    ∧ (∃ m, d2 = set_documents m d).
Proof using undisturbed active no_rows rules_read agents_read.
  pose proof (load_document_valid _ _ _ _ _ _ rules_read) as Hvr.
  pose proof (load_document_valid _ _ _ _ _ _ agents_read) as Hva.
  assert (document_rows d run_id = ∅) as H0 by (unfold document_rows; by rewrite no_rows).
  destruct (stage_fresh d run_id rules RULES_DOCUMENT_PATH active) as (st1 & Hst1 & Hrows1 & Hok1 & _);
    [rewrite H0; apply map_Forall_empty|done|by rewrite H0|].
  cbv zeta in Hst1, Hrows1. set (d1 := set_documents _ d) in Hst1, Hrows1. rewrite H0 in *.
  destruct (stage_fresh d1 run_id agents AGENTS_DOCUMENT_PATH) as (st2 & Hst2 & Hrows2 & _ & Hg2 & Hlen);
    [exact active|by rewrite Hrows1|done|by rewrite Hrows1|].
  cbv zeta in Hst2, Hrows2, Hg2. rewrite Hrows1 in *. set (d2 := set_documents _ d1) in Hst2, Hrows2, Hg2.
  exists d2, st2. split; [|split; [done|split; [|split; [|split; [|by eexists]]]]].
  - cbn [load_missing]. unfold mbind, stateT_bind, source_call, store_call, mret, stateT_ret.
    cbn [pp_db pp_store_calls pp_source_calls]. rewrite rules_read. cbn [map_err pp_db pp_store_calls pp_source_calls].
    rewrite undisturbed, Hst1. cbn [pp_db pp_store_calls pp_source_calls]. rewrite agents_read.
    cbn [map_err pp_db pp_store_calls pp_source_calls]. by rewrite undisturbed, Hst2.
  - rewrite (staged_by_path _ _ _ _ Hg2), Hrows2. rewrite lookup_insert_ne by done.
    rewrite lookup_insert_eq. cbn [fmap option_fmap option_map]. f_equal. by apply valid_row.
  - rewrite (staged_by_path _ _ _ _ Hg2), Hrows2, lookup_insert_eq.
    cbn [fmap option_fmap option_map]. f_equal. by apply valid_row.
  - rewrite Hlen, map_size_insert_None by by rewrite lookup_insert_ne.
    by rewrite map_size_insert_None, map_size_empty.
Qed.

Lemma first_attempt_result c :
  ∃ s', prepare_as w run_id (mkPrepareState d c k) = (s', Ok prepared_snapshot)
        ∧ get_snapshot (pw_profile w) (pp_db s') run_id = Ok (Some prepared_snapshot)
        ∧ pp_source_calls s' = k2.
Proof using All.
  destruct (get_pins_run _ _ _ _ pinned) as [Hrun Hprof].
  destruct (first_attempt_loads (S (S (S c)))) as (d2 & staged & Hload & Hg & Hr & Ha & Hlen & m & Hd2).
  set (snap := build_policy_snapshot (pw_parser_version w) pins (ld_document rules)
                 (ld_document agents) ignore (pw_uuid w)).
  pose proof (create_snapshot_fresh (pw_profile w) (pw_parser_version w) pins (ld_document rules)
    (ld_document agents) ignore (pw_uuid w) (pw_now w) d2 staged) as Hcreate.
  rewrite Hprof, Hrun in Hcreate. subst d2.
  specialize (Hcreate pinned identifiers profile active Hg).
  unfold policy_documents in Hcreate. rewrite Hlen, Hr, Ha in Hcreate.
  specialize (Hcreate eq_refl no_snapshot fresh_id (parse_review_ignore_digest _ _ _ _ masks_read)).
  cbv zeta in Hcreate. fold snap in Hcreate.
  set (d3 := set_snapshots _ _) in Hcreate.
  assert (create_snapshot (pw_profile w) snap (pw_now w) (set_documents m d)
          = Ok (d3, prepared_snapshot)) as Ec.
  { apply Hcreate. unfold snapshot_check, settings_ok in *. cbn.
    destruct (rp_severity_threshold pins), (rp_max_comments pins); try done. by apply Z.ltb_lt. }
  clear Hcreate. destruct (create_snapshot_inv _ _ _ _ _ _ Ec) as (_ & _ & Hstored).
  change (sn_run_id snap) with (rp_run_id pins) in Hstored. rewrite Hrun in Hstored.
  exists (mkPrepareState d3 (6 + c) k2). split; [|done].
  unfold prepare_as, prepare_policy, store_read, store_call, checked. unfold mbind, stateT_bind.
  cbn [pp_db pp_store_calls pp_source_calls]. rewrite undisturbed.
  assert (get_snapshot (pw_profile w) d run_id = Ok None) as -> by (unfold get_snapshot; by rewrite no_snapshot).
  cbn [result_bind pp_db pp_store_calls pp_source_calls]. rewrite undisturbed, pinned.
  cbn [result_bind of_option pp_db pp_store_calls pp_source_calls]. unfold mret, stateT_ret.
  rewrite Hprof, versions. cbn [map_err pp_db pp_store_calls pp_source_calls]. rewrite undisturbed.
  assert (get_staged_documents d run_id = Ok []) as ->.
  { unfold get_staged_documents, document_rows. by rewrite no_rows. }
  cbn [map_err result_bind pp_db pp_store_calls pp_source_calls]. cbv zeta.
  change (List.filter _ _) with [RULES_DOCUMENT_PATH; AGENTS_DOCUMENT_PATH].
  rewrite Hload. unfold store_policy, checked, mbind, stateT_bind, store_call, mret, stateT_ret.
  rewrite Hr, Ha. cbn [of_option]. rewrite masks_read. cbn [map_err pp_db pp_store_calls pp_source_calls].
  cbv zeta. fold snap. rewrite undisturbed, Ec. cbn [pp_db pp_store_calls pp_source_calls].
  change (sn_policy_digest prepared_snapshot) with (sn_policy_digest snap). by rewrite str_eqb_refl.
Qed.

(** The first attempt of an active run that is left alone stores and returns the policy of
    its pinned base: both documents are read, staged and verified, the snapshot holds them, the
    masks of the rules, the versions pinned by the run and the digest of all of it, and reading it
    back from its row gives the same value (the JSON of bindings and profile included). *)
Theorem first_attempt_stores_policy c :
  ∃ s', prepare_as w run_id (mkPrepareState d c k) = (s', Ok prepared_snapshot)
        ∧ get_snapshot (pw_profile w) (pp_db s') run_id = Ok (Some prepared_snapshot)
        ∧ pp_source_calls s' = k2.
Proof using All. apply first_attempt_result. Qed.
End FirstAttempt.

(** A stored snapshot is read under any execution profile, and a later attempt returns it. *)
Lemma get_pins_profile profile profile' d run_id pins :
  get_pins profile d run_id = Some pins →
  get_pins profile' d run_id
  = Some (mkRunPolicyPins (rp_run_id pins) (rp_repository_id pins) (rp_policy_base_sha pins)
            (rp_service_defaults_rule_version_id pins) (rp_defaults_checksum pins)
            (rp_prompt_bindings pins) profile' (rp_severity_threshold pins) (rp_max_comments pins)).
Proof.
  unfold get_pins. destruct (joined _ _) as [[run change]|]; [|done]. cbn.
  destruct (p_columns d !! run_id) as [c|]; [|done]. cbn.
  destruct (p_rules d !! _); [|done]. cbn. destruct (p_prompts d !! _) as [[? ?]|]; [|done]. cbn.
  destruct (pinned_prompt d (pc_conventions_prompt_version_id c)); [|done]. cbn.
  destruct (pinned_prompt d (pc_verifier_prompt_version_id c)); [|done]. cbn. by intros [= <-].
Qed.

Lemma get_snapshot_profile profile profile' d run_id s :
  get_snapshot profile d run_id = Ok (Some s) → get_snapshot profile' d run_id = Ok (Some s).
Proof.
  intros Hg. destruct (get_snapshot_inv _ _ _ _ Hg) as (row & r & a & b & p & _ & _ & _ & _ & _ & Hs & Hi).
  destruct (si_pins _ _ _ Hi) as (pins & Hpins & Heqs).
  assert (verify_snapshot_pins s (get_pins profile' d run_id) = Ok tt) as Hv'.
  { apply verify_snapshot_pins_ok. assert (sn_run_id s = run_id) as Hr by by rewrite Hs.
    rewrite Hr in Hpins. rewrite (get_pins_profile _ profile' _ _ _ Hpins). by eexists. }
  revert Hg. unfold get_snapshot. destruct (p_snapshots d !! run_id) as [row'|]; [|done].
  intros (s0 & -> & ([] & _ & [= ->])%bind_ok)%bind_ok. cbn [mbind result_bind]. by rewrite Hv'.
Qed.

Lemma later_attempt_result w d run_id s profile c k :
  (∀ n x, pw_env w n x = x) → get_snapshot profile d run_id = Ok (Some s) →
  validate_execution_profile_versions (sn_execution_profile s) = Ok tt →
  prepare_as w run_id (mkPrepareState d c k) = (mkPrepareState d (S c) k, Ok s).
Proof.
  intros He Hg Hv. unfold prepare_as, prepare_policy, store_read, store_call, checked. unfold mbind, stateT_bind.
  cbn [pp_db pp_store_calls pp_source_calls]. rewrite He, (get_snapshot_profile _ (pw_profile w) _ _ _ Hg).
  cbn [result_bind pp_db pp_store_calls pp_source_calls]. by rewrite Hv.
Qed.

(** ** A fleet of two workers *)

Definition sample_change : CodeChange :=
  mkCodeChange true (u8 "head") 7%N true 3%N false true (u8 "github") 2%N 5%Q 0%Q.
Definition sample_run : Run :=
  mkRun (mkPinned 4%N (Some 3%N) (u8 "base") (u8 "head") Engine_fast) Running 1 0 (Some 60)
    (Some (u8 "w1")) false None None (Some 0) None None None.
Definition sample_db : PolicyDb :=
  mkPolicyDb (mkDb {[1%N := sample_run]} {[4%N := sample_change]} ∅ [] ∅ ∅ [])
    {[1%N := mkPolicyColumns 20%N 30%N (Some 31%N) None (Some Th_all) (Some 10)]}
    {[20%N := u8 "rules"]} {[30%N := (u8 "p", 5); 31%N := (u8 "c", 2)]} ∅ ∅.

Definition sample_worker (profile : ExecutionProfile) (source : PolicyDocumentSource) (id : UUID)
  : PolicyWorker :=
  mkPolicyWorker (λ _, []) (u8 "3.0.0") profile (λ _, source) (λ _ d, d) id 100.
Definition sample_first : PolicyWorker :=
  sample_worker (profile_fast (u8 "m") (u8 "v") None) sample_source 50%N.
(** Another worker with another profile, whose source has lost the repository. *)
Definition sample_second : PolicyWorker :=
  sample_worker (profile_deep (u8 "m2") (u8 "v2") None)
    (mkPolicyDocumentSource (λ _ _, Ok []) (λ _ _, Ok [])) 51%N.

Definition sample_pins : RunPolicyPins :=
  mkRunPolicyPins 1%N 7%N (u8 "base") 20%N (u8 "rules")
    (run_bindings 30%N (u8 "p") 5 (Some (31%N, u8 "c", 2)) None) (profile_fast (u8 "m") (u8 "v") None)
    (Some Th_all) (Some 10).
Definition sample_start : PrepareState := mkPrepareState sample_db 0 0.
Definition sample_prepared : PolicySnapshot :=
  prepared_snapshot sample_first sample_pins (fst sample_loaded) (snd sample_loaded) (policy []).

(** The hypotheses of a first attempt hold here. *)
Ltac sample_hypotheses :=
  first
    [ done
    | split; [|split]; intros u; [intros [= <-]; vm_compute; reflexivity..|discriminate] ].

Lemma first_attempt_stores_policy_witness :
  ∃ s', prepare_as sample_first 1%N sample_start = (s', Ok sample_prepared)
        ∧ get_snapshot (pw_profile sample_first) (pp_db s') 1%N = Ok (Some sample_prepared)
        ∧ pp_source_calls s' = 3%nat.
Proof.
  apply (first_attempt_stores_policy sample_first sample_db 1%N sample_pins 0%nat 1%nat 3%nat
           (fst sample_loaded) (snd sample_loaded) (policy [])); sample_hypotheses.
Defined.

Lemma sample_first_result :
  ∃ s', prepare_as sample_first 1%N sample_start = (s', Ok sample_prepared)
        ∧ get_snapshot (pw_profile sample_first) (pp_db s') 1%N = Ok (Some sample_prepared)
        ∧ pp_source_calls s' = 3%nat.
Proof.
  apply (first_attempt_result sample_first sample_db 1%N sample_pins 0%nat 1%nat 3%nat
           (fst sample_loaded) (snd sample_loaded) (policy [])); sample_hypotheses.
Qed.

Lemma one_policy_per_run_witness :
  let '(s1, r1) := prepare_as sample_first 1%N sample_start in
  let '(s2, r2) := prepare_as sample_second 1%N s1 in
  r1 = Ok sample_prepared ∧ r2 = Ok sample_prepared
  ∧ snapshot_intact (pw_profile sample_first) (pp_db s1) sample_prepared
  ∧ pp_source_calls s2 = pp_source_calls s1.
Proof.
  assert (∀ n d, policy_steps d (pw_env sample_first n d)) as H1 by constructor.
  assert (∀ n d, policy_steps d (pw_env sample_second n d)) as H2 by constructor.
  destruct sample_first_result as ([d c k] & P1 & Hg & _). rewrite P1.
  pose proof (later_attempt_result sample_second d 1%N sample_prepared (pw_profile sample_first) c k
                (λ n x, eq_refl) Hg eq_refl) as P2. rewrite P2.
  destruct (one_policy_per_run sample_first sample_second 1%N sample_start _ sample_prepared
              _ _ sample_prepared H1 H2 P1 (rtc_refl _ _) P2) as (_ & _ & Hi & Hc).
  exact (conj eq_refl (conj eq_refl (conj Hi Hc))).
Defined.
