(* ===== verification/RunWorker.v ===== *)
(** * The worker, the reconciler and the cancel request

    [HandleReviewRun] ([handle_review_run.py]), the T8 part of [StoreReviewOutput]
    ([store_review_output.py]), [ReconcileRuns] ([reconcile_runs.py]), [CancelRun]
    ([cancel_run.py]) and the admission of a delivery ([run_delivery.py]).  Every use case is the
    sequence of its transactions on the database; the review pipeline is what it ends with
    ([attempt_end]).  Check-run and status updates never change a run and are recorded in the
    [shown] result; messages to publish are results too. *)

From Stdlib Require Import String QArith.
From stdpp Require Import numbers gmap.
From S2P Require Import Prelude PyText DiffMap RunFailures RunStore.
#[local] Open Scope Z_scope.

Definition FAST_RUN_COST_LIMIT : Q := 1 # 2.

Inductive DeliveryOutcome : Type := ACK | DEAD_LETTER.
#[export] Instance DeliveryOutcome_eq_dec : EqDecision DeliveryOutcome.
Proof. solve_decision. Defined.

Record Settings : Type := mkSettings {
  hs_worker_id : pystr;
  hs_delays : RetryDelays;
  hs_attempt_deadline : Z;
  hs_lease : Z
}.

Record RunGuardSnapshot : Type := mkRunGuardSnapshot {
  gs_state : RunState;
  gs_attempt : Z;
  gs_available_at : Z;
  gs_cancel_requested : bool;
  gs_head_sha : pystr;
  gs_pr_head_sha : pystr;
  gs_pr_open : bool;
  gs_repository_enabled : bool;
  gs_daily_budget_usd : Q;
  gs_spent_today_usd : Q;
  gs_origin_active : bool
}.

Definition lock_for_claim (d : Db) (id : UUID) : option RunGuardSnapshot :=
  (λ rc : Run * CodeChange, let '(r, c) := rc in
     mkRunGuardSnapshot (run_state r) (run_attempt r) (run_available_at r)
       (run_cancel_requested r) (run_head_sha r) (cc_head_sha c) (cc_open c)
       (cc_repository_enabled c) (cc_daily_budget_usd c) (cc_spent_today_usd c)
       (origin_active d id r c))
  <$> joined d id.

(** ** RunGuard *)

Definition Qltb (a b : Q) : bool := negb (Qle_bool b a).

Definition guard (s : RunGuardSnapshot) (matches : bool) : option (RunState * pystr) :=
  if negb (gs_origin_active s) then Some (Cancelled, u8 "installation_unavailable")
  else match cancellation_reason (gs_pr_open s) (gs_head_sha s =?s gs_pr_head_sha s)
               (gs_cancel_requested s) with
  | Some reason => Some (Cancelled, reason)
  | None =>
      if negb (gs_repository_enabled s) then Some (Skipped, u8 "repo_disabled")
      else if negb matches then Some (Skipped, u8 "rule_not_matched")
      else if Qltb 0 (gs_daily_budget_usd s)
              && Qltb (gs_daily_budget_usd s - gs_spent_today_usd s) FAST_RUN_COST_LIMIT
      then Some (Skipped, u8 "budget_paused")
      else None
  end.

Record Claimed : Type := mkClaimed {
  cl_run_id : UUID;
  cl_attempt : Z;
  cl_deadline : Z;
  cl_worker_id : pystr
}.

(** What the guard transaction of a delivery ends with: nothing to do, a final state whose
    check-run may be shown, a claimed attempt, or the [RuntimeError] of a claim that failed. *)
Inductive guard_end : Type :=
| GuardAck
| GuardDecided (show_check_run : bool)
| GuardClaimed (c : Claimed)
| GuardRaised.

Definition guard_txn (st : Settings) (id : UUID) (matches : bool) (now : Z) (d : Db)
  : Db * guard_end :=
  match lock_for_claim d id with
  | None => (d, GuardAck)
  | Some s =>
      if terminal (gs_state s) && (1 <=? gs_attempt s) then (d, GuardDecided true)
      else if negb (bool_decide (gs_state s = Queued)) || (now <? gs_available_at s)
      then (d, GuardAck)
      else match guard s matches with
      | Some (state, reason) =>
          (fst (finish id Queued None state (Some reason) None now None d),
           GuardDecided (negb (reason =?s u8 "repo_disabled")
                         && (bool_decide (state = Skipped) || (1 <=? gs_attempt s))))
      | None =>
          match claim id (hs_worker_id st) now (now + hs_lease st) d with
          | (d', Ok attempt) =>
              (d', GuardClaimed (mkClaimed id attempt (now + hs_attempt_deadline st)
                                   (hs_worker_id st)))
          | (d', Err _) => (d', GuardRaised)
          end
      end
  end.

(** ** The end of an attempt *)

(** How the watched pipeline ended. *)
Inductive attempt_end : Type :=
| EndResult (produced : bool)
| EndLeaseLost
| EndCancelled (text : pystr)
| EndSkipped (reason : pystr)
| EndDeadline
| EndRaised (e : attempt_exc).

Record Handled : Type := mkHandled {
  hd_outcome : DeliveryOutcome;
  hd_shown : bool;
  hd_retry : option (retry_queue)
}.

Definition handled (o : DeliveryOutcome) (shown : bool) : Handled := mkHandled o shown None.

Definition finish_running (c : Claimed) (state : RunState) (code : pystr) (message : option pystr)
    (now : Z) (d : Db) : Db * bool :=
  finish (cl_run_id c) Running (Some (cl_worker_id c)) state (Some code) message now None d.

Definition cancel (c : Claimed) (reason : pystr) (now : Z) (d : Db) : Db * Handled :=
  let '(d', finished) := finish_running c Cancelled reason None now d in
  (d', handled ACK finished).

Definition MAX_MESSAGE : nat := 2000.

Definition may_retry (c : Claimed) (f : RunFailure) : bool :=
  str_mem (rf_error_code f) RETRYABLE_ERROR_CODES && (cl_attempt c <? MAX_ATTEMPTS).

Definition fail (st : Settings) (c : Claimed) (f : RunFailure) (now : Z) (d : Db)
  : Db * Handled :=
  let retryable := str_mem (rf_error_code f) RETRYABLE_ERROR_CODES in
  if ostr_eqb (store_cancellation_reason d (cl_run_id c)) (Some (u8 "installation_unavailable"))
  then cancel c (u8 "installation_unavailable") now d
  else if may_retry c f then
    let '(key, delay) := for_failure (hs_delays st) (cl_attempt c) f in
    let '(d', requeued) := requeue (cl_run_id c) (Some (cl_worker_id c)) (now + delay) now d in
    (d', mkHandled ACK false (if requeued && has_pointer d' (cl_run_id c) then Some key else None))
  else
    let '(d', finished) := finish_running c Failed (rf_error_code f)
                             (Some (take MAX_MESSAGE (rf_message f))) now d in
    if negb finished then (d', handled ACK false)
    else if ostr_eqb (store_cancellation_reason d' (cl_run_id c))
              (Some (u8 "installation_unavailable"))
    then (d', handled ACK true)
    else (d', handled (if retryable then DEAD_LETTER else ACK) true).

Definition no_result : RunFailure :=
  run_failure (u8 "internal_error") (u8 "the review pipeline produced no result") None false.
Definition deadline_failure : RunFailure :=
  run_failure (u8 "deadline_exceeded") (u8 "the attempt watchdog stopped the run") None false.

Definition run_attempt_end (st : Settings) (c : Claimed) (e : attempt_end) (now : Z) (d : Db)
  : Db * Handled :=
  match e with
  | EndResult true => (d, handled ACK false)
  | EndResult false =>
      match store_cancellation_reason d (cl_run_id c) with
      | Some reason => cancel c reason now d
      | None => fail st c no_result now d
      end
  | EndLeaseLost => (d, handled ACK false)
  | EndCancelled text =>
      cancel c (default text (store_cancellation_reason d (cl_run_id c))) now d
  | EndSkipped reason =>
      let '(d', finished) := finish_running c Skipped reason None now d in
      (d', handled ACK finished)
  | EndDeadline => fail st c deadline_failure now d
  | EndRaised exc => fail st c (classify_failure exc) now d
  end.

(** The heartbeat of the watchdog and the lease of an interrupted worker. *)
Definition heartbeat (st : Settings) (c : Claimed) (now : Z) (d : Db) : Db * bool :=
  extend_lease (cl_run_id c) (cl_worker_id c) (now + hs_lease st) d.

Definition expire_interrupted_lease (st : Settings) (id : UUID) (now : Z) (d : Db) : Db :=
  match lock_for_claim d id with
  | Some s => if bool_decide (gs_state s = Running)
              then fst (extend_lease id (hs_worker_id st) (now - 1) d) else d
  | None => d
  end.

(** The checkpoint before each model call. *)
Definition attempt_checkpoint (d : Db) (id : UUID) (deadline now : Z) : option attempt_end :=
  if deadline <=? now
  then Some (EndRaised (ExcRunFailure (run_failure (u8 "deadline_exceeded")
               (u8 "attempt deadline passed on a checkpoint") None false)))
  else EndCancelled <$> store_cancellation_reason d id.

(** A delivery whose transactions are not interleaved with others: guard, then the attempt. *)
Definition execute (st : Settings) (id : UUID) (matches : bool) (now : Z)
    (pipeline : Claimed → Db → Db * attempt_end * Z) (d : Db) : Db * option Handled :=
  match guard_txn st id matches now d with
  | (d', GuardAck) => (d', Some (handled ACK false))
  | (d', GuardDecided show) => (d', Some (handled ACK show))
  | (d', GuardClaimed c) =>
      let '(d1, e, now1) := pipeline c d' in
      let '(d2, h) := run_attempt_end st c e now1 d1 in (d2, Some h)
  | (d', GuardRaised) => (d', None)
  end.

(** ** Admission of a delivery *)

Record RunDeliveryPointer : Type := mkRunDeliveryPointer {
  dp_run_id : UUID;
  dp_provider : pystr;
  dp_workspace_id : UUID;
  dp_repository_id : UUID;
  dp_repository_external_id : Z;
  dp_installation_id : Z;
  dp_pr_number : Z;
  dp_head_sha : pystr;
  dp_base_sha : pystr;
  dp_engine : pystr;
  dp_rule_version_id : UUID;
  dp_prompt_version_id : UUID;
  dp_trigger : pystr
}.
#[export] Instance RunDeliveryPointer_eq_dec : EqDecision RunDeliveryPointer.
Proof. solve_decision. Defined.

Definition handle_delivery {A} (read : UUID → option RunDeliveryPointer)
    (handler : UUID → A) (pointer : RunDeliveryPointer) : DeliveryOutcome + A :=
  match read (dp_run_id pointer) with
  | None => inl ACK
  | Some identity =>
      if negb (str_mem (dp_provider pointer) [u8 "github"; u8 "gitlab"; u8 "bitbucket"])
         || negb (bool_decide (pointer = identity))
      then inl DEAD_LETTER
      else inr (handler (dp_run_id identity))
  end.

(** ** The reconciler *)

(** The transaction of one expired run; the result tells whether its message is sent again. *)
Definition reconcile_running (now clock : Z) (id : UUID) (attempt : Z) (d : Db) : Db * bool :=
  let '(d', changed) :=
    if attempt <? MAX_ATTEMPTS then requeue id None now clock d
    else finish id Running None Failed (Some (u8 "lease_expired"))
           (Some (u8 "lease expired after the last attempt")) now None d in
  (d', changed && has_pointer d' id).

Fixpoint retire_all (ids : list UUID) (now available_before : Z) (d : Db) : Db :=
  match ids with
  | [] => d
  | id :: ids' => retire_all ids' now available_before (fst (retire_stale_origin id now available_before d))
  end.

Fixpoint reconcile_all (now clock : Z) (running : list (UUID * Z)) (d : Db) : Db * list UUID :=
  match running with
  | [] => (d, [])
  | (id, attempt) :: rest =>
      let '(d1, send) := reconcile_running now clock id attempt d in
      let '(d2, sent) := reconcile_all now clock rest d1 in
      (d2, if send then id :: sent else sent)
  end.

(** One pass without interleaving: the final database, the run messages sent again and the
    review pointers sent again. *)
Definition reconcile (now clock : Z) (limit : nat) (d : Db) : Db * list UUID * list UUID :=
  let available_before := now - RECONCILER_QUEUED_GRACE in
  let d1 := retire_all (stale_inactive_origins now available_before limit d) now available_before d in
  let running := expired_running now limit d1 in
  let publishing := expired_publishing now limit d1 in
  let queued := stale_queued available_before limit d1 in
  let '(d2, sent) := reconcile_all now clock running d1 in
  (d2, sent ++ queued, publishing).

(** ** The cancel request of a user *)

(** The run seen by the caller, the close signal and the event to publish. *)
Definition cancel_run (id : UUID) (authorized : bool) (now : Z) (d : Db)
  : Db * option (option Run * bool * bool) :=
  let '(d', r) := request_cancel id authorized now d in
  if negb (cr_found r) then (d, None)
  else (d', Some (db_runs d' !! id, cr_signal_requested r, cr_changed r)).
