(* ===== verification/RunLifecycle.v ===== *)
(** * The life of a run as a state machine

    Workers, the reconciler, the publisher, users and provider events act on the shared database,
    one transaction at a time, in any order.  A system state is the database, the clock, the
    attempts in flight (one per worker: its channel has a prefetch of one) and what reconciler
    passes have read and not yet acted on.  [step] has one rule per transaction of the code; the
    clock moves on between transactions.  The theorems are about every reachable state. *)

From Stdlib Require Import String QArith.
From stdpp Require Import numbers gmap.
From S2P Require Import Prelude PyText DiffMap RunFailures RunStore RunWorker.
#[local] Open Scope Z_scope.

Record Sys : Type := mkSys {
  sy_db : Db;
  sy_now : Z;
  sy_claims : gmap pystr Claimed;
  sy_reads : list (UUID * Z * Z)
}.

(** A worker acts on a delivery it takes, and then for the attempt it has claimed. *)
Inductive actor : Type :=
| ByDelivery (w : pystr)
| ByWorker (w : pystr)
| ByReconciler
| ByPublisher
| ByUser
| ByProvider
| ByOrigin.

Section System.
Context (cfg : pystr → Settings).

Definition with_db (s : Sys) (t : Z) (d : Db) : Sys := mkSys d t (sy_claims s) (sy_reads s).

Inductive step : actor → Sys → Sys → Prop :=
(** a delivery of a free worker *)
| st_guard w id matches t s d' e :
    sy_now s < t → sy_claims s !! w = None →
    guard_txn (cfg w) id matches t (sy_db s) = (d', e) →
    step (ByDelivery w) s
      (mkSys d' t (match e with GuardClaimed c => <[w := c]> (sy_claims s) | _ => sy_claims s end)
         (sy_reads s))
| st_heartbeat w c t s :
    sy_now s < t → sy_claims s !! w = Some c →
    step (ByWorker w) s (with_db s t (fst (heartbeat (cfg w) c t (sy_db s))))
| st_store w c body findings answered t s :
    sy_now s < t → sy_claims s !! w = Some c →
    step (ByWorker w) s
      (with_db s t (fst (store_output (cl_run_id c) w body findings answered (t + LEASE) (sy_db s))))
(** the end of an attempt: a final state, a retry, or an interrupted worker *)
| st_finish w c state code message t s :
    sy_now s < t → sy_claims s !! w = Some c → state ∈ [Failed; Cancelled; Skipped] →
    step (ByWorker w) s
      (with_db s t (fst (finish_running c state code message t (sy_db s))))
| st_retry w c delay t s :
    sy_now s < t → sy_claims s !! w = Some c → cl_attempt c < MAX_ATTEMPTS → 0 ≤ delay →
    step (ByWorker w) s
      (with_db s t (fst (requeue (cl_run_id c) (Some (cl_worker_id c)) (t + delay) t (sy_db s))))
| st_interrupt w c t s :
    sy_now s < t → sy_claims s !! w = Some c →
    step (ByWorker w) s
      (mkSys (expire_interrupted_lease (cfg w) (cl_run_id c) t (sy_db s)) t
         (delete w (sy_claims s)) (sy_reads s))
| st_done w s : step (ByWorker w) s (mkSys (sy_db s) (sy_now s) (delete w (sy_claims s)) (sy_reads s))
(** the reconciler reads, then acts on what it read *)
| st_read limit t s :
    sy_now s < t →
    step ByReconciler s
      (mkSys (sy_db s) t (sy_claims s)
         (((λ r, (r, t)) <$> expired_running t limit (sy_db s)) ++ sy_reads s))
| st_reconcile id attempt t0 t s :
    sy_now s < t → (id, attempt, t0) ∈ sy_reads s →
    step ByReconciler s (with_db s t (fst (reconcile_running t0 t id attempt (sy_db s))))
| st_retire_stale id t0 available_before t s :
    sy_now s < t → t0 ≤ t →
    step ByReconciler s (with_db s t (fst (retire_stale_origin id t0 available_before (sy_db s))))
(** the publisher *)
| st_publish_finish id state code message expected t s :
    sy_now s < t → state ∈ [Failed; Cancelled] →
    step ByPublisher s
      (with_db s t (fst (finish id Publishing None state (Some code) message t expected (sy_db s))))
| st_complete id review_id comment_ids hash moved expected t s :
    sy_now s < t →
    step ByPublisher s
      (with_db s t (fst (complete_publication id review_id comment_ids hash moved t expected (sy_db s))))
(** users and providers *)
| st_cancel id authorized t s :
    sy_now s < t → step ByUser s (with_db s t (fst (request_cancel id authorized t (sy_db s))))
| st_project id reason keep t s :
    sy_now s < t → step ByProvider s (with_db s t (project_cancel_run reason t keep id (sy_db s)))
| st_insert id p duplicate t s :
    sy_now s < t → step ByProvider s (with_db s t (fst (insert_run id p t duplicate (sy_db s))))
| st_environment changes bb gl t s :
    sy_now s < t →
    step ByProvider s
      (with_db s t (mkDb (db_runs (sy_db s)) changes (db_findings (sy_db s)) (db_comments (sy_db s))
                      bb gl (db_events (sy_db s))))
| st_retire id reason t s :
    sy_now s < t → step ByOrigin s (with_db s t (retire_run reason t id (sy_db s)))
| st_rebind id t s :
    sy_now s < t → step ByOrigin s (with_db s t (rebind_cancel_run t id (sy_db s))).

Inductive reachable : Sys → Prop :=
| re_start t changes findings comments bb gl :
    reachable (mkSys (mkDb ∅ changes findings comments bb gl []) t ∅ [])
| re_step a s s' : reachable s → step a s s' → reachable s'.

End System.

(** ** What a transaction does to a row *)

(** Who may take a running run out of its state: its worker, anyone once its lease has passed a
    time [t0] not later than now, and the removal of its origin. *)
Definition may_move (a : actor) (t0 : Z) (r : Run) : Prop :=
  (∃ w, a = ByWorker w ∧ run_worker_id r = Some w)
  ∨ (a = ByReconciler ∧ before (run_lease_until r) t0 = true)
  ∨ a = ByOrigin.

Definition leads_to (s s' : RunState) : Prop :=
  match s with
  | Queued => s' = Cancelled ∨ s' = Skipped
  | Running => s' = Failed ∨ s' = Cancelled ∨ s' = Skipped
  | Publishing => s' = Succeeded ∨ s' = Failed ∨ s' = Cancelled
  | _ => False
  end.

(** [same_run r r']: the columns no transition writes. *)
Definition same_run (r r' : Run) : Prop := run_pinned r' = run_pinned r.

(** [pins_kept a p p']: the pinned values stay, but that the removal of an origin may first record
    the origin of a run that has none. *)
Definition pins_kept (a : actor) (p p' : Pinned) : Prop :=
  p' = p
  ∨ a = ByOrigin ∧ pin_origin p = None
    ∧ ∃ i, p' = mkPinned (pin_code_change_id p) (Some i) (pin_base_sha p) (pin_head_sha p)
                  (pin_engine p).

Inductive change (a : actor) (t : Z) : Run → Run → Prop :=
| ch_claim w r r' :
    a = ByDelivery w → run_state r = Queued → run_state r' = Running →
    run_attempt r' = run_attempt r + 1 → run_worker_id r' = Some w →
    (∃ l, run_lease_until r' = Some l ∧ t ≤ l) → run_finished_at r' = run_finished_at r →
    same_run r r' → change a t r r'
| ch_keep w l r :
    a = ByWorker w → run_state r = Running ∨ run_state r = Publishing →
    run_worker_id r = Some w → t - 1 ≤ l → change a t r (set_lease (Some l) r)
| ch_requeue t0 r r' :
    run_state r = Running → may_move a t0 r → t0 ≤ t → run_attempt r < MAX_ATTEMPTS →
    run_state r' = Queued → run_attempt r' = run_attempt r → run_lease_until r' = None →
    run_finished_at r' = run_finished_at r → same_run r r' → change a t r r'
| ch_publish w r r' :
    a = ByWorker w → run_state r = Running → run_worker_id r = Some w →
    run_state r' = Publishing → run_attempt r' = run_attempt r →
    run_lease_until r' ≠ None → run_finished_at r' = run_finished_at r →
    run_worker_id r' = run_worker_id r → same_run r r' → change a t r r'
| ch_final t0 r r' :
    leads_to (run_state r) (run_state r') → (run_state r = Running → may_move a t0 r) → t0 ≤ t →
    run_attempt r' = run_attempt r → run_lease_until r' = None → run_finished_at r' ≠ None →
    pins_kept a (run_pinned r) (run_pinned r') → change a t r r'
| ch_flag r : active (run_state r) = true → change a t r (request_cancel_flag r)
| ch_origin i r :
    a = ByOrigin → pin_origin (run_pinned r) = None → change a t r (fill_origin i r).

Lemma pins_kept_refl a p : pins_kept a p p.
Proof. by left. Qed.
#[local] Hint Resolve pins_kept_refl : core.

(** The change of request is never a new one. *)
Lemma pins_kept_change a p p' : pins_kept a p p' → pin_code_change_id p' = pin_code_change_id p.
Proof. by intros [->|(_ & _ & i & ->)]. Qed.

(** [fill_origin] writes the origin of a run that has none, and nothing else. *)
Lemma fill_origin_spec i r :
  (pin_origin (run_pinned r) ≠ None ∧ fill_origin i r = r)
  ∨ (pin_origin (run_pinned r) = None
     ∧ pins_kept ByOrigin (run_pinned r) (run_pinned (fill_origin i r))
     ∧ run_state (fill_origin i r) = run_state r ∧ run_attempt (fill_origin i r) = run_attempt r
     ∧ run_lease_until (fill_origin i r) = run_lease_until r
     ∧ run_worker_id (fill_origin i r) = run_worker_id r
     ∧ run_finished_at (fill_origin i r) = run_finished_at r).
Proof.
  unfold fill_origin. destruct (pin_origin (run_pinned r)) eqn:E; [by left|]. right.
  split; [done|]. split; [|done]. right. eauto.
Qed.

Lemma fill_origin_state i r : run_state (fill_origin i r) = run_state r.
Proof. destruct (fill_origin_spec i r) as [[_ ->]|(_ & _ & ? & _)]; done. Qed.

(** ** The invariant *)

Record run_ok (r : Run) : Prop := {
  ro_attempt : 0 ≤ run_attempt r ≤ MAX_ATTEMPTS;
  ro_queued : run_state r = Queued → run_attempt r < MAX_ATTEMPTS ∧ run_lease_until r = None;
  ro_working : run_state r = Running ∨ run_state r = Publishing →
    1 ≤ run_attempt r ∧ run_worker_id r ≠ None ∧ run_lease_until r ≠ None;
  ro_open : active (run_state r) = true → run_finished_at r = None;
  ro_final : terminal (run_state r) = true → run_finished_at r ≠ None ∧ run_lease_until r = None
}.

Record sys_inv (s : Sys) : Prop := {
  si_runs : ∀ id r, db_runs (sy_db s) !! id = Some r → run_ok r;
  si_one : ∀ id1 id2 r1 r2, db_runs (sy_db s) !! id1 = Some r1 → db_runs (sy_db s) !! id2 = Some r2 →
    active (run_state r1) = true → active (run_state r2) = true →
    pin_code_change_id (run_pinned r1) = pin_code_change_id (run_pinned r2) → id1 = id2;
  si_claims : ∀ w c, sy_claims s !! w = Some c → cl_worker_id c = w
    ∧ ∀ r, db_runs (sy_db s) !! cl_run_id c = Some r →
        run_state r = Running → run_worker_id r = Some w → run_attempt r = cl_attempt c;
  si_reads : ∀ id a t0, (id, a, t0) ∈ sy_reads s → t0 ≤ sy_now s
    ∧ ∀ r, db_runs (sy_db s) !! id = Some r →
        run_state r = Running → before (run_lease_until r) t0 = true → run_attempt r = a
}.

(** ** Every transaction is a change of one row *)

(** [d'] has the runs of [d], but for at most one row, changed by a rule. *)
Definition db_change (a : actor) (t : Z) (d d' : Db) : Prop :=
  db_runs d' = db_runs d
  ∨ ∃ id r r', db_runs d !! id = Some r ∧ db_runs d' = <[id := r']> (db_runs d) ∧ change a t r r'.

Lemma joined_run d id r c : joined d id = Some (r, c) → db_runs d !! id = Some r.
Proof.
  unfold joined. destruct (db_runs d !! id) as [x|]; cbn; [|done].
  destruct (db_changes d !! _); cbn; [|done]. by intros [= -> ->].
Qed.

Lemma finish_target_state d id r c pinned state code message :
  fst (fst (finish_target d id r c pinned state code message)) = state
  ∨ fst (fst (finish_target d id r c pinned state code message)) = Cancelled.
Proof.
  unfold finish_target. destruct (negb _); [by right|].
  destruct (if pinned then _ else _); [by right|by left].
Qed.

(** What [finish] does when it does something. *)
Lemma finish_effect id from worker state code message now expected d :
  let d' := fst (finish id from worker state code message now expected d) in
  d' = d ∨ ∃ r s c m, db_runs d !! id = Some r ∧ owned from worker now r = true
    ∧ (s = state ∨ s = Cancelled) ∧ db_runs d' = <[id := finish_run s c m now r]> (db_runs d).
Proof.
  cbv zeta. unfold finish. destruct (joined d id) as [[r c]|] eqn:Hj; [|by left].
  apply joined_run in Hj.
  destruct (match expected with Some _ => _ | None => _ end); [by left|].
  pose proof (finish_target_state d id r c (bool_decide (expected ≠ None)) state code message) as Hs.
  destruct (finish_target _ _ _ _ _ _ _ _) as [[s cd] m]. cbn in Hs.
  destruct (owned from worker now r) eqn:Ho; [|by left]. right. by exists r, s, cd, m.
Qed.

Lemma owned_spec from worker now r :
  owned from worker now r = true →
  run_state r = from
  ∧ match worker with
    | Some w => run_worker_id r = Some w
    | None => from = Running → before (run_lease_until r) now = true
    end.
Proof.
  unfold owned. rewrite andb_true_iff, bool_decide_eq_true. intros [H1 H2]. split; [done|].
  destruct worker; [by apply bool_decide_eq_true in H2|]. intros ->.
  by rewrite bool_decide_true in H2.
Qed.

(** [finish] is a final change by whoever owns the row. *)
Lemma finish_change a t id from worker state code message now expected d :
  now ≤ t → (∀ s, s = state ∨ s = Cancelled → leads_to from s) →
  (from = Running → match worker with
                    | Some w => a = ByWorker w
                    | None => a = ByReconciler
                    end) →
  db_change a t d (fst (finish id from worker state code message now expected d)).
Proof.
  intros Hnow Hlead Hwho.
  destruct (finish_effect id from worker state code message now expected d)
    as [->|(r & s & c & m & Hr & Ho & Hs & Hd)]; [by left|].
  apply owned_spec in Ho as [Hst Ho]. right. exists id, r, (finish_run s c m now r).
  split; [done|]. split; [done|]. apply (ch_final a t now); cbn; auto; try done.
  - rewrite Hst. by apply Hlead.
  - intros Hrun. rewrite Hst in Hrun. specialize (Hwho Hrun). unfold may_move.
    destruct worker as [w|]; [left; by exists w|]. right; left. by auto.
Qed.

Lemma extend_lease_change w t id l d :
  t - 1 ≤ l → db_change (ByWorker w) t d (fst (extend_lease id w l d)).
Proof.
  intros Hl. unfold extend_lease. destruct (db_runs d !! id) as [r|] eqn:Hr; [|by left].
  destruct (_ && _) eqn:E; [|by left]. right. exists id, r, (set_lease (Some l) r).
  split; [done|]. split; [done|]. to_prop. destruct E as [E1 E2].
  apply (ch_keep _ _ w); [done| |done|done]. set_solver.
Qed.

Lemma requeue_change a t id worker available_at d :
  (∀ r, db_runs d !! id = Some r → owned Running worker available_at r = true →
     run_attempt r < MAX_ATTEMPTS) →
  match worker with
  | Some w => a = ByWorker w
  | None => a = ByReconciler ∧ available_at ≤ t
  end →
  db_change a t d (fst (requeue id worker available_at t d)).
Proof.
  intros Hatt Hwho. unfold requeue. destruct (joined d id) as [[r c]|] eqn:Hj; [|by left].
  apply joined_run in Hj. destruct (negb _).
  { apply finish_change; [lia| |].
    - intros s [->| ->]; cbn; auto.
    - intros _. destruct worker; naive_solver. }
  destruct (owned Running worker available_at r) eqn:Ho; [|by left].
  pose proof (Hatt r Hj Ho) as Ha. apply owned_spec in Ho as [Hst Ho].
  right. eexists id, r, _. split; [done|]. split; [done|].
  destruct worker as [w|].
  - apply (ch_requeue _ _ t); cbn; try done. left. by exists w.
  - destruct Hwho as [-> Hle]. apply (ch_requeue _ _ available_at); cbn; try done.
    right; left. auto.
Qed.

Lemma store_output_change w t id body findings answered l d :
  db_change (ByWorker w) t d (fst (store_output id w body findings answered l d)).
Proof.
  unfold store_output. destruct (joined d id) as [[r c]|] eqn:Hj; [|by left].
  apply joined_run in Hj. destruct (publishing_guard w r c) eqn:Hg; cbn [negb]; [|by left].
  destruct (bool_decide _); [by left|]. cbv zeta. right.
  unfold publishing_guard in Hg. to_prop. destruct Hg as [[[H1 H2] _] _].
  eexists id, r, _. split; [done|]. split; [cbn; f_equal; by destruct answered|].
  apply (ch_publish _ _ w); by cbn.
Qed.

Lemma complete_publication_change t id review_id comment_ids hash moved expected d :
  db_change ByPublisher t d
    (fst (complete_publication id review_id comment_ids hash moved t expected d)).
Proof.
  unfold complete_publication. destruct (joined d id) as [[r c]|] eqn:Hj; [|by left].
  apply joined_run in Hj. destruct (bool_decide (run_state r = Publishing)) eqn:Hp; [|by left].
  apply bool_decide_eq_true in Hp. cbn [negb].
  destruct (match expected with Some _ => _ | None => _ end); [by left|]. right.
  assert (Hf : ∀ s cd m, s = Succeeded ∨ s = Cancelled →
             change ByPublisher t r (finish_run s cd m t r)).
  { intros s cd m Hs. apply (ch_final _ _ t); cbn; try done; [rewrite Hp; cbn; tauto|congruence]. }
  destruct (negb _).
  - eexists id, r, _. split; [done|]. split; [done|]. apply Hf. by right.
  - destruct (place_findings _ _ _ _ _ _) as [place cs].
    eexists id, r, _. split; [done|]. split; [done|]. apply Hf. case_bool_decide; auto.
Qed.

Lemma cancel_queued_change a t code now keep r :
  run_ok r → run_state r = Queued → change a t r (cancel_queued code now keep r).
Proof.
  intros Hok Hq. apply (ch_final _ _ t); cbn; try done; [rewrite Hq; cbn; auto|congruence|].
  by apply (ro_queued r Hok).
Qed.

Lemma request_cancel_change t id authorized d :
  (∀ r, db_runs d !! id = Some r → run_ok r) →
  db_change ByUser t d (fst (request_cancel id authorized t d)).
Proof.
  intros Hok. unfold request_cancel. destruct (db_runs d !! id) as [r|] eqn:Hr; [|by left].
  destruct authorized; cbn [negb]; [|by left].
  destruct (bool_decide (run_state r = Queued)) eqn:E1; to_prop.
  { right. eexists id, r, _. split; [done|]. split; [done|]. apply cancel_queued_change; [by apply Hok|done]. }
  destruct (bool_decide (_ ∈ _)) eqn:E2; [|by left]. destruct (run_cancel_requested r); [by left|].
  right. eexists id, r, _. split; [done|]. split; [done|]. apply ch_flag.
  apply bool_decide_eq_true in E2. unfold active. apply bool_decide_eq_true. set_solver.
Qed.

Lemma project_cancel_change t id reason keep d :
  (∀ r, db_runs d !! id = Some r → run_ok r) →
  db_change ByProvider t d (project_cancel_run reason t keep id d).
Proof.
  intros Hok. unfold project_cancel_run. destruct (db_runs d !! id) as [r|] eqn:Hr; [|by left].
  destruct (bool_decide (run_state r = Queued)) eqn:E1; to_prop.
  { right. eexists id, r, _. split; [done|]. split; [done|]. apply cancel_queued_change; [by apply Hok|done]. }
  destruct (_ && _) eqn:E2; [|by left]. right. eexists id, r, _. split; [done|]. split; [done|].
  apply ch_flag. by apply andb_true_iff in E2 as [E2 _].
Qed.

(** The removal of its origin cancels a run in any active state. *)
Lemma origin_cancels t r r' :
  active (run_state r) = true → run_state r' = Cancelled → run_attempt r' = run_attempt r →
  run_lease_until r' = None → run_finished_at r' ≠ None →
  pins_kept ByOrigin (run_pinned r) (run_pinned r') → change ByOrigin t r r'.
Proof.
  intros Ha H2 H3 H4 H5 H6. apply (ch_final _ _ t); try done.
  - rewrite H2. by destruct (run_state r); cbn in *; auto.
  - intros _. by right; right.
Qed.

Lemma retire_run_change t id reason d : db_change ByOrigin t d (retire_run reason t id d).
Proof.
  unfold retire_run. destruct (db_runs d !! id) as [r|] eqn:Hr; [|by left].
  destruct (active (run_state r)) eqn:Ha; [|by left]. right. eexists id, r, _.
  split; [done|]. split; [done|]. by apply origin_cancels.
Qed.

Lemma rebind_change t id d : db_change ByOrigin t d (rebind_cancel_run t id d).
Proof.
  unfold rebind_cancel_run. destruct (joined d id) as [[r c]|] eqn:Hj; [|by left].
  apply joined_run in Hj.
  pose proof (fill_origin_spec (cc_installation_id c) r) as Hspec. cbv zeta.
  destruct (_ && _) eqn:E.
  - right. to_prop. destruct E as [_ Ha]. eexists id, r, _. split; [done|].
    split; [cbn; by rewrite insert_insert_eq|].
    destruct Hspec as [[_ Hf]|(_ & Hp & H1 & H2 & H3 & H4 & H5)].
    + rewrite Hf in *. by apply origin_cancels.
    + rewrite H1 in Ha. by apply origin_cancels.
  - destruct Hspec as [[_ Hf]|[Hn _]].
    + left. rewrite Hf. cbn. by apply insert_id.
    + right. eexists id, r, _. split; [done|]. split; [done|]. by apply ch_origin.
Qed.

Lemma guard_txn_change st id matches t d d' e :
  0 ≤ hs_lease st → (∀ r, db_runs d !! id = Some r → run_ok r) →
  guard_txn st id matches t d = (d', e) →
  db_change (ByDelivery (hs_worker_id st)) t d d'
  ∧ ∀ c, e = GuardClaimed c → cl_worker_id c = hs_worker_id st ∧ cl_run_id c = id
      ∧ ∃ r, db_runs d' !! id = Some r ∧ run_attempt r = cl_attempt c.
Proof.
  intros Hl Hok. unfold guard_txn. destruct (lock_for_claim d id) as [s|]; [|intros [= <- <-]; by split; [left|]].
  destruct (_ && _); [intros [= <- <-]; by split; [left|]|].
  destruct (_ || _); [intros [= <- <-]; by split; [left|]|].
  destruct (guard s matches) as [[state reason]|] eqn:Hg.
  { intros [= <- <-]. split; [|done]. apply finish_change; [lia| |done].
    assert (Hst : state = Cancelled ∨ state = Skipped) by (unfold guard in Hg; repeat case_match; naive_solver).
    intros s' [->| ->]; cbn; tauto. }
  unfold claim. destruct (db_runs d !! id) as [r|] eqn:Hr; [|intros [= <- <-]; by split; [left|]].
  destruct (bool_decide (run_state r = Queued)) eqn:E; [|intros [= <- <-]; by split; [left|]].
  apply bool_decide_eq_true in E. intros [= <- <-]. split.
  - right. eexists id, r, _. split; [done|]. split; [done|].
    apply (ch_claim _ _ (hs_worker_id st)); cbn; try done. exists (t + hs_lease st). split; [done|lia].
  - intros c [= <-]. cbn. split; [done|]. split; [done|]. eexists. by rewrite lookup_insert_eq.
Qed.

(** ** The invariant is kept *)

Lemma leads_to_cases s s' : leads_to s s' → active s = true ∧ terminal s' = true.
Proof. destruct s; cbn; [..|done|done|done|done]; naive_solver. Qed.

Lemma terminal_not_active s : terminal s = true → active s = false.
Proof. by destruct s. Qed.

(** [origin_filled a r r']: at most the missing origin of [r] was recorded. *)
Definition origin_filled (a : actor) (r r' : Run) : Prop :=
  r' = r ∨ a = ByOrigin ∧ pin_origin (run_pinned r) = None ∧ ∃ i, r' = fill_origin i r.

Lemma change_active a t r r' :
  change a t r r' → active (run_state r) = true ∨ origin_filled a r r'.
Proof.
  intros H. destruct H as [w r r' _ H _ _ _ _ _ _|w l r _ H _ _|t0 r r' H _ _ _ _ _ _ _ _
                          |w r r' _ H _ _ _ _ _ _ _|t0 r r' H _ _ _ _ _ _|r H|i r Ha H];
    try (left; by rewrite H).
  - left. by destruct H as [-> | ->].
  - left. by apply leads_to_cases in H as [? _].
  - right. right. eauto.
Qed.

Lemma change_pins a t r r' : change a t r r' → pins_kept a (run_pinned r) (run_pinned r').
Proof.
  intros H. destruct H as [| | | | | |i r -> H]; unfold same_run in *; cbn; auto;
    try (left; congruence).
  destruct (fill_origin_spec i r) as [[? _]|(_ & Hp & _)]; [done|exact Hp].
Qed.

Lemma change_ok a t r r' : run_ok r → change a t r r' → run_ok r'.
Proof.
  intros Hok Hc. pose proof (ro_attempt r Hok). pose proof (ro_queued r Hok) as Hq.
  pose proof (ro_working r Hok) as Hw. pose proof (ro_open r Hok) as Ho.
  pose proof (ro_final r Hok) as Hf.
  destruct Hc as [w r r' -> H1 H2 H3 H4 (l & H5 & _) H6 _
                 |w l r -> H1 H2 _
                 |t0 r r' H1 _ _ H2 H3 H4 H5 H6 _
                 |w r r' -> H1 H2 H3 H4 H5 H6 H7 _
                 |t0 r r' H1 _ _ H2 H3 H4 _
                 |r H1|i r Ha H1].
  - rewrite H1 in *. constructor; rewrite ?H2, ?H3, ?H4, ?H5, ?H6; try done.
    + destruct Hq; [done|]. lia.
    + intros _. split; [lia|done].
  - constructor; cbn; try done.
    + intros E. rewrite E in H1. naive_solver.
    + intros _. destruct (Hw H1) as (? & ? & _). done.
    + intros E. destruct H1 as [H1|H1]; rewrite H1 in E; done.
  - rewrite H1 in *. by constructor; rewrite ?H3, ?H4, ?H5, ?H6; naive_solver.
  - rewrite H1 in *. constructor; rewrite ?H3, ?H4, ?H6, ?H7; try done.
    intros _. destruct Hw as (? & ? & _); [by left|]. done.
  - apply leads_to_cases in H1 as [Ha Ht]. pose proof (terminal_not_active _ Ht) as Hn.
    constructor; rewrite ?H2, ?H3; try done; intros E; try (rewrite E in Hn; done); try congruence.
    destruct E as [E|E]; rewrite E in Hn; done.
  - by constructor.
  - destruct (fill_origin_spec i r) as [[? _]|(_ & _ & E1 & E2 & E3 & E4 & E5)]; [done|].
    by constructor; rewrite ?E1, ?E2, ?E3, ?E4, ?E5.
Qed.

Lemma db_change_lookup a t d d' id r' :
  db_change a t d d' → db_runs d' !! id = Some r' →
  ∃ r, db_runs d !! id = Some r ∧ (r' = r ∨ change a t r r').
Proof.
  intros [->|(i & r & r1 & Hr & -> & Hc)] Hl; [by exists r'; auto|].
  destruct (decide (i = id)) as [->|Hne].
  - rewrite lookup_insert_eq in Hl. simplify_eq. eauto.
  - rewrite lookup_insert_ne in Hl by done. eauto.
Qed.

(** A row that a worker's attempt or a reading knows keeps the known attempt number. *)
Lemma change_keeps_attempt a t r r' :
  change a t r r' → run_state r' = Running →
  (run_state r = Running ∧ run_attempt r' = run_attempt r ∧ run_worker_id r' = run_worker_id r
   ∧ (run_lease_until r' = run_lease_until r ∨ ∃ l, run_lease_until r' = Some l ∧ t - 1 ≤ l))
  ∨ (∃ w, a = ByDelivery w ∧ run_worker_id r' = Some w ∧ run_state r = Queued
      ∧ ∃ l, run_lease_until r' = Some l ∧ t ≤ l).
Proof.
  intros Hc Hr'. destruct Hc; try congruence; cbn in *.
  - right. eauto 10.
  - left. naive_solver.
  - rewrite Hr' in *. apply leads_to_cases in H as [_ H]. done.
  - left. auto.
  - left. destruct (fill_origin_spec i r) as [[? _]|(_ & _ & E1 & E2 & E3 & E4 & _)]; [done|].
    rewrite E2, E3, E4. split; [congruence|]. auto.
Qed.

Lemma sys_inv_change s a t d' :
  sys_inv s → sy_now s < t → db_change a t (sy_db s) d' →
  (∀ w, a = ByDelivery w → sy_claims s !! w = None) →
  sys_inv (with_db s t d').
Proof.
  intros Hinv Ht Hd Hfree. constructor; cbn.
  - intros id r' Hl. destruct (db_change_lookup _ _ _ _ _ _ Hd Hl) as (r & Hr & [->|Hc]).
    + by eapply (si_runs s Hinv).
    + eapply change_ok; [|done]. by eapply (si_runs s Hinv).
  - intros id1 id2 r1 r2 H1 H2 A1 A2 E.
    destruct (db_change_lookup _ _ _ _ _ _ Hd H1) as (r1' & Hr1 & C1).
    destruct (db_change_lookup _ _ _ _ _ _ Hd H2) as (r2' & Hr2 & C2).
    assert (Hact : ∀ r r', active (run_state r') = true → r' = r ∨ change a t r r' →
              active (run_state r) = true
              ∧ pin_code_change_id (run_pinned r') = pin_code_change_id (run_pinned r)).
    { intros r r' A [->|C]; [done|]. split; [|by eapply pins_kept_change, change_pins].
      destruct (change_active _ _ _ _ C) as [?|[->|(_ & _ & i & ->)]]; [done|done|].
      by rewrite fill_origin_state in A. }
    destruct (Hact _ _ A1 C1) as [B1 P1], (Hact _ _ A2 C2) as [B2 P2].
    eapply (si_one s Hinv); [done..|]. by rewrite <- P1, <- P2.
  - intros w c Hc. destruct (si_claims s Hinv w c Hc) as [Hw Hcl]. split; [done|].
    intros r' Hl Hrun Hwid. destruct (db_change_lookup _ _ _ _ _ _ Hd Hl) as (r & Hr & [->|C]); [by apply Hcl|].
    destruct (change_keeps_attempt _ _ _ _ C Hrun) as [(H1 & -> & H3 & _)|(w' & -> & H3 & H4 & _)].
    + apply Hcl; congruence.
    + assert (w' = w) as -> by congruence. by rewrite (Hfree w eq_refl) in Hc.
  - intros id n t0 Hin. destruct (si_reads s Hinv id n t0 Hin) as [Hle Hrd]. split; [lia|].
    intros r' Hl Hrun Hb. destruct (db_change_lookup _ _ _ _ _ _ Hd Hl) as (r & Hr & [->|C]); [by apply Hrd|].
    destruct (change_keeps_attempt _ _ _ _ C Hrun) as [(H1 & -> & H3 & [H4|(l & H4 & H5)])|(w' & _ & _ & _ & l & H4 & H5)].
    + apply Hrd; congruence.
    + rewrite H4 in Hb. cbn in Hb. to_prop. lia.
    + rewrite H4 in Hb. cbn in Hb. to_prop. lia.
Qed.

Lemma sys_inv_claims s claims :
  sys_inv s → (∀ w c, claims !! w = Some c → sy_claims s !! w = Some c) →
  sys_inv (mkSys (sy_db s) (sy_now s) claims (sy_reads s)).
Proof. intros [H1 H2 H3 H4] Hsub. constructor; cbn; eauto. Qed.

(** A claim enters with the attempt number it was given. *)
Lemma sys_inv_claimed s w c r :
  sys_inv s → cl_worker_id c = w → db_runs (sy_db s) !! cl_run_id c = Some r →
  run_attempt r = cl_attempt c →
  sys_inv (mkSys (sy_db s) (sy_now s) (<[w := c]> (sy_claims s)) (sy_reads s)).
Proof.
  intros [H1 H2 H3 H4] Hw Hr Ha. constructor; cbn; try done. intros w' c' Hc.
  destruct (decide (w = w')) as [<-|Hne].
  - rewrite lookup_insert_eq in Hc. simplify_eq. split; [done|]. intros r' Hr' _ _. congruence.
  - rewrite lookup_insert_ne in Hc by done. by apply H3.
Qed.

Lemma in_take_sorted {A} (leb : A → A → bool) (p : A → bool) n l x :
  x ∈ take n (py_sorted leb (List.filter p l)) → In x l ∧ p x = true.
Proof.
  intros Hx. apply list_elem_of_In in Hx.
  assert (Hin : In x (py_sorted leb (List.filter p l))).
  { rewrite <- (take_drop n (py_sorted leb (List.filter p l))). apply in_app_iff. by left. }
  apply In_py_sorted in Hin. by apply List.filter_In in Hin.
Qed.

(** What the reconciler reads of an expired run is its state at that time. *)
Lemma expired_running_spec t limit d id a :
  (id, a) ∈ expired_running t limit d →
  ∃ r, db_runs d !! id = Some r ∧ run_attempt r = a ∧ run_state r = Running
       ∧ before (run_lease_until r) t = true.
Proof.
  unfold expired_running. rewrite <- fmap_take. intros H.
  apply list_elem_of_fmap in H as ([i r] & [= -> ->] & H).
  apply in_take_sorted in H as [Hin Hp]. cbn in Hp. to_prop. destruct Hp as [H1 H2].
  apply list_elem_of_In in Hin. unfold run_rows in Hin. apply elem_of_map_to_list in Hin. eauto.
Qed.

Lemma sys_inv_read s t limit :
  sys_inv s → sy_now s < t →
  sys_inv (mkSys (sy_db s) t (sy_claims s)
             (((λ r, (r, t)) <$> expired_running t limit (sy_db s)) ++ sy_reads s)).
Proof.
  intros [H1 H2 H3 H4] Ht. constructor; cbn; try done. intros id a t0 Hin.
  apply elem_of_app in Hin as [Hin|Hin].
  - apply list_elem_of_fmap in Hin as ([i n] & [= -> -> ->] & Hin). split; [lia|].
    apply expired_running_spec in Hin as (r & Hr & Ha & _). intros r' Hr'. congruence.
  - destruct (H4 id a t0 Hin) as [Hle Hr]. split; [lia|done].
Qed.

Lemma active_run_of_spec d cc id r :
  active_run_of d cc = false → db_runs d !! id = Some r → active (run_state r) = true →
  pin_code_change_id (run_pinned r) ≠ cc.
Proof.
  unfold active_run_of. intros Hn Hr Ha E. apply not_true_iff_false in Hn. apply Hn.
  apply existsb_exists. exists (id, r). cbn. rewrite Ha, E, N.eqb_refl. split; [|done].
  apply list_elem_of_In. by apply elem_of_map_to_list.
Qed.

Lemma sys_inv_insert s t id p duplicate :
  sys_inv s → sy_now s < t → sys_inv (with_db s t (fst (insert_run id p t duplicate (sy_db s)))).
Proof.
  intros Hinv Ht. assert (H0 : sys_inv (with_db s t (sy_db s))).
  { apply (sys_inv_change s ByUser); [done|done|by left|done]. }
  unfold insert_run. destruct (_ && _ && _) eqn:E; [|done]. cbn [fst].
  apply andb_true_iff in E as [E _]. apply andb_true_iff in E as [E1 E2].
  apply bool_decide_eq_true in E1. apply negb_true_iff in E2.
  destruct Hinv as [H1 H2 H3 H4].
  assert (Hl : ∀ i r, <[id := new_run p t]> (db_runs (sy_db s)) !! i = Some r →
            (i = id ∧ r = new_run p t) ∨ (i ≠ id ∧ db_runs (sy_db s) !! i = Some r)).
  { intros i r H. destruct (decide (id = i)) as [<-|Hne].
    - rewrite lookup_insert_eq in H. left. by simplify_eq.
    - rewrite lookup_insert_ne in H by done. right. auto. }
  constructor; cbn.
  - intros i r H. destruct (Hl i r H) as [[-> ->]|[_ H']]; [|by eapply H1].
    constructor; cbn; try done; naive_solver.
  - intros i1 i2 r1 r2 L1 L2 A1 A2 Ecc.
    destruct (Hl _ _ L1) as [[-> ->]|[N1 M1]], (Hl _ _ L2) as [[-> ->]|[N2 M2]]; [done| | |by eapply H2].
    + by destruct (active_run_of_spec _ _ _ _ E2 M2 A2).
    + by destruct (active_run_of_spec _ _ _ _ E2 M1 A1).
  - intros w c Hc. destruct (H3 w c Hc) as [Hw Hr]. split; [done|]. intros r H Hrun.
    destruct (Hl _ _ H) as [[_ ->]|[_ H']]; [done|by apply Hr].
  - intros i a t0 Hin. destruct (H4 i a t0 Hin) as [Hle Hr]. split; [lia|]. intros r H Hrun.
    destruct (Hl _ _ H) as [[_ ->]|[_ H']]; [done|by apply Hr].
Qed.

Section Reachability.
Context (cfg : pystr → Settings).
Context (cfg_worker : ∀ w, hs_worker_id (cfg w) = w) (cfg_lease : ∀ w, 0 ≤ hs_lease (cfg w)).
#[local] Set Default Proof Using "Type*".

(** Each step but the creation of a run changes at most one row, by the rules. *)
Lemma step_change a s s' :
  sys_inv s → step cfg a s s' →
  db_change a (sy_now s') (sy_db s) (sy_db s')
  ∨ a = ByProvider ∧ ∃ id p duplicate, s' = with_db s (sy_now s') (fst (insert_run id p (sy_now s') duplicate (sy_db s))).
Proof.
  intros Hinv Hstep. pose proof (si_runs s Hinv) as Hok.
  destruct Hstep as [w id matches t s d' e Ht Hc Hg|w c t s Ht Hc|w c body fs answered t s Ht Hc
    |w c st code msg t s Ht Hc Hst|w c delay t s Ht Hc Ha Hd|w c t s Ht Hc|w s|limit t s Ht
    |id n t0 t s Ht Hin|id t0 ab t s Ht Hle|id st code msg ex t s Ht Hst|id rid cids hash mv ex t s Ht
    |id au t s Ht|id reason keep t s Ht|id p dup t s Ht|ch bb gl t s Ht|id reason t s Ht|id t s Ht];
    cbn [sy_now sy_db with_db].
  all: try (right; split; [done|by exists id, p, dup]); left.
  - rewrite <- (cfg_worker w). eapply guard_txn_change; [apply cfg_lease|by apply Hok|done].
  - destruct (si_claims s Hinv w c Hc) as [<- _]. apply extend_lease_change.
    pose proof (cfg_lease (cl_worker_id c)). lia.
  - apply store_output_change.
  - destruct (si_claims s Hinv w c Hc) as [<- _]. apply finish_change; [lia| |done].
    intros s' [->| ->]; cbn; [|auto]. set_solver.
  - destruct (si_claims s Hinv w c Hc) as [Hw Hr]. apply requeue_change; [|by rewrite Hw].
    intros r Hl Ho. apply owned_spec in Ho as [Hrun Ho]. rewrite (Hr r); [done|done|done|by rewrite <- Hw].
  - unfold expire_interrupted_lease. destruct (lock_for_claim _ _); [|by left].
    case_bool_decide; [|by left]. rewrite cfg_worker. apply extend_lease_change. lia.
  - by left.
  - by left.
  - destruct (si_reads s Hinv id n t0 Hin) as [Hle Hr]. unfold reconcile_running.
    destruct (n <? MAX_ATTEMPTS) eqn:E; to_prop.
    + assert (Hch : db_change ByReconciler t (sy_db s) (fst (requeue id None t0 t (sy_db s)))).
      { apply requeue_change; [|split; [done|lia]]. intros r Hl Ho. apply owned_spec in Ho as [Hrun Ho].
        rewrite (Hr r); [done|done|done|by apply Ho]. }
      by destruct (requeue id None t0 t (sy_db s)).
    + assert (Hch : db_change ByReconciler t (sy_db s)
                (fst (finish id Running None Failed (Some (u8 "lease_expired"))
                   (Some (u8 "lease expired after the last attempt")) t0 None (sy_db s)))).
      { apply finish_change; [lia| |done]. intros s' [->| ->]; cbn; auto. }
      by destruct (finish _ _ _ _ _ _ _ _ _).
  - unfold retire_stale_origin. destruct (joined (sy_db s) id) as [[r c]|] eqn:Hj; [|by left].
    destruct (_ && _) eqn:E; [|by left]. apply andb_true_iff in E as [E _].
    apply finish_change; [done| |done]. intros s' Hs. assert (s' = Cancelled) as -> by naive_solver.
    unfold stale in E. to_prop. destruct E as [[E _]|[E _]]; [rewrite E; cbn; auto|].
    assert (E' : run_state r = Running ∨ run_state r = Publishing) by set_solver.
    destruct E' as [-> | ->]; cbn; auto.
  - apply finish_change; [lia| |done]. intros s' [->| ->]; cbn; [|auto]. set_solver.
  - apply complete_publication_change.
  - by apply request_cancel_change, Hok.
  - by apply project_cancel_change, Hok.
  - by left.
  - apply retire_run_change.
  - apply rebind_change.
Qed.

Lemma step_inv a s s' : sys_inv s → step cfg a s s' → sys_inv s'.
Proof.
  intros Hinv Hstep. pose proof (step_change a s s' Hinv Hstep) as Hch.
  assert (Hgen : ∀ t d', sy_now s < t → db_change a t (sy_db s) d' →
            (∀ w, a = ByDelivery w → sy_claims s !! w = None) → sys_inv (with_db s t d'))
    by (intros; by eapply sys_inv_change).
  destruct Hstep as [w id matches t s d' e Ht Hc Hg|w c t s Ht Hc|w c body fs answered t s Ht Hc
    |w c st code msg t s Ht Hc Hst|w c delay t s Ht Hc Ha Hd|w c t s Ht Hc|w s|limit t s Ht
    |id n t0 t s Ht Hin|id t0 ab t s Ht Hle|id st code msg ex t s Ht Hst|id rid cids hash mv ex t s Ht
    |id au t s Ht|id reason keep t s Ht|id p dup t s Ht|ch bb gl t s Ht|id reason t s Ht|id t s Ht];
    cbn [sy_now sy_db with_db] in Hch.
  15: by apply sys_inv_insert.
  all: try (destruct Hch as [Hch|(_ & i & p & dup & Hch)];
            [apply Hgen; [done|done|discriminate]|rewrite Hch; by apply sys_inv_insert]).
  - assert (Hd : db_change (ByDelivery w) t (sy_db s) d').
    { rewrite <- (cfg_worker w). eapply guard_txn_change; [apply cfg_lease|apply (si_runs s Hinv)|done]. }
    assert (H1 : sys_inv (with_db s t d')) by (apply Hgen; [done|done|by intros ? [= <-]]).
    destruct e as [| |c|]; try done.
    apply guard_txn_change in Hg as [_ Hg]; [|apply cfg_lease|apply (si_runs s Hinv)].
    destruct (Hg c eq_refl) as (Hw & Hid & r & Hr & Ha). rewrite cfg_worker in Hw.
    eapply (sys_inv_claimed _ w c r H1); [done|by rewrite Hid|done].
  - destruct Hch as [Hch|[[=] _]].
    apply (sys_inv_claims (with_db s t _)); [apply Hgen; [done|done|discriminate]|].
    cbn. intros w' c' H. by apply lookup_delete_Some in H as [_ H].
  - apply sys_inv_claims; [done|]. intros w' c' H. by apply lookup_delete_Some in H as [_ H].
  - by apply sys_inv_read.
Qed.

Lemma reachable_inv s : reachable cfg s → sys_inv s.
Proof.
  induction 1 as [|a s s' _ IH Hs]; [|by eapply step_inv].
  constructor; cbn.
  - intros id r H. by rewrite lookup_empty in H.
  - intros id1 id2 r1 r2 H. by rewrite lookup_empty in H.
  - intros w c H. by rewrite lookup_empty in H.
  - intros id n t0 H. by apply elem_of_nil in H.
Qed.

(** A row keeps its identity through a step, and what happened to it is a change. *)
Lemma step_row a s s' id r :
  sys_inv s → step cfg a s s' → db_runs (sy_db s) !! id = Some r →
  ∃ r', db_runs (sy_db s') !! id = Some r' ∧ (r' = r ∨ change a (sy_now s') r r').
Proof.
  intros Hinv Hstep Hr. destruct (step_change a s s' Hinv Hstep) as [Hd|(_ & i & p & dup & ->)].
  - destruct Hd as [->|(i & r0 & r1 & Hi & -> & Hc)]; [eauto|].
    destruct (decide (i = id)) as [->|Hne].
    + rewrite lookup_insert_eq. simplify_eq. eauto.
    + rewrite lookup_insert_ne by done. eauto.
  - cbn. unfold insert_run. destruct (_ && _ && _) eqn:E; cbn; [|eauto].
    apply andb_true_iff in E as [E _]. apply andb_true_iff in E as [E _].
    apply bool_decide_eq_true in E. rewrite lookup_insert_ne by congruence. eauto.
Qed.

Lemma step_now a s s' : step cfg a s s' → sy_now s ≤ sy_now s'.
Proof. destruct 1; cbn; lia. Qed.
End Reachability.

(** ** The handler is made of steps *)

Inductive steps (cfg : pystr → Settings) : Sys → Sys → Prop :=
| steps_nil s : steps cfg s s
| steps_cons a s s' s'' : step cfg a s s' → steps cfg s' s'' → steps cfg s s''.

Lemma step_steps cfg a s s' : step cfg a s s' → steps cfg s s'.
Proof. intros H. eapply steps_cons; [done|constructor]. Qed.

Lemma for_failure_nonneg delays n f :
  0 ≤ rd_short delays → 0 ≤ rd_medium delays → 0 ≤ rd_long delays →
  0 ≤ snd (for_failure delays n f).
Proof.
  intros. unfold for_failure. assert (0 ≤ RETRY_AFTER_CEILING) by done.
  repeat case_match; cbn [snd]; lia.
Qed.

(** [reaches s t d]: some steps lead from [s] to a state at time [t] with database [d]. *)
Definition reaches (cfg : pystr → Settings) (s : Sys) (d : Db) : Prop :=
  ∃ s', steps cfg s s' ∧ sy_db s' = d.

Lemma reaches_same cfg s : reaches cfg s (sy_db s).
Proof. exists s. split; [constructor|done]. Qed.

Section Handler.
Context (cfg : pystr → Settings) (s : Sys) (w : pystr) (c : Claimed) (t : Z).
Context (Ht : sy_now s < t) (Hc : sy_claims s !! w = Some c) (Hw : cl_worker_id c = w).
#[local] Set Default Proof Using "Type*".

Lemma finish_running_reaches state code message :
  state ∈ [Failed; Cancelled; Skipped] →
  reaches cfg s (fst (finish_running c state code message t (sy_db s))).
Proof.
  intros Hst. eexists. split; [eapply step_steps, (st_finish cfg w c); done|done].
Qed.

Lemma cancel_reaches reason : reaches cfg s (fst (cancel c reason t (sy_db s))).
Proof.
  pose proof (finish_running_reaches Cancelled reason None) as H. unfold cancel.
  destruct (finish_running _ _ _ _ _ _) as [d' b]. apply H. set_solver.
Qed.

Lemma fail_reaches f :
  0 ≤ rd_short (hs_delays (cfg w)) → 0 ≤ rd_medium (hs_delays (cfg w)) →
  0 ≤ rd_long (hs_delays (cfg w)) →
  reaches cfg s (fst (fail (cfg w) c f t (sy_db s))).
Proof.
  intros D1 D2 D3. unfold fail. cbv zeta. destruct (ostr_eqb _ _); [apply cancel_reaches|].
  destruct (may_retry c f) eqn:Hr.
  - unfold may_retry in Hr. apply andb_true_iff in Hr as [_ Hr]. apply Z.ltb_lt in Hr.
    pose proof (for_failure_nonneg (hs_delays (cfg w)) (cl_attempt c) f D1 D2 D3) as Hd.
    destruct (for_failure _ _ _) as [key delay]. cbn in Hd.
    assert (H : reaches cfg s (fst (requeue (cl_run_id c) (Some (cl_worker_id c)) (t + delay) t (sy_db s)))).
    { eexists. split; [eapply step_steps, (st_retry cfg w c delay); done|done]. }
    by destruct (requeue _ _ _ _ _).
  - pose proof (finish_running_reaches Failed (rf_error_code f)
                  (Some (take MAX_MESSAGE (rf_message f)))) as H.
    destruct (finish_running _ _ _ _ _ _) as [d' b]. cbn in H.
    assert (Hd : reaches cfg s d') by (apply H; set_solver).
    destruct (negb b); [done|]. by destruct (ostr_eqb _ _).
Qed.

Lemma run_attempt_end_reaches e :
  0 ≤ rd_short (hs_delays (cfg w)) → 0 ≤ rd_medium (hs_delays (cfg w)) →
  0 ≤ rd_long (hs_delays (cfg w)) →
  reaches cfg s (fst (run_attempt_end (cfg w) c e t (sy_db s))).
Proof.
  intros D1 D2 D3. destruct e as [[]| |text|reason| |exc]; cbn [run_attempt_end].
  - apply reaches_same.
  - destruct (store_cancellation_reason _ _); [apply cancel_reaches|by apply fail_reaches].
  - apply reaches_same.
  - apply cancel_reaches.
  - pose proof (finish_running_reaches Skipped reason None) as H.
    destruct (finish_running _ _ _ _ _ _) as [d' b]. apply H. set_solver.
  - by apply fail_reaches.
  - by apply fail_reaches.
Qed.
End Handler.

(** ** An example: a run is created and claimed *)

Definition sample_cfg (w : pystr) : Settings :=
  mkSettings w default_delays FAST_ATTEMPT_DEADLINE LEASE.
Definition sample_change : CodeChange :=
  mkCodeChange true (u8 "head") 1 true 2 false true (u8 "github") 3 0 0.
Definition sample_pinned : Pinned :=
  mkPinned 10 (Some 2%N) (u8 "base") (u8 "head") Engine_fast.
Definition sample_start : Sys :=
  mkSys (mkDb ∅ {[10%N := sample_change]} ∅ [] ∅ ∅ []) 0 ∅ [].
Definition sample_queued : Sys :=
  with_db sample_start 1 (fst (insert_run 7 sample_pinned 1 false (sy_db sample_start))).
Definition sample_worker : pystr := u8 "worker-1".
Definition sample_claim : Claimed := mkClaimed 7 1 (2 + FAST_ATTEMPT_DEADLINE) sample_worker.
Definition sample_running : Sys :=
  mkSys (fst (guard_txn (sample_cfg sample_worker) 7 true 2 (sy_db sample_queued))) 2
    {[sample_worker := sample_claim]} [].
Definition sample_run : Run :=
  mkRun sample_pinned Running 1 1 (Some (2 + LEASE)) (Some sample_worker) false None None
    (Some 2) None None None.

Lemma sample_cfg_ok w : hs_worker_id (sample_cfg w) = w ∧ 0 ≤ hs_lease (sample_cfg w).
Proof. by split. Qed.

Lemma sample_claim_step : step sample_cfg (ByDelivery sample_worker) sample_queued sample_running.
Proof.
  unfold sample_running. rewrite <- (insert_empty (M := gmap pystr) sample_worker sample_claim).
  apply (st_guard sample_cfg sample_worker 7 true 2 sample_queued _ (GuardClaimed sample_claim));
    [done|done|]. vm_compute. reflexivity.
Qed.

Lemma sample_running_reachable : reachable sample_cfg sample_running.
Proof.
  eapply re_step; [|apply sample_claim_step].
  eapply re_step; [apply (re_start sample_cfg)|].
  by apply (st_insert sample_cfg 7 sample_pinned false 1 sample_start).
Qed.

(** ** Properties *)

(** C1.  In every state that deliveries, attempts, reconciler passes, publications, cancellations
    and provider events can reach, in any interleaving: no run has more than three attempts and a
    queued run has one left; a queued run has no lease; a running or publishing run has a worker, a
    lease and at least one attempt; exactly the finished runs have a finish time, and no lease; and
    a pull request has at most one active run. *)
Theorem reachable_runs_wf cfg s :
  (∀ w, hs_worker_id (cfg w) = w) → (∀ w, 0 ≤ hs_lease (cfg w)) → reachable cfg s →
  (∀ id r, db_runs (sy_db s) !! id = Some r →
     0 ≤ run_attempt r ≤ MAX_ATTEMPTS
     ∧ (run_state r = Queued → run_attempt r < MAX_ATTEMPTS ∧ run_lease_until r = None)
     ∧ (run_state r = Running ∨ run_state r = Publishing →
          1 ≤ run_attempt r ∧ run_worker_id r ≠ None ∧ run_lease_until r ≠ None)
     ∧ (terminal (run_state r) = true → run_finished_at r ≠ None ∧ run_lease_until r = None)
     ∧ (active (run_state r) = true → run_finished_at r = None))
  ∧ (∀ id1 id2 r1 r2, db_runs (sy_db s) !! id1 = Some r1 → db_runs (sy_db s) !! id2 = Some r2 →
       active (run_state r1) = true → active (run_state r2) = true →
       pin_code_change_id (run_pinned r1) = pin_code_change_id (run_pinned r2) → id1 = id2).
Proof.
  intros H1 H2 Hs. pose proof (reachable_inv cfg H1 H2 s Hs) as Hinv. split.
  - intros id r Hr. destruct (si_runs s Hinv id r Hr) as [A B C D E]. exact (conj A (conj B (conj C (conj E D)))).
  - apply (si_one s Hinv).
Qed.

Lemma reachable_runs_wf_witness :
  db_runs (sy_db sample_running) !! 7%N = Some sample_run ∧ 0 ≤ run_attempt sample_run ≤ MAX_ATTEMPTS.
Proof.
  assert (E : db_runs (sy_db sample_running) !! 7%N = Some sample_run) by (vm_compute; reflexivity).
  split; [exact E|].
  exact (proj1 (proj1 (reachable_runs_wf sample_cfg sample_running (λ w, proj1 (sample_cfg_ok w))
    (λ w, proj2 (sample_cfg_ok w)) sample_running_reachable) 7%N sample_run E)).
Defined.



(** C2.  The lease fences a running attempt: while its lease has not passed, a run stays running
    with the same worker and attempt number, whatever others do, unless its own worker moves it or
    its origin is removed. *)
Theorem lease_fences_run cfg a s s' id r w l :
  (∀ w, hs_worker_id (cfg w) = w) → (∀ w, 0 ≤ hs_lease (cfg w)) →
  reachable cfg s → step cfg a s s' → db_runs (sy_db s) !! id = Some r →
  run_state r = Running → run_worker_id r = Some w → run_lease_until r = Some l → sy_now s' ≤ l →
  a = ByWorker w ∨ a = ByOrigin
  ∨ ∃ r', db_runs (sy_db s') !! id = Some r' ∧ run_state r' = Running
      ∧ run_worker_id r' = Some w ∧ run_attempt r' = run_attempt r.
Proof.
  intros H1 H2 Hs Hstep Hr Hrun Hw Hl Hle. pose proof (reachable_inv cfg H1 H2 s Hs) as Hinv.
  assert (Hmove : ∀ t0, t0 ≤ sy_now s' → may_move a t0 r → a = ByWorker w ∨ a = ByOrigin).
  { intros t0 Ht0 [(w' & -> & Hw')|[[_ Hb]| ->]]; [left; congruence| |by right].
    rewrite Hl in Hb. cbn in Hb. to_prop. lia. }
  destruct (step_row cfg H1 H2 a s s' id r Hinv Hstep Hr) as (r' & Hr' & [->|Hc]); [eauto 10|].
  destruct Hc as [w' r r' -> Hq _ _ _ _ _ _|w' l' r -> _ Hw' _|t0 r r' _ Hm Ht0 _ _ _ _ _ _
                 |w' r r' -> _ Hw' _ _ _ _ _ _|t0 r r' _ Hm Ht0 _ _ _ _|r _|i r Ho _].
  - congruence.
  - left. congruence.
  - destruct (Hmove t0 Ht0 Hm); auto.
  - left. congruence.
  - destruct (Hmove t0 Ht0 (Hm Hrun)); auto.
  - right; right. eauto.
  - auto.
Qed.

Lemma lease_fences_run_witness :
  ∃ r', db_runs (sy_db (with_db sample_running 3 (fst (request_cancel 7 true 3 (sy_db sample_running)))))
          !! 7%N = Some r' ∧ run_state r' = Running ∧ run_worker_id r' = Some sample_worker
        ∧ run_attempt r' = 1.
Proof.
  destruct (lease_fences_run sample_cfg ByUser sample_running
    (with_db sample_running 3 (fst (request_cancel 7 true 3 (sy_db sample_running)))) 7%N sample_run
    sample_worker (2 + LEASE) (λ w, proj1 (sample_cfg_ok w)) (λ w, proj2 (sample_cfg_ok w))
    sample_running_reachable (st_cancel sample_cfg 7 true 3 sample_running eq_refl))
    as [H|[H|H]]; [vm_compute; reflexivity|reflexivity|reflexivity|reflexivity
      |vm_compute; discriminate|discriminate H|discriminate H|exact H].
Defined.

(** C37.  The worker's handling of the end of an attempt is made of the transactions of the state
    machine: whatever the pipeline ended with, the database it leaves is one the steps reach. *)
Theorem attempt_end_refines cfg s w c e t :
  sy_now s < t → sy_claims s !! w = Some c → cl_worker_id c = w →
  0 ≤ rd_short (hs_delays (cfg w)) → 0 ≤ rd_medium (hs_delays (cfg w)) →
  0 ≤ rd_long (hs_delays (cfg w)) →
  ∃ s', steps cfg s s' ∧ sy_db s' = fst (run_attempt_end (cfg w) c e t (sy_db s)).
Proof. intros. by apply run_attempt_end_reaches. Qed.

Lemma attempt_end_refines_witness :
  ∃ s', steps sample_cfg sample_running s'
  ∧ sy_db s' = fst (run_attempt_end (sample_cfg sample_worker) sample_claim EndDeadline 3
                      (sy_db sample_running)).
Proof.
  apply (attempt_end_refines sample_cfg sample_running sample_worker sample_claim EndDeadline 3);
    first [reflexivity|vm_compute; discriminate].
Defined.

(** C38.  The reconciler recovers an expired attempt: acting on a running run whose lease passed
    its reading time, it leaves the run cancelled if its origin is gone, else queued and available
    at once while an attempt is left, else failed as [lease_expired]; the message is sent again
    exactly when the run was requeued or failed and still has a pointer. *)
Theorem reconcile_recovers t0 t id d r c :
  joined d id = Some (r, c) → run_state r = Running → before (run_lease_until r) t0 = true →
  t0 ≤ t →
  let '(d', sent) := reconcile_running t0 t id (run_attempt r) d in
  ∃ r', db_runs d' !! id = Some r' ∧ run_lease_until r' = None ∧ run_attempt r' = run_attempt r
  ∧ (if negb (origin_active d id r c) then
       run_state r' = Cancelled ∧ run_error_code r' = Some (u8 "installation_unavailable")
     else if run_attempt r <? MAX_ATTEMPTS then run_state r' = Queued ∧ run_available_at r' = t0
     else run_state r' = Failed ∧ run_error_code r' = Some (u8 "lease_expired"))
  ∧ (sent = true → has_pointer d' id = true)
  ∧ (origin_active d id r c = true → sent = has_pointer d' id).
Proof.
  intros Hj Hrun Hb Ht. unfold reconcile_running.
  assert (Hown : ∀ t1, t0 ≤ t1 → owned Running None t1 r = true).
  { intros t1 H1. unfold owned. rewrite Hrun, !bool_decide_true by done. cbn.
    unfold before in *. destruct (run_lease_until r); [|done]. to_prop. lia. }
  assert (Hf : ∀ code m t1, t0 ≤ t1 →
     finish id Running None Failed code m t1 None d
     = let '(x, c', m') := finish_target d id r c false Failed code m in
       (notify id x (put_run id (finish_run x c' m' t1 r) d), true)).
  { intros code m t1 H1. unfold finish. rewrite Hj. cbn [orb]. rewrite bool_decide_false by (by intros []).
    destruct (finish_target _ _ _ _ _ _ _ _) as [[? ?] ?]. by rewrite (Hown t1 H1). }
  assert (Hcan : finish id Running None Cancelled (Some (u8 "installation_unavailable")) None t None d
     = let '(x, c', m') := finish_target d id r c false Cancelled (Some (u8 "installation_unavailable")) None in
       (notify id x (put_run id (finish_run x c' m' t r) d), true)).
  { unfold finish. rewrite Hj. rewrite bool_decide_false by (by intros []).
    destruct (finish_target _ _ _ _ _ _ _ _) as [[? ?] ?]. by rewrite (Hown t Ht). }
  destruct (run_attempt r <? MAX_ATTEMPTS) eqn:Ha.
  - unfold requeue. rewrite Hj. destruct (origin_active d id r c) eqn:Ho; cbn [negb].
    + rewrite (Hown t0) by lia. eexists. split; [apply lookup_insert_eq|]. by cbn.
    + rewrite Hcan. unfold finish_target. rewrite Ho. cbn [negb fst].
      eexists. split; [apply lookup_insert_eq|]. by cbn.
  - rewrite Hf by lia. unfold finish_target. destruct (origin_active d id r c) eqn:Ho; cbn [negb].
    + eexists. split; [apply lookup_insert_eq|]. by cbn.
    + eexists. split; [apply lookup_insert_eq|]. cbn. split_and!; try done.
Qed.

Lemma reconcile_recovers_witness :
  ∃ r', db_runs (fst (reconcile_running (3 + LEASE) (4 + LEASE) 7 1 (sy_db sample_running))) !! 7%N
        = Some r' ∧ run_state r' = Queued.
Proof.
  pose proof (reconcile_recovers (3 + LEASE) (4 + LEASE) 7 (sy_db sample_running) sample_run
    sample_change ltac:(vm_compute; reflexivity) eq_refl ltac:(vm_compute; reflexivity)
    ltac:(vm_compute; discriminate)) as H.
  change (run_attempt sample_run) with 1 in H.
  destruct (reconcile_running _ _ _ _ _) as [d' b]. destruct H as (r' & H1 & _ & _ & H2 & _).
  exists r'. split; [exact H1|]. exact (proj1 H2).
Defined.
