(* ===== verification/GithubProjection.v ===== *)
(** * Projecting GitHub pull requests ([project_github_pull_request.py])

    Webhook deliveries arrive late, twice and out of order.  [ProjectGitHubPullRequest] turns each
    into one transaction on the pull request row, reading the current pull request from GitHub
    where the event alone is not to be trusted, and cancels the runs its state makes obsolete.
    The tables are those of [infrastructure/github_pull_request_projection.py]; runs are the rows
    of [RunStore].  A transaction that returns before its commit leaves the database as it was. *)

From Stdlib Require Import String QArith.
From stdpp Require Import numbers gmap.
From S2P Require Import Prelude PyText PyHash DiffMap Verdict RunFailures RunStore.
#[local] Open Scope Z_scope.

(** ** Events and rows *)

Inductive PullRequestState : Type := Pr_open | Pr_closed | Pr_merged.
#[export] Instance PullRequestState_eq_dec : EqDecision PullRequestState.
Proof. solve_decision. Defined.

Inductive PullRequestProjectionStatus : Type :=
| Projected | Unknown_repository | Disabled_repository | Other_installation_repository
| Ignored_stale | Ignored_unrelated | Ignored_own_bot | Ignored_identity_mismatch
| Ignored_identity_conflict | Ignored_external_id_mismatch | Ignored_other_label.
#[export] Instance PullRequestProjectionStatus_eq_dec : EqDecision PullRequestProjectionStatus.
Proof. solve_decision. Defined.

Record PullRequestEvent : Type := mkPullRequestEvent {
  ev_action : pystr;
  ev_installation_external_id : Z;
  ev_repository_external_id : Z;
  ev_external_id : Z;
  ev_number : Z;
  ev_title : pystr;
  ev_description : option pystr;
  ev_author_login : pystr;
  ev_web_url : pystr;
  ev_source_branch : pystr;
  ev_target_branch : pystr;
  ev_base_sha : pystr;
  ev_head_sha : pystr;
  ev_state : PullRequestState;
  ev_provider_updated_at : Z;
  ev_repository_full_name : option pystr;
  ev_sender_type : option pystr;
  ev_sender_login : option pystr;
  ev_current_label_names : option (list pystr);
  ev_merge_commit_sha : option pystr;
  ev_repository_default_branch : option pystr
}.

(** [PullRequestEvent | PullRequestLabelEvent] *)
Inductive ProjectionEvent : Type :=
| PlainEvent (e : PullRequestEvent)
| LabelEvent (e : PullRequestEvent) (label_name : pystr).

(** The fields [_apply_metadata] copies. *)
Record PrMetadata : Type := mkPrMetadata {
  md_title : pystr;
  md_description : option pystr;
  md_author_login : option pystr;
  md_web_url : pystr;
  md_source_branch : pystr;
  md_target_branch : pystr;
  md_base_sha : pystr
}.

(** The reviewer columns, which no projection writes. *)
Record ReviewerIntent : Type := mkReviewerIntent {
  ri_requested : bool;
  ri_requested_at : option Z;
  ri_intent_updated_at : option Z;
  ri_timeline_event_id : option Z;
  ri_timeline_position : option Z;
  ri_barrier_at : option Z;
  ri_barrier_position : option Z
}.

(** [PullRequestRecord], its fields in groups. *)
Record PullRequestRecord : Type := mkPullRequestRecord {
  pr_id : UUID;
  pr_repository_id : UUID;
  pr_external_id : Z;
  pr_external_number : Z;
  pr_metadata : PrMetadata;
  pr_head_sha : pystr;
  pr_state : PullRequestState;
  pr_ai_review_labeled : bool;
  pr_ai_review_labeled_at : option Z;
  pr_label_intent_updated_at : option Z;
  pr_reviewer : ReviewerIntent;
  pr_head_first_seen_at : option Z;
  pr_provider_updated_at : option Z;
  pr_ci_status : list (pystr * json)
}.

Definition event_metadata (e : PullRequestEvent) : PrMetadata :=
  mkPrMetadata (ev_title e) (ev_description e) (Some (ev_author_login e)) (ev_web_url e)
    (ev_source_branch e) (ev_target_branch e) (ev_base_sha e).

Definition from_event (id repository_id : UUID) (e : PullRequestEvent) (now : Z)
  : PullRequestRecord :=
  mkPullRequestRecord id repository_id (ev_external_id e) (ev_number e) (event_metadata e)
    (ev_head_sha e) (ev_state e) false None None
    (mkReviewerIntent false None None None None None None) (Some now)
    (Some (ev_provider_updated_at e)) [].

(** ** What an event does to its row *)

Definition apply_new_head (r : PullRequestRecord) (e : PullRequestEvent) (now : Z)
  : PullRequestRecord :=
  mkPullRequestRecord (pr_id r) (pr_repository_id r) (pr_external_id r) (pr_external_number r)
    (pr_metadata r) (ev_head_sha e) (pr_state r) (pr_ai_review_labeled r)
    (pr_ai_review_labeled_at r) (pr_label_intent_updated_at r) (pr_reviewer r) (Some now)
    (pr_provider_updated_at r) [].

Definition is_edited (e : PullRequestEvent) : bool := ev_action e =?s u8 "edited".

Definition apply_metadata (r : PullRequestRecord) (e : PullRequestEvent) (authoritative : bool)
    (now : Z) : PullRequestRecord :=
  mkPullRequestRecord (pr_id r) (pr_repository_id r) (pr_external_id r) (pr_external_number r)
    (event_metadata e) (pr_head_sha r)
    (if is_edited e then pr_state r else if authoritative then ev_state e else Pr_open)
    (pr_ai_review_labeled r) (pr_ai_review_labeled_at r) (pr_label_intent_updated_at r)
    (pr_reviewer r)
    (match pr_head_first_seen_at r with
     | None => if is_edited e then None else Some now
     | Some t => Some t
     end)
    (pr_provider_updated_at r) (pr_ci_status r).

Definition set_pr_state (r : PullRequestRecord) (s : PullRequestState) : PullRequestRecord :=
  mkPullRequestRecord (pr_id r) (pr_repository_id r) (pr_external_id r) (pr_external_number r)
    (pr_metadata r) (pr_head_sha r) s (pr_ai_review_labeled r) (pr_ai_review_labeled_at r)
    (pr_label_intent_updated_at r) (pr_reviewer r) (pr_head_first_seen_at r)
    (pr_provider_updated_at r) (pr_ci_status r).

Definition apply_lifecycle (r : PullRequestRecord) (e : PullRequestEvent) (authoritative : bool)
  : PullRequestRecord :=
  set_pr_state r (if (ev_action e =?s u8 "closed") || authoritative then ev_state e else Pr_open).

Definition set_updated_at (r : PullRequestRecord) (t : Z) : PullRequestRecord :=
  mkPullRequestRecord (pr_id r) (pr_repository_id r) (pr_external_id r) (pr_external_number r)
    (pr_metadata r) (pr_head_sha r) (pr_state r) (pr_ai_review_labeled r)
    (pr_ai_review_labeled_at r) (pr_label_intent_updated_at r) (pr_reviewer r)
    (pr_head_first_seen_at r) (Some t) (pr_ci_status r).

(** [labeled == record.ai_review_labeled and (not labeled or record.ai_review_labeled_at)]: a
    [datetime] is truthy. *)
Definition reconcile_label_state (r : PullRequestRecord) (names : list pystr) (now : Z)
  : PullRequestRecord :=
  let labeled := str_mem (u8 "ai-review") names in
  if Bool.eqb labeled (pr_ai_review_labeled r)
     && (negb labeled || negb (bool_decide (pr_ai_review_labeled_at r = None)))
  then r
  else mkPullRequestRecord (pr_id r) (pr_repository_id r) (pr_external_id r) (pr_external_number r)
         (pr_metadata r) (pr_head_sha r) (pr_state r) labeled (if labeled then Some now else None)
         (Some now) (pr_reviewer r) (pr_head_first_seen_at r) (pr_provider_updated_at r) [].

(** [record.provider_updated_at is not None and t < it], and with [<=]. *)
Definition older (t : Z) (r : PullRequestRecord) : bool :=
  match pr_provider_updated_at r with Some u => t <? u | None => false end.
Definition not_newer (t : Z) (r : PullRequestRecord) : bool :=
  match pr_provider_updated_at r with Some u => t <=? u | None => false end.
Definition same_time (t : Z) (r : PullRequestRecord) : bool :=
  bool_decide (pr_provider_updated_at r = Some t).

Definition is_stale_opened (r : PullRequestRecord) (e : PullRequestEvent) : bool :=
  (ev_action e =?s u8 "opened") && negb (bool_decide (pr_state r = Pr_open))
  && not_newer (ev_provider_updated_at e) r.

Definition head_change_is_stale (r : PullRequestRecord) (e : PullRequestEvent)
    (authoritative : bool) : bool :=
  (negb (str_mem (ev_action e) [u8 "opened"; u8 "synchronize"]) && negb authoritative)
  || (not_newer (ev_provider_updated_at e) r
      && negb (authoritative && same_time (ev_provider_updated_at e) r)).

(** The body of [_project] between the locked read and the save: the row to save, or why the
    event is ignored. *)
Definition project_record (created : bool) (r : PullRequestRecord) (e : PullRequestEvent)
    (authoritative : bool) (now : Z) : result PullRequestProjectionStatus PullRequestRecord :=
  raise_when (negb (pr_external_id r =? ev_external_id e)) Ignored_external_id_mismatch;;
  raise_when (is_stale_opened r e) Ignored_stale;;
  raise_when (older (ev_provider_updated_at e) r
              || (is_edited e && negb authoritative && negb created
                  && same_time (ev_provider_updated_at e) r)) Ignored_stale;;
  r1 ← (if negb (is_edited e) && negb (ev_head_sha e =?s pr_head_sha r) then
          raise_when (head_change_is_stale r e authoritative) Ignored_stale;;
          Ok (apply_new_head r e now)
        else Ok r);
  r2 ← (if str_mem (ev_action e) [u8 "opened"; u8 "synchronize"; u8 "edited"]
        then Ok (apply_metadata r1 e authoritative now)
        else if str_mem (ev_action e) [u8 "closed"; u8 "reopened"]
        then Ok (apply_lifecycle r1 e authoritative)
        else Err Ignored_unrelated);
  let r3 := match ev_current_label_names e with
            | Some names =>
                if authoritative
                   && str_mem (ev_action e) [u8 "synchronize"; u8 "closed"; u8 "reopened"]
                then reconcile_label_state r2 names now else r2
            | None => r2
            end in
  Ok (set_updated_at r3 (ev_provider_updated_at e)).

(** The same part of [_project_label_under_lock]: the labels are always those just read. *)
Definition project_label_record (r : PullRequestRecord) (current : PullRequestEvent)
    (names : list pystr) (now : Z) : result PullRequestProjectionStatus PullRequestRecord :=
  raise_when (negb (pr_external_id r =? ev_external_id current)) Ignored_external_id_mismatch;;
  let r1 :=
    if negb (older (ev_provider_updated_at current) r) then
      let r' := if negb (ev_head_sha current =?s pr_head_sha r)
                then apply_new_head r current now else r in
      set_updated_at (apply_metadata r' current true now) (ev_provider_updated_at current)
    else r in
  Ok (reconcile_label_state r1 names now).

(** ** The tables *)

(** A GitHub installation, by its external id. *)
Record InstallationRow : Type := mkInstallationRow { ins_external_id : Z; ins_deleted : bool }.

(** A repository of a GitHub installation. *)
Record RepositoryRow : Type := mkRepositoryRow {
  rp_id : UUID;
  rp_installation_external_id : Z;
  rp_external_id : Z;
  rp_enabled : bool;
  rp_installation_available : bool
}.

Record ProjDb : Type := mkProjDb {
  pj_installations : list InstallationRow;
  pj_repositories : list RepositoryRow;
  pj_records : gmap UUID PullRequestRecord;
  pj_runs : Db
}.

Definition repository_of (e : PullRequestEvent) (rp : RepositoryRow) : bool :=
  rp_external_id rp =? ev_repository_external_id e.

(** [_raise_if_repository_refused] *)
Definition repository_refused (d : ProjDb) (e : PullRequestEvent)
  : option PullRequestProjectionStatus :=
  let installations := rp_installation_external_id <$> List.filter (repository_of e) (pj_repositories d) in
  if bool_decide (ev_installation_external_id e ∈ installations) then Some Disabled_repository
  else match installations with [] => None | _ => Some Other_installation_repository end.

(** [Ok false] when the installation is unknown; a refusal is raised. *)
Definition lock_active_installation (d : ProjDb) (e : PullRequestEvent)
  : result PullRequestProjectionStatus bool :=
  match find_first (λ i, ins_external_id i =? ev_installation_external_id e) (pj_installations d) with
  | None => match repository_refused d e with Some s => Err s | None => Ok false end
  | Some i =>
      if ins_deleted i
      then Err (default Disabled_repository (repository_refused d e))
      else Ok true
  end.

Definition active_repository (d : ProjDb) (e : PullRequestEvent) : option UUID :=
  rp_id <$> find_first (λ rp, (rp_installation_external_id rp =? ev_installation_external_id e)
                              && repository_of e rp && rp_enabled rp
                              && rp_installation_available rp) (pj_repositories d).

(** The two unique keys of [code_changes]. *)
Definition conflicts (repository_id : UUID) (e : PullRequestEvent) (r : PullRequestRecord) : bool :=
  (pr_repository_id r =? repository_id)%N
  && ((pr_external_id r =? ev_external_id e) || (pr_external_number r =? ev_number e)).

Definition record_by_number (d : ProjDb) (repository_id : UUID) (number : Z)
  : option PullRequestRecord :=
  snd <$> find_first (λ kv, (pr_repository_id (snd kv) =? repository_id)%N
                            && (pr_external_number (snd kv) =? number))
            (map_to_list (pj_records d)).

Definition put_record (r : PullRequestRecord) (d : ProjDb) : ProjDb :=
  mkProjDb (pj_installations d) (pj_repositories d) (<[pr_id r := r]> (pj_records d)) (pj_runs d).

(** [get_or_create_locked] with the fresh [uuid4]: the database after the insert, the locked row
    and whether it was created. *)
Definition get_or_create_locked (d : ProjDb) (e : PullRequestEvent) (fresh : UUID) (now : Z)
  : result PullRequestProjectionStatus (ProjDb * PullRequestRecord * bool) :=
  active ← lock_active_installation d e;
  if negb active then Err Unknown_repository
  else match active_repository d e with
  | None => match repository_refused d e with
            | Some s => Err s
            | None => Err Unknown_repository
            end
  | Some repository_id =>
      let created := negb (bool_decide (is_Some (pj_records d !! fresh)))
                     && negb (py_any (λ kv, conflicts repository_id e (snd kv))
                                (map_to_list (pj_records d))) in
      let d1 := if created then put_record (from_event fresh repository_id e now) d else d in
      match record_by_number d1 repository_id (ev_number e) with
      | None => Err Ignored_identity_conflict
      | Some r => Ok (d1, r, created)
      end
  end.

(** [save]: the row itself, and the columns of it that a run is joined with. *)
Definition set_change (r : PullRequestRecord) (c : CodeChange) : CodeChange :=
  mkCodeChange (bool_decide (pr_state r = Pr_open)) (pr_head_sha r) (cc_repository_id c)
    (cc_repository_enabled c) (cc_installation_id c) (cc_installation_deleted c)
    (cc_installation_available c) (cc_provider c) (cc_workspace_id c) (cc_daily_budget_usd c)
    (cc_spent_today_usd c).

Definition set_changes (cs : gmap UUID CodeChange) (d : Db) : Db :=
  mkDb (db_runs d) cs (db_findings d) (db_comments d) (db_bitbucket_active d)
    (db_gitlab_targets d) (db_events d).

Definition save (r : PullRequestRecord) (d : ProjDb) : ProjDb :=
  mkProjDb (pj_installations d) (pj_repositories d) (<[pr_id r := r]> (pj_records d))
    (set_changes (alter (set_change r) (pr_id r) (db_changes (pj_runs d))) (pj_runs d)).

(** ** Obsolete runs *)

Definition pr_run (code_change : UUID) (kv : UUID * Run) : bool :=
  (pin_code_change_id (run_pinned (snd kv)) =? code_change)%N && active (run_state (snd kv)).

(** [cancel_for_pr] with the notifications of its caller: the active runs of the pull request,
    those cancelled at once being the notices.  The pull request's repository and installation were
    read in this transaction, so the error of one without a workspace does not arise. *)
Definition cancel_for_pr (code_change : UUID) (reason : pystr) (now : Z) (d : Db)
  : Db * list UUID :=
  let runs := List.filter (pr_run code_change) (map_to_list (db_runs d)) in
  (fold_left (λ d kv, project_cancel_run reason now false (fst kv) d) runs d,
   fst <$> List.filter (λ kv, bool_decide (run_state (snd kv) = Queued)) runs).

Definition CANCELLING_ACTIONS : list pystr :=
  [u8 "synchronize"; u8 "closed"; u8 "reopened"; u8 "labeled"; u8 "unlabeled"].

Definition obsolete_reason (r : PullRequestRecord) (e : PullRequestEvent) (previous_head : pystr)
  : option pystr :=
  if str_mem (ev_action e) CANCELLING_ACTIONS then
    if negb (bool_decide (pr_state r = Pr_open)) then Some (u8 "pr_closed")
    else if negb (pr_head_sha r =?s previous_head) then Some (u8 "superseded")
    else None
  else None.

Definition cancel_obsolete_runs (r : PullRequestRecord) (e : PullRequestEvent)
    (previous_head : pystr) (now : Z) (d : ProjDb) : ProjDb * list UUID :=
  match obsolete_reason r e previous_head with
  | None => (d, [])
  | Some reason =>
      let '(runs, notices) := cancel_for_pr (pr_id r) reason now (pj_runs d) in
      (mkProjDb (pj_installations d) (pj_repositories d) (pj_records d) runs, notices)
  end.

(** ** The transactions *)

(** One projection transaction: the committed database, the status, and the runs whose
    cancellation is signalled after the commit. *)
Definition projection_txn (d : ProjDb) (e : PullRequestEvent) (fresh : UUID) (now : Z)
    (body : bool → PullRequestRecord → result PullRequestProjectionStatus PullRequestRecord)
  : ProjDb * PullRequestProjectionStatus * list UUID :=
  match get_or_create_locked d e fresh now with
  | Err s => (d, s, [])
  | Ok (d1, r, created) =>
      match body created r with
      | Err s => (d, s, [])
      | Ok r' =>
          let '(d2, notices) := cancel_obsolete_runs r' e (pr_head_sha r) now (save r' d1) in
          (d2, Projected, notices)
      end
  end.

Definition project (d : ProjDb) (e : PullRequestEvent) (authoritative : bool) (fresh : UUID)
    (now : Z) : ProjDb * PullRequestProjectionStatus * list UUID :=
  projection_txn d e fresh now (λ created r, project_record created r e authoritative now).

Definition project_label (d : ProjDb) (current : PullRequestEvent) (names : list pystr)
    (fresh : UUID) (now : Z) : ProjDb * PullRequestProjectionStatus * list UUID :=
  projection_txn d current fresh now (λ _ r, project_label_record r current names now).

(** ** The use case *)

Inductive ProjExc : Type :=
| Exc_refused (s : PullRequestProjectionStatus)
| Exc_runtime (message : pystr)
| Exc_value (message : pystr)
| Exc_provider (message : pystr).

(** The arguments of the constructor; [pj_provider] is the current GitHub pull request. *)
Record Projector : Type := mkProjector {
  pc_bot_login : pystr;
  pc_current_provider : option (PullRequestEvent → provider_call ProjExc PullRequestEvent);
  pc_has_lock : bool
}.

Definition projector_check (bot_login : pystr) (has_provider has_lock : bool)
  : result ProjExc unit :=
  raise_when (bot_login =?s []) (Exc_value (u8 "GitHub bot login is required"));;
  raise_when (has_provider && negb has_lock)
    (Exc_value (u8 "GitHub providers require a projection lock")).

Definition same_identity (current e : PullRequestEvent) : bool :=
  (ev_external_id current =? ev_external_id e) && (ev_number current =? ev_number e)
  && (ev_repository_external_id current =? ev_repository_external_id e)
  && (ev_installation_external_id current =? ev_installation_external_id e).

(** [_now] of the transaction, and the committed database if there was one. *)
Definition outcome : Type := option ProjDb * PullRequestProjectionStatus * list UUID.

Section Execute.
(** Other transactions run in between: [dbs n] is what the [n]-th transaction of this call sees.
    The state counts them. *)
Context (cfg : Projector) (dbs : nat → ProjDb) (fresh : UUID) (now : Z).

Definition projecting (A : Type) : Type := stateT nat ProjExc A.
Definition begin : projecting ProjDb := λ n, (S n, Ok (dbs n)).
Definition ignored (s : PullRequestProjectionStatus) : projecting outcome := mret (None, s, []).
Definition committed (r : ProjDb * PullRequestProjectionStatus * list UUID) : projecting outcome :=
  let '(d, s, notices) := r in mret (Some d, s, notices).

Definition source_refusal (e : PullRequestEvent)
  : projecting (option PullRequestProjectionStatus) :=
  d ← begin;
  mret (match lock_active_installation d e with
        | Err s => Some s
        | Ok true => None
        | Ok false => Some Unknown_repository
        end).

Definition checkpoint (e : PullRequestEvent) : projecting unit :=
  refusal ← source_refusal e;
  match refusal with Some s => raise_st (Exc_refused s) | None => mret tt end.

(** [get_current] with its [except PullRequestRepositoryRefused]. *)
Definition get_current (provider : PullRequestEvent → provider_call ProjExc PullRequestEvent)
    (e : PullRequestEvent) : projecting (PullRequestProjectionStatus + PullRequestEvent) :=
  λ n, match run_call (checkpoint e) (provider e) n with
       | (n', Ok current) => (n', Ok (inr current))
       | (n', Err (Exc_refused s)) => (n', Ok (inl s))
       | (n', Err x) => (n', Err x)
       end.

Definition AUTHORITATIVE_ACTIONS : list pystr :=
  [u8 "synchronize"; u8 "closed"; u8 "reopened"; u8 "edited"].

Definition execute_under_lock (e : PullRequestEvent) : projecting outcome :=
  refusal ← source_refusal e;
  match refusal with
  | Some s => ignored s
  | None =>
      match pc_current_provider cfg with
      | Some provider =>
          if str_mem (ev_action e) AUTHORITATIVE_ACTIONS then
            refusal ← source_refusal e;
            match refusal with
            | Some s => ignored s
            | None =>
                answer ← get_current provider e;
                match answer with
                | inl s => ignored s
                | inr current =>
                    if negb (same_identity current e) then ignored Ignored_identity_mismatch
                    else d ← begin; committed (project d current true fresh now)
                end
            end
          else d ← begin; committed (project d e false fresh now)
      | None => d ← begin; committed (project d e false fresh now)
      end
  end.

Definition project_label_under_lock
    (provider : PullRequestEvent → provider_call ProjExc PullRequestEvent) (e : PullRequestEvent)
  : projecting outcome :=
  refusal ← source_refusal e;
  match refusal with
  | Some s => ignored s
  | None =>
      answer ← get_current provider e;
      match answer with
      | inl s => ignored s
      | inr current =>
          if negb (same_identity current e) then ignored Ignored_identity_mismatch
          else match ev_current_label_names current with
               | None => raise_st (Exc_value (u8 "current GitHub PR response has no labels"))
               | Some names => d ← begin; committed (project_label d current names fresh now)
               end
      end
  end.

Definition own_bot (e : PullRequestEvent) : bool :=
  ostr_eqb (ev_sender_type e) (Some (u8 "Bot"))
  && match ev_sender_login e with
     | Some login => casefold login =?s casefold (pc_bot_login cfg)
     | None => false
     end.

Definition project_execute (ev : ProjectionEvent) : projecting outcome :=
  match ev with
  | LabelEvent e label_name =>
      if negb (label_name =?s u8 "ai-review") then ignored Ignored_other_label
      else if own_bot e then ignored Ignored_own_bot
      else match pc_current_provider cfg with
           | Some provider =>
               if pc_has_lock cfg then project_label_under_lock provider e
               else raise_st (Exc_runtime
                 (u8 "label projection requires current GitHub PR and projection lock"))
           | None => raise_st (Exc_runtime
               (u8 "label projection requires current GitHub PR and projection lock"))
           end
  | PlainEvent e =>
      if str_mem (ev_action e) [u8 "review_requested"; u8 "review_request_removed"]
      then ignored Ignored_unrelated
      else execute_under_lock e
  end.
End Execute.
