(* ===== verification/GithubProjectionFacts.v ===== *)
(** * What the GitHub projection guarantees

    Every transaction keeps the rows well formed and never moves the provider time back; a second
    delivery of the same event changes nothing; runs of a closed or superseded pull request are
    cancelled or asked to stop; and of the snapshots read from GitHub the latest one decides,
    whatever the order they are applied in. *)

From Stdlib Require Import String QArith.
From stdpp Require Import numbers gmap.
From S2P Require Import Prelude PyText PyHash DiffMap Verdict RunFailures RunStore.
From S2P Require Import GithubProjection.
#[local] Open Scope Z_scope.

(** ** One row *)

(** A row says it is labelled exactly when it has the time of the label. *)
Definition label_wf (r : PullRequestRecord) : Prop :=
  pr_ai_review_labeled r = true ↔ pr_ai_review_labeled_at r ≠ None.

(** What an event may do to a row at time [now]. *)
Record row_step (now : Z) (r r' : PullRequestRecord) : Prop := {
  rs_id : pr_id r' = pr_id r;
  rs_repository : pr_repository_id r' = pr_repository_id r;
  rs_external : pr_external_id r' = pr_external_id r ∧ pr_external_number r' = pr_external_number r;
  rs_reviewer : pr_reviewer r' = pr_reviewer r;
  rs_time : ∀ t, pr_provider_updated_at r = Some t →
    ∃ t', pr_provider_updated_at r' = Some t' ∧ t ≤ t';
  rs_head : pr_head_sha r' ≠ pr_head_sha r →
    pr_ci_status r' = [] ∧ pr_head_first_seen_at r' = Some now;
  rs_same_head : pr_head_sha r' = pr_head_sha r → pr_head_first_seen_at r ≠ None →
    pr_head_first_seen_at r' = pr_head_first_seen_at r;
  rs_label : label_wf r → label_wf r';
  rs_relabel : pr_ai_review_labeled r = false → pr_ai_review_labeled r' = true →
    pr_ci_status r' = [] ∧ pr_ai_review_labeled_at r' = Some now
}.

Lemma reconcile_facts r names now :
  let r' := reconcile_label_state r names now in
  pr_id r' = pr_id r ∧ pr_repository_id r' = pr_repository_id r
  ∧ pr_external_id r' = pr_external_id r ∧ pr_external_number r' = pr_external_number r
  ∧ pr_metadata r' = pr_metadata r ∧ pr_head_sha r' = pr_head_sha r ∧ pr_state r' = pr_state r
  ∧ pr_reviewer r' = pr_reviewer r ∧ pr_head_first_seen_at r' = pr_head_first_seen_at r
  ∧ pr_provider_updated_at r' = pr_provider_updated_at r
  ∧ pr_ai_review_labeled r' = str_mem (u8 "ai-review") names
  ∧ (r' = r ∨ pr_ci_status r' = []) ∧ (label_wf r → label_wf r')
  ∧ (pr_ai_review_labeled r = false → pr_ai_review_labeled r' = true →
     pr_ci_status r' = [] ∧ pr_ai_review_labeled_at r' = Some now).
Proof.
  cbv zeta. unfold reconcile_label_state, label_wf.
  destruct (str_mem _ names) eqn:E, (pr_ai_review_labeled r) eqn:El, (pr_ai_review_labeled_at r) eqn:Ea;
    cbn; split_and!; intuition congruence.
Qed.

(** A row is settled by [e] when applying [e] to it again cannot change it. *)
Definition reconciled (names : list pystr) (r : PullRequestRecord) : Prop :=
  ∀ now, reconcile_label_state r names now = r.

Lemma reconcile_reconciled r names now : reconciled names (reconcile_label_state r names now).
Proof.
  intros now'. unfold reconcile_label_state.
  destruct (Bool.eqb (str_mem _ names) (pr_ai_review_labeled r) && _) eqn:E.
  - by rewrite E.
  - cbn. rewrite eqb_reflx. by destruct (str_mem _ names).
Qed.

(** A row after the head and the metadata of an event: the label is untouched, a new head restarts
    the CI clock. *)
Record content_step (now : Z) (r r' : PullRequestRecord) : Prop := {
  cs_key : pr_id r' = pr_id r ∧ pr_repository_id r' = pr_repository_id r
    ∧ pr_external_id r' = pr_external_id r ∧ pr_external_number r' = pr_external_number r
    ∧ pr_reviewer r' = pr_reviewer r;
  cs_label : pr_ai_review_labeled r' = pr_ai_review_labeled r
    ∧ pr_ai_review_labeled_at r' = pr_ai_review_labeled_at r;
  cs_head : (pr_head_sha r' = pr_head_sha r
             ∧ (pr_head_first_seen_at r ≠ None → pr_head_first_seen_at r' = pr_head_first_seen_at r))
            ∨ (pr_ci_status r' = [] ∧ pr_head_first_seen_at r' = Some now
               ∧ pr_head_sha r' ≠ pr_head_sha r)
}.

Lemma content_step_refl now r : content_step now r r.
Proof. by constructor; auto. Qed.

Lemma content_new_head now r e :
  ev_head_sha e ≠ pr_head_sha r → content_step now r (apply_new_head r e now).
Proof. constructor; cbn; auto 10. Qed.

Lemma content_metadata now r0 r e authoritative :
  content_step now r0 r → content_step now r0 (apply_metadata r e authoritative now).
Proof.
  intros [(? & ? & ? & ? & ?) [? ?] Hh]. constructor; cbn; [by split_and!..|].
  destruct Hh as [[? Hk]|(? & Hk & ?)]; [left|right]; split_and!; try done.
  - intros Hf. rewrite (Hk Hf). by destruct (pr_head_first_seen_at r0).
  - by rewrite Hk.
Qed.

Lemma content_lifecycle now r0 r e authoritative :
  content_step now r0 r → content_step now r0 (apply_lifecycle r e authoritative).
Proof. by intros [(? & ? & ? & ? & ?) [? ?] Hh]. Qed.

Lemma content_updated now r0 r t : content_step now r0 r → content_step now r0 (set_updated_at r t).
Proof. by intros [(? & ? & ? & ? & ?) [? ?] Hh]. Qed.

(** The time an event leaves on a row is not before the one it found. *)
Definition time_step (r r' : PullRequestRecord) : Prop :=
  ∀ t, pr_provider_updated_at r = Some t → ∃ t', pr_provider_updated_at r' = Some t' ∧ t ≤ t'.

Lemma content_row_step now r r' :
  content_step now r r' → time_step r r' → row_step now r r'.
Proof.
  intros [(? & ? & ? & ? & ?) [L1 L2] Hh] T. constructor; try done.
  - intros Hne. by destruct Hh as [[? _]|(? & ? & _)].
  - intros He Hs. destruct Hh as [[_ Hk]|(_ & _ & ?)]; [by apply Hk|done].
  - unfold label_wf. by rewrite L1, L2.
  - congruence.
Qed.

Lemma content_reconcile_step now r r' names :
  content_step now r r' → time_step r r' → row_step now r (reconcile_label_state r' names now).
Proof.
  intros Hc T. destruct (content_row_step now r r' Hc T) as [E1 E2 [E3 E4] E5 _ E6 E7 E8 _].
  destruct (reconcile_facts r' names now)
    as (G1 & G2 & F1 & F2 & _ & F3 & _ & F4 & F5 & F6 & _ & F7 & F8 & F9).
  set (r'' := reconcile_label_state r' names now) in *. destruct (cs_label _ _ _ Hc) as [L1 L2].
  constructor; try done; try congruence.
  - split; congruence.
  - unfold time_step in T. by rewrite F6.
  - rewrite F3, F5. intros Hn. destruct (E6 Hn) as [C Hf]. split; [|done].
    destruct F7 as [-> | ->]; done.
  - rewrite F3, F5. done.
  - auto.
  - rewrite <- L1. done.
Qed.

Lemma not_older_time t r : older t r = false → ∀ u, pr_provider_updated_at r = Some u → u ≤ t.
Proof. unfold older. intros H u E. rewrite E in H. by apply Z.ltb_ge in H. Qed.

Lemma set_updated_time_step r r' t :
  older t r = false → time_step r (set_updated_at r' t).
Proof. intros H u E. exists t. split; [done|]. by eapply not_older_time. Qed.

Lemma reconcile_updated r names now t :
  set_updated_at (reconcile_label_state r names now) t
  = reconcile_label_state (set_updated_at r t) names now.
Proof. unfold reconcile_label_state. cbn. by destruct (_ && _). Qed.

(** The parts of a successful [project_record]. *)
Lemma project_record_parts created r e authoritative now r' :
  project_record created r e authoritative now = Ok r' →
  pr_external_id r = ev_external_id e ∧ older (ev_provider_updated_at e) r = false
  ∧ is_stale_opened r e = false
  ∧ ∃ r1, (r1 = r ∧ (is_edited e = true ∨ ev_head_sha e = pr_head_sha r)
           ∨ r1 = apply_new_head r e now ∧ is_edited e = false
             ∧ ev_head_sha e ≠ pr_head_sha r)
    ∧ ∃ r2, (r2 = apply_metadata r1 e authoritative now
             ∧ str_mem (ev_action e) [u8 "opened"; u8 "synchronize"; u8 "edited"] = true
             ∨ r2 = apply_lifecycle r1 e authoritative
               ∧ str_mem (ev_action e) [u8 "closed"; u8 "reopened"] = true)
      ∧ (r' = set_updated_at r2 (ev_provider_updated_at e)
         ∨ ∃ names, ev_current_label_names e = Some names
             ∧ r' = reconcile_label_state (set_updated_at r2 (ev_provider_updated_at e)) names now).
Proof.
  unfold project_record. intros H.
  apply bind_ok in H as ([] & Hid%raise_when_ok & H).
  apply bind_ok in H as ([] & Hso%raise_when_ok & H).
  apply bind_ok in H as ([] & Hold%raise_when_ok & H).
  apply bind_ok in H as (r1 & H1 & H). apply bind_ok in H as (r2 & H2 & [= <-]).
  apply negb_false_iff, Z.eqb_eq in Hid. apply orb_false_iff in Hold as [Hold _].
  split_and!; try done. exists r1. split.
  { destruct (is_edited e); cbn in H1; [left; by simplify_eq; auto|].
    destruct (ev_head_sha e =?s pr_head_sha r) eqn:E; cbn in H1.
    - left. apply str_eqb_eq in E. by simplify_eq; auto.
    - apply bind_ok in H1 as ([] & _ & [= <-]). right. by apply str_eqb_neq in E. }
  exists r2. split.
  { destruct (str_mem _ [_; _; _]); [left; by simplify_eq|].
    destruct (str_mem _ [_; _]); [right; by simplify_eq|done]. }
  destruct (ev_current_label_names e) as [names|]; [|by left].
  destruct (authoritative && _); [|by left]. right. exists names. by rewrite reconcile_updated.
Qed.

Lemma project_record_step created r e authoritative now r' :
  project_record created r e authoritative now = Ok r' → row_step now r r'.
Proof.
  intros (_ & Hold & _ & r1 & H1 & r2 & H2 & H3)%project_record_parts.
  assert (C1 : content_step now r r1).
  { destruct H1 as [[-> _]|(-> & _ & ?)]; [apply content_step_refl|by apply content_new_head]. }
  assert (C2 : content_step now r r2).
  { destruct H2 as [[-> _]|[-> _]]; [by apply content_metadata|by apply content_lifecycle]. }
  destruct H3 as [->|(names & _ & ->)].
  - apply content_row_step; [by apply content_updated|by apply set_updated_time_step].
  - apply content_reconcile_step; [by apply content_updated|by apply set_updated_time_step].
Qed.

Lemma project_label_record_step r current names now r' :
  project_label_record r current names now = Ok r' → row_step now r r'.
Proof.
  unfold project_label_record. intros ([] & _ & [= <-])%bind_ok.
  destruct (older _ r) eqn:E; cbn [negb].
  - apply content_reconcile_step; [apply content_step_refl|intros t Et; by exists t].
  - apply content_reconcile_step; [|by apply set_updated_time_step].
    apply content_updated, content_metadata.
    destruct (_ =?s _) eqn:Eh; cbn [negb]; [apply content_step_refl|].
    apply content_new_head. by apply str_eqb_neq in Eh.
Qed.

(** ** The tables *)

Record pj_wf (d : ProjDb) : Prop := {
  pw_row : ∀ id r, pj_records d !! id = Some r → pr_id r = id ∧ label_wf r;
  pw_unique : ∀ r1 r2, pj_records d !! pr_id r1 = Some r1 → pj_records d !! pr_id r2 = Some r2 →
    pr_repository_id r1 = pr_repository_id r2 →
    pr_external_id r1 = pr_external_id r2 ∨ pr_external_number r1 = pr_external_number r2 →
    r1 = r2
}.

Lemma record_by_number_spec d repository_id number r :
  pj_wf d →
  record_by_number d repository_id number = Some r ↔
  pj_records d !! pr_id r = Some r ∧ pr_repository_id r = repository_id
  ∧ pr_external_number r = number.
Proof.
  intros Hw. unfold record_by_number.
  destruct (find_first _ _) as [[id x]|] eqn:E; cbn.
  - apply find_first_some in E as [Hin [E1%N.eqb_eq E2%Z.eqb_eq]%andb_true_iff]. cbn in *.
    apply list_elem_of_In, elem_of_map_to_list in Hin.
    destruct (pw_row _ Hw _ _ Hin) as [<- _]. split.
    + by intros [= <-].
    + intros (H1 & H2 & H3). f_equal. eapply (pw_unique _ Hw); try done; [congruence|].
      right. congruence.
  - split; [done|]. intros (H1 & H2 & H3). rewrite find_first_none in E.
    specialize (E (pr_id r, r)). cbn in E. rewrite H2, H3, N.eqb_refl, Z.eqb_refl in E.
    assert (true = false); [|done]. apply E, list_elem_of_In. by apply elem_of_map_to_list.
Qed.

Lemma no_conflict d repository_id e :
  py_any (λ kv, conflicts repository_id e (snd kv)) (map_to_list (pj_records d)) = false →
  ∀ id r, pj_records d !! id = Some r → pr_repository_id r = repository_id →
    pr_external_id r ≠ ev_external_id e ∧ pr_external_number r ≠ ev_number e.
Proof.
  intros H id r Hr Hrep. unfold py_any in H. rewrite <- not_true_iff_false, existsb_exists in H.
  assert (Hc : conflicts repository_id e r = false).
  { apply not_true_iff_false. intros Hc. apply H. exists (id, r). split; [|done].
    apply list_elem_of_In. by apply elem_of_map_to_list. }
  unfold conflicts in Hc. rewrite Hrep, N.eqb_refl in Hc. cbn in Hc.
  by apply orb_false_iff in Hc as [?%Z.eqb_neq ?%Z.eqb_neq].
Qed.

(** A row put in the place of one with the same key, or of none, keeps the table well formed. *)
Lemma put_wf (d : ProjDb) runs r :
  pj_wf d → label_wf r →
  (∀ r0, pj_records d !! pr_id r0 = Some r0 → pr_id r0 ≠ pr_id r →
     pr_repository_id r0 = pr_repository_id r →
     pr_external_id r0 ≠ pr_external_id r ∧ pr_external_number r0 ≠ pr_external_number r) →
  pj_wf (mkProjDb (pj_installations d) (pj_repositories d) (<[pr_id r := r]> (pj_records d)) runs).
Proof.
  intros [Hrow Huniq] Hl Hk. split; cbn.
  - intros id x. rewrite lookup_insert_Some. intros [[<- <-]|[_ ?]]; [done|by apply Hrow].
  - intros r1 r2. rewrite !lookup_insert_Some.
    intros [[_ <-]|[N1 H1]] [[_ <-]|[N2 H2]] Er Ex; [done| | |by apply Huniq].
    + destruct (Hk r2 H2) as [A1 A2]; [congruence..|]. naive_solver.
    + destruct (Hk r1 H1) as [A1 A2]; [congruence..|]. naive_solver.
Qed.

Lemma get_or_create_spec d e fresh now d1 r created :
  pj_wf d → get_or_create_locked d e fresh now = Ok (d1, r, created) →
  pj_wf d1 ∧ pj_records d1 !! pr_id r = Some r ∧ pr_external_number r = ev_number e
  ∧ active_repository d e = Some (pr_repository_id r)
  ∧ (created = true ∧ r = from_event fresh (pr_repository_id r) e now
     ∧ pj_records d !! fresh = None ∧ d1 = put_record r d
     ∨ created = false ∧ d1 = d).
Proof.
  intros Hw. unfold get_or_create_locked. intros (active & _ & H)%bind_ok.
  destruct active; cbn in H; [|done].
  destruct (active_repository d e) as [rep|] eqn:Erep; [|by destruct (repository_refused d e)].
  destruct (bool_decide (is_Some _)) eqn:Ef, (py_any _ _) eqn:Ec; cbn in H;
    (case_match eqn:Er; [|done]); simplify_eq;
    try (apply record_by_number_spec in Er as (H1 & -> & <-); [|done]; split_and!; auto; fail).
  apply bool_decide_eq_false, eq_None_not_Some in Ef.
  pose proof (no_conflict _ _ _ Ec) as Hn.
  assert (Hw1 : pj_wf (put_record (from_event fresh rep e now) d)).
  { apply put_wf; [done|by split|]. intros r0 H0 _ Hrep. by apply (Hn (pr_id r0)). }
  apply record_by_number_spec in Er as (H1 & <- & H2); [|done].
  assert (r = from_event fresh (pr_repository_id r) e now) as Hr.
  { apply (pw_unique _ Hw1); try done; [|by right]. cbn. by rewrite lookup_insert_eq. }
  split_and!; try done. left. rewrite <- Hr. split_and!; try done.
Qed.

Lemma cancel_obsolete_frame r e previous now d :
  let d' := fst (cancel_obsolete_runs r e previous now d) in
  pj_installations d' = pj_installations d ∧ pj_repositories d' = pj_repositories d
  ∧ pj_records d' = pj_records d.
Proof.
  cbv zeta. unfold cancel_obsolete_runs. case_match; [|done]. by destruct (cancel_for_pr _ _ _ _).
Qed.

(** What a transaction may do to the table of pull requests. *)
Record table_step (now : Z) (fresh : UUID) (e : PullRequestEvent) (d d' : ProjDb) : Prop := {
  ts_wf : pj_wf d';
  ts_old : ∀ id r, pj_records d !! id = Some r → ∃ r', pj_records d' !! id = Some r'
    ∧ (r' = r ∨ (row_step now r r' ∧ pr_external_number r = ev_number e
                 ∧ active_repository d e = Some (pr_repository_id r)));
  ts_new : ∀ id r', pj_records d !! id = None → pj_records d' !! id = Some r' →
    id = fresh ∧ pr_external_number r' = ev_number e
    ∧ pr_external_id r' = ev_external_id e
    ∧ active_repository d e = Some (pr_repository_id r')
}.

Lemma table_step_refl now fresh e d : pj_wf d → table_step now fresh e d d.
Proof. intros Hw. split; [done| |congruence]. intros id r Hr. exists r. auto. Qed.

Lemma projection_txn_step body d e fresh now d' s notices :
  pj_wf d →
  (∀ created r r', body created r = Ok r' → row_step now r r') →
  projection_txn d e fresh now body = (d', s, notices) →
  table_step now fresh e d d' ∧ (s ≠ Projected → d' = d ∧ notices = []).
Proof.
  intros Hw Hbody. unfold projection_txn.
  destruct (get_or_create_locked d e fresh now) as [[[d1 r] created]|s0] eqn:Eg;
    [|intros [= <- <- <-]; split; [by apply table_step_refl|done]].
  destruct (body created r) as [r'|s0] eqn:Eb;
    [|intros [= <- <- <-]; split; [by apply table_step_refl|done]].
  destruct (cancel_obsolete_runs r' e (pr_head_sha r) now (save r' d1)) as [d2 ns] eqn:Ec.
  intros [= <- <- <-]. split; [|done].
  pose proof (cancel_obsolete_frame r' e (pr_head_sha r) now (save r' d1)) as (F1 & F2 & F3).
  rewrite Ec in F1, F2, F3. cbn in F1, F2, F3. clear Ec.
  destruct (get_or_create_spec _ _ _ _ _ _ _ Hw Eg) as (Hw1 & Hr & Hnum & Hrep & Hcr).
  pose proof (Hbody _ _ _ Eb) as Hs. pose proof Hs as [S1 S2 [S3 S4] _ _ _ _ S9 _].
  destruct (pw_row _ Hw1 _ _ Hr) as [_ Hlab].
  split.
  - destruct d2 as [i2 rp2 rec2 run2]; cbn in F1, F2, F3. subst.
    apply (put_wf d1 run2 r'); [done|by apply S9|]. intros r0 H0 Hne Hr0.
    rewrite S1, S2, S3, S4 in *.
    split; intros E; apply Hne; f_equal; apply (pw_unique _ Hw1); auto.
  - intros id r0 H0. rewrite F3. rewrite S1.
    destruct Hcr as [(_ & Er & Hfresh & ->)|[_ ->]].
    + assert (pr_id r ≠ id) by (rewrite Er; cbn; congruence).
      exists r0. rewrite lookup_insert_ne by done. cbn. rewrite lookup_insert_ne by done. auto.
    + destruct (decide (pr_id r = id)) as [<-|Hne].
      * exists r'. rewrite lookup_insert_eq. split; [done|]. right. by simplify_eq.
      * exists r0. rewrite lookup_insert_ne by done. auto.
  - intros id x H0. rewrite F3, S1, lookup_insert_Some. intros [[<- <-]|[Hne Hx]].
    + destruct Hcr as [(_ & Er & Hfresh & ->)|[_ ->]]; [|congruence].
      rewrite S2, S3, S4. split_and!; [by rewrite Er|done|by rewrite Er|done].
    + destruct Hcr as [(_ & Er & Hfresh & ->)|[_ ->]]; [|congruence].
      cbn in Hx. rewrite lookup_insert_ne in Hx by done. congruence.
Qed.

(** ** Applying an event again *)

Lemma apply_metadata_id r e (authoritative : bool) now :
  pr_metadata r = event_metadata e →
  pr_state r = (if is_edited e then pr_state r else if authoritative then ev_state e else Pr_open) →
  (pr_head_first_seen_at r = None → is_edited e = true) →
  apply_metadata r e authoritative now = r.
Proof.
  intros E1 E2 E3. unfold apply_metadata. rewrite <- E1, <- E2.
  destruct r as [? ? ? ? ? ? ? ? ? ? ? seen]; cbn in *. f_equal.
  destruct seen; [done|]. by rewrite E3.
Qed.

Lemma set_pr_state_id r s : pr_state r = s → set_pr_state r s = r.
Proof. by intros <-; destruct r. Qed.

Lemma set_updated_id r t : pr_provider_updated_at r = Some t → set_updated_at r t = r.
Proof. destruct r; cbn. by intros ->. Qed.

(** What [e] leaves on a row. *)
Record settled (e : PullRequestEvent) (authoritative : bool) (r : PullRequestRecord) : Prop := {
  se_head : is_edited e = true ∨ ev_head_sha e = pr_head_sha r;
  se_metadata : str_mem (ev_action e) [u8 "opened"; u8 "synchronize"; u8 "edited"] = true →
    ∀ now, apply_metadata r e authoritative now = r;
  se_lifecycle : str_mem (ev_action e) [u8 "opened"; u8 "synchronize"; u8 "edited"] = false →
    apply_lifecycle r e authoritative = r;
  se_time : pr_provider_updated_at r = Some (ev_provider_updated_at e);
  se_label : authoritative && str_mem (ev_action e) [u8 "synchronize"; u8 "closed"; u8 "reopened"] = true →
    ∀ names, ev_current_label_names e = Some names → reconciled names r
}.

(** The names are kept through the label step, so the content facts are those of [r2]. *)
Lemma settled_content e authoritative now r1 r2 r' :
  (is_edited e = true ∨ ev_head_sha e = pr_head_sha r1) →
  (r2 = apply_metadata r1 e authoritative now
     ∧ str_mem (ev_action e) [u8 "opened"; u8 "synchronize"; u8 "edited"] = true
   ∨ r2 = apply_lifecycle r1 e authoritative
     ∧ str_mem (ev_action e) [u8 "opened"; u8 "synchronize"; u8 "edited"] = false) →
  pr_metadata r' = pr_metadata r2 → pr_head_sha r' = pr_head_sha r2 → pr_state r' = pr_state r2 →
  pr_head_first_seen_at r' = pr_head_first_seen_at r2 →
  (is_edited e = true ∨ ev_head_sha e = pr_head_sha r')
  ∧ (str_mem (ev_action e) [u8 "opened"; u8 "synchronize"; u8 "edited"] = true →
     ∀ now, apply_metadata r' e authoritative now = r')
  ∧ (str_mem (ev_action e) [u8 "opened"; u8 "synchronize"; u8 "edited"] = false →
     apply_lifecycle r' e authoritative = r').
Proof.
  intros Hh H2 Em Eh Es Ef. split_and!.
  - destruct Hh as [?|Hh]; [by left|right]. rewrite Eh. by destruct H2 as [[-> _]|[-> _]].
  - intros Hm now'. destruct H2 as [[-> _]|[_ Hf]]; [|congruence].
    apply apply_metadata_id; rewrite ?Em, ?Es, ?Ef; cbn; [done| |].
    + by destruct (is_edited e).
    + by destruct (pr_head_first_seen_at r1), (is_edited e).
  - intros Hm. destruct H2 as [[_ Hf]|[-> _]]; [congruence|].
    apply set_pr_state_id. by rewrite Es.
Qed.

Lemma project_record_settled created r e authoritative now r' :
  project_record created r e authoritative now = Ok r' → settled e authoritative r'.
Proof.
  unfold project_record. intros H.
  apply bind_ok in H as ([] & _ & H). apply bind_ok in H as ([] & _ & H).
  apply bind_ok in H as ([] & _ & H).
  apply bind_ok in H as (r1 & H1 & H). apply bind_ok in H as (r2 & H2 & [= <-]).
  assert (Hh : is_edited e = true ∨ ev_head_sha e = pr_head_sha r1).
  { destruct (is_edited e); cbn in H1; [by left|]. right.
    destruct (ev_head_sha e =?s pr_head_sha r) eqn:E; cbn in H1.
    - apply str_eqb_eq in E. by simplify_eq.
    - by apply bind_ok in H1 as ([] & _ & [= <-]). }
  assert (Hc : r2 = apply_metadata r1 e authoritative now
     ∧ str_mem (ev_action e) [u8 "opened"; u8 "synchronize"; u8 "edited"] = true
   ∨ r2 = apply_lifecycle r1 e authoritative
     ∧ str_mem (ev_action e) [u8 "opened"; u8 "synchronize"; u8 "edited"] = false).
  { destruct (str_mem _ [_; _; _]); [left; by simplify_eq|].
    destruct (str_mem _ [_; _]); [right; by simplify_eq|done]. }
  clear H1 H2.
  assert (Hset : ∀ r3, pr_metadata r3 = pr_metadata r2 → pr_head_sha r3 = pr_head_sha r2 →
    pr_state r3 = pr_state r2 → pr_head_first_seen_at r3 = pr_head_first_seen_at r2 →
    (authoritative && str_mem (ev_action e) [u8 "synchronize"; u8 "closed"; u8 "reopened"] = true →
     ∀ names, ev_current_label_names e = Some names → reconciled names r3) →
    settled e authoritative (set_updated_at r3 (ev_provider_updated_at e))).
  { intros r3 F1 F2 F3 F4 F5.
    destruct (settled_content e authoritative now r1 r2
                (set_updated_at r3 (ev_provider_updated_at e))) as (A1 & A2 & A3); try done.
    constructor; try done. intros Hl names Hn now'. rewrite <- reconcile_updated.
    f_equal. by apply F5. }
  destruct (ev_current_label_names e) as [names|] eqn:En; [|by apply Hset].
  destruct (authoritative && _) eqn:El; [|by apply Hset].
  destruct (reconcile_facts r2 names now) as (_ & _ & _ & _ & F1 & F2 & F3 & _ & F4 & _).
  apply Hset; try done. intros _ names' [= <-]. apply reconcile_reconciled.
Qed.

Lemma project_record_again created r e authoritative now r' :
  settled e authoritative r → project_record created r e authoritative now = Ok r' → r' = r.
Proof.
  intros [Hh Hm Hl Ht Hlab]. unfold project_record. intros H.
  apply bind_ok in H as ([] & _ & H). apply bind_ok in H as ([] & _ & H).
  apply bind_ok in H as ([] & _ & H).
  apply bind_ok in H as (r1 & H1 & H). apply bind_ok in H as (r2 & H2 & [= <-]).
  assert (r1 = r) as ->.
  { destruct Hh as [He|He]; rewrite He in H1; [by cbn in H1; simplify_eq|].
    rewrite str_eqb_refl, andb_false_r in H1. by simplify_eq. }
  assert (r2 = r) as ->.
  { destruct (str_mem _ [_; _; _]); [rewrite Hm in H2 by done; by simplify_eq|].
    destruct (str_mem _ [_; _]); [|done]. rewrite Hl in H2 by done. by simplify_eq. }
  destruct (ev_current_label_names e) as [names|]; [|by apply set_updated_id].
  destruct (authoritative && _) eqn:El; [|by apply set_updated_id].
  rewrite Hlab by done. by apply set_updated_id.
Qed.

(** ** Obsolete runs *)

(** What the cancellation of a pull request does to one of its runs. *)
Definition cancelled_row (reason : pystr) (now : Z) (r : Run) : Run :=
  if bool_decide (run_state r = Queued) then cancel_queued reason now false r
  else if active (run_state r) && negb (run_cancel_requested r) then request_cancel_flag r
  else r.

(** A run that has been told: not waiting, and asked to stop when it is being worked on. *)
Definition told (r : Run) : Prop :=
  run_state r ≠ Queued ∧ (active (run_state r) = true → run_cancel_requested r = true).

Lemma cancelled_row_told reason now r : told (cancelled_row reason now r).
Proof.
  unfold told, cancelled_row. destruct (bool_decide_reflect (run_state r = Queued)); [done|].
  destruct (active (run_state r)) eqn:Ea, (run_cancel_requested r) eqn:Ec; cbn; split; congruence.
Qed.

Lemma project_cancel_told reason now id d r :
  db_runs d !! id = Some r → told r → project_cancel_run reason now false id d = d.
Proof.
  intros Hr [Hq Hf]. unfold project_cancel_run. rewrite Hr, bool_decide_eq_false_2 by done.
  destruct (active (run_state r)); [|done]. by rewrite Hf.
Qed.

Lemma project_cancel_lookup reason now id d r id' :
  db_runs d !! id = Some r →
  db_runs (project_cancel_run reason now false id d) !! id'
  = if decide (id = id') then Some (cancelled_row reason now r) else db_runs d !! id'.
Proof.
  intros Hr. unfold project_cancel_run, cancelled_row. rewrite Hr.
  destruct (bool_decide _); [|destruct (active _ && _)]; cbn; case_decide; subst;
    by rewrite ?lookup_insert_eq, ?lookup_insert_ne, ?Hr.
Qed.

Lemma project_cancel_changes reason now id d :
  db_changes (project_cancel_run reason now false id d) = db_changes d.
Proof. unfold project_cancel_run. by repeat case_match. Qed.

Lemma cancel_fold_lookup reason now l d :
  NoDup (fst <$> l) → (∀ kv, In kv l → db_runs d !! fst kv = Some (snd kv)) →
  let d' := fold_left (λ d kv, project_cancel_run reason now false (fst kv) d) l d in
  db_changes d' = db_changes d
  ∧ (∀ kv, In kv l → db_runs d' !! fst kv = Some (cancelled_row reason now (snd kv)))
  ∧ (∀ id, id ∉ fst <$> l → db_runs d' !! id = db_runs d !! id).
Proof.
  revert d. induction l as [|[id r] l IH]; intros d Hn Hl; [done|]. cbn [fold_left fst].
  inv Hn. pose proof (Hl (id, r) (or_introl eq_refl)) as Hr. cbn in Hr.
  pose proof (λ i, project_cancel_lookup reason now id d r i Hr) as Hp.
  pose proof (project_cancel_changes reason now id d) as Hch.
  set (d0 := project_cancel_run reason now false id d) in *.
  destruct (IH d0) as (I1 & I2 & I3).
  - done.
  - intros kv Hkv. rewrite Hp, decide_False; [by apply Hl; right|].
    intros ->. apply H1.
    apply list_elem_of_fmap. exists kv. by rewrite list_elem_of_In.
  - split_and!; [congruence| |].
    + intros kv [<-|Hkv]; [|by apply I2]. cbn. rewrite I3 by done. rewrite Hp. by rewrite decide_True.
    + intros i Hi. rewrite I3 by set_solver. rewrite Hp. rewrite decide_False; [done|set_solver].
Qed.

Lemma cancel_for_pr_spec cc reason now d :
  let d' := fst (cancel_for_pr cc reason now d) in
  db_changes d' = db_changes d
  ∧ ∀ id, db_runs d' !! id =
      match db_runs d !! id with
      | Some r => Some (if (pin_code_change_id (run_pinned r) =? cc)%N && active (run_state r)
                        then cancelled_row reason now r else r)
      | None => None
      end.
Proof.
  cbv zeta. unfold cancel_for_pr. cbn [fst].
  set (l := List.filter (pr_run cc) (map_to_list (db_runs d))).
  assert (Hl : ∀ kv, In kv l ↔ db_runs d !! fst kv = Some (snd kv) ∧ pr_run cc kv = true).
  { intros [id r]. unfold l. rewrite filter_In, <- list_elem_of_In, elem_of_map_to_list. done. }
  destruct (cancel_fold_lookup reason now l d) as (H1 & H2 & H3).
  - unfold l. clear. pose proof (NoDup_fst_map_to_list (db_runs d)) as Hn. revert Hn.
    induction (map_to_list (db_runs d)) as [|x xs IH]; cbn; [done|]. intros [Hx Hxs]%NoDup_cons.
    destruct (pr_run cc x); cbn; [|by apply IH]. apply NoDup_cons. split; [|by apply IH].
    intros Hin. apply Hx. apply list_elem_of_fmap in Hin as (y & -> & Hy).
    apply list_elem_of_fmap. exists y. split; [done|].
    apply list_elem_of_In in Hy. apply filter_In in Hy as [Hy _]. by apply list_elem_of_In.
  - intros kv Hkv. by apply Hl.
  - split; [done|]. intros id. destruct (db_runs d !! id) as [r|] eqn:Er.
    + destruct (pr_run cc (id, r)) eqn:Ep.
      * unfold pr_run in Ep. cbn in Ep. rewrite Ep. apply (H2 (id, r)), Hl. done.
      * rewrite H3; [unfold pr_run in Ep; cbn in Ep; by rewrite Ep|].
        intros ([id' r'] & -> & Hin%list_elem_of_In)%list_elem_of_fmap. apply Hl in Hin. cbn in *.
        destruct Hin. simplify_eq. congruence.
    + rewrite H3; [done|]. intros ([id' r'] & -> & Hin%list_elem_of_In)%list_elem_of_fmap.
      apply Hl in Hin. cbn in *. destruct Hin. congruence.
Qed.

(** Runs that have all been told are left alone. *)
Lemma cancel_for_pr_quiet cc reason now d :
  (∀ id r, db_runs d !! id = Some r → pin_code_change_id (run_pinned r) = cc → told r) →
  cancel_for_pr cc reason now d = (d, []).
Proof.
  intros Hq. unfold cancel_for_pr.
  set (l := List.filter (pr_run cc) (map_to_list (db_runs d))).
  assert (Hl : ∀ kv, In kv l → db_runs d !! fst kv = Some (snd kv) ∧ told (snd kv)).
  { intros [id r]. unfold l. rewrite filter_In, <- list_elem_of_In, elem_of_map_to_list.
    intros [H1 [H2%N.eqb_eq _]%andb_true_iff]. split; [done|]. by eapply Hq. }
  f_equal.
  - induction l as [|kv l IH]; [done|]. cbn [fold_left].
    destruct (Hl kv (or_introl eq_refl)) as [H1 H2].
    rewrite (project_cancel_told _ _ _ _ _ H1 H2). apply IH. intros x Hx. apply Hl. by right.
  - induction l as [|kv l IH]; [done|]. cbn. destruct (Hl kv (or_introl eq_refl)) as [_ [H2 _]].
    rewrite bool_decide_eq_false_2 by done. apply IH. intros x Hx. apply Hl. by right.
Qed.

(** ** A committed transaction *)

Lemma refused_not_projected d e s : repository_refused d e = Some s → s ≠ Projected.
Proof. unfold repository_refused. repeat case_match; congruence. Qed.

Lemma get_or_create_not_projected d e fresh now : get_or_create_locked d e fresh now ≠ Err Projected.
Proof.
  pose proof (refused_not_projected d e) as Hr. unfold get_or_create_locked, lock_active_installation.
  destruct (repository_refused d e) as [s|]; [specialize (Hr s eq_refl)|clear Hr];
    (destruct (find_first _ _) as [i|]; [destruct (ins_deleted i)|]); cbn; try congruence;
    repeat case_match; congruence.
Qed.

Lemma project_record_not_projected created r e authoritative now :
  project_record created r e authoritative now ≠ Err Projected.
Proof.
  unfold project_record, raise_when.
  repeat (match goal with |- context [if ?b then _ else _] => destruct b; cbn [mbind result_bind] end;
          try done).
Qed.

Lemma project_label_not_projected r e names now :
  project_label_record r e names now ≠ Err Projected.
Proof. unfold project_label_record, raise_when. by destruct (negb (pr_external_id r =? _)). Qed.

Lemma projection_txn_committed body d e fresh now d' notices :
  (∀ created r, body created r ≠ Err Projected) →
  projection_txn d e fresh now body = (d', Projected, notices) →
  ∃ d1 r created r', get_or_create_locked d e fresh now = Ok (d1, r, created)
    ∧ body created r = Ok r'
    ∧ cancel_obsolete_runs r' e (pr_head_sha r) now (save r' d1) = (d', notices).
Proof.
  intros Hb. unfold projection_txn.
  destruct (get_or_create_locked d e fresh now) as [[[d1 r] created]|s] eqn:Eg.
  - destruct (body created r) as [r'|s] eqn:Eb; [|by intros [= _ -> _]; destruct (Hb created r)].
    destruct (cancel_obsolete_runs _ _ _ _ _) as [d2 ns] eqn:Ec. intros [= <- <-].
    by exists d1, r, created, r'.
  - intros [= _ -> _]. by destruct (get_or_create_not_projected d e fresh now).
Qed.

Lemma get_or_create_runs d e fresh now d1 r created :
  get_or_create_locked d e fresh now = Ok (d1, r, created) →
  pj_runs d1 = pj_runs d ∧ pj_installations d1 = pj_installations d
  ∧ pj_repositories d1 = pj_repositories d.
Proof.
  unfold get_or_create_locked. intros (active & _ & H)%bind_ok. destruct active; [|done]. cbn in H.
  destruct (active_repository d e); [|by destruct (repository_refused d e)].
  case_match; [|done]. simplify_eq. by case_match.
Qed.

(** What is true of the runs of the pull request once an event that makes them obsolete has been
    committed. *)
Lemma committed_runs_told r' e previous now d d' notices :
  cancel_obsolete_runs r' e previous now d = (d', notices) →
  obsolete_reason r' e previous ≠ None →
  ∀ id x, db_runs (pj_runs d') !! id = Some x → pin_code_change_id (run_pinned x) = pr_id r' → told x.
Proof.
  unfold cancel_obsolete_runs. destruct (obsolete_reason r' e previous) as [reason|]; [|done].
  pose proof (cancel_for_pr_spec (pr_id r') reason now (pj_runs d)) as [_ Hr].
  destruct (cancel_for_pr _ _ _ _) as [runs ns]. cbn in Hr. intros [= <- <-] _ id x. cbn.
  rewrite Hr. destruct (db_runs (pj_runs d) !! id) as [r|]; [|done]. intros [= <-] Hp.
  destruct (_ && _) eqn:E; [apply cancelled_row_told|].
  assert (active (run_state r) = false) as Ha.
  { rewrite Hp, N.eqb_refl in E. done. }
  split; [|by rewrite Ha]. intros Hq. by rewrite Hq in Ha.
Qed.

(** ** Properties *)

(** C12. A projection keeps the table of pull requests well formed.  A row keeps its identity and
    reviewer columns; its provider time never moves back; a new head restarts the CI clock and
    clears the CI state, and so does a new label, and the same head keeps its first-seen time; a
    row is labelled exactly when it has a label time; a pull request gets one row per repository,
    created only for the event's number; and unless the status is projected nothing changed. *)
Theorem projection_invariant d e fresh now d' s notices :
  pj_wf d →
  (∃ authoritative, project d e authoritative fresh now = (d', s, notices))
  ∨ (∃ names, project_label d e names fresh now = (d', s, notices)) →
  table_step now fresh e d d' ∧ (s ≠ Projected → d' = d ∧ notices = []).
Proof.
  intros Hw [[a H]|[names H]]; eapply projection_txn_step; try exact H; try done; cbn.
  - intros created r r'. apply project_record_step.
  - intros _ r r'. apply project_label_record_step.
Qed.

(** After a committed event that closes a pull request or moves its head, every run of that
    pull request has been told: none is still queued, and one being worked on is asked to stop.
    Runs of other pull requests are untouched, and so are finished runs. *)
Theorem obsolete_runs_told d e fresh now d' notices :
  pj_wf d →
  (∃ authoritative, project d e authoritative fresh now = (d', Projected, notices))
  ∨ (∃ names, project_label d e names fresh now = (d', Projected, notices)) →
  ∃ r', pj_records d' !! pr_id r' = Some r' ∧ pr_external_number r' = ev_number e
    ∧ (∀ r, pj_records d !! pr_id r' = Some r →
         str_mem (ev_action e) CANCELLING_ACTIONS = true →
         pr_state r' ≠ Pr_open ∨ pr_head_sha r' ≠ pr_head_sha r →
         ∀ id x, db_runs (pj_runs d') !! id = Some x →
           pin_code_change_id (run_pinned x) = pr_id r' → told x)
    ∧ ∀ id x, db_runs (pj_runs d) !! id = Some x →
        pin_code_change_id (run_pinned x) ≠ pr_id r' ∨ active (run_state x) = false →
        db_runs (pj_runs d') !! id = Some x.
Proof.
  intros Hw H.
  assert (Hc : ∃ d1 r created r', get_or_create_locked d e fresh now = Ok (d1, r, created)
    ∧ row_step now r r' ∧ cancel_obsolete_runs r' e (pr_head_sha r) now (save r' d1) = (d', notices)).
  { destruct H as [[a H]|[names H]]; apply projection_txn_committed in H
      as (d1 & r & created & r' & H1 & H2 & H3); try (intros; apply project_record_not_projected);
      try (intros; apply project_label_not_projected); exists d1, r, created, r'; split_and!; try done;
      [by eapply project_record_step|by eapply project_label_record_step]. }
  clear H. destruct Hc as (d1 & r & created & r' & Hg & Hs & Hc).
  destruct (get_or_create_spec _ _ _ _ _ _ _ Hw Hg) as (Hw1 & Hr & Hnum & _ & Hcr).
  destruct (get_or_create_runs _ _ _ _ _ _ _ Hg) as (Eruns & _ & _).
  pose proof (cancel_obsolete_frame r' e (pr_head_sha r) now (save r' d1)) as (_ & _ & F).
  rewrite Hc in F. cbn in F. destruct Hs as [S1 _ [_ S4] _ _ _ _ _ _].
  exists r'. split_and!.
  - by rewrite F, lookup_insert_eq.
  - congruence.
  - intros r0 Hr0 Hact Hob id x Hx Hpin. eapply committed_runs_told; [exact Hc| |done..].
    assert (r0 = r) as ->.
    { destruct Hcr as [(_ & Er & Hfresh & _)|[_ ->]]; [|congruence].
      rewrite S1, Er in Hr0. cbn in Hr0. congruence. }
    unfold obsolete_reason. rewrite Hact. destruct (bool_decide_reflect (pr_state r' = Pr_open)); [|done].
    destruct (pr_head_sha r' =?s pr_head_sha r) eqn:Eh; [|done]. apply str_eqb_eq in Eh. naive_solver.
  - intros id x Hx Hne. unfold cancel_obsolete_runs in Hc.
    destruct (obsolete_reason _ _ _) as [reason|]; [|by injection Hc as <- _; cbn; rewrite Eruns].
    pose proof (cancel_for_pr_spec (pr_id r') reason now (pj_runs (save r' d1))) as [_ Hsp].
    destruct (cancel_for_pr _ _ _ _) as [runs ns]. injection Hc as <- _. cbn in Hsp |- *.
    rewrite Hsp, Eruns, Hx. f_equal. destruct Hne as [Hne|Hne].
    + by rewrite (proj2 (N.eqb_neq _ _) Hne).
    + by rewrite Hne, andb_false_r.
Qed.

Lemma save_again r d :
  pj_records d !! pr_id r = Some r →
  (∀ c, db_changes (pj_runs d) !! pr_id r = Some c → set_change r c = c) → save r d = d.
Proof.
  intros Hr Hc. destruct d as [i rp rec [runs changes f cm bb gl ev]]. unfold save, set_changes.
  cbn in *. f_equal; [by apply insert_id|]. f_equal.
  apply map_eq. intros k. destruct (decide (pr_id r = k)) as [<-|Hk]; [|by rewrite lookup_alter_ne].
  rewrite lookup_alter_eq. destruct (changes !! pr_id r) as [c|] eqn:E; [|done]. cbn. by rewrite Hc.
Qed.

Lemma cancel_obsolete_changes r e previous now d d' notices :
  cancel_obsolete_runs r e previous now d = (d', notices) →
  db_changes (pj_runs d') = db_changes (pj_runs d).
Proof.
  unfold cancel_obsolete_runs. destruct (obsolete_reason _ _ _) as [reason|]; [|by intros [= <- _]].
  pose proof (cancel_for_pr_spec (pr_id r) reason now (pj_runs d)) as [Hc _].
  destruct (cancel_for_pr _ _ _ _). by intros [= <- _].
Qed.

(** A delivery is projected once.  When an event has been committed, the same event again,
    at any later time, leaves the whole database as it is: the pull requests, the runs, the
    notifications; and it signals no cancellation. *)
Theorem redelivery_changes_nothing d e authoritative fresh now d1 n1 fresh' now' d2 s n2 :
  pj_wf d →
  project d e authoritative fresh now = (d1, Projected, n1) →
  project d1 e authoritative fresh' now' = (d2, s, n2) →
  d2 = d1 ∧ n2 = [].
Proof.
  intros Hw H1 H2.
  destruct (projection_txn_step _ _ _ _ _ _ _ _ Hw
              (λ c x x', project_record_step c x e authoritative now x') H1) as [[Hw1 _ _] _].
  apply projection_txn_committed in H1 as (d0 & r & created & r' & Hg & Hb & Hc);
    [|intros; apply project_record_not_projected].
  pose proof (project_record_settled _ _ _ _ _ _ Hb) as Hset.
  pose proof (project_record_step _ _ _ _ _ _ Hb) as [S1 S2 [_ S4] _ _ _ _ _ _].
  destruct (get_or_create_spec _ _ _ _ _ _ _ Hw Hg) as (_ & _ & Hnum & Hrep & _).
  destruct (get_or_create_runs _ _ _ _ _ _ _ Hg) as (_ & Ei & Er).
  pose proof (cancel_obsolete_frame r' e (pr_head_sha r) now (save r' d0)) as (F1 & F2 & F3).
  rewrite Hc in F1, F2, F3. cbn in F1, F2, F3.
  pose proof (cancel_obsolete_changes _ _ _ _ _ _ _ Hc) as Hch. cbn in Hch.
  assert (Hr' : pj_records d1 !! pr_id r' = Some r') by (by rewrite F3, lookup_insert_eq).
  unfold project, projection_txn in H2.
  destruct (get_or_create_locked d1 e fresh' now') as [[[d1' r2] created2]|s2] eqn:Eg2;
    [|by injection H2 as <- _ <-].
  destruct (get_or_create_spec _ _ _ _ _ _ _ Hw1 Eg2) as (Hw2 & Hr2 & Hnum2 & Hrep2 & Hcr2).
  assert (Hrep' : pr_repository_id r' = pr_repository_id r2).
  { unfold active_repository in Hrep, Hrep2. rewrite F2, Er in Hrep2. congruence. }
  destruct Hcr2 as [(_ & Efe & Hfresh & ->)|[_ ->]].
  { exfalso. assert (r' = r2) as ->; [|by rewrite Efe in Hr'; cbn in Hr'; congruence].
    apply (pw_unique _ Hw2); [|done|done|right; congruence]. cbn.
    rewrite Efe. cbn. rewrite lookup_insert_ne; [done|]. intros E. by rewrite E, Hr' in Hfresh. }
  assert (r2 = r') as ->.
  { apply (pw_unique _ Hw1); [done|done|done|right; congruence]. }
  destruct (project_record created2 r' e authoritative now') as [r''|s2] eqn:Eb2;
    [|by injection H2 as <- _ <-].
  apply project_record_again in Eb2 as ->; [|done].
  rewrite (save_again r' d1) in H2; [|done|].
  2: { intros c. rewrite Hch. cbn. rewrite lookup_alter_eq.
       destruct (db_changes (pj_runs d0) !! pr_id r'); [|done]. by intros [= <-]. }
  unfold cancel_obsolete_runs in H2.
  destruct (obsolete_reason r' e (pr_head_sha r')) as [reason|] eqn:Eo; [|by injection H2 as <- _ <-].
  rewrite cancel_for_pr_quiet in H2; [destruct d1; by injection H2 as <- _ <-|].
  eapply committed_runs_told; [exact Hc|]. unfold obsolete_reason in Eo |- *.
  destruct (str_mem _ _); [|done]. destruct (negb (bool_decide _)); [done|].
  by rewrite str_eqb_refl in Eo.
Qed.

(** ** Snapshots in any order *)

Definition SNAPSHOT_ACTIONS : list pystr := [u8 "synchronize"; u8 "closed"; u8 "reopened"].

(** The row after a sequence of snapshots read from GitHub, each applied at its own time. *)
Definition apply_snapshots (r : PullRequestRecord) (l : list (PullRequestEvent * Z))
  : PullRequestRecord :=
  fold_left (λ r en, match project_record false r (fst en) true (snd en) with
                     | Ok r' => r'
                     | Err _ => r
                     end) l r.

Lemma snapshot_applied r e now :
  pr_external_id r = ev_external_id e → str_mem (ev_action e) SNAPSHOT_ACTIONS = true →
  match project_record false r e true now with
  | Ok r' => older (ev_provider_updated_at e) r = false
      ∧ pr_provider_updated_at r' = Some (ev_provider_updated_at e)
      ∧ pr_head_sha r' = ev_head_sha e ∧ pr_state r' = ev_state e
      ∧ pr_external_id r' = pr_external_id r
  | Err _ => older (ev_provider_updated_at e) r = true
  end.
Proof.
  intros Hid Hact.
  assert (Hcases : ev_action e = u8 "synchronize" ∨ ev_action e = u8 "closed"
                   ∨ ev_action e = u8 "reopened").
  { apply str_mem_In in Hact. cbn in Hact. naive_solver. }
  destruct (project_record false r e true now) as [r'|s] eqn:Ep.
  - pose proof (project_record_settled _ _ _ _ _ _ Ep) as [Hh Hm Hl Ht _].
    pose proof (project_record_step _ _ _ _ _ _ Ep) as [_ _ [Hx _] _ _ _ _ _ _].
    apply project_record_parts in Ep as (_ & Hold & _).
    assert (He : is_edited e = false) by (unfold is_edited; by destruct Hcases as [->|[->| ->]]).
    split_and!; try done.
    + destruct Hh; congruence.
    + destruct Hcases as [E|[E|E]].
      * rewrite E in Hm. specialize (Hm eq_refl now). unfold apply_metadata in Hm.
        rewrite He in Hm. by rewrite <- Hm.
      * rewrite E in Hl. specialize (Hl eq_refl). unfold apply_lifecycle in Hl. rewrite E in Hl.
        by rewrite <- Hl.
      * rewrite E in Hl. specialize (Hl eq_refl). unfold apply_lifecycle in Hl. rewrite E in Hl.
        by rewrite <- Hl.
  - destruct (older _ r) eqn:Hold; [done|]. exfalso. revert Ep. unfold project_record.
    rewrite Hid, Z.eqb_refl. cbn [negb raise_when mbind result_bind].
    assert (is_stale_opened r e = false) as ->.
    { unfold is_stale_opened. by destruct Hcases as [->|[->| ->]]. }
    assert (is_edited e = false) as -> by (unfold is_edited; by destruct Hcases as [->|[->| ->]]).
    rewrite Hold. cbn [negb raise_when mbind result_bind andb orb].
    assert (head_change_is_stale r e true = false) as ->.
    { unfold head_change_is_stale. rewrite andb_false_r. cbn.
      unfold not_newer, same_time. unfold older in Hold.
      destruct (pr_provider_updated_at r) as [u|]; [|done]. apply Z.ltb_ge in Hold.
      destruct (_ <=? u) eqn:El; [|done]. apply Z.leb_le in El. cbn.
      rewrite bool_decide_eq_true_2; [done|]. f_equal. lia. }
    destruct (ev_head_sha e =?s pr_head_sha r); cbn [negb raise_when mbind result_bind];
      destruct Hcases as [->|[->| ->]]; done.
Qed.

(** The row holds the last of the snapshots not older than it, or none of them is. *)
Definition snapshot_inv (r0 : PullRequestRecord) (t0 : Z) (l : list (PullRequestEvent * Z))
    (r : PullRequestRecord) : Prop :=
  pr_external_id r = pr_external_id r0 ∧
  ((r = r0 ∧ ∀ en, In en l → ev_provider_updated_at (fst en) < t0)
   ∨ ∃ en, In en l ∧ t0 ≤ ev_provider_updated_at (fst en)
       ∧ pr_provider_updated_at r = Some (ev_provider_updated_at (fst en))
       ∧ pr_head_sha r = ev_head_sha (fst en) ∧ pr_state r = ev_state (fst en)
       ∧ ∀ en', In en' l → ev_provider_updated_at (fst en') ≤ ev_provider_updated_at (fst en)).

Lemma apply_snapshots_inv r0 t0 l :
  pr_provider_updated_at r0 = Some t0 →
  (∀ en, In en l → ev_external_id (fst en) = pr_external_id r0
                   ∧ str_mem (ev_action (fst en)) SNAPSHOT_ACTIONS = true) →
  snapshot_inv r0 t0 l (apply_snapshots r0 l).
Proof.
  intros H0. induction l as [|en l IH] using rev_ind; intros Hl; [split; [done|left; done]|].
  unfold apply_snapshots. rewrite fold_left_app. fold (apply_snapshots r0 l). cbn [fold_left].
  destruct IH as [Hx Hinv]. { intros x Hx. apply Hl, in_app_iff. by left. }
  destruct (Hl en) as [Eid Hact]. { apply in_app_iff. right. by left. }
  pose proof (snapshot_applied (apply_snapshots r0 l) (fst en) (snd en)) as Ha.
  set (r := apply_snapshots r0 l) in *.
  destruct (project_record false r (fst en) true (snd en)) as [r'|s].
  - destruct Ha as (Hold & Ht & Hh & Hs & Hx'); [congruence|done|].
    assert (Hle : ∀ u, pr_provider_updated_at r = Some u → u ≤ ev_provider_updated_at (fst en))
      by (by apply not_older_time).
    split; [congruence|]. right. exists en. split_and!; try done.
    + apply in_app_iff. right. by left.
    + destruct Hinv as [[-> _]|(en0 & _ & ? & Hu & _)]; [by apply Hle|]. specialize (Hle _ Hu). lia.
    + intros en' [Hin|[<-|[]]]%in_app_iff; [|lia].
      destruct Hinv as [[-> Hall]|(en0 & _ & ? & Hu & _ & _ & Hall)].
      * specialize (Hall _ Hin). specialize (Hle _ H0). lia.
      * specialize (Hall _ Hin). specialize (Hle _ Hu). lia.
  - assert (Hold : older (ev_provider_updated_at (fst en)) r = true) by (apply Ha; [congruence|done]).
    unfold older in Hold. split; [done|]. destruct Hinv as [[-> Hall]|(en0 & Hin0 & ? & Hu & Hh & Hs & Hall)].
    + left. split; [done|]. rewrite H0 in Hold. apply Z.ltb_lt in Hold.
      intros en' [Hin|[<-|[]]]%in_app_iff; [by apply Hall|done].
    + right. exists en0. rewrite Hu in Hold. apply Z.ltb_lt in Hold. split_and!; try done.
      * apply in_app_iff. by left.
      * intros en' [Hin|[<-|[]]]%in_app_iff; [by apply Hall|lia].
Qed.

(** The latest snapshot decides, whatever the order of the deliveries.  Snapshots of one pull
    request read from GitHub are applied one after another, each at some time; when one of them is
    not older than the row and every other one is older than it, or says the same at the same
    time, then the row ends with its head, its state and its time. *)
Theorem latest_snapshot_wins r0 t0 l e now :
  pr_provider_updated_at r0 = Some t0 →
  (∀ en, In en l → ev_external_id (fst en) = pr_external_id r0
                   ∧ str_mem (ev_action (fst en)) SNAPSHOT_ACTIONS = true) →
  In (e, now) l → t0 ≤ ev_provider_updated_at e →
  (∀ en, In en l → ev_provider_updated_at (fst en) < ev_provider_updated_at e
     ∨ (ev_provider_updated_at (fst en) = ev_provider_updated_at e
        ∧ ev_head_sha (fst en) = ev_head_sha e ∧ ev_state (fst en) = ev_state e)) →
  pr_head_sha (apply_snapshots r0 l) = ev_head_sha e
  ∧ pr_state (apply_snapshots r0 l) = ev_state e
  ∧ pr_provider_updated_at (apply_snapshots r0 l) = Some (ev_provider_updated_at e).
Proof.
  intros H0 Hl Hin Ht Hbest. destruct (apply_snapshots_inv r0 t0 l H0 Hl) as [_ Hinv].
  destruct Hinv as [[_ Hall]|(en & Hen & _ & Hu & -> & -> & Hall)].
  - specialize (Hall _ Hin). cbn in Hall. lia.
  - specialize (Hall _ Hin). cbn in Hall. rewrite Hu.
    destruct (Hbest _ Hen) as [?|(-> & -> & ->)]; [lia|done].
Qed.

(** ** Witnesses *)

Definition sample_event (action head : pystr) (state : PullRequestState) (t : Z) : PullRequestEvent :=
  mkPullRequestEvent action 7 70 700 5 (u8 "Title") None (u8 "dev") (u8 "https://g/pr/5")
    (u8 "topic") (u8 "main") (u8 "base") head state t None None None (Some [u8 "ai-review"]) None None.

Definition sample_run (cc : UUID) (head : pystr) : Run := new_run (mkPinned cc (Some 2%N) (u8 "base") head Engine_fast) 0.
Definition sample_proj : ProjDb :=
  mkProjDb [mkInstallationRow 7 false] [mkRepositoryRow 1%N 7 70 true true]
    {[10%N := from_event 10%N 1%N (sample_event (u8 "opened") (u8 "h1") Pr_open 100) 5]}
    (mkDb {[20%N := sample_run 10%N (u8 "h1")]} ∅ ∅ [] ∅ ∅ []).

Lemma sample_proj_wf : pj_wf sample_proj.
Proof.
  split; cbn.
  - intros id r [<- <-]%lookup_singleton_Some. by split.
  - intros r1 r2 [_ <-]%lookup_singleton_Some [_ <-]%lookup_singleton_Some. done.
Qed.

Definition sample_push : PullRequestEvent := sample_event (u8 "synchronize") (u8 "h2") Pr_open 200.
Definition sample_projection : ProjDb * PullRequestProjectionStatus * list UUID :=
  project sample_proj sample_push true 99%N 6.
Definition sample_projected : ProjDb := fst (fst sample_projection).

Lemma sample_projection_ok : sample_projection = (sample_projected, Projected, [20%N]).
Proof. vm_compute. reflexivity. Qed.

Lemma projection_invariant_witness :
  pj_wf sample_projected ∧ pr_ci_status <$> pj_records sample_projected !! 10%N = Some [].
Proof.
  destruct (projection_invariant sample_proj sample_push 99%N 6 sample_projected Projected [20%N]
              sample_proj_wf) as [[Hw _ _] _]; [left; exists true; exact sample_projection_ok|].
  split; [exact Hw|]. vm_compute. reflexivity.
Defined.

Lemma obsolete_runs_told_witness :
  ∃ x, db_runs (pj_runs sample_projected) !! 20%N = Some x ∧ told x.
Proof.
  destruct (obsolete_runs_told sample_proj sample_push 99%N 6 sample_projected [20%N]
              sample_proj_wf) as (r' & Hr & Hn & Ht & _); [left; exists true; exact sample_projection_ok|].
  destruct (db_runs (pj_runs sample_projected) !! 20%N) as [x|] eqn:E;
    [|vm_compute in E; discriminate].
  exists x. split; [reflexivity|].
  assert (Hid : pr_id r' = 10%N).
  { destruct (decide (pr_id r' = 10%N)) as [?|Hne]; [done|]. exfalso.
    assert (Hnone : pj_records sample_projected !! pr_id r' = None); [|congruence].
    change (pj_records sample_projected)
      with (<[10%N := apply_snapshots (from_event 10%N 1%N (sample_event (u8 "opened") (u8 "h1") Pr_open 100) 5)
                        [(sample_push, 6)]]> (pj_records sample_proj)).
    rewrite lookup_insert_ne by done. cbn. by rewrite lookup_singleton_ne. }
  rewrite Hid in Hr, Ht.
  eapply (Ht _ eq_refl eq_refl); [right|exact E|].
  - change (pj_records sample_projected !! 10%N)
      with (Some (apply_snapshots (from_event 10%N 1%N (sample_event (u8 "opened") (u8 "h1") Pr_open 100) 5)
                        [(sample_push, 6)])) in Hr.
    injection Hr as <-. vm_compute. discriminate.
  - revert E. vm_compute. intros [= <-]. reflexivity.
Defined.

Lemma redelivery_changes_nothing_witness :
  fst (fst (project sample_projected sample_push true 98%N 60)) = sample_projected.
Proof.
  destruct (project sample_projected sample_push true 98%N 60) as [[d2 s] n2] eqn:E.
  destruct (redelivery_changes_nothing sample_proj sample_push true 99%N 6 sample_projected [20%N]
              98%N 60 d2 s n2 sample_proj_wf sample_projection_ok E) as [-> _].
  reflexivity.
Defined.

Lemma latest_snapshot_wins_witness :
  pr_head_sha (apply_snapshots (from_event 10%N 1%N (sample_event (u8 "opened") (u8 "h1") Pr_open 100) 5)
                 [(sample_push, 6); (sample_event (u8 "closed") (u8 "h0") Pr_closed 150, 7)])
  = u8 "h2".
Proof.
  refine (proj1 (latest_snapshot_wins _ 100 _ sample_push 6 _ _ _ _ _)).
  - reflexivity.
  - intros en [<-|[<-|[]]]; split; reflexivity.
  - left. reflexivity.
  - vm_compute. discriminate.
  - intros en [<-|[<-|[]]]; [right; repeat split|left; reflexivity].
Defined.
