(* ===== verification/Eligibility.v ===== *)
(** * The CI gate ([determine_ci_eligibility.py], [log_token.py])

    Before a run is enqueued the gate reads the pull request, asks GitHub for the checks of its
    head, with a fresh read before each of GitHub's requests, and reads once more.  Other
    transactions run in between: [reads n] is what the [n]-th read of a call sees, and the state
    counts the reads. *)

From Stdlib Require Import String.
From stdpp Require Import numbers gmap.
From S2P Require Import Prelude PyText PyHash DiffMap Verdict RunFailures RunStore GithubProjection.
#[local] Open Scope Z_scope.

(** ** Data *)

Inductive CiWaitMode : Type := Wait_never | Wait_always | Wait_auto.
#[export] Instance CiWaitMode_eq_dec : EqDecision CiWaitMode.
Proof. solve_decision. Defined.

Inductive EligibilityReason : Type :=
| Reason_eligible | Reason_unknown_pr | Reason_disabled_repository | Reason_closed_pr
| Reason_label_not_active | Reason_stale_head | Reason_stale_state | Reason_waiting_for_ci
| Reason_ci_blocked | Reason_unsupported_provider | Reason_unsupported_ci_policy.
#[export] Instance EligibilityReason_eq_dec : EqDecision EligibilityReason.
Proof. solve_decision. Defined.

Definition EligibilityReason_value (r : EligibilityReason) : pystr :=
  match r with
  | Reason_eligible => u8 "eligible"
  | Reason_unknown_pr => u8 "unknown_pr"
  | Reason_disabled_repository => u8 "disabled_repository"
  | Reason_closed_pr => u8 "closed_pr"
  | Reason_label_not_active => u8 "label_not_active"
  | Reason_stale_head => u8 "stale_head"
  | Reason_stale_state => u8 "stale_state"
  | Reason_waiting_for_ci => u8 "waiting_for_ci"
  | Reason_ci_blocked => u8 "ci_blocked"
  | Reason_unsupported_provider => u8 "unsupported_provider"
  | Reason_unsupported_ci_policy => u8 "unsupported_ci_policy"
  end.

Record WebhookRunIdentity : Type := mkWebhookRunIdentity {
  wi_provider : pystr;
  wi_origin_provider_installation_id : UUID;
  wi_workspace_id : UUID;
  wi_repository_id : UUID;
  wi_repository_external_id : Z;
  wi_instance_origin : option pystr;
  wi_credential_generation : option Z;
  wi_repository_uuid : option UUID;
  wi_binding_generation : option Z;
  wi_webhook_generation : option Z
}.
#[export] Instance WebhookRunIdentity_eq_dec : EqDecision WebhookRunIdentity.
Proof. solve_decision. Defined.

Definition absent {A} (o : option A) : bool := match o with None => true | Some _ => false end.

(** [0 < n <= 9223372036854775807] *)
Definition bigint (n : Z) : bool := (0 <? n) && (n <=? 9223372036854775807).
Definition some_bigint (o : option Z) : bool := match o with Some n => bigint n | None => false end.

(** [WebhookRunIdentity.__post_init__]; [origin_syntax] is [GitLabOriginPolicy.validate] for a
    policy that trusts the origin. *)
Definition identity_valid (origin_syntax : pystr → bool) (i : WebhookRunIdentity) : bool :=
  str_mem (wi_provider i) [u8 "github"; u8 "gitlab"; u8 "bitbucket"]
  && bigint (wi_repository_external_id i)
  && (if wi_provider i =?s u8 "github" then
        absent (wi_instance_origin i) && absent (wi_credential_generation i)
        && absent (wi_repository_uuid i) && absent (wi_binding_generation i)
        && absent (wi_webhook_generation i)
      else if wi_provider i =?s u8 "bitbucket" then
        absent (wi_instance_origin i) && negb (absent (wi_repository_uuid i))
        && some_bigint (wi_credential_generation i) && some_bigint (wi_binding_generation i)
        && some_bigint (wi_webhook_generation i)
      else match wi_instance_origin i with
           | Some origin =>
               some_bigint (wi_credential_generation i) && absent (wi_repository_uuid i)
               && absent (wi_binding_generation i) && absent (wi_webhook_generation i)
               && origin_syntax origin
           | None => false
           end).

Record EligibilityCandidate : Type := mkEligibilityCandidate {
  ec_code_change_id : UUID;
  ec_installation_external_id : Z;
  ec_repository_full_name : pystr;
  ec_head_sha : pystr;
  ec_state : PullRequestState;
  ec_repository_enabled : bool;
  ec_ai_review_labeled : option bool;
  ec_ai_review_labeled_at : option Z;
  ec_head_first_seen_at : option Z;
  ec_wait_for_ci : CiWaitMode;
  ec_identity : option WebhookRunIdentity
}.
#[export] Instance EligibilityCandidate_eq_dec : EqDecision EligibilityCandidate.
Proof. solve_decision. Defined.

Record CheckSuite : Type := mkCheckSuite {
  cs_app_id : Z;
  cs_status : pystr;
  cs_conclusion : option pystr;
  cs_latest_check_runs_count : Z
}.

Record CiSnapshot : Type := mkCiSnapshot {
  sn_head_sha : pystr;
  sn_check_suites : list CheckSuite;
  sn_combined_state : pystr;
  sn_combined_total_count : Z
}.

Record CiEligibility : Type := mkCiEligibility {
  ce_eligible : bool;
  ce_reason : EligibilityReason;
  ce_head_sha : option pystr;
  ce_candidate : option EligibilityCandidate;
  ce_detail : option pystr
}.

(** ** Texts of a decision *)

(** [[a-z_]{1,40}], as a full match *)
Definition log_token (value : pystr) : option pystr :=
  if forallb (λ c, in_range c (97, 122)%N || (c =? 95)%N) value
     && (1 <=? length value)%nat && (length value <=? 40)%nat
  then Some value else None.

Definition token_or_mark (value : pystr) : pystr := default (u8 "?") (log_token value).

Definition blocking_suites_detail (first : CheckSuite) (others : list CheckSuite) : pystr :=
  u8 "check suite app=" ++ str_of_Z (cs_app_id first) ++ u8 " " ++ token_or_mark (cs_status first)
  ++ match cs_conclusion first with
     | Some c => u8 "/" ++ token_or_mark c
     | None => []
     end
  ++ match others with
     | [] => []
     | _ :: _ => u8 " (+" ++ str_of_nat (length others) ++ u8 " more)"
     end.

(** [str(n)] with at least [w] digits *)
Definition padded (w : nat) (n : Z) : pystr :=
  let s := str_of_Z n in replicate (w - length s) 48%N ++ s.

(** The Gregorian date of a day, counted from 1970-01-01: eras of 400 years that start in March. *)
Definition civil_of_days (day : Z) : Z * Z * Z :=
  let z := day + 719468 in
  let era := z / 146097 in
  let doe := z mod 146097 in
  let yoe := (doe - doe / 1460 + doe / 36524 - doe / 146096) / 365 in
  let doy := doe - (365 * yoe + yoe / 4 - yoe / 100) in
  let mp := (5 * doy + 2) / 153 in
  let d := doy - (153 * mp + 2) / 5 + 1 in
  let m := if mp <? 10 then mp + 3 else mp - 9 in
  (yoe + era * 400 + (if m <=? 2 then 1 else 0), m, d).

(** [datetime.isoformat()] of an instant in UTC *)
Definition isoformat_utc (t : Z) : pystr :=
  let '(y, m, d) := civil_of_days (t / seconds 86400) in
  let s := t mod seconds 86400 / 1000000 in
  let us := t mod 1000000 in
  padded 4 y ++ u8 "-" ++ padded 2 m ++ u8 "-" ++ padded 2 d ++ u8 "T"
  ++ padded 2 (s / 3600) ++ u8 ":" ++ padded 2 (s / 60 mod 60) ++ u8 ":" ++ padded 2 (s mod 60)
  ++ (if us =? 0 then [] else u8 "." ++ padded 6 us) ++ u8 "+00:00".

Example isoformat_sample :
  isoformat_utc (seconds 1709210096 + 7) = u8 "2024-02-29T12:34:56.000007+00:00"
  ∧ isoformat_utc 0 = u8 "1970-01-01T00:00:00+00:00"
  ∧ isoformat_utc (seconds 951782399) = u8 "2000-02-28T23:59:59+00:00".
Proof. vm_compute. done. Qed.

(** ** The decision *)

Definition refuse (reason : EligibilityReason) (head : option pystr) : CiEligibility :=
  mkCiEligibility false reason head None None.
Definition admit_candidate (c : EligibilityCandidate) : CiEligibility :=
  mkCiEligibility true Reason_eligible (Some (ec_head_sha c)) (Some c) None.
Definition hold (reason : EligibilityReason) (c : EligibilityCandidate) (detail : pystr)
  : CiEligibility :=
  mkCiEligibility false reason (Some (ec_head_sha c)) None (Some detail).

Definition precheck (candidate : option EligibilityCandidate) (expected_head_sha : pystr)
    (expected_installation : option Z) : option CiEligibility :=
  match candidate with
  | None => Some (refuse Reason_unknown_pr None)
  | Some c =>
      if match ec_identity c with
         | Some i => negb (wi_provider i =?s u8 "github")
         | None => false
         end
      then Some (refuse Reason_unsupported_provider (Some (ec_head_sha c)))
      else if match expected_installation with
              | Some n => negb (ec_installation_external_id c =? n)
              | None => false
              end
      then Some (refuse Reason_stale_state (Some (ec_head_sha c)))
      else if negb (ec_head_sha c =?s expected_head_sha)
      then Some (refuse Reason_stale_head (Some (ec_head_sha c)))
      else if negb (ec_repository_enabled c)
      then Some (refuse Reason_disabled_repository (Some (ec_head_sha c)))
      else if negb (bool_decide (ec_state c = Pr_open))
      then Some (refuse Reason_closed_pr (Some (ec_head_sha c)))
      else if negb (bool_decide (ec_ai_review_labeled c = Some true))
      then Some (refuse Reason_label_not_active (Some (ec_head_sha c)))
      else None
  end.

(** The suites of other Apps; one that is queued and has no check runs is ignored. *)
Definition foreign_suite (own_app_id : Z) (s : CheckSuite) : bool :=
  negb (cs_app_id s =? own_app_id)
  && negb ((cs_status s =?s u8 "queued") && (cs_latest_check_runs_count s =? 0)).

Definition suite_blocks (s : CheckSuite) : bool :=
  negb (cs_status s =?s u8 "completed")
  || match cs_conclusion s with
     | Some c => negb (str_mem c [u8 "success"; u8 "neutral"; u8 "skipped"])
     | None => true
     end.

Definition AUTO_WINDOW : Z := seconds 120.

(** The decision on the checks of an unchanged candidate. *)
Definition decide_ci (own_app_id now : Z) (c : EligibilityCandidate) (snapshot : CiSnapshot)
  : CiEligibility :=
  let foreign := List.filter (foreign_suite own_app_id) (sn_check_suites snapshot) in
  match List.filter suite_blocks foreign with
  | first :: others => hold Reason_ci_blocked c (blocking_suites_detail first others)
  | [] =>
      if (0 <? sn_combined_total_count snapshot)
         && negb (sn_combined_state snapshot =?s u8 "success")
      then hold Reason_ci_blocked c
             (u8 "commit status " ++ token_or_mark (sn_combined_state snapshot))
      else if negb (bool_decide (foreign = [])) || (0 <? sn_combined_total_count snapshot)
      then admit_candidate c
      else if bool_decide (ec_wait_for_ci c = Wait_always)
      then hold Reason_waiting_for_ci c (u8 "no CI yet")
      else match ec_ai_review_labeled_at c, ec_head_first_seen_at c with
           | Some labeled, Some seen =>
               let auto_start := Z.max labeled seen + AUTO_WINDOW in
               if now <? auto_start
               then hold Reason_waiting_for_ci c
                      (u8 "no CI yet, auto start at " ++ isoformat_utc auto_start)
               else admit_candidate c
           | _, _ => hold Reason_waiting_for_ci c (u8 "no CI yet, label or head time unknown")
           end
  end.

(** [_CiCandidateChanged] and whatever the provider raises *)
Inductive CiExc : Type :=
| Exc_changed (decision : CiEligibility)
| Exc_ci_provider (message : pystr).

Definition eligibility_check (own_app_id : Z) : result pystr unit :=
  raise_when (own_app_id <=? 0) (u8 "GitHub App ID must be positive").

Section Execute.
Context (reads : nat → UUID → option EligibilityCandidate)
        (ci : Z → pystr → pystr → provider_call pystr CiSnapshot)
        (own_app_id now : Z).

Definition gating (A : Type) : Type := stateT nat CiExc A.
Definition get_candidate (id : UUID) : gating (option EligibilityCandidate) :=
  λ n, (S n, Ok (reads n id)).

Definition ci_checkpoint (c : EligibilityCandidate) : gating unit :=
  current ← get_candidate (ec_code_change_id c);
  match precheck current (ec_head_sha c) (Some (ec_installation_external_id c)) with
  | Some decision => raise_st (Exc_changed decision)
  | None =>
      if negb (bool_decide (current = Some c))
      then raise_st (Exc_changed (refuse Reason_stale_state (Some (ec_head_sha c))))
      else mret tt
  end.

(** [get_current_head_ci] with its [except _CiCandidateChanged] *)
Definition current_head_ci (c : EligibilityCandidate) : gating (CiEligibility + CiSnapshot) :=
  λ n, match run_call (ci_checkpoint c)
               (call_map_err Exc_ci_provider
                  (ci (ec_installation_external_id c) (ec_repository_full_name c) (ec_head_sha c)))
               n with
       | (n', Ok snapshot) => (n', Ok (inr snapshot))
       | (n', Err (Exc_changed decision)) => (n', Ok (inl decision))
       | (n', Err x) => (n', Err x)
       end.

Definition determine (code_change_id : UUID) (expected_head_sha : pystr)
    (expected_installation : option Z) : gating CiEligibility :=
  candidate ← get_candidate code_change_id;
  match precheck candidate expected_head_sha expected_installation, candidate with
  | Some decision, _ => mret decision
  | None, None => mret (refuse Reason_unknown_pr None)
  | None, Some c =>
      if bool_decide (ec_wait_for_ci c = Wait_never) then mret (admit_candidate c)
      else
        answer ← current_head_ci c;
        match answer with
        | inl decision => mret decision
        | inr snapshot =>
            current ← get_candidate code_change_id;
            match precheck current expected_head_sha expected_installation, current with
            | Some decision, _ => mret decision
            | None, None => mret (refuse Reason_stale_state None)
            | None, Some c' =>
                if negb (bool_decide (c' = c)) || negb (sn_head_sha snapshot =?s ec_head_sha c)
                then mret (refuse (if ec_head_sha c' =?s ec_head_sha c then Reason_stale_state
                                   else Reason_stale_head) (Some (ec_head_sha c')))
                else mret (decide_ci own_app_id now c snapshot)
            end
        end
  end.
End Execute.

(** ** What the gate decides *)

(** The candidate passes every check that needs no CI. *)
Definition admitted (c : EligibilityCandidate) (head : pystr) (installation : option Z) : Prop :=
  (∀ i, ec_identity c = Some i → wi_provider i = u8 "github")
  ∧ (∀ n, installation = Some n → ec_installation_external_id c = n)
  ∧ ec_head_sha c = head
  ∧ ec_repository_enabled c = true
  ∧ ec_state c = Pr_open
  ∧ ec_ai_review_labeled c = Some true.

(** A suite that lets the head pass. *)
Definition suite_passed (s : CheckSuite) : Prop :=
  cs_status s = u8 "completed"
  ∧ ∃ c, cs_conclusion s = Some c ∧ In c [u8 "success"; u8 "neutral"; u8 "skipped"].

(** The suites the gate looks at. *)
Definition counted (own_app_id : Z) (snapshot : CiSnapshot) (s : CheckSuite) : Prop :=
  In s (sn_check_suites snapshot) ∧ cs_app_id s ≠ own_app_id
  ∧ ¬ (cs_status s = u8 "queued" ∧ cs_latest_check_runs_count s = 0).

(** The contract of the gate: all CI there is has passed, and where there is none, the wait mode is
    [auto] and two minutes have passed since the label and since the head was first seen. *)
Definition ci_passes (own_app_id now : Z) (c : EligibilityCandidate) (snapshot : CiSnapshot) : Prop :=
  (∀ s, counted own_app_id snapshot s → suite_passed s)
  ∧ (0 < sn_combined_total_count snapshot → sn_combined_state snapshot = u8 "success")
  ∧ ((∃ s, counted own_app_id snapshot s) ∨ 0 < sn_combined_total_count snapshot
     ∨ (ec_wait_for_ci c ≠ Wait_always
        ∧ ∃ labeled seen, ec_ai_review_labeled_at c = Some labeled
            ∧ ec_head_first_seen_at c = Some seen
            ∧ labeled + AUTO_WINDOW ≤ now ∧ seen + AUTO_WINDOW ≤ now)).

Lemma foreign_suite_counted own snapshot s :
  In s (List.filter (foreign_suite own) (sn_check_suites snapshot)) ↔ counted own snapshot s.
Proof.
  unfold counted, foreign_suite. rewrite filter_In, andb_true_iff, !negb_true_iff.
  rewrite Z.eqb_neq, andb_false_iff, Z.eqb_neq.
  rewrite str_eqb_neq. destruct (decide (cs_status s = u8 "queued")); intuition congruence.
Qed.

Lemma suite_blocks_false s : suite_blocks s = false ↔ suite_passed s.
Proof.
  unfold suite_blocks, suite_passed. rewrite orb_false_iff, negb_false_iff, str_eqb_eq.
  apply and_iff_compat_l. destruct (cs_conclusion s) as [c|].
  - rewrite negb_false_iff, str_mem_In. split; [by exists c|by intros (? & [= <-] & ?)].
  - split; [done|by intros (? & [=] & _)].
Qed.

Lemma filter_nil {A} (p : A → bool) l : List.filter p l = [] ↔ ∀ x, In x l → p x = false.
Proof.
  split.
  - intros H x Hx. destruct (p x) eqn:E; [|done].
    assert (In x (List.filter p l)) as Hi by (by apply filter_In). by rewrite H in Hi.
  - intros H. induction l as [|x l IH]; [done|]. cbn. rewrite H by (by left).
    apply IH. intros y Hy. apply H. by right.
Qed.

Lemma precheck_none o head installation :
  precheck o head installation = None ↔ ∃ c, o = Some c ∧ admitted c head installation.
Proof.
  destruct o as [c|]; [|split; [done|by intros (? & [=] & _)]].
  split.
  - cbn. intros H. exists c. split; [done|].
    repeat match type of H with
           | (if ?b then _ else _) = None => destruct b eqn:?; [done|]
           end.
    repeat match goal with
           | E : negb _ = false |- _ => apply negb_false_iff in E
           end.
    split_and!; try by eapply bool_decide_eq_true_1.
    + intros i Hi. rewrite Hi in *. by apply str_eqb_eq, negb_false_iff.
    + intros n ->. by apply Z.eqb_eq, negb_false_iff.
    + by apply str_eqb_eq.
    + done.
  - intros (? & [= <-] & Hi & Hn & Hh & He & Hs & Hl). cbn.
    rewrite He, !bool_decide_true, Hh, str_eqb_refl by done. cbn.
    assert (match ec_identity c with Some i => negb (wi_provider i =?s u8 "github") | None => false end
            = false) as ->.
    { destruct (ec_identity c) as [i|]; [|done]. rewrite (Hi i) by done. done. }
    destruct installation as [n|]; [|done]. rewrite (Hn n), Z.eqb_refl by done. done.
Qed.

(** A negative decision, without a candidate. *)
Definition refusal (d : CiEligibility) : Prop := ce_eligible d = false ∧ ce_candidate d = None.

Lemma precheck_refuses o head installation d :
  precheck o head installation = Some d → refusal d.
Proof.
  unfold refusal. destruct o as [c|]; [|by intros [= <-]]. cbn. intros H.
  repeat match type of H with
         | (if ?b then _ else _) = Some _ => destruct b; [by injection H as <-|]
         end.
  done.
Qed.

Lemma decide_ci_eligible own now c snapshot :
  ce_eligible (decide_ci own now c snapshot) = true ↔ ci_passes own now c snapshot.
Proof.
  unfold decide_ci, ci_passes.
  destruct (List.filter suite_blocks _) as [|x l] eqn:Hb.
  2: { split; [done|]. intros [H _].
       assert (In x (List.filter suite_blocks
         (List.filter (foreign_suite own) (sn_check_suites snapshot)))) as Hx
         by (rewrite Hb; by left).
       apply filter_In in Hx as [Hx1%foreign_suite_counted Hx2].
       by rewrite (proj2 (suite_blocks_false x) (H x Hx1)) in Hx2. }
  assert (∀ s, counted own snapshot s → suite_passed s) as Hall.
  { intros s Hs. apply suite_blocks_false. apply (proj1 (filter_nil _ _) Hb).
    by apply foreign_suite_counted. }
  destruct (0 <? sn_combined_total_count snapshot) eqn:Hc; cbn [andb].
  - apply Z.ltb_lt in Hc. rewrite orb_true_r.
    destruct (sn_combined_state snapshot =?s u8 "success") eqn:Hs; cbn.
    + apply str_eqb_eq in Hs. split; [|done]. intros _. split_and!; try done. right. by left.
    + apply str_eqb_neq in Hs. split; [done|]. intros (_ & H & _). by destruct (Hs (H Hc)).
  - apply Z.ltb_ge in Hc. rewrite orb_false_r.
    destruct (List.filter (foreign_suite own) (sn_check_suites snapshot)) as [|y l] eqn:Hf.
    2: { cbn. split; [|done]. intros _. split_and!; [done|lia|]. left. exists y.
         apply foreign_suite_counted. rewrite Hf. by left. }
    assert (¬ ∃ s, counted own snapshot s) as Hnone.
    { intros [s Hs%foreign_suite_counted]. by rewrite Hf in Hs. }
    rewrite bool_decide_true by done. cbn.
    destruct (decide (ec_wait_for_ci c = Wait_always)) as [Hw|Hw].
    { rewrite bool_decide_true by done. cbn. split; [done|].
      intros (_ & _ & [?|[?|[? _]]]); [done|lia|done]. }
    rewrite bool_decide_false by done.
    destruct (ec_ai_review_labeled_at c) as [a|];
      [destruct (ec_head_first_seen_at c) as [b|]|].
    + destruct (now <? Z.max a b + AUTO_WINDOW) eqn:Ht; cbn.
      * apply Z.ltb_lt in Ht. split; [done|].
        intros (_ & _ & [?|[?|(_ & ? & ? & [= <-] & [= <-] & ?)]]); [done|lia|lia].
      * apply Z.ltb_ge in Ht. split; [|done]. intros _. split_and!; [done|lia|].
        right. right. split; [done|]. exists a, b. split_and!; try done; lia.
    + split; [done|]. intros (_ & _ & [?|[?|(_ & ? & ? & _ & [=] & _)]]); [done|lia].
    + split; [done|]. intros (_ & _ & [?|[?|(_ & ? & ? & [=] & _)]]); [done|lia].
Qed.

Section Gate.
Context (reads : nat → UUID → option EligibilityCandidate)
        (ci : Z → pystr → pystr → provider_call pystr CiSnapshot) (own_app_id now : Z).

Definition ci_call (c : EligibilityCandidate) : provider_call pystr CiSnapshot :=
  ci (ec_installation_external_id c) (ec_repository_full_name c) (ec_head_sha c).

Lemma admitted_pinned c head installation :
  admitted c head installation →
  admitted c (ec_head_sha c) (Some (ec_installation_external_id c)).
Proof. intros (? & ? & ? & ? & ? & ?). split_and!; try done. by intros n [= <-]. Qed.

Lemma ci_checkpoint_spec c head installation n :
  admitted c head installation →
  (reads n (ec_code_change_id c) = Some c ∧ ci_checkpoint reads c n = (S n, Ok tt))
  ∨ (reads n (ec_code_change_id c) ≠ Some c
     ∧ ∃ d, ci_checkpoint reads c n = (S n, Err (Exc_changed d)) ∧ refusal d).
Proof.
  intros Ha%admitted_pinned. unfold ci_checkpoint, get_candidate, mbind, stateT_bind.
  destruct (decide (reads n (ec_code_change_id c) = Some c)) as [E|E].
  - left. split; [done|]. rewrite E, (proj2 (precheck_none _ _ _) (ex_intro _ c (conj eq_refl Ha))).
    by rewrite bool_decide_true.
  - right. split; [done|]. destruct (precheck _ _ _) as [d|] eqn:Hp.
    + exists d. split; [done|]. by eapply precheck_refuses.
    + rewrite bool_decide_false by done. by eexists.
Qed.

(** A call whose checkpoints all pass returns the provider's answer; otherwise it is refused. *)
Lemma run_checkpoints c head installation (call : provider_call pystr CiSnapshot) n :
  admitted c head installation →
  ((∀ i, (i < call_checkpoints call)%nat → reads (n + i)%nat (ec_code_change_id c) = Some c)
   ∧ run_call (ci_checkpoint reads c) (call_map_err Exc_ci_provider call) n
     = ((n + call_checkpoints call)%nat, map_err Exc_ci_provider (call_result call)))
  ∨ (∃ i, (i < call_checkpoints call)%nat ∧ reads (n + i)%nat (ec_code_change_id c) ≠ Some c)
    ∧ ∃ n' d, run_call (ci_checkpoint reads c) (call_map_err Exc_ci_provider call) n
              = (n', Err (Exc_changed d)) ∧ refusal d.
Proof.
  intros Ha. revert n. induction call as [r|rest IH]; intros n; cbn [call_map_err run_call].
  { left. split; [cbn; lia|]. by rewrite Nat.add_0_r. }
  unfold mbind, stateT_bind.
  destruct (ci_checkpoint_spec c head installation n Ha) as [[E ->]|[E (d & -> & Hd)]].
  2: { right. split; [|by exists (S n), d]. exists O. cbn. rewrite Nat.add_0_r. split; [lia|done]. }
  destruct (IH (S n)) as [[Hall ->]|[(i & Hi & Hr) H]]; cbn [call_checkpoints call_result].
  - left. split; [|by rewrite Nat.add_succ_r].
    intros [|i] Hi; [by rewrite Nat.add_0_r|].
    specialize (Hall i). rewrite Nat.add_succ_r. apply Hall. lia.
  - right. split; [|done]. exists (S i). rewrite Nat.add_succ_r. split; [lia|done].
Qed.
End Gate.

(** What the gate promises of the candidate it lets through. *)
Definition passes_gate (reads : nat → UUID → option EligibilityCandidate)
    (ci : Z → pystr → pystr → provider_call pystr CiSnapshot) (own_app_id now : Z)
    (id : UUID) (head : pystr) (installation : option Z) (c : EligibilityCandidate) : Prop :=
  admitted c head installation
  ∧ (ec_wait_for_ci c = Wait_never
     ∨ ∃ snapshot, call_result (ci_call ci c) = Ok snapshot
         ∧ (∀ i, (i ≤ S (call_checkpoints (ci_call ci c)))%nat → reads i id = Some c)
         ∧ sn_head_sha snapshot = head
         ∧ ci_passes own_app_id now c snapshot).

Lemma decide_ci_candidate own now c snapshot :
  ce_candidate (decide_ci own now c snapshot)
  = if ce_eligible (decide_ci own now c snapshot) then Some c else None.
Proof.
  unfold decide_ci. repeat case_match; done.
Qed.

(** The read after the provider's answer. *)
Lemma last_read_spec (reads : nat → UUID → option EligibilityCandidate) own_app_id now id head installation c snapshot (n : nat) :
  admitted c head installation →
  ∃ d, (match precheck (reads n id) head installation, reads n id with
        | Some decision, _ => mret decision
        | None, None => mret (refuse Reason_stale_state None)
        | None, Some c' =>
            if negb (bool_decide (c' = c)) || negb (sn_head_sha snapshot =?s ec_head_sha c)
            then mret (refuse (if ec_head_sha c' =?s ec_head_sha c then Reason_stale_state
                               else Reason_stale_head) (Some (ec_head_sha c')))
            else mret (decide_ci own_app_id now c snapshot)
        end : gating CiEligibility) (S n) = (S n, Ok d)
    ∧ (ce_eligible d = true ↔
       reads n id = Some c ∧ sn_head_sha snapshot = head ∧ ci_passes own_app_id now c snapshot)
    ∧ ce_candidate d = (if ce_eligible d then Some c else None).
Proof.
  intros Ha. pose proof Ha as (_ & _ & Hh & _).
  destruct (precheck (reads n id) head installation) as [d|] eqn:Hp.
  { exists d. destruct (precheck_refuses _ _ _ _ Hp) as [Hd ->]. rewrite Hd. split_and!; try done.
    split; [done|]. intros (Hr & _).
    by rewrite (proj2 (precheck_none _ _ _) (ex_intro _ c (conj Hr Ha))) in Hp. }
  apply precheck_none in Hp as (c' & -> & _).
  destruct (decide (c' = c)) as [->|Hne].
  2: { rewrite bool_decide_false by done. eexists. split_and!; try done. split; [done|]. intros ([=] & _). done. }
  rewrite bool_decide_true by done. cbn [negb orb].
  destruct (sn_head_sha snapshot =?s ec_head_sha c) eqn:Es; cbn [negb].
  - apply str_eqb_eq in Es. eexists. split; [done|]. split; [|apply decide_ci_candidate].
    rewrite decide_ci_eligible. split; [|by intros (_ & _ & ?)]. intros ?. split_and!; congruence.
  - apply str_eqb_neq in Es. eexists. split; [done|]. split; [|done]. split; [done|]. intros (_ & ? & _). congruence.
Qed.

(** ** Property *)

(** The gate lets a head through exactly when it should.  When GitHub answers, there is a
    decision; it is positive exactly when the first read sees an admitted candidate (open, labelled,
    enabled, the expected head and installation), and its repository waits for no CI, or every read
    of the call, before each of GitHub's requests and after them, saw that same candidate, the
    answer is about its head, and all its CI passes, with two minutes of patience for a head without
    CI.  A positive decision carries the candidate, a negative one none. *)
Theorem gate_eligible_iff reads ci own_app_id now id head installation :
  (∀ n c, reads n id = Some c → ec_code_change_id c = id) →
  (∀ c, reads 0%nat id = Some c → ∃ snapshot, call_result (ci_call ci c) = Ok snapshot) →
  ∃ n d, determine reads ci own_app_id now id head installation 0%nat = (n, Ok d)
    ∧ (ce_eligible d = true ↔
       ∃ c, reads 0%nat id = Some c ∧ passes_gate reads ci own_app_id now id head installation c)
    ∧ ce_candidate d = (if ce_eligible d then reads 0%nat id else None).
Proof.
  intros Hid Hans. unfold determine, get_candidate, mbind, stateT_bind, passes_gate.
  destruct (precheck (reads 0%nat id) head installation) as [d|] eqn:Hp.
  { destruct (precheck_refuses _ _ _ _ Hp) as [Hd Hn]. exists 1%nat, d. rewrite Hd, Hn.
    split_and!; try done. split; [done|]. intros (c & Hc & Ha & _).
    by rewrite (proj2 (precheck_none _ _ _) (ex_intro _ c (conj Hc Ha))) in Hp. }
  apply precheck_none in Hp as (c & Hc & Ha). rewrite Hc.
  destruct (Hans c Hc) as (snapshot & Hr). pose proof (Hid _ _ Hc) as Eid.
  destruct (decide (ec_wait_for_ci c = Wait_never)) as [Hw|Hw].
  { rewrite bool_decide_true by done. exists 1%nat, (admit_candidate c). split_and!; try done.
    split; [|done]. intros _. exists c. split_and!; try done. by left. }
  rewrite bool_decide_false by done. unfold current_head_ci. fold (ci_call ci c).
  destruct (run_checkpoints reads c head installation (ci_call ci c) 1 Ha)
    as [[Hall ->]|[(i & Hi & Hne) (n' & d & -> & Hd & Hn)]].
  2: { exists n', d. rewrite Hd, Hn. split_and!; try done. split; [done|].
       intros (c' & [= <-] & _ & [?|(s & _ & Hs & _)]); [done|].
       rewrite Eid in Hne. destruct Hne. apply Hs. lia. }
  rewrite Hr. cbn [map_err]. rewrite Eid in Hall.
  set (n := (1 + call_checkpoints (ci_call ci c))%nat) in *.
  destruct (last_read_spec reads own_app_id now id head installation c snapshot n Ha)
    as (d & -> & Hd & Hcand).
  exists (S n), d. split; [done|]. split; [|done]. rewrite Hd. split.
  - intros (Hlast & Hh & Hci). exists c. split_and!; try done. right. exists snapshot.
    split_and!; try done. intros i Hi. destruct (decide (i = n)) as [->|]; [done|].
    destruct i as [|i]; [done|]. apply Hall. lia.
  - intros (c' & [= <-] & _ & [?|(s & Es & Hs & ? & ?)]); [done|].
    rewrite Hr in Es. injection Es as <-. split_and!; try done. apply Hs. lia.
Qed.

(** ** Witness *)

Definition sample_candidate : EligibilityCandidate :=
  mkEligibilityCandidate 5 7 (u8 "org/repo") (u8 "abc") Pr_open true (Some true) (Some 0)
    (Some (seconds 60)) Wait_auto
    (Some (mkWebhookRunIdentity (u8 "github") 3 2 4 70 None None None None None)).

(** Two requests, then suites of this App and of another one. *)
Definition sample_ci (suites : list CheckSuite) (_ : Z) (_ head : pystr)
  : provider_call pystr CiSnapshot :=
  CallCheckpoint (CallCheckpoint (CallDone (Ok (mkCiSnapshot head suites (u8 "pending") 0)))).

Definition sample_suites : list CheckSuite :=
  [mkCheckSuite 99 (u8 "in_progress") None 1;
   mkCheckSuite 15 (u8 "completed") (Some (u8 "success")) 2].

Lemma gate_eligible_iff_witness :
  determine (λ _ _, Some sample_candidate) (sample_ci sample_suites) 99 0 5 (u8 "abc") (Some 7) 0%nat
  = (4%nat, Ok (admit_candidate sample_candidate))
  ∧ passes_gate (λ _ _, Some sample_candidate) (sample_ci sample_suites) 99 0 5 (u8 "abc") (Some 7)
      sample_candidate
  ∧ determine (λ n _, if (n =? 2)%nat then None else Some sample_candidate)
      (sample_ci sample_suites) 99 0 5 (u8 "abc") (Some 7) 0%nat
    = (3%nat, Ok (refuse Reason_unknown_pr None)).
Proof.
  split; [vm_compute; reflexivity|]. split; [|vm_compute; reflexivity].
  destruct (gate_eligible_iff (λ _ _, Some sample_candidate) (sample_ci sample_suites) 99 0 5
              (u8 "abc") (Some 7)) as (n & d & Hd & Hiff & _).
  - by intros _ c [= <-].
  - intros c _. by eexists.
  - assert (Ed : ce_eligible d = true).
    { enough ((n, @Ok CiExc _ d) = (4%nat, Ok (admit_candidate sample_candidate))) as [= _ ->];
        [done|]. rewrite <- Hd. vm_compute. reflexivity. }
    destruct (proj1 Hiff Ed) as (c & [= <-] & H). exact H.
Defined.
