(* ===== verification/Enqueue.v ===== *)
(** * Creating runs and sending their pointers

    [try_enqueue_webhook_run.py], [rerun_run.py], [publish_cancellation_signals.py],
    [sweep_no_ci.py] and [trigger_from_delivery.py], over the tables of
    [infrastructure/webhook_runs.py], [rerun_store.py], [ci_eligibility_candidates.py],
    [no_ci_sweep_candidates.py] and [webhook_run_targets.py].  A run is inserted and committed first;
    its message is then sent, and marked as sent only when the broker has confirmed it.  Between two
    transactions of a call others may run: the argument [env] says what they do. *)

From Stdlib Require Import String QArith.
From stdpp Require Import numbers gmap.
From S2P Require Import Prelude PyText PyHash DiffMap Verdict RunFailures RunStore GithubProjection.
From S2P Require Import Eligibility.
#[local] Open Scope Z_scope.

(** ** Rows *)

(** [ProviderInstallation] *)
Record InstallationRecord : Type := mkInstallationRecord {
  il_provider : pystr;
  il_external_id : Z;
  il_workspace_id : UUID;
  il_account_external_id : option Z;
  il_deleted : bool
}.

(** [Repository] *)
Record RepositoryRecord : Type := mkRepositoryRecord {
  rp_provider_installation_id : UUID;
  rp_external_id : Z;
  rp_full_name : pystr;
  rp_enabled : bool;
  rp_installation_available : bool;
  rp_wait_for_ci : CiWaitMode;
  rp_default_engine : Engine;
  rp_severity_threshold : SeverityThreshold;
  rp_max_comments : Z;
  rp_prompt_version_id : option UUID
}.

Record RuleVersionRow : Type := mkRuleVersionRow {
  rv_id : UUID; rv_repository_id : UUID; rv_is_active : bool
}.
Record PromptVersionRow : Type := mkPromptVersionRow {
  pv_id : UUID; pv_key : pystr; pv_is_active : bool
}.

(** A stored webhook delivery, as far as its author is looked up. *)
Record WebhookReceipt : Type := mkWebhookReceipt {
  wr_event : pystr;
  wr_action : option pystr;
  wr_installation_external_id : Z;
  wr_repository : option pystr;
  wr_pull_head : option pystr;
  wr_push_after : option pystr;
  wr_sender_login : option pystr;
  wr_received_at : Z
}.

Inductive RunTrigger : Type := Trigger_webhook | Trigger_manual | Trigger_rerun | Trigger_dry_run.
#[export] Instance RunTrigger_eq_dec : EqDecision RunTrigger.
Proof. solve_decision. Defined.

(** The columns of [runs] that are written when the run is created or its pointer is sent. *)
Record RunMeta : Type := mkRunMeta {
  rm_trigger : RunTrigger;
  rm_idempotency_key : pystr;
  rm_base_ref : option pystr;
  rm_rule_version_id : UUID;
  rm_prompt_version_id : UUID;
  rm_severity_threshold : SeverityThreshold;
  rm_max_comments : Z;
  rm_conventions_prompt_version_id : option UUID;
  rm_verifier_prompt_version_id : option UUID;
  rm_triggered_by : option pystr;
  rm_created_at : Z;
  rm_message_published_at : option Z;
  rm_signal_published_at : option Z
}.

Record BitbucketRunOrigin : Type := mkBitbucketRunOrigin {
  bo_workspace_id : UUID;
  bo_provider_installation_id : UUID;
  bo_repository_id : UUID;
  bo_repository_uuid : UUID;
  bo_binding_generation : Z;
  bo_credential_generation : Z;
  bo_pr_number : Z;
  bo_head_sha : pystr
}.

(** The database of these transactions: the runs of [RunStore] with their other columns. *)
Record EnqDb : Type := mkEnqDb {
  q_runs : Db;
  q_meta : gmap UUID RunMeta;
  q_origins : gmap UUID BitbucketRunOrigin;
  q_prs : gmap UUID PullRequestRecord;
  q_repositories : gmap UUID RepositoryRecord;
  q_installations : gmap UUID InstallationRecord;
  q_rules : list RuleVersionRow;
  q_prompts : list PromptVersionRow;
  q_receipts : list WebhookReceipt
}.

Definition with_runs (runs : Db) (meta : gmap UUID RunMeta) (d : EnqDb) : EnqDb :=
  mkEnqDb runs meta (q_origins d) (q_prs d) (q_repositories d) (q_installations d) (q_rules d)
    (q_prompts d) (q_receipts d).
Definition with_prs (prs : gmap UUID PullRequestRecord) (d : EnqDb) : EnqDb :=
  mkEnqDb (q_runs d) (q_meta d) (q_origins d) prs (q_repositories d) (q_installations d) (q_rules d)
    (q_prompts d) (q_receipts d).
Definition with_origin (id : UUID) (o : BitbucketRunOrigin) (d : EnqDb) : EnqDb :=
  mkEnqDb (q_runs d) (q_meta d) (<[id := o]> (q_origins d)) (q_prs d) (q_repositories d)
    (q_installations d) (q_rules d) (q_prompts d) (q_receipts d).

(** A pull request joined with its repository and that repository's installation. *)
Definition join_pr (d : EnqDb) (id : UUID)
  : option (PullRequestRecord * RepositoryRecord * InstallationRecord) :=
  pr ← q_prs d !! id;
  repository ← q_repositories d !! pr_repository_id pr;
  installation ← q_installations d !! rp_provider_installation_id repository;
  Some (pr, repository, installation).

(** ** The candidate of a GitHub pull request

    The external id of a stored repository is a positive 64-bit number, so the identity of the
    gate's read is always constructed; the locked read tests it. *)
Definition github_candidate (id : UUID) (pr : PullRequestRecord) (repository : RepositoryRecord)
    (installation : InstallationRecord) : EligibilityCandidate :=
  mkEligibilityCandidate id (il_external_id installation) (rp_full_name repository) (pr_head_sha pr)
    (pr_state pr)
    (rp_enabled repository && rp_installation_available repository && negb (il_deleted installation))
    (Some (pr_ai_review_labeled pr)) (pr_ai_review_labeled_at pr) (pr_head_first_seen_at pr)
    (rp_wait_for_ci repository)
    (Some (mkWebhookRunIdentity (u8 "github") (rp_provider_installation_id repository)
             (il_workspace_id installation) (pr_repository_id pr) (rp_external_id repository)
             None None None None None)).

(** [SqlAlchemyEligibilityCandidateStore.get] *)
Definition eligibility_get (d : EnqDb) (id : UUID) : option EligibilityCandidate :=
  match join_pr d id with
  | Some (pr, repository, installation) =>
      if il_provider installation =?s u8 "github"
      then Some (github_candidate id pr repository installation) else None
  | None => None
  end.

(** ** The locked candidate *)

Inductive CandidateMiss : Type :=
| Pull_request_gone | Repository_gone | Missing_installation | Missing_rules | Missing_prompt.
#[export] Instance CandidateMiss_eq_dec : EqDecision CandidateMiss.
Proof. solve_decision. Defined.

Definition CandidateMiss_value (m : CandidateMiss) : pystr :=
  match m with
  | Pull_request_gone => u8 "pull_request_gone"
  | Repository_gone => u8 "repository_gone"
  | Missing_installation => u8 "missing_installation"
  | Missing_rules => u8 "missing_rules"
  | Missing_prompt => u8 "missing_prompt"
  end.

Record RunInsertCandidate : Type := mkRunInsertCandidate {
  rc_ci : EligibilityCandidate;
  rc_origin_provider_installation_id : UUID;
  rc_repository_id : UUID;
  rc_workspace_id : UUID;
  rc_repository_external_id : Z;
  rc_pr_number : Z;
  rc_base_sha : pystr;
  rc_base_ref : pystr;
  rc_engine : Engine;
  rc_rule_version_id : UUID;
  rc_prompt_version_id : UUID;
  rc_severity_threshold : SeverityThreshold;
  rc_max_comments : Z;
  rc_conventions_prompt_version_id : option UUID;
  rc_verifier_prompt_version_id : option UUID;
  rc_provider : pystr
}.

(** The rows a provider's branch of [lock_candidate] has locked; [lr_ci] is the candidate that the
    GitLab and Bitbucket branches build themselves. *)
Record LockedRows : Type := mkLockedRows {
  lr_ci : option EligibilityCandidate;
  lr_pr : PullRequestRecord;
  lr_repository_id : UUID;
  lr_repository : RepositoryRecord;
  lr_installation_id : UUID;
  lr_installation : InstallationRecord
}.

Inductive EnqExc : Type :=
| Enq_identity
| Enq_bitbucket_identity
| Enq_encode
| Enq_integrity
| Enq_gate (e : CiExc).

Definition active_rule (d : EnqDb) (repository_id : UUID) : option UUID :=
  rv_id <$> find_first (λ r, (rv_repository_id r =? repository_id)%N && rv_is_active r) (q_rules d).
Definition active_prompt (d : EnqDb) (key : pystr) : option UUID :=
  pv_id <$> find_first (λ p, (pv_key p =?s key) && pv_is_active p) (q_prompts d).

Definition provider_of (d : EnqDb) (id : UUID) : option pystr :=
  match join_pr d id with
  | Some (_, _, installation) => Some (il_provider installation)
  | None => None
  end.

(** The branch for GitHub, and for a pull request whose provider is not known. *)
Definition lock_github (d : EnqDb) (id : UUID) : CandidateMiss + LockedRows :=
  match q_prs d !! id with
  | None => inl Pull_request_gone
  | Some pr =>
      match q_repositories d !! pr_repository_id pr with
      | None => inl Repository_gone
      | Some repository =>
          match q_installations d !! rp_provider_installation_id repository with
          | None => inl Missing_installation
          | Some installation =>
              if negb (il_provider installation =?s u8 "github") then inl Missing_installation
              else inr (mkLockedRows None pr (pr_repository_id pr) repository
                          (rp_provider_installation_id repository) installation)
          end
      end
  end.

Definition other_provider (p : pystr) : bool := str_mem p [u8 "gitlab"; u8 "bitbucket"].

(** Rules and prompts, then the candidate. *)
Definition configured_candidate (d : EnqDb) (id : UUID) (provider : pystr) (rows : LockedRows)
  : result EnqExc (CandidateMiss + RunInsertCandidate) :=
  let pr := lr_pr rows in
  let repository := lr_repository rows in
  let installation := lr_installation rows in
  match active_rule d (lr_repository_id rows) with
  | None => Ok (inl Missing_rules)
  | Some rule =>
      match match rp_prompt_version_id repository with
            | Some p => Some p
            | None => active_prompt d (u8 "review.system")
            end with
      | None => Ok (inl Missing_prompt)
      | Some prompt =>
          raise_when (absent (lr_ci rows) && negb (bigint (rp_external_id repository))) Enq_identity;;
          Ok (inr (mkRunInsertCandidate
            (default (github_candidate id pr repository installation) (lr_ci rows))
            (lr_installation_id rows) (lr_repository_id rows)
            (il_workspace_id installation) (rp_external_id repository) (pr_external_number pr)
            (md_base_sha (pr_metadata pr)) (md_target_branch (pr_metadata pr))
            (rp_default_engine repository) rule prompt
            (rp_severity_threshold repository) (rp_max_comments repository)
            (active_prompt d (u8 "review.conventions")) (active_prompt d (u8 "review.verifier"))
            (if other_provider provider then provider else u8 "github")))
      end
  end.

Section Store.
(** [_lock_gitlab] and [_lock_bitbucket], the latter with [allow_unconfirmed_bitbucket]. *)
Context (lock_other : bool → EnqDb → UUID → (CandidateMiss + LockedRows)%type).

Definition lock_candidate (allow_unconfirmed : bool) (d : EnqDb) (id : UUID)
  : result EnqExc (CandidateMiss + RunInsertCandidate) :=
  let provider := default [] (provider_of d id) in
  match (if other_provider provider then lock_other allow_unconfirmed d id else lock_github d id) with
  | inl miss => Ok (inl miss)
  | inr rows => configured_candidate d id provider rows
  end.
End Store.

(** ** Inserting a run *)

Record PendingRunMessage : Type := mkPendingRunMessage {
  pm_run_id : UUID;
  pm_workspace_id : UUID;
  pm_installation_id : Z;
  pm_repository_id : UUID;
  pm_repository_external_id : Z;
  pm_repository_full_name : pystr;
  pm_pr_number : Z;
  pm_head_sha : pystr;
  pm_base_sha : pystr;
  pm_base_ref : pystr;
  pm_engine : Engine;
  pm_rule_version_id : UUID;
  pm_prompt_version_id : UUID;
  pm_attempt : Z;
  pm_requested_at : Z;
  pm_provider : pystr;
  pm_trigger : RunTrigger
}.

(** [PendingRunMessage.from_candidate]; a webhook message has the trigger of [message_trigger]. *)
Definition from_candidate (run_id : UUID) (c : RunInsertCandidate) (requested_at : Z)
    (trigger : RunTrigger) : PendingRunMessage :=
  mkPendingRunMessage run_id (rc_workspace_id c) (ec_installation_external_id (rc_ci c))
    (rc_repository_id c) (rc_repository_external_id c) (ec_repository_full_name (rc_ci c))
    (rc_pr_number c) (ec_head_sha (rc_ci c)) (rc_base_sha c) (rc_base_ref c) (rc_engine c)
    (rc_rule_version_id c) (rc_prompt_version_id c) 1 requested_at (rc_provider c) trigger.

Inductive DuplicateReason : Type := Active_run | Head_already_reviewed.

Definition DuplicateReason_value (r : DuplicateReason) : pystr :=
  match r with
  | Active_run => u8 "active_run"
  | Head_already_reviewed => u8 "head_already_reviewed"
  end.

Record ActiveRunBlocker : Type := mkActiveRunBlocker {
  ab_head_sha : pystr; ab_cancel_requested : bool
}.

Inductive InsertResult : Type :=
| Inserted (m : PendingRunMessage)
| Duplicate (r : DuplicateReason)
| Blocked (b : ActiveRunBlocker).

(** The first active run of a pull request. *)
Definition active_run (d : EnqDb) (code_change_id : UUID) : option Run :=
  snd <$> find_first (λ kv, active (run_state (snd kv))
                            && (pin_code_change_id (run_pinned (snd kv)) =? code_change_id)%N)
            (map_to_list (db_runs (q_runs d))).

Definition receipt_of (c : RunInsertCandidate) (r : WebhookReceipt) : bool :=
  (wr_installation_external_id r =? ec_installation_external_id (rc_ci c))
  && ostr_eqb (wr_repository r) (Some (str_of_Z (rc_repository_external_id c)))
  && (((wr_event r =?s u8 "pull_request") && ostr_eqb (wr_action r) (Some (u8 "synchronize"))
       && ostr_eqb (wr_pull_head r) (Some (ec_head_sha (rc_ci c))))
      || ((wr_event r =?s u8 "push") && ostr_eqb (wr_push_after r) (Some (ec_head_sha (rc_ci c))))).

(** The sender of the latest delivery that brought this head. *)
Definition push_author (d : EnqDb) (c : RunInsertCandidate) : option pystr :=
  if negb (rc_provider c =?s u8 "github") then None
  else match py_sorted (λ a b, wr_received_at b <=? wr_received_at a)
               (List.filter (receipt_of c) (q_receipts d)) with
       | r :: _ => wr_sender_login r
       | [] => None
       end.

Definition webhook_key (code_change_id : UUID) (head_sha : pystr) : result EnqExc pystr :=
  match utf8_encode (u8 "webhook:" ++ str_of_uuid code_change_id ++ u8 ":" ++ head_sha) with
  | Some bytes => Ok (sha256_hex bytes)
  | None => Err Enq_encode
  end.

(** The unique constraints a new webhook run may violate: its key, and one webhook run for each
    head of a pull request. *)
Definition webhook_conflict (d : EnqDb) (key : pystr) (code_change_id : UUID) (head_sha : pystr)
  : bool :=
  existsb (λ kv, (rm_idempotency_key (snd kv) =?s key)
                 || (bool_decide (rm_trigger (snd kv) = Trigger_webhook)
                     && match db_runs (q_runs d) !! fst kv with
                        | Some r => (pin_code_change_id (run_pinned r) =? code_change_id)%N
                                    && (run_head_sha r =?s head_sha)
                        | None => false
                        end))
    (map_to_list (q_meta d)).

Definition candidate_pinned (code_change_id : UUID) (c : RunInsertCandidate) : Pinned :=
  mkPinned code_change_id (Some (rc_origin_provider_installation_id c)) (rc_base_sha c)
    (ec_head_sha (rc_ci c)) (rc_engine c).

Definition new_meta (c : RunInsertCandidate) (trigger : RunTrigger) (key : pystr)
    (login : option pystr) (now : Z) : RunMeta :=
  mkRunMeta trigger key (Some (rc_base_ref c)) (rc_rule_version_id c) (rc_prompt_version_id c)
    (rc_severity_threshold c) (rc_max_comments c) (rc_conventions_prompt_version_id c)
    (rc_verifier_prompt_version_id c) login now None None.

(** [BitbucketRunOrigin] of a new run *)
Definition add_bitbucket_origin (id : UUID) (c : RunInsertCandidate) (d : EnqDb)
  : result EnqExc EnqDb :=
  if negb (rc_provider c =?s u8 "bitbucket") then Ok d
  else match ec_identity (rc_ci c) with
       | Some i =>
           match wi_repository_uuid i, wi_binding_generation i, wi_credential_generation i with
           | Some uuid, Some binding, Some credential =>
               Ok (with_origin id
                     (mkBitbucketRunOrigin (wi_workspace_id i)
                        (wi_origin_provider_installation_id i) (wi_repository_id i) uuid binding
                        credential (rc_pr_number c) (ec_head_sha (rc_ci c))) d)
           | _, _, _ => Err Enq_bitbucket_identity
           end
       | None => Err Enq_bitbucket_identity
       end.

(** [insert_webhook_run] with the notification that [execute] sends in the same transaction.
    [fresh] is the new id; [triggered_by] is [None] for [UNSET]. *)
Definition insert_webhook_run (d : EnqDb) (c : RunInsertCandidate) (now : Z) (fresh : UUID)
    (triggered_by : option (option pystr)) : result EnqExc (EnqDb * InsertResult) :=
  let code_change_id := ec_code_change_id (rc_ci c) in
  match active_run d code_change_id with
  | Some r => Ok (d, Blocked (mkActiveRunBlocker (run_head_sha r) (run_cancel_requested r)))
  | None =>
      let login := match triggered_by with Some t => t | None => push_author d c end in
      key ← webhook_key code_change_id (ec_head_sha (rc_ci c));
      let conflict := webhook_conflict d key code_change_id (ec_head_sha (rc_ci c)) in
      match insert_run fresh (candidate_pinned code_change_id c) now conflict (q_runs d) with
      | (_, false) => Ok (d, Duplicate Head_already_reviewed)
      | (runs, true) =>
          let d1 := with_runs runs (<[fresh := new_meta c Trigger_webhook key login now]> (q_meta d)) d in
          d2 ← add_bitbucket_origin fresh c d1;
          Ok (d2, Inserted (from_candidate fresh c now Trigger_webhook))
      end
  end.

(** ** Pointers that were not sent yet *)

(** A run with its pull request, that one's repository, and the installation the run began with. *)
Definition join_run (d : EnqDb) (r : Run)
  : option (PullRequestRecord * RepositoryRecord * InstallationRecord) :=
  pr ← q_prs d !! pin_code_change_id (run_pinned r);
  repository ← q_repositories d !! pr_repository_id pr;
  origin ← pin_origin (run_pinned r);
  installation ← q_installations d !! origin;
  Some (pr, repository, installation).

Definition stored_message (id : UUID) (r : Run) (m : RunMeta) (pr : PullRequestRecord)
    (repository : RepositoryRecord) (installation : InstallationRecord) (requested_at : Z)
    (trigger : RunTrigger) : PendingRunMessage :=
  mkPendingRunMessage id (il_workspace_id installation) (il_external_id installation)
    (pr_repository_id pr) (rp_external_id repository) (rp_full_name repository)
    (pr_external_number pr) (run_head_sha r) (pin_base_sha (run_pinned r))
    (match rm_base_ref m with
     | Some ((_ :: _) as base_ref) => base_ref
     | _ => md_target_branch (pr_metadata pr)
     end) (pin_engine (run_pinned r)) (rm_rule_version_id m) (rm_prompt_version_id m)
    (run_attempt r + 1) requested_at (il_provider installation) trigger.

(** The conditions of [pending_messages]; [has_pointer] has those of the run's origin. *)
Definition pending_row (d : EnqDb) (id : UUID) (r : Run) (m : RunMeta) (pr : PullRequestRecord)
    (repository : RepositoryRecord) (installation : InstallationRecord) : bool :=
  has_pointer (q_runs d) id
  && bool_decide (rm_trigger m = Trigger_webhook) && bool_decide (run_state r = Queued)
  && absent (rm_message_published_at m) && negb (absent (rm_base_ref m))
  && negb (run_cancel_requested r)
  && bool_decide (pr_state pr = Pr_open) && (pr_head_sha pr =?s run_head_sha r)
  && rp_enabled repository && rp_installation_available repository
  && (((il_provider installation =?s u8 "github") && pr_ai_review_labeled pr)
      || ((il_provider installation =?s u8 "gitlab")
          && bool_decide (rp_wait_for_ci repository = Wait_never))
      || ((il_provider installation =?s u8 "bitbucket")
          && bool_decide (rp_wait_for_ci repository = Wait_never))).

(** A pending row of a query with its sort key, the time and the id. *)
Definition pending_entry (d : EnqDb) (kv : UUID * RunMeta) : option (Z * UUID * PendingRunMessage) :=
  r ← db_runs (q_runs d) !! fst kv;
  '(pr, repository, installation) ← join_run d r;
  if pending_row d (fst kv) r (snd kv) pr repository installation
  then Some (rm_created_at (snd kv), fst kv,
             stored_message (fst kv) r (snd kv) pr repository installation (rm_created_at (snd kv))
               Trigger_webhook)
  else None.

Definition entry_leb (a b : Z * UUID * PendingRunMessage) : bool :=
  let '(ta, ia, _) := a in let '(tb, ib, _) := b in
  (ta <? tb) || ((ta =? tb) && (ia <=? ib)%N).

Definition pending_messages (d : EnqDb) (limit : nat) : list PendingRunMessage :=
  snd <$> take limit (py_sorted entry_leb (omap (pending_entry d) (map_to_list (q_meta d)))).

Definition set_published (now : Z) (m : RunMeta) : RunMeta :=
  mkRunMeta (rm_trigger m) (rm_idempotency_key m) (rm_base_ref m) (rm_rule_version_id m)
    (rm_prompt_version_id m) (rm_severity_threshold m) (rm_max_comments m)
    (rm_conventions_prompt_version_id m) (rm_verifier_prompt_version_id m) (rm_triggered_by m)
    (rm_created_at m) (Some now) (rm_signal_published_at m).

Definition set_signal_published (now : Z) (m : RunMeta) : RunMeta :=
  mkRunMeta (rm_trigger m) (rm_idempotency_key m) (rm_base_ref m) (rm_rule_version_id m)
    (rm_prompt_version_id m) (rm_severity_threshold m) (rm_max_comments m)
    (rm_conventions_prompt_version_id m) (rm_verifier_prompt_version_id m) (rm_triggered_by m)
    (rm_created_at m) (rm_message_published_at m) (Some now).

Definition mark_published (d : EnqDb) (id : UUID) (now : Z) : EnqDb :=
  match q_meta d !! id with
  | Some m =>
      if bool_decide (rm_trigger m = Trigger_webhook) && absent (rm_message_published_at m)
      then with_runs (q_runs d) (<[id := set_published now m]> (q_meta d)) d else d
  | None => d
  end.

Definition mark_rerun_published (d : EnqDb) (id : UUID) (now : Z) : EnqDb :=
  match q_meta d !! id with
  | Some m =>
      if absent (rm_message_published_at m)
      then with_runs (q_runs d) (<[id := set_published now m]> (q_meta d)) d else d
  | None => d
  end.

(** [pending_cancellation_signals] *)
Definition signal_pending (r : Run) (m : RunMeta) : bool :=
  bool_decide (run_state r = Cancelled) && (1 <=? run_attempt r)
  && negb (absent (run_signal_requested_at r)) && absent (rm_signal_published_at m).

Definition signal_entry (d : EnqDb) (run_ids : option (list UUID)) (kv : UUID * RunMeta)
  : option (Z * UUID * PendingRunMessage) :=
  r ← db_runs (q_runs d) !! fst kv;
  '(pr, repository, installation) ← join_run d r;
  requested ← run_signal_requested_at r;
  if signal_pending r (snd kv) && has_pointer (q_runs d) (fst kv)
     && match run_ids with
        | Some ids => bool_decide (fst kv ∈ ids)
        | None => true
        end
  then Some (requested, fst kv,
             stored_message (fst kv) r (snd kv) pr repository installation requested
               (rm_trigger (snd kv)))
  else None.

Definition pending_cancellation_signals (d : EnqDb) (limit : nat) (run_ids : option (list UUID))
  : list PendingRunMessage :=
  match run_ids with
  | Some [] => []
  | _ => snd <$> take limit
           (py_sorted entry_leb (omap (signal_entry d run_ids) (map_to_list (q_meta d))))
  end.

Definition mark_cancellation_signal_published (d : EnqDb) (id : UUID) (now : Z) : EnqDb :=
  match db_runs (q_runs d) !! id, q_meta d !! id with
  | Some r, Some m =>
      if signal_pending r m
      then with_runs (q_runs d) (<[id := set_signal_published now m]> (q_meta d)) d else d
  | _, _ => d
  end.

(** ** The use cases *)

Inductive EnqueueStatus : Type :=
| Enqueued | Publication_pending | Ineligible | Unconfigured | Stale | DuplicateRun | Deferred.
#[export] Instance EnqueueStatus_eq_dec : EqDecision EnqueueStatus.
Proof. solve_decision. Defined.

Definition EnqueueStatus_value (s : EnqueueStatus) : pystr :=
  match s with
  | Enqueued => u8 "enqueued"
  | Publication_pending => u8 "publication_pending"
  | Ineligible => u8 "ineligible"
  | Unconfigured => u8 "unconfigured"
  | Stale => u8 "stale"
  | DuplicateRun => u8 "duplicate"
  | Deferred => u8 "deferred"
  end.

Record EnqueueResult : Type := mkEnqueueResult {
  es_status : EnqueueStatus;
  es_run_id : option UUID;
  es_reason : option pystr;
  es_detail : option pystr
}.

Definition STATE_CHANGED_REASON : pystr := u8 "state_changed".
Definition UNCONFIGURED : list CandidateMiss :=
  [Missing_installation; Missing_rules; Missing_prompt].

Definition describe_enqueue (code_change_id : UUID) (head_sha : pystr) (r : EnqueueResult) : pystr :=
  u8 "pr=" ++ str_of_uuid code_change_id ++ u8 " head=" ++ take 7 head_sha ++ u8 ": "
  ++ EnqueueStatus_value (es_status r)
  ++ match es_reason r, es_detail r with
     | Some reason, Some detail => u8 " (" ++ reason ++ u8 ": " ++ detail ++ u8 ")"
     | Some reason, None => u8 " (" ++ reason ++ u8 ")"
     | None, _ => []
     end
  ++ match es_run_id r with
     | Some id => u8 " run=" ++ str_of_uuid id
     | None => []
     end.

Definition consistent_identity (c : RunInsertCandidate) (expected : option WebhookRunIdentity) : bool :=
  if negb (bigint (rc_repository_external_id c)) then false
  else match ec_identity (rc_ci c) with
       | None => (rc_provider c =?s u8 "github") && absent expected
       | Some i =>
           match expected with Some e => bool_decide (i = e) | None => true end
           && (rc_provider c =?s wi_provider i)
           && (rc_origin_provider_installation_id c =? wi_origin_provider_installation_id i)%N
           && (rc_workspace_id c =? wi_workspace_id i)%N
           && (rc_repository_id c =? wi_repository_id i)%N
           && (rc_repository_external_id c =? wi_repository_external_id i)
       end.

(** The state of a call: the database, the messages the broker confirmed, and how many steps it
    took. *)
Record World : Type := mkWorld {
  w_db : EnqDb;
  w_sent : list PendingRunMessage;
  w_steps : nat
}.

Section UseCases.
Context (lock_other : bool → EnqDb → UUID → (CandidateMiss + LockedRows)%type)
        (gate : UUID → pystr → option Z → result CiExc CiEligibility)
        (confirms : nat → PendingRunMessage → bool)
        (env : nat → EnqDb → EnqDb) (now : nat → Z) (fresh : nat → UUID).

(** The transaction of [TryEnqueueWebhookRun.execute], after an eligible decision. *)
Definition enqueue_txn (w : World) (candidate : EligibilityCandidate) (id : UUID)
    (expected_installation : option Z) (expected_identity : option WebhookRunIdentity)
    (triggered_by : option (option pystr))
  : result EnqExc (EnqDb * (EnqueueResult + PendingRunMessage)) :=
  let d := w_db w in
  locked ← lock_candidate lock_other false d id;
  match locked with
  | inl miss =>
      Ok (d, inl (mkEnqueueResult
                    (if bool_decide (miss ∈ UNCONFIGURED) then Unconfigured else Stale) None
                    (Some (CandidateMiss_value miss)) None))
  | inr c =>
      if negb (bool_decide (rc_ci c = candidate))
         || negb (consistent_identity c expected_identity)
         || match expected_installation with
            | Some n => negb (ec_installation_external_id (rc_ci c) =? n)
            | None => false
            end
      then Ok (d, inl (mkEnqueueResult Stale None (Some STATE_CHANGED_REASON) None))
      else
        '(d', inserted) ← insert_webhook_run d c (now (w_steps w)) (fresh (w_steps w)) triggered_by;
        match inserted with
        | Blocked b =>
            Ok (d, inl (mkEnqueueResult
              (if negb (ab_head_sha b =?s ec_head_sha (rc_ci c)) && ab_cancel_requested b
               then Deferred else DuplicateRun) None (Some (DuplicateReason_value Active_run)) None))
        | Duplicate reason =>
            Ok (d, inl (mkEnqueueResult DuplicateRun None (Some (DuplicateReason_value reason)) None))
        | Inserted m => Ok (d', inr m)
        end
  end.

(** [_publish_and_mark]: the row is marked in a transaction of its own, after the confirmation. *)
Definition publish_and_mark (w : World) (m : PendingRunMessage) : World * bool :=
  let n := w_steps w in
  let d := env n (w_db w) in
  if confirms n m
  then (mkWorld (mark_published d (pm_run_id m) (now n)) (w_sent w ++ [m]) (S n), true)
  else (mkWorld d (w_sent w) (S n), false).

Definition unchanged (w : World) (r : EnqueueResult) : World * result EnqExc EnqueueResult :=
  (w, Ok r).

Definition try_enqueue (w : World) (id : UUID) (head : pystr) (expected_installation : option Z)
    (expected_identity : option WebhookRunIdentity) (triggered_by : option (option pystr))
  : World * result EnqExc EnqueueResult :=
  match gate id head expected_installation with
  | Err e => (w, Err (Enq_gate e))
  | Ok decision =>
      match ce_eligible decision, ce_candidate decision with
      | true, Some candidate =>
          if match expected_identity with
             | Some i => negb (bool_decide (ec_identity candidate = Some i))
             | None => false
             end
          then unchanged w (mkEnqueueResult Stale None (Some STATE_CHANGED_REASON) None)
          else
            match enqueue_txn w candidate id expected_installation expected_identity triggered_by with
            | Err e => (w, Err e)
            | Ok (_, inl r) => unchanged w r
            | Ok (d', inr m) =>
                let '(w', confirmed) :=
                  publish_and_mark (mkWorld d' (w_sent w) (S (w_steps w))) m in
                (w', Ok (mkEnqueueResult (if confirmed then Enqueued else Publication_pending)
                           (Some (pm_run_id m)) None None))
            end
      | _, _ =>
          unchanged w (mkEnqueueResult Ineligible None
                         (Some (EligibilityReason_value (ce_reason decision))) (ce_detail decision))
      end
  end.

Fixpoint publish_all (w : World) (ms : list PendingRunMessage) : World * nat :=
  match ms with
  | [] => (w, O)
  | m :: ms' =>
      let '(w1, confirmed) := publish_and_mark w m in
      let '(w2, n) := publish_all w1 ms' in
      (w2, if confirmed then S n else n)
  end.

(** [PublishCancellationSignals._publish] *)
Fixpoint publish_signals (w : World) (ms : list PendingRunMessage) : World * nat :=
  match ms with
  | [] => (w, O)
  | m :: ms' =>
      let n := w_steps w in
      let d := env n (w_db w) in
      if confirms n m then
        let '(w2, k) := publish_signals
          (mkWorld (mark_cancellation_signal_published d (pm_run_id m) (now n)) (w_sent w ++ [m])
             (S n)) ms' in
        (w2, S k)
      else publish_signals (mkWorld d (w_sent w) (S n)) ms'
  end.

Definition publish_for (w : World) (run_ids : list UUID) : World * nat :=
  match run_ids with
  | [] => (w, O)
  | _ => publish_signals w
           (pending_cancellation_signals (w_db w) (length run_ids) (Some run_ids))
  end.

Definition replay_pending (w : World) (limit : nat) : World * nat :=
  publish_signals w (pending_cancellation_signals (w_db w) limit None).

(** [signals] is whether a signal publisher is configured. *)
Definition replay_pending_publications (signals : bool) (w : World) (limit : nat) : World * nat :=
  let '(w1, k) := if signals then replay_pending w limit else (w, O) in
  let '(w2, n) := publish_all w1 (pending_messages (w_db w1) limit) in
  (w2, (k + n)%nat).
End UseCases.
