(* ===== verification/EnqueueFacts.v ===== *)
(** * What enqueueing guarantees

    The theorems of [Enqueue].  [EligibilityGate] is what [TryEnqueueWebhookRun] relies on of its
    checker; [DetermineCiEligibility] meets it. *)

From Stdlib Require Import String QArith.
From stdpp Require Import numbers gmap.
From S2P Require Import Prelude PyText PyHash DiffMap Verdict RunFailures RunStore GithubProjection.
From S2P Require Import Eligibility Enqueue.
#[local] Open Scope Z_scope.

(** ** The interface of the gate *)

(** An eligible decision is about the pull request and the head it was asked for, which is open and
    may be reviewed; [accepts] is what the provider asks for in addition. *)
Class EligibilityGate (gate : UUID → pystr → option Z → result CiExc CiEligibility)
    (accepts : EligibilityCandidate → Prop) : Prop :=
  gate_admits : ∀ id head installation d c,
    gate id head installation = Ok d → ce_eligible d = true → ce_candidate d = Some c →
    ec_code_change_id c = id ∧ ec_head_sha c = head ∧ ec_state c = Pr_open
    ∧ ec_repository_enabled c = true
    ∧ (∀ n, installation = Some n → ec_installation_external_id c = n) ∧ accepts c.

(** On GitHub the label asks for the review. *)
Definition labelled (c : EligibilityCandidate) : Prop :=
  ec_ai_review_labeled c = Some true ∧ ∀ i, ec_identity c = Some i → wi_provider i = u8 "github".

(** [DetermineCiEligibility.execute] as the checker, over the reads of one call. *)
Definition github_gate (reads : nat → UUID → option EligibilityCandidate)
    (ci : Z → pystr → pystr → provider_call pystr CiSnapshot) (own_app_id now : Z)
    (id : UUID) (head : pystr) (installation : option Z) : result CiExc CiEligibility :=
  snd (determine reads ci own_app_id now id head installation 0%nat).

Lemma determine_admits reads ci own now id head installation n n' d c :
  determine reads ci own now id head installation n = (n', Ok d) →
  ce_eligible d = true → ce_candidate d = Some c →
  reads n id = Some c ∧ admitted c head installation.
Proof.
  unfold determine, get_candidate, mbind, stateT_bind.
  destruct (precheck (reads n id) head installation) as [d0|] eqn:Hp.
  { intros [= <- <-]. destruct (precheck_refuses _ _ _ _ Hp). congruence. }
  apply precheck_none in Hp as (c0 & -> & Ha).
  destruct (bool_decide (ec_wait_for_ci c0 = Wait_never)).
  { intros [= <- <-] _ [= <-]. done. }
  destruct (current_head_ci reads ci c0 (S n)) as [n1 [[d1|snapshot]|e]] eqn:Ec; [| |done].
  { intros [= <- <-] Hd. exfalso. unfold current_head_ci in Ec.
    destruct (run_checkpoints reads c0 head installation
      (ci (ec_installation_external_id c0) (ec_repository_full_name c0) (ec_head_sha c0)) (S n) Ha)
      as [[_ Hr]|[_ (n2 & d2 & Hr & Hd2 & _)]]; rewrite Hr in Ec.
    - destruct (call_result _); cbn in Ec; congruence.
    - congruence. }
  destruct (last_read_spec reads own now id head installation c0 snapshot n1 Ha)
    as (d' & Hd' & _ & Hc). rewrite Hd'. intros [= <- <-] He Hcand.
  rewrite He, Hcand in Hc. by injection Hc as ->.
Qed.

#[export] Instance github_gate_ok reads ci own now
  (Hid : ∀ n id c, reads n id = Some c → ec_code_change_id c = id) :
  EligibilityGate (github_gate reads ci own now) labelled.
Proof.
  intros id head installation d c. unfold github_gate.
  destruct (determine _ _ _ _ _ _ _ _) as [n' [d'|]] eqn:E; cbn; intros [= <-] He Hc.
  destruct (determine_admits _ _ _ _ _ _ _ _ _ _ _ E He Hc) as [Hr (? & ? & ? & ? & ? & ?)].
  split_and!; try done. by eapply Hid.
Qed.

(** ** The candidate under the lock *)

(** A locked candidate of GitHub is made of the rows as they are. *)
Lemma lock_candidate_github lock_other allow d id c :
  lock_candidate lock_other allow d id = Ok (inr c) → rc_provider c = u8 "github" →
  ∃ pr repository installation, join_pr d id = Some (pr, repository, installation)
    ∧ il_provider installation = u8 "github"
    ∧ rc_ci c = github_candidate id pr repository installation.
Proof.
  unfold lock_candidate. destruct (other_provider (default [] (provider_of d id))) eqn:Ho.
  - destruct (lock_other allow d id) as [|rows]; [done|]. unfold configured_candidate.
    destruct (active_rule _ _); [|done]. case_match; [|done].
    destruct (raise_when _ _); [|done]. cbn [mbind result_bind]. intros [= <-]. cbn [rc_provider]. rewrite Ho.
    intros E. by rewrite E in Ho.
  - unfold lock_github, join_pr. destruct (q_prs d !! id) as [pr|] eqn:Epr; [|done].
    destruct (q_repositories d !! pr_repository_id pr) as [repository|] eqn:Erp; [|done].
    destruct (q_installations d !! rp_provider_installation_id repository) as [il|] eqn:Eil; [|done].
    destruct (il_provider il =?s u8 "github") eqn:Ep; [|done]. apply str_eqb_eq in Ep.
    cbn [negb]. unfold configured_candidate.
    cbn [lr_pr lr_repository_id lr_repository lr_installation_id lr_installation lr_ci absent].
    destruct (active_rule _ _); [|done]. case_match; [|done].
    destruct (raise_when _ _); [|done]. cbn. intros [= <-] _. exists pr, repository, il.
    split; [|done]. cbn. rewrite Erp. cbn. by rewrite Eil.
Qed.

Lemma eligibility_get_github d id c :
  eligibility_get d id = Some c →
  ec_code_change_id c = id ∧ ∃ i, ec_identity c = Some i ∧ wi_provider i = u8 "github".
Proof.
  unfold eligibility_get. destruct (join_pr d id) as [[[pr rp] il]|]; [|done].
  destruct (_ =?s _); [|done]. intros [= <-]. split; [done|]. by eexists.
Qed.

(** ** Inserting *)

(** No row of a table satisfies a test. *)
Lemma find_rows {A} (p : UUID * A → bool) (m : gmap UUID A) :
  find_first p (map_to_list m) = None ↔ ∀ k v, m !! k = Some v → p (k, v) = false.
Proof.
  rewrite find_first_none. split.
  - intros H k v Hk. apply H. by apply list_elem_of_In, elem_of_map_to_list.
  - intros H [k v] Hi%list_elem_of_In%elem_of_map_to_list. by apply H.
Qed.

Lemma existsb_rows {A} (p : UUID * A → bool) (m : gmap UUID A) :
  existsb p (map_to_list m) = false ↔ ∀ k v, m !! k = Some v → p (k, v) = false.
Proof.
  rewrite <- find_rows, find_first_none. induction (map_to_list m) as [|x l IH]; cbn; [done|].
  rewrite orb_false_iff, IH. split; [intros [? H] y [<-|?]; auto|]. intros H. split; auto.
Qed.

Lemma active_run_none d cc :
  active_run d cc = None ↔
  ∀ id r, db_runs (q_runs d) !! id = Some r → active (run_state r) = true →
          pin_code_change_id (run_pinned r) ≠ cc.
Proof.
  unfold active_run. rewrite fmap_None, find_rows. cbn. split.
  - intros H id r Hr Ha. specialize (H id r Hr). rewrite Ha in H. by apply N.eqb_neq in H.
  - intros H id r Hr. destruct (active (run_state r)) eqn:Ha; [|done]. cbn.
    apply N.eqb_neq. by eapply H.
Qed.

Lemma active_run_of_none d cc : active_run d cc = None → active_run_of (q_runs d) cc = false.
Proof. unfold active_run, active_run_of. by rewrite fmap_None, find_rows, existsb_rows. Qed.

Lemma webhook_conflict_false d key cc head :
  webhook_conflict d key cc head = false ↔
  ∀ id m, q_meta d !! id = Some m →
    rm_idempotency_key m ≠ key
    ∧ (rm_trigger m = Trigger_webhook → ∀ r, db_runs (q_runs d) !! id = Some r →
       pin_code_change_id (run_pinned r) = cc → run_head_sha r ≠ head).
Proof.
  unfold webhook_conflict. rewrite existsb_rows. cbn [fst snd].
  split; intros H id m Hm; specialize (H id m Hm).
  - apply orb_false_iff in H as [Hk H]. apply str_eqb_neq in Hk. split; [done|].
    intros Ht r Hr Hcc Hh. rewrite bool_decide_true in H by done.
    by rewrite Hr, Hcc, Hh, N.eqb_refl, str_eqb_refl in H.
  - destruct H as [Hk H]. apply orb_false_iff. split; [by apply str_eqb_neq|].
    apply andb_false_iff. destruct (decide (rm_trigger m = Trigger_webhook)) as [Ht|Ht];
      [right|left; by apply bool_decide_eq_false].
    destruct (db_runs (q_runs d) !! id) as [r|] eqn:Hr; [|done].
    apply andb_false_iff. destruct (decide (pin_code_change_id (run_pinned r) = cc)) as [Hc|Hc];
      [right|left; by apply N.eqb_neq]. apply str_eqb_neq. by eapply H.
Qed.

(** The tables that creating a run leaves alone. *)
Definition same_tables (d d' : EnqDb) : Prop :=
  q_prs d' = q_prs d ∧ q_repositories d' = q_repositories d ∧ q_installations d' = q_installations d
  ∧ q_rules d' = q_rules d ∧ q_prompts d' = q_prompts d ∧ q_receipts d' = q_receipts d.

(** One queued run of a candidate was added, and nothing else about runs changed. *)
Definition run_added (id cc : UUID) (c : RunInsertCandidate) (now : Z) (m : RunMeta) (d d' : EnqDb)
  : Prop :=
  db_runs (q_runs d) !! id = None
  ∧ active_run d cc = None
  ∧ db_runs (q_runs d') = <[id := new_run (candidate_pinned cc c) now]> (db_runs (q_runs d))
  ∧ q_meta d' = <[id := m]> (q_meta d)
  ∧ same_tables d d'.

Lemma add_bitbucket_origin_spec id c d d' :
  add_bitbucket_origin id c d = Ok d' →
  q_runs d' = q_runs d ∧ q_meta d' = q_meta d ∧ same_tables d d'.
Proof.
  unfold add_bitbucket_origin. intros H.
  repeat match type of H with
         | (if ?b then _ else _) = _ => destruct b
         | (match ?o with _ => _ end) = _ => destruct o; try done
         end; injection H as <-; done.
Qed.

Lemma insert_webhook_run_spec d c now fresh triggered_by d' res :
  insert_webhook_run d c now fresh triggered_by = Ok (d', res) →
  match res with
  | Inserted m =>
      m = from_candidate fresh c now Trigger_webhook
      ∧ ∃ key login, webhook_key (ec_code_change_id (rc_ci c)) (ec_head_sha (rc_ci c)) = Ok key
        ∧ webhook_conflict d key (ec_code_change_id (rc_ci c)) (ec_head_sha (rc_ci c)) = false
        ∧ run_added fresh (ec_code_change_id (rc_ci c)) c now
            (new_meta c Trigger_webhook key login now) d d'
  | Blocked b => d' = d ∧ ∃ r, active_run d (ec_code_change_id (rc_ci c)) = Some r
                           ∧ b = mkActiveRunBlocker (run_head_sha r) (run_cancel_requested r)
  | Duplicate reason => d' = d ∧ reason = Head_already_reviewed
                        ∧ active_run d (ec_code_change_id (rc_ci c)) = None
  end.
Proof.
  unfold insert_webhook_run. destruct (active_run d _) as [r|] eqn:Ha.
  { intros [= <- <-]. split; [done|]. by exists r. }
  destruct (webhook_key _ _) as [key|] eqn:Hk; [|done]. cbn.
  unfold insert_run. cbn [pin_code_change_id candidate_pinned].
  rewrite (active_run_of_none _ _ Ha). cbn [negb]. rewrite andb_true_r.
  destruct (decide (db_runs (q_runs d) !! fresh = None)) as [Hn|Hn].
  2: { rewrite bool_decide_false by done. by intros [= <- <-]. }
  rewrite bool_decide_true by done. cbn [andb].
  destruct (webhook_conflict _ _ _ _) eqn:Hc; cbn [negb]; [by intros [= <- <-]|].
  destruct (add_bitbucket_origin _ _ _) as [d2|] eqn:Hb; [|done]. cbn.
  intros [= <- <-]. apply add_bitbucket_origin_spec in Hb as (E1 & E2 & E3).
  split; [done|]. eexists key, _. split; [done|]. split; [done|].
  split; [done|]. split; [done|]. split; [by rewrite E1|]. split; [exact E2|exact E3].
Qed.

(** ** One enqueue *)

(** What the locked candidate of a new run satisfies. *)
Definition authorised (accepts : EligibilityCandidate → Prop) (id : UUID) (head : pystr)
    (installation : option Z) (identity : option WebhookRunIdentity) (c : RunInsertCandidate) : Prop :=
  ec_code_change_id (rc_ci c) = id ∧ ec_head_sha (rc_ci c) = head ∧ ec_state (rc_ci c) = Pr_open
  ∧ ec_repository_enabled (rc_ci c) = true ∧ accepts (rc_ci c)
  ∧ (∀ n, installation = Some n → ec_installation_external_id (rc_ci c) = n)
  ∧ (∀ i, identity = Some i → ec_identity (rc_ci c) = Some i)
  ∧ (ec_identity (rc_ci c) = None → rc_provider c = u8 "github")
  ∧ (∀ i, ec_identity (rc_ci c) = Some i →
      rc_provider c = wi_provider i
      ∧ rc_origin_provider_installation_id c = wi_origin_provider_installation_id i
      ∧ rc_workspace_id c = wi_workspace_id i ∧ rc_repository_id c = wi_repository_id i
      ∧ rc_repository_external_id c = wi_repository_external_id i).

Lemma consistent_identity_spec c expected :
  consistent_identity c expected = true →
  (∀ i, expected = Some i → ec_identity (rc_ci c) = Some i)
  ∧ (ec_identity (rc_ci c) = None → rc_provider c = u8 "github")
  ∧ (∀ i, ec_identity (rc_ci c) = Some i →
      rc_provider c = wi_provider i
      ∧ rc_origin_provider_installation_id c = wi_origin_provider_installation_id i
      ∧ rc_workspace_id c = wi_workspace_id i ∧ rc_repository_id c = wi_repository_id i
      ∧ rc_repository_external_id c = wi_repository_external_id i).
Proof.
  unfold consistent_identity. destruct (negb _); [done|].
  destruct (ec_identity (rc_ci c)) as [i|].
  - rewrite !andb_true_iff, str_eqb_eq, !N.eqb_eq, Z.eqb_eq.
    intros [[[[[He ?] ?] ?] ?] ?]. split; [|split; [done|by intros ? [= <-]]].
    intros e ->. by apply bool_decide_eq_true in He as ->.
  - intros [Hp%str_eqb_eq He]%andb_true_iff. split; [|done]. intros i ->. done.
Qed.

Section Txn.
Context (lock_other : bool → EnqDb → UUID → (CandidateMiss + LockedRows)%type)
        (now : nat → Z) (fresh : nat → UUID).

(** A result without a new run. *)
Definition no_run (w : World) (id : UUID) (head : pystr) (r : EnqueueResult) : Prop :=
  es_run_id r = None ∧ (es_status r ∉ [Enqueued; Publication_pending])
  ∧ (es_status r = Deferred →
     ∃ run, active_run (w_db w) id = Some run ∧ run_head_sha run ≠ head
            ∧ run_cancel_requested run = true).

Lemma no_run_status w id head s reason detail :
  bool_decide (s ∈ [Enqueued; Publication_pending; Deferred]) = false →
  no_run w id head (mkEnqueueResult s None reason detail).
Proof.
  intros Hs%bool_decide_eq_false. split; [done|]. cbn. split; [set_solver|].
  intros ->. set_solver.
Qed.

Lemma enqueue_txn_spec w candidate id head installation identity triggered_by d' res :
  ec_code_change_id candidate = id → ec_head_sha candidate = head →
  enqueue_txn lock_other now fresh w candidate id installation identity triggered_by = Ok (d', res) →
  match res with
  | inl r => d' = w_db w ∧ no_run w id head r
  | inr m =>
      ∃ c key login, lock_candidate lock_other false (w_db w) id = Ok (inr c)
        ∧ rc_ci c = candidate ∧ consistent_identity c identity = true
        ∧ m = from_candidate (fresh (w_steps w)) c (now (w_steps w)) Trigger_webhook
        ∧ webhook_conflict (w_db w) key id head = false
        ∧ run_added (fresh (w_steps w)) id c (now (w_steps w))
            (new_meta c Trigger_webhook key login (now (w_steps w))) (w_db w) d'
  end.
Proof.
  intros Hid Hhead. unfold enqueue_txn.
  destruct (lock_candidate _ _ _ _) as [[miss|c]|] eqn:Hl; [| |done]; cbn.
  { intros [= <- <-]. split; [done|]. case_bool_decide; by apply no_run_status. }
  destruct (_ || _) eqn:E.
  { intros [= <- <-]. split; [done|]. by apply no_run_status. }
  apply orb_false_iff in E as [[E1%negb_false_iff%bool_decide_eq_true
    E2%negb_false_iff]%orb_false_iff _].
  destruct (insert_webhook_run _ _ _ _ _) as [[d1 ins]|] eqn:Hi; [|done]. cbn.
  apply insert_webhook_run_spec in Hi. rewrite E1, Hid, Hhead in Hi.
  destruct ins as [m|reason|b].
  - intros [= <- <-]. destruct Hi as (-> & key & login & _ & Hc & Ha). exists c, key, login. done.
  - intros [= <- <-]. split; [done|]. by apply no_run_status.
  - intros [= <- <-]. split; [done|]. destruct Hi as (_ & run & Hr & ->). cbn.
    rewrite E1, Hhead. destruct (negb _ && _) eqn:Ed; [|by apply no_run_status].
    split; [done|]. cbn. split; [by set_solver|]. intros _. apply andb_true_iff in Ed as [Ed%negb_true_iff%str_eqb_neq Ed2]. by exists run.
Qed.
End Txn.

Section Facts.
Context (lock_other : bool → EnqDb → UUID → (CandidateMiss + LockedRows)%type)
        (gate : UUID → pystr → option Z → result CiExc CiEligibility)
        (accepts : EligibilityCandidate → Prop) `{Hgate : !EligibilityGate gate accepts}
        (confirms : nat → PendingRunMessage → bool)
        (env : nat → EnqDb → EnqDb) (now : nat → Z) (fresh : nat → UUID).

(** A run was created for this head and its message was tried. *)
Definition run_created (w w' : World) (id : UUID) (head : pystr) (installation : option Z)
    (identity : option WebhookRunIdentity) (r : EnqueueResult) : Prop :=
  let n := w_steps w in
  ∃ c key login d1,
    lock_candidate lock_other false (w_db w) id = Ok (inr c)
    ∧ authorised accepts id head installation identity c
    ∧ webhook_conflict (w_db w) key id head = false
    ∧ run_added (fresh n) id c (now n) (new_meta c Trigger_webhook key login (now n)) (w_db w) d1
    ∧ es_run_id r = Some (fresh n)
    ∧ ((es_status r = Enqueued
        ∧ w_sent w' = w_sent w ++ [from_candidate (fresh n) c (now n) Trigger_webhook]
        ∧ w_db w' = mark_published (env (S n) d1) (fresh n) (now (S n)))
       ∨ (es_status r = Publication_pending ∧ w_sent w' = w_sent w ∧ w_db w' = env (S n) d1)).

Lemma try_enqueue_spec w id head installation identity triggered_by w' res :
  try_enqueue lock_other gate confirms env now fresh w id head installation identity triggered_by
  = (w', res) →
  match res with
  | Err _ => w' = w
  | Ok r => (w' = w ∧ no_run w id head r) ∨ run_created w w' id head installation identity r
  end.
Proof using Hgate.
  unfold try_enqueue. destruct (gate id head installation) as [decision|e] eqn:Hg;
    [|by intros [= <- <-]].
  destruct (ce_eligible decision) eqn:He; [|intros [= <- <-]; left; split; [done|by apply no_run_status]].
  destruct (ce_candidate decision) as [candidate|] eqn:Hc;
    [|intros [= <- <-]; left; split; [done|by apply no_run_status]].
  destruct (match identity with Some _ => _ | None => _ end);
    [intros [= <- <-]; left; split; [done|by apply no_run_status]|].
  destruct (gate_admits _ _ _ _ _ Hg He Hc) as (Hid & Hhead & Hopen & Hen & Hin & Hacc).
  destruct (enqueue_txn _ _ _ _ _ _ _ _ _) as [[d' [r|m]]|] eqn:Ht; [| |by intros [= <- <-]].
  { intros [= <- <-]. left. split; [done|]. by eapply (enqueue_txn_spec _ _ _ _ _ _ head) in Ht as [_ ?]. }
  eapply (enqueue_txn_spec _ _ _ _ _ _ head) in Ht
    as (c & key & login & Hl & Eci & Hcons & -> & Hconf & Hadd); [|done..].
  destruct (consistent_identity_spec _ _ Hcons) as (Hi1 & Hi2 & Hi3). cbn [pm_run_id from_candidate].
  assert (authorised accepts id head installation identity c) as Hauth.
  { split_and!; try done; by rewrite Eci. }
  unfold publish_and_mark. cbn [w_steps w_db w_sent].
  destruct (confirms _ _); intros [= <- <-]; right;
    exists c, key, login, d'; cbn; do 5 (split; [done|]); first [by left|by right].
Qed.
End Facts.

(** ** Constraints of the table *)

(** The unique constraints of [runs] and the rows that share its key. *)
Record enq_wf (d : EnqDb) : Prop := {
  wf_rows : ∀ id, is_Some (q_meta d !! id) ↔ is_Some (db_runs (q_runs d) !! id);
  wf_keys : ∀ i j m m', q_meta d !! i = Some m → q_meta d !! j = Some m' →
    rm_idempotency_key m = rm_idempotency_key m' → i = j;
  wf_active : ∀ i j r r', db_runs (q_runs d) !! i = Some r → db_runs (q_runs d) !! j = Some r' →
    active (run_state r) = true → active (run_state r') = true →
    pin_code_change_id (run_pinned r) = pin_code_change_id (run_pinned r') → i = j;
  wf_webhook : ∀ i j m m' r r', q_meta d !! i = Some m → q_meta d !! j = Some m' →
    db_runs (q_runs d) !! i = Some r → db_runs (q_runs d) !! j = Some r' →
    rm_trigger m = Trigger_webhook → rm_trigger m' = Trigger_webhook →
    pin_code_change_id (run_pinned r) = pin_code_change_id (run_pinned r') →
    run_head_sha r = run_head_sha r' → i = j
}.

(** Adding a run keeps them when its key is new and it is the first webhook run of its head. *)
Lemma run_added_wf id cc c now m d d' :
  enq_wf d → run_added id cc c now m d d' →
  (∀ j m', q_meta d !! j = Some m' → rm_idempotency_key m' ≠ rm_idempotency_key m
     ∧ (rm_trigger m = Trigger_webhook → rm_trigger m' = Trigger_webhook →
        ∀ r, db_runs (q_runs d) !! j = Some r → pin_code_change_id (run_pinned r) = cc →
        run_head_sha r ≠ ec_head_sha (rc_ci c))) →
  enq_wf d'.
Proof.
  intros [W1 W2 W3 W4] (Hn & Ha & Er & Em & _) Hnew. rewrite active_run_none in Ha.
  split; rewrite ?Er, ?Em.
  - intros j. destruct (decide (j = id)) as [->|Hj]; [by rewrite !lookup_insert_eq|].
    by rewrite !lookup_insert_ne.
  - intros i j m1 m2. rewrite !lookup_insert_Some.
    intros [[<- <-]|[Hi H1]] [[<- <-]|[Hj H2]] E; try done.
    + by destruct (Hnew _ _ H2) as [[] _].
    + by destruct (Hnew _ _ H1) as [[] _].
    + by eapply W2.
  - intros i j r1 r2. rewrite !lookup_insert_Some.
    intros [[<- <-]|[Hi H1]] [[<- <-]|[Hj H2]] A1 A2 E; try done.
    + by destruct (Ha _ _ H2 A2).
    + by destruct (Ha _ _ H1 A1).
    + by eapply W3.
  - intros i j m1 m2 r1 r2. rewrite !lookup_insert_Some.
    intros [[? ?]|[? H1]] [[? ?]|[? H2]] [[? ?]|[? R1]] [[? ?]|[? R2]] T1 T2 E1 E2;
      subst; try done.
    + destruct (Hnew _ _ H2) as [_ Hh]. by destruct (Hh T1 T2 _ R2).
    + destruct (Hnew _ _ H1) as [_ Hh]. by destruct (Hh T2 T1 _ R1).
    + by eapply W4.
Qed.

Lemma mark_published_wf d id t : enq_wf d → enq_wf (mark_published d id t).
Proof.
  unfold mark_published. destruct (q_meta d !! id) as [m|] eqn:Hm; [|done].
  destruct (_ && _); [|done]. intros [W1 W2 W3 W4]. split; cbn; [| |done|].
  - intros j. rewrite <- W1. destruct (decide (j = id)) as [->|Hj].
    + by rewrite lookup_insert_eq, Hm.
    + by rewrite lookup_insert_ne.
  - intros i j m1 m2. rewrite !lookup_insert_Some.
    intros [[<- <-]|[Hi H1]] [[<- <-]|[Hj H2]] E; try done; by eapply W2.
  - intros i j m1 m2 r1 r2. rewrite !lookup_insert_Some.
    intros [[<- <-]|[Hi H1]] [[<- <-]|[Hj H2]] R1 R2 T1 T2 E1 E2; try done; by eapply W4.
Qed.

(** ** Properties *)

(** The pull request of a new webhook run at the time it is created. *)
Definition open_labelled_head (d : EnqDb) (id : UUID) (head : pystr) (installation_id : option Z)
  : Prop :=
  ∃ pr repository installation, join_pr d id = Some (pr, repository, installation)
    ∧ il_provider installation = u8 "github" ∧ il_deleted installation = false
    ∧ (∀ n, installation_id = Some n → il_external_id installation = n)
    ∧ rp_enabled repository = true ∧ rp_installation_available repository = true
    ∧ pr_head_sha pr = head ∧ pr_state pr = Pr_open ∧ pr_ai_review_labeled pr = true.

(** C9. A webhook run is created only for a head that may be reviewed, and only once.  With the CI
    gate over the same tables, whatever other transactions do between the gate's reads and the
    insertion: when a call creates a run, then in the transaction that creates it the pull request is
    open and labelled, its repository enabled, its installation alive and the expected one, the head
    the expected one, with no active run and no earlier webhook run of this head; exactly one queued
    run of that head is added; it is reported as enqueued exactly when the broker confirmed its
    message, and marked only then.  Every other result, and every error, leaves everything as it
    was. *)
Theorem enqueue_authorised lock_other dbs ci own_app_id t confirms env now fresh
    w id head installation identity triggered_by w' res :
  try_enqueue lock_other (github_gate (λ n, eligibility_get (dbs n)) ci own_app_id t) confirms env now
    fresh w id head installation identity triggered_by = (w', res) →
  w' = w ∧ match res with Ok r => no_run w id head r | Err _ => True end
  ∨ ∃ r c key login d1, res = Ok r
    ∧ open_labelled_head (w_db w) id head installation
    ∧ ec_head_sha (rc_ci c) = head
    ∧ webhook_conflict (w_db w) key id head = false
    ∧ run_added (fresh (w_steps w)) id c (now (w_steps w))
        (new_meta c Trigger_webhook key login (now (w_steps w))) (w_db w) d1
    ∧ es_run_id r = Some (fresh (w_steps w))
    ∧ ((es_status r = Enqueued
        ∧ w_sent w' = w_sent w
            ++ [from_candidate (fresh (w_steps w)) c (now (w_steps w)) Trigger_webhook]
        ∧ w_db w' = mark_published (env (S (w_steps w)) d1) (fresh (w_steps w)) (now (S (w_steps w))))
       ∨ (es_status r = Publication_pending ∧ w_sent w' = w_sent w
          ∧ w_db w' = env (S (w_steps w)) d1)).
Proof.
  intros Hrun.
  pose proof (github_gate_ok (λ n, eligibility_get (dbs n)) ci own_app_id t
    (λ n i c H, proj1 (eligibility_get_github _ _ _ H))) as Hg.
  apply (try_enqueue_spec _ _ labelled) in Hrun. destruct res as [r|e]; [|by left].
  destruct Hrun as [?|(c & key & login & d1 & Hl & Hauth & Hc & Ha & Hid & Hst)]; [by left|].
  right. exists r, c, key, login, d1. split; [done|].
  destruct Hauth as (Eid & Eh & Eo & Een & [Elab Eprov] & Ein & _ & Hnone & Hsome).
  split; [|done].
  assert (rc_provider c = u8 "github") as Hprov.
  { destruct (ec_identity (rc_ci c)) as [i|]; [|by apply Hnone].
    destruct (Hsome i eq_refl) as (-> & _). by apply Eprov. }
  destruct (lock_candidate_github _ _ _ _ _ Hl Hprov) as (pr & rp & il & Hj & Hil & Eci).
  rewrite Eci in *. cbn in Een, Elab, Eo, Eh, Ein.
  apply andb_true_iff in Een as [[Een Eav]%andb_true_iff Edel%negb_true_iff].
  injection Elab as Elab. by exists pr, rp, il.
Qed.

(** ** Confirmations *)

(** A webhook run is marked as sent only when the broker confirmed a message for it. *)
Definition confirmed (sent : list PendingRunMessage) (d : EnqDb) : Prop :=
  ∀ id m, q_meta d !! id = Some m → rm_trigger m = Trigger_webhook →
    rm_message_published_at m ≠ None → ∃ msg, In msg sent ∧ pm_run_id msg = id.

Definition world_ok (w : World) : Prop := enq_wf (w_db w) ∧ confirmed (w_sent w) (w_db w).

(** Other transactions keep the constraints, and mark nothing as sent that was not confirmed. *)
Definition env_ok (env : nat → EnqDb → EnqDb) : Prop :=
  ∀ n d, (enq_wf d → enq_wf (env n d)) ∧ ∀ sent, confirmed sent d → confirmed sent (env n d).

Lemma confirmed_more sent msg d : confirmed sent d → confirmed (sent ++ [msg]) d.
Proof.
  intros H id m Hm Ht Hp. destruct (H id m Hm Ht Hp) as (x & Hx & E). exists x.
  split; [|done]. apply in_app_iff. by left.
Qed.

Lemma mark_published_confirmed sent d msg t :
  confirmed sent d → confirmed (sent ++ [msg]) (mark_published d (pm_run_id msg) t).
Proof.
  intros H. unfold mark_published. destruct (q_meta d !! pm_run_id msg) as [m|] eqn:Hm;
    [|by apply confirmed_more]. destruct (_ && _); [|by apply confirmed_more].
  intros id m' Hm'. cbn in Hm'. rewrite lookup_insert_Some in Hm'.
  destruct Hm' as [[<- <-]|[_ Hm']].
  - intros _ _. exists msg. split; [|done]. apply in_app_iff. right. by left.
  - by apply (confirmed_more _ msg _ H).
Qed.

(** Sending a signal changes no column but its own. *)
Definition same_but_signal (m m' : RunMeta) : Prop :=
  rm_trigger m' = rm_trigger m ∧ rm_idempotency_key m' = rm_idempotency_key m
  ∧ rm_message_published_at m' = rm_message_published_at m.

Lemma mark_signal_spec d id t :
  q_runs (mark_cancellation_signal_published d id t) = q_runs d
  ∧ ∀ j m', q_meta (mark_cancellation_signal_published d id t) !! j = Some m' →
     ∃ m, q_meta d !! j = Some m ∧ same_but_signal m m'.
Proof.
  unfold mark_cancellation_signal_published.
  destruct (db_runs (q_runs d) !! id) as [r|]; [|by split; [|intros j m ?; exists m]].
  destruct (q_meta d !! id) as [m|] eqn:Hm; [|by split; [|intros j m ?; exists m]].
  destruct (signal_pending r m); [|by split; [|intros j m0 ?; exists m0]].
  split; [done|]. intros j m'. cbn. rewrite lookup_insert_Some. intros [[<- <-]|[_ Hj]].
  - by exists m.
  - by exists m'.
Qed.

Lemma mark_signal_dom d id t j :
  is_Some (q_meta (mark_cancellation_signal_published d id t) !! j) ↔ is_Some (q_meta d !! j).
Proof.
  unfold mark_cancellation_signal_published. repeat case_match; try done. cbn.
  destruct (decide (j = id)) as [->|]; [|by rewrite lookup_insert_ne].
  rewrite lookup_insert_eq. split; eauto.
Qed.

Lemma mark_signal_ok sent d id t :
  enq_wf d ∧ confirmed sent d →
  enq_wf (mark_cancellation_signal_published d id t)
  ∧ confirmed sent (mark_cancellation_signal_published d id t).
Proof.
  intros [[W1 W2 W3 W4] Hc]. destruct (mark_signal_spec d id t) as [Er Em]. split; [split|].
  - intros j. by rewrite Er, mark_signal_dom, W1.
  - intros i j m m' (m1 & H1 & _ & E1 & _)%Em (m2 & H2 & _ & E2 & _)%Em E.
    apply (W2 i j m1 m2); congruence.
  - by rewrite Er.
  - rewrite Er. intros i j m m' r r' (m1 & H1 & T1 & _)%Em (m2 & H2 & T2 & _)%Em R1 R2 E1 E2.
    apply (W4 i j m1 m2 r r'); congruence.
  - intros j m (m1 & H1 & T1 & _ & P1)%Em Ht Hp. apply (Hc j m1); congruence.
Qed.

Section Confirm.
Context (lock_other : bool → EnqDb → UUID → (CandidateMiss + LockedRows)%type)
        (gate : UUID → pystr → option Z → result CiExc CiEligibility)
        (accepts : EligibilityCandidate → Prop) `{Hgate : !EligibilityGate gate accepts}
        (confirms : nat → PendingRunMessage → bool)
        (env : nat → EnqDb → EnqDb) (Henv : env_ok env) (now : nat → Z) (fresh : nat → UUID).

Lemma publish_and_mark_ok w m :
  world_ok w → world_ok (fst (publish_and_mark confirms env now w m)).
Proof using Henv.
  intros [Hw Hc]. destruct (Henv (w_steps w) (w_db w)) as [E1 E2]. unfold publish_and_mark.
  case_match; (split; cbn; [|by auto using mark_published_confirmed]);
    auto using mark_published_wf.
Qed.

Lemma publish_all_ok ms w : world_ok w → world_ok (fst (publish_all confirms env now w ms)).
Proof using Henv.
  revert w. induction ms as [|m ms IH]; intros w Hw; [done|]. cbn.
  pose proof (publish_and_mark_ok w m Hw) as H1.
  destruct (publish_and_mark _ _ _ w m) as [w1 c]. cbn in H1. specialize (IH w1 H1).
  by destruct (publish_all _ _ _ w1 ms).
Qed.

Lemma publish_signals_ok ms w : world_ok w → world_ok (fst (publish_signals confirms env now w ms)).
Proof using Henv.
  revert w. induction ms as [|m ms IH]; intros w [Hw Hc]; [done|]. cbn.
  destruct (Henv (w_steps w) (w_db w)) as [E1 E2]. case_match.
  - destruct (mark_signal_ok (w_sent w ++ [m]) (env (w_steps w) (w_db w)) (pm_run_id m)
                (now (w_steps w))) as [H1 H2]; [by auto using confirmed_more|].
    specialize (IH (mkWorld _ (w_sent w ++ [m]) (S (w_steps w))) (conj H1 H2)).
    by destruct (publish_signals _ _ _ _ ms).
  - apply IH. split; cbn; auto.
Qed.

(** ** Every call *)

Inductive enq_step (w : World) : World → Prop :=
| step_enqueue id head installation identity triggered_by :
    enq_step w (fst (try_enqueue lock_other gate confirms env now fresh w id head installation
                       identity triggered_by))
| step_replay signals limit :
    enq_step w (fst (replay_pending_publications confirms env now signals w limit))
| step_signals run_ids :
    enq_step w (fst (publish_for confirms env now w run_ids)).

Lemma run_added_confirmed id cc c t m sent d d' :
  run_added id cc c t m d d' → rm_message_published_at m = None →
  confirmed sent d → confirmed sent d'.
Proof using Type.
  intros (_ & _ & _ & Em & _) Hp Hc j m'. rewrite Em, lookup_insert_Some.
  intros [[<- <-]|[_ Hj]]; [done|by apply Hc].
Qed.

Lemma enq_step_ok w w' : enq_step w w' → world_ok w → world_ok w'.
Proof using Hgate Henv.
  intros Hs Hw. destruct Hs as [id head installation identity triggered_by|signals limit|run_ids].
  - destruct (try_enqueue _ _ _ _ _ _ _ _ _ _ _ _) as [w' res] eqn:E. cbn.
    apply (try_enqueue_spec _ _ accepts) in E.
    destruct res as [r|e]; [|by subst].
    destruct E as [[-> _]|(c & key & login & d1 & Hl & Hauth & Hconf & Ha & _ & Hst)]; [done|].
    destruct Hw as [Hw Hc]. destruct Hauth as (_ & Eh & _).
    assert (Hwf : enq_wf d1).
    { apply (run_added_wf _ _ _ _ _ _ _ Hw Ha). intros j m' Hj. rewrite webhook_conflict_false in Hconf.
      destruct (Hconf j m' Hj) as [H1 H2]. split; [done|]. intros _ Ht r' Hr' Ecc.
      rewrite Eh. by eapply H2. }
    assert (Hcf : confirmed (w_sent w) d1) by (by eapply run_added_confirmed).
    destruct (Henv (S (w_steps w)) d1) as [E1 E2].
    destruct Hst as [(_ & Hsent & Hdb)|(_ & Hsent & Hdb)]; split; rewrite ?Hsent, Hdb; auto.
    + by apply mark_published_wf, E1.
    + by apply (mark_published_confirmed _ _ (from_candidate _ _ _ _)), E2.
  - unfold replay_pending_publications.
    assert (H1 : world_ok (fst (if signals then replay_pending confirms env now w limit else (w, O))))
      by (destruct signals; [by apply publish_signals_ok|done]).
    destruct (if signals then _ else _) as [w1 k]. cbn in H1.
    pose proof (publish_all_ok (pending_messages (w_db w1) limit) w1 H1) as H2.
    by destruct (publish_all _ _ _ w1 _).
  - unfold publish_for. destruct run_ids; [done|]. by apply publish_signals_ok.
Qed.
End Confirm.

(** ** Replay *)

Lemma mark_published_other d id t j : j ≠ id → q_meta (mark_published d id t) !! j = q_meta d !! j.
Proof.
  intros Hj. unfold mark_published. repeat case_match; try done. cbn. by rewrite lookup_insert_ne.
Qed.

Lemma mark_published_frame d id t :
  q_runs (mark_published d id t) = q_runs d ∧ same_tables d (mark_published d id t).
Proof. unfold mark_published. repeat case_match; done. Qed.

Lemma mark_published_marks d id t m :
  q_meta (mark_published d id t) !! id = Some m → rm_trigger m = Trigger_webhook →
  rm_message_published_at m ≠ None.
Proof.
  unfold mark_published. destruct (q_meta d !! id) as [m0|] eqn:Hm; [|congruence].
  destruct (_ && _) eqn:E; cbn.
  - rewrite lookup_insert_eq. by intros [= <-] _.
  - rewrite Hm. intros [= <-] Ht. rewrite bool_decide_true in E by done.
    by destruct (rm_message_published_at m0).
Qed.

(** Without other transactions and with a broker that confirms, each message is sent and marked. *)
Lemma publish_all_marks confirms env now ms w :
  (∀ n m, confirms n m = true) → (∀ n d, env n d = d) →
  let w' := fst (publish_all confirms env now w ms) in
  snd (publish_all confirms env now w ms) = length ms
  ∧ w_sent w' = w_sent w ++ ms
  ∧ q_runs (w_db w') = q_runs (w_db w) ∧ same_tables (w_db w) (w_db w')
  ∧ (∀ j, (j ∉ (pm_run_id <$> ms)) → q_meta (w_db w') !! j = q_meta (w_db w) !! j)
  ∧ (∀ j m, j ∈ (pm_run_id <$> ms) → q_meta (w_db w') !! j = Some m →
       rm_trigger m = Trigger_webhook → rm_message_published_at m ≠ None).
Proof.
  intros Hc He. revert w. induction ms as [|m ms IH]; intros w.
  { cbn. rewrite app_nil_r. split_and!; try done. intros j x Hj. by apply elem_of_nil in Hj. }
  cbn [publish_all]. unfold publish_and_mark. rewrite He, Hc.
  set (d1 := mark_published (w_db w) (pm_run_id m) (now (w_steps w))).
  specialize (IH (mkWorld d1 (w_sent w ++ [m]) (S (w_steps w)))).
  destruct (publish_all _ _ _ _ ms) as [w2 n]. cbn [fst snd w_sent w_db] in *.
  destruct IH as (-> & -> & Er & Et & Hother & Hms).
  destruct (mark_published_frame (w_db w) (pm_run_id m) (now (w_steps w))) as [F1 F2].
  split; [done|]. split; [by rewrite <- app_assoc|]. split; [by rewrite Er|].
  split; [subst d1; unfold same_tables in *; intuition congruence|]. split.
  - intros j Hj. rewrite fmap_cons, not_elem_of_cons in Hj. destruct Hj as [Hj1 Hj2].
    rewrite Hother by done. by apply mark_published_other.
  - intros j x Hj Hx Ht. destruct (decide (j ∈ (pm_run_id <$> ms))) as [Hin|Hin]; [by eapply Hms|].
    rewrite Hother in Hx by done. rewrite fmap_cons, elem_of_cons in Hj.
    destruct Hj as [->|]; [|done]. by eapply mark_published_marks.
Qed.

Lemma join_run_same d d' r : same_tables d d' → join_run d' r = join_run d r.
Proof. intros (E1 & E2 & E3 & _). unfold join_run. by rewrite E1, E2, E3. Qed.

(** What a pending row says: its run is not marked. *)
Lemma pending_entry_some d id m t i msg :
  pending_entry d (id, m) = Some (t, i, msg) →
  i = id ∧ pm_run_id msg = id ∧ rm_trigger m = Trigger_webhook ∧ rm_message_published_at m = None.
Proof.
  unfold pending_entry. cbn [fst snd].
  destruct (db_runs (q_runs d) !! id) as [r|]; [|done]. cbn.
  destruct (join_run d r) as [[[pr rp] il]|]; [|done]. cbn.
  destruct (pending_row _ _ _ _ _ _ _) eqn:Hp; [|done]. intros [= <- <- <-].
  unfold pending_row in Hp. rewrite !andb_true_iff, !bool_decide_eq_true in Hp.
  destruct Hp as [[[[[[[[[[_ Ht] _] Hm] _] _] _] _] _] _] _].
  split_and!; try done. by destruct (rm_message_published_at m).
Qed.

Lemma pending_entry_same d d' kv :
  q_runs d' = q_runs d → same_tables d d' → pending_entry d' kv = pending_entry d kv.
Proof.
  intros Er Et. unfold pending_entry, pending_row. rewrite Er.
  destruct (db_runs (q_runs d) !! kv.1) as [r|]; [|done]. cbn. by rewrite (join_run_same d d' r Et).
Qed.

(** All pending messages, and the rows they come from. *)
Definition all_pending (d : EnqDb) : list PendingRunMessage :=
  snd <$> py_sorted entry_leb (omap (pending_entry d) (map_to_list (q_meta d))).

Lemma pending_messages_take d limit : pending_messages d limit = take limit (all_pending d).
Proof. unfold pending_messages, all_pending. by rewrite fmap_take. Qed.

Lemma all_pending_elem d msg :
  msg ∈ all_pending d ↔
  ∃ id m t, q_meta d !! id = Some m ∧ pending_entry d (id, m) = Some (t, id, msg).
Proof.
  unfold all_pending. rewrite list_elem_of_fmap. setoid_rewrite py_sorted_perm.
  setoid_rewrite list_elem_of_omap. split.
  - intros ([[t i] x] & -> & [id m] & Hm%elem_of_map_to_list & He).
    destruct (pending_entry_some _ _ _ _ _ _ He) as (-> & _). by exists id, m, t.
  - intros (id & m & t & Hm & He). exists (t, id, msg). split; [done|].
    exists (id, m). split; [by apply elem_of_map_to_list|done].
Qed.

(** Replay makes progress.  When the broker confirms and nothing else runs, a replay sends the
    first pending messages, as many as its limit allows, and no run whose message it sent is pending
    afterwards; a replay that sends fewer than its limit leaves nothing pending at all. *)
Theorem replay_drains confirms env now signals w limit w' n :
  (∀ k m, confirms k m = true) → (∀ k d, env k d = d) →
  replay_pending_publications confirms env now signals w limit = (w', n) →
  let w1 := if signals then fst (replay_pending confirms env now w limit) else w in
  let sent := pending_messages (w_db w1) limit in
  w_sent w' = w_sent w1 ++ sent
  ∧ (∀ msg, msg ∈ all_pending (w_db w') →
       msg ∈ all_pending (w_db w1) ∧ (pm_run_id msg ∉ (pm_run_id <$> sent)))
  ∧ ((length sent < limit)%nat → all_pending (w_db w') = []).
Proof.
  intros Hc He Hrun w1 sent. unfold replay_pending_publications in Hrun.
  assert (fst (publish_all confirms env now w1 sent) = w') as <-.
  { subst w1 sent. destruct signals.
    - destruct (replay_pending _ _ _ _ _) as [w2 k]. cbn in *.
      destruct (publish_all _ _ _ w2 _). by injection Hrun as -> _.
    - destruct (publish_all _ _ _ w _). by injection Hrun as -> _. }
  clear Hrun. destruct (publish_all_marks confirms env now sent w1 Hc He)
    as (_ & Hsent & Er & Et & Hother & Hms).
  assert (Hleft : ∀ msg, msg ∈ all_pending (w_db (fst (publish_all confirms env now w1 sent))) →
    msg ∈ all_pending (w_db w1) ∧ (pm_run_id msg ∉ (pm_run_id <$> sent))).
  { intros msg (id & m & t & Hm & Hp)%all_pending_elem.
    rewrite (pending_entry_same (w_db w1)) in Hp by done.
    destruct (pending_entry_some _ _ _ _ _ _ Hp) as (_ & Eid & Ht & Hn).
    destruct (decide (id ∈ (pm_run_id <$> sent))) as [Hi|Hi]; [by destruct (Hms _ _ Hi Hm Ht)|].
    rewrite Hother in Hm by done. split; [|congruence]. apply all_pending_elem. by exists id, m, t. }
  split_and!; [done|done|]. intros Hlen.
  destruct (all_pending (w_db (fst _))) as [|x l] eqn:El; [done|]. exfalso.
  destruct (Hleft x) as [Hx Hnot]; [by left|]. apply Hnot. apply list_elem_of_fmap. exists x.
  split; [done|]. subst sent. rewrite pending_messages_take in *. rewrite length_take in Hlen.
  rewrite take_ge by lia. done.
Qed.

(** A webhook run that still has to be sent: queued and unmarked, not cancelled, for the current head
    of an open pull request, its origin active, and for its provider what a review waits for. *)
Definition waiting (d : EnqDb) (id : UUID) : Prop :=
  ∃ r m pr rp il, db_runs (q_runs d) !! id = Some r ∧ q_meta d !! id = Some m
    ∧ join_run d r = Some (pr, rp, il) ∧ has_pointer (q_runs d) id = true
    ∧ rm_trigger m = Trigger_webhook ∧ rm_message_published_at m = None
    ∧ rm_base_ref m ≠ None ∧ run_state r = Queued ∧ run_cancel_requested r = false
    ∧ pr_state pr = Pr_open ∧ pr_head_sha pr = run_head_sha r
    ∧ rp_enabled rp = true ∧ rp_installation_available rp = true
    ∧ (il_provider il = u8 "github" ∧ pr_ai_review_labeled pr = true
       ∨ il_provider il ∈ [u8 "gitlab"; u8 "bitbucket"] ∧ rp_wait_for_ci rp = Wait_never).

Lemma absent_true {A} (o : option A) : absent o = true ↔ o = None.
Proof. by destruct o. Qed.

Lemma absent_false {A} (o : option A) : absent o = false ↔ o ≠ None.
Proof. by destruct o. Qed.

Lemma pending_row_spec d id r m pr rp il :
  pending_row d id r m pr rp il = true ↔
  has_pointer (q_runs d) id = true
    ∧ rm_trigger m = Trigger_webhook ∧ rm_message_published_at m = None
    ∧ rm_base_ref m ≠ None ∧ run_state r = Queued ∧ run_cancel_requested r = false
    ∧ pr_state pr = Pr_open ∧ pr_head_sha pr = run_head_sha r
    ∧ rp_enabled rp = true ∧ rp_installation_available rp = true
    ∧ (il_provider il = u8 "github" ∧ pr_ai_review_labeled pr = true
       ∨ il_provider il ∈ [u8 "gitlab"; u8 "bitbucket"] ∧ rp_wait_for_ci rp = Wait_never).
Proof.
  unfold pending_row. rewrite !andb_true_iff, !orb_true_iff, !andb_true_iff,
    !negb_true_iff, !bool_decide_eq_true, !elem_of_cons, elem_of_nil, absent_true, absent_false.
  autorewrite with dmc_bool. tauto.
Qed.

(** What is waiting is what the query finds. *)
Lemma waiting_pending d id : waiting d id ↔ ∃ msg, msg ∈ all_pending d ∧ pm_run_id msg = id.
Proof.
  setoid_rewrite all_pending_elem. unfold pending_entry. cbn [fst snd]. split.
  - intros (r & m & pr & rp & il & Hr & Hm & Hj & Hw). eexists. split.
    + exists id, m. eexists. split; [done|]. rewrite Hr. cbn. rewrite Hj. cbn.
      rewrite (proj2 (pending_row_spec d id r m pr rp il)) by done. done.
    + done.
  - intros (msg & (i & m & t & Hm & He) & Hid).
    destruct (db_runs (q_runs d) !! i) as [r|] eqn:Hr; [|done]. cbn in He.
    destruct (join_run d r) as [[[pr rp] il]|] eqn:Hj; [|done]. cbn in He.
    destruct (pending_row d i r m pr rp il) eqn:Hp; [|done]. injection He as _ <-. cbn in Hid. subst i.
    exists r, m, pr, rp, il. split_and!; try done; by apply pending_row_spec in Hp; intuition.
Qed.

(** A message carries the time its run was created at. *)
Lemma pending_created d msg :
  msg ∈ all_pending d → ∃ m, q_meta d !! pm_run_id msg = Some m ∧ pm_requested_at msg = rm_created_at m.
Proof.
  rewrite all_pending_elem. intros (i & m & t & Hm & He). exists m. unfold pending_entry in He. cbn [fst snd] in He.
  destruct (db_runs (q_runs d) !! i) as [r|]; [|done]. cbn in He.
  destruct (join_run d r) as [[[pr rp] il]|]; [|done]. cbn in He.
  destruct (pending_row d i r m pr rp il); [|done]. by injection He as _ <-.
Qed.

(** The query lists each run once, the oldest first. *)
Lemma pending_entry_keys d kv t i msg :
  pending_entry d kv = Some (t, i, msg) → i = fst kv ∧ pm_run_id msg = fst kv ∧ pm_requested_at msg = t.
Proof.
  unfold pending_entry. destruct (db_runs (q_runs d) !! kv.1) as [r|]; [|done]. cbn.
  destruct (join_run d r) as [[[pr rp] il]|]; [|done]. cbn.
  destruct (pending_row _ _ _ _ _ _ _); [|done]. by intros [= <- <- <-].
Qed.

Lemma pending_ids_nodup d : NoDup (pm_run_id <$> all_pending d).
Proof.
  unfold all_pending. rewrite <- list_fmap_compose, py_sorted_perm.
  assert (Hk : NoDup (map_to_list (q_meta d)).*1) by apply NoDup_fst_map_to_list.
  induction (map_to_list (q_meta d)) as [|kv l IH]; cbn; [constructor|].
  rewrite fmap_cons in Hk. apply NoDup_cons in Hk as [Hn Hk].
  destruct (pending_entry d kv) as [[[t i] msg]|] eqn:He; cbn; [|by apply IH].
  apply pending_entry_keys in He as (_ & Hid & _). apply NoDup_cons. split; [|by apply IH].
  rewrite Hid. intros ([[t' i'] x] & Hx & Hin)%list_elem_of_fmap. apply Hn.
  apply list_elem_of_omap in Hin as (kv' & Hin & He').
  apply pending_entry_keys in He' as (_ & Hid' & _). cbn in Hx. rewrite Hx, Hid'.
  by apply list_elem_of_fmap_2.
Qed.

Lemma entry_leb_total a b : entry_leb a b = true ∨ entry_leb b a = true.
Proof.
  destruct a as [[ta ia] x], b as [[tb ib] y]. unfold entry_leb.
  rewrite !orb_true_iff, !andb_true_iff, !Z.ltb_lt, !Z.eqb_eq, !N.leb_le. lia.
Qed.

Lemma entry_leb_trans a b c :
  leP entry_leb a b → leP entry_leb b c → leP entry_leb a c.
Proof.
  destruct a as [[ta ia] x], b as [[tb ib] y], c as [[tc ic] z]. unfold leP, entry_leb.
  rewrite !orb_true_iff, !andb_true_iff, !Z.ltb_lt, !Z.eqb_eq, !N.leb_le. lia.
Qed.

(** What a limit leaves out is no older than what it lets through. *)
Lemma pending_oldest_first d limit y :
  y ∈ all_pending d →
  y ∈ pending_messages d limit
  ∨ length (pending_messages d limit) = limit
    ∧ ∀ x, x ∈ pending_messages d limit → pm_requested_at x ≤ pm_requested_at y.
Proof.
  unfold pending_messages, all_pending. set (es := py_sorted entry_leb _). intros Hy.
  assert (Hes : ∀ e, e ∈ es → pm_requested_at (snd e) = fst (fst e)).
  { intros [[t i] m] He. subst es. rewrite elem_of_py_sorted in He.
    apply list_elem_of_omap in He as (kv & _ & He). by apply pending_entry_keys in He as (_ & _ & ?). }
  assert (Hsorted : StronglySorted (leP entry_leb) es).
  { apply Sorted_StronglySorted; [intros ? ? ?; apply entry_leb_trans|].
    apply py_sorted_sorted, entry_leb_total. }
  rewrite <- (take_drop limit es) in Hy, Hes, Hsorted. rewrite fmap_app, elem_of_app in Hy.
  setoid_rewrite elem_of_app in Hes.
  destruct Hy as [Hy|Hy]; [by left|right]. apply list_elem_of_fmap in Hy as (ey & -> & Hy). split.
  - rewrite length_fmap, length_take. destruct (decide (limit ≤ length es)%nat); [lia|].
    rewrite drop_ge in Hy by lia. by apply elem_of_nil in Hy.
  - intros x (ex & -> & Hx)%list_elem_of_fmap.
    pose proof (StronglySorted_app_1_elem_of _ _ _ _ _ Hsorted Hx Hy) as Hle.
    rewrite !Hes by auto. destruct ex as [[ta ia] mx], ey as [[tb ib] my].
    unfold leP, entry_leb in Hle. cbn.
    rewrite !orb_true_iff, !andb_true_iff, !Z.ltb_lt, !Z.eqb_eq in Hle. lia.
Qed.


(** ** Witnesses *)

Definition sample_pr : PullRequestRecord :=
  mkPullRequestRecord 5 4 700 12
    (mkPrMetadata (u8 "Title") None (Some (u8 "dev")) (u8 "https://g/pr/12") (u8 "feature")
       (u8 "main") (u8 "base")) (u8 "abc") Pr_open true (Some 0) None
    (mkReviewerIntent false None None None None None None) (Some 0) (Some 0) [].
Definition sample_repository : RepositoryRecord :=
  mkRepositoryRecord 3 70 (u8 "org/repo") true true Wait_never Engine_fast Th_all 20 None.
Definition sample_installation : InstallationRecord :=
  mkInstallationRecord (u8 "github") 7 2 (Some 1) false.
Definition sample_tables : EnqDb :=
  mkEnqDb (mkDb ∅ {[5%N := mkCodeChange true (u8 "abc") 4 true 3 false true (u8 "github") 2 0 0]}
             ∅ [] ∅ ∅ []) ∅ ∅ {[5%N := sample_pr]} {[4%N := sample_repository]}
    {[3%N := sample_installation]} [mkRuleVersionRow 30 4 true]
    [mkPromptVersionRow 31 (u8 "review.system") true] [].
Definition sample_world : World := mkWorld sample_tables [] 0.
Definition sample_now (n : nat) : Z := Z.of_nat n.
Definition sample_fresh (n : nat) : UUID := (100 + N.of_nat n)%N.
Definition sample_lock (_ : bool) (_ : EnqDb) (_ : UUID) : CandidateMiss + LockedRows :=
  inl Missing_installation.
Definition sample_gate : UUID → pystr → option Z → result CiExc CiEligibility :=
  github_gate (λ _, eligibility_get sample_tables) (sample_ci []) 99 0.
Definition sample_enqueue (confirms : nat → PendingRunMessage → bool) (w : World)
  : World * result EnqExc EnqueueResult :=
  try_enqueue sample_lock sample_gate confirms (λ _ d, d) sample_now sample_fresh w 5 (u8 "abc")
    (Some 7) None None.

(** The first call enqueues, the second is a duplicate. *)
Lemma enqueue_authorised_witness :
  let confirms := λ _ _, true in
  let w1 := fst (sample_enqueue confirms sample_world) in
  snd (sample_enqueue confirms sample_world)
  = Ok (mkEnqueueResult Enqueued (Some 100%N) None None)
  ∧ snd (sample_enqueue confirms w1)
    = Ok (mkEnqueueResult DuplicateRun None (Some (u8 "active_run")) None)
  ∧ open_labelled_head sample_tables 5 (u8 "abc") (Some 7)
  ∧ length (w_sent w1) = 1%nat.
Proof.
  intros confirms w1. split; [vm_compute; reflexivity|]. split; [vm_compute; reflexivity|].
  split; [|vm_compute; reflexivity].
  destruct (enqueue_authorised sample_lock (λ _, sample_tables) (sample_ci []) 99 0 confirms
              (λ _ d, d) sample_now sample_fresh sample_world 5 (u8 "abc") (Some 7) None None
              (fst (sample_enqueue confirms sample_world)) (snd (sample_enqueue confirms sample_world)))
    as [[H _]|(r & c & key & login & d1 & _ & H & _)].
  - unfold sample_enqueue, sample_gate. by destruct (try_enqueue _ _ _ _ _ _ _ _ _ _ _ _).
  - exfalso. assert (w_steps (fst (sample_enqueue confirms sample_world)) = w_steps sample_world)
      as E by (by rewrite H). vm_compute in E. discriminate.
  - exact H.
Defined.

Lemma sample_world_ok : world_ok sample_world.
Proof. split; [split|]; cbn; try done. intros id. rewrite !lookup_empty. done. Defined.

Lemma sample_reads_id n id c : (λ _ : nat, eligibility_get sample_tables) n id = Some c → ec_code_change_id c = id.
Proof. intros H. by apply eligibility_get_github in H as [H _]. Defined.


Lemma replay_drains_witness :
  let w1 := fst (sample_enqueue (λ _ _, false) sample_world) in
  length (all_pending (w_db w1)) = 1%nat
  ∧ all_pending (w_db (fst (replay_pending_publications (λ _ _, true) (λ _ d, d) sample_now false w1 10)))
    = [].
Proof.
  intros w1. split; [vm_compute; reflexivity|].
  destruct (replay_drains (λ _ _, true) (λ _ d, d) sample_now false w1 10
    (fst (replay_pending_publications (λ _ _, true) (λ _ d, d) sample_now false w1 10))
    (snd (replay_pending_publications (λ _ _, true) (λ _ d, d) sample_now false w1 10)))
    as (_ & _ & H).
  - done.
  - done.
  - by destruct (replay_pending_publications _ _ _ _ _ _).
  - apply H. vm_compute. lia.
Defined.
