(* ===== verification/Rerun.v ===== *)
(** * Reruns ([rerun_run.py], [infrastructure/rerun_store.py])

    A user asks for a new run of an old one.  The decision is made from rows read under the locks of
    the transaction, except for the old run itself, which is read before: [d0] is the database of
    that first read, [d] the locked one. *)

From Stdlib Require Import String QArith.
From stdpp Require Import numbers gmap.
From S2P Require Import Prelude PyText PyHash DiffMap Verdict RunFailures RunStore GithubProjection.
From S2P Require Import Eligibility Enqueue EnqueueFacts.
#[local] Open Scope Z_scope.

(** ** Facts and outcome *)

Inductive RerunOutcome : Type :=
| Rerun_created | Rerun_not_found | Rerun_conflict | Rerun_not_configured | Rerun_origin_changed.
#[export] Instance RerunOutcome_eq_dec : EqDecision RerunOutcome.
Proof. solve_decision. Defined.

Record RerunOriginFacts : Type := mkRerunOriginFacts {
  ro_installation_id : option UUID;
  ro_provider : option pystr;
  ro_workspace_id : option UUID;
  ro_account_external_id : option Z;
  ro_retired : bool
}.

Record RerunFacts : Type := mkRerunFacts {
  rf_code_change_id : UUID;
  rf_original_repository_id : UUID;
  rf_rule_repository_id : UUID;
  rf_origin : RerunOriginFacts;
  rf_candidate : CandidateMiss + RunInsertCandidate;
  rf_current_origin : option RerunOriginFacts;
  rf_current_repository_id : option UUID;
  rf_pull_request_open : bool;
  rf_active_run : bool;
  rf_origin_active : bool
}.

Definition same_id (a b : option UUID) : bool := bool_decide (a = b).

(** The current origin may stand for the original one. *)
Definition origin_allowed (facts : RerunFacts) (current : RerunOriginFacts) : bool :=
  let origin := rf_origin facts in
  if absent (ro_installation_id origin) || ro_retired current
     || negb (same_id (rf_current_repository_id facts) (Some (rf_original_repository_id facts)))
  then false
  else if same_id (ro_installation_id current) (ro_installation_id origin)
  then ostr_eqb (ro_provider current) (ro_provider origin)
       && same_id (ro_workspace_id current) (ro_workspace_id origin)
  else ostr_eqb (ro_provider origin) (Some (u8 "github"))
       && ostr_eqb (ro_provider current) (Some (u8 "github"))
       && ro_retired origin
       && same_id (rf_current_repository_id facts) (Some (rf_rule_repository_id facts))
       && same_id (ro_workspace_id current) (ro_workspace_id origin)
       && negb (absent (ro_account_external_id origin))
       && bool_decide (ro_account_external_id current = ro_account_external_id origin).

(** The locked candidate belongs to the current origin. *)
Definition candidate_of_origin (facts : RerunFacts) (current : RerunOriginFacts)
    (c : RunInsertCandidate) : bool :=
  same_id (Some (rc_origin_provider_installation_id c)) (ro_installation_id current)
  && ostr_eqb (Some (rc_provider c)) (ro_provider current)
  && same_id (Some (rc_workspace_id c)) (ro_workspace_id current)
  && same_id (Some (rc_repository_id c)) (rf_current_repository_id facts).

Definition rerun_outcome (facts : RerunFacts) : RerunOutcome :=
  if negb (rf_pull_request_open facts) || rf_active_run facts then Rerun_conflict
  else if ostr_eqb (ro_provider (rf_origin facts)) (Some (u8 "bitbucket"))
          && negb (rf_origin_active facts)
  then Rerun_origin_changed
  else match rf_current_origin facts with
       | None => Rerun_origin_changed
       | Some current =>
           if negb (origin_allowed facts current) then Rerun_origin_changed
           else match rf_candidate facts with
                | inl miss =>
                    if bool_decide (miss ∈ [Missing_rules; Missing_prompt])
                    then Rerun_not_configured else Rerun_origin_changed
                | inr c =>
                    if negb (ec_repository_enabled (rc_ci c)) then Rerun_conflict
                    else if negb (candidate_of_origin facts current c) then Rerun_origin_changed
                    else Rerun_created
                end
       end.

(** ** The store *)

Section Store.
(** [lock_other] as in [Enqueue]; [authorized] is [authorized_run] for the caller's scope;
    [continuous] is [bitbucket_rerun_origin_continuous]; [portal_login] the name of the caller. *)
Context (lock_other : bool → EnqDb → UUID → (CandidateMiss + LockedRows)%type)
        (authorized : EnqDb → UUID → bool) (continuous : EnqDb → UUID → bool)
        (portal_login : EnqDb → option pystr).

Definition origin_facts (id : UUID) (i : InstallationRecord) : RerunOriginFacts :=
  mkRerunOriginFacts (Some id) (Some (il_provider i)) (Some (il_workspace_id i))
    (il_account_external_id i) (il_deleted i).

(** The installation a run began with; its row may be gone. *)
Definition original_origin (d0 : EnqDb) (r : Run) : RerunOriginFacts :=
  match pin_origin (run_pinned r) with
  | Some o =>
      match q_installations d0 !! o with
      | Some i => origin_facts o i
      | None => mkRerunOriginFacts (Some o) None None None false
      end
  | None => mkRerunOriginFacts None None None None false
  end.

Definition rule_repository (d0 : EnqDb) (rule : UUID) : option UUID :=
  rv_repository_id <$> find_first (λ v, (rv_id v =? rule)%N) (q_rules d0).

Definition load_rerun_facts (d0 d : EnqDb) (run_id : UUID) : result EnqExc (option RerunFacts) :=
  match (r ← db_runs (q_runs d0) !! run_id;
         m ← q_meta d0 !! run_id;
         pr ← q_prs d0 !! pin_code_change_id (run_pinned r);
         rule ← rule_repository d0 (rm_rule_version_id m);
         if authorized d0 run_id then Some (r, pr, rule) else None) with
  | None => Ok None
  | Some (r, pr0, rule) =>
      let cc := pin_code_change_id (run_pinned r) in
      let origin := original_origin d0 r in
      candidate ← lock_candidate lock_other true d cc;
      let pr := q_prs d !! cc in
      let repository_id := pr ≫= λ p, (λ _, pr_repository_id p) <$> q_repositories d !! pr_repository_id p in
      let current :=
        p ← pr;
        repository ← q_repositories d !! pr_repository_id p;
        origin_facts (rp_provider_installation_id repository)
          <$> q_installations d !! rp_provider_installation_id repository in
      Ok (Some (mkRerunFacts cc (pr_repository_id pr0) rule origin candidate current repository_id
        (match pr with Some p => bool_decide (pr_state p = Pr_open) | None => false end)
        (negb (absent (active_run d cc)))
        (if ostr_eqb (ro_provider origin) (Some (u8 "bitbucket")) then continuous d run_id else true)))
  end.

Definition rerun_key (id : UUID) : result EnqExc pystr :=
  match utf8_encode (u8 "rerun:" ++ str_of_uuid id) with
  | Some bytes => Ok (sha256_hex bytes)
  | None => Err Enq_encode
  end.

Definition key_taken (d : EnqDb) (key : pystr) : bool :=
  existsb (λ kv, rm_idempotency_key (snd kv) =?s key) (map_to_list (q_meta d)).

(** [insert_rerun]; a unique constraint that is violated raises. *)
Definition insert_rerun (d : EnqDb) (c : RunInsertCandidate) (cc : UUID) (now : Z) (fresh : UUID)
  : result EnqExc (EnqDb * PendingRunMessage) :=
  key ← rerun_key fresh;
  match insert_run fresh (candidate_pinned cc c) now (key_taken d key) (q_runs d) with
  | (_, false) => Err Enq_integrity
  | (runs, true) =>
      let meta := new_meta c Trigger_rerun key (portal_login d) now in
      d' ← add_bitbucket_origin fresh c (with_runs runs (<[fresh := meta]> (q_meta d)) d);
      Ok (d', from_candidate fresh c now Trigger_rerun)
  end.

Definition create_rerun (d0 d : EnqDb) (run_id : UUID) (now : Z) (fresh : UUID)
  : result EnqExc (EnqDb * RerunOutcome * option PendingRunMessage) :=
  facts ← load_rerun_facts d0 d run_id;
  match facts with
  | None => Ok (d, Rerun_not_found, None)
  | Some facts =>
      match rerun_outcome facts, rf_candidate facts with
      | Rerun_created, inr c =>
          '(d', m) ← insert_rerun d c (rf_code_change_id facts) now fresh;
          Ok (d', Rerun_created, Some m)
      | outcome, _ => Ok (d, outcome, None)
      end
  end.

(** ** The use case *)

Inductive RerunExc : Type :=
| RerunConflict | RerunNotConfigured | RerunOriginConflict | Rerun_store (e : EnqExc).

(** [RerunRun.execute] returns the run it then reads, or [None]; [w_db w] is the locked database.
    [publisher] is whether there is one. *)
Definition rerun_execute (publisher : bool) (confirms : nat → PendingRunMessage → bool)
    (env : nat → EnqDb → EnqDb) (now : nat → Z) (fresh : nat → UUID) (d0 : EnqDb) (w : World)
    (run_id : UUID) : World * result RerunExc (option UUID) :=
  let n := w_steps w in
  match create_rerun d0 (w_db w) run_id (now n) (fresh n) with
  | Err e => (w, Err (Rerun_store e))
  | Ok (_, Rerun_not_found, _) => (w, Ok None)
  | Ok (_, Rerun_conflict, _) => (w, Err RerunConflict)
  | Ok (_, Rerun_not_configured, _) => (w, Err RerunNotConfigured)
  | Ok (_, Rerun_origin_changed, _) => (w, Err RerunOriginConflict)
  | Ok (d', Rerun_created, None) => (w, Err (Rerun_store Enq_integrity))
  | Ok (d', Rerun_created, Some m) =>
      let d1 := env (S n) d' in
      if publisher && confirms (S n) m
      then (mkWorld (mark_rerun_published d1 (pm_run_id m) (now (S n))) (w_sent w ++ [m]) (S (S n)),
            Ok (Some (pm_run_id m)))
      else (mkWorld d1 (w_sent w) (S (S n)), Ok (Some (pm_run_id m)))
  end.
End Store.

(** ** What a rerun is allowed to do *)

Lemma insert_rerun_spec portal_login d c cc now fresh d' m :
  insert_rerun portal_login d c cc now fresh = Ok (d', m) →
  m = from_candidate fresh c now Trigger_rerun
  ∧ ∃ key, key_taken d key = false
    ∧ run_added fresh cc c now (new_meta c Trigger_rerun key (portal_login d) now) d d'.
Proof.
  unfold insert_rerun. destruct (rerun_key fresh) as [key|]; [|done]. cbn [mbind result_bind].
  unfold insert_run. cbn [pin_code_change_id candidate_pinned].
  destruct (_ && _ && _) eqn:E; [|done].
  destruct (add_bitbucket_origin _ _ _) as [d2|] eqn:Hb; [|done]. cbn. intros [= <- <-].
  apply andb_true_iff in E as [[E1%bool_decide_eq_true E2%negb_true_iff]%andb_true_iff E3%negb_true_iff].
  apply add_bitbucket_origin_spec in Hb as (F1 & F2 & F3).
  split; [done|]. exists key. split; [done|]. split; [done|]. split.
  - apply active_run_none. intros id r Hr Ha.
    unfold active_run_of in E2. rewrite existsb_rows in E2. specialize (E2 id r Hr). cbn in E2.
    rewrite Ha in E2. by apply N.eqb_neq in E2.
  - split; [by rewrite F1|]. split; [exact F2|exact F3].
Qed.

Lemma key_taken_false d key :
  key_taken d key = false ↔ ∀ id m, q_meta d !! id = Some m → rm_idempotency_key m ≠ key.
Proof.
  unfold key_taken. rewrite existsb_rows. cbn. by setoid_rewrite str_eqb_neq.
Qed.

(** The installation [i] of the current repository may act for [o], the one of the old run. *)
Definition may_replace (o i : InstallationRecord) (same_row same_rule : Prop) : Prop :=
  il_workspace_id i = il_workspace_id o ∧ il_provider i = il_provider o ∧ il_deleted i = false
  ∧ (same_row ∨ (il_provider o = u8 "github" ∧ il_deleted o = true ∧ same_rule
                 ∧ ∃ a, il_account_external_id o = Some a ∧ il_account_external_id i = Some a)).

Lemma origin_allowed_spec facts d0 r cid i :
  rf_origin facts = original_origin d0 r →
  origin_allowed facts (origin_facts cid i) = true →
  rf_current_repository_id facts = Some (rf_original_repository_id facts)
  ∧ ∃ oid o, pin_origin (run_pinned r) = Some oid ∧ q_installations d0 !! oid = Some o
    ∧ may_replace o i (cid = oid)
        (rf_rule_repository_id facts = rf_original_repository_id facts).
Proof.
  unfold origin_allowed. intros ->. destruct (_ || _ || _) eqn:E; [done|].
  apply orb_false_iff in E as [[E1 E2]%orb_false_iff E3%negb_false_iff%bool_decide_eq_true].
  cbn in E2. intros H. split; [done|].
  unfold original_origin in *. destruct (pin_origin (run_pinned r)) as [oid|]; [|done].
  exists oid. destruct (q_installations d0 !! oid) as [o|] eqn:Ho.
  - exists o. split_and!; try done. unfold may_replace, same_id, origin_facts in *. cbn in H.
    case_bool_decide as Eid.
    + apply andb_true_iff in H as [Hp%str_eqb_eq Hw%bool_decide_eq_true].
      injection Eid as ->. injection Hw as ->. split_and!; try done. by left.
    + rewrite !andb_true_iff, !bool_decide_eq_true in H.
      destruct H as [[[[[[Hp Hq] Hr] Hs] Ht] Hu] Hv].
      apply str_eqb_eq in Hp, Hq. injection Ht as ->. rewrite Hp, Hq.
      split_and!; try done. right. split_and!; try done; [congruence|].
      destruct (il_account_external_id o) as [a|]; [|done]. by exists a.
  - unfold same_id in H. cbn in H. case_bool_decide; [done|]. done.
Qed.

Lemma rerun_outcome_created facts :
  rerun_outcome facts = Rerun_created →
  rf_pull_request_open facts = true ∧ rf_active_run facts = false
  ∧ ∃ current c, rf_current_origin facts = Some current ∧ rf_candidate facts = inr c
    ∧ origin_allowed facts current = true ∧ ec_repository_enabled (rc_ci c) = true
    ∧ candidate_of_origin facts current c = true.
Proof.
  unfold rerun_outcome.
  destruct (rf_pull_request_open facts); [|done]. destruct (rf_active_run facts); [done|]. cbn.
  destruct (_ && _); [done|]. destruct (rf_current_origin facts) as [current|]; [|done].
  destruct (origin_allowed facts current) eqn:Ho; [|done]. cbn.
  destruct (rf_candidate facts) as [miss|c]; [by case_bool_decide|].
  destruct (ec_repository_enabled (rc_ci c)) eqn:He; [|done]. cbn.
  destruct (candidate_of_origin facts current c) eqn:Hc; [|done]. intros _.
  split_and!; try done. by exists current, c.
Qed.

Section Facts.
Context (lock_other : bool → EnqDb → UUID → (CandidateMiss + LockedRows)%type)
        (authorized : EnqDb → UUID → bool) (continuous : EnqDb → UUID → bool)
        (portal_login : EnqDb → option pystr).

(** What a created rerun is: a run for the same pull request and repository as the old run, for an
    installation that may act for the old one, while the pull request is open and has no other run. *)
Definition rerun_of (d0 d d' : EnqDb) (run_id fresh : UUID) (now : Z) (m : PendingRunMessage) : Prop :=
  ∃ r oid o pr0 pr repository i rule c key,
    db_runs (q_runs d0) !! run_id = Some r ∧ authorized d0 run_id = true
    ∧ pin_origin (run_pinned r) = Some oid ∧ q_installations d0 !! oid = Some o
    ∧ q_prs d0 !! pin_code_change_id (run_pinned r) = Some pr0
    ∧ q_prs d !! pin_code_change_id (run_pinned r) = Some pr
    ∧ pr_state pr = Pr_open ∧ pr_repository_id pr = pr_repository_id pr0
    ∧ q_repositories d !! pr_repository_id pr = Some repository
    ∧ q_installations d !! rp_provider_installation_id repository = Some i
    ∧ may_replace o i (rp_provider_installation_id repository = oid) (rule = pr_repository_id pr)
    ∧ ec_repository_enabled (rc_ci c) = true
    ∧ rc_origin_provider_installation_id c = rp_provider_installation_id repository
    ∧ rc_provider c = il_provider i ∧ rc_workspace_id c = il_workspace_id i
    ∧ rc_repository_id c = pr_repository_id pr
    ∧ m = from_candidate fresh c now Trigger_rerun
    ∧ run_added fresh (pin_code_change_id (run_pinned r)) c now
        (new_meta c Trigger_rerun key (portal_login d) now) d d'.

Lemma create_rerun_created d0 d run_id now fresh d' m :
  create_rerun lock_other authorized continuous portal_login d0 d run_id now fresh
  = Ok (d', Rerun_created, Some m) →
  rerun_of d0 d d' run_id fresh now m ∧ (enq_wf d → enq_wf d').
Proof.
  unfold create_rerun, load_rerun_facts.
  destruct (db_runs (q_runs d0) !! run_id) as [r|] eqn:Hr; [|done]. cbn.
  destruct (q_meta d0 !! run_id) as [m0|]; [|done]. cbn.
  destruct (q_prs d0 !! pin_code_change_id (run_pinned r)) as [pr0|] eqn:Hpr0; [|done]. cbn.
  destruct (rule_repository d0 (rm_rule_version_id m0)) as [rule|]; [|done]. cbn.
  destruct (authorized d0 run_id) eqn:Hauth; [|done]. cbn.
  destruct (lock_candidate _ _ _ _) as [candidate|]; [|done]. cbn.
  match goal with |- context [rerun_outcome ?f] => set (facts := f) end.
  destruct (rerun_outcome facts) eqn:Ho; try (destruct candidate; done).
  apply rerun_outcome_created in Ho as (Hopen & _ & current & c & Hcur & Hc & Hal & Hen & Hof).
  cbn in Hc. subst candidate. cbn in Hopen, Hcur.
  destruct (q_prs d !! pin_code_change_id (run_pinned r)) as [pr|] eqn:Hpr; [|done].
  apply bool_decide_eq_true in Hopen. cbn in Hcur.
  destruct (q_repositories d !! pr_repository_id pr) as [repository|] eqn:Hrp; [|done]. cbn in Hcur.
  destruct (q_installations d !! rp_provider_installation_id repository) as [i|] eqn:Hi; [|done].
  injection Hcur as <-.
  destruct (origin_allowed_spec facts d0 r _ _ eq_refl Hal) as (Hrepo & oid & o & Hoid & Hoo & Hmay).
  cbn in Hrepo. rewrite Hrp in Hrepo. injection Hrepo as Hrepo. cbn in Hmay. rewrite <- Hrepo in Hmay.
  destruct (insert_rerun _ _ _ _ _ _) as [[d2 m2]|] eqn:Hins; [|done]. cbn. intros [= <- <-].
  apply insert_rerun_spec in Hins as (-> & key & Hkey & Hadd).
  unfold candidate_of_origin, same_id in Hof. rewrite !andb_true_iff, !bool_decide_eq_true in Hof.
  destruct Hof as [[[F1 F2] F3] F4]. cbn in F1, F2, F3, F4. rewrite Hrp in F4. cbn in F4.
  apply str_eqb_eq in F2. injection F1 as F1. injection F3 as F3. injection F4 as F4.
  split.
  - exists r, oid, o, pr0, pr, repository, i, rule, c, key. do 17 (split; [done|]). exact Hadd.
  - intros Hw. apply (run_added_wf _ _ _ _ _ _ _ Hw Hadd). intros j mj Hj. split; [|done].
    by eapply key_taken_false.
Qed.
End Facts.

(** C29. A rerun never widens authority.  When one is created, the caller was authorised for the
    old run, its pull request is open and has no active run, and is still in the same repository; the
    new run belongs to that repository and to its current installation, which is alive, of the same
    workspace and provider, and is the installation of the old run, or on GitHub a new one of the
    same account after the old one was retired.  One run is added, its message is sent at most once
    and marked only when confirmed.  In every other case nothing changes. *)
Theorem rerun_keeps_authority lock_other authorized continuous portal_login publisher confirms env now
    fresh d0 w run_id w' res :
  rerun_execute lock_other authorized continuous portal_login publisher confirms env now fresh d0 w
    run_id = (w', res) →
  (w' = w ∧ ∀ id, res ≠ Ok (Some id))
  ∨ (∃ d1 m, res = Ok (Some (pm_run_id m))
      ∧ rerun_of authorized portal_login d0 (w_db w) d1 run_id (fresh (w_steps w))
          (now (w_steps w)) m
      ∧ (enq_wf (w_db w) → enq_wf d1)
      ∧ ((w_sent w' = w_sent w ∧ w_db w' = env (S (w_steps w)) d1)
         ∨ (w_sent w' = w_sent w ++ [m] ∧ w_db w' = mark_rerun_published (env (S (w_steps w)) d1)
                                                     (pm_run_id m) (now (S (w_steps w)))))).
Proof.
  unfold rerun_execute. destruct (create_rerun _ _ _ _ _ _ _ _ _) as [[[d1 outcome] om]|e] eqn:Hc.
  2: { intros [= <- <-]. left. done. }
  destruct outcome; try (intros [= <- <-]; by left).
  destruct om as [m|]; [|intros [= <- <-]; by left].
  destruct (create_rerun_created _ _ _ _ _ _ _ _ _ _ _ Hc) as [Hof Hwf].
  destruct (publisher && _); intros [= <- <-]; right; exists d1, m; split_and!; try done;
    first [by left|by right].
Qed.

(** ** Witness *)

(** The run 50 of the sample pull request, of a retired installation of the same account. *)
Definition sample_old_run : Run :=
  let r := new_run (mkPinned 5 (Some 9%N) (u8 "base") (u8 "old") Engine_fast) 0 in
  mkRun (run_pinned r) Succeeded 1 0 None None false None None None (Some 1) None None.
Definition sample_rerun_tables : EnqDb :=
  mkEnqDb (mkDb {[50%N := sample_old_run]} ∅ ∅ [] ∅ ∅ [])
    {[50%N := mkRunMeta Trigger_webhook (u8 "k") (Some (u8 "main")) 30 31 Th_all 20 None None None 0
                (Some 0) None]} ∅
    {[5%N := sample_pr]} {[4%N := sample_repository]}
    (<[9%N := mkInstallationRecord (u8 "github") 6 2 (Some 1) true]> {[3%N := sample_installation]})
    [mkRuleVersionRow 30 4 true] [mkPromptVersionRow 31 (u8 "review.system") true] [].
Definition sample_rerun : World * result RerunExc (option UUID) :=
  rerun_execute sample_lock (λ _ _, true) (λ _ _, true) (λ _, None) true (λ _ _, true) (λ _ d, d)
    sample_now sample_fresh sample_rerun_tables (mkWorld sample_rerun_tables [] 0) 50.

Lemma rerun_keeps_authority_witness :
  snd sample_rerun = Ok (Some 100%N)
  ∧ ∃ d1 m, rerun_of (λ _ _, true) (λ _, None) sample_rerun_tables sample_rerun_tables d1 50 100 0 m.
Proof.
  split; [vm_compute; reflexivity|].
  destruct (rerun_keeps_authority sample_lock (λ _ _, true) (λ _ _, true) (λ _, None) true (λ _ _, true)
              (λ _ d, d) sample_now sample_fresh sample_rerun_tables
              (mkWorld sample_rerun_tables [] 0) 50 (fst sample_rerun) (snd sample_rerun))
    as [[_ H]|(d1 & m & _ & H & _)].
  - unfold sample_rerun. by destruct (rerun_execute _ _ _ _ _ _ _ _ _ _ _ _).
  - destruct (H 100%N). vm_compute. reflexivity.
  - exists d1, m. exact H.
Defined.
