(* ===== verification/Triggers.v ===== *)
(** * What asks for a run ([trigger_from_delivery.py], [sweep_no_ci.py])

    Deliveries ask for a run of one pull request or of all with a head; the sweep asks for those
    whose window without CI has passed.  Their queries are those of
    [infrastructure/webhook_run_targets.py] and [infrastructure/no_ci_sweep_candidates.py]. *)

From Stdlib Require Import String QArith.
From stdpp Require Import numbers gmap.
From S2P Require Import Prelude PyText PyHash DiffMap Verdict RunFailures RunStore GithubProjection.
From S2P Require Import Eligibility Enqueue EnqueueFacts.
#[local] Open Scope Z_scope.

(** ** The enqueuer as both see it *)

(** [WebhookRunEnqueuer.execute]: head, expected installation and [triggered_by]. *)
Definition Enqueuer : Type :=
  World → UUID → pystr → option Z → option (option pystr) → World * result EnqExc EnqueueResult.

(** A pull request with a run that still works on it, or with a webhook run of its head. *)
Definition has_webhook_run (d : EnqDb) (id : UUID) (head : pystr) : Prop :=
  ∃ k m r, q_meta d !! k = Some m ∧ rm_trigger m = Trigger_webhook
    ∧ db_runs (q_runs d) !! k = Some r ∧ pin_code_change_id (run_pinned r) = id
    ∧ run_head_sha r = head.

(** What the triggers rely on: the enqueuer only adds runs, and says the truth about them. *)
Class EnqueuerLaws (enq : Enqueuer) : Prop := {
  enq_tables : ∀ w id head n t, same_tables (w_db w) (w_db (fst (enq w id head n t)));
  enq_keeps : ∀ w id head n t k r, db_runs (q_runs (w_db w)) !! k = Some r →
    db_runs (q_runs (w_db (fst (enq w id head n t)))) !! k = Some r;
  enq_keeps_meta : ∀ w id head n t k m r, q_meta (w_db w) !! k = Some m →
    db_runs (q_runs (w_db w)) !! k = Some r →
    ∃ m', q_meta (w_db (fst (enq w id head n t))) !! k = Some m' ∧ rm_trigger m' = rm_trigger m;
  enq_enqueued : ∀ w id head n t r, snd (enq w id head n t) = Ok r → es_status r = Enqueued →
    has_webhook_run (w_db (fst (enq w id head n t))) id head;
  enq_deferred : ∀ w id head n t r, snd (enq w id head n t) = Ok r → es_status r = Deferred →
    active_run (w_db (fst (enq w id head n t))) id ≠ None
}.

(** ** The no-CI sweep *)

Record DueNoCiCandidate : Type := mkDueNoCiCandidate {
  dn_code_change_id : UUID; dn_head_sha : pystr
}.

Definition webhook_run (d : EnqDb) (id : UUID) (head : pystr) : bool :=
  existsb (λ kv, bool_decide (rm_trigger (snd kv) = Trigger_webhook)
                 && match db_runs (q_runs d) !! fst kv with
                    | Some r => (pin_code_change_id (run_pinned r) =? id)%N
                                && (run_head_sha r =?s head)
                    | None => false
                    end)
    (map_to_list (q_meta d)).

(** A live GitHub source: repository and installation of a pull request row. *)
Definition github_source (d : EnqDb) (pr : PullRequestRecord)
  : option (RepositoryRecord * InstallationRecord) :=
  match q_repositories d !! pr_repository_id pr with
  | Some repository =>
      match q_installations d !! rp_provider_installation_id repository with
      | Some installation =>
          if (il_provider installation =?s u8 "github") && negb (il_deleted installation)
             && rp_enabled repository && rp_installation_available repository
          then Some (repository, installation) else None
      | None => None
      end
  | None => None
  end.

Definition no_ci_due (d : EnqDb) (now : Z) (id : UUID) (pr : PullRequestRecord) : bool :=
  match github_source d pr with
  | Some (repository, _) =>
      bool_decide (pr_state pr = Pr_open) && pr_ai_review_labeled pr
      && match pr_ai_review_labeled_at pr, pr_head_first_seen_at pr with
         | Some labeled, Some seen => Z.max labeled seen + AUTO_WINDOW <=? now
         | _, _ => false
         end
      && match pr_ci_status pr with [] => true | _ :: _ => false end
      && bool_decide (rp_wait_for_ci repository = Wait_auto)
      && absent (active_run d id) && negb (webhook_run d id (pr_head_sha pr))
  | None => false
  end.

Definition list_due (d : EnqDb) (now : Z) (limit : nat) : list DueNoCiCandidate :=
  take limit ((λ kv, mkDueNoCiCandidate (fst kv) (pr_head_sha (snd kv)))
    <$> py_sorted (λ a b, (fst a <=? fst b)%N)
          (List.filter (λ kv, no_ci_due d now (fst kv) (snd kv)) (map_to_list (q_prs d)))).

Definition set_ci_status (status : list (pystr * json)) (r : PullRequestRecord) : PullRequestRecord :=
  mkPullRequestRecord (pr_id r) (pr_repository_id r) (pr_external_id r) (pr_external_number r)
    (pr_metadata r) (pr_head_sha r) (pr_state r) (pr_ai_review_labeled r) (pr_ai_review_labeled_at r)
    (pr_label_intent_updated_at r) (pr_reviewer r) (pr_head_first_seen_at r)
    (pr_provider_updated_at r) status.

Definition SWEEP_EXCLUDED : list (pystr * json) := [(u8 "sweep", JStr (u8 "excluded"))].

Definition exclude (d : EnqDb) (c : DueNoCiCandidate) : EnqDb :=
  match q_prs d !! dn_code_change_id c with
  | Some pr =>
      if negb (absent (github_source d pr)) && (pr_head_sha pr =?s dn_head_sha c)
         && match pr_ci_status pr with [] => true | _ :: _ => false end
      then with_prs (<[dn_code_change_id c := set_ci_status SWEEP_EXCLUDED pr]> (q_prs d)) d
      else d
  | None => d
  end.

(** The line [_log_outcome] writes. *)
Definition sweep_line (c : DueNoCiCandidate) (r : EnqueueResult) (excluded : bool) : pystr :=
  u8 "No-CI sweep " ++ describe_enqueue (dn_code_change_id c) (dn_head_sha c) r
  ++ (if excluded then u8 "; excluded until the head or label changes" else []).

Section Sweep.
Context (enq : Enqueuer).

(** The loop, with the candidates tried so far and the lines logged. *)
Fixpoint sweep_all (w : World) (cs : list DueNoCiCandidate)
  : World * result EnqExc (nat * list pystr) :=
  match cs with
  | [] => (w, Ok (O, []))
  | c :: cs' =>
      match enq w (dn_code_change_id c) (dn_head_sha c) None None with
      | (w1, Err e) => (w1, Err e)
      | (w1, Ok r) =>
          let excluded := negb (bool_decide (es_status r ∈ [Enqueued; Deferred])) in
          let w2 := if excluded
                    then mkWorld (exclude (w_db w1) c) (w_sent w1) (S (w_steps w1)) else w1 in
          match sweep_all w2 cs' with
          | (w3, Ok (n, lines)) => (w3, Ok (S n, sweep_line c r excluded :: lines))
          | (w3, Err e) => (w3, Err e)
          end
      end
  end.

(** [SweepNoCi.execute] *)
Definition sweep_no_ci (now : Z) (w : World) (limit : nat)
  : World * result EnqExc (nat * list pystr) :=
  sweep_all w (list_due (w_db w) now limit).

(** ** Deliveries *)

Record RunTriggerOutcome : Type := mkRunTriggerOutcome {
  to_detail : pystr; to_retry_required : bool
}.

Record CiTriggerEvent : Type := mkCiTriggerEvent {
  ct_installation_external_id : Z;
  ct_repository_external_id : Z;
  ct_head_sha : pystr;
  ct_event_name : pystr
}.

Definition NO_OPEN_PULL_REQUEST : pystr := u8 "no open pull request".
Definition NO_OPEN_PULL_REQUEST_AT_HEAD : pystr := u8 "no open pull request at this head".
Definition NOT_AN_AI_REVIEW_LABELED_ACTION : pystr := u8 "not an ai-review labeled action".

(** [_lock_active_installation] of the targets *)
Definition installation_active (d : EnqDb) (external_id : Z) : bool :=
  existsb (λ kv, (il_provider (snd kv) =?s u8 "github") && (il_external_id (snd kv) =? external_id)
                 && negb (il_deleted (snd kv)))
    (map_to_list (q_installations d)).

(** A pull request of this installation and repository, joined by their external ids. *)
Definition of_repository (d : EnqDb) (installation_external_id repository_external_id : Z)
    (pr : PullRequestRecord) : bool :=
  match q_repositories d !! pr_repository_id pr with
  | Some repository =>
      match q_installations d !! rp_provider_installation_id repository with
      | Some installation =>
          (il_provider installation =?s u8 "github")
          && (il_external_id installation =? installation_external_id)
          && (rp_external_id repository =? repository_external_id)
      | None => false
      end
  | None => false
  end.

(** [for_pr]: at most one row; two would raise [MultipleResultsFound], which the unique external
    ids of a repository exclude. *)
Definition for_pr (d : EnqDb) (e : PullRequestEvent) : option (UUID * pystr) :=
  if negb (installation_active d (ev_installation_external_id e)) then None
  else (λ kv, (fst kv, pr_head_sha (snd kv)))
         <$> find_first (λ kv, of_repository d (ev_installation_external_id e)
                                 (ev_repository_external_id e) (snd kv)
                               && (pr_external_id (snd kv) =? ev_external_id e)
                               && bool_decide (pr_state (snd kv) = Pr_open))
               (map_to_list (q_prs d)).

Definition ci_target (d : EnqDb) (e : CiTriggerEvent) (kv : UUID * PullRequestRecord) : bool :=
  of_repository d (ct_installation_external_id e) (ct_repository_external_id e) (snd kv)
  && (pr_head_sha (snd kv) =?s ct_head_sha e) && bool_decide (pr_state (snd kv) = Pr_open).

Definition ci_targets (d : EnqDb) (e : CiTriggerEvent) : list UUID :=
  fst <$> py_sorted (λ a b, (fst a <=? fst b)%N)
            (List.filter (ci_target d e) (map_to_list (q_prs d))).

(** The rows of a check suite or a status are no longer without CI. *)
Definition mark_ci_event (e : CiTriggerEvent) (ids : list UUID) (d : EnqDb) : EnqDb :=
  with_prs (map_imap (λ k r, Some (if bool_decide (k ∈ ids) && (pr_head_sha r =?s ct_head_sha e)
                                   then set_ci_status [(u8 "event", JStr (ct_event_name e))] r
                                   else r)) (q_prs d)) d.

Definition for_ci (d : EnqDb) (e : CiTriggerEvent) : EnqDb * list UUID :=
  if negb (installation_active d (ct_installation_external_id e)) then (d, [])
  else
    let ids := ci_targets d e in
    (if negb (bool_decide (ids = [])) && str_mem (ct_event_name e) [u8 "check_suite"; u8 "status"]
     then mark_ci_event e ids d else d, ids).

Definition trigger_enqueue (w : World) (id : UUID) (head : pystr) (installation : Z)
    (triggered_by : option (option pystr)) : World * result EnqExc RunTriggerOutcome :=
  match enq w id head (Some installation) triggered_by with
  | (w', Ok r) => (w', Ok (mkRunTriggerOutcome (describe_enqueue id head r)
                             (bool_decide (es_status r = Deferred))))
  | (w', Err e) => (w', Err e)
  end.

Definition on_pr (w : World) (e : PullRequestEvent) : World * result EnqExc RunTriggerOutcome :=
  match for_pr (w_db w) e with
  | None => (w, Ok (mkRunTriggerOutcome NO_OPEN_PULL_REQUEST false))
  | Some (id, head) =>
      trigger_enqueue w id head (ev_installation_external_id e) (Some (ev_sender_login e))
  end.

Definition on_label (w : World) (e : PullRequestEvent) (label_name : pystr)
  : World * result EnqExc RunTriggerOutcome :=
  if negb (label_name =?s u8 "ai-review") || negb (ev_action e =?s u8 "labeled")
  then (w, Ok (mkRunTriggerOutcome NOT_AN_AI_REVIEW_LABELED_ACTION false))
  else on_pr w e.

Fixpoint trigger_all (w : World) (e : CiTriggerEvent) (ids : list UUID)
  : World * result EnqExc (list RunTriggerOutcome) :=
  match ids with
  | [] => (w, Ok [])
  | id :: ids' =>
      match trigger_enqueue w id (ct_head_sha e) (ct_installation_external_id e) None with
      | (w1, Err x) => (w1, Err x)
      | (w1, Ok o) =>
          match trigger_all w1 e ids' with
          | (w2, Ok os) => (w2, Ok (o :: os))
          | (w2, Err x) => (w2, Err x)
          end
      end
  end.

Definition on_ci (w : World) (e : CiTriggerEvent) : World * result EnqExc RunTriggerOutcome :=
  let '(d, targets) := for_ci (w_db w) e in
  let w1 := mkWorld d (w_sent w) (S (w_steps w)) in
  match targets with
  | [] => (w1, Ok (mkRunTriggerOutcome NO_OPEN_PULL_REQUEST_AT_HEAD false))
  | _ =>
      match trigger_all w1 e targets with
      | (w2, Ok os) => (w2, Ok (mkRunTriggerOutcome (join (u8 "; ") (to_detail <$> os))
                                  (existsb to_retry_required os)))
      | (w2, Err x) => (w2, Err x)
      end
  end.
End Sweep.

(** ** [TryEnqueueWebhookRun] as the enqueuer *)

Definition webhook_enqueuer lock_other (gates : World → UUID → pystr → option Z → result CiExc CiEligibility)
    confirms now fresh : Enqueuer :=
  λ w id head n t, try_enqueue lock_other (gates w) confirms (λ _ d, d) now fresh w id head n None t.

Lemma mark_published_keeps d k t j m :
  q_meta d !! j = Some m → ∃ m', q_meta (mark_published d k t) !! j = Some m' ∧ rm_trigger m' = rm_trigger m.
Proof.
  intros Hm. destruct (decide (j = k)) as [->|Hj].
  - unfold mark_published. rewrite Hm. case_match; [|by exists m].
    cbn. rewrite lookup_insert_eq. by eexists.
  - exists m. by rewrite mark_published_other.
Qed.

(** A run was added and perhaps marked. *)
Lemma run_created_effect lock_other accepts env now fresh w w' id head installation identity r :
  (∀ n d, env n d = d) →
  run_created lock_other accepts env now fresh w w' id head installation identity r →
  same_tables (w_db w) (w_db w')
  ∧ (∀ k x, db_runs (q_runs (w_db w)) !! k = Some x → db_runs (q_runs (w_db w')) !! k = Some x)
  ∧ (∀ k m x, q_meta (w_db w) !! k = Some m → db_runs (q_runs (w_db w)) !! k = Some x →
       ∃ m', q_meta (w_db w') !! k = Some m' ∧ rm_trigger m' = rm_trigger m)
  ∧ has_webhook_run (w_db w') id head.
Proof.
  intros He (c & key & login & d1 & _ & (_ & Eh & _) & _ & (Hn & _ & Er & Em & Et) & _ & Hst).
  rewrite He in Hst. set (f := fresh (w_steps w)) in *.
  assert (Hd : q_runs (w_db w') = q_runs d1 ∧ same_tables d1 (w_db w')
    ∧ ∀ j m, q_meta d1 !! j = Some m →
        ∃ m', q_meta (w_db w') !! j = Some m' ∧ rm_trigger m' = rm_trigger m).
  { destruct Hst as [(_ & _ & ->)|(_ & _ & ->)].
    - destruct (mark_published_frame d1 f (now (S (w_steps w)))) as [F1 F2]. split_and!; try done.
      intros j m. apply mark_published_keeps.
    - split_and!; try done. intros j m Hj. by exists m. }
  destruct Hd as (Hr & Ht & Hm). split; [unfold same_tables in *; intuition congruence|].
  assert (Hne : ∀ k x, db_runs (q_runs (w_db w)) !! k = Some x → f ≠ k) by (intros; congruence).
  split_and!.
  - intros k x Hk. rewrite Hr, Er, lookup_insert_ne by (by eapply Hne). done.
  - intros k m x Hk Hx. apply Hm. rewrite Em, lookup_insert_ne by (by eapply Hne). done.
  - destruct (Hm f (new_meta c Trigger_webhook key login (now (w_steps w)))) as (m' & Hm' & Htr);
      [by rewrite Em, lookup_insert_eq|].
    exists f, m'. eexists. split_and!; [done|done|by rewrite Hr, Er, lookup_insert_eq|done|exact Eh].
Qed.

#[export] Instance webhook_enqueuer_laws lock_other gates accepts confirms now fresh
  (Hg : ∀ w, EligibilityGate (gates w) accepts) :
  EnqueuerLaws (webhook_enqueuer lock_other gates confirms now fresh).
Proof.
  assert (Hspec : ∀ w id head n t,
    let '(w', res) := webhook_enqueuer lock_other gates confirms now fresh w id head n t in
    (w' = w ∧ match res with Ok r => no_run w id head r | Err _ => True end)
    ∨ ∃ r, res = Ok r ∧ run_created lock_other accepts (λ _ d, d) now fresh w w' id head n None r).
  { intros w id head n t. unfold webhook_enqueuer.
    destruct (try_enqueue _ _ _ _ _ _ _ _ _ _ _ _) as [w' res] eqn:E.
    apply (try_enqueue_spec _ _ accepts) in E. destruct res as [r|]; [|by left].
    destruct E as [?|?]; [by left|right; by exists r]. }
  split; intros w id head n t; specialize (Hspec w id head n t);
    destruct (webhook_enqueuer _ _ _ _ _ _ _ _ _ _) as [w' res]; cbn;
    destruct Hspec as [[-> Hno]|(r0 & -> & Hrun)];
    try (destruct (run_created_effect _ _ _ _ _ _ _ _ _ _ _ _ (λ _ _, eq_refl) Hrun)
           as (Ht & Hk & Hm & Hw)); try done.
  - intros k m r Hk Hr. by exists m.
  - intros r -> Hs. destruct Hno as (_ & Hno & _). rewrite Hs in Hno. set_solver.
  - intros r -> Hs. destruct Hno as (_ & _ & Hno). destruct (Hno Hs) as (x & -> & _). done.
  - intros r [= <-] Hs. destruct Hrun as (? & ? & ? & ? & _ & _ & _ & _ & _ & [(E & _)|(E & _)]);
      congruence.
Qed.

(** ** A sweep settles what it tries *)

(** The sweep will not list the pull request again, whatever the time. *)
Definition settled (d : EnqDb) (id : UUID) : Prop :=
  ∀ now pr, q_prs d !! id = Some pr → no_ci_due d now id pr = false.

Lemma webhook_run_spec d id head : webhook_run d id head = true ↔ has_webhook_run d id head.
Proof.
  unfold webhook_run. rewrite existsb_exists. split.
  - intros ([k m] & Hk%list_elem_of_In%elem_of_map_to_list & [Ht%bool_decide_eq_true Hr]%andb_true_iff).
    cbn in *. destruct (db_runs (q_runs d) !! k) as [r|] eqn:Er; [|done].
    apply andb_true_iff in Hr as [?%N.eqb_eq ?%str_eqb_eq]. by exists k, m, r.
  - intros (k & m & r & Hk & Ht & Hr & Hc & Hh). exists (k, m).
    split; [by apply list_elem_of_In, elem_of_map_to_list|]. cbn.
    by rewrite bool_decide_true, Hr, Hc, Hh, N.eqb_refl, str_eqb_refl.
Qed.

Lemma no_ci_due_true d now id pr :
  no_ci_due d now id pr = true ↔
  ∃ repository installation, github_source d pr = Some (repository, installation)
    ∧ pr_state pr = Pr_open ∧ pr_ai_review_labeled pr = true
    ∧ (∃ labeled seen, pr_ai_review_labeled_at pr = Some labeled
         ∧ pr_head_first_seen_at pr = Some seen ∧ Z.max labeled seen + AUTO_WINDOW ≤ now)
    ∧ pr_ci_status pr = [] ∧ rp_wait_for_ci repository = Wait_auto
    ∧ active_run d id = None ∧ ¬ has_webhook_run d id (pr_head_sha pr).
Proof.
  unfold no_ci_due. destruct (github_source d pr) as [[rp il]|];
    [|split; [done|by intros (? & ? & [=] & _)]].
  rewrite !andb_true_iff, !bool_decide_eq_true, negb_true_iff.
  split.
  - intros [[[[[[H1 H2] H3] H4] H5] H6] H7]. exists rp, il. split_and!; try done.
    + destruct (pr_ai_review_labeled_at pr) as [a|]; [|done].
      destruct (pr_head_first_seen_at pr) as [b|]; [|done]. exists a, b. split_and!; try done. lia.
    + by destruct (pr_ci_status pr).
    + by destruct (active_run d id).
    + intros ?%webhook_run_spec. congruence.
  - intros (? & ? & [= <- <-] & H1 & H2 & (a & b & Ea & Eb & Hle) & H4 & H5 & H6 & H7).
    rewrite Ea, Eb, H4, H6. split_and!; try done; [lia|].
    apply not_true_iff_false. by rewrite webhook_run_spec.
Qed.

(** What the enqueuer adds only settles more. *)
Lemma settled_mono d d' id :
  same_tables d d' →
  (∀ k r, db_runs (q_runs d) !! k = Some r → db_runs (q_runs d') !! k = Some r) →
  (∀ k m r, q_meta d !! k = Some m → db_runs (q_runs d) !! k = Some r →
     ∃ m', q_meta d' !! k = Some m' ∧ rm_trigger m' = rm_trigger m) →
  settled d id → settled d' id.
Proof.
  intros (E1 & E2 & E3 & _) Hr Hm Hs now pr. rewrite E1. intros Hpr. specialize (Hs now pr Hpr).
  apply not_true_iff_false. apply not_true_iff_false in Hs. intros Hd. apply Hs.
  rewrite no_ci_due_true in *. destruct Hd as (rp & il & Hsrc & ? & ? & ? & ? & ? & Ha & Hw).
  exists rp, il. split; [unfold github_source in *; by rewrite <- E2, <- E3|].
  split_and!; try done.
  - apply active_run_none. intros k r Hk. rewrite active_run_none in Ha. by apply (Ha k r), Hr.
  - intros (k & m & r & W1 & W2 & W3 & W4 & W5). apply Hw.
    destruct (Hm k m r W1 W3) as (m' & W6 & W7). exists k, m', r.
    split_and!; try done; [congruence|by apply Hr].
Qed.

(** The rows the sweep goes through keep their heads. *)
Definition same_heads (d d' : EnqDb) : Prop :=
  ∀ id, pr_head_sha <$> q_prs d' !! id = pr_head_sha <$> q_prs d !! id.

Lemma exclude_spec d c :
  same_heads d (exclude d c)
  ∧ (∀ id, settled d id → settled (exclude d c) id)
  ∧ (pr_head_sha <$> q_prs d !! dn_code_change_id c = Some (dn_head_sha c) →
     settled (exclude d c) (dn_code_change_id c)).
Proof.
  unfold exclude. destruct (q_prs d !! dn_code_change_id c) as [pr|] eqn:Hpr; [|by split_and!].
  destruct (absent (github_source d pr)) eqn:Hs; cbn [negb andb].
  { split_and!; try done. intros _ now pr'. rewrite Hpr. intros [= <-].
    unfold no_ci_due. by destruct (github_source d pr). }
  destruct (pr_head_sha pr =?s dn_head_sha c) eqn:Eh; cbn [andb].
  2: { split_and!; try done. apply str_eqb_neq in Eh. cbn. intros [=]. done. }
  destruct (pr_ci_status pr) as [|x l] eqn:Ec.
  2: { split_and!; try done. intros _ now pr'. rewrite Hpr. intros [= <-].
       apply not_true_iff_false. rewrite no_ci_due_true. intros (? & ? & _ & _ & _ & _ & E & _).
       congruence. }
  assert (Hset : settled (with_prs (<[dn_code_change_id c := set_ci_status SWEEP_EXCLUDED pr]>
    (q_prs d)) d) (dn_code_change_id c)).
  { intros now pr'. cbn. rewrite lookup_insert_eq. intros [= <-].
    apply not_true_iff_false. rewrite no_ci_due_true. by intros (? & ? & _ & _ & _ & _ & ? & _). }
  split_and!; [|intros id Hid|done].
  - intros id. cbn. destruct (decide (id = dn_code_change_id c)) as [->|].
    + by rewrite lookup_insert_eq, Hpr.
    + by rewrite lookup_insert_ne.
  - destruct (decide (id = dn_code_change_id c)) as [->|]; [done|]. intros now pr'. cbn.
    rewrite lookup_insert_ne by done. apply Hid.
Qed.

Lemma same_tables_heads d d' : same_tables d d' → same_heads d d'.
Proof. intros (E & _) id. by rewrite E. Qed.

Lemma sweep_all_settles enq `{!EnqueuerLaws enq} cs w w' n lines :
  (∀ c, In c cs → pr_head_sha <$> q_prs (w_db w) !! dn_code_change_id c = Some (dn_head_sha c)) →
  sweep_all enq w cs = (w', Ok (n, lines)) →
  n = length cs ∧ length lines = length cs
  ∧ (∀ id, settled (w_db w) id → settled (w_db w') id)
  ∧ (∀ c, In c cs → settled (w_db w') (dn_code_change_id c)).
Proof.
  revert w n lines. induction cs as [|c cs IH]; intros w n lines Hheads; cbn.
  { intros [= <- <- <-]. done. }
  pose proof (enq_tables w (dn_code_change_id c) (dn_head_sha c) None None) as Ht.
  pose proof (enq_keeps w (dn_code_change_id c) (dn_head_sha c) None None) as Hk.
  pose proof (enq_keeps_meta w (dn_code_change_id c) (dn_head_sha c) None None) as Hm.
  pose proof (enq_enqueued w (dn_code_change_id c) (dn_head_sha c) None None) as He.
  pose proof (enq_deferred w (dn_code_change_id c) (dn_head_sha c) None None) as Hd.
  destruct (enq w _ _ None None) as [w1 [r|e]]; [|done]. cbn in *.
  set (excluded := negb (bool_decide (es_status r ∈ [Enqueued; Deferred]))).
  set (w2 := if excluded then _ else _).
  assert (H2 : same_heads (w_db w) (w_db w2) ∧ (∀ id, settled (w_db w) id → settled (w_db w2) id)
               ∧ settled (w_db w2) (dn_code_change_id c)).
  { assert (H1 : same_heads (w_db w) (w_db w1)) by (by apply same_tables_heads).
    assert (Hmono : ∀ id, settled (w_db w) id → settled (w_db w1) id)
      by (intros id; by apply settled_mono).
    assert (Hc : pr_head_sha <$> q_prs (w_db w1) !! dn_code_change_id c = Some (dn_head_sha c))
      by (rewrite H1; apply Hheads; by left).
    subst w2. destruct excluded eqn:Ex.
    - destruct (exclude_spec (w_db w1) c) as (X1 & X2 & X3). cbn. split_and!.
      + intros id. by rewrite X1, H1.
      + auto.
      + by apply X3.
    - split_and!; try done. subst excluded. apply negb_false_iff, bool_decide_eq_true in Ex.
      intros now pr Hpr. rewrite Hpr in Hc. injection Hc as Hc.
      apply not_true_iff_false. rewrite no_ci_due_true.
      intros (? & ? & _ & _ & _ & _ & _ & _ & Ha & Hw). rewrite !elem_of_cons in Ex.
      destruct Ex as [Ex|[Ex|Ex%elem_of_nil]]; [|by apply (Hd r)|done].
      apply Hw. rewrite Hc. by apply (He r). }
  destruct H2 as (H2 & H3 & H4).
  destruct (sweep_all enq w2 cs) as [w3 [[n3 lines3]|e]] eqn:E; [|done]. intros [= <- <- <-].
  destruct (IH w2 n3 lines3) as (-> & Hl & Hs & Hall); [|done|].
  - intros x Hx. rewrite H2. apply Hheads. by right.
  - cbn. rewrite Hl. split_and!; try done; [auto|]. intros x [<-|Hx]; [by apply Hs|by apply Hall].
Qed.

Lemma list_due_In d now limit c :
  In c (list_due d now limit) →
  ∃ pr, q_prs d !! dn_code_change_id c = Some pr ∧ dn_head_sha c = pr_head_sha pr
        ∧ no_ci_due d now (dn_code_change_id c) pr = true.
Proof.
  unfold list_due. intros Hc%list_elem_of_In. apply subseteq_take in Hc.
  apply list_elem_of_fmap in Hc as ([id pr] & -> & Hin). rewrite py_sorted_perm in Hin.
  apply list_elem_of_In, filter_In in Hin as [Hin%list_elem_of_In%elem_of_map_to_list Hd].
  by exists pr.
Qed.

(** ** Properties *)

(** A sweep settles everything it tries.  Every pull request it lists is tried once and logged
    once, and afterwards, with nothing else running, no later sweep lists it again: it has a run of
    its head, or an active run, or it is excluded until its head or label changes.  So the sweep
    never spends its limit on the same pull requests for ever. *)
Theorem sweep_settles lock_other gates accepts confirms clock fresh now w limit w' n lines :
  (∀ w, EligibilityGate (gates w) accepts) →
  sweep_no_ci (webhook_enqueuer lock_other gates confirms clock fresh) now w limit
  = (w', Ok (n, lines)) →
  n = length (list_due (w_db w) now limit) ∧ length lines = n
  ∧ ∀ c now' limit' c', In c (list_due (w_db w) now limit) →
      In c' (list_due (w_db w') now' limit') → dn_code_change_id c' ≠ dn_code_change_id c.
Proof.
  intros Hg H. apply sweep_all_settles in H as (Hn & Hl & _ & Hs).
  - split_and!; try done; [congruence|]. intros c now' limit' c' Hc Hc' E.
    apply list_due_In in Hc' as (pr & Hpr & _ & Hd). rewrite E in *.
    by rewrite (Hs c Hc now' pr Hpr) in Hd.
  - by apply webhook_enqueuer_laws with (accepts := accepts).
  - intros c Hc. apply list_due_In in Hc as (pr & -> & -> & _). done.
Qed.

(** The pull requests a CI delivery is about. *)
Definition at_head (d : EnqDb) (e : CiTriggerEvent) (id : UUID) : Prop :=
  installation_active d (ct_installation_external_id e) = true
  ∧ ∃ pr repository installation, join_pr d id = Some (pr, repository, installation)
    ∧ il_provider installation = u8 "github"
    ∧ il_external_id installation = ct_installation_external_id e
    ∧ rp_external_id repository = ct_repository_external_id e
    ∧ pr_head_sha pr = ct_head_sha e ∧ pr_state pr = Pr_open.

Lemma ci_target_spec d e id pr :
  q_prs d !! id = Some pr →
  ci_target d e (id, pr) = true ↔
  ∃ repository installation, join_pr d id = Some (pr, repository, installation)
    ∧ il_provider installation = u8 "github"
    ∧ il_external_id installation = ct_installation_external_id e
    ∧ rp_external_id repository = ct_repository_external_id e
    ∧ pr_head_sha pr = ct_head_sha e ∧ pr_state pr = Pr_open.
Proof.
  intros Hpr. unfold ci_target, of_repository, join_pr. rewrite Hpr. cbn [mbind option_bind fst snd].
  rewrite !andb_true_iff, str_eqb_eq, bool_decide_eq_true.
  destruct (q_repositories d !! pr_repository_id pr) as [rp|]; cbn;
    [|split; [by intros [[[=] _] _]|by intros (? & ? & [=] & _)]].
  destruct (q_installations d !! rp_provider_installation_id rp) as [il|]; cbn;
    [|split; [by intros [[[=] _] _]|by intros (? & ? & [=] & _)]].
  rewrite !andb_true_iff, str_eqb_eq, !Z.eqb_eq. split.
  - intros [[[[? ?] ?] ?] ?]. by exists rp, il.
  - by intros (? & ? & [= <- <-] & ? & ? & ? & ? & ?).
Qed.

Lemma for_ci_targets d e id : In id (snd (for_ci d e)) ↔ at_head d e id.
Proof.
  unfold for_ci, at_head. destruct (installation_active d _); cbn [negb snd];
    [|split; [done|by intros [[=] _]]].
  unfold ci_targets. rewrite <- list_elem_of_In, list_elem_of_fmap. setoid_rewrite py_sorted_perm.
  setoid_rewrite list_elem_of_In. setoid_rewrite filter_In. split.
  - intros ([k pr] & -> & Hk%list_elem_of_In%elem_of_map_to_list & Ht). split; [done|].
    apply ci_target_spec in Ht as (rp & il & H); [|done]. by exists pr, rp, il.
  - intros (_ & pr & rp & il & Hj & H). assert (q_prs d !! id = Some pr) as Hpr.
    { unfold join_pr in Hj. destruct (q_prs d !! id) as [pr'|]; [|done]. cbn in Hj.
      destruct (q_repositories d !! _); [|done]. cbn in Hj.
      destruct (q_installations d !! _); [|done]. cbn in Hj. by injection Hj as ->. }
    exists (id, pr). split; [done|]. split; [by apply list_elem_of_In, elem_of_map_to_list|].
    apply ci_target_spec; [done|]. by exists rp, il.
Qed.

Lemma NoDup_filter_keys {A} (p : UUID * A → bool) (l : list (UUID * A)) :
  NoDup l.*1 → NoDup (List.filter p l).*1.
Proof.
  induction l as [|x l IH]; cbn; [done|]. intros [Hx Hl]%NoDup_cons. specialize (IH Hl).
  destruct (p x); [|done]. cbn. apply NoDup_cons. split; [|done]. intros (y & Ey & Hy)%list_elem_of_fmap.
  apply list_elem_of_In, filter_In in Hy as [Hy _]. apply Hx, list_elem_of_fmap. exists y.
  split; [done|]. by apply list_elem_of_In.
Qed.

Lemma mark_ci_event_lookup e ids d id :
  q_prs (mark_ci_event e ids d) !! id
  = (λ r, if bool_decide (id ∈ ids) && (pr_head_sha r =?s ct_head_sha e)
          then set_ci_status [(u8 "event", JStr (ct_event_name e))] r else r) <$> q_prs d !! id.
Proof. cbn. rewrite map_lookup_imap. by destruct (q_prs d !! id). Qed.

(** A CI delivery reaches exactly the pull requests it is about.  Its targets are the open
    pull requests of the repository, under the active installation it names, whose head it is about;
    no other row changes and no head does; and a check suite or a status, which proves that there is
    CI, takes its targets off the sweep that starts reviews without CI. *)
Theorem ci_delivery_targets d e :
  (∀ id, In id (snd (for_ci d e)) ↔ at_head d e id)
  ∧ NoDup (snd (for_ci d e))
  ∧ (∀ id, (id ∉ snd (for_ci d e)) → q_prs (fst (for_ci d e)) !! id = q_prs d !! id)
  ∧ same_heads d (fst (for_ci d e)) ∧ q_runs (fst (for_ci d e)) = q_runs d
  ∧ (str_mem (ct_event_name e) [u8 "check_suite"; u8 "status"] = true →
     ∀ id, at_head d e id → settled (fst (for_ci d e)) id).
Proof.
  split; [apply for_ci_targets|]. pose proof (for_ci_targets d e) as Htar.
  unfold for_ci in *. destruct (installation_active d _) eqn:Hact; cbn [negb fst snd] in *.
  2: { split_and!; try done; [constructor|]. intros _ id [Ha _]. congruence. }
  assert (Hnd : NoDup (ci_targets d e)).
  { unfold ci_targets. rewrite (fmap_Permutation fst _ _ (py_sorted_perm _ _)).
    apply NoDup_filter_keys, NoDup_fst_map_to_list. }
  split; [done|]. destruct (_ && str_mem _ _) eqn:Em; cbn [fst].
  2: { split_and!; try done. intros Hev id Hid%Htar. rewrite Hev, andb_true_r in Em.
       apply negb_false_iff, bool_decide_eq_true in Em. by rewrite Em in Hid. }
  split_and!; [| |done|].
  - intros id Hid. rewrite mark_ci_event_lookup, bool_decide_false by done. cbn.
    by destruct (q_prs d !! id).
  - intros id. rewrite mark_ci_event_lookup. destruct (q_prs d !! id) as [pr|]; [|done]. cbn.
    by case_match.
  - intros _ id Hid now pr. rewrite mark_ci_event_lookup.
    pose proof (proj2 (Htar id) Hid) as Hin. destruct Hid as (_ & pr0 & rp & il & Hj & _ & _ & _ & Hh & _).
    unfold join_pr in Hj. destruct (q_prs d !! id) as [pr1|]; [|done]. cbn in Hj.
    destruct (q_repositories d !! _); [|done]. cbn in Hj.
    destruct (q_installations d !! _); [|done]. cbn in Hj. injection Hj as -> _ _. cbn.
    rewrite bool_decide_true, Hh, str_eqb_refl by (by apply list_elem_of_In). cbn. intros [= <-].
    apply not_true_iff_false. rewrite no_ci_due_true. by intros (? & ? & _ & _ & _ & _ & ? & _).
Qed.

(** ** Witnesses *)

(** The sample repository waits for CI for two minutes; its pull request has none. *)
Definition sample_auto : EnqDb :=
  mkEnqDb (q_runs sample_tables) ∅ ∅ (q_prs sample_tables)
    {[4%N := mkRepositoryRecord 3 70 (u8 "org/repo") true true Wait_auto Engine_fast Th_all 20 None]}
    (q_installations sample_tables) (q_rules sample_tables) (q_prompts sample_tables) [].
Definition sample_gates (now : Z) (w : World) :
  UUID → pystr → option Z → result CiExc CiEligibility :=
  github_gate (λ _, eligibility_get (w_db w)) (sample_ci []) 99 now.
Definition sample_sweep : World * result EnqExc (nat * list pystr) :=
  sweep_no_ci (webhook_enqueuer sample_lock (sample_gates (seconds 200)) (λ _ _, true) sample_now
                 sample_fresh) (seconds 200) (mkWorld sample_auto [] 0) 10.

Lemma sweep_settles_witness :
  length (list_due sample_auto (seconds 200) 10) = 1%nat
  ∧ (fst <$> snd sample_sweep) = Ok 1%nat
  ∧ ∀ c', In c' (list_due (w_db (fst sample_sweep)) (seconds 900) 10) → dn_code_change_id c' ≠ 5%N.
Proof.
  split; [vm_compute; reflexivity|]. split; [vm_compute; reflexivity|]. intros c' Hc'.
  destruct (snd sample_sweep) as [[n lines]|e] eqn:E; [|vm_compute in E; discriminate].
  destruct (sweep_settles sample_lock (sample_gates (seconds 200)) labelled (λ _ _, true) sample_now
    sample_fresh (seconds 200) (mkWorld sample_auto [] 0) 10 (fst sample_sweep) n lines)
    as (_ & _ & H).
  - intros w. apply github_gate_ok. intros k i c Hc. by apply eligibility_get_github in Hc as [? _].
  - rewrite <- E. unfold sample_sweep. by destruct (sweep_no_ci _ _ _ _).
  - apply (H (mkDueNoCiCandidate 5 (u8 "abc")) (seconds 900) 10%nat c'); [|done].
    assert (list_due (w_db (mkWorld sample_auto [] 0)) (seconds 200) 10
            = [mkDueNoCiCandidate 5 (u8 "abc")]) as -> by (vm_compute; reflexivity). by left.
Defined.
