(* ===== verification/VcsInput.v ===== *)
(** * Provider diff input ([vcs_diff.py])

    The files of a pull request as the provider reports them, which of them are omitted from the
    model's input and why, and [FetchVcsReviewInput], which fetches and classifies them.  The
    provider is a parameter: what it answers may depend on the blob requests made before. *)

From Stdlib Require Import String.
From stdpp Require Import gmap.
From S2P Require Import Prelude PyText PyHash UnifiedDiff DiffMap RunFailures.
#[local] Open Scope Z_scope.

Definition MAX_PATCH_LINES : Z := 20000.
Definition MAX_PATCH_BYTES : Z := 1048576.
Definition MAX_BLOB_BYTES : Z := 1048576.
Definition GIT_EMPTY_BLOB_SHA : pystr := u8 "e69de29bb2d1d6434b8b29ae775ad8c2e48c5391".
Definition LOCK_FILES : list pystr :=
  [u8 "package-lock.json"; u8 "pnpm-lock.yaml"; u8 "yarn.lock"; u8 "bun.lock"; u8 "bun.lockb";
   u8 "cargo.lock"; u8 "gemfile.lock"; u8 "poetry.lock"; u8 "uv.lock"; u8 "pipfile.lock";
   u8 "composer.lock"; u8 "go.sum"].

(** ** Routing *)

Record PullRequestLocator : Type := mkPullRequestLocator {
  lo_installation_external_id : Z;
  lo_repository_full_name : pystr;
  lo_number : Z;
  lo_provider : pystr;
  lo_origin_provider_installation_id : option UUID;
  lo_repository_external_id : option Z;
  lo_repository_uuid : option UUID
}.
#[export] Instance PullRequestLocator_eq_dec : EqDecision PullRequestLocator.
Proof. solve_decision. Defined.

Definition not_positive (o : option Z) : bool :=
  match o with None => true | Some z => z <=? 0 end.

(** [__post_init__] *)
Definition locator_check (l : PullRequestLocator) : result pystr unit :=
  raise_when (negb (str_mem (lo_provider l) [u8 "github"; u8 "gitlab"; u8 "bitbucket"]))
    (u8 "unsupported VCS provider");;
  (if lo_provider l =?s u8 "gitlab" then
     raise_when (bool_decide (lo_origin_provider_installation_id l = None))
       (u8 "GitLab routing requires an immutable origin");;
     raise_when (not_positive (lo_repository_external_id l))
       (u8 "GitLab routing requires a positive project ID")
   else Ok tt);;
  (if lo_provider l =?s u8 "bitbucket" then
     raise_when (bool_decide (lo_origin_provider_installation_id l = None))
       (u8 "Bitbucket routing requires an immutable installation origin");;
     raise_when (not_positive (lo_repository_external_id l))
       (u8 "Bitbucket routing requires a positive repository ID");;
     raise_when (bool_decide (lo_repository_uuid l = None))
       (u8 "Bitbucket routing requires an immutable repository UUID")
   else Ok tt).

(** ** Files and their omissions *)

(** [is_generated_path]: [parts[:-1]] are the directories. *)
Definition is_generated_path (path : pystr) : bool :=
  let parts := split_on SLASH (casefold path) in
  let filename := List.last parts [] in
  let directories := removelast parts in
  str_mem filename LOCK_FILES
  || endswith filename (u8 ".min.js") || endswith filename (u8 ".pb.go")
  || ((1 <? py_len parts) && (hd [] parts =?s u8 "dist"))
  || (str_mem (u8 "__snapshots__") directories && endswith filename (u8 ".snap"))
  || (str_mem (u8 "migrations") directories && contains filename (u8 "snapshot")).

Definition MAGIC_NUMBERS : list (list N) :=
  [[137; 80; 78; 71; 13; 10; 26; 10]; [255; 216; 255]; [71; 73; 70; 56]; [37; 80; 68; 70; 45];
   [80; 75; 3; 4]; [127; 69; 76; 70]]%N.

Definition is_binary_content (blob : list N) : bool :=
  char_mem 0%N (take (Z.to_nat 8192) blob) || py_any (λ m, startswith blob m) MAGIC_NUMBERS.

(** [None] or the empty string: [not file.patch]. *)
Definition no_patch (patch : option pystr) : bool :=
  match patch with None | Some [] => true | Some _ => false end.

Definition is_empty_addition_candidate (f : VcsFile) : bool :=
  bool_decide (vf_status f = Status_added)
  && is_supported_path (vf_filename f)
  && bool_decide (vf_previous_filename f = None)
  && ostr_eqb (vf_blob_sha f) (Some GIT_EMPTY_BLOB_SHA)
  && ((vf_additions f =? vf_deletions f) && (vf_deletions f =? vf_changes f)
      && (vf_changes f =? 0))
  && no_patch (vf_patch f)
  && match vf_size f with None => true | Some s => s =? 0 end.

Definition is_proven_empty_addition (f : VcsFile) : bool :=
  (ostr_eqb (vf_git_mode f) (Some (u8 "100644")) || ostr_eqb (vf_git_mode f) (Some (u8 "100755")))
  && is_empty_addition_candidate f.

Definition patch_lines (patch : pystr) : list pystr :=
  (λ line, if endswith line [CR] then removelast line else line) <$> split_lf patch.

(** What the fetch can raise: an exception of the provider by the class the code asks for, or an
    error of its own. [Exc_base] is an exception outside [Exception], such as a cancelled task. *)
Inductive vcs_exc : Type :=
| Exc_value (message : pystr)
| Exc_unicode
| Exc_diff (e : DiffError)
| Exc_assertion
| Exc_blob_too_large
| Exc_cancelled
| Exc_required_source (f : RunFailure)
| Exc_failure (f : RunFailure)
| Exc_other
| Exc_base.

Definition oversized (size : option Z) : bool :=
  match size with Some s => MAX_BLOB_BYTES <? s | None => false end.

(** [None] when the text of the patch cannot be encoded, which raises. The sizes of the patch
    are only computed when neither counter is over its limit. *)
Definition patch_too_large (patch : option pystr) : option bool :=
  match patch with
  | None => Some false
  | Some p =>
      encoded ← utf8_encode p;
      Some ((MAX_PATCH_BYTES <? py_len encoded) || (MAX_PATCH_LINES <? py_len (patch_lines p)))
  end.

Definition known_omission (f : VcsFile) : result vcs_exc (option OmissionReason) :=
  if is_generated_path (vf_filename f) then Ok (Some Omit_generated)
  else match vf_omission_reason f with
  | Some r => Ok (Some r)
  | None =>
      if match vf_patch f with Some p => char_mem NUL p | None => false end
      then Ok (Some Omit_binary)
      else
        large ← (if (MAX_PATCH_LINES <? vf_changes f) || oversized (vf_size f) then Ok true
                 else match patch_too_large (vf_patch f) with
                      | Some b => Ok b
                      | None => Err Exc_unicode
                      end);
        if (large : bool) then Ok (Some Omit_too_large)
        else if is_proven_empty_addition f then Ok (Some Omit_empty_file)
        else Ok None
  end.

(** ** The parsed file *)

Record DiffLine : Type := mkDiffLine { dl_number : Z; dl_type : RowKind; dl_content : pystr }.
#[export] Instance DiffLine_eq_dec : EqDecision DiffLine.
Proof. solve_decision. Defined.

Record ChangedFile : Type := mkChangedFile {
  ch_path : pystr;
  ch_status : FileStatus;
  ch_lines : list DiffLine;
  ch_total_lines : option Z
}.

Definition line_number (row : HunkRow) : result vcs_exc Z :=
  let number := if bool_decide (hr_kind row = Row_removed) then hr_old_line row
                else hr_new_line row in
  match number with Some n => Ok n | None => Err Exc_assertion end.

Definition diff_line (row : HunkRow) : result vcs_exc DiffLine :=
  n ← line_number row; Ok (mkDiffLine n (hr_kind row) (hr_text row)).

Fixpoint diff_lines (rows : list HunkRow) : result vcs_exc (list DiffLine) :=
  match rows with
  | [] => Ok []
  | row :: rest => l ← diff_line row; ls ← diff_lines rest; Ok (l :: ls)
  end.

Definition parse_file_patch (path : pystr) (status : FileStatus) (patch : pystr)
  : result vcs_exc ChangedFile :=
  hunks ← map_err Exc_diff (parse_hunks (patch_lines patch));
  lines ← diff_lines (concat (h_rows <$> hunks));
  Ok (mkChangedFile path status lines None).

(** ** Fetching *)

Record PullRequestMeta : Type := mkPullRequestMeta {
  pm_title : pystr;
  pm_description : option pystr;
  pm_author : pystr;
  pm_source_branch : pystr;
  pm_target_branch : pystr;
  pm_labels : list pystr;
  pm_files_changed : Z;
  pm_lines_added : Z;
  pm_lines_removed : Z;
  pm_is_draft : bool;
  pm_is_fork : bool;
  pm_head_sha : option pystr;
  pm_diff_old_sha : option pystr;
  pm_commit_messages : list pystr;
  pm_commit_messages_incomplete : bool
}.

Record VcsPullRequest : Type := mkVcsPullRequest {
  vp_locator : PullRequestLocator;
  vp_head_sha : pystr;
  vp_base_sha : pystr;
  vp_meta : PullRequestMeta
}.

Record VcsFileOmission : Type := mkVcsFileOmission {
  fo_file : VcsFile;
  fo_reason : OmissionReason
}.

Record FetchedVcsReviewInput : Type := mkFetchedVcsReviewInput {
  fi_pull_request : VcsPullRequest;
  fi_files : list VcsFile;
  fi_changed_files : list ChangedFile;
  fi_omitted_files : list pystr;
  fi_omissions : list VcsFileOmission;
  fi_failed_blob_shas : gset pystr
}.

(** The provider: the pull request, its files, a blob after the blob requests made so far, and
    the final check of a provider that is a [VcsStageVerifier]. *)
Record VcsProvider : Type := mkVcsProvider {
  get_pull_request : PullRequestLocator → result vcs_exc VcsPullRequest;
  get_diff : VcsPullRequest → result vcs_exc (list VcsFile);
  get_blob : list pystr → PullRequestLocator → pystr → result vcs_exc (list N);
  verify_current : option (list pystr → result vcs_exc unit)
}.

(** The blob requests so far: the state of the fetch. *)
Definition fetching (A : Type) : Type := stateT (list pystr) vcs_exc A.

Definition lift_result {A} (r : result vcs_exc A) : fetching A := λ s, (s, r).

Record FetchAcc : Type := mkFetchAcc {
  fa_changed : list ChangedFile;
  fa_omitted : list VcsFileOmission;
  fa_failed : gset pystr
}.

Definition control_code (code : pystr) : bool :=
  str_mem code [u8 "deadline_exceeded"; u8 "bitbucket_request_budget_exceeded";
                u8 "bitbucket_response_budget_exceeded"].

(** The exceptions of a blob request that the fetch lets through. *)
Definition reraised (e : vcs_exc) : bool :=
  match e with
  | Exc_cancelled | Exc_required_source _ | Exc_base => true
  | Exc_failure f => control_code (rf_error_code f) || rf_rate_limited f
  | _ => false
  end.

Definition blob_reason (blob : list N) : OmissionReason :=
  if MAX_BLOB_BYTES <? py_len blob then Omit_too_large
  else if is_binary_content blob then Omit_binary
  else Omit_missing_patch.

Section Fetch.
Context (provider : VcsProvider).

Definition request_blob (locator : PullRequestLocator) (sha : pystr)
  : fetching (result vcs_exc (list N)) :=
  λ s, (s ++ [sha], Ok (get_blob provider s locator sha)).

(** One file without a usable patch: its omission, and the SHAs that failed. *)
Definition classify_blob (locator : PullRequestLocator) (f : VcsFile) (failed : gset pystr)
  : fetching (OmissionReason * gset pystr) :=
  match vf_blob_sha f with
  | None => mret (Omit_missing_patch, failed)
  | Some sha =>
      if bool_decide (sha ∈ failed) then mret (Omit_missing_patch, failed)
      else
        answer ← request_blob locator sha;
        match answer with
        | Ok blob => mret (blob_reason blob, failed)
        | Err Exc_blob_too_large => mret (Omit_too_large, failed)
        | Err e => if reraised e then raise_st e
                   else mret (Omit_missing_patch, {[sha]} ∪ failed)
        end
  end.

(** The body of the loop over the files. *)
Definition fetch_file (locator : PullRequestLocator) (f : VcsFile) (acc : FetchAcc)
  : fetching FetchAcc :=
  known ← lift_result (known_omission f);
  '(reason, failed) ←
    (match known with
     | Some r => mret (Some r, fa_failed acc)
     | None =>
         if no_patch (vf_patch f) then
           '(r, failed) ← classify_blob locator f (fa_failed acc); mret (Some r, failed)
         else mret (None, fa_failed acc)
     end : fetching (option OmissionReason * gset pystr));
  match (reason : option OmissionReason), vf_patch f with
  | Some r, _ =>
      mret (mkFetchAcc (fa_changed acc) (fa_omitted acc ++ [mkVcsFileOmission f r]) failed)
  | None, Some p =>
      changed ← lift_result (parse_file_patch (vf_filename f) (vf_status f) p);
      mret (mkFetchAcc (fa_changed acc ++ [changed]) (fa_omitted acc) failed)
  | None, None => raise_st Exc_assertion
  end.

Fixpoint fetch_files (locator : PullRequestLocator) (files : list VcsFile) (acc : FetchAcc)
  : fetching FetchAcc :=
  match files with
  | [] => mret acc
  | f :: rest => acc' ← fetch_file locator f acc; fetch_files locator rest acc'
  end.

Definition base_changed (pinned live : pystr) : RunFailure :=
  run_failure (u8 "pr_base_changed")
    (u8 "pull request base changed after the run pinned it pinned=" ++ pinned
     ++ u8 " live=" ++ live) None false.

Definition fetch_execute (locator : PullRequestLocator) (expected_head_sha : pystr)
    (expected_base_sha : option pystr) : fetching FetchedVcsReviewInput :=
  pr ← lift_result (get_pull_request provider locator);
  _ ← lift_result (raise_when (negb (bool_decide (vp_locator pr = locator))
                               || negb (vp_head_sha pr =?s expected_head_sha))
                     (Exc_value (u8 "GitHub pull request head SHA changed")));
  _ ← lift_result
        (match expected_base_sha with
         | Some base => raise_when (negb (vp_base_sha pr =?s base))
                          (Exc_failure (base_changed base (vp_base_sha pr)))
         | None => Ok tt
         end);
  files ← lift_result (get_diff provider pr);
  acc ← fetch_files locator files (mkFetchAcc [] [] ∅);
  s ← get_state;
  _ ← lift_result (match verify_current provider with
                   | Some check => check s
                   | None => Ok tt
                   end);
  mret (mkFetchedVcsReviewInput pr files (fa_changed acc)
          ((λ o, vf_filename (fo_file o)) <$> fa_omitted acc) (fa_omitted acc) (fa_failed acc)).
End Fetch.

(** ** Parsing never trips its assertion *)

Lemma diff_lines_app rows1 rows2 :
  diff_lines (rows1 ++ rows2) =
  (ls1 ← diff_lines rows1; ls2 ← diff_lines rows2; Ok (ls1 ++ ls2)).
Proof.
  induction rows1 as [|r rows1 IH]; cbn; [by destruct (diff_lines rows2)|].
  destruct (diff_line r); cbn; [|done]. rewrite IH.
  destruct (diff_lines rows1); cbn; [|done]. by destruct (diff_lines rows2).
Qed.

Lemma diff_lines_numbered rows : ∀ o n, numbered o n rows → is_ok (diff_lines rows) = true.
Proof.
  induction rows as [|r rows IH]; intros o n; cbn [numbered diff_lines]; [done|].
  intros (_ & _ & H). unfold diff_line, line_number.
  destruct (hr_kind r); destruct H as (-> & -> & H); apply IH in H;
    destruct (diff_lines rows); done.
Qed.

Lemma diff_lines_wf hs : Forall hunk_wf hs → is_ok (diff_lines (concat (h_rows <$> hs))) = true.
Proof.
  induction 1 as [|h hs Hh _ IH]; cbn; [done|]. rewrite diff_lines_app.
  pose proof (diff_lines_numbered _ _ _ (wf_numbered _ Hh)).
  destruct (diff_lines (h_rows h)), (diff_lines (concat (h_rows <$> hs))); done.
Qed.

(** A patch fails to parse only by an error of [parse_hunks]. *)
Lemma parse_file_patch_error path status patch e :
  parse_file_patch path status patch = Err e →
  ∃ d, e = Exc_diff d ∧ parse_hunks (patch_lines patch) = Err d.
Proof.
  unfold parse_file_patch. destruct (parse_hunks (patch_lines patch)) as [hs|d] eqn:Hp; cbn.
  - apply parse_hunks_wf, diff_lines_wf in Hp.
    destruct (diff_lines (concat (h_rows <$> hs))); cbn; done.
  - intros [= <-]. eauto.
Qed.

(** ** What the fetch promises *)

(** A file whose text goes to the model. *)
Record reviewable (f : VcsFile) (patch : pystr) : Prop := {
  rv_path : is_generated_path (vf_filename f) = false;
  rv_provider : vf_omission_reason f = None;
  rv_patch : vf_patch f = Some patch;
  rv_text : patch ≠ [] ∧ ¬ In NUL patch;
  rv_changes : vf_changes f ≤ MAX_PATCH_LINES;
  rv_size : ∀ n, vf_size f = Some n → n ≤ MAX_BLOB_BYTES;
  rv_bytes : ∃ encoded, utf8_encode patch = Some encoded ∧ py_len encoded ≤ MAX_PATCH_BYTES;
  rv_lines : py_len (patch_lines patch) ≤ MAX_PATCH_LINES
}.

(** What the provider ever answers for the blob of a file. *)
Definition blob_answer (provider : VcsProvider) (locator : PullRequestLocator) (f : VcsFile)
    (answer : result vcs_exc (list N)) : Prop :=
  ∃ past sha, vf_blob_sha f = Some sha ∧ get_blob provider past locator sha = answer.

(** Why a file is left out under each reason, beside the provider's own word. *)
Definition omission_cause (provider : VcsProvider) (locator : PullRequestLocator) (f : VcsFile)
    (reason : OmissionReason) : Prop :=
  let bare := no_patch (vf_patch f) = true in
  match reason with
  | Omit_generated => is_generated_path (vf_filename f) = true
  | Omit_empty_file => is_proven_empty_addition f = true
  | Omit_binary =>
      (∃ p, vf_patch f = Some p ∧ In NUL p)
      ∨ (bare ∧ ∃ blob, blob_answer provider locator f (Ok blob) ∧ is_binary_content blob = true)
  | Omit_too_large =>
      MAX_PATCH_LINES < vf_changes f
      ∨ (∃ n, vf_size f = Some n ∧ MAX_BLOB_BYTES < n)
      ∨ (∃ p encoded, vf_patch f = Some p ∧ utf8_encode p = Some encoded
           ∧ (MAX_PATCH_BYTES < py_len encoded ∨ MAX_PATCH_LINES < py_len (patch_lines p)))
      ∨ (bare ∧ (blob_answer provider locator f (Err Exc_blob_too_large)
                 ∨ ∃ blob, blob_answer provider locator f (Ok blob)
                           ∧ MAX_BLOB_BYTES < py_len blob))
  | Omit_missing_patch => bare
  end.

(** Each file, in order, is either parsed for the model or left out for a cause. *)
Inductive sorted_out (provider : VcsProvider) (locator : PullRequestLocator)
  : list VcsFile → list ChangedFile → list VcsFileOmission → Prop :=
| so_nil : sorted_out provider locator [] [] []
| so_kept f patch files c cs os :
    reviewable f patch → parse_file_patch (vf_filename f) (vf_status f) patch = Ok c →
    sorted_out provider locator files cs os →
    sorted_out provider locator (f :: files) (c :: cs) os
| so_omitted f r files cs os :
    (∀ patch, ¬ reviewable f patch) →
    vf_omission_reason f = Some r ∨ omission_cause provider locator f r →
    sorted_out provider locator files cs os →
    sorted_out provider locator (f :: files) cs (mkVcsFileOmission f r :: os).

(** A blob request that failed is not made again. *)
Definition no_request_after_failure (provider : VcsProvider) (locator : PullRequestLocator)
    (requests : list pystr) : Prop :=
  ∀ past sha later e, requests = past ++ sha :: later →
    get_blob provider past locator sha = Err e → e ≠ Exc_blob_too_large → ¬ In sha later.

Lemma no_patch_not_reviewable f patch : no_patch (vf_patch f) = true → ¬ reviewable f patch.
Proof. intros H [_ _ Hp [Hne _] _ _ _ _]. rewrite Hp in H. by destruct patch. Qed.

Lemma patch_too_large_spec p b :
  patch_too_large (Some p) = Some b →
  ∃ encoded, utf8_encode p = Some encoded
    ∧ (b = true ↔ MAX_PATCH_BYTES < py_len encoded ∨ MAX_PATCH_LINES < py_len (patch_lines p)).
Proof.
  unfold patch_too_large. destruct (utf8_encode p) as [encoded|]; cbn; [|done].
  intros [= <-]. exists encoded. split; [done|]. by rewrite orb_true_iff, !Z.ltb_lt.
Qed.

Lemma proven_empty_no_patch f : is_proven_empty_addition f = true → no_patch (vf_patch f) = true.
Proof. unfold is_proven_empty_addition, is_empty_addition_candidate. to_prop. tauto. Qed.

Lemma oversized_iff size : oversized size = true ↔ ∃ n, size = Some n ∧ MAX_BLOB_BYTES < n.
Proof. destruct size; cbn; [rewrite Z.ltb_lt|]; naive_solver. Qed.

(** What [known_omission] says of a file is its cause, and a file it says nothing of has no
    patch or is reviewable. *)
Lemma known_omission_spec provider locator f :
  match known_omission f with
  | Ok (Some r) => (∀ p, ¬ reviewable f p)
                   ∧ (vf_omission_reason f = Some r ∨ omission_cause provider locator f r)
  | Ok None => no_patch (vf_patch f) = true ∨ ∃ p, reviewable f p
  | Err e => e = Exc_unicode ∧ ∃ p, vf_patch f = Some p ∧ utf8_encode p = None
  end.
Proof.
  unfold known_omission. destruct (is_generated_path (vf_filename f)) eqn:Hg.
  { split; [|by right]. intros p []. congruence. }
  destruct (vf_omission_reason f) as [r|] eqn:Hr.
  { split; [|by left]. intros p []. congruence. }
  destruct (match vf_patch f with Some p => char_mem NUL p | None => false end) eqn:Hn.
  { destruct (vf_patch f) as [p|] eqn:Hp; [|done]. apply char_mem_In in Hn. split.
    - intros q [_ _ Hq [_ Hx] _ _ _ _]. rewrite Hp in Hq. injection Hq as <-. done.
    - right. left. eauto. }
  destruct ((MAX_PATCH_LINES <? vf_changes f) || oversized (vf_size f)) eqn:Hc; cbn.
  { apply orb_true_iff in Hc as [Hc|Hc].
    - apply Z.ltb_lt in Hc. split; [intros q []; lia|]. right. by left.
    - apply oversized_iff in Hc as (n & Hs & Hc). split.
      + intros q [_ _ _ _ _ Hsz _ _]. specialize (Hsz n Hs). lia.
      + right. right. left. eauto. }
  apply orb_false_iff in Hc as [Hc Hs]. apply Z.ltb_ge in Hc.
  destruct (vf_patch f) as [p|] eqn:Hp.
  - destruct (patch_too_large (Some p)) as [b|] eqn:Hl; cbn.
    + apply patch_too_large_spec in Hl as (enc & Henc & Hl). destruct b.
      * apply proj1 in Hl. specialize (Hl eq_refl). split.
        -- intros q [_ _ Hq _ _ _ (enc' & Henc' & Hb) Hls]. simplify_eq. lia.
        -- right. right. right. left. eauto 10.
      * destruct (is_proven_empty_addition f) eqn:He.
        { split; [|by right]. intros q. apply no_patch_not_reviewable. by apply proven_empty_no_patch. }
        destruct (no_patch (Some p)) eqn:Hnp; [by left|]. right. exists p. constructor; try done.
        -- split; [by destruct p|]. rewrite <- char_mem_In. by rewrite Hn.
        -- intros n Hn'. destruct (decide (n ≤ MAX_BLOB_BYTES)) as [|Hx]; [done|].
           enough (oversized (vf_size f) = true) by congruence. apply oversized_iff.
           exists n. split; [done|lia].
        -- exists enc. split; [done|]. assert (¬ MAX_PATCH_BYTES < py_len enc) by naive_solver. lia.
        -- assert (¬ MAX_PATCH_LINES < py_len (patch_lines p)) by naive_solver. lia.
    + unfold patch_too_large in Hl. destruct (utf8_encode p) eqn:Henc; [done|]. eauto.
  - cbn. destruct (is_proven_empty_addition f) eqn:He; [|by left].
    split; [|by right]. intros q. apply no_patch_not_reviewable. by rewrite Hp.
Qed.

(** Where an error about one file comes from. *)
Definition file_error (provider : VcsProvider) (locator : PullRequestLocator) (f : VcsFile)
    (e : vcs_exc) : Prop :=
  (e = Exc_unicode ∧ ∃ p, vf_patch f = Some p ∧ utf8_encode p = None)
  ∨ (∃ p d, e = Exc_diff d ∧ reviewable f p ∧ parse_hunks (patch_lines p) = Err d)
  ∨ (blob_answer provider locator f (Err e) ∧ reraised e = true).

Section FetchFacts.
Context (provider : VcsProvider) (locator : PullRequestLocator).

(** Every failed request is recorded, and none was repeated. *)
Definition requests_ok (requests : list pystr) (failed : gset pystr) : Prop :=
  no_request_after_failure provider locator requests
  ∧ ∀ past sha later e, requests = past ++ sha :: later →
      get_blob provider past locator sha = Err e → e ≠ Exc_blob_too_large → sha ∈ failed.

Lemma no_request_snoc requests sha failed :
  requests_ok requests failed → sha ∉ failed →
  no_request_after_failure provider locator (requests ++ [sha]).
Proof.
  intros [Hn Hf] Hsha past x later e Hr Hg He Hin.
  destruct later as [|y later _] using rev_ind; [done|].
  rewrite app_comm_cons, app_assoc in Hr. apply app_inj_tail in Hr as [-> <-].
  apply in_app_iff in Hin as [Hin|[->|[]]].
  - by apply (Hn past x later e).
  - apply Hsha. by apply (Hf past x later e).
Qed.

Lemma requests_ok_snoc requests sha failed failed' :
  requests_ok requests failed → sha ∉ failed → failed ⊆ failed' →
  (∀ e, get_blob provider requests locator sha = Err e → e ≠ Exc_blob_too_large → sha ∈ failed') →
  requests_ok (requests ++ [sha]) failed'.
Proof.
  intros Hok Hsha Hsub Hlast. split; [by eapply no_request_snoc|].
  destruct Hok as [_ Hf]. intros past x later e Hr Hg He.
  destruct later as [|y later _] using rev_ind.
  - apply app_inj_tail in Hr as [-> <-]. by apply (Hlast e).
  - rewrite app_comm_cons, app_assoc in Hr. apply app_inj_tail in Hr as [-> <-].
    apply Hsub. by apply (Hf past x later e).
Qed.

(** A file without patch: one request at most, a cause for its omission, or a control error. *)
Lemma classify_blob_spec f failed s s' out :
  no_patch (vf_patch f) = true → requests_ok s failed →
  classify_blob provider locator f failed s = (s', out) →
  match out with
  | Ok (r, failed') => omission_cause provider locator f r ∧ requests_ok s' failed'
  | Err e => file_error provider locator f e ∧ no_request_after_failure provider locator s'
  end.
Proof.
  intros Hp Hok. unfold classify_blob. destruct (vf_blob_sha f) as [sha|] eqn:Hsha.
  2:{ intros [= <- <-]. done. }
  case_bool_decide as Hin; [intros [= <- <-]; done|].
  cbn. unfold mbind, stateT_bind, request_blob.
  destruct (get_blob provider s locator sha) as [blob|e] eqn:Hg.
  - intros [= <- <-]. split.
    + unfold blob_reason. destruct (_ <? _) eqn:Hl; [|destruct (is_binary_content blob) eqn:Hb].
      * apply Z.ltb_lt in Hl. do 3 right. split; [done|]. right. exists blob. split; [|done]. by exists s, sha.
      * right. split; [done|]. exists blob. split; [|done]. by exists s, sha.
      * done.
    + apply (requests_ok_snoc s sha failed failed); [done..|congruence].
  - assert (e = Exc_blob_too_large ∨ e ≠ Exc_blob_too_large) as [->|Hne]
      by (destruct e; (by left) || by right).
    + intros [= <- <-]. split.
      * do 3 right. split; [done|]. left. by exists s, sha.
      * apply (requests_ok_snoc s sha failed failed); [done..|congruence].
    + destruct (reraised e) eqn:Hre.
      * intros H'. assert ((s', out) = (s ++ [sha], Err e)) as [= -> ->].
        { rewrite <- H'. by destruct e. }
        split; [|by eapply no_request_snoc].
        right. right. split; [|done]. by exists s, sha.
      * intros H'. assert ((s', out) = (s ++ [sha], Ok (Omit_missing_patch, {[sha]} ∪ failed))) as [= -> ->].
        { rewrite <- H'. by destruct e. }
        split; [done|]. apply (requests_ok_snoc s sha failed); [done|done|set_solver..].
Qed.

Lemma fetch_file_spec f acc s s' out :
  requests_ok s (fa_failed acc) →
  fetch_file provider locator f acc s = (s', out) →
  match out with
  | Ok acc' =>
      requests_ok s' (fa_failed acc')
      ∧ ∃ cs os, fa_changed acc' = fa_changed acc ++ cs ∧ fa_omitted acc' = fa_omitted acc ++ os
          ∧ ∀ files cs' os', sorted_out provider locator files cs' os' →
              sorted_out provider locator (f :: files) (cs ++ cs') (os ++ os')
  | Err e => file_error provider locator f e ∧ no_request_after_failure provider locator s'
  end.
Proof.
  intros Hok. pose proof (known_omission_spec provider locator f) as Hk.
  unfold fetch_file, mbind, stateT_bind, lift_result.
  destruct (known_omission f) as [[r|]|e].
  - destruct Hk as [Hnr Hc]. intros [= <- <-]. split; [done|].
    exists [], [mkVcsFileOmission f r]. rewrite app_nil_r. split_and!; [done..|].
    intros. cbn. by constructor.
  - destruct (no_patch (vf_patch f)) eqn:Hp.
    + destruct (classify_blob provider locator f (fa_failed acc) s) as [s1 o] eqn:Hb.
      apply classify_blob_spec in Hb; [|done..]. destruct o as [[r failed]|e].
      * destruct Hb as [Hc Hok']. intros [= <- <-]. split; [done|].
        exists [], [mkVcsFileOmission f r]. rewrite app_nil_r. split_and!; [done..|].
        intros. cbn. constructor; [|by right|done]. intros. by apply no_patch_not_reviewable.
      * intros [= <- <-]. done.
    + destruct Hk as [Hk|[p Hrev]]; [done|]. rewrite (rv_patch _ _ Hrev). cbn.
      destruct (parse_file_patch _ _ p) as [c|e] eqn:Hparse; intros [= <- <-]; cbn.
      * split; [done|]. exists [c], []. rewrite app_nil_r. split_and!; [done..|].
        intros. cbn. by eapply so_kept.
      * apply parse_file_patch_error in Hparse as (d & -> & Hd). split; [|by destruct Hok].
        right. left. eauto.
  - intros [= <- <-]. split; [by left|]. by destruct Hok.
Qed.

Lemma fetch_files_spec files : ∀ acc s s' out,
  requests_ok s (fa_failed acc) →
  fetch_files provider locator files acc s = (s', out) →
  match out with
  | Ok acc' =>
      requests_ok s' (fa_failed acc')
      ∧ ∃ cs os, fa_changed acc' = fa_changed acc ++ cs ∧ fa_omitted acc' = fa_omitted acc ++ os
          ∧ sorted_out provider locator files cs os
  | Err e => (∃ f, In f files ∧ file_error provider locator f e)
             ∧ no_request_after_failure provider locator s'
  end.
Proof.
  induction files as [|f files IH]; intros acc s s' out Hok; cbn [fetch_files].
  - intros [= <- <-]. split; [done|]. exists [], []. rewrite !app_nil_r. split_and!; constructor.
  - unfold mbind, stateT_bind. destruct (fetch_file provider locator f acc s) as [s1 o] eqn:Hf.
    apply fetch_file_spec in Hf; [|done]. destruct o as [acc1|e].
    + destruct Hf as (Hok1 & cs & os & Hcs & Hos & Hso). intros H. apply IH in H; [|done].
      destruct out as [acc'|e].
      * destruct H as (Hok' & cs' & os' & Hcs' & Hos' & Hso'). split; [done|].
        exists (cs ++ cs'), (os ++ os'). rewrite !app_assoc, <- Hcs, <- Hos. auto.
      * destruct H as ((g & Hg & He) & Hn). split; [|done]. exists g. split; [by right|done].
    + intros [= <- <-]. destruct Hf as [He Hn]. split; [|done]. exists f. split; [by left|done].
Qed.

Lemma requests_ok_start : requests_ok [] ∅.
Proof. split; intros [] ? ? ? [=]. Qed.
End FetchFacts.

(** ** Theorems *)

(** What a successful fetch returns is for the pinned head and base, and its files are
    exactly the provider's: each, in order, either parsed for the model, in which case it has a
    text patch within every limit, is no generated or lock file and the provider did not omit it,
    or recorded as an omission with a true cause.  A blob request that failed is not repeated. *)
Theorem fetch_input_partition provider locator head base requests r :
  fetch_execute provider locator head base [] = (requests, Ok r) →
  vp_locator (fi_pull_request r) = locator
  ∧ vp_head_sha (fi_pull_request r) = head
  ∧ (∀ b, base = Some b → vp_base_sha (fi_pull_request r) = b)
  ∧ get_diff provider (fi_pull_request r) = Ok (fi_files r)
  ∧ sorted_out provider locator (fi_files r) (fi_changed_files r) (fi_omissions r)
  ∧ fi_omitted_files r = (λ o, vf_filename (fo_file o)) <$> fi_omissions r
  ∧ no_request_after_failure provider locator requests.
Proof.
  unfold fetch_execute, mbind, stateT_bind, lift_result.
  destruct (get_pull_request provider locator) as [pr|]; [|done].
  destruct (raise_when _ (Exc_value _)) as [|] eqn:Hhead; [|done].
  apply raise_when_ok, orb_false_iff in Hhead as [Hl Hh].
  apply negb_false_iff in Hl, Hh. apply bool_decide_eq_true in Hl. apply str_eqb_eq in Hh.
  destruct (match base with Some _ => _ | None => _ end) as [|] eqn:Hbase; [|done].
  destruct (get_diff provider pr) as [files|] eqn:Hd; [|done].
  destruct (fetch_files provider locator files _ []) as [s o] eqn:Hf.
  apply fetch_files_spec in Hf; [|by apply requests_ok_start]. destruct o as [acc|]; [|done].
  destruct Hf as ((Hn & _) & cs & os & Hcs & Hos & Hso). cbn in Hcs, Hos. cbn.
  destruct (match verify_current provider with Some _ => _ | None => _ end); [|done].
  intros [= <- <-]. cbn. rewrite Hcs, Hos. split_and!; try done.
  intros b ->. by apply raise_when_ok, negb_false_iff, str_eqb_eq in Hbase.
Qed.

(** The fetch fails only for an answer of the provider to the pull request, the file list or
    the final check, for a head or base that moved, for a file whose patch is not text or not
    a unified diff, or for a control error of a blob request (cancellation, a required source, a
    deadline, a budget or a rate limit).  Any other blob error leaves its file out and goes on. *)
Theorem fetch_error_sources provider locator head base requests e :
  fetch_execute provider locator head base [] = (requests, Err e) →
  get_pull_request provider locator = Err e
  ∨ ∃ pr, get_pull_request provider locator = Ok pr ∧
      (((vp_locator pr ≠ locator ∨ vp_head_sha pr ≠ head)
        ∧ e = Exc_value (u8 "GitHub pull request head SHA changed"))
       ∨ (∃ b, base = Some b ∧ vp_base_sha pr ≠ b ∧ e = Exc_failure (base_changed b (vp_base_sha pr)))
       ∨ get_diff provider pr = Err e
       ∨ (∃ files f, get_diff provider pr = Ok files ∧ In f files
            ∧ file_error provider locator f e)
       ∨ (∃ check, verify_current provider = Some check ∧ check requests = Err e)).
Proof.
  unfold fetch_execute, mbind, stateT_bind, lift_result.
  destruct (get_pull_request provider locator) as [pr|]; [|intros [= <- <-]; by left].
  intros H. right. exists pr. split; [done|].
  destruct (negb (bool_decide (vp_locator pr = locator)) || _) eqn:Hhead; cbn in H.
  { injection H as <- <-. left. split; [|done].
    apply orb_true_iff in Hhead as [Hh|Hh]; apply negb_true_iff in Hh.
    - left. by apply bool_decide_eq_false in Hh.
    - right. by apply str_eqb_neq in Hh. }
  right. destruct (match base with Some _ => _ | None => _ end) as [|e'] eqn:Hbase.
  2:{ injection H as <- <-. left. destruct base as [b|]; [|done]. exists b.
      unfold raise_when in Hbase. destruct (vp_base_sha pr =?s b) eqn:E; [done|].
      cbn in Hbase. injection Hbase as <-. apply str_eqb_neq in E. done. }
  right. destruct (get_diff provider pr) as [files|] eqn:Hd; [|injection H as <- <-; by left].
  right. destruct (fetch_files provider locator files _ []) as [s o] eqn:Hf.
  apply fetch_files_spec in Hf; [|by apply requests_ok_start]. destruct o as [acc|e'].
  - right. cbn in H. destruct (verify_current provider) as [check|]; [|done].
    destruct (check s) eqn:Hc; [done|]. injection H as <- <-. eauto.
  - left. injection H as <- <-. destruct Hf as ((f & Hin & He) & _). eauto.
Qed.

(** ** A sample fetch *)

Definition sample_locator : PullRequestLocator :=
  mkPullRequestLocator 1 (u8 "o/r") 7 (u8 "github") None None None.
Definition sample_meta : PullRequestMeta :=
  mkPullRequestMeta (u8 "t") None (u8 "a") (u8 "s") (u8 "m") [] 3 1 0 false false None None [] false.
Definition bare_file (name sha : pystr) : VcsFile :=
  mkVcsFile name Status_modified (Some sha) None 1 0 1 None None None None.

(** The provider answers a binary blob once, then fails; [cancel] makes it raise instead. *)
Definition sample_provider (cancel : bool) : VcsProvider :=
  {| get_pull_request := λ l, Ok (mkVcsPullRequest l (u8 "head") (u8 "base") sample_meta);
     get_diff := λ _, Ok [sample_vcs_file; bare_file (u8 "a.bin") (u8 "1");
                          bare_file (u8 "b.bin") (u8 "2"); bare_file (u8 "c.bin") (u8 "2");
                          bare_file (u8 "uv.lock") (u8 "3")];
     get_blob := λ past _ _, if (length past =? 0)%nat then Ok [0%N]
                             else Err (if cancel then Exc_cancelled else Exc_other);
     verify_current := Some (λ _, Ok tt) |}.

Definition sample_fetch (cancel : bool) : list pystr * result vcs_exc FetchedVcsReviewInput :=
  fetch_execute (sample_provider cancel) sample_locator (u8 "head") (Some (u8 "base")) [].
Definition sample_input : FetchedVcsReviewInput :=
  match sample_fetch false with
  | (_, Ok r) => r
  | _ => mkFetchedVcsReviewInput (mkVcsPullRequest sample_locator [] [] sample_meta) [] [] [] [] ∅
  end.

Lemma fetch_input_partition_witness :
  fi_omissions sample_input =
    [mkVcsFileOmission (bare_file (u8 "a.bin") (u8 "1")) Omit_binary;
     mkVcsFileOmission (bare_file (u8 "b.bin") (u8 "2")) Omit_missing_patch;
     mkVcsFileOmission (bare_file (u8 "c.bin") (u8 "2")) Omit_missing_patch;
     mkVcsFileOmission (bare_file (u8 "uv.lock") (u8 "3")) Omit_generated]
  ∧ sorted_out (sample_provider false) sample_locator (fi_files sample_input)
      (fi_changed_files sample_input) (fi_omissions sample_input)
  ∧ no_request_after_failure (sample_provider false) sample_locator [u8 "1"; u8 "2"].
Proof.
  split; [vm_compute; reflexivity|].
  destruct (fetch_input_partition (sample_provider false) sample_locator (u8 "head")
              (Some (u8 "base")) [u8 "1"; u8 "2"] sample_input) as (_ & _ & _ & _ & H1 & _ & H2).
  - vm_compute. reflexivity.
  - exact (conj H1 H2).
Defined.

Lemma fetch_error_sources_witness :
  sample_fetch true = ([u8 "1"; u8 "2"], Err Exc_cancelled)
  ∧ (get_pull_request (sample_provider true) sample_locator = Err Exc_cancelled
     ∨ ∃ pr, get_pull_request (sample_provider true) sample_locator = Ok pr).
Proof.
  assert (H : sample_fetch true = ([u8 "1"; u8 "2"], Err Exc_cancelled))
    by (vm_compute; reflexivity).
  split; [exact H|].
  destruct (fetch_error_sources (sample_provider true) sample_locator (u8 "head")
              (Some (u8 "base")) [u8 "1"; u8 "2"] Exc_cancelled H) as [E|(pr & E & _)].
  - left. exact E.
  - right. exists pr. exact E.
Defined.
