(* ===== verification/PromptRender.v ===== *)
(** * The prompt envelope ([prompt_builder.py])

    The XML text of a review request and its call manifest.  [repr] is Python's [repr] of a string,
    which only error messages use. *)

From Stdlib Require Import String.
From stdpp Require Import numbers.
From S2P Require Import Prelude PyText PyHash UnifiedDiff DiffMap Verdict RunFailures PolicyErrors.
From S2P Require Import PolicyDocuments ReviewIgnore PolicySnapshots VcsInput.
#[local] Open Scope Z_scope.

(** ** XML ([xml.sax.saxutils.escape]) *)

Definition text_char (c : char) : pystr :=
  if (c =? 38)%N then u8 "&amp;"
  else if (c =? 62)%N then u8 "&gt;"
  else if (c =? 60)%N then u8 "&lt;"
  else [c].
Definition attribute_char (c : char) : pystr :=
  if (c =? 34)%N then u8 "&quot;"
  else if (c =? 39)%N then u8 "&apos;"
  else text_char c.
Definition xml_text (value : pystr) : pystr := value ≫= text_char.
Definition xml_attribute (value : pystr) : pystr := value ≫= attribute_char.

Definition NL : pystr := [LF].
Definition QUOTE : pystr := [34%N].
Definition element (name content : pystr) : pystr :=
  u8 "<" ++ name ++ u8 ">" ++ content ++ u8 "</" ++ name ++ u8 ">".
Definition container (name content : pystr) : pystr :=
  u8 "<" ++ name ++ u8 ">" ++ NL ++ content ++ NL ++ u8 "</" ++ name ++ u8 ">".
(** [name="value"] *)
Definition attribute (name value : pystr) : pystr := name ++ u8 "=" ++ QUOTE ++ value ++ QUOTE.

Definition lines_text (ls : list pystr) : pystr := join NL ls.
Definition spaced (ws : list pystr) : pystr := join (u8 " ") ws.

(** ** The input of a request *)

Record ReviewRule : Type := mkReviewRule {
  rr_name : pystr;
  rr_include : list pystr;
  rr_exclude : list pystr;
  rr_checks : list pystr
}.

Record RepoConventions : Type := mkRepoConventions {
  rcv_key_patterns : list pystr;
  rcv_recommendations : list pystr
}.

(** [context_provenance.py] *)
Inductive SourceRole : Type :=
| Role_policy_document | Role_service_defaults | Role_conventions | Role_pr_metadata | Role_diff
| Role_source_excerpt | Role_ast_excerpt | Role_retrieved_excerpt | Role_candidate
| Role_previous_output.
#[export] Instance SourceRole_eq_dec : EqDecision SourceRole.
Proof. solve_decision. Defined.

Definition SourceRole_value (r : SourceRole) : pystr :=
  match r with
  | Role_policy_document => u8 "policy_document"
  | Role_service_defaults => u8 "service_defaults"
  | Role_conventions => u8 "conventions"
  | Role_pr_metadata => u8 "pr_metadata"
  | Role_diff => u8 "diff"
  | Role_source_excerpt => u8 "source_excerpt"
  | Role_ast_excerpt => u8 "ast_excerpt"
  | Role_retrieved_excerpt => u8 "retrieved_excerpt"
  | Role_candidate => u8 "candidate"
  | Role_previous_output => u8 "previous_output"
  end.

(** Inclusive 1-based lines; the constructor demands [1 <= start <= end]. *)
Record LineRange : Type := mkLineRange { lr_start_line : Z; lr_end_line : Z }.
#[export] Instance LineRange_eq_dec : EqDecision LineRange.
Proof. solve_decision. Defined.
Definition line_range_ok (r : LineRange) : bool :=
  (1 <=? lr_start_line r) && (lr_start_line r <=? lr_end_line r).

Record SourceRef : Type := mkSourceRef {
  sf_role : SourceRole;
  sf_repository_id : UUID;
  sf_revision : option pystr;
  sf_path : option pystr;
  sf_blob_sha : option pystr;
  sf_origin_paths : list pystr;
  sf_side : option DiffSide;
  sf_ranges : list LineRange;
  sf_reason : pystr
}.
#[export] Instance DiffSide_eq_dec : EqDecision DiffSide.
Proof. solve_decision. Defined.
#[export] Instance SourceRef_eq_dec : EqDecision SourceRef.
Proof. solve_decision. Defined.

(** [review_context.py] *)
Inductive ContextLevel : Type := Level_L1 | Level_L2 | Level_L3 | Level_L4 | Level_RAG.
#[export] Instance ContextLevel_eq_dec : EqDecision ContextLevel.
Proof. solve_decision. Defined.
Definition ContextLevel_value (l : ContextLevel) : pystr :=
  match l with
  | Level_L1 => u8 "L1" | Level_L2 => u8 "L2" | Level_L3 => u8 "L3" | Level_L4 => u8 "L4"
  | Level_RAG => u8 "RAG"
  end.
Inductive Representation : Type := Exact_lines | Signature.
#[export] Instance Representation_eq_dec : EqDecision Representation.
Proof. solve_decision. Defined.
Definition Representation_value (r : Representation) : pystr :=
  match r with Exact_lines => u8 "exact_lines" | Signature => u8 "signature" end.
Inductive EdgeKind : Type := Edge_imports | Edge_uses_imported.
#[export] Instance EdgeKind_eq_dec : EqDecision EdgeKind.
Proof. solve_decision. Defined.
Definition EdgeKind_value (e : EdgeKind) : pystr :=
  match e with Edge_imports => u8 "imports" | Edge_uses_imported => u8 "uses_imported" end.

Record ContextBlock : Type := mkContextBlock {
  cb_block_id : pystr;
  cb_level : ContextLevel;
  cb_file_id : option pystr;
  cb_source : SourceRef;
  cb_representation : Representation;
  cb_text : pystr;
  cb_tokens : Z;
  cb_truncated : bool;
  cb_related_sources : list SourceRef
}.

Record RetrievedBlock : Type := mkRetrievedBlock {
  rb_block_id : pystr;
  rb_level : ContextLevel;
  rb_source : SourceRef;
  rb_representation : Representation;
  rb_text : pystr;
  rb_tokens : Z;
  rb_edge_kind : EdgeKind;
  rb_index_commit_sha : pystr;
  rb_definitions : list SourceRef
}.
#[export] Instance RetrievedBlock_eq_dec : EqDecision RetrievedBlock.
Proof. solve_decision. Defined.

Record ReviewContext : Type := mkReviewContext {
  rx_system : pystr;
  rx_rules : list ReviewRule;
  rx_agents_md : option pystr;
  rx_conventions : RepoConventions;
  rx_pr_meta : PullRequestMeta;
  rx_changed_files : list ChangedFile;
  rx_omitted_files : list pystr;
  rx_policy_snapshot : option PolicySnapshot;
  rx_severity_threshold : SeverityThreshold;
  rx_context_blocks : list ContextBlock;
  rx_retrieved : list RetrievedBlock;
  rx_retrieved_section : bool;
  rx_excluded_files : Z
}.

(** What a rendering raises: a policy failure, or the [UnicodeEncodeError] of a path with a lone
    surrogate. *)
Inductive PromptError : Type :=
| PR_policy (e : PolicyError)
| PR_encode.

(** ** Changed files *)

(** [PurePosixPath(path)]: the parts of a relative path, its name and its suffix *)
Definition path_parts (path : pystr) : list pystr :=
  List.filter (λ s, negb (s =?s []) && negb (s =?s u8 ".")) (split_on SLASH path).
Definition path_name (path : pystr) : pystr := List.last (path_parts path) [].
Fixpoint last_dot (i : nat) (found : option nat) (s : pystr) : option nat :=
  match s with
  | [] => found
  | c :: s' => last_dot (S i) (if (c =? 46)%N then Some i else found) s'
  end.
Definition path_suffix (path : pystr) : pystr :=
  let name := path_name path in
  match last_dot 0 None name with
  | Some i => if (0 <? i)%nat && (i <? length name - 1)%nat then drop i name else []
  | None => []
  end.

Definition LANGUAGE_BY_SUFFIX : list (pystr * pystr) :=
  [(u8 ".cs", u8 "C#"); (u8 ".go", u8 "Go"); (u8 ".java", u8 "Java"); (u8 ".js", u8 "JavaScript");
   (u8 ".jsx", u8 "JSX"); (u8 ".kt", u8 "Kotlin"); (u8 ".php", u8 "PHP"); (u8 ".py", u8 "Python");
   (u8 ".rb", u8 "Ruby"); (u8 ".rs", u8 "Rust"); (u8 ".scala", u8 "Scala");
   (u8 ".svelte", u8 "Svelte"); (u8 ".ts", u8 "TypeScript"); (u8 ".tsx", u8 "TSX");
   (u8 ".vue", u8 "Vue")].
Definition language (f : ChangedFile) : option pystr :=
  assoc (str_lower (path_suffix (ch_path f))) LANGUAGE_BY_SUFFIX.

(** [re.sub(r"[^a-zA-Z0-9]+", "-", path)]: one hyphen for each run of other characters *)
Definition is_alnum (c : char) : bool := in_ranges [(48, 57); (65, 90); (97, 122)]%N c.
Fixpoint slug_of (in_run : bool) (s : pystr) : pystr :=
  match s with
  | [] => []
  | c :: s' => if is_alnum c then c :: slug_of false s'
               else if in_run then slug_of true s' else 45%N :: slug_of true s'
  end.
Definition is_hyphen (c : char) : bool := (c =? 45)%N.
Definition file_block_id (path : pystr) : result PromptError pystr :=
  let slug := rstrip_with is_hyphen (take 64 (strip_with is_hyphen (slug_of false path))) in
  match sha256_text path with
  | Some digest => Ok (u8 "file-" ++ slug ++ u8 "-" ++ take 8 digest)
  | None => Err PR_encode
  end.

Definition RowKind_value (k : RowKind) : pystr :=
  match k with
  | Row_context => u8 "context" | Row_added => u8 "added" | Row_removed => u8 "removed"
  end.

Definition truncation_trailer (shown total : Z) : pystr :=
  u8 "[Showing lines 1-" ++ str_of_Z shown ++ u8 " of " ++ str_of_Z total
  ++ u8 " total. Use offset=" ++ str_of_Z (shown + 1) ++ u8 " to continue reading.]".

Definition numbered_line (n : Z) (attributes content : pystr) : pystr :=
  u8 "<line " ++ attribute (u8 "n") (str_of_Z n) ++ attributes ++ u8 ">" ++ xml_text content
  ++ u8 "</line>".

Definition render_changed_line (l : DiffLine) : pystr :=
  numbered_line (dl_number l) (u8 " " ++ attribute (u8 "type") (RowKind_value (dl_type l)))
    (dl_content l).

(** The attributes of a file's block. *)
Definition file_attributes (f : ChangedFile) (include_block_id : bool) : result PromptError pystr :=
  let named := attribute (u8 "path") (xml_attribute (ch_path f)) ++ u8 " "
               ++ attribute (u8 "status") (FileStatus_value (ch_status f)) in
  attributes ← (if include_block_id then
                  block_id ← file_block_id (ch_path f);
                  Ok (attribute (u8 "block_id") (xml_attribute block_id) ++ u8 " " ++ named)
                else Ok named);
  Ok (match language f with
      | Some l => attributes ++ u8 " " ++ attribute (u8 "language") (xml_attribute l)
      | None => attributes
      end).

Definition file_body (f : ChangedFile) : list pystr :=
  (render_changed_line <$> ch_lines f)
  ++ match ch_total_lines f with
     | Some total => if py_len (ch_lines f) <? total
                     then [truncation_trailer (py_len (ch_lines f)) total] else []
     | None => []
     end.

Definition render_changed_file (include_block_id : bool) (f : ChangedFile) : result PromptError pystr :=
  attributes ← file_attributes f include_block_id;
  Ok (u8 "<file " ++ attributes ++ u8 ">" ++ NL ++ lines_text (file_body f) ++ NL ++ u8 "</file>").

(** [[f(item) for item in items]] with a raising [f] *)
Fixpoint map_result {E A B} (f : A → result E B) (l : list A) : result E (list B) :=
  match l with
  | [] => Ok []
  | a :: l' => b ← f a; bs ← map_result f l'; Ok (b :: bs)
  end.

Definition render_changed_files (include_block_id : bool) (files : list ChangedFile)
  : result PromptError pystr :=
  blocks ← map_result (render_changed_file include_block_id) files;
  Ok (container (u8 "changed_files") (lines_text blocks)).

(** ** Policy documents *)

Definition split_policy_lines (text : pystr) : list pystr :=
  if text =?s [] then []
  else split_on LF (if endswith text [LF] then take (length text - 1) text else text).

Definition render_policy_document (d : PolicyDocument) (tag block_id : pystr) : pystr :=
  let opening := u8 "<" ++ tag ++ u8 " " ++ attribute (u8 "block_id") block_id ++ u8 " "
                 ++ attribute (u8 "path") (xml_attribute (pd_path d)) in
  if is_missing d then opening ++ u8 " " ++ attribute (u8 "status") (u8 "absent") ++ u8 " />"
  else if default [] (pd_text d) =?s []
  then opening ++ u8 " " ++ attribute (u8 "status") (u8 "empty") ++ u8 " />"
  else opening ++ u8 ">" ++ NL
       ++ lines_text (imap (λ i l, numbered_line (Z.of_nat i + 1) [] l)
                        (split_policy_lines (default [] (pd_text d))))
       ++ NL ++ u8 "</" ++ tag ++ u8 ">".

Definition render_policy_rules (s : PolicySnapshot) : pystr :=
  render_policy_document (sn_rules s) (u8 "repository_rules") (u8 "policy-rules").
Definition render_policy_agents (s : PolicySnapshot) : pystr :=
  render_policy_document (sn_agents s) (u8 "project_conventions_document") (u8 "policy-agents").

(** ** Rules *)

Definition rule_attributes (r : ReviewRule) : pystr :=
  spaced [attribute (u8 "name") (xml_attribute (rr_name r));
          attribute (u8 "include") (xml_attribute (spaced (rr_include r)));
          attribute (u8 "exclude") (xml_attribute (spaced (rr_exclude r)))].
Definition rule_block (r : ReviewRule) (checks : list pystr) : pystr :=
  u8 "<rule " ++ rule_attributes r ++ u8 ">" ++ NL ++ lines_text checks ++ NL ++ u8 "</rule>".

Definition render_rules (rules : list ReviewRule) : pystr :=
  container (u8 "custom_instructions")
    (lines_text ((λ r, rule_block r
       (imap (λ i check, str_of_Z (Z.of_nat i + 1) ++ u8 ". " ++ xml_text check) (rr_checks r)))
       <$> rules)).

Definition DEFAULT_BACKEND_V1_CHECKSUM : pystr :=
  u8 "282d61c2da897152046db742fbd9bfda061ba1c71ce32759d47e042c06b0ff52".
Definition DEFAULT_BACKEND_V1_RAW_SHA256 : pystr :=
  u8 "94aa971ae0d0f97af86dba5139ce70bb3488dc2aa21f6fc03db98f2ac98bec28".
Definition DEFAULT_FRONTEND_V1_CHECKSUM : pystr :=
  u8 "32673f59b6f0f3f96155e4012dcc42718b0814c473cc255c70e69f63660dcb4a".
Definition DEFAULT_FRONTEND_V1_RAW_SHA256 : pystr :=
  u8 "8327c437b1edada1415fbff214484920959fa4fc1d011c9c7c4baf80062c386c".

Definition BACKEND_V1_RULE_CHECK_IDS : list (pystr * list pystr) :=
  [(u8 "Naming Consistency", [u8 "N1"; u8 "N2"; u8 "N3"; u8 "N4"]);
   (u8 "Error Handling Standards", [u8 "E1"; u8 "E2"; u8 "E3"; u8 "E4"]);
   (u8 "Complex Function Improvement Suggestions", [u8 "C1"; u8 "C2"; u8 "C3"; u8 "C4"]);
   (u8 "Meaningful Comments for Complex Logic", [u8 "D1"; u8 "D2"; u8 "D3"]);
   (u8 "Test Coverage for Complex Functions", [u8 "T1"; u8 "T2"; u8 "T3"; u8 "T4"]);
   (u8 "Clean Architecture Boundaries", [u8 "A1"; u8 "A2"; u8 "A3"; u8 "A4"; u8 "A5"])].
Definition FRONTEND_V1_RULE_CHECK_IDS : list (pystr * list pystr) :=
  [(u8 "Naming Consistency", [u8 "N1"; u8 "N2"; u8 "N5"; u8 "N4"]);
   (u8 "Error Handling Standards", [u8 "E1"; u8 "E2"; u8 "E3"; u8 "E5"]);
   (u8 "Complex Function Improvement Suggestions", [u8 "C1"; u8 "C2"; u8 "C3"; u8 "C5"]);
   (u8 "Meaningful Comments for Complex Logic", [u8 "D1"; u8 "D2"; u8 "D3"]);
   (u8 "Test Coverage for Complex Functions", [u8 "T5"; u8 "T3"; u8 "T4"]);
   (u8 "FSD Layer Boundaries", [u8 "FSD1"; u8 "FSD2"; u8 "FSD3"; u8 "FSD4"; u8 "FSD5"])].
Definition PINNED_DEFAULTS_CHECK_IDS : list (pystr * list (pystr * list pystr)) :=
  [(DEFAULT_BACKEND_V1_CHECKSUM, BACKEND_V1_RULE_CHECK_IDS);
   (DEFAULT_BACKEND_V1_RAW_SHA256, BACKEND_V1_RULE_CHECK_IDS);
   (u8 "default-backend.v1", BACKEND_V1_RULE_CHECK_IDS);
   (DEFAULT_FRONTEND_V1_CHECKSUM, FRONTEND_V1_RULE_CHECK_IDS);
   (DEFAULT_FRONTEND_V1_RAW_SHA256, FRONTEND_V1_RULE_CHECK_IDS);
   (u8 "default-frontend.v1", FRONTEND_V1_RULE_CHECK_IDS)].

Section Render.
Context (repr : pystr → pystr).

Definition defaults_error (message : pystr) : PromptError :=
  PR_policy (policy_error SNAPSHOT_INTEGRITY_ERROR message no_args).

Definition get_rule_check_ids (r : ReviewRule) (defaults_checksum : pystr)
  : result PromptError (list pystr) :=
  match assoc defaults_checksum PINNED_DEFAULTS_CHECK_IDS with
  | None => Err (defaults_error (u8 "Unknown service defaults checksum: " ++ repr defaults_checksum))
  | Some rule_map =>
      match assoc (rr_name r) rule_map with
      | None => Err (defaults_error (u8 "Rule " ++ repr (rr_name r)
                       ++ u8 " is not part of pinned service defaults " ++ repr defaults_checksum))
      | Some ids =>
          if negb (length (rr_checks r) =? length ids)%nat
          then Err (defaults_error (u8 "Rule " ++ repr (rr_name r) ++ u8 " has "
                      ++ str_of_Z (py_len (rr_checks r)) ++ u8 " checks, expected "
                      ++ str_of_Z (py_len ids) ++ u8 " for pinned defaults "
                      ++ repr defaults_checksum))
          else Ok ids
      end
  end.

(** The checks of one rule; the state is the next line and the identifiers seen. *)
Fixpoint render_checks (checks ids : list pystr) (line_offset : Z) (seen : list pystr)
  : result PromptError (list pystr * Z * list pystr) :=
  match checks, ids with
  | check :: checks', c_id :: ids' =>
      if str_mem c_id seen
      then Err (defaults_error (u8 "Duplicate service defaults check ID " ++ repr c_id))
      else
        '(rest, offset, seen') ← render_checks checks' ids' (line_offset + 1) (c_id :: seen);
        Ok ((u8 "<check " ++ attribute (u8 "id") c_id ++ u8 ">"
             ++ numbered_line line_offset [] check ++ u8 "</check>") :: rest, offset, seen')
  | _, _ => Ok ([], line_offset, seen)
  end.

Fixpoint render_default_rules (rules : list ReviewRule) (defaults_checksum : pystr)
    (line_offset : Z) (seen : list pystr) : result PromptError (list pystr) :=
  match rules with
  | [] => Ok []
  | r :: rules' =>
      ids ← get_rule_check_ids r defaults_checksum;
      '(checks, offset, seen') ← render_checks (rr_checks r) ids line_offset seen;
      rest ← render_default_rules rules' defaults_checksum offset seen';
      Ok (rule_block r checks :: rest)
  end.

Definition render_service_defaults (rules : list ReviewRule) (defaults_checksum : pystr)
  : result PromptError pystr :=
  blocks ← render_default_rules rules defaults_checksum 1 [];
  Ok (u8 "<service_defaults " ++ attribute (u8 "block_id") (u8 "service-defaults") ++ u8 ">" ++ NL
      ++ lines_text blocks ++ NL ++ u8 "</service_defaults>").

(** ** The other parts *)

Definition render_conventions (c : RepoConventions) : pystr :=
  container (u8 "repo_conventions")
    (lines_text
       [container (u8 "key_patterns")
          (lines_text ((λ i, element (u8 "pattern") (xml_text i)) <$> rcv_key_patterns c));
        container (u8 "recommendations")
          (lines_text ((λ i, element (u8 "recommendation") (xml_text i)) <$> rcv_recommendations c))]).

(** [commit_prefix_limits.py] *)
Definition MAX_COMMIT_MESSAGES : nat := 20.
Definition MAX_COMMIT_MESSAGE_CHARS : nat := 500.
Definition shorten_commit_message (message : pystr) : pystr :=
  if (length message <=? MAX_COMMIT_MESSAGE_CHARS)%nat then message
  else take (MAX_COMMIT_MESSAGE_CHARS - 1) message ++ [8230%N].

Definition bool_text (b : bool) : pystr := if b then u8 "true" else u8 "false".

Definition render_commits (m : PullRequestMeta) : list pystr :=
  let messages := pm_commit_messages m in
  if bool_decide (messages = []) && negb (pm_commit_messages_incomplete m) then []
  else
    let shown := take MAX_COMMIT_MESSAGES messages in
    let hidden := py_len messages - py_len shown in
    [container (u8 "commit_messages")
       (lines_text
          (((λ i, element (u8 "commit") (xml_text (shorten_commit_message i))) <$> shown)
           ++ (if py_len shown <? py_len messages
               then [element (u8 "commit")
                       (u8 "[" ++ str_of_Z hidden ++ u8 " more commits omitted]")] else [])
           ++ (if pm_commit_messages_incomplete m
               then [element (u8 "commit") (u8 "[Additional commits may be omitted]")] else [])))].

Definition render_pr_meta (m : PullRequestMeta) : pystr :=
  let values :=
    [(u8 "title", pm_title m); (u8 "description", default [] (pm_description m));
     (u8 "author", pm_author m); (u8 "source_branch", pm_source_branch m);
     (u8 "target_branch", pm_target_branch m); (u8 "labels", spaced (pm_labels m));
     (u8 "files_changed", str_of_Z (pm_files_changed m));
     (u8 "lines_added", str_of_Z (pm_lines_added m));
     (u8 "lines_removed", str_of_Z (pm_lines_removed m));
     (u8 "draft", bool_text (pm_is_draft m)); (u8 "fork", bool_text (pm_is_fork m))] in
  container (u8 "pr_meta")
    (lines_text
       (((λ kv, element (fst kv) (xml_text (snd kv))) <$> values)
        ++ opt_part (λ h, element (u8 "head_sha") (xml_text h)) (pm_head_sha m)
        ++ render_commits m)).

Definition DiffSide_value (s : DiffSide) : pystr :=
  match s with Side_LEFT => u8 "LEFT" | Side_RIGHT => u8 "RIGHT" end.

(** [range(start, end + 1)] of every range *)
Definition range_numbers (r : LineRange) : list Z :=
  (λ i, lr_start_line r + Z.of_nat i)
    <$> seq 0 (Z.to_nat (lr_end_line r + 1 - lr_start_line r)).
Definition source_numbers (s : SourceRef) : list Z := sf_ranges s ≫= range_numbers.

(** The lines of an excerpt: one text line for each source line, or the call is refused. *)
Definition excerpt_lines (block_id : pystr) (numbers : list Z) (text_lines : list pystr)
  : result PromptError (list pystr) :=
  match numbers with
  | [] => Ok []
  | _ =>
      if (length numbers =? length text_lines)%nat
      then Ok (zip_with (λ n l, numbered_line n [] l) numbers text_lines)
      else Err (PR_policy (policy_error CONTEXT_VIOLATION
             (u8 "Excerpt '" ++ block_id ++ u8 "' has " ++ str_of_Z (py_len text_lines)
              ++ u8 " text lines for " ++ str_of_Z (py_len numbers) ++ u8 " source lines") no_args))
  end.

Definition render_excerpt_of (block_id : pystr) (level : ContextLevel) (source : SourceRef)
    (representation : Representation) (text : pystr) : result PromptError pystr :=
  let attributes :=
    [attribute (u8 "block_id") (xml_attribute block_id);
     attribute (u8 "level") (ContextLevel_value level)]
    ++ opt_part (λ p, attribute (u8 "path") (xml_attribute p)) (sf_path source)
    ++ opt_part (λ r, attribute (u8 "revision") (xml_attribute r)) (sf_revision source)
    ++ opt_part (λ s, attribute (u8 "side") (DiffSide_value s)) (sf_side source)
    ++ [attribute (u8 "representation") (Representation_value representation)] in
  ls ← excerpt_lines block_id (source_numbers source) (split_on LF text);
  Ok (u8 "<excerpt " ++ spaced attributes ++ u8 ">" ++ NL ++ lines_text ls ++ NL ++ u8 "</excerpt>").

Definition render_excerpt (b : ContextBlock) : result PromptError pystr :=
  render_excerpt_of (cb_block_id b) (cb_level b) (cb_source b) (cb_representation b) (cb_text b).
Definition render_retrieved (b : RetrievedBlock) : result PromptError pystr :=
  render_excerpt_of (rb_block_id b) (rb_level b) (rb_source b) (rb_representation b) (rb_text b).

Definition render_context_excerpts (blocks : list ContextBlock) : result PromptError pystr :=
  shown ← map_result render_excerpt blocks;
  Ok (container (u8 "context_excerpts") (lines_text shown)).
Definition render_retrieved_excerpts (blocks : list RetrievedBlock) : result PromptError pystr :=
  shown ← map_result render_retrieved blocks;
  Ok (container (u8 "retrieved_excerpts") (lines_text shown)).

Definition render_omitted (paths : list pystr) : pystr :=
  container (u8 "omitted_files") (lines_text (xml_text <$> paths)).

Definition has_snapshot (c : ReviewContext) : bool := negb (is_none (rx_policy_snapshot c)).

(** The parts before and after the changed files and the omitted paths. *)
Definition render_policy_parts (c : ReviewContext) : result PromptError (list pystr) :=
  match rx_policy_snapshot c with
  | Some snapshot =>
      defaults ← (match rx_rules c with
                  | [] => Ok []
                  | rules =>
                      text ← render_service_defaults rules (sn_defaults_checksum snapshot);
                      Ok [text]
                  end);
      Ok ([render_policy_rules snapshot; render_policy_agents snapshot] ++ defaults)
  | None =>
      Ok [render_rules (rx_rules c);
          container (u8 "agents_md") (xml_text (default [] (rx_agents_md c)))]
  end.

Definition render_excerpt_parts (c : ReviewContext) : result PromptError (list pystr) :=
  excerpts ← (match rx_context_blocks c with
              | [] => Ok []
              | blocks => text ← render_context_excerpts blocks; Ok [text]
              end);
  retrieved ← (if rx_retrieved_section c
               then text ← render_retrieved_excerpts (rx_retrieved c); Ok [text] else Ok []);
  Ok (excerpts ++ retrieved).

Definition render_excluded (c : ReviewContext) : list pystr :=
  if rx_excluded_files c =? 0 then []
  else [u8 "<excluded_files " ++ attribute (u8 "count") (str_of_Z (rx_excluded_files c)) ++ u8 " />"].

Definition render_input (c : ReviewContext) : result PromptError pystr :=
  policy ← render_policy_parts c;
  files ← render_changed_files (has_snapshot c) (rx_changed_files c);
  excerpts ← render_excerpt_parts c;
  Ok (lines_text (policy
        ++ [render_conventions (rx_conventions c); render_pr_meta (rx_pr_meta c); files]
        ++ excerpts ++ [render_omitted (rx_omitted_files c)] ++ render_excluded c)).

Record ReviewPrompt : Type := mkReviewPrompt { rvp_system : pystr; rvp_user : pystr }.

Definition build_prompt (c : ReviewContext) : result PromptError ReviewPrompt :=
  user ← render_input c; Ok (mkReviewPrompt (rx_system c) user).
End Render.
