(* ===== verification/PromptBudget.v ===== *)
(** * Fitting a prompt into its token budget ([prompt_budget.py])

    Counters, budgets of a stage, and [fit_review_context] with its length accounting.  A counter is
    a function of the text; [count_length] is there for a length-aware one.  [math_log] and
    [full_match] are Python's [math.log] on a changed-line count and [PurePosixPath.full_match]:
    they only order the files. *)

From Stdlib Require Import String QArith.
From stdpp Require Import numbers.
From S2P Require Import Prelude PyText UnifiedDiff DiffMap RunFailures PolicyErrors.
From S2P Require Import PolicyDocuments PolicySnapshots VcsInput PromptRender.
#[local] Open Scope Z_scope.

(** ** Counters *)

Record TokenCounter : Type := mkTokenCounter {
  tc_count : pystr → Z;
  tc_count_length : option (Z → Z)
}.

Definition EstimatedTokenCounter : TokenCounter :=
  mkTokenCounter (λ text, (py_len text + 2) / 3) (Some (λ n, (n + 2) / 3)).
Definition LegacyTokenCounter : TokenCounter :=
  mkTokenCounter (λ text, (py_len text + 3) / 4) (Some (λ n, (n + 3) / 4)).

Definition token_counter_for (counter_version : option pystr) : result PolicyError TokenCounter :=
  match counter_version with
  | None => Ok EstimatedTokenCounter
  | Some v =>
      if v =?s u8 "counter/v2" then Ok EstimatedTokenCounter
      else if v =?s u8 "counter/v1" then Ok LegacyTokenCounter
      else Err (policy_error SNAPSHOT_INTEGRITY_ERROR
                  (u8 "Unknown counter_version '" ++ v ++ u8 "' in execution profile") no_args)
  end.

(** ** The budget of a stage *)

Definition MODEL_WINDOWS : list (pystr * (Z * Z)) :=
  [(u8 "mistral-small-4", (262144, 8000)); (u8 "mistral-small-3.2-24b", (128000, 8000))].
Definition DEFAULT_CONTEXT_WINDOW : Z := 262144.
Definition DEFAULT_MAX_OUTPUT_TOKENS : Z := 8000.

Definition send_budget_for (profile : ExecutionProfile) (verification : bool)
    (model_max_prompt_tokens : option Z) : result PolicyError Z :=
  _ ← validate_execution_profile_versions profile;
  let model := if verification then ep_verifier_model profile else ep_review_model profile in
  let '(window, output) :=
    default (DEFAULT_CONTEXT_WINDOW, DEFAULT_MAX_OUTPUT_TOKENS) (assoc model MODEL_WINDOWS) in
  let budget := Z.max 0 (Z.min window (ep_max_input_tokens profile) - output) in
  Ok (match model_max_prompt_tokens with Some m => Z.min budget m | None => budget end).

(** ** Guards *)

Inductive GuardError : Type :=
| Guard_policy_budget (limit actual : Z)
| Guard_overflow (limit actual : Z)
| Guard_prompt (e : PromptError).

Definition policy_tokens (s : PolicySnapshot) (counter : TokenCounter) : Z :=
  tc_count counter (render_policy_rules s) + tc_count counter (render_policy_agents s).

Definition verify_policy_budget (s : PolicySnapshot) (counter : TokenCounter) (max_policy_tokens : Z)
  : result GuardError unit :=
  let count := policy_tokens s counter in
  raise_when (max_policy_tokens <? count) (Guard_policy_budget max_policy_tokens count).

Section Budget.
Context (repr : pystr → pystr).

Definition prompt_tokens (c : ReviewContext) (counter : TokenCounter) : result PromptError Z :=
  p ← build_prompt repr c;
  Ok (tc_count counter (rvp_system p) + tc_count counter (rvp_user p)).

Definition verify_pre_send_guard (c : ReviewContext) (counter : TokenCounter) (max_input_tokens : Z)
  : result GuardError unit :=
  _ ← (match rx_policy_snapshot c with
       | Some s => verify_policy_budget s counter (ep_max_policy_tokens (sn_execution_profile s))
       | None => Ok tt
       end);
  total ← map_err Guard_prompt (prompt_tokens c counter);
  raise_when (max_input_tokens <? total) (Guard_overflow max_input_tokens total).

End Budget.

(** ** The files of a fit

    [kept] and a trial entry are one list along [files]: what is shown of each file, [None] when it
    is not.  A file is shown whole, which is the object itself, or cut to its first lines. *)
Inductive Shown : Type := Whole | Cut (lines : nat).

Definition shown_file (f : ChangedFile) (s : Shown) : ChangedFile :=
  match s with
  | Whole => f
  | Cut n => mkChangedFile (ch_path f) (ch_status f) (take n (ch_lines f))
               (Some (py_len (ch_lines f)))
  end.

Abbreviation choice := (list (option Shown)) (only parsing).

Fixpoint chosen_files (files : list ChangedFile) (ch : choice) : list ChangedFile :=
  match files, ch with
  | f :: files', Some s :: ch' => shown_file f s :: chosen_files files' ch'
  | _ :: files', None :: ch' => chosen_files files' ch'
  | _, _ => []
  end.
Fixpoint left_paths (files : list ChangedFile) (ch : choice) : list pystr :=
  match files, ch with
  | _ :: files', Some _ :: ch' => left_paths files' ch'
  | f :: files', None :: ch' => ch_path f :: left_paths files' ch'
  | _, _ => []
  end.

Definition with_files (c : ReviewContext) (files : list ChangedFile) (omitted : list pystr)
  : ReviewContext :=
  mkReviewContext (rx_system c) (rx_rules c) (rx_agents_md c) (rx_conventions c) (rx_pr_meta c)
    files omitted (rx_policy_snapshot c) (rx_severity_threshold c) (rx_context_blocks c)
    (rx_retrieved c) (rx_retrieved_section c) (rx_excluded_files c).

Definition candidate (c : ReviewContext) (ch : choice) : ReviewContext :=
  with_files c (chosen_files (rx_changed_files c) ch)
    (rx_omitted_files c ++ left_paths (rx_changed_files c) ch).

Section Fit.
Context (repr : pystr → pystr).

(** ** Length accounting *)

(** [_FileLengths] *)
Record FileLengths : Type := mkFileLengths {
  fl_whole : Z;
  fl_empty : Z;
  fl_prefix : list Z;
  fl_total : Z
}.

Fixpoint prefix_sums (acc : Z) (ls : list Z) : list Z :=
  acc :: match ls with [] => [] | l :: ls' => prefix_sums (acc + l) ls' end.

Definition file_lengths (include_block_id : bool) (f : ChangedFile) : result PromptError FileLengths :=
  whole ← render_changed_file include_block_id f;
  empty ← render_changed_file include_block_id
            (mkChangedFile (ch_path f) (ch_status f) [] None);
  Ok (mkFileLengths (py_len whole) (py_len empty)
        (prefix_sums 0 ((λ l, py_len (render_changed_line l)) <$> ch_lines f))
        (py_len (ch_lines f))).

Definition shown_length (fl : FileLengths) (s : Shown) : Z :=
  match s with
  | Whole => fl_whole fl
  | Cut n =>
      fl_empty fl + default 0 (fl_prefix fl !! n) + Z.of_nat n
      + py_len (truncation_trailer (Z.of_nat n) (fl_total fl))
  end.

(** [_PromptLengths] *)
Record PromptLengths : Type := mkPromptLengths {
  pl_base_user : Z;
  pl_system_tokens : Z;
  pl_files : list FileLengths;
  pl_omitted_paths : list Z;
  pl_original_omitted : list Z
}.

Definition prompt_lengths (c : ReviewContext) (counter : TokenCounter)
  : result PromptError PromptLengths :=
  base ← render_input repr (with_files c [] []);
  fls ← map_result (file_lengths (has_snapshot c)) (rx_changed_files c);
  Ok (mkPromptLengths (py_len base) (tc_count counter (rx_system c)) fls
        ((λ f, py_len (xml_text (ch_path f))) <$> rx_changed_files c)
        ((λ p, py_len (xml_text p)) <$> rx_omitted_files c)).

Fixpoint chosen_lengths (fls : list FileLengths) (ch : choice) : list Z :=
  match fls, ch with
  | fl :: fls', Some s :: ch' => shown_length fl s :: chosen_lengths fls' ch'
  | _ :: fls', None :: ch' => chosen_lengths fls' ch'
  | _, _ => []
  end.
Fixpoint left_lengths (paths : list Z) (ch : choice) : list Z :=
  match paths, ch with
  | _ :: paths', Some _ :: ch' => left_lengths paths' ch'
  | p :: paths', None :: ch' => p :: left_lengths paths' ch'
  | _, _ => []
  end.

(** [_PromptLengths.tokens] *)
Definition length_tokens (pl : PromptLengths) (ch : choice) (count_length : Z → Z) : Z :=
  let shown := chosen_lengths (pl_files pl) ch in
  let changed_chars := py_sum shown + Z.max 0 (py_len shown - 1) in
  let omitted := left_lengths (pl_omitted_paths pl) ch in
  let omitted_count := py_len (pl_original_omitted pl) + py_len omitted in
  let omitted_chars :=
    py_sum (pl_original_omitted pl) + py_sum omitted + Z.max 0 (omitted_count - 1) in
  pl_system_tokens pl + count_length (pl_base_user pl + changed_chars + omitted_chars).

(** ** Choosing *)

(** [_longest_fitting_prefix]: the loop ends within as many turns as there are lines. *)
Fixpoint prefix_search (fits : nat → result PromptError bool) (turns : nat) (low high : Z)
    (best : option nat) : result PromptError (option nat) :=
  match turns with
  | O => Ok best
  | S turns' =>
      if low <=? high then
        let middle := (low + high) / 2 in
        ok ← fits (Z.to_nat middle);
        if (ok : bool) then prefix_search fits turns' (middle + 1) high (Some (Z.to_nat middle))
        else prefix_search fits turns' low (middle - 1) best
      else Ok best
  end.

Definition longest_fitting_prefix (fits : nat → result PromptError bool) (lines : nat)
  : result PromptError (option nat) :=
  prefix_search fits lines 1 (Z.of_nat lines - 1) None.

(** The loop over the files in their order. *)
Fixpoint choose_files (fits : choice → result PromptError bool) (files : list ChangedFile)
    (order : list nat) (kept : choice) : result PromptError choice :=
  match order with
  | [] => Ok kept
  | index :: order' =>
      match files !! index with
      | None => choose_files fits files order' kept
      | Some f =>
          whole ← fits (<[index := Some Whole]> kept);
          if (whole : bool) then choose_files fits files order' (<[index := Some Whole]> kept)
          else
            best ← longest_fitting_prefix (λ n, fits (<[index := Some (Cut n)]> kept))
                     (length (ch_lines f));
            choose_files fits files order'
              (match best with Some n => <[index := Some (Cut n)]> kept | None => kept end)
      end
  end.

Definition fits_tokens (max_prompt_tokens : Z) (r : result PromptError Z) : result PromptError bool :=
  n ← r; Ok (n <=? max_prompt_tokens).

(** The choice of [fit_review_context], by lengths or by whole messages. *)
Definition fit_files (c : ReviewContext) (max_prompt_tokens : Z) (counter : TokenCounter)
    (order : list nat) : result PromptError ReviewContext :=
  let start := (λ _, None) <$> rx_changed_files c in
  ch ← (match tc_count_length counter with
        | Some count_length =>
            lengths ← prompt_lengths c counter;
            choose_files (λ ch, fits_tokens max_prompt_tokens (Ok (length_tokens lengths ch count_length)))
              (rx_changed_files c) order start
        | None =>
            choose_files
              (λ ch, fits_tokens max_prompt_tokens (prompt_tokens repr (candidate c ch) counter))
              (rx_changed_files c) order start
        end);
  Ok (candidate c ch).

(** ** Dropping excerpts *)

Definition source_mem (s : SourceRef) (l : list SourceRef) : bool := bool_decide (s ∈ l).
Definition block_mem (b : RetrievedBlock) (l : list RetrievedBlock) : bool := bool_decide (b ∈ l).

Definition definitions_read_by (blocks places : list RetrievedBlock) : list RetrievedBlock :=
  let read := places ≫= rb_definitions in
  List.filter (λ b, source_mem (rb_source b) read) blocks.

Definition EXCERPT_DROP_ORDER : list ContextLevel := [Level_L3; Level_L2; Level_RAG; Level_L4].

(** One drop: a level and an index, of the blocks or, for a RAG place, of the retrieved blocks. *)
Definition drop_key : Type := ContextLevel * nat.
Definition drop_rank (k : drop_key) : option nat := fst <$> list_find (λ l, l = fst k) EXCERPT_DROP_ORDER.
Definition drop_leb (a b : drop_key) : bool :=
  let ra := default 0%nat (drop_rank a) in
  let rb := default 0%nat (drop_rank b) in
  (ra <? rb)%nat || ((ra =? rb)%nat && (snd b <=? snd a)%nat).

Definition rag_places (retrieved : list RetrievedBlock) : list nat :=
  let read := definitions_read_by retrieved retrieved in
  fst <$> List.filter (λ ib, negb (block_mem (snd ib) read)) (enumerate retrieved).

Definition all_drops (blocks : list ContextBlock) (retrieved : list RetrievedBlock) : list drop_key :=
  py_sorted drop_leb
    (((λ ib, (cb_level (snd ib), fst ib)) <$> enumerate blocks)
     ++ ((λ i, (Level_RAG, i)) <$> rag_places retrieved)).

Definition with_excerpts (c : ReviewContext) (blocks : list ContextBlock)
    (retrieved : list RetrievedBlock) : ReviewContext :=
  mkReviewContext (rx_system c) (rx_rules c) (rx_agents_md c) (rx_conventions c) (rx_pr_meta c)
    (rx_changed_files c) (rx_omitted_files c) (rx_policy_snapshot c) (rx_severity_threshold c)
    blocks retrieved (rx_retrieved_section c) (rx_excluded_files c).

(** [without(dropped)] *)
Definition without_excerpts (c : ReviewContext) (drops : list drop_key) (dropped : nat)
  : ReviewContext :=
  let blocks := rx_context_blocks c in
  let retrieved := rx_retrieved c in
  let gone := take dropped drops in
  let kept := omap (λ i, if bool_decide ((Level_RAG, i) ∈ gone) then None else retrieved !! i)
                (rag_places retrieved) in
  let shown := kept ++ definitions_read_by retrieved kept in
  with_excerpts c
    (snd <$> List.filter (λ ib, negb (bool_decide ((cb_level (snd ib), fst ib) ∈ gone)))
               (enumerate blocks))
    (List.filter (λ b, block_mem b shown) retrieved).

Fixpoint drop_search (fits : nat → result PromptError bool) (turns : nat) (low high : nat)
  : result PromptError nat :=
  match turns with
  | O => Ok low
  | S turns' =>
      if (low <? high)%nat then
        let middle := ((low + high) / 2)%nat in
        ok ← fits middle;
        if (ok : bool) then drop_search fits turns' low middle
        else drop_search fits turns' (S middle) high
      else Ok low
  end.

(** A level that has no place in the drop order is a [ValueError]. *)
Definition drop_excerpts (c : ReviewContext) (max_prompt_tokens : Z) (counter : TokenCounter)
  : result (option PromptError) ReviewContext :=
  let drops := all_drops (rx_context_blocks c) (rx_retrieved c) in
  if existsb (λ k, is_none (drop_rank k)) drops then Err None
  else
    low ← map_err Some
            (drop_search (λ n, fits_tokens max_prompt_tokens
                                 (prompt_tokens repr (without_excerpts c drops n) counter))
               (length drops) 1 (length drops));
    Ok (without_excerpts c drops low).

(** ** Priorities *)

Definition MAX_BRACE_EXPANSION_WORK : Z := 256.
Definition is_brace (c : char) : bool := (c =? 123)%N || (c =? 125)%N.

(** [_BRACES], a pair of braces with none between: the group after an opening brace, and the first
    of a text. *)
Fixpoint brace_group (s : pystr) : option (pystr * pystr) :=
  match s with
  | [] => None
  | c :: s' =>
      if (c =? 125)%N then Some ([], s')
      else if (c =? 123)%N then None
      else '(inner, rest) ← brace_group s'; Some (c :: inner, rest)
  end.
Fixpoint brace_search (s : pystr) : option (pystr * pystr * pystr) :=
  match s with
  | [] => None
  | c :: s' =>
      match (if (c =? 123)%N then brace_group s' else None) with
      | Some (options, rest) => Some ([], options, rest)
      | None => '(head, options, rest) ← brace_search s'; Some (c :: head, options, rest)
      end
  end.

Definition COMMA : char := 44%N.
Definition alternatives (head options rest : pystr) : list pystr :=
  (λ o, head ++ o ++ rest) <$> split_on COMMA options.

(** One pass over the candidates: the next patterns, whether one changed, the work so far. *)
Fixpoint expand_pass (candidates : list pystr) (work : Z) : option (list pystr * bool * Z) :=
  match candidates with
  | [] => Some ([], false, work)
  | p :: rest =>
      let work1 := work + 1 in
      if MAX_BRACE_EXPANSION_WORK <? work1 then None
      else
        match brace_search p with
        | None =>
            '(next, changed, w) ← expand_pass rest work1;
            Some (p :: next, changed, w)
        | Some (head, options, tail) =>
            let work2 := work1 + Z.of_N (count_char COMMA options) + 1 in
            if MAX_BRACE_EXPANSION_WORK <? work2 then None
            else
              '(next, _, w) ← expand_pass rest work2;
              Some (alternatives head options tail ++ next, true, w)
        end
  end.

(** A pass examines at least one candidate, so 257 passes are enough. *)
Fixpoint expand_loop (passes : nat) (expanded : list pystr) (work : Z) : option (list pystr) :=
  match passes with
  | O => None
  | S passes' =>
      '(next, changed, w) ← expand_pass expanded work;
      if (changed : bool) then expand_loop passes' next w else Some next
  end.
Definition expand_braces (pattern : pystr) : option (list pystr) := expand_loop 257 [pattern] 0.

Section Priority.
Context (full_match : pystr → pystr → bool).
Context (float : Type) (fl : Q → float) (fmul : float → float → float) (math_log : Z → float).
Context (flt feq : float → float → bool).

Definition rule_is_ignored (r : ReviewRule) : bool :=
  py_any (λ p, is_none (expand_braces p)) (rr_include r ++ rr_exclude r).

Definition matches_patterns (path : pystr) (patterns : list pystr) : bool :=
  py_any (λ p, py_any (full_match path) (default [] (expand_braces p))) patterns.

Definition matches_rule (path : pystr) (r : ReviewRule) : bool :=
  if rule_is_ignored r then false
  else matches_patterns path (rr_include r) && negb (matches_patterns path (rr_exclude r)).

Definition TEST_DIRECTORIES : list pystr := [u8 "tests"; u8 "test"; u8 "__tests__"; u8 "spec"].
Definition TEST_NAME_MARKERS : list pystr := [u8 "test_"; u8 "_test."; u8 ".test."; u8 ".spec."].
Definition CONFIG_SUFFIXES : list pystr :=
  [u8 ".cfg"; u8 ".conf"; u8 ".env"; u8 ".ini"; u8 ".json"; u8 ".lock"; u8 ".toml"; u8 ".xml";
   u8 ".yaml"; u8 ".yml"].

Definition kind_weight (path : pystr) : Q :=
  let lowered := str_lower path in
  let name := path_name lowered in
  if py_any (λ p, str_mem p TEST_DIRECTORIES) (removelast (path_parts lowered))
     || py_any (contains name) TEST_NAME_MARKERS then (6 # 10)%Q
  else if str_mem (path_suffix lowered) CONFIG_SUFFIXES || (name =?s u8 "dockerfile") then (4 # 10)%Q
  else 1%Q.

Definition changed_lines (f : ChangedFile) : Z :=
  py_len (List.filter (λ l, negb (bool_decide (dl_type l = Row_context))) (ch_lines f)).

Definition priority (rules : list ReviewRule) (f : ChangedFile) : float :=
  let weight := fmul (fl (kind_weight (ch_path f))) (math_log (changed_lines f + 1)) in
  if py_any (matches_rule (ch_path f)) rules then fmul weight (fl (3 # 2)%Q) else weight.

(** [key=lambda index: (-_priority(..), files[index].path)] *)
Definition file_leb (rules : list ReviewRule) (a b : nat * ChangedFile) : bool :=
  let pa := priority rules (snd a) in
  let pb := priority rules (snd b) in
  if feq pa pb then str_leb (ch_path (snd a)) (ch_path (snd b)) else flt pb pa.
Definition file_order (rules : list ReviewRule) (files : list ChangedFile) : list nat :=
  fst <$> py_sorted (file_leb rules) (enumerate files).

(** ** The fit *)

Definition has_excerpts (c : ReviewContext) : bool :=
  negb (bool_decide (length (rx_context_blocks c) = 0%nat))
  || negb (bool_decide (length (rx_retrieved c) = 0%nat)).

Definition fit_review_context (c : ReviewContext) (max_prompt_tokens : Z) (counter : TokenCounter)
  : result (option PromptError) ReviewContext :=
  let lift {A} (r : result PromptError A) : result (option PromptError) A := map_err Some r in
  total ← lift (prompt_tokens repr c counter);
  if total <=? max_prompt_tokens then Ok c
  else
    let files_of (c' : ReviewContext) :=
      lift (fit_files c' max_prompt_tokens counter (file_order (rx_rules c') (rx_changed_files c'))) in
    if has_excerpts c then
      c' ← drop_excerpts c max_prompt_tokens counter;
      if has_excerpts c' then Ok c'
      else
        total' ← lift (prompt_tokens repr c' counter);
        if total' <=? max_prompt_tokens then Ok c' else files_of c'
    else files_of c.
End Priority.
End Fit.
