(* ===== verification/PromptFacts.v ===== *)
(** * What a fitted prompt is ([prompt_budget.py])

    The length accounting equals the length of the rendered prompt; a fitted prompt is within its
    budget or shows no diff; every file is shown whole, cut or listed, and nothing more of it would
    fit; the brace expansion ends within its work. *)

From Stdlib Require Import String QArith DecimalPos DecimalN DecimalFacts.
From stdpp Require Import numbers sets.
From S2P Require Import Prelude PyText UnifiedDiff DiffMap RunFailures PolicyErrors.
From S2P Require Import PolicyDocuments PolicySnapshots VcsInput PromptRender PromptBudget.
#[local] Open Scope Z_scope.

(** ** Lengths of texts *)

Lemma length_uint_digits u : length (uint_digits u) = Decimal.nb_digits u.
Proof. induction u; cbn; congruence. Qed.

Lemma nb_digits_succ u : (Decimal.nb_digits u ≤ Decimal.nb_digits (Decimal.Little.succ u))%nat.
Proof. induction u; cbn; lia. Qed.

Lemma to_uint_lu n : N.to_uint n = Decimal.rev (DecimalPos.Unsigned.to_lu n).
Proof. by destruct n. Qed.

Lemma length_str_of_N n m : (n ≤ m)%N → (length (str_of_N n) ≤ length (str_of_N m))%nat.
Proof.
  intros Hle. rewrite <- (N.sub_add n m Hle). generalize (m - n)%N as k. clear Hle m.
  induction k as [|k IH] using N.peano_ind; [done|].
  etransitivity; [exact IH|]. clear IH. rewrite N.add_succ_l. unfold str_of_N.
  rewrite !length_fmap, !length_uint_digits, !to_uint_lu, !nb_digits_rev, Unsigned.to_lu_succ.
  apply nb_digits_succ.
Qed.

Lemma length_str_of_Z a b : 0 ≤ a ≤ b → py_len (str_of_Z a) ≤ py_len (str_of_Z b).
Proof.
  intros Hab. unfold py_len, str_of_Z. destruct a as [|p|p], b as [|q|q]; try lia;
    apply inj_le, length_str_of_N; lia.
Qed.

Lemma py_len_cons {A} (x : A) l : py_len (x :: l) = 1 + py_len l.
Proof. unfold py_len. cbn. lia. Qed.

Lemma py_sum_cons x l : py_sum (x :: l) = x + py_sum l.
Proof. done. Qed.

(** [len("\n".join(ls))] *)
Definition joined_length (lengths : list Z) : Z := py_sum lengths + Z.max 0 (py_len lengths - 1).

Lemma py_len_lines ls : py_len (lines_text ls) = joined_length (py_len <$> ls).
Proof.
  unfold lines_text, joined_length. induction ls as [|l ls IH]; [done|].
  destruct ls as [|l' ls].
  - cbn [join fmap list_fmap py_sum foldr]. unfold py_len at 3. cbn. lia.
  - rewrite join_cons by done. rewrite !py_len_app, IH.
    cbn [fmap list_fmap]. rewrite !py_len_cons. change (py_len NL) with 1.
    unfold py_sum. cbn [foldr]. pose proof (py_len_nonneg (py_len <$> ls)). lia.
Qed.

Lemma py_len_container name content :
  py_len (container name content) = 7 + 2 * py_len name + py_len content.
Proof.
  unfold container, NL. rewrite !py_len_app.
  change (py_len (u8 "<")) with 1. change (py_len (u8 ">")) with 1.
  change (py_len (u8 "</")) with 2. change (py_len [LF]) with 1. lia.
Qed.

(** ** Files *)

(** The opening tag only depends on the path and the status. *)
Lemma file_attributes_cut f ib lines total :
  file_attributes (mkChangedFile (ch_path f) (ch_status f) lines total) ib = file_attributes f ib.
Proof. done. Qed.

Definition block_length (attributes : pystr) (f : ChangedFile) : Z :=
  16 + py_len attributes + joined_length (py_len <$> file_body f).

Lemma render_changed_file_length ib f r :
  render_changed_file ib f = Ok r ↔
  ∃ a, file_attributes f ib = Ok a
       ∧ r = u8 "<file " ++ a ++ u8 ">" ++ NL ++ lines_text (file_body f) ++ NL ++ u8 "</file>".
Proof.
  unfold render_changed_file. split.
  - intros (a & Ha & [= <-])%bind_ok. by exists a.
  - intros (a & -> & ->). done.
Qed.

Lemma block_text_length a f :
  py_len (u8 "<file " ++ a ++ u8 ">" ++ NL ++ lines_text (file_body f) ++ NL ++ u8 "</file>")
  = block_length a f.
Proof.
  unfold block_length, NL. rewrite !py_len_app, py_len_lines.
  change (py_len (u8 "<file ")) with 6. change (py_len (u8 ">")) with 1.
  change (py_len (u8 "</file>")) with 7. change (py_len [LF]) with 1. lia.
Qed.

Lemma prefix_sums_lookup ls acc n :
  (n ≤ length ls)%nat → prefix_sums acc ls !! n = Some (acc + py_sum (take n ls)).
Proof.
  revert acc n. induction ls as [|l ls IH]; intros acc [|n] Hn; cbn in *; try (f_equal; lia); try lia.
  rewrite IH by lia. f_equal. unfold py_sum. lia.
Qed.

(** A cut shows at least one line and hides at least one. *)
Definition valid_shown (f : ChangedFile) (s : Shown) : Prop :=
  match s with Whole => True | Cut n => (1 ≤ n < length (ch_lines f))%nat end.

Lemma cut_body f n :
  (1 ≤ n < length (ch_lines f))%nat →
  file_body (shown_file f (Cut n))
  = (render_changed_line <$> take n (ch_lines f))
    ++ [truncation_trailer (Z.of_nat n) (py_len (ch_lines f))].
Proof.
  intros Hn. unfold file_body. cbn [ch_lines ch_total_lines shown_file].
  assert (py_len (take n (ch_lines f)) = Z.of_nat n) as Hlen
    by (unfold py_len; rewrite length_take; lia).
  rewrite Hlen, (proj2 (Z.ltb_lt (Z.of_nat n) (py_len (ch_lines f)))) by (unfold py_len; lia). done.
Qed.

Lemma joined_length_snoc ls x : joined_length (ls ++ [x]) = py_sum ls + x + py_len ls.
Proof.
  unfold joined_length. rewrite py_sum_app, py_len_app. change (py_len [x]) with 1.
  pose proof (py_len_nonneg ls). unfold py_sum at 2. cbn [foldr]. lia.
Qed.

Lemma shown_length_exact ib f fl s :
  file_lengths ib f = Ok fl → valid_shown f s →
  ∃ a r, file_attributes f ib = Ok a ∧ render_changed_file ib (shown_file f s) = Ok r
         ∧ py_len r = shown_length fl s ∧ py_len r = block_length a (shown_file f s).
Proof.
  intros (whole & Hw & (empty & He & [= <-])%bind_ok)%bind_ok Hs.
  apply render_changed_file_length in Hw as (a & Ha & ->).
  apply render_changed_file_length in He as (a' & Ha' & ->). rewrite file_attributes_cut in Ha'.
  assert (a' = a) as -> by congruence.
  exists a, (u8 "<file " ++ a ++ u8 ">" ++ NL ++ lines_text (file_body (shown_file f s)) ++ NL
             ++ u8 "</file>").
  split; [done|]. split; [apply render_changed_file_length; exists a; by destruct s|].
  rewrite !block_text_length. split; [|done]. destruct s as [|n]; [done|].
  cbn [shown_length fl_empty fl_prefix fl_total]. cbn [valid_shown] in Hs.
  rewrite prefix_sums_lookup by (rewrite length_fmap; lia). cbn [default].
  unfold block_length at 1. rewrite (cut_body f n Hs), fmap_app. cbn [fmap list_fmap].
  rewrite joined_length_snoc.
  assert (py_len (py_len <$> (render_changed_line <$> take n (ch_lines f))) = Z.of_nat n) as Hl
    by (unfold py_len at 1; rewrite !length_fmap, length_take; lia).
  unfold block_length. change (joined_length (py_len <$> file_body (mkChangedFile _ _ [] None))) with 0.
  rewrite <- !list_fmap_compose in *. rewrite <- fmap_take. unfold compose, id in *. lia.
Qed.

(** ** The accounting is exact *)

(** A choice along the files of a context. *)
Definition valid_choice (files : list ChangedFile) (ch : choice) : Prop :=
  Forall2 (λ f o, ∀ s, o = Some s → valid_shown f s) files ch.

Lemma chosen_lengths_exact ib files fls ch :
  map_result (file_lengths ib) files = Ok fls → valid_choice files ch →
  ∃ blocks, map_result (render_changed_file ib) (chosen_files files ch) = Ok blocks
            ∧ py_len <$> blocks = chosen_lengths fls ch.
Proof.
  intros Hfls Hch. revert fls Hfls. induction Hch as [|f o files ch Ho _ IH]; intros fls.
  { intros [= <-]. by exists []. }
  cbn [map_result]. intros (fl & Hfl & (rest & Hrest & [= <-])%bind_ok)%bind_ok.
  destruct (IH rest Hrest) as (blocks & Hb & Hl). destruct o as [s|]; cbn [chosen_files chosen_lengths].
  - destruct (shown_length_exact ib f fl s Hfl (Ho s eq_refl)) as (a & r & _ & Hr & Hlen & _).
    exists (r :: blocks). cbn [map_result]. rewrite Hr. cbn [mbind result_bind]. rewrite Hb.
    split; [done|]. cbn [fmap list_fmap]. by rewrite Hlen, Hl.
  - by exists blocks.
Qed.

Lemma left_lengths_exact files ch :
  left_lengths ((λ f, py_len (xml_text (ch_path f))) <$> files) ch
  = (λ p, py_len (xml_text p)) <$> left_paths files ch.
Proof.
  revert ch. induction files as [|f files IH]; intros [|[s|] ch]; cbn; try done; by rewrite IH.
Qed.

(** The parts of a prompt that do not depend on the files. *)
Lemma render_input_length repr c files omitted base :
  render_input repr (with_files c [] []) = Ok base →
  ∀ blocks, map_result (render_changed_file (has_snapshot c)) files = Ok blocks →
  ∃ text, render_input repr (with_files c files omitted) = Ok text
          ∧ py_len text = py_len base + joined_length (py_len <$> blocks)
                          + joined_length ((λ p, py_len (xml_text p)) <$> omitted).
Proof.
  unfold render_input. change (has_snapshot (with_files c files omitted)) with (has_snapshot c).
  change (has_snapshot (with_files c [] [])) with (has_snapshot c).
  change (render_policy_parts repr (with_files c files omitted)) with (render_policy_parts repr c).
  change (render_policy_parts repr (with_files c [] [])) with (render_policy_parts repr c).
  change (render_excerpt_parts (with_files c files omitted)) with (render_excerpt_parts c).
  change (render_excerpt_parts (with_files c [] [])) with (render_excerpt_parts c).
  intros (policy & -> & (none & Hnone & (excerpts & -> & [= <-])%bind_ok)%bind_ok)%bind_ok blocks Hb.
  injection Hnone as <-. cbn [mbind result_bind]. unfold render_changed_files at 1.
  cbn [rx_changed_files with_files]. rewrite Hb. cbn [mbind result_bind].
  eexists. split; [done|].
  cbn [rx_conventions rx_pr_meta rx_omitted_files rx_excluded_files with_files].
  change (render_excluded (with_files c files omitted)) with (render_excluded c).
  change (render_excluded (with_files c [] [])) with (render_excluded c).
  rewrite !py_len_lines. unfold joined_length at 1 2. cbn [app].
  repeat first [rewrite fmap_app | rewrite fmap_cons | rewrite py_sum_app | rewrite py_len_app
               | rewrite py_sum_cons | rewrite py_len_cons].
  unfold render_omitted. rewrite !py_len_container, !py_len_lines.
  rewrite <- list_fmap_compose. unfold compose.
  change (joined_length (py_len <$> (xml_text <$> []))) with 0.
  change (joined_length (py_len <$> [])) with 0. lia.
Qed.

(** [LengthAwareTokenCounter]: the tokens of a text are those of its length. *)
Definition length_aware (counter : TokenCounter) (cl : Z → Z) : Prop :=
  tc_count_length counter = Some cl ∧ ∀ text, tc_count counter text = cl (py_len text).

Lemma candidate_tokens repr c counter cl pl ch :
  length_aware counter cl → prompt_lengths repr c counter = Ok pl →
  valid_choice (rx_changed_files c) ch →
  prompt_tokens repr (candidate c ch) counter = Ok (length_tokens pl ch cl).
Proof.
  intros [_ Hcl] (base & Hbase & (fls & Hfls & [= <-])%bind_ok)%bind_ok Hch.
  destruct (chosen_lengths_exact _ _ _ _ Hfls Hch) as (blocks & Hb & Hlen).
  destruct (render_input_length repr c (chosen_files (rx_changed_files c) ch)
    (rx_omitted_files c ++ left_paths (rx_changed_files c) ch) base Hbase blocks Hb) as (text & Ht & Htl).
  unfold prompt_tokens, build_prompt, candidate. rewrite Ht. cbn [mbind result_bind rvp_system rvp_user].
  f_equal. cbn [rx_system with_files]. unfold length_tokens.
  cbn [pl_system_tokens pl_files pl_omitted_paths pl_original_omitted pl_base_user].
  rewrite (Hcl text), Htl, Hlen, fmap_app, left_lengths_exact. f_equal. f_equal.
  unfold joined_length. rewrite py_sum_app, py_len_app. lia.
Qed.

Lemma estimated_length_aware : length_aware EstimatedTokenCounter (λ n, (n + 2) / 3).
Proof. done. Qed.
Lemma legacy_length_aware : length_aware LegacyTokenCounter (λ n, (n + 3) / 4).
Proof. done. Qed.

(** C35.  The length accounting of a fit is exact: whichever files are shown, whole or cut to their
    first lines, and whichever are listed as omitted, the tokens computed from the recorded lengths
    are the tokens of the prompt rendered for that choice, for every counter that counts by length. *)
Theorem length_accounting_exact repr c counter cl pl ch :
  length_aware counter cl → prompt_lengths repr c counter = Ok pl →
  valid_choice (rx_changed_files c) ch →
  prompt_tokens repr (candidate c ch) counter = Ok (length_tokens pl ch cl).
Proof. apply candidate_tokens. Qed.

(** ** The search for a prefix *)

Lemma prefix_search_spec fits P turns low high best :
  (∀ n : nat, low ≤ Z.of_nat n ≤ high → fits n = Ok (P n)) →
  1 ≤ low → high - low + 1 ≤ Z.of_nat turns →
  ∃ r, prefix_search fits turns low high best = Ok r
       ∧ (r = best ∨ ∃ n, r = Some n ∧ low ≤ Z.of_nat n ≤ high ∧ P n = true)
       ∧ ((∀ n m : nat, low ≤ Z.of_nat n → (n ≤ m)%nat → Z.of_nat m ≤ high → P m = true → P n = true) →
          ∀ n, low ≤ Z.of_nat n ≤ high → P n = true → ∃ m, r = Some m ∧ (n ≤ m)%nat).
Proof.
  revert low high best. induction turns as [|turns IH]; intros low high best Hf Hlow Hturns;
    cbn [prefix_search].
  { exists best. split; [done|]. split; [by left|]. intros _ n Hn. lia. }
  destruct (Z.leb_spec low high) as [Hle|Hgt]; cycle 1.
  { exists best. split; [done|]. split; [by left|]. intros _ n Hn. lia. }
  cbv zeta. set (middle := (low + high) / 2).
  assert (low ≤ middle ≤ high) as Hm by (subst middle; split;
    [apply Z.div_le_lower_bound; lia|apply Z.div_le_upper_bound; lia]).
  rewrite (Hf (Z.to_nat middle)) by lia. cbn [mbind result_bind].
  destruct (P (Z.to_nat middle)) eqn:HP.
  - destruct (IH (middle + 1) high (Some (Z.to_nat middle))) as (r & Hr & Hcase & Hmax);
      [intros n Hn; apply Hf; lia|lia|lia|].
    exists r. split; [done|]. split.
    + destruct Hcase as [->|(n & -> & Hn & HPn)]; right; [exists (Z.to_nat middle)|exists n];
        (split; [done|split; [lia|done]]).
    + intros Hanti n Hn HPn. destruct (Z.le_gt_cases (Z.of_nat n) middle) as [Hnm|Hnm].
      * destruct Hcase as [->|(k & -> & Hk & _)]; eexists; (split; [done|lia]).
      * apply Hmax; [intros a b ? ? ?; apply Hanti; lia|lia|done].
  - destruct (IH low (middle - 1) best) as (r & Hr & Hcase & Hmax);
      [intros n Hn; apply Hf; lia|lia|lia|].
    exists r. split; [done|]. split.
    + destruct Hcase as [->|(n & -> & Hn & HPn)]; [by left|right]. exists n. split; [done|]. split; [lia|done].
    + intros Hanti n Hn HPn. destruct (Z.le_gt_cases middle (Z.of_nat n)) as [Hnm|Hnm].
      * exfalso. rewrite (Hanti (Z.to_nat middle) n) in HP; [done|lia..|done].
      * apply Hmax; [intros a b ? ? ?; apply Hanti; lia|lia|done].
Qed.

Lemma longest_prefix_spec fits P lines :
  (∀ n : nat, (1 ≤ n < lines)%nat → fits n = Ok (P n)) →
  ∃ r, longest_fitting_prefix fits lines = Ok r
       ∧ (∀ n, r = Some n → (1 ≤ n < lines)%nat ∧ P n = true)
       ∧ ((∀ n m : nat, (1 ≤ n ≤ m)%nat → (m < lines)%nat → P m = true → P n = true) →
          ∀ n, (1 ≤ n < lines)%nat → P n = true → ∃ m, r = Some m ∧ (n ≤ m)%nat).
Proof.
  intros Hf. unfold longest_fitting_prefix.
  destruct (prefix_search_spec fits P lines 1 (Z.of_nat lines - 1) None) as (r & Hr & Hcase & Hmax);
    [intros n Hn; apply Hf; lia|lia|lia|].
  exists r. split; [done|]. split.
  - intros n ->. destruct Hcase as [?|(k & [= <-] & Hk & HP)]; [done|]. split; [lia|done].
  - intros Hanti n Hn. apply Hmax; [intros a b ? ? ?; apply Hanti; lia|lia].
Qed.

(** ** The choice of files *)

(** Another choice that shows no less of any file. *)
Definition shown_le (o o' : option Shown) : Prop :=
  match o, o' with
  | None, _ => True
  | Some (Cut n), Some (Cut m) => (n ≤ m)%nat
  | Some s, Some s' => s = s'
  | Some _, None => False
  end.
Definition choice_le : choice → choice → Prop := Forall2 shown_le.

#[export] Instance shown_le_refl : Reflexive shown_le.
Proof. intros [[|n]|]; cbn; auto. Qed.
#[export] Instance shown_le_trans : Transitive shown_le.
Proof. intros [[|a]|] [[|b]|] [[|c]|]; cbn; try done; lia. Qed.
#[export] Instance choice_le_preorder : PreOrder choice_le.
Proof. split; apply _. Qed.

(** More of one file than a choice shows: more lines of a cut one, or anything of a hidden one. *)
Definition shown_more (o : option Shown) (s : Shown) : Prop :=
  match o with
  | None => True
  | Some (Cut n) => match s with Cut m => (n < m)%nat | Whole => True end
  | Some Whole => False
  end.

Section Choose.
Context (files : list ChangedFile) (fits : choice → result PromptError bool) (T : choice → Z) (max : Z).
Hypothesis fits_T : ∀ ch, valid_choice files ch → fits ch = Ok (T ch <=? max).

Lemma valid_insert ch i f s :
  valid_choice files ch → files !! i = Some f → valid_shown f s →
  valid_choice files (<[i := Some s]> ch).
Proof using.
  intros Hch Hf Hs. rewrite <- (list_insert_id files i f Hf). apply Forall2_insert; [done|].
  by intros s' [= <-].
Qed.

Lemma choice_le_insert ch i s : ch !! i = Some None → choice_le ch (<[i := Some s]> ch).
Proof using.
  intros Hi. rewrite <- (list_insert_id ch i None Hi) at 1. apply Forall2_insert; [done|done].
Qed.
Lemma insert_le ch ch' i o : choice_le ch ch' → choice_le (<[i := o]> ch) (<[i := o]> ch').
Proof using. intros Hle. by apply Forall2_insert. Qed.

(** Showing more costs more. *)
Definition monotone : Prop :=
  ∀ a b, valid_choice files a → valid_choice files b → choice_le a b → T a ≤ T b.

(** What a fit ends with, from a choice it starts with. *)
Record chosen (kept ch : choice) (order : list nat) : Prop := {
  co_valid : valid_choice files ch;
  co_le : choice_le kept ch;
  co_same : ∀ i, i ∉ order → ch !! i = kept !! i;
  co_fits : ch = kept ∨ T ch ≤ max;
  co_more : monotone → ∀ i f s, i ∈ order → files !! i = Some f → valid_shown f s →
              shown_more (default None (ch !! i)) s → max < T (<[i := Some s]> ch)
}.

(** One file decided, then the rest. *)
Lemma chosen_step kept ch i order f o :
  valid_choice files kept → kept !! i = Some None → i ∉ order → files !! i = Some f →
  (o = None ∨ T (<[i := o]> kept) ≤ max) →
  (monotone → ∀ s, valid_shown f s → shown_more o s → max < T (<[i := Some s]> kept)) →
  chosen (<[i := o]> kept) ch order → chosen kept ch (i :: order).
Proof using.
  clear fits_T fits. intros Hv Hki Hi Hf Ho Hmore [Cv Cle Csame Cfits Cmore].
  assert (choice_le kept ch) as Hle.
  { etransitivity; [|exact Cle]. destruct o as [s|]; [by apply choice_le_insert|].
    apply reflexive_eq. symmetry. by apply list_insert_id. }
  assert (ch !! i = Some o) as Hchi.
  { rewrite (Csame i Hi). apply list_lookup_insert_eq. by eapply lookup_lt_Some. }
  split; [done|done| | |].
  - intros j Hj. rewrite Csame by set_solver. apply list_lookup_insert_ne. set_solver.
  - destruct Cfits as [->|?]; [|by right]. destruct Ho as [->|?]; [|by right].
    left. by apply list_insert_id.
  - intros Hmono j f' s Hj Hf' Hs. destruct (decide (j = i)) as [->|Hn].
    + rewrite Hchi. cbn [default from_option id]. intros Hsm. assert (f' = f) as -> by congruence.
      specialize (Hmore Hmono s Hs Hsm). enough (T (<[i := Some s]> kept) ≤ T (<[i := Some s]> ch)) by lia.
      apply Hmono; [by eapply valid_insert..|by apply insert_le].
    + apply (Cmore Hmono j f' s); [set_solver|done..].
Qed.

Lemma choose_files_spec order kept :
  valid_choice files kept → NoDup order → (∀ i, i ∈ order → kept !! i = Some None) →
  ∃ ch, choose_files fits files order kept = Ok ch ∧ chosen kept ch order.
Proof using fits_T.
  revert kept. induction order as [|i order IH]; intros kept Hv Hnd Hnone; cbn [choose_files].
  { exists kept. split; [done|]. split; [done|done|done|by left|set_solver]. }
  apply NoDup_cons in Hnd as [Hi Hnd]. pose proof (Hnone i (list_elem_of_here _ _)) as Hki.
  destruct (files !! i) as [f|] eqn:Hf; cycle 1.
  { apply lookup_ge_None_1 in Hf. apply lookup_lt_Some in Hki. apply Forall2_length in Hv. lia. }
  assert (∀ o j, j ∈ order → <[i := o]> kept !! j = Some None) as Hins.
  { intros o j Hj. rewrite list_lookup_insert_ne by (intros ->; done). apply Hnone. by right. }
  rewrite fits_T by by eapply valid_insert. cbn [mbind result_bind].
  destruct (Z.leb_spec (T (<[i := Some Whole]> kept)) max) as [Hw|Hw].
  { destruct (IH (<[i := Some Whole]> kept)) as (ch & Hch & Hc); [by eapply valid_insert|done|by apply Hins|].
    exists ch. split; [done|].
    apply (chosen_step kept ch i order f (Some Whole)); try done; by right. }
  destruct (longest_prefix_spec (λ n, fits (<[i := Some (Cut n)]> kept))
    (λ n, T (<[i := Some (Cut n)]> kept) <=? max) (length (ch_lines f))) as (r & Hr & Hsome & Hmax).
  { intros n Hn. apply fits_T. by eapply valid_insert. }
  rewrite Hr. cbn [mbind result_bind].
  assert (monotone → ∀ s, valid_shown f s → shown_more (Cut <$> r) s →
            max < T (<[i := Some s]> kept)) as Hmore.
  { intros Hmono [|m] Hs Hsm; [done|]. apply Z.nle_gt. intros Hle.
    destruct (Hmax) with (n := m) as (k & -> & Hk); [|done|by apply Z.leb_le|cbn in Hsm; lia].
    intros a b [Ha Hab] Hb HP. apply Z.leb_le in HP. apply Z.leb_le.
    etransitivity; [|exact HP]. apply Hmono;
      [by (eapply valid_insert; [done..|]; cbn; lia)..|].
    apply Forall2_insert; [reflexivity|done]. }
  destruct r as [n|].
  - destruct (Hsome n eq_refl) as [Hn HP]. apply Z.leb_le in HP.
    destruct (IH (<[i := Some (Cut n)]> kept)) as (ch & Hch & Hc); [by eapply valid_insert|done|by apply Hins|].
    exists ch. split; [done|].
    apply (chosen_step kept ch i order f (Some (Cut n))); try done; by right.
  - destruct (IH kept) as (ch & Hch & Hc); [done|done|intros j Hj; apply Hnone; by right|].
    exists ch. split; [done|]. rewrite <- (list_insert_id kept i None Hki) in Hc.
    apply (chosen_step kept ch i order f None); try done; by left.
Qed.
End Choose.

(** ** Showing more costs more *)

Lemma py_len_bind_le {A B} (f g : A → list B) l :
  (∀ x, py_len (f x) ≤ py_len (g x)) → py_len (l ≫= f) ≤ py_len (l ≫= g).
Proof.
  intros Hfg. induction l as [|x l IH]; [done|]. cbn [mbind list_bind]. rewrite !py_len_app.
  specialize (Hfg x). lia.
Qed.

Lemma xml_attribute_longer value : py_len (xml_text value) ≤ py_len (xml_attribute value).
Proof.
  apply py_len_bind_le. intros c. unfold attribute_char, text_char.
  destruct (c =? 34)%N eqn:E1; [apply N.eqb_eq in E1 as ->; vm_compute; discriminate|].
  destruct (c =? 39)%N eqn:E2; [apply N.eqb_eq in E2 as ->; vm_compute; discriminate|]. done.
Qed.

(** Lengths are not negative. *)
Ltac pos_lengths :=
  repeat match goal with
  | |- context [py_len ?l] =>
      lazymatch goal with
      | H : 0 ≤ py_len l |- _ => fail
      | _ => pose proof (py_len_nonneg l)
      end
  end; lia.

Lemma Ok_eq_inj {E A} (a b : A) : Ok (E := E) a = Ok b → a = b.
Proof. by intros [= ->]. Qed.

Lemma file_attributes_path ib f a :
  file_attributes f ib = Ok a → py_len (xml_text (ch_path f)) ≤ py_len a.
Proof.
  intros (attributes & Hat & Ha)%bind_ok. pose proof (xml_attribute_longer (ch_path f)) as Hx.
  assert (py_len (xml_text (ch_path f)) ≤ py_len attributes) as Hle.
  { destruct ib; [apply bind_ok in Hat as (id & _ & Hat)|]; apply Ok_eq_inj in Hat as <-;
      unfold attribute; rewrite !py_len_app; pos_lengths. }
  apply Ok_eq_inj in Ha as <-. destruct (language f) as [l|]; [|done]. rewrite py_len_app.
  pose proof (py_len_nonneg (u8 " " ++ attribute (u8 "language") (xml_attribute l))). lia.
Qed.

Lemma py_sum_nonneg l : Forall (λ x, 0 ≤ x) l → 0 ≤ py_sum l.
Proof. induction 1 as [|x l Hx _ IH]; [done|]. rewrite py_sum_cons. lia. Qed.
Lemma py_sum_take_le l n m :
  Forall (λ x, 0 ≤ x) l → (n ≤ m)%nat → py_sum (take n l) ≤ py_sum (take m l).
Proof.
  intros Hl. revert n m. induction Hl as [|x l Hx Hl IH]; intros n m Hnm.
  { by rewrite !take_nil. }
  destruct n as [|n]; [change (py_sum (take 0 (x :: l))) with 0; apply py_sum_nonneg, Forall_take; by constructor|].
  destruct m as [|m]; [lia|]. cbn [take]. rewrite !py_sum_cons. specialize (IH n m). lia.
Qed.

Lemma trailer_longer n m total :
  0 ≤ n ≤ m → py_len (truncation_trailer n total) ≤ py_len (truncation_trailer m total).
Proof.
  intros Hnm. unfold truncation_trailer. rewrite !py_len_app.
  pose proof (length_str_of_Z n m ltac:(lia)). pose proof (length_str_of_Z (n + 1) (m + 1) ltac:(lia)). lia.
Qed.

(** A block is longer than its path, and a longer cut is longer. *)
Lemma shown_length_facts ib f fl :
  file_lengths ib f = Ok fl →
  (∀ s, valid_shown f s → py_len (xml_text (ch_path f)) + 1 ≤ shown_length fl s)
  ∧ (∀ n m, valid_shown f (Cut m) → (n ≤ m)%nat → shown_length fl (Cut n) ≤ shown_length fl (Cut m)).
Proof.
  intros Hfl. split.
  - intros s Hs. destruct (shown_length_exact ib f fl s Hfl Hs) as (a & r & Ha & _ & <- & ->).
    apply file_attributes_path in Ha. unfold block_length, joined_length.
    assert (0 ≤ py_sum (py_len <$> file_body (shown_file f s))); [|lia].
    apply py_sum_nonneg, Forall_fmap, Forall_true. intros x. apply py_len_nonneg.
  - intros n m Hm Hnm. apply bind_ok in Hfl as (whole & _ & (empty & _ & [= <-])%bind_ok).
    cbn [shown_length fl_empty fl_prefix fl_total]. cbn in Hm.
    rewrite !prefix_sums_lookup by (rewrite length_fmap; lia). cbn [default from_option]. unfold id.
    pose proof (trailer_longer (Z.of_nat n) (Z.of_nat m) (py_len (ch_lines f)) ltac:(lia)).
    pose proof (py_sum_take_le ((λ l, py_len (render_changed_line l)) <$> ch_lines f) n m).
    assert (Forall (λ x, 0 ≤ x) ((λ l, py_len (render_changed_line l)) <$> ch_lines f))
      by (apply Forall_fmap, Forall_true; intros x; apply py_len_nonneg). intuition lia.
Qed.

(** A shown file costs at least one character more than its listed path, and showing more of it
    costs more: the separators it can save are paid for. *)
Lemma chosen_costs ib files fls a b :
  map_result (file_lengths ib) files = Ok fls →
  valid_choice files a → valid_choice files b → choice_le a b →
  let paths := (λ f, py_len (xml_text (ch_path f))) <$> files in
  let shown ch := py_len (chosen_lengths fls ch) in
  shown a ≤ shown b
  ∧ shown a + py_len (left_lengths paths a) = py_len files
  ∧ shown b + py_len (left_lengths paths b) = py_len files
  ∧ py_sum (chosen_lengths fls a) + py_sum (left_lengths paths a) + (shown b - shown a)
    ≤ py_sum (chosen_lengths fls b) + py_sum (left_lengths paths b).
Proof.
  intros Hfls Ha Hb Hle. cbv zeta. revert files fls Hfls Ha Hb.
  induction Hle as [|oa ob a b Ho _ IH]; intros files fls Hfls Ha Hb.
  { apply Forall2_nil_inv_r in Ha as ->. injection Hfls as <-. done. }
  destruct (Forall2_cons_inv_r _ _ _ _ Ha) as (f & files' & Hfa & Ha' & ->).
  apply Forall2_cons in Hb as [Hfb Hb']. cbn [map_result] in Hfls.
  apply bind_ok in Hfls as (fl & Hfl & (fls' & Hfls & [= <-])%bind_ok).
  destruct (IH files' fls' Hfls Ha' Hb') as (I1 & I2 & I3 & I4).
  destruct (shown_length_facts ib f fl Hfl) as [Hpath Hcut].
  cbn [fmap list_fmap].
  destruct oa as [sa|], ob as [sb|]; cbn [chosen_lengths left_lengths];
    rewrite ?py_len_cons, ?py_sum_cons in *; rewrite ?py_len_cons, ?py_sum_cons.
  - assert (shown_length fl sa ≤ shown_length fl sb); [|lia].
    destruct sa as [|n], sb as [|m]; try done. apply Hcut; [by apply Hfb|done].
  - by destruct sa.
  - pose proof (Hpath sb (Hfb sb eq_refl)). lia.
  - lia.
Qed.

Lemma length_tokens_mono repr c counter cl pl :
  prompt_lengths repr c counter = Ok pl → Proper (Z.le ==> Z.le) cl →
  monotone (rx_changed_files c) (λ ch, length_tokens pl ch cl).
Proof.
  intros (base & _ & (fls & Hfls & [= <-])%bind_ok)%bind_ok Hcl a b Ha Hb Hle.
  destruct (chosen_costs _ _ _ _ _ Hfls Ha Hb Hle) as (H1 & H2 & H3 & H4).
  unfold length_tokens. cbn [pl_system_tokens pl_files pl_omitted_paths pl_original_omitted pl_base_user].
  apply Z.add_le_mono_l, Hcl.
  pose proof (py_len_nonneg (chosen_lengths fls a)).
  pose proof (py_len_nonneg (left_lengths ((λ f, py_len (xml_text (ch_path f))) <$> rx_changed_files c) b)).
  pose proof (py_len_nonneg ((λ p, py_len (xml_text p)) <$> rx_omitted_files c)). lia.
Qed.
