(* ===== verification/PromptFit.v ===== *)
(** * The fitted prompt ([fit_review_context])

    A prompt that renders can be fitted: the result is within the budget or shows neither a changed
    file nor an excerpt, every file of the diff is shown whole, cut or listed, and for a counter that
    counts by length nothing more of any file would have fitted. *)

From Stdlib Require Import String QArith.
From stdpp Require Import numbers sets.
From S2P Require Import Prelude PyText UnifiedDiff DiffMap RunFailures PolicyErrors.
From S2P Require Import PolicyDocuments PolicySnapshots VcsInput PromptRender PromptBudget PromptFacts.
#[local] Open Scope Z_scope.

(** ** What renders *)

Lemma map_result_ok {E A B} (f : A → result E B) l :
  (∃ bs, map_result f l = Ok bs) ↔ Forall (λ a, ∃ b, f a = Ok b) l.
Proof.
  induction l as [|a l IH]; cbn [map_result]; [split; [done|by exists []]|].
  rewrite Forall_cons, <- IH. split.
  - intros (bs & (b & Hb & (bs' & Hbs & _)%bind_ok)%bind_ok). eauto.
  - intros [[b ->] [bs ->]]. by exists (b :: bs).
Qed.

Section Rendering.
Context (repr : pystr → pystr).

(** The file and excerpt parts of a context that renders. *)
Definition files_render (c : ReviewContext) : Prop :=
  Forall (λ f, ∃ r, render_changed_file (has_snapshot c) f = Ok r) (rx_changed_files c).
Definition excerpts_render (c : ReviewContext) : Prop :=
  Forall (λ b, ∃ r, render_excerpt b = Ok r) (rx_context_blocks c)
  ∧ (rx_retrieved_section c = true → Forall (λ b, ∃ r, render_retrieved b = Ok r) (rx_retrieved c)).

Lemma excerpt_parts_ok c : (∃ ps, render_excerpt_parts c = Ok ps) ↔ excerpts_render c.
Proof.
  unfold render_excerpt_parts, excerpts_render. rewrite <- !map_result_ok. split.
  - intros (ps & (es & He & (rs & Hr & _)%bind_ok)%bind_ok). split.
    + destruct (rx_context_blocks c) as [|b bs]; [by exists []|].
      apply bind_ok in He as (t & (shown & Hs & _)%bind_ok & _). by exists shown.
    + intros Hsec. rewrite Hsec in Hr. apply bind_ok in Hr as (t & (shown & Hs & _)%bind_ok & _).
      by exists shown.
  - intros [[es He] Hr].
    assert (∃ rs, (if rx_retrieved_section c
                   then t ← render_retrieved_excerpts (rx_retrieved c); Ok [t] else Ok []) = Ok rs)
      as [rs Hrs].
    { destruct (rx_retrieved_section c); [|by exists []]. destruct (Hr eq_refl) as [rs Hrs].
      unfold render_retrieved_excerpts. rewrite Hrs. by eexists. }
    rewrite Hrs. destruct (rx_context_blocks c) as [|b bs]; [by eexists|].
    unfold render_context_excerpts. rewrite He. by eexists.
Qed.

Definition renders (c : ReviewContext) : Prop := ∃ text, render_input repr c = Ok text.

Lemma renders_spec c :
  renders c ↔ (∃ ps, render_policy_parts repr c = Ok ps) ∧ files_render c ∧ excerpts_render c.
Proof.
  unfold renders, render_input, files_render. rewrite <- excerpt_parts_ok, <- map_result_ok. split.
  - intros (text & (ps & Hps & (fs & (bs & Hbs & _)%bind_ok & (es & Hes & _)%bind_ok)%bind_ok)%bind_ok).
    split_and!; by eexists.
  - intros ([ps ->] & [bs Hbs] & [es ->]). unfold render_changed_files. rewrite Hbs. by eexists.
Qed.

Lemma prompt_tokens_ok c counter : (∃ n, prompt_tokens repr c counter = Ok n) ↔ renders c.
Proof.
  unfold renders, prompt_tokens, build_prompt. split.
  - intros (n & (p & (text & Ht & _)%bind_ok & _)%bind_ok). eauto.
  - intros (text & ->). by eexists.
Qed.

(** The block of a file renders when its path does. *)
Lemma file_renders_shown ib f s r :
  render_changed_file ib f = Ok r → ∃ r', render_changed_file ib (shown_file f s) = Ok r'.
Proof using.
  intros (a & Ha & _)%render_changed_file_length. eexists. apply render_changed_file_length.
  exists a. split; [by destruct s|done].
Qed.

Lemma renders_candidate c ch : renders c → renders (candidate c ch).
Proof.
  rewrite !renders_spec. intros (Hp & Hf & He). split; [done|]. split; [|done].
  unfold files_render in *. change (has_snapshot (candidate c ch)) with (has_snapshot c).
  cbn [candidate rx_changed_files with_files]. revert ch.
  induction Hf as [|f files [r Hr] _ IH]; intros [|[s|] ch]; cbn [chosen_files]; try done.
  constructor; [by eapply file_renders_shown|done].
Qed.

Lemma renders_without c blocks retrieved :
  renders c → blocks ⊆ rx_context_blocks c → retrieved ⊆ rx_retrieved c →
  renders (with_excerpts c blocks retrieved).
Proof.
  rewrite !renders_spec. intros (Hp & Hf & He1 & He2) Hb Hr. split; [done|]. split; [done|].
  split; cbn [rx_context_blocks rx_retrieved rx_retrieved_section with_excerpts].
  - apply Forall_forall. intros b Hin. rewrite Forall_forall in He1. auto.
  - intros Hsec. specialize (He2 Hsec). apply Forall_forall. intros b Hin.
    rewrite Forall_forall in He2. auto.
Qed.

(** ** The order of the files *)

Lemma fst_enumerate {A} (l : list A) : fst <$> enumerate l = seq 0 (length l).
Proof using.
  unfold enumerate. rewrite fmap_imap. unfold compose. cbn.
  apply list_eq. intros i. rewrite list_lookup_imap.
  destruct (l !! i) as [x|] eqn:Hi; cbn.
  - apply lookup_lt_Some in Hi. symmetry. by apply lookup_seq_lt.
  - apply lookup_ge_None_1 in Hi. symmetry. by apply lookup_seq_ge.
Qed.

Lemma file_order_perm full_match float fl fmul math_log flt feq rules files :
  Permutation (file_order full_match float fl fmul math_log flt feq rules files)
    (seq 0 (length files)).
Proof using. unfold file_order. by rewrite py_sorted_perm, fst_enumerate. Qed.
End Rendering.

(** ** Cutting the files *)

Section Files.
Context (repr : pystr → pystr) (counter : TokenCounter) (max : Z).

(** A counter that offers [count_length] counts by length. *)
Definition counts_by_length : Prop :=
  ∀ cl, tc_count_length counter = Some cl → ∀ text, tc_count counter text = cl (py_len text).

(** The tokens of a prompt that renders. *)
Definition tokens_of (c : ReviewContext) : Z :=
  match prompt_tokens repr c counter with Ok n => n | Err _ => 0 end.

Lemma tokens_of_ok c : renders repr c → prompt_tokens repr c counter = Ok (tokens_of c).
Proof using. intros [n Hn]%(prompt_tokens_ok repr c counter). unfold tokens_of. by rewrite Hn. Qed.

Lemma prompt_lengths_ok c : renders repr c → ∃ pl, prompt_lengths repr c counter = Ok pl.
Proof using.
  intros Hc. assert (renders repr (with_files c [] [])) as [base Hbase].
  { rewrite renders_spec in *. destruct Hc as (Hp & _ & He). split_and!; [done|by constructor|done]. }
  apply renders_spec in Hc as (_ & Hf & _). unfold prompt_lengths. rewrite Hbase. cbn [mbind result_bind].
  assert (∃ fls, map_result (file_lengths (has_snapshot c)) (rx_changed_files c) = Ok fls) as [fls ->].
  { apply map_result_ok. eapply Forall_impl; [exact Hf|]. intros f [r Hr]. unfold file_lengths.
    rewrite Hr. cbn [mbind result_bind].
    destruct (file_renders_shown _ _ (Cut 0) _ Hr) as [r' Hr'%render_changed_file_length].
    destruct Hr' as (a & Ha & _).
    rewrite (proj2 (render_changed_file_length (has_snapshot c) (mkChangedFile (ch_path f) (ch_status f) [] None) _)
               (ex_intro _ a (conj Ha eq_refl))). by eexists. }
  by eexists.
Qed.

Definition hidden (c : ReviewContext) : choice := (λ _, None) <$> rx_changed_files c.

Lemma hidden_valid c : valid_choice (rx_changed_files c) (hidden c).
Proof using. unfold hidden. induction (rx_changed_files c); constructor; done. Qed.

(** What [fit_files] returns. *)
Lemma fit_files_spec c order :
  counts_by_length → renders repr c → Permutation order (seq 0 (length (rx_changed_files c))) →
  ∃ ch, fit_files repr c max counter order = Ok (candidate c ch)
        ∧ chosen (rx_changed_files c) (λ ch, tokens_of (candidate c ch)) max (hidden c) ch order.
Proof using.
  intros Hcount Hc Hperm. pose (T := λ ch, tokens_of (candidate c ch)).
  assert (∀ fits, (∀ ch, valid_choice (rx_changed_files c) ch → fits ch = Ok (T ch <=? max)) →
    ∃ ch, choose_files fits (rx_changed_files c) order (hidden c) = Ok ch
          ∧ chosen (rx_changed_files c) T max (hidden c) ch order) as Hspec.
  { intros fits Hfits. apply choose_files_spec; [done|apply hidden_valid|rewrite Hperm; apply NoDup_seq|].
    intros i Hi. rewrite Hperm in Hi. apply elem_of_seq in Hi. unfold hidden.
    destruct (lookup_lt_is_Some_2 (rx_changed_files c) i ltac:(lia)) as [f Hf].
    by rewrite list_lookup_fmap, Hf. }
  unfold fit_files. destruct (tc_count_length counter) as [cl|] eqn:Hcl.
  - destruct (prompt_lengths_ok c Hc) as [pl Hpl]. rewrite Hpl. cbn [mbind result_bind].
    destruct (Hspec (λ ch, fits_tokens max (Ok (length_tokens pl ch cl)))) as (ch & Hch & Hchosen).
    { intros ch Hv. unfold fits_tokens, T, tokens_of. cbn [mbind result_bind].
      by rewrite (candidate_tokens repr c counter cl pl ch (conj Hcl (Hcount cl Hcl)) Hpl Hv). }
    fold (hidden c). rewrite Hch. by exists ch.
  - destruct (Hspec (λ ch, fits_tokens max (prompt_tokens repr (candidate c ch) counter)))
      as (ch & Hch & Hchosen).
    { intros ch _. rewrite tokens_of_ok by by apply renders_candidate. done. }
    fold (hidden c). rewrite Hch. by exists ch.
Qed.

(** Showing more of a file costs more, for a counter of lengths that never counts less for more. *)
Lemma tokens_monotone c cl :
  counts_by_length → tc_count_length counter = Some cl → Proper (Z.le ==> Z.le) cl → renders repr c →
  monotone (rx_changed_files c) (λ ch, tokens_of (candidate c ch)).
Proof using.
  intros Hcount Hcl Hmono Hc a b Ha Hb Hab. destruct (prompt_lengths_ok c Hc) as [pl Hpl].
  pose proof (length_tokens_mono repr c counter cl pl Hpl Hmono a b Ha Hb Hab) as Hle.
  unfold tokens_of. rewrite !(candidate_tokens repr c counter cl pl _ (conj Hcl (Hcount cl Hcl)) Hpl)
    by done. exact Hle.
Qed.

(** Every file whole: the context itself. *)
Definition all_whole (c : ReviewContext) : choice := (λ _, Some Whole) <$> rx_changed_files c.
Lemma all_whole_valid c : valid_choice (rx_changed_files c) (all_whole c).
Proof using.
  unfold all_whole. induction (rx_changed_files c) as [|f fs IH]; constructor; [by intros s [= <-]|done].
Qed.
Lemma all_whole_candidate c : candidate c (all_whole c) = c.
Proof using.
  assert (chosen_files (rx_changed_files c) (all_whole c) = rx_changed_files c
          ∧ left_paths (rx_changed_files c) (all_whole c) = []) as [H1 H2].
  { unfold all_whole. induction (rx_changed_files c) as [|f fs [IH1 IH2]]; [done|].
    cbn [fmap list_fmap chosen_files left_paths]. by rewrite IH1, IH2. }
  unfold candidate. rewrite H1, H2, app_nil_r. by destruct c.
Qed.
Lemma hidden_candidate c : rx_changed_files (candidate c (hidden c)) = [].
Proof using.
  unfold hidden, candidate. cbn [rx_changed_files with_files].
  by induction (rx_changed_files c).
Qed.
End Files.

(** ** Dropping excerpts *)

(** The search ends at the first number that fits between two bounds, when fitting is kept by
    dropping more; in any case the number before the one it returns does not fit, and the one it
    returns fits unless it is the upper bound. *)
Lemma drop_search_spec fits P turns low high :
  (∀ n, (low ≤ n < high)%nat → fits n = Ok (P n)) → (high - low ≤ turns)%nat →
  ∃ r, drop_search fits turns low high = Ok r
       ∧ (low ≤ r ≤ Nat.max low high)%nat
       ∧ ((r < high)%nat → P r = true)
       ∧ ((low < r)%nat → P (r - 1)%nat = false).
Proof.
  revert low high. induction turns as [|turns IH]; intros low high Hf Hturns; cbn [drop_search].
  { exists low. split; [done|]. split_and!; lia. }
  destruct (Nat.ltb_spec low high) as [Hlt|Hge]; cycle 1.
  { exists low. split; [done|]. split_and!; lia. }
  cbv zeta. set (middle := ((low + high) / 2)%nat).
  assert (low ≤ middle < high)%nat as Hm by (subst middle; split;
    [apply Nat.div_le_lower_bound; lia|apply Nat.Div0.div_lt_upper_bound; lia]).
  rewrite (Hf middle Hm). cbn [mbind result_bind]. destruct (P middle) eqn:HP.
  - destruct (IH low middle) as (r & Hr & Hle & Hfit & Hprev); [intros n Hn; apply Hf; lia|lia|].
    exists r. split; [done|]. split; [lia|]. split; [|done]. intros _.
    destruct (decide (r < middle)%nat) as [|Hn]; [auto|]. by replace r with middle by lia.
  - destruct (IH (S middle) high) as (r & Hr & Hle & Hfit & Hprev); [intros n Hn; apply Hf; lia|lia|].
    exists r. split; [done|]. split; [lia|]. split; [done|]. intros _.
    destruct (decide (S middle < r)%nat) as [|Hn]; [auto|]. by replace (r - 1)%nat with middle by lia.
Qed.

Lemma enumerate_lookup {A} (l : list A) i x : (i, x) ∈ enumerate l → l !! i = Some x.
Proof.
  intros (k & Hk)%list_elem_of_lookup_1. unfold enumerate in Hk. rewrite list_lookup_imap in Hk.
  destruct (l !! k) as [y|] eqn:Hy; [|done]. by injection Hk as -> ->.
Qed.

Lemma filter_none {A} (p : A → bool) l : (∀ x, p x = false) → List.filter p l = [].
Proof. intros Hp. induction l as [|x l IH]; [done|]. cbn. by rewrite Hp. Qed.

(** All drops, or more: no excerpt is left. *)
Lemma without_all c drops n :
  drops = all_drops (rx_context_blocks c) (rx_retrieved c) → (length drops ≤ n)%nat →
  without_excerpts c drops n = with_excerpts c [] [].
Proof.
  intros Hd Hn. unfold without_excerpts. rewrite (take_ge drops n Hn).
  assert (omap (λ i, if bool_decide ((Level_RAG, i) ∈ drops) then None else rx_retrieved c !! i)
            (rag_places (rx_retrieved c)) = []) as Hkept.
  { apply elem_of_nil_inv. intros b (i & Hi & Hb)%list_elem_of_omap.
    rewrite bool_decide_true in Hb; [done|]. subst drops. unfold all_drops.
    rewrite elem_of_py_sorted, elem_of_app. right.
    by apply (list_elem_of_fmap_2 (λ i, (Level_RAG, i))). }
  cbv zeta. rewrite Hkept. change ([] ++ definitions_read_by (rx_retrieved c) [])
    with (definitions_read_by (rx_retrieved c) []). f_equal.
  - replace (List.filter _ (enumerate (rx_context_blocks c))) with (@nil (nat * ContextBlock)); [done|].
    symmetry. apply elem_of_nil_inv. intros [i b] [Hin Hf]%list_elem_of_In%filter_In.
    rewrite bool_decide_true in Hf; [done|]. subst drops. unfold all_drops.
    rewrite elem_of_py_sorted, elem_of_app. left. apply list_elem_of_In in Hin.
    by apply (list_elem_of_fmap_2 (λ ib, (cb_level (snd ib), fst ib)) _ (i, b)).
  - assert (definitions_read_by (rx_retrieved c) [] = []) as ->.
    { apply filter_none. intros b. by apply bool_decide_false, not_elem_of_nil. }
    apply filter_none. intros b. by apply bool_decide_false, not_elem_of_nil.
Qed.

Lemma filter_subseteq {A} (p : A → bool) l : List.filter p l ⊆ l.
Proof. intros x [Hx _]%list_elem_of_In%filter_In. by apply list_elem_of_In. Qed.

Lemma without_subset c drops n :
  ∃ blocks retrieved, without_excerpts c drops n = with_excerpts c blocks retrieved
    ∧ blocks ⊆ rx_context_blocks c ∧ retrieved ⊆ rx_retrieved c.
Proof.
  do 2 eexists. split; [reflexivity|]. split; [|apply filter_subseteq].
  intros b ([i b'] & -> & Hin%filter_subseteq)%list_elem_of_fmap. cbn.
  apply enumerate_lookup in Hin. by eapply list_elem_of_lookup_2.
Qed.

(** More drops leave a part of what fewer leave. *)
Lemma filter_sublist_impl {A} (p q : A → bool) l :
  (∀ x, x ∈ l → p x = true → q x = true) → List.filter p l `sublist_of` List.filter q l.
Proof.
  induction l as [|x l IH]; intros Hpq; [done|]. cbn [List.filter].
  assert (List.filter p l `sublist_of` List.filter q l) by (apply IH; intros y Hy; apply Hpq; by right).
  destruct (p x) eqn:Hp.
  - rewrite (Hpq x) by (done || left). by constructor.
  - destruct (q x); [by constructor|done].
Qed.

Lemma definitions_read_mono blocks places places' b :
  places ⊆ places' → b ∈ definitions_read_by blocks places → b ∈ definitions_read_by blocks places'.
Proof.
  intros Hp. unfold definitions_read_by. rewrite !list_elem_of_In, !filter_In.
  intros [Hin Hs]. split; [done|]. apply bool_decide_eq_true in Hs. apply bool_decide_eq_true.
  apply list_elem_of_bind in Hs as (x & Hx & Hpl). apply list_elem_of_bind. eauto.
Qed.

Lemma without_mono c drops n m :
  (n ≤ m)%nat →
  rx_context_blocks (without_excerpts c drops m) `sublist_of` rx_context_blocks (without_excerpts c drops n)
  ∧ rx_retrieved (without_excerpts c drops m) `sublist_of` rx_retrieved (without_excerpts c drops n).
Proof.
  intros Hnm. assert (take n drops ⊆ take m drops) as Hsub.
  { intros k (i & Hi & Hlt)%elem_of_take. apply elem_of_take. exists i. split; [done|lia]. }
  unfold without_excerpts. cbn [rx_context_blocks rx_retrieved with_excerpts]. split.
  - apply fmap_sublist. apply filter_sublist_impl. intros [i b] _. cbn.
    rewrite !negb_true_iff, !bool_decide_eq_false. auto.
  - apply filter_sublist_impl. intros b _ Hb. unfold block_mem in *.
    apply bool_decide_eq_true in Hb. apply bool_decide_eq_true.
    set (kept := λ k, omap (λ i, if bool_decide ((Level_RAG, i) ∈ take k drops) then None
                                 else rx_retrieved c !! i) (rag_places (rx_retrieved c))).
    fold (kept n). fold (kept m) in Hb. assert (kept m ⊆ kept n) as Hk.
    { intros x (i & Hi & Hx)%list_elem_of_omap. apply list_elem_of_omap. exists i. split; [done|].
      destruct (bool_decide_reflect ((Level_RAG, i) ∈ take m drops)) as [|Hm]; [done|].
      rewrite bool_decide_false by auto. done. }
    rewrite elem_of_app in *. destruct Hb as [Hb|Hb]; [left; auto|right].
    by eapply definitions_read_mono.
Qed.

(** ** Fewer excerpts, a shorter prompt *)

Definition parts_le (l l' : list pystr) : Prop :=
  py_sum (py_len <$> l) ≤ py_sum (py_len <$> l') ∧ py_len l ≤ py_len l'.

Lemma parts_le_sublist l l' : l `sublist_of` l' → parts_le l l'.
Proof.
  induction 1 as [|x l l' _ [IH1 IH2]|x l l' _ [IH1 IH2]]; [done|..]; unfold parts_le;
    rewrite ?fmap_cons, ?py_sum_cons, ?py_len_cons; pose proof (py_len_nonneg x); lia.
Qed.

Lemma parts_le_app a b a' b' : parts_le a a' → parts_le b b' → parts_le (a ++ b) (a' ++ b').
Proof. unfold parts_le. rewrite !fmap_app, !py_sum_app, !py_len_app. lia. Qed.

Lemma parts_le_lines l l' : parts_le l l' → py_len (lines_text l) ≤ py_len (lines_text l').
Proof.
  intros [H1 H2]. rewrite !py_len_lines. unfold joined_length.
  assert (∀ k : list pystr, py_len (py_len <$> k) = py_len k) as Hk
    by (intros k; unfold py_len at 1; by rewrite length_fmap).
  rewrite !Hk. lia.
Qed.

#[export] Instance parts_le_refl : Reflexive parts_le.
Proof. intros l. unfold parts_le. lia. Qed.

Lemma map_result_sublist {E A B} (f : A → result E B) l l' bs bs' :
  l `sublist_of` l' → map_result f l = Ok bs → map_result f l' = Ok bs' → bs `sublist_of` bs'.
Proof.
  intros Hl. revert bs bs'. induction Hl as [|x l l' _ IH|x l l' _ IH]; intros bs bs'; cbn [map_result].
  - by intros [= <-] [= <-].
  - intros (b & Hb & (r & Hr & [= <-])%bind_ok)%bind_ok (b' & Hb' & (r' & Hr' & [= <-])%bind_ok)%bind_ok.
    assert (b' = b) as -> by congruence. constructor. by apply IH.
  - intros Hr (b' & Hb' & (r' & Hr' & [= <-])%bind_ok)%bind_ok. constructor. by apply IH.
Qed.

(** A section of excerpts. *)
Lemma section_le {A} (f : A → result PromptError pystr) name l l' t t' :
  l `sublist_of` l' →
  (shown ← map_result f l; Ok (container name (lines_text shown))) = Ok t →
  (shown ← map_result f l'; Ok (container name (lines_text shown))) = Ok t' →
  parts_le [t] [t'].
Proof.
  intros Hl (s & Hs & [= <-])%bind_ok (s' & Hs' & [= <-])%bind_ok.
  pose proof (parts_le_lines s s' (parts_le_sublist s s' (map_result_sublist f l l' s s' Hl Hs Hs'))) as Hle.
  unfold parts_le. cbn [fmap list_fmap py_sum foldr]. rewrite !py_len_container. split; [lia|done].
Qed.

Lemma excerpt_parts_le c b b' r r' es es' :
  b `sublist_of` b' → r `sublist_of` r' →
  render_excerpt_parts (with_excerpts c b r) = Ok es →
  render_excerpt_parts (with_excerpts c b' r') = Ok es' → parts_le es es'.
Proof.
  intros Hb Hr. unfold render_excerpt_parts.
  cbn [rx_context_blocks rx_retrieved rx_retrieved_section with_excerpts].
  intros (e1 & He1 & (e2 & He2 & [= <-])%bind_ok)%bind_ok
         (e1' & He1' & (e2' & He2' & [= <-])%bind_ok)%bind_ok.
  apply parts_le_app.
  - destruct b as [|x b].
    { injection He1 as <-. unfold parts_le. split; [|apply py_len_nonneg].
      apply py_sum_nonneg, Forall_fmap, Forall_true. intros t. apply py_len_nonneg. }
    destruct b' as [|x' b']; [by apply sublist_nil_r in Hb|].
    apply bind_ok in He1 as (t & Ht & [= <-]). apply bind_ok in He1' as (t' & Ht' & [= <-]).
    exact (section_le render_excerpt (u8 "context_excerpts") _ _ t t' Hb Ht Ht').
  - destruct (rx_retrieved_section c); [|injection He2 as <-; by injection He2' as <-].
    apply bind_ok in He2 as (t & Ht & [= <-]). apply bind_ok in He2' as (t' & Ht' & [= <-]).
    exact (section_le render_retrieved (u8 "retrieved_excerpts") _ _ t t' Hr Ht Ht').
Qed.

Lemma excerpts_shorter repr c b b' r r' text text' :
  b `sublist_of` b' → r `sublist_of` r' →
  render_input repr (with_excerpts c b r) = Ok text →
  render_input repr (with_excerpts c b' r') = Ok text' → py_len text ≤ py_len text'.
Proof.
  intros Hb Hr. unfold render_input.
  intros (p & Hp & (f & Hf & (es & Hes & [= <-])%bind_ok)%bind_ok)%bind_ok.
  intros (p' & Hp' & (f' & Hf' & (es' & Hes' & [= <-])%bind_ok)%bind_ok)%bind_ok.
  change (render_policy_parts repr (with_excerpts c b r)) with (render_policy_parts repr c) in Hp.
  change (render_policy_parts repr (with_excerpts c b' r')) with (render_policy_parts repr c) in Hp'.
  assert (p' = p) as -> by congruence.
  change (has_snapshot (with_excerpts c b r)) with (has_snapshot c) in Hf.
  change (has_snapshot (with_excerpts c b' r')) with (has_snapshot c) in Hf'.
  cbn [rx_changed_files with_excerpts] in Hf, Hf'. assert (f' = f) as -> by congruence.
  apply parts_le_lines. apply parts_le_app; [reflexivity|].
  apply (parts_le_app [_; _; _] _ [_; _; _] _); [reflexivity|].
  apply parts_le_app; [by eapply excerpt_parts_le|reflexivity].
Qed.

(** ** The fit *)

Section Fitted.
Context (repr : pystr → pystr) (counter : TokenCounter) (max : Z).

(** The levels that have a place in the drop order. *)
Definition levels_known (c : ReviewContext) : Prop := Forall (λ b, cb_level b ≠ Level_L1) (rx_context_blocks c).

Lemma drops_known c :
  levels_known c →
  existsb (λ k, is_none (drop_rank k)) (all_drops (rx_context_blocks c) (rx_retrieved c)) = false.
Proof using.
  intros Hl. apply not_true_iff_false. intros (k & Hk & Hnone)%existsb_exists.
  apply list_elem_of_In in Hk. unfold all_drops in Hk. rewrite elem_of_py_sorted, elem_of_app in Hk.
  assert (fst k ≠ Level_L1) as Hne.
  { destruct Hk as [([i b] & -> & Hin)%list_elem_of_fmap|(i & -> & _)%list_elem_of_fmap]; [|done].
    cbn. apply enumerate_lookup in Hin. eapply Forall_lookup_1 in Hl; done. }
  destruct k as [[| | | |] i]; cbn in Hne; try done.
Qed.

Abbreviation drops c := (all_drops (rx_context_blocks c) (rx_retrieved c)).
Abbreviation after c n := (without_excerpts c (drops c) n).

Lemma renders_after c n : renders repr c → renders repr (after c n).
Proof using.
  intros Hc. destruct (without_subset c (drops c) n) as (b & r & -> & Hb & Hr).
  by apply renders_without.
Qed.

(** The number of drops: the prompt fits or every excerpt is gone, and one drop fewer does not fit. *)
Lemma drop_excerpts_spec c :
  renders repr c → levels_known c →
  ∃ n, drop_excerpts repr c max counter = Ok (after c n)
       ∧ (1 ≤ n)%nat
       ∧ ((n < length (drops c))%nat → tokens_of repr counter (after c n) ≤ max)
       ∧ ((1 < n)%nat → max < tokens_of repr counter (after c (n - 1))).
Proof using.
  intros Hc Hl. unfold drop_excerpts. rewrite (drops_known c Hl).
  destruct (drop_search_spec (λ n, fits_tokens max (prompt_tokens repr (after c n) counter))
    (λ n, tokens_of repr counter (after c n) <=? max) (length (drops c)) 1 (length (drops c)))
    as (r & Hr & Hle & Hfit & Hprev); [|lia|].
  { intros n _. by rewrite tokens_of_ok by by apply renders_after. }
  rewrite Hr. exists r. split; [done|]. split; [lia|]. split.
  - intros Hlt. by apply Z.leb_le, Hfit.
  - intros Hlt. by apply Z.leb_gt, Hprev.
Qed.

(** Fewer excerpts never cost more tokens, for a counter of lengths that never counts less for more. *)
Lemma after_mono c cl n m :
  counts_by_length counter → tc_count_length counter = Some cl → Proper (Z.le ==> Z.le) cl →
  renders repr c → (n ≤ m)%nat →
  tokens_of repr counter (after c m) ≤ tokens_of repr counter (after c n).
Proof using.
  intros Hcount Hcl Hmono Hc Hnm. destruct (without_mono c (drops c) n m Hnm) as [Hb Hr].
  destruct (renders_after c n Hc) as [tn Hn]. destruct (renders_after c m Hc) as [tm Hm].
  destruct (without_subset c (drops c) n) as (b & r & En & _ & _).
  destruct (without_subset c (drops c) m) as (b' & r' & Em & _ & _).
  unfold tokens_of, prompt_tokens, build_prompt. rewrite Hn, Hm. cbn [mbind result_bind rvp_system rvp_user].
  rewrite !(Hcount cl Hcl). rewrite En in *. rewrite Em in *.
  cbn [rx_system with_excerpts]. apply Z.add_le_mono_l, Hmono.
  cbn [rx_context_blocks rx_retrieved with_excerpts] in Hb, Hr. by eapply excerpts_shorter.
Qed.

Context (full_match : pystr → pystr → bool) (float : Type) (fl : Q → float)
  (fmul : float → float → float) (math_log : Z → float) (flt feq : float → float → bool).
Abbreviation fit := (fit_review_context repr full_match float fl fmul math_log flt feq).

(** What is shown of a context: some of its excerpts and, once they are all gone, each file whole,
    cut to its first lines or listed as omitted. *)
Record fitted (c c' : ReviewContext) : Prop := {
  fi_shape : ∃ blocks retrieved ch,
    c' = candidate (with_excerpts c blocks retrieved) ch
    ∧ valid_choice (rx_changed_files c) ch
    ∧ blocks ⊆ rx_context_blocks c ∧ retrieved ⊆ rx_retrieved c
    ∧ (ch = all_whole c ∨ (blocks = [] ∧ retrieved = []));
  fi_budget : ∃ n, prompt_tokens repr c' counter = Ok n
    ∧ (n ≤ max ∨ (rx_changed_files c' = [] ∧ rx_context_blocks c' = [] ∧ rx_retrieved c' = []))
}.

Lemma has_excerpts_false c :
  has_excerpts c = false ↔ rx_context_blocks c = [] ∧ rx_retrieved c = [].
Proof using.
  unfold has_excerpts. rewrite orb_false_iff, !negb_false_iff, !bool_decide_eq_true.
  by rewrite !length_zero_iff_nil.
Qed.

Lemma with_excerpts_id c : with_excerpts c (rx_context_blocks c) (rx_retrieved c) = c.
Proof using. by destruct c. Qed.

(** All files shown. *)
Lemma fitted_excerpts c blocks retrieved :
  renders repr c → blocks ⊆ rx_context_blocks c → retrieved ⊆ rx_retrieved c →
  tokens_of repr counter (with_excerpts c blocks retrieved) ≤ max →
  fitted c (with_excerpts c blocks retrieved).
Proof using.
  intros Hc Hb Hr Hmax. split.
  - exists blocks, retrieved, (all_whole c). split_and!; [|apply all_whole_valid|done|done|by left].
    symmetry. apply (all_whole_candidate (with_excerpts c blocks retrieved)).
  - exists (tokens_of repr counter (with_excerpts c blocks retrieved)).
    split; [by apply tokens_of_ok, renders_without|by left].
Qed.

(** The files of a context without excerpts. *)
Lemma fitted_files c order :
  counts_by_length counter → renders repr c →
  Permutation order (seq 0 (length (rx_changed_files c))) →
  ∃ c', fit_files repr (with_excerpts c [] []) max counter order = Ok c' ∧ fitted c c'.
Proof using.
  intros Hcount Hc Hperm. assert (renders repr (with_excerpts c [] [])) as Hc0
    by (apply renders_without; [done|set_solver..]).
  destruct (fit_files_spec repr counter max (with_excerpts c [] []) order Hcount Hc0 Hperm)
    as (ch & Hch & [Hv _ _ Hfits _]).
  exists (candidate (with_excerpts c [] []) ch). split; [done|]. split.
  - exists [], [], ch. split_and!; [done|done|set_solver|set_solver|by right].
  - eexists. split; [by apply tokens_of_ok, renders_candidate|].
    destruct Hfits as [->|Hle]; [right|by left]. split; [apply hidden_candidate|done].
Qed.

Lemma fit_spec c :
  counts_by_length counter → renders repr c → levels_known c →
  ∃ c', fit c max counter = Ok c' ∧ fitted c c'.
Proof using.
  intros Hcount Hc Hl. unfold fit_review_context. rewrite (tokens_of_ok repr counter c Hc).
  cbn [map_err mbind result_bind]. destruct (Z.leb_spec (tokens_of repr counter c) max) as [Hle|_].
  { exists c. split; [done|]. rewrite <- (with_excerpts_id c) at 2. by apply fitted_excerpts. }
  destruct (has_excerpts c) eqn:He; cycle 1.
  { apply has_excerpts_false in He as [Hb Hr]. pose proof (with_excerpts_id c) as Hid.
    rewrite Hb, Hr in Hid.
    destruct (fitted_files c _ Hcount Hc (file_order_perm full_match float fl fmul math_log flt feq
      (rx_rules c) (rx_changed_files c))) as (c' & Hc' & Hfit).
    rewrite Hid in Hc'. exists c'. by rewrite Hc'. }
  destruct (drop_excerpts_spec c Hc Hl) as (n & -> & Hn & Hfit & _). cbn [mbind result_bind].
  destruct (without_subset c (drops c) n) as (b & r & E & Hb & Hr).
  assert (has_excerpts (after c n) = true → tokens_of repr counter (after c n) ≤ max) as Hle.
  { intros Hex. destruct (decide (n < length (drops c))%nat) as [|Hge]; [auto|].
    rewrite without_all in Hex by (done || lia). done. }
  destruct (has_excerpts (after c n)) eqn:Hex.
  { exists (after c n). split; [done|]. specialize (Hle eq_refl). rewrite E in *.
    by apply fitted_excerpts. }
  rewrite (tokens_of_ok repr counter (after c n)) by by apply renders_after.
  cbn [map_err mbind result_bind].
  destruct (Z.leb_spec (tokens_of repr counter (after c n)) max) as [Hmax|_].
  { exists (after c n). split; [done|]. rewrite E in *. by apply fitted_excerpts. }
  apply has_excerpts_false in Hex as [Eb Er]. rewrite E in *.
  cbn [rx_context_blocks rx_retrieved with_excerpts] in Eb, Er. subst b r.
  destruct (fitted_files c _ Hcount Hc (file_order_perm full_match float fl fmul math_log flt feq
      (rx_rules c) (rx_changed_files c))) as (c' & Hc' & Hfitted).
  exists c'. cbn [rx_rules rx_changed_files with_excerpts]. by rewrite Hc'.
Qed.

(** A prompt that renders is always fitted: the result is the context with some of its
    excerpts and, once none is left, with each file whole, cut to its first lines or listed as
    omitted; its prompt is within the budget, unless it shows no changed file and no excerpt. *)
Theorem fit_within_budget c :
  counts_by_length counter → (∃ n, prompt_tokens repr c counter = Ok n) → levels_known c →
  ∃ c', fit c max counter = Ok c' ∧ fitted c c'.
Proof using. rewrite prompt_tokens_ok. apply fit_spec. Qed.

(** Nothing more fits: for a counter by lengths that never counts less for more, when a
    prompt without excerpts is cut, showing a file that was left out, or more lines of one that was
    cut, would exceed the budget, whatever the priorities. *)
Theorem fit_shows_most c cl n :
  counts_by_length counter → tc_count_length counter = Some cl → Proper (Z.le ==> Z.le) cl →
  prompt_tokens repr c counter = Ok n → max < n →
  rx_context_blocks c = [] → rx_retrieved c = [] →
  ∃ ch, fit c max counter = Ok (candidate c ch)
        ∧ valid_choice (rx_changed_files c) ch
        ∧ ∀ i f s, rx_changed_files c !! i = Some f → valid_shown f s →
            shown_more (default None (ch !! i)) s →
            ∃ m, prompt_tokens repr (candidate c (<[i := Some s]> ch)) counter = Ok m ∧ max < m.
Proof using.
  intros Hcount Hcl Hmono Hn Hlt Hb Hr.
  assert (renders repr c) as Hc by (apply (prompt_tokens_ok repr c counter); eauto).
  destruct (fit_files_spec repr counter max c _ Hcount Hc (file_order_perm full_match float fl fmul
    math_log flt feq (rx_rules c) (rx_changed_files c))) as (ch & Hch & [Hv _ _ _ Hmore]).
  exists ch. split.
  { unfold fit_review_context. rewrite Hn. cbn [map_err mbind result_bind].
    rewrite (proj2 (Z.leb_gt n max) Hlt), (proj2 (has_excerpts_false c) (conj Hb Hr)), Hch. done. }
  split; [done|]. intros i f s Hf Hs Hsm.
  eexists. split; [by apply tokens_of_ok, renders_candidate|].
  apply (Hmore (tokens_monotone repr counter c cl Hcount Hcl Hmono Hc) i f s); try done.
  rewrite (file_order_perm full_match float fl fmul math_log flt feq), elem_of_seq.
  apply lookup_lt_Some in Hf. lia.
Qed.

(** The fewest excerpts are dropped: for a counter by lengths that never counts less for
    more, the excerpts go in their order, and no smaller number of drops makes the prompt fit. *)
Theorem fewest_drops c cl :
  counts_by_length counter → tc_count_length counter = Some cl → Proper (Z.le ==> Z.le) cl →
  (∃ n, prompt_tokens repr c counter = Ok n) → levels_known c →
  ∃ n, drop_excerpts repr c max counter = Ok (after c n)
       ∧ ((n < length (drops c))%nat → ∃ t, prompt_tokens repr (after c n) counter = Ok t ∧ t ≤ max)
       ∧ ∀ k, (1 ≤ k < n)%nat → ∃ t, prompt_tokens repr (after c k) counter = Ok t ∧ max < t.
Proof using.
  intros Hcount Hcl Hmono Hc Hl. rewrite prompt_tokens_ok in Hc.
  destruct (drop_excerpts_spec c Hc Hl) as (n & Hn & H1 & Hfit & Hprev).
  exists n. split; [done|]. split.
  - intros Hlt. eexists. split; [by apply tokens_of_ok, renders_after|auto].
  - intros k Hk. eexists. split; [by apply tokens_of_ok, renders_after|].
    pose proof (after_mono c cl k (n - 1) Hcount Hcl Hmono Hc ltac:(lia)).
    specialize (Hprev ltac:(lia)). lia.
Qed.
End Fitted.
