(* ===== verification/PromptExamples.v ===== *)
(** * A prompt to fit

    A context of two files and two excerpts, and the theorems of the fit applied to it. *)

From Stdlib Require Import String QArith.
From stdpp Require Import numbers sets.
From S2P Require Import Prelude PyText UnifiedDiff DiffMap Verdict RunFailures PolicyErrors.
From S2P Require Import PolicyDocuments PolicySnapshots VcsInput PromptRender PromptBudget PromptFacts.
From S2P Require Import PromptFit.
#[local] Open Scope Z_scope.

Definition sample_meta : PullRequestMeta :=
  mkPullRequestMeta (u8 "Add a guard") None (u8 "dev") (u8 "feature") (u8 "main") [] 2 5 0 false false
    None None [u8 "add a guard"] false.

Definition sample_line (n : Z) : DiffLine := mkDiffLine n Row_added (u8 "x = 1 < 2").
Definition sample_files : list ChangedFile :=
  [mkChangedFile (u8 "app/main.py") Status_modified (sample_line <$> [1; 2; 3; 4]) None;
   mkChangedFile (u8 "tests/test_main.py") Status_modified [sample_line 1] None].

Definition sample_source : SourceRef :=
  mkSourceRef Role_source_excerpt 7%N None (Some (u8 "app/util.py")) None [] None
    [mkLineRange 1 2] (u8 "read by the change").
Definition sample_block (id : pystr) (level : ContextLevel) : ContextBlock :=
  mkContextBlock id level None sample_source Exact_lines (u8 "first" ++ NL ++ u8 "second") 4 false [].

Definition sample_context (blocks : list ContextBlock) : ReviewContext :=
  mkReviewContext (u8 "You review code.") [] None (mkRepoConventions [] []) sample_meta sample_files
    [u8 "docs/old.md"] None Th_all blocks [] false 0.

(** [repr] of a short ASCII text, and priorities by the number of changed lines. *)
Definition sample_repr (s : pystr) : pystr := u8 "'" ++ s ++ u8 "'".
Definition sample_fit (c : ReviewContext) (max : Z) : result (option PromptError) ReviewContext :=
  fit_review_context sample_repr (λ _ _, false) Z (λ _, 1) Z.mul id Z.ltb Z.eqb c max EstimatedTokenCounter.

Definition shown_paths (c : ReviewContext) : list (pystr * nat) :=
  (λ f, (ch_path f, length (ch_lines f))) <$> rx_changed_files c.

Definition sample_blocks : list ContextBlock :=
  [sample_block (u8 "a") Level_L2; sample_block (u8 "b") Level_L3].

Definition sample_lengths : PromptLengths :=
  match prompt_lengths sample_repr (sample_context []) EstimatedTokenCounter with
  | Ok pl => pl
  | Err _ => mkPromptLengths 0 0 [] [] []
  end.

Lemma estimated_counts : counts_by_length EstimatedTokenCounter.
Proof. intros cl [= <-] text. reflexivity. Qed.

#[export] Instance estimated_monotone : Proper (Z.le ==> Z.le) (λ n, (n + 2) / 3).
Proof. intros a b Hab. apply Z.div_le_mono; lia. Qed.

(** The first file cut to two lines, the second left out. *)
Lemma length_accounting_exact_witness :
  prompt_tokens sample_repr (candidate (sample_context []) [Some (Cut 2); None]) EstimatedTokenCounter
  = Ok (length_tokens sample_lengths [Some (Cut 2); None] (λ n, (n + 2) / 3)).
Proof.
  apply (length_accounting_exact sample_repr (sample_context []) EstimatedTokenCounter
           (λ n, (n + 2) / 3) sample_lengths [Some (Cut 2); None]).
  - exact estimated_length_aware.
  - vm_compute. reflexivity.
  - repeat constructor; intros s [= <-]; cbn; lia.
Defined.

(** Two excerpts in a budget that has room for one. *)
Lemma fit_within_budget_witness :
  ∃ c', sample_fit (sample_context sample_blocks) 420 = Ok c'
        ∧ fitted sample_repr EstimatedTokenCounter 420 (sample_context sample_blocks) c'.
Proof.
  apply (fit_within_budget sample_repr EstimatedTokenCounter 420 (λ _ _, false) Z (λ _, 1) Z.mul id
           Z.ltb Z.eqb (sample_context sample_blocks)).
  - exact estimated_counts.
  - exists 456. vm_compute. reflexivity.
  - repeat constructor; discriminate.
Defined.

(** Room for one line of the first file. *)
Lemma fit_shows_most_witness :
  ∃ ch, sample_fit (sample_context []) 300 = Ok (candidate (sample_context []) ch)
        ∧ valid_choice sample_files ch
        ∧ ∀ i f s, sample_files !! i = Some f → valid_shown f s →
            shown_more (default None (ch !! i)) s →
            ∃ m, prompt_tokens sample_repr (candidate (sample_context []) (<[i := Some s]> ch))
                   EstimatedTokenCounter = Ok m ∧ 300 < m.
Proof.
  apply (fit_shows_most sample_repr EstimatedTokenCounter 300 (λ _ _, false) Z (λ _, 1) Z.mul id
           Z.ltb Z.eqb (sample_context []) (λ n, (n + 2) / 3) 347).
  - exact estimated_counts.
  - reflexivity.
  - exact estimated_monotone.
  - vm_compute. reflexivity.
  - lia.
  - reflexivity.
  - reflexivity.
Defined.

Lemma fewest_drops_witness :
  let c := sample_context sample_blocks in
  let drops := all_drops (rx_context_blocks c) (rx_retrieved c) in
  ∃ n, drop_excerpts sample_repr c 420 EstimatedTokenCounter = Ok (without_excerpts c drops n)
       ∧ ((n < length drops)%nat →
          ∃ t, prompt_tokens sample_repr (without_excerpts c drops n) EstimatedTokenCounter = Ok t ∧ t ≤ 420)
       ∧ ∀ k, (1 ≤ k < n)%nat →
           ∃ t, prompt_tokens sample_repr (without_excerpts c drops k) EstimatedTokenCounter = Ok t
                ∧ 420 < t.
Proof.
  apply (fewest_drops sample_repr EstimatedTokenCounter 420 (sample_context sample_blocks)
           (λ n, (n + 2) / 3)).
  - exact estimated_counts.
  - reflexivity.
  - exact estimated_monotone.
  - exists 456. vm_compute. reflexivity.
  - repeat constructor; discriminate.
Defined.
