(* ===== verification/PromptBraces.v ===== *)
(** * Brace patterns ([_expand_braces])

    The patterns a glob with alternatives stands for: what the expansion returns, that its loop ends,
    and that the work it does is bounded. *)

From Stdlib Require Import String QArith.
From stdpp Require Import numbers sets.
From S2P Require Import Prelude PyText UnifiedDiff DiffMap RunFailures PolicyErrors.
From S2P Require Import PolicyDocuments PolicySnapshots VcsInput PromptRender PromptBudget PromptFacts.
#[local] Open Scope Z_scope.

Definition LBRACE : char := 123%N.
Definition RBRACE : char := 125%N.

(** A pair of braces with none between. *)
Definition group_at (p head options tail : pystr) : Prop :=
  p = head ++ LBRACE :: options ++ RBRACE :: tail ∧ Forall (λ c, is_brace c = false) options.

(** A pattern without such a pair is one glob; the first pair stands for each of its options. *)
Inductive expands : pystr → pystr → Prop :=
| Expands_done p : (∀ head options tail, ¬ group_at p head options tail) → expands p p
| Expands_option p head options tail o q :
    brace_search p = Some (head, options, tail) → o ∈ split_on COMMA options →
    expands (head ++ o ++ tail) q → expands p q.

(** ** The search for a pair *)

Lemma brace_group_spec s inner rest :
  brace_group s = Some (inner, rest) ↔
  s = inner ++ RBRACE :: rest ∧ Forall (λ c, is_brace c = false) inner.
Proof.
  revert inner. induction s as [|c s IH]; intros inner; cbn [brace_group].
  { split; [done|]. intros [H _]. by destruct inner. }
  unfold is_brace in *. destruct (N.eqb_spec c 125) as [->|Hr].
  { split; [by intros [= <- <-]|]. intros [H Hf]. destruct inner as [|d inner]; [by injection H as ->|].
    injection H as <- _. by inv Hf. }
  destruct (N.eqb_spec c 123) as [->|Hl].
  { split; [done|]. intros [H Hf]. destruct inner as [|d inner]; injection H as Hd _.
    - discriminate Hd.
    - subst d. by inv Hf. }
  assert ((c =? 123)%N || (c =? 125)%N = false) as Hc
    by (apply orb_false_iff; split; by apply N.eqb_neq).
  split.
  - destruct (brace_group s) as [[i r]|] eqn:Hs; [|done]. cbn. intros [= <- <-].
    destruct (proj1 (IH i) eq_refl) as [-> Hf]. split; [done|by constructor].
  - intros [H Hf]. destruct inner as [|d inner]; injection H as Hd Hs; [by subst|]. subst d.
    inv Hf. rewrite (proj2 (IH inner) (conj eq_refl H2)). done.
Qed.

Lemma brace_search_some p head options tail :
  brace_search p = Some (head, options, tail) → group_at p head options tail.
Proof.
  revert head. induction p as [|c p IH]; intros head; [done|]. cbn [brace_search].
  destruct (if (c =? 123)%N then brace_group p else None) as [[o r]|] eqn:Hg.
  - intros [= <- <- <-]. destruct (N.eqb_spec c 123) as [->|]; [|done].
    apply brace_group_spec in Hg as [-> Hf]. by split.
  - destruct (brace_search p) as [[[h o] r]|] eqn:Hs; [|done]. cbn. intros [= <- <- <-].
    destruct (IH h eq_refl) as [-> Hf]. by split.
Qed.

Lemma brace_search_none p :
  brace_search p = None ↔ ∀ head options tail, ¬ group_at p head options tail.
Proof.
  split.
  - induction p as [|c p IH]; intros Hs head options tail [Hp Hf]; [by destruct head|].
    cbn [brace_search] in Hs.
    destruct (if (c =? 123)%N then brace_group p else None) as [[o r]|] eqn:Hg; [done|].
    destruct head as [|d head]; injection Hp as Hc Hp.
    + subst c. rewrite (proj2 (brace_group_spec p options tail) (conj Hp Hf)) in Hg. done.
    + destruct (brace_search p) as [[[h o] r]|] eqn:Hs'; [done|].
      by apply (IH eq_refl head options tail).
  - intros Hno. destruct (brace_search p) as [[[h o] t]|] eqn:Hs; [|done].
    by apply brace_search_some, Hno in Hs.
Qed.

(** ** One pass *)

Lemma length_split_on sep s : Z.of_nat (length (split_on sep s)) = Z.of_N (count_char sep s) + 1.
Proof.
  induction s as [|c s IH]; [done|]. cbn [split_on count_char]. rewrite (N.eqb_sym sep c).
  pose proof (split_on_nonempty sep s) as Hne.
  destruct (c =? sep)%N; [cbn [length]; lia|].
  destruct (split_on sep s) as [|w ws]; [done|]. cbn [length] in *. lia.
Qed.

(** What a candidate becomes. *)
Definition pass_step (p : pystr) : list pystr :=
  match brace_search p with None => [p] | Some (head, options, tail) => alternatives head options tail end.
Definition has_group (p : pystr) : bool := negb (is_none (brace_search p)).

(** A pass rewrites every candidate, and its work counts each of them and each result. *)
Lemma expand_pass_spec candidates work next changed w :
  expand_pass candidates work = Some (next, changed, w) →
  next = candidates ≫= pass_step ∧ changed = existsb has_group candidates
  ∧ work + py_len candidates ≤ w ∧ work + py_len next ≤ w
  ∧ (w ≤ MAX_BRACE_EXPANSION_WORK ∨ w = work).
Proof.
  revert work next changed w. induction candidates as [|p rest IH]; intros work next changed w.
  { cbn. intros [= <- <- <-]. unfold py_len. cbn. split_and!; [done|done|lia|lia|by right]. }
  cbn [expand_pass]. cbv zeta.
  destruct (Z.ltb_spec MAX_BRACE_EXPANSION_WORK (work + 1)) as [|Hw1]; [done|].
  unfold pass_step at 1, has_group at 1. cbn [mbind list_bind existsb].
  destruct (brace_search p) as [[[head options] tail]|] eqn:Hs.
  - destruct (Z.ltb_spec MAX_BRACE_EXPANSION_WORK
      (work + 1 + Z.of_N (count_char COMMA options) + 1)) as [|Hw2]; [done|].
    destruct (expand_pass rest _) as [[[next' changed'] w']|] eqn:Hr; [|done]. cbn. intros [= <- <- <-].
    apply IH in Hr as (-> & _ & H1 & H2 & H3). unfold py_len in *. unfold alternatives.
    rewrite length_app, length_fmap. pose proof (length_split_on COMMA options) as Hl.
    split_and!; [done|done|cbn [length]; lia|lia|left; lia].
  - destruct (expand_pass rest _) as [[[next' changed'] w']|] eqn:Hr; [|done]. cbn. intros [= <- <- <-].
    apply IH in Hr as (-> & -> & H1 & H2 & H3). unfold py_len in *. cbn [length].
    split_and!; [done|done|lia|lia|left; lia].
Qed.

Lemma pass_step_nonempty p : pass_step p ≠ [].
Proof.
  unfold pass_step. destruct (brace_search p) as [[[h o] t]|]; [|done]. unfold alternatives.
  pose proof (split_on_nonempty COMMA o). by destruct (split_on COMMA o).
Qed.

(** ** What the expansion returns *)

(** A pass that changes nothing returns its candidates. *)
Lemma pass_unchanged candidates :
  existsb has_group candidates = false → candidates ≫= pass_step = candidates.
Proof.
  induction candidates as [|p rest IH]; [done|]. cbn [existsb mbind list_bind].
  intros [Hp Hr]%orb_false_iff. rewrite IH by done. unfold has_group in Hp. unfold pass_step.
  by destruct (brace_search p).
Qed.

Lemma expands_step p q : expands p q ↔ ∃ p', p' ∈ pass_step p ∧ expands p' q.
Proof.
  unfold pass_step. destruct (brace_search p) as [[[h o] t]|] eqn:Hs.
  - unfold alternatives. setoid_rewrite list_elem_of_fmap. split.
    + intros H. destruct H as [p Hno|p h' o' t' x q Hs' Hx Hq].
      * apply brace_search_none in Hno. congruence.
      * rewrite Hs in Hs'. injection Hs' as <- <- <-. eauto.
    + intros (p' & (x & -> & Hx) & Hq). by eapply Expands_option.
  - setoid_rewrite list_elem_of_singleton. split; [by eauto|]. by intros (p' & -> & Hq).
Qed.

Lemma expand_loop_spec passes candidates work l :
  expand_loop passes candidates work = Some l →
  (∀ q, q ∈ l ↔ ∃ p, p ∈ candidates ∧ expands p q)
  ∧ work + py_len l ≤ Z.max work MAX_BRACE_EXPANSION_WORK.
Proof.
  revert candidates work. induction passes as [|passes IH]; intros candidates work; [done|].
  cbn [expand_loop]. destruct (expand_pass candidates work) as [[[next changed] w]|] eqn:Hp; [|done].
  cbn [mbind option_bind]. apply expand_pass_spec in Hp as (-> & -> & H1 & H2 & H3).
  pose proof (py_len_nonneg candidates) as Hnn.
  destruct (existsb has_group candidates) eqn:Hg.
  - intros [Hl Hlen]%IH. split; [|lia]. intros q. rewrite Hl. setoid_rewrite list_elem_of_bind.
    split.
    + intros (p' & (p & Hp' & Hin) & Hq). exists p. split; [done|]. apply expands_step. eauto.
    + intros (p & Hin & (p' & Hp' & Hq)%expands_step). eauto.
  - intros [= <-]. rewrite (pass_unchanged candidates Hg) in *. split; [|lia].
    intros q. split.
    + intros Hq. exists q. split; [done|]. constructor. apply brace_search_none.
      assert (has_group q = false) as Hq'.
      { apply not_true_iff_false. intros Ht. rewrite <- not_true_iff_false, existsb_exists in Hg.
        apply Hg. exists q. by rewrite <- list_elem_of_In. }
      unfold has_group in Hq'. by destruct (brace_search q).
    + intros (p & Hin & Hq). enough (q = p) as -> by done.
      destruct Hq as [p Hno|p h o t x q Hs _ _]; [done|].
      rewrite <- not_true_iff_false, existsb_exists in Hg. destruct Hg. exists p.
      rewrite <- list_elem_of_In. unfold has_group. by rewrite Hs.
Qed.

(** ** The loop ends *)

(** Each pass does some work: with as many passes as there is work left, more change nothing. *)
Lemma expand_loop_enough passes extra candidates work :
  candidates ≠ [] → MAX_BRACE_EXPANSION_WORK - work < Z.of_nat passes → 0 < Z.of_nat passes →
  expand_loop (passes + extra) candidates work = expand_loop passes candidates work.
Proof.
  revert candidates work. induction passes as [|passes IH]; intros candidates work Hne Hp Hpos; [lia|].
  cbn [expand_loop Nat.add].
  destruct (expand_pass candidates work) as [[[next changed] w]|] eqn:He; [|done].
  cbn [mbind option_bind]. destruct changed; [|done].
  apply expand_pass_spec in He as (-> & _ & H1 & _ & H3).
  assert (1 ≤ py_len candidates) by (destruct candidates; [done|]; rewrite py_len_cons;
    pose proof (py_len_nonneg candidates); lia).
  apply IH; [|lia|lia].
  destruct candidates as [|p rest]; [done|]. cbn [mbind list_bind].
  pose proof (pass_step_nonempty p). by destruct (pass_step p).
Qed.

(** The brace expansion stands for its patterns: when it returns, its globs are exactly those
    the pattern stands for, option by option of its first pair of braces until none is left, and there
    are at most 256 of them; more passes than it is given would not change the answer, so it gives up
    only on patterns whose expansion takes more than 256 units of work. *)
Theorem expand_braces_exact pattern :
  (∀ l, expand_braces pattern = Some l →
     (∀ q, q ∈ l ↔ expands pattern q) ∧ py_len l ≤ MAX_BRACE_EXPANSION_WORK)
  ∧ ∀ extra, expand_loop (257 + extra) [pattern] 0 = expand_braces pattern.
Proof.
  split.
  - intros l [Hl Hlen]%expand_loop_spec. split.
    + intros q. rewrite Hl. setoid_rewrite list_elem_of_singleton. split; [by intros (p & -> & ?)|eauto].
    + unfold MAX_BRACE_EXPANSION_WORK in *. lia.
  - intros extra. apply expand_loop_enough; [done|unfold MAX_BRACE_EXPANSION_WORK; lia|lia].
Qed.

Example expand_braces_nested :
  expand_braces (u8 "src/{a,{b,c}}.py") = Some [u8 "src/a.py"; u8 "src/b.py"; u8 "src/a.py"; u8 "src/c.py"].
Proof. vm_compute. reflexivity. Qed.
