(* ===== verification/Manifests.v ===== *)
(** * Call manifests and the provenance guard ([policy_snapshot.py], [prompt_builder.py],
    [prompt_budget.py])

    The manifest records which block of which source a call shows, and the guard checks every block
    of it before the call.  The Markdown reader of the rules text is an argument, as in
    [ReviewIgnore]. *)

From Stdlib Require Import String QArith.
From stdpp Require Import numbers gmap.
From S2P Require Import Prelude PyText PyHash UnifiedDiff DiffMap RunFailures PolicyErrors.
From S2P Require Import IgnoreMatcher ReviewIgnore PolicyDocuments PolicySnapshots VcsInput.
From S2P Require Import PromptRender PromptBudget.
#[local] Open Scope Z_scope.

(** ** The manifest *)

Inductive StageName : Type := Stage_conventions | Stage_review | Stage_verification.
#[export] Instance StageName_eq_dec : EqDecision StageName.
Proof. solve_decision. Defined.
Definition StageName_value (s : StageName) : pystr :=
  match s with
  | Stage_conventions => u8 "conventions"
  | Stage_review => u8 "review"
  | Stage_verification => u8 "verification"
  end.

Inductive RecoveryKind : Type := Recovery_none | Recovery_retry | Recovery_repair | Recovery_fallback.
#[export] Instance RecoveryKind_eq_dec : EqDecision RecoveryKind.
Proof. solve_decision. Defined.

Record ManifestBlock : Type := mkManifestBlock {
  mb_block_id : pystr;
  mb_source_role : SourceRole;
  mb_source_kind : pystr;
  mb_path : option pystr;
  mb_revision : option pystr;
  mb_side : option DiffSide;
  mb_content_sha256 : option pystr;
  mb_start_line : option Z;
  mb_end_line : option Z;
  mb_shown_line_count : Z;
  mb_shown_ranges : list (Z * Z);
  mb_tokens : option Z;
  mb_repository_id : option UUID;
  mb_truncated : bool;
  mb_selection_reason : option pystr;
  mb_index_commit_sha : option pystr;
  mb_edge_kind : option pystr
}.

Record CallManifest : Type := mkCallManifest {
  cm_call_id : UUID;
  cm_stage : StageName;
  cm_blocks : list ManifestBlock;
  cm_recovery_kind : RecoveryKind;
  cm_run_id : option UUID
}.

Definition get_block (m : CallManifest) (block_id : pystr) : option ManifestBlock :=
  find_first (λ b, mb_block_id b =?s block_id) (cm_blocks m).

(** A range of lines inside one shown range. *)
Definition range_within (start_line end_line : Z) (r : Z * Z) : bool :=
  (fst r <=? start_line) && (end_line <=? snd r).

Definition is_range_shown (m : CallManifest) (block_id : pystr) (start_line end_line : Z) : bool :=
  match get_block m block_id with
  | None => false
  | Some b =>
      match mb_shown_ranges b with
      | [] =>
          match mb_start_line b, mb_end_line b with
          | Some s, Some e => range_within start_line end_line (s, e)
          | _, _ => false
          end
      | ranges => py_any (range_within start_line end_line) ranges
      end
  end.

(** ** The lines a block shows *)

(** [sorted({..})] of line numbers. *)
Definition sorted_numbers (ns : list Z) : list Z := py_sorted Z.leb (remove_dups ns).

(** Runs of consecutive numbers, from the run that has started. *)
Fixpoint runs_from (start prev : Z) (ns : list Z) : list (Z * Z) :=
  match ns with
  | [] => [(start, prev)]
  | n :: ns' => if n =? prev + 1 then runs_from start n ns' else (start, prev) :: runs_from n n ns'
  end.

Definition right_numbers (lines : list DiffLine) : list Z :=
  dl_number <$> List.filter (λ l, negb (bool_decide (dl_type l = Row_removed))) lines.

Definition calculate_shown_ranges (lines : list DiffLine) : list (Z * Z) :=
  match sorted_numbers (right_numbers lines) with
  | [] => []
  | n :: ns => runs_from n n ns
  end.

(** [min(.., default=None)], [max(.., default=None)] *)
Definition min_default (l : list Z) : option Z :=
  match l with [] => None | x :: l' => Some (foldl Z.min x l') end.
Definition max_default (l : list Z) : option Z :=
  match l with [] => None | x :: l' => Some (foldl Z.max x l') end.
Definition ranges_count (ranges : list (Z * Z)) : Z := py_sum ((λ r, snd r - fst r + 1) <$> ranges).

(** ** The manifest of a prompt *)

Section Build.
Context (repr : pystr → pystr).

Definition block_tokens (counter : option TokenCounter) (rendered : pystr) : option Z :=
  (λ c, tc_count c rendered) <$> counter.

Definition policy_block (s : PolicySnapshot) (d : PolicyDocument) (block_id kind : pystr)
    (tokens : option Z) : list ManifestBlock :=
  if is_missing d then []
  else
    let line_count := default 0 (pd_line_count d) in
    if 0 <? line_count then
      [mkManifestBlock block_id Role_policy_document kind (Some (pd_path d))
         (Some (sn_policy_base_sha s)) None (pd_text_sha256 d) (Some 1) (Some line_count) line_count
         [(1, line_count)] tokens None false None None None]
    else
      [mkManifestBlock block_id Role_policy_document kind (Some (pd_path d))
         (Some (sn_policy_base_sha s)) None (pd_text_sha256 d) None None 0 [] tokens None false
         None None None].

Definition defaults_block (s : PolicySnapshot) (rules : list ReviewRule)
    (counter : option TokenCounter) : result PromptError (list ManifestBlock) :=
  match rules with
  | [] => Ok []
  | _ =>
      let counted := py_sum ((λ r, py_len (rr_checks r)) <$> rules) in
      let defaults_lines := if counted =? 0 then 1 else counted in
      tokens ← (match counter with
                | None => Ok None
                | Some c =>
                    text ← render_service_defaults repr rules (sn_defaults_checksum s);
                    Ok (Some (tc_count c text))
                end);
      Ok [mkManifestBlock (u8 "service-defaults") Role_service_defaults (u8 "service_defaults")
            None None None None (Some 1) (Some defaults_lines) defaults_lines
            [(1, defaults_lines)] tokens None false None None None]
  end.

Definition snapshot_blocks (c : ReviewContext) (counter : option TokenCounter)
  : result PromptError (list ManifestBlock) :=
  match rx_policy_snapshot c with
  | None => Ok []
  | Some s =>
      defaults ← defaults_block s (rx_rules c) counter;
      Ok (policy_block s (sn_rules s) (u8 "policy-rules") (u8 "repository_rules")
            (block_tokens counter (render_policy_rules s))
          ++ policy_block s (sn_agents s) (u8 "policy-agents") (u8 "project_conventions_document")
               (block_tokens counter (render_policy_agents s))
          ++ defaults)
  end.

Definition changed_block (c : ReviewContext) (counter : option TokenCounter) (f : ChangedFile)
  : result PromptError ManifestBlock :=
  block_id ← file_block_id (ch_path f);
  rendered ← render_changed_file (has_snapshot c) f;
  let ranges := calculate_shown_ranges (ch_lines f) in
  Ok (mkManifestBlock block_id Role_diff (u8 "source_code") (Some (ch_path f))
        (pm_head_sha (rx_pr_meta c)) (Some Side_RIGHT) None
        (min_default (fst <$> ranges)) (max_default (snd <$> ranges)) (ranges_count ranges) ranges
        (block_tokens counter rendered) (sn_repository_id <$> rx_policy_snapshot c)
        (match ch_total_lines f with Some t => py_len (ch_lines f) <? t | None => false end)
        None None None).

Definition line_ranges (s : SourceRef) : list (Z * Z) :=
  (λ r, (lr_start_line r, lr_end_line r)) <$> sf_ranges s.

Definition source_block (block_id : pystr) (role : SourceRole) (s : SourceRef) (tokens : option Z)
    (truncated : bool) (reason index_commit edge : option pystr) : ManifestBlock :=
  let ranges := line_ranges s in
  mkManifestBlock block_id role (u8 "source_code") (sf_path s) (sf_revision s) (sf_side s) None
    (min_default (fst <$> ranges)) (max_default (snd <$> ranges)) (ranges_count ranges) ranges
    tokens (Some (sf_repository_id s)) truncated reason index_commit edge.

Definition excerpt_block (counter : option TokenCounter) (b : ContextBlock)
  : result PromptError ManifestBlock :=
  rendered ← render_excerpt b;
  Ok (source_block (cb_block_id b) (sf_role (cb_source b)) (cb_source b)
        (block_tokens counter rendered) (cb_truncated b) None None None).

Definition retrieved_block (counter : option TokenCounter) (b : RetrievedBlock)
  : result PromptError ManifestBlock :=
  rendered ← render_retrieved b;
  Ok (source_block (rb_block_id b) Role_retrieved_excerpt (rb_source b)
        (block_tokens counter rendered) false (Some (sf_reason (rb_source b)))
        (Some (rb_index_commit_sha b)) (Some (EdgeKind_value (rb_edge_kind b)))).

Definition build_manifest (c : ReviewContext) (call_id : UUID) (stage : StageName)
    (recovery_kind : RecoveryKind) (counter : option TokenCounter)
  : result PromptError CallManifest :=
  policy ← snapshot_blocks c counter;
  files ← map_result (changed_block c counter) (rx_changed_files c);
  excerpts ← map_result (excerpt_block counter) (rx_context_blocks c);
  retrieved ← map_result (retrieved_block counter)
                (if rx_retrieved_section c then rx_retrieved c else []);
  Ok (mkCallManifest call_id stage (policy ++ files ++ excerpts ++ retrieved) recovery_kind
        (sn_run_id <$> rx_policy_snapshot c)).
End Build.

(** ** The provenance guard *)

Definition ALLOWED_SOURCE_ROLES : list SourceRole :=
  [Role_policy_document; Role_service_defaults; Role_conventions; Role_pr_metadata; Role_diff;
   Role_source_excerpt; Role_ast_excerpt; Role_retrieved_excerpt; Role_candidate;
   Role_previous_output].

Definition ROLE_KIND_MAP (r : SourceRole) : list pystr :=
  match r with
  | Role_policy_document => [u8 "repository_rules"; u8 "project_conventions_document"]
  | Role_service_defaults => [u8 "service_defaults"]
  | Role_conventions => [u8 "generated_conventions"]
  | Role_pr_metadata => [u8 "pr_metadata"]
  | Role_diff | Role_source_excerpt | Role_ast_excerpt | Role_retrieved_excerpt => [u8 "source_code"]
  | Role_candidate => [u8 "candidate_findings"]
  | Role_previous_output => [u8 "previous_model_output"]
  end.

Definition violation (message : pystr) : PolicyError := policy_error CONTEXT_VIOLATION message no_args.
Definition block_violation (b : ManifestBlock) (message : pystr) : PolicyError :=
  violation (u8 "Block '" ++ mb_block_id b ++ u8 "'" ++ message).

(** 1. Role and kind *)
Definition check_kind (b : ManifestBlock) : result PolicyError unit :=
  if negb (bool_decide (mb_source_role b ∈ ALLOWED_SOURCE_ROLES))
  then Err (block_violation b (u8 " has disallowed source_role: '"
              ++ SourceRole_value (mb_source_role b) ++ u8 "'"))
  else raise_when (negb (str_mem (mb_source_kind b) (ROLE_KIND_MAP (mb_source_role b))))
         (block_violation b (u8 " with role '" ++ SourceRole_value (mb_source_role b)
            ++ u8 "' has disallowed source_kind: '" ++ mb_source_kind b ++ u8 "'")).

(** 2. The path, before the masks *)
Definition check_path (b : ManifestBlock) (path : pystr) : result PolicyError unit :=
  if path =?s [] then Err (block_violation b (u8 " has empty path"))
  else
    match utf8_encode path with
    | None => Err (block_violation b (u8 " path has invalid encoding"))
    | Some encoded =>
        let segments := split_on SLASH path in
        if 1024 <? py_len encoded
        then Err (block_violation b (u8 " path exceeds 1024 bytes limit"))
        else if 128 <? py_len segments
        then Err (block_violation b (u8 " path exceeds 128 segments limit"))
        else if str_mem (u8 "..") segments || str_mem (u8 ".") segments || str_mem [] segments
        then Err (block_violation b
               (u8 " path violates repository path contract: directory traversal or empty segment"))
        else raise_when (negb (is_supported_path path))
               (block_violation b (u8 " references unsupported path"))
    end.

Definition ignored_violation (b : ManifestBlock) (s : PolicySnapshot) (p : IgnorePolicy) (mask : pystr)
  : PolicyError :=
  policy_error CONTEXT_VIOLATION
    (u8 "Block '" ++ mb_block_id b ++ u8 "' references ignored path matching deny-set")
    (mkPolicyErrorArgs (Some RULES_DOCUMENT_PATH) (Some (sn_policy_base_sha s))
       (ipl_line <$> find_first (λ l, ipl_pattern l =?s mask) (ip_source_lines p))
       None None None None (Some mask) None None false None false).

(** The masks of the snapshot, when it has any. *)
Definition mask_check (masks : option (PolicySnapshot * IgnorePolicy)) (b : ManifestBlock)
    (path : pystr) : matching unit :=
  match masks with
  | None => mret tt
  | Some (s, p) =>
      mask ← match_path (new_matcher (ip_patterns p) (Some (sn_policy_base_sha s))) path;
      match mask with
      | Some m => raise_st (ignored_violation b s p m)
      | None => mret tt
      end
  end.

(** 3. Revisions *)
Definition CODE_ROLES : list SourceRole :=
  [Role_diff; Role_source_excerpt; Role_ast_excerpt; Role_retrieved_excerpt].
Definition is_code (b : ManifestBlock) : bool :=
  bool_decide (mb_source_role b ∈ CODE_ROLES) || (mb_source_kind b =?s u8 "source_code").

Definition str_or_None (o : option pystr) : pystr := default (u8 "None") o.

Definition check_revision (context : option ReviewContext) (snapshot : option PolicySnapshot)
    (b : ManifestBlock) : result PolicyError unit :=
  match mb_revision b with
  | None => Ok tt
  | Some revision =>
      if is_code b then
        let expected :=
          c ← context;
          if bool_decide (mb_side b = Some Side_LEFT) then pm_diff_old_sha (rx_pr_meta c)
          else pm_head_sha (rx_pr_meta c) in
        raise_when (negb (truthy expected) || negb (bool_decide (Some revision = expected)))
          (block_violation b
             (if bool_decide (mb_side b = Some Side_LEFT)
              then u8 " LEFT revision does not match PR revisions: diff_old_sha '"
                   ++ str_or_None expected ++ u8 "'"
              else u8 " revision does not match PR revisions: head_sha '"
                   ++ str_or_None expected ++ u8 "'"))
      else
        match snapshot with
        | Some s =>
            raise_when (bool_decide (mb_source_role b = Role_policy_document)
                        && negb (revision =?s sn_policy_base_sha s))
              (block_violation b (u8 " revision does not match policy_base_sha"))
        | None => Ok tt
        end
  end.

(** 4. The repository *)
Definition check_repository (snapshot : option PolicySnapshot) (b : ManifestBlock)
  : result PolicyError unit :=
  if negb (is_code b) then Ok tt
  else
    let retrieved := bool_decide (mb_source_role b = Role_retrieved_excerpt) in
    if retrieved && is_none (mb_repository_id b) then Err (block_violation b (u8 " has no repository"))
    else if retrieved && is_none (mb_revision b) then Err (block_violation b (u8 " has no revision"))
    else
      match snapshot, mb_repository_id b with
      | Some s, Some r =>
          raise_when (negb (bool_decide (r = sn_repository_id s)))
            (block_violation b (u8 " repository does not match the policy snapshot"))
      | _, _ => Ok tt
      end.

(** 5. Policy documents *)
Definition check_document (b : ManifestBlock) (d : PolicyDocument) (absent mismatch : pystr)
  : result PolicyError unit :=
  if is_missing d then Err (violation absent)
  else raise_when (truthy (mb_content_sha256 b) && truthy (pd_text_sha256 d)
                   && negb (bool_decide (mb_content_sha256 b = pd_text_sha256 d)))
         (violation mismatch).

Definition check_documents (snapshot : option PolicySnapshot) (b : ManifestBlock)
  : result PolicyError unit :=
  match snapshot with
  | None => Ok tt
  | Some s =>
      if mb_source_kind b =?s u8 "repository_rules" then
        check_document b (sn_rules s) (u8 "Rules block present but snapshot has no rules document")
          (u8 "Rules block checksum mismatch with policy snapshot")
      else if mb_source_kind b =?s u8 "project_conventions_document" then
        check_document b (sn_agents s) (u8 "Agents block present but snapshot has no agents document")
          (u8 "Agents block checksum mismatch with policy snapshot")
      else Ok tt
  end.

Definition lift_check {A} (r : result PolicyError A) : matching A := λ s, (s, r).

Definition check_block (context : option ReviewContext) (snapshot : option PolicySnapshot)
    (masks : option (PolicySnapshot * IgnorePolicy)) (b : ManifestBlock) : matching unit :=
  _ ← lift_check (check_kind b);
  _ ← (match mb_path b with
       | None => mret tt
       | Some path => _ ← lift_check (check_path b path); mask_check masks b path
       end);
  _ ← lift_check (check_revision context snapshot b);
  _ ← lift_check (check_repository snapshot b);
  lift_check (check_documents snapshot b).

Fixpoint check_blocks (context : option ReviewContext) (snapshot : option PolicySnapshot)
    (masks : option (PolicySnapshot * IgnorePolicy)) (blocks : list ManifestBlock) : matching unit :=
  match blocks with
  | [] => mret tt
  | b :: blocks' =>
      _ ← check_block context snapshot masks b; check_blocks context snapshot masks blocks'
  end.

(** The masks of a stored snapshot, with their lines when the rules text still gives them back. *)
Definition snapshot_masks (markdown_parse : pystr → list MdToken) (snapshot : option PolicySnapshot)
  : result IgnoreError (option (PolicySnapshot * IgnorePolicy)) :=
  match snapshot with
  | Some s =>
      match sn_ignore_patterns s with
      | [] => Ok None
      | patterns =>
          p ← snapshot_ignore_policy markdown_parse (pd_text (sn_rules s)) (sn_policy_base_sha s)
                patterns (sn_ignore_digest s) (sn_matcher_version s)
                (sn_builtin_exclusions_version s) (sn_limits_version s);
          Ok (Some (s, p))
      end
  | None => Ok None
  end.

Definition verify_provenance_pre_send_guard (markdown_parse : pystr → list MdToken)
    (m : CallManifest) (context : option ReviewContext) (snapshot : option PolicySnapshot)
  : result IgnoreError unit :=
  masks ← snapshot_masks markdown_parse snapshot;
  map_err IE_policy (snd (check_blocks context snapshot masks (cm_blocks m) new_state)).
