(* ===== verification/ManifestFacts.v ===== *)
(** * What manifests and the guard promise

    The ranges of a block are the lines the prompt shows; the guard passes exactly the manifests
    whose blocks come from allowed sources at the reviewed revisions. *)

From Stdlib Require Import String QArith Sorting.Sorted.
From stdpp Require Import numbers sets gmap.
From S2P Require Import Prelude PyText PyHash UnifiedDiff DiffMap Verdict RunFailures PolicyErrors.
From S2P Require Import IgnoreMatcher ReviewIgnore PolicyDocuments PolicySnapshots VcsInput.
From S2P Require Import PromptRender PromptBudget Manifests.
#[local] Open Scope Z_scope.

(** ** Runs of lines *)

Lemma sorted_numbers_spec ns :
  StronglySorted Z.lt (sorted_numbers ns) ∧ ∀ n, n ∈ sorted_numbers ns ↔ n ∈ ns.
Proof.
  unfold sorted_numbers. split.
  - assert (Sorted (leP Z.leb) (py_sorted Z.leb (remove_dups ns))) as Hs
      by (apply py_sorted_sorted; intros a b; rewrite !Z.leb_le; lia).
    apply Sorted_StronglySorted in Hs; [|intros a b c; unfold leP; rewrite !Z.leb_le; lia].
    assert (NoDup (py_sorted Z.leb (remove_dups ns))) as Hnd
      by (rewrite py_sorted_perm; apply NoDup_remove_dups).
    induction Hs as [|n l _ IH Hn]; [constructor|]. apply NoDup_cons in Hnd as [Hin Hnd].
    constructor; [by apply IH|]. rewrite Forall_forall in *. intros x Hx.
    specialize (Hn x Hx). unfold leP in Hn. apply Z.leb_le in Hn.
    assert (n ≠ x) by (intros ->; done). lia.
  - intros n. by rewrite elem_of_py_sorted, elem_of_remove_dups.
Qed.

(** A range lies in one run when all its lines are in the set. *)
Lemma runs_from_spec ns start prev a b :
  start ≤ prev → StronglySorted Z.lt (prev :: ns) → a ≤ b →
  (∃ r, r ∈ runs_from start prev ns ∧ range_within a b r = true)
  ↔ ∀ n, a ≤ n ≤ b → start ≤ n ≤ prev ∨ n ∈ ns.
Proof.
  unfold range_within. setoid_rewrite andb_true_iff. setoid_rewrite Z.leb_le.
  revert start prev a b. induction ns as [|m ns IH]; intros start prev a b Hsp Hs Hab; cbn [runs_from].
  { setoid_rewrite list_elem_of_singleton. split.
    - intros (r & -> & ? & ?) n Hn. cbn in *. lia.
    - intros H. exists (start, prev). split; [done|]. cbn.
      destruct (H a ltac:(lia)) as [?|?%not_elem_of_nil]; [|done].
      destruct (H b ltac:(lia)) as [?|?%not_elem_of_nil]; [lia|done]. }
  apply StronglySorted_inv in Hs as [Hs Hlt]. apply Forall_cons in Hlt as [Hpm Hlt].
  destruct (Z.eqb_spec m (prev + 1)) as [->|Hne].
  - rewrite IH by (done || lia). split; intros H n Hn; destruct (H n Hn) as [?|Hin].
    + destruct (decide (n = prev + 1)) as [->|]; [right; left|left; lia].
    + right; by right.
    + left; lia.
    + apply elem_of_cons in Hin as [->|?]; [left; lia|by right].
  - assert (∀ n, n ∈ ns → m < n) as Hmn.
    { apply StronglySorted_inv in Hs as [_ Hm]. rewrite Forall_forall in Hm. auto. }
    setoid_rewrite elem_of_cons. split.
    + intros (r & [->|Hr] & Ha & Hb) n Hn; [left; cbn in *; lia|right].
      assert (∀ n, a ≤ n ≤ b → m ≤ n ≤ m ∨ n ∈ ns) as Hall by (apply IH; [lia|done|done|eauto]).
      destruct (Hall n Hn) as [?|?]; [left; lia|by right].
    + intros H. destruct (decide (b ≤ prev)) as [Hb|Hb].
      * exists (start, prev). split; [by left|]. cbn.
        destruct (H a ltac:(lia)) as [?|[->|?%Hmn]]; lia.
      * assert (prev + 1 < a) as Ha.
        { apply Z.nle_gt. intros Hle. destruct (H (Z.max a (prev + 1)) ltac:(lia)) as [?|[?|?%Hmn]]; lia. }
        destruct (proj2 (IH m m a b ltac:(lia) Hs Hab)) as (r & Hr & Hw); [|eauto].
        intros n Hn. destruct (H n Hn) as [?|[->|?]]; [lia|left; lia|by right].
Qed.

(** The ranges of a file are its lines on the new side. *)
Lemma shown_ranges_spec lines a b :
  a ≤ b →
  py_any (range_within a b) (calculate_shown_ranges lines) = true
  ↔ ∀ n, a ≤ n ≤ b → n ∈ right_numbers lines.
Proof.
  intros Hab. destruct (sorted_numbers_spec (right_numbers lines)) as [Hs Hin].
  unfold py_any. rewrite existsb_exists. setoid_rewrite <- list_elem_of_In.
  unfold calculate_shown_ranges. setoid_rewrite <- Hin.
  destruct (sorted_numbers (right_numbers lines)) as [|n ns].
  - split; [by intros (r & []%not_elem_of_nil & _)|].
    intros H. exfalso. apply (not_elem_of_nil a), H. lia.
  - rewrite runs_from_spec by (done || lia). split; intros H x Hx.
    + destruct (H x Hx) as [?|?]; [replace x with n by lia; left|by right].
    + apply H in Hx. apply elem_of_cons in Hx as [->|?]; [left; lia|by right].
Qed.

Lemma right_numbers_spec lines n :
  n ∈ right_numbers lines ↔ ∃ l, l ∈ lines ∧ dl_type l ≠ Row_removed ∧ dl_number l = n.
Proof.
  unfold right_numbers. rewrite list_elem_of_fmap. setoid_rewrite list_elem_of_In.
  setoid_rewrite filter_In. setoid_rewrite negb_true_iff. setoid_rewrite bool_decide_eq_false.
  naive_solver.
Qed.

(** ** Blocks of a manifest *)

Lemma map_result_elem {E A B} (f : A → result E B) l bs :
  map_result f l = Ok bs → ∀ a, a ∈ l → ∃ b, f a = Ok b ∧ b ∈ bs.
Proof.
  revert bs. induction l as [|x l IH]; intros bs; [by intros _ a []%not_elem_of_nil|].
  cbn [map_result]. intros (b & Hb & (bs' & Hbs & [= <-])%bind_ok)%bind_ok a.
  intros [->|Ha]%elem_of_cons; [exists b; split; [done|left]|].
  destruct (IH bs' Hbs a Ha) as (b' & Hb' & Hin). exists b'. split; [done|by right].
Qed.

Lemma get_block_unique m b :
  NoDup (mb_block_id <$> cm_blocks m) → b ∈ cm_blocks m → get_block m (mb_block_id b) = Some b.
Proof.
  unfold get_block. induction (cm_blocks m) as [|x l IH]; intros Hnd Hin; [by apply not_elem_of_nil in Hin|].
  cbn [fmap list_fmap] in Hnd. apply NoDup_cons in Hnd as [Hx Hnd]. cbn [find_first].
  apply elem_of_cons in Hin as [->|Hin]; [by rewrite str_eqb_refl|].
  destruct (mb_block_id x =?s mb_block_id b) eqn:E; [|by apply IH].
  apply str_eqb_eq in E. exfalso. apply Hx. rewrite E. by apply list_elem_of_fmap_2.
Qed.

(** The block of a changed file. *)
Lemma build_manifest_file repr c call_id stage kind counter m f :
  build_manifest repr c call_id stage kind counter = Ok m → f ∈ rx_changed_files c →
  ∃ b, b ∈ cm_blocks m ∧ file_block_id (ch_path f) = Ok (mb_block_id b)
       ∧ mb_path b = Some (ch_path f) ∧ mb_side b = Some Side_RIGHT
       ∧ mb_revision b = pm_head_sha (rx_pr_meta c)
       ∧ mb_shown_ranges b = calculate_shown_ranges (ch_lines f)
       ∧ mb_start_line b = min_default (fst <$> calculate_shown_ranges (ch_lines f)).
Proof.
  unfold build_manifest.
  intros (policy & _ & (files & Hfiles & (ex & _ & (rt & _ & [= <-])%bind_ok)%bind_ok)%bind_ok)%bind_ok Hf.
  destruct (map_result_elem _ _ _ Hfiles f Hf) as (b & Hb & Hin). exists b.
  split; [cbn [cm_blocks]; set_solver|].
  apply bind_ok in Hb as (id & Hid & (r & _ & [= <-])%bind_ok). by rewrite Hid.
Qed.

(** The lines a file of the prompt shows on the new side. *)
Definition line_shown (f : ChangedFile) (n : Z) : Prop :=
  ∃ l, l ∈ ch_lines f ∧ dl_type l ≠ Row_removed ∧ dl_number l = n.

Lemma file_range_shown repr c call_id stage kind counter m f id a b :
  build_manifest repr c call_id stage kind counter = Ok m →
  NoDup (mb_block_id <$> cm_blocks m) → f ∈ rx_changed_files c → file_block_id (ch_path f) = Ok id →
  a ≤ b → is_range_shown m id a b = true ↔ ∀ n, a ≤ n ≤ b → line_shown f n.
Proof.
  intros Hm Hnd Hf Hid Hab.
  destruct (build_manifest_file _ _ _ _ _ _ _ _ Hm Hf) as (blk & Hin & Hb & _ & _ & _ & Hr & Hs).
  assert (id = mb_block_id blk) as -> by congruence. unfold is_range_shown.
  rewrite (get_block_unique m blk Hnd Hin), Hs.
  transitivity (py_any (range_within a b) (mb_shown_ranges blk) = true).
  - destruct (mb_shown_ranges blk); [|done]. by rewrite <- Hr.
  - rewrite Hr, shown_ranges_spec by done. by setoid_rewrite right_numbers_spec.
Qed.

(** The manifest records exactly what the prompt shows: when its block identifiers differ, a
    range of lines of a changed file counts as shown if and only if every line of it is a line of
    the file's rendered block on the new side. *)
Theorem manifest_shows_exactly repr c call_id stage kind counter m f id a b :
  build_manifest repr c call_id stage kind counter = Ok m →
  NoDup (mb_block_id <$> cm_blocks m) → f ∈ rx_changed_files c → file_block_id (ch_path f) = Ok id →
  a ≤ b → is_range_shown m id a b = true ↔ ∀ n, a ≤ n ≤ b → line_shown f n.
Proof. apply file_range_shown. Qed.

(** ** The guard *)

Definition expected_revision (context : option ReviewContext) (b : ManifestBlock) : option pystr :=
  c ← context;
  if bool_decide (mb_side b = Some Side_LEFT) then pm_diff_old_sha (rx_pr_meta c)
  else pm_head_sha (rx_pr_meta c).

(** A policy document block is that of the snapshot. *)
Definition document_ok (b : ManifestBlock) (d : PolicyDocument) : Prop :=
  is_missing d = false
  ∧ (truthy (mb_content_sha256 b) = true → truthy (pd_text_sha256 d) = true →
     mb_content_sha256 b = pd_text_sha256 d).

Definition kind_ok (b : ManifestBlock) : Prop := mb_source_kind b ∈ ROLE_KIND_MAP (mb_source_role b).
Definition path_ok (snapshot : option PolicySnapshot) (b : ManifestBlock) : Prop :=
  ∀ p, mb_path b = Some p →
    is_supported_path p = true
    ∧ ∀ s mask, snapshot = Some s → mask ∈ sn_ignore_patterns s → ¬ covers mask p.
Definition revision_ok (context : option ReviewContext) (snapshot : option PolicySnapshot)
    (b : ManifestBlock) : Prop :=
  ∀ r, mb_revision b = Some r →
    if is_code b then r ≠ [] ∧ expected_revision context b = Some r
    else ∀ s, snapshot = Some s → mb_source_role b = Role_policy_document → r = sn_policy_base_sha s.
Definition repository_ok (snapshot : option PolicySnapshot) (b : ManifestBlock) : Prop :=
  is_code b = true →
  (mb_source_role b = Role_retrieved_excerpt → mb_repository_id b ≠ None ∧ mb_revision b ≠ None)
  ∧ ∀ s r, snapshot = Some s → mb_repository_id b = Some r → r = sn_repository_id s.
Definition documents_ok (snapshot : option PolicySnapshot) (b : ManifestBlock) : Prop :=
  ∀ s, snapshot = Some s →
    (mb_source_kind b = u8 "repository_rules" → document_ok b (sn_rules s))
    ∧ (mb_source_kind b = u8 "project_conventions_document" → document_ok b (sn_agents s)).

Record block_ok (context : option ReviewContext) (snapshot : option PolicySnapshot)
    (b : ManifestBlock) : Prop := {
  bo_kind : kind_ok b;
  bo_path : path_ok snapshot b;
  bo_revision : revision_ok context snapshot b;
  bo_repository : repository_ok snapshot b;
  bo_documents : documents_ok snapshot b
}.

(** A check that holds of [P] or refuses the call. *)
Definition checks (r : result PolicyError unit) (P : Prop) : Prop :=
  match r with Ok _ => P | Err e => pe_code e = CONTEXT_VIOLATION ∧ ¬ P end.

Lemma checks_when b e P :
  pe_code e = CONTEXT_VIOLATION → (b = false ↔ P) → checks (raise_when b e) P.
Proof. intros He HP. unfold raise_when. destruct b; cbn; [split; [done|]|by apply HP]. by intros ?%HP. Qed.

Lemma str_mem_elem s l : str_mem s l = true ↔ s ∈ l.
Proof. by rewrite str_mem_In, list_elem_of_In. Qed.

Lemma check_kind_ok b : checks (check_kind b) (kind_ok b).
Proof.
  unfold check_kind, kind_ok. rewrite bool_decide_true by (destruct (mb_source_role b); set_solver).
  cbn [negb]. apply checks_when; [done|]. by rewrite negb_false_iff, str_mem_elem.
Qed.

Lemma reserved_free l :
  py_all (λ s, negb (reserved_segment s)) l
  = negb (str_mem (u8 "..") l || str_mem (u8 ".") l || str_mem [] l).
Proof.
  apply eq_true_iff_eq. unfold py_all.
  rewrite forallb_forall, negb_true_iff, !orb_false_iff, <- !not_true_iff_false, !str_mem_elem.
  setoid_rewrite <- list_elem_of_In. setoid_rewrite negb_true_iff. unfold reserved_segment.
  setoid_rewrite <- not_true_iff_false. setoid_rewrite str_mem_elem. change (u8 "") with (@nil char).
  split.
  - intros H. split_and!; intros Hin; eapply H; [exact Hin|set_solver| exact Hin|set_solver|exact Hin|set_solver].
  - intros [[H1 H2] H3] x Hx Hr. set_solver.
Qed.

Lemma check_path_ok b p : checks (check_path b p) (is_supported_path p = true).
Proof.
  unfold check_path, is_supported_path.
  destruct (p =?s []) eqn:Hp; [apply str_eqb_eq in Hp as ->; split; [done|]; by vm_compute|].
  destruct (utf8_encode p) as [encoded|]; [|by split]. cbv zeta. rewrite reserved_free.
  change MAX_PATH_BYTES with 1024. change MAX_PATH_SEGMENTS with 128.
  destruct (1024 <? py_len encoded) eqn:Hb; [by split|]. cbn [orb].
  destruct (Z.ltb_spec 128 (py_len (split_on SLASH p))) as [Hl|Hl].
  { split; [done|]. rewrite (proj2 (Z.leb_gt _ _) Hl). by destruct (char_mem BACKSLASH p), (py_any is_Cc p). }
  rewrite (proj2 (Z.leb_le _ _) Hl).
  destruct (_ || str_mem [] _) eqn:Hr.
  { split; [done|]. by destruct (char_mem BACKSLASH p), (py_any is_Cc p). }
  apply checks_when; [done|]. cbn [negb andb]. apply negb_false_iff.
Qed.

Lemma check_revision_ok context snapshot b :
  checks (check_revision context snapshot b) (revision_ok context snapshot b).
Proof.
  unfold check_revision, revision_ok. fold (expected_revision context b).
  destruct (mb_revision b) as [r|]; [|done]. destruct (is_code b).
  - apply checks_when; [by destruct (bool_decide _)|].
    rewrite orb_false_iff, !negb_false_iff, bool_decide_eq_true. split.
    + intros [Ht Hx] r' [= <-]. rewrite <- Hx in *. split; [|done]. by intros ->.
    + intros H. destruct (H r eq_refl) as [Hr ->]. split; [|done]. by destruct r.
  - destruct snapshot as [s|]; [|by intros r' _ s]. apply checks_when; [done|].
    rewrite andb_false_iff, bool_decide_eq_false, negb_false_iff, str_eqb_eq. split.
    + intros H r' [= <-] s' [= <-]. tauto.
    + intros H. destruct (decide (mb_source_role b = Role_policy_document)); [right|by left]. eauto.
Qed.

Lemma check_repository_ok snapshot b : checks (check_repository snapshot b) (repository_ok snapshot b).
Proof.
  unfold check_repository, repository_ok. destruct (is_code b); [|done]. cbn [negb]. cbv zeta.
  destruct (bool_decide_reflect (mb_source_role b = Role_retrieved_excerpt)) as [Hret|Hret]; cbn [andb].
  - destruct (mb_repository_id b) as [r|]; cbn [is_none].
    2:{ split; [done|]. intros H. by destruct (proj1 (H eq_refl) Hret) as [[] _]. }
    destruct (mb_revision b) as [rev|]; cbn [is_none].
    2:{ split; [done|]. intros H. by destruct (proj1 (H eq_refl) Hret) as [_ []]. }
    destruct snapshot as [s|]; [|by intros _].
    apply checks_when; [done|]. rewrite negb_false_iff, bool_decide_eq_true. naive_solver.
  - destruct snapshot as [s|]; [|done]. destruct (mb_repository_id b) as [r|]; [|done].
    apply checks_when; [done|]. rewrite negb_false_iff, bool_decide_eq_true. naive_solver.
Qed.

Lemma check_document_ok b d absent mismatch : checks (check_document b d absent mismatch) (document_ok b d).
Proof.
  unfold check_document, document_ok. destruct (is_missing d); [split; [done|by intros [[=] _]]|].
  apply checks_when; [done|]. rewrite !andb_false_iff, negb_false_iff, bool_decide_eq_true.
  destruct (truthy (mb_content_sha256 b)), (truthy (pd_text_sha256 d)); naive_solver.
Qed.

Lemma checks_iff r P Q : (P ↔ Q) → checks r P → checks r Q.
Proof. intros HPQ. destruct r; cbn; tauto. Qed.

Lemma check_documents_ok snapshot b : checks (check_documents snapshot b) (documents_ok snapshot b).
Proof.
  unfold check_documents, documents_ok. destruct snapshot as [s|]; [|done].
  destruct (mb_source_kind b =?s u8 "repository_rules") eqn:E1.
  { apply str_eqb_eq in E1. eapply checks_iff; [|apply check_document_ok]. split; [|naive_solver].
    intros H s' [= <-]. split; [done|]. intros E2. rewrite E1 in E2. discriminate E2. }
  apply str_eqb_neq in E1. destruct (mb_source_kind b =?s u8 "project_conventions_document") eqn:E2.
  { apply str_eqb_eq in E2. eapply checks_iff; [|apply check_document_ok]. naive_solver. }
  apply str_eqb_neq in E2. naive_solver.
Qed.

(** A guarded computation over the matcher: it holds of [P], refuses the call because [P] fails, or
    stops at the budget of the masks. *)
Section Guard.
Context (patterns : list pystr) (base : option pystr).

Definition guarded (m : matching unit) (P : Prop) : Prop :=
  ∀ s, matcher_inv patterns s →
    match snd (m s) with
    | Ok _ => matcher_inv patterns (fst (m s)) ∧ P
    | Err e => (pe_code e = CONTEXT_VIOLATION ∧ ¬ P) ∨ pe_code e = MATCH_BUDGET_EXCEEDED
    end.

Lemma guarded_ret (P : Prop) : P → guarded (mret tt) P.
Proof using. by intros HP s Hs. Qed.

Lemma guarded_lift r P : checks r P → guarded (lift_check r) P.
Proof using. intros Hr s Hs. cbn. destruct r; [done|by left]. Qed.

Lemma guarded_bind m f P Q R :
  guarded m P → guarded (f tt) Q → (R ↔ P ∧ Q) → guarded (m ≫= f) R.
Proof using.
  intros Hm Hf HR s Hs. specialize (Hm s Hs). unfold mbind, stateT_bind.
  destruct (m s) as [s1 [[]|e]]; cbn in *; [|naive_solver].
  destruct Hm as [Hi HP]. specialize (Hf s1 Hi). destruct (f tt s1) as [s2 [[]|e]]; cbn in *; naive_solver.
Qed.

(** A path that no mask covers. *)
Lemma guarded_mask s p b path :
  ip_patterns p = patterns → Some (sn_policy_base_sha s) = base → is_supported_path path = true →
  guarded (mask_check (Some (s, p)) b path) (Forall (λ q, ¬ covers q path) patterns).
Proof using.
  intros Hp Hb Hsup st Hst. unfold mask_check. rewrite Hp, Hb.
  pose proof (match_path_mtriple patterns base path Hsup st Hst) as H.
  unfold mbind, stateT_bind. destruct (match_path _ path st) as [s1 [[m|]|e]]; cbn in *.
  - left. split; [done|]. destruct H as (_ & before & behind & -> & Hm & _).
    rewrite Forall_app, Forall_cons. naive_solver.
  - done.
  - right. by destruct H as [(_ & ->)|(_ & _ & ->)].
Qed.
End Guard.

Lemma guarded_iff patterns m P Q : (P ↔ Q) → guarded patterns m P → guarded patterns m Q.
Proof. intros HPQ Hm s Hs. specialize (Hm s Hs). destruct (snd (m s)); naive_solver. Qed.

(** The masks the guard uses are those the snapshot stores. *)
Lemma snapshot_masks_patterns markdown_parse snapshot masks :
  snapshot_masks markdown_parse snapshot = Ok masks →
  match masks with
  | Some (s, p) => snapshot = Some s ∧ ip_patterns p = sn_ignore_patterns s
  | None => ∀ s, snapshot = Some s → sn_ignore_patterns s = []
  end.
Proof.
  unfold snapshot_masks. destruct snapshot as [s|]; [|by intros [= <-]].
  destruct (sn_ignore_patterns s) as [|q qs] eqn:Hq; [intros [= <-]; by intros s' [= <-]|].
  intros (p & Hp & [= <-])%bind_ok. split; [done|]. rewrite Hq. revert Hp. unfold snapshot_ignore_policy.
  destruct (parse_review_ignore _ _ _) as [p'|[e| |]]; [|by intros [= <-]|done|done].
  destruct (negb _); [by intros [= <-]|]. destruct (negb _); by intros [= <-].
Qed.

Section Blocks.
Context (context : option ReviewContext) (snapshot : option PolicySnapshot)
  (masks : option (PolicySnapshot * IgnorePolicy)).
Hypothesis masks_of :
  match masks with
  | Some (s, p) => snapshot = Some s ∧ ip_patterns p = sn_ignore_patterns s
  | None => ∀ s, snapshot = Some s → sn_ignore_patterns s = []
  end.
Abbreviation patterns := (match masks with Some (_, p) => ip_patterns p | None => [] end).

Lemma guarded_path b :
  guarded patterns
    (match mb_path b with
     | None => mret tt
     | Some path => _ ← lift_check (check_path b path); mask_check masks b path
     end) (path_ok snapshot b).
Proof using masks_of.
  unfold path_ok. destruct (mb_path b) as [path|]; [|by apply guarded_ret].
  pose proof (check_path_ok b path) as Hc. destruct (check_path b path) as [[]|e] eqn:Hp.
  2:{ intros st Hst. left. cbn in *. destruct Hc as [He Hns]. split; [done|]. intros H.
      by destruct (H path eq_refl). }
  cbn in Hc. intros st Hst.
  change ((_ ← lift_check (Ok tt); mask_check masks b path) st) with (mask_check masks b path st).
  destruct masks as [[s p]|].
  - destruct masks_of as [-> Hpat]. pose proof (guarded_mask (ip_patterns p) (Some (sn_policy_base_sha s))
      s p b path eq_refl eq_refl Hc st Hst) as H.
    destruct (snd (mask_check _ b path st)); [|destruct H as [[He HP]|?]; [left; split; [done|]|by right]].
    + split; [by apply H|]. intros p' [= <-]. split; [done|]. intros s' mask [= <-] Hm.
      rewrite <- Hpat in Hm. destruct H as [_ H]. rewrite Forall_forall in H. auto.
    + intros Hok. apply HP. apply Forall_forall. intros q Hq. rewrite Hpat in Hq.
      by apply (proj2 (Hok path eq_refl) s q).
  - split; [done|]. intros p' [= <-]. split; [done|]. intros s mask Hs Hm.
    rewrite (masks_of s Hs) in Hm. by apply not_elem_of_nil in Hm.
Qed.

Lemma guarded_block b : guarded patterns (check_block context snapshot masks b) (block_ok context snapshot b).
Proof using masks_of.
  unfold check_block.
  eapply guarded_bind; [apply guarded_lift, check_kind_ok| |].
  1: eapply guarded_bind; [apply guarded_path| |].
  1: eapply guarded_bind; [apply guarded_lift, check_revision_ok| |].
  1: eapply guarded_bind; [apply guarded_lift, check_repository_ok
                          |apply guarded_lift, check_documents_ok|reflexivity].
  1-2: reflexivity.
  split; [by intros []|]. intros (? & ? & ? & ? & ?). by constructor.
Qed.

Lemma guarded_blocks blocks :
  guarded patterns (check_blocks context snapshot masks blocks) (Forall (block_ok context snapshot) blocks).
Proof using masks_of.
  induction blocks as [|b blocks IH]; [by apply guarded_ret|]. cbn [check_blocks].
  eapply guarded_bind; [apply guarded_block|exact IH|apply Forall_cons].
Qed.
End Blocks.

Lemma new_state_inv patterns : matcher_inv patterns new_state.
Proof.
  split; [unfold in_budget; cbn; split; split; discriminate|]. cbn. intros q r Hq. by rewrite lookup_empty in Hq.
Qed.

(** The guard lets through exactly the manifests of which every block has a kind of its role,
    a supported path that no mask of the snapshot covers, the revision of its side of the pull
    request (or the policy base), the repository of the snapshot and the checksum of its policy
    document; otherwise the call is refused as a context violation, unless the evaluation of the
    masks exceeds its budget or the stored rules text cannot be read. *)
Theorem guard_exact markdown_parse m context snapshot :
  match verify_provenance_pre_send_guard markdown_parse m context snapshot with
  | Ok _ => Forall (block_ok context snapshot) (cm_blocks m)
  | Err (IE_policy e) =>
      (pe_code e = CONTEXT_VIOLATION ∧ ¬ Forall (block_ok context snapshot) (cm_blocks m))
      ∨ pe_code e = MATCH_BUDGET_EXCEEDED
  | Err e => snapshot_masks markdown_parse snapshot = Err e
  end.
Proof.
  unfold verify_provenance_pre_send_guard.
  destruct (snapshot_masks markdown_parse snapshot) as [masks|e] eqn:Hm; cbn [mbind result_bind].
  - apply snapshot_masks_patterns in Hm.
    pose proof (guarded_blocks context snapshot masks Hm (cm_blocks m) new_state (new_state_inv _)) as H.
    destruct (snd (check_blocks _ _ _ _ _)) as [[]|e]; cbn; [by apply H|done].
  - destruct e as [e| |]; [|done..]. exfalso. revert Hm. unfold snapshot_masks.
    destruct snapshot as [s|]; [|done]. destruct (sn_ignore_patterns s); [done|].
    unfold snapshot_ignore_policy. destruct (parse_review_ignore _ _ _) as [p'|[e'| |]]; cbn; try done.
    destruct (negb _); [done|]. by destruct (negb _).
Qed.

(** A manifest of one changed file with a gap between its lines. *)
Definition gap_file : ChangedFile :=
  mkChangedFile (u8 "a.py") Status_modified
    [mkDiffLine 1 Row_context (u8 "x"); mkDiffLine 2 Row_added (u8 "y"); mkDiffLine 2 Row_removed (u8 "z");
     mkDiffLine 7 Row_added (u8 "w")] None.
Definition gap_context : ReviewContext :=
  mkReviewContext (u8 "You review code.") [] None (mkRepoConventions [] [])
    (mkPullRequestMeta (u8 "t") None (u8 "dev") (u8 "f") (u8 "main") [] 1 2 1 false false
       (Some (u8 "head")) None [] false)
    [gap_file] [] None Th_all [] [] false 0.
Definition gap_block_id : pystr :=
  match file_block_id (u8 "a.py") with Ok id => id | Err _ => [] end.
Definition gap_manifest : CallManifest :=
  match build_manifest id gap_context 1%N Stage_review Recovery_none None with
  | Ok m => m
  | Err _ => mkCallManifest 1%N Stage_review [] Recovery_none None
  end.

Lemma manifest_shows_exactly_witness :
  is_range_shown gap_manifest gap_block_id 1 2 = true ↔ ∀ n, 1 ≤ n ≤ 2 → line_shown gap_file n.
Proof.
  apply (manifest_shows_exactly id gap_context 1%N Stage_review Recovery_none None gap_manifest gap_file
           gap_block_id 1 2).
  - vm_compute. reflexivity.
  - change (mb_block_id <$> cm_blocks gap_manifest) with [gap_block_id]. apply NoDup_singleton.
  - left.
  - vm_compute. reflexivity.
  - lia.
Defined.

Example gap_not_shown : is_range_shown gap_manifest gap_block_id 2 7 = false.
Proof. vm_compute. reflexivity. Qed.
