(* ===== verification/Publication.v ===== *)
(** * Publishing a stored review ([publish_run_review.py])

    The consumer of [review.publish]: what it checks before it talks to the provider, the loop of
    tries with its retries and the fallback that moves inline comments into the body, and the end
    it gives the run.  The provider is a parameter: the answer it gives to each try.  Rows are read
    before and written after, by the transactions of [RunStore]. *)

From Stdlib Require Import String QArith.
From stdpp Require Import numbers gmap.
From S2P Require Import Prelude PyText PrefixTable DiffMap VcsInput Verdict RunFailures RunStore.
#[local] Open Scope Z_scope.

#[export] Instance Q_eq_dec : EqDecision Q.
Proof. solve_decision. Defined.

(** ** What is published *)

Record PublishedFinding : Type := mkPublishedFinding {
  pf_path : pystr;
  pf_line : Z;
  pf_start_line : option Z;
  pf_severity : Severity;
  pf_category : Category;
  pf_title : pystr;
  pf_body : pystr;
  pf_suggestion : option pystr;
  pf_confidence : Q;
  pf_rule_name : option pystr;
  pf_gitlab_old_path : option pystr;
  pf_gitlab_old_line : option Z;
  pf_gitlab_old_line_only : bool;
  pf_gitlab_range_start_code : option pystr;
  pf_gitlab_range_end_code : option pystr;
  pf_gitlab_range_start_is_added : option bool;
  pf_gitlab_range_end_is_added : option bool;
  pf_gitlab_range_start_old_line : option Z;
  pf_gitlab_range_end_old_line : option Z;
  pf_finding_id : option UUID;
  pf_bitbucket_old_line : option Z;
  pf_bitbucket_anchor_valid : bool
}.
#[export] Instance PublishedFinding_eq_dec : EqDecision PublishedFinding.
Proof. solve_decision. Defined.

Record RunVcsInput : Type := mkRunVcsInput {
  vi_code_change_id : UUID;
  vi_repository_id : UUID;
  vi_head_sha : pystr;
  vi_base_sha : pystr;
  vi_locator : PullRequestLocator;
  vi_base_ref : option pystr
}.
#[export] Instance RunVcsInput_eq_dec : EqDecision RunVcsInput.
Proof. solve_decision. Defined.

Record PublicationIdentity : Type := mkPublicationIdentity {
  pi_origin_provider_installation_id : UUID;
  pi_origin_workspace_id : UUID;
  pi_origin_installation_external_id : Z;
  pi_origin_provider : pystr;
  pi_repository_id : UUID;
  pi_code_change_id : UUID;
  pi_base_sha : pystr
}.
#[export] Instance PublicationIdentity_eq_dec : EqDecision PublicationIdentity.
Proof. solve_decision. Defined.

Record PublishContext : Type := mkPublishContext {
  pc_run_id : UUID;
  pc_state : RunState;
  pc_cancel_requested : bool;
  pc_head_sha : pystr;
  pc_pr_head_sha : pystr;
  pc_pr_open : bool;
  pc_origin_active : bool;
  pc_installation_id : option Z;
  pc_repository_full_name : pystr;
  pc_pr_number : Z;
  pc_review_body : pystr;
  pc_findings : list PublishedFinding;
  pc_findings_hash : pystr;
  pc_provider : pystr;
  pc_project_id : Z;
  pc_workspace_id : option UUID;
  pc_vcs_input : option RunVcsInput;
  pc_identity : option PublicationIdentity
}.

Record ReviewPublishPointer : Type := mkReviewPublishPointer {
  rp_run_id : UUID;
  rp_head_sha : pystr;
  rp_findings_hash : pystr;
  rp_review_event : pystr
}.

(** ** Pinned publications *)

Definition projection_matches (c : PublishContext) : bool :=
  match pc_identity c with
  | None => false
  | Some i =>
      if negb (pc_origin_active c) then
        bool_decide (pc_installation_id c = None) && bool_decide (pc_workspace_id c = None)
        && bool_decide (pc_vcs_input c = None)
      else match pc_vcs_input c with
      | None => false
      | Some v =>
          let l := vi_locator v in
          bool_decide (pc_installation_id c = Some (pi_origin_installation_external_id i))
          && bool_decide (pc_workspace_id c = Some (pi_origin_workspace_id i))
          && (vi_code_change_id v =? pi_code_change_id i)%N
          && (vi_repository_id v =? pi_repository_id i)%N
          && (vi_head_sha v =?s pc_head_sha c) && (vi_base_sha v =?s pi_base_sha i)
          && bool_decide (lo_origin_provider_installation_id l
                          = Some (pi_origin_provider_installation_id i))
          && (lo_installation_external_id l =? pi_origin_installation_external_id i)
          && (lo_provider l =?s pi_origin_provider i)
          && bool_decide (lo_repository_external_id l = Some (pc_project_id c))
          && (lo_repository_full_name l =?s pc_repository_full_name c)
          && (lo_number l =? pc_pr_number c)
          && (pc_provider c =?s pi_origin_provider i)
      end
  end.

Definition publication_matches (expected current : PublishContext) : bool :=
  projection_matches expected && projection_matches current
  && bool_decide (pc_identity expected = pc_identity current)
  && (pc_run_id expected =? pc_run_id current)%N
  && (pc_head_sha expected =?s pc_head_sha current)
  && (pc_findings_hash expected =?s pc_findings_hash current)
  && (pc_review_body expected =?s pc_review_body current)
  && bool_decide (pc_findings expected = pc_findings current)
  && (negb (pc_origin_active expected) || negb (pc_origin_active current)
      || bool_decide (pc_vcs_input expected = pc_vcs_input current))
  && (pc_provider expected =?s pc_provider current)
  && (pc_repository_full_name expected =?s pc_repository_full_name current)
  && (pc_pr_number expected =? pc_pr_number current)
  && (pc_project_id expected =? pc_project_id current).

Definition context_cancellation (c : PublishContext) (head : pystr) : option pystr :=
  cancellation_reason (pc_pr_open c) (head =?s pc_pr_head_sha c) (pc_cancel_requested c).

Inductive checkpoint_end : Type :=
| CheckpointPassed
| CheckpointObsolete
| CheckpointCancelled (reason : pystr).

(** The checkpoint of an installed execution against what is stored now. *)
Definition publication_checkpoint (expected : PublishContext) (p : ReviewPublishPointer)
    (current : option PublishContext) : checkpoint_end :=
  match current with
  | None => CheckpointObsolete
  | Some c =>
      if negb (bool_decide (pc_state c = Publishing)) then CheckpointObsolete
      else match context_cancellation c (pc_head_sha expected) with
      | Some reason => CheckpointCancelled reason
      | None =>
          if negb (pc_origin_active c) then CheckpointCancelled (u8 "installation_unavailable")
          else if negb (publication_matches expected c)
                  || negb ((pc_head_sha c =?s rp_head_sha p)
                           && (pc_findings_hash c =?s rp_findings_hash p))
          then CheckpointObsolete else CheckpointPassed
      end
  end.

(** ** Routes *)

Record PublicationRoute : Type := mkPublicationRoute {
  ro_gitlab : bool;
  ro_tool : pystr;
  ro_error_prefix : pystr;
  ro_writes_check_run : bool;
  ro_project_id : option Z;
  ro_bitbucket : bool
}.

Definition publication_route (provider : pystr) (project_id : Z) : option PublicationRoute :=
  if provider =?s u8 "gitlab" then
    Some (mkPublicationRoute true (u8 "gitlab.publish_review") (u8 "gitlab") false (Some project_id) false)
  else if provider =?s u8 "github" then
    Some (mkPublicationRoute false (u8 "github.publish_review") (u8 "github") true None false)
  else if provider =?s u8 "bitbucket" then
    Some (mkPublicationRoute false (u8 "bitbucket.publish_review") (u8 "bitbucket") false None true)
  else None.

(** Which gateways the publisher was given. *)
Record Gateways : Type := mkGateways {
  gw_reviews : bool;
  gw_gitlab_reviews : bool;
  gw_gitlab_publications : bool;
  gw_bitbucket_publications : bool
}.

Definition gateway_ready (g : Gateways) (route : PublicationRoute) : bool :=
  if ro_bitbucket route then gw_bitbucket_publications g
  else if ro_gitlab route then gw_gitlab_reviews g || gw_gitlab_publications g
  else gw_reviews g.

(** ** One publication *)

Record ReviewSubmission : Type := mkReviewSubmission {
  su_installation_id : Z;
  su_repository_full_name : pystr;
  su_pr_number : Z;
  su_commit_sha : pystr;
  su_event : pystr;
  su_body : pystr;
  su_findings : list PublishedFinding;
  su_findings_hash : pystr
}.

Record SubmittedReview : Type := mkSubmittedReview {
  sr_review_id : Z;
  sr_comment_ids : list Z;
  sr_posted_inline : option (list UUID)
}.

Inductive publish_error_kind : Type :=
| Err_retryable | Err_forbidden | Err_coordinates | Err_stale_commit.
#[export] Instance publish_error_kind_eq_dec : EqDecision publish_error_kind.
Proof. solve_decision. Defined.

Record PublishError : Type := mkPublishError {
  er_kind : publish_error_kind;
  er_message : pystr;
  er_retry_after : option Z;
  er_unposted : option (list PublishedFinding)
}.

(** What one try ends with. *)
Inductive submit_result : Type :=
| Submitted (r : SubmittedReview)
| Refused (e : PublishError)
| SubmitCancelled (text : pystr)
| SubmitObsolete.

Definition PUBLISH_RETRY_PAUSES : list Z := [seconds 2; seconds 8; seconds 30].
Definition MAX_RETRY_AFTER : Z := seconds 60.

Definition move_inline_to_body (body : pystr) (findings : list PublishedFinding) : pystr :=
  match findings with
  | [] => body
  | _ => join [LF] ([body; []; u8 "## Inline findings"]
           ++ ((λ f, u8 "- **" ++ pf_title f ++ u8 "** (`" ++ pf_path f ++ u8 ":"
                     ++ str_of_Z (pf_line f) ++ u8 "`): " ++ pf_body f) <$> findings))
  end.

Definition finding_ids (fs : list PublishedFinding) : list UUID := omap pf_finding_id fs.

(** The set is kept as a list without repetitions. *)
Definition moved_to_body_finding_ids (context_findings : list PublishedFinding)
    (fallback_moved : list UUID) (posted_inline : option (list UUID)) : list UUID :=
  match posted_inline with
  | None => remove_dups fallback_moved
  | Some posted =>
      remove_dups (fallback_moved
                   ++ List.filter (λ i, negb (bool_decide (i ∈ posted))) (finding_ids context_findings))
  end.

(** The locals of the loop of tries. *)
Record PublishLoop : Type := mkPublishLoop {
  pl_submission : ReviewSubmission;
  pl_moved : list UUID;
  pl_fallback_done : bool;
  pl_retries : nat;
  pl_try_no : nat;
  pl_slept : list Z
}.

Inductive publish_end : Type :=
| PE_finish (state : RunState) (code : pystr) (message : option pystr)
| PE_complete (r : SubmittedReview) (moved : list UUID) (fallback_done : bool)
| PE_obsolete.

Definition known_cancellation (text : pystr) : pystr :=
  if str_mem text [u8 "pr_closed"; u8 "superseded"; u8 "cancelled_by_user"; u8 "installation_unavailable"]
  then text else u8 "installation_unavailable".

Definition without_findings (su : ReviewSubmission) (remaining : list PublishedFinding)
  : ReviewSubmission :=
  mkReviewSubmission (su_installation_id su) (su_repository_full_name su) (su_pr_number su)
    (su_commit_sha su) (su_event su) (move_inline_to_body (su_body su) remaining) []
    (su_findings_hash su).

Definition publish_body (route : PublicationRoute) (submit : nat → ReviewSubmission → submit_result)
    (l : PublishLoop) : PublishLoop + (nat * list Z * ReviewSubmission * publish_end) :=
  let try_no := S (pl_try_no l) in
  let stop e := inr (try_no, pl_slept l, pl_submission l, e) in
  match submit try_no (pl_submission l) with
  | SubmitObsolete => stop PE_obsolete
  | SubmitCancelled text => stop (PE_finish Cancelled (known_cancellation text) None)
  | Submitted r => stop (PE_complete r (pl_moved l) (pl_fallback_done l))
  | Refused e =>
      if bool_decide (er_kind e = Err_coordinates) && negb (pl_fallback_done l) then
        let remaining := default (su_findings (pl_submission l)) (er_unposted e) in
        inl (mkPublishLoop (without_findings (pl_submission l) remaining) (finding_ids remaining)
               true (pl_retries l) try_no (pl_slept l))
      else if bool_decide (er_kind e = Err_stale_commit) then
        stop (PE_finish Cancelled (u8 "superseded") None)
      else if bool_decide (er_kind e = Err_forbidden) then
        stop (PE_finish Failed (ro_error_prefix route ++ u8 "_forbidden") (Some (er_message e)))
      else
        match (if bool_decide (er_kind e = Err_retryable)
               then PUBLISH_RETRY_PAUSES !! pl_retries l else None) with
        | Some pause =>
            let pause := match er_retry_after e with
                         | Some r => if r <=? MAX_RETRY_AFTER then r else pause
                         | None => pause
                         end in
            inl (mkPublishLoop (pl_submission l) (pl_moved l) (pl_fallback_done l)
                   (S (pl_retries l)) try_no (pl_slept l ++ [pause]))
        | None =>
            stop (PE_finish Failed (ro_error_prefix route ++ u8 "_publish_failed")
                    (Some (er_message e)))
        end
  end.

Definition publish_start (su : ReviewSubmission) : PublishLoop := mkPublishLoop su [] false 0 0 [].

(** The loop, with fuel for eight tries: see [publish_loop_total]. *)
Definition publish_loop (route : PublicationRoute) (submit : nat → ReviewSubmission → submit_result)
    (su : ReviewSubmission) : PublishLoop + (nat * list Z * ReviewSubmission * publish_end) :=
  iterate (publish_body route submit) 3 (publish_start su).

(** ** The consumer *)

(** What a pointer comes to before any try: nothing, an end of the run, or a submission. *)
Inductive publish_plan : Type :=
| Plan_ignore
| Plan_finish (code : pystr) (check_run : bool)
| Plan_submit (route : PublicationRoute) (su : ReviewSubmission)
| Plan_raise.

Definition installed (g : Gateways) (c : PublishContext) : bool :=
  let persisted := match pc_identity c with
                   | Some i => pi_origin_provider i
                   | None => pc_provider c
                   end in
  ((persisted =?s u8 "gitlab") && gw_gitlab_publications g)
  || ((persisted =?s u8 "bitbucket") && gw_bitbucket_publications g).

Definition pointer_current (c : PublishContext) (p : ReviewPublishPointer) : bool :=
  (pc_head_sha c =?s rp_head_sha p) && (pc_findings_hash c =?s rp_findings_hash p).

Definition plan (g : Gateways) (context : option PublishContext) (p : ReviewPublishPointer)
  : publish_plan :=
  match context with
  | None => Plan_ignore
  | Some c =>
      if negb (bool_decide (pc_state c = Publishing)) then Plan_ignore
      else if installed g c && negb (pointer_current c p) then Plan_ignore
      else if negb (pc_origin_active c) then Plan_finish (u8 "installation_unavailable") false
      else if negb (pointer_current c p) then Plan_ignore
      else match publication_route (pc_provider c) (pc_project_id c) with
      | None => Plan_ignore
      | Some route =>
          if negb (gateway_ready g route) then Plan_ignore
          else match context_cancellation c (pc_head_sha c) with
          | Some reason => Plan_finish reason (ro_writes_check_run route)
          | None =>
              match pc_installation_id c with
              | None => Plan_raise
              | Some installation =>
                  Plan_submit route
                    (mkReviewSubmission installation (pc_repository_full_name c) (pc_pr_number c)
                       (pc_head_sha c) (rp_review_event p) (pc_review_body c) (pc_findings c)
                       (pc_findings_hash c))
              end
          end
      end
  end.

(** What the consumer then does to the run; [pinned] tells whether the transaction compares the
    rows with the context that was read. *)
Inductive publish_action : Type :=
| Act_none
| Act_raise
| Act_finish (state : RunState) (code : pystr) (message : option pystr) (check_run pinned : bool)
| Act_complete (review_id : Z) (comment_ids : list Z) (moved : list UUID) (check_run pinned : bool).

(** [opened]: the resources of an installed execution could be opened; otherwise its authority is
    gone and opening raised [RunCancelled]. *)
Definition publish_execute (g : Gateways) (context : option PublishContext)
    (p : ReviewPublishPointer) (opened : bool) (submit : nat → ReviewSubmission → submit_result)
  : publish_action :=
  let pinned := match context with Some c => installed g c | None => false end in
  match plan g context p with
  | Plan_ignore => Act_none
  | Plan_raise => Act_raise
  | Plan_finish code check_run => Act_finish Cancelled code None check_run pinned
  | Plan_submit route su =>
      if pinned && negb opened
      then Act_finish Cancelled (u8 "installation_unavailable") None false true
      else match publish_loop route submit su with
      | inl _ => Act_none
      | inr (_, _, _, PE_obsolete) => Act_none
      | inr (_, _, _, PE_finish state code message) =>
          Act_finish state code message (ro_writes_check_run route) pinned
      | inr (_, _, _, PE_complete r moved fallback_done) =>
          Act_complete (sr_review_id r)
            (if ro_gitlab route || ro_bitbucket route then [] else sr_comment_ids r)
            (if fallback_done then moved
             else moved_to_body_finding_ids (su_findings su) moved (sr_posted_inline r))
            (ro_writes_check_run route) pinned
      end
  end.

(** The transaction of the action; [matches] compares the locked rows with the context. *)
Definition publish_txn (id : UUID) (hash : pystr) (matches : Run → CodeChange → bool) (now : Z)
    (act : publish_action) (d : Db) : Db :=
  match act with
  | Act_none | Act_raise => d
  | Act_finish state code message _ pinned =>
      fst (finish id Publishing None state (Some code) message now
             (if pinned then Some matches else None) d)
  | Act_complete review_id comment_ids moved _ pinned =>
      fst (complete_publication id review_id comment_ids hash moved now
             (if pinned then Some matches else None) d)
  end.

(** ** Facts *)

Lemma context_cancellation_none c head :
  context_cancellation c head = None
  ↔ pc_pr_open c = true ∧ head = pc_pr_head_sha c ∧ pc_cancel_requested c = false.
Proof.
  unfold context_cancellation, cancellation_reason. rewrite <- str_eqb_eq.
  destruct (pc_pr_open c), (head =?s _), (pc_cancel_requested c); cbn; naive_solver.
Qed.

(** The submissions of one publication differ in nothing but what the fallback moved. *)
Definition same_target (su su' : ReviewSubmission) : Prop :=
  su_installation_id su' = su_installation_id su
  ∧ su_repository_full_name su' = su_repository_full_name su
  ∧ su_pr_number su' = su_pr_number su ∧ su_commit_sha su' = su_commit_sha su
  ∧ su_event su' = su_event su ∧ su_findings_hash su' = su_findings_hash su.

Record loop_ok (su : ReviewSubmission) (l : PublishLoop) : Prop := {
  lk_target : same_target su (pl_submission l);
  lk_fallback : pl_fallback_done l = false → pl_submission l = su ∧ pl_moved l = [];
  lk_findings : pl_fallback_done l = true → su_findings (pl_submission l) = [];
  lk_tries : (pl_try_no l = pl_retries l + (if pl_fallback_done l then 1 else 0))%nat;
  lk_retries : (pl_retries l ≤ 3)%nat;
  lk_slept : length (pl_slept l) = pl_retries l ∧ Forall (λ p, p ≤ MAX_RETRY_AFTER) (pl_slept l)
}.

(** Each try that does not end the loop uses up a retry or the fallback. *)
Definition publish_measure (l : PublishLoop) : Z :=
  4 - Z.of_nat (pl_retries l) - (if pl_fallback_done l then 1 else 0).

Lemma pause_bound n p : PUBLISH_RETRY_PAUSES !! n = Some p → (n < 3)%nat ∧ p ≤ MAX_RETRY_AFTER.
Proof.
  intros H. pose proof (lookup_lt_Some _ _ _ H) as Hl. split; [exact Hl|].
  do 3 (destruct n as [|n]; [cbn in H; simplify_eq; by vm_compute|]). cbn in Hl. lia.
Qed.

Lemma publish_body_step route submit su l l' :
  loop_ok su l → publish_body route submit l = inl l' →
  loop_ok su l' ∧ 0 ≤ publish_measure l' < publish_measure l.
Proof.
  intros [H1 H2 H3 H4 H5 [H6 H7]]. unfold publish_body. cbv zeta.
  destruct (submit _ _) as [r|e|text|]; try done.
  destruct (_ && _) eqn:E1.
  { apply andb_true_iff in E1 as [_ E1]. apply negb_true_iff in E1.
    intros [= <-]. destruct (H2 E1) as [-> _]. split.
    - constructor; cbn; try done. rewrite H4, E1. lia.
    - unfold publish_measure. cbn. rewrite E1. lia. }
  destruct (bool_decide (er_kind e = Err_stale_commit)); [done|].
  destruct (bool_decide (er_kind e = Err_forbidden)); [done|].
  destruct (if bool_decide _ then _ else None) as [pause|] eqn:E2; [|done].
  destruct (bool_decide (er_kind e = Err_retryable)); [|done].
  apply pause_bound in E2 as [E2 E3]. intros [= <-]. split.
  - constructor; cbn; try done; try lia. rewrite length_app, H6. cbn. split; [lia|].
    apply Forall_app. split; [done|]. constructor; [|constructor].
    destruct (er_retry_after e); [|done]. destruct (_ <=? _) eqn:E4; [|done]. by apply Z.leb_le.
  - unfold publish_measure. cbn. destruct (pl_fallback_done l); lia.
Qed.

Lemma publish_start_ok su : loop_ok su (publish_start su).
Proof. constructor; cbn; try done; try lia. Qed.

(** The result of the last try, from a state of the loop. *)
Definition end_ok (su : ReviewSubmission) (r : nat * list Z * ReviewSubmission * publish_end) : Prop :=
  let '(tries, slept, sent, e) := r in
  (1 ≤ tries ≤ 5)%nat ∧ (length slept ≤ 3)%nat ∧ Forall (λ p, p ≤ MAX_RETRY_AFTER) slept
  ∧ same_target su sent
  ∧ match e with
    | PE_finish state _ _ => state = Failed ∨ state = Cancelled
    | PE_complete _ moved fallback_done =>
        if fallback_done then su_findings sent = [] else sent = su ∧ moved = []
    | PE_obsolete => True
    end.

Lemma publish_body_end route submit su l r :
  loop_ok su l → publish_body route submit l = inr r → end_ok su r.
Proof.
  intros [H1 H2 H3 H4 H5 [H6 H7]]. unfold publish_body. cbv zeta.
  assert (Ht : (1 ≤ S (pl_try_no l) ≤ 5)%nat) by (destruct (pl_fallback_done l); lia).
  repeat case_match; intros; simplify_eq; cbn;
    (split; [exact Ht|split; [lia|split; [exact H7|split; [exact H1|]]]]); auto.
Qed.

Lemma publish_loop_total route submit su :
  ∃ r, publish_loop route submit su = inr r ∧ end_ok su r.
Proof.
  destruct (iterate_total (publish_body route submit) (loop_ok su) publish_measure 3
              (publish_start su)) as (r & Hr & He).
  - intros l l'. apply publish_body_step.
  - apply publish_start_ok.
  - by vm_compute.
  - exists r. split; [exact Hr|].
    eapply (ends_ind_inv _ (loop_ok su)); [|apply publish_body_end|apply publish_start_ok|done].
    intros l l' Hl Hb. by eapply publish_body_step.
Qed.

(** ** Properties *)

(** Publishing ends, after at most five tries (the first, three retries, one fallback) and
    three pauses of at most a minute each, whatever the provider answers to each try; the review
    that was sent last is for the same commit, pull request, event and hash; a run is then
    completed, failed or cancelled, or left to a newer publication, and a completed review was the
    planned one with nothing moved, or, after the fallback, one without inline comments. *)
Theorem publish_loop_bounded route submit su :
  ∃ tries slept sent e, publish_loop route submit su = inr (tries, slept, sent, e)
  ∧ (1 ≤ tries ≤ 5)%nat ∧ (length slept ≤ 3)%nat ∧ Forall (λ p, p ≤ MAX_RETRY_AFTER) slept
  ∧ same_target su sent
  ∧ match e with
    | PE_finish state _ _ => state = Failed ∨ state = Cancelled
    | PE_complete _ moved fallback_done =>
        if fallback_done then su_findings sent = [] else sent = su ∧ moved = []
    | PE_obsolete => True
    end.
Proof.
  destruct (publish_loop_total route submit su) as ([[[tries slept] sent] e] & H & He).
  exists tries, slept, sent, e. by split.
Qed.

(** Both sides of the equivalence fail. *)
#[local] Ltac no_plan :=
  split; [discriminate|]; intros (c' & [= <-] & ? & ? & ? & ? & ? & ? & ? & ? & ? & i & ? & ?);
  congruence.

(** Only a current review is submitted: a pointer leads to a submission exactly when its run
    is publishing with an active origin, the stored head and findings hash are the pointer's, the
    pull request is open at that head with no cancellation, and the provider has a route with a
    gateway; what is submitted is then the stored body and findings at that head, with the
    pointer's event. *)
Theorem plan_submits_current g context p route su :
  plan g context p = Plan_submit route su
  ↔ ∃ c, context = Some c ∧ pc_state c = Publishing ∧ pc_origin_active c = true
      ∧ pc_head_sha c = rp_head_sha p ∧ pc_findings_hash c = rp_findings_hash p
      ∧ pc_pr_open c = true ∧ pc_pr_head_sha c = pc_head_sha c ∧ pc_cancel_requested c = false
      ∧ publication_route (pc_provider c) (pc_project_id c) = Some route
      ∧ gateway_ready g route = true
      ∧ ∃ i, pc_installation_id c = Some i
          ∧ su = mkReviewSubmission i (pc_repository_full_name c) (pc_pr_number c)
                   (rp_head_sha p) (rp_review_event p) (pc_review_body c) (pc_findings c)
                   (rp_findings_hash p).
Proof.
  unfold plan. destruct context as [c|]; [|split; [discriminate|by intros (c & [=] & _)]].
  destruct (bool_decide (pc_state c = Publishing)) eqn:E1; to_prop; cbn [negb]; [|no_plan].
  assert (Hp : pointer_current c p = true
               ↔ pc_head_sha c = rp_head_sha p ∧ pc_findings_hash c = rp_findings_hash p).
  { unfold pointer_current. by rewrite andb_true_iff, !str_eqb_eq. }
  destruct (pointer_current c p) eqn:E2; cbn [negb].
  2:{ rewrite andb_true_r. destruct (installed g c), (pc_origin_active c); cbn [negb];
        (split; [done|]); intros (c' & [= <-] & _ & _ & Hh & Hf & _);
        discriminate (proj2 Hp (conj Hh Hf)). }
  rewrite andb_false_r. destruct (proj1 Hp eq_refl) as [Hh Hf].
  destruct (pc_origin_active c) eqn:E3; cbn [negb]; [|no_plan].
  destruct (publication_route _ _) as [rt|] eqn:E4; [|no_plan].
  destruct (gateway_ready g rt) eqn:E5; cbn [negb]; [|no_plan].
  pose proof (context_cancellation_none c (pc_head_sha c)) as Hc.
  destruct (context_cancellation c (pc_head_sha c)) as [reason|].
  { split; [done|]. intros (c' & [= <-] & _ & _ & _ & _ & A & B & C & _).
    assert (Some reason = None) by (apply Hc; auto). done. }
  destruct (proj1 Hc eq_refl) as (A & B & C).
  destruct (pc_installation_id c) as [i|] eqn:E6; [|no_plan].
  rewrite Hh, Hf. split.
  - intros [= -> <-]. exists c. by repeat (split; [congruence|]); exists i.
  - intros (c' & Ec & _ & _ & _ & _ & _ & _ & _ & Er & _ & j & Hj & ->). by simplify_eq.
Qed.
