(* ===== verification/Coordinates.v ===== *)
(** * Provider coordinates of inline comments ([publication_coordinates.py])

    Where a finding is posted: the [position] of a GitLab discussion, with its [line_code]s, and
    the side of a Bitbucket inline comment, both taken from the diff map the run pinned.  The
    theorems relate them to the anchor the finding was validated with: GitLab is told the old line
    exactly for context rows and the cursors of the very rows of the range; Bitbucket gets exactly
    one side, and every anchored finding keeps its anchor. *)

From Stdlib Require Import String QArith.
From S2P Require Import Prelude PyText PyHash UnifiedDiff DiffMap DiffAnchor Verdict Publication.
#[local] Open Scope Z_scope.

(** [AssertionError], [KeyError] and the [UnicodeEncodeError] of a path. *)
Inductive CoordinateError : Type :=
| Coord_assert
| Coord_key (key : pystr)
| Coord_encode.

(** ** Updates of a finding *)

Definition set_gitlab_old_path (f : PublishedFinding) (p : option pystr) : PublishedFinding :=
  mkPublishedFinding (pf_path f) (pf_line f) (pf_start_line f) (pf_severity f) (pf_category f)
    (pf_title f) (pf_body f) (pf_suggestion f) (pf_confidence f) (pf_rule_name f)
    p (pf_gitlab_old_line f) (pf_gitlab_old_line_only f)
    (pf_gitlab_range_start_code f) (pf_gitlab_range_end_code f)
    (pf_gitlab_range_start_is_added f) (pf_gitlab_range_end_is_added f)
    (pf_gitlab_range_start_old_line f) (pf_gitlab_range_end_old_line f)
    (pf_finding_id f) (pf_bitbucket_old_line f) (pf_bitbucket_anchor_valid f).

Definition set_gitlab_old_line (f : PublishedFinding) (o : option Z) : PublishedFinding :=
  mkPublishedFinding (pf_path f) (pf_line f) (pf_start_line f) (pf_severity f) (pf_category f)
    (pf_title f) (pf_body f) (pf_suggestion f) (pf_confidence f) (pf_rule_name f)
    (pf_gitlab_old_path f) o (pf_gitlab_old_line_only f)
    (pf_gitlab_range_start_code f) (pf_gitlab_range_end_code f)
    (pf_gitlab_range_start_is_added f) (pf_gitlab_range_end_is_added f)
    (pf_gitlab_range_start_old_line f) (pf_gitlab_range_end_old_line f)
    (pf_finding_id f) (pf_bitbucket_old_line f) (pf_bitbucket_anchor_valid f).

Definition set_gitlab_range (f : PublishedFinding) (start_code end_code : pystr)
    (start_row end_row : DiffRow) : PublishedFinding :=
  mkPublishedFinding (pf_path f) (pf_line f) (pf_start_line f) (pf_severity f) (pf_category f)
    (pf_title f) (pf_body f) (pf_suggestion f) (pf_confidence f) (pf_rule_name f)
    (pf_gitlab_old_path f) (pf_gitlab_old_line f) (pf_gitlab_old_line_only f)
    (Some start_code) (Some end_code)
    (Some (kind_eqb Row_added start_row)) (Some (kind_eqb Row_added end_row))
    (dr_old_line start_row) (dr_old_line end_row)
    (pf_finding_id f) (pf_bitbucket_old_line f) (pf_bitbucket_anchor_valid f).

Definition set_bitbucket (f : PublishedFinding) (old_line : option Z) (valid : bool)
  : PublishedFinding :=
  mkPublishedFinding (pf_path f) (pf_line f) (pf_start_line f) (pf_severity f) (pf_category f)
    (pf_title f) (pf_body f) (pf_suggestion f) (pf_confidence f) (pf_rule_name f)
    (pf_gitlab_old_path f) (pf_gitlab_old_line f) (pf_gitlab_old_line_only f)
    (pf_gitlab_range_start_code f) (pf_gitlab_range_end_code f)
    (pf_gitlab_range_start_is_added f) (pf_gitlab_range_end_is_added f)
    (pf_gitlab_range_start_old_line f) (pf_gitlab_range_end_old_line f)
    (pf_finding_id f) old_line valid.

(** ** GitLab positions *)

(** One corner of a [line_range]: [new] for an added row, [old] otherwise. *)
Definition line_range_endpoint (line_code : pystr) (is_added : bool) (old_line : option Z)
    (new_line : Z) : json :=
  if is_added
  then JObj [(u8 "line_code", JStr line_code); (u8 "type", JStr (u8 "new"));
             (u8 "new_line", JInt new_line)]
  else JObj ([(u8 "line_code", JStr line_code); (u8 "type", JStr (u8 "old"));
              (u8 "new_line", JInt new_line)]
             ++ match old_line with Some o => [(u8 "old_line", JInt o)] | None => [] end).

Definition gitlab_line_code (provider_file_path : pystr) (old_cursor new_cursor : Z)
  : result CoordinateError pystr :=
  match sha1_text provider_file_path with
  | None => Err Coord_encode
  | Some digest => Ok (digest ++ u8 "_" ++ str_of_Z old_cursor ++ u8 "_" ++ str_of_Z new_cursor)
  end.

(** [version[key]] *)
Definition version_sha (version : list (pystr * pystr)) (key : pystr)
  : result CoordinateError pystr :=
  match assoc key version with Some sha => Ok sha | None => Err (Coord_key key) end.

(** The pairs of the dict in the order they are set. *)
Definition gitlab_line_range (f : PublishedFinding) : list (pystr * json) :=
  match pf_start_line f, pf_gitlab_range_start_code f, pf_gitlab_range_end_code f with
  | Some start_line, Some start_code, Some end_code =>
      [(u8 "line_range",
        JObj [(u8 "start",
               line_range_endpoint start_code
                 (bool_decide (pf_gitlab_range_start_is_added f = Some true))
                 (pf_gitlab_range_start_old_line f) start_line);
              (u8 "end",
               line_range_endpoint end_code
                 (bool_decide (pf_gitlab_range_end_is_added f = Some true))
                 (pf_gitlab_range_end_old_line f) (pf_line f))])]
  | _, _, _ => []
  end.

Definition gitlab_lines (f : PublishedFinding) : list (pystr * json) :=
  if pf_gitlab_old_line_only f
  then [(u8 "old_line", JInt (default (pf_line f) (pf_gitlab_old_line f)))]
  else [(u8 "new_line", JInt (pf_line f))]
       ++ match pf_gitlab_old_line f with Some o => [(u8 "old_line", JInt o)] | None => [] end
       ++ gitlab_line_range f.

Definition gitlab_text_position (version : list (pystr * pystr)) (f : PublishedFinding)
  : result CoordinateError json :=
  base_sha ← version_sha version (u8 "base_commit_sha");
  start_sha ← version_sha version (u8 "start_commit_sha");
  head_sha ← version_sha version (u8 "head_commit_sha");
  Ok (JObj ([(u8 "position_type", JStr (u8 "text")); (u8 "base_sha", JStr base_sha);
             (u8 "start_sha", JStr start_sha); (u8 "head_sha", JStr head_sha);
             (u8 "old_path", JStr (default (pf_path f) (pf_gitlab_old_path f)));
             (u8 "new_path", JStr (pf_path f))]
            ++ gitlab_lines f)).

(** ** Rows of the map *)

Definition provider_file_path (file : DiffFile) : result CoordinateError pystr :=
  match py_or (df_provider_new_path file) (df_provider_old_path file) with
  | Some path => Ok path
  | None => Err Coord_assert
  end.

(** [_file_for_new_path] is [file_with_new_path] of the anchors: the same generator expression. *)
Definition file_for_new_path (m : DiffMap) (path : pystr) : option DiffFile :=
  find_first (λ item, ostr_eqb (df_new_path item) (Some path)) (dm_files m).

(** The first row of the file, hunk by hunk. *)
Definition row_for_new_line (file : DiffFile) (line : Z) : option DiffRow :=
  find_first (λ row, bool_decide (dr_new_line row = Some line)) (concat (map dh_rows (df_hunks file))).
Definition row_for_old_line (file : DiffFile) (line : Z) : option DiffRow :=
  find_first (λ row, bool_decide (dr_old_line row = Some line)) (concat (map dh_rows (df_hunks file))).

(** ** Filling in the coordinates *)

Definition nonempty (s : pystr) : bool := negb (s =?s []).

(** The old path is sent when the provider names two different ones. *)
Definition with_old_path (file : DiffFile) (f : PublishedFinding) : PublishedFinding :=
  match df_provider_old_path file, py_or (df_provider_new_path file) (df_new_path file) with
  | Some old_provider, Some new_provider =>
      if nonempty old_provider && nonempty new_provider && negb (old_provider =?s new_provider)
      then set_gitlab_old_path f (Some old_provider) else f
  | _, _ => f
  end.

(** [finding.gitlab_old_line or finding.line] *)
Definition old_line_or_line (f : PublishedFinding) : Z :=
  match pf_gitlab_old_line f with
  | Some o => if o =? 0 then pf_line f else o
  | None => pf_line f
  end.

(** A context row also has an old line. *)
Definition with_line (end_row : DiffRow) (f : PublishedFinding) : PublishedFinding :=
  match dr_old_line end_row with
  | Some o => if kind_eqb Row_context end_row then set_gitlab_old_line f (Some o) else f
  | None => f
  end.

Definition with_range (provider_path : pystr) (file : DiffFile) (end_row : DiffRow)
    (f : PublishedFinding) : result CoordinateError PublishedFinding :=
  match pf_start_line f with
  | None => Ok f
  | Some start_line =>
      match row_for_new_line file start_line with
      | None => Ok f
      | Some start_row =>
          start_code ← gitlab_line_code provider_path (dr_old_cursor start_row)
                         (dr_new_cursor start_row);
          end_code ← gitlab_line_code provider_path (dr_old_cursor end_row) (dr_new_cursor end_row);
          Ok (set_gitlab_range f start_code end_code start_row end_row)
      end
  end.

Definition enrich_gitlab_publication_finding (m : DiffMap) (f : PublishedFinding)
  : result CoordinateError PublishedFinding :=
  match file_for_new_path m (pf_path f) with
  | None => Ok f
  | Some file =>
      provider_path ← provider_file_path file;
      let f1 := with_old_path file f in
      if pf_gitlab_old_line_only f then
        Ok (match row_for_old_line file (old_line_or_line f), pf_gitlab_old_line f with
            | Some row, None => set_gitlab_old_line f1 (dr_old_line row)
            | _, _ => f1
            end)
      else
        match row_for_new_line file (pf_line f) with
        | None => Ok f1
        | Some end_row =>
            with_range provider_path file end_row (with_line end_row f1)
        end
  end.

Definition side_line (old_side : bool) (r : DiffRow) : option Z :=
  if old_side then dr_old_line r else dr_new_line r.

Definition same_hunk (f : PublishedFinding) (file : DiffFile) (row : DiffRow) (old_side : bool)
  : bool :=
  match pf_start_line f with
  | None => true
  | Some start_line =>
      py_any (λ hunk,
        bool_decide (row ∈ dh_rows hunk)
        && py_any (λ start, bool_decide (side_line old_side start = Some start_line))
             (dh_rows hunk)) (df_hunks file)
  end.

(** The loop over the files; the result of a file that decides. *)
Definition bitbucket_file (f : PublishedFinding) (file : DiffFile) : option PublishedFinding :=
  if negb (anchorable file) then None
  else
    let on_new_side :=
      ostr_eqb (df_new_path file) (Some (pf_path f))
      && match row_for_new_line file (pf_line f) with
         | Some row => negb (kind_eqb Row_removed row) && same_hunk f file row false
         | None => false
         end in
    let on_old_side :=
      bool_decide (df_new_path file = None) && ostr_eqb (df_old_path file) (Some (pf_path f))
      && match row_for_old_line file (pf_line f) with
         | Some row => kind_eqb Row_removed row && same_hunk f file row true
         | None => false
         end in
    if on_new_side then Some (set_bitbucket f None (pf_bitbucket_anchor_valid f))
    else if on_old_side
    then Some (set_bitbucket f (Some (pf_line f)) (pf_bitbucket_anchor_valid f))
    else None.

Fixpoint bitbucket_files (f : PublishedFinding) (files : list DiffFile) : PublishedFinding :=
  match files with
  | [] => set_bitbucket f (pf_bitbucket_old_line f) false
  | file :: rest => match bitbucket_file f file with Some f' => f' | None => bitbucket_files f rest end
  end.

Definition enrich_bitbucket_publication_finding (m : option DiffMap) (f : PublishedFinding)
  : PublishedFinding :=
  match m with
  | None => set_bitbucket f (pf_bitbucket_old_line f) false
  | Some m => bitbucket_files f (dm_files m)
  end.

(** * What the coordinates mean *)

(** The row of a new-side line: there is no other. *)
Definition only_row (file : DiffFile) (line : Z) (r : DiffRow) : Prop :=
  In r (rows_of file) ∧ dr_new_line r = Some line
  ∧ ∀ r', In r' (rows_of file) → dr_new_line r' = Some line → r' = r.

(** Rows whose numbers on a side increase strictly have one row of each number. *)
Lemma increasing_one_row (g : DiffRow → option Z) rows r r' n :
  StronglySorted Z.lt (omap g rows) → In r rows → In r' rows →
  g r = Some n → g r' = Some n → r = r'.
Proof.
  assert (Hin : ∀ x l y, In y l → g y = Some x → x ∈ omap g l).
  { intros x l y Hy E. apply list_elem_of_omap. exists y. by rewrite list_elem_of_In. }
  induction rows as [|x rows IH]; [done|]. intros Hs Hr Hr' E E'.
  destruct Hr as [->|Hr], Hr' as [->|Hr']; [done| | |].
  - cbn in Hs. rewrite E in Hs. inv Hs. pose proof (proj1 (List.Forall_forall _ _) H2 n).
    assert (n < n); [|lia]. apply H, list_elem_of_In. by eapply Hin.
  - cbn in Hs. rewrite E' in Hs. inv Hs. pose proof (proj1 (List.Forall_forall _ _) H2 n).
    assert (n < n); [|lia]. apply H, list_elem_of_In. by eapply Hin.
  - apply IH; try done. cbn in Hs. destruct (g x); [by inv Hs|done].
Qed.

Lemma only_row_found file line r :
  diff_file_wf file → In r (rows_of file) → dr_new_line r = Some line →
  row_for_new_line file line = Some r ∧ only_row file line r.
Proof.
  intros Hf Hr E. pose proof (fwf_hunks _ Hf) as Ho.
  apply hunks_new_increasing in Ho as [Hs _].
  assert (Hu : ∀ r', In r' (rows_of file) → dr_new_line r' = Some line → r' = r).
  { intros r' Hr' E'. by eapply increasing_one_row. }
  split; [|done]. unfold row_for_new_line. fold (rows_of file).
  destruct (find_first _ _) as [r'|] eqn:Ef.
  - apply find_first_some in Ef as [H1 H2%bool_decide_eq_true]. f_equal. by apply Hu.
  - rewrite find_first_none in Ef. specialize (Ef r Hr). apply bool_decide_eq_false in Ef. done.
Qed.

Lemma hunk_row file h line :
  In h (df_hunks file) → line ∈ hunk_new_lines h →
  ∃ r, In r (dh_rows h) ∧ In r (rows_of file) ∧ dr_new_line r = Some line.
Proof.
  intros Hh (r & Hr & E)%list_elem_of_omap. apply list_elem_of_In in Hr. exists r. split_and!; try done.
  apply in_concat. exists (dh_rows h). split; [by apply in_map|done].
Qed.

Lemma file_row_hunk file r : In r (rows_of file) → ∃ h, In h (df_hunks file) ∧ In r (dh_rows h).
Proof. intros (rows & (h & <- & Hh)%in_map_iff & Hr)%in_concat. by exists h. Qed.

Lemma file_row_ok file r : diff_file_wf file → In r (rows_of file) → row_ok r.
Proof.
  intros Hf (h & Hh & Hr)%file_row_hunk. pose proof (fwf_hunks _ Hf) as Ho.
  pose proof (hunks_ordered_In _ _ _ _ Ho Hh) as [_ _ _ _ _ _ Hs].
  by apply (proj1 (List.Forall_forall _ _) Hs).
Qed.

(** ** GitLab *)

(** What the two ends of a range have to say about a row: its number on each side it exists on,
    in the line code too; the code of an added row has the number of the next old line. *)
Definition gitlab_corner (digest : pystr) (r : DiffRow) (line : Z) : json :=
  match dr_old_line r with
  | None => JObj [(u8 "line_code",
                   JStr (digest ++ u8 "_" ++ str_of_Z (dr_old_cursor r) ++ u8 "_" ++ str_of_Z line));
                  (u8 "type", JStr (u8 "new")); (u8 "new_line", JInt line)]
  | Some o => JObj [(u8 "line_code",
                     JStr (digest ++ u8 "_" ++ str_of_Z o ++ u8 "_" ++ str_of_Z line));
                    (u8 "type", JStr (u8 "old")); (u8 "new_line", JInt line);
                    (u8 "old_line", JInt o)]
  end.

Definition old_line_field (r : DiffRow) : list (pystr * json) :=
  match dr_old_line r with Some o => [(u8 "old_line", JInt o)] | None => [] end.

(** The range of a discussion on the lines from [s]. *)
Definition range_field (digest : pystr) (file : DiffFile) (h : DiffHunk) (r : DiffRow) (line : Z)
    (start_line : option Z) (fields : list (pystr * json)) : Prop :=
  match start_line with
  | None => fields = []
  | Some s => ∃ sr, only_row file s sr ∧ In sr (dh_rows h)
      ∧ fields = [(u8 "line_range", JObj [(u8 "start", gitlab_corner digest sr s);
                                          (u8 "end", gitlab_corner digest r line)])]
  end.

(** A finding as it leaves the store, without coordinates of its own. *)
Definition no_gitlab_coordinates (f : PublishedFinding) : Prop :=
  pf_gitlab_old_path f = None ∧ pf_gitlab_old_line f = None ∧ pf_gitlab_old_line_only f = false
  ∧ pf_gitlab_range_start_code f = None ∧ pf_gitlab_range_end_code f = None.

Lemma supported_path_facts p :
  is_supported_path p = true → p ≠ [] ∧ ∃ d, sha1_text p = Some d.
Proof.
  unfold is_supported_path, sha1_text. destruct (utf8_encode p) as [e|]; [|done].
  intros H. split; [|by eexists]. intros ->. done.
Qed.

Lemma row_cursors r n :
  row_ok r → dr_new_line r = Some n →
  dr_new_cursor r = n ∧ kind_eqb Row_added r = bool_decide (dr_old_line r = None)
  ∧ (∀ o, dr_old_line r = Some o → dr_old_cursor r = o ∧ kind_eqb Row_context r = true).
Proof.
  intros (Hr & Ha & Ho & Hn) E. rewrite E in Hn, Hr. split; [done|]. split.
  - unfold kind_eqb. by apply bool_decide_ext.
  - intros o Eo. rewrite Eo in Ho, Ha. split; [done|]. unfold kind_eqb. apply bool_decide_eq_true.
    destruct (dr_kind r) eqn:K; [done|..]; exfalso; naive_solver.
Qed.

Lemma corner_of_row digest r n :
  row_ok r → dr_new_line r = Some n →
  line_range_endpoint (digest ++ u8 "_" ++ str_of_Z (dr_old_cursor r) ++ u8 "_"
                       ++ str_of_Z (dr_new_cursor r))
    (kind_eqb Row_added r) (dr_old_line r) n
  = gitlab_corner digest r n.
Proof.
  intros Hr E. destruct (row_cursors r n Hr E) as (-> & -> & Ho).
  unfold line_range_endpoint, gitlab_corner.
  destruct (dr_old_line r) as [o|]; [|done]. by destruct (Ho o eq_refl) as [-> _].
Qed.

Lemma with_old_path_lines file f :
  gitlab_lines (with_old_path file f) = gitlab_lines f
  ∧ pf_path (with_old_path file f) = pf_path f ∧ pf_line (with_old_path file f) = pf_line f
  ∧ pf_start_line (with_old_path file f) = pf_start_line f
  ∧ pf_gitlab_old_line_only (with_old_path file f) = pf_gitlab_old_line_only f
  ∧ pf_gitlab_old_line (with_old_path file f) = pf_gitlab_old_line f
  ∧ pf_gitlab_range_start_code (with_old_path file f) = pf_gitlab_range_start_code f.
Proof. unfold with_old_path. by repeat case_match. Qed.

(** The old path GitLab is told: the file's, or the new one of a file that had none. *)
Lemma with_old_path_value file f p :
  diff_file_wf file → df_omission_reason file = None → df_new_path file = Some p →
  pf_path f = p → pf_gitlab_old_path f = None →
  default p (pf_gitlab_old_path (with_old_path file f)) = default p (df_old_path file).
Proof.
  intros Hf Hom Hp Ep Enone. destruct (fwf_identity _ Hf Hom) as [Eo En].
  destruct (supported_path_facts p (fwf_new_path _ Hf _ Hp)) as [Hne _].
  unfold with_old_path. rewrite <- Eo, <- En, Hp. destruct (df_old_path file) as [o|] eqn:Hold.
  - destruct (supported_path_facts o (fwf_old_path _ Hf _ Hold)) as [Hneo _].
    destruct p as [|c p]; [done|]. cbn [py_or].
    assert (nonempty o = true) as -> by (by destruct o).
    change (nonempty (c :: p)) with true. cbn [andb].
    destruct (o =?s c :: p) eqn:E; cbn [negb]; [|done].
    apply str_eqb_eq in E as ->. by rewrite Enone.
  - destruct p as [|c p]; [done|]. by rewrite Enone.
Qed.

Lemma provider_path_of file p :
  diff_file_wf file → df_omission_reason file = None → df_new_path file = Some p →
  provider_file_path file = Ok p.
Proof.
  intros Hf Hom Hp. destruct (fwf_identity _ Hf Hom) as [_ En].
  destruct (supported_path_facts p (fwf_new_path _ Hf _ Hp)) as [Hne _].
  unfold provider_file_path. rewrite <- En, Hp. by destruct p.
Qed.

Lemma anchorable_kept file : anchorable file = true → df_omission_reason file = None.
Proof. unfold anchorable. by intros [?%bool_decide_eq_true _]%andb_true_iff. Qed.

Lemma with_line_facts r f :
  row_ok r → dr_new_line r = Some (pf_line f) → pf_gitlab_old_line f = None →
  pf_gitlab_old_line (with_line r f) = dr_old_line r
  ∧ pf_gitlab_old_path (with_line r f) = pf_gitlab_old_path f
  ∧ pf_path (with_line r f) = pf_path f ∧ pf_line (with_line r f) = pf_line f
  ∧ pf_start_line (with_line r f) = pf_start_line f
  ∧ pf_gitlab_old_line_only (with_line r f) = pf_gitlab_old_line_only f.
Proof.
  intros Hr E En. destruct (row_cursors r _ Hr E) as (_ & _ & Ho). unfold with_line.
  destruct (dr_old_line r) as [o|]; [|by split_and!].
  by destruct (Ho o eq_refl) as [_ ->].
Qed.

(** [with_range] fills the range of rows it finds. *)
Lemma with_range_spec digest file f r sr s :
  row_ok r → row_ok sr → dr_new_line r = Some (pf_line f) → dr_new_line sr = Some s →
  sha1_text (pf_path f) = Some digest → pf_start_line f = Some s →
  pf_gitlab_old_line_only f = false →
  row_for_new_line file s = Some sr →
  ∃ f', with_range (pf_path f) file r f = Ok f'
    ∧ pf_path f' = pf_path f ∧ pf_gitlab_old_path f' = pf_gitlab_old_path f
    ∧ gitlab_lines f' =
        [(u8 "new_line", JInt (pf_line f))]
        ++ match pf_gitlab_old_line f with Some o => [(u8 "old_line", JInt o)] | None => [] end
        ++ [(u8 "line_range", JObj [(u8 "start", gitlab_corner digest sr s);
                                    (u8 "end", gitlab_corner digest r (pf_line f))])].
Proof.
  intros Hr Hsr E Es Hd Hs Ho Hrow. unfold with_range. rewrite Hs, Hrow.
  unfold gitlab_line_code. rewrite Hd. cbn [mbind result_bind].
  eexists. split; [reflexivity|]. split_and!; try done.
  rewrite <- (corner_of_row digest sr s Hsr Es), <- (corner_of_row digest r _ Hr E).
  unfold gitlab_lines, gitlab_line_range. cbn -[line_range_endpoint app u8]. rewrite Ho, Hs.
  by destruct (kind_eqb Row_added sr), (kind_eqb Row_added r).
Qed.

Lemma gitlab_position_fields version f base start head :
  assoc (u8 "base_commit_sha") version = Some base →
  assoc (u8 "start_commit_sha") version = Some start →
  assoc (u8 "head_commit_sha") version = Some head →
  gitlab_text_position version f =
  Ok (JObj ([(u8 "position_type", JStr (u8 "text")); (u8 "base_sha", JStr base);
             (u8 "start_sha", JStr start); (u8 "head_sha", JStr head);
             (u8 "old_path", JStr (default (pf_path f) (pf_gitlab_old_path f)));
             (u8 "new_path", JStr (pf_path f))] ++ gitlab_lines f)).
Proof. intros H1 H2 H3. unfold gitlab_text_position, version_sha. by rewrite H1, H2, H3. Qed.

(** The GitLab position of an anchored finding is exact.  It names the file's own old path,
    the new line, and the old line exactly when the row is a context row; a range has, for its two
    ends, the one row of each end line, both in the anchored hunk, with line codes made of that
    row's cursors.  Nothing is missing and filling it in cannot fail. *)
Theorem gitlab_position_exact m f version a base start head :
  map_wf m → no_gitlab_coordinates f →
  assoc (u8 "base_commit_sha") version = Some base →
  assoc (u8 "start_commit_sha") version = Some start →
  assoc (u8 "head_commit_sha") version = Some head →
  resolve_anchor m (pf_path f) (pf_start_line f) (pf_line f) = Ok (Anchored a) →
  ∃ f' file h r digest range,
    enrich_gitlab_publication_finding m f = Ok f'
    ∧ sha1_text (pf_path f) = Some digest
    ∧ file_with_new_path m (pf_path f) = Some file ∧ In h (df_hunks file)
    ∧ an_hunk_id a = dh_hunk_id h
    ∧ only_row file (pf_line f) r ∧ In r (dh_rows h)
    ∧ range_field digest file h r (pf_line f) (pf_start_line f) range
    ∧ gitlab_text_position version f' =
      Ok (JObj ([(u8 "position_type", JStr (u8 "text")); (u8 "base_sha", JStr base);
                 (u8 "start_sha", JStr start); (u8 "head_sha", JStr head);
                 (u8 "old_path", JStr (default (pf_path f) (df_old_path file)));
                 (u8 "new_path", JStr (pf_path f))]
                ++ [(u8 "new_line", JInt (pf_line f))] ++ old_line_field r ++ range)).
Proof.
  intros Hm (Hop & Hol & Hoo & Hsc & Hec) Hb Hs Hh Ha.
  assert (Hv : lines_invalid (pf_start_line f) (pf_line f) = false).
  { unfold resolve_anchor in Ha. by destruct (lines_invalid _ _). }
  pose proof (lines_valid _ _ Hv) as Hle.
  apply (resolve_anchor_sound m _ _ _ a Hm) in Ha as (file & h & (Hf & Hanc & Hin & Hall) & ->).
  pose proof (file_with_new_path_wf _ _ _ Hm Hf) as Hw.
  pose proof (anchorable_kept _ Hanc) as Hom.
  assert (Hnp : df_new_path file = Some (pf_path f)).
  { apply find_first_some in Hf as [_ Hf]. by apply ostr_eqb_eq in Hf. }
  destruct (supported_path_facts _ (fwf_new_path _ Hw _ Hnp)) as [_ [digest Hd]].
  destruct (hunk_row file h (pf_line f) Hin) as (r & Hrh & Hr & Er); [apply Hall; lia|].
  destruct (only_row_found file _ r Hw Hr Er) as [Hrow Honly].
  pose proof (file_row_ok _ _ Hw Hr) as Hrok.
  destruct (with_old_path_lines file f) as (_ & Ep & El & Est & Eoo & Eol & _).
  set (f1 := with_old_path file f) in *.
  destruct (with_line_facts r f1) as (L1 & L2 & L3 & L4 & L5 & L6); [done|congruence|congruence|].
  assert (Hdef : default (pf_path f) (pf_gitlab_old_path (with_line r f1))
                 = default (pf_path f) (df_old_path file)).
  { rewrite L2. by apply with_old_path_value. }
  assert (Henr : enrich_gitlab_publication_finding m f
                 = with_range (pf_path f) file r (with_line r f1)).
  { unfold enrich_gitlab_publication_finding. change (file_for_new_path m) with (file_with_new_path m).
    rewrite Hf, (provider_path_of file (pf_path f)) by done. cbn [mbind result_bind].
    by rewrite Hoo, Hrow. }
  destruct (pf_start_line f) as [s|] eqn:Hst.
  - destruct (hunk_row file h s Hin) as (sr & Hsh & Hsr & Esr); [apply Hall; cbn in Hle |- *; lia|].
    destruct (only_row_found file _ sr Hw Hsr Esr) as [Hsrow Hsonly].
    destruct (with_range_spec digest file (with_line r f1) r sr s) as (f' & E1 & E2 & E3 & E4);
      try done; try congruence.
    { by eapply file_row_ok. }
    eexists f', file, h, r, digest, _. split_and!; try done.
    + rewrite Henr, <- E1. f_equal. congruence.
    + exists sr. by split_and!.
    + rewrite (gitlab_position_fields _ _ base start head), E4, E2, E3 by done.
      rewrite L3, Ep, Hdef, L4, El, L1. done.
  - exists (with_line r f1), file, h, r, digest, []. split_and!; try done.
    + rewrite Henr. unfold with_range. by rewrite L5, Est.
    + rewrite (gitlab_position_fields _ _ base start head) by done. rewrite L3, Ep, Hdef.
      unfold gitlab_lines, gitlab_line_range. rewrite L6, Eoo, Hoo, L1, L5, Est, L4, El.
      unfold old_line_field. by destruct (dr_old_line r).
Qed.

(** ** Bitbucket *)

(** A place on the new side: all lines from the start line on, in one hunk of a usable file. *)
Definition new_side_place (m : DiffMap) (f : PublishedFinding) : Prop :=
  ∃ file h, In file (dm_files m) ∧ anchorable file = true
    ∧ df_new_path file = Some (pf_path f) ∧ In h (df_hunks file)
    ∧ pf_line f ∈ hunk_new_lines h
    ∧ ∀ n, default (pf_line f) (pf_start_line f) ≤ n ≤ pf_line f → n ∈ hunk_new_lines h.

(** A place on the old side: a removed row of a deleted file, in one hunk with the start line. *)
Definition old_side_place (m : DiffMap) (f : PublishedFinding) : Prop :=
  ∃ file h r, In file (dm_files m) ∧ anchorable file = true
    ∧ df_new_path file = None ∧ df_old_path file = Some (pf_path f) ∧ In h (df_hunks file)
    ∧ In r (dh_rows h) ∧ dr_kind r = Row_removed ∧ dr_old_line r = Some (pf_line f)
    ∧ ∀ s, pf_start_line f = Some s → s ∈ omap dr_old_line (dh_rows h).

Lemma same_hunk_spec f file row old_side :
  In row (rows_of file) →
  same_hunk f file row old_side = true ↔
  ∃ h, In h (df_hunks file) ∧ In row (dh_rows h)
    ∧ ∀ s, pf_start_line f = Some s → s ∈ omap (side_line old_side) (dh_rows h).
Proof.
  intros Hrow. unfold same_hunk. destruct (pf_start_line f) as [s|].
  - unfold py_any. rewrite existsb_exists. split.
    + intros (h & Hh & [H1%bool_decide_eq_true H2]%andb_true_iff). exists h.
      split; [done|]. split; [by apply list_elem_of_In|]. intros s' [= <-].
      apply existsb_exists in H2 as (x & Hx & E%bool_decide_eq_true).
      apply list_elem_of_omap. exists x. by rewrite list_elem_of_In.
    + intros (h & Hh & Hr & Hs). exists h. split; [done|].
      rewrite bool_decide_eq_true_2 by (by apply list_elem_of_In). cbn.
      destruct (proj1 (list_elem_of_omap _ _ _) (Hs s eq_refl)) as (x & Hx & E).
      apply existsb_exists. exists x. rewrite <- list_elem_of_In. split; [done|].
      by apply bool_decide_eq_true.
  - split; [|done]. intros _. destruct (file_row_hunk file row Hrow) as (h & Hh & Hr). by exists h.
Qed.

Lemma row_for_new_line_some file line r :
  row_for_new_line file line = Some r → In r (rows_of file) ∧ dr_new_line r = Some line.
Proof. by intros [? ?%bool_decide_eq_true]%find_first_some. Qed.

Lemma row_for_old_line_some file line r :
  row_for_old_line file line = Some r → In r (rows_of file) ∧ dr_old_line r = Some line.
Proof. by intros [? ?%bool_decide_eq_true]%find_first_some. Qed.

Lemma in_hunk_new_lines h r n : In r (dh_rows h) → dr_new_line r = Some n → n ∈ hunk_new_lines h.
Proof. intros Hr E. apply list_elem_of_omap. exists r. by rewrite list_elem_of_In. Qed.

Lemma bitbucket_file_sound m f file f' :
  map_wf m → In file (dm_files m) → bitbucket_file f file = Some f' →
  (f' = set_bitbucket f None (pf_bitbucket_anchor_valid f) ∧ new_side_place m f)
  ∨ (f' = set_bitbucket f (Some (pf_line f)) (pf_bitbucket_anchor_valid f)
     ∧ old_side_place m f).
Proof.
  intros Hm Hin. pose proof (proj1 (List.Forall_forall _ _) Hm file Hin) as Hw.
  unfold bitbucket_file. destruct (anchorable file) eqn:Ha; cbn [negb]; [|done]. cbv zeta.
  match goal with |- (if ?b then _ else if ?b' then _ else _) = _ → _ =>
    destruct b eqn:Hnew; [|destruct b' eqn:Hold; [|done]] end;
    intros [= <-]; [left|right]; (split; [done|]).
  - apply andb_true_iff in Hnew as [Hp%ostr_eqb_eq Hrow].
    destruct (row_for_new_line file (pf_line f)) as [r|] eqn:Er; [|done].
    apply row_for_new_line_some in Er as [Hr El].
    apply andb_true_iff in Hrow as [_ Hs]. apply (same_hunk_spec _ _ _ _ Hr) in Hs as (h & Hh & Hrh & Hs).
    pose proof (in_hunk_new_lines _ _ _ Hrh El) as Hl.
    exists file, h. split_and!; try done. intros n Hn.
    destruct (pf_start_line f) as [s|]; cbn in Hn; [|by replace n with (pf_line f) by lia].
    eapply hunk_lines_contiguous; [|exact (Hs s eq_refl)|exact Hl|done].
    eapply hunks_ordered_In; [apply Hw|done].
  - apply andb_true_iff in Hold as [[Hnp%bool_decide_eq_true Hp%ostr_eqb_eq]%andb_true_iff Hrow].
    destruct (row_for_old_line file (pf_line f)) as [r|] eqn:Er; [|done].
    apply row_for_old_line_some in Er as [Hr El].
    apply andb_true_iff in Hrow as [Hk%bool_decide_eq_true Hs].
    apply (same_hunk_spec _ _ _ _ Hr) in Hs as (h & Hh & Hrh & Hs).
    exists file, h, r. by split_and!.
Qed.

Lemma bitbucket_files_sound m f files :
  map_wf m → (∀ x, In x files → In x (dm_files m)) →
  bitbucket_files f files = set_bitbucket f (pf_bitbucket_old_line f) false
  ∨ (bitbucket_files f files = set_bitbucket f None (pf_bitbucket_anchor_valid f)
     ∧ new_side_place m f)
  ∨ (bitbucket_files f files = set_bitbucket f (Some (pf_line f)) (pf_bitbucket_anchor_valid f)
     ∧ old_side_place m f).
Proof.
  intros Hm. induction files as [|x files IH]; intros Hsub; cbn; [by left|].
  destruct (bitbucket_file f x) as [f'|] eqn:E.
  - right. exact (bitbucket_file_sound m f x f' Hm (Hsub x (or_introl eq_refl)) E).
  - apply IH. intros y Hy. apply Hsub. by right.
Qed.

(** The file that anchors a finding on the new side decides it. *)
Lemma bitbucket_file_anchored f file h :
  diff_file_wf file → anchorable file = true → df_new_path file = Some (pf_path f) →
  In h (df_hunks file) → 1 ≤ default (pf_line f) (pf_start_line f) ≤ pf_line f →
  (∀ n, default (pf_line f) (pf_start_line f) ≤ n ≤ pf_line f → n ∈ hunk_new_lines h) →
  bitbucket_file f file = Some (set_bitbucket f None (pf_bitbucket_anchor_valid f)).
Proof.
  intros Hw Ha Hp Hh Hle Hall. unfold bitbucket_file. rewrite Ha, Hp. cbn [negb].
  rewrite (proj2 (ostr_eqb_eq _ _) eq_refl).
  destruct (hunk_row file h (pf_line f) Hh) as (r & Hrh & Hr & Er); [apply Hall; lia|].
  destruct (only_row_found file _ r Hw Hr Er) as [-> _].
  pose proof (file_row_ok _ _ Hw Hr) as (Hrem & _).
  assert (kind_eqb Row_removed r = false) as ->.
  { apply bool_decide_eq_false. intros Hk%Hrem. congruence. }
  rewrite (proj2 (same_hunk_spec f file r false Hr)); [done|].
  exists h. split_and!; [done..|]. intros s Es. apply Hall. rewrite Es in *. cbn in *. lia.
Qed.

(** Bitbucket gets exactly one side, taken from the pinned map.  A finding anchored on the
    new side keeps that anchor, unless a deleted file has its path; and whenever the result is
    still a valid anchor it is either a place on the new side, sent without an old line, or a
    removed row of a deleted file, sent with its old line, the start line in the same hunk. *)
Theorem bitbucket_one_side m f :
  map_wf m →
  (∀ a, resolve_anchor m (pf_path f) (pf_start_line f) (pf_line f) = Ok (Anchored a) →
        (∀ x, In x (dm_files m) → df_new_path x = None → df_old_path x ≠ Some (pf_path f)) →
        enrich_bitbucket_publication_finding (Some m) f
        = set_bitbucket f None (pf_bitbucket_anchor_valid f))
  ∧ (pf_bitbucket_anchor_valid (enrich_bitbucket_publication_finding (Some m) f) = true →
     pf_bitbucket_anchor_valid f = true
     ∧ ((pf_bitbucket_old_line (enrich_bitbucket_publication_finding (Some m) f) = None
         ∧ new_side_place m f)
        ∨ (pf_bitbucket_old_line (enrich_bitbucket_publication_finding (Some m) f)
           = Some (pf_line f) ∧ old_side_place m f)))
  ∧ pf_bitbucket_anchor_valid (enrich_bitbucket_publication_finding None f) = false.
Proof.
  intros Hm. split; [|split; [|done]].
  - intros a Ha Hdel.
    assert (Hv : lines_invalid (pf_start_line f) (pf_line f) = false).
    { unfold resolve_anchor in Ha. by destruct (lines_invalid _ _). }
    pose proof (lines_valid _ _ Hv) as Hle.
    apply (resolve_anchor_sound m _ _ _ a Hm) in Ha as (file & h & (Hf & Hanc & Hin & Hall) & _).
    pose proof (file_with_new_path_wf _ _ _ Hm Hf) as Hw.
    apply find_first_split in Hf as (l1 & l2 & Es & Hp%ostr_eqb_eq & Hl1).
    cbn [enrich_bitbucket_publication_finding]. rewrite Es.
    assert (Hd1 : ∀ x, In x l1 → df_new_path x = None → df_old_path x ≠ Some (pf_path f)).
    { intros x Hx. apply Hdel. rewrite Es. apply in_app_iff. by left. }
    clear Hdel Es. induction l1 as [|x l1 IH]; cbn.
    + by rewrite (bitbucket_file_anchored f file h).
    + replace (bitbucket_file f x) with (@None PublishedFinding);
        [apply IH; intros; [apply Hl1|apply Hd1]; by try right|].
      unfold bitbucket_file. destruct (anchorable x); [|done]. cbn [negb].
      rewrite (Hl1 x (or_introl eq_refl)). cbn [andb].
      destruct (bool_decide_reflect (df_new_path x = None)) as [Hn|]; [|done]. cbn [andb].
      destruct (ostr_eqb (df_old_path x) _) eqn:E; [|done].
      apply ostr_eqb_eq in E. by destruct (Hd1 x (or_introl eq_refl) Hn).
  - cbn [enrich_bitbucket_publication_finding].
    destruct (bitbucket_files_sound m f (dm_files m) Hm) as [->|[[-> H]|[-> H]]]; [done| |..];
      cbn; intros; [done| |]; split; auto.
Qed.

(** ** Witnesses *)

Definition sample_published : PublishedFinding :=
  mkPublishedFinding (u8 "src/app.py") 10 (Some 9) Sev_high Cat_correctness (u8 "T") (u8 "B")
    None (9 # 10)%Q None None None false None None None None None None None None true.

Definition sample_version : list (pystr * pystr) :=
  [(u8 "base_commit_sha", u8 "b"); (u8 "start_commit_sha", u8 "s"); (u8 "head_commit_sha", u8 "h")].

Lemma sample_published_anchored :
  ∃ a, resolve_anchor sample_map (u8 "src/app.py") (Some 9) 10 = Ok (Anchored a).
Proof. eexists. vm_compute. reflexivity. Qed.

Lemma gitlab_position_exact_witness :
  ∃ f' position, enrich_gitlab_publication_finding sample_map sample_published = Ok f'
    ∧ gitlab_text_position sample_version f' = Ok position.
Proof.
  destruct sample_published_anchored as [a Ha].
  destruct (gitlab_position_exact sample_map sample_published sample_version a (u8 "b") (u8 "s")
              (u8 "h") sample_map_wf (conj eq_refl (conj eq_refl (conj eq_refl (conj eq_refl eq_refl))))
              eq_refl eq_refl eq_refl Ha)
    as (f' & file & h & r & digest & range & He & _ & _ & _ & _ & _ & _ & _ & Hp).
  by exists f', (JObj ([(u8 "position_type", JStr (u8 "text")); (u8 "base_sha", JStr (u8 "b"));
                 (u8 "start_sha", JStr (u8 "s")); (u8 "head_sha", JStr (u8 "h"));
                 (u8 "old_path", JStr (default (pf_path sample_published) (df_old_path file)));
                 (u8 "new_path", JStr (pf_path sample_published))]
                ++ [(u8 "new_line", JInt (pf_line sample_published))] ++ old_line_field r ++ range)).
Defined.

Lemma bitbucket_one_side_witness :
  pf_bitbucket_old_line (enrich_bitbucket_publication_finding (Some sample_map) sample_published)
  = None.
Proof.
  destruct sample_published_anchored as [a Ha].
  destruct (bitbucket_one_side sample_map sample_published sample_map_wf) as (H & _ & _).
  rewrite (H a Ha); [reflexivity|].
  intros x [<-|[]] Hn. vm_compute in Hn. discriminate.
Defined.
