(* ===== verification/DiffSnapshots.v ===== *)
(** * Stored diffs of a run ([get_run_diff.py])

    Each file of a run is stored with the patch shown in the portal and, when the model may see
    it, the patch sent to the model.  The theorems show what can reach the model and that the
    stored patch gives the model patch back. *)

From Stdlib Require Import String.
From S2P Require Import Prelude PyText PyHash UnifiedDiff DiffMap RunFailures VcsInput.
#[local] Open Scope Z_scope.

Definition MAX_DIFF_LINES : Z := 3000.

Record DiffSnapshot : Type := mkDiffSnapshot {
  ds_filename : pystr;
  ds_patch : option pystr;
  ds_blob_sha : option pystr;
  ds_status : FileStatus;
  ds_previous_filename : option pystr;
  ds_additions : Z;
  ds_deletions : Z;
  ds_changes : Z;
  ds_omission_reason : option pystr;
  ds_review_patch : option pystr;
  ds_summary_only : bool
}.

Definition set_patches (s : DiffSnapshot) (patch review_patch : option pystr) (summary_only : bool)
  : DiffSnapshot :=
  mkDiffSnapshot (ds_filename s) patch (ds_blob_sha s) (ds_status s) (ds_previous_filename s)
    (ds_additions s) (ds_deletions s) (ds_changes s) (ds_omission_reason s) review_patch
    summary_only.

Definition GIT_PREFIX : pystr := u8 "diff --git ".
Definition HUNK_PREFIX : pystr := LF :: u8 "@@ ".

(** The Git header that a stored patch gets in front of its hunks. *)
Definition empty_wrapper (filename : pystr) : pystr :=
  u8 "diff --git a/" ++ filename ++ u8 " b/" ++ filename ++ [LF]
  ++ u8 "--- a/" ++ filename ++ [LF]
  ++ u8 "+++ b/" ++ filename ++ [LF].

Definition is_proven_empty_snapshot (s : DiffSnapshot) : bool :=
  if negb (ostr_eqb (ds_omission_reason s) (Some (u8 "empty_file")))
     || ds_summary_only s || negb (bool_decide (ds_review_patch s = None))
  then false
  else
    let patch := if ostr_eqb (ds_patch s) (Some (empty_wrapper (ds_filename s)))
                 then Some [] else ds_patch s in
    is_proven_empty_addition
      (mkVcsFile (ds_filename s) (ds_status s) (ds_blob_sha s) (ds_previous_filename s)
         (ds_additions s) (ds_deletions s) (ds_changes s) patch None None (Some (u8 "100644"))).

(** [patch[patch.find("\n@@ ") + 1 :]] of a patch with a Git header, [None] without a hunk. *)
Definition hunk_text (patch : pystr) : option pystr :=
  match str_find patch HUNK_PREFIX with
  | Some hunk_start => Some (drop (S hunk_start) patch)
  | None => None
  end.

Definition stored_review_patch (patch omission_reason : option pystr) : option pystr :=
  match patch, omission_reason with
  | None, _ | _, Some _ => None
  | Some p, None => if startswith p GIT_PREFIX then hunk_text p else Some p
  end.

Definition normalize_snapshot (s : DiffSnapshot) : DiffSnapshot :=
  match ds_patch s with
  | None => s
  | Some p =>
      let review_patch := stored_review_patch (ds_patch s) (ds_omission_reason s) in
      if startswith p GIT_PREFIX then set_patches s (Some p) review_patch (ds_summary_only s)
      else set_patches s (Some (empty_wrapper (ds_filename s) ++ p)) review_patch
             (ds_summary_only s)
  end.

(** ** The summary-only threshold *)

Definition uncounted (omission_reason : option pystr) : bool :=
  ostr_eqb omission_reason (Some (u8 "binary")) || ostr_eqb omission_reason (Some (u8 "generated")).

Definition changed_line_count (files : list DiffSnapshot) : Z :=
  py_sum ((λ f, ds_additions f + ds_deletions f)
          <$> List.filter (λ f, negb (uncounted (ds_omission_reason f))) files).

Definition line_count (patch : pystr) : Z :=
  Z.of_N (count_char LF patch) + (if endswith patch [LF] then 0 else 1).

Definition total_line_count (files : list DiffSnapshot) : Z :=
  py_sum (line_count <$>
          omap (λ f, if bool_decide (ds_omission_reason f = None) then ds_patch f else None) files).

Definition over_max_diff_lines (files : list DiffSnapshot)
    (excluded : option (DiffSnapshot → bool)) : bool :=
  match excluded with
  | None => MAX_DIFF_LINES <? total_line_count files
  | Some ex => MAX_DIFF_LINES <? changed_line_count (List.filter (λ f, negb (ex f)) files)
  end.

(** ** Storing *)

(** One turn of the loop of [StoreDiffSnapshot.execute]. *)
Definition store_file (summary_only : bool) (excluded : option (DiffSnapshot → bool))
    (file : DiffSnapshot) : DiffSnapshot :=
  let skip := match excluded with Some ex => ex file | None => false end in
  let s := normalize_snapshot file in
  if skip then set_patches s (ds_patch s) None (ds_summary_only s)
  else if summary_only && negb (ostr_eqb (ds_omission_reason s) (Some (u8 "empty_file")))
  then set_patches s (ds_patch s) None true
  else s.

(** The snapshots that [StoreDiffSnapshot.execute] hands to the repository. *)
Definition store_diff_snapshot (files : list DiffSnapshot)
    (excluded : option (DiffSnapshot → bool)) : list DiffSnapshot :=
  store_file (over_max_diff_lines files excluded) excluded <$> files.

(** ** The model input *)

Definition review_file (s : DiffSnapshot) : option pystr :=
  if ds_summary_only s || negb (bool_decide (ds_omission_reason s = None))
     || bool_decide (ds_patch s = None)
  then None else ds_review_patch s.

Fixpoint review_files_from_snapshots (snapshots : list DiffSnapshot)
  : result vcs_exc (list ChangedFile * list pystr) :=
  match snapshots with
  | [] => Ok ([], [])
  | s :: rest =>
      match review_file s with
      | None =>
          '(changed, omitted) ← review_files_from_snapshots rest;
          Ok (changed, ds_filename s :: omitted)
      | Some review_patch =>
          c ← parse_file_patch (ds_filename s) (ds_status s) review_patch;
          '(changed, omitted) ← review_files_from_snapshots rest;
          Ok (c :: changed, omitted)
      end
  end.

(** ** Back to provider facts ([run_coverage.py]) *)

Definition snapshot_vcs_file (s : DiffSnapshot) : VcsFile :=
  let patch := match ds_patch s with
               | Some p => if startswith p GIT_PREFIX then hunk_text p else Some p
               | None => None
               end in
  mkVcsFile (ds_filename s) (ds_status s) (ds_blob_sha s) (ds_previous_filename s)
    (ds_additions s) (ds_deletions s) (ds_changes s) patch None None None.

Definition with_patch (f : VcsFile) (patch : option pystr) : VcsFile :=
  mkVcsFile (vf_filename f) (vf_status f) (vf_blob_sha f) (vf_previous_filename f)
    (vf_additions f) (vf_deletions f) (vf_changes f) patch (vf_size f) (vf_omission_reason f)
    (vf_git_mode f).

Definition empty_addition_candidate (s : DiffSnapshot) : bool :=
  let patch := if ostr_eqb (ds_patch s) (Some (empty_wrapper (ds_filename s)))
               then None else ds_patch s in
  is_empty_addition_candidate (with_patch (snapshot_vcs_file s) patch).

(** ** Finding the hunks of a wrapped patch *)

(** A search for a line that starts with [p] skips a line without one. *)
Lemma str_find_line w s p :
  ¬ In LF w →
  str_find (w ++ LF :: s) (LF :: p) =
  if startswith s p then Some (length w) else (λ n, (length w + S n)%nat) <$> str_find s (LF :: p).
Proof.
  induction w as [|c w IH]; intros Hw.
  - cbn. destruct (startswith s p); [done|]. by destruct (str_find s (LF :: p)).
  - cbn [app str_find startswith]. destruct (N.eqb_spec LF c) as [<-|Hc]; [destruct Hw; by left|].
    cbn [andb]. rewrite IH by (intros ?; apply Hw; by right).
    destruct (startswith s p); [done|]. by destruct (str_find s (LF :: p)).
Qed.

Lemma supported_no_LF path : is_supported_path path = true → ¬ In LF path.
Proof.
  unfold is_supported_path. destruct (utf8_encode path); [|done].
  destruct (_ || _); [done|]. destruct (py_any is_Cc path) eqn:Hc; [done|]. intros _ Hin.
  enough (py_any is_Cc path = true) by congruence. apply existsb_exists. by exists LF.
Qed.

Lemma wrapper_git filename p : startswith (empty_wrapper filename ++ p) GIT_PREFIX = true.
Proof. apply startswith_iff. unfold empty_wrapper. rewrite <- app_assoc. by eexists. Qed.

Lemma u8_no_LF (l : pystr) : forallb (λ c, negb (LF =? c)%N) l = true → ¬ In LF l.
Proof. rewrite forallb_forall. intros H Hin. apply H in Hin. by rewrite N.eqb_refl in Hin. Qed.

(** The hunks in front of which the wrapper was put are found again. *)
Lemma wrapper_hunk_text filename p :
  ¬ In LF filename → startswith p (u8 "@@ ") = true →
  hunk_text (empty_wrapper filename ++ p) = Some p.
Proof.
  intros Hf Hp. unfold hunk_text, HUNK_PREFIX, empty_wrapper.
  set (w1 := u8 "diff --git a/" ++ filename ++ u8 " b/" ++ filename).
  set (w2 := u8 "--- a/" ++ filename). set (w3 := u8 "+++ b/" ++ filename).
  replace (_ ++ p) with (w1 ++ LF :: w2 ++ LF :: w3 ++ LF :: p)
    by (unfold w1, w2, w3; by rewrite <- !app_assoc).
  assert (Hn : ∀ a, ¬ In LF a → ¬ In LF (a ++ filename)) by (intros a; rewrite in_app_iff; tauto).
  assert (H1 : ¬ In LF w1).
  { unfold w1. rewrite !in_app_iff. intros [H|[H|[H|H]]]; try done; revert H; by apply u8_no_LF. }
  assert (H2 : ¬ In LF w2) by (apply Hn; by apply u8_no_LF).
  assert (H3 : ¬ In LF w3) by (apply Hn; by apply u8_no_LF).
  rewrite !str_find_line by done. rewrite Hp.
  replace (startswith (w2 ++ _) (u8 "@@ ")) with false by done.
  replace (startswith (w3 ++ _) (u8 "@@ ")) with false by done. cbn [fmap option_fmap option_map].
  f_equal. replace (w1 ++ _) with ((w1 ++ LF :: w2 ++ LF :: w3 ++ [LF]) ++ p)
    by (rewrite <- !app_assoc; cbn; by rewrite <- !app_assoc; cbn; rewrite <- app_assoc).
  apply drop_app_length'. rewrite !length_app. cbn [length]. rewrite !length_app. cbn [length].
  rewrite !length_app. cbn. lia.
Qed.

(** ** What a stored file can show the model *)

Definition skipped (excluded : option (DiffSnapshot → bool)) (f : DiffSnapshot) : bool :=
  match excluded with Some ex => ex f | None => false end.

(** The text of a patch that goes to the model: all of it, or its hunks behind a Git header. *)
Definition model_text (patch text : pystr) : Prop :=
  (startswith patch GIT_PREFIX = false ∧ text = patch)
  ∨ (startswith patch GIT_PREFIX = true ∧ hunk_text patch = Some text).

Record shown (excluded : option (DiffSnapshot → bool)) (f : DiffSnapshot) (text : pystr)
  : Prop := {
  sh_policy : skipped excluded f = false;
  sh_omission : ds_omission_reason f = None;
  sh_whole : ds_summary_only f = false;
  sh_text : ∃ patch, ds_patch f = Some patch ∧ model_text patch text
}.

Lemma normalize_facts f :
  ds_filename (normalize_snapshot f) = ds_filename f
  ∧ ds_status (normalize_snapshot f) = ds_status f
  ∧ ds_omission_reason (normalize_snapshot f) = ds_omission_reason f
  ∧ ds_summary_only (normalize_snapshot f) = ds_summary_only f
  ∧ (ds_patch (normalize_snapshot f) = None ↔ ds_patch f = None).
Proof.
  unfold normalize_snapshot. destruct (ds_patch f) as [p|] eqn:Hp; [|by rewrite Hp].
  by destruct (startswith p GIT_PREFIX).
Qed.

(** What the model gets of one stored file, in terms of the file before it was stored. *)
Lemma review_file_stored excluded f text :
  review_file (normalize_snapshot f) = Some text ∧ skipped excluded f = false
  ↔ shown excluded f text.
Proof.
  destruct (normalize_facts f) as (_ & _ & Ho & Hs & Hp). unfold review_file.
  rewrite Ho, Hs. split.
  - intros [H Hk]. destruct (ds_summary_only f) eqn:?; [done|].
    destruct (ds_omission_reason f) eqn:Hom; [done|]. cbn in H.
    case_bool_decide as Hn; [done|].
    destruct (ds_patch f) as [p|] eqn:Hpf; [|by destruct Hn; apply Hp].
    constructor; try done. exists p. split; [done|].
    unfold normalize_snapshot, stored_review_patch in H. rewrite Hpf, Hom in H.
    destruct (startswith p GIT_PREFIX) eqn:E; cbn in H; [by right|left; naive_solver].
  - intros [Hk Hom Hw (p & Hpf & Ht)]. split; [|done]. rewrite Hom, Hw. cbn.
    rewrite bool_decide_false by (rewrite Hp, Hpf; done).
    unfold normalize_snapshot, stored_review_patch. rewrite Hpf, Hom.
    destruct Ht as [[-> ->]|[-> Ht]]; done.
Qed.

Lemma review_file_store over excluded f text :
  review_file (store_file over excluded f) = Some text ↔ shown excluded f text ∧ over = false.
Proof.
  rewrite <- review_file_stored. unfold store_file, skipped.
  destruct (normalize_facts f) as (_ & _ & Ho & _ & _).
  destruct (match excluded with Some ex => ex f | None => false end).
  { unfold review_file. cbn. split; [by repeat case_match|naive_solver]. }
  destruct over; cbn [andb]; [|naive_solver].
  destruct (ostr_eqb _ _) eqn:E; cbn [negb].
  - unfold review_file. apply ostr_eqb_eq in E. rewrite E. cbn. rewrite orb_true_r. naive_solver.
  - unfold review_file. cbn. naive_solver.
Qed.

Lemma store_file_facts over excluded f :
  ds_filename (store_file over excluded f) = ds_filename f
  ∧ ds_status (store_file over excluded f) = ds_status f.
Proof.
  destruct (normalize_facts f) as (Hf & Hs & _). unfold store_file. by repeat case_match.
Qed.

Lemma review_files_stored over excluded files : ∀ changed omitted,
  review_files_from_snapshots (store_file over excluded <$> files) = Ok (changed, omitted) →
  (length changed + length omitted = length files)%nat
  ∧ (∀ c, In c changed → ∃ f text, In f files ∧ shown excluded f text ∧ over = false
       ∧ parse_file_patch (ds_filename f) (ds_status f) text = Ok c)
  ∧ (∀ name, In name omitted → ∃ f, In f files ∧ ds_filename f = name
       ∧ (over = true ∨ ∀ text, ¬ shown excluded f text)).
Proof.
  induction files as [|f files IH]; intros changed omitted; cbn [fmap list_fmap].
  { intros [= <- <-]. by split_and!. }
  cbn [review_files_from_snapshots]. destruct (store_file_facts over excluded f) as [Hn Hs].
  destruct (review_file (store_file over excluded f)) as [text|] eqn:Hr.
  - apply review_file_store in Hr as [Hsh ->]. rewrite bind_ok. intros (c & Hc & H).
    apply bind_ok in H as ([cs os] & H & [= <- <-]).
    destruct (IH cs os H) as (Hl & Hcs & Hos). split_and!.
    + cbn. lia.
    + intros c' [<-|Hc'].
      * exists f, text. rewrite Hn, Hs in Hc. split_and!; try done. by left.
      * destruct (Hcs c' Hc') as (g & t & ? & ?). exists g, t. split; [by right|done].
    + intros name Hname. destruct (Hos name Hname) as (g & ? & ?). exists g. split; [by right|done].
  - rewrite bind_ok. intros ([cs os] & H & [= <- <-]).
    destruct (IH cs os H) as (Hl & Hcs & Hos). split_and!.
    + cbn. lia.
    + intros c' Hc'. destruct (Hcs c' Hc') as (g & t & ? & ?). exists g, t. split; [by right|done].
    + intros name [<-|Hname].
      * exists f. split_and!; [by left|done|]. destruct over; [by left|]. right. intros text Hsh.
        enough (review_file (store_file false excluded f) = Some text) by congruence.
        by apply review_file_store.
      * destruct (Hos name Hname) as (g & ? & ?). exists g. split; [by right|done].
Qed.

(** ** Theorems *)

(** The model gets a stored file exactly when the policy does not withhold it, no omission or
    summary-only mark is on it, it has a patch with hunks and the change is within the line limit;
    it then gets those hunks, parsed.  Every other file is named as omitted, so the two lists
    together account for every file of the run. *)
Theorem stored_model_input files excluded changed omitted :
  review_files_from_snapshots (store_diff_snapshot files excluded) = Ok (changed, omitted) →
  (length changed + length omitted = length files)%nat
  ∧ (∀ c, In c changed → ∃ f text, In f files ∧ shown excluded f text
       ∧ over_max_diff_lines files excluded = false
       ∧ parse_file_patch (ds_filename f) (ds_status f) text = Ok c)
  ∧ (∀ name, In name omitted → ∃ f, In f files ∧ ds_filename f = name
       ∧ (over_max_diff_lines files excluded = true ∨ ∀ text, ¬ shown excluded f text)).
Proof. apply review_files_stored. Qed.

(** Storing keeps what was fetched.  A patch of hunks is stored under a Git header and read
    back from it unchanged, as the model patch and as the provider's patch, and storing again
    changes nothing; the empty patch of a proven empty file is still proof after it is stored, also
    in a change over the line limit. *)
Theorem stored_patch_roundtrip s p over excluded :
  is_supported_path (ds_filename s) = true → ds_patch s = Some p →
  (ds_omission_reason s = None → startswith p (u8 "@@ ") = true →
     ds_review_patch (normalize_snapshot s) = Some p
     ∧ vf_patch (snapshot_vcs_file (normalize_snapshot s)) = Some p
     ∧ normalize_snapshot (normalize_snapshot s) = normalize_snapshot s)
  ∧ (p = [] → ds_omission_reason s = Some (u8 "empty_file") → ds_summary_only s = false →
     empty_addition_candidate s = true →
     is_proven_empty_snapshot (store_file over excluded s) = true).
Proof.
  intros Hf Hp. apply supported_no_LF in Hf as Hlf. split.
  - intros Ho Hh. assert (Hg : startswith p GIT_PREFIX = false).
    { apply startswith_iff in Hh as [r ->]. done. }
    assert (Hnorm : normalize_snapshot s =
      set_patches s (Some (empty_wrapper (ds_filename s) ++ p)) (Some p) (ds_summary_only s)).
    { unfold normalize_snapshot, stored_review_patch. by rewrite Hp, Ho, Hg. }
    rewrite Hnorm. split_and!; [done|..].
    + cbn. by rewrite wrapper_git, wrapper_hunk_text.
    + unfold normalize_snapshot, stored_review_patch. cbn [ds_patch set_patches ds_omission_reason].
      by rewrite Ho, wrapper_git, wrapper_hunk_text.
  - intros -> Ho Hs Hc.
    assert (Hnorm : normalize_snapshot s =
      set_patches s (Some (empty_wrapper (ds_filename s))) None false).
    { unfold normalize_snapshot, stored_review_patch. by rewrite Hp, Ho, Hs, app_nil_r. }
    assert (Hst : store_file over excluded s =
      set_patches s (Some (empty_wrapper (ds_filename s))) None false).
    { unfold store_file. rewrite Hnorm. cbn. rewrite Ho. cbn. rewrite andb_false_r.
      by destruct (match excluded with Some ex => ex s | None => false end). }
    rewrite Hst. unfold is_proven_empty_snapshot. cbn. rewrite Ho. cbn.
    unfold empty_addition_candidate in Hc. rewrite Hp in Hc.
    unfold is_proven_empty_addition. cbn. unfold is_empty_addition_candidate in *. cbn in *.
    rewrite !str_eqb_refl. by destruct (empty_wrapper (ds_filename s)).
Qed.

(** ** Sample snapshots *)

Definition sample_hunks : pystr :=
  u8 "@@ -1 +1 @@" ++ [LF] ++ u8 "-a" ++ [LF] ++ u8 "+b".
Definition sample_snapshot (name : pystr) : DiffSnapshot :=
  mkDiffSnapshot name (Some sample_hunks) None Status_modified None 1 1 2 None None false.
Definition empty_snapshot : DiffSnapshot :=
  mkDiffSnapshot (u8 "new.py") (Some []) (Some GIT_EMPTY_BLOB_SHA) Status_added None 0 0 0
    (Some (u8 "empty_file")) None false.
Definition no_secrets (s : DiffSnapshot) : bool := ds_filename s =?s u8 "secret.py".

Lemma stored_model_input_witness :
  ∃ changed omitted,
    review_files_from_snapshots
      (store_diff_snapshot [sample_snapshot (u8 "a.py"); sample_snapshot (u8 "secret.py");
                            empty_snapshot] (Some no_secrets)) = Ok (changed, omitted)
    ∧ omitted = [u8 "secret.py"; u8 "new.py"] ∧ (length changed + length omitted = 3)%nat.
Proof.
  exists [mkChangedFile (u8 "a.py") Status_modified
            [mkDiffLine 1 Row_removed (u8 "a"); mkDiffLine 1 Row_added (u8 "b")] None],
    [u8 "secret.py"; u8 "new.py"].
  split; [vm_compute; reflexivity|]. split; [reflexivity|].
  refine (proj1 (stored_model_input [sample_snapshot (u8 "a.py"); sample_snapshot (u8 "secret.py");
                                     empty_snapshot] (Some no_secrets) _ _ _)).
  vm_compute. reflexivity.
Defined.

Lemma stored_patch_roundtrip_witness :
  vf_patch (snapshot_vcs_file (normalize_snapshot (sample_snapshot (u8 "a.py")))) = Some sample_hunks
  ∧ is_proven_empty_snapshot (store_file true None empty_snapshot) = true.
Proof.
  split.
  - refine (proj1 (proj2 (proj1 (stored_patch_roundtrip (sample_snapshot (u8 "a.py")) sample_hunks
                                   true None _ _) _ _))); vm_compute; reflexivity.
  - refine (proj2 (stored_patch_roundtrip empty_snapshot [] true None _ _) _ _ _ _);
      vm_compute; reflexivity.
Defined.
