(* ===== verification/CoverageSchema.v ===== *)
(** * The stored coverage vocabulary ([coverage_schema.py])

    Coverage says how much of a change was reviewed: each file is reviewed, excluded for a code or
    not covered for a reason.  This file has the vocabulary and the readers of its stored JSON.
    A [dict] from codes to counts is a finite map. *)

From Stdlib Require Import String.
From stdpp Require Import gmap.
From S2P Require Import Prelude PyText PyHash UnifiedDiff DiffMap.
#[local] Open Scope Z_scope.

(** ** Counters *)

Abbreviation counts := (gmap pystr Z) (only parsing).

Definition cget (m : counts) (k : pystr) : Z := default 0 (m !! k).
Definition cadd (m : counts) (k : pystr) (n : Z) : counts := <[k := cget m k + n]> m.
Definition csum (m : counts) : Z := map_fold (λ _ c acc, c + acc) 0 m.
(** [Counter(keys)] *)
Definition counter (keys : list pystr) : counts := foldr (λ k m, cadd m k 1) ∅ keys.
Definition chas (m : counts) (k : pystr) : bool := bool_decide (is_Some (m !! k)).
Definition citems (m : counts) : list (pystr * Z) := map_to_list m.
Definition sorted_items (m : counts) : list (pystr * Z) := py_sorted key_leb (map_to_list m).

(** ** Vocabulary *)

Definition REASON_TEXT : list (pystr * pystr) :=
  [(u8 "classification_unavailable", u8 "нет достоверного сохранённого покрытия");
   (u8 "diff_inventory_incomplete", u8 "список изменённых файлов неполон");
   (u8 "missing_patch", u8 "Отсутствует подтверждённый patch");
   (u8 "unsupported_change", u8 "семантика изменения метаданных не анализируется");
   (u8 "too_large", u8 "Превышен лимит размера, содержимое не проверено");
   (u8 "unsupported_path", u8 "неподдерживаемый путь");
   (u8 "identity_unresolved", u8 "не установлена идентичность файла");
   (u8 "patch_truncated", u8 "patch неполон");
   (u8 "patch_malformed", u8 "patch повреждён");
   (u8 "patch_unsupported", u8 "формат patch не поддерживается");
   (u8 "summary_only", u8 "краткий обзор без проверки всех строк");
   (u8 "review_input_incomplete", u8 "модель получила не весь patch");
   (u8 "unknown_path", u8 "не удалось сопоставить замечание с доступным diff")].
Definition COVERAGE_REASON_CODES : list pystr := fst <$> REASON_TEXT.
Definition COVERAGE_EXCLUSION_CODES : list pystr :=
  [u8 "ignored"; u8 "binary"; u8 "generated"; u8 "empty_file"].
Definition TECHNICAL_REASON_CODES : list pystr :=
  [u8 "too_large"; u8 "unsupported_change"; u8 "unsupported_path"; u8 "identity_unresolved"].

Inductive CoverageStatus : Type := Cov_complete | Cov_partial | Cov_none.
#[export] Instance CoverageStatus_eq_dec : EqDecision CoverageStatus.
Proof. solve_decision. Defined.

Definition CoverageStatus_value (s : CoverageStatus) : pystr :=
  match s with
  | Cov_complete => u8 "complete"
  | Cov_partial => u8 "partial"
  | Cov_none => u8 "none"
  end.

(** [CoverageStatus(raw)]: [None] when it raises. *)
Definition coverage_status (raw : pystr) : option CoverageStatus :=
  find_first (λ s, CoverageStatus_value s =?s raw) [Cov_complete; Cov_partial; Cov_none].

Record CoverageItem : Type := mkCoverageItem {
  ci_path : option pystr;
  ci_reason : pystr;
  ci_change_type : option pystr;
  ci_empty_addition_candidate : bool
}.

Definition bare_item (path : option pystr) (reason : pystr) : CoverageItem :=
  mkCoverageItem path reason None false.

(** ** Readers *)

Definition jget (k : pystr) (kvs : list (pystr * json)) : option json := assoc k kvs.

(** The loop of [read_coverage_counts]. *)
Fixpoint read_counts (kvs : list (pystr * json)) (allowed : list pystr) (acc : counts)
  : option counts :=
  match kvs with
  | [] => Some acc
  | (key, JInt count) :: rest =>
      if negb (str_mem key allowed) || negb ((0 <? count) && (count <=? 3001)) then None
      else read_counts rest allowed (<[key := count]> acc)
  | _ :: _ => None
  end.

Definition read_coverage_counts (value : json) (allowed : list pystr) : option counts :=
  match value with
  | JObj kvs => read_counts kvs allowed ∅
  | _ => None
  end.

Definition same_keys (kvs : list (pystr * json)) (keys : list pystr) : bool :=
  py_all (λ kv, str_mem (fst kv) keys) kvs && py_all (λ k, str_mem k (fst <$> kvs)) keys.

Definition item_keys : list pystr := [u8 "path"; u8 "reason"; u8 "change_type"].
Definition change_type_values : list pystr :=
  ChangeType_value <$> [Change_added; Change_modified; Change_deleted; Change_renamed;
                        Change_copied; Change_mode_changed; Change_unsupported].

(** One entry of the list: the optional path and change type, and the mark. *)
Definition read_coverage_item (raw : json) (cs : counts) (paths : option (list pystr))
  : option CoverageItem :=
  match raw with
  | JObj kvs =>
      if negb (same_keys kvs item_keys
               || same_keys kvs (item_keys ++ [u8 "empty_addition_candidate"])) then None
      else
        match jget (u8 "path") kvs, jget (u8 "reason") kvs, jget (u8 "change_type") kvs with
        | Some path, Some reason, Some change_type =>
            let absent := match path with JNull => true | _ => false end in
            qualified ← match default (JBool false) (jget (u8 "empty_addition_candidate") kvs) with
                        | JBool q =>
                            let missing := match reason with
                                           | JStr r => r =?s u8 "missing_patch" | _ => false end in
                            let added := match change_type with
                                         | JStr c => c =?s u8 "added" | _ => false end in
                            if q && (negb missing || negb added || absent) then None else Some q
                        | _ => None
                        end;
            r ← match reason with JStr r => if chas cs r then Some r else None | _ => None end;
            p ← match path with
                | JNull => Some None
                | JStr p =>
                    if negb (is_supported_path p)
                       || match paths with Some ps => negb (str_mem p ps) | None => false end
                    then None else Some (Some p)
                | _ => None
                end;
            c ← match change_type with
                | JNull => Some None
                | JStr c => if str_mem c change_type_values then Some (Some c) else None
                | _ => None
                end;
            Some (mkCoverageItem p r c qualified)
        | _, _, _ => None
        end
  | _ => None
  end.

Definition read_coverage_items (value : json) (cs : counts) (paths : option (list pystr))
  : option (list CoverageItem) :=
  match value with
  | JList raws =>
      if negb (py_len raws =? Z.min (csum cs) 20) then None
      else
        result ← mapM (λ raw, read_coverage_item raw cs paths) raws;
        if py_any (λ kv, cget cs (fst kv) <? snd kv) (citems (counter (ci_reason <$> result)))
        then None else Some result
  | _ => None
  end.

Definition valid_coverage_status (status : CoverageStatus) (reviewed total : Z) (complete : bool)
    (reasons exclusions : counts) : bool :=
  if bool_decide (status = Cov_complete)
     && (negb complete || (reviewed =? 0) || bool_decide (reasons ≠ ∅)) then false
  else if bool_decide (status = Cov_none)
     && (negb complete || negb (reviewed =? 0)
         || py_any (λ kv, negb (str_mem (fst kv) TECHNICAL_REASON_CODES)) (citems reasons))
  then false
  else if bool_decide (status = Cov_partial) && bool_decide (reasons = ∅) then false
  else if (1 <? cget reasons (u8 "diff_inventory_incomplete"))
     || (complete && chas reasons (u8 "diff_inventory_incomplete")) then false
  else
    let global_reasons :=
      (if chas reasons (u8 "classification_unavailable") then 1 else 0)
      + cget reasons (u8 "diff_inventory_incomplete") + cget reasons (u8 "unknown_path") in
    reviewed + csum reasons + csum exclusions =? total + global_reasons.

(** ** Variants of a reason *)

Definition REASON_VARIANT_TEXT : list (pystr * pystr) :=
  [(u8 "missing_patch:empty_addition", u8 "Нет подтверждения обычного пустого файла");
   (u8 "missing_patch:renamed",
    u8 "Отсутствующий patch не подтверждает неизменность содержимого переноса");
   (u8 "missing_patch:mode_changed",
    u8 "Отсутствующий patch не подтверждает изменение только прав доступа/типа файла");
   (u8 "missing_patch:deleted", u8 "Удалённое содержимое недоступно для подтверждения binary");
   (u8 "unsupported_change:renamed",
    u8 "Семантика переноса файла (включая импорты) не анализируется");
   (u8 "unsupported_change:mode_changed",
    u8 "Изменения прав доступа/типа файла не анализируются")].
Definition REASON_VARIANT_CODES : list pystr := fst <$> REASON_VARIANT_TEXT.

(** [f"{item.reason}:{subtype}"]: a missing subtype prints as [None]. *)
Definition reason_variant (item : CoverageItem) : option pystr :=
  let subtype := if ci_empty_addition_candidate item then u8 "empty_addition"
                 else default (u8 "None") (ci_change_type item) in
  let key := ci_reason item ++ u8 ":" ++ subtype in
  if str_mem key REASON_VARIANT_CODES then Some key else None.

(** [REASON_TEXT.get(reason, reason)] *)
Definition code_text (reason : pystr) : pystr := default reason (assoc reason REASON_TEXT).

Definition reason_text (item : CoverageItem) : pystr :=
  match reason_variant item ≫= λ key, assoc key REASON_VARIANT_TEXT with
  | Some text => text
  | None => code_text (ci_reason item)
  end.

(** [key.split(":", 1)[0]] *)
Definition before_colon (key : pystr) : pystr := hd [] (split_on 58%N key).

(** The sums of the variants of each reason. *)
Definition by_reason (variants : counts) : counts :=
  foldr (λ kv m, cadd m (before_colon (fst kv)) (snd kv)) ∅ (citems variants).

Definition read_reason_variants (value : option json) (cs : counts) (items : list CoverageItem)
  : option counts :=
  let listed := counter (omap reason_variant items) in
  match value with
  | None | Some JNull => Some listed
  | Some v =>
      variants ← read_coverage_counts v REASON_VARIANT_CODES;
      if py_any (λ kv, cget variants (fst kv) <? snd kv) (citems listed) then None
      else
        let visible := counter (ci_reason <$> items) in
        let visible_specialized := by_reason listed in
        if py_any (λ kv, cget cs (fst kv) - cget visible (fst kv)
                         + cget visible_specialized (fst kv) <? snd kv)
             (citems (by_reason variants))
        then None else Some variants
  end.

(** ** Sums over a counter *)

Lemma str_eqb_decide a b : (a =?s b) = bool_decide (a = b).
Proof. apply eq_true_iff_eq. by rewrite str_eqb_eq, bool_decide_eq_true. Qed.

(** The sum of a weight of the entries. *)
Definition msum (w : pystr → Z → Z) (m : counts) : Z := map_fold (λ k v acc, w k v + acc) 0 m.

Lemma msum_fresh w m k v : m !! k = None → msum w (<[k := v]> m) = w k v + msum w m.
Proof. intros H. unfold msum. rewrite map_fold_insert_L; [done| |done]. intros; lia. Qed.

Lemma msum_lookup w m k v : m !! k = Some v → msum w m = w k v + msum w (delete k m).
Proof.
  intros H. rewrite <- (insert_delete_id m k v H) at 1.
  apply msum_fresh, lookup_delete_eq.
Qed.

Lemma msum_cadd w m k n :
  (∀ a b, w k (a + b) = w k a + w k b) → msum w (cadd m k n) = msum w m + w k n.
Proof.
  intros Hw. unfold cadd, cget. rewrite <- insert_delete_eq.
  rewrite msum_fresh by apply lookup_delete_eq. rewrite Hw.
  destruct (m !! k) as [v|] eqn:E; cbn.
  - rewrite (msum_lookup w m k v E). lia.
  - rewrite delete_id by done. pose proof (Hw 0 0). replace (0 + 0) with 0 in * by lia. lia.
Qed.

(** The number of keys that satisfy [p]. *)
Definition tally (p : pystr → bool) (keys : list pystr) : Z := py_len (List.filter p keys).

Lemma tally_cons p k keys : tally p (k :: keys) = (if p k then 1 else 0) + tally p keys.
Proof. unfold tally, py_len. cbn. destruct (p k); cbn [length]; lia. Qed.

Lemma tally_perm p l1 l2 : Permutation l1 l2 → tally p l1 = tally p l2.
Proof. induction 1; rewrite ?tally_cons; lia. Qed.

Lemma tally_app p l1 l2 : tally p (l1 ++ l2) = tally p l1 + tally p l2.
Proof. unfold tally. by rewrite List.filter_app, py_len_app. Qed.

Lemma tally_nonneg p l : 0 ≤ tally p l.
Proof. apply py_len_nonneg. Qed.

Lemma tally_sublist p l1 l2 : sublist l1 l2 → tally p l1 ≤ tally p l2.
Proof. induction 1; rewrite ?tally_cons; [done|lia|]. destruct (p x); lia. Qed.

Lemma tally_le p q l : (∀ k, In k l → p k = true → q k = true) → tally p l ≤ tally q l.
Proof.
  induction l as [|k l IH]; intros H; [done|]. rewrite !tally_cons.
  assert (tally p l ≤ tally q l) by (apply IH; intros ? ?; apply H; by right).
  specialize (H k (or_introl eq_refl)). destruct (p k); [rewrite H by done; lia|].
  destruct (q k); lia.
Qed.

Definition entries_where (p : pystr → bool) (k : pystr) (v : Z) : Z := if p k then v else 0.

Lemma msum_counter p keys : msum (entries_where p) (counter keys) = tally p keys.
Proof.
  induction keys as [|k keys IH]; [done|]. cbn [counter foldr]. fold (counter keys).
  rewrite msum_cadd, IH, tally_cons by (intros; unfold entries_where; by destruct (p k)).
  unfold entries_where. destruct (p k); lia.
Qed.

Lemma csum_counter keys : csum (counter keys) = py_len keys.
Proof.
  transitivity (tally (λ _, true) keys); [exact (msum_counter (λ _, true) keys)|].
  unfold tally. f_equal. induction keys; cbn; congruence.
Qed.

Lemma csum_cadd m k n : csum (cadd m k n) = csum m + n.
Proof. apply (msum_cadd (λ _ v, v)). lia. Qed.

Lemma cget_cadd m k n k' : cget (cadd m k n) k' = cget m k' + (if k =?s k' then n else 0).
Proof.
  rewrite str_eqb_decide. unfold cadd, cget. case_bool_decide as E.
  - subst. by rewrite lookup_insert_eq.
  - rewrite lookup_insert_ne by done. lia.
Qed.

Lemma chas_cadd m k n k' : chas (cadd m k n) k' = (k =?s k') || chas m k'.
Proof.
  rewrite str_eqb_decide. unfold chas, cadd. apply eq_true_iff_eq.
  rewrite orb_true_iff, !bool_decide_eq_true, lookup_insert_is_Some. destruct (decide (k = k')); naive_solver.
Qed.

Lemma cget_counter keys k : cget (counter keys) k = tally (λ x, x =?s k) keys.
Proof.
  induction keys as [|x keys IH]; [done|]. cbn [counter foldr]. fold (counter keys).
  rewrite cget_cadd, IH, tally_cons. lia.
Qed.

Lemma chas_counter keys k : chas (counter keys) k = true ↔ In k keys.
Proof.
  induction keys as [|x keys IH]; [done|]. cbn [counter foldr]. fold (counter keys).
  rewrite chas_cadd, orb_true_iff, IH, str_eqb_eq. done.
Qed.

Lemma counter_lookup_Some keys k v :
  counter keys !! k = Some v ↔ In k keys ∧ v = tally (λ x, x =?s k) keys.
Proof.
  rewrite <- cget_counter, <- chas_counter. unfold cget, chas. rewrite bool_decide_eq_true.
  destruct (counter keys !! k); naive_solver.
Qed.

Lemma counter_empty keys : counter keys = ∅ ↔ keys = [].
Proof.
  split; [|by intros ->]. destruct keys as [|k keys]; [done|]. intros H.
  assert (chas (counter (k :: keys)) k = true) by (apply chas_counter; by left).
  by rewrite H in *.
Qed.

(** A counter does not depend on the order of the keys. *)
Lemma counter_perm l1 l2 : Permutation l1 l2 → counter l1 = counter l2.
Proof.
  intros H. apply map_eq. intros k. apply option_eq. intros v.
  rewrite !counter_lookup_Some, (tally_perm _ _ _ H).
  by rewrite <- !list_elem_of_In, H.
Qed.

Lemma In_citems m k v : In (k, v) (citems m) ↔ m !! k = Some v.
Proof. unfold citems. by rewrite <- list_elem_of_In, elem_of_map_to_list. Qed.

Lemma sorted_items_perm m : Permutation (sorted_items m) (map_to_list m).
Proof. apply py_sorted_perm. Qed.

(** A dictionary is rebuilt from its sorted entries. *)
Lemma sorted_items_map m : list_to_map (rev (sorted_items m)) = m.
Proof.
  assert (Hp : Permutation (rev (sorted_items m)) (map_to_list m))
    by (rewrite <- Permutation_rev; apply sorted_items_perm).
  transitivity (list_to_map (map_to_list m) : counts); [|apply list_to_map_to_list].
  apply list_to_map_proper; [|done]. rewrite Hp. apply NoDup_fst_map_to_list.
Qed.

Lemma cget_by_reason m r :
  cget (by_reason m) r = msum (entries_where (λ k, before_colon k =?s r)) m.
Proof.
  unfold by_reason, citems, msum. rewrite map_fold_foldr.
  induction (map_to_list m) as [|[k v] l IH]; [done|]. cbn.
  rewrite cget_cadd, IH. cbn. unfold entries_where. lia.
Qed.

Lemma cget_by_reason_counter keys r :
  cget (by_reason (counter keys)) r = tally (λ k, before_colon k =?s r) keys.
Proof. by rewrite cget_by_reason, msum_counter. Qed.

(** ** The validity of a status *)

Record status_valid (status : CoverageStatus) (reviewed total : Z) (complete : bool)
    (reasons exclusions : counts) : Prop := {
  sv_complete : status = Cov_complete → complete = true ∧ reviewed ≠ 0 ∧ reasons = ∅;
  sv_none : status = Cov_none → complete = true ∧ reviewed = 0
            ∧ ∀ r, chas reasons r = true → In r TECHNICAL_REASON_CODES;
  sv_partial : status = Cov_partial → reasons ≠ ∅;
  sv_inventory : cget reasons (u8 "diff_inventory_incomplete") ≤ 1;
  sv_listed : complete = true → chas reasons (u8 "diff_inventory_incomplete") = false;
  sv_partition :
    reviewed + csum reasons + csum exclusions
    = total + ((if chas reasons (u8 "classification_unavailable") then 1 else 0)
               + cget reasons (u8 "diff_inventory_incomplete")
               + cget reasons (u8 "unknown_path"))
}.

Lemma valid_coverage_status_iff status reviewed total complete reasons exclusions :
  valid_coverage_status status reviewed total complete reasons exclusions = true
  ↔ status_valid status reviewed total complete reasons exclusions.
Proof.
  assert (Htech : py_any (λ kv, negb (str_mem (fst kv) TECHNICAL_REASON_CODES)) (citems reasons)
                  = false ↔ ∀ r, chas reasons r = true → In r TECHNICAL_REASON_CODES).
  { rewrite <- not_true_iff_false. unfold py_any. rewrite existsb_exists. unfold chas. split.
    - intros H r [v Hr]%bool_decide_eq_true. destruct (str_mem r TECHNICAL_REASON_CODES) eqn:E;
        [by apply str_mem_In|]. destruct H. exists (r, v).
      rewrite In_citems. cbn [fst]. by rewrite E.
    - intros H ([r v] & Hin%In_citems & Hn). cbn [fst] in Hn.
      apply negb_true_iff, not_true_iff_false in Hn. apply Hn, str_mem_In, H.
      apply bool_decide_eq_true. eauto. }
  assert (Hif : ∀ b x : bool, (if b then false else x) = true ↔ b = false ∧ x = true)
    by (intros [] []; naive_solver).
  unfold valid_coverage_status. rewrite !Hif, Z.eqb_eq. split.
  - intros (H1 & H2 & H3 & H4 & H5). apply orb_false_iff in H4 as [H4 H6]. constructor.
    + intros ->. rewrite bool_decide_true, andb_true_l in H1 by done. apply orb_false_iff in H1 as [[Hc Hr]%orb_false_iff Hn].
      apply bool_decide_eq_false, dec_stable in Hn. apply Z.eqb_neq in Hr. by destruct complete.
    + intros ->. rewrite bool_decide_true, andb_true_l in H2 by done. apply orb_false_iff in H2 as [[Hc Hr]%orb_false_iff Hn].
      pose proof (proj1 Htech Hn) as Hn'. apply negb_false_iff, Z.eqb_eq in Hr. by destruct complete.
    + intros ->. rewrite bool_decide_true, andb_true_l in H3 by done. by apply bool_decide_eq_false in H3.
    + by apply Z.ltb_ge in H4.
    + by intros ->.
    + lia.
  - intros [H1 H2 H3 H4 H5 H6]. split_and!.
    + destruct status; try done. cbn. destruct H1 as (-> & Hr & ->); [done|].
      rewrite (proj2 (Z.eqb_neq _ _) Hr). done.
    + destruct status; try done. destruct H2 as (-> & -> & Ht); [done|].
      rewrite (proj2 Htech Ht). done.
    + destruct status; try done. cbn. apply bool_decide_eq_false. auto.
    + rewrite (proj2 (Z.ltb_ge _ _) H4). cbn. destruct complete; [|done]. by rewrite H5.
    + lia.
Qed.
