(* ===== verification/RunCoverage.v ===== *)
(** * Coverage of a run ([run_coverage.py])

    The projection of the stored files of a run to reviewed, excluded and uncovered ones, its
    stored JSON and the reader that accepts it, and the final adjustments before a result is
    rendered. *)

From Stdlib Require Import String.
From stdpp Require Import gmap.
From S2P Require Import Prelude PyText PyHash UnifiedDiff DiffMap ReviewIgnore RunFailures.
From S2P Require Import VcsInput DiffSnapshots CoverageSchema.
#[local] Open Scope Z_scope.

(** ** Commit identities ([git_identity.py]) *)

Definition is_lower_hex (c : char) : bool := in_ranges [(48, 57); (97, 102)]%N c.
Definition is_hex (c : char) : bool := in_ranges [(48, 57); (65, 70); (97, 102)]%N c.

Definition is_commit_sha (value : json) : bool :=
  match value with
  | JStr s => py_all is_hex s && ((py_len s =? 40) || (py_len s =? 64))
  | _ => false
  end.

Definition is_canonical_sha1 (value : json) : bool :=
  match value with
  | JStr s => is_commit_sha (JStr s) && (py_len s =? 40) && (s =?s str_lower s)
  | _ => false
  end.

(** ** Coverage *)

Definition LEGACY_TECHNICAL_REASON_CODES : list pystr :=
  [u8 "too_large"; u8 "unsupported_change"].

Record RunCoverage : Type := mkRunCoverage {
  rc_status : CoverageStatus;
  rc_reviewed_files : Z;
  rc_exclusions : list CoverageItem;
  rc_reasons : list CoverageItem;
  rc_head_sha : pystr;
  rc_diff_digest : pystr;
  rc_snapshot_digest : pystr;
  rc_total_files : Z;
  rc_file_list_complete : bool;
  rc_stored_reason_counts : list (pystr * Z);
  rc_stored_exclusion_counts : list (pystr * Z);
  rc_durable_reviewable_paths : option (gset pystr);
  rc_stored_reason_variant_counts : list (pystr * Z)
}.

(** [dict(stored) or dict(Counter(...))] *)
Definition stored_or (stored : list (pystr * Z)) (counted : counts) : counts :=
  match stored with [] => counted | _ => list_to_map (rev stored) end.

Definition reason_variant_counts (c : RunCoverage) : counts :=
  stored_or (rc_stored_reason_variant_counts c) (counter (omap reason_variant (rc_reasons c))).
Definition reason_counts (c : RunCoverage) : counts :=
  stored_or (rc_stored_reason_counts c) (counter (ci_reason <$> rc_reasons c)).
Definition exclusion_counts (c : RunCoverage) : counts :=
  stored_or (rc_stored_exclusion_counts c) (counter (ci_reason <$> rc_exclusions c)).

(** [None] for the [KeyError] of a variant without a text. *)
Definition variant_texts (variants : counts) : option counts :=
  foldr (λ kv acc, m ← acc; text ← assoc (fst kv) REASON_VARIANT_TEXT; Some (cadd m text (snd kv)))
    (Some ∅) (citems variants).

Definition summary_problem (c : RunCoverage) : option pystr :=
  let prefix := if bool_decide (rc_status c = Cov_partial) then u8 "Проверка неполная"
                else u8 "Текстовые изменения не проверены" in
  let specialized := by_reason (reason_variant_counts c) in
  texts ← variant_texts (reason_variant_counts c);
  let texts :=
    foldr (λ kv m, if cget specialized (fst kv) <? snd kv
                   then cadd m (code_text (fst kv)) (snd kv - cget specialized (fst kv))
                   else m) texts (citems (reason_counts c)) in
  let causes := join (u8 "; ") ((λ kv, fst kv ++ u8 " (" ++ str_of_Z (snd kv) ++ u8 ")")
                                <$> sorted_items texts) in
  Some (prefix ++ (if causes =?s [] then [] else u8 ": " ++ causes) ++ u8 ".").

(** The longest run of backquotes. *)
Fixpoint longest_run (q : char) (s : pystr) (current best : nat) : nat :=
  match s with
  | [] => Nat.max current best
  | c :: s' => if (c =? q)%N then longest_run q s' (S current) best
               else longest_run q s' 0 (Nat.max current best)
  end.

Definition explanation_line (item : CoverageItem) : pystr :=
  let path := match ci_path item with
              | None => []
              | Some p =>
                  let display := take 120 p in
                  let delimiter := repeat 96%N (1 + longest_run 96%N display 0 0) in
                  delimiter ++ u8 " " ++ display ++ u8 " " ++ delimiter
              end in
  u8 "- " ++ (if path =?s [] then [] else path ++ u8 ": ") ++ reason_text item.

Definition body_explanation (c : RunCoverage) : pystr :=
  let remaining := csum (reason_counts c) - Z.min (py_len (rc_reasons c)) 5 in
  join [LF] ((explanation_line <$> take 5 (rc_reasons c))
             ++ (if remaining =? 0 then []
                 else [u8 "- Ещё причин: " ++ str_of_Z remaining])).

Definition all_excluded (c : RunCoverage) : bool :=
  rc_file_list_complete c && (0 <? rc_total_files c)
  && (csum (exclusion_counts c) =? rc_total_files c) && bool_decide (length (rc_reasons c) = 0%nat).

Definition technical_only (c : RunCoverage) : bool :=
  bool_decide (rc_status c = Cov_none) && negb (bool_decide (length (rc_reasons c) = 0%nat)).

(** ** The stored form *)

Definition item_json (item : CoverageItem) : json :=
  let path := if ci_reason item =?s u8 "ignored" then None else ci_path item in
  JObj ([(u8 "path", JOpt JStr path);
         (u8 "reason", JStr (ci_reason item));
         (u8 "change_type", JOpt JStr (ci_change_type item))]
        ++ (if ci_empty_addition_candidate item
            then [(u8 "empty_addition_candidate", JBool true)] else [])).

(** The order of the tuples [(path or "", reason, change_type or "")]. *)
Definition lex_leb (a b : pystr) (next : bool) : bool := if a =?s b then next else str_leb a b.
Definition item_leb (a b : CoverageItem) : bool :=
  lex_leb (default [] (ci_path a)) (default [] (ci_path b))
    (lex_leb (ci_reason a) (ci_reason b)
       (str_leb (default [] (ci_change_type a)) (default [] (ci_change_type b)))).

Definition items_json (items : list CoverageItem) : json :=
  JList (item_json <$> take 20 (py_sorted item_leb items)).

Definition counts_json (m : counts) : json := JObj ((λ kv, (fst kv, JInt (snd kv))) <$> sorted_items m).

Definition to_json (c : RunCoverage) : json :=
  JObj ([(u8 "version", JInt 1);
         (u8 "head_sha", JStr (rc_head_sha c));
         (u8 "diff_digest", JStr (rc_diff_digest c));
         (u8 "snapshot_digest", JStr (rc_snapshot_digest c));
         (u8 "file_list_complete", JBool (rc_file_list_complete c));
         (u8 "total_files", JInt (rc_total_files c));
         (u8 "reviewed_files", JInt (rc_reviewed_files c));
         (u8 "status", JStr (CoverageStatus_value (rc_status c)));
         (u8 "exclusion_counts", counts_json (exclusion_counts c));
         (u8 "reason_counts", counts_json (reason_counts c));
         (u8 "exclusions", items_json (rc_exclusions c));
         (u8 "reasons", items_json (rc_reasons c))]
        ++ (if (20 <? csum (reason_counts c)) && bool_decide (reason_variant_counts c ≠ ∅)
            then [(u8 "reason_variant_counts", counts_json (reason_variant_counts c))] else [])).

(** ** Adjustments before rendering *)

(** The reasons, their counts and the reviewed files, as the three steps change them. *)
Definition tallies : Type := list CoverageItem * counts * Z.

(** A count-only coverage cannot say which reviewed files were sent whole. *)
Definition withhold_unproven (c : RunCoverage) (incomplete_paths : list pystr) : tallies :=
  if negb (bool_decide (incomplete_paths = []))
     && bool_decide (rc_durable_reviewable_paths c = None) && negb (rc_reviewed_files c =? 0) then
    let unproven := rc_reviewed_files c
      + (if chas (reason_counts c) (u8 "classification_unavailable") then 0 else 1) in
    (rc_reasons c ++ replicate (Z.to_nat unproven)
                       (bare_item None (u8 "classification_unavailable")),
     cadd (reason_counts c) (u8 "classification_unavailable") unproven, 0)
  else (rc_reasons c, reason_counts c, rc_reviewed_files c).

(** The reviewed files that were not sent whole. *)
Definition affected_paths (c : RunCoverage) (incomplete_paths : list pystr) (reviewed : Z)
  : list pystr :=
  py_prefix reviewed
    (py_sorted str_leb (elements (list_to_set incomplete_paths
                                  ∩ default ∅ (rc_durable_reviewable_paths c) : gset pystr))).

Definition mark_affected (affected : list pystr) (t : tallies) : tallies :=
  let '(reasons, cs, reviewed) := t in
  match affected with
  | [] => t
  | _ => (reasons ++ ((λ p, bare_item (Some p) (u8 "review_input_incomplete")) <$> affected),
          cadd cs (u8 "review_input_incomplete") (py_len affected), reviewed)
  end.

Definition mark_unknown (unknown_path_count : Z) (t : tallies) : tallies :=
  let '(reasons, cs, reviewed) := t in
  if unknown_path_count =? 0 then t
  else (reasons ++ replicate (Z.to_nat unknown_path_count) (bare_item None (u8 "unknown_path")),
        cadd cs (u8 "unknown_path") unknown_path_count, reviewed).

Definition finalize_run_coverage (c : RunCoverage) (incomplete_paths : list pystr)
    (unknown_path_count : Z) : RunCoverage :=
  let t := withhold_unproven c incomplete_paths in
  let affected := affected_paths c incomplete_paths (snd t) in
  let '(reasons, cs, reviewed) := mark_unknown unknown_path_count (mark_affected affected t) in
  if bool_decide (affected = []) && (unknown_path_count =? 0) && (reviewed =? rc_reviewed_files c)
  then c
  else mkRunCoverage Cov_partial (reviewed - py_len affected) (rc_exclusions c) reasons
         (rc_head_sha c) (rc_diff_digest c) (rc_snapshot_digest c) (rc_total_files c)
         (rc_file_list_complete c) (sorted_items cs) (rc_stored_exclusion_counts c)
         ((λ m, m ∖ list_to_set affected) <$> rc_durable_reviewable_paths c)
         (rc_stored_reason_variant_counts c).

Definition set_status (c : RunCoverage) (s : CoverageStatus) : RunCoverage :=
  mkRunCoverage s (rc_reviewed_files c) (rc_exclusions c) (rc_reasons c) (rc_head_sha c)
    (rc_diff_digest c) (rc_snapshot_digest c) (rc_total_files c) (rc_file_list_complete c)
    (rc_stored_reason_counts c) (rc_stored_exclusion_counts c) (rc_durable_reviewable_paths c)
    (rc_stored_reason_variant_counts c).

Definition coverage_published_for_summary_only (c : RunCoverage) : RunCoverage :=
  if bool_decide (rc_status c = Cov_partial) || bool_decide (length (rc_reasons c) = 0%nat)
  then c else set_status c Cov_partial.

(** ** Projection *)

Definition snapshot_json (s : DiffSnapshot) : json :=
  JObj [(u8 "filename", JStr (ds_filename s));
        (u8 "patch", JOpt JStr (ds_patch s));
        (u8 "blob_sha", JOpt JStr (ds_blob_sha s));
        (u8 "status", JStr (FileStatus_value (ds_status s)));
        (u8 "previous_filename", JOpt JStr (ds_previous_filename s));
        (u8 "additions", JInt (ds_additions s));
        (u8 "deletions", JInt (ds_deletions s));
        (u8 "changes", JInt (ds_changes s));
        (u8 "omission_reason", JOpt JStr (ds_omission_reason s));
        (u8 "review_patch", JOpt JStr (ds_review_patch s));
        (u8 "summary_only", JBool (ds_summary_only s))].

Definition snapshot_coverage_digest (snapshots : list DiffSnapshot) : pystr :=
  json_digest (JList (snapshot_json <$> snapshots)).

(** A provider patch that says nothing but a move, or a change of the mode. *)
Definition proven_metadata_only (s : DiffSnapshot) : bool :=
  if negb (ds_additions s =? 0) || negb (ds_deletions s =? 0) || negb (ds_changes s =? 0)
  then false
  else match ds_patch s with
  | None => false
  | Some patch =>
      let text := rstrip_with (N.eqb LF) patch in
      let header old := u8 "diff --git a/" ++ old ++ u8 " b/" ++ ds_filename s ++ [LF] in
      match ds_status s, ds_previous_filename s with
      | Status_renamed, Some previous =>
          text =?s header previous ++ u8 "similarity index 100%" ++ [LF]
                   ++ u8 "rename from " ++ previous ++ [LF]
                   ++ u8 "rename to " ++ ds_filename s
      | Status_changed, _ =>
          let prefix := header (ds_filename s) in
          (text =?s prefix ++ u8 "old mode 100644" ++ [LF] ++ u8 "new mode 100755")
          || (text =?s prefix ++ u8 "old mode 100755" ++ [LF] ++ u8 "new mode 100644")
      | _, _ => false
      end
  end.

(** The class of one file: uncovered, excluded, or reviewed under a path. *)
Inductive file_class : Type :=
| Uncovered (item : CoverageItem)
| Excluded (item : CoverageItem)
| Reviewed (path : option pystr).

Definition policy_excludes (ignore : option IgnoreResult) (file : DiffFile) : bool :=
  match ignore with
  | None => false
  | Some r =>
      negb (bool_decide (decision_for r (df_file_id file) = None))
      || py_any (λ name, match name with
                         | Some n => negb (n =?s []) && bool_decide (n ∈ ir_denied_paths r)
                         | None => false
                         end) [df_old_path file; df_new_path file]
  end.

Definition is_reason (reason : option pystr) (code : pystr) : bool := ostr_eqb reason (Some code).

(** The branches of the loop of [_project_run_coverage]. *)
Definition classify_file (ignore : option IgnoreResult) (summary_only : bool)
    (snapshot : DiffSnapshot) (file : DiffFile) : file_class :=
  let path := py_or (df_new_path file) (df_old_path file) in
  let change := Some (ChangeType_value (df_change_type file)) in
  let missing := mkCoverageItem path (u8 "missing_patch") change
                   (empty_addition_candidate snapshot) in
  let plain reason := mkCoverageItem path reason change false in
  match df_omission_reason file with
  | Some r => Uncovered (mkCoverageItem None (DiffOmissionReason_value r) change false)
  | None =>
      if policy_excludes ignore file then Excluded (plain (u8 "ignored"))
      else if is_proven_empty_snapshot snapshot then Excluded (plain (u8 "empty_file"))
      else if is_reason (ds_omission_reason snapshot) (u8 "binary")
              || is_reason (ds_omission_reason snapshot) (u8 "generated")
              || bool_decide (df_patch_state file = Patch_binary)
      then Excluded (plain (if is_reason (ds_omission_reason snapshot) (u8 "generated")
                            then u8 "generated" else u8 "binary"))
      else if is_reason (ds_omission_reason snapshot) (u8 "too_large")
      then Uncovered (plain (u8 "too_large"))
      else if summary_only && is_reason (ds_omission_reason snapshot) (u8 "missing_patch")
      then Uncovered missing
      else if summary_only then Uncovered (plain (u8 "summary_only"))
      else if proven_metadata_only snapshot then Uncovered (plain (u8 "unsupported_change"))
      else if bool_decide (df_patch_state file ∈ [Patch_truncated; Patch_malformed;
                                                  Patch_unsupported])
      then Uncovered (plain (u8 "patch_" ++ PatchState_value (df_patch_state file)))
      else if negb (bool_decide (ds_review_patch snapshot = None))
              && negb (ostr_eqb (ds_review_patch snapshot) (vf_patch (snapshot_vcs_file snapshot)))
      then Uncovered (plain (u8 "review_input_incomplete"))
      else if anchorable file && negb (bool_decide (ds_review_patch snapshot = None))
              && bool_decide (ds_omission_reason snapshot = None)
              && ((ds_changes snapshot =? ds_additions snapshot + ds_deletions snapshot)
                  && (0 <? ds_additions snapshot + ds_deletions snapshot))
      then Reviewed path
      else Uncovered missing
  end.

Definition uncovered_of (k : file_class) : option CoverageItem :=
  match k with Uncovered i => Some i | _ => None end.
Definition excluded_of (k : file_class) : option CoverageItem :=
  match k with Excluded i => Some i | _ => None end.
Definition reviewed_of (k : file_class) : option (option pystr) :=
  match k with Reviewed p => Some p | _ => None end.

(** [zip(.., strict=True)] *)
Fixpoint zip_strict {A B} (l1 : list A) (l2 : list B) : option (list (A * B)) :=
  match l1, l2 with
  | [], [] => Some []
  | a :: l1', b :: l2' => cons (a, b) <$> zip_strict l1' l2'
  | _, _ => None
  end.

(** [None] when the file lists differ in length, which raises. *)
Definition project_run_coverage_ (snapshots : list DiffSnapshot) (diff_map : DiffMap)
    (ignore : option IgnoreResult) (snapshot_digest : pystr) (snapshot_path : bool)
  : option RunCoverage :=
  let summary_only := py_any ds_summary_only snapshots in
  pairs ← zip_strict snapshots (dm_files diff_map);
  let classes := (λ sf, classify_file ignore summary_only (fst sf) (snd sf)) <$> pairs in
  let reasons :=
    (if dm_file_list_complete diff_map then []
     else [bare_item None (u8 "diff_inventory_incomplete")]) ++ omap uncovered_of classes in
  let reviewed_paths := omap reviewed_of classes in
  let reviewed := py_len reviewed_paths in
  let technical := if snapshot_path then TECHNICAL_REASON_CODES
                   else LEGACY_TECHNICAL_REASON_CODES in
  let incomplete := py_any (λ i, negb (str_mem (ci_reason i) technical)) reasons in
  let status :=
    if incomplete || (negb (reviewed =? 0) && negb (bool_decide (length reasons = 0%nat)))
    then Cov_partial
    else if negb (reviewed =? 0) then Cov_complete else Cov_none in
  Some (mkRunCoverage status reviewed (omap excluded_of classes) reasons (dm_head_sha diff_map)
          (dm_digest diff_map) snapshot_digest (py_len snapshots)
          (dm_file_list_complete diff_map) [] []
          (Some (list_to_set (omap id reviewed_paths))) []).

Definition project_run_coverage (snapshots : list DiffSnapshot) (diff_map : DiffMap)
    (ignore : option IgnoreResult) (snapshot_path : bool) : option RunCoverage :=
  project_run_coverage_ snapshots diff_map ignore (snapshot_coverage_digest snapshots)
    snapshot_path.

(** ** Reading stored coverage *)

Definition jstr_is (v : option json) (s : pystr) : bool :=
  match v with Some (JStr x) => x =?s s | _ => false end.
Definition jbool (v : option json) : option bool :=
  match v with Some (JBool b) => Some b | _ => None end.
Definition jint (v : option json) : option Z :=
  match v with Some (JInt z) => Some z | _ => None end.
Definition jstr (v : option json) : option pystr :=
  match v with Some (JStr s) => Some s | _ => None end.
Definition jint_is (v : option json) (z : Z) : bool := bool_decide (jint v = Some z).
Definition jbool_is (v : option json) (b : bool) : bool := bool_decide (jbool v = Some b).

(** Each count is at most the count another map has for it. *)
Definition counts_within (m bound : counts) (counted : pystr → bool) : bool :=
  py_all (λ kv, negb (counted (fst kv)) || (snd kv <=? cget bound (fst kv))) (citems m).

Definition snapshot_names (snapshots : list DiffSnapshot) : list pystr :=
  (ds_filename <$> snapshots)
  ++ omap (λ s, match ds_previous_filename s with Some [] => None | p => p end) snapshots.

(** [_restore_run_coverage]: the outer [None] is the error of the projection. *)
Definition restore_run_coverage_ (value : json) (snapshots : list DiffSnapshot)
    (diff_map : DiffMap) (snapshot_digest : pystr) : option (option RunCoverage) :=
  match value with
  | JObj kvs =>
      let get k := jget k kvs in
      if negb (jint_is (get (u8 "version")) 1)
         || negb (jstr_is (get (u8 "head_sha")) (dm_head_sha diff_map))
         || negb (jstr_is (get (u8 "diff_digest")) (dm_digest diff_map))
         || negb (jstr_is (get (u8 "snapshot_digest")) snapshot_digest)
         || negb (jbool_is (get (u8 "file_list_complete")) (dm_file_list_complete diff_map))
         || negb (jint_is (get (u8 "total_files")) (py_len snapshots))
      then Some None
      else
      match jint (get (u8 "reviewed_files")), jstr (get (u8 "status")) ≫= coverage_status with
      | Some reviewed, Some status =>
          if negb ((0 <=? reviewed) && (reviewed <=? py_len snapshots)) then Some None
          else
          match read_coverage_counts (default JNull (get (u8 "reason_counts"))) COVERAGE_REASON_CODES,
                read_coverage_counts (default JNull (get (u8 "exclusion_counts")))
                  COVERAGE_EXCLUSION_CODES with
          | Some reasons, Some exclusions =>
              available ← project_run_coverage_ snapshots diff_map None snapshot_digest false;
              if (rc_reviewed_files available <? reviewed)
                 || negb (counts_within exclusions (exclusion_counts available)
                            (λ r, negb (r =?s u8 "ignored")))
                 || negb (counts_within reasons (reason_counts available) (λ _, true))
                 || py_any (λ r, negb (cget reasons r =? cget (reason_counts available) r))
                      [u8 "unsupported_path"; u8 "identity_unresolved"]
                 || negb (valid_coverage_status status reviewed (py_len snapshots)
                            (dm_file_list_complete diff_map) reasons exclusions)
                 || negb (Bool.eqb (negb (dm_file_list_complete diff_map))
                            (cget reasons (u8 "diff_inventory_incomplete") =? 1))
                 || (bool_decide (status = Cov_complete)
                     && py_any (λ f, negb (bool_decide (df_omission_reason f = None)))
                          (dm_files diff_map))
              then Some None
              else
              let paths := snapshot_names snapshots in
              Some (
                reason_items ← read_coverage_items (default JNull (get (u8 "reasons"))) reasons
                                 (Some paths);
                exclusion_items ← read_coverage_items (default JNull (get (u8 "exclusions")))
                                    exclusions (Some paths);
                let qualified_paths :=
                  ds_filename <$> List.filter empty_addition_candidate snapshots in
                if py_any (λ i, ci_empty_addition_candidate i
                                && negb (match ci_path i with
                                         | Some p => str_mem p qualified_paths
                                         | None => false
                                         end)) reason_items
                then None
                else
                variants ← read_reason_variants (get (u8 "reason_variant_counts")) reasons
                             reason_items;
                if negb (counts_within variants (reason_variant_counts available) (λ _, true))
                then None
                else
                Some (mkRunCoverage status reviewed exclusion_items reason_items
                        (dm_head_sha diff_map) (dm_digest diff_map) snapshot_digest
                        (py_len snapshots) (dm_file_list_complete diff_map)
                        (sorted_items reasons) (sorted_items exclusions)
                        (rc_durable_reviewable_paths available) (sorted_items variants)))
          | _, _ => Some None
          end
      | _, _ => Some None
      end
  | _ => Some None
  end.

Definition restore_run_coverage (value : json) (snapshots : list DiffSnapshot)
    (diff_map : DiffMap) : option (option RunCoverage) :=
  restore_run_coverage_ value snapshots diff_map (snapshot_coverage_digest snapshots).

(** ** Coverage that cannot be restored *)

Definition status_change_type (s : FileStatus) : pystr :=
  match s with
  | Status_changed => u8 "mode_changed"
  | Status_removed => u8 "deleted"
  | _ => FileStatus_value s
  end.

Definition unavailable_class (metadata_only : bool) (s : DiffSnapshot) : file_class :=
  let change := Some (status_change_type (ds_status s)) in
  let uncovered reason := Uncovered (mkCoverageItem None reason change false) in
  let omission := ds_omission_reason s in
  if negb (is_supported_path (ds_filename s))
     || match ds_previous_filename s with Some p => negb (is_supported_path p) | None => false end
  then uncovered (u8 "unsupported_path")
  else if bool_decide (ds_status s ∈ [Status_renamed; Status_copied])
          && bool_decide (ds_previous_filename s = None)
  then uncovered (u8 "identity_unresolved")
  else if is_proven_empty_snapshot s || is_reason omission (u8 "binary")
          || is_reason omission (u8 "generated")
  then Excluded (mkCoverageItem None (default (u8 "empty_file") (py_or omission None)) change false)
  else if is_reason omission (u8 "too_large") then uncovered (u8 "too_large")
  else if is_reason omission (u8 "missing_patch") then uncovered (u8 "missing_patch")
  else uncovered (if ds_summary_only s then u8 "summary_only"
                  else if metadata_only || negb (bool_decide (ds_review_patch s = None))
                  then u8 "classification_unavailable" else u8 "missing_patch").

Definition unavailable_run_coverage_ (snapshots : list DiffSnapshot) (head_sha : pystr)
    (metadata_only : bool) (snapshot_digest : pystr) : RunCoverage :=
  let classes := unavailable_class metadata_only <$> snapshots in
  mkRunCoverage Cov_partial 0 (omap excluded_of classes)
    (bare_item None (u8 "classification_unavailable") :: omap uncovered_of classes)
    head_sha [] snapshot_digest (py_len snapshots) false [] [] None [].

Definition unavailable_run_coverage (snapshots : list DiffSnapshot) (head_sha : pystr)
    (metadata_only : bool) : RunCoverage :=
  unavailable_run_coverage_ snapshots head_sha metadata_only (snapshot_coverage_digest snapshots).

(** ** The coverage of a saved context *)

Record CoverageContextPins : Type := mkCoverageContextPins {
  cp_diff_old_sha : option pystr;
  cp_file_list_complete : bool
}.

Definition read_context_coverage_pins (request response : option json) (head_sha : pystr)
  : option CoverageContextPins :=
  match request, response with
  | Some (JObj req), Some (JObj resp) =>
      if negb (jstr_is (jget (u8 "head_sha") req) head_sha) then None
      else
      match jget (u8 "coverage") resp, jget (u8 "diff") resp with
      | Some (JObj coverage), Some (JObj diff) =>
          let old_sha := default JNull (jget (u8 "diff_old_sha") diff) in
          match jbool (jget (u8 "file_list_complete") coverage),
                jstr (jget (u8 "diff_digest") coverage) with
          | Some complete, Some digest =>
              if negb (jint_is (jget (u8 "version") coverage) 1)
                 || negb (jstr_is (jget (u8 "head_sha") coverage) head_sha)
                 || negb (py_all is_lower_hex digest && (py_len digest =? 64))
                 || negb (jstr_is (jget (u8 "digest") diff) digest)
              then None
              else match old_sha with
                   | JNull => Some (mkCoverageContextPins None complete)
                   | JStr sha => if is_canonical_sha1 (JStr sha)
                                 then Some (mkCoverageContextPins (Some sha) complete) else None
                   | _ => None
                   end
          | _, _ => None
          end
      | _, _ => None
      end
  | _, _ => None
  end.

Definition restore_context_coverage (request response : option json)
    (snapshots : list DiffSnapshot) (diff_map : DiffMap) : option RunCoverage :=
  let snapshot_digest := snapshot_coverage_digest snapshots in
  let unavailable :=
    unavailable_run_coverage_ snapshots (dm_head_sha diff_map) false snapshot_digest in
  match read_context_coverage_pins request response (dm_head_sha diff_map), response with
  | Some pins, Some (JObj resp) =>
      if ostr_eqb (cp_diff_old_sha pins) (dm_diff_old_sha diff_map)
         && Bool.eqb (cp_file_list_complete pins) (dm_file_list_complete diff_map)
      then
        restored ← restore_run_coverage_ (default JNull (jget (u8 "coverage") resp)) snapshots
                     diff_map snapshot_digest;
        Some (default unavailable restored)
      else Some unavailable
  | _, _ => Some unavailable
  end.

(** ** Validity *)

Definition coverage_valid (c : RunCoverage) : Prop :=
  valid_coverage_status (rc_status c) (rc_reviewed_files c) (rc_total_files c)
    (rc_file_list_complete c) (reason_counts c) (exclusion_counts c) = true.

(** Evaluate the comparisons of constant codes. *)
Ltac eval_codes :=
  repeat match goal with
  | |- context [?a =?s ?b] =>
      let v := eval vm_compute in (a =?s b) in
      match v with true => idtac | false => idtac end;
      change (a =?s b) with v
  end.

Lemma cadd_nonempty m k n : cadd m k n ≠ ∅.
Proof. apply insert_non_empty. Qed.

Lemma stored_or_sorted m counted : m ≠ ∅ → stored_or (sorted_items m) counted = m.
Proof.
  intros Hm. rewrite <- (sorted_items_map m) at 2. unfold stored_or.
  destruct (sorted_items m) eqn:E; [|done].
  destruct Hm. rewrite <- (sorted_items_map m), E. done.
Qed.

Section Finalize.
Context (c : RunCoverage) (incomplete_paths : list pystr) (unknown_path_count : Z).

Lemma affected_paths_In reviewed p :
  In p (affected_paths c incomplete_paths reviewed) →
  In p incomplete_paths ∧ ∃ m, rc_durable_reviewable_paths c = Some m ∧ p ∈ m.
Proof.
  unfold affected_paths, py_prefix. intros H.
  assert (Hin : In p (py_sorted str_leb (elements (list_to_set incomplete_paths
                  ∩ default ∅ (rc_durable_reviewable_paths c) : gset pystr)))).
  { destruct (0 <=? reviewed); (eapply list_elem_of_In, subseteq_take, list_elem_of_In, H). }
  apply In_py_sorted, list_elem_of_In, elem_of_elements, elem_of_intersection in Hin as [H1 H2].
  apply elem_of_list_to_set, list_elem_of_In in H1. split; [done|].
  destruct (rc_durable_reviewable_paths c) as [m|]; [eauto|]. by apply elem_of_empty in H2.
Qed.

Lemma affected_paths_nil reviewed p m :
  0 < reviewed → affected_paths c incomplete_paths reviewed = [] → rc_durable_reviewable_paths c = Some m →
  In p incomplete_paths → p ∉ m.
Proof.
  intros Hr H Hm Hp Hin. unfold affected_paths, py_prefix in H. rewrite Hm in H. cbn in H.
  rewrite (proj2 (Z.leb_le 0 reviewed)) in H by lia.
  assert (Hx : In p (py_sorted str_leb (elements (list_to_set incomplete_paths ∩ m : gset pystr)))).
  { apply In_py_sorted, list_elem_of_In, elem_of_elements, elem_of_intersection.
    split; [|done]. by apply elem_of_list_to_set, list_elem_of_In. }
  destruct (py_sorted str_leb _); [done|]. destruct (Z.to_nat reviewed) eqn:E; [lia|done].
Qed.

(** The counters of a coverage with [reviewed] files add up. *)
Definition adds_up (cs : counts) (reviewed : Z) : Prop :=
  cget cs (u8 "diff_inventory_incomplete") ≤ 1
  ∧ (rc_file_list_complete c = true → chas cs (u8 "diff_inventory_incomplete") = false)
  ∧ reviewed + csum cs + csum (exclusion_counts c)
    = rc_total_files c
      + ((if chas cs (u8 "classification_unavailable") then 1 else 0)
         + cget cs (u8 "diff_inventory_incomplete") + cget cs (u8 "unknown_path")).

Lemma adds_up_unproven cs reviewed :
  adds_up cs reviewed →
  adds_up (cadd cs (u8 "classification_unavailable")
             (reviewed + (if chas cs (u8 "classification_unavailable") then 0 else 1))) 0.
Proof.
  unfold adds_up. rewrite csum_cadd, !cget_cadd, !chas_cadd. eval_codes.
  rewrite !orb_false_l, orb_true_l.
  destruct (chas cs (u8 "classification_unavailable")); intuition lia.
Qed.

Lemma adds_up_affected cs reviewed n :
  adds_up cs reviewed → adds_up (cadd cs (u8 "review_input_incomplete") n) (reviewed - n).
Proof.
  unfold adds_up. rewrite csum_cadd, !cget_cadd, !chas_cadd. eval_codes. rewrite !orb_false_l.
  intuition lia.
Qed.

Lemma adds_up_unknown cs reviewed n :
  adds_up cs reviewed → adds_up (cadd cs (u8 "unknown_path") n) reviewed.
Proof.
  unfold adds_up. rewrite csum_cadd, !cget_cadd, !chas_cadd. eval_codes. rewrite !orb_false_l.
  intuition lia.
Qed.

Definition named_honestly (i : CoverageItem) : Prop :=
  In i (rc_reasons c) ∨ ci_path i = None
  ∨ ∃ p m, ci_path i = Some p ∧ In p incomplete_paths
           ∧ rc_durable_reviewable_paths c = Some m ∧ p ∈ m.

(** The state of the counters along the steps; [whole] when nothing has changed. *)
Definition tallies_ok (t : tallies) (reviewed : Z) : Prop :=
  let '(reasons, cs, _) := t in
  (adds_up (reason_counts c) (rc_reviewed_files c) → adds_up cs reviewed)
  ∧ ∀ i, In i reasons → named_honestly i.

Lemma withhold_unproven_ok :
  let t := withhold_unproven c incomplete_paths in
  tallies_ok t (snd t)
  ∧ ((t = (rc_reasons c, reason_counts c, rc_reviewed_files c)
      ∧ ¬ (incomplete_paths ≠ [] ∧ rc_durable_reviewable_paths c = None
           ∧ rc_reviewed_files c ≠ 0))
     ∨ (snd (fst t) ≠ ∅ ∧ snd t = 0 ∧ rc_reviewed_files c ≠ 0)).
Proof.
  unfold withhold_unproven. destruct (_ && negb (rc_reviewed_files c =? 0)) eqn:Hu; cbn.
  - apply andb_true_iff in Hu as [_ Hr]. to_prop. split_and!.
    + apply adds_up_unproven.
    + intros i [Hi|Hi]%in_app_iff; [by left|]. right. left.
      apply list_elem_of_In, elem_of_replicate in Hi as [-> _]. done.
    + right. split_and!; [apply cadd_nonempty|done..].
  - split_and!; [done|by left|]. left. split; [done|]. intros (Hi & Hm & Hr).
    rewrite Hm in Hu. destruct incomplete_paths; [done|]. cbn in Hu.
    apply negb_false_iff, Z.eqb_eq in Hu. done.
Qed.

Lemma mark_affected_ok t :
  tallies_ok t (snd t) →
  let affected := affected_paths c incomplete_paths (snd t) in
  tallies_ok (mark_affected affected t) (snd t - py_len affected)
  ∧ snd (mark_affected affected t) = snd t
  ∧ (affected ≠ [] → snd (fst (mark_affected affected t)) ≠ ∅).
Proof.
  destruct t as [[reasons cs] reviewed]. cbn [snd]. intros [Ha Hn].
  unfold mark_affected. destruct (affected_paths c incomplete_paths reviewed) as [|p ps] eqn:E.
  - split; [|done]. by rewrite Z.sub_0_r.
  - cbn [fst snd]. split; [|split; [done|intros _; apply cadd_nonempty]]. split.
    + intros H. by apply adds_up_affected, Ha.
    + intros i [Hi|Hi]%in_app_iff; [by apply Hn|]. right. right.
      apply list_elem_of_In, list_elem_of_fmap in Hi as (q & -> & Hq).
      rewrite <- E in Hq. apply list_elem_of_In, affected_paths_In in Hq as (? & m & ? & ?).
      by exists q, m.
Qed.

Lemma mark_unknown_ok t reviewed :
  tallies_ok t reviewed →
  tallies_ok (mark_unknown unknown_path_count t) reviewed
  ∧ snd (mark_unknown unknown_path_count t) = snd t
  ∧ (unknown_path_count ≠ 0 ∨ snd (fst t) ≠ ∅ → snd (fst (mark_unknown unknown_path_count t)) ≠ ∅).
Proof.
  destruct t as [[reasons cs] r]. intros [Ha Hn]. unfold mark_unknown.
  destruct (Z.eqb_spec unknown_path_count 0) as [->|Hu]; cbn [fst snd].
  - split; [done|]. split; [done|]. by intros [].
  - split; [|split; [done|intros _; apply cadd_nonempty]]. split.
    + intros H. by apply adds_up_unknown, Ha.
    + intros i [Hi|Hi]%in_app_iff; [by apply Hn|]. right. left.
      apply list_elem_of_In, elem_of_replicate in Hi as [-> _]. done.
Qed.
End Finalize.

(** What the final adjustment gives: the same coverage, or a partial one whose counters add up. *)
Lemma finalize_cases c incomplete_paths unknown_path_count :
  let c' := finalize_run_coverage c incomplete_paths unknown_path_count in
  (c' = c ∧ unknown_path_count = 0
   ∧ ¬ (incomplete_paths ≠ [] ∧ rc_durable_reviewable_paths c = None ∧ rc_reviewed_files c ≠ 0)
   ∧ affected_paths c incomplete_paths (rc_reviewed_files c) = [])
  ∨ (rc_status c' = Cov_partial ∧ reason_counts c' ≠ ∅
     ∧ rc_total_files c' = rc_total_files c
     ∧ rc_file_list_complete c' = rc_file_list_complete c
     ∧ exclusion_counts c' = exclusion_counts c
     ∧ (adds_up c (reason_counts c) (rc_reviewed_files c) →
        adds_up c (reason_counts c') (rc_reviewed_files c'))
     ∧ (∀ i, In i (rc_reasons c') → named_honestly c incomplete_paths i)
     ∧ rc_stored_reason_variant_counts c' = rc_stored_reason_variant_counts c
     ∧ let t := withhold_unproven c incomplete_paths in
       reason_counts c'
       = snd (fst (mark_unknown unknown_path_count
                     (mark_affected (affected_paths c incomplete_paths (snd t)) t)))).
Proof.
  cbn zeta. unfold finalize_run_coverage. set (t := withhold_unproven c incomplete_paths).
  destruct (withhold_unproven_ok c incomplete_paths) as [Ht Hsame]. fold t in Ht, Hsame.
  destruct (mark_affected_ok c incomplete_paths t Ht) as (Ha & Hra & Hna).
  set (affected := affected_paths c incomplete_paths (snd t)) in *.
  destruct (mark_unknown_ok c incomplete_paths unknown_path_count _ _ Ha) as (Hu & Hru & Hnu).
  rewrite Hra in Hru.
  destruct (mark_unknown unknown_path_count (mark_affected affected t)) as [[reasons cs] reviewed].
  cbn [fst snd] in *. subst reviewed.
  destruct (bool_decide (affected = []) && (unknown_path_count =? 0) && _) eqn:Hd.
  - left. apply andb_true_iff in Hd as [[Hd1 Hd2]%andb_true_iff Hd3]. to_prop.
    destruct Hsame as [[Heq Hno]|(_ & H0 & Hr)]; [|congruence].
    split_and!; [done..|]. unfold affected in Hd1. by rewrite Hd3 in Hd1.
  - right. assert (Hcs : cs ≠ ∅).
    { apply Hnu. destruct (Z.eqb_spec unknown_path_count 0) as [Hz|]; [right|by left].
      destruct (decide (affected = [])) as [Hz'|]; [|by apply Hna].
      destruct Hsame as [[Heq _]|(Hne & _ & _)]; [exfalso|].
      - rewrite bool_decide_true in Hd by done. by rewrite Heq, Z.eqb_refl in Hd.
      - rewrite Hz'. unfold mark_affected. by destruct t as [[? ?] ?]. }
    destruct Hu as [Hu Hi]. unfold reason_counts, exclusion_counts.
    cbn [rc_status rc_reasons rc_total_files rc_file_list_complete rc_reviewed_files
         rc_stored_reason_counts rc_stored_exclusion_counts rc_exclusions].
    rewrite stored_or_sorted by done. split_and!; done.
Qed.

Lemma coverage_valid_iff c :
  coverage_valid c ↔
  status_valid (rc_status c) (rc_reviewed_files c) (rc_total_files c) (rc_file_list_complete c)
    (reason_counts c) (exclusion_counts c).
Proof. apply valid_coverage_status_iff. Qed.

Lemma coverage_valid_adds_up c :
  coverage_valid c → adds_up c (reason_counts c) (rc_reviewed_files c).
Proof. intros [_ _ _ H1 H2 H3]%coverage_valid_iff. done. Qed.

(** ** Theorem *)

(** The final adjustment keeps a coverage consistent and only ever lowers it.  The counters
    still partition the files; a result stays complete only when nothing was unknown and no
    reviewed file was sent in part, and is then unchanged; and a reason it adds names a path only
    when that path is a reviewed file reported as incomplete. *)
Theorem finalize_coverage_sound c incomplete_paths unknown_path_count :
  coverage_valid c → 0 ≤ rc_reviewed_files c →
  let c' := finalize_run_coverage c incomplete_paths unknown_path_count in
  coverage_valid c'
  ∧ (rc_status c' ≠ Cov_partial →
     c' = c ∧ unknown_path_count = 0
     ∧ (rc_reviewed_files c ≠ 0 → ∀ p, In p incomplete_paths →
          ∃ m, rc_durable_reviewable_paths c = Some m ∧ p ∉ m))
  ∧ ∀ i, In i (rc_reasons c') → In i (rc_reasons c) ∨ ci_path i = None
       ∨ ∃ p m, ci_path i = Some p ∧ In p incomplete_paths
                ∧ rc_durable_reviewable_paths c = Some m ∧ p ∈ m.
Proof.
  intros Hv Hr. cbn zeta. destruct (finalize_cases c incomplete_paths unknown_path_count)
    as [(Heq & Hu & Hno & Ha)|(Hs & Hne & Ht & Hc & He & Hadd & Hn & _)].
  - rewrite Heq. split_and!; [done| |by left]. intros _. split_and!; [done..|]. intros Hrne p Hp.
    destruct (rc_durable_reviewable_paths c) as [m|] eqn:Hm.
    + exists m. split; [done|]. by apply (affected_paths_nil c incomplete_paths (rc_reviewed_files c));
        [lia|..].
    + exfalso. apply Hno. split_and!; try done. by intros ->.
  - split_and!; [|by rewrite Hs|done]. apply coverage_valid_iff.
    apply coverage_valid_adds_up, Hadd in Hv as (H1 & H2 & H3). rewrite <- Ht, <- He in H3. rewrite <- Hc in H2.
    constructor; try done; by rewrite Hs.
Qed.

(** A coverage of one reviewed file, sent in part. *)
Definition sample_coverage : RunCoverage :=
  mkRunCoverage Cov_complete 1 [] [] (u8 "h") (u8 "d") (u8 "s") 1 true [] []
    (Some {[u8 "a.py"]}) [].

Lemma finalize_coverage_sound_witness :
  coverage_valid sample_coverage
  ∧ coverage_valid (finalize_run_coverage sample_coverage [u8 "a.py"] 0)
  ∧ rc_status (finalize_run_coverage sample_coverage [u8 "a.py"] 0) = Cov_partial
  ∧ rc_reviewed_files (finalize_run_coverage sample_coverage [u8 "a.py"] 0) = 0.
Proof.
  assert (Hv : coverage_valid sample_coverage) by (vm_compute; reflexivity).
  split; [exact Hv|]. split.
  - refine (proj1 (finalize_coverage_sound sample_coverage [u8 "a.py"] 0 Hv _)).
    vm_compute. discriminate.
  - split; vm_compute; reflexivity.
Defined.
