(* ===== verification/CoverageProjection.v ===== *)
(** * Theorems on projected and stored coverage ([run_coverage.py])

    The projection partitions the files, a complete status means that the model got every file
    that is not excluded, and what is stored is read back. *)

From Stdlib Require Import String.
From stdpp Require Import gmap.
From S2P Require Import Prelude PyText PyHash UnifiedDiff DiffMap ReviewIgnore RunFailures.
From S2P Require Import VcsInput DiffSnapshots CoverageSchema RunCoverage.
#[local] Open Scope Z_scope.

(** ** The classes of the files *)

Definition classes_of (ignore : option IgnoreResult) (snapshots : list DiffSnapshot)
    (files : list DiffFile) : list file_class :=
  zip_with (classify_file ignore (py_any ds_summary_only snapshots)) snapshots files.

Lemma zip_strict_spec {A B} (l1 : list A) : ∀ (l2 : list B),
  zip_strict l1 l2 = if (length l1 =? length l2)%nat then Some (zip l1 l2) else None.
Proof.
  induction l1 as [|a l1 IH]; intros [|b l2]; cbn [zip_strict]; try done.
  rewrite IH. cbn. by destruct (length l1 =? length l2)%nat.
Qed.

Lemma fmap_zip_uncurried {A B C} (g : A → B → C) (l1 : list A) : ∀ l2,
  (λ p, g (fst p) (snd p)) <$> zip l1 l2 = zip_with g l1 l2.
Proof. induction l1 as [|a l1 IH]; intros [|b l2]; cbn; [done..|]. by f_equal. Qed.

(** The reasons a file can be uncovered for: none of the global ones. *)
Definition FILE_REASONS : list pystr :=
  [u8 "missing_patch"; u8 "unsupported_change"; u8 "too_large"; u8 "unsupported_path";
   u8 "identity_unresolved"; u8 "patch_truncated"; u8 "patch_malformed"; u8 "patch_unsupported";
   u8 "summary_only"; u8 "review_input_incomplete"].

Definition class_ok (k : file_class) : Prop :=
  match k with
  | Uncovered i => In (ci_reason i) FILE_REASONS
  | Excluded i => In (ci_reason i) COVERAGE_EXCLUSION_CODES ∧ ci_empty_addition_candidate i = false
  | Reviewed _ => True
  end.

(** Walk through the tests of [classify_file]. *)
Ltac split_tests :=
  repeat match goal with
  | |- context [if ?b then _ else _] => destruct b eqn:?
  end.
Ltac in_codes := apply str_mem_In; vm_compute; reflexivity.

Lemma classify_file_ok ignore so s f : class_ok (classify_file ignore so s f).
Proof.
  unfold classify_file. destruct (df_omission_reason f) as [[]|]; cbn [class_ok ci_reason];
    [in_codes..|].
  destruct (bool_decide (df_patch_state f ∈ _)) eqn:Hp.
  - apply bool_decide_eq_true in Hp.
    rewrite !elem_of_cons, elem_of_nil in Hp. destruct Hp as [Hp|[Hp|[Hp|[]]]]; rewrite Hp.
    all: split_tests; cbn [class_ok ci_reason ci_empty_addition_candidate]; try done;
      first [in_codes | split; [in_codes|done]].
  - split_tests; cbn [class_ok ci_reason ci_empty_addition_candidate]; try done;
      first [in_codes | split; [in_codes|done]].
Qed.

Lemma classes_ok ignore ss fs k : In k (classes_of ignore ss fs) → class_ok k.
Proof.
  unfold classes_of. generalize (py_any ds_summary_only ss) as so. intros so.
  revert fs. induction ss as [|s ss IH]; intros [|f fs]; cbn; try done.
  intros [<-|H]; [apply classify_file_ok|by eapply IH].
Qed.

Lemma classes_length ignore ss fs :
  length ss = length fs → length (classes_of ignore ss fs) = length ss.
Proof. intros H. unfold classes_of. rewrite length_zip_with. lia. Qed.

(** Each file is in one class. *)
Lemma classes_partition ks :
  py_len ks = py_len (omap reviewed_of ks) + py_len (omap uncovered_of ks)
              + py_len (omap excluded_of ks).
Proof.
  unfold py_len. induction ks as [|[] ks IH]; cbn [omap list_omap length]; cbn; [done|..]; lia.
Qed.

Lemma In_omap {A B} (f : A → option B) l y : In y (omap f l) ↔ ∃ x, In x l ∧ f x = Some y.
Proof.
  rewrite <- list_elem_of_In, list_elem_of_omap. by setoid_rewrite list_elem_of_In.
Qed.

Section Projection.
Context (ss : list DiffSnapshot) (m : DiffMap) (ignore : option IgnoreResult).
Context (digest : pystr) (snapshot_path : bool) (c : RunCoverage).
Context (Hc : project_run_coverage_ ss m ignore digest snapshot_path = Some c).

Let ks : list file_class := classes_of ignore ss (dm_files m).

Definition inventory_reason : list CoverageItem :=
  if dm_file_list_complete m then [] else [bare_item None (u8 "diff_inventory_incomplete")].

Definition technical_codes : list pystr :=
  if snapshot_path then TECHNICAL_REASON_CODES else LEGACY_TECHNICAL_REASON_CODES.

#[local] Set Default Proof Using "Type*".

Lemma project_facts :
  length ss = length (dm_files m)
  ∧ rc_reviewed_files c = py_len (omap reviewed_of ks)
  ∧ rc_exclusions c = omap excluded_of ks
  ∧ rc_reasons c = inventory_reason ++ omap uncovered_of ks
  ∧ rc_head_sha c = dm_head_sha m ∧ rc_diff_digest c = dm_digest m
  ∧ rc_snapshot_digest c = digest ∧ rc_total_files c = py_len ss
  ∧ rc_file_list_complete c = dm_file_list_complete m
  ∧ reason_counts c = counter (ci_reason <$> rc_reasons c)
  ∧ exclusion_counts c = counter (ci_reason <$> rc_exclusions c)
  ∧ reason_variant_counts c = counter (omap reason_variant (rc_reasons c)).
Proof.
  unfold project_run_coverage_ in Hc. rewrite zip_strict_spec in Hc.
  destruct (Nat.eqb_spec (length ss) (length (dm_files m))) as [Hl|]; [|done].
  cbn in Hc. injection Hc as <-.
  assert (Hk : (λ sf : DiffSnapshot * DiffFile,
              classify_file ignore (py_any ds_summary_only ss) (fst sf) (snd sf))
             <$> zip ss (dm_files m) = ks).
  { apply fmap_zip_uncurried. }
  rewrite Hk. done.
Qed.

(** The status, from the counts. *)
Lemma project_status :
  let incomplete := ∃ i, In i (rc_reasons c) ∧ ¬ In (ci_reason i) technical_codes in
  match rc_status c with
  | Cov_partial => incomplete ∨ (rc_reviewed_files c ≠ 0 ∧ rc_reasons c ≠ [])
  | Cov_complete => rc_reviewed_files c ≠ 0 ∧ rc_reasons c = []
  | Cov_none => rc_reviewed_files c = 0 ∧ ¬ incomplete
  end.
Proof.
  cbn zeta. unfold project_run_coverage_ in Hc. destruct (zip_strict ss (dm_files m)); [|done].
  cbn in Hc. injection Hc as <-. cbn [rc_status rc_reasons rc_reviewed_files].
  fold technical_codes.
  match goal with |- context [py_any _ ?l] => set (rs := l) end.
  match goal with |- context [py_len ?l =? 0] => set (n := py_len l) end.
  assert (Hinc : py_any (λ i, negb (str_mem (ci_reason i) technical_codes)) rs = true
                 ↔ ∃ i, In i rs ∧ ¬ In (ci_reason i) technical_codes).
  { unfold py_any. rewrite existsb_exists. setoid_rewrite negb_true_iff.
    setoid_rewrite <- not_true_iff_false. by setoid_rewrite str_mem_In. }
  destruct (py_any _ rs); cbn [orb]; [left; by apply Hinc|].
  assert (Hno : ¬ ∃ i, In i rs ∧ ¬ In (ci_reason i) technical_codes)
    by (rewrite <- Hinc; done).
  destruct (Z.eqb_spec n 0) as [Hz|Hz]; cbn; [by split|].
  destruct rs as [|i rs]; cbn; [by split|]. right. by split.
Qed.

Lemma reason_in_file_or_inventory i :
  In i (rc_reasons c) →
  (ci_reason i = u8 "diff_inventory_incomplete" ∧ dm_file_list_complete m = false
   ∧ i = bare_item None (u8 "diff_inventory_incomplete"))
  ∨ In (Uncovered i) ks.
Proof.
  destruct project_facts as (_ & _ & _ & -> & _). unfold inventory_reason.
  intros [Hi|Hi]%in_app_iff.
  - left. destruct (dm_file_list_complete m); [done|]. by destruct Hi as [<-|[]].
  - right. apply In_omap in Hi as ([] & Hk & Hi); by simplify_eq/=.
Qed.

Lemma file_reason_not_global r :
  In r FILE_REASONS →
  r ≠ u8 "diff_inventory_incomplete" ∧ r ≠ u8 "classification_unavailable" ∧ r ≠ u8 "unknown_path".
Proof. cbn. intuition subst; discriminate. Qed.

Lemma tally_uncovered r :
  ¬ In r FILE_REASONS → tally (λ x, x =?s r) (ci_reason <$> omap uncovered_of ks) = 0.
Proof.
  intros Hr. unfold tally. destruct (List.filter _ _) as [|x l] eqn:E; [done|]. exfalso.
  assert (Hx : In x (List.filter (λ x, x =?s r) (ci_reason <$> omap uncovered_of ks)))
    by (rewrite E; by left).
  apply List.filter_In in Hx as [Hx ->%str_eqb_eq].
  apply list_elem_of_In, list_elem_of_fmap in Hx as (i & -> & Hi%list_elem_of_In).
  apply In_omap in Hi as ([] & Hk & Hi); simplify_eq/=. by apply classes_ok in Hk.
Qed.

Lemma cget_inventory :
  cget (reason_counts c) (u8 "diff_inventory_incomplete")
  = if dm_file_list_complete m then 0 else 1.
Proof.
  destruct project_facts as (_ & _ & _ & Hr & _ & _ & _ & _ & _ & -> & _).
  rewrite cget_counter, Hr, fmap_app, tally_app, tally_uncovered
    by (by intros (? & _)%file_reason_not_global). unfold inventory_reason.
  by destruct (dm_file_list_complete m).
Qed.

Lemma cget_unknown : cget (reason_counts c) (u8 "unknown_path") = 0.
Proof.
  destruct project_facts as (_ & _ & _ & Hr & _ & _ & _ & _ & _ & -> & _).
  rewrite cget_counter, Hr, fmap_app, tally_app, tally_uncovered
    by (by intros (_ & _ & ?)%file_reason_not_global). unfold inventory_reason.
  by destruct (dm_file_list_complete m).
Qed.

Lemma chas_reason r : chas (reason_counts c) r = true ↔ ∃ i, In i (rc_reasons c) ∧ ci_reason i = r.
Proof.
  destruct project_facts as (_ & _ & _ & _ & _ & _ & _ & _ & _ & -> & _).
  rewrite chas_counter, <- list_elem_of_In, list_elem_of_fmap. setoid_rewrite list_elem_of_In.
  naive_solver.
Qed.

Lemma no_global_reason r :
  r = u8 "classification_unavailable" ∨ r = u8 "unknown_path" → chas (reason_counts c) r = false.
Proof.
  intros Hr. apply not_true_iff_false. intros (i & Hi & Hir)%chas_reason.
  apply reason_in_file_or_inventory in Hi as [(Hi & _)|Hi].
  - rewrite Hir in Hi. destruct Hr as [-> | ->]; discriminate.
  - apply classes_ok in Hi. cbn in Hi. rewrite Hir in Hi.
    apply file_reason_not_global in Hi as (_ & H1 & H2). by destruct Hr.
Qed.

Lemma technical_codes_in r : In r technical_codes → In r TECHNICAL_REASON_CODES.
Proof. unfold technical_codes. destruct snapshot_path; [done|]. cbn. tauto. Qed.

(** The projection is valid. *)
Lemma project_valid : coverage_valid c.
Proof.
  pose proof project_status as Hs. destruct project_facts
    as (Hl & Hrev & Hex & Hrs & _ & _ & _ & Ht & Hcomp & Hrc & Hec & _).
  assert (Hinv : dm_file_list_complete m = false →
    ∃ i, In i (rc_reasons c) ∧ ¬ In (ci_reason i) technical_codes).
  { intros E. exists (bare_item None (u8 "diff_inventory_incomplete")). split.
    - rewrite Hrs. unfold inventory_reason. rewrite E. by left.
    - intros Hx%technical_codes_in. apply str_mem_In in Hx. vm_compute in Hx. discriminate. }
  apply coverage_valid_iff. constructor.
  - intros E. rewrite E in Hs. destruct Hs as [Hr Hn].
    rewrite Hcomp. destruct (dm_file_list_complete m) eqn:Em.
    + split_and!; [done..|]. rewrite Hrc, Hn. done.
    + destruct (Hinv eq_refl) as (i & Hi & _). by rewrite Hn in Hi.
  - intros E. rewrite E in Hs. destruct Hs as [Hr Hn]. rewrite Hcomp.
    destruct (dm_file_list_complete m) eqn:Em; [|by destruct Hn; auto].
    split_and!; [done..|]. intros r (i & Hi & <-)%chas_reason. apply technical_codes_in.
    destruct (str_mem (ci_reason i) technical_codes) eqn:E'; [by apply str_mem_In|].
    destruct Hn. exists i. split; [done|]. rewrite <- str_mem_In. by rewrite E'.
  - intros E. rewrite E in Hs. rewrite Hrc, counter_empty. intros Hn%fmap_nil_inv.
    rewrite Hn in Hs. by destruct Hs as [(i & [] & _)|[_ []]].
  - rewrite cget_inventory. destruct (dm_file_list_complete m); lia.
  - rewrite Hcomp. intros E. apply not_true_iff_false. intros (i & Hi & Hir)%chas_reason.
    apply reason_in_file_or_inventory in Hi as [(_ & Hi & _)|Hi]; [congruence|].
    apply classes_ok in Hi. cbn in Hi. rewrite Hir in Hi.
    apply file_reason_not_global in Hi as [Hi _]. by apply Hi.
  - rewrite (no_global_reason (u8 "classification_unavailable")) by (by left).
    rewrite cget_inventory, cget_unknown, Hrc, Hec, !csum_counter.
    unfold py_len at 1 2. rewrite !length_fmap. fold (py_len (rc_reasons c)) (py_len (rc_exclusions c)).
    rewrite Hrs, Hex, Hrev, py_len_app, Ht.
    assert (Hp : py_len ss = py_len ks) by (unfold py_len, ks; by rewrite classes_length).
    rewrite Hp, (classes_partition ks). unfold inventory_reason.
    destruct (dm_file_list_complete m); cbn [py_len length]; unfold py_len; cbn [length]; lia.
Qed.
End Projection.

(** ** What the classes mean *)

Definition withheld_by_policy (ignore : option IgnoreResult) (f : DiffFile) : Prop :=
  ∃ r, ignore = Some r ∧
    ((∃ d, In d (ir_decisions r) ∧ id_file_id d = df_file_id f)
     ∨ ∃ name, (df_old_path f = Some name ∨ df_new_path f = Some name) ∧ name ≠ []
               ∧ name ∈ ir_denied_paths r).

Lemma policy_excludes_iff ignore f :
  policy_excludes ignore f = true ↔ withheld_by_policy ignore f.
Proof.
  unfold policy_excludes, withheld_by_policy. destruct ignore as [r|]; [|naive_solver].
  assert (Hd : decision_for r (df_file_id f) ≠ None
               ↔ ∃ d, In d (ir_decisions r) ∧ id_file_id d = df_file_id f).
  { unfold decision_for. rewrite find_first_none. split.
    - intros H. destruct (find_first (λ d, id_file_id d =?s df_file_id f) (ir_decisions r))
        as [d|] eqn:E; [|by rewrite find_first_none in E].
      apply find_first_some in E as [? ?%str_eqb_eq]. eauto.
    - intros (d & Hd & He) H. specialize (H d Hd). by rewrite He, str_eqb_refl in H. }
  rewrite orb_true_iff, negb_true_iff, bool_decide_eq_false, Hd.
  assert (Hp : ∀ o, match o with
                    | Some n => negb (n =?s []) && bool_decide (n ∈ ir_denied_paths r)
                    | None => false end = true
                    ↔ ∃ n, o = Some n ∧ n ≠ [] ∧ n ∈ ir_denied_paths r).
  { intros [n|]; [|naive_solver].
    rewrite andb_true_iff, negb_true_iff, str_eqb_neq, bool_decide_eq_true. naive_solver. }
  cbn [py_any existsb]. rewrite orb_false_r, orb_true_iff, !Hp. naive_solver.
Qed.

(** The whole text change of a file was put in front of the model. *)
Record sent_whole (s : DiffSnapshot) (f : DiffFile) : Prop := {
  sw_identity : df_omission_reason f = None;
  sw_complete : df_patch_state f = Patch_complete;
  sw_omission : ds_omission_reason s = None;
  sw_patch : ∃ p, ds_review_patch s = Some p ∧ vf_patch (snapshot_vcs_file s) = Some p;
  sw_counted : ds_changes s = ds_additions s + ds_deletions s ∧ 0 < ds_changes s
}.

(** A file that is outside a review: ignored by the policy, empty, binary or generated. *)
Definition outside_review (ignore : option IgnoreResult) (s : DiffSnapshot) (f : DiffFile) : Prop :=
  df_omission_reason f = None ∧
  (withheld_by_policy ignore f ∨ is_proven_empty_snapshot s = true
   ∨ ds_omission_reason s = Some (u8 "binary") ∨ ds_omission_reason s = Some (u8 "generated")
   ∨ df_patch_state f = Patch_binary).

Lemma is_reason_iff o code : is_reason o code = true ↔ o = Some code.
Proof. apply ostr_eqb_eq. Qed.

Lemma classify_excluded_iff ignore so s f :
  (∃ i, classify_file ignore so s f = Excluded i) ↔ outside_review ignore s f.
Proof.
  unfold classify_file, outside_review.
  destruct (df_omission_reason f) as [r|]; [naive_solver|].
  rewrite <- policy_excludes_iff. destruct (policy_excludes ignore f); [naive_solver|].
  destruct (is_proven_empty_snapshot s); [naive_solver|].
  rewrite <- !is_reason_iff, <- (bool_decide_eq_true (df_patch_state f = Patch_binary)).
  destruct (is_reason (ds_omission_reason s) (u8 "binary") || _ || _) eqn:Hb.
  - apply orb_true_iff in Hb as [[Hb|Hb]%orb_true_iff|Hb]; naive_solver.
  - apply orb_false_iff in Hb as [[H1 H2]%orb_false_iff H3]. rewrite H1, H2, H3.
    split; [|naive_solver]. intros [i Hi]. revert Hi. by split_tests.
Qed.

Lemma sent_whole_not_special s f :
  sent_whole s f →
  is_proven_empty_snapshot s = false ∧ proven_metadata_only s = false ∧ anchorable f = true.
Proof.
  intros [Hi Hc Ho (p & Hp & _) [Hs Hpos]]. split_and!.
  - unfold is_proven_empty_snapshot. by rewrite Ho.
  - unfold proven_metadata_only. rewrite (proj2 (Z.eqb_neq (ds_changes s) 0)) by lia.
    by rewrite !orb_true_r.
  - unfold anchorable. by rewrite Hi, Hc.
Qed.

Lemma classify_reviewed_iff ignore so s f :
  (∃ p, classify_file ignore so s f = Reviewed p)
  ↔ sent_whole s f ∧ ¬ withheld_by_policy ignore f ∧ so = false.
Proof.
  rewrite <- policy_excludes_iff, not_true_iff_false. split.
  - intros [p H]. unfold classify_file in H.
    destruct (df_omission_reason f) eqn:Hi; [done|]. revert H.
    split_tests; try done. intros _. split; [|done].
    repeat match goal with
    | H : _ && _ = true |- _ => apply andb_true_iff in H as [??]
    end.
    assert (Hrp : ds_review_patch s = vf_patch (snapshot_vcs_file s)).
    { match goal with H : _ && negb (ostr_eqb _ _) = false |- _ =>
        apply andb_false_iff in H as [?|H]; [congruence|by apply negb_false_iff, ostr_eqb_eq in H] end. }
    match goal with H : anchorable f = true |- _ => unfold anchorable in H; to_prop end.
    destruct (ds_review_patch s) as [q|] eqn:Hq; [|done].
    constructor; try done; [naive_solver|by exists q|]. to_prop. lia.
  - intros (Hw & Hp & ->). pose proof (sent_whole_not_special s f Hw) as (H1 & H2 & H3).
    destruct Hw as [Hi Hc Ho (p & Hq & Hv) [Hs Hpos]].
    unfold classify_file. rewrite Hi, Hp, H1, H2, H3, Ho, Hc, Hq, Hv. cbn [is_reason ostr_eqb orb andb].
    rewrite str_eqb_refl, <- Hs, Z.eqb_refl, (proj2 (Z.ltb_lt 0 _) Hpos).
    cbn. eauto.
Qed.

Lemma In_classes ignore ss fs k :
  In k (classes_of ignore ss fs)
  ↔ ∃ s f, In (s, f) (zip ss fs) ∧ classify_file ignore (py_any ds_summary_only ss) s f = k.
Proof.
  unfold classes_of. generalize (py_any ds_summary_only ss) as so. intros so.
  rewrite <- fmap_zip_uncurried, <- list_elem_of_In, list_elem_of_fmap.
  setoid_rewrite list_elem_of_In. split.
  - intros ([s f] & -> & H). eauto.
  - intros (s & f & H & <-). by exists (s, f).
Qed.

Lemma classes_reviewed_pos ks :
  py_len (omap reviewed_of ks) ≠ 0 ↔ ∃ p, In (Reviewed p) ks.
Proof.
  transitivity (∃ p, In p (omap reviewed_of ks)).
  - destruct (omap reviewed_of ks) as [|p l]; cbn; [|split; [by exists p; left|unfold py_len; cbn; lia]].
    split; [done|by intros []].
  - setoid_rewrite In_omap. split.
    + intros (p & [] & ? & ?); simplify_eq/=. eauto.
    + intros [p Hp]. by exists p, (Reviewed p).
Qed.

Lemma classes_uncovered_nil ks :
  omap uncovered_of ks = [] ↔ ∀ k, In k ks → uncovered_of k = None.
Proof.
  induction ks as [|k ks IH]; cbn; [by split|]. split.
  - destruct (uncovered_of k) eqn:E; [done|]. intros H k' [<-|Hk]; [done|]. by apply IH.
  - intros H. rewrite (H k) by (by left). apply IH. intros k' Hk. apply H. by right.
Qed.

Section Meaning.
Context (ss : list DiffSnapshot) (m : DiffMap) (ignore : option IgnoreResult).
Context (digest : pystr) (snapshot_path : bool) (c : RunCoverage).
Context (Hc : project_run_coverage_ ss m ignore digest snapshot_path = Some c).
#[local] Set Default Proof Using "Type*".

Let so : bool := py_any ds_summary_only ss.

Lemma project_reasons_nil :
  rc_reasons c = [] ↔ dm_file_list_complete m = true ∧
    ∀ s f, In (s, f) (zip ss (dm_files m)) →
      outside_review ignore s f ∨ (sent_whole s f ∧ so = false).
Proof.
  destruct (project_facts _ _ _ _ _ _ Hc) as (_ & _ & _ & -> & _).
  unfold inventory_reason. destruct (dm_file_list_complete m); [|naive_solver].
  cbn [app]. rewrite classes_uncovered_nil. setoid_rewrite In_classes. fold so. split.
  - intros H. split; [done|]. intros s f Hin.
    specialize (H _ (ex_intro _ s (ex_intro _ f (conj Hin eq_refl)))).
    destruct (classify_file _ _ s f) as [i|i|p] eqn:E; [done|left|right].
    + apply (classify_excluded_iff _ so). eauto.
    + assert (Hrev : ∃ p, classify_file ignore so s f = Reviewed p) by eauto.
      apply classify_reviewed_iff in Hrev. tauto.
  - intros [_ H] k (s & f & Hin & <-). destruct (policy_excludes ignore f) eqn:Hp.
    + assert (Ho : outside_review ignore s f).
      { split; [destruct (H s f Hin) as [[? _]|[[] _]]; done|].
        left. by apply policy_excludes_iff. }
      apply (classify_excluded_iff _ so) in Ho as [i ->]. done.
    + destruct (H s f Hin) as [Ho|Hw].
      * apply (classify_excluded_iff _ so) in Ho as [i ->]. done.
      * assert (Hrev : ∃ p, classify_file ignore so s f = Reviewed p).
        { apply classify_reviewed_iff. rewrite <- policy_excludes_iff, Hp. by destruct Hw. }
        destruct Hrev as [p ->]. done.
Qed.

Lemma project_reviewed_pos :
  rc_reviewed_files c ≠ 0 ↔ ∃ s f, In (s, f) (zip ss (dm_files m)) ∧ sent_whole s f
                                    ∧ ¬ withheld_by_policy ignore f ∧ so = false.
Proof.
  destruct (project_facts _ _ _ _ _ _ Hc) as (_ & -> & _).
  rewrite classes_reviewed_pos. setoid_rewrite In_classes. fold so. split.
  - intros (p & s & f & Hin & E). exists s, f. split; [done|].
    apply classify_reviewed_iff. eauto.
  - intros (s & f & Hin & E). apply classify_reviewed_iff in E as [p E]. eauto.
Qed.

Lemma project_complete_iff :
  rc_status c = Cov_complete ↔ rc_reviewed_files c ≠ 0 ∧ rc_reasons c = [].
Proof.
  pose proof (project_status _ _ _ _ _ _ Hc) as Hs.
  split; [intros E; by rewrite E in Hs|]. intros [H1 H2]. rewrite H2 in Hs.
  destruct (rc_status c); [done| |naive_solver].
  destruct Hs as [(i & [] & _)|[_ []]]; done.
Qed.
End Meaning.

(** ** Theorems *)

(** C32: the projected coverage is consistent, and complete has its meaning.  The status is
    complete exactly when the list of files is, no file is stored as summary only, some file's
    whole text change was in front of the model, and so was every other one that is not ignored by
    the policy, empty, binary or generated. *)
Theorem complete_coverage_meaning ss m ignore snapshot_path c :
  project_run_coverage ss m ignore snapshot_path = Some c →
  coverage_valid c
  ∧ (rc_status c = Cov_complete
     ↔ dm_file_list_complete m = true
       ∧ (∃ s f, In (s, f) (zip ss (dm_files m)) ∧ sent_whole s f
                 ∧ ¬ withheld_by_policy ignore f ∧ py_any ds_summary_only ss = false)
       ∧ ∀ s f, In (s, f) (zip ss (dm_files m)) →
           outside_review ignore s f ∨ (sent_whole s f ∧ py_any ds_summary_only ss = false)).
Proof.
  intros Hc. split; [by eapply project_valid|].
  rewrite (project_complete_iff _ _ _ _ _ _ Hc), (project_reasons_nil _ _ _ _ _ _ Hc),
    (project_reviewed_pos _ _ _ _ _ _ Hc). tauto.
Qed.
