(* ===== verification/CoverageRestore.v ===== *)
(** * Stored coverage is read back ([run_coverage.py], [coverage_schema.py])

    The worker stores the coverage it projected as JSON; the publisher reads it against the stored
    files.  The reader accepts what was stored and refuses to claim more than the files support. *)

From Stdlib Require Import String.
From stdpp Require Import gmap.
From S2P Require Import Prelude PyText PyHash UnifiedDiff DiffMap ReviewIgnore RunFailures.
From S2P Require Import VcsInput DiffSnapshots CoverageSchema RunCoverage CoverageProjection.
#[local] Open Scope Z_scope.
#[local] Arguments str_mem : simpl never.
#[local] Arguments jget : simpl never.
#[local] Arguments change_type_values : simpl never.

(** ** Counts *)

Definition counts_readable (allowed : list pystr) (m : counts) : Prop :=
  ∀ k v, m !! k = Some v → In k allowed ∧ 0 < v ≤ 3001.

Lemma read_counts_spec allowed l : ∀ acc,
  (∀ k v, In (k, v) l → In k allowed ∧ 0 < v ≤ 3001) →
  read_counts ((λ kv, (fst kv, JInt (snd kv))) <$> l) allowed acc
  = Some (foldl (λ m kv, <[fst kv := snd kv]> m) acc l).
Proof.
  induction l as [|[k v] l IH]; intros acc H; [done|]. cbn [fmap list_fmap fst snd read_counts foldl].
  destruct (H k v) as [Hk Hv]; [by left|]. apply str_mem_In in Hk. rewrite Hk.
  rewrite (proj2 (Z.ltb_lt 0 v)), (proj2 (Z.leb_le v 3001)) by lia. cbn [negb orb andb].
  apply IH. intros. apply H. by right.
Qed.

Lemma foldl_insert_rev (l : list (pystr * Z)) :
  foldl (λ (m : counts) kv, <[fst kv := snd kv]> m) ∅ l = list_to_map (rev l).
Proof.
  rewrite <- (rev_involutive l) at 1. generalize (rev l) as r. intros r.
  induction r as [|[k v] r IH]; [done|]. cbn [rev list_to_map foldr]. rewrite foldl_app. cbn.
  by rewrite IH.
Qed.

Lemma read_counts_json allowed m :
  counts_readable allowed m → read_coverage_counts (counts_json m) allowed = Some m.
Proof.
  intros H. unfold counts_json. cbn [read_coverage_counts].
  rewrite read_counts_spec.
  - by rewrite foldl_insert_rev, sorted_items_map.
  - intros k v Hin. apply H. apply list_elem_of_In in Hin. rewrite sorted_items_perm in Hin.
    by apply elem_of_map_to_list.
Qed.

Lemma tally_le_length p l : tally p l ≤ py_len l.
Proof. unfold tally, py_len. pose proof (List.filter_length_le p l). lia. Qed.

Lemma tally_pos k l : In k l → 0 < tally (λ x, x =?s k) l.
Proof.
  intros H. unfold tally, py_len. destruct (List.filter _ l) eqn:E; [|cbn; lia].
  assert (Hk : In k (List.filter (λ x, x =?s k) l))
    by (apply List.filter_In; split; [done|apply str_eqb_refl]). by rewrite E in Hk.
Qed.

Lemma counter_readable allowed l :
  (∀ k, In k l → In k allowed) → py_len l ≤ 3001 → counts_readable allowed (counter l).
Proof.
  intros H Hl k v [Hk ->]%counter_lookup_Some. split; [by apply H|].
  pose proof (tally_pos k l Hk). pose proof (tally_le_length (λ x, x =?s k) l). lia.
Qed.

(** ** Items *)

(** An item is stored without its path when the policy ignores the file. *)
Definition redact (i : CoverageItem) : CoverageItem :=
  mkCoverageItem (if ci_reason i =?s u8 "ignored" then None else ci_path i) (ci_reason i)
    (ci_change_type i) (ci_empty_addition_candidate i).

Record item_readable (names : list pystr) (i : CoverageItem) : Prop := {
  ir_path : ∀ p, ci_path i = Some p → is_supported_path p = true ∧ In p names;
  ir_change : ∀ ct, ci_change_type i = Some ct → In ct change_type_values;
  ir_mark : ci_empty_addition_candidate i = true →
            ci_reason i = u8 "missing_patch" ∧ ci_change_type i = Some (u8 "added")
            ∧ ci_path i ≠ None
}.

Lemma same_keys_three v1 v2 v3 :
  same_keys [(u8 "path", v1); (u8 "reason", v2); (u8 "change_type", v3)] item_keys = true.
Proof. vm_compute. reflexivity. Qed.

Lemma same_keys_four v1 v2 v3 v4 :
  same_keys [(u8 "path", v1); (u8 "reason", v2); (u8 "change_type", v3);
             (u8 "empty_addition_candidate", v4)]
    (item_keys ++ [u8 "empty_addition_candidate"]) = true.
Proof. vm_compute. reflexivity. Qed.

Lemma read_item_json names cs i :
  item_readable names i → chas cs (ci_reason i) = true →
  read_coverage_item (item_json i) cs (Some names) = Some (redact i).
Proof.
  intros [Hp Hc Hm] Hr. destruct i as [path reason change mark]. cbn in *.
  unfold item_json, redact. cbn [ci_path ci_reason ci_change_type ci_empty_addition_candidate].
  set (path' := if reason =?s u8 "ignored" then None else path).
  assert (Hp' : ∀ p, path' = Some p → is_supported_path p = true ∧ str_mem p names = true).
  { intros p. unfold path'. destruct (_ =?s _); [done|]. intros ->. rewrite str_mem_In. by apply Hp. }
  assert (Hpath : match JOpt JStr path' with
                  | JNull => Some None
                  | JStr p => if negb (is_supported_path p) || negb (str_mem p names)
                              then None else Some (Some p)
                  | _ => None
                  end = Some path').
  { destruct path' as [p|]; [|done]. cbn. destruct (Hp' p eq_refl) as [-> ->]. done. }
  assert (Hchange : match JOpt JStr change with
                    | JNull => Some None
                    | JStr c => if str_mem c change_type_values then Some (Some c) else None
                    | _ => None
                    end = Some change).
  { destruct change as [ct|]; [|done]. cbn. rewrite (proj2 (str_mem_In _ _)); [done|]. by apply Hc. }
  destruct mark; cbn [app read_coverage_item].
  - destruct Hm as (-> & -> & Hne); [done|]. rewrite same_keys_four, orb_true_r. cbn [negb].
    change (jget (u8 "path") _) with (Some (JOpt JStr path')).
    change (jget (u8 "reason") _) with (Some (JStr (u8 "missing_patch"))).
    change (jget (u8 "change_type") _) with (Some (JStr (u8 "added"))).
    change (jget (u8 "empty_addition_candidate") _) with (Some (JBool true)).
    assert (Ep : path' = path) by done. destruct path as [p|]; [|done]. rewrite Ep in *.
    cbn [default mbind option_bind JOpt]. cbn [JOpt] in Hpath. eval_codes. cbn [negb orb andb].
    rewrite Hr, Hpath. reflexivity.
  - rewrite same_keys_three. cbn [negb orb].
    change (jget (u8 "path") _) with (Some (JOpt JStr path')).
    change (jget (u8 "reason") _) with (Some (JStr reason)).
    change (jget (u8 "change_type") _) with (Some (JOpt JStr change)).
    change (jget (u8 "empty_addition_candidate") _) with (@None json).
    cbn [default from_option id mbind option_bind andb]. rewrite Hr, Hpath, Hchange. done.
Qed.

(** The stored items are the first twenty in order; the others are hidden. *)
Definition window (items : list CoverageItem) : list CoverageItem :=
  take 20 (py_sorted item_leb items).
Definition hidden (items : list CoverageItem) : list CoverageItem :=
  drop 20 (py_sorted item_leb items).

Lemma window_hidden items : Permutation (window items ++ hidden items) items.
Proof. unfold window, hidden. rewrite take_drop. apply py_sorted_perm. Qed.

Lemma In_window items i : In i (window items) → In i items.
Proof.
  intros H. eapply list_elem_of_In. rewrite <- (window_hidden items).
  apply elem_of_app. left. by apply list_elem_of_In.
Qed.

Lemma mapM_fmap {A B C} (f : B → option C) (g : A → B) (h : A → C) l :
  (∀ x, In x l → f (g x) = Some (h x)) → mapM f (g <$> l) = Some (h <$> l).
Proof.
  induction l as [|x l IH]; intros H; [done|]. cbn. rewrite H by (by left). cbn.
  by rewrite IH by (intros; apply H; by right).
Qed.

Lemma redact_reasons (l : list CoverageItem) : ci_reason <$> (redact <$> l) = ci_reason <$> l.
Proof. rewrite <- list_fmap_compose. done. Qed.

Lemma redact_variants (l : list CoverageItem) : omap reason_variant (redact <$> l) = omap reason_variant l.
Proof.
  induction l as [|i l IH]; [done|]. change (redact <$> i :: l) with (redact i :: (redact <$> l)).
  change (omap reason_variant (redact i :: (redact <$> l)))
    with (match reason_variant i with
          | Some y => y :: omap reason_variant (redact <$> l)
          | None => omap reason_variant (redact <$> l)
          end). by rewrite IH.
Qed.

(** The counts of a part are within the counts of the whole. *)
Lemma counter_within l1 l2 :
  (∀ p, tally p l1 ≤ tally p l2) →
  py_any (λ kv, cget (counter l2) (fst kv) <? snd kv) (citems (counter l1)) = false.
Proof.
  intros H. apply not_true_iff_false. unfold py_any. rewrite existsb_exists.
  intros ([k v] & Hin%In_citems & Hlt). cbn [fst snd] in Hlt.
  apply counter_lookup_Some in Hin as [_ ->]. apply Z.ltb_lt in Hlt. rewrite cget_counter in Hlt.
  specialize (H (λ x, x =?s k)). lia.
Qed.

Lemma tally_window {A} (g : A → option pystr) p (l1 l2 l : list A) :
  Permutation (l1 ++ l2) l → tally p (omap g l) = tally p (omap g l1) + tally p (omap g l2).
Proof. intros H. rewrite <- (tally_perm p _ _ (omap_Permutation g _ _ H)), omap_app. apply tally_app. Qed.

Lemma fmap_omap {A B} (f : A → B) (l : list A) : f <$> l = omap (λ x, Some (f x)) l.
Proof. induction l; cbn; [done|]. by f_equal. Qed.

Lemma window_omap_nil {B} (g : CoverageItem → option B) items :
  omap g items = [] → omap g (window items) = [].
Proof.
  intros H. pose proof (omap_Permutation g _ _ (window_hidden items)) as Hp.
  rewrite H, omap_app in Hp. apply Permutation_sym, Permutation_nil in Hp.
  apply app_eq_nil in Hp as [Hp _]. done.
Qed.

Lemma read_items_json names items :
  (∀ i, In i items → item_readable names i) →
  read_coverage_items (items_json items) (counter (ci_reason <$> items)) (Some names)
  = Some (redact <$> window items).
Proof.
  intros H. unfold items_json, read_coverage_items. fold (window items).
  assert (Hl : (py_len (item_json <$> window items)
                =? Z.min (csum (counter (ci_reason <$> items))) 20) = true).
  { apply Z.eqb_eq. rewrite csum_counter. unfold py_len, window.
    rewrite !length_fmap, length_take, length_py_sorted. lia. }
  rewrite Hl. cbn [negb]. rewrite (mapM_fmap _ _ redact).
  - cbn [mbind option_bind]. rewrite redact_reasons, counter_within; [done|]. intros p.
    rewrite !fmap_omap, (tally_window (λ i, Some (ci_reason i)) p _ _ _ (window_hidden items)).
    pose proof (tally_nonneg p (omap (λ i, Some (ci_reason i)) (hidden items))). lia.
  - intros i Hi%In_window. apply read_item_json; [by apply H|].
    apply chas_counter, list_elem_of_In, list_elem_of_fmap. exists i. by rewrite list_elem_of_In.
Qed.

(** ** With and without the policy *)

Definition identity_reasons : list pystr := [u8 "unsupported_path"; u8 "identity_unresolved"].

(** The policy can only turn the class of an identified file into an ignored one. *)
Definition class_weaker (k k0 : file_class) : Prop :=
  k = k0
  ∨ (∃ i, k = Excluded i ∧ ci_reason i = u8 "ignored")
    ∧ ∀ i, k0 = Uncovered i → ¬ In (ci_reason i) identity_reasons.

Lemma identified_reason ignore so s f i :
  df_omission_reason f = None → classify_file ignore so s f = Uncovered i →
  ¬ In (ci_reason i) identity_reasons.
Proof.
  intros Hi. unfold classify_file. rewrite Hi.
  destruct (bool_decide (df_patch_state f ∈ _)) eqn:Hp.
  - apply bool_decide_eq_true in Hp.
    rewrite !elem_of_cons, elem_of_nil in Hp. destruct Hp as [Hp|[Hp|[Hp|[]]]]; rewrite Hp.
    all: split_tests; try discriminate; intros [= <-]; rewrite <- str_mem_In; vm_compute; discriminate.
  - split_tests; try discriminate; intros [= <-]; rewrite <- str_mem_In; vm_compute; discriminate.
Qed.

Lemma classify_weaker ignore so s f :
  class_weaker (classify_file ignore so s f) (classify_file None so s f).
Proof.
  destruct (df_omission_reason f) as [r|] eqn:Hi.
  { left. unfold classify_file. by rewrite Hi. }
  destruct (policy_excludes ignore f) eqn:Hp.
  - right. split; [|intros i; by apply identified_reason].
    unfold classify_file. rewrite Hi, Hp. by eexists.
  - left. unfold classify_file. rewrite Hi, Hp. done.
Qed.

Lemma classes_weaker ignore ss fs :
  Forall2 class_weaker (classes_of ignore ss fs) (classes_of None ss fs).
Proof.
  unfold classes_of. generalize (py_any ds_summary_only ss) as so. intros so.
  revert fs. induction ss as [|s ss IH]; intros [|f fs]; cbn; constructor.
  - apply classify_weaker.
  - apply IH.
Qed.

Definition not_ignored (i : CoverageItem) : bool := negb (ci_reason i =?s u8 "ignored").

Lemma sublist_omap {A B} (g : A → option B) l k : sublist l k → sublist (omap g l) (omap g k).
Proof.
  induction 1 as [|x l k _ IH|x l k _ IH]; cbn; [constructor|..].
  - destruct (g x); [by constructor|done].
  - destruct (g x); [by constructor|done].
Qed.

Lemma weaker_sublist {B} (g : file_class → option B) ks k0s :
  (∀ i, ci_reason i = u8 "ignored" → g (Excluded i) = None) →
  Forall2 class_weaker ks k0s → sublist (omap g ks) (omap g k0s).
Proof.
  intros Hg. induction 1 as [|k k0 ks k0s Hk _ IH]; [constructor|]. cbn.
  destruct Hk as [->|((i & -> & Hi) & _)].
  - destruct (g k0); [by constructor|done].
  - rewrite Hg by done. destruct (g k0); [by constructor|done].
Qed.

Lemma weaker_identity r ks k0s :
  In r identity_reasons → Forall2 class_weaker ks k0s →
  tally (λ x, x =?s r) (ci_reason <$> omap uncovered_of ks)
  = tally (λ x, x =?s r) (ci_reason <$> omap uncovered_of k0s).
Proof.
  intros Hr. induction 1 as [|k k0 ks k0s Hk _ IH]; [done|]. cbn.
  destruct Hk as [->|((i & -> & Hi) & Hid)]; cbn.
  - destruct (uncovered_of k0); cbn [fmap list_fmap]; rewrite ?tally_cons; lia.
  - destruct k0 as [j|j|p]; cbn; try done. rewrite tally_cons, IH.
    destruct (ci_reason j =?s r) eqn:E; [|lia]. apply str_eqb_eq in E. subst.
    by destruct (Hid j eq_refl).
Qed.

(** ** The paths of a built map *)

Definition names_of (s : DiffSnapshot) : list pystr :=
  ds_filename s :: match ds_previous_filename s with Some ((_ :: _) as p) => [p] | _ => [] end.

(** What the projection uses of a file and its snapshot. *)
Record file_matches (s : DiffSnapshot) (f : DiffFile) : Prop := {
  fm_path : ∀ p, py_or (df_new_path f) (df_old_path f) = Some p →
            is_supported_path p = true ∧ In p (names_of s);
  fm_added : empty_addition_candidate s = true →
             py_or (df_new_path f) (df_old_path f) = Some (ds_filename s)
             ∧ df_change_type f = Change_added
}.

Lemma supported_nonempty p : is_supported_path p = true → p ≠ [].
Proof. by intros H ->. Qed.

Lemma canonical_some o p : canonical o = Some p ↔ o = Some p ∧ is_supported_path p = true.
Proof.
  unfold canonical. destruct o as [q|]; [|by split; [|intros []]].
  destruct (is_supported_path q) eqn:E; split.
  - by intros [= <-].
  - by intros [[= <-] _].
  - done.
  - intros [[= <-] ?]. congruence.
Qed.

Lemma py_or_cases a b p : py_or a b = Some p → a = Some p ∨ b = Some p.
Proof. destruct a as [[|]|]; cbn; auto. Qed.

Lemma paths_in_names s p :
  fst (paths (snapshot_vcs_file s) (change_type (snapshot_vcs_file s))) = Some p
  ∨ snd (paths (snapshot_vcs_file s) (change_type (snapshot_vcs_file s))) = Some p →
  p ≠ [] → In p (names_of s).
Proof.
  intros H Hne. unfold names_of.
  assert (Hp : p = ds_filename s ∨ ds_previous_filename s = Some p)
    by (unfold paths in H; cbn in H; destruct (change_type _), H; cbn in *; simplify_eq; auto).
  destruct Hp as [->|E]; [apply in_eq|]. rewrite E. destruct p; [done|]. apply in_cons, in_eq.
Qed.

Lemma build_file_matches identity s f :
  build_file identity (snapshot_vcs_file s) = Ok f → file_matches s f.
Proof.
  unfold build_file.
  pose proof (paths_in_names s) as Hn.
  destruct (paths (snapshot_vcs_file s) (change_type (snapshot_vcs_file s))) as [old new] eqn:Hp.
  intros H. apply bind_ok in H as (d & _ & H). apply bind_ok in H as ([st hs] & _ & [= <-]).
  cbn in Hn. constructor; cbn.
  - intros p H. apply py_or_cases in H as [H|H]; apply canonical_some in H as [-> Hs];
      (split; [done|]); apply Hn; auto; by apply supported_nonempty.
  - unfold empty_addition_candidate, is_empty_addition_candidate. cbn. intros H.
    repeat (apply andb_true_iff in H as [H ?]). to_prop.
    assert (Hct : change_type (snapshot_vcs_file s) = Change_added)
      by (unfold change_type; cbn; by rewrite H).
    rewrite Hct in Hp. cbn in Hp. injection Hp as <- <-. split; [|done].
    assert (Hc : canonical (Some (ds_filename s)) = Some (ds_filename s)) by (by apply canonical_some).
    rewrite Hc. destruct (ds_filename s) eqn:E; [|done]. by apply supported_nonempty in H5.
Qed.

Lemma build_files_match identity ss : ∀ fs,
  build_files identity (snapshot_vcs_file <$> ss) = Ok fs → Forall2 file_matches ss fs.
Proof.
  induction ss as [|s ss IH]; intros fs; cbn; [intros [= <-]; constructor|].
  intros H. apply bind_ok in H as (f & Hf & H). apply bind_ok in H as (fs' & Hfs & [= <-]).
  constructor; [by eapply build_file_matches|by apply IH].
Qed.

(** The map of a run is built from its stored files. *)
Definition map_of_snapshots (ss : list DiffSnapshot) (m : DiffMap) : Prop :=
  ∃ provider repository number base head old complete,
    build_diff_map_from_facts (snapshot_vcs_file <$> ss) provider repository number base head old
      complete = Ok m.

Lemma map_files_match ss m : map_of_snapshots ss m → Forall2 file_matches ss (dm_files m).
Proof.
  intros (? & ? & ? & ? & ? & ? & ? & H). unfold build_diff_map_from_facts in H.
  apply bind_ok in H as (fs & Hfs & [= <-]). by eapply build_files_match.
Qed.

(** ** The items of a projection can be read *)

Definition qualified_names (ss : list DiffSnapshot) : list pystr :=
  ds_filename <$> List.filter empty_addition_candidate ss.

Definition item_of (k : file_class) : option CoverageItem :=
  match k with Uncovered i | Excluded i => Some i | Reviewed _ => None end.

Record item_from (s : DiffSnapshot) (i : CoverageItem) : Prop := {
  if_path : ∀ p, ci_path i = Some p → is_supported_path p = true ∧ In p (names_of s);
  if_change : ∀ ct, ci_change_type i = Some ct → In ct change_type_values;
  if_mark : ci_empty_addition_candidate i = true →
            ci_reason i = u8 "missing_patch" ∧ ci_change_type i = Some (u8 "added")
            ∧ ci_path i = Some (ds_filename s) ∧ empty_addition_candidate s = true
}.

Lemma change_type_listed ct : In (ChangeType_value ct) change_type_values.
Proof. apply str_mem_In. by destruct ct; vm_compute. Qed.

Lemma item_from_plain s f path reason :
  file_matches s f → path = None ∨ path = py_or (df_new_path f) (df_old_path f) →
  item_from s (mkCoverageItem path reason (Some (ChangeType_value (df_change_type f))) false).
Proof.
  intros [Hp _] Hpath. constructor; cbn; [|intros ct [= <-]; apply change_type_listed|done].
  intros p ->. destruct Hpath as [|Hpath]; [done|]. by apply Hp.
Qed.

Lemma item_from_missing s f :
  file_matches s f →
  item_from s (mkCoverageItem (py_or (df_new_path f) (df_old_path f)) (u8 "missing_patch")
                 (Some (ChangeType_value (df_change_type f))) (empty_addition_candidate s)).
Proof.
  intros [Hp Ha]. constructor; cbn; [done|intros ct [= <-]; apply change_type_listed|].
  intros H. destruct (Ha H) as [-> ->]. done.
Qed.

Lemma classify_item_from ignore so s f i :
  file_matches s f → item_of (classify_file ignore so s f) = Some i → item_from s i.
Proof.
  intros Hm. unfold classify_file. destruct (df_omission_reason f).
  - intros [= <-]. apply item_from_plain; auto.
  - split_tests; intros H; try discriminate H; injection H as <-;
      first [by apply item_from_missing | apply item_from_plain; auto].
Qed.

Lemma names_of_listed ss s p : In s ss → In p (names_of s) → In p (snapshot_names ss).
Proof.
  intros Hs Hp. unfold snapshot_names. rewrite in_app_iff. destruct Hp as [<-|Hp].
  - left. apply list_elem_of_In, list_elem_of_fmap. exists s. by rewrite list_elem_of_In.
  - right. apply In_omap. exists s. split; [done|].
    destruct (ds_previous_filename s) as [[|]|]; cbn in *; try done. by destruct Hp as [<-|[]].
Qed.

Lemma Forall2_zip_In {A B} (R : A → B → Prop) l k x y :
  Forall2 R l k → In (x, y) (zip l k) → In x l ∧ R x y.
Proof.
  induction 1 as [|x' y' l k Hxy _ IH]; [done|]. intros [[= <- <-]|Hin]; [split; [by left|done]|].
  destruct (IH Hin). split; [by right|done].
Qed.

(** A variant belongs to its reason. *)
Lemma variant_reason i key :
  In (ci_reason i) COVERAGE_REASON_CODES → reason_variant i = Some key →
  before_colon key = ci_reason i.
Proof.
  intros Hr. unfold reason_variant. destruct (str_mem _ REASON_VARIANT_CODES); [|done].
  intros [= <-]. unfold before_colon. change (u8 ":") with [58%N]. cbn [app].
  rewrite split_on_app_sep; [done|].
  assert (Hall : forallb (λ r, forallb (λ c, negb (58 =? c)%N) r) COVERAGE_REASON_CODES = true)
    by (vm_compute; reflexivity).
  rewrite forallb_forall in Hall. specialize (Hall _ Hr). rewrite forallb_forall in Hall.
  intros Hin. apply Hall in Hin. done.
Qed.

Lemma omap_cons_eq {A B} (g : A → option B) x l :
  omap g (x :: l) = match g x with Some y => y :: omap g l | None => omap g l end.
Proof. done. Qed.

Lemma tally_variants k (l : list CoverageItem) :
  (∀ i, In i l → In (ci_reason i) COVERAGE_REASON_CODES) →
  tally (λ v, before_colon v =?s k) (omap reason_variant l)
  ≤ tally (λ r, r =?s k) (ci_reason <$> l).
Proof.
  induction l as [|i l IH]; intros H; [done|].
  assert (IH' := IH (λ j Hj, H j (or_intror Hj))). rewrite omap_cons_eq, fmap_cons, tally_cons.
  destruct (reason_variant i) as [v|] eqn:Hv; [|destruct (_ =?s k); lia].
  rewrite tally_cons, (variant_reason i v) by (by first [apply H; left|apply Hv]). lia.
Qed.

Section RoundTrip.
Context (ss : list DiffSnapshot) (m : DiffMap) (ignore : option IgnoreResult).
Context (digest : pystr) (snapshot_path : bool) (c a : RunCoverage).
Context (Hm : Forall2 file_matches ss (dm_files m)) (Hlen : py_len ss ≤ 3000).
Context (Hc : project_run_coverage_ ss m ignore digest snapshot_path = Some c).
Context (Ha : project_run_coverage_ ss m None digest false = Some a).
#[local] Set Default Proof Using "Type*".

Lemma class_item_from k i :
  In k (classes_of ignore ss (dm_files m)) → item_of k = Some i → ∃ s, In s ss ∧ item_from s i.
Proof.
  rewrite In_classes. intros (s & f & Hin & <-) Hi. exists s.
  destruct (Forall2_zip_In _ _ _ _ _ Hm Hin) as [Hs Hsf]. split; [done|]. by eapply classify_item_from.
Qed.

Lemma projected_item i :
  In i (rc_reasons c) ∨ In i (rc_exclusions c) →
  i = bare_item None (u8 "diff_inventory_incomplete") ∨ ∃ s, In s ss ∧ item_from s i.
Proof.
  destruct (project_facts _ _ _ _ _ _ Hc) as (_ & _ & Hex & _ & _). intros [Hi|Hi].
  - apply (reason_in_file_or_inventory _ _ _ _ _ _ Hc) in Hi as [(_ & _ & ->)|Hi]; [by left|].
    right. by apply (class_item_from _ _ Hi).
  - right. rewrite Hex in Hi. apply In_omap in Hi as (k & Hk & Hi).
    apply (class_item_from k i Hk). destruct k; naive_solver.
Qed.

Lemma projected_item_readable i :
  In i (rc_reasons c) ∨ In i (rc_exclusions c) → item_readable (snapshot_names ss) i.
Proof.
  intros [->|(s & Hs & [Hp Hct Hmk])]%projected_item; [by constructor|].
  constructor; [|done|].
  - intros p Hpath. destruct (Hp p Hpath). split; [done|]. by eapply names_of_listed.
  - intros H. destruct (Hmk H) as (-> & -> & -> & _). done.
Qed.

Lemma projected_item_qualified i :
  In i (rc_reasons c) → ci_empty_addition_candidate i = true →
  ∃ p, ci_path i = Some p ∧ str_mem p (qualified_names ss) = true.
Proof.
  intros Hi Hmark. destruct (projected_item i (or_introl Hi)) as [->|(s & Hs & Hf)]; [done|].
  destruct (if_mark _ _ Hf Hmark) as (_ & _ & Hp & Hq). exists (ds_filename s). split; [done|].
  apply str_mem_In, list_elem_of_In, list_elem_of_fmap. exists s. split; [done|].
  apply list_elem_of_In, List.filter_In. done.
Qed.

(** The reasons and exclusions are codes of the vocabulary, few enough to be read. *)
Lemma projected_reason_code i : In i (rc_reasons c) → In (ci_reason i) COVERAGE_REASON_CODES.
Proof.
  intros [(-> & _)|Hk]%(reason_in_file_or_inventory _ _ _ _ _ _ Hc); [in_codes|].
  apply classes_ok in Hk. cbn in Hk.
  repeat (destruct Hk as [<-|Hk]; [in_codes|]). done.
Qed.

Lemma projected_exclusion_code i :
  In i (rc_exclusions c) →
  In (ci_reason i) COVERAGE_EXCLUSION_CODES ∧ ci_empty_addition_candidate i = false.
Proof.
  destruct (project_facts _ _ _ _ _ _ Hc) as (_ & _ & -> & _).
  intros (k & Hk & Hi)%In_omap. apply classes_ok in Hk. destruct k; by simplify_eq/=.
Qed.

Lemma projected_lengths :
  0 ≤ rc_reviewed_files c ≤ py_len ss
  ∧ py_len (rc_reasons c) ≤ 3001 ∧ py_len (rc_exclusions c) ≤ 3001.
Proof.
  destruct (project_facts _ _ _ _ _ _ Hc) as (Hl & -> & -> & -> & _).
  pose proof (classes_partition (classes_of ignore ss (dm_files m))) as Hp.
  assert (Hk : py_len (classes_of ignore ss (dm_files m)) = py_len ss)
    by (unfold py_len; by rewrite classes_length).
  pose proof (py_len_nonneg (omap reviewed_of (classes_of ignore ss (dm_files m)))).
  pose proof (py_len_nonneg (omap uncovered_of (classes_of ignore ss (dm_files m)))).
  pose proof (py_len_nonneg (omap excluded_of (classes_of ignore ss (dm_files m)))).
  rewrite py_len_app. assert (py_len (inventory_reason m) ≤ 1)
    by (unfold inventory_reason; by destruct (dm_file_list_complete m)). lia.
Qed.

Lemma In_fmap_reason r (l : list CoverageItem) : In r (ci_reason <$> l) ↔ ∃ i, In i l ∧ ci_reason i = r.
Proof. rewrite <- list_elem_of_In, list_elem_of_fmap. setoid_rewrite list_elem_of_In. naive_solver. Qed.

Lemma projected_counts_readable :
  counts_readable COVERAGE_REASON_CODES (reason_counts c)
  ∧ counts_readable COVERAGE_EXCLUSION_CODES (exclusion_counts c)
  ∧ counts_readable REASON_VARIANT_CODES (reason_variant_counts c).
Proof.
  destruct (project_facts _ _ _ _ _ _ Hc)
    as (_ & _ & _ & _ & _ & _ & _ & _ & _ & -> & -> & ->).
  destruct projected_lengths as (_ & Hr & He). split_and!; apply counter_readable.
  - intros k (i & Hi & <-)%In_fmap_reason. by apply projected_reason_code.
  - unfold py_len in *. by rewrite length_fmap.
  - intros k (i & Hi & <-)%In_fmap_reason. by apply projected_exclusion_code.
  - unfold py_len in *. by rewrite length_fmap.
  - intros k (i & _ & Hk)%In_omap. unfold reason_variant in Hk.
    destruct (str_mem _ REASON_VARIANT_CODES) eqn:E; [|done]. injection Hk as <-. by apply str_mem_In.
  - assert (Hv : ∀ l : list CoverageItem, py_len (omap reason_variant l) ≤ py_len l).
    { intros l. unfold py_len. induction l as [|i l IH]; [done|]. cbn [omap list_omap].
      destruct (reason_variant i); cbn [length]; lia. }
    etransitivity; [apply Hv|done].
Qed.

(** ** Acceptance *)

Lemma counts_within_counter (l1 l2 : list pystr) counted :
  (∀ k, counted k = true → tally (λ x, x =?s k) l1 ≤ tally (λ x, x =?s k) l2) →
  counts_within (counter l1) (counter l2) counted = true.
Proof.
  intros H. unfold counts_within, py_all. apply forallb_forall. intros [k v] Hin%In_citems.
  apply counter_lookup_Some in Hin as [_ ->]. cbn [fst snd]. rewrite cget_counter.
  destruct (counted k) eqn:E; [|done]. cbn [negb orb]. apply Z.leb_le, H, E.
Qed.

Lemma reasons_sublist : sublist (rc_reasons c) (rc_reasons a).
Proof.
  destruct (project_facts _ _ _ _ _ _ Hc) as (_ & _ & _ & -> & _).
  destruct (project_facts _ _ _ _ _ _ Ha) as (_ & _ & _ & -> & _).
  apply sublist_app; [done|]. apply weaker_sublist; [done|]. apply classes_weaker.
Qed.

Lemma accept_reviewed : rc_reviewed_files c ≤ rc_reviewed_files a.
Proof.
  destruct (project_facts _ _ _ _ _ _ Hc) as (_ & -> & _).
  destruct (project_facts _ _ _ _ _ _ Ha) as (_ & -> & _). unfold py_len.
  apply inj_le, sublist_length, weaker_sublist; [done|]. apply classes_weaker.
Qed.

Lemma accept_reasons : counts_within (reason_counts c) (reason_counts a) (λ _, true) = true.
Proof.
  destruct (project_facts _ _ _ _ _ _ Hc) as (_ & _ & _ & _ & _ & _ & _ & _ & _ & -> & _).
  destruct (project_facts _ _ _ _ _ _ Ha) as (_ & _ & _ & _ & _ & _ & _ & _ & _ & -> & _).
  apply counts_within_counter. intros k _. rewrite !fmap_omap. apply tally_sublist, sublist_omap, reasons_sublist.
Qed.

Lemma accept_variants :
  counts_within (reason_variant_counts c) (reason_variant_counts a) (λ _, true) = true.
Proof.
  destruct (project_facts _ _ _ _ _ _ Hc) as (_ & _ & _ & _ & _ & _ & _ & _ & _ & _ & _ & ->).
  destruct (project_facts _ _ _ _ _ _ Ha) as (_ & _ & _ & _ & _ & _ & _ & _ & _ & _ & _ & ->).
  apply counts_within_counter. intros k _. apply tally_sublist, sublist_omap, reasons_sublist.
Qed.

Lemma accept_exclusions :
  counts_within (exclusion_counts c) (exclusion_counts a) (λ r, negb (r =?s u8 "ignored")) = true.
Proof.
  destruct (project_facts _ _ _ _ _ _ Hc) as (_ & _ & Hx & _ & _ & _ & _ & _ & _ & _ & -> & _).
  destruct (project_facts _ _ _ _ _ _ Ha) as (_ & _ & Hx' & _ & _ & _ & _ & _ & _ & _ & -> & _).
  rewrite Hx, Hx'. apply counts_within_counter. intros k Hk.
  apply negb_true_iff, str_eqb_neq in Hk.
  pose proof (classes_weaker ignore ss (dm_files m)) as H. clear -H Hk.
  induction H as [|k1 k0 ks k0s [->|((i & -> & Hi) & _)] _ IH]; cbn; [done|..].
  - destruct (excluded_of k0); cbn [fmap list_fmap]; rewrite ?tally_cons; lia.
  - rewrite tally_cons, (proj2 (str_eqb_neq _ _)) by congruence.
    destruct (excluded_of k0); cbn [fmap list_fmap]; rewrite ?tally_cons; [|lia].
    destruct (_ =?s k); lia.
Qed.

Lemma accept_identity :
  py_any (λ r, negb (cget (reason_counts c) r =? cget (reason_counts a) r))
    [u8 "unsupported_path"; u8 "identity_unresolved"] = false.
Proof.
  assert (H : ∀ r, In r identity_reasons → cget (reason_counts c) r = cget (reason_counts a) r).
  { destruct (project_facts _ _ _ _ _ _ Hc) as (_ & _ & _ & Hr & _ & _ & _ & _ & _ & -> & _).
    destruct (project_facts _ _ _ _ _ _ Ha) as (_ & _ & _ & Hr' & _ & _ & _ & _ & _ & -> & _).
    intros r Hin. rewrite !cget_counter, Hr, Hr', !fmap_app, !tally_app. f_equal.
    apply weaker_identity; [done|]. apply classes_weaker. }
  cbn [py_any existsb]. rewrite (H (u8 "unsupported_path")), (H (u8 "identity_unresolved"))
    by (cbn; auto). by rewrite !Z.eqb_refl.
Qed.

Lemma accept_status :
  valid_coverage_status (rc_status c) (rc_reviewed_files c) (py_len ss) (dm_file_list_complete m)
    (reason_counts c) (exclusion_counts c) = true.
Proof.
  destruct (project_facts _ _ _ _ _ _ Hc) as (_ & _ & _ & _ & _ & _ & _ & Ht & Hcm & _).
  rewrite <- Ht, <- Hcm. by eapply project_valid.
Qed.

Lemma accept_inventory :
  Bool.eqb (negb (dm_file_list_complete m))
    (cget (reason_counts c) (u8 "diff_inventory_incomplete") =? 1) = true.
Proof. rewrite (cget_inventory _ _ _ _ _ _ Hc). by destruct (dm_file_list_complete m). Qed.

Lemma accept_complete :
  bool_decide (rc_status c = Cov_complete)
  && py_any (λ f, negb (bool_decide (df_omission_reason f = None))) (dm_files m) = false.
Proof.
  case_bool_decide as Hs; [|done]. cbn [andb].
  apply (project_complete_iff _ _ _ _ _ _ Hc) in Hs as [_ Hs].
  apply (project_reasons_nil _ _ _ _ _ _ Hc) in Hs as [_ Hs].
  apply not_true_iff_false. unfold py_any. rewrite existsb_exists. intros (f & Hf & Hn).
  assert (Hin : ∃ s, In (s, f) (zip ss (dm_files m))).
  { apply list_elem_of_In, list_elem_of_lookup in Hf as [i Hf].
    destruct (Forall2_lookup_r _ _ _ _ _ Hm Hf) as (s & Hs' & _). exists s.
    apply list_elem_of_In, list_elem_of_lookup. exists i. apply lookup_zip_with_Some. eauto. }
  destruct Hin as [s Hin]. destruct (Hs s f Hin) as [[Ho _]|[[Ho] _]]; by rewrite Ho in Hn.
Qed.

Definition stored_variants : option json :=
  if (20 <? csum (reason_counts c)) && bool_decide (reason_variant_counts c ≠ ∅)
  then Some (counts_json (reason_variant_counts c)) else None.

Lemma variants_in_window k :
  cget (by_reason (reason_variant_counts c)) k
  ≤ cget (reason_counts c) k - cget (counter (ci_reason <$> window (rc_reasons c))) k
    + cget (by_reason (counter (omap reason_variant (window (rc_reasons c))))) k.
Proof.
  destruct (project_facts _ _ _ _ _ _ Hc) as (_ & _ & _ & _ & _ & _ & _ & _ & _ & -> & _ & ->).
  rewrite !cget_by_reason_counter, !cget_counter.
  rewrite (tally_window _ _ _ _ _ (window_hidden (rc_reasons c))).
  rewrite !fmap_omap, (tally_window (λ i, Some (ci_reason i)) _ _ _ _ (window_hidden (rc_reasons c))).
  rewrite <- !fmap_omap.
  enough (Hh : ∀ i, In i (hidden (rc_reasons c)) → In (ci_reason i) COVERAGE_REASON_CODES)
    by (pose proof (tally_variants k _ Hh); lia).
  intros i Hi. apply projected_reason_code. apply list_elem_of_In.
  rewrite <- (window_hidden (rc_reasons c)). apply elem_of_app. right. by apply list_elem_of_In.
Qed.

Lemma read_stored_variants :
  read_reason_variants stored_variants (reason_counts c) (redact <$> window (rc_reasons c))
  = Some (reason_variant_counts c).
Proof.
  destruct (project_facts _ _ _ _ _ _ Hc) as (_ & _ & _ & _ & _ & _ & _ & _ & _ & Hr & _ & Hv).
  pose proof variants_in_window as Hw.
  destruct projected_counts_readable as (_ & _ & Hread).
  unfold stored_variants, read_reason_variants. rewrite redact_variants, redact_reasons.
  destruct (20 <? csum (reason_counts c)) eqn:Hn; cbn [andb].
  - case_bool_decide as He.
    + rewrite (read_counts_json _ _ Hread). cbn [mbind option_bind].
      assert (Hle : py_any (λ kv, cget (reason_variant_counts c) (fst kv) <? snd kv)
                (citems (counter (omap reason_variant (window (rc_reasons c))))) = false).
      { rewrite Hv. apply counter_within. intros p.
        rewrite (tally_window _ p _ _ _ (window_hidden (rc_reasons c))).
        pose proof (tally_nonneg p (omap reason_variant (hidden (rc_reasons c)))). lia. }
      rewrite Hle. unfold counts_json at 1.
      match goal with |- (if py_any ?f ?l then _ else _) = _ => assert (Hb : py_any f l = false) end.
      { apply not_true_iff_false. unfold py_any. rewrite existsb_exists.
        intros ([k v] & Hin%In_citems & Hlt). cbn [fst snd] in Hlt. apply Z.ltb_lt in Hlt.
        specialize (Hw k). unfold cget in Hw at 1. rewrite Hin in Hw. cbn in Hw. lia. }
      by rewrite Hb.
    + f_equal. rewrite He. apply counter_empty.
      rewrite Hv, counter_empty in He. by apply window_omap_nil.
  - f_equal. rewrite Hv. apply counter_perm, omap_Permutation. unfold window.
    rewrite Hr, csum_counter in Hn. apply Z.ltb_ge in Hn. unfold py_len in Hn.
    rewrite length_fmap in Hn. rewrite take_ge; [apply py_sorted_perm|]. rewrite length_py_sorted. lia.
Qed.

Lemma marks_qualified :
  py_any (λ i, ci_empty_addition_candidate i
               && negb (match ci_path i with
                        | Some p => str_mem p (qualified_names ss)
                        | None => false
                        end)) (redact <$> window (rc_reasons c)) = false.
Proof.
  apply not_true_iff_false. unfold py_any. rewrite existsb_exists. intros (j & Hj & Hn).
  apply list_elem_of_In, list_elem_of_fmap in Hj as (i & -> & Hi%list_elem_of_In%In_window).
  apply andb_true_iff in Hn as [Hmark Hn].
  cbn [redact ci_empty_addition_candidate ci_path] in Hmark, Hn.
  destruct (projected_item_qualified i Hi Hmark) as (p & Hp & Hq).
  destruct (projected_item_readable i (or_introl Hi)) as [_ _ Hm'].
  destruct (Hm' Hmark) as (Hr & _). rewrite Hr, Hp in Hn.
  change (u8 "missing_patch" =?s u8 "ignored") with false in Hn.
  cbv iota in Hn. by rewrite Hq in Hn.
Qed.

Lemma status_roundtrip st : coverage_status (CoverageStatus_value st) = Some st.
Proof. by destruct st. Qed.

(** The coverage as the reader returns it. *)
Definition restored : RunCoverage :=
  mkRunCoverage (rc_status c) (rc_reviewed_files c) (redact <$> window (rc_exclusions c))
    (redact <$> window (rc_reasons c)) (dm_head_sha m) (dm_digest m) digest (py_len ss)
    (dm_file_list_complete m) (sorted_items (reason_counts c)) (sorted_items (exclusion_counts c))
    (rc_durable_reviewable_paths a) (sorted_items (reason_variant_counts c)).

Lemma read_reasons :
  read_coverage_items (items_json (rc_reasons c)) (reason_counts c) (Some (snapshot_names ss))
  = Some (redact <$> window (rc_reasons c)).
Proof.
  destruct (project_facts _ _ _ _ _ _ Hc) as (_ & _ & _ & _ & _ & _ & _ & _ & _ & -> & _).
  apply read_items_json. intros. apply projected_item_readable. auto.
Qed.

Lemma read_exclusions :
  read_coverage_items (items_json (rc_exclusions c)) (exclusion_counts c)
    (Some (snapshot_names ss))
  = Some (redact <$> window (rc_exclusions c)).
Proof.
  destruct (project_facts _ _ _ _ _ _ Hc) as (_ & _ & _ & _ & _ & _ & _ & _ & _ & _ & -> & _).
  apply read_items_json. intros. apply projected_item_readable. auto.
Qed.

Lemma restore_to_json : restore_run_coverage_ (to_json c) ss m digest = Some (Some restored).
Proof.
  destruct (project_facts _ _ _ _ _ _ Hc)
    as (_ & _ & _ & _ & Hh & Hd & Hsd & Ht & Hcm & Hrc & Hec & _).
  destruct projected_counts_readable as (Hr & He & _).
  destruct projected_lengths as (Hrev & _).
  unfold to_json.
  set (tail := if (20 <? csum (reason_counts c)) && bool_decide (reason_variant_counts c ≠ ∅)
               then [(u8 "reason_variant_counts", counts_json (reason_variant_counts c))] else []).
  assert (Htail : jget (u8 "reason_variant_counts") tail = stored_variants).
  { unfold tail, stored_variants. by destruct (_ && _). }
  match goal with |- restore_run_coverage_ (JObj ?l) _ _ _ = _ => set (kvs := l) end.
  unfold restore_run_coverage_. cbv beta zeta.
  change (jget (u8 "version") kvs) with (Some (JInt 1)).
  change (jget (u8 "head_sha") kvs) with (Some (JStr (rc_head_sha c))).
  change (jget (u8 "diff_digest") kvs) with (Some (JStr (rc_diff_digest c))).
  change (jget (u8 "snapshot_digest") kvs) with (Some (JStr (rc_snapshot_digest c))).
  change (jget (u8 "file_list_complete") kvs) with (Some (JBool (rc_file_list_complete c))).
  change (jget (u8 "total_files") kvs) with (Some (JInt (rc_total_files c))).
  change (jget (u8 "reviewed_files") kvs) with (Some (JInt (rc_reviewed_files c))).
  change (jget (u8 "status") kvs) with (Some (JStr (CoverageStatus_value (rc_status c)))).
  change (jget (u8 "exclusion_counts") kvs) with (Some (counts_json (exclusion_counts c))).
  change (jget (u8 "reason_counts") kvs) with (Some (counts_json (reason_counts c))).
  change (jget (u8 "exclusions") kvs) with (Some (items_json (rc_exclusions c))).
  change (jget (u8 "reasons") kvs) with (Some (items_json (rc_reasons c))).
  change (jget (u8 "reason_variant_counts") kvs) with (jget (u8 "reason_variant_counts") tail).
  rewrite Htail, Hh, Hd, Hsd, Hcm, Ht. unfold jstr_is, jint_is, jbool_is, jint, jbool, jstr.
  rewrite !str_eqb_refl, !bool_decide_true by done. cbn [negb orb mbind option_bind default from_option id].
  rewrite status_roundtrip, (proj2 (Z.leb_le 0 _)), (proj2 (Z.leb_le _ (py_len ss))) by lia.
  cbn [andb negb]. rewrite (read_counts_json _ _ Hr), (read_counts_json _ _ He), Ha.
  cbn [mbind option_bind]. rewrite (proj2 (Z.ltb_ge _ _) accept_reviewed).
  rewrite accept_exclusions, accept_reasons, accept_identity, accept_status, accept_inventory,
    accept_complete. cbn [negb orb]. fold (qualified_names ss).
  rewrite read_reasons, read_exclusions.
  cbn [mbind option_bind]. rewrite marks_qualified, read_stored_variants. cbn [mbind option_bind].
  by rewrite accept_variants.
Qed.

Lemma restored_counts :
  reason_counts restored = reason_counts c ∧ exclusion_counts restored = exclusion_counts c
  ∧ reason_variant_counts restored = reason_variant_counts c.
Proof.
  destruct (project_facts _ _ _ _ _ _ Hc)
    as (_ & _ & _ & _ & _ & _ & _ & _ & _ & Hrc & Hec & Hvc).
  assert (H : ∀ (cs counted : counts), (cs = ∅ → counted = ∅) → stored_or (sorted_items cs) counted = cs).
  { intros cs counted Hz. destruct (decide (cs = ∅)) as [E|E]; [|by apply stored_or_sorted].
    rewrite E, Hz by done. done. }
  unfold reason_counts at 1, exclusion_counts at 1, reason_variant_counts at 1. cbn.
  split_and!; apply H.
  - rewrite redact_reasons, Hrc. intros E%counter_empty%fmap_nil_inv. by rewrite E.
  - rewrite redact_reasons, Hec. intros E%counter_empty%fmap_nil_inv. by rewrite E.
  - rewrite redact_variants, Hvc. intros E%counter_empty. apply counter_empty.
    by apply window_omap_nil.
Qed.
End RoundTrip.

(** ** What the reader accepts *)

Lemma mapM_Some_In {A B} (f : A → option B) l k y :
  mapM f l = Some k → In y k → ∃ x, In x l ∧ f x = Some y.
Proof.
  revert k. induction l as [|x l IH]; intros k; cbn; [intros [= <-] []|].
  destruct (f x) as [y'|] eqn:Hx; [|done]. destruct (mapM f l) as [k'|]; [|done].
  intros [= <-] [<-|Hy]; [eauto|]. destruct (IH k' eq_refl Hy) as (x' & ? & ?). eauto.
Qed.

Lemma read_item_path raw cs names i p :
  read_coverage_item raw cs (Some names) = Some i → ci_path i = Some p → In p names.
Proof.
  unfold read_coverage_item. destruct raw as [| | | | |kvs]; try done.
  destruct (negb _); [done|]. destruct (jget _ kvs) as [path|]; [|done].
  destruct (jget (u8 "reason") kvs) as [reason|]; [|done].
  destruct (jget (u8 "change_type") kvs) as [change|]; [|done].
  intros H. apply bind_Some in H as (q & _ & H). apply bind_Some in H as (r & _ & H).
  apply bind_Some in H as (p' & Hp & H). apply bind_Some in H as (ct & _ & [= <-]). cbn.
  intros ->. destruct path; try done. destruct (negb _ || negb _) eqn:E; [done|].
  injection Hp as <-. apply orb_false_iff in E as [_ E]. by apply negb_false_iff, str_mem_In in E.
Qed.

Lemma read_items_facts value cs names items :
  read_coverage_items value cs (Some names) = Some items →
  (cs = ∅ → items = []) ∧ ∀ i p, In i items → ci_path i = Some p → In p names.
Proof.
  unfold read_coverage_items. destruct value as [| | | |raws|]; try done.
  destruct (negb _) eqn:Hl; [done|]. apply negb_false_iff, Z.eqb_eq in Hl.
  intros H. apply bind_Some in H as (result & Hm & H).
  destruct (py_any _ _); [done|]. injection H as <-. split.
  - intros ->. assert (Hz : length raws = 0%nat) by (unfold py_len in Hl; change (csum ∅) with 0 in Hl; lia).
    destruct raws; [|done]. cbn in Hm. by injection Hm as <-.
  - intros i p Hi Hp. destruct (mapM_Some_In _ _ _ _ Hm Hi) as (raw & _ & Hr).
    by eapply read_item_path.
Qed.

Lemma counts_within_spec m bound counted k :
  counts_within m bound counted = true → counted k = true →
  (∀ j, 0 ≤ cget bound j) → cget m k ≤ cget bound k.
Proof.
  unfold counts_within, py_all. rewrite forallb_forall. intros H Hk Hb. unfold cget at 1.
  destruct (m !! k) as [v|] eqn:E; [|apply Hb]. apply In_citems in E. apply H in E.
  cbn [fst snd] in E. rewrite Hk in E. by apply Z.leb_le in E.
Qed.

Lemma stored_or_counts (cs counted : counts) :
  (cs = ∅ → counted = ∅) → stored_or (sorted_items cs) counted = cs.
Proof.
  intros Hz. destruct (decide (cs = ∅)) as [E|E]; [|by apply stored_or_sorted].
  rewrite E, Hz by done. done.
Qed.

(** ** Theorems *)

(** What the worker stores is read back.  The stored form of a projected coverage, of a run
    of at most 3000 files whose diff map is built from them, is accepted by the reader, with the
    same status, number of reviewed files and exact counts; of the items it has the first twenty
    in order, and of an ignored file not the path. *)
Theorem coverage_roundtrip ss m ignore snapshot_path c :
  map_of_snapshots ss m → py_len ss ≤ 3000 →
  project_run_coverage ss m ignore snapshot_path = Some c →
  ∃ c', restore_run_coverage (to_json c) ss m = Some (Some c')
    ∧ rc_status c' = rc_status c ∧ rc_reviewed_files c' = rc_reviewed_files c
    ∧ rc_total_files c' = rc_total_files c
    ∧ reason_counts c' = reason_counts c ∧ exclusion_counts c' = exclusion_counts c
    ∧ reason_variant_counts c' = reason_variant_counts c
    ∧ rc_reasons c' = redact <$> window (rc_reasons c)
    ∧ rc_exclusions c' = redact <$> window (rc_exclusions c).
Proof.
  intros Hm Hlen Hc. apply map_files_match in Hm. unfold project_run_coverage in Hc.
  destruct (project_facts _ _ _ _ _ _ Hc) as (Hl & _ & _ & _ & _ & _ & _ & Ht & _).
  assert (Ha : ∃ a, project_run_coverage_ ss m None (snapshot_coverage_digest ss) false = Some a).
  { unfold project_run_coverage_. rewrite zip_strict_spec, Hl, Nat.eqb_refl. by eexists. }
  destruct Ha as [a Ha]. eexists. split; [by eapply restore_to_json|].
  destruct (restored_counts _ _ _ _ _ _ a Hm Hlen Hc Ha) as (H1 & H2 & H3).
  split_and!; done.
Qed.

(** The checks behind an accepted value. *)
Lemma restore_accepts value ss m digest c :
  restore_run_coverage_ value ss m digest = Some (Some c) →
  ∃ a reasons exclusions variants,
    project_run_coverage_ ss m None digest false = Some a
    ∧ 0 ≤ rc_reviewed_files c ≤ rc_reviewed_files a
    ∧ counts_within exclusions (exclusion_counts a) (λ r, negb (r =?s u8 "ignored")) = true
    ∧ counts_within reasons (reason_counts a) (λ _, true) = true
    ∧ valid_coverage_status (rc_status c) (rc_reviewed_files c) (py_len ss)
        (dm_file_list_complete m) reasons exclusions = true
    ∧ read_coverage_items (default JNull (match value with JObj kvs => jget (u8 "reasons") kvs
                                          | _ => None end)) reasons (Some (snapshot_names ss))
      = Some (rc_reasons c)
    ∧ read_coverage_items (default JNull (match value with JObj kvs => jget (u8 "exclusions") kvs
                                          | _ => None end)) exclusions (Some (snapshot_names ss))
      = Some (rc_exclusions c)
    ∧ c = mkRunCoverage (rc_status c) (rc_reviewed_files c) (rc_exclusions c) (rc_reasons c)
            (dm_head_sha m) (dm_digest m) digest (py_len ss) (dm_file_list_complete m)
            (sorted_items reasons) (sorted_items exclusions) (rc_durable_reviewable_paths a)
            (sorted_items variants).
Proof.
  unfold restore_run_coverage_. destruct value as [| | | | |kvs]; try done. cbv zeta.
  match goal with |- context [if ?b then Some None else _] => destruct b; [done|] end.
  destruct (jint _) as [reviewed|]; [|done]. destruct (_ ≫= coverage_status) as [status|]; [|done].
  destruct (negb _) eqn:Hrange; [done|]. apply negb_false_iff, andb_true_iff in Hrange as [H0 _].
  destruct (read_coverage_counts _ COVERAGE_REASON_CODES) as [reasons|]; [|done].
  destruct (read_coverage_counts _ COVERAGE_EXCLUSION_CODES) as [exclusions|]; [|done].
  destruct (project_run_coverage_ ss m None digest false) as [a|]; [|done]. cbn [mbind option_bind].
  match goal with |- context [if ?b then Some None else _] => destruct b eqn:Hb; [done|] end.
  repeat (apply orb_false_iff in Hb as [Hb ?]).
  intros E. injection E as E.
  apply bind_Some in E as (ri & Hri & E). apply bind_Some in E as (ei & Hei & E).
  destruct (py_any _ ri); [done|]. apply bind_Some in E as (variants & _ & E).
  destruct (counts_within variants _ _); [|done]. injection E as <-. cbn [rc_status rc_reviewed_files rc_reasons rc_exclusions].
  exists a, reasons, exclusions, variants.
  repeat match goal with H : negb _ = false |- _ => apply negb_false_iff in H end.
  apply Z.ltb_ge in Hb. apply Z.leb_le in H0. split_and!; done.
Qed.

(** C33: the reader never claims more than the stored files support.  Whatever JSON it is given,
    the coverage it accepts is consistent, counts no more reviewed files, reasons or exclusions
    (ignored files apart) than the stored files themselves have, and names only stored files. *)
Theorem restored_coverage_sound value ss m c :
  restore_run_coverage value ss m = Some (Some c) →
  coverage_valid c ∧ rc_total_files c = py_len ss
  ∧ (∃ a, project_run_coverage ss m None false = Some a
      ∧ 0 ≤ rc_reviewed_files c ≤ rc_reviewed_files a
      ∧ (∀ r, cget (reason_counts c) r ≤ cget (reason_counts a) r)
      ∧ ∀ r, r ≠ u8 "ignored" → cget (exclusion_counts c) r ≤ cget (exclusion_counts a) r)
  ∧ ∀ i p, In i (rc_reasons c ++ rc_exclusions c) → ci_path i = Some p → In p (snapshot_names ss).
Proof.
  intros H. apply restore_accepts in H
    as (a & reasons & exclusions & variants & Ha & Hrev & Hex & Hre & Hv & Hri & Hei & Hc).
  apply read_items_facts in Hri as [Hrn Hrp]. apply read_items_facts in Hei as [Hen Hep].
  assert (Hrc : reason_counts c = reasons).
  { rewrite Hc. unfold reason_counts. cbn. apply stored_or_counts. intros E. by rewrite Hrn. }
  assert (Hec : exclusion_counts c = exclusions).
  { rewrite Hc. unfold exclusion_counts. cbn. apply stored_or_counts. intros E. by rewrite Hen. }
  destruct (project_facts _ _ _ _ _ _ Ha) as (_ & _ & _ & _ & _ & _ & _ & _ & _ & Hra & Hea & _).
  split_and!.
  - unfold coverage_valid. rewrite Hrc, Hec, Hc. cbn. done.
  - by rewrite Hc.
  - exists a. split_and!; [done|lia|lia|..].
    + intros r. rewrite Hrc. apply (counts_within_spec _ _ _ _ Hre); [done|].
      intros j. rewrite Hra, cget_counter. apply tally_nonneg.
    + intros r Hr. rewrite Hec. apply (counts_within_spec _ _ _ _ Hex).
      * by apply negb_true_iff, str_eqb_neq.
      * intros j. rewrite Hea, cget_counter. apply tally_nonneg.
  - intros i p [Hi|Hi]%in_app_iff; eauto.
Qed.

(** ** A sample *)

Definition stored_sample : list DiffSnapshot :=
  store_diff_snapshot [sample_snapshot (u8 "a.py"); sample_snapshot (u8 "b.py"); empty_snapshot]
    None.
Definition stored_build : result MapError DiffMap :=
  build_diff_map_from_facts (snapshot_vcs_file <$> stored_sample) Provider_github 255%N 12
    (u8 "base") (u8 "head") None true.
Definition stored_map : DiffMap := match stored_build with Ok m => m | Err _ => sample_map end.
Definition stored_ignore : IgnoreResult := mkIgnoreResult [] {[u8 "b.py"]}.
Definition projected_sample : RunCoverage :=
  default sample_coverage
    (project_run_coverage stored_sample stored_map (Some stored_ignore) true).

Lemma stored_map_built : map_of_snapshots stored_sample stored_map.
Proof.
  exists Provider_github, 255%N, 12, (u8 "base"), (u8 "head"), None, true.
  vm_compute. reflexivity.
Qed.

Lemma projected_sample_ok :
  project_run_coverage stored_sample stored_map (Some stored_ignore) true = Some projected_sample.
Proof. vm_compute. reflexivity. Qed.

Lemma complete_coverage_meaning_witness :
  coverage_valid projected_sample ∧ rc_status projected_sample = Cov_complete
  ∧ rc_reviewed_files projected_sample = 1.
Proof.
  split; [|split; vm_compute; reflexivity].
  exact (proj1 (complete_coverage_meaning stored_sample stored_map (Some stored_ignore) true
                  projected_sample projected_sample_ok)).
Defined.

Lemma coverage_roundtrip_witness :
  ∃ c', restore_run_coverage (to_json projected_sample) stored_sample stored_map = Some (Some c')
    ∧ rc_status c' = Cov_complete ∧ csum (exclusion_counts c') = 2.
Proof.
  destruct (coverage_roundtrip stored_sample stored_map (Some stored_ignore) true projected_sample)
    as (c' & H & Hs & _ & _ & _ & He & _).
  - exact stored_map_built.
  - vm_compute. discriminate.
  - exact projected_sample_ok.
  - exists c'. split; [exact H|]. rewrite Hs, He. split; vm_compute; reflexivity.
Defined.

Definition restored_sample : RunCoverage :=
  default sample_coverage (default None (restore_run_coverage (to_json projected_sample) stored_sample stored_map)).

Lemma restored_coverage_sound_witness :
  coverage_valid restored_sample ∧ rc_total_files restored_sample = 3.
Proof.
  assert (H : restore_run_coverage (to_json projected_sample) stored_sample stored_map
              = Some (Some restored_sample)) by (vm_compute; reflexivity).
  destruct (restored_coverage_sound (to_json projected_sample) stored_sample stored_map
              restored_sample H) as (H1 & H2 & _).
  split; [exact H1|]. rewrite H2. vm_compute. reflexivity.
Defined.
