(* ===== verification/Findings.v ===== *)
(** * Findings and their post-processing ([findings_post_processor.py], [review_output.py])

    The findings of a parsed model answer are filtered, anchored on the diff map and put in
    exactly one bucket: an inline comment, a line of the review body, or dropped with a reason.
    The body is packed into its character budget.  A compiled pattern is its search predicate. *)

From Stdlib Require Import String QArith.
From stdpp Require Import gmap.
From S2P Require Import Prelude PyText PyHash UnifiedDiff DiffMap DiffAnchor ReviewIgnore.
From S2P Require Import RunFailures VcsInput DiffSnapshots CoverageSchema RunCoverage Verdict.
#[local] Open Scope Z_scope.

(** ** The contract of an answer ([review_output.py]) *)

Inductive Effort : Type := Effort_none | Effort_small | Effort_medium | Effort_large.

Definition Effort_value (e : Effort) : pystr :=
  match e with
  | Effort_none => u8 "none"
  | Effort_small => u8 "small"
  | Effort_medium => u8 "medium"
  | Effort_large => u8 "large"
  end.

Record ReviewFinding : Type := mkReviewFinding {
  fg_path : pystr;
  fg_line : Z;
  fg_start_line : option Z;
  fg_severity : Severity;
  fg_category : Category;
  fg_title : pystr;
  fg_body : pystr;
  fg_suggestion : option pystr;
  fg_confidence : Q;
  fg_rule_name : option pystr
}.

Definition SEVERITY_RANK (s : Severity) : Z :=
  match s with
  | Sev_critical => 0 | Sev_high => 1 | Sev_medium => 2 | Sev_low => 3 | Sev_info => 4
  end.

Definition finding_order_key (severity : Severity) (confidence : Q) : Z * Q :=
  (SEVERITY_RANK severity, Qopp confidence).

Definition Qltb (a b : Q) : bool := negb (Qle_bool b a).

(** [a <= b] of two keys, as Python compares tuples. *)
Definition order_key_leb (a b : Z * Q) : bool :=
  (fst a <? fst b) || ((fst a =? fst b) && Qle_bool (snd a) (snd b)).

(** [str.splitlines] *)
Definition is_linebreak (c : char) : bool :=
  in_ranges [(10, 13); (28, 30); (133, 133); (8232, 8233)]%N c.
Fixpoint splitlines_from (s current : pystr) : list pystr :=
  match s with
  | [] => match current with [] => [] | _ => [current] end
  | c :: s' =>
      if is_linebreak c then
        current :: match s' with
                   | d :: s'' => if (c =? CR)%N && (d =? LF)%N then splitlines_from s'' []
                                 else splitlines_from s' []
                   | [] => []
                   end
      else splitlines_from s' (current ++ [c])
  end.
Definition splitlines (s : pystr) : list pystr := splitlines_from s [].

Definition between (lo hi n : Z) : bool := (lo <=? n) && (n <=? hi).

(** The field constraints of [ReviewFinding].  A constrained text has no lone surrogate; a text
    without a constraint, as [suggestion], may have one. *)
Definition finding_fields_ok (f : ReviewFinding) : bool :=
  (1 <=? py_len (fg_path f)) && (1 <=? fg_line f)
  && match fg_start_line f with Some s => 1 <=? s | None => true end
  && between 1 80 (py_len (fg_title f)) && between 1 1200 (py_len (fg_body f))
  && Qle_bool 0 (fg_confidence f) && Qle_bool (fg_confidence f) 1
  && py_all encodable [fg_path f; fg_title f; fg_body f].

(** [validate_range]: a range, a title without a final period, and of one line. *)
Definition validate_range (f : ReviewFinding) : bool :=
  match fg_start_line f with Some s => s <? fg_line f | None => true end
  && negb (endswith (fg_title f) (u8 "."))
  && match splitlines (fg_title f) with [l] => l =?s fg_title f | _ => false end.

Definition finding_valid (f : ReviewFinding) : bool := finding_fields_ok f && validate_range f.

(** [len(re.findall(r"[^.!?]+[.!?](?:\s|$)", text))]: [run] says that the match under way has
    a character before its terminator. *)
Definition is_terminator (c : char) : bool := char_mem c (u8 ".!?").
Fixpoint sentences_from (s : pystr) (run : bool) : Z :=
  match s with
  | [] => 0
  | c :: s' =>
      if is_terminator c then
        match s' with
        | [] => if run then 1 else 0
        | d :: s'' => if run && is_space d then 1 + sentences_from s'' false
                      else sentences_from s' false
        end
      else sentences_from s' true
  end.
Definition sentence_count (text : pystr) : Z := sentences_from text false.

Record ReviewSummary : Type := mkReviewSummary {
  sm_problem : pystr;
  sm_done_well : pystr;
  sm_effort : Effort
}.

Definition summary_valid (s : ReviewSummary) : bool :=
  (1 <=? py_len (sm_problem s)) && (1 <=? py_len (sm_done_well s))
  && (sentence_count (sm_problem s) =? 1) && between 1 2 (sentence_count (sm_done_well s))
  && py_all encodable [sm_problem s; sm_done_well s].

Record ReviewOutput : Type := mkReviewOutput {
  ro_findings : list ReviewFinding;
  ro_summary : ReviewSummary
}.

Definition finding_key (f : ReviewFinding) : Z * Q :=
  finding_order_key (fg_severity f) (fg_confidence f).

Definition order_key_eqb (a b : Z * Q) : bool := (fst a =? fst b) && Qeq_bool (snd a) (snd b).

(** [validate_finding_order] *)
Definition findings_ordered (findings : list ReviewFinding) : bool :=
  let ordering := finding_key <$> findings in
  py_all (λ p, order_key_eqb (fst p) (snd p)) (zip ordering (py_sorted order_key_leb ordering)).

Definition output_valid (o : ReviewOutput) : bool :=
  py_all finding_valid (ro_findings o) && (py_len (ro_findings o) <=? 10)
  && findings_ordered (ro_findings o) && summary_valid (ro_summary o).

Definition render_review_body (s : ReviewSummary) : pystr :=
  join [LF]
    [u8 "## Review summary"; [];
     u8 "**Main issue:** " ++ sm_problem s; [];
     u8 "**Done well:** " ++ sm_done_well s; [];
     u8 "**Effort:** " ++ Effort_value (sm_effort s)].

Definition is_id_char (c : char) : bool :=
  in_ranges [(48, 57); (65, 90); (97, 122)]%N c || char_mem c (u8 "_-").

Definition is_valid_service_defaults_id (rule_id : pystr) : bool :=
  negb (rule_id =?s []) && py_all is_id_char rule_id.

(** ** The summary-only line ([check_runs.py]) *)

Definition SUMMARY_ONLY_LINES : list (pystr * pystr) :=
  [(u8 "diff_too_large", u8 "Построчное AI-ревью не выполнено: превышен лимит diff");
   (u8 "diff_inventory_incomplete",
    u8 "Построчное AI-ревью не выполнено: список изменённых файлов неполон");
   (u8 "no_reviewable_files", u8 "Построчное AI-ревью не выполнено: нет проверяемых файлов")].

Definition size_line : pystr := u8 "Построчное AI-ревью не выполнено: превышен лимит diff".

Definition summary_only_line (reason : option pystr) : pystr :=
  match reason with
  | None => size_line
  | Some r => default size_line (assoc r SUMMARY_ONLY_LINES)
  end.

(** ** Buckets *)

Inductive Bucket : Type := Bucket_inline | Bucket_body_only | Bucket_dropped.
#[export] Instance Bucket_eq_dec : EqDecision Bucket.
Proof. solve_decision. Defined.

Record LintFilterPatterns : Type := mkLintFilterPatterns {
  lp_drop_if_any : list (pystr → bool);
  lp_keep_if_any : list (pystr → bool);
  lp_min_confidence : Q;
  lp_max_inline : Z
}.

Record ProcessedFinding : Type := mkProcessedFinding {
  pf_finding : ReviewFinding;
  pf_position : Z;
  pf_bucket : Bucket;
  pf_drop_reason : option pystr
}.

Record ProcessedReviewOutput : Type := mkProcessedReviewOutput {
  po_inline : list ProcessedFinding;
  po_body_only : list ProcessedFinding;
  po_dropped : list ProcessedFinding;
  po_review_body : pystr;
  po_omitted_body_only_count : Z;
  po_review_body_budget_degraded : bool;
  po_summary : option ReviewSummary;
  po_coverage : RunCoverage
}.

Definition drop_item (reason : pystr) (item : ProcessedFinding) : ProcessedFinding :=
  mkProcessedFinding (pf_finding item) (pf_position item) Bucket_dropped (Some reason).

(** Severity, confidence and place in the answer; [a <= b] in that order. *)
Definition quality_leb (a b : ProcessedFinding) : bool :=
  let ka := finding_key (pf_finding a) in
  let kb := finding_key (pf_finding b) in
  (fst ka <? fst kb)
  || ((fst ka =? fst kb)
      && (Qltb (snd ka) (snd kb)
          || (Qeq_bool (snd ka) (snd kb) && (pf_position a <=? pf_position b)))).
Definition quality_ltb (a b : ProcessedFinding) : bool := negb (quality_leb b a).

(** ** The stages *)

Definition lint_text (f : ReviewFinding) : pystr := fg_title f ++ [LF] ++ fg_body f.

Definition drops_as_lint (p : LintFilterPatterns) (item : ProcessedFinding) : bool :=
  let text := lint_text (pf_finding item) in
  py_any (λ search, search text) (lp_drop_if_any p)
  && negb (py_any (λ search, search text) (lp_keep_if_any p))
  && negb (bool_decide (fg_severity (pf_finding item) ∈ [Sev_critical; Sev_high])).

(** The kept items, and the dropped ones with their reason, each in order. *)
Definition drop_when (test : ProcessedFinding → bool) (reason : pystr)
    (candidates : list ProcessedFinding) : list ProcessedFinding * list ProcessedFinding :=
  (List.filter (λ i, negb (test i)) candidates,
   drop_item reason <$> List.filter test candidates).

Definition drop_lint_patterns (p : LintFilterPatterns) (candidates : list ProcessedFinding)
  : list ProcessedFinding * list ProcessedFinding :=
  drop_when (drops_as_lint p) (u8 "lint_pattern") candidates.

Definition drop_below_threshold (candidates : list ProcessedFinding)
    (threshold : SeverityThreshold) : list ProcessedFinding * list ProcessedFinding :=
  drop_when (λ i, negb (bool_decide (fg_severity (pf_finding i) ∈ PUBLISHED_SEVERITIES threshold)))
    (u8 "severity_threshold") candidates.

(** [re.sub(r"[^a-z0-9]+", " ", title.lower()).strip()]: [gap] inside a replaced run. *)
Definition is_title_char (c : char) : bool := in_ranges [(48, 57); (97, 122)]%N c.
Fixpoint squeeze_title (s : pystr) (gap : bool) : pystr :=
  match s with
  | [] => []
  | c :: s' => if is_title_char c then c :: squeeze_title s' false
               else if gap then squeeze_title s' true
               else 32%N :: squeeze_title s' true
  end.
Definition normalize_title (title : pystr) : pystr :=
  strip_with is_space (squeeze_title (str_lower title) false).

Definition dedupe_key : Type := pystr * Z * pystr.
Definition key_of (item : ProcessedFinding) : dedupe_key :=
  (fg_path (pf_finding item), fg_line (pf_finding item), normalize_title (fg_title (pf_finding item))).
Definition dedupe_key_eqb (a b : dedupe_key) : bool :=
  (fst (fst a) =?s fst (fst b)) && (snd (fst a) =? snd (fst b)) && (snd a =?s snd b).

(** [winners], a dict in the order of its keys. *)
Abbreviation winner_map := (list (dedupe_key * ProcessedFinding)) (only parsing).
Fixpoint winner_get (k : dedupe_key) (ws : winner_map) : option ProcessedFinding :=
  match ws with
  | [] => None
  | (k', v) :: rest => if dedupe_key_eqb k k' then Some v else winner_get k rest
  end.
Fixpoint winner_set (k : dedupe_key) (v : ProcessedFinding) (ws : winner_map) : winner_map :=
  match ws with
  | [] => [(k, v)]
  | (k', v') :: rest =>
      if dedupe_key_eqb k k' then (k', v) :: rest else (k', v') :: winner_set k v rest
  end.

Definition dedupe_step (acc : winner_map * list ProcessedFinding) (item : ProcessedFinding)
  : winner_map * list ProcessedFinding :=
  let '(winners, dropped) := acc in
  let key := key_of item in
  match winner_get key winners with
  | None => (winner_set key item winners, dropped)
  | Some incumbent =>
      if quality_ltb item incumbent
      then (winner_set key item winners, dropped ++ [drop_item (u8 "duplicate") incumbent])
      else (winners, dropped ++ [drop_item (u8 "duplicate") item])
  end.

Definition position_leb (a b : ProcessedFinding) : bool := pf_position a <=? pf_position b.

Definition deduplicate (candidates : list ProcessedFinding)
  : list ProcessedFinding * list ProcessedFinding :=
  let '(winners, dropped) := fold_left dedupe_step candidates ([], []) in
  (py_sorted position_leb (snd <$> winners), dropped).

(** ** Anchors *)

Definition clear_range (f : ReviewFinding) : ReviewFinding :=
  mkReviewFinding (fg_path f) (fg_line f) None (fg_severity f) (fg_category f) (fg_title f)
    (fg_body f) None (fg_confidence f) (fg_rule_name f).

Definition anchor_bucket (anchor : AnchorResult) : Bucket :=
  match anchor with
  | Anchored _ => Bucket_inline
  | Rejected Reject_unknown_path => Bucket_dropped
  | Rejected _ => Bucket_body_only
  end.

(** A range that cannot be anchored falls back to its last line, without its suggestion. The
    error is the [ValueError] of [resolve_anchor]. *)
Definition classify_anchor (f : ReviewFinding) (m : DiffMap)
  : result pystr (ReviewFinding * Bucket) :=
  anchor ← resolve_anchor m (fg_path f) (fg_start_line f) (fg_line f);
  match anchor, fg_start_line f with
  | Rejected _, Some _ =>
      single ← resolve_anchor m (fg_path f) None (fg_line f);
      match single with
      | Anchored _ => Ok (clear_range f, Bucket_inline)
      | Rejected _ => Ok (f, anchor_bucket anchor)
      end
  | _, _ => Ok (f, anchor_bucket anchor)
  end.

Definition unknown_reason : pystr := u8 "unknown_path".

(** The loop that anchors the candidates: the prepared ones and the dropped ones. *)
Fixpoint prepare (min_confidence : Q) (m : DiffMap) (candidates : list ProcessedFinding)
  : result pystr (list ProcessedFinding * list ProcessedFinding) :=
  match candidates with
  | [] => Ok ([], [])
  | item :: rest =>
      '(finding, bucket) ← classify_anchor (pf_finding item) m;
      '(prepared, dropped) ← prepare min_confidence m rest;
      if bool_decide (bucket = Bucket_dropped)
      then Ok (prepared,
               mkProcessedFinding finding (pf_position item) Bucket_dropped (Some unknown_reason)
               :: dropped)
      else
        let bucket := if Qltb (fg_confidence finding) min_confidence then Bucket_body_only
                      else bucket in
        Ok (mkProcessedFinding finding (pf_position item) bucket None :: prepared, dropped)
  end.

(** ** Attribution *)

Definition ATTRIBUTION_PREFIX : pystr := u8 "According to custom instructions in '".

(** The text before the first [stop], and the text from it on. *)
Fixpoint span_until (stop : char) (s : pystr) : pystr * pystr :=
  match s with
  | [] => ([], [])
  | c :: s' => if (c =? stop)%N then ([], s)
               else let '(a, b) := span_until stop s' in (c :: a, b)
  end.

(** The match of the attribution pattern: the quoted name and the text after the match. *)
Definition match_attribution (body : pystr) : option (pystr * pystr) :=
  s ← expect ATTRIBUTION_PREFIX body;
  let '(name, s) := span_until 39%N s in
  if name =?s [] then None
  else
    s ← expect (u8 "' (") s;
    rest ← expect (u8 "): ") (snd (span_until 41%N s));
    Some (name, rest).

Definition set_rule (f : ReviewFinding) (body : pystr) (rule_name : option pystr) : ReviewFinding :=
  mkReviewFinding (fg_path f) (fg_line f) (fg_start_line f) (fg_severity f) (fg_category f)
    (fg_title f) body (fg_suggestion f) (fg_confidence f) rule_name.

Definition SERVICE_DEFAULTS_PREFIX : pystr := u8 "service-defaults:".

(** A rule of a v2 answer that needs no quotation. *)
Definition allowed_v2_rule (rule_name : pystr) (allowed : option (gset pystr)) : bool :=
  match allowed with
  | None => false
  | Some rules =>
      bool_decide (rule_name ∈ rules)
      || match expect SERVICE_DEFAULTS_PREFIX rule_name with
         | Some rule_id => is_valid_service_defaults_id rule_id
         | None => false
         end
  end.

Definition repair_attribution (item : ProcessedFinding) (rule_names : gset pystr)
    (allowed_v2_rules : option (gset pystr)) : ProcessedFinding :=
  let f := pf_finding item in
  let v2 := match fg_rule_name f with
            | Some r => allowed_v2_rule r allowed_v2_rules
            | None => false
            end in
  if v2 then item
  else
    let matched := match_attribution (fg_body f) in
    let valid := match matched, fg_rule_name f with
                 | Some (name, _), Some r => (name =?s r) && bool_decide (r ∈ rule_names)
                 | _, _ => false
                 end in
    if valid then item
    else match matched with
         | Some (_, rest) =>
             mkProcessedFinding (set_rule f rest None) (pf_position item) Bucket_body_only None
         | None =>
             mkProcessedFinding (set_rule f (fg_body f) None) (pf_position item) (pf_bucket item)
               None
         end.

(** ** The summary *)

Definition Verdict_value (v : Verdict) : pystr :=
  match v with
  | V_blocking => u8 "blocking"
  | V_attention => u8 "attention"
  | V_clean => u8 "clean"
  end.

Definition removesuffix (s suffix : pystr) : pystr :=
  if endswith s suffix then take (length s - length suffix) s else s.

(** What post-processing can raise. *)
Inductive process_error : Type :=
| Err_anchor (message : pystr)
| Err_key
| Err_validation.

(** The text of the counts, by category in order. *)
Definition problem_text (severities : list Severity) (categories : list Category)
    (coverage : RunCoverage) : option pystr :=
  let count := py_len severities in
  let base := if count =? 0 then u8 "Подтверждённых замечаний нет"
              else u8 "Подтверждено замечаний: " ++ str_of_Z count in
  let category_counts := counter (Category_value <$> categories) in
  let listed :=
    if bool_decide (category_counts = ∅) then []
    else u8 " (" ++ join (u8 ", ") ((λ kv, fst kv ++ u8 ": " ++ str_of_Z (snd kv))
                                    <$> sorted_items category_counts) ++ u8 ")" in
  if bool_decide (rc_status coverage = Cov_complete) then Some (base ++ listed)
  else
    p ← summary_problem coverage;
    Some (base ++ listed ++ u8 "; " ++ removesuffix p (u8 ".")).

Definition summary_effort (severities : list Severity) : Effort :=
  let counts := severity_counts severities in
  if positive (counts Sev_critical) then Effort_large
  else if positive (counts Sev_high) then Effort_medium
  else if positive (counts Sev_medium) || positive (counts Sev_low) then Effort_small
  else Effort_none.

(** The validated [ReviewSummary]. *)
Definition summary_from_result (severities : list Severity) (categories : list Category)
    (coverage : RunCoverage) (summary_reason : option pystr) (name_summary_only : bool)
  : result process_error ReviewSummary :=
  problem ← (if name_summary_only then Ok (summary_only_line summary_reason ++ u8 ".")
             else match problem_text severities categories coverage with
                  | Some p => Ok (p ++ u8 ".")
                  | None => Err Err_key
                  end);
  let summary :=
    mkReviewSummary problem
      (u8 "Проанализировано файлов с текстовыми изменениями: "
       ++ str_of_Z (rc_reviewed_files coverage) ++ u8 "; исключено файлов: "
       ++ str_of_Z (csum (exclusion_counts coverage)) ++ u8 ".")
      (summary_effort severities) in
  if summary_valid summary then Ok summary else Err Err_validation.

(** ** The review body *)

Definition REVIEW_BODY_CHAR_BUDGET : Z := 4000.
Definition ADDITIONAL_FINDINGS_HEADING : pystr := u8 "## Additional findings".
Definition CHECKED_FILES_WITHHELD : pystr :=
  u8 "(список не показывается: имена файлов в этом ревью скрыты)".

Definition ru_cardinal (count : Z) (one few many : pystr) : pystr :=
  let remainder := Z.abs count mod 100 in
  let word :=
    if (11 <=? remainder) && (remainder <=? 14) then many
    else
      let last := remainder mod 10 in
      if last =? 1 then one
      else if (2 <=? last) && (last <=? 4) then few else many in
  str_of_Z count ++ u8 " " ++ word.

Definition format_checked_files (sorted_paths : list pystr) (listed_count : nat) (withheld : bool)
  : pystr :=
  if withheld then CHECKED_FILES_WITHHELD
  else match sorted_paths with
  | [] => u8 "(none)"
  | _ =>
      let omitted := py_len sorted_paths - Z.of_nat listed_count in
      join [LF] (((λ p, u8 "- " ++ p) <$> take listed_count sorted_paths)
                 ++ (if 0 <? omitted
                     then [u8 "- … и ещё " ++ ru_cardinal omitted (u8 "файл") (u8 "файла") (u8 "файлов")]
                     else []))
  end.

Definition SeverityThreshold_value (t : SeverityThreshold) : pystr :=
  match t with Th_all => u8 "all" | Th_warning => u8 "warning" | Th_critical => u8 "critical" end.

(** [None] for the [KeyError] of [summary_problem]. *)
Definition overview_block (kept : list ProcessedFinding) (checked_files_text : pystr)
    (severity_threshold : SeverityThreshold) (below_threshold : Z) (coverage : RunCoverage)
  : option pystr :=
  let severities := (λ i, fg_severity (pf_finding i)) <$> kept in
  let run_verdict := coverage_verdict severities (Some (CoverageStatus_value (rc_status coverage))) in
  let unavailable := if bool_decide (rc_status coverage = Cov_none)
                     then u8 "нет доступных для анализа изменений" else u8 "проверка неполная" in
  let complete := bool_decide (rc_status coverage = Cov_complete) in
  coverage_lines ←
    (if complete then Some []
     else p ← summary_problem coverage;
          Some [u8 "**Coverage:** " ++ CoverageStatus_value (rc_status coverage) ++ u8 " — " ++ p;
                body_explanation coverage]);
  let checked_lines :=
    (if complete then []
     else [u8 "**Проверено файлов с текстовыми изменениями:** "
           ++ str_of_Z (rc_reviewed_files coverage)])
    ++ [u8 "**Checked files:**"; checked_files_text] in
  let below := if below_threshold =? 0 then []
               else [u8 "**Below severity threshold (" ++ SeverityThreshold_value severity_threshold
                     ++ u8 "):** " ++ str_of_Z below_threshold] in
  Some (join [LF]
    ([u8 "**Verdict:** " ++ match run_verdict with Some v => Verdict_value v | None => unavailable end;
      u8 "**Risk summary:** " ++ severity_count_phrase (severity_counts severities)]
     ++ below ++ coverage_lines ++ checked_lines)).

Definition render_body_only_finding (item : ProcessedFinding) : pystr :=
  let f := pf_finding item in
  u8 "- **" ++ fg_title f ++ u8 "** (`" ++ fg_path f ++ u8 ":" ++ str_of_Z (fg_line f)
  ++ u8 "`): " ++ fg_body f.

(** [s.partition(sep)] *)
Definition str_partition (s sep : pystr) : pystr * pystr * pystr :=
  match str_find s sep with
  | Some i => (take i s, sep, drop (i + length sep) s)
  | None => (s, [], [])
  end.

(** What the packer works with: the text around the overview, the lines and the paths. *)
Record Packing : Type := mkPacking {
  pk_heading : pystr;
  pk_separator : pystr;
  pk_rest : pystr;
  pk_kept : list ProcessedFinding;
  pk_finding_lines : list pystr;
  pk_paths : list pystr;
  pk_names_withheld : bool;
  pk_threshold : SeverityThreshold;
  pk_below_threshold : Z;
  pk_coverage : RunCoverage
}.

Definition assemble (k : Packing) (listed_paths finding_count : nat) : option pystr :=
  let checked := format_checked_files (pk_paths k) listed_paths (pk_names_withheld k) in
  overview ← overview_block (pk_kept k) checked (pk_threshold k) (pk_below_threshold k)
               (pk_coverage k);
  let prefix := pk_heading k ++ pk_separator k ++ overview ++ [LF; LF] ++ pk_rest k in
  Some (if (finding_count =? 0)%nat then prefix
        else join [LF] ([prefix; []; ADDITIONAL_FINDINGS_HEADING]
                        ++ take finding_count (pk_finding_lines k))).

(** The best candidate so far: findings, listed paths and the body. *)
Definition best : Type := nat * nat * pystr.

Definition try_candidate (k : Packing) (char_budget : Z) (b : best) (listed_paths finding_count : nat)
  : option best :=
  let '(best_findings, best_listed, best_body) := b in
  candidate ← assemble k listed_paths finding_count;
  Some (
    if char_budget <? py_len candidate then b
    else
      let better :=
        (best_findings <? finding_count)%nat
        || ((finding_count =? best_findings)%nat && (best_listed <? listed_paths)%nat)
        || ((finding_count =? best_findings)%nat && (listed_paths =? best_listed)%nat
            && (py_len best_body <? py_len candidate)) in
      if better then (finding_count, listed_paths, candidate) else b).

(** [range(n, -1, -1)] *)
Definition countdown (n : nat) : list nat := rev (seq 0 (S n)).

Fixpoint search (k : Packing) (char_budget : Z) (b : best) (candidates : list (nat * nat))
  : option best :=
  match candidates with
  | [] => Some b
  | (l, f) :: rest => b' ← try_candidate k char_budget b l f; search k char_budget b' rest
  end.

(** The pairs of the two nested loops, in their order. *)
Definition candidates_of (k : Packing) : list (nat * nat) :=
  l ← countdown (length (pk_paths k));
  f ← countdown (length (pk_finding_lines k));
  mret (l, f).

Definition pack (k : Packing) (char_budget : Z) : option (pystr * Z) :=
  first ← assemble k 0 0;
  '(best_findings, _, best_body) ← search k char_budget (0%nat, 0%nat, first) (candidates_of k);
  Some (best_body, py_len (pk_finding_lines k) - Z.of_nat best_findings).

Definition packing (output : ReviewOutput) (kept body_only : list ProcessedFinding)
    (checked_paths : gset pystr) (severity_threshold : SeverityThreshold) (below_threshold : Z)
    (coverage : RunCoverage) : Packing :=
  let '(heading, separator, rest) :=
    str_partition (render_review_body (ro_summary output)) [LF; LF] in
  let allowed := List.filter is_supported_path (elements checked_paths) in
  let names_withheld :=
    negb (bool_decide (allowed = []))
    && (negb (cget (exclusion_counts coverage) (u8 "ignored") =? 0)
        || chas (reason_counts coverage) (u8 "classification_unavailable")) in
  mkPacking heading separator rest kept (render_body_only_finding <$> body_only)
    (if names_withheld then [] else py_sorted str_leb allowed) names_withheld
    severity_threshold below_threshold coverage.

Definition pack_review_body (output : ReviewOutput) (kept body_only : list ProcessedFinding)
    (checked_paths : gset pystr) (severity_threshold : SeverityThreshold) (below_threshold : Z)
    (char_budget : Z) (coverage : RunCoverage) : option (pystr * Z) :=
  pack (packing output kept body_only checked_paths severity_threshold below_threshold coverage)
    char_budget.

(** ** The whole process *)

(** [l[n:]] *)
Definition py_suffix {A} (n : Z) (l : list A) : list A :=
  if 0 <=? n then drop (Z.to_nat n) l else drop (length l - Z.to_nat (- n)) l.

Record ProcessInput : Type := mkProcessInput {
  pi_diff_map : DiffMap;
  pi_checked_paths : gset pystr;
  pi_rule_names : gset pystr;
  pi_repository_max_inline : option Z;
  pi_severity_threshold : SeverityThreshold;
  pi_allowed_v2_rules : option (gset pystr);
  pi_pre_dropped : list ProcessedFinding;
  pi_apply_severity_threshold : bool;
  pi_coverage : option RunCoverage;
  pi_summary_only : bool;
  pi_incomplete_paths : list pystr;
  pi_summary_reason : option pystr
}.

Definition in_bucket (b : Bucket) (i : ProcessedFinding) : bool := bool_decide (pf_bucket i = b).

Definition has_reason (reason : pystr) (i : ProcessedFinding) : bool :=
  ostr_eqb (pf_drop_reason i) (Some reason).
Definition count_reason (reason : pystr) (items : list ProcessedFinding) : Z :=
  py_len (List.filter (has_reason reason) items).

Definition unclassified_coverage (m : DiffMap) : RunCoverage :=
  mkRunCoverage Cov_partial 0 [] [bare_item None (u8 "classification_unavailable")]
    (dm_head_sha m) [] [] 0 false [] [] None [].

Definition candidates_from (output : ReviewOutput) : list ProcessedFinding :=
  imap (λ position item, mkProcessedFinding item (Z.of_nat position) Bucket_inline None)
    (ro_findings output).

(** The filters before the anchors: the candidates left, and the dropped ones in order. *)
Definition filter_stages (p : LintFilterPatterns) (i : ProcessInput)
    (candidates : list ProcessedFinding) : list ProcessedFinding * list ProcessedFinding :=
  let '(candidates, dropped) :=
    if pi_summary_only i
    then ([], pi_pre_dropped i ++ (drop_item (u8 "insufficient_context") <$> candidates))
    else (candidates, pi_pre_dropped i) in
  let '(candidates, lint_dropped) := drop_lint_patterns p candidates in
  let '(candidates, duplicate_dropped) := deduplicate candidates in
  let '(candidates, below_threshold) :=
    if pi_apply_severity_threshold i
    then drop_below_threshold candidates (pi_severity_threshold i) else (candidates, []) in
  (candidates, dropped ++ lint_dropped ++ duplicate_dropped ++ below_threshold).

Definition inline_cap (p : LintFilterPatterns) (i : ProcessInput) : Z :=
  Z.min (lp_max_inline p) (default (lp_max_inline p) (pi_repository_max_inline i)).

Definition to_body (item : ProcessedFinding) : ProcessedFinding :=
  mkProcessedFinding (pf_finding item) (pf_position item) Bucket_body_only None.

(** The inline and body-only items of the prepared ones, capped and with repaired attribution. *)
Definition route (p : LintFilterPatterns) (i : ProcessInput) (prepared : list ProcessedFinding)
  : list ProcessedFinding * list ProcessedFinding :=
  let inline_candidates := py_sorted quality_leb (List.filter (in_bucket Bucket_inline) prepared) in
  let repair item := repair_attribution item (pi_rule_names i) (pi_allowed_v2_rules i) in
  let inline := repair <$> py_prefix (inline_cap p i) inline_candidates in
  let overflow := to_body <$> py_suffix (inline_cap p i) inline_candidates in
  let body_only :=
    repair <$> (List.filter (in_bucket Bucket_body_only) prepared ++ overflow) in
  (List.filter (in_bucket Bucket_inline) inline,
   body_only ++ List.filter (in_bucket Bucket_body_only) inline).

Definition set_summary (o : ReviewOutput) (s : ReviewSummary) : ReviewOutput :=
  mkReviewOutput (ro_findings o) s.

Definition process (p : LintFilterPatterns) (output : ReviewOutput) (i : ProcessInput)
  : result process_error ProcessedReviewOutput :=
  let coverage := default (unclassified_coverage (pi_diff_map i)) (pi_coverage i) in
  let '(candidates, dropped) := filter_stages p i (candidates_from output) in
  '(prepared, unknown) ← map_err Err_anchor (prepare (lp_min_confidence p) (pi_diff_map i) candidates);
  let '(inline, body_only) := route p i prepared in
  let dropped := py_sorted position_leb (dropped ++ unknown) in
  let kept := inline ++ body_only in
  let coverage := finalize_run_coverage coverage (pi_incomplete_paths i)
                    (count_reason (u8 "unknown_path") dropped) in
  summary ← summary_from_result ((λ x, fg_severity (pf_finding x)) <$> kept)
              ((λ x, fg_category (pf_finding x)) <$> kept) coverage
              (if pi_summary_only i then pi_summary_reason i else None) (pi_summary_only i);
  match pack_review_body (set_summary output summary) kept body_only (pi_checked_paths i)
          (pi_severity_threshold i) (count_reason (u8 "severity_threshold") dropped)
          REVIEW_BODY_CHAR_BUDGET coverage with
  | None => Err Err_key
  | Some (review_body, omitted) =>
      Ok (mkProcessedReviewOutput inline body_only dropped review_body omitted false (Some summary)
            coverage)
  end.

(** ** The body at store time *)

Definition ru_findings (count : Z) : pystr :=
  ru_cardinal count (u8 "находка") (u8 "находки") (u8 "находок").

Definition format_body_only_overflow_footer (count : Z) (run_url : pystr) : pystr :=
  [LF; LF] ++ u8 "**Ещё " ++ ru_findings count ++ u8 ":** " ++ run_url.
Definition format_body_only_overflow_footer_without_url (count : Z) : pystr :=
  [LF; LF] ++ u8 "**Ещё " ++ ru_findings count ++ u8 "**".

Definition footer_for (run_url : option pystr) (count : Z) : pystr :=
  match run_url with
  | Some ((_ :: _) as url) => format_body_only_overflow_footer count url
  | _ => format_body_only_overflow_footer_without_url count
  end.

Definition with_body (r : ProcessedReviewOutput) (body : pystr) (omitted : Z) (degraded : bool)
  : ProcessedReviewOutput :=
  mkProcessedReviewOutput (po_inline r) (po_body_only r) (po_dropped r) body omitted degraded
    (po_summary r) (po_coverage r).

(** The four turns of the loop: [Some (inl r)] returns, [Some (inr s)] goes on. *)
Fixpoint fit_footer (turns : nat) (repack : Z → option (pystr * Z)) (footer : Z → pystr)
    (body : pystr) (omitted : Z) : option ((pystr * Z) + (pystr * Z)) :=
  match turns with
  | O => Some (inr (body, omitted))
  | S turns' =>
      '(body, omitted) ←
        (if REVIEW_BODY_CHAR_BUDGET <? py_len body + py_len (footer omitted)
         then repack (REVIEW_BODY_CHAR_BUDGET - py_len (footer omitted))
         else Some (body, omitted));
      if py_len body + py_len (footer omitted) <=? REVIEW_BODY_CHAR_BUDGET
      then Some (inl (body, omitted))
      else fit_footer turns' repack footer body omitted
  end.

Definition finalize_stored_review_body (output : ReviewOutput) (r : ProcessedReviewOutput)
    (checked_paths : gset pystr) (severity_threshold : SeverityThreshold) (below_threshold : Z)
    (run_url : option pystr) : option ProcessedReviewOutput :=
  let output := match po_summary r with Some s => set_summary output s | None => output end in
  if po_omitted_body_only_count r <=? 0 then Some r
  else
    let repack budget :=
      pack_review_body output (po_inline r ++ po_body_only r) (po_body_only r) checked_paths
        severity_threshold below_threshold budget (po_coverage r) in
    let footer := footer_for run_url in
    fitted ← fit_footer 4 repack footer (po_review_body r) (po_omitted_body_only_count r);
    match fitted with
    | inl (body, omitted) => Some (with_body r (body ++ footer omitted) omitted
                                     (po_review_body_budget_degraded r))
    | inr (_, omitted) =>
        '(body, omitted) ← repack (Z.max 0 (REVIEW_BODY_CHAR_BUDGET - py_len (footer omitted)));
        let body :=
          if REVIEW_BODY_CHAR_BUDGET <? py_len body + py_len (footer omitted)
          then rstrip_with is_space
                 (py_prefix (Z.max 0 (REVIEW_BODY_CHAR_BUDGET - py_len (footer omitted))) body)
          else body in
        Some (with_body r (body ++ footer omitted) omitted true)
    end.
