(* ===== verification/FindingsFacts.v ===== *)
(** * Theorems on the review body and on the buckets ([findings_post_processor.py]) *)

From Stdlib Require Import String QArith.
From stdpp Require Import gmap sorting.
From S2P Require Import Prelude PyText PyHash UnifiedDiff DiffMap DiffAnchor ReviewIgnore.
From S2P Require Import RunFailures VcsInput DiffSnapshots CoverageSchema RunCoverage Verdict.
From S2P Require Import Findings.
#[local] Open Scope Z_scope.

(** ** Packing *)

(** More findings first, then more listed paths. *)
Definition no_better (f l f' l' : nat) : Prop := (f' < f)%nat ∨ (f' = f ∧ (l' ≤ l)%nat).

Lemma assemble_some k l f l' f' : is_Some (assemble k l f) → is_Some (assemble k l' f').
Proof.
  unfold assemble, overview_block. destruct (bool_decide (rc_status (pk_coverage k) = Cov_complete)); cbn.
  - by eexists.
  - destruct (summary_problem (pk_coverage k)); cbn; [by eexists|by intros []].
Qed.

Section Search.
Context (k : Packing) (budget : Z).

Definition fits (l f : nat) : Prop := ∃ b, assemble k l f = Some b ∧ py_len b ≤ budget.

(** The search so far, over the candidates [seen]. *)
Definition best_of (seen : list (nat * nat)) (b : best) : Prop :=
  let '(bf, bl, body) := b in
  assemble k bl bf = Some body
  ∧ ((bf = 0%nat ∧ bl = 0%nat) ∨ (In (bl, bf) seen ∧ fits bl bf))
  ∧ ∀ l f, In (l, f) seen → fits l f → no_better bf bl f l.

Lemma try_candidate_best seen b l f b' :
  best_of seen b → try_candidate k budget b l f = Some b' → best_of (seen ++ [(l, f)]) b'.
Proof.
  destruct b as [[bf bl] body]. intros (Hb & Hfit & Hmax). unfold try_candidate.
  destruct (assemble k l f) as [cand|] eqn:Hc; [|done]. cbn [mbind option_bind].
  assert (Hseen : ∀ x, In x seen → In x (seen ++ [(l, f)])) by (intros; apply in_app_iff; auto).
  destruct (Z.ltb_spec budget (py_len cand)) as [Hlt|Hle].
  - intros [= <-]. split_and!; [done|naive_solver|].
    intros l' f' [Hin|[[= <- <-]|[]]]%in_app_iff Hf; [by apply Hmax|].
    destruct Hf as (c' & Hc' & Hle). rewrite Hc in Hc'. simplify_eq. lia.
  - assert (Hf : fits l f) by (by exists cand).
    destruct (_ || _ || _) eqn:Hbet; intros [= <-].
    + assert (Hord : no_better f l bf bl).
      { unfold no_better. apply orb_true_iff in Hbet as [[Hx|Hx]%orb_true_iff|Hx].
        - apply Nat.ltb_lt in Hx. lia.
        - apply andb_true_iff in Hx as [Hx1%Nat.eqb_eq Hx2%Nat.ltb_lt]. lia.
        - apply andb_true_iff in Hx as [[Hx1%Nat.eqb_eq Hx2%Nat.eqb_eq]%andb_true_iff _]. lia. }
      split_and!; [done|right; split; [apply in_app_iff; right; by left|done]|].
      intros l' f' [Hin|[[= <- <-]|[]]]%in_app_iff Hf'; [|right; lia].
      specialize (Hmax l' f' Hin Hf'). unfold no_better in *. lia.
    + split_and!; [done|naive_solver|].
      intros l' f' [Hin|[[= <- <-]|[]]]%in_app_iff Hf'; [by apply Hmax|].
      apply orb_false_iff in Hbet as [[Hx1%Nat.ltb_ge Hx2]%orb_false_iff _].
      unfold no_better. apply andb_false_iff in Hx2 as [Hx2%Nat.eqb_neq|Hx2%Nat.ltb_ge]; lia.
Qed.

Lemma search_best cands : ∀ seen b b',
  best_of seen b → search k budget b cands = Some b' → best_of (seen ++ cands) b'.
Proof.
  induction cands as [|[l f] cands IH]; intros seen b b' Hb; cbn [search].
  - intros [= <-]. by rewrite app_nil_r.
  - intros H. apply bind_Some in H as (b1 & H1 & H).
    apply (IH (seen ++ [(l, f)])) in H; [|by eapply try_candidate_best].
    by rewrite <- app_assoc in H.
Qed.

Lemma search_total cands : ∀ b, is_Some (assemble k 0 0) → is_Some (search k budget b cands).
Proof.
  induction cands as [|[l f] cands IH]; intros [[bf bl] body] Hs; cbn [search]; [done|].
  unfold try_candidate. destruct (assemble_some k 0 0 l f Hs) as [c ->]. cbn [mbind option_bind].
  by apply IH.
Qed.
End Search.

Lemma In_countdown n x : In x (countdown n) ↔ (x ≤ n)%nat.
Proof. unfold countdown. rewrite <- in_rev, in_seq. lia. Qed.

Lemma In_candidates k l f :
  In (l, f) (candidates_of k)
  ↔ (l ≤ length (pk_paths k))%nat ∧ (f ≤ length (pk_finding_lines k))%nat.
Proof.
  unfold candidates_of. rewrite <- list_elem_of_In, list_elem_of_bind. split.
  - intros (l' & H & Hl'). apply list_elem_of_bind in H as (f' & H & Hf').
    apply list_elem_of_ret in H as [= -> ->].
    by rewrite list_elem_of_In, In_countdown in Hl', Hf'.
  - intros [Hl Hf]. exists l. split; [|by apply list_elem_of_In, In_countdown].
    apply list_elem_of_bind. exists f. split; [by apply list_elem_of_ret|].
    by apply list_elem_of_In, In_countdown.
Qed.

(** The packed body is the best candidate, or the smallest one when none fits. *)
Lemma pack_spec k budget body omitted :
  pack k budget = Some (body, omitted) →
  ∃ f l, (f ≤ length (pk_finding_lines k))%nat ∧ (l ≤ length (pk_paths k))%nat
    ∧ assemble k l f = Some body ∧ omitted = py_len (pk_finding_lines k) - Z.of_nat f
    ∧ (py_len body ≤ budget ∨ (f = 0%nat ∧ l = 0%nat))
    ∧ ∀ f' l' b', (f' ≤ length (pk_finding_lines k))%nat → (l' ≤ length (pk_paths k))%nat →
        assemble k l' f' = Some b' → py_len b' ≤ budget → no_better f l f' l'.
Proof.
  unfold pack. intros H. apply bind_Some in H as (first & Hfirst & H).
  apply bind_Some in H as ([[f l] b] & Hs & [= <- <-]).
  apply (search_best k budget _ []) in Hs; [|split_and!; [done|by left|done]].
  destruct Hs as (Hb & Hfit & Hmax). exists f, l.
  assert (Hin : (l ≤ length (pk_paths k))%nat ∧ (f ≤ length (pk_finding_lines k))%nat).
  { destruct Hfit as [[-> ->]|[Hin _]]; [lia|]. by apply In_candidates. }
  destruct Hin. split_and!; try done.
  - destruct Hfit as [?|[_ (b' & Hb' & Hle)]]; [by right|]. left. by simplify_eq.
  - intros f' l' b' Hf Hl Hb' Hle. apply Hmax; [by apply In_candidates|by exists b'].
Qed.

(** The body is packed as well as the budget allows.  Its findings are the first ones, and the
    omitted count is exactly the rest; it stays within the budget whenever any choice does; and no
    choice within the budget shows more findings, or as many findings and more file names. *)
Theorem pack_review_body_optimal output kept body_only checked threshold below budget coverage
    body omitted :
  pack_review_body output kept body_only checked threshold below budget coverage
  = Some (body, omitted) →
  let k := packing output kept body_only checked threshold below coverage in
  ∃ shown listed,
    assemble k listed shown = Some body
    ∧ (shown ≤ length body_only)%nat ∧ omitted = py_len body_only - Z.of_nat shown
    ∧ (py_len body ≤ budget
       ∨ ∀ f l b, (f ≤ length body_only)%nat → (l ≤ length (pk_paths k))%nat →
           assemble k l f = Some b → budget < py_len b)
    ∧ ∀ f l b, (f ≤ length body_only)%nat → (l ≤ length (pk_paths k))%nat →
        assemble k l f = Some b → py_len b ≤ budget →
        (f < shown)%nat ∨ (f = shown ∧ (l ≤ listed)%nat).
Proof.
  intros H. cbn zeta. unfold pack_review_body in H.
  set (k := packing output kept body_only checked threshold below coverage) in *.
  assert (Hlen : length (pk_finding_lines k) = length body_only).
  { unfold k, packing. destruct (str_partition _ _) as [[? ?] ?]. cbn. apply length_fmap. }
  apply pack_spec in H as (f & l & Hf & Hl & Hb & Ho & Hfit & Hmax).
  unfold py_len in Ho. rewrite Hlen in *. exists f, l. split_and!; try done.
  destruct Hfit as [Hle|[-> ->]]; [by left|].
  destruct (Z.le_gt_cases (py_len body) budget) as [Hle|Hgt]; [by left|right].
  intros f' l' b' Hf' Hl' Hb'. destruct (Z.le_gt_cases (py_len b') budget) as [Hle'|]; [|lia].
  destruct (Hmax f' l' b' Hf' Hl' Hb' Hle') as [?|[-> ?]]; [lia|].
  assert (l' = 0%nat) as -> by lia. simplify_eq. lia.
Qed.

(** ** The stored body *)

Lemma length_lstrip p s : (length (lstrip_with p s) ≤ length s)%nat.
Proof. induction s as [|c s IH]; cbn; [done|]. destruct (p c); cbn; lia. Qed.

Lemma length_rstrip p s : (length (rstrip_with p s) ≤ length s)%nat.
Proof.
  unfold rstrip_with. rewrite length_rev. etransitivity; [apply length_lstrip|]. by rewrite length_rev.
Qed.

Lemma py_prefix_length {A} n (l : list A) : 0 ≤ n → py_len (py_prefix n l) ≤ n.
Proof.
  intros H. unfold py_prefix. rewrite (proj2 (Z.leb_le 0 n)) by done.
  unfold py_len. rewrite length_take. lia.
Qed.

(** A fitted body, with the count its footer names, comes from the packer or is the first one. *)
Lemma fit_footer_spec turns repack footer : ∀ body omitted out,
  fit_footer turns repack footer body omitted = Some out →
  match out with
  | inl (body', omitted') =>
      py_len body' + py_len (footer omitted') ≤ REVIEW_BODY_CHAR_BUDGET
      ∧ ((body', omitted') = (body, omitted) ∨ ∃ budget, repack budget = Some (body', omitted'))
  | inr _ => True
  end.
Proof.
  induction turns as [|turns IH]; intros body omitted out; cbn [fit_footer].
  - intros [= <-]. done.
  - intros H. apply bind_Some in H as ([b o] & Hb & H).
    assert (Hfrom : (b, o) = (body, omitted) ∨ ∃ budget, repack budget = Some (b, o)).
    { destruct (_ <? _) in Hb; [right; eauto|left; by injection Hb as <- <-]. }
    destruct (Z.leb_spec (py_len b + py_len (footer o)) REVIEW_BODY_CHAR_BUDGET) as [Hle|Hgt].
    + injection H as <-. done.
    + apply IH in H. destruct out as [[b' o']|]; [|done]. destruct H as [Hle [[= -> ->]|Hex]]; auto.
Qed.

(** A body with omitted findings is stored with a footer that names exactly how many it
    omits, and with its footer stays within 4000 characters, unless the footer alone is longer;
    the buckets and the coverage are kept. *)
Theorem stored_body_bounded output r checked threshold below run_url r' :
  0 < po_omitted_body_only_count r →
  finalize_stored_review_body output r checked threshold below run_url = Some r' →
  let footer := footer_for run_url (po_omitted_body_only_count r') in
  (∃ body, po_review_body r' = body ++ footer)
  ∧ py_len (po_review_body r') ≤ Z.max REVIEW_BODY_CHAR_BUDGET (py_len footer)
  ∧ po_inline r' = po_inline r ∧ po_body_only r' = po_body_only r
  ∧ po_dropped r' = po_dropped r ∧ po_coverage r' = po_coverage r.
Proof.
  intros Hpos H. cbn zeta. unfold finalize_stored_review_body in H.
  rewrite (proj2 (Z.leb_gt _ 0) Hpos) in H.
  apply bind_Some in H as ([[body omitted]|[body omitted]] & Hf & H).
  - apply fit_footer_spec in Hf as [Hle _]. injection H as <-. cbn.
    split_and!; [by exists body| |done..]. rewrite py_len_app. lia.
  - apply bind_Some in H as ([b o] & _ & [= <-]). cbn. split_and!; [by eexists| |done..].
    rewrite py_len_app. destruct (Z.ltb_spec REVIEW_BODY_CHAR_BUDGET (py_len b + py_len (footer_for run_url o)));
      [|lia].
    set (n := Z.max 0 (REVIEW_BODY_CHAR_BUDGET - py_len (footer_for run_url o))).
    pose proof (length_rstrip is_space (py_prefix n b)).
    pose proof (py_prefix_length n b). unfold py_len in *. lia.
Qed.

(** ** The stages keep every finding once *)

Abbreviation positions l := (pf_position <$> l) (only parsing).

(** The place of an item in the answer and its finding: what the filters before the anchors keep. *)
Definition source (x : ProcessedFinding) : Z * ReviewFinding := (pf_position x, pf_finding x).
Abbreviation sources l := (source <$> l) (only parsing).

Lemma filter_split_perm {A} (p : A → bool) l :
  Permutation (List.filter (λ x, negb (p x)) l ++ List.filter p l) l.
Proof.
  induction l as [|x l IH]; cbn; [done|]. destruct (p x); cbn.
  - rewrite <- Permutation_middle. by constructor.
  - by constructor.
Qed.

Lemma drop_when_sources test reason l kept dropped :
  drop_when test reason l = (kept, dropped) → Permutation (sources (kept ++ dropped)) (sources l).
Proof.
  intros [= <- <-]. rewrite fmap_app, <- list_fmap_compose.
  change (source ∘ drop_item reason) with source.
  rewrite <- fmap_app. apply fmap_Permutation, filter_split_perm.
Qed.

Lemma sources_positions l l' :
  Permutation (sources l) (sources l') → Permutation (positions l) (positions l').
Proof.
  intros H. change (pf_position <$> l) with ((fst ∘ source) <$> l).
  change (pf_position <$> l') with ((fst ∘ source) <$> l'). rewrite !list_fmap_compose.
  by apply fmap_Permutation.
Qed.

Lemma drop_when_positions test reason l kept dropped :
  drop_when test reason l = (kept, dropped) →
  Permutation (positions (kept ++ dropped)) (positions l).
Proof. intros H. by eapply sources_positions, drop_when_sources. Qed.

Lemma dedupe_key_eqb_eq a b : dedupe_key_eqb a b = true ↔ a = b.
Proof.
  destruct a as [[p l] t], b as [[p' l'] t']. unfold dedupe_key_eqb. cbn.
  rewrite !andb_true_iff, !str_eqb_eq, Z.eqb_eq. naive_solver.
Qed.

Lemma winner_set_none k v ws : winner_get k ws = None → winner_set k v ws = ws ++ [(k, v)].
Proof.
  induction ws as [|[k' v'] ws IH]; cbn; [done|]. destruct (dedupe_key_eqb k k'); [done|].
  intros H. by rewrite IH.
Qed.

Lemma winner_set_some k v w ws :
  winner_get k ws = Some w →
  ∃ l1 l2 k', ws = l1 ++ (k', w) :: l2 ∧ k' = k ∧ winner_set k v ws = l1 ++ (k', v) :: l2.
Proof.
  induction ws as [|[k' v'] ws IH]; cbn; [done|]. destruct (dedupe_key_eqb k k') eqn:E.
  - intros [= ->]. apply dedupe_key_eqb_eq in E as ->. by exists [], ws, k'.
  - intros (l1 & l2 & k'' & -> & -> & ->)%IH. by exists ((k', v') :: l1), l2, k.
Qed.

(** One turn of the loop moves one item to the winners, or one to the dropped. *)
Lemma dedupe_step_sources ws d item ws' d' :
  dedupe_step (ws, d) item = (ws', d') →
  Permutation (sources ((snd <$> ws') ++ d')) (sources (item :: (snd <$> ws) ++ d)).
Proof.
  unfold dedupe_step. destruct (winner_get (key_of item) ws) as [inc|] eqn:Hg.
  - destruct (quality_ltb item inc); intros [= <- <-].
    + destruct (winner_set_some _ item inc ws Hg) as (l1 & l2 & k' & -> & _ & ->).
      repeat rewrite ?fmap_app, ?fmap_cons, ?fmap_nil. cbn [snd]. change (source (drop_item (u8 "duplicate") inc)) with (source inc).
      solve_Permutation.
    + repeat rewrite ?fmap_app, ?fmap_cons, ?fmap_nil. change (source (drop_item (u8 "duplicate") item)) with (source item).
      solve_Permutation.
  - intros [= <- <-]. rewrite winner_set_none by done.
    repeat rewrite ?fmap_app, ?fmap_cons, ?fmap_nil. cbn [snd]. solve_Permutation.
Qed.

Lemma dedupe_fold_sources l : ∀ ws d ws' d',
  fold_left dedupe_step l (ws, d) = (ws', d') →
  Permutation (sources ((snd <$> ws') ++ d')) (sources (l ++ (snd <$> ws) ++ d)).
Proof.
  induction l as [|i l IH]; intros ws d ws' d'; cbn [fold_left]; [by intros [= <- <-]|].
  destruct (dedupe_step (ws, d) i) as [ws1 d1] eqn:E. intros H. apply IH in H. rewrite H.
  apply dedupe_step_sources in E. rewrite fmap_app, E, <- fmap_app, <- app_comm_cons.
  apply fmap_Permutation. by rewrite <- Permutation_middle.
Qed.

Lemma deduplicate_sources l kept dropped :
  deduplicate l = (kept, dropped) → Permutation (sources (kept ++ dropped)) (sources l).
Proof.
  unfold deduplicate. destruct (fold_left dedupe_step l ([], [])) as [ws d] eqn:E.
  intros [= <- <-]. apply dedupe_fold_sources in E. cbn in E. rewrite app_nil_r in E.
  rewrite <- E. apply fmap_Permutation, Permutation_app_tail, py_sorted_perm.
Qed.

Lemma deduplicate_positions l kept dropped :
  deduplicate l = (kept, dropped) → Permutation (positions (kept ++ dropped)) (positions l).
Proof. intros H. by eapply sources_positions, deduplicate_sources. Qed.

(** The filters drop what was dropped before as it is, and the others keep their sources. *)
Lemma filter_stages_sources p i l kept dropped :
  filter_stages p i l = (kept, dropped) →
  ∃ more, dropped = pi_pre_dropped i ++ more ∧ Permutation (sources (kept ++ more)) (sources l).
Proof.
  unfold filter_stages. destruct (if pi_summary_only i then _ else _) as [c0 d0] eqn:E0.
  assert (∃ more, d0 = pi_pre_dropped i ++ more ∧ Permutation (sources (c0 ++ more)) (sources l))
    as (m0 & -> & H0).
  { destruct (pi_summary_only i); injection E0 as <- <-.
    - eexists. split; [done|]. cbn. by rewrite <- list_fmap_compose.
    - exists []. by rewrite !app_nil_r. }
  destruct (drop_lint_patterns p c0) as [c1 d1] eqn:E1. apply drop_when_sources in E1.
  destruct (deduplicate c1) as [c2 d2] eqn:E2. apply deduplicate_sources in E2.
  destruct (if pi_apply_severity_threshold i then _ else _) as [c3 d3] eqn:E3.
  assert (H3 : Permutation (sources (c3 ++ d3)) (sources c2)).
  { destruct (pi_apply_severity_threshold i); [by eapply drop_when_sources|].
    injection E3 as <- <-. by rewrite app_nil_r. }
  intros [= <- <-]. exists (m0 ++ d1 ++ d2 ++ d3). split; [by rewrite <- !app_assoc|].
  rewrite <- H0, !fmap_app in *. rewrite <- E1, <- E2, <- H3. solve_Permutation.
Qed.

Lemma filter_stages_positions p i l kept dropped :
  filter_stages p i l = (kept, dropped) →
  Permutation (positions (kept ++ dropped)) (positions (l ++ pi_pre_dropped i)).
Proof.
  intros (more & -> & H%sources_positions)%filter_stages_sources.
  rewrite !fmap_app in *. rewrite <- H. solve_Permutation.
Qed.

(** What no stage changes of a finding. *)
Record same_claim (f0 f : ReviewFinding) : Prop := {
  sc_path : fg_path f = fg_path f0;
  sc_line : fg_line f = fg_line f0;
  sc_severity : fg_severity f = fg_severity f0;
  sc_category : fg_category f = fg_category f0;
  sc_title : fg_title f = fg_title f0;
  sc_confidence : fg_confidence f = fg_confidence f0
}.

Lemma same_claim_refl f : same_claim f f.
Proof. by constructor. Qed.

Lemma same_claim_trans f1 f2 f3 : same_claim f1 f2 → same_claim f2 f3 → same_claim f1 f3.
Proof. intros [] []. constructor; congruence. Qed.

Definition anchored (m : DiffMap) (f : ReviewFinding) : Prop :=
  ∃ a, resolve_anchor m (fg_path f) (fg_start_line f) (fg_line f) = Ok (Anchored a).

Lemma classify_anchor_spec f m f' b :
  classify_anchor f m = Ok (f', b) →
  same_claim f f' ∧ (b = Bucket_inline → anchored m f').
Proof.
  unfold classify_anchor. intros H. apply bind_ok in H as (anchor & Ha & H).
  assert (Hplain : (f', b) = (f, anchor_bucket anchor) →
                   same_claim f f' ∧ (b = Bucket_inline → anchored m f')).
  { intros [= -> ->]. split; [apply same_claim_refl|]. intros Hb.
    destruct anchor as [a|[]]; try done. by exists a. }
  destruct anchor as [a|r]; [by apply Hplain; injection H as <- <-|].
  destruct (fg_start_line f) as [s|] eqn:Hs; [|by apply Hplain; injection H as <- <-].
  apply bind_ok in H as ([a|r'] & Hs' & H); [|by apply Hplain; injection H as <- <-].
  injection H as <- <-. split; [by constructor|]. intros _. by exists a.
Qed.

Lemma prepare_spec q m l : ∀ prepared dropped,
  prepare q m l = Ok (prepared, dropped) →
  Permutation (positions (prepared ++ dropped)) (positions l)
  ∧ (∀ x, In x dropped → pf_bucket x = Bucket_dropped ∧ pf_drop_reason x = Some unknown_reason)
  ∧ ∀ x, In x prepared →
      pf_bucket x ≠ Bucket_dropped
      ∧ (∃ item, In item l ∧ pf_position x = pf_position item
                 ∧ same_claim (pf_finding item) (pf_finding x))
      ∧ (pf_bucket x = Bucket_inline →
         anchored m (pf_finding x) ∧ Qle q (fg_confidence (pf_finding x))).
Proof.
  induction l as [|item l IH]; intros prepared dropped; cbn [prepare].
  { intros [= <- <-]. by split_and!. }
  intros H. apply bind_ok in H as ([f b] & Hc & H). apply bind_ok in H as ([ps ds] & Hp & H).
  apply classify_anchor_spec in Hc as [Hsame Hanch].
  destruct (IH ps ds Hp) as (Hperm & Hd & Hx). clear IH.
  assert (Hx' : ∀ x, In x ps → ∃ it, In it (item :: l) ∧ pf_position x = pf_position it
                 ∧ same_claim (pf_finding it) (pf_finding x)).
  { intros x Hin. destruct (Hx x Hin) as (_ & (it & ? & ?) & _). exists it. split; [by right|done]. }
  case_bool_decide as Hb; injection H as <- <-.
  - split_and!.
    + rewrite !fmap_app, !fmap_cons in *. cbn [pf_position]. rewrite <- Permutation_middle.
      by constructor.
    + intros x [<-|Hin]; [done|by apply Hd].
    + intros x Hin. destruct (Hx x Hin) as (? & _ & ?). split_and!; auto.
  - split_and!; [cbn; by constructor|done|]. intros x [<-|Hin].
    2:{ destruct (Hx x Hin) as (? & _ & ?). split_and!; auto. }
    cbn [pf_bucket pf_position pf_finding]. split_and!.
    + by destruct (Qltb _ _).
    + exists item. split; [by left|done].
    + destruct (Qltb (fg_confidence f) q) eqn:E; [done|]. intros ->. split; [by apply Hanch|].
      apply negb_false_iff in E. by apply Qle_bool_iff.
Qed.

(** ** Routing *)

(** Why a kept attribution stands: allowed for a v2 answer, or quoted and known. *)
Definition attribution_ok (i : ProcessInput) (f : ReviewFinding) : Prop :=
  ∀ r, fg_rule_name f = Some r →
    allowed_v2_rule r (pi_allowed_v2_rules i) = true
    ∨ (r ∈ pi_rule_names i ∧ ∃ rest, match_attribution (fg_body f) = Some (r, rest)).

Lemma repair_spec x i y :
  repair_attribution x (pi_rule_names i) (pi_allowed_v2_rules i) = y →
  pf_position y = pf_position x
  ∧ same_claim (pf_finding x) (pf_finding y)
  ∧ fg_start_line (pf_finding y) = fg_start_line (pf_finding x)
  ∧ attribution_ok i (pf_finding y)
  ∧ (pf_bucket y = pf_bucket x ∨ pf_bucket y = Bucket_body_only).
Proof.
  unfold repair_attribution, attribution_ok. intros <-.
  destruct (match fg_rule_name (pf_finding x) with Some r => _ | None => _ end) eqn:Hv2.
  { split_and!; [done|apply same_claim_refl|done| |by left]. intros r Hr. left. by rewrite Hr in Hv2. }
  destruct (match match_attribution _ with Some _ => _ | None => _ end) eqn:Hv.
  { split_and!; [done|apply same_claim_refl|done| |by left]. intros r Hr. right.
    destruct (match_attribution (fg_body (pf_finding x))) as [[name rest]|] eqn:Hm; [|done].
    rewrite Hr in Hv. apply andb_true_iff in Hv as [->%str_eqb_eq Hin%bool_decide_eq_true]. eauto. }
  destruct (match_attribution (fg_body (pf_finding x))) as [[name rest]|]; cbn;
    (split_and!; [done|by constructor|done|done|]); auto.
Qed.

Lemma prefix_suffix {A} n (l : list A) : py_prefix n l ++ py_suffix n l = l.
Proof. unfold py_prefix, py_suffix. destruct (0 <=? n); apply take_drop. Qed.

(** Items that are not dropped are the inline ones and the body-only ones. *)
Lemma two_buckets_perm (l : list ProcessedFinding) :
  (∀ x, In x l → pf_bucket x ≠ Bucket_dropped) →
  Permutation (List.filter (in_bucket Bucket_inline) l ++ List.filter (in_bucket Bucket_body_only) l) l.
Proof.
  induction l as [|x l IH]; intros H; [done|]. cbn [List.filter].
  assert (Hl : ∀ y, In y l → pf_bucket y ≠ Bucket_dropped) by (intros; apply H; by right).
  specialize (IH Hl). pose proof (H x (or_introl eq_refl)).
  assert (Hin : ∀ b, in_bucket b x = bool_decide (pf_bucket x = b)) by done.
  rewrite !Hin. destruct (pf_bucket x); [| |done].
  - rewrite bool_decide_true, bool_decide_false by done. by constructor.
  - rewrite bool_decide_false, bool_decide_true by done. rewrite <- Permutation_middle.
    by constructor.
Qed.

Section Route.
Context (p : LintFilterPatterns) (i : ProcessInput) (prepared inline body : list ProcessedFinding).
Context (Hroute : route p i prepared = (inline, body)).
Context (Hprep : ∀ x, In x prepared → pf_bucket x ≠ Bucket_dropped).
#[local] Set Default Proof Using "Type*".

Let ranked : list ProcessedFinding :=
  py_sorted quality_leb (List.filter (in_bucket Bucket_inline) prepared).
Let repair (x : ProcessedFinding) : ProcessedFinding :=
  repair_attribution x (pi_rule_names i) (pi_allowed_v2_rules i).

Lemma ranked_inline x : In x ranked → In x prepared ∧ pf_bucket x = Bucket_inline.
Proof using Type.
  unfold ranked. rewrite In_py_sorted, List.filter_In. unfold in_bucket.
  by rewrite bool_decide_eq_true.
Qed.

Lemma prefix_ranked x : In x (py_prefix (inline_cap p i) ranked) → In x ranked.
Proof using Type. intros H. rewrite <- (prefix_suffix (inline_cap p i) ranked). apply in_app_iff. by left. Qed.

Lemma suffix_ranked x : In x (py_suffix (inline_cap p i) ranked) → In x ranked.
Proof using Type. intros H. rewrite <- (prefix_suffix (inline_cap p i) ranked). apply in_app_iff. by right. Qed.

Lemma In_fmap {A B} (f : A → B) (l : list A) y : In y (f <$> l) ↔ ∃ x, y = f x ∧ In x l.
Proof using Type. rewrite <- list_elem_of_In, list_elem_of_fmap. by setoid_rewrite list_elem_of_In. Qed.

(** Routing permutes whatever repair and overflow do not change. *)
Lemma route_perm {B} (g : ProcessedFinding → B) :
  (∀ x, g (repair x) = g x) → (∀ x, g (to_body x) = g x) →
  Permutation (g <$> inline ++ body) (g <$> prepared).
Proof.
  intros Hr Hb. unfold route in Hroute. injection Hroute as <- <-. fold ranked.
  assert (Hgr : ∀ l : list ProcessedFinding, g <$> (repair <$> l) = g <$> l).
  { intros l. rewrite <- list_fmap_compose. apply list_fmap_ext. intros _ x _. apply Hr. }
  assert (Hgb : ∀ l : list ProcessedFinding, g <$> (to_body <$> l) = g <$> l).
  { intros l. rewrite <- list_fmap_compose. apply list_fmap_ext. intros _ x _. apply Hb. }
  change (λ item, repair_attribution item (pi_rule_names i) (pi_allowed_v2_rules i)) with repair.
  set (inl := repair <$> py_prefix (inline_cap p i) ranked).
  assert (Hinl : ∀ x, In x inl → pf_bucket x ≠ Bucket_dropped).
  { intros x (y & -> & Hy)%In_fmap. apply prefix_ranked, ranked_inline in Hy as [_ Hy].
    destruct (repair_spec y i _ eq_refl) as (_ & _ & _ & _ & [E|E]); unfold repair;
      by rewrite E, ?Hy. }
  transitivity (g <$> inl ++ (repair <$> List.filter (in_bucket Bucket_body_only) prepared
                 ++ (to_body <$> py_suffix (inline_cap p i) ranked))).
  { rewrite !fmap_app, <- (fmap_Permutation g _ _ (two_buckets_perm inl Hinl)), fmap_app.
    solve_Permutation. }
  unfold inl. rewrite fmap_app, !Hgr, fmap_app, Hgb.
  transitivity (g <$> (py_prefix (inline_cap p i) ranked ++ py_suffix (inline_cap p i) ranked)
                  ++ List.filter (in_bucket Bucket_body_only) prepared).
  { rewrite !fmap_app. solve_Permutation. }
  rewrite prefix_suffix. apply fmap_Permutation. unfold ranked. rewrite py_sorted_perm.
  by apply two_buckets_perm.
Qed.

Lemma route_inline x :
  In x inline →
  pf_bucket x = Bucket_inline
  ∧ ∃ y, In y prepared ∧ pf_bucket y = Bucket_inline ∧ repair y = x.
Proof.
  unfold route in Hroute. injection Hroute as <- _. fold ranked.
  intros [(y & -> & Hy)%In_fmap Hb]%List.filter_In. unfold in_bucket in Hb.
  apply bool_decide_eq_true in Hb. split; [done|]. apply prefix_ranked, ranked_inline in Hy as [? ?].
  by exists y.
Qed.

Lemma route_body x :
  In x body →
  pf_bucket x = Bucket_body_only
  ∧ ∃ y y', In y prepared ∧ pf_position y' = pf_position y ∧ pf_finding y' = pf_finding y
            ∧ repair y' = x.
Proof.
  unfold route in Hroute. injection Hroute as _ <-. fold ranked.
  intros [(y & -> & Hy)%In_fmap|[(y & -> & Hy)%In_fmap Hb]%List.filter_In]%in_app_iff.
  - assert (Hy' : pf_bucket y = Bucket_body_only ∧ ∃ z, In z prepared
                  ∧ pf_position y = pf_position z ∧ pf_finding y = pf_finding z).
    { apply in_app_iff in Hy as [[Hy Hb]%List.filter_In|(z & -> & Hz)%In_fmap].
      - unfold in_bucket in Hb. apply bool_decide_eq_true in Hb. split; [done|]. by exists y.
      - apply suffix_ranked, ranked_inline in Hz as [Hz _]. split; [done|]. by exists z. }
    destruct Hy' as (Hb & z & Hz & Hp & Hf). split; [|by exists z, y].
    destruct (repair_spec y i _ eq_refl) as (_ & _ & _ & _ & [Hb'|Hb']); by rewrite Hb', ?Hb.
  - unfold in_bucket in Hb. apply bool_decide_eq_true in Hb. split; [done|].
    apply prefix_ranked, ranked_inline in Hy as [Hy _]. by exists y, y.
Qed.

Lemma route_cap : 0 ≤ inline_cap p i → py_len inline ≤ inline_cap p i.
Proof.
  intros Hcap. unfold route in Hroute. injection Hroute as <- _. fold ranked.
  etransitivity; [|by apply (py_prefix_length (inline_cap p i) ranked)].
  unfold py_len. apply inj_le. etransitivity; [apply List.filter_length_le|]. by rewrite length_fmap.
Qed.
End Route.

(** ** Duplicates *)

Definition winners_ok (l : list ProcessedFinding) (ws : list (dedupe_key * ProcessedFinding)) : Prop :=
  NoDup (fst <$> ws) ∧ ∀ k v, In (k, v) ws → k = key_of v ∧ In v l.

Lemma winner_get_none k ws : winner_get k ws = None → k ∉ (fst <$> ws).
Proof.
  induction ws as [|[k' v] ws IH]; cbn; [intros _; apply not_elem_of_nil|].
  destruct (dedupe_key_eqb k k') eqn:E; [done|]. intros H. apply not_elem_of_cons. split; [|by apply IH].
  intros ->. by rewrite (proj2 (dedupe_key_eqb_eq k' k') eq_refl) in E.
Qed.

Lemma winners_ok_mono l l' ws : (∀ x, In x l → In x l') → winners_ok l ws → winners_ok l' ws.
Proof. intros Hl [Hn H]. split; [done|]. intros k v Hin. destruct (H k v Hin). auto. Qed.

Lemma dedupe_step_ok l ws d item ws' d' :
  winners_ok l ws → dedupe_step (ws, d) item = (ws', d') → winners_ok (l ++ [item]) ws'.
Proof.
  intros Hok. assert (Hmono := winners_ok_mono l (l ++ [item]) ws).
  assert (Hsub : ∀ x, In x l → In x (l ++ [item])) by (intros; apply in_app_iff; by left).
  specialize (Hmono Hsub Hok). destruct Hmono as [Hnd Hall].
  assert (Hitem : In item (l ++ [item])) by (apply in_app_iff; right; by left).
  unfold dedupe_step. destruct (winner_get (key_of item) ws) as [inc|] eqn:Hg.
  - destruct (quality_ltb item inc); intros [= <- <-]; [|done].
    destruct (winner_set_some _ item inc ws Hg) as (l1 & l2 & k' & -> & -> & ->). split.
    + rewrite fmap_app, fmap_cons in *. done.
    + intros k v [Hin|[[= <- <-]|Hin]]%in_app_iff; [|done|].
      * apply Hall, in_app_iff. by left.
      * apply Hall, in_app_iff. right. by right.
  - intros [= <- <-]. rewrite winner_set_none by done. split.
    + rewrite fmap_app. apply NoDup_app. split_and!; [done| |apply NoDup_singleton].
      intros k Hk Hx. apply list_elem_of_singleton in Hx as ->. by apply winner_get_none in Hg.
    + intros k v [Hin|[[= <- <-]|[]]]%in_app_iff; [by apply Hall|done].
Qed.

Lemma dedupe_fold_ok l : ∀ seen ws d ws' d',
  winners_ok seen ws → fold_left dedupe_step l (ws, d) = (ws', d') → winners_ok (seen ++ l) ws'.
Proof.
  induction l as [|i l IH]; intros seen ws d ws' d' Hok; cbn [fold_left].
  - intros [= <- <-]. by rewrite app_nil_r.
  - destruct (dedupe_step (ws, d) i) as [ws1 d1] eqn:E. intros H.
    apply (IH (seen ++ [i])) in H; [|by eapply dedupe_step_ok]. by rewrite <- app_assoc in H.
Qed.

(** Of the findings that claim the same, one is left. *)
Lemma deduplicate_unique l kept dropped :
  deduplicate l = (kept, dropped) → NoDup (key_of <$> kept) ∧ ∀ x, In x kept → In x l.
Proof.
  unfold deduplicate. destruct (fold_left dedupe_step l ([], [])) as [ws d] eqn:E.
  intros [= <- <-]. apply (dedupe_fold_ok l []) in E as [Hn Hall].
  2:{ split; [apply NoDup_nil_2|done]. }
  cbn in Hall. split.
  - rewrite (fmap_Permutation _ _ _ (py_sorted_perm _ _)), <- list_fmap_compose.
    rewrite (list_fmap_ext (key_of ∘ snd) fst); [done|].
    intros n [k v] Hin%list_elem_of_lookup_2%list_elem_of_In. by destruct (Hall k v Hin) as [-> _].
  - intros x Hx. apply In_py_sorted, In_fmap in Hx as ([k v] & -> & Hin).
    by destruct (Hall k v Hin).
Qed.

(** ** The filters *)

Lemma NoDup_filter_fmap {A B} (g : A → B) (t : A → bool) l :
  NoDup (g <$> l) → NoDup (g <$> List.filter t l).
Proof.
  induction l as [|x l IH]; cbn; [done|]. intros [Hx Hn]%NoDup_cons.
  destruct (t x); cbn; [|by apply IH]. apply NoDup_cons. split; [|by apply IH].
  rewrite list_elem_of_fmap. intros (y & Hy & Hin). apply Hx, list_elem_of_fmap. exists y.
  split; [done|]. apply list_elem_of_In in Hin. apply List.filter_In in Hin as [Hin _].
  by apply list_elem_of_In.
Qed.

Lemma filter_stages_kept p i l kept dropped :
  filter_stages p i l = (kept, dropped) →
  NoDup (key_of <$> kept)
  ∧ ∀ x, In x kept → In x l ∧ pi_summary_only i = false ∧ drops_as_lint p x = false
       ∧ (pi_apply_severity_threshold i = true →
          fg_severity (pf_finding x) ∈ PUBLISHED_SEVERITIES (pi_severity_threshold i)).
Proof.
  unfold filter_stages.
  destruct (if pi_summary_only i then _ else _) as [c0 d0] eqn:E0.
  destruct (drop_lint_patterns p c0) as [c1 d1] eqn:E1.
  destruct (deduplicate c1) as [c2 d2] eqn:E2. apply deduplicate_unique in E2 as [Hn2 H2].
  destruct (if pi_apply_severity_threshold i then _ else _) as [c3 d3] eqn:E3.
  intros [= <- <-].
  assert (Hc1 : ∀ x, In x c1 → In x l ∧ pi_summary_only i = false ∧ drops_as_lint p x = false).
  { intros x Hx. injection E1 as <- <-. apply List.filter_In in Hx as [Hx Hl].
    apply negb_true_iff in Hl. destruct (pi_summary_only i); injection E0 as <- <-; done. }
  destruct (pi_apply_severity_threshold i); injection E3 as <- <-.
  - split; [by apply NoDup_filter_fmap|]. intros x [Hx Hs]%List.filter_In.
    destruct (Hc1 x (H2 x Hx)) as (? & ? & ?). split_and!; try done. intros _.
    by apply negb_true_iff, negb_false_iff, bool_decide_eq_true in Hs.
  - split; [done|]. intros x Hx. destruct (Hc1 x (H2 x Hx)) as (? & ? & ?). by split_and!.
Qed.

Definition dropped_ok (x : ProcessedFinding) : Prop :=
  pf_bucket x = Bucket_dropped ∧ is_Some (pf_drop_reason x).

Lemma drop_item_ok reason x : dropped_ok (drop_item reason x).
Proof. split; [done|by eexists]. Qed.

Lemma dedupe_fold_dropped l : ∀ acc,
  (∀ y, In y (snd acc) → dropped_ok y) →
  ∀ y, In y (snd (fold_left dedupe_step l acc)) → dropped_ok y.
Proof.
  induction l as [|z l IH]; intros acc Hacc; [done|]. cbn [fold_left]. apply IH.
  destruct acc as [ws ds]. unfold dedupe_step. destruct (winner_get (key_of z) ws); [|done].
  destruct (quality_ltb z _); intros y [Hy|[<-|[]]]%in_app_iff;
    first [by apply Hacc|apply drop_item_ok].
Qed.

Lemma deduplicate_dropped l kept dropped x :
  deduplicate l = (kept, dropped) → In x dropped → dropped_ok x.
Proof.
  unfold deduplicate. pose proof (dedupe_fold_dropped l ([], [])) as H.
  destruct (fold_left dedupe_step l ([], [])) as [ws ds]. intros [= <- <-]. by apply H.
Qed.

(** A dropped finding was dropped before, or has its reason. *)
Lemma filter_stages_dropped p i l kept dropped x :
  filter_stages p i l = (kept, dropped) → In x dropped →
  In x (pi_pre_dropped i) ∨ dropped_ok x.
Proof.
  unfold filter_stages.
  assert (Hd : ∀ reason (t : list ProcessedFinding), In x (drop_item reason <$> t) →
     dropped_ok x) by (intros reason t (y & -> & _)%In_fmap; apply drop_item_ok).
  destruct (if pi_summary_only i then _ else _) as [c0 d0] eqn:E0.
  destruct (drop_lint_patterns p c0) as [c1 d1] eqn:E1.
  destruct (deduplicate c1) as [c2 d2] eqn:E2.
  destruct (if pi_apply_severity_threshold i then _ else _) as [c3 d3] eqn:E3.
  intros [= <- <-] Hin. apply in_app_iff in Hin as [Hin|[Hin|[Hin|Hin]%in_app_iff]%in_app_iff].
  - destruct (pi_summary_only i); injection E0 as <- <-; [|by left].
    apply in_app_iff in Hin as [Hin|Hin]; [by left|right; by eapply Hd].
  - right. injection E1 as <- <-. by eapply Hd.
  - right. by eapply deduplicate_dropped.
  - right. destruct (pi_apply_severity_threshold i); injection E3 as <- <-; [by eapply Hd|done].
Qed.

Lemma same_claim_key x y : same_claim (pf_finding x) (pf_finding y) → key_of y = key_of x.
Proof. intros []. unfold key_of. congruence. Qed.

Lemma prepare_keys q m l : ∀ prepared dropped,
  prepare q m l = Ok (prepared, dropped) → sublist (key_of <$> prepared) (key_of <$> l).
Proof.
  induction l as [|item l IH]; intros prepared dropped; cbn [prepare]; [by intros [= <- <-]|].
  intros H. apply bind_ok in H as ([f b] & Hc & H). apply bind_ok in H as ([ps ds] & Hp & H).
  apply classify_anchor_spec in Hc as [Hsame _]. apply IH in Hp. rewrite fmap_cons.
  case_bool_decide; injection H as <- <-; [by constructor|]. rewrite fmap_cons.
  match goal with |- sublist (key_of ?x :: _) _ =>
    replace (key_of x) with (key_of item) by (symmetry; by apply same_claim_key) end.
  by constructor.
Qed.

(** The parts of a processed answer. *)
Lemma process_parts p output i r :
  process p output i = Ok r →
  ∃ candidates dropped prepared unknown,
    filter_stages p i (candidates_from output) = (candidates, dropped)
    ∧ prepare (lp_min_confidence p) (pi_diff_map i) candidates = Ok (prepared, unknown)
    ∧ route p i prepared = (po_inline r, po_body_only r)
    ∧ po_dropped r = py_sorted position_leb (dropped ++ unknown).
Proof.
  unfold process. destruct (filter_stages p i (candidates_from output)) as [cs d].
  destruct (prepare _ _ cs) as [[prepared unknown]|] eqn:Hp; cbn; [|done].
  destruct (route p i prepared) as [inline body] eqn:Hr. intros H.
  apply bind_ok in H as (summary & _ & H). destruct (pack_review_body _ _ _ _ _ _ _ _) as [[b o]|]; [|done].
  injection H as <-. cbn. by exists cs, d, prepared, unknown.
Qed.

Lemma In_candidates_from output x :
  In x (candidates_from output) →
  ∃ n, ro_findings output !! n = Some (pf_finding x) ∧ pf_position x = Z.of_nat n.
Proof.
  unfold candidates_from. intros H. apply list_elem_of_In, elem_of_lookup_imap in H as (n & f & -> & Hf).
  by exists n.
Qed.

Lemma candidates_positions output :
  positions (candidates_from output) = Z.of_nat <$> seq 0 (length (ro_findings output)).
Proof.
  apply list_eq. intros n. unfold candidates_from.
  rewrite !list_lookup_fmap, list_lookup_imap.
  destruct (ro_findings output !! n) as [f|] eqn:Hn.
  - apply lookup_lt_Some in Hn. by rewrite lookup_seq_lt.
  - apply lookup_ge_None in Hn. by rewrite lookup_seq_ge.
Qed.

(** ** Theorems *)

(** The positions of the items, and what their lists hold. *)
Lemma process_positions p output i r :
  process p output i = Ok r →
  Permutation (positions (po_inline r ++ po_body_only r ++ po_dropped r))
    ((Z.of_nat <$> seq 0 (length (ro_findings output))) ++ positions (pi_pre_dropped i))
  ∧ (∀ x, In x (po_inline r) → pf_bucket x = Bucket_inline)
  ∧ (∀ x, In x (po_body_only r) → pf_bucket x = Bucket_body_only)
  ∧ ∀ x, In x (po_dropped r) → In x (pi_pre_dropped i) ∨ dropped_ok x.
Proof.
  intros H. apply process_parts in H as (cs & d & prepared & unknown & Hf & Hp & Hr & Hd).
  assert (Hpos := filter_stages_positions _ _ _ _ _ Hf).
  assert (Hdr := λ x, filter_stages_dropped _ _ _ _ _ x Hf).
  apply prepare_spec in Hp as (Hpp & Hun & Hx).
  assert (Hb : ∀ x, In x prepared → pf_bucket x ≠ Bucket_dropped) by (intros; by apply Hx).
  split_and!.
  - rewrite <- candidates_positions, Hd, (app_assoc (po_inline r)), fmap_app.
    rewrite (route_perm _ _ _ _ _ Hr Hb pf_position); [|by intros x; apply (repair_spec x i _ eq_refl)|done].
    rewrite (fmap_Permutation _ _ _ (py_sorted_perm _ _)), <- fmap_app.
    rewrite <- fmap_app, <- Hpos, !fmap_app, <- Hpp, fmap_app. solve_Permutation.
  - intros x Hin. by apply (route_inline _ _ _ _ _ Hr Hb).
  - intros x Hin. by apply (route_body _ _ _ _ _ Hr Hb).
  - rewrite Hd. intros x Hin. apply In_py_sorted, in_app_iff in Hin as [Hin|Hin]; [by apply Hdr|].
    right. destruct (Hun x Hin) as [H1 H2]. split; [done|]. rewrite H2. by eexists.
Qed.

(** A published item has no reason to be dropped. *)
Lemma prepare_reason q m l : ∀ prepared dropped,
  prepare q m l = Ok (prepared, dropped) → Forall (λ x, pf_drop_reason x = None) prepared.
Proof.
  induction l as [|item l IH]; intros prepared dropped; cbn [prepare]; [by intros [= <- <-]|].
  intros H. apply bind_ok in H as ([f b] & _ & H). apply bind_ok in H as ([ps ds] & Hp & H).
  apply IH in Hp. case_bool_decide; injection H as <- <-; [done|by constructor].
Qed.

Lemma process_reason p output i r :
  process p output i = Ok r → Forall (λ x, pf_drop_reason x = None) (po_inline r ++ po_body_only r).
Proof.
  intros H. apply process_parts in H as (cs & d & prepared & unknown & _ & Hp & Hr & _).
  apply prepare_reason in Hp. set (P := λ x : ProcessedFinding, _) in *.
  assert (Hfil : ∀ b l, Forall P l → Forall P (List.filter (in_bucket b) l)).
  { intros b l Hl. rewrite Forall_forall in Hl |- *. intros x [Hx _]%list_elem_of_In%filter_In.
    by apply Hl, list_elem_of_In. }
  assert (Hrep : ∀ l, Forall P l → Forall P ((λ x, repair_attribution x (pi_rule_names i) (pi_allowed_v2_rules i)) <$> l)).
  { intros l Hl. rewrite Forall_fmap. eapply Forall_impl; [exact Hl|]. intros x Hx. unfold P, compose, repair_attribution in *.
    repeat case_match; done. }
  unfold route in Hr. injection Hr as <- <-. set (ranked := py_sorted _ _).
  assert (Hrank : Forall P ranked) by (unfold ranked; rewrite py_sorted_perm; by apply Hfil).
  assert (Hsplit := Hrank). rewrite <- (prefix_suffix (inline_cap p i) ranked), Forall_app in Hsplit.
  destruct Hsplit as [Hpre Hsuf]. rewrite !Forall_app. split_and!; [by apply Hfil, Hrep| |by apply Hfil, Hrep].
  apply Hrep, Forall_app. split; [by apply Hfil|]. rewrite Forall_fmap. by apply Forall_true.
Qed.

(** ** What becomes of each finding *)

(** [reshaped f g]: [g] is [f], its range and suggestion cleared when only its last line is on the
    diff, and its attribution removed when the rule it names is not one the review may name. *)
Definition reshaped (f g : ReviewFinding) : Prop :=
  ∃ h, (h = f ∨ h = clear_range f)
    ∧ (g = h ∨ g = set_rule h (fg_body h) None
       ∨ ∃ name rest, match_attribution (fg_body h) = Some (name, rest) ∧ g = set_rule h rest None).

Lemma classify_anchor_shape f m f' b : classify_anchor f m = Ok (f', b) → f' = f ∨ f' = clear_range f.
Proof.
  unfold classify_anchor. intros (anchor & _ & H)%bind_ok.
  destruct anchor; [by injection H as <- _; left|].
  destruct (fg_start_line f); [|by injection H as <- _; left].
  apply bind_ok in H as ([] & _ & [= <- _]); auto.
Qed.

Lemma prepare_shape q m l : ∀ prepared dropped x,
  prepare q m l = Ok (prepared, dropped) → x ∈ prepared ++ dropped →
  ∃ item, item ∈ l ∧ pf_position x = pf_position item
    ∧ (pf_finding x = pf_finding item ∨ pf_finding x = clear_range (pf_finding item)).
Proof.
  induction l as [|item l IH]; intros prepared dropped x; cbn [prepare].
  { intros [= <- <-] []%elem_of_nil. }
  intros ([f b] & Hc & ([ps ds] & Hp & H)%bind_ok)%bind_ok Hx. apply classify_anchor_shape in Hc.
  assert (Hrest : x ∈ ps ++ ds → ∃ it, it ∈ item :: l ∧ pf_position x = pf_position it
    ∧ (pf_finding x = pf_finding it ∨ pf_finding x = clear_range (pf_finding it))).
  { intros (it & Hin & ?)%(IH _ _ _ Hp). exists it. split; [by right|done]. }
  case_bool_decide; injection H as <- <-; rewrite elem_of_app, elem_of_cons in Hx;
    destruct Hx as [Hx|Hx]; try destruct Hx as [->|Hx]; try (apply Hrest, elem_of_app; tauto);
    exists item; (split; [by left|done]).
Qed.

Lemma repair_shape x rules allowed :
  let g := pf_finding (repair_attribution x rules allowed) in let h := pf_finding x in
  g = h ∨ g = set_rule h (fg_body h) None
  ∨ ∃ name rest, match_attribution (fg_body h) = Some (name, rest) ∧ g = set_rule h rest None.
Proof.
  cbv zeta. unfold repair_attribution.
  destruct (match fg_rule_name (pf_finding x) with Some r => _ | None => _ end); [by left|].
  destruct (match match_attribution _ with Some _ => _ | None => _ end); [by left|].
  destruct (match_attribution (fg_body (pf_finding x))) as [[name rest]|] eqn:E; right; [right|by left].
  by exists name, rest.
Qed.

(** The items are those dropped before, as they were, and one for each finding of the answer. *)
Lemma process_items p output i r :
  process p output i = Ok r →
  ∃ rest,
    Permutation (po_inline r ++ po_body_only r ++ po_dropped r) (pi_pre_dropped i ++ rest)
    ∧ Permutation (positions rest) (Z.of_nat <$> seq 0 (length (ro_findings output)))
    ∧ ∀ x, x ∈ rest → ∃ n f, pf_position x = Z.of_nat n ∧ ro_findings output !! n = Some f
        ∧ reshaped f (pf_finding x).
Proof.
  intros H. apply process_parts in H as (cs & d & prepared & unknown & Hf & Hp & Hr & Hd).
  apply filter_stages_sources in Hf as (more & -> & Hsrc).
  destruct (prepare_spec _ _ _ _ _ Hp) as (Hpp & _ & Hx).
  assert (Hb : ∀ x, In x prepared → pf_bucket x ≠ Bucket_dropped) by (intros; by apply Hx).
  assert (Hfrom : ∀ x, x ∈ cs ++ more → ∃ n f, pf_position x = Z.of_nat n
            ∧ ro_findings output !! n = Some f ∧ pf_finding x = f).
  { intros x Hin. apply (list_elem_of_fmap_2 source) in Hin. rewrite Hsrc in Hin.
    apply list_elem_of_fmap in Hin as (y & [= -> ->] & (n & Hn & Hpos)%list_elem_of_In%In_candidates_from).
    eauto 10. }
  exists ((po_inline r ++ po_body_only r) ++ more ++ unknown). split_and!.
  - rewrite Hd, py_sorted_perm. solve_Permutation.
  - rewrite <- candidates_positions, <- (sources_positions _ _ Hsrc), fmap_app.
    rewrite (route_perm _ _ _ _ _ Hr Hb pf_position); [|by intros x; apply (repair_spec x i _ eq_refl)|done].
    rewrite !fmap_app in *. rewrite <- Hpp. solve_Permutation.
  - assert (Hprep : ∀ y, y ∈ prepared ++ unknown → ∃ n f, pf_position y = Z.of_nat n
        ∧ ro_findings output !! n = Some f ∧ (pf_finding y = f ∨ pf_finding y = clear_range f)).
    { intros y (item & Hin & Hpos & Hshape)%(prepare_shape _ _ _ _ _ _ Hp).
      destruct (Hfrom item) as (n & f & Hn & Hlook & Hf); [apply elem_of_app; by left|].
      exists n, f. rewrite Hpos, <- Hf in *. done. }
    intros x [[Hin|Hin]%elem_of_app|[Hin|Hin]%elem_of_app]%elem_of_app.
    + apply list_elem_of_In, (route_inline _ _ _ _ _ Hr Hb) in Hin as (_ & y & Hy & _ & <-).
      destruct (Hprep y) as (n & f & Hn & Hl & Hsh); [apply elem_of_app; left; by apply list_elem_of_In|].
      exists n, f. destruct (repair_spec y i _ eq_refl) as (-> & _). split_and!; [done..|].
      eexists. split; [exact Hsh|]. apply repair_shape.
    + apply list_elem_of_In, (route_body _ _ _ _ _ Hr Hb) in Hin as (_ & y & y' & Hy & Hpos & Hfi & <-).
      destruct (Hprep y) as (n & f & Hn & Hl & Hsh); [apply elem_of_app; left; by apply list_elem_of_In|].
      exists n, f. destruct (repair_spec y' i _ eq_refl) as (-> & _). rewrite Hpos. split_and!; [done..|].
      rewrite <- Hfi in Hsh. eexists. split; [exact Hsh|]. apply repair_shape.
    + destruct (Hfrom x) as (n & f & Hn & Hl & <-); [apply elem_of_app; by right|].
      exists n, (pf_finding x). split_and!; [done..|]. exists (pf_finding x). auto.
    + destruct (Hprep x) as (n & f & Hn & Hl & Hsh); [apply elem_of_app; by right|].
      exists n, f. split_and!; [done..|]. exists (pf_finding x). auto.
Qed.

(** C30: every finding of an answer ends in exactly one bucket.  The positions of the inline,
    body-only and dropped findings together are those of the answer and of the findings dropped
    before, each once; each list holds items of its bucket, a dropped one with a reason; and no two
    published findings claim the same title on the same line. *)
Theorem process_partition p output i r :
  (∀ x, In x (pi_pre_dropped i) → dropped_ok x) →
  process p output i = Ok r →
  Permutation (positions (po_inline r ++ po_body_only r ++ po_dropped r))
    ((Z.of_nat <$> seq 0 (length (ro_findings output))) ++ positions (pi_pre_dropped i))
  ∧ (∀ x, In x (po_inline r) → pf_bucket x = Bucket_inline)
  ∧ (∀ x, In x (po_body_only r) → pf_bucket x = Bucket_body_only)
  ∧ (∀ x, In x (po_dropped r) → dropped_ok x)
  ∧ NoDup (key_of <$> po_inline r ++ po_body_only r).
Proof.
  intros Hpre H. destruct (process_positions _ _ _ _ H) as (Hpos & Hinl & Hbody & Hdrop).
  split_and!; [done..| |].
  - intros x Hin. destruct (Hdrop x Hin); auto.
  - apply process_parts in H as (cs & d & prepared & unknown & Hf & Hp & Hr & _).
    apply filter_stages_kept in Hf as [Hnd _]. assert (Hkeys := prepare_keys _ _ _ _ _ Hp).
    apply prepare_spec in Hp as (_ & _ & Hx). rewrite (route_perm _ _ _ _ _ Hr);
      [|intros x ?; by apply Hx|intros x; apply same_claim_key, (repair_spec x i _ eq_refl)|done].
    eapply sublist_NoDup; [done|]. done.
Qed.

(** C31: an inline comment is safe to publish.  It is a finding of the answer with the same
    claim, it resolves to a position on the diff map, its confidence is at least the minimum, no lint
    pattern drops it, and it names a rule only when that rule is allowed or quoted and known; a
    summary-only run has none.  When post-processing is told to apply the severity threshold (it is
    not for an answer that names the threshold of its verification pass, which has dropped what is
    below it), its severity is published under that threshold.  When the smaller of the two caps is
    not negative, there are at most as many as it says. *)
Theorem process_inline_sound p output i r :
  process p output i = Ok r →
  (0 ≤ inline_cap p i → py_len (po_inline r) ≤ inline_cap p i)
  ∧ ∀ x, In x (po_inline r) →
      ∃ n f0, ro_findings output !! n = Some f0 ∧ pf_position x = Z.of_nat n
        ∧ same_claim f0 (pf_finding x)
        ∧ anchored (pi_diff_map i) (pf_finding x)
        ∧ Qle (lp_min_confidence p) (fg_confidence f0)
        ∧ pi_summary_only i = false
        ∧ (pi_apply_severity_threshold i = true →
           fg_severity f0 ∈ PUBLISHED_SEVERITIES (pi_severity_threshold i))
        ∧ attribution_ok i (pf_finding x)
        ∧ (py_any (λ search, search (lint_text f0)) (lp_drop_if_any p) = true →
           py_any (λ search, search (lint_text f0)) (lp_keep_if_any p) = true
           ∨ fg_severity f0 = Sev_critical ∨ fg_severity f0 = Sev_high).
Proof.
  intros H. apply process_parts in H as (cs & d & prepared & unknown & Hf & Hp & Hr & _).
  apply filter_stages_kept in Hf as [_ Hkept].
  apply prepare_spec in Hp as (_ & _ & Hx).
  assert (Hb : ∀ x, In x prepared → pf_bucket x ≠ Bucket_dropped) by (intros; by apply Hx).
  split; [by apply (route_cap _ _ _ _ _ Hr Hb)|]. intros x Hin.
  apply (route_inline _ _ _ _ _ Hr Hb) in Hin as (_ & y & Hy & Hyb & Hrep).
  destruct (Hx y Hy) as (_ & (item & Hit & Hpos & Hsame) & Hinl).
  destruct (Hinl Hyb) as [Hanch Hconf].
  destruct (repair_spec y i x Hrep) as (Hpos' & Hsame' & Hstart & Hattr & _).
  destruct (Hkept item Hit) as (Hcand & Hso & Hlint & Hsev).
  apply In_candidates_from in Hcand as (n & Hn & Hpn).
  exists n, (pf_finding item). split_and!; try done.
  - by rewrite Hpos', Hpos.
  - by eapply same_claim_trans.
  - destruct Hanch as [a Ha]. exists a. destruct Hsame' as [Hp1 Hp2 _ _ _ _].
    by rewrite Hp1, Hp2, Hstart.
  - by rewrite <- (sc_confidence _ _ Hsame).
  - intros Hdrop. unfold drops_as_lint in Hlint. rewrite Hdrop in Hlint. cbn [andb] in Hlint.
    apply andb_false_iff in Hlint as [Hl|Hl]; apply negb_false_iff in Hl; [by left|right].
    apply bool_decide_eq_true in Hl. rewrite !elem_of_cons, elem_of_nil in Hl. tauto.
Qed.

(** ** Post-processing a valid answer never raises *)

(** No character that could end a sentence. *)
Definition plain_text (s : pystr) : Prop := forallb (λ c, negb (is_terminator c) && negb (is_Cs c)) s = true.

Lemma plain_app a b : plain_text a → plain_text b → plain_text (a ++ b).
Proof. unfold plain_text. rewrite forallb_app. by intros -> ->. Qed.

Lemma plain_join sep ws : plain_text sep → Forall plain_text ws → plain_text (join sep ws).
Proof.
  intros Hs. induction 1 as [|w ws Hw Hws IH]; [done|]. destruct ws as [|w' ws]; [done|].
  rewrite join_cons by done. apply plain_app; [done|]. by apply plain_app.
Qed.

Lemma uint_digits_plain u : plain_text ((λ d, 48 + d)%N <$> uint_digits u).
Proof. induction u; cbn; try done; unfold plain_text; cbn; exact IHu. Qed.

Lemma str_of_Z_plain z : plain_text (str_of_Z z).
Proof. destruct z; [done| |apply (plain_app [45%N]); [done|]]; apply uint_digits_plain. Qed.

(** Plain text with a final period is one sentence. *)
Lemma sentences_plain s : plain_text s → sentences_from (s ++ u8 ".") true = 1.
Proof.
  induction s as [|c s IH]; [done|]. unfold plain_text. cbn [forallb app].
  intros [[Hc _]%andb_true_iff Hs]%andb_true_iff. apply negb_true_iff in Hc. cbn [sentences_from]. rewrite Hc.
  by apply IH.
Qed.

Lemma plain_encodable s : plain_text s → encodable (s ++ u8 ".") = true.
Proof.
  unfold plain_text, encodable. intros H. rewrite forallb_app, andb_true_iff. split; [|by vm_compute].
  apply forallb_forall. intros c Hc. rewrite forallb_forall in H. by destruct (proj1 (andb_true_iff _ _) (H c Hc)).
Qed.

Lemma sentence_count_plain s : plain_text s → s ≠ [] → sentence_count (s ++ u8 ".") = 1.
Proof.
  intros Hp Hne. destruct s as [|c s]; [done|]. unfold plain_text in Hp. cbn [forallb] in Hp.
  apply andb_true_iff in Hp as [[Hc _]%andb_true_iff Hs]. apply negb_true_iff in Hc. unfold sentence_count.
  cbn [app sentences_from]. rewrite Hc. by apply sentences_plain.
Qed.

(** Every reason and variant of the coverage is in the vocabulary. *)
Definition coverage_known (c : RunCoverage) : Prop :=
  (∀ k, chas (reason_counts c) k = true → In k COVERAGE_REASON_CODES)
  ∧ ∀ k, chas (reason_variant_counts c) k = true → In k REASON_VARIANT_CODES.

Lemma assoc_In {A} k (l : list (pystr * A)) :
  In k (fst <$> l) → ∃ v, assoc k l = Some v ∧ In v (snd <$> l).
Proof.
  induction l as [|[k' v'] l IH]; [done|]. cbn. destruct (k =?s k') eqn:E.
  - intros _. exists v'. split; [done|by left].
  - intros [->|H]; [by rewrite str_eqb_refl in E|]. destruct (IH H) as (v & ? & ?).
    exists v. split; [done|by right].
Qed.

Lemma vocabulary_plain l :
  forallb (forallb (λ c, negb (is_terminator c) && negb (is_Cs c))) l = true → ∀ v, In v l → plain_text v.
Proof. intros H v Hv. rewrite forallb_forall in H. by apply H. Qed.

Lemma code_text_plain k : In k COVERAGE_REASON_CODES → plain_text (code_text k).
Proof.
  intros (v & Hv & Hin)%assoc_In. unfold code_text. rewrite Hv. cbn. clear Hv. revert v Hin.
  apply vocabulary_plain. vm_compute. reflexivity.
Qed.

Lemma variant_text_plain k :
  In k REASON_VARIANT_CODES → ∃ v, assoc k REASON_VARIANT_TEXT = Some v ∧ plain_text v.
Proof.
  intros (v & Hv & Hin)%assoc_In. exists v. split; [done|]. clear Hv. revert v Hin.
  apply vocabulary_plain. vm_compute. reflexivity.
Qed.

Definition keys_plain (m : counts) : Prop := ∀ k, chas m k = true → plain_text k.

Lemma keys_plain_cadd m k n : keys_plain m → plain_text k → keys_plain (cadd m k n).
Proof.
  intros Hm Hk j. rewrite chas_cadd, orb_true_iff, str_eqb_eq. intros [<-|H]; [done|by apply Hm].
Qed.

Lemma In_citems_chas m k v : In (k, v) (citems m) → chas m k = true.
Proof. intros H%In_citems. apply bool_decide_eq_true. eauto. Qed.

Lemma variant_texts_plain m :
  (∀ k, chas m k = true → In k REASON_VARIANT_CODES) →
  ∃ texts, variant_texts m = Some texts ∧ keys_plain texts.
Proof.
  intros H. unfold variant_texts.
  assert (Hl : ∀ kv, In kv (citems m) → In (fst kv) REASON_VARIANT_CODES)
    by (intros [k v] Hin%In_citems_chas; by apply H).
  induction (citems m) as [|[k v] l IH]; [by exists ∅|]. cbn [foldr].
  destruct IH as (texts & -> & Hp); [intros; apply Hl; by right|]. cbn [mbind option_bind fst snd].
  destruct (variant_text_plain k) as (t & -> & Ht); [apply (Hl (k, v)); by left|].
  eexists. split; [done|]. by apply keys_plain_cadd.
Qed.

(** The problem line is plain but for its final period. *)
Lemma summary_problem_plain c :
  coverage_known c → ∃ s, summary_problem c = Some (s ++ u8 ".") ∧ plain_text s.
Proof.
  intros [Hr Hv]. unfold summary_problem.
  destruct (variant_texts_plain (reason_variant_counts c) Hv) as (texts & -> & Hp).
  cbn [mbind option_bind].
  match goal with |- context [sorted_items ?m] => assert (Hm : keys_plain m) end.
  { assert (Hl : ∀ kv, In kv (citems (reason_counts c)) → In (fst kv) COVERAGE_REASON_CODES)
      by (intros [k v] Hin%In_citems_chas; by apply Hr).
    induction (citems (reason_counts c)) as [|[k v] l IH]; [done|]. cbn [foldr fst snd].
    specialize (IH (λ kv Hin, Hl kv (or_intror Hin))).
    destruct (_ <? _); [|done]. apply keys_plain_cadd; [done|].
    apply code_text_plain, (Hl (k, v)). by left. }
  match goal with |- context [sorted_items ?m] => set (causes := m) in * end.
  eexists. rewrite app_assoc. split; [done|].
  apply plain_app; [by destruct (bool_decide _); vm_compute|].
  destruct (_ =?s []); [done|]. apply plain_app; [done|]. apply plain_join; [done|].
  apply Forall_forall. intros w (kv & -> & Hin)%list_elem_of_fmap.
  rewrite sorted_items_perm, list_elem_of_In in Hin. destruct kv as [k v].
  repeat apply plain_app; try done; [|apply str_of_Z_plain].
  apply Hm. by eapply In_citems_chas.
Qed.

Lemma removesuffix_app s t : removesuffix (s ++ t) t = s.
Proof.
  unfold removesuffix. rewrite (proj2 (endswith_iff (s ++ t) t)) by (by exists s).
  rewrite length_app, Nat.add_sub. apply take_app_length.
Qed.

Lemma category_plain c : plain_text (Category_value c).
Proof. by destruct c; vm_compute. Qed.

Lemma problem_text_plain severities categories c :
  coverage_known c →
  ∃ s, problem_text severities categories c = Some s ∧ plain_text s ∧ s ≠ [].
Proof.
  intros Hk. destruct (summary_problem_plain c Hk) as (sp & Hsp & Hplain).
  unfold problem_text. rewrite Hsp. cbn [mbind option_bind]. rewrite removesuffix_app.
  set (base := if py_len severities =? 0 then _ else _).
  assert (Hbase : plain_text base ∧ base ≠ []).
  { unfold base. destruct (_ =? 0); [by vm_compute|]. split; [|done].
    apply plain_app; [by vm_compute|apply str_of_Z_plain]. }
  set (listed := if bool_decide (counter (Category_value <$> categories) = ∅) then [] else _).
  assert (Hlisted : plain_text listed).
  { unfold listed. destruct (bool_decide (_ = ∅)); [done|].
    apply plain_app; [done|]. apply plain_app; [|done]. apply plain_join; [done|].
    apply Forall_forall. intros w ([k v] & -> & Hin)%list_elem_of_fmap.
    rewrite sorted_items_perm, list_elem_of_In in Hin. apply In_citems_chas, chas_counter in Hin.
    apply list_elem_of_In, list_elem_of_fmap in Hin as (cat & -> & _).
    apply plain_app; [apply category_plain|]. apply plain_app; [done|apply str_of_Z_plain]. }
  destruct Hbase as [Hb Hne].
  destruct (bool_decide (rc_status c = Cov_complete)); eexists; (split; [done|]);
    (split; [repeat apply plain_app; done|]); by destruct base.
Qed.

(** The summary the backend writes satisfies its own contract. *)
Lemma summary_from_result_total severities categories c reason name_it :
  coverage_known c → is_ok (summary_from_result severities categories c reason name_it) = true.
Proof.
  intros Hk. unfold summary_from_result.
  assert (Hp : ∃ s, (if name_it then Ok (summary_only_line reason ++ u8 ".")
                     else match problem_text severities categories c with
                          | Some p => Ok (p ++ u8 ".") | None => Err Err_key end)
                    = (Ok (s ++ u8 ".") : result process_error pystr) ∧ plain_text s ∧ s ≠ []).
  { destruct name_it.
    - exists (summary_only_line reason). split; [done|]. unfold summary_only_line.
      destruct reason as [r|]; [|split; [by vm_compute|done]].
      destruct (assoc r SUMMARY_ONLY_LINES) as [v|] eqn:E; [|split; [by vm_compute|done]].
      cbn in E. repeat (destruct (_ =?s _) in E; [injection E as <-; split; [by vm_compute|done]|]). done.
    - destruct (problem_text_plain severities categories c Hk) as (s & -> & ?). by exists s. }
  destruct Hp as (s & -> & Hs & Hne). cbn [mbind result_bind].
  assert (Hd : ∃ d, u8 "Проанализировано файлов с текстовыми изменениями: "
       ++ str_of_Z (rc_reviewed_files c) ++ u8 "; исключено файлов: "
       ++ str_of_Z (csum (exclusion_counts c)) ++ u8 "." = d ++ u8 "." ∧ plain_text d ∧ d ≠ []).
  { eexists. rewrite !app_assoc. split; [done|]. split; [|done].
    repeat apply plain_app; by first [apply str_of_Z_plain|vm_compute]. }
  destruct Hd as (d & -> & Hd & Hdne). unfold summary_valid. cbn [sm_problem sm_done_well].
  rewrite !sentence_count_plain by done.
  assert (Hlen : ∀ t : pystr, (1 <=? py_len (t ++ u8 ".")) = true).
  { intros t. apply Z.leb_le. rewrite py_len_app. pose proof (py_len_nonneg t).
    change (py_len (u8 ".")) with 1. lia. }
  rewrite !Hlen. unfold py_all. cbn [forallb]. by rewrite !plain_encodable.
Qed.

Lemma reason_variant_code i k : reason_variant i = Some k → In k REASON_VARIANT_CODES.
Proof.
  unfold reason_variant. destruct (str_mem _ REASON_VARIANT_CODES) eqn:E; [|done].
  intros [= <-]. by apply str_mem_In.
Qed.

Definition counts_known (m : counts) : Prop := ∀ k, chas m k = true → In k COVERAGE_REASON_CODES.

Lemma counts_known_cadd m k n : counts_known m → In k COVERAGE_REASON_CODES → counts_known (cadd m k n).
Proof.
  intros Hm Hk j. rewrite chas_cadd, orb_true_iff, str_eqb_eq. intros [<-|H]; [done|by apply Hm].
Qed.

Ltac known_code := apply str_mem_In; vm_compute; reflexivity.

Lemma finalize_known c incomplete n :
  coverage_known c → coverage_known (finalize_run_coverage c incomplete n).
Proof.
  intros Hk. destruct (finalize_cases c incomplete n)
    as [(-> & _)|(_ & _ & _ & _ & _ & _ & _ & Hsv & Hrc)]; [done|]. destruct Hk as [Hr Hv]. split.
  - cbn zeta in Hrc. rewrite Hrc. set (affected := affected_paths c incomplete _).
    assert (Ht : counts_known (snd (fst (withhold_unproven c incomplete)))).
    { unfold withhold_unproven. destruct (_ && _); [|done]. apply counts_known_cadd; [done|known_code]. }
    destruct (withhold_unproven c incomplete) as [[rs0 cs0] rev0]. cbn [fst snd] in Ht.
    assert (Ha : counts_known (snd (fst (mark_affected affected (rs0, cs0, rev0))))).
    { unfold mark_affected. destruct affected; [done|]. apply counts_known_cadd; [done|known_code]. }
    destruct (mark_affected affected (rs0, cs0, rev0)) as [[rs1 cs1] rev1]. cbn [fst snd] in Ha.
    unfold mark_unknown. destruct (n =? 0); [done|]. apply counts_known_cadd; [done|known_code].
  - unfold reason_variant_counts in *. rewrite Hsv. unfold stored_or in *.
    destruct (rc_stored_reason_variant_counts c); [|done].
    intros k Hk%chas_counter. apply list_elem_of_In, list_elem_of_omap in Hk as (i & _ & Hi).
    by eapply reason_variant_code.
Qed.

(** ** Totality *)

Lemma classify_anchor_total f m : finding_valid f = true → is_ok (classify_anchor f m) = true.
Proof.
  intros Hf. unfold finding_valid in Hf. apply andb_true_iff in Hf as [Hfields Hrange].
  assert (Hok : ∀ st, (st = fg_start_line f ∨ st = None) → is_ok (resolve_anchor m (fg_path f) st (fg_line f)) = true).
  { intros st Hst. unfold resolve_anchor.
    assert (Hl : lines_invalid st (fg_line f) = false).
    { unfold lines_invalid, finding_fields_ok, validate_range in *.
      repeat (apply andb_true_iff in Hfields as [Hfields ?]).
      repeat (apply andb_true_iff in Hrange as [Hrange ?]).
      apply orb_false_iff. split; [by apply Z.ltb_ge, Z.leb_le|].
      destruct st as [s|]; [|done]. destruct Hst as [Hst|]; [|done]. rewrite <- Hst in *.
      rewrite negb_false_iff, andb_true_iff. split; assumption. }
    rewrite Hl. by repeat case_match. }
  unfold classify_anchor. destruct (resolve_anchor m _ (fg_start_line f) _) as [a|] eqn:E1;
    [|by rewrite <- (Hok (fg_start_line f)), E1 by (by left)].
  cbn. destruct a as [a|r]; [done|]. destruct (fg_start_line f); [|done].
  destruct (resolve_anchor m (fg_path f) None (fg_line f)) as [[]|] eqn:E2; cbn; [done..|].
  by rewrite <- (Hok None), E2 by (by right).
Qed.

Lemma prepare_total q m l :
  (∀ x, In x l → finding_valid (pf_finding x) = true) → is_ok (prepare q m l) = true.
Proof.
  induction l as [|x l IH]; intros H; [done|]. cbn [prepare].
  pose proof (classify_anchor_total (pf_finding x) m (H x (or_introl eq_refl))).
  destruct (classify_anchor _ m) as [[f b]|]; [|done]. cbn.
  specialize (IH (λ y Hy, H y (or_intror Hy))). destruct (prepare q m l) as [[ps ds]|]; [|done].
  cbn. by destruct (bool_decide _).
Qed.

Lemma pack_total k budget : coverage_known (pk_coverage k) → is_Some (pack k budget).
Proof.
  intros Hk. destruct (summary_problem_plain _ Hk) as (s & Hs & _).
  assert (Ha : is_Some (assemble k 0 0)).
  { unfold assemble, overview_block. rewrite Hs.
    destruct (bool_decide (rc_status (pk_coverage k) = Cov_complete)); by eexists. }
  unfold pack. destruct Ha as [a Ha]. rewrite Ha. cbn [mbind option_bind].
  destruct (search_total k budget (candidates_of k) (0%nat, 0%nat, a)) as [[[f l] b] ->]; [by eexists|].
  by eexists.
Qed.

(** Post-processing a valid answer never fails.  When every finding satisfies the answer's
    contract and the coverage uses the stored vocabulary, there is a processed output: each finding
    can be anchored or rejected, the summary the backend writes satisfies its own one-sentence
    contract, and every reason has a text. *)
Theorem process_total p output i :
  output_valid output = true →
  (∀ c, pi_coverage i = Some c → coverage_known c) →
  ∃ r, process p output i = Ok r.
Proof.
  intros Hv Hc. unfold output_valid in Hv. do 3 apply andb_true_iff in Hv as [Hv _].
  unfold py_all in Hv. rewrite forallb_forall in Hv. unfold process.
  set (c0 := default _ (pi_coverage i)).
  assert (Hc0 : coverage_known c0).
  { unfold c0. destruct (pi_coverage i) as [c|]; [by apply Hc|]. cbn. split.
    - intros k Hk%chas_counter. cbn in Hk. destruct Hk as [<-|[]]. known_code.
    - by intros k Hk%chas_counter. }
  destruct (filter_stages p i (candidates_from output)) as [cs d] eqn:Hf.
  apply filter_stages_kept in Hf as [_ Hkept].
  assert (Hp : is_ok (prepare (lp_min_confidence p) (pi_diff_map i) cs) = true).
  { apply prepare_total. intros x Hx. destruct (Hkept x Hx) as [Hin _].
    apply In_candidates_from in Hin as (n & Hn & _). apply Hv, list_elem_of_In.
    by eapply list_elem_of_lookup_2. }
  destruct (prepare _ _ cs) as [[prepared unknown]|]; [|done]. cbn [map_err mbind result_bind].
  destruct (route p i prepared) as [inline body].
  match goal with |- context [finalize_run_coverage c0 ?a ?b] =>
    pose proof (finalize_known c0 a b Hc0) as Hk; set (c1 := finalize_run_coverage c0 a b) in * end.
  match goal with |- context [summary_from_result ?a ?b c1 ?x ?y] =>
    pose proof (summary_from_result_total a b c1 x y Hk) as Hs;
    destruct (summary_from_result a b c1 x y) as [summary|]; [|done] end.
  cbn [mbind result_bind]. unfold pack_review_body.
  match goal with |- context [pack ?k ?b] =>
    destruct (pack_total k b) as [[body' om] ->] end.
  - unfold packing. by destruct (str_partition _ _) as [[? ?] ?].
  - by eexists.
Qed.

(** ** A sample answer *)

Definition sample_patterns : LintFilterPatterns :=
  mkLintFilterPatterns [λ text, contains text (u8 "whitespace")] [λ text, contains text (u8 "secret")]
    (1 # 2) 1.

Definition sample_finding (line : Z) (severity : Severity) (title : pystr) : ReviewFinding :=
  mkReviewFinding (u8 "src/app.py") line None severity Cat_correctness title (u8 "text") None (9 # 10)
    None.

(** Two anchored findings of which one fits inline, one on an absent line, and one of lint. *)
Definition sample_answer : ReviewOutput :=
  mkReviewOutput
    [sample_finding 10 Sev_high (u8 "First"); sample_finding 9 Sev_medium (u8 "Second");
     sample_finding 99 Sev_low (u8 "Third"); sample_finding 10 Sev_low (u8 "Trailing whitespace")]
    (mkReviewSummary (u8 "One problem.") (u8 "Fine.") Effort_small).

Definition sample_context : ProcessInput :=
  mkProcessInput sample_map {[u8 "src/app.py"]} ∅ None Th_all None [] true
    (Some sample_coverage) false [] None.

Definition sample_processed : ProcessedReviewOutput :=
  match process sample_patterns sample_answer sample_context with
  | Ok r => r
  | Err _ => mkProcessedReviewOutput [] [] [] [] 0 false None sample_coverage
  end.

Lemma sample_process_ok :
  process sample_patterns sample_answer sample_context = Ok sample_processed.
Proof. vm_compute. reflexivity. Qed.

Lemma process_partition_witness :
  positions (po_inline sample_processed) = [0] ∧ positions (po_body_only sample_processed) = [2; 1]
  ∧ positions (po_dropped sample_processed) = [3]
  ∧ NoDup (key_of <$> po_inline sample_processed ++ po_body_only sample_processed).
Proof.
  split; [vm_compute; reflexivity|]. split; [vm_compute; reflexivity|].
  split; [vm_compute; reflexivity|].
  destruct (process_partition sample_patterns sample_answer sample_context sample_processed)
    as (_ & _ & _ & _ & H).
  - intros x [].
  - exact sample_process_ok.
  - exact H.
Defined.

Lemma process_inline_sound_witness : py_len (po_inline sample_processed) ≤ 1.
Proof.
  refine (proj1 (process_inline_sound sample_patterns sample_answer sample_context sample_processed
                   sample_process_ok) _).
  vm_compute. discriminate.
Defined.

Lemma process_total_witness :
  output_valid sample_answer = true
  ∧ ∃ r, process sample_patterns sample_answer sample_context = Ok r.
Proof.
  assert (Hv : output_valid sample_answer = true) by (vm_compute; reflexivity).
  split; [exact Hv|]. apply (process_total sample_patterns sample_answer sample_context Hv).
  intros c [= <-]. split; intros k Hk; vm_compute in Hk; discriminate.
Defined.

Definition sample_items : list ProcessedFinding := po_body_only sample_processed.
Definition sample_packed (budget : Z) : option (pystr * Z) :=
  pack_review_body sample_answer sample_items sample_items {[u8 "src/app.py"]} Th_all 0 budget
    sample_coverage.

(** With 300 characters one of the two lines fits. *)
Lemma pack_review_body_optimal_witness :
  ∃ body, sample_packed 300 = Some (body, 1)
    ∧ ∃ shown listed : nat, 1 = py_len sample_items - Z.of_nat shown.
Proof.
  destruct (sample_packed 300) as [[body omitted]|] eqn:E; [|vm_compute in E; discriminate].
  assert (Ho : omitted = 1) by (vm_compute in E; congruence). subst omitted.
  exists body. split; [reflexivity|].
  destruct (pack_review_body_optimal sample_answer sample_items sample_items {[u8 "src/app.py"]}
              Th_all 0 300 sample_coverage body 1 E) as (shown & listed & _ & _ & Ho & _).
  exists shown, listed. exact Ho.
Defined.

Definition overflowing : ProcessedReviewOutput :=
  with_body sample_processed (repeat 120%N 3990) 1 false.

Lemma stored_body_bounded_witness :
  ∃ r', finalize_stored_review_body sample_answer overflowing {[u8 "src/app.py"]} Th_all 0 None
        = Some r'
    ∧ py_len (po_review_body r')
      ≤ Z.max 4000 (py_len (footer_for None (po_omitted_body_only_count r'))).
Proof.
  destruct (finalize_stored_review_body sample_answer overflowing {[u8 "src/app.py"]} Th_all 0 None)
    as [r'|] eqn:E; [|vm_compute in E; discriminate].
  exists r'. split; [reflexivity|].
  refine (proj1 (proj2 (stored_body_bounded sample_answer overflowing {[u8 "src/app.py"]} Th_all 0
                          None r' _ E))).
  vm_compute. reflexivity.
Defined.

(** ** Order *)

Lemma order_key_eqb_leb a b c d :
  order_key_eqb a b = true → order_key_eqb c d = true → order_key_leb b d = true → order_key_leb a c = true.
Proof.
  unfold order_key_eqb, order_key_leb. destruct a as [a1 a2], b as [b1 b2], c as [c1 c2], d as [d1 d2]. cbn.
  rewrite !andb_true_iff, !Z.eqb_eq, !Qeq_bool_iff. intros [-> Ha] [-> Hc].
  rewrite !orb_true_iff, !andb_true_iff, !Qle_bool_iff. by rewrite Ha, Hc.
Qed.

Lemma order_key_leb_trans a b c : order_key_leb a b = true → order_key_leb b c = true → order_key_leb a c = true.
Proof.
  unfold order_key_leb. destruct a as [a1 a2], b as [b1 b2], c as [c1 c2]. cbn.
  rewrite !orb_true_iff, !andb_true_iff, !Z.ltb_lt, !Z.eqb_eq, !Qle_bool_iff.
  intros [?|[? Ha]] [?|[? Hb]]; [left; lia|left; lia|left; lia|right]. split; [lia|by eapply Qle_trans].
Qed.

Lemma sorted_congruent l ss :
  Forall2 (λ a b, order_key_eqb a b = true) l ss → Sorted (leP order_key_leb) ss → Sorted (leP order_key_leb) l.
Proof.
  induction 1 as [|a b l ss Hab Hl IH]; [done|]. intros Hs. inversion Hs as [|? ? Hss Hhd]; subst.
  constructor; [by apply IH|]. destruct Hl as [|c d l ss Hcd _]; constructor.
  inversion Hhd; subst. by eapply order_key_eqb_leb.
Qed.

Lemma order_key_total a b : order_key_leb a b = true ∨ order_key_leb b a = true.
Proof.
  unfold order_key_leb. rewrite !orb_true_iff, !andb_true_iff, !Z.ltb_lt, !Z.eqb_eq, !Qle_bool_iff.
  destruct (Z.lt_trichotomy (fst a) (fst b)) as [?|[?|?]]; [by left; left| |by right; left].
  destruct (Qlt_le_dec (snd b) (snd a)) as [Hq|Hq]; [right; right|left; right]; (split; [done|]); [by apply Qlt_le_weak|done].
Qed.

(** The order of an answer is that of its keys, and a part of the answer keeps it. *)
Lemma findings_ordered_sorted l : findings_ordered l = true ↔ Sorted (leP order_key_leb) (finding_key <$> l).
Proof.
  unfold findings_ordered. cbv zeta. set (ks := finding_key <$> l). split.
  - intros H. apply (sorted_congruent ks (py_sorted order_key_leb ks)).
    + apply Forall2_same_length_lookup. split; [by rewrite length_py_sorted|]. intros i a b Ha Hb.
      unfold py_all in H. rewrite forallb_forall in H. apply (H (a, b)), list_elem_of_In.
      apply list_elem_of_lookup. exists i. rewrite lookup_zip_with, Ha. cbn. by rewrite Hb.
    + apply py_sorted_sorted, order_key_total.
  - intros H. rewrite (py_sorted_id _ _ H). apply forallb_forall. intros [a b] (i & Hi)%list_elem_of_In%list_elem_of_lookup.
    rewrite lookup_zip_with in Hi. destruct (ks !! i) as [k|] eqn:E; [|done]. cbn in Hi. injection Hi as <- <-.
    unfold order_key_eqb. rewrite Z.eqb_refl. by apply Qeq_bool_iff.
Qed.

Lemma sublist_sorted {A} (R : A → A → Prop) (k l : list A) :
  (∀ a b c, R a b → R b c → R a c) → k `sublist_of` l → Sorted R l → Sorted R k.
Proof.
  intros Htr Hs H. apply Sorted_StronglySorted in H; [|exact Htr]. apply StronglySorted_Sorted.
  induction Hs as [|x k l Hs IH|x k l Hs IH]; [done| |]; inversion H as [|? ? Hl Hx]; subst.
  - constructor; [by apply IH|]. rewrite Forall_forall in Hx |- *. intros y Hy. apply Hx.
    eapply elem_of_sublist; eauto.
  - by apply IH.
Qed.

Lemma sublist_ordered k l :
  finding_key <$> k `sublist_of` finding_key <$> l → findings_ordered l = true → findings_ordered k = true.
Proof.
  rewrite !findings_ordered_sorted. intros Hs. apply sublist_sorted; [|done]. intros a b c. apply order_key_leb_trans.
Qed.
