(* ===== verification/AnswersV2.v ===== *)
(** * Second-version answers ([review_output.py])

    A finding that carries evidence, its coordinate check against the original and the shown files,
    and its attribution check against the call manifest. *)

From Stdlib Require Import String QArith.
From stdpp Require Import numbers sets gmap.
From S2P Require Import Prelude PyText PyHash UnifiedDiff DiffMap Verdict RunFailures PolicyErrors.
From S2P Require Import PolicyDocuments PolicySnapshots VcsInput RunCoverage Findings.
From S2P Require Import PromptRender PromptBudget Manifests ManifestFacts.
#[local] Open Scope Z_scope.

(** ** The answer *)

Record EvidenceRef : Type := mkEvidenceRef {
  er_block_id : pystr;
  er_start_line : Z;
  er_end_line : Z
}.
Definition evidence_valid (e : EvidenceRef) : bool :=
  between 1 128 (py_len (er_block_id e)) && (1 <=? er_start_line e) && (1 <=? er_end_line e)
  && (er_start_line e <=? er_end_line e) && encodable (er_block_id e).

(** The fields of a first-version finding and its evidence. *)
Record ReviewFindingV2 : Type := mkReviewFindingV2 {
  f2_finding : ReviewFinding;
  f2_evidence_refs : list EvidenceRef
}.

Definition ALLOWED_V2_RULE_NAMES : list pystr := [u8 ".review/rules.md"; u8 "AGENTS.md"].

Definition removeprefix (s prefix : pystr) : pystr :=
  if startswith s prefix then drop (length prefix) s else s.

Definition v2_rule_valid (rule_name : option pystr) : bool :=
  match rule_name with
  | None => true
  | Some r =>
      str_mem r ALLOWED_V2_RULE_NAMES
      || (startswith r SERVICE_DEFAULTS_PREFIX
          && is_valid_service_defaults_id (removeprefix r SERVICE_DEFAULTS_PREFIX))
  end.

Definition finding_v2_valid (f : ReviewFindingV2) : bool :=
  finding_valid (f2_finding f)
  && (py_len (fg_path (f2_finding f)) <=? 1024)
  && match fg_rule_name (f2_finding f) with Some r => (py_len r <=? 128) && encodable r | None => true end
  && between 1 8 (py_len (f2_evidence_refs f)) && py_all evidence_valid (f2_evidence_refs f)
  && v2_rule_valid (fg_rule_name (f2_finding f)).

Record ReviewOutputV2 : Type := mkReviewOutputV2 {
  o2_findings : list ReviewFindingV2;
  o2_summary : ReviewSummary
}.
Definition output_v2_valid (o : ReviewOutputV2) : bool :=
  py_all finding_v2_valid (o2_findings o) && (py_len (o2_findings o) <=? 10)
  && findings_ordered (f2_finding <$> o2_findings o) && summary_valid (o2_summary o).

(** ** Coordinates *)

(** What the helpers raise: [IndexError] of an empty set, [StopIteration] of a line in no range. *)
Inductive HunkError : Type := Hunk_index | Hunk_stop.

(** Runs of lines, as [_right_hunk_ranges] walks them. *)
Fixpoint hunks_from (start prev : Z) (ns : list Z) : list (Z * Z) :=
  match ns with
  | [] => [(start, prev)]
  | n :: ns' => if 1 <? n - prev then (start, prev) :: hunks_from n n ns' else hunks_from start n ns'
  end.
Definition right_hunk_ranges (shown : list Z) : result HunkError (list (Z * Z)) :=
  match sorted_numbers shown with
  | [] => Err Hunk_index
  | n :: ns => Ok (hunks_from n n ns)
  end.

(** [next(idx for idx, (h_start, h_end) in enumerate(hunks) if h_start <= line <= h_end)] *)
Fixpoint hunk_index (line : Z) (hunks : list (Z * Z)) (idx : nat) : result HunkError nat :=
  match hunks with
  | [] => Err Hunk_stop
  | h :: hunks' =>
      if (fst h <=? line) && (line <=? snd h) then Ok idx else hunk_index line hunks' (S idx)
  end.

Definition file_at (files : list ChangedFile) (path : pystr) : option ChangedFile :=
  find_first (λ f, ch_path f =?s path) files.

Definition z_mem (n : Z) (l : list Z) : bool := bool_decide (n ∈ l).

(** The lines [range(start, end + 1)]. *)
Definition lines_between (start_line end_line : Z) : list Z :=
  (λ i, start_line + Z.of_nat i) <$> seq 0 (Z.to_nat (end_line + 1 - start_line)).

(** [None] for a valid coordinate, the reason otherwise. *)
Definition validate_v2_coordinates (f : ReviewFindingV2) (changed_files original_files : list ChangedFile)
    (ignored_paths : gset pystr) : result HunkError (option pystr) :=
  let finding := f2_finding f in
  let path := fg_path finding in
  let line := fg_line finding in
  if bool_decide (path ∈ ignored_paths) then Ok (Some (u8 "ignored_file"))
  else
    match file_at original_files path with
    | None => Ok (Some (u8 "unknown_path"))
    | Some orig =>
        let lines := right_numbers (ch_lines orig) in
        if negb (z_mem line lines) then Ok (Some (u8 "line_absent"))
        else
          range ← (match fg_start_line finding with
                   | None => Ok None
                   | Some start =>
                       if negb (z_mem start lines) then Ok (Some (u8 "line_absent"))
                       else
                         hunks ← right_hunk_ranges lines;
                         start_hunk ← hunk_index start hunks 0;
                         end_hunk ← hunk_index line hunks 0;
                         Ok (if (start_hunk =? end_hunk)%nat then None
                             else Some (u8 "cross_hunk_range"))
                   end);
          match range with
          | Some reason => Ok (Some reason)
          | None =>
              match file_at changed_files path with
              | None => Ok (Some (u8 "anchor_not_visible"))
              | Some shown =>
                  let check_start := default line (fg_start_line finding) in
                  Ok (if py_any (λ n, negb (z_mem n (right_numbers (ch_lines shown))))
                           (lines_between check_start line)
                      then Some (u8 "anchor_not_visible") else None)
              end
          end
    end.

(** ** Attribution *)

Definition EVIDENCE_ROLES : list SourceRole := CODE_ROLES.

Definition revision_reason (b : ManifestBlock) (meta : PullRequestMeta) : option pystr :=
  match mb_revision b with
  | None => None
  | Some revision =>
      let left_side := bool_decide (mb_side b = Some Side_LEFT) in
      let expected := if left_side then pm_diff_old_sha meta else pm_head_sha meta in
      if truthy expected && bool_decide (Some revision = expected) then None
      else Some (if left_side
                 then u8 "revision_mismatch: block LEFT revision '" ++ revision
                      ++ u8 "' does not match PR diff_old_sha '" ++ str_or_None expected ++ u8 "'"
                 else u8 "revision_mismatch: block revision '" ++ revision
                      ++ u8 "' does not match PR revision '" ++ str_or_None expected ++ u8 "'")
  end.

Definition evidence_reason (m : CallManifest) (pr_meta : option PullRequestMeta) (ref : EvidenceRef)
  : option pystr :=
  match get_block m (er_block_id ref) with
  | None => Some (u8 "evidence_not_shown: evidence block '" ++ er_block_id ref
                  ++ u8 "' not found in manifest")
  | Some b =>
      if negb (bool_decide (mb_source_role b ∈ EVIDENCE_ROLES))
      then Some (u8 "evidence_source_disallowed: evidence block '" ++ er_block_id ref
                 ++ u8 "' has invalid role '" ++ SourceRole_value (mb_source_role b) ++ u8 "'")
      else
        match meta ← pr_meta; revision_reason b meta with
        | Some reason => Some reason
        | None =>
            if is_range_shown m (er_block_id ref) (er_start_line ref) (er_end_line ref) then None
            else Some (u8 "evidence_not_shown: lines " ++ str_of_Z (er_start_line ref) ++ u8 "-"
                       ++ str_of_Z (er_end_line ref) ++ u8 " not shown in block '"
                       ++ er_block_id ref ++ u8 "'")
        end
  end.

Fixpoint first_reason {A} (f : A → option pystr) (l : list A) : option pystr :=
  match l with
  | [] => None
  | a :: l' => match f a with Some r => Some r | None => first_reason f l' end
  end.

(** A policy document is citable when the prompt showed it with content. *)
Definition document_reason (m : CallManifest) (rule_name kind : pystr) (has_text : option bool)
  : option pystr :=
  let blocks := List.filter (λ b, mb_source_kind b =?s kind) (cm_blocks m) in
  let reason text := Some (u8 "evidence_source_disallowed: rule_name is '" ++ rule_name ++ u8 "' but "
                           ++ text) in
  if bool_decide (length blocks = 0%nat) then reason (u8 "no " ++ kind ++ u8 " in manifest")
  else if negb (py_any (λ b, 0 <? mb_shown_line_count b) blocks)
  then reason (kind ++ u8 " shows no lines")
  else match has_text with
       | Some false => reason (u8 "the document has no content")
       | _ => None
       end.

Definition rule_reason (m : CallManifest) (snapshot : option PolicySnapshot) (rule_name : option pystr)
  : option pystr :=
  match rule_name with
  | None => None
  | Some r =>
      if r =?s u8 ".review/rules.md"
      then document_reason m r (u8 "repository_rules") (has_custom_rules <$> snapshot)
      else if r =?s u8 "AGENTS.md"
      then document_reason m r (u8 "project_conventions_document") (has_agents_doc <$> snapshot)
      else if startswith r SERVICE_DEFAULTS_PREFIX
              && negb (py_any (λ b, bool_decide (mb_source_role b = Role_service_defaults)) (cm_blocks m))
      then Some (u8 "evidence_source_disallowed: rule_name is '" ++ r
                 ++ u8 "' but no service_defaults in manifest")
      else None
  end.

Definition validate_v2_attribution (f : ReviewFindingV2) (m : CallManifest)
    (pr_meta : option PullRequestMeta) (snapshot : option PolicySnapshot) : option pystr :=
  match first_reason (evidence_reason m pr_meta) (f2_evidence_refs f) with
  | Some reason => Some reason
  | None => rule_reason m snapshot (fg_rule_name (f2_finding f))
  end.

(** ** Files the model saw in part *)

Definition sent_file (sent : list ChangedFile) (path : pystr) : option ChangedFile :=
  find_first (λ f, ch_path f =?s path) (rev sent).

Definition cut_short (f : ChangedFile) : bool :=
  match ch_total_lines f with Some t => py_len (ch_lines f) <? t | None => false end.

Definition is_incomplete (sent : list ChangedFile) (f : ChangedFile) : bool :=
  is_supported_path (ch_path f)
  && match sent_file sent (ch_path f) with
     | None => true
     | Some shown =>
         negb (bool_decide (ch_lines shown = ch_lines f)) || cut_short f || cut_short shown
     end.

Definition incomplete_review_paths (original sent : list ChangedFile) : list pystr :=
  ch_path <$> List.filter (is_incomplete sent) original.

(** ** Coordinates mean visible lines *)

Lemma hunks_from_runs start prev ns :
  StronglySorted Z.lt (prev :: ns) → hunks_from start prev ns = runs_from start prev ns.
Proof.
  revert start prev. induction ns as [|m ns IH]; intros start prev Hs; [done|].
  apply StronglySorted_inv in Hs as [Hs Hlt]. apply Forall_cons in Hlt as [Hpm _].
  cbn [hunks_from runs_from]. destruct (Z.ltb_spec 1 (m - prev)), (Z.eqb_spec m (prev + 1)); try lia.
  - by rewrite IH.
  - by apply IH.
Qed.

(** Two lines of the set are in one run when every line between them is in the set. *)
Lemma hunk_index_spec ns start prev a b idx :
  start ≤ prev → StronglySorted Z.lt (prev :: ns) → a ≤ b →
  (start ≤ a ≤ prev ∨ a ∈ ns) → (start ≤ b ≤ prev ∨ b ∈ ns) →
  ∃ i j, hunk_index a (runs_from start prev ns) idx = Ok i
         ∧ hunk_index b (runs_from start prev ns) idx = Ok j ∧ (idx ≤ i)%nat ∧ (idx ≤ j)%nat
         ∧ (i = j ↔ ∀ n, a ≤ n ≤ b → start ≤ n ≤ prev ∨ n ∈ ns).
Proof.
  revert start prev a b idx. induction ns as [|m ns IH]; intros start prev a b idx Hsp Hs Hab Ha Hb.
  { assert (start ≤ a ≤ prev ∧ start ≤ b ≤ prev) as [Ha' Hb'] by set_solver. exists idx, idx.
    cbn. rewrite !(proj2 (Z.leb_le _ _)) by lia. split_and!; try done. split; [|done]. intros _ n Hn. lia. }
  apply StronglySorted_inv in Hs as [Hs Hlt]. apply Forall_cons in Hlt as [Hpm Hlt].
  assert (∀ n, n ∈ ns → m < n) as Hmn.
  { apply StronglySorted_inv in Hs as [_ Hm]. rewrite Forall_forall in Hm. auto. }
  cbn [runs_from]. destruct (Z.eqb_spec m (prev + 1)) as [->|Hne].
  - assert (∀ n, (start ≤ n ≤ prev ∨ n ∈ prev + 1 :: ns) ↔ (start ≤ n ≤ prev + 1 ∨ n ∈ ns)) as Heq.
    { intros n. rewrite elem_of_cons. split; [intros [?|[->|?]]|intros [?|?]]; try by right.
      - left; lia.
      - left; lia.
      - destruct (decide (n = prev + 1)); [right; by left|left; lia].
      - right; by right. }
    rewrite Heq in Ha, Hb. setoid_rewrite Heq. apply IH; [lia|done..].
  - cbn [hunk_index fst snd].
    assert (∀ n, n ∈ m :: ns → m ≤ n) as Hge by (intros n [->|?%Hmn]%elem_of_cons; lia).
    destruct (Z.leb_spec start a), (Z.leb_spec a prev); cbn [andb].
    + destruct (Z.leb_spec start b), (Z.leb_spec b prev); cbn [andb]; try lia.
      * exists idx, idx. split_and!; try done. split; [|done]. intros _ n Hn. lia.
      * destruct Hb as [?|Hb]; [lia|]. pose proof (Hge b Hb).
        destruct (IH m m b b (S idx) ltac:(lia) Hs (Z.le_refl b)) as (i & j & Hi & _ & Hle & _);
          [apply elem_of_cons in Hb as [->|?]; [left; lia|by right]..|].
        exists idx, i. split_and!; [done|done|done|lia|]. split; [lia|].
        intros Hall. destruct (Hall (prev + 1) ltac:(lia)) as [?|?%Hge]; lia.
    + destruct Ha as [?|Ha]; [lia|]. pose proof (Hge a Ha). destruct Hb as [?|Hb]; [lia|].
      destruct (Z.leb_spec start b), (Z.leb_spec b prev); cbn [andb]; try lia.
      destruct (IH m m a b (S idx) ltac:(lia) Hs Hab) as (i & j & Hi & Hj & Hli & Hlj & Hiff);
        [rewrite elem_of_cons in Ha; destruct Ha as [->|?]; [left; lia|by right]
        |rewrite elem_of_cons in Hb; destruct Hb as [->|?]; [left; lia|by right]|].
      exists i, j. split_and!; [done|done|lia|lia|]. rewrite Hiff.
      split; intros Hall n Hn; destruct (Hall n Hn) as [?|Hin].
      * right. replace n with m by lia. left.
      * right. by right.
      * exfalso. lia.
      * apply elem_of_cons in Hin as [->|?]; [left; lia|by right].
    + destruct Ha as [?|Ha%Hge]; lia.
    + lia.
Qed.

(** A file of a list shows the lines from [a] to [b] on its new side. *)
Definition visible (files : list ChangedFile) (path : pystr) (a b : Z) : Prop :=
  ∃ f, file_at files path = Some f ∧ ∀ n, a ≤ n ≤ b → line_shown f n.

Section Coordinates.
Context (f : ReviewFindingV2) (changed original : list ChangedFile) (ignored : gset pystr).
Abbreviation path := (fg_path (f2_finding f)).
Abbreviation last_line := (fg_line (f2_finding f)).
Abbreviation first_line := (default last_line (fg_start_line (f2_finding f))).

(** The answer for a finding, by what its anchor is. *)
Inductive coordinate_verdict : option pystr → Prop :=
| CV_ignored : path ∈ ignored → coordinate_verdict (Some (u8 "ignored_file"))
| CV_unknown :
    path ∉ ignored → file_at original path = None → coordinate_verdict (Some (u8 "unknown_path"))
| CV_absent orig :
    path ∉ ignored → file_at original path = Some orig →
    ¬ line_shown orig last_line ∨ ¬ line_shown orig first_line →
    coordinate_verdict (Some (u8 "line_absent"))
| CV_cross orig n :
    path ∉ ignored → file_at original path = Some orig →
    line_shown orig first_line → line_shown orig last_line →
    first_line < n < last_line → ¬ line_shown orig n →
    coordinate_verdict (Some (u8 "cross_hunk_range"))
| CV_hidden :
    path ∉ ignored → visible original path first_line last_line →
    ¬ visible changed path first_line last_line →
    coordinate_verdict (Some (u8 "anchor_not_visible"))
| CV_valid :
    path ∉ ignored → visible original path first_line last_line →
    visible changed path first_line last_line → coordinate_verdict None.

Lemma z_mem_shown (g : ChangedFile) n : z_mem n (right_numbers (ch_lines g)) = true ↔ line_shown g n.
Proof using. unfold z_mem. by rewrite bool_decide_eq_true, right_numbers_spec. Qed.

Lemma lines_between_spec a b n : n ∈ lines_between a b ↔ a ≤ n ≤ b.
Proof using.
  unfold lines_between. rewrite list_elem_of_fmap. setoid_rewrite elem_of_seq. split.
  - intros (i & -> & Hi). lia.
  - intros Hn. exists (Z.to_nat (n - a)). lia.
Qed.

(** The last check: the shown file has every line of the anchor. *)
Lemma hidden_lines (g : ChangedFile) a b :
  py_any (λ n, negb (z_mem n (right_numbers (ch_lines g)))) (lines_between a b) = false
  ↔ ∀ n, a ≤ n ≤ b → line_shown g n.
Proof using.
  unfold py_any. rewrite <- not_true_iff_false, existsb_exists. split.
  - intros H n Hn. apply z_mem_shown. apply not_false_iff_true. intros Hz. apply H. exists n.
    rewrite <- list_elem_of_In, lines_between_spec, Hz. done.
  - intros H (n & Hn & Hz). rewrite <- list_elem_of_In, lines_between_spec in Hn.
    by rewrite (proj2 (z_mem_shown g n) (H n Hn)) in Hz.
Qed.

Lemma missing_line (g : ChangedFile) a b :
  ¬ (∀ n, a ≤ n ≤ b → line_shown g n) → ∃ n, a ≤ n ≤ b ∧ ¬ line_shown g n.
Proof using.
  rewrite <- hidden_lines, not_false_iff_true. unfold py_any. rewrite existsb_exists.
  intros (n & Hn & Hz). rewrite <- list_elem_of_In, lines_between_spec in Hn. exists n. split; [done|].
  rewrite <- z_mem_shown. by destruct (z_mem _ _).
Qed.

(** The check of a range in the original file. *)
Lemma v2_hunk_spec (orig : ChangedFile) a b :
  a ≤ b → line_shown orig a → line_shown orig b →
  ∃ hunks i j, right_hunk_ranges (right_numbers (ch_lines orig)) = Ok hunks
    ∧ hunk_index a hunks 0 = Ok i ∧ hunk_index b hunks 0 = Ok j
    ∧ (i = j ↔ ∀ n, a ≤ n ≤ b → line_shown orig n).
Proof using.
  intros Hab Ha Hb. unfold line_shown in *. rewrite <- right_numbers_spec in Ha, Hb.
  setoid_rewrite <- right_numbers_spec.
  destruct (sorted_numbers_spec (right_numbers (ch_lines orig))) as [Hs Hin].
  setoid_rewrite <- Hin. rewrite <- Hin in Ha, Hb. unfold right_hunk_ranges.
  destruct (sorted_numbers _) as [|m ns]; [by apply not_elem_of_nil in Ha|].
  assert (∀ n, (m ≤ n ≤ m ∨ n ∈ ns) ↔ n ∈ m :: ns) as Heq.
  { intros n. rewrite elem_of_cons. split; (intros [?|?]; [left; lia|by right]). }
  setoid_rewrite <- Heq. rewrite <- Heq in Ha, Hb. rewrite (hunks_from_runs m m ns Hs).
  destruct (hunk_index_spec ns m m a b 0 ltac:(lia) Hs Hab Ha Hb) as (i & j & Hi & Hj & _ & _ & Hiff).
  exists (runs_from m m ns), i, j. by split_and!.
Qed.

Lemma coordinates_spec :
  (∀ s, fg_start_line (f2_finding f) = Some s → s < last_line) →
  ∃ r, validate_v2_coordinates f changed original ignored = Ok r ∧ coordinate_verdict r.
Proof using.
  intros Hstart. unfold validate_v2_coordinates.
  case_bool_decide as Hig; [eexists; split; [done|by constructor]|].
  destruct (file_at original path) as [orig|] eqn:Ho; [|eexists; split; [done|by constructor]].
  destruct (z_mem last_line (right_numbers (ch_lines orig))) eqn:Hl; cycle 1.
  { eexists. split; [done|]. apply (CV_absent orig); try done. left. rewrite <- z_mem_shown. congruence. }
  apply z_mem_shown in Hl. cbn [negb].
  assert (∀ r : option pystr,
    (r = None → ∀ n, first_line ≤ n ≤ last_line → line_shown orig n) →
    (∀ reason, r = Some reason → coordinate_verdict r) →
    ∃ v, match r with
         | Some reason => Ok (Some reason)
         | None =>
             match file_at changed path with
             | None => Ok (Some (u8 "anchor_not_visible"))
             | Some shown =>
                 Ok (if py_any (λ n, negb (z_mem n (right_numbers (ch_lines shown))))
                          (lines_between first_line last_line)
                     then Some (u8 "anchor_not_visible") else None)
             end
         end = Ok (E := HunkError) v ∧ coordinate_verdict v) as Hrest.
  { intros [reason|] Hall Hr; [eexists; split; [done|by eapply Hr]|].
    assert (visible original path first_line last_line) as Hvis by (exists orig; auto).
    destruct (file_at changed path) as [g|] eqn:Hg.
    - eexists. split; [done|]. destruct (py_any _ _) eqn:Hany.
      + apply CV_hidden; try done. intros (g' & Hg' & Hn). rewrite Hg in Hg'. injection Hg' as <-.
        rewrite (proj2 (hidden_lines g _ _) Hn) in Hany. done.
      + apply CV_valid; try done. exists g. split; [done|]. by apply hidden_lines.
    - eexists. split; [done|]. apply CV_hidden; try done. intros (g & Hg' & _). congruence. }
  destruct (fg_start_line (f2_finding f)) as [start|] eqn:Hs; cbn [default from_option] in *; unfold id in *.
  - specialize (Hstart start eq_refl).
    destruct (z_mem start (right_numbers (ch_lines orig))) eqn:Hf; cbn [negb]; cycle 1.
    { eexists. split; [done|]. apply (CV_absent orig); try done. right. rewrite Hs. cbn. rewrite <- z_mem_shown. congruence. }
    apply z_mem_shown in Hf.
    destruct (v2_hunk_spec orig start last_line ltac:(lia) Hf Hl) as (hunks & i & j & -> & Hi & Hj & Hiff).
    cbn [mbind result_bind]. rewrite Hi. cbn [mbind result_bind]. rewrite Hj. cbn [mbind result_bind].
    destruct (Nat.eqb_spec i j) as [E|E];
      [apply (Hrest None)|apply (Hrest (Some (u8 "cross_hunk_range")))]; try done.
    + intros _. by apply Hiff.
    + intros reason _. destruct (missing_line orig start last_line) as (n & Hn & Hm); [tauto|].
      assert (start < n < last_line) as Hlt.
      { assert (n ≠ start) by (intros ->; done). assert (n ≠ last_line) by (intros ->; done). lia. }
      apply (CV_cross orig n); rewrite ?Hs; done.
  - cbn [mbind result_bind]. apply (Hrest None); [|done]. intros _ n Hn. by replace n with last_line by lia.
Qed.

(** C36.  The coordinate check answers for every finding: it accepts exactly the anchors of files
    that are not ignored of which every line is a new-side line of the original diff and of what the
    model was shown, and otherwise names the first thing that is wrong: an ignored or unknown file, an
    end of the anchor that is not in the diff, a gap inside it, or lines the model did not see. *)
Theorem v2_coordinates_exact :
  finding_v2_valid f = true →
  ∃ r, validate_v2_coordinates f changed original ignored = Ok r ∧ coordinate_verdict r.
Proof using.
  intros Hv. apply coordinates_spec. intros s Hs. unfold finding_v2_valid in Hv.
  rewrite !andb_true_iff in Hv. destruct Hv as [[[[[Hv _] _] _] _] _].
  unfold finding_valid, validate_range in Hv. rewrite Hs, !andb_true_iff in Hv.
  destruct Hv as [_ [[Hv _] _]]. by apply Z.ltb_lt.
Qed.
End Coordinates.

(** ** Attribution means shown evidence *)

Lemma first_reason_none {A} (g : A → option pystr) l : first_reason g l = None ↔ Forall (λ a, g a = None) l.
Proof.
  induction l as [|a l IH]; cbn [first_reason]; [done|]. rewrite Forall_cons, <- IH.
  destruct (g a); naive_solver.
Qed.

(** One reference: a code block of the manifest, at the revision of its side, with its lines shown. *)
Definition evidence_shown (m : CallManifest) (pr_meta : option PullRequestMeta) (ref : EvidenceRef)
  : Prop :=
  ∃ b, get_block m (er_block_id ref) = Some b ∧ mb_source_role b ∈ CODE_ROLES
    ∧ (∀ meta r, pr_meta = Some meta → mb_revision b = Some r →
         r ≠ [] ∧ (if bool_decide (mb_side b = Some Side_LEFT) then pm_diff_old_sha meta
                   else pm_head_sha meta) = Some r)
    ∧ is_range_shown m (er_block_id ref) (er_start_line ref) (er_end_line ref) = true.

Lemma evidence_reason_none m pr_meta ref : evidence_reason m pr_meta ref = None ↔ evidence_shown m pr_meta ref.
Proof.
  unfold evidence_reason, evidence_shown. destruct (get_block m (er_block_id ref)) as [b|]; [|naive_solver].
  change EVIDENCE_ROLES with CODE_ROLES.
  destruct (bool_decide_reflect (mb_source_role b ∈ CODE_ROLES)) as [Hr|Hr]; cbn [negb]; [|naive_solver].
  assert ((meta ← pr_meta; revision_reason b meta) = None ↔
    ∀ meta r, pr_meta = Some meta → mb_revision b = Some r →
      r ≠ [] ∧ (if bool_decide (mb_side b = Some Side_LEFT) then pm_diff_old_sha meta
                else pm_head_sha meta) = Some r) as Hrev.
  { destruct pr_meta as [meta|]; [|naive_solver]. cbn [mbind option_bind]. unfold revision_reason.
    destruct (mb_revision b) as [rev|]; [|naive_solver]. cbv zeta.
    set (expected := if bool_decide (mb_side b = Some Side_LEFT) then _ else _).
    destruct (truthy expected) eqn:Ht, (bool_decide_reflect (Some rev = expected)) as [He|He]; cbn [andb].
    - split; [|done]. intros _ meta' r [= <-] [= <-]. fold expected. rewrite <- He in *.
      split; [by intros ->|done].
    - split; [done|]. intros H. destruct (H meta rev eq_refl eq_refl) as [_ H']. fold expected in H'. congruence.
    - split; [done|]. intros H. destruct (H meta rev eq_refl eq_refl) as [Hne H']. fold expected in H'.
      rewrite H' in Ht. by destruct rev.
    - split; [done|]. intros H. destruct (H meta rev eq_refl eq_refl) as [_ H']. fold expected in H'. congruence. }
  destruct (meta ← pr_meta; revision_reason b meta) as [reason|].
  - split; [done|]. intros (b' & [= <-] & _ & H & _). by apply Hrev in H.
  - destruct (is_range_shown m _ _ _); [|naive_solver]. split; [|done]. intros _.
    exists b. split_and!; try done. by apply Hrev.
Qed.

(** A rule that may be named: a policy document shown with content, or the defaults of the manifest. *)
Definition rule_citable (m : CallManifest) (snapshot : option PolicySnapshot) (rule_name : pystr) : Prop :=
  let shown kind := ∃ b, b ∈ cm_blocks m ∧ mb_source_kind b = kind ∧ 0 < mb_shown_line_count b in
  if rule_name =?s u8 ".review/rules.md"
  then shown (u8 "repository_rules") ∧ ∀ s, snapshot = Some s → has_custom_rules s = true
  else if rule_name =?s u8 "AGENTS.md"
  then shown (u8 "project_conventions_document") ∧ ∀ s, snapshot = Some s → has_agents_doc s = true
  else startswith rule_name SERVICE_DEFAULTS_PREFIX = true →
       ∃ b, b ∈ cm_blocks m ∧ mb_source_role b = Role_service_defaults.

Lemma document_reason_none m r kind has_text :
  document_reason m r kind has_text = None ↔
  (∃ b, b ∈ cm_blocks m ∧ mb_source_kind b = kind ∧ 0 < mb_shown_line_count b) ∧ has_text ≠ Some false.
Proof.
  unfold document_reason. cbv zeta. set (blocks := List.filter _ _).
  assert (py_any (λ b, 0 <? mb_shown_line_count b) blocks = true ↔
          ∃ b, b ∈ cm_blocks m ∧ mb_source_kind b = kind ∧ 0 < mb_shown_line_count b) as Hany.
  { unfold py_any. rewrite existsb_exists. subst blocks. setoid_rewrite filter_In.
    setoid_rewrite <- list_elem_of_In. setoid_rewrite str_eqb_eq. setoid_rewrite Z.ltb_lt. naive_solver. }
  case_bool_decide as Hl.
  { split; [done|]. intros [H _]. apply Hany in H. by rewrite (nil_length_inv _ Hl) in H. }
  destruct (py_any _ blocks); cbn [negb].
  - destruct has_text as [[]|]; naive_solver.
  - split; [done|]. intros [H _]. by apply Hany in H.
Qed.

Lemma rule_reason_none m snapshot rule_name :
  rule_reason m snapshot rule_name = None ↔ ∀ r, rule_name = Some r → rule_citable m snapshot r.
Proof.
  unfold rule_reason, rule_citable. destruct rule_name as [r|]; [|naive_solver]. cbv zeta.
  assert (∀ (h : PolicySnapshot → bool),
    (h <$> snapshot ≠ Some false ↔ ∀ s, snapshot = Some s → h s = true)) as Hh.
  { intros h. destruct snapshot as [s|]; cbn; [|naive_solver]. destruct (h s) eqn:E; naive_solver congruence. }
  split.
  - intros H r' [= <-]. destruct (r =?s _); [by rewrite document_reason_none, Hh in H|].
    destruct (r =?s _); [by rewrite document_reason_none, Hh in H|]. intros Hp. rewrite Hp in H.
    destruct (py_any _ _) eqn:Hany; [|done]. apply existsb_exists in Hany as (b & Hb & Hd).
    exists b. by rewrite list_elem_of_In, <- (bool_decide_eq_true _).
  - intros H. specialize (H r eq_refl). destruct (r =?s _); [by rewrite document_reason_none, Hh|].
    destruct (r =?s _); [by rewrite document_reason_none, Hh|].
    destruct (startswith r SERVICE_DEFAULTS_PREFIX); [|done]. destruct (H eq_refl) as (b & Hb & Hd).
    cbn [andb]. replace (py_any _ _) with true; [done|]. symmetry. apply existsb_exists. exists b.
    rewrite <- list_elem_of_In. split; [done|]. by apply bool_decide_eq_true.
Qed.

(** Attribution is accepted exactly when every reference of the finding names a code block of
    the call manifest, at the revision of its side of the pull request, with all its lines shown, and
    the rule it names, if any, is a document shown with content or the defaults of the manifest. *)
Theorem v2_attribution_exact f m pr_meta snapshot :
  validate_v2_attribution f m pr_meta snapshot = None ↔
  Forall (evidence_shown m pr_meta) (f2_evidence_refs f)
  ∧ ∀ r, fg_rule_name (f2_finding f) = Some r → rule_citable m snapshot r.
Proof.
  unfold validate_v2_attribution. rewrite <- rule_reason_none.
  rewrite <- (Forall_iff _ _ _ (evidence_reason_none m pr_meta)), <- first_reason_none.
  destruct (first_reason _ _); naive_solver.
Qed.

(** A finding on the two adjacent lines of a file with a gap. *)
Definition sample_finding (line : Z) : ReviewFindingV2 :=
  mkReviewFindingV2
    (mkReviewFinding (u8 "a.py") line (Some 1) Sev_high Cat_correctness (u8 "Check the guard")
       (u8 "The guard is missing.") None (1 # 1) None)
    [mkEvidenceRef (u8 "file-a-py") 1 2].

Lemma v2_coordinates_exact_witness :
  ∃ r, validate_v2_coordinates (sample_finding 2) [gap_file] [gap_file] ∅ = Ok r
       ∧ coordinate_verdict (sample_finding 2) [gap_file] [gap_file] ∅ r.
Proof.
  apply (v2_coordinates_exact (sample_finding 2) [gap_file] [gap_file] ∅). vm_compute. reflexivity.
Defined.

Example coordinates_gap :
  validate_v2_coordinates (sample_finding 7) [gap_file] [gap_file] ∅ = Ok (Some (u8 "cross_hunk_range")).
Proof. vm_compute. reflexivity. Qed.
