(* ===== verification/ReviewPath.v ===== *)
(** * Which review path a run takes ([review_path.py]) *)

From Stdlib Require Import String.
From stdpp Require Import numbers sets.
From S2P Require Import Prelude PyText UnifiedDiff DiffMap RunFailures PolicyErrors.
From S2P Require Import PolicyDocuments PolicySnapshots.

Definition REVIEW_SYSTEM_KEY : pystr := u8 "review.system".
Definition SNAPSHOT_REVIEW_PROMPT_VERSIONS : list pystr := [u8 "v4"; u8 "v5"].
Definition SNAPSHOT_REVIEW_PROVIDERS : list pystr := [u8 "github"; u8 "gitlab"; u8 "bitbucket"].

Record ReviewBinding : Type := mkReviewBinding {
  bi_prompt_version_id : option UUID;
  bi_key : pystr;
  bi_review_system_version : pystr;
  bi_provider : option pystr
}.

Definition takes_snapshot_path (b : ReviewBinding) : bool :=
  (bi_key b =?s REVIEW_SYSTEM_KEY)
  && str_mem (bi_review_system_version b) SNAPSHOT_REVIEW_PROMPT_VERSIONS.

Definition refused (b : ReviewBinding) (reason : pystr) : PolicyError :=
  policy_error SNAPSHOT_INTEGRITY_ERROR
    (u8 "Review prompt " ++ bi_review_system_version b ++ u8 " takes the policy snapshot path, but "
     ++ reason) no_args.

Definition NO_SNAPSHOT : pystr := u8 "no policy snapshot was established for the attempt".

Section Path.
Context (repr : pystr → pystr).

Definition require_served (b : ReviewBinding) : result PolicyError unit :=
  match bi_provider b with
  | None => Err (refused b (u8 "the context stage does not serve a run with no origin provider"))
  | Some p =>
      raise_when (negb (str_mem p SNAPSHOT_REVIEW_PROVIDERS))
        (refused b (u8 "the context stage does not serve the provider " ++ repr p ++ u8 " yet"))
  end.

Definition snapshot_for_review (b : ReviewBinding) (snapshot : option PolicySnapshot)
  : result PolicyError (option PolicySnapshot) :=
  if negb (takes_snapshot_path b) then Ok None
  else
    _ ← require_served b;
    match snapshot with
    | None => Err (refused b NO_SNAPSHOT)
    | Some s =>
        if negb (is_ready_for_llm s)
        then Err (refused b (u8 "the policy snapshot is not ready for the LLM"))
        else
          match bi_prompt_version_id b with
          | Some id =>
              if pins_review_prompt (sn_prompt_bindings s) id then Ok (Some s)
              else Err (refused b (u8 "the policy snapshot pins another review prompt"))
          | None => Err (refused b (u8 "the policy snapshot pins another review prompt"))
          end
    end.

Definition require_served_provider (b : ReviewBinding) : result PolicyError unit :=
  if takes_snapshot_path b then require_served b else Ok tt.

Definition require_servable_without_snapshot (b : ReviewBinding) : result PolicyError unit :=
  if takes_snapshot_path b then _ ← require_served b; Err (refused b NO_SNAPSHOT) else Ok tt.

(** A run is served with a snapshot exactly when its prompt asks for one, its provider is served and
    the snapshot is ready and pins the same prompt; it takes the legacy path only when its prompt does
    not ask for a snapshot, and in every other case it is refused. *)
Theorem snapshot_for_review_exact b snapshot :
  match snapshot_for_review b snapshot with
  | Ok None => takes_snapshot_path b = false
  | Ok (Some s) =>
      takes_snapshot_path b = true ∧ snapshot = Some s ∧ is_ready_for_llm s = true
      ∧ (∃ p, bi_provider b = Some p ∧ p ∈ SNAPSHOT_REVIEW_PROVIDERS)
      ∧ (∃ id, bi_prompt_version_id b = Some id ∧ pins_review_prompt (sn_prompt_bindings s) id = true)
  | Err e => takes_snapshot_path b = true ∧ pe_code e = SNAPSHOT_INTEGRITY_ERROR
  end.
Proof using.
  unfold snapshot_for_review. destruct (takes_snapshot_path b); [|done]. cbn [negb].
  unfold require_served. destruct (bi_provider b) as [p|]; [|done].
  unfold raise_when. destruct (str_mem p SNAPSHOT_REVIEW_PROVIDERS) eqn:Hp; [|done]. cbn [negb mbind result_bind].
  destruct snapshot as [s|]; [|done]. destruct (is_ready_for_llm s) eqn:Hr; [|done]. cbn [negb].
  destruct (bi_prompt_version_id b) as [id|]; [|done].
  destruct (pins_review_prompt (sn_prompt_bindings s) id) eqn:Hpin; [|done].
  apply str_mem_In in Hp. split_and!; try done; [exists p|exists id]; split; try done.
  by apply list_elem_of_In.
Qed.
End Path.
