(* ===== verification/Reflection.v ===== *)
(** * The reflection pass ([reflection_pass.py])

    The verifier's prompt with its fit, the checks of its answer and the selection of the findings it
    supports.  Prompt resources are read by an argument; the model is an argument that answers or
    raises. *)

From Stdlib Require Import String QArith.
From stdpp Require Import numbers gmap sets.
From S2P Require Import Prelude PyText PyHash UnifiedDiff DiffMap Verdict RunFailures PolicyErrors.
From S2P Require Import ReviewIgnore PolicyDocuments PolicySnapshots VcsInput RunCoverage Findings.
From S2P Require Import PromptRender PromptBudget Manifests AnswersV2.
#[local] Open Scope Z_scope.

#[export] Instance ContextBlock_eq_dec : EqDecision ContextBlock.
Proof. solve_decision. Defined.

(** ** The answer of the verifier *)

Inductive VerificationStatus : Type := Ver_supported | Ver_contradicted | Ver_insufficient_context.
#[export] Instance VerificationStatus_eq_dec : EqDecision VerificationStatus.
Proof. solve_decision. Defined.
Definition VerificationStatus_value (s : VerificationStatus) : pystr :=
  match s with
  | Ver_supported => u8 "supported"
  | Ver_contradicted => u8 "contradicted"
  | Ver_insufficient_context => u8 "insufficient_context"
  end.

(** [RequirementRef] of [review_output.py] *)
Record RequirementRef : Type := mkRequirementRef {
  qr_block_id : pystr;
  qr_start_line : Z;
  qr_end_line : Z;
  qr_check_id : option pystr
}.
Definition requirement_valid (r : RequirementRef) : bool :=
  between 1 128 (py_len (qr_block_id r)) && (1 <=? qr_start_line r) && (1 <=? qr_end_line r)
  && match qr_check_id r with Some c => between 1 128 (py_len c) && encodable c | None => true end
  && (qr_start_line r <=? qr_end_line r) && encodable (qr_block_id r).

Record VerificationDecision : Type := mkVerificationDecision {
  vd_candidate_id : pystr;
  vd_status : VerificationStatus;
  vd_reason : pystr;
  vd_evidence_refs : list EvidenceRef;
  vd_requirement_refs : list RequirementRef
}.
Definition needs_evidence (s : VerificationStatus) : bool :=
  match s with Ver_supported | Ver_contradicted => true | Ver_insufficient_context => false end.
Definition decision_valid (d : VerificationDecision) : bool :=
  between 1 64 (py_len (vd_candidate_id d)) && between 1 600 (py_len (vd_reason d))
  && (py_len (vd_evidence_refs d) <=? 8) && py_all evidence_valid (vd_evidence_refs d)
  && (py_len (vd_requirement_refs d) <=? 8) && py_all requirement_valid (vd_requirement_refs d)
  && py_all encodable [vd_candidate_id d; vd_reason d]
  && negb (needs_evidence (vd_status d) && (py_len (vd_evidence_refs d) <? 1)).

(** [VerificationOutput]: its decisions *)
Definition verification_valid (decisions : list VerificationDecision) : bool :=
  between 1 10 (py_len decisions) && py_all decision_valid decisions.

Record CandidateFindingItem : Type := mkCandidateFindingItem {
  ci_candidate_id : pystr;
  ci_finding : ReviewFindingV2
}.
Abbreviation ci_v1 c := (f2_finding (ci_finding c)).

(** ** What the pass raises

    A collaborator's exception that the pass lets through is [VE_python] with its class. *)
Inductive VerifyExc : Type :=
| VE_policy (e : PolicyError)
| VE_encode
| VE_index
| VE_run (f : RunFailure)
| VE_cancelled
| VE_invalid_output (message : pystr)
| VE_unavailable (message : pystr)
| VE_python (class_name : pystr).

Definition of_prompt (e : PromptError) : VerifyExc :=
  match e with PR_policy p => VE_policy p | PR_encode => VE_encode end.
Definition of_ignore (e : IgnoreError) : VerifyExc :=
  match e with IE_policy p => VE_policy p | IE_index => VE_index | IE_encode => VE_encode end.

(** ** The code the verifier is shown *)

Definition verifier_code_context (files : list ChangedFile) (excerpts : list ContextBlock)
    (retrieved : list RetrievedBlock) : result PromptError pystr :=
  changed ← render_changed_files true files;
  excerpts ← (match excerpts with
              | [] => Ok []
              | _ => text ← render_context_excerpts excerpts; Ok [text]
              end);
  retrieved ← (match retrieved with
               | [] => Ok []
               | _ => text ← render_retrieved_excerpts retrieved; Ok [text]
               end);
  Ok (container (u8 "code_context") (lines_text (changed :: excerpts ++ retrieved))).

Definition protect (path : pystr) (lines : list Z) (m : gmap pystr (gset Z)) : gmap pystr (gset Z) :=
  <[path := default ∅ (m !! path) ∪ list_to_set lines]> m.

(** The lines a reference names in each file. *)
Fixpoint protect_ref (files : list ChangedFile) (ref : EvidenceRef) (m : gmap pystr (gset Z))
  : result PromptError (gmap pystr (gset Z)) :=
  match files with
  | [] => Ok m
  | f :: files' =>
      block_id ← file_block_id (ch_path f);
      protect_ref files' ref
        (if block_id =?s er_block_id ref
         then protect (ch_path f) (lines_between (er_start_line ref) (er_end_line ref)) m else m)
  end.

Fixpoint protect_refs (files : list ChangedFile) (refs : list EvidenceRef) (m : gmap pystr (gset Z))
  : result PromptError (gmap pystr (gset Z)) :=
  match refs with
  | [] => Ok m
  | ref :: refs' => m ← protect_ref files ref m; protect_refs files refs' m
  end.

Fixpoint protected_lines (files : list ChangedFile) (candidates : list CandidateFindingItem)
    (m : gmap pystr (gset Z)) : result PromptError (gmap pystr (gset Z)) :=
  match candidates with
  | [] => Ok m
  | cand :: rest =>
      let f := ci_v1 cand in
      let own := fg_line f :: match fg_start_line f with
                              | Some s => lines_between s (fg_line f)
                              | None => []
                              end in
      m ← protect_refs files (f2_evidence_refs (ci_finding cand)) (protect (fg_path f) own m);
      protected_lines files rest m
  end.

Definition cited_ids (candidates : list CandidateFindingItem) : list pystr :=
  candidates ≫= λ c, er_block_id <$> f2_evidence_refs (ci_finding c).

Definition cited_excerpts (blocks : list ContextBlock) (candidates : list CandidateFindingItem)
  : list ContextBlock :=
  List.filter (λ b, str_mem (cb_block_id b) (cited_ids candidates)) blocks.

Definition cited_retrieved (blocks : list RetrievedBlock) (candidates : list CandidateFindingItem)
  : list RetrievedBlock :=
  let cited := List.filter (λ b, str_mem (rb_block_id b) (cited_ids candidates)) blocks in
  let read := definitions_read_by blocks cited in
  List.filter (λ b, block_mem b cited || block_mem b read) blocks.

Definition with_lines (f : ChangedFile) (indices : list nat) : ChangedFile :=
  if (length indices =? length (ch_lines f))%nat then f
  else mkChangedFile (ch_path f) (ch_status f) (omap (λ i, ch_lines f !! i) indices)
         (Some (match ch_total_lines f with
                | Some t => if t =? 0 then py_len (ch_lines f) else t
                | None => py_len (ch_lines f)
                end)).

(** The shown lines of each kept file, in the order of the files. *)
Abbreviation kept_lines := (list (option (list nat))) (only parsing).

Fixpoint chosen (files : list ChangedFile) (kept : kept_lines) : list ChangedFile :=
  match files, kept with
  | f :: files', Some indices :: kept' => with_lines f indices :: chosen files' kept'
  | _ :: files', None :: kept' => chosen files' kept'
  | _, _ => []
  end.

Definition sorted_indices (l : list nat) : list nat := py_sorted Nat.leb l.
Definition nat_mem (n : nat) (l : list nat) : bool := bool_decide (n ∈ l).
Definition excerpt_mem (b : ContextBlock) (l : list ContextBlock) : bool := bool_decide (b ∈ l).
Definition level_is (l : ContextLevel) (b : ContextBlock) : bool := bool_decide (cb_level b = l).

(** ** The fit of the verifier's code *)

Section Fit.
Context (fits : list ChangedFile → list ContextBlock → list RetrievedBlock → result PromptError bool).
Context (files : list ChangedFile) (protected : gmap pystr (gset Z)).

(** [widest]: [base] and the longest prefix of [extra] that fits, in file order. *)
Definition widest (index : nat) (base extra : list nat) (kept : kept_lines) (shown : list ContextBlock)
    (shown_retrieved : list RetrievedBlock) : result PromptError (list nat) :=
  let with_prefix n := sorted_indices (base ++ take n extra) in
  let try n := fits (chosen files (<[index := Some (with_prefix n)]> kept)) shown shown_retrieved in
  whole ← (if bool_decide (extra = []) then Ok false else try (length extra));
  best ← (if whole : bool then Ok (Some (length extra)) else longest_fitting_prefix try (length extra));
  Ok (with_prefix (default O best)).

Definition keep (index : nat) (picked : list nat) (kept : kept_lines) : kept_lines :=
  if bool_decide (picked = []) then kept else <[index := Some picked]> kept.

Definition is_own (f : ChangedFile) (i : nat) : bool :=
  match ch_lines f !! i with
  | Some l => bool_decide (dl_number l ∈ default ∅ (protected !! ch_path f))
  | None => false
  end.
Definition line_indices (f : ChangedFile) : list nat := seq 0 (length (ch_lines f)).

(** 1. The candidates' own lines, in every file. *)
Fixpoint own_pass (order : list nat) (kept : kept_lines) : result PromptError kept_lines :=
  match order with
  | [] => Ok kept
  | index :: order' =>
      match files !! index with
      | None => own_pass order' kept
      | Some f =>
          picked ← widest index [] (List.filter (is_own f) (line_indices f)) kept [] [];
          own_pass order' (keep index picked kept)
      end
  end.

Context (excerpts : list ContextBlock) (retrieved : list RetrievedBlock).

(** 2. The cited excerpts, one take after another. *)
Definition Take : Type := list ContextBlock * list RetrievedBlock.
Definition takes (candidates : list CandidateFindingItem) : list Take :=
  let cited := cited_ids candidates in
  let read := definitions_read_by retrieved retrieved in
  ((λ b, ([b], [])) <$> List.filter (level_is Level_L4) excerpts)
  ++ ((λ place, ([], place :: definitions_read_by retrieved [place]))
        <$> List.filter (λ place, negb (block_mem place read)) retrieved)
  ++ ((λ b, ([], [b])) <$> List.filter (λ b, str_mem (rb_block_id b) cited) read)
  ++ ((λ b, ([b], [])) <$> List.filter (λ b, negb (level_is Level_L4 b)) excerpts).

Definition add_take (t shown : Take) : Take :=
  (List.filter (λ b, excerpt_mem b (fst shown) || excerpt_mem b (fst t)) excerpts,
   List.filter (λ b, block_mem b (snd shown) || block_mem b (snd t)) retrieved).

Fixpoint take_pass (ts : list Take) (kept : kept_lines) (shown : Take) : result PromptError Take :=
  match ts with
  | [] => Ok shown
  | t :: ts' =>
      let picks := add_take t shown in
      ok ← fits (chosen files kept) (fst picks) (snd picks);
      take_pass ts' kept (if ok : bool then picks else shown)
  end.

(** 3. The other lines, own lines that had no room first. *)
Fixpoint rest_pass (order : list nat) (shown : Take) (kept : kept_lines) : result PromptError kept_lines :=
  match order with
  | [] => Ok kept
  | index :: order' =>
      match files !! index with
      | None => rest_pass order' shown kept
      | Some f =>
          let base := match kept !! index with Some (Some indices) => indices | _ => [] end in
          let left := List.filter (λ i, negb (nat_mem i base)) (line_indices f) in
          let extra := List.filter (is_own f) left ++ List.filter (λ i, negb (is_own f i)) left in
          picked ← widest index base extra kept (fst shown) (snd shown);
          rest_pass order' shown (keep index picked kept)
      end
  end.
End Fit.

Section Verifier.
Context (repr : pystr → pystr).
Context (full_match : pystr → pystr → bool).
Context (float : Type) (fl : Q → float) (fmul : float → float → float) (math_log : Z → float).
Context (flt feq : float → float → bool).

(** The files a candidate stands on first, then by priority and path, each the other way round. *)
Definition verifier_leb (protected : gmap pystr (gset Z)) (rules : list ReviewRule)
    (a b : nat * ChangedFile) : bool :=
  let stands x := negb (bool_decide (default ∅ (protected !! ch_path (snd x)) = ∅)) in
  let weight x := priority full_match float fl fmul math_log rules (snd x) in
  if eqb (stands a) (stands b)
  then if feq (weight a) (weight b) then str_leb (ch_path (snd b)) (ch_path (snd a))
       else flt (weight b) (weight a)
  else stands a.
Definition verifier_order (protected : gmap pystr (gset Z)) (rules : list ReviewRule)
    (files : list ChangedFile) : list nat :=
  fst <$> py_sorted (verifier_leb protected rules) (enumerate files).

Definition fit_verifier_code (files : list ChangedFile) (excerpts : list ContextBlock)
    (rules : list ReviewRule) (candidates : list CandidateFindingItem)
    (fits : list ChangedFile → list ContextBlock → list RetrievedBlock → result PromptError bool)
    (retrieved : list RetrievedBlock)
  : result PromptError (list ChangedFile * list ContextBlock * list RetrievedBlock) :=
  all ← fits files excerpts retrieved;
  if all : bool then Ok (files, excerpts, retrieved)
  else
    protected ← protected_lines files candidates ∅;
    let order := verifier_order protected rules files in
    own ← own_pass fits files protected order (replicate (length files) None);
    shown ← take_pass fits files excerpts retrieved (takes excerpts retrieved candidates) own ([], []);
    kept ← rest_pass fits files protected order shown own;
    Ok (chosen files kept, fst shown, snd shown).

(** ** The prompt resource

    [read_prompt] is the text of a file of [review.prompts], or the text of the error. *)

Context (read_prompt : pystr → result pystr pystr).

(** A prompt without its front matter. *)
Definition prompt_body (raw : pystr) : pystr :=
  if startswith raw (u8 "---") then
    let rest := drop 3 raw in
    match str_find rest (u8 "---") with
    | Some i => strip_with is_space (drop (i + 3) rest)
    | None => raw
    end
  else raw.

Definition verifier_file (version : pystr) : pystr := u8 "review.verifier." ++ version ++ u8 ".md".

Definition read_verifier_prompt (version : pystr) : result PolicyError pystr :=
  map_err (λ text, policy_error SNAPSHOT_INTEGRITY_ERROR
                     (u8 "Unable to read verifier prompt resource '" ++ verifier_file version ++ u8 "': "
                      ++ text) no_args)
    (read_prompt (verifier_file version)).

(** The blocks of the policy, the defaults and the conventions, without the candidates. *)
Definition policy_blocks (c : ReviewContext) : result PromptError (list pystr) :=
  match rx_policy_snapshot c with
  | None => Ok []
  | Some s =>
      defaults ← (match rx_rules c with
                  | [] => Ok []
                  | rules =>
                      text ← render_service_defaults repr rules (sn_defaults_checksum s); Ok [text]
                  end);
      Ok ([render_policy_rules s; render_policy_agents s] ++ defaults)
  end.
Definition has_conventions (c : ReviewContext) : bool :=
  negb (bool_decide (rcv_key_patterns (rx_conventions c) = []))
  || negb (bool_decide (rcv_recommendations (rx_conventions c) = [])).
Definition conventions_blocks (c : ReviewContext) : list pystr :=
  if has_conventions c then [render_conventions (rx_conventions c)] else [].

(** [limit=.., actual=..] *)
Definition budget_args (limit actual : Z) : PolicyErrorArgs :=
  mkPolicyErrorArgs None None None None None (Some limit) (Some actual) None None None false None false.

Definition verify_verifier_mandatory_budget (c : ReviewContext) (counter : option TokenCounter)
    (max_send_budget : option Z) : result VerifyExc unit :=
  match rx_policy_snapshot c with
  | None => Ok tt
  | Some s =>
      let profile := sn_execution_profile s in
      _ ← map_err VE_policy (validate_execution_profile_versions profile);
      budget ← map_err VE_policy (send_budget_for profile true max_send_budget);
      policy ← map_err of_prompt (policy_blocks c);
      let version := pb_verifier_version (sn_prompt_bindings s) in
      raw ← map_err VE_policy (read_verifier_prompt (if version =?s [] then u8 "v2" else version));
      counter ← (match counter with
                 | Some counter => Ok counter
                 | None => map_err VE_policy (token_counter_for (ep_counter_version profile))
                 end);
      let tokens := tc_count counter (prompt_body raw ++ lines_text (policy ++ conventions_blocks c)) in
      if budget <? tokens
      then Err (VE_policy (policy_error PROMPT_BUDGET_EXCEEDED
                  (u8 "Verifier mandatory prompt is " ++ str_of_Z tokens ++ u8 " tokens, limit is "
                   ++ str_of_Z budget) (budget_args budget tokens)))
      else Ok tt
  end.

(** The attributes of [VerifierPromptBuilder]. *)
Record VerifierPromptBuilder : Type := mkVerifierPromptBuilder {
  vb_version : pystr;
  vb_system_prompt : pystr;
  vb_raw_prompt : pystr
}.
Definition new_builder (system_prompt : option pystr) (version : pystr)
  : result PolicyError VerifierPromptBuilder :=
  match system_prompt with
  | Some text => Ok (mkVerifierPromptBuilder version text text)
  | None => raw ← read_verifier_prompt version; Ok (mkVerifierPromptBuilder version (prompt_body raw) raw)
  end.

(** The prompt the snapshot binds, with its checksum checked. *)
Definition bind_prompt (b : VerifierPromptBuilder) (s : PolicySnapshot)
  : result VerifyExc VerifierPromptBuilder :=
  let version := pb_verifier_version (sn_prompt_bindings s) in
  b ← (if negb (version =?s []) && negb (version =?s vb_version b)
       then raw ← map_err VE_policy (read_verifier_prompt version);
            Ok (mkVerifierPromptBuilder version (prompt_body raw) raw)
       else Ok b);
  let expected := pb_verifier_checksum (sn_prompt_bindings s) in
  actual ← (match sha256_text (vb_raw_prompt b) with Some d => Ok d | None => Err VE_encode end);
  if (expected =?s []) || negb (actual =?s expected)
  then Err (VE_policy (policy_error SNAPSHOT_INTEGRITY_ERROR
              (u8 "Verifier prompt checksum mismatch: expected " ++ repr expected ++ u8 ", got "
               ++ repr actual) no_args))
  else Ok b.

(** ** The prompt and its manifest *)

Definition evidence_ref_xml (r : EvidenceRef) : pystr :=
  u8 "  <ref " ++ attribute (u8 "block_id") (xml_attribute (er_block_id r)) ++ u8 " "
  ++ attribute (u8 "start_line") (str_of_Z (er_start_line r)) ++ u8 " "
  ++ attribute (u8 "end_line") (str_of_Z (er_end_line r)) ++ u8 " />".

Definition candidate_xml (cand : CandidateFindingItem) : pystr :=
  let f := ci_v1 cand in
  let refs := f2_evidence_refs (ci_finding cand) in
  u8 "<candidate " ++ attribute (u8 "candidate_id") (xml_attribute (ci_candidate_id cand)) ++ u8 " "
  ++ attribute (u8 "path") (xml_attribute (fg_path f)) ++ u8 " "
  ++ match fg_start_line f with
     | Some s => attribute (u8 "start_line") (str_of_Z s) ++ u8 " "
     | None => []
     end
  ++ attribute (u8 "line") (str_of_Z (fg_line f)) ++ u8 " "
  ++ attribute (u8 "category") (xml_attribute (Category_value (fg_category f))) ++ u8 " "
  ++ attribute (u8 "severity") (xml_attribute (Severity_value (fg_severity f))) ++ u8 ">" ++ NL
  ++ element (u8 "title") (xml_text (fg_title f)) ++ NL
  ++ element (u8 "body") (xml_text (fg_body f)) ++ NL
  ++ match fg_suggestion f with
     | Some t => element (u8 "suggestion") (xml_text t) ++ NL
     | None => []
     end
  ++ match fg_rule_name f with
     | Some r => u8 "<rule_attribution " ++ attribute (u8 "name") (xml_attribute r) ++ u8 " />" ++ NL
     | None => []
     end
  ++ match refs with
     | [] => []
     | _ => container (u8 "evidence_refs") (lines_text (evidence_ref_xml <$> refs)) ++ NL
     end
  ++ u8 "</candidate>".

Definition candidate_block (counter : option TokenCounter) (cand : CandidateFindingItem)
  : ManifestBlock :=
  let f := ci_v1 cand in
  let start := match fg_start_line f with
               | Some s => if s =? 0 then fg_line f else s
               | None => fg_line f
               end in
  mkManifestBlock (ci_candidate_id cand) Role_candidate (u8 "candidate_findings") (Some (fg_path f))
    None None None (Some start) (Some (fg_line f)) 1 [(start, fg_line f)]
    (block_tokens counter (candidate_xml cand)) None false None None None.

Definition conventions_block (counter : option TokenCounter) (rendered : pystr) : ManifestBlock :=
  let count := Z.max 1 (py_len (splitlines rendered)) in
  mkManifestBlock (u8 "repo-conventions") Role_conventions (u8 "generated_conventions") None None None
    None (Some 1) (Some count) count [(1, count)] (block_tokens counter rendered) None false None None
    None.

Definition candidates_xml (candidates : list CandidateFindingItem) : pystr :=
  u8 "<candidate_findings " ++ attribute (u8 "count") (str_of_Z (py_len candidates)) ++ u8 ">" ++ NL
  ++ lines_text (candidate_xml <$> candidates) ++ NL ++ u8 "</candidate_findings>".

Definition user_message (blocks : list pystr) (candidates : list CandidateFindingItem)
    (files : list ChangedFile) (excerpts : list ContextBlock) (retrieved : list RetrievedBlock)
  : result PromptError pystr :=
  code ← verifier_code_context files excerpts retrieved;
  Ok (lines_text (blocks ++ [code; candidates_xml candidates])).

Record VerifierPrompt : Type := mkVerifierPrompt { vp_system : pystr; vp_user : pystr }.

Definition context_overflow (what : pystr) (actual limit : Z) : VerifyExc :=
  VE_run (run_failure (u8 "verification_context_overflow")
            (what ++ u8 " is " ++ str_of_Z actual ++ u8 " tokens, limit is " ++ str_of_Z limit) None false).

(** What is shown of the code: the fit on the snapshot path, everything cited otherwise. *)
Definition shown_code (c : ReviewContext) (candidates : list CandidateFindingItem) (system : pystr)
    (blocks : list pystr) (counter : TokenCounter) (max_prompt_tokens : option Z)
  : result VerifyExc (list ChangedFile * list ContextBlock * list RetrievedBlock) :=
  let excerpts := cited_excerpts (rx_context_blocks c) candidates in
  let retrieved := if rx_retrieved_section c then cited_retrieved (rx_retrieved c) candidates else [] in
  match rx_policy_snapshot c with
  | None => Ok (rx_changed_files c, excerpts, retrieved)
  | Some s =>
      budget ← map_err VE_policy (send_budget_for (sn_execution_profile s) true max_prompt_tokens);
      let mandatory := tc_count counter (system ++ lines_text (blocks ++ [candidates_xml candidates])) in
      if budget <? mandatory
      then Err (context_overflow (u8 "Verifier mandatory prompt") mandatory budget)
      else
        let tokens files excerpts retrieved :=
          user ← user_message blocks candidates files excerpts retrieved;
          Ok (tc_count counter system + tc_count counter user) in
        least ← map_err of_prompt (tokens [] [] []);
        if budget <? least then Err (context_overflow (u8 "Verifier prompt") least budget)
        else
          map_err of_prompt
            (fit_verifier_code (rx_changed_files c) excerpts (rx_rules c) candidates
               (λ files excerpts retrieved, fits_tokens budget (tokens files excerpts retrieved))
               retrieved)
  end.

Definition shown_context (c : ReviewContext) (files : list ChangedFile) (excerpts : list ContextBlock)
    (retrieved : list RetrievedBlock) : ReviewContext :=
  mkReviewContext (rx_system c) (rx_rules c) (rx_agents_md c) (rx_conventions c) (rx_pr_meta c) files
    (rx_omitted_files c) (rx_policy_snapshot c) (rx_severity_threshold c) excerpts retrieved
    (rx_retrieved_section c) (rx_excluded_files c).

Definition build_verifier_prompt (b : VerifierPromptBuilder) (candidates : list CandidateFindingItem)
    (c : ReviewContext) (call_id : UUID) (max_prompt_tokens : option Z)
  : result VerifyExc (VerifierPromptBuilder * VerifierPrompt * CallManifest) :=
  b ← (match rx_policy_snapshot c with Some s => bind_prompt b s | None => Ok b end);
  counter ← map_err VE_policy (token_counter_for
              (s ← rx_policy_snapshot c; ep_counter_version (sn_execution_profile s)));
  let manifest_counter := if has_snapshot c then Some counter else None in
  _ ← map_err VE_policy (match rx_policy_snapshot c with
                         | Some s => validate_execution_profile_versions (sn_execution_profile s)
                         | None => Ok tt
                         end);
  policy ← map_err of_prompt (policy_blocks c);
  let blocks := policy ++ conventions_blocks c in
  '(files, excerpts, retrieved) ←
    shown_code c candidates (vb_system_prompt b) blocks counter max_prompt_tokens;
  user ← map_err of_prompt (user_message blocks candidates files excerpts retrieved);
  manifest ← map_err of_prompt (build_manifest repr (shown_context c files excerpts retrieved) call_id
               Stage_verification Recovery_none manifest_counter);
  Ok (b, mkVerifierPrompt (vb_system_prompt b) user,
      mkCallManifest call_id Stage_verification
        (cm_blocks manifest ++ (conventions_block manifest_counter <$> conventions_blocks c)
         ++ (candidate_block manifest_counter <$> candidates))
        Recovery_none (cm_run_id manifest)).

(** ** The checks of an answer *)

(** The next lines of one rule's checks. *)
Fixpoint number_checks (ids : list pystr) (line_offset : Z) (lines : list (pystr * Z))
  : result PromptError (list (pystr * Z) * Z) :=
  match ids with
  | [] => Ok (lines, line_offset)
  | c_id :: ids' =>
      match assoc c_id lines with
      | Some _ => Err (defaults_error (u8 "Duplicate service defaults check ID " ++ repr c_id))
      | None => number_checks ids' (line_offset + 1) (lines ++ [(c_id, line_offset)])
      end
  end.

Fixpoint number_rules (rules : list ReviewRule) (defaults_checksum : option pystr) (line_offset : Z)
    (lines : list (pystr * Z)) : result PromptError (list (pystr * Z)) :=
  match rules with
  | [] => Ok lines
  | r :: rules' =>
      ids ← (match defaults_checksum with
             | Some checksum => get_rule_check_ids repr r checksum
             | None => Err (defaults_error (u8 "Unknown service defaults checksum: None"))
             end);
      '(lines, offset) ← number_checks ids line_offset lines;
      number_rules rules' defaults_checksum offset lines
  end.

Definition service_defaults_check_lines (c : ReviewContext) : result PromptError (list (pystr * Z)) :=
  number_rules (rx_rules c) (sn_defaults_checksum <$> rx_policy_snapshot c) 1 [].
End Verifier.

Definition MAX_RETRY_AFTER_S : Q := inject_Z 86400.
Definition MAX_ANSWER_ERRORS : nat := 20.
Definition MAX_UNKNOWN_IDS : nat := 5.

Definition quoted (s : pystr) : pystr := u8 "'" ++ s ++ u8 "'".

Definition evidence_ref_error (m : CallManifest) (meta : PullRequestMeta) (cand_id : pystr)
    (ref : EvidenceRef) : option pystr :=
  let block_id := firstn 64 (er_block_id ref) in
  let at_ref := u8 "Decision " ++ cand_id ++ u8 " evidence_ref " ++ block_id in
  let not_shown :=
    if is_range_shown m (er_block_id ref) (er_start_line ref) (er_end_line ref) then None
    else Some (at_ref ++ u8 ":" ++ str_of_Z (er_start_line ref) ++ u8 "-" ++ str_of_Z (er_end_line ref)
               ++ u8 " is not shown in verifier manifest") in
  match get_block m (er_block_id ref) with
  | None => Some (at_ref ++ u8 " not found in manifest")
  | Some b =>
      if negb (bool_decide (mb_source_role b ∈ CODE_ROLES))
      then Some (at_ref ++ u8 " has non-code role " ++ quoted (SourceRole_value (mb_source_role b)))
      else
        let left := bool_decide (mb_side b = Some Side_LEFT) in
        let expected := if left then pm_diff_old_sha meta else pm_head_sha meta in
        match mb_revision b with
        | Some revision =>
            if truthy expected && bool_decide (Some revision = expected) then not_shown
            else Some (if left
                       then at_ref ++ u8 " LEFT revision " ++ quoted revision
                            ++ u8 " does not match PR diff_old_sha " ++ quoted (str_or_None expected)
                       else at_ref ++ u8 " revision " ++ quoted revision
                            ++ u8 " does not match PR revision")
        | None => not_shown
        end
  end.

Definition requirement_roles : list SourceRole := [Role_policy_document; Role_service_defaults].

(** The line of the check a service-defaults reference names, or the error. *)
Definition check_line (check_lines : list (pystr * Z)) (rule_name : option pystr) (cand_id check_id : pystr)
  : pystr + Z :=
  let at_check := u8 "Decision " ++ cand_id ++ u8 " check_id " ++ quoted (firstn 64 check_id) in
  match (r ← rule_name;
         if startswith r SERVICE_DEFAULTS_PREFIX then Some (removeprefix r SERVICE_DEFAULTS_PREFIX)
         else None) with
  | Some rule_id =>
      match (if check_id =?s rule_id then assoc rule_id check_lines else None) with
      | Some line => inr line
      | None => inl (at_check ++ u8 " does not match service defaults rule " ++ quoted rule_id)
      end
  | None =>
      match assoc check_id check_lines with
      | Some line => inr line
      | None => inl (at_check ++ u8 " does not match any service defaults rule")
      end
  end.

Definition requirement_ref_error (m : CallManifest) (check_lines : list (pystr * Z))
    (rule_name : option pystr) (cand_id : pystr) (ref : RequirementRef) : option pystr :=
  let block_id := firstn 64 (qr_block_id ref) in
  let decision := u8 "Decision " ++ cand_id in
  let range := u8 " requirement_ref range " ++ str_of_Z (qr_start_line ref) ++ u8 "-"
               ++ str_of_Z (qr_end_line ref) in
  match get_block m (qr_block_id ref) with
  | None => Some (decision ++ u8 " requirement_ref block " ++ quoted block_id ++ u8 " not found in manifest")
  | Some b =>
      let role := mb_source_role b in
      if negb (bool_decide (role ∈ requirement_roles))
      then Some (decision ++ u8 " requirement_ref block " ++ quoted block_id ++ u8 " has invalid role "
                 ++ quoted (SourceRole_value role))
      else if negb (is_range_shown m (qr_block_id ref) (qr_start_line ref) (qr_end_line ref))
      then Some (decision ++ range ++ u8 " not shown in " ++ quoted block_id)
      else if negb (bool_decide (role = Role_service_defaults))
      then match qr_check_id ref with
           | Some _ => Some (decision ++ u8 " check_id is only allowed for service_defaults, got "
                             ++ quoted (SourceRole_value role))
           | None => None
           end
      else match qr_check_id ref with
           | None => Some (decision ++ u8 " check_id is required for service_defaults")
           | Some check_id =>
               match check_line check_lines rule_name cand_id check_id with
               | inl error => Some error
               | inr line =>
                   if (qr_start_line ref <=? line) && (line <=? qr_end_line ref) then None
                   else Some (decision ++ range ++ u8 " does not cover check "
                              ++ quoted (firstn 64 check_id) ++ u8 " line " ++ str_of_Z line)
               end
           end
  end.

(** Whether a block states the rule of this name. *)
Definition states_rule (rule_name : pystr) (b : ManifestBlock) : bool :=
  ((rule_name =?s u8 ".review/rules.md") && (mb_source_kind b =?s u8 "repository_rules"))
  || ((rule_name =?s u8 "AGENTS.md") && (mb_source_kind b =?s u8 "project_conventions_document"))
  || (startswith rule_name SERVICE_DEFAULTS_PREFIX
      && bool_decide (mb_source_role b = Role_service_defaults)).

Definition rule_requirement_error (m : CallManifest) (rule_name : option pystr)
    (d : VerificationDecision) : option pystr :=
  match rule_name with
  | None => None
  | Some r =>
      if negb (needs_evidence (vd_status d)) then None
      else if py_any (λ ref, match get_block m (qr_block_id ref) with
                             | Some b => states_rule r b
                             | None => false
                             end) (vd_requirement_refs d)
      then None
      else Some (u8 "Decision " ++ vd_candidate_id d ++ u8 " for candidate with rule_name " ++ quoted r
                 ++ u8 " requires at least one matching requirement_ref for this rule")
  end.

(** [{c.candidate_id: c for c in candidates}]: the last candidate of an id. *)
Definition candidate_of (candidates : list CandidateFindingItem) (id : pystr)
  : option CandidateFindingItem :=
  find_first (λ c, ci_candidate_id c =?s id) (rev candidates).

Definition named_group (label : pystr) (ids : list pystr) (suffix : pystr) : list pystr :=
  match ids with [] => [] | _ => [label ++ u8 " " ++ join (u8 ", ") ids ++ suffix] end.

Definition candidate_mismatch (decisions : list VerificationDecision)
    (candidates : list CandidateFindingItem) : pystr :=
  let decided := vd_candidate_id <$> decisions in
  let ours := remove_dups (ci_candidate_id <$> candidates) in
  let count id := length (List.filter (λ i, i =?s id) decided) in
  let sorted := py_sorted str_leb in
  let missing := sorted (List.filter (λ id, negb (str_mem id decided)) ours) in
  let unknown := sorted (remove_dups (firstn 64 <$> List.filter (λ id, negb (str_mem id ours)) decided)) in
  let duplicated := sorted (List.filter (λ id, (1 <? count id)%nat) ours) in
  let more := py_len unknown - Z.of_nat MAX_UNKNOWN_IDS in
  let suffix := if 0 <? more then u8 " (+" ++ str_of_Z more ++ u8 " more)" else [] in
  let groups := named_group (u8 "missing") missing []
                ++ named_group (u8 "unknown") (firstn MAX_UNKNOWN_IDS unknown) suffix
                ++ named_group (u8 "duplicated") duplicated [] in
  match groups with [] => [] | _ => u8 ": " ++ join (u8 "; ") groups end.

Definition decision_errors (m : CallManifest) (meta : PullRequestMeta) (check_lines : list (pystr * Z))
    (cand : CandidateFindingItem) (d : VerificationDecision) : list pystr :=
  let cand_id := firstn 64 (vd_candidate_id d) in
  let rule_name := fg_rule_name (ci_v1 cand) in
  omap (evidence_ref_error m meta cand_id) (vd_evidence_refs d)
  ++ omap (requirement_ref_error m check_lines rule_name cand_id) (vd_requirement_refs d)
  ++ match rule_requirement_error m rule_name d with Some e => [e] | None => [] end.

(** One decision for each candidate id. *)
Definition one_to_one (decisions : list VerificationDecision) (candidates : list CandidateFindingItem)
  : bool :=
  (length decisions =? length candidates)%nat
  && py_all (λ d, str_mem (vd_candidate_id d) (ci_candidate_id <$> candidates)) decisions
  && py_all (λ c, str_mem (ci_candidate_id c) (vd_candidate_id <$> decisions)) candidates.

Definition verification_answer_errors (decisions : list VerificationDecision)
    (candidates : list CandidateFindingItem) (m : CallManifest) (meta : PullRequestMeta)
    (check_lines : list (pystr * Z)) : list pystr :=
  if negb (one_to_one decisions candidates)
  then [u8 "Verifier returned decisions for " ++ str_of_Z (py_len decisions) ++ u8 " items, expected "
        ++ str_of_Z (py_len candidates) ++ candidate_mismatch decisions candidates]
  else
    firstn MAX_ANSWER_ERRORS
      (decisions ≫= λ d, match candidate_of candidates (vd_candidate_id d) with
                         | Some cand => decision_errors m meta check_lines cand d
                         | None => []
                         end).

(** ** The pass *)

(** What the answer is: a value of the types of the schema, a value that is not, or another object. *)
Inductive RawOutput : Type :=
| Raw_decisions (decisions : list VerificationDecision)
| Raw_malformed
| Raw_other (type_name : pystr).

Record VerifierReply : Type := mkVerifierReply {
  vr_output : RawOutput;
  vr_accepted_call_id : option UUID;
  vr_manifest_id : option UUID;
  vr_accepted_manifest : option CallManifest
}.

Record VerificationRecord : Type := mkVerificationRecord {
  vc_decisions : list VerificationDecision;
  vc_candidate_ids : list pystr;
  vc_accepted_call_id : option UUID;
  vc_manifest_id : option UUID
}.

(** What the model raises: [ME_other] is any other [Exception] by its [error_code] and its
    [retry_after_s]. *)
Inductive ModelExc : Type :=
| ME_timeout
| ME_invalid_output (message : pystr)
| ME_unavailable (message : pystr)
| ME_policy (e : PolicyError)
| ME_run (f : RunFailure)
| ME_cancelled
| ME_other (error_code : option pystr) (retry_after_s : option hint).

Definition model_error_code (e : ModelExc) : option pystr :=
  match e with
  | ME_run f => Some (rf_error_code f)
  | ME_other code _ => code
  | _ => None
  end.

(** [timedelta(seconds=min(retry_after_s or 0, _MAX_RETRY_AFTER_S))] *)
Definition capped_retry_after (h : option hint) : result VerifyExc Z :=
  match default (HintFinite 0) h with
  | HintFinite q => Ok (timedelta_of_seconds (if Qle_bool q MAX_RETRY_AFTER_S then q else MAX_RETRY_AFTER_S))
  | HintPosInf => Ok (timedelta_of_seconds MAX_RETRY_AFTER_S)
  | HintNegInf => Err (VE_python (u8 "OverflowError"))
  | HintNaN => Err (VE_python (u8 "ValueError"))
  end.

Definition verification_failure (code message : string) : VerifyExc :=
  VE_run (run_failure (u8 code) (u8 message) None false).

Definition of_model_exc (e : ModelExc) : VerifyExc :=
  match e with
  | ME_timeout => VE_unavailable (u8 "Verifier model timed out")
  | ME_invalid_output message => VE_invalid_output message
  | ME_unavailable message => VE_unavailable message
  | ME_policy p => VE_policy p
  | _ =>
      let code := default [] (model_error_code e) in
      let is_code codes := str_mem code (u8 <$> codes) in
      if is_code ["llm_invalid_output"; "verification_invalid_output"]%string
      then VE_invalid_output (u8 "Verifier model output invalid")
      else if is_code ["llm_timeout"; "llm_unavailable"; "verification_unavailable"]%string
      then VE_unavailable (u8 "Verifier model unavailable")
      else if is_code ["budget_exceeded"; "verification_budget_exceeded"]%string
      then verification_failure "verification_budget_exceeded" "Verifier budget exceeded"
      else if is_code ["deadline_exceeded"; "verification_deadline_exceeded"]%string
      then verification_failure "verification_deadline_exceeded" "Verifier deadline exceeded"
      else if is_code ["llm_context_overflow"; "verification_context_overflow"]%string
      then verification_failure "verification_context_overflow" "Verifier prompt context overflow"
      else if is_code ["llm_payment_required"]%string
      then verification_failure "llm_payment_required" "Verifier provider payment required"
      else if is_code ["llm_rate_limited"]%string
      then match capped_retry_after (match e with ME_other _ h => h | _ => None end) with
           | Ok delay => VE_run (run_failure (u8 "verification_unavailable")
                                   (u8 "Verifier model rate limited") (Some delay) false)
           | Err raised => raised
           end
      else match e with
           | ME_run f => VE_run f
           | ME_cancelled => VE_cancelled
           | _ => VE_unavailable (u8 "Verifier model call failed")
           end
  end.

Section Pass.
Context (repr : pystr → pystr).
Context (full_match : pystr → pystr → bool).
Context (float : Type) (fl : Q → float) (fmul : float → float → float) (math_log : Z → float).
Context (flt feq : float → float → bool).
Context (markdown_parse : pystr → list MdToken).
Context (read_prompt : pystr → result pystr pystr).

(** The check of an answer against the manifest of its call. *)
Abbreviation answer_check := (list VerificationDecision → CallManifest → list pystr).

(** The guard before the call. *)
Definition verifier_guard (c : ReviewContext) (prompt : VerifierPrompt) (m : CallManifest)
    (window : option Z) : result VerifyExc unit :=
  match rx_policy_snapshot c with
  | None => Ok tt
  | Some s =>
      let profile := sn_execution_profile s in
      counter ← map_err VE_policy (token_counter_for (ep_counter_version profile));
      let total := tc_count counter (vp_system prompt) + tc_count counter (vp_user prompt) in
      budget ← map_err VE_policy (send_budget_for profile true window);
      if budget <? total then Err (context_overflow (u8 "Verifier prompt") total budget)
      else map_err of_ignore (verify_provenance_pre_send_guard markdown_parse m (Some c) (Some s))
  end.

Definition read_answer (raw : RawOutput) : result VerifyExc (list VerificationDecision) :=
  match raw with
  | Raw_decisions decisions =>
      if verification_valid decisions then Ok decisions
      else Err (VE_invalid_output (u8 "Malformed verifier response schema or JSON"))
  | Raw_malformed => Err (VE_invalid_output (u8 "Malformed verifier response schema or JSON"))
  | Raw_other type_name => Err (VE_invalid_output (u8 "Unexpected verifier output type: " ++ type_name))
  end.

(** The model is asked once; an error ends the attempt, and the pass with it. *)
Definition verify_recorded (b : VerifierPromptBuilder) (window : option Z) (call_id : UUID)
    (model : VerifierPrompt → CallManifest → answer_check → result ModelExc VerifierReply)
    (candidates : list CandidateFindingItem) (c : ReviewContext) : result VerifyExc VerificationRecord :=
  if bool_decide (length candidates = 0%nat) then Ok (mkVerificationRecord [] [] None None)
  else
    '(_, prompt, manifest) ← build_verifier_prompt repr full_match float fl fmul math_log flt feq
                               read_prompt b candidates c call_id window;
    _ ← verifier_guard c prompt manifest window;
    check_lines ← map_err of_prompt (service_defaults_check_lines repr c);
    let check decisions m :=
      verification_answer_errors decisions candidates m (rx_pr_meta c) check_lines in
    reply ← map_err of_model_exc (model prompt manifest check);
    decisions ← read_answer (vr_output reply);
    match check decisions (default manifest (vr_accepted_manifest reply)) with
    | error :: _ => Err (VE_invalid_output error)
    | [] => Ok (mkVerificationRecord decisions (ci_candidate_id <$> candidates)
                  (vr_accepted_call_id reply) (vr_manifest_id reply))
    end.
End Pass.

(** ** The findings that are published *)

(** [{d.candidate_id: d for d in decisions}]: the last decision of an id. *)
Definition decision_of (decisions : list VerificationDecision) (id : pystr)
  : option VerificationDecision :=
  find_first (λ d, vd_candidate_id d =?s id) (rev decisions).

Definition is_supported (decisions : list VerificationDecision) (c : CandidateFindingItem) : bool :=
  match decision_of decisions (ci_candidate_id c) with
  | Some d => bool_decide (vd_status d = Ver_supported)
  | None => false
  end.

Definition filter_verified_candidates (candidates : list CandidateFindingItem)
    (decisions : list VerificationDecision)
  : list CandidateFindingItem * list (CandidateFindingItem * VerificationStatus * pystr) :=
  (List.filter (is_supported decisions) candidates,
   (λ c, match decision_of decisions (ci_candidate_id c) with
         | Some d => (c, vd_status d, vd_reason d)
         | None => (c, Ver_insufficient_context, u8 "Missing verifier decision")
         end) <$> List.filter (λ c, negb (is_supported decisions c)) candidates).
