(* ===== verification/ReflectionFacts.v ===== *)
(** * Theorems on the reflection pass

    The fitted prompt is within its budget and shows code of the context only; an answer is accepted
    exactly when every decision is backed by what its call showed; a finding is published only on a
    supporting decision. *)

From Stdlib Require Import String QArith.
From stdpp Require Import numbers gmap sets list.
From S2P Require Import Prelude PyText PyHash UnifiedDiff DiffMap Verdict RunFailures PolicyErrors.
From S2P Require Import ReviewIgnore PolicyDocuments PolicySnapshots VcsInput RunCoverage Findings.
From S2P Require Import PromptRender PromptBudget Manifests AnswersV2 Reflection.
From S2P Require Import FindingsFacts ManifestFacts.
#[local] Open Scope Z_scope.

(** ** The fit *)

Lemma prefix_search_ok fits turns low high best r :
  prefix_search fits turns low high best = Ok r → r = best ∨ ∃ n, r = Some n ∧ fits n = Ok true.
Proof.
  revert low high best. induction turns as [|turns IH]; intros low high best; cbn; [naive_solver|].
  destruct (low <=? high); [|naive_solver]. intros ([] & Hm & H)%bind_ok; apply IH in H as [->|H]; eauto.
Qed.

Lemma Sorted_indices l : Sorted (leP Nat.leb) (sorted_indices l).
Proof.
  apply py_sorted_sorted. intros a b. rewrite !Nat.leb_le. lia.
Qed.

Section Fit.
Context (fits : list ChangedFile → list ContextBlock → list RetrievedBlock → result PromptError bool).
Context (files : list ChangedFile) (protected : gmap pystr (gset Z)).

(** The lines picked of a file: some of its lines, once each, in their order. *)
Definition picks (f : ChangedFile) (l : list nat) : Prop :=
  Sorted (leP Nat.leb) l ∧ NoDup l ∧ l ⊆ line_indices f.
Definition kept_ok (kept : list (option (list nat))) : Prop :=
  ∀ i f l, files !! i = Some f → kept !! i = Some (Some l) → picks f l.

Lemma widest_ok index base extra kept shown shown_retrieved picked :
  widest fits files index base extra kept shown shown_retrieved = Ok picked →
  (∃ n, picked = sorted_indices (base ++ firstn n extra))
  ∧ (picked = sorted_indices base
     ∨ fits (chosen files (<[index := Some picked]> kept)) shown shown_retrieved = Ok true).
Proof.
  unfold widest. cbv zeta. intros (whole & Hw & (best & Hb & [= <-])%bind_ok)%bind_ok.
  split; [by eexists|]. destruct whole.
  - injection Hb as <-. right. by case_bool_decide.
  - apply prefix_search_ok in Hb as [->|(n & -> & Hn)]; [left; cbn; by rewrite app_nil_r|by right].
Qed.

Lemma picks_sorted f base extra n :
  NoDup (base ++ extra) → base ++ extra ⊆ line_indices f →
  picks f (sorted_indices (base ++ firstn n extra)).
Proof.
  intros Hn Hs. assert (Hsub : base ++ firstn n extra `sublist_of` base ++ extra).
  { apply sublist_app; [done|apply sublist_take]. }
  assert (Hp : sorted_indices (base ++ firstn n extra) ≡ₚ base ++ firstn n extra) by apply py_sorted_perm.
  split; [apply Sorted_indices|]. split.
  - rewrite Hp. by eapply sublist_NoDup.
  - intros x Hx. apply Hs. rewrite Hp in Hx. by eapply sublist_subseteq.
Qed.

Lemma keep_ok index f picked kept :
  files !! index = Some f → picks f picked → kept_ok kept → kept_ok (keep index picked kept).
Proof.
  intros Hf Hp Hk. unfold keep. case_bool_decide; [done|]. intros i g l Hg Hl.
  destruct (decide (i = index)) as [->|Hne].
  - destruct (decide (index < length kept)%nat).
    + rewrite list_lookup_insert_eq in Hl by done. injection Hl as <-. by rewrite Hf in Hg; injection Hg as <-.
    + rewrite list_insert_ge in Hl by lia. by eapply Hk.
  - rewrite list_lookup_insert_ne in Hl by done. by eapply Hk.
Qed.

Lemma own_indices_ok f : NoDup (List.filter (is_own protected f) (line_indices f)).
Proof. apply NoDup_ListNoDup, List.NoDup_filter, seq_NoDup. Qed.

Lemma filter_keeps_order {A} (p : A → bool) l : List.filter p l `sublist_of` l.
Proof. induction l as [|x l IH]; cbn; [done|]. destruct (p x); by constructor. Qed.

Lemma filter_subset {A} (p : A → bool) l : List.filter p l ⊆ l.
Proof. intros x [Hx _]%list_elem_of_In%filter_In. by apply list_elem_of_In. Qed.

(** The lines still to be shown, own lines first, are the ones not in [base]. *)
Abbreviation rest_of f base :=
  (List.filter (is_own protected f) (List.filter (λ i, negb (nat_mem i base)) (line_indices f))
   ++ List.filter (λ i, negb (is_own protected f i))
        (List.filter (λ i, negb (nat_mem i base)) (line_indices f))).

Lemma rest_perm f base :
  rest_of f base ≡ₚ List.filter (λ i, negb (nat_mem i base)) (line_indices f).
Proof. by rewrite Permutation_app_comm, filter_split_perm. Qed.

Lemma rest_NoDup f base : NoDup base → NoDup (base ++ rest_of f base).
Proof.
  intros Hb. apply NoDup_app. split; [done|]. rewrite rest_perm. split.
  - intros x Hx Hr. rewrite rest_perm in Hr. apply list_elem_of_In, filter_In in Hr as [_ Hn]. unfold nat_mem in Hn. by rewrite bool_decide_true in Hn.
  - apply NoDup_ListNoDup, List.NoDup_filter, seq_NoDup.
Qed.

Lemma rest_subset f base : base ⊆ line_indices f → base ++ rest_of f base ⊆ line_indices f.
Proof.
  intros Hb. apply list_subseteq_app_iff_l. split; [done|]. intros x Hx. rewrite rest_perm in Hx.
  by eapply filter_subset.
Qed.

Lemma own_pass_ok order kept kept' :
  own_pass fits files protected order kept = Ok kept' →
  kept_ok kept → fits (chosen files kept) [] [] = Ok true →
  kept_ok kept' ∧ fits (chosen files kept') [] [] = Ok true.
Proof.
  revert kept. induction order as [|index order IH]; intros kept H Hk Hf; cbn in H; [by injection H as <-|].
  destruct (files !! index) as [f|] eqn:E; [|by eapply IH].
  apply bind_ok in H as (picked & Hp & H). apply widest_ok in Hp as [[n Hn] Hp]. eapply IH; [exact H|..].
  - eapply keep_ok; [done| |done]. rewrite Hn. apply picks_sorted.
    + apply own_indices_ok.
    + intros x [Hx _]%list_elem_of_In%filter_In. by apply list_elem_of_In.
  - unfold keep. destruct Hp as [->|Hp]; [done|]. by case_bool_decide.
Qed.

Context (excerpts : list ContextBlock) (retrieved : list RetrievedBlock).

Lemma take_pass_ok ts kept shown shown' :
  take_pass fits files excerpts retrieved ts kept shown = Ok shown' →
  fits (chosen files kept) (fst shown) (snd shown) = Ok true →
  fst shown `sublist_of` excerpts → snd shown `sublist_of` retrieved →
  fits (chosen files kept) (fst shown') (snd shown') = Ok true
  ∧ fst shown' `sublist_of` excerpts ∧ snd shown' `sublist_of` retrieved.
Proof.
  revert shown. induction ts as [|t ts IH]; intros shown H Hf He Hr; cbn in H; [by injection H as <-|].
  apply bind_ok in H as ([] & Ht & H); (eapply IH; [exact H|..]); try done; apply filter_keeps_order.
Qed.

Lemma rest_pass_ok order shown kept kept' :
  rest_pass fits files protected order shown kept = Ok kept' →
  kept_ok kept → fits (chosen files kept) (fst shown) (snd shown) = Ok true →
  kept_ok kept' ∧ fits (chosen files kept') (fst shown) (snd shown) = Ok true.
Proof.
  revert kept. induction order as [|index order IH]; intros kept H Hk Hf; cbn in H; [by injection H as <-|].
  destruct (files !! index) as [f|] eqn:E; [|by eapply IH].
  apply bind_ok in H as (picked & Hp & H).
  set (base := match kept !! index with Some (Some indices) => indices | _ => [] end) in *.
  assert (Hb : base = [] ∨ kept !! index = Some (Some base) ∧ picks f base).
  { subst base. destruct (kept !! index) as [[l|]|] eqn:Hl; [right|by left..]. split; [done|by eapply Hk]. }
  apply widest_ok in Hp as [[n Hn] Hp]. eapply IH; [exact H|..].
  - eapply keep_ok; [done| |done]. rewrite Hn. apply picks_sorted; [apply rest_NoDup|apply rest_subset];
      destruct Hb as [->|[_ Hb]]; first [constructor|apply list_subseteq_nil|apply Hb].
  - unfold keep. destruct Hp as [Hp|Hp]; [|by case_bool_decide].
    case_bool_decide; [done|]. destruct Hb as [Hb|[Hb Hs]].
    + rewrite Hb in Hp. by subst picked.
    + rewrite Hp. unfold sorted_indices. rewrite py_sorted_id, list_insert_id; [done|done|apply Hs].
Qed.
End Fit.

(** A shown file: the whole file, or some of its lines in their order. *)
Definition part_of (f g : ChangedFile) : Prop :=
  ch_path g = ch_path f ∧ ch_status g = ch_status f ∧ ch_lines g `sublist_of` ch_lines f.

Inductive shows : list ChangedFile → list ChangedFile → Prop :=
| shows_nil : shows [] []
| shows_skip f files shown : shows files shown → shows (f :: files) shown
| shows_part f g files shown : part_of f g → shows files shown → shows (f :: files) (g :: shown).

Lemma shows_all files : shows files files.
Proof. induction files as [|f files IH]; constructor; [by repeat split|done]. Qed.
Lemma shows_none files : shows files [].
Proof. induction files; by constructor. Qed.

Lemma indices_sublist {A} (l : list A) off indices :
  StronglySorted (leP Nat.leb) indices → NoDup indices → Forall (λ i, off ≤ i)%nat indices →
  omap (λ i, l !! (i - off)%nat) indices `sublist_of` l.
Proof.
  revert off indices. induction l as [|x l IH]; intros off indices Hs Hn Ho.
  - induction indices as [|i js IHi]; cbn; [done|]. inversion Hs; inversion Hn; inversion Ho; by apply IHi.
  - destruct indices as [|i ks]; [apply sublist_nil_l|].
    inversion Hs as [|? ? Hs' Hle]; inversion Hn as [|? ? Hni Hn']; inversion Ho as [|? ? Hoi Ho']; subst.
    assert (Hlt : Forall (λ j, i < j)%nat ks).
    { apply Forall_forall. intros j Hj. rewrite Forall_forall in Hle. specialize (Hle j Hj).
      unfold leP in Hle. apply Nat.leb_le in Hle. assert (i ≠ j) by (by intros ->). lia. }
    assert (Hshift : ∀ js, Forall (λ j, off < j)%nat js →
              omap (λ i, (x :: l) !! (i - off)%nat) js = omap (λ i, l !! (i - S off)%nat) js).
    { clear. induction 1 as [|j js Hj _ IHj]; [done|]. cbn [omap list_omap]. rewrite IHj.
      by replace (j - off)%nat with (S (j - S off)) by lia. }
    destruct (decide (i = off)) as [->|Hne].
    + cbn [omap list_omap]. rewrite Nat.sub_diag. cbn [lookup list_lookup]. constructor.
      rewrite Hshift by done. apply IH; [done..|]. eapply Forall_impl; [exact Hlt|]. cbn. lia.
    + constructor. rewrite Hshift; [apply IH; [by constructor..|]|].
      * constructor; [lia|]. eapply Forall_impl; [exact Hlt|]. cbn. lia.
      * constructor; [lia|]. eapply Forall_impl; [exact Hlt|]. cbn. lia.
Qed.

Lemma with_lines_part f l : picks f l → part_of f (with_lines f l).
Proof.
  intros (Hs & Hn & _). unfold with_lines. case (_ =? _)%nat; [by repeat split|]. repeat split.
  assert (E : omap (λ i, ch_lines f !! i) l = omap (λ i, ch_lines f !! (i - 0)%nat) l).
  { apply list_omap_ext, Forall_Forall2_diag, Forall_forall. intros i _. by rewrite Nat.sub_0_r. }
  cbn [ch_lines]. rewrite E. apply indices_sublist; [|done|apply Forall_forall; intros; lia].
  apply Sorted_StronglySorted; [|done]. intros a b d. unfold leP. rewrite !Nat.leb_le. lia.
Qed.

Lemma chosen_shows files kept : kept_ok files kept → shows files (chosen files kept).
Proof.
  revert kept. induction files as [|f files IH]; intros kept Hk; cbn; [constructor|].
  destruct kept as [|[l|] kept]; [apply shows_none|..]; constructor;
    [eapply with_lines_part, (Hk 0%nat); done|apply IH..]; intros i; apply (Hk (S i)).
Qed.

Section Verifier.
Context (repr : pystr → pystr).
Context (full_match : pystr → pystr → bool).
Context (float : Type) (fl : Q → float) (fmul : float → float → float) (math_log : Z → float).
Context (flt feq : float → float → bool).
Context (read_prompt : pystr → result pystr pystr).

Lemma chosen_none (files : list ChangedFile) : chosen files (replicate (length files) None) = [].
Proof. by induction files. Qed.

Lemma fit_verifier_code_ok files excerpts rules candidates fits retrieved fs es rs :
  fits [] [] [] = Ok true →
  fit_verifier_code full_match float fl fmul math_log flt feq files excerpts rules candidates fits retrieved
    = Ok (fs, es, rs) →
  fits fs es rs = Ok true ∧ shows files fs ∧ es `sublist_of` excerpts ∧ rs `sublist_of` retrieved.
Proof.
  intros H0 (all & Hall & H)%bind_ok. destruct all.
  { injection H as <- <- <-. split_and!; [done|apply shows_all|done|done]. }
  apply bind_ok in H as (protected & _ & (own & Ho & ([es' rs'] & Ht & (kept & Hr & [= <- <- <-])%bind_ok)%bind_ok)%bind_ok).
  apply own_pass_ok in Ho as [Hk Hf]; [|by intros i f l _ [Hl _]%lookup_replicate|by rewrite chosen_none].
  apply take_pass_ok in Ht as (Hf' & He & Hrs); [|done|apply sublist_nil_l..].
  apply rest_pass_ok in Hr as [Hk' Hf'']; [|done..]. split_and!; [done|by apply chosen_shows|done|done].
Qed.

Abbreviation shown_code := (shown_code full_match float fl fmul math_log flt feq).
Abbreviation build := (build_verifier_prompt repr full_match float fl fmul math_log flt feq read_prompt).

Lemma shown_code_ok c candidates system blocks counter window s fs es rs :
  rx_policy_snapshot c = Some s →
  shown_code c candidates system blocks counter window = Ok (fs, es, rs) →
  ∃ budget user, send_budget_for (sn_execution_profile s) true window = Ok budget
    ∧ user_message blocks candidates fs es rs = Ok user
    ∧ tc_count counter system + tc_count counter user ≤ budget
    ∧ shows (rx_changed_files c) fs
    ∧ es `sublist_of` cited_excerpts (rx_context_blocks c) candidates
    ∧ rs `sublist_of` (if rx_retrieved_section c then cited_retrieved (rx_retrieved c) candidates else []).
Proof.
  unfold shown_code. intros -> (budget & Hb & H)%bind_ok. apply map_err_ok in Hb.
  destruct (budget <? _) eqn:E1; [done|]. apply bind_ok in H as (least & Hl & H). apply map_err_ok in Hl.
  destruct (budget <? least) eqn:E2; [done|]. apply map_err_ok, fit_verifier_code_ok in H as (Hf & Hs & He & Hr).
  - apply bind_ok in Hf as (n & (user & Hu & [= <-])%bind_ok & [= Hn]). exists budget, user.
    split_and!; [done..|lia|done|done|done].
  - unfold fits_tokens. cbv beta. rewrite Hl. cbn. do 2 f_equal. lia.
Qed.
End Verifier.

(** ** The checks of an answer *)

Lemma evidence_ref_error_none m meta cand_id ref :
  evidence_ref_error m meta cand_id ref = None ↔ evidence_shown m (Some meta) ref.
Proof.
  rewrite <- evidence_reason_none. unfold evidence_ref_error, evidence_reason, revision_reason.
  change EVIDENCE_ROLES with CODE_ROLES. cbv zeta. cbn [mbind option_bind].
  destruct (get_block m (er_block_id ref)) as [b|]; [|done]. case (negb _); [done|].
  destruct (mb_revision b) as [r|]; [case (truthy _ && _)|]; [|done|]; by case (is_range_shown _ _ _ _).
Qed.

(** A requirement shown: lines of a policy document, or the line of a check of the defaults, which is
    the candidate's own rule when it names one. *)
Definition requirement_shown (m : CallManifest) (check_lines : list (pystr * Z)) (rule_name : option pystr)
    (ref : RequirementRef) : Prop :=
  ∃ b, get_block m (qr_block_id ref) = Some b
    ∧ is_range_shown m (qr_block_id ref) (qr_start_line ref) (qr_end_line ref) = true
    ∧ (mb_source_role b = Role_policy_document ∧ qr_check_id ref = None
       ∨ mb_source_role b = Role_service_defaults
         ∧ ∃ check line, qr_check_id ref = Some check ∧ assoc check check_lines = Some line
             ∧ qr_start_line ref ≤ line ≤ qr_end_line ref
             ∧ ∀ rule, rule_name = Some (SERVICE_DEFAULTS_PREFIX ++ rule) → check = rule).

Lemma startswith_split s p : startswith s p = true ↔ ∃ t, s = p ++ t ∧ removeprefix s p = t.
Proof.
  unfold removeprefix. split.
  - intros H. rewrite H. apply startswith_iff in H as [t ->]. exists t. by rewrite drop_app_length.
  - intros (t & -> & _). apply startswith_iff. by exists t.
Qed.

Lemma check_line_spec lines rule_name cand_id check line :
  check_line lines rule_name cand_id check = inr line ↔
  assoc check lines = Some line ∧ ∀ rule, rule_name = Some (SERVICE_DEFAULTS_PREFIX ++ rule) → check = rule.
Proof.
  unfold check_line. destruct rule_name as [r|]; cbn [mbind option_bind].
  - destruct (startswith r SERVICE_DEFAULTS_PREFIX) eqn:E.
    + apply startswith_split in E as (t & -> & ->).
      assert (Hi : (∀ rule, Some (SERVICE_DEFAULTS_PREFIX ++ t) = Some (SERVICE_DEFAULTS_PREFIX ++ rule) →
                    check = rule) ↔ check = t).
      { split; [naive_solver|]. intros -> rule H. by apply (inj Some), app_inv_head in H. }
      rewrite Hi. destruct (check =?s t) eqn:Hc; [apply str_eqb_eq in Hc as ->|apply str_eqb_neq in Hc].
      * destruct (assoc t lines); naive_solver.
      * naive_solver.
    + destruct (assoc check lines) as [l|]; split; [|naive_solver|done|naive_solver].
      intros [= ->]. split; [done|]. intros rule H. apply (inj Some) in H as ->.
      by rewrite startswith_app in E.
  - destruct (assoc check lines) as [l|]; naive_solver.
Qed.

Lemma requirement_ref_error_none m lines rule_name cand_id ref :
  requirement_ref_error m lines rule_name cand_id ref = None ↔ requirement_shown m lines rule_name ref.
Proof.
  unfold requirement_ref_error, requirement_shown. cbv zeta.
  destruct (get_block m (qr_block_id ref)) as [b|]; [|naive_solver].
  case (bool_decide_reflect (mb_source_role b ∈ requirement_roles)); cbn [negb]; intros Hr.
  2: { split; [done|]. intros (b' & [= <-] & _ & [[E _]|[E _]]); rewrite E in Hr; destruct Hr; repeat constructor. }
  case (is_range_shown _ _ _ _); cbn [negb]; [|naive_solver].
  case (bool_decide_reflect (mb_source_role b = Role_service_defaults)); cbn [negb]; intros Hd.
  2: { assert (mb_source_role b = Role_policy_document) by set_solver.
       destruct (qr_check_id ref); naive_solver. }
  destruct (qr_check_id ref) as [check|].
  2: { split; [done|]. intros (b' & [= <-] & _ & [[? _]|[_ (? & ? & ? & _)]]); congruence. }
  destruct (check_line lines rule_name cand_id check) as [error|line] eqn:E.
  - split; [done|]. intros (b' & [= <-] & _ & [[? _]|[_ (check' & line & [= <-] & Ha & _ & Hrule)]]); [congruence|].
    rewrite (proj2 (check_line_spec lines rule_name cand_id check line) (conj Ha Hrule)) in E. done.
  - apply check_line_spec in E as [Ha Hrule].
    case (Z.leb_spec (qr_start_line ref) line); case (Z.leb_spec line (qr_end_line ref)); cbn [andb]; intros H1 H2.
    1: { split; [|done]. intros _. exists b. naive_solver. }
    all: split; [done|]; intros (b' & [= <-] & _ & [[? _]|[_ (check' & l & [= <-] & Ha' & Hl & _)]]); [congruence|];
      rewrite Ha in Ha'; injection Ha' as <-; lia.
Qed.

(** The rule a candidate names is stated by a requirement of a decision that needs evidence. *)
Definition rule_stated (m : CallManifest) (rule_name : option pystr) (d : VerificationDecision) : Prop :=
  ∀ r, rule_name = Some r → needs_evidence (vd_status d) = true →
  ∃ ref b, ref ∈ vd_requirement_refs d ∧ get_block m (qr_block_id ref) = Some b ∧ states_rule r b = true.

Lemma rule_requirement_error_none m rule_name d :
  rule_requirement_error m rule_name d = None ↔ rule_stated m rule_name d.
Proof.
  unfold rule_requirement_error, rule_stated. destruct rule_name as [r|]; [|naive_solver].
  case (needs_evidence _); cbn [negb]; [|naive_solver].
  destruct (py_any _ _) eqn:Hp.
  - split; [|done]. intros _ r' [= <-] _. apply existsb_exists in Hp as (ref & Hin%list_elem_of_In & Hs).
    destruct (get_block m (qr_block_id ref)) as [b|] eqn:E; naive_solver.
  - split; [done|]. intros H. destruct (H r eq_refl eq_refl) as (ref & b & Hin & Hb & Hs).
    enough (true = false) by done. rewrite <- Hp. symmetry. apply existsb_exists. exists ref.
    rewrite <- list_elem_of_In, Hb. done.
Qed.

(** A decision backed by what the manifest shows. *)
Definition decision_backed (m : CallManifest) (meta : PullRequestMeta) (check_lines : list (pystr * Z))
    (cand : CandidateFindingItem) (d : VerificationDecision) : Prop :=
  let rule_name := fg_rule_name (ci_v1 cand) in
  Forall (evidence_shown m (Some meta)) (vd_evidence_refs d)
  ∧ Forall (requirement_shown m check_lines rule_name) (vd_requirement_refs d)
  ∧ rule_stated m rule_name d.

Lemma omap_nil {A B} (f : A → option B) l : omap f l = [] ↔ Forall (λ a, f a = None) l.
Proof.
  induction l as [|a l IH]; [done|]. rewrite Forall_cons, <- IH. cbn [omap list_omap].
  change (list_omap _ _ f l) with (omap f l). destruct (f a); naive_solver.
Qed.

Lemma decision_errors_nil m meta lines cand d :
  decision_errors m meta lines cand d = [] ↔ decision_backed m meta lines cand d.
Proof.
  unfold decision_errors, decision_backed. cbv zeta. rewrite !app_nil, !omap_nil.
  rewrite <- rule_requirement_error_none, <- (Forall_iff _ _ _ (requirement_ref_error_none m lines (fg_rule_name (ci_v1 cand)) (firstn 64 (vd_candidate_id d)))).
  rewrite <- (Forall_iff _ _ _ (evidence_ref_error_none m meta (firstn 64 (vd_candidate_id d)))).
  destruct (rule_requirement_error _ _ _); naive_solver.
Qed.

(** The last of the values with a key, when keys differ, is the value with the key. *)
Lemma last_with_key {A} (key : A → pystr) l a :
  NoDup (key <$> l) → a ∈ l → find_first (λ x, key x =?s key a) (rev l) = Some a.
Proof.
  intros Hn Ha. assert (Hr : a ∈ rev l) by (by apply list_elem_of_In, in_rev; rewrite rev_involutive; apply list_elem_of_In).
  assert (Hk : ∀ x, x ∈ rev l → key x = key a → x = a).
  { intros x Hx E. apply list_elem_of_In, in_rev, list_elem_of_In in Hx.
    apply list_elem_of_lookup in Hx as [i Hi], Ha as [j Hj].
    enough (i = j) as -> by congruence. eapply NoDup_lookup; [exact Hn|..]; rewrite list_lookup_fmap.
    - by rewrite Hi. - by rewrite Hj; cbn; rewrite E. }
  clear Hn Ha. induction (rev l) as [|x xs IH]; [by inversion Hr|]. cbn [find_first].
  destruct (key x =?s key a) eqn:E.
  - apply str_eqb_eq in E. by rewrite (Hk x ltac:(by left) E).
  - apply IH; [|intros y Hy; apply Hk; by right]. apply elem_of_cons in Hr as [->|]; [|done].
    by rewrite str_eqb_refl in E.
Qed.

Lemma one_to_one_spec decisions candidates :
  NoDup (ci_candidate_id <$> candidates) →
  one_to_one decisions candidates = true ↔
  vd_candidate_id <$> decisions ≡ₚ ci_candidate_id <$> candidates.
Proof.
  intros Hn. unfold one_to_one. rewrite !andb_true_iff, Nat.eqb_eq. unfold py_all. rewrite !forallb_forall. split.
  - intros [[Hl _] Hc]. symmetry. apply submseteq_length_Permutation.
    + apply NoDup_submseteq; [done|]. intros id (c & -> & Hin)%list_elem_of_fmap.
      apply str_mem_elem, Hc. by apply list_elem_of_In.
    + by rewrite !length_fmap, Hl.
  - intros Hp. split_and!.
    + by rewrite <- (length_fmap vd_candidate_id), <- (length_fmap ci_candidate_id), Hp.
    + intros d Hd. apply str_mem_elem. rewrite <- Hp. apply list_elem_of_fmap_2. by apply list_elem_of_In.
    + intros c Hc. apply str_mem_elem. rewrite Hp. apply list_elem_of_fmap_2. by apply list_elem_of_In.
Qed.

Lemma answer_errors_nil decisions candidates m meta lines :
  verification_answer_errors decisions candidates m meta lines = [] ↔
  one_to_one decisions candidates = true
  ∧ ∀ d cand, d ∈ decisions → candidate_of candidates (vd_candidate_id d) = Some cand →
      decision_backed m meta lines cand d.
Proof.
  unfold verification_answer_errors. case (one_to_one _ _); cbn [negb]; [|naive_solver].
  setoid_rewrite <- decision_errors_nil.
  set (errors := decisions ≫= _). transitivity (errors = []).
  { split; [|by intros ->]. by destruct errors. }
  subst errors. split.
  - intros H. split; [done|]. intros d cand Hd Hc. induction decisions as [|x xs IH]; [by inversion Hd|].
    cbn [mbind list_bind] in H. apply app_nil in H as [Hx Hxs].
    apply elem_of_cons in Hd as [->|Hd]; [by rewrite Hc in Hx|by apply IH].
  - intros [_ H]. induction decisions as [|x xs IH]; [done|]. cbn [mbind list_bind]. apply app_nil. split.
    + destruct (candidate_of _ _) eqn:E; [|done]. apply (H x); [by left|done].
    + apply IH. intros d cand Hd. apply H. by right.
Qed.

(** ** What is published *)

Lemma read_answer_valid raw decisions : read_answer raw = Ok decisions → verification_valid decisions = true.
Proof. destruct raw as [ds| |]; cbn; [|done..]. destruct (verification_valid ds) eqn:E; [|done]. by intros [= ->]. Qed.

Lemma supported_cites decisions d :
  verification_valid decisions = true → d ∈ decisions → vd_status d = Ver_supported →
  vd_evidence_refs d ≠ [].
Proof.
  intros [_ Hall]%andb_true_iff Hd%list_elem_of_In Hs Hr. apply forallb_forall with (x := d) in Hall; [|done].
  unfold decision_valid in Hall. rewrite Hs, Hr in Hall. cbn in Hall. by rewrite andb_false_r in Hall.
Qed.

Lemma is_supported_spec decisions cand d :
  NoDup (vd_candidate_id <$> decisions) → d ∈ decisions → vd_candidate_id d = ci_candidate_id cand →
  decision_of decisions (ci_candidate_id cand) = Some d
  ∧ (is_supported decisions cand = true ↔ vd_status d = Ver_supported).
Proof.
  intros Hn Hd E. assert (Hof : decision_of decisions (ci_candidate_id cand) = Some d)
    by (rewrite <- E; by apply last_with_key).
  split; [done|]. unfold is_supported. rewrite Hof. by rewrite bool_decide_eq_true.
Qed.

Lemma published_iff candidates decisions cand :
  cand ∈ fst (filter_verified_candidates candidates decisions)
  ↔ cand ∈ candidates ∧ is_supported decisions cand = true.
Proof. by cbn [fst filter_verified_candidates]; rewrite !list_elem_of_In, filter_In. Qed.

(** What becomes of a candidate whose decision is [d]. *)
Lemma published_by_decision candidates decisions cand d :
  NoDup (vd_candidate_id <$> decisions) → cand ∈ candidates → d ∈ decisions →
  vd_candidate_id d = ci_candidate_id cand →
  let published := filter_verified_candidates candidates decisions in
  (cand ∈ fst published ↔ vd_status d = Ver_supported)
  ∧ (cand ∉ fst published → (cand, vd_status d, vd_reason d) ∈ snd published).
Proof.
  intros Hn Hc Hd E. destruct (is_supported_spec _ _ _ Hn Hd E) as [Hof Hs]. cbv zeta.
  rewrite published_iff, Hs. split; [naive_solver|]. intros Hnot. apply list_elem_of_fmap.
  exists cand. rewrite Hof. split; [done|]. apply list_elem_of_In, filter_In. split; [by apply list_elem_of_In|].
  destruct (is_supported decisions cand); [|done]. destruct Hnot. naive_solver.
Qed.

Lemma published_partition candidates decisions :
  let published := filter_verified_candidates candidates decisions in
  fst published ++ (fst ∘ fst <$> snd published) ≡ₚ candidates.
Proof.
  cbn [fst snd filter_verified_candidates]. rewrite <- list_fmap_compose.
  rewrite (list_fmap_ext _ id), list_fmap_id.
  - by rewrite Permutation_app_comm, filter_split_perm.
  - intros i x _. cbn. by destruct (decision_of _ _).
Qed.

(** Of an accepted answer, each candidate has one decision, backed, which decides its publication. *)
Lemma backed_decision candidates decisions m meta check_lines cand :
  NoDup (ci_candidate_id <$> candidates) →
  verification_answer_errors decisions candidates m meta check_lines = [] →
  verification_valid decisions = true → cand ∈ candidates →
  let published := filter_verified_candidates candidates decisions in
  ∃ d, d ∈ decisions ∧ vd_candidate_id d = ci_candidate_id cand
    ∧ decision_backed m meta check_lines cand d
    ∧ (cand ∈ fst published ↔ vd_status d = Ver_supported)
    ∧ (cand ∈ fst published → vd_evidence_refs d ≠ [])
    ∧ (cand ∉ fst published → (cand, vd_status d, vd_reason d) ∈ snd published).
Proof.
  intros Hn [Hone Hback]%answer_errors_nil Hv Hc published.
  apply one_to_one_spec in Hone; [|done].
  assert (Hnd : NoDup (vd_candidate_id <$> decisions)) by (by rewrite Hone).
  assert (Hid : ci_candidate_id cand ∈ vd_candidate_id <$> decisions)
    by (rewrite Hone; by apply list_elem_of_fmap_2).
  apply list_elem_of_fmap in Hid as (d & Hid & Hin).
  destruct (published_by_decision candidates decisions cand d) as [Hp Hs]; [done..|].
  exists d. split_and!; [done|done| |exact Hp| |exact Hs].
  - apply Hback; [done|]. rewrite <- Hid. by apply last_with_key.
  - intros Hin'%Hp. by eapply supported_cites.
Qed.

Section Pass.
Context (repr : pystr → pystr).
Context (full_match : pystr → pystr → bool).
Context (float : Type) (fl : Q → float) (fmul : float → float → float) (math_log : Z → float).
Context (flt feq : float → float → bool).
Context (markdown_parse : pystr → list MdToken).
Context (read_prompt : pystr → result pystr pystr).

(** What an accepted pass has done: one prompt, guarded, one answer, checked. *)
Lemma verify_recorded_ok b window call_id model candidates c record :
  candidates ≠ [] →
  verify_recorded repr full_match float fl fmul math_log flt feq markdown_parse read_prompt b window
    call_id model candidates c = Ok record →
  ∃ b' prompt base reply check_lines,
    build_verifier_prompt repr full_match float fl fmul math_log flt feq read_prompt b candidates c
      call_id window = Ok (b', prompt, base)
    ∧ verifier_guard markdown_parse c prompt base window = Ok tt
    ∧ service_defaults_check_lines repr c = Ok check_lines
    ∧ model prompt base (λ ds m, verification_answer_errors ds candidates m (rx_pr_meta c) check_lines)
      = Ok reply
    ∧ vc_accepted_call_id record = vr_accepted_call_id reply
    ∧ read_answer (vr_output reply) = Ok (vc_decisions record)
    ∧ verification_answer_errors (vc_decisions record) candidates
        (default base (vr_accepted_manifest reply)) (rx_pr_meta c) check_lines = [].
Proof.
  intros Hne H. unfold verify_recorded in H.
  rewrite bool_decide_false in H by (by intros ?%nil_length_inv).
  apply bind_ok in H as ([[b' prompt] base] & Hb & ([] & Hg & (lines & Hl%map_err_ok & H)%bind_ok)%bind_ok).
  apply bind_ok in H as (reply & Hr%map_err_ok & (decisions & Hd & H)%bind_ok).
  destruct (verification_answer_errors _ _ _ _ _) eqn:He; [|done]. injection H as <-.
  by exists b', prompt, base, reply, lines.
Qed.
End Pass.
