(* ===== verification/ReflectionTheorems.v ===== *)
(** * What the reflection pass guarantees

    The prompt of the verifier is within its budget and its manifest is of what it shows; an accepted
    answer is backed, decision by decision, by the manifest of its call; the candidates published are
    the supported ones. *)

From Stdlib Require Import String QArith.
From stdpp Require Import numbers gmap sets list.
From S2P Require Import Prelude PyText PyHash UnifiedDiff DiffMap Verdict RunFailures PolicyErrors.
From S2P Require Import ReviewIgnore PolicyDocuments PolicySnapshots VcsInput RunCoverage Findings.
From S2P Require Import PromptRender PromptBudget Manifests ManifestFacts AnswersV2 Reflection.
From S2P Require Import FindingsFacts ReflectionFacts.
#[local] Open Scope Z_scope.

Section Theorems.
Context (repr : pystr → pystr).
Context (full_match : pystr → pystr → bool).
Context (float : Type) (fl : Q → float) (fmul : float → float → float) (math_log : Z → float).
Context (flt feq : float → float → bool).
Context (markdown_parse : pystr → list MdToken).
Context (read_prompt : pystr → result pystr pystr).

Abbreviation build := (build_verifier_prompt repr full_match float fl fmul math_log flt feq read_prompt).
Abbreviation verify :=
  (verify_recorded repr full_match float fl fmul math_log flt feq markdown_parse read_prompt).

(** C28.  A prompt of the verifier built for a snapshot is within the send budget of its profile (so
    the guard before the call never reports an overflow, only the provenance of the manifest); it
    shows the policy and every candidate, and of the code only parts of the changed files and excerpts
    the candidates cite; its manifest is that of what is shown. *)
Theorem verifier_prompt_fits b candidates c call_id window b' p m s :
  rx_policy_snapshot c = Some s →
  build b candidates c call_id window = Ok (b', p, m) →
  ∃ counter budget policy files excerpts retrieved shown,
    token_counter_for (ep_counter_version (sn_execution_profile s)) = Ok counter
    ∧ send_budget_for (sn_execution_profile s) true window = Ok budget
    ∧ tc_count counter (vp_system p) + tc_count counter (vp_user p) ≤ budget
    ∧ verifier_guard markdown_parse c p m window
      = map_err of_ignore (verify_provenance_pre_send_guard markdown_parse m (Some c) (Some s))
    ∧ policy_blocks repr c = Ok policy
    ∧ user_message (policy ++ conventions_blocks c) candidates files excerpts retrieved = Ok (vp_user p)
    ∧ shows (rx_changed_files c) files
    ∧ excerpts `sublist_of` cited_excerpts (rx_context_blocks c) candidates
    ∧ retrieved `sublist_of`
        (if rx_retrieved_section c then cited_retrieved (rx_retrieved c) candidates else [])
    ∧ build_manifest repr (shown_context c files excerpts retrieved) call_id Stage_verification
        Recovery_none (Some counter) = Ok shown
    ∧ cm_blocks m = cm_blocks shown ++ (conventions_block (Some counter) <$> conventions_blocks c)
                    ++ (candidate_block (Some counter) <$> candidates).
Proof.
  intros Hs H. unfold build_verifier_prompt in H. rewrite Hs in H. cbn [mbind option_bind] in H.
  apply bind_ok in H as (bound & _ & (counter & Hc%map_err_ok & H)%bind_ok).
  apply bind_ok in H as (_ & _ & (policy & Hp%map_err_ok & ([[fs es] rs] & Hf & H)%bind_ok)%bind_ok).
  apply bind_ok in H as (user & Hu%map_err_ok & (shown & Hm%map_err_ok & H)%bind_ok).
  eapply shown_code_ok in Hf as (budget & user' & Hb & Hu' & Hle & Hfiles & He & Hr); [|done].
  assert (user' = user) as -> by congruence.
  unfold has_snapshot in Hm, H. rewrite Hs in Hm, H. injection H as <- <- <-.
  exists counter, budget, policy, fs, es, rs, shown. split_and!; try done.
  unfold verifier_guard. rewrite Hs, Hc. cbn [map_err mbind result_bind]. rewrite Hb.
  cbn [map_err mbind result_bind vp_system vp_user]. rewrite (proj2 (Z.ltb_ge _ _)); done.
Qed.

(** C27.  When the candidates have distinct ids, an answer has no error exactly when its decisions
    are one per candidate and each is backed by the manifest: every evidence reference names shown
    lines of a code block at the revision of its side, every requirement reference names shown lines
    of a policy document or the line of its check in the defaults, and a decision that supports or
    contradicts a candidate that names a rule cites that rule (a decision of insufficient context need
    not). *)
Theorem answer_backed_exact decisions candidates m meta check_lines :
  NoDup (ci_candidate_id <$> candidates) →
  verification_answer_errors decisions candidates m meta check_lines = [] ↔
  vd_candidate_id <$> decisions ≡ₚ ci_candidate_id <$> candidates
  ∧ ∀ d cand, d ∈ decisions → cand ∈ candidates → vd_candidate_id d = ci_candidate_id cand →
      decision_backed m meta check_lines cand d.
Proof.
  intros Hn. rewrite answer_errors_nil, (one_to_one_spec _ _ Hn). split; intros [Hp H]; split; [done| |done|].
  - intros d cand Hd Hc E. apply H; [done|]. rewrite E. by apply last_with_key.
  - intros d cand Hd Hc. apply find_first_some in Hc as [Hin E%str_eqb_eq].
    apply in_rev, list_elem_of_In in Hin. by apply H.
Qed.

(** A verified run publishes exactly the candidates with a supporting decision.  When the pass
    accepts an answer for candidates of distinct ids, the manifest of its call backs the one decision
    of each candidate; a candidate is kept when that decision supports it, which then cites evidence,
    and is reported as dropped with its status and reason otherwise. *)
Theorem published_is_backed b window call_id model candidates c record :
  NoDup (ci_candidate_id <$> candidates) → candidates ≠ [] →
  verify b window call_id model candidates c = Ok record →
  let published := filter_verified_candidates candidates (vc_decisions record) in
  ∃ b' prompt base reply check_lines,
    build b candidates c call_id window = Ok (b', prompt, base)
    ∧ verifier_guard markdown_parse c prompt base window = Ok tt
    ∧ service_defaults_check_lines repr c = Ok check_lines
    ∧ model prompt base (λ ds m, verification_answer_errors ds candidates m (rx_pr_meta c) check_lines)
      = Ok reply
    ∧ vc_accepted_call_id record = vr_accepted_call_id reply
    ∧ (∀ cand, cand ∈ candidates → ∃ d,
        d ∈ vc_decisions record ∧ vd_candidate_id d = ci_candidate_id cand
        ∧ decision_backed (default base (vr_accepted_manifest reply)) (rx_pr_meta c) check_lines cand d
        ∧ (cand ∈ fst published ↔ vd_status d = Ver_supported)
        ∧ (cand ∈ fst published → vd_evidence_refs d ≠ [])
        ∧ (cand ∉ fst published → (cand, vd_status d, vd_reason d) ∈ snd published))
    ∧ fst published ++ (fst ∘ fst <$> snd published) ≡ₚ candidates.
Proof.
  intros Hn Hne H published. destruct (verify_recorded_ok _ _ _ _ _ _ _ _ _ _ _ _ _ _ _ _ _ Hne H)
    as (b' & prompt & base & reply & lines & Hb & Hg & Hl & Hr & Hid & Hv & He).
  exists b', prompt, base, reply, lines. split_and!; [done..| |apply published_partition].
  intros cand Hc. by apply (backed_decision _ _ _ _ _ _ Hn He (read_answer_valid _ _ Hv)).
Qed.
End Theorems.

(** ** A candidate, its prompt and an answer *)

Definition verifier_text : pystr := u8 "Verify each finding.".
Definition verifier_resource (name : pystr) : result pystr pystr :=
  if name =?s u8 "review.verifier.v2.md" then Ok verifier_text else Err (u8 "no such file").
Definition verified_snapshot : PolicySnapshot :=
  mkPolicySnapshot 1 7%N 5%N 4%N (u8 "base") (missing_document RULES_DOCUMENT_PATH)
    (missing_document AGENTS_DOCUMENT_PATH) [] [] PARSER_PROFILE [] [] [] []
    PRIORITY_MATCHER_VERSION 8%N []
    (mkPromptBindings (u8 "r") (u8 "c") (default [] (sha256_text verifier_text)) [] [] [] [] [] (u8 "v2")
       (Some 1%N) (Some 2%N) (Some 3%N))
    (mkExecutionProfile (u8 "fast") (u8 "m") (u8 "m") None 12000 60000 4 None None None (Some (u8 "r")) None
       (Some (u8 "tokenizer/v1")) (Some (u8 "counter/v2")) (Some (u8 "0")) (Some (u8 "v2"))
       (Some (u8 "recovery/v1")) (Some (u8 "budget/v1"))) (u8 "d") None None None.
Definition verified_context : ReviewContext :=
  mkReviewContext (rx_system gap_context) [] None (rx_conventions gap_context) (rx_pr_meta gap_context)
    [gap_file; mkChangedFile (u8 "b.py") Status_modified [mkDiffLine 3 Row_added (u8 "v")] None] []
    (Some verified_snapshot) Th_all [] [] false 0.
Definition verified_candidate : CandidateFindingItem :=
  mkCandidateFindingItem (u8 "c1")
    (mkReviewFindingV2 (f2_finding (AnswersV2.sample_finding 2)) [mkEvidenceRef gap_block_id 1 2]).
Definition verified_builder : VerifierPromptBuilder :=
  mkVerifierPromptBuilder (u8 "v2") verifier_text verifier_text.

(** A prompt of 300 tokens has room for the lines of the candidate only. *)
Definition verified_prompt
  : result VerifyExc (VerifierPromptBuilder * VerifierPrompt * CallManifest) :=
  build_verifier_prompt id (λ _ _, false) Z (λ _, 1) Z.mul id Z.ltb Z.eqb verifier_resource
    verified_builder [verified_candidate] verified_context 9%N (Some 300).

Definition supporting_answer : list VerificationDecision :=
  [mkVerificationDecision (u8 "c1") Ver_supported (u8 "The guard is missing.")
     [mkEvidenceRef gap_block_id 1 2] []].
Definition supporting_reply : VerifierReply :=
  mkVerifierReply (Raw_decisions supporting_answer) (Some 9%N) None None.

Lemma verifier_prompt_fits_witness :
  match verified_prompt with
  | Ok (_, p, m) =>
      ∃ counter budget,
        token_counter_for (ep_counter_version (sn_execution_profile verified_snapshot)) = Ok counter
        ∧ send_budget_for (sn_execution_profile verified_snapshot) true (Some 300) = Ok budget
        ∧ tc_count counter (vp_system p) + tc_count counter (vp_user p) ≤ budget
  | Err _ => False
  end.
Proof.
  pose proof (λ b' p m, verifier_prompt_fits id (λ _ _, false) Z (λ _, 1) Z.mul id Z.ltb Z.eqb (λ _, [])
    verifier_resource verified_builder [verified_candidate] verified_context 9%N (Some 300) b' p m
    verified_snapshot eq_refl) as H.
  assert (Hok : is_ok verified_prompt = true) by (vm_compute; reflexivity).
  change (build_verifier_prompt _ _ _ _ _ _ _ _ _ _ _ _ _ _) with verified_prompt in H.
  destruct verified_prompt as [[[b' p] m]|]; [|discriminate Hok].
  destruct (H b' p m eq_refl) as (counter & budget & _ & _ & _ & _ & _ & Hc & Hb & Hle & _).
  exists counter, budget. split; [exact Hc|split; [exact Hb|exact Hle]].
Defined.

Lemma answer_backed_exact_witness :
  verification_answer_errors supporting_answer [verified_candidate] gap_manifest (rx_pr_meta gap_context) []
    = [] ↔
  vd_candidate_id <$> supporting_answer ≡ₚ ci_candidate_id <$> [verified_candidate]
  ∧ ∀ d cand, d ∈ supporting_answer → cand ∈ [verified_candidate] →
      vd_candidate_id d = ci_candidate_id cand →
      decision_backed gap_manifest (rx_pr_meta gap_context) [] cand d.
Proof. apply answer_backed_exact. cbn. apply NoDup_singleton. Defined.

Example backed_answer :
  verification_answer_errors supporting_answer [verified_candidate] gap_manifest (rx_pr_meta gap_context) []
  = [].
Proof. vm_compute. reflexivity. Qed.

Lemma published_is_backed_witness :
  [verified_candidate] ≠ []
  ∧ fst (filter_verified_candidates [verified_candidate] supporting_answer)
    ++ (fst ∘ fst <$> snd (filter_verified_candidates [verified_candidate] supporting_answer))
    ≡ₚ [verified_candidate].
Proof.
  split; [discriminate|].
  destruct (published_is_backed id (λ _ _, false) Z (λ _, 1) Z.mul id Z.ltb Z.eqb (λ _, [])
    verifier_resource verified_builder (Some 300) 9%N (λ _ _ _, Ok supporting_reply) [verified_candidate]
    verified_context (mkVerificationRecord supporting_answer [u8 "c1"] (Some 9%N) None))
    as (? & ? & ? & ? & ? & _ & _ & _ & _ & _ & _ & H).
  - apply NoDup_singleton.
  - discriminate.
  - vm_compute. reflexivity.
  - exact H.
Defined.
