(* ===== verification/VerifiedReview.v ===== *)
(** * From a model answer to a verified review ([execute_review.py])

    The candidates of an answer pass coordinates, attribution, the lint filter, deduplication, the
    attribution repair, the verifier and the severity threshold; every dropped one is recorded.
    A candidate's identity is its position in the answer: the code keys positions by [id()] of
    findings it builds one per item. *)

From Stdlib Require Import String QArith.
From stdpp Require Import numbers gmap sets.
From S2P Require Import Prelude PyText PyHash UnifiedDiff DiffMap PyFloat PyValue Verdict RunFailures PolicyErrors.
From S2P Require Import ReviewIgnore PolicyDocuments PolicySnapshots VcsInput RunCoverage Findings.
From S2P Require Import PromptRender PromptBudget Manifests AnswersV2 ReviewPath Reflection.
#[local] Open Scope Z_scope.

(** ** What a run raises here

    [EX_python] is an exception of a collaborator or of the standard library, by its class. *)
Inductive ExecExc : Type :=
| EX_policy (e : PolicyError)
| EX_run (f : RunFailure)
| EX_invalid (message : pystr)
| EX_verify (e : VerifyExc)
| EX_python (class_name : pystr).

Definition ex_prompt (e : PromptError) : ExecExc :=
  match e with PR_policy p => EX_policy p | PR_encode => EX_python (u8 "UnicodeEncodeError") end.
Definition ex_hunk (e : HunkError) : ExecExc :=
  EX_python (match e with Hunk_index => u8 "IndexError" | Hunk_stop => u8 "StopIteration" end).

(** ** The answer *)

(** An item of [findings]: a dict with values of the types of the schema, one without evidence, one
    pydantic does not read (with its message), or another object.  [v1] is what the keys of the dict
    other than [evidence_refs] read as, when they are those of a first-version finding. *)
Inductive RawFinding : Type :=
| Item_fields (f : ReviewFindingV2)
| Item_no_evidence (v1 : option ReviewFinding)
| Item_unreadable (message : pystr) (v1 : option ReviewFinding)
| Item_unsupported (type_name : pystr).

(** [data]: its [findings] (no key or null, not a list, or a list) and its other keys. *)
Inductive RawFindings : Type :=
| Findings_missing
| Findings_not_a_list
| Findings_list (items : list RawFinding).
Record AnswerData : Type := mkAnswerData {
  ad_findings : RawFindings;
  ad_rest : list (pystr * pyval)
}.

(** What [json.loads] gives, or raises: a [JSONDecodeError] or another [ValueError]. *)
Inductive LoadedJson : Type :=
| Loaded_dict (data : AnswerData)
| Loaded_other (type_name : pystr)
| Loaded_malformed (message : pystr)
| Loaded_undecodable.

Record DroppedCandidateRecord : Type := mkDroppedCandidateRecord {
  dc_finding : ReviewFindingV2;
  dc_drop_reason : pystr;
  dc_position : Z
}.

(** A payload as the model gave it, or with the findings and the summary of the pass. *)
Inductive AnswerPayload : Type :=
| Payload_raw (data : AnswerData)
| Payload_verified (findings : list ReviewFindingV2) (summary : ReviewSummary)
    (rest : list (pystr * pyval)).

(** [decision.model_dump(exclude={"reason"})] *)
Record StoredDecision : Type := mkStoredDecision {
  sd_candidate_id : pystr;
  sd_status : VerificationStatus;
  sd_evidence_refs : list EvidenceRef;
  sd_requirement_refs : list RequirementRef
}.
Definition stored_decision (d : VerificationDecision) : StoredDecision :=
  mkStoredDecision (vd_candidate_id d) (vd_status d) (vd_evidence_refs d) (vd_requirement_refs d).

Record VerifyRequest : Type := mkVerifyRequest {
  vq_candidate_ids : list pystr;
  vq_accepted_call_id : option UUID;
  vq_manifest_id : option UUID
}.

Record VerifiedReviewOutput : Type := mkVerifiedReviewOutput {
  vo_payload : AnswerPayload;
  vo_dropped_findings : list DroppedCandidateRecord;
  vo_severity_threshold : option SeverityThreshold;
  vo_allowed_v2_rules : option (gset pystr);
  vo_verify_request : option VerifyRequest;
  vo_verify_response : option (list StoredDecision);
  vo_incomplete_paths : list pystr
}.

(** The keys of [data] that are not replaced. *)
Definition other_keys (data : AnswerData) : list (pystr * pyval) :=
  List.filter (λ kv, negb (fst kv =?s u8 "summary")) (ad_rest data).

(** What a model adapter returns. *)
Inductive ModelOutput : Type :=
| Out_mapping (data : AnswerData)
| Out_verified (v : VerifiedReviewOutput)
| Out_text (loaded : LoadedJson)
| Out_other (type_name : pystr).

(** The dict of a payload; a dumped finding has values of the types of the schema. *)
Definition payload_data (p : AnswerPayload) : AnswerData :=
  match p with
  | Payload_raw data => data
  | Payload_verified findings _ rest => mkAnswerData (Findings_list (Item_fields <$> findings)) rest
  end.

(** ** Candidates *)

Definition dump_evidence_ref (r : EvidenceRef) : pyval :=
  VDict [(u8 "block_id", VStr (er_block_id r)); (u8 "start_line", VInt (er_start_line r));
         (u8 "end_line", VInt (er_end_line r))].

(** [finding.model_dump(mode="json")] *)
Definition dump_finding (f2 : ReviewFindingV2) : pyval :=
  let f := f2_finding f2 in
  VDict
    [(u8 "path", VStr (fg_path f)); (u8 "line", VInt (fg_line f));
     (u8 "start_line", VOpt VInt (fg_start_line f));
     (u8 "severity", VStr (Severity_value (fg_severity f)));
     (u8 "category", VStr (Category_value (fg_category f)));
     (u8 "title", VStr (fg_title f)); (u8 "body", VStr (fg_body f));
     (u8 "suggestion", VOpt VStr (fg_suggestion f));
     (u8 "confidence", VReal (true_divide (Qnum (fg_confidence f)) (Zpos (Qden (fg_confidence f)))));
     (u8 "rule_name", VOpt VStr (fg_rule_name f));
     (u8 "evidence_refs", VList (dump_evidence_ref <$> f2_evidence_refs f2))].

Definition verifier_candidate_id (index : Z) (f : ReviewFindingV2) : result ExecExc pystr :=
  match value_digest (VDict [(u8 "index", VInt index); (u8 "finding", dump_finding f)]) with
  | Some digest => Ok digest
  | None => Err (EX_python (u8 "UnicodeEncodeError"))
  end.

(** A candidate with its position in the answer. *)
Abbreviation placed := (Z * CandidateFindingItem)%type.

(** What a prompt shows of a context payload ([snapshot_block] and [snapshot_retrieved] of
    [review_context.py]). *)
Definition short_digest (id : pystr) : result ExecExc pystr :=
  match sha256_text id with
  | Some d => Ok (firstn 16 d)
  | None => Err (EX_python (u8 "UnicodeEncodeError"))
  end.
Definition short_revision (s : SourceRef) : pystr := firstn 12 (default [] (sf_revision s)).

Definition snapshot_block (b : ContextBlock) : result ExecExc ContextBlock :=
  if negb (level_is Level_L4 b) then Ok b
  else
    digest ← short_digest (cb_block_id b);
    Ok (mkContextBlock (u8 "L4:" ++ short_revision (cb_source b) ++ u8 ":" ++ digest) (cb_level b)
          (cb_file_id b) (cb_source b) (cb_representation b) (cb_text b) (cb_tokens b) (cb_truncated b)
          (cb_related_sources b)).

Definition snapshot_retrieved (b : RetrievedBlock) : result ExecExc RetrievedBlock :=
  digest ← short_digest (rb_block_id b);
  Ok (mkRetrievedBlock (u8 "RAG:" ++ short_revision (rb_source b) ++ u8 ":" ++ digest) (rb_level b)
        (rb_source b) (rb_representation b) (rb_text b) (rb_tokens b) (rb_edge_kind b)
        (rb_index_commit_sha b) (rb_definitions b)).

(** The fields of a payload this use case reads. *)
Record PayloadView : Type := mkPayloadView {
  pv_blocks : list ContextBlock;
  pv_retrieved : list RetrievedBlock;
  pv_ignored_files : Z
}.
Definition is_excerpt_level (l : ContextLevel) : bool :=
  bool_decide (l ∈ [Level_L2; Level_L3; Level_L4]).

Record SnapshotExcerpts : Type := mkSnapshotExcerpts {
  se_context_blocks : list ContextBlock;
  se_retrieved : list RetrievedBlock;
  se_excluded_files : Z
}.
Definition snapshot_excerpts (p : PayloadView) (retrieved_section : bool)
  : result ExecExc SnapshotExcerpts :=
  blocks ← map_result snapshot_block (List.filter (λ b, is_excerpt_level (cb_level b)) (pv_blocks p));
  retrieved ← (if retrieved_section then map_result snapshot_retrieved (pv_retrieved p) else Ok []);
  Ok (mkSnapshotExcerpts blocks retrieved (pv_ignored_files p)).

(** [rag_index.py] *)
Definition has_retrieved_section (key version : pystr) : bool :=
  (key =?s u8 "review.system") && (version =?s u8 "v5").

(** ** The summary *)

Definition has_severity (s : Severity) (l : list ReviewFindingV2) : bool :=
  py_any (λ f, bool_decide (fg_severity (f2_finding f) = s)) l.
Definition deterministic_effort (findings : list ReviewFindingV2) : Effort :=
  if has_severity Sev_critical findings then Effort_large
  else if has_severity Sev_high findings then Effort_medium
  else if has_severity Sev_medium findings || has_severity Sev_low findings then Effort_small
  else Effort_none.

Definition deterministic_problem (findings : list ReviewFindingV2) (below_threshold_count : Z) : pystr :=
  match findings with
  | [] =>
      if 0 <? below_threshold_count
      then u8 "No verified issues meeting the severity threshold were found ("
           ++ str_of_Z below_threshold_count ++ u8 " below threshold)."
      else u8 "No verified issues were found in the evaluated changes."
  | _ =>
      let categories :=
        py_sorted str_leb
          (remove_dups ((λ f, Category_value (fg_category (f2_finding f))) <$> findings)) in
      let issue_word := if py_len findings =? 1 then u8 "issue" else u8 "issues" in
      u8 "Identified " ++ str_of_Z (py_len findings) ++ u8 " verified " ++ issue_word ++ u8 " ("
      ++ join (u8 ", ") categories ++ u8 ") in the reviewed changes."
  end.

Definition DONE_WELL : pystr :=
  u8 "Code analysis and policy verification were completed across all evaluated changes.".

Definition build_deterministic_summary (findings : list ReviewFindingV2) (below_threshold_count : Z)
  : ReviewSummary :=
  mkReviewSummary (deterministic_problem findings below_threshold_count) DONE_WELL
    (match findings with [] => Effort_none | _ => deterministic_effort findings end).

(** ** The passes over the candidates *)

Definition allowed_rules_of (s : PolicySnapshot) : gset pystr :=
  list_to_set ((if is_missing (sn_rules s) then [] else [u8 ".review/rules.md"])
               ++ (if is_missing (sn_agents s) then [] else [u8 "AGENTS.md"])).

Definition placed_item (p : placed) : ProcessedFinding :=
  mkProcessedFinding (ci_v1 (snd p)) (fst p) Bucket_inline None.
Definition candidate_at (placed : list placed) (position : Z) : option CandidateFindingItem :=
  snd <$> find_first (λ p, fst p =? position) placed.

(** Records of the dropped items, with the findings of their positions. *)
Definition dropped_records (candidates : list placed) (reason : pystr) (items : list ProcessedFinding)
  : list DroppedCandidateRecord :=
  omap (λ i, c ← candidate_at candidates (pf_position i);
             Some (mkDroppedCandidateRecord (ci_finding c) reason (pf_position i))) items.
Definition at_positions (items : list ProcessedFinding) (p : placed) : bool :=
  z_mem (fst p) (pf_position <$> items).

Definition repair_candidate (rule_names allowed_v2_rules : gset pystr) (p : placed) : placed :=
  let repaired := pf_finding (repair_attribution (placed_item p) rule_names (Some allowed_v2_rules)) in
  (fst p, mkCandidateFindingItem (ci_candidate_id (snd p))
            (mkReviewFindingV2 repaired (f2_evidence_refs (ci_finding (snd p))))).

(** A rejected candidate with its status; [filter_verified_candidates] on placed candidates. *)
Definition supported_placed (decisions : list VerificationDecision) (l : list placed) : list placed :=
  List.filter (λ p, is_supported decisions (snd p)) l.
Definition rejection (decisions : list VerificationDecision) (p : placed) : DroppedCandidateRecord :=
  mkDroppedCandidateRecord (ci_finding (snd p))
    (VerificationStatus_value
       match decision_of decisions (ci_candidate_id (snd p)) with
       | Some d => vd_status d
       | None => Ver_insufficient_context
       end) (fst p).
Definition rejected_records (decisions : list VerificationDecision) (l : list placed)
  : list DroppedCandidateRecord :=
  rejection decisions <$> List.filter (λ p, negb (is_supported decisions (snd p))) l.

(** [attr_err.split(":")[0].strip()] *)
Definition drop_code (reason : pystr) : pystr :=
  match reason with
  | [] => u8 "evidence_not_shown"
  | _ => strip_with is_space (fst (span_until 58%N reason))
  end.

(** What the processor gives: conventions, nothing to go on with, or one of the exceptions that end
    the run without a model. *)
Inductive Prepared (conventions : Type) : Type :=
| Prepared_conventions (c : conventions)
| Prepared_stop
| Prepared_no_model.
Arguments Prepared_conventions {_}.
Arguments Prepared_stop {_}.
Arguments Prepared_no_model {_}.

Section Run.
Context (repr : pystr → pystr).
Context (read_prompt : pystr → result pystr pystr).
(** The patterns of the lint filter, the text of a refused finding and of any other type. *)
Context (patterns : LintFilterPatterns) (refusal : ReviewFindingV2 → pystr).

Definition malformed (idx : Z) (text : pystr) : ExecExc :=
  EX_invalid (u8 "Malformed candidate finding at index " ++ str_of_Z idx ++ u8 ": " ++ text).

Definition read_finding (idx : Z) (item : RawFinding) : result ExecExc ReviewFindingV2 :=
  match item with
  | Item_fields f => if finding_v2_valid f then Ok f else Err (malformed idx (refusal f))
  | Item_no_evidence _ =>
      Err (EX_invalid (u8 "Candidate finding at index " ++ str_of_Z idx
                       ++ u8 " missing required evidence_refs"))
  | Item_unreadable message _ => Err (malformed idx message)
  | Item_unsupported type_name =>
      Err (EX_invalid (u8 "Unsupported finding type in draft review: " ++ type_name))
  end.

(** Passes 2 and 3 on one item: a candidate, or the record of its drop. *)
Definition screen (c : ReviewContext) (original_files : list ChangedFile) (ignored : gset pystr)
    (manifest : CallManifest) (snapshot : PolicySnapshot) (idx : Z) (item : RawFinding)
  : result ExecExc (DroppedCandidateRecord + placed) :=
  f ← read_finding idx item;
  cand_id ← verifier_candidate_id idx f;
  coords ← map_err ex_hunk (validate_v2_coordinates f (rx_changed_files c) original_files ignored);
  match coords with
  | Some reason =>
      Ok (inl (mkDroppedCandidateRecord f (if reason =?s [] then u8 "line_absent" else reason) idx))
  | None =>
      match validate_v2_attribution f manifest (Some (rx_pr_meta c)) (Some snapshot) with
      | Some reason => Ok (inl (mkDroppedCandidateRecord f (drop_code reason) idx))
      | None => Ok (inr (idx, mkCandidateFindingItem cand_id f))
      end
  end.

Fixpoint screen_all (c : ReviewContext) (original_files : list ChangedFile) (ignored : gset pystr)
    (manifest : CallManifest) (snapshot : PolicySnapshot) (idx : Z) (items : list RawFinding)
  : result ExecExc (list DroppedCandidateRecord * list placed) :=
  match items with
  | [] => Ok ([], [])
  | item :: items' =>
      r ← screen c original_files ignored manifest snapshot idx item;
      '(dropped, kept) ← screen_all c original_files ignored manifest snapshot (idx + 1) items';
      Ok (match r with inl d => (d :: dropped, kept) | inr p => (dropped, p :: kept) end)
  end.

(** Pass 4: the candidates the lint filter and deduplication keep, with the records of the others. *)
Definition prefilter (candidates : list placed) : list placed * list DroppedCandidateRecord :=
  let '(unlinted, lint_dropped) := drop_lint_patterns patterns (placed_item <$> candidates) in
  let '(kept, duplicate_dropped) := deduplicate unlinted in
  (List.filter (at_positions kept) candidates,
   dropped_records candidates (u8 "lint_pattern") lint_dropped
   ++ dropped_records candidates (u8 "duplicate") duplicate_dropped).

(** Pass 6. *)
Definition above_threshold (supported : list placed) (threshold : SeverityThreshold)
  : list placed * list DroppedCandidateRecord :=
  let '(surviving, below) := drop_below_threshold (placed_item <$> supported) threshold in
  (List.filter (at_positions surviving) supported,
   dropped_records supported (u8 "severity_threshold") below).

Definition answer_data (output : ModelOutput) : result ExecExc AnswerData :=
  match output with
  | Out_text (Loaded_dict data) | Out_mapping data => Ok data
  | Out_verified v => Ok (payload_data (vo_payload v))
  | Out_text (Loaded_other type_name) =>
      Err (EX_invalid (u8 "Expected dict for review model output, got " ++ type_name))
  | Out_text (Loaded_malformed message) =>
      Err (EX_invalid (u8 "Malformed review model JSON output: " ++ message))
  | Out_text Loaded_undecodable => Err (EX_python (u8 "UnicodeDecodeError"))
  | Out_other type_name => Err (EX_invalid (u8 "Unexpected review model output type: " ++ type_name))
  end.

Definition raw_items (data : AnswerData) : result ExecExc (list RawFinding) :=
  match ad_findings data with
  | Findings_list items =>
      if 10 <? py_len items
      then Err (EX_invalid (u8 "Draft review exceeded maximum of 10 findings"))
      else Ok items
  | _ => Err (EX_invalid (u8 "Review model output missing 'findings' list"))
  end.

(** [verify] is [verify_recorded] of the attempt's reflection pass. *)
Definition run_reflection_pass
    (verify : list CandidateFindingItem → ReviewContext → result VerifyExc VerificationRecord)
    (output : ModelOutput) (c : ReviewContext) (s : PolicySnapshot) (reviewer_manifest : option CallManifest)
    (call_id : UUID) (original_files : list ChangedFile) (ignored : gset pystr)
  : result ExecExc VerifiedReviewOutput :=
  data ← answer_data output;
  items ← raw_items data;
  let allowed := allowed_rules_of s in
  let threshold := rx_severity_threshold c in
  manifest ← (match reviewer_manifest with
              | Some m => Ok m
              | None => map_err ex_prompt (build_manifest repr c call_id Stage_review Recovery_none None)
              end);
  '(dropped, candidates) ← screen_all c original_files ignored manifest s 0 items;
  let '(filtered, dropped_early) := prefilter candidates in
  match filtered with
  | [] =>
      Ok (mkVerifiedReviewOutput
            (Payload_verified [] (build_deterministic_summary [] 0) (other_keys data))
            (dropped ++ dropped_early) (Some threshold) None None None [])
  | _ =>
      let rule_names := list_to_set (rr_name <$> rx_rules c) in
      let repaired := repair_candidate rule_names allowed <$> filtered in
      record ← map_err EX_verify (verify (snd <$> repaired) c);
      let decisions := vc_decisions record in
      let '(surviving, below) := above_threshold (supported_placed decisions repaired) threshold in
      let findings := (λ p, ci_finding (snd p)) <$> surviving in
      Ok (mkVerifiedReviewOutput
            (Payload_verified findings (build_deterministic_summary findings (py_len below))
               (other_keys data))
            (dropped ++ dropped_early ++ rejected_records decisions repaired ++ below)
            (Some threshold) (Some allowed)
            (Some (mkVerifyRequest (vc_candidate_ids record) (vc_accepted_call_id record)
                     (vc_manifest_id record)))
            (Some (stored_decision <$> decisions)) [])
  end.

(** ** The run *)

(** [ReviewPromptInput] *)
Record ReviewPromptInput : Type := mkReviewPromptInput {
  pi_system : pystr;
  pi_rules : list ReviewRule;
  pi_agents_md : option pystr;
  pi_conventions : RepoConventions;
  pi_changed_files : list ChangedFile;
  pi_omitted_files : list pystr;
  pi_policy_snapshot : option PolicySnapshot;
  pi_severity_threshold : SeverityThreshold;
  pi_review_binding : option ReviewBinding
}.

(** [ReviewContextFilter]: what the policy stage of the attempt hands over. *)
Record ReviewContextFilter : Type := mkReviewContextFilter {
  cf_diff_old_sha : option pystr;
  cf_head_sha : option pystr;
  cf_snapshot_for_llm : option PolicySnapshot;
  cf_payload : option PayloadView;
  cf_ignored_file_paths : gset pystr;
  cf_excluded : pystr → bool
}.

Definition with_snapshot (i : ReviewPromptInput) (s : option PolicySnapshot) : ReviewPromptInput :=
  mkReviewPromptInput (pi_system i) (pi_rules i) (pi_agents_md i) (pi_conventions i) (pi_changed_files i)
    (pi_omitted_files i) s (pi_severity_threshold i) (pi_review_binding i).

Definition with_shas (meta : PullRequestMeta) (diff_old_sha head_sha : option pystr) : PullRequestMeta :=
  mkPullRequestMeta (pm_title meta) (pm_description meta) (pm_author meta) (pm_source_branch meta)
    (pm_target_branch meta) (pm_labels meta) (pm_files_changed meta) (pm_lines_added meta)
    (pm_lines_removed meta) (pm_is_draft meta) (pm_is_fork meta) head_sha diff_old_sha
    (pm_commit_messages meta) (pm_commit_messages_incomplete meta).

(** The snapshot the run takes: the one of its input, else that of the stage, checked against the
    binding. *)
Definition bound_snapshot (filter : option ReviewContextFilter) (i : ReviewPromptInput)
  : result ExecExc (option PolicySnapshot) :=
  let snapshot := match filter, pi_policy_snapshot i with
                  | Some f, None => cf_snapshot_for_llm f
                  | _, s => s
                  end in
  match pi_review_binding i with
  | Some b => map_err EX_policy (snapshot_for_review repr b snapshot)
  | None => Ok snapshot
  end.

(** The revisions the filter pins. *)
Definition pinned_meta (filter : option ReviewContextFilter) (snapshot : option PolicySnapshot)
    (meta : PullRequestMeta) : PullRequestMeta :=
  match filter with
  | None => meta
  | Some f =>
      with_shas meta
        (match pm_diff_old_sha meta with None => cf_diff_old_sha f | old => old end)
        (if negb (is_none snapshot) && truthy (cf_head_sha f) then cf_head_sha f else pm_head_sha meta)
  end.

Definition NO_EXCERPTS : SnapshotExcerpts := mkSnapshotExcerpts [] [] 0.

(** The context of the model call. *)
Definition review_context (filter : option ReviewContextFilter) (i : ReviewPromptInput)
    (snapshot : option PolicySnapshot) (meta : PullRequestMeta) : result ExecExc ReviewContext :=
  let allowed path := match filter with Some f => negb (cf_excluded f path) | None => true end in
  let section := match snapshot with
                 | Some s => has_retrieved_section (pb_review_system_key (sn_prompt_bindings s))
                               (pb_review_system_version (sn_prompt_bindings s))
                 | None => false
                 end in
  excerpts ← (match snapshot, (f ← filter; cf_payload f) with
              | Some _, Some payload => snapshot_excerpts payload section
              | _, _ => Ok NO_EXCERPTS
              end);
  Ok (mkReviewContext (pi_system i) (pi_rules i) (pi_agents_md i) (pi_conventions i)
        (pinned_meta filter snapshot meta)
        (List.filter (λ f, allowed (ch_path f)) (pi_changed_files i))
        (List.filter allowed (pi_omitted_files i)) snapshot (pi_severity_threshold i)
        (se_context_blocks excerpts) (se_retrieved excerpts) section (se_excluded_files excerpts)).

(** The reflection pass of an attempt: the window of its model and [verify_recorded]. *)
Record Verifier : Type := mkVerifier {
  vf_max_prompt_tokens : option Z;
  vf_verify : list CandidateFindingItem → ReviewContext → result VerifyExc VerificationRecord
}.

(** The checks before a snapshot-path call. *)
Definition check_snapshot_path (verifier : option Verifier) (c : ReviewContext) : result ExecExc unit :=
  match rx_policy_snapshot c with
  | None => Ok tt
  | Some s =>
      match verifier with
      | None => Err (EX_run (run_failure (u8 "internal_error")
                       (u8 "Reflection pass is required when policy snapshot is present") None false))
      | Some v =>
          if negb (is_ready_for_llm s)
          then Err (EX_policy (policy_error SNAPSHOT_INTEGRITY_ERROR
                      (u8 "Policy snapshot is not ready for LLM call") no_args))
          else
            _ ← map_err EX_policy (validate_execution_profile_versions (sn_execution_profile s));
            counter ← map_err EX_policy (token_counter_for (ep_counter_version (sn_execution_profile s)));
            map_err EX_verify
              (verify_verifier_mandatory_budget repr read_prompt c (Some counter) (vf_max_prompt_tokens v))
      end
  end.

(** [draft_review]'s answer: a [ReviewReply], or an answer alone. *)
Inductive DraftReply : Type :=
| Reply_fitted (output : ModelOutput) (c : ReviewContext) (manifest : CallManifest)
| Reply_plain (output : ModelOutput).

Definition reply_output (r : DraftReply) : ModelOutput :=
  match r with Reply_fitted o _ _ | Reply_plain o => o end.
Definition model_incomplete_paths (o : ModelOutput) : list pystr :=
  match o with Out_verified v => vo_incomplete_paths v | _ => [] end.

(** [tuple(sorted(set(a) | set(b) | set(c)))] *)
Definition sorted_paths (l : list pystr) : list pystr := py_sorted str_leb (remove_dups l).

(** The payload of the answer that is published, and its metadata when it has any. *)
Definition published_answer (o : ModelOutput) (incomplete : list pystr) : result ExecExc VerifiedReviewOutput :=
  let bare data := mkVerifiedReviewOutput (Payload_raw data) [] None None None None incomplete in
  match o with
  | Out_verified v =>
      Ok (mkVerifiedReviewOutput (vo_payload v) (vo_dropped_findings v) (vo_severity_threshold v)
            (vo_allowed_v2_rules v) (vo_verify_request v) (vo_verify_response v) incomplete)
  | Out_mapping data | Out_text (Loaded_dict data) => Ok (bare data)
  | Out_text (Loaded_other _) => Err (EX_invalid (u8 "Review model output must be an object"))
  | Out_text (Loaded_malformed _) | Out_text Loaded_undecodable | Out_other _ =>
      Err (EX_invalid (u8 "Malformed review model JSON output"))
  end.

(** What the publisher is handed; [None] is a run that returns [False] before it. *)
Inductive Handed : Type :=
| Hand_no_model
| Hand_answer (v : VerifiedReviewOutput).

Context {conventions : Type} (prepare : result ExecExc (Prepared conventions)).
Context (get_prompt_input : conventions → result ExecExc (option ReviewPromptInput)).
Context (get_meta : result ExecExc (option PullRequestMeta)).
Context (draft_review : ReviewContext → result ExecExc DraftReply).

Definition execute_review (filter : option ReviewContextFilter) (verifier : option Verifier) (call_id : UUID)
  : result ExecExc (option Handed) :=
  prepared ← prepare;
  match prepared with
  | Prepared_no_model => Ok (Some Hand_no_model)
  | Prepared_stop => Ok None
  | Prepared_conventions conv =>
      input ← get_prompt_input conv;
      match input with
      | None => Ok None
      | Some i =>
          snapshot ← bound_snapshot filter i;
          meta ← get_meta;
          match meta with
          | None => Ok None
          | Some meta =>
              c ← review_context filter i snapshot meta;
              _ ← check_snapshot_path verifier c;
              reply ← draft_review c;
              let '(fitted, manifest) := match reply with
                                         | Reply_fitted _ c' m => (c', Some m)
                                         | Reply_plain _ => (c, None)
                                         end in
              let output := reply_output reply in
              output' ← (match verifier, rx_policy_snapshot fitted with
                         | Some v, Some s =>
                             verified ← run_reflection_pass (vf_verify v) output fitted s manifest call_id
                                          (rx_changed_files c)
                                          (match filter with
                                           | Some f => cf_ignored_file_paths f
                                           | None => ∅
                                           end);
                             Ok (Out_verified verified)
                         | _, _ => Ok output
                         end);
              answer ← published_answer output'
                         (sorted_paths (incomplete_review_paths (rx_changed_files c) (rx_changed_files fitted)
                                        ++ model_incomplete_paths output
                                        ++ model_incomplete_paths output'));
              Ok (Some (Hand_answer answer))
          end
      end
  end.
End Run.
