(* ===== verification/VerifiedReviewFacts.v ===== *)
(** * The passes of a verified review, one by one

    Each pass splits the positions of its candidates between those it keeps and those it records as
    dropped. *)

From Stdlib Require Import String QArith.
From stdpp Require Import numbers gmap sets list.
From S2P Require Import Prelude PyText PyHash UnifiedDiff DiffMap PyFloat PyValue Verdict RunFailures PolicyErrors.
From S2P Require Import ReviewIgnore PolicyDocuments PolicySnapshots VcsInput RunCoverage Findings.
From S2P Require Import PromptRender PromptBudget Manifests AnswersV2 ReviewPath Reflection.
From S2P Require Import FindingsFacts ManifestFacts ReflectionFacts VerifiedReview.
#[local] Open Scope Z_scope.

(** ** Selecting by position *)

Abbreviation recorded l := (dc_position <$> l) (only parsing).

Lemma find_first_fst {A} (l : list (Z * A)) i :
  i ∈ fst <$> l → ∃ a, find_first (λ p, fst p =? i) l = Some (i, a).
Proof.
  induction l as [|[j a] l IH]; cbn; [by intros ?%elem_of_nil|]. intros [->|Hi]%elem_of_cons.
  - rewrite Z.eqb_refl. by eexists.
  - destruct (j =? i) eqn:E; [apply Z.eqb_eq in E as ->; by eexists|by apply IH].
Qed.

Lemma dropped_records_positions cands reason items :
  pf_position <$> items ⊆ fst <$> cands →
  recorded (dropped_records cands reason items) = pf_position <$> items.
Proof.
  induction items as [|i items IH]; [done|]. intros Hs. unfold dropped_records. cbn [omap list_omap].
  destruct (find_first_fst cands (pf_position i)) as [a Ha]; [apply Hs; by left|].
  unfold candidate_at at 1. rewrite Ha. cbn [fmap option_fmap option_map mbind option_bind list_fmap dc_position].
  f_equal. apply IH. intros x Hx. apply Hs. by right.
Qed.

Lemma key_inj {A} (f : A → Z) l x y : NoDup (f <$> l) → x ∈ l → y ∈ l → f x = f y → x = y.
Proof.
  intros Hn [i Hi]%list_elem_of_lookup [j Hj]%list_elem_of_lookup E.
  enough (i = j) as -> by congruence. eapply NoDup_lookup; [exact Hn|..]; rewrite list_lookup_fmap.
  - by rewrite Hi.
  - by rewrite Hj; cbn; rewrite E.
Qed.

(** Items of candidates, selected again by their positions, are the same items. *)
Lemma at_positions_items cands items :
  NoDup (fst <$> cands) → NoDup (pf_position <$> items) → items ⊆ placed_item <$> cands →
  placed_item <$> List.filter (at_positions items) cands ≡ₚ items.
Proof.
  intros Hc Hi Hs. apply NoDup_Permutation.
  - apply (NoDup_fmap_1 pf_position). rewrite <- list_fmap_compose. by apply (NoDup_filter_fmap fst).
  - by eapply NoDup_fmap_1.
  - intros x. rewrite list_elem_of_fmap. split.
    + intros (p & -> & [Hp Hin]%list_elem_of_In%filter_In). apply list_elem_of_In in Hp.
      apply bool_decide_eq_true, list_elem_of_fmap in Hin as (y & Hy & Hin).
      destruct (proj1 (list_elem_of_fmap _ _ _) (Hs _ Hin)) as (q & -> & Hq). cbn in Hy.
      by rewrite (key_inj _ _ _ _ Hc Hp Hq Hy).
    + intros Hx. destruct (proj1 (list_elem_of_fmap _ _ _) (Hs _ Hx)) as (p & -> & Hp).
      exists p. split; [done|]. apply list_elem_of_In, filter_In. split; [by apply list_elem_of_In|].
      apply bool_decide_eq_true. by apply (list_elem_of_fmap_2 pf_position) in Hx.
Qed.

Lemma placed_positions (cands : list placed) : pf_position <$> (placed_item <$> cands) = fst <$> cands.
Proof. by rewrite <- list_fmap_compose. Qed.

(** A stage that splits items by position splits the candidates they stand for. *)
Lemma stage_split cands kept dropped reason :
  NoDup (fst <$> cands) → kept ⊆ placed_item <$> cands →
  pf_position <$> (kept ++ dropped) ≡ₚ fst <$> cands →
  (fst <$> List.filter (at_positions kept) cands) ++ recorded (dropped_records cands reason dropped)
    ≡ₚ fst <$> cands
  ∧ placed_item <$> List.filter (at_positions kept) cands ≡ₚ kept.
Proof.
  intros Hc Hs Hp. rewrite fmap_app in Hp.
  assert (Hn : NoDup (pf_position <$> kept)).
  { rewrite <- Hp in Hc. by apply NoDup_app in Hc as (? & _ & _). }
  pose proof (at_positions_items _ _ Hc Hn Hs) as Hi. split; [|done].
  rewrite dropped_records_positions.
  - rewrite <- Hp, <- placed_positions, Hi. done.
  - intros x Hx. rewrite <- Hp. apply elem_of_app. by right.
Qed.

(** ** Screening *)

Lemma screen_ok refusal c original ignored m s idx item r :
  screen refusal c original ignored m s idx item = Ok r →
  ∃ f, item = Item_fields f ∧ finding_v2_valid f = true
    ∧ match r with
      | inl d => dc_finding d = f ∧ dc_position d = idx
      | inr (i, cand) =>
          i = idx ∧ ci_finding cand = f
          ∧ verifier_candidate_id idx f = Ok (ci_candidate_id cand)
          ∧ validate_v2_coordinates f (rx_changed_files c) original ignored = Ok None
          ∧ validate_v2_attribution f m (Some (rx_pr_meta c)) (Some s) = None
      end.
Proof.
  unfold screen. intros (f & Hf & (id & Hid & (coords & Hc%map_err_ok & H)%bind_ok)%bind_ok)%bind_ok.
  exists f. destruct item as [f'| | |]; try done. cbn in Hf. destruct (finding_v2_valid f') eqn:Hv; [|done].
  injection Hf as <-. do 2 (split; [done|]).
  destruct coords as [reason|]; [by injection H as <-|].
  destruct (validate_v2_attribution _ _ _ _) eqn:Ha; by injection H as <-.
Qed.

(** What a kept candidate was screened for. *)
Definition screened (c : ReviewContext) (original : list ChangedFile) (ignored : gset pystr)
    (m : CallManifest) (s : PolicySnapshot) (items : list RawFinding) (p : placed) : Prop :=
  items !! Z.to_nat (fst p) = Some (Item_fields (ci_finding (snd p))) ∧ 0 ≤ fst p
  ∧ finding_v2_valid (ci_finding (snd p)) = true
  ∧ verifier_candidate_id (fst p) (ci_finding (snd p)) = Ok (ci_candidate_id (snd p))
  ∧ validate_v2_coordinates (ci_finding (snd p)) (rx_changed_files c) original ignored = Ok None
  ∧ validate_v2_attribution (ci_finding (snd p)) m (Some (rx_pr_meta c)) (Some s) = None.

Lemma screen_all_ok refusal c original ignored m s before items dropped kept :
  screen_all refusal c original ignored m s (py_len before) items = Ok (dropped, kept) →
  recorded dropped ++ (fst <$> kept) ≡ₚ seqZ (py_len before) (py_len items)
  ∧ Forall (screened c original ignored m s (before ++ items)) kept.
Proof.
  revert before dropped kept. induction items as [|item items IH]; intros before dropped kept H; cbn [screen_all] in H.
  { injection H as <- <-. split; [done|constructor]. }
  apply bind_ok in H as (r & Hr & ([dropped' kept'] & Hrest & H)%bind_ok).
  assert (Hlen : py_len before + 1 = py_len (before ++ [item]))
    by (rewrite py_len_app; done).
  rewrite Hlen in Hrest. apply IH in Hrest as [Hp Hall]. rewrite <- app_assoc in Hall.
  assert (Hseq : seqZ (py_len before) (py_len (item :: items))
                 = py_len before :: seqZ (py_len (before ++ [item])) (py_len items)).
  { rewrite <- Hlen. rewrite seqZ_cons by (unfold py_len; cbn; lia). do 2 f_equal; unfold py_len; cbn; lia. }
  apply screen_ok in Hr as (f & -> & Hv & Hr). destruct r as [d|[i cand]]; injection H as <- <-.
  - destruct Hr as [_ Hd]. split; [|done]. cbn [fmap list_fmap app]. rewrite Hseq, Hd. by constructor.
  - destruct Hr as (-> & <- & Hid & Hc & Ha). split.
    + rewrite Hseq, <- Hp. cbn [fmap list_fmap fst]. by rewrite <- Permutation_middle.
    + constructor; [|done]. unfold screened. cbn [fst snd]. split_and!; try done.
      * unfold py_len. rewrite Nat2Z.id, lookup_app_r, Nat.sub_diag by lia. done.
      * unfold py_len. lia.
Qed.

(** [stands_for items i g]: [g] is the item at position [i] of the answer, up to the repair of its
    rule attribution. *)
Definition stands_for (items : list RawFinding) (i : Z) (g : ReviewFindingV2) : Prop :=
  0 ≤ i ∧ ∃ f, items !! Z.to_nat i = Some (Item_fields f) ∧ same_claim (f2_finding f) (f2_finding g)
    ∧ fg_start_line (f2_finding g) = fg_start_line (f2_finding f)
    ∧ fg_suggestion (f2_finding g) = fg_suggestion (f2_finding f)
    ∧ f2_evidence_refs g = f2_evidence_refs f.
Abbreviation drop_stands_for items d := (stands_for items (dc_position d) (dc_finding d)).

Lemma screened_stands_for c original ignored m s items p :
  screened c original ignored m s items p → stands_for items (fst p) (ci_finding (snd p)).
Proof. intros (Hi & H0 & _). split; [done|]. eexists. split_and!; [exact Hi|apply same_claim_refl|done..]. Qed.

(** Screening keeps the order of the answer, and its records are of the items of their positions. *)
Lemma screen_all_order refusal c original ignored m s before items dropped kept :
  screen_all refusal c original ignored m s (py_len before) items = Ok (dropped, kept) →
  Forall (λ d, drop_stands_for (before ++ items) d) dropped
  ∧ StronglySorted Z.lt (fst <$> kept) ∧ Forall (λ i, py_len before ≤ i) (fst <$> kept).
Proof.
  revert before dropped kept. induction items as [|item items IH]; intros before dropped kept H; cbn [screen_all] in H.
  { injection H as <- <-. split_and!; constructor. }
  apply bind_ok in H as (r & Hr & ([dropped' kept'] & Hrest & H)%bind_ok).
  assert (Hlen : py_len before + 1 = py_len (before ++ [item])) by (rewrite py_len_app; done).
  rewrite Hlen in Hrest. apply IH in Hrest as (Hd & Hsort & Hge). rewrite <- app_assoc in Hd.
  rewrite <- Hlen in Hge.
  assert (Hge' : Forall (λ i, py_len before ≤ i) (fst <$> kept'))
    by (eapply Forall_impl; [exact Hge|]; cbn; lia).
  apply screen_ok in Hr as (f & -> & Hv & Hr). destruct r as [d|[i cand]]; injection H as <- <-.
  - destruct Hr as [Hf Hp]. split_and!; [|done..]. constructor; [|done]. rewrite Hp, Hf.
    split; [apply py_len_nonneg|]. exists f. split_and!; [|apply same_claim_refl|done..].
    unfold py_len. rewrite Nat2Z.id, lookup_app_r, Nat.sub_diag by lia. done.
  - destruct Hr as (-> & _). split_and!; [done|..]; cbn [fmap list_fmap fst].
    + constructor; [done|]. eapply Forall_impl; [exact Hge|]. cbn. lia.
    + constructor; [lia|done].
Qed.

Lemma dropped_records_from cands reason items d :
  d ∈ dropped_records cands reason items →
  ∃ c, (dc_position d, c) ∈ cands ∧ dc_finding d = ci_finding c.
Proof.
  unfold dropped_records. intros (i & _ & H)%list_elem_of_omap. unfold candidate_at in H.
  destruct (find_first _ cands) as [[j c]|] eqn:E; [|done]. injection H as <-. cbn.
  apply find_first_some in E as [Hin Hj]. cbn in Hj. apply Z.eqb_eq in Hj as <-.
  exists c. split; [by apply list_elem_of_In|done].
Qed.

Lemma rejected_records_from decisions l d :
  d ∈ rejected_records decisions l → ∃ c, (dc_position d, c) ∈ l ∧ dc_finding d = ci_finding c.
Proof.
  unfold rejected_records. intros ([i c] & -> & [H _]%list_elem_of_In%filter_In)%list_elem_of_fmap.
  cbn. exists c. split; [by apply list_elem_of_In|done].
Qed.

Lemma sublist_increasing (l1 l2 : list Z) : l1 `sublist_of` l2 → StronglySorted Z.lt l2 → StronglySorted Z.lt l1.
Proof.
  induction 1 as [|x l1 l2 Hs IH|x l1 l2 Hs IH]; [done|..]; intros [H1 H2]%StronglySorted_inv.
  - constructor; [by apply IH|]. apply Forall_forall. intros y Hy. rewrite Forall_forall in H2. apply H2. by eapply sublist_subseteq.
  - by apply IH.
Qed.

(** ** The lint filter, deduplication and the threshold *)

Lemma prefilter_ok patterns cands filtered dropped :
  NoDup (fst <$> cands) → prefilter patterns cands = (filtered, dropped) →
  (fst <$> filtered) ++ recorded dropped ≡ₚ fst <$> cands
  ∧ filtered `sublist_of` cands
  ∧ Forall (λ p, drops_as_lint patterns (placed_item p) = false) filtered
  ∧ NoDup (key_of ∘ placed_item <$> filtered).
Proof.
  intros Hc. unfold prefilter. destruct (drop_lint_patterns _ _) as [unlinted lint] eqn:E1.
  destruct (deduplicate unlinted) as [kept dup] eqn:E2. intros [= <- <-].
  assert (Hu : unlinted = List.filter (λ i, negb (drops_as_lint patterns i)) (placed_item <$> cands))
    by (injection E1 as <- _; done).
  apply drop_when_positions in E1. rewrite placed_positions in E1.
  pose proof (deduplicate_positions _ _ _ E2) as E2'. apply deduplicate_unique in E2 as [Hkeys Hin].
  assert (Hsub : kept ⊆ placed_item <$> cands).
  { intros x Hx. apply list_elem_of_In, Hin, list_elem_of_In in Hx. rewrite Hu in Hx. by eapply filter_subset. }
  assert (Hpos : pf_position <$> (kept ++ dup ++ lint) ≡ₚ fst <$> cands)
    by (rewrite <- E1, !fmap_app, (assoc_L (++)), <- fmap_app, E2'; done).
  destruct (stage_split cands kept (dup ++ lint) (u8 "lint_pattern") Hc Hsub Hpos) as [Hsplit Hitems].
  split_and!.
  - rewrite <- Hsplit. apply Permutation_app_head. rewrite fmap_app.
    assert (Hd : ∀ l, l ⊆ dup ++ lint → pf_position <$> l ⊆ fst <$> cands).
    { intros l Hl x (y & -> & Hy)%list_elem_of_fmap. rewrite <- Hpos. apply list_elem_of_fmap_2, elem_of_app.
      right. by apply Hl. }
    rewrite !dropped_records_positions, fmap_app; [by rewrite Permutation_app_comm|by apply Hd|..];
      apply Hd; [by apply list_subseteq_app_l|by apply list_subseteq_app_r].
  - apply filter_keeps_order.
  - apply Forall_forall. intros p Hp. apply (list_elem_of_fmap_2 placed_item) in Hp. rewrite Hitems in Hp.
    apply list_elem_of_In, Hin in Hp. rewrite Hu in Hp. by apply filter_In in Hp as [_ ?%negb_true_iff].
  - by rewrite list_fmap_compose, Hitems.
Qed.

Lemma above_threshold_ok supported threshold surviving below :
  NoDup (fst <$> supported) → above_threshold supported threshold = (surviving, below) →
  (fst <$> surviving) ++ recorded below ≡ₚ fst <$> supported
  ∧ surviving `sublist_of` supported
  ∧ Forall (λ p, fg_severity (ci_v1 (snd p)) ∈ PUBLISHED_SEVERITIES threshold) surviving.
Proof.
  intros Hc. unfold above_threshold. destruct (drop_below_threshold _ _) as [kept under] eqn:E.
  intros [= <- <-]. assert (Hk : kept ⊆ placed_item <$> supported ∧
    Forall (λ i, fg_severity (pf_finding i) ∈ PUBLISHED_SEVERITIES threshold) kept).
  { injection E as <- _. split; [apply filter_subset|]. apply Forall_forall.
    intros x [_ Hx]%list_elem_of_In%filter_In. by apply negb_true_iff, negb_false_iff, bool_decide_eq_true in Hx. }
  destruct Hk as [Hsub Hsev]. apply drop_when_positions in E. rewrite placed_positions in E.
  destruct (stage_split supported kept under (u8 "severity_threshold") Hc Hsub E) as [Hsplit Hitems].
  split_and!; [done|apply filter_keeps_order|]. rewrite <- Hitems, Forall_fmap in Hsev. exact Hsev.
Qed.

Lemma supported_split decisions l :
  (fst <$> supported_placed decisions l) ++ recorded (rejected_records decisions l) ≡ₚ fst <$> l.
Proof.
  unfold supported_placed, rejected_records. rewrite <- list_fmap_compose.
  change (dc_position ∘ rejection decisions) with (@fst Z CandidateFindingItem).
  rewrite <- fmap_app. apply fmap_Permutation. by rewrite Permutation_app_comm, filter_split_perm.
Qed.

(** Placed candidates are filtered as the candidates are. *)
Lemma supported_placed_filter decisions l :
  snd <$> supported_placed decisions l = fst (filter_verified_candidates (snd <$> l) decisions).
Proof.
  cbn [filter_verified_candidates fst]. induction l as [|p l IH]; [done|].
  unfold supported_placed in *. cbn. destruct (is_supported decisions (snd p)); cbn; by rewrite IH.
Qed.

(** ** The attribution repair *)

Definition repaired_from (p q : placed) : Prop :=
  fst q = fst p ∧ ci_candidate_id (snd q) = ci_candidate_id (snd p)
  ∧ f2_evidence_refs (ci_finding (snd q)) = f2_evidence_refs (ci_finding (snd p))
  ∧ same_claim (ci_v1 (snd p)) (ci_v1 (snd q))
  ∧ fg_start_line (ci_v1 (snd q)) = fg_start_line (ci_v1 (snd p))
  ∧ fg_suggestion (ci_v1 (snd q)) = fg_suggestion (ci_v1 (snd p)).

Lemma repair_candidate_ok rules allowed p : repaired_from p (repair_candidate rules allowed p).
Proof.
  unfold repair_candidate, repair_attribution, repaired_from. cbn [fst snd ci_candidate_id ci_finding f2_evidence_refs f2_finding placed_item pf_finding].
  split_and!; try done; repeat case_match; cbn [pf_finding]; try done; first [apply same_claim_refl|by constructor].
Qed.

Lemma repaired_stands_for c original ignored m s items p q :
  screened c original ignored m s items p → repaired_from p q →
  stands_for items (fst q) (ci_finding (snd q)).
Proof.
  intros (Hi & H0 & _) (Hp & _ & He & Hs & Hl & Hg). rewrite Hp. split; [done|].
  eexists. split_and!; [exact Hi|done..].
Qed.

(** The records of the later passes are of candidates, repaired or not. *)
Lemma dropped_stand_for (items : list RawFinding) (cands : list placed) l :
  (∀ p, p ∈ cands → stands_for items (fst p) (ci_finding (snd p))) →
  (∀ d, d ∈ l → ∃ c, (dc_position d, c) ∈ cands ∧ dc_finding d = ci_finding c) →
  Forall (λ d, drop_stands_for items d) l.
Proof.
  intros Hc Hl. apply Forall_forall. intros d (c & Hin & ->)%Hl. exact (Hc _ Hin).
Qed.
