(* ===== verification/VerifiedReviewTheorems.v ===== *)
(** * What a verified review guarantees

    Every item of the answer is published or recorded as dropped, a published finding passed every
    check and stands on a supporting decision of the verifier, and the summary is the backend's. *)

From Stdlib Require Import String QArith.
From stdpp Require Import numbers gmap sets list.
From S2P Require Import Prelude PyText PyHash UnifiedDiff DiffMap PyFloat PyValue Verdict RunFailures PolicyErrors.
From S2P Require Import ReviewIgnore PolicyDocuments PolicySnapshots VcsInput RunCoverage Findings.
From S2P Require Import PromptRender PromptBudget Manifests AnswersV2 ReviewPath Reflection.
From S2P Require Import FindingsFacts ManifestFacts ReflectionFacts ReflectionTheorems.
From S2P Require Import VerifiedReview VerifiedReviewFacts.
#[local] Open Scope Z_scope.

(** ** The summary *)

Lemma deterministic_problem_plain findings n :
  ∃ t, deterministic_problem findings n = t ++ u8 "." ∧ plain_text t ∧ t ≠ [].
Proof.
  unfold deterministic_problem. destruct findings as [|f fs].
  - destruct (0 <? n).
    + exists (u8 "No verified issues meeting the severity threshold were found (" ++ str_of_Z n
              ++ u8 " below threshold)"). rewrite <- !app_assoc. split; [done|]. split; [|done].
      apply plain_app; [by vm_compute|]. apply plain_app; [apply str_of_Z_plain|by vm_compute].
    + by exists (u8 "No verified issues were found in the evaluated changes").
  - cbv zeta. set (cats := join _ _). set (word := if _ : bool then u8 "issue" else _).
    exists (u8 "Identified " ++ str_of_Z (py_len (f :: fs)) ++ u8 " verified " ++ word ++ u8 " (" ++ cats
            ++ u8 ") in the reviewed changes"). rewrite <- !app_assoc. split; [done|]. split; [|done].
    repeat apply plain_app; try (by vm_compute); [apply str_of_Z_plain|by unfold word; case_match|].
    apply plain_join; [done|]. apply Forall_forall. intros w Hw. rewrite py_sorted_perm in Hw.
    apply elem_of_remove_dups, list_elem_of_fmap in Hw as (g & -> & _). apply category_plain.
Qed.

(** The summary of a verified review always satisfies the schema of a stored summary: its
    problem is one sentence and what was done well one, whatever the findings. *)
Theorem deterministic_summary_valid findings below_threshold_count :
  summary_valid (build_deterministic_summary findings below_threshold_count) = true.
Proof.
  destruct (deterministic_problem_plain findings below_threshold_count) as (t & Ht & Hp & Hne).
  unfold summary_valid, build_deterministic_summary. cbn [sm_problem sm_done_well].
  rewrite Ht, sentence_count_plain by done. rewrite py_len_app. pose proof (py_len_nonneg t).
  rewrite (proj2 (Z.leb_le 1 _)) by (change (py_len (u8 ".")) with 1; lia).
  unfold py_all. cbn [forallb]. rewrite plain_encodable by done. by vm_compute.
Qed.

Section Pass.
Context (repr : pystr → pystr) (patterns : LintFilterPatterns) (refusal : ReviewFindingV2 → pystr).

Abbreviation pass := (run_reflection_pass repr patterns refusal).

(** The findings of a pass, placed, and how each came to be published. *)
Lemma pass_ok verify output c s manifest call_id original ignored v :
  pass verify output c s manifest call_id original ignored = Ok v →
  ∃ data items m published below_count,
    answer_data output = Ok data ∧ raw_items data = Ok items
    ∧ match manifest with
      | Some m' => m = m'
      | None => build_manifest repr c call_id Stage_review Recovery_none None = Ok m
      end
    ∧ vo_payload v = Payload_verified ((λ p, ci_finding (snd p)) <$> published)
                       (build_deterministic_summary ((λ p, ci_finding (snd p)) <$> published) below_count)
                       (other_keys data)
    ∧ recorded (vo_dropped_findings v) ++ (fst <$> published) ≡ₚ seqZ 0 (py_len items)
    ∧ (∀ q, q ∈ published → ∃ p cands record,
        screened c original ignored m s items p ∧ repaired_from p q
        ∧ drops_as_lint patterns (placed_item p) = false
        ∧ verify cands c = Ok record ∧ snd q ∈ cands
        ∧ vo_verify_response v = Some (stored_decision <$> vc_decisions record)
        ∧ snd q ∈ fst (filter_verified_candidates cands (vc_decisions record))
        ∧ fg_severity (ci_v1 (snd q)) ∈ PUBLISHED_SEVERITIES (rx_severity_threshold c))
    ∧ StronglySorted Z.lt (fst <$> published).
Proof.
  unfold run_reflection_pass. intros (data & Hd & (items & Hi & (m & Hm & H)%bind_ok)%bind_ok)%bind_ok.
  apply bind_ok in H as ([dropped cands] & Hs & H).
  destruct (screen_all_order _ _ _ _ _ _ [] _ _ _ Hs) as (_ & Hsort & _).
  apply (screen_all_ok _ _ _ _ _ _ []) in Hs as [Hpos Hscr].
  change (py_len (@nil RawFinding)) with 0 in Hpos. cbn [app] in Hscr.
  assert (Hnd : NoDup (fst <$> cands)).
  { assert (Hn := NoDup_seqZ 0 (py_len items)). rewrite <- Hpos in Hn. by apply NoDup_app in Hn as (_ & _ & ?). }
  destruct (prefilter patterns cands) as [filtered early] eqn:Hf.
  apply (prefilter_ok _ _ _ _ Hnd) in Hf as (Hfpos & Hsub & Hlint & _).
  exists data, items, m.
  assert (Hm' : match manifest with Some m' => m = m'
                | None => build_manifest repr c call_id Stage_review Recovery_none None = Ok m end).
  { destruct manifest; [by injection Hm|by apply map_err_ok in Hm]. }
  destruct filtered as [|first others] eqn:Ef.
  { injection H as <-. exists [], 0. split_and!; [done..| |by intros q ?%elem_of_nil|constructor].
    cbn [vo_dropped_findings]. by rewrite fmap_app, fmap_nil, app_nil_r, <- Hpos, <- Hfpos. }
  rewrite <- Ef in *. clear Ef. set (repaired := repair_candidate _ _ <$> filtered) in *.
  apply bind_ok in H as (record & Hr%map_err_ok & H). cbv zeta in H.
  destruct (above_threshold _ _) as [surviving below] eqn:Ht.
  assert (Hrep : fst <$> repaired = fst <$> filtered) by (unfold repaired; by rewrite <- list_fmap_compose).
  assert (Hnr : NoDup (fst <$> repaired)).
  { rewrite Hrep. rewrite <- Hfpos in Hnd. by apply NoDup_app in Hnd as (? & _ & _). }
  pose proof (supported_split (vc_decisions record) repaired) as Hsp.
  assert (Hns : NoDup (fst <$> supported_placed (vc_decisions record) repaired)).
  { rewrite <- Hsp in Hnr. by apply NoDup_app in Hnr as (? & _ & _). }
  apply (above_threshold_ok _ _ _ _ Hns) in Ht as (Htpos & Htsub & Hsev).
  injection H as <-. exists surviving, (py_len below). cbn [vo_payload vo_dropped_findings].
  split_and!; [done..| | |].
  - rewrite !fmap_app, <- Hpos, <- Hfpos, <- Hrep, <- Hsp, <- Htpos. solve_Permutation.
  - intros q Hq. assert (Hq' : q ∈ supported_placed (vc_decisions record) repaired) by (by eapply sublist_subseteq).
    assert (Hqr : q ∈ repaired) by (by eapply filter_subset).
    apply list_elem_of_fmap in Hqr as Hp. destruct Hp as (p & -> & Hp).
    exists p, (snd <$> repaired), record. rewrite Forall_forall in Hscr, Hlint, Hsev. split_and!.
    + apply Hscr. by eapply sublist_subseteq.
    + apply repair_candidate_ok.
    + by apply Hlint.
    + done.
    + by apply list_elem_of_fmap_2.
    + done.
    + rewrite <- supported_placed_filter. by apply list_elem_of_fmap_2.
    + by apply Hsev.
  - eapply sublist_increasing; [|exact Hsort]. transitivity (fst <$> repaired).
    + apply fmap_sublist. etransitivity; [exact Htsub|apply filter_keeps_order].
    + rewrite Hrep. by apply fmap_sublist.
Qed.

(** Each record of a pass is of the item at its position. *)
Lemma pass_records verify output c s manifest call_id original ignored v data items :
  pass verify output c s manifest call_id original ignored = Ok v →
  answer_data output = Ok data → raw_items data = Ok items →
  Forall (λ d, drop_stands_for items d) (vo_dropped_findings v).
Proof.
  unfold run_reflection_pass. intros (data' & Hd & (items' & Hi & (m & _ & H)%bind_ok)%bind_ok)%bind_ok Hd' Hi'.
  assert (data' = data) as -> by congruence. assert (items' = items) as -> by congruence.
  apply bind_ok in H as ([dropped cands] & Hs & H).
  destruct (screen_all_order _ _ _ _ _ _ [] _ _ _ Hs) as (Hdrop & _ & _). cbn [app] in Hdrop.
  apply (screen_all_ok _ _ _ _ _ _ []) in Hs as [_ Hscr]. cbn [app] in Hscr. rewrite Forall_forall in Hscr.
  assert (Hc : ∀ p, p ∈ cands → stands_for items (fst p) (ci_finding (snd p)))
    by (intros p Hp; by eapply screened_stands_for, Hscr).
  destruct (prefilter patterns cands) as [filtered early] eqn:Hf. unfold prefilter in Hf.
  destruct (drop_lint_patterns _ _) as [unlinted lint], (deduplicate unlinted) as [kept dup].
  injection Hf as Hfiltered Hearly.
  assert (Forall (λ d, drop_stands_for items d) (dropped ++ early)) as He.
  { subst early. rewrite !Forall_app. split_and!; [done|..]; apply (dropped_stand_for items cands); try done;
      intros d; apply dropped_records_from. }
  destruct filtered as [|first others] eqn:Ef; [by injection H as <-|].
  rewrite <- Ef in *. clear Ef. set (repaired := repair_candidate _ _ <$> filtered) in *.
  apply bind_ok in H as (record & _ & H). cbv zeta in H.
  assert (Hr : ∀ q, q ∈ repaired → stands_for items (fst q) (ci_finding (snd q))).
  { intros q (p & -> & Hp)%list_elem_of_fmap. eapply repaired_stands_for; [|apply repair_candidate_ok].
    apply Hscr. subst filtered. by eapply filter_subset. }
  unfold above_threshold in H. destruct (drop_below_threshold _ _) as [surviving below]. injection H as <-.
  cbn [vo_dropped_findings]. rewrite (assoc_L (++)), !Forall_app in *. split_and!; try apply He.
  - apply (dropped_stand_for items repaired); [done|]. intros d. apply rejected_records_from.
  - apply (dropped_stand_for items (supported_placed (vc_decisions record) repaired));
      [|intros d; apply dropped_records_from]. intros p Hp. apply Hr. by eapply filter_subset.
Qed.
End Pass.


(** What accepted attribution says of the evidence. *)
Lemma attribution_evidence f m meta snapshot :
  validate_v2_attribution f m meta snapshot = None → Forall (evidence_shown m meta) (f2_evidence_refs f).
Proof.
  unfold validate_v2_attribution. destruct (first_reason _ _) eqn:E; [done|]. intros _.
  apply first_reason_none in E. eapply Forall_impl; [exact E|]. intros r. apply evidence_reason_none.
Qed.

Section Claims.
Context (repr : pystr → pystr) (patterns : LintFilterPatterns) (refusal : ReviewFindingV2 → pystr).

(** C14.  No item of an answer is lost, changed for another or counted twice.  When the pass ends,
    each published finding and each recorded drop is the item of the answer at its position, the same
    in every field but for the body and the rule name that the attribution repair may rewrite; the
    findings are in the order of their positions; and the positions of the drops and of the published
    findings together are those of the items of the answer, each once. *)
Theorem every_item_accounted verify output c s manifest call_id original ignored v :
  run_reflection_pass repr patterns refusal verify output c s manifest call_id original ignored = Ok v →
  ∃ data items (published : list (Z * ReviewFindingV2)) summary,
    answer_data output = Ok data ∧ raw_items data = Ok items
    ∧ vo_payload v = Payload_verified (snd <$> published) summary (other_keys data)
    ∧ StronglySorted Z.lt (fst <$> published)
    ∧ (∀ i g, (i, g) ∈ published → stands_for items i g)
    ∧ (∀ d, d ∈ vo_dropped_findings v → stands_for items (dc_position d) (dc_finding d))
    ∧ (dc_position <$> vo_dropped_findings v) ++ (fst <$> published) ≡ₚ seqZ 0 (py_len items).
Proof.
  intros Hpass. pose proof (pass_ok _ _ _ _ _ _ _ _ _ _ _ _ Hpass)
    as (data & items & m & published & n & Hd & Hi & _ & Hv & Hpos & Hall & Hsort).
  exists data, items, ((λ p, (fst p, ci_finding (snd p))) <$> published). eexists.
  rewrite <- !list_fmap_compose. split_and!; [done|done|exact Hv|done|..|done].
  - intros i g (q & [= -> ->] & Hq)%list_elem_of_fmap.
    destruct (Hall q Hq) as (p & _ & _ & Hs & Hr & _). by eapply repaired_stands_for.
  - apply Forall_forall. by eapply pass_records.
Qed.

Context (full_match : pystr → pystr → bool).
Context (float : Type) (fl : Q → float) (fmul : float → float → float) (math_log : Z → float).
Context (flt feq : float → float → bool).
Context (markdown_parse : pystr → list MdToken) (read_prompt : pystr → result pystr pystr).

Abbreviation verify_with b window call_id model :=
  (verify_recorded repr full_match float fl fmul math_log flt feq markdown_parse read_prompt b window
     call_id model).

(** C13.  A verified review publishes only checked claims.  Each of its findings is a valid item of
    the answer (its rule attribution apart) whose lines the model was shown, whose evidence the review
    call's manifest shows, which is no linter's business and not below the threshold; and when the ids
    of the verifier's candidates are distinct, the verifier's decision on it is that it is supported,
    with evidence, backed by what the manifest of the verifier's accepted call shows. *)
Theorem published_findings_verified b window verifier_id model output c s manifest call_id original ignored v :
  run_reflection_pass repr patterns refusal (verify_with b window verifier_id model) output c s
    (Some manifest) call_id original ignored = Ok v →
  ∃ data items findings summary,
    answer_data output = Ok data ∧ raw_items data = Ok items
    ∧ vo_payload v = Payload_verified findings summary (other_keys data)
    ∧ ∀ g, g ∈ findings → ∃ f,
        Item_fields f ∈ items ∧ finding_v2_valid f = true
        ∧ same_claim (f2_finding f) (f2_finding g) ∧ f2_evidence_refs g = f2_evidence_refs f
        ∧ validate_v2_coordinates f (rx_changed_files c) original ignored = Ok None
        ∧ Forall (evidence_shown manifest (Some (rx_pr_meta c))) (f2_evidence_refs f)
        ∧ (∀ i, drops_as_lint patterns (mkProcessedFinding (f2_finding f) i Bucket_inline None) = false)
        ∧ fg_severity (f2_finding g) ∈ PUBLISHED_SEVERITIES (rx_severity_threshold c)
        ∧ ∃ cands cand base reply check_lines prompt decisions,
            cand ∈ cands ∧ ci_finding cand = g
            ∧ model prompt base
                (λ ds m, verification_answer_errors ds cands m (rx_pr_meta c) check_lines) = Ok reply
            ∧ read_answer (vr_output reply) = Ok decisions
            ∧ vo_verify_response v = Some (stored_decision <$> decisions)
            ∧ (NoDup (ci_candidate_id <$> cands) →
               ∃ d, d ∈ decisions ∧ vd_candidate_id d = ci_candidate_id cand
                 ∧ vd_status d = Ver_supported ∧ vd_evidence_refs d ≠ []
                 ∧ decision_backed (default base (vr_accepted_manifest reply)) (rx_pr_meta c) check_lines
                     cand d).
Proof.
  intros (data & items & m & published & n & Hd & Hi & -> & Hv & _ & Hall & _)%pass_ok.
  exists data, items, ((λ p, ci_finding (snd p)) <$> published). eexists. split_and!; [done..|].
  intros g (q & -> & Hq)%list_elem_of_fmap. destruct (Hall q Hq) as (p & cands & record & Hs & Hr & Hl & Hver & Hin & Hresp & Hf & Hsev).
  destruct Hs as (Hitem & _ & Hvalid & _ & Hc & Ha), Hr as (_ & _ & Hrefs & Hsame & _).
  apply attribution_evidence in Ha.
  exists (ci_finding (snd p)). split_and!; [by eapply list_elem_of_lookup_2|done..|exact Hsev|].
  assert (Hne : cands ≠ []) by (by intros ->; apply elem_of_nil in Hin).
  destruct (verify_recorded_ok _ _ _ _ _ _ _ _ _ _ _ _ _ _ _ _ _ Hne Hver)
    as (b' & prompt & base & reply & lines & _ & _ & _ & Hreply & _ & Hvv & He).
  exists cands, (snd q), base, reply, lines, prompt, (vc_decisions record). split_and!; [done..|].
  intros Hnd.
  destruct (backed_decision _ _ _ _ _ _ Hnd He (read_answer_valid _ _ Hvv) Hin)
    as (d & Hdin & Hid & Hback & Hsup & Href & _).
  exists d. split_and!; [done|done|by apply Hsup|by apply Href|done].
Qed.
End Claims.

(** ** Two items, one on a line the change does not have *)

Definition checked_finding : ReviewFindingV2 := ci_finding verified_candidate.
Definition absent_finding : ReviewFindingV2 :=
  mkReviewFindingV2 (f2_finding (AnswersV2.sample_finding 50)) [mkEvidenceRef gap_block_id 1 2].
Definition two_items : ModelOutput :=
  Out_mapping (mkAnswerData (Findings_list [Item_fields absent_finding; Item_fields checked_finding]) []).
Definition no_patterns : LintFilterPatterns := mkLintFilterPatterns [] [] 0 10.

(** A model that supports the only candidate. *)
Definition supporting_model (p : VerifierPrompt) (m : CallManifest)
    (check : list VerificationDecision → CallManifest → list pystr) : result ModelExc VerifierReply :=
  Ok (mkVerifierReply
        (Raw_decisions [mkVerificationDecision (ok_or [] (verifier_candidate_id 1 checked_finding)) Ver_supported
                          (u8 "The guard is missing.") [mkEvidenceRef gap_block_id 1 2] []])
        (Some 9%N) None None).
Definition reviewed : result ExecExc VerifiedReviewOutput :=
  run_reflection_pass id no_patterns (λ _, [])
    (verify_recorded id (λ _ _, false) Z (λ _, 1) Z.mul id Z.ltb Z.eqb (λ _, []) verifier_resource
       verified_builder (Some 330) 9%N supporting_model)
    two_items verified_context verified_snapshot (Some gap_manifest) 3%N (rx_changed_files verified_context) ∅.
Definition reviewed_output : VerifiedReviewOutput :=
  ok_or (mkVerifiedReviewOutput (Payload_raw (mkAnswerData Findings_missing [])) [] None None None None []) reviewed.

Lemma reviewed_ok : reviewed = Ok reviewed_output.
Proof. vm_compute. reflexivity. Qed.

Lemma every_item_accounted_witness :
  reviewed = Ok reviewed_output
  ∧ ∃ published, (dc_position <$> vo_dropped_findings reviewed_output) ++ (fst <$> published) ≡ₚ [0; 1]
    ∧ ∀ i g, (i, g) ∈ published →
        stands_for [Item_fields absent_finding; Item_fields checked_finding] i g.
Proof.
  split; [exact reviewed_ok|].
  pose proof reviewed_ok as Hok. unfold reviewed in Hok.
  destruct (every_item_accounted _ _ _ _ _ _ _ _ _ _ _ _ Hok)
    as (data & items & published & summary & Hd & Hi & _ & _ & Hg & _ & Hp).
  exists published. change (answer_data two_items) with
    (Ok (mkAnswerData (Findings_list [Item_fields absent_finding; Item_fields checked_finding]) [])
       : result ExecExc AnswerData) in Hd.
  injection Hd as <-. cbn in Hi. injection Hi as <-. exact (conj Hp Hg).
Defined.

Example reviewed_drops :
  (λ d, (dc_position d, dc_drop_reason d)) <$> vo_dropped_findings reviewed_output = [(0, u8 "line_absent")].
Proof. vm_compute. reflexivity. Qed.

Lemma published_findings_verified_witness :
  ∃ g, vo_payload reviewed_output = Payload_verified [g] (build_deterministic_summary [g] 0) []
    ∧ same_claim (f2_finding checked_finding) (f2_finding g)
    ∧ vo_verify_response reviewed_output ≠ None.
Proof.
  exists checked_finding.
  assert (Hp : vo_payload reviewed_output
               = Payload_verified [checked_finding] (build_deterministic_summary [checked_finding] 0) [])
    by (vm_compute; reflexivity).
  split; [exact Hp|].
  pose proof reviewed_ok as Hok. unfold reviewed in Hok.
  destruct (published_findings_verified _ _ _ _ _ _ _ _ _ _ _ _ _ _ _ _ _ _ _ _ _ _ _ _ Hok)
    as (data & items & findings & summary & Hd & Hi & Hv & Hall).
  rewrite Hp in Hv. injection Hv as <- _ _.
  destruct (Hall checked_finding) as (f & _ & _ & _ & _ & _ & _ & _ & _ & ? & ? & ? & ? & ? & ? & ? & _ & _ & _ & _ & Hr & _);
    [apply list_elem_of_here|].
  split; [apply same_claim_refl|]. by rewrite Hr.
Defined.

(** A repaired finding may lose its whole body, and with it the schema of a stored answer. *)
Definition attributed_only : ReviewFinding :=
  mkReviewFinding (u8 "a.py") 2 None Sev_high Cat_correctness (u8 "Check the guard")
    (u8 "According to custom instructions in 'AGENTS.md' (x): ") None (9 # 10) None.
Lemma repair_empties_body :
  finding_valid attributed_only = true
  ∧ finding_valid (pf_finding (repair_attribution (mkProcessedFinding attributed_only 0 Bucket_inline None)
                                 ∅ (Some ∅))) = false.
Proof. by vm_compute. Qed.

(** ** The run *)

Section RunClaims.
Context (repr : pystr → pystr) (read_prompt : pystr → result pystr pystr).
Context (patterns : LintFilterPatterns) (refusal : ReviewFindingV2 → pystr).
Context {conventions : Type} (prepare : result ExecExc (Prepared conventions)).
Context (get_prompt_input : conventions → result ExecExc (option ReviewPromptInput)).
Context (get_meta : result ExecExc (option PullRequestMeta)).
Context (draft_review : ReviewContext → result ExecExc DraftReply).

Abbreviation run :=
  (execute_review repr read_prompt patterns refusal prepare get_prompt_input get_meta draft_review).

Lemma pass_payload verify output c s manifest call_id original ignored v :
  run_reflection_pass repr patterns refusal verify output c s manifest call_id original ignored = Ok v →
  ∃ findings below_count rest,
    vo_payload v = Payload_verified findings (build_deterministic_summary findings below_count) rest.
Proof.
  intros (data & items & m & published & n & _ & _ & _ & Hv & _)%pass_ok. eauto.
Qed.

(** The context and the manifest the model call was fitted to: those of the reply, else the context
    of the run and none. *)
Definition fitted_context (c : ReviewContext) (r : DraftReply) : ReviewContext :=
  match r with Reply_fitted _ c' _ => c' | Reply_plain _ => c end.
Definition fitted_manifest (r : DraftReply) : option CallManifest :=
  match r with Reply_fitted _ _ m => Some m | Reply_plain _ => None end.

End RunClaims.

(** A run of the two items on the snapshot path. *)
Definition sample_input : ReviewPromptInput :=
  mkReviewPromptInput (rx_system verified_context) [] None (rx_conventions verified_context)
    (rx_changed_files verified_context) [] (Some verified_snapshot) Th_all None.
Definition sample_filter : ReviewContextFilter :=
  mkReviewContextFilter None (Some (u8 "head")) None None ∅ (λ path, path =?s u8 "b.py").
Definition sample_verifier : Verifier :=
  mkVerifier (Some 330)
    (verify_recorded id (λ _ _, false) Z (λ _, 1) Z.mul id Z.ltb Z.eqb (λ _, []) verifier_resource
       verified_builder (Some 330) 9%N supporting_model).
Definition sample_run : result ExecExc (option Handed) :=
  execute_review id verifier_resource no_patterns (λ _, []) (Ok (Prepared_conventions tt))
    (λ _, Ok (Some sample_input)) (Ok (Some (rx_pr_meta verified_context)))
    (λ c, Ok (Reply_fitted two_items c gap_manifest)) (Some sample_filter) (Some sample_verifier) 3%N.
Definition handed_answer (h : option Handed) : VerifiedReviewOutput :=
  match h with Some (Hand_answer v) => v | _ => reviewed_output end.
Definition handed_output : VerifiedReviewOutput :=
  handed_answer (ok_or None sample_run).

