(* ===== verification/Llm.v ===== *)
(** * Contracts of model calls ([llm.py], [review_result_cache.py])

    Error codes, the context of an attempt, the records written for a call, and the identity under
    which an accepted answer is cached. *)

From Stdlib Require Import String SpecFloat.
From stdpp Require Import numbers.
From S2P Require Import Prelude PyText PyHash PyFloat PyDecimal PyValue DiffMap RunFailures RunStore.
From S2P Require Import Eligibility PolicySnapshots PromptRender PromptBudget Manifests.
#[local] Open Scope Z_scope.

Inductive LlmErrorCode : Type :=
| LLM_TIMEOUT
| LLM_RATE_LIMITED
| LLM_PAYMENT_REQUIRED
| LLM_UNAVAILABLE
| LLM_INVALID_OUTPUT
| LLM_CONTEXT_OVERFLOW
| LLM_BUDGET_EXCEEDED
| LLM_DEADLINE_EXCEEDED
| LLM_VERIFICATION_DEADLINE_EXCEEDED.

#[export] Instance LlmErrorCode_eq_dec : EqDecision LlmErrorCode.
Proof. solve_decision. Defined.

Definition LlmErrorCode_value (c : LlmErrorCode) : pystr :=
  match c with
  | LLM_TIMEOUT => u8 "llm_timeout"
  | LLM_RATE_LIMITED => u8 "llm_rate_limited"
  | LLM_PAYMENT_REQUIRED => u8 "llm_payment_required"
  | LLM_UNAVAILABLE => u8 "llm_unavailable"
  | LLM_INVALID_OUTPUT => u8 "llm_invalid_output"
  | LLM_CONTEXT_OVERFLOW => u8 "llm_context_overflow"
  | LLM_BUDGET_EXCEEDED => u8 "budget_exceeded"
  | LLM_DEADLINE_EXCEEDED => u8 "deadline_exceeded"
  | LLM_VERIFICATION_DEADLINE_EXCEEDED => u8 "verification_deadline_exceeded"
  end.

Inductive LlmCallKind : Type := Kind_primary | Kind_retry | Kind_repair | Kind_fallback.

Definition LlmCallKind_value (k : LlmCallKind) : pystr :=
  match k with
  | Kind_primary => u8 "primary"
  | Kind_retry => u8 "retry"
  | Kind_repair => u8 "repair"
  | Kind_fallback => u8 "fallback"
  end.

Record LlmUsage : Type := mkLlmUsage {
  lu_provider : pystr;
  lu_model : pystr;
  lu_operation : pystr;
  lu_tokens_in : Z;
  lu_tokens_out : Z;
  lu_cache_read_tokens : Z;
  lu_cost_usd : decimal
}.

(** [lf_message] is the text without the code that [str] puts before it. *)
Record LlmCallFailed : Type := mkLlmCallFailed {
  lf_error_code : LlmErrorCode;
  lf_message : pystr;
  lf_usage : list LlmUsage;
  lf_calls : Z;
  lf_retry_after_s : option float
}.

Definition failed_text (f : LlmCallFailed) : pystr :=
  LlmErrorCode_value (lf_error_code f) ++ u8 ": " ++ lf_message f.

Definition run_retryable (f : LlmCallFailed) : bool :=
  str_mem (LlmErrorCode_value (lf_error_code f)) RETRYABLE_ERROR_CODES.

Record RunCallContext : Type := mkRunCallContext {
  cx_run_id : UUID;
  cx_workspace_id : UUID;
  cx_attempt : Z;
  cx_engine : Engine;
  cx_deadline : Z;
  cx_prompt_version_id : option UUID;
  cx_rule_version_id : option UUID;
  cx_repository_id : option UUID
}.

Record LlmCallError : Type := mkLlmCallError {
  ce_error_class : LlmErrorCode;
  ce_http_status : option Z;
  ce_message : pystr
}.

(** A [date] is its day, counted from 1970-01-01. *)
Definition date_isoformat (day : Z) : pystr :=
  let '(y, m, d) := civil_of_days day in
  padded 4 y ++ u8 "-" ++ padded 2 m ++ u8 "-" ++ padded 2 d.

Record FxProvenance : Type := mkFxProvenance {
  fx_source : pystr;
  fx_observation_date : Z;
  fx_rate_usd_per_eur : decimal;
  fx_stale_cache : bool
}.

Definition fx_as_json (f : FxProvenance) : pyval :=
  VDict [(u8 "source", VStr (fx_source f));
         (u8 "observation_date", VStr (date_isoformat (fx_observation_date f)));
         (u8 "rate_usd_per_eur", VStr (dec_str (fx_rate_usd_per_eur f)));
         (u8 "stale_cache", VBool (fx_stale_cache f))].

Record LlmCallRecord : Type := mkLlmCallRecord {
  cr_kind : LlmCallKind;
  cr_model : pystr;
  cr_call_no : Z;
  cr_attempt : Z;
  cr_timeout_s : float;
  cr_prompt_version_id : option UUID;
  cr_rule_version_id : option UUID;
  cr_input_tokens_estimate : Z;
  cr_started_at : Z;
  cr_duration_ms : Z;
  cr_response : pyval;
  cr_error : option LlmCallError;
  cr_fx : option FxProvenance;
  cr_paid_metadata_error : bool;
  cr_operation : option pystr;
  cr_call_id : option UUID;
  cr_stage : option StageName;
  cr_policy_snapshot_id : option UUID;
  cr_manifest_id : option UUID
}.

Definition uuid_or_none (value : option UUID) : pyval := VOpt (λ u, VStr (str_of_uuid u)) value.

(** Keys are added only for what the call has. *)
Definition request_json (r : LlmCallRecord) : pyval :=
  VDict
    ([(u8 "kind", VStr (LlmCallKind_value (cr_kind r)));
      (u8 "model", VStr (cr_model r));
      (u8 "call_no", VInt (cr_call_no r));
      (u8 "attempt", VInt (cr_attempt r));
      (u8 "timeout_s", VReal (cr_timeout_s r));
      (u8 "prompt_version_id", uuid_or_none (cr_prompt_version_id r));
      (u8 "rule_version_id", uuid_or_none (cr_rule_version_id r));
      (u8 "input_tokens_estimate", VInt (cr_input_tokens_estimate r))]
     ++ (match cr_operation r with Some o => [(u8 "operation", VStr o)] | None => [] end)
     ++ (match cr_call_id r with
         | Some id =>
             [(u8 "call_id", VStr (str_of_uuid id));
              (u8 "stage", VOpt (λ s, VStr (StageName_value s)) (cr_stage r));
              (u8 "policy_snapshot_id", uuid_or_none (cr_policy_snapshot_id r));
              (u8 "manifest_id", uuid_or_none (cr_manifest_id r))]
         | None => []
         end)
     ++ (match cr_fx r with Some f => [(u8 "fx", fx_as_json f)] | None => [] end)
     ++ (if cr_paid_metadata_error r then [(u8 "paid_metadata_error", VBool true)] else [])).

Definition response_json (r : LlmCallRecord) : pyval :=
  match cr_error r with
  | None => cr_response r
  | Some e =>
      VDict [(u8 "error",
              VDict [(u8 "class", VStr (LlmErrorCode_value (ce_error_class e)));
                     (u8 "http_status", VOpt VInt (ce_http_status e));
                     (u8 "message", VStr (ce_message e))])]
  end.

Definition result_cache_hit_request (operation : pystr) (source_run_id : UUID)
    (source_call_id source_manifest_id : option UUID) : pyval :=
  VDict [(u8 "operation", VStr operation);
         (u8 "cache", VStr (u8 "hit"));
         (u8 "source_run_id", VStr (str_of_uuid source_run_id));
         (u8 "source_call_id", uuid_or_none source_call_id);
         (u8 "source_manifest_id", uuid_or_none source_manifest_id)].

Record ManifestEntry : Type := mkManifestEntry {
  me_manifest_id : UUID;
  me_attempt : Z;
  me_policy_snapshot_id : UUID;
  me_manifest : CallManifest;
  me_parent_call_id : option UUID;
  me_input_tokens : Z;
  me_started_at : Z;
  me_rendered_messages_sha256 : pystr;
  me_prompt_checksum : pystr;
  me_model_profile_version : pystr
}.

Definition stage_prompt_checksum (bindings : PromptBindings) (stage : StageName) : pystr :=
  match stage with
  | Stage_conventions => pb_conventions_checksum bindings
  | Stage_review => pb_review_system_checksum bindings
  | Stage_verification => pb_verifier_checksum bindings
  end.

(** [None] is the error of a text with a lone surrogate. *)
Definition model_profile_version (profile : ExecutionProfile) : option pystr :=
  sha256_text (json_dumps false (JObj (profile_to_json profile))).

(** ** Cached answers *)

Definition REVIEW_RESULT_NAMESPACE : pystr := u8 "review-result-v1".
Definition REVIEW_RESULT_KEY_PREFIX : pystr := u8 "review-result:".

Inductive ReviewResultOperation : Type := Op_review | Op_verification.

Definition ReviewResultOperation_value (o : ReviewResultOperation) : pystr :=
  match o with Op_review => u8 "review" | Op_verification => u8 "verification" end.

(** [ReviewResultOperation(text)], for the texts the gateway passes. *)
Definition ReviewResultOperation_of (text : pystr) : option ReviewResultOperation :=
  if text =?s u8 "review" then Some Op_review
  else if text =?s u8 "verification" then Some Op_verification else None.

Record ReviewResultModel : Type := mkReviewResultModel { rm_provider : pystr; rm_model_id : pystr }.

Record ReviewResultIdentity : Type := mkReviewResultIdentity {
  ri_operation : ReviewResultOperation;
  ri_repository_id : UUID;
  ri_model : ReviewResultModel;
  ri_prompt_version : pystr;
  ri_output_schema_version : pystr;
  ri_profile_version : pystr;
  ri_rendered_input_digest : pystr;
  ri_request_options_digest : pystr
}.

Record ReviewResultSource : Type := mkReviewResultSource {
  rs_run_id : UUID;
  rs_call_id : option UUID;
  rs_manifest_id : option UUID
}.

Definition review_result_entry (answer : list (pystr * pyval)) (source : ReviewResultSource)
  : list (pystr * pyval) :=
  [(u8 "answer", VDict answer);
   (u8 "source",
    VDict [(u8 "run_id", VStr (str_of_uuid (rs_run_id source)));
           (u8 "call_id", uuid_or_none (rs_call_id source));
           (u8 "manifest_id", uuid_or_none (rs_manifest_id source))])].

(** [int(s, 16)]: an optional sign and prefix, underscores between digits. *)
Definition hex_value (c : char) : option N :=
  match decimal_value c with
  | Some d => Some d
  | None => hex_digit c
  end.
Fixpoint hex_number (acc : option N) (s : pystr) : option N :=
  match s with
  | [] => acc
  | c :: s' =>
      if (c =? 95)%N
      then match acc, s' with
           | Some _, d :: _ => if (d =? 95)%N then None else hex_number acc s'
           | _, _ => None
           end
      else d ← hex_value c; hex_number (Some (default 0%N acc * 16 + d)%N) s'
  end.
Definition int_base16 (s : pystr) : option Z :=
  let '(neg, rest) := take_sign (strip_with is_space s) in
  let prefixed := startswith (str_lower rest) (u8 "0x") in
  let digits := if prefixed then drop 2 rest else rest in
  let digits := match digits with c :: ds => if prefixed && (c =? 95)%N then ds else digits
                             | [] => [] end in
  n ← hex_number None digits;
  Some (if neg : bool then - Z.of_N n else Z.of_N n).

(** [UUID(text)]; [None] is its [ValueError]. *)
Definition UUID_of_str (text : pystr) : option UUID :=
  let bare := str_replace (str_replace text (u8 "urn:") []) (u8 "uuid:") [] in
  let hex := List.filter (λ c, negb (c =? 45)%N) (strip_with (λ c, (c =? 123) || (c =? 125))%N bare) in
  if (length hex =? 32)%nat then
    n ← int_base16 hex;
    if (0 <=? n) && (n <? 2 ^ 128) then Some (Z.to_N n) else None
  else None.

Definition parse_id (value : option pyval) (required : bool) : bool * option UUID :=
  match value with
  | None | Some VNone => (negb required, None)
  | Some (VStr s) => match UUID_of_str s with Some u => (true, Some u) | None => (false, None) end
  | Some _ => (false, None)
  end.

Definition stored_review_result (value : list (pystr * pyval))
  : option (list (pystr * pyval) * ReviewResultSource) :=
  match assoc (u8 "answer") value, assoc (u8 "source") value with
  | Some (VDict answer), Some (VDict source) =>
      let '(run_ok, run_id) := parse_id (assoc (u8 "run_id") source) true in
      let '(call_ok, call_id) := parse_id (assoc (u8 "call_id") source) false in
      let '(manifest_ok, manifest_id) := parse_id (assoc (u8 "manifest_id") source) false in
      if run_ok && call_ok && manifest_ok
      then run_id ← run_id; Some (answer, mkReviewResultSource run_id call_id manifest_id)
      else None
  | _, _ => None
  end.

Definition identity_payload (i : ReviewResultIdentity) : pyval :=
  VDict [(u8 "namespace", VStr REVIEW_RESULT_NAMESPACE);
         (u8 "operation", VStr (ReviewResultOperation_value (ri_operation i)));
         (u8 "repository_id", VStr (str_of_uuid (ri_repository_id i)));
         (u8 "model", VDict [(u8 "provider", VStr (rm_provider (ri_model i)));
                             (u8 "model_id", VStr (rm_model_id (ri_model i)))]);
         (u8 "prompt_version", VStr (ri_prompt_version i));
         (u8 "output_schema_version", VStr (ri_output_schema_version i));
         (u8 "profile_version", VStr (ri_profile_version i));
         (u8 "rendered_input_digest", VStr (ri_rendered_input_digest i));
         (u8 "request_options_digest", VStr (ri_request_options_digest i))].

Definition review_result_digest (i : ReviewResultIdentity) : option pystr :=
  value_digest (identity_payload i).

Definition review_result_cache_key (i : ReviewResultIdentity) : option pystr :=
  app REVIEW_RESULT_KEY_PREFIX <$> review_result_digest i.
