(* ===== verification/LlmSettings.v ===== *)
(** * Models, prices and the call policy ([settings.py])

    URL parsing, the IDNA codec and the JSON reader of the standard library are arguments. *)

From Stdlib Require Import String SpecFloat.
From stdpp Require Import numbers.
From S2P Require Import Prelude PyText PyHash PyFloat PyDecimal PyValue DiffMap RunStore Llm.
#[local] Open Scope Z_scope.

(** A literal of the source. *)
Definition D (s : string) : decimal := default (DNaN true) (dec_of_str (u8 s)).

Inductive StructuredOutput : Type := Out_json_schema | Out_prompt_json.

Definition MILLION : decimal := dec_of_Z 1000000.

Record ModelPrice : Type := mkModelPrice {
  mp_input_per_mtok : decimal;
  mp_output_per_mtok : decimal;
  mp_cache_read_per_mtok : decimal
}.

Definition cost_usd (p : ModelPrice) (tokens_in tokens_out cache_read_tokens : Z) : deciding decimal :=
  let uncached := Z.max (tokens_in - cache_read_tokens) 0 in
  a ← dec_mul (dec_of_Z uncached) (mp_input_per_mtok p);
  b ← dec_mul (dec_of_Z cache_read_tokens) (mp_cache_read_per_mtok p);
  ab ← dec_add a b;
  c ← dec_mul (dec_of_Z tokens_out) (mp_output_per_mtok p);
  abc ← dec_add ab c;
  total ← dec_div abc MILLION;
  dec_quantize total (-6).

Record ModelProfile : Type := mkModelProfile {
  mo_provider : pystr;
  mo_base_url : pystr;
  mo_model : pystr;
  mo_context_window : Z;
  mo_max_output_tokens : Z;
  mo_price : ModelPrice;
  mo_structured_output : StructuredOutput;
  mo_chars_per_token : float;
  mo_api_keys : list pystr;
  mo_extra_body : list (pystr * pyval)
}.

Record GatewayPolicy : Type := mkGatewayPolicy {
  gp_call_timeout_s : Engine → float;
  gp_input_token_limit : Engine → Z;
  gp_run_cost_limit_usd : Engine → decimal;
  gp_max_calls_per_attempt : Z;
  gp_timeout_retry_delays_s : list float;
  gp_unavailable_retry_delays_s : list float;
  gp_max_jitter_s : float;
  gp_max_retry_after_s : float;
  gp_rate_limit_default_delay_s : float
}.

Definition by_engine {A} (fast deep : A) (e : Engine) : A :=
  match e with Engine_fast => fast | Engine_deep => deep end.

Definition default_policy : GatewayPolicy :=
  mkGatewayPolicy (by_engine (float_of_Z 90) (float_of_Z 300)) (by_engine 60000 150000)
    (by_engine (D "0.50") (D "3")) 4 [float_of_Z 2] [float_of_Z 2; float_of_Z 8]
    (float_of_Z 1) (float_of_Z 30) (float_of_Z 2).

Record LlmSettings : Type := mkLlmSettings {
  st_primary : ModelProfile;
  st_fallback : option ModelProfile;
  st_policy : GatewayPolicy;
  st_verifier : option ModelProfile;
  st_verifier_fallback : option ModelProfile
}.

Definition verifier_route (s : LlmSettings) : ModelProfile * option ModelProfile :=
  (default (st_primary s) (st_verifier s),
   match st_verifier_fallback s with Some p => Some p | None => st_fallback s end).

Definition EUROUTER_URL : pystr := u8 "https://api.eurouter.ai/api/v1".

Definition KNOWN_MODELS : list (pystr * ModelProfile) :=
  [(u8 "mistral-small-4",
    mkModelProfile (u8 "eurouter") EUROUTER_URL (u8 "mistral-small-4") 262144 8000
      (mkModelPrice (D "0.56125") (D "2.35725") (D "0.56125")) Out_json_schema (float_of_Z 3) [] []);
   (u8 "mistral-small-3.2-24b",
    mkModelProfile (u8 "eurouter") EUROUTER_URL (u8 "mistral-small-3.2-24b") 128000 8000
      (mkModelPrice (D "0.2245") (D "0.449") (D "0.2245")) Out_json_schema (float_of_Z 3) [] [])].

Definition KNOWN_EUR_ROUTE_CEILING : list (pystr * ModelPrice) :=
  [(u8 "mistral-small-4", mkModelPrice (D "0.50") (D "2.10") (D "0.50"));
   (u8 "mistral-small-3.2-24b", mkModelPrice (D "0.20") (D "0.40") (D "0.20"))].

(** What these functions raise: [LlmConfigError] with its message, an exception of [decimal], and
    the [KeyError] of a model without a ceiling. *)
Inductive ConfigExc : Type :=
| Cfg_error (message : pystr)
| Cfg_decimal (e : DecimalException)
| Cfg_key.

Definition of_decimal {A} (r : deciding A) : result ConfigExc A := map_err Cfg_decimal r.

(** [except DecimalException: raise LlmConfigError(message)] *)
Definition decimal_config {A} (message : pystr) (r : result ConfigExc A) : result ConfigExc A :=
  match r with Err (Cfg_decimal _) => Err (Cfg_error message) | _ => r end.

(** [urlsplit(url)] with its lazily read host and port. *)
Record UrlParts : Type := mkUrlParts {
  ur_scheme : pystr;
  ur_hostname : option pystr;
  ur_port : option Z;
  ur_username : option pystr;
  ur_password : option pystr;
  ur_path : pystr;
  ur_query : pystr;
  ur_fragment : pystr
}.

Definition TOO_LARGE : pystr := u8 "ECB EUR/USD rate is too large for model pricing".

Definition known_endpoint_price (configured catalog_floor : ModelPrice) (model : pystr)
    (rate : option decimal) : result ConfigExc ModelPrice :=
  match assoc model KNOWN_EUR_ROUTE_CEILING with
  | None => Err Cfg_key
  | Some eur_ceiling =>
      let at_rate (price : decimal) : result ConfigExc decimal :=
        match rate with Some r => of_decimal (dec_mul price r) | None => Ok (dec_of_Z 0) end in
      '(ci, co, cc) ← decimal_config TOO_LARGE
        (i ← at_rate (mp_input_per_mtok eur_ceiling);
         o ← at_rate (mp_output_per_mtok eur_ceiling);
         c ← at_rate (mp_cache_read_per_mtok eur_ceiling);
         Ok (i, o, c));
      let max3 (a b c : decimal) : deciding decimal := m ← dec_max a b; dec_max m c in
      input ← of_decimal (max3 (mp_input_per_mtok configured) (mp_input_per_mtok catalog_floor) ci);
      output ← of_decimal (max3 (mp_output_per_mtok configured) (mp_output_per_mtok catalog_floor) co);
      cache ← of_decimal (m ← max3 (mp_cache_read_per_mtok configured)
                                (mp_cache_read_per_mtok catalog_floor) cc;
                          dec_max m input);
      Ok (mkModelPrice input output cache)
  end.

Section Endpoints.
Context (urlsplit : pystr → option UrlParts) (idna : pystr → option pystr).
Context (json_loads : pystr → option pyval).

Definition default_port (scheme : pystr) : option Z :=
  if scheme =?s u8 "https" then Some 443 else if scheme =?s u8 "http" then Some 80 else None.

Definition strip_dot (host : pystr) : pystr :=
  if endswith host (u8 ".") then take (length host - 1) host else host.

Definition endpoint_identity (url prefix : pystr)
  : result ConfigExc (pystr * pystr * option Z * pystr) :=
  let invalid := Err (Cfg_error (prefix ++ u8 "BASE_URL must be a valid endpoint URL")) in
  match urlsplit url with
  | None => invalid
  | Some parts =>
      match ur_hostname parts with
      | Some host =>
          if (ur_scheme parts =?s []) || negb (bool_decide (ur_username parts = None))
             || negb (bool_decide (ur_password parts = None))
          then invalid
          else if negb (ur_query parts =?s []) || negb (ur_fragment parts =?s [])
          then Err (Cfg_error (prefix ++ u8 "BASE_URL must not contain query or fragment"))
          else
            let scheme := str_lower (ur_scheme parts) in
            Ok (scheme, strip_dot (str_lower host),
                match ur_port parts with Some p => Some p | None => default_port scheme end,
                rstrip_with (N.eqb SLASH) (ur_path parts))
      | None => invalid
      end
  end.

Definition endpoint_host (e : pystr * pystr * option Z * pystr) : pystr := snd (fst (fst e)).

Definition is_eurouter_route (p : ModelProfile) : result ConfigExc bool :=
  e ← endpoint_identity (mo_base_url p) (u8 "LLM_");
  match idna (endpoint_host e) with
  | Some host => Ok (rstrip_with (N.eqb 46) host =?s u8 "api.eurouter.ai")
  | None => Err (Cfg_error (u8 "LLM_BASE_URL host must be valid"))
  end.

Definition price_at_eur_quote (p : ModelProfile) (rate : decimal) : result ConfigExc ModelPrice :=
  match assoc (mo_model p) KNOWN_MODELS with
  | None => Ok (mo_price p)
  | Some known =>
      e ← endpoint_identity (mo_base_url p) (u8 "LLM_");
      e' ← endpoint_identity (mo_base_url known) (u8 "LLM_");
      if negb (bool_decide (e = e')) then Ok (mo_price p)
      else
        bad ← (if negb (dec_finite rate) then Ok true else of_decimal (dec_le rate (dec_of_Z 0)));
        if bad : bool then Err (Cfg_error (u8 "ECB EUR/USD rate must be positive and finite"))
        else
          price ← known_endpoint_price (mo_price p) (mo_price known) (mo_model p) (Some rate);
          _ ← decimal_config TOO_LARGE
                (of_decimal (cost_usd price (mo_context_window p) (mo_max_output_tokens p) 0));
          Ok price
  end.

Definition LOCAL_HOSTS : list pystr :=
  [u8 "localhost"; u8 "127.0.0.1"; u8 "::1"; u8 "host.docker.internal"].

Definition is_local (base_url : pystr) : bool :=
  let host := default [] (parts ← urlsplit base_url; ur_hostname parts) in
  str_mem host LOCAL_HOSTS || endswith host (u8 ".localhost") || endswith host (u8 ".local")
  || endswith host (u8 ".internal").

(** *** One profile from the environment *)

Section Profile.
Context (env : list (pystr * pystr)) (prefix : pystr).

(** An empty variable is an unset one. *)
Definition env_value (name : pystr) : option pystr :=
  raw ← assoc (prefix ++ name) env; if raw =?s [] then None else Some raw.

Definition config_error {A} (text : pystr) : result ConfigExc A := Err (Cfg_error (prefix ++ text)).

Definition env_number (name : pystr) (dflt : option Z) : result ConfigExc Z :=
  match env_value name with
  | None =>
      match dflt with
      | None => config_error (name ++ u8 " must be set for an unknown model")
      | Some n => Ok n
      end
  | Some raw =>
      match int_of_str raw with
      | None => config_error (name ++ u8 " must be an integer")
      | Some n => if n <=? 0 then config_error (name ++ u8 " must be positive") else Ok n
      end
  end.

Definition env_price (name : pystr) (dflt : option decimal) : result ConfigExc decimal :=
  match env_value name with
  | None => Ok (default (dec_of_Z 0) dflt)
  | Some raw =>
      match dec_of_str raw with
      | None => config_error (name ++ u8 " must be a decimal")
      | Some d =>
          negative ← (if dec_finite d then of_decimal (dec_lt d (dec_of_Z 0)) else Ok true);
          if negative : bool then config_error (name ++ u8 " must be a non-negative decimal")
          else Ok d
      end
  end.

Definition env_base_url (known inherit : option ModelProfile) : result ConfigExc pystr :=
  match env_value (u8 "BASE_URL"), known, inherit with
  | Some url, _, _ => Ok (rstrip_with (N.eqb SLASH) url)
  | None, Some k, _ => Ok (mo_base_url k)
  | None, None, Some i => Ok (mo_base_url i)
  | None, None, None => config_error (u8 "BASE_URL must be set for an unknown model")
  end.

Definition env_keys (inherited : option ModelProfile) : list pystr :=
  match env_value (u8 "API_KEYS") with
  | Some raw => List.filter (λ k, negb (k =?s [])) (strip_with is_space <$> split_on 44 raw)
  | None => match inherited with Some i => mo_api_keys i | None => [] end
  end.

Definition env_structured (known inherited : option ModelProfile) (allow_prompt_json : bool)
  : result ConfigExc StructuredOutput :=
  match env_value (u8 "STRUCTURED_OUTPUT") with
  | Some text =>
      if text =?s u8 "json_schema" then Ok Out_json_schema
      else if text =?s u8 "prompt_json" then
        if allow_prompt_json then Ok Out_prompt_json
        else config_error
               (u8 "STRUCTURED_OUTPUT=prompt_json needs LLM_ALLOW_PROMPT_JSON=1 (dev/eval only)")
      else config_error (u8 "STRUCTURED_OUTPUT must be json_schema or prompt_json")
  | None =>
      let out := match known, inherited with
                 | Some k, _ => mo_structured_output k
                 | None, Some i => mo_structured_output i
                 | None, None => Out_json_schema
                 end in
      match out with
      | Out_prompt_json =>
          if allow_prompt_json then Ok out
          else config_error
                 (u8 "STRUCTURED_OUTPUT=prompt_json needs LLM_ALLOW_PROMPT_JSON=1 (dev/eval only)")
      | Out_json_schema => Ok out
      end
  end.

Definition env_extra_body : result ConfigExc (list (pystr * pyval)) :=
  match env_value (u8 "EXTRA_BODY") with
  | None => Ok []
  | Some raw =>
      match json_loads raw with
      | Some (VDict d) => Ok d
      | _ => config_error (u8 "EXTRA_BODY must be a JSON object")
      end
  end.

Definition profile_from_env (inherit : option ModelProfile) (allow_prompt_json : bool)
  : result ConfigExc ModelProfile :=
  match env_value (u8 "MODEL") with
  | None => config_error (u8 "MODEL must be set")
  | Some model =>
      let known := assoc model KNOWN_MODELS in
      base_url ← env_base_url known inherit;
      endpoint ← endpoint_identity base_url prefix;
      _ ← raise_when (negb (bool_decide (known = None))
                      && negb (py_all (λ c, (c <? 128)%N) (endpoint_host endpoint)))
            (Cfg_error (prefix ++ u8 "BASE_URL host must contain only ASCII characters"));
      known_identity ← match known with
                       | Some k => e ← endpoint_identity (mo_base_url k) prefix; Ok (Some e)
                       | None => Ok None
                       end;
      let known_endpoint := bool_decide (known_identity = Some endpoint) in
      _ ← raise_when (bool_decide (endpoint_host <$> known_identity = Some (endpoint_host endpoint))
                      && negb known_endpoint)
            (Cfg_error (prefix ++ u8 "BASE_URL must use the known endpoint for " ++ model));
      inherited ← match inherit with
                  | Some i => e ← endpoint_identity (mo_base_url i) prefix;
                              Ok (if bool_decide (endpoint = e) then Some i else None)
                  | None => Ok None
                  end;
      let api_keys := env_keys inherited in
      _ ← raise_when (known_endpoint && bool_decide (api_keys = []))
            (Cfg_error (prefix ++ u8 "API_KEYS must be set for " ++ model));
      _ ← raise_when (negb (bool_decide (api_keys = []))
                      && negb (str_lower (default [] (ur_scheme <$> urlsplit base_url)) =?s u8 "https")
                      && negb (is_local base_url))
            (Cfg_error (prefix ++ u8 "BASE_URL must use https when keys are sent"));
      let provider :=
        match env_value (u8 "PROVIDER") with
        | Some p => Some p
        | None => match (if known_endpoint then mo_provider <$> known else None) with
                  | Some p => Some p
                  | None => mo_provider <$> inherited
                  end
        end in
      let provider := default (u8 "self-hosted") (py_or provider None) in
      structured ← env_structured known inherited allow_prompt_json;
      extra_body ← env_extra_body;
      context_window ← env_number (u8 "CONTEXT_WINDOW") (mo_context_window <$> known);
      max_output_tokens ← env_number (u8 "MAX_OUTPUT_TOKENS")
        (Some (match known with Some k => mo_max_output_tokens k | None => 8000 end));
      _ ← raise_when (context_window <=? max_output_tokens)
            (Cfg_error (prefix ++ u8 "MAX_OUTPUT_TOKENS must be below " ++ prefix ++ u8 "CONTEXT_WINDOW"));
      input ← env_price (u8 "PRICE_INPUT_PER_MTOK") (mp_input_per_mtok ∘ mo_price <$> known);
      output ← env_price (u8 "PRICE_OUTPUT_PER_MTOK") (mp_output_per_mtok ∘ mo_price <$> known);
      cache ← env_price (u8 "PRICE_CACHE_READ_PER_MTOK") (mp_cache_read_per_mtok ∘ mo_price <$> known);
      let configured := mkModelPrice input output cache in
      price ← match known with
              | Some k => if known_endpoint then known_endpoint_price configured (mo_price k) model None
                          else Ok configured
              | None => Ok configured
              end;
      Ok (mkModelProfile provider base_url model context_window max_output_tokens price structured
            (match known with Some k => mo_chars_per_token k | None => float_of_Z 3 end)
            api_keys extra_body)
  end.
End Profile.

(** [env.get(name)] that is set and not empty *)
Definition env_set (env : list (pystr * pystr)) (name : pystr) : bool :=
  match assoc name env with Some v => negb (v =?s []) | None => false end.

Definition optional_profile (env : list (pystr * pystr)) (prefix : pystr) (inherit : ModelProfile)
    (allow_prompt_json : bool) : result ConfigExc (option ModelProfile) :=
  if env_set env (prefix ++ u8 "MODEL")
  then p ← profile_from_env env prefix (Some inherit) allow_prompt_json; Ok (Some p)
  else Ok None.

Definition from_env (env : list (pystr * pystr)) : result ConfigExc LlmSettings :=
  let allow := ostr_eqb (assoc (u8 "LLM_ALLOW_PROMPT_JSON") env) (Some (u8 "1")) in
  primary ← profile_from_env env (u8 "LLM_") None allow;
  fallback ← optional_profile env (u8 "LLM_FALLBACK_") primary allow;
  verifier ← optional_profile env (u8 "LLM_VERIFIER_") primary allow;
  verifier_fallback ← optional_profile env (u8 "LLM_VERIFIER_FALLBACK_")
                        (default primary verifier) allow;
  Ok (mkLlmSettings primary fallback default_policy verifier verifier_fallback).
End Endpoints.
