(* ===== verification/LlmTransport.v ===== *)
(** * The chat transport ([transport.py])

    Requests, the classification of failures, redaction of keys, and the reading of an answer with
    its usage.  The rotation over keys, which awaits, is in [LlmGateway].  An HTTP response is what
    the client library gives: status, text, header and the decoded document. *)

From Stdlib Require Import String SpecFloat.
From stdpp Require Import numbers.
From S2P Require Import Prelude PyText PyHash PyFloat PyDecimal PyValue DiffMap RunStore Llm LlmSettings.
#[local] Open Scope Z_scope.

Inductive Role : Type := Role_system | Role_user | Role_assistant.

Definition Role_value (r : Role) : pystr :=
  match r with
  | Role_system => u8 "system"
  | Role_user => u8 "user"
  | Role_assistant => u8 "assistant"
  end.

Definition ROTATE_STATUSES : list Z := [401; 403; 429].
Definition CONTEXT_MARKERS : list pystr :=
  [u8 "context_length_exceeded"; u8 "context length"; u8 "context window"; u8 "maximum context";
   u8 "too many tokens"; u8 "prompt is too long"; u8 "input is too long"].
Definition MAX_ERROR_TEXT : nat := 300.

Record ChatMessage : Type := mkChatMessage { ms_role : Role; ms_content : pystr }.

Record ResponseSchema : Type := mkResponseSchema {
  sc_name : pystr;
  sc_schema : list (pystr * pyval)
}.

Record ChatRequest : Type := mkChatRequest {
  rq_profile : ModelProfile;
  rq_messages : list ChatMessage;
  rq_response_schema : option ResponseSchema;
  rq_timeout_s : float
}.

Record ChatResponse : Type := mkChatResponse {
  cp_raw : pyval;
  cp_content : option pystr;
  cp_finish_reason : pyval;
  cp_model : pystr;
  cp_prompt_tokens : option Z;
  cp_completion_tokens : option Z;
  cp_cached_tokens : option Z;
  cp_cost : option decimal;
  cp_cost_currency : option pystr;
  cp_refusal : option pystr
}.

(** [te_paid_response] is set in a [TransportPaidAnswerError] only. *)
Record TransportError : Type := mkTransportError {
  te_error_class : LlmErrorCode;
  te_message : pystr;
  te_http_status : option Z;
  te_retry_after_s : option float;
  te_longest_retry_after_s : option float;
  te_retryable : bool;
  te_paid_response : option ChatResponse
}.

Definition transport_error (c : LlmErrorCode) (message : pystr) (status : option Z)
    (retry_after : option float) (retryable : bool) : TransportError :=
  mkTransportError c message status retry_after retry_after retryable None.

Definition paid_answer_error (message : pystr) (paid : ChatResponse) : TransportError :=
  mkTransportError LLM_UNAVAILABLE message (Some 200) None None false (Some paid).

(** The document is [None] when the body is not JSON. *)
Record HttpResponse : Type := mkHttpResponse {
  hr_status_code : Z;
  hr_text : pystr;
  hr_retry_after : option pystr;
  hr_json : option pyval
}.

(** ** Requests *)

Definition provider_request_options (p : ModelProfile) (schema : option ResponseSchema)
  : list (pystr * pyval) :=
  let defaults := [(u8 "max_tokens", VInt (mo_max_output_tokens p)); (u8 "temperature", VInt 0)] in
  let merged := dict_merge defaults (mo_extra_body p) in
  let body := List.filter (λ kv, negb (is_none_value (snd kv))) merged in
  let body := dict_set (u8 "model") (VStr (mo_model p)) body in
  match schema, mo_structured_output p with
  | Some s, Out_json_schema =>
      dict_set (u8 "response_format")
        (VDict [(u8 "type", VStr (u8 "json_schema"));
                (u8 "json_schema",
                 VDict [(u8 "name", VStr (sc_name s)); (u8 "strict", VBool true);
                        (u8 "schema", VDict (sc_schema s))])]) body
  | _, _ => body
  end.

Definition message_json (m : ChatMessage) : pyval :=
  VDict [(u8 "role", VStr (Role_value (ms_role m))); (u8 "content", VStr (ms_content m))].

Definition request_body (r : ChatRequest) : pyval :=
  VDict (dict_set (u8 "messages") (VList (message_json <$> rq_messages r))
           (provider_request_options (rq_profile r) (rq_response_schema r))).

(** ** Failures *)

Definition redact (text : pystr) (keys : list pystr) : pystr :=
  fold_left (λ t key, if key =?s [] then t else str_replace t key (u8 "***")) keys text.

Definition redacted (e : TransportError) (keys : list pystr) : TransportError :=
  mkTransportError (te_error_class e) (redact (te_message e) keys) (te_http_status e)
    (te_retry_after_s e) (te_longest_retry_after_s e) (te_retryable e) (te_paid_response e).

Definition with_longest (longest : option float) (e : TransportError) : TransportError :=
  mkTransportError (te_error_class e) (te_message e) (te_http_status e) (te_retry_after_s e)
    longest (te_retryable e) (te_paid_response e).

(** Seconds only. *)
Definition retry_after (r : HttpResponse) : option float :=
  raw ← hr_retry_after r;
  seconds ← float_of_str raw;
  if is_finite seconds && (S754_zero false <=?f seconds) then Some seconds else None.

Section Bodies.
(** [str(v)] of a value that is not a string. *)
Context (repr_value : pyval → pystr).

Definition value_str (v : pyval) : pystr := match v with VStr s => s | _ => repr_value v end.

Definition dict_get (k : pystr) (v : pyval) : option pyval :=
  match v with VDict d => assoc k d | _ => None end.

Definition error_text (r : HttpResponse) (keys : list pystr) : pystr :=
  let cut text := take MAX_ERROR_TEXT (redact text keys) in
  match hr_json r with
  | None => cut (hr_text r)
  | Some payload =>
      match dict_get (u8 "error") payload with
      | Some (VDict error) =>
          cut (join (u8 " ")
                 (omap (λ name, v ← assoc name error;
                                if value_truthy v then Some (value_str v) else None)
                    [u8 "code"; u8 "message"]))
      | _ => cut (value_str payload)
      end
  end.

Definition status_error (r : HttpResponse) (keys : list pystr) : TransportError :=
  let status := hr_status_code r in
  let text := error_text r keys in
  let message := u8 "HTTP " ++ str_of_Z status ++ u8 ": " ++ text in
  if status =? 429 then transport_error LLM_RATE_LIMITED message (Some status) (retry_after r) true
  else if status =? 402 then transport_error LLM_PAYMENT_REQUIRED message (Some status) None false
  else if (status =? 401) || (status =? 403)
  then transport_error LLM_UNAVAILABLE message (Some status) None false
  else if (status =? 413)
          || ((status =? 400) && py_any (contains (str_lower text)) CONTEXT_MARKERS)
  then transport_error LLM_CONTEXT_OVERFLOW message (Some status) None false
  else transport_error LLM_UNAVAILABLE message (Some status) None (500 <=? status).

(** ** Answers *)

Definition extract_text_content (content : pyval) : option pystr :=
  match content with
  | VStr s => Some s
  | VList parts =>
      Some (mjoin (omap (λ part,
              match dict_get (u8 "type") part with
              | Some (VStr t) =>
                  if t =?s u8 "text"
                  then Some (value_str (default (VStr []) (dict_get (u8 "text") part)))
                  else None
              | _ => None
              end) parts))
  | _ => None
  end.

(** A counter of the usage block: its value, and whether it is unusable. *)
Definition token_count (value : option pyval) (max_count : Z) (missing_is_zero : bool)
  : option Z * bool :=
  match value with
  | None => (if missing_is_zero then Some 0 else None, false)
  | Some (VInt n) => if (0 <=? n) && (n <=? max_count) then (Some n, false) else (None, true)
  | Some (VStr s) =>
      match s, take_digits s with
      | _ :: _, (ds, []) =>
          if py_all (λ c, (c <? 128)%N) s && (length ds <=? 4300)%nat
             && (Z.of_N (digits_value ds) <=? max_count)
          then (Some (Z.of_N (digits_value ds)), false)
          else (None, true)
      | _, _ => (None, true)
      end
  | Some _ => (None, true)
  end.

(** The constants [json] reads as a [float] whatever [parse_float] is. *)
Definition json_constant (literal : pystr) : bool :=
  str_mem literal [u8 "NaN"; u8 "Infinity"; u8 "-Infinity"].

(** Whether [json.loads] with [parse_float=Decimal] reads the document: every number with a fraction
    or an exponent must be one [Decimal] can hold. *)
Fixpoint decimals_read (v : pyval) : bool :=
  match v with
  | VFloat literal => json_constant literal || bool_decide (is_Some (dec_of_str literal))
  | VList l => forallb decimals_read l
  | VDict d => forallb (λ kv, decimals_read (snd kv)) d
  | _ => true
  end.

(** What reading a cost raises: [ValueError], [KeyError] or [TypeError]; or an exception of
    [decimal]. *)
Inductive CostExc : Type := Cost_invalid | Cost_decimal (e : DecimalException).

Definition exact_cost (doc : pyval) : result CostExc decimal :=
  if negb (decimals_read doc) then Err (Cost_decimal InvalidOperation)
  else
    let finite_cost (d : decimal) : result CostExc decimal :=
      if negb (dec_finite d) then Err Cost_invalid
      else negative ← map_err Cost_decimal (dec_lt d (dec_of_Z 0));
           if negative : bool then Err Cost_invalid else Ok d in
    match (usage ← dict_get (u8 "usage") doc; dict_get (u8 "cost") usage) with
    | Some (VInt z) => finite_cost (dec_of_Z z)
    | Some (VFloat literal) =>
        if json_constant literal then Err Cost_invalid
        else match dec_of_str literal with
             | Some d => finite_cost d
             | None => Err (Cost_decimal InvalidOperation)
             end
    | _ => Err Cost_invalid
    end.

(** [s.upper()] as far as it decides whether [s] names a currency: no other character becomes one of
    these letters. *)
Definition upper_char (c : char) : char :=
  if (97 <=? c)%N && (c <=? 122)%N then (c - 32)%N else if (c =? 383)%N then 83%N else c.
Definition currency_code (s : pystr) : option pystr :=
  let u := upper_char <$> s in if str_mem u [u8 "USD"; u8 "EUR"] then Some u else None.

(** What a 200 answer raises: a transport error, or an exception of [decimal]. *)
Inductive ParseExc : Type := Parse_transport (e : TransportError) | Parse_decimal (e : DecimalException).

Definition not_a_completion : ParseExc :=
  Parse_transport (transport_error LLM_UNAVAILABLE
    (u8 "HTTP 200 with a body that is not a chat completion") (Some 200) None true).

(** The answer without its cost: the document, its choice and message, and the usage block. *)
Record Parsed : Type := mkParsed {
  pa_response : ChatResponse;
  pa_invalid_usage : bool;
  pa_invalid_details : bool;
  pa_invalid_tokens : bool;
  pa_usage : list (pystr * pyval)
}.

Definition parse_usage (raw : list (pystr * pyval)) (choice message : list (pystr * pyval))
    (p : ModelProfile) : Parsed :=
  let usage_raw := assoc (u8 "usage") raw in
  let no_usage := match usage_raw with
                  | None | Some VNone | Some (VDict []) => true
                  | Some _ => false
                  end in
  let invalid_usage := match usage_raw with
                       | None | Some VNone | Some (VDict _) => false
                       | Some _ => true
                       end in
  let usage := match usage_raw with Some (VDict d) => d | _ => [] end in
  let details_raw := assoc (u8 "prompt_tokens_details") usage in
  let invalid_details := match details_raw with
                         | None | Some VNone | Some (VDict _) => false
                         | Some _ => true
                         end in
  let details := match details_raw with Some (VDict d) => d | _ => [] end in
  let '(prompt, invalid_prompt) :=
    token_count (assoc (u8 "prompt_tokens") usage) (mo_context_window p) no_usage in
  let '(completion, invalid_completion) :=
    token_count (assoc (u8 "completion_tokens") usage) (mo_max_output_tokens p) no_usage in
  let '(cached, invalid_cached) :=
    token_count (assoc (u8 "cached_tokens") details) (mo_context_window p) no_usage in
  mkParsed
    (mkChatResponse (VDict raw)
       (extract_text_content (default VNone (assoc (u8 "content") message)))
       (default VNone (assoc (u8 "finish_reason") choice))
       (match assoc (u8 "model") raw with
        | Some v => if value_truthy v then value_str v else []
        | None => []
        end)
       prompt completion cached None
       (match assoc (u8 "cost_currency") usage with Some (VStr s) => Some s | _ => None end)
       (match assoc (u8 "refusal") message with
        | Some (VStr s) => if s =?s [] then None else Some s
        | _ => None
        end))
    invalid_usage invalid_details (invalid_prompt || invalid_completion || invalid_cached) usage.

Definition with_cost (r : ChatResponse) (cost : option decimal) (currency : option pystr)
  : ChatResponse :=
  mkChatResponse (cp_raw r) (cp_content r) (cp_finish_reason r) (cp_model r) (cp_prompt_tokens r)
    (cp_completion_tokens r) (cp_cached_tokens r) cost currency (cp_refusal r).

(** The checks of a chat completion that was paid for. *)
Definition check_usage (doc : pyval) (a : Parsed) : result ParseExc ChatResponse :=
  let parsed := pa_response a in
  let paid_error message r : result ParseExc ChatResponse :=
    Err (Parse_transport (paid_answer_error message r)) in
  if pa_invalid_usage a then paid_error (u8 "HTTP 200 with invalid usage metadata") parsed
  else
    let bad_currency := paid_error (u8 "HTTP 200 with unsupported usage.cost_currency") parsed in
    let with_currency currency :=
      match (match default VNone (assoc (u8 "cost") (pa_usage a)) with
             | VNone => Ok None
             | _ => Some <$> exact_cost doc
             end) with
      | Err Cost_invalid => paid_error (u8 "HTTP 200 with invalid usage.cost") parsed
      | Err (Cost_decimal e) => Err (Parse_decimal e)
      | Ok cost =>
          let parsed := with_cost parsed cost currency in
          if pa_invalid_details a then paid_error (u8 "HTTP 200 with invalid usage metadata") parsed
          else if pa_invalid_tokens a
          then paid_error (u8 "HTTP 200 with invalid usage token counts") parsed
          else Ok parsed
      end in
    match assoc (u8 "cost_currency") (pa_usage a) with
    | None | Some VNone => with_currency None
    | Some (VStr s) =>
        match currency_code s with
        | Some c => with_currency (Some c)
        | None => bad_currency
        end
    | Some _ => bad_currency
    end.

Definition parse_response (r : HttpResponse) (p : ModelProfile) : result ParseExc ChatResponse :=
  if negb (hr_status_code r =? 200)
  then Err (Parse_transport (status_error r (mo_api_keys p)))
  else
    match hr_json r with
    | Some (VDict raw) =>
        match assoc (u8 "choices") raw with
        | Some (VList (VDict choice :: _)) =>
            match assoc (u8 "message") choice with
            | Some (VDict message) => check_usage (VDict raw) (parse_usage raw choice message p)
            | _ => Err not_a_completion
            end
        | _ => Err not_a_completion
        end
    | _ => Err not_a_completion
    end.
End Bodies.
