(* ===== verification/LlmGateway.v ===== *)
(** * The gateway of model calls ([gateway.py], the rotation of [transport.py])

    Every await and every clock, random or identity read is a question to the world; attempt counters
    and the key that answered last are shared by all calls of the process. *)

From Stdlib Require Import String SpecFloat.
From stdpp Require Import numbers gmap.
From S2P Require Import Prelude PyText PyHash PyFloat PyDecimal PyValue Effects DiffMap RunFailures.
From S2P Require Import RunStore ReviewIgnore PolicySnapshots PromptRender PromptBudget Manifests.
From S2P Require Import Llm LlmSettings LlmTransport LlmTasks.
#[local] Open Scope Z_scope.

(** ** The world *)

(** What a collaborator raises: a cancellation, a failure of the run (a checkpoint tells that the
    attempt lost its lease), or another exception by its class.  The failures of the gateway and of
    the transport are raised here only. *)
Inductive world_exc : Type :=
| W_cancelled
| W_run (f : RunFailure)
| W_other (class_name : pystr).

Definition of_world (e : world_exc) : exc :=
  match e with
  | W_cancelled => E_cancelled
  | W_run f => E_run f
  | W_other name => E_python name
  end.

(** [except Exception] *)
Definition caught (e : world_exc) : bool := match e with W_cancelled => false | _ => true end.

(** How a request can end other than with a response: a timeout, an error of the client, or anything
    else; the first two with the class of their exception. *)
Inductive PostExc : Type :=
| Post_timeout (class_name : pystr)
| Post_http_error (class_name : pystr)
| Post_raised (e : world_exc).

Inductive query : Type :=
| Q_checkpoint (c : RunCallContext)
| Q_now
| Q_monotonic
| Q_jitter
| Q_uuid4
| Q_sleep (delay : float)
| Q_fx_quote
| Q_run_cost (run_id : UUID)
| Q_ledger_record (c : RunCallContext) (u : LlmUsage)
| Q_record_manifest (run_id : UUID) (e : ManifestEntry)
| Q_record_call (run_id : UUID) (r : LlmCallRecord)
| Q_record_hit (run_id : UUID) (operation : pystr) (started_at : Z) (source : ReviewResultSource)
| Q_post (request : ChatRequest) (body : pyval) (key : option pystr)
| Q_cache_get (key : pystr)
| Q_cache_set (key : pystr) (value : list (pystr * pyval))
| Q_interrupted.

Definition answer (q : query) : Type :=
  match q with
  | Q_now => Z
  | Q_monotonic | Q_jitter => float
  | Q_uuid4 => UUID
  | Q_fx_quote => result world_exc FxQuoteResult
  | Q_run_cost _ => result world_exc decimal
  | Q_post _ _ _ => result PostExc HttpResponse
  | Q_cache_get _ => result world_exc pyval
  | Q_interrupted => bool
  | _ => result world_exc unit
  end.

(** ** Shared state *)

Record AttemptCalls : Type := mkAttemptCalls { ac_attempt : Z; ac_calls : Z }.

(** The counters are objects: [sh_attempts] refers to them, oldest first, and a running call keeps its
    reference when another attempt replaces the entry or the table drops it. *)
Record Shared : Type := mkShared {
  sh_counters : list AttemptCalls;
  sh_attempts : list (UUID * nat);
  sh_current_key : list (pystr * list pystr * nat)
}.

Definition calls_of (a : nat) (s : Shared) : Z :=
  match sh_counters s !! a with Some c => ac_calls c | None => 0 end.

Fixpoint attempt_entry (run_id : UUID) (l : list (UUID * nat)) : option nat :=
  match l with
  | [] => None
  | (r, a) :: l' => if (r =? run_id)%N then Some a else attempt_entry run_id l'
  end.

(** The counter of the current attempt, if the table has it. *)
Definition current_counter (c : RunCallContext) (s : Shared) : option nat :=
  a ← attempt_entry (cx_run_id c) (sh_attempts s);
  counter ← sh_counters s !! a;
  if ac_attempt counter =? cx_attempt c then Some a else None.

(** [_attempt_calls]: the reference it returns, and its effect. *)
Definition counter_ref (c : RunCallContext) (s : Shared) : nat :=
  default (length (sh_counters s)) (current_counter c s).

Definition track_attempt (c : RunCallContext) (s : Shared) : Shared :=
  let a := counter_ref c s in
  let counters := match current_counter c s with
                  | Some _ => sh_counters s
                  | None => sh_counters s ++ [mkAttemptCalls (cx_attempt c) 0]
                  end in
  let attempts := List.filter (λ e, negb (fst e =? cx_run_id c)%N) (sh_attempts s)
                  ++ [(cx_run_id c, a)] in
  mkShared counters (drop (length attempts - TRACKED_RUNS) attempts) (sh_current_key s).

Definition count_call (a : nat) (s : Shared) : Shared :=
  mkShared (alter (λ c, mkAttemptCalls (ac_attempt c) (ac_calls c + 1)) a (sh_counters s))
    (sh_attempts s) (sh_current_key s).

Definition pool_eqb (url : pystr) (keys : list pystr) (e : pystr * list pystr * nat) : bool :=
  (fst (fst e) =?s url) && bool_decide (snd (fst e) = keys).

Definition current_key (url : pystr) (keys : list pystr) (s : Shared) : nat :=
  match find_first (pool_eqb url keys) (sh_current_key s) with Some e => snd e | None => 0 end.

Definition set_current_key (url : pystr) (keys : list pystr) (index : nat) (s : Shared) : Shared :=
  mkShared (sh_counters s) (sh_attempts s)
    ((url, keys, index) :: List.filter (λ e, negb (pool_eqb url keys e)) (sh_current_key s)).

Abbreviation G := (task Shared answer AttemptState exc).
Abbreviation trace := (list (event answer)).

(** Ask for something that can raise. *)
Definition await {A} (r : G (result world_exc A)) : G A := x ← r; lift (map_err of_world x).

(** [except Exception]: go on with [a]. *)
Definition swallow {A} (a : A) (e : world_exc) : G A := if caught e then mret a else raise (of_world e).

(** ** The rotation over keys *)

Section Gateway.
Context (repr_value : pyval → pystr).
Context (urlsplit : pystr → option UrlParts) (idna : pystr → option pystr).
Context (markdown_parse : pystr → list MdToken).

(** [_post] with the redaction of [complete]. *)
Definition post (r : ChatRequest) (body : pyval) (key : option pystr) : G HttpResponse :=
  a ← ask (Q_post r body key);
  let fail c text := raise (E_transport (redacted (transport_error c text None None true)
                                           (mo_api_keys (rq_profile r)))) in
  match a with
  | Ok response => mret response
  | Err (Post_timeout name) =>
      fail LLM_TIMEOUT (u8 "no answer within " ++ format_g (rq_timeout_s r) ++ u8 " s (" ++ name ++ u8 ")")
  | Err (Post_http_error name) =>
      fail LLM_UNAVAILABLE (u8 "connection failed (" ++ name ++ u8 ")")
  | Err (Post_raised e) => raise (of_world e)
  end.

Definition parse_exc (e : ParseExc) : exc :=
  match e with Parse_transport t => E_transport t | Parse_decimal d => E_decimal d end.

Definition rotates (status : Z) : bool := bool_decide (status ∈ ROTATE_STATUSES).

(** The errors of the keys tried so far: the last one, the last rate limit, the longest hint. *)
Record KeyErrors : Type := mkKeyErrors {
  ke_last : option TransportError;
  ke_rate_limited : option TransportError;
  ke_longest : option float
}.

Definition note_error (e : TransportError) (k : KeyErrors) : KeyErrors :=
  if bool_decide (te_error_class e = LLM_RATE_LIMITED) then
    mkKeyErrors (Some e) (Some e)
      (match te_retry_after_s e with
       | Some hint =>
           Some (py_fmax (match ke_longest k with
                          | Some l => if float_truthy l then l else S754_zero false
                          | None => S754_zero false
                          end) hint)
       | None => ke_longest k
       end)
  else mkKeyErrors (Some e) (ke_rate_limited k) (ke_longest k).

Definition all_rejected (k : KeyErrors) : exc :=
  match ke_rate_limited k, ke_last k with
  | Some e, _ => E_transport (with_longest (ke_longest k) e)
  | None, Some e => E_transport e
  | None, None => E_python (u8 "AssertionError")
  end.

Fixpoint rotate (r : ChatRequest) (checkpoint : G unit) (body : pyval) (keys : list (option pystr))
    (indexes : list nat) (k : KeyErrors) : G ChatResponse :=
  match indexes with
  | [] => raise (all_rejected k)
  | index :: indexes' =>
      _ ← checkpoint;
      response ← post r body (default None (keys !! index));
      if rotates (hr_status_code response) then
        rotate r checkpoint body keys indexes'
          (note_error (status_error repr_value response (mo_api_keys (rq_profile r))) k)
      else
        _ ← shared (set_current_key (mo_base_url (rq_profile r)) (mo_api_keys (rq_profile r)) index);
        lift (map_err parse_exc (parse_response repr_value response (rq_profile r)))
  end.

Definition key_pool (p : ModelProfile) : list (option pystr) :=
  match mo_api_keys p with [] => [None] | ks => Some <$> ks end.

(** The indexes from the key that answered last, around the pool. *)
Definition key_order (start n : nat) : list nat :=
  (λ offset, (start mod n + offset) mod n)%nat <$> seq 0 n.

Definition complete (r : ChatRequest) (checkpoint : G unit) : G ChatResponse :=
  let p := rq_profile r in
  let keys := key_pool p in
  s ← peek;
  rotate r checkpoint (request_body r) keys
    (key_order (current_key (mo_base_url p) (mo_api_keys p) s) (length keys))
    (mkKeyErrors None None None).

(** ** One call *)

(** The settings, and which collaborators are wired. *)
Record GatewayConfig : Type := mkGatewayConfig {
  gw_settings : LlmSettings;
  gw_fx_provider : bool;
  gw_manifest_store : bool;
  gw_result_cache : bool
}.

Context (g : GatewayConfig).
Let policy : GatewayPolicy := st_policy (gw_settings g).

Definition record_trace (c : RunCallContext) (r : LlmCallRecord) : G unit :=
  a ← ask (Q_record_call (cx_run_id c) r);
  match a with
  | Ok _ => mret tt
  | Err e => swallow tt e
  end.

Definition get_fx_quote : G (option FxQuoteResult) :=
  if gw_fx_provider g then
    a ← ask Q_fx_quote;
    match a with
    | Ok r => mret (Some r)
    | Err e => swallow None e
    end
  else mret None.

(** The usage and the trace of a paid answer are written by a task of their own; a cancellation of the
    caller is raised when it is done. *)
Definition record_paid_answer (c : RunCallContext) (r : RecordDraft) (duration_ms : Z)
    (response : ChatResponse) (u : LlmUsage) (paid_metadata_error : bool) : G unit :=
  written ← attempt
    (_ ← modify (add_usage u);
     _ ← await (ask (Q_ledger_record c u));
     record_trace c (finish_record repr_value r duration_ms (cp_raw response) None paid_metadata_error));
  interrupted ← ask Q_interrupted;
  _ ← lift written;
  if interrupted : bool then raise E_cancelled else mret tt.

Definition store_manifest (t : StructuredTask) (manifest : option CallManifest) (c : RunCallContext)
    (estimate : Z) (messages : list ChatMessage) : G (option UUID) :=
  match manifest, tk_policy_snapshot t with
  | Some m, Some snapshot =>
      if negb (gw_manifest_store g) then mret None
      else
        state ← own;
        match manifest_of (cm_call_id m) (as_manifests state) with
        | Some stored => mret (Some stored)
        | None =>
            manifest_id ← ask Q_uuid4;
            now ← ask Q_now;
            rendered ← lift (rendered_messages_sha256 messages);
            profile ← lift (or_raise encode_error (model_profile_version (sn_execution_profile snapshot)));
            let parent := base ← tk_base_manifest t;
                          if (cm_call_id base =? cm_call_id m)%N then None else Some (cm_call_id base) in
            let entry := mkManifestEntry manifest_id (cx_attempt c) (sn_snapshot_id snapshot) m parent
                           estimate now rendered
                           (stage_prompt_checksum (sn_prompt_bindings snapshot) (cm_stage m)) profile in
            a ← ask (Q_record_manifest (cx_run_id c) entry);
            match a with
            | Ok _ =>
                _ ← modify (add_manifest (cm_call_id m) manifest_id);
                mret (Some manifest_id)
            | Err e =>
                if caught e
                then raise (E_run (run_failure (u8 "internal_error")
                       (u8 "the context manifest could not be stored: " ++ exc_class (of_world e))
                       None false))
                else raise (of_world e)
            end
        end
  | _, _ => mret None
  end.

Definition checkpoint (c : RunCallContext) : G unit := await (ask (Q_checkpoint c)).

Definition timeout_of (t : StructuredTask) (c : RunCallContext) : float :=
  call_timeout_s policy (cx_engine c) (tk_route t).

(** The time left, or the refusal of a call. *)
Definition check_time (t : StructuredTask) (c : RunCallContext) (separator : pystr)
    (after_send : bool) : G unit :=
  now ← ask Q_now;
  let remaining := seconds_left c now in
  if short_of_time policy t c remaining then
    state ← own;
    raise (out_of_time t remaining (timeout_of t c) state separator after_send)
  else mret tt.

(** The fence of every request of one call. *)
Definition send_checkpoint (t : StructuredTask) (c : RunCallContext) : G unit :=
  _ ← checkpoint c;
  state ← own;
  _ ← check_time t c (u8 ";") (as_sent state);
  modify (set_sent true).

Definition raise_failed {A} (code : LlmErrorCode) (message : pystr) : G A :=
  state ← own; raise (failed code message state None false).

(** The price of the call, with the quote of a route billed in EUR. *)
Definition call_price (p : ModelProfile) (t : StructuredTask) (c : RunCallContext)
  : G (ModelPrice * option FxQuoteResult * option FxQuote) :=
  eurouter ← lift (map_err config_exc (is_eurouter_route urlsplit idna p));
  if negb eurouter then mret (mo_price p, None, None)
  else
    quote_result ← get_fx_quote;
    match quote_result ≫= qr_quote with
    | None => raise_failed LLM_UNAVAILABLE (u8 "ECB EUR/USD quote unavailable")
    | Some quote =>
        price ← match price_at_eur_quote urlsplit p (qt_rate_usd_per_eur quote) with
                | Ok price => mret price
                | Err (Cfg_error _) | Err (Cfg_decimal _) =>
                    raise_failed LLM_UNAVAILABLE (u8 "ECB EUR/USD quote cannot price this call")
                | Err Cfg_key => raise (config_exc Cfg_key)
                end;
        _ ← check_time t c (u8 ";") false;
        mret (price, quote_result, Some quote)
    end.

Definition check_budget (c : RunCallContext) (p : ModelProfile) (price : ModelPrice) (estimate : Z)
  : G unit :=
  spent ← await (ask (Q_run_cost (cx_run_id c)));
  next_cost ← lift (map_err E_decimal (cost_usd price estimate (mo_max_output_tokens p) 0));
  let cost_limit := gp_run_cost_limit_usd policy (cx_engine c) in
  over ← lift (map_err E_decimal (total ← dec_add spent next_cost; dec_gt total cost_limit));
  if over : bool then
    raise_failed LLM_BUDGET_EXCEEDED
      (u8 "run spent $" ++ dec_str spent ++ u8 " and the next call may cost $" ++ dec_str next_cost
       ++ u8 ", limit $" ++ dec_str cost_limit)
  else mret tt.

(** Take one of the slots of the attempt: the test and the count are one step. *)
Definition claim_slot (t : StructuredTask) (c : RunCallContext) (a : nat) : G Z :=
  let limit := gp_max_calls_per_attempt policy - tk_reserved_calls t in
  s ← shared (λ s, if limit <=? calls_of a s then s else count_call a s);
  if limit <=? calls_of a s then raise_failed LLM_UNAVAILABLE (calls_exhausted c (calls_of a s) t)
  else _ ← modify add_call; mret (calls_of a s + 1).

(** The quote an answer billed in EUR needs when the call had none; a cancellation meanwhile still
    records the answer. *)
Definition quote_for_answer (p : ModelProfile) (t : StructuredTask) (c : RunCallContext)
    (r : RecordDraft) (duration_ms : Z) (response : ChatResponse) (estimate : Z) (price : ModelPrice)
    (quote : option FxQuote) : G (option FxQuote * RecordDraft) :=
  if negb (bool_decide (cp_cost response = None)) && ostr_eqb (cp_cost_currency response) (Some (u8 "EUR"))
     && bool_decide (quote = None)
  then
    q ← attempt get_fx_quote;
    match q with
    | Err E_cancelled =>
        u ← lift (usage_of p (tk_operation t) response estimate price quote true);
        _ ← record_paid_answer c r duration_ms response u false;
        raise E_cancelled
    | Err e => raise e
    | Ok quote_result => mret (quote_result ≫= qr_quote, with_fx (fx_provenance quote_result) r)
    end
  else mret (quote, r).

(** An HTTP 200 whose usage cannot be charged as it says. *)
Definition settle_paid_error (p : ModelProfile) (t : StructuredTask) (c : RunCallContext)
    (r : RecordDraft) (duration_ms : Z) (paid : ChatResponse) (message : pystr) (estimate : Z)
    (price : ModelPrice) (quote : option FxQuote) : G Outcome :=
  '(quote, r) ← quote_for_answer p t c r duration_ms paid estimate price quote;
  u ← lift (usage_of p (tk_operation t) paid estimate price quote true);
  _ ← record_paid_answer c r duration_ms paid u true;
  raise_failed LLM_INVALID_OUTPUT message.

Definition settle_answer (p : ModelProfile) (t : StructuredTask) (c : RunCallContext)
    (r : RecordDraft) (duration_ms : Z) (response : ChatResponse) (estimate : Z) (price : ModelPrice)
    (quote : option FxQuote) (manifest : option CallManifest) : G Outcome :=
  '(quote, r) ← quote_for_answer p t c r duration_ms response estimate price quote;
  match usage_of p (tk_operation t) response estimate price quote false with
  | Err (E_cost message) =>
      u ← lift (usage_of p (tk_operation t) response estimate price quote true);
      _ ← record_paid_answer c r duration_ms response u true;
      raise_failed LLM_INVALID_OUTPUT message
  | Err e => raise e
  | Ok u =>
      _ ← record_paid_answer c r duration_ms response u false;
      lift (validated response t manifest)
  end.

Definition outcome_of_error (e : TransportError) : Outcome :=
  mkOutcome None (Some (te_error_class e)) (te_message e) (te_retryable e) (te_retry_after_s e)
    (te_longest_retry_after_s e) [] [] false.

(** What follows the transport, by how it ended. *)
Definition settle (p : ModelProfile) (t : StructuredTask) (c : RunCallContext) (r : RecordDraft)
    (started : float) (estimate : Z) (price : ModelPrice) (quote : option FxQuote)
    (manifest : option CallManifest) (sent : result exc ChatResponse) : G Outcome :=
  match sent with
  | Err (E_transport e) =>
      finished ← ask Q_monotonic;
      duration_ms ← lift (elapsed_ms started finished);
      match te_paid_response e with
      | Some paid => settle_paid_error p t c r duration_ms paid (te_message e) estimate price quote
      | None =>
          _ ← record_trace c (finish_record repr_value r duration_ms VNone
                (Some (mkLlmCallError (te_error_class e) (te_http_status e) (te_message e))) false);
          if bool_decide (te_error_class e = LLM_CONTEXT_OVERFLOW)
          then raise_failed (te_error_class e) (te_message e)
          else mret (outcome_of_error e)
      end
  | Err (E_failed f true) =>
      finished ← ask Q_monotonic;
      duration_ms ← lift (elapsed_ms started finished);
      _ ← record_trace c (finish_record repr_value r duration_ms VNone
            (Some (mkLlmCallError (lf_error_code f) None (lf_message f))) false);
      raise (E_failed f true)
  | Err e => raise e
  | Ok response =>
      finished ← ask Q_monotonic;
      duration_ms ← lift (elapsed_ms started finished);
      settle_answer p t c r duration_ms response estimate price quote manifest
  end.

Definition call (p : ModelProfile) (kind : LlmCallKind) (messages : list ChatMessage)
    (t : StructuredTask) (c : RunCallContext) (a : nat) (manifest : option CallManifest) : G Outcome :=
  _ ← checkpoint c;
  _ ← check_time t c (u8 ",") false;
  estimate ← lift (estimate_messages p (tk_counter t) messages);
  let limit := context_limit policy p (cx_engine c) in
  if limit <? estimate + mo_max_output_tokens p then
    raise_failed LLM_CONTEXT_OVERFLOW
      (u8 "prompt ~" ++ str_of_Z estimate ++ u8 " tokens + " ++ str_of_Z (mo_max_output_tokens p)
       ++ u8 " reserved exceeds " ++ str_of_Z limit)
  else
    '(price, quote_result, quote) ← call_price p t c;
    _ ← check_budget c p price estimate;
    _ ← checkpoint c;
    _ ← check_time t c (u8 ";") false;
    call_no ← claim_slot t c a;
    let named := if bool_decide (tk_policy_snapshot t = None) then None else manifest in
    manifest_id ← store_manifest t named c estimate messages;
    started_at ← ask Q_now;
    started ← ask Q_monotonic;
    let r := mkRecordDraft kind (mo_model p) call_no c (timeout_of t c) estimate started_at
               (tk_operation t) (fx_provenance quote_result) (cm_call_id <$> named)
               (cm_stage <$> named) (_ ← named; sn_snapshot_id <$> tk_policy_snapshot t)
               manifest_id (tk_redact_answer t) in
    _ ← modify (set_sent false);
    sent ← attempt (complete (mkChatRequest p messages (Some (tk_schema t)) (timeout_of t c))
                      (send_checkpoint t c));
    settle p t c r started estimate price quote manifest sent.

(** ** One generation *)

(** [_recovery]: a refusal before any request keeps the class of an invalid verifier answer. *)
Definition recovery (m : G Outcome) (previous : option Outcome) (t : StructuredTask) : G Outcome :=
  try_catch m (λ e,
    match e, previous with
    | E_failed f false, Some o =>
        if bool_decide (tk_route t = Route_verifier)
           && bool_decide (oc_error o = Some LLM_INVALID_OUTPUT)
           && bool_decide (lf_error_code f ∈ SEND_REFUSALS)
        then raise_failed LLM_INVALID_OUTPUT (oc_message o)
        else raise e
    | _, _ => raise e
    end).

Definition cached_answer_passes (t : StructuredTask) (o : output) : result exc bool :=
  match tk_check_answer t with
  | None => Ok true
  | Some check =>
      match tk_base_manifest t with
      | None => Err (E_python (u8 "AssertionError"))
      | Some m =>
          match check o m with
          | Ok errors => Ok (bool_decide (errors = []))
          | Err e => if is_exception e then Ok false else Err e
          end
      end
  end.

Definition cached_review_result (t : StructuredTask) (c : RunCallContext) (p : ModelProfile)
    (key : pystr) : G (option GatewayResult) :=
  stored ← ask (Q_cache_get key);
  match stored with
  | Err e => swallow None e
  | Ok (VDict d) =>
      match stored_review_result d with
      | None => mret None
      | Some (answer, source) =>
          match tk_validate t (plain_dumps (VDict answer)) with
          | Err e => if is_exception e then mret None else raise e
          | Ok o =>
              passes ← lift (cached_answer_passes t o);
              if negb passes then mret None
              else
                now ← ask Q_now;
                hit ← ask (Q_record_hit (cx_run_id c) (tk_operation t) now source);
                _ ← match hit with
                    | Ok _ => mret tt
                    | Err e => swallow tt e
                    end;
                mret (Some (mkGatewayResult o (mo_provider p) (mo_model p) [] 0
                              (rs_call_id source) (tk_base_manifest t) (rs_manifest_id source)))
          end
      end
  | Ok _ => mret None
  end.

Definition remember_review_result (key : option pystr) (o : output) (source : ReviewResultSource)
  : G unit :=
  match key with
  | None => mret tt
  | Some k =>
      if negb (gw_result_cache g) then mret tt
      else
        a ← ask (Q_cache_set k (review_result_entry o source));
        match a with
        | Ok _ => mret tt
        | Err e => swallow tt e
        end
  end.

Definition guard_manifest (t : StructuredTask) (m : CallManifest) : G unit :=
  lift (map_err E_policy
    (verify_provenance_pre_send_guard markdown_parse m (tk_review_context t) (tk_policy_snapshot t))).

(** How one turn of the loop ends. *)
Inductive turn_end : Type :=
| Turn_return (r : GatewayResult)
| Turn_break (o : Outcome) (s : LoopState)
| Turn_again (s : LoopState).

(** The repair call, or the end of the loop when its conversation would overflow. *)
Definition prepare_repair (p : ModelProfile) (t : StructuredTask) (c : RunCallContext) (o : Outcome)
    (s : LoopState) : G turn_end :=
  let '(shown, messages) := repair_turn t o (lp_messages s) in
  fits ← lift (fits_context policy p messages (cx_engine c) (tk_counter t));
  if negb fits then mret (Turn_break o s)
  else
    match tk_base_manifest t with
    | None => mret (Turn_again (as_repair messages (lp_manifest s) s))
    | Some base =>
        sha ← lift (or_raise encode_error (sha256_text shown));
        call_id ← ask Q_uuid4;
        let m := repair_manifest t base call_id shown (oc_answer o) sha in
        _ ← guard_manifest t m;
        mret (Turn_again (as_repair messages (Some m) s))
    end.

(** Wait and retry, or leave the primary model when the wait would leave too little time. *)
Definition prepare_retry (t : StructuredTask) (c : RunCallContext) (o : Outcome) (s : LoopState)
    (base : float) (jittered : bool) (next : LoopState) : G turn_end :=
  delay ← (if jittered then j ← ask Q_jitter; mret (fadd base j) else mret base);
  now ← ask Q_now;
  if short_of_time policy t c (fsub (seconds_left c now) delay) then mret (Turn_break o next)
  else
    _ ← await (ask (Q_sleep delay));
    mret (Turn_again (as_retry next)).

Definition turn (p : ModelProfile) (t : StructuredTask) (c : RunCallContext) (a : nat)
    (cache_key : option pystr) (primary_limit : Z) (s : LoopState) : G turn_end :=
  o ← recovery (call p (lp_kind s) (lp_messages s) t c a (lp_manifest s)) (lp_previous s) t;
  match oc_output o with
  | Some out =>
      state ← own;
      _ ← remember_review_result cache_key out
            (mkReviewResultSource (cx_run_id c) (cm_call_id <$> lp_manifest s)
               (m ← lp_manifest s; manifest_of (cm_call_id m) (as_manifests state)));
      state ← own;
      mret (Turn_return (result_of p out state (lp_manifest s)))
  | None =>
      _ ← lift (raise_when (bool_decide (oc_error o = None)) (E_python (u8 "AssertionError")));
      let s := set_outcome o (longest_retry_after (lp_rate_limit_hint s) o) s in
      shared_now ← peek;
      if primary_limit <=? calls_of a shared_now then mret (Turn_break o s)
      else
        match recovery_plan policy o s with
        | Plan_wait base jittered next => prepare_retry t c o s base jittered next
        | Plan_repair => prepare_repair p t c o s
        | Plan_stop => mret (Turn_break o s)
        end
  end.

Fixpoint turns (fuel : nat) (p : ModelProfile) (t : StructuredTask) (c : RunCallContext) (a : nat)
    (cache_key : option pystr) (primary_limit : Z) (s : LoopState) : G turn_end :=
  match fuel with
  | O => mret (Turn_again s)
  | S fuel' =>
      e ← turn p t c a cache_key primary_limit s;
      match e with
      | Turn_again s' => turns fuel' p t c a cache_key primary_limit s'
      | _ => mret e
      end
  end.

(** Each retry uses up a delay of the policy, the wait after a rate limit or the repair. *)
Definition turn_fuel : nat :=
  length (gp_timeout_retry_delays_s policy) + length (gp_unavailable_retry_delays_s policy) + 3.

(** The end of a generation with an error. *)
Definition raise_last {A} (o : Outcome) (hint : option float) : G A :=
  match oc_error o with
  | Some code => state ← own; raise (failed code (oc_message o) state (final_hint o hint) false)
  | None => raise (E_python (u8 "AssertionError"))
  end.

Definition fall_back (fallback : option ModelProfile) (t : StructuredTask) (c : RunCallContext)
    (a : nat) (max_calls : Z) (o : Outcome) (s : LoopState) : G GatewayResult :=
  shared_now ← peek;
  match fallback with
  | Some f =>
      if max_calls <=? calls_of a shared_now then raise_last o (lp_rate_limit_hint s)
      else
        fits ← lift (fits_context policy f (tk_messages t) (cx_engine c) (tk_counter t));
        if negb fits then raise_last o (lp_rate_limit_hint s)
        else
          manifest ← match tk_base_manifest t with
                     | None => mret (lp_manifest s)
                     | Some base =>
                         call_id ← ask Q_uuid4;
                         let m := fallback_manifest base call_id in
                         _ ← guard_manifest t m;
                         mret (Some m)
                     end;
          o' ← recovery (call f Kind_fallback (tk_messages t) t c a manifest) (Some o) t;
          match oc_output o' with
          | Some out => state ← own; mret (result_of f out state manifest)
          | None => raise_last o' (longest_retry_after (lp_rate_limit_hint s) o')
          end
  | None => raise_last o (lp_rate_limit_hint s)
  end.

Definition first_turn (t : StructuredTask) : LoopState :=
  mkLoopState (tk_messages t) Kind_primary 0 0 false false (tk_base_manifest t) None None.

(** From the first provider call on. *)
Definition generate_uncached (t : StructuredTask) (c : RunCallContext) (a : nat)
    (cache_key : option pystr) : G GatewayResult :=
  let '(primary, fallback) := route_of (gw_settings g) (tk_route t) in
  let max_calls := gp_max_calls_per_attempt policy - tk_reserved_calls t in
  s ← peek;
  if max_calls <=? calls_of a s then raise_failed LLM_UNAVAILABLE (calls_exhausted c (calls_of a s) t)
  else
    let primary_limit := max_calls - (if bool_decide (fallback = None) then 0 else 1) in
    e ← turns turn_fuel primary t c a cache_key primary_limit (first_turn t);
    match e with
    | Turn_return r => mret r
    | Turn_break o s => fall_back fallback t c a max_calls o s
    | Turn_again _ => raise E_fuel
    end.

Definition generate (t : StructuredTask) (c : RunCallContext) : G GatewayResult :=
  let primary := fst (route_of (gw_settings g) (tk_route t)) in
  before ← shared (track_attempt c);
  let a := counter_ref c before in
  _ ← checkpoint c;
  cache_key ← lift (review_result_key (gw_result_cache g) t c primary);
  cached ← match cache_key with
           | Some key => cached_review_result t c primary key
           | None => mret None
           end;
  match cached with
  | Some r => mret r
  | None => generate_uncached t c a cache_key
  end.

(** One coroutine of the worker: [generate] with a state of its own. *)
Definition generate_task (t : StructuredTask) (c : RunCallContext)
  : prog Shared answer (AttemptState * result exc GatewayResult) :=
  generate t c (mkAttemptState 0 [] [] false).
End Gateway.
