(* ===== verification/LlmHistory.v ===== *)
(** * Histories of a generation

    What a coroutine of the gateway asked and was told: the requests and paid answers in it, the usage
    it recorded, the manifests it stored and the cost it read. *)

From Stdlib Require Import String SpecFloat.
From stdpp Require Import numbers gmap list.
From S2P Require Import Prelude PyText PyHash PyFloat PyDecimal PyValue Effects DiffMap RunFailures.
From S2P Require Import RunStore ReviewIgnore PolicySnapshots PromptRender PromptBudget Manifests.
From S2P Require Import Llm LlmSettings LlmTransport LlmTasks LlmGateway.
#[local] Open Scope Z_scope.

(** ** Histories *)

(** A chat completion: the provider has done its work and charges for it. *)
Definition is_completion (r : HttpResponse) : bool :=
  (hr_status_code r =? 200)
  && match hr_json r with
     | Some (VDict raw) =>
         match assoc (u8 "choices") raw with
         | Some (VList (VDict choice :: _)) =>
             match assoc (u8 "message") choice with Some (VDict _) => true | _ => false end
         | _ => false
         end
     | _ => false
     end.

(** The response of a request. *)
Definition post_of (e : event answer) : option (ChatRequest * HttpResponse) :=
  match e with
  | Event q a =>
      match q return answer q → option (ChatRequest * HttpResponse) with
      | Q_post r _ _ => λ a, match a with Ok response => Some (r, response) | Err _ => None end
      | _ => λ _, None
      end a
  end.

Definition completion_of (e : event answer) : option (ChatRequest * HttpResponse) :=
  rr ← post_of e; if is_completion (snd rr) then Some rr else None.

Definition ledger_of (e : event answer) : option LlmUsage :=
  match ev_query e with Q_ledger_record _ u => Some u | _ => None end.

Definition uuid_of (e : event answer) : option UUID :=
  match e with
  | Event q a => match q return answer q → option UUID with Q_uuid4 => Some | _ => λ _, None end a
  end.

(** A manifest that was stored. *)
Definition manifest_of_event (e : event answer) : option ManifestEntry :=
  match e with
  | Event q a =>
      match q return answer q → option ManifestEntry with
      | Q_record_manifest _ m => λ a, match a with Ok _ => Some m | Err _ => None end
      | _ => λ _, None
      end a
  end.

Definition quote_of_event (e : event answer) : option FxQuote :=
  match e with
  | Event q a =>
      match q return answer q → option FxQuote with
      | Q_fx_quote => λ a, match a with Ok r => qr_quote r | Err _ => None end
      | _ => λ _, None
      end a
  end.

Definition completions (t : trace) : list (ChatRequest * HttpResponse) := omap completion_of t.
Definition ledgers (t : trace) : list LlmUsage := omap ledger_of t.
Definition uuids (t : trace) : list UUID := omap uuid_of t.
Definition stored_manifests (t : trace) : list ManifestEntry := omap manifest_of_event t.
Definition quotes (t : trace) : list FxQuote := omap quote_of_event t.
Definition posts (t : trace) : list (ChatRequest * HttpResponse) := omap post_of t.

(** The cost of the run read since usage was last recorded. *)
Definition read_cost (acc : option decimal) (e : event answer) : option decimal :=
  match e with
  | Event q a =>
      match q return answer q → option decimal with
      | Q_run_cost _ => λ a, match a with Ok d => Some d | Err _ => None end
      | Q_ledger_record _ _ => λ _, None
      | _ => λ _, acc
      end a
  end.
Definition cost_reading (t : trace) : option decimal := fold_left read_cost t None.

Lemma completions_app t1 t2 : completions (t1 ++ t2) = completions t1 ++ completions t2.
Proof. apply omap_app. Qed.
Lemma ledgers_app t1 t2 : ledgers (t1 ++ t2) = ledgers t1 ++ ledgers t2.
Proof. apply omap_app. Qed.
Lemma uuids_app t1 t2 : uuids (t1 ++ t2) = uuids t1 ++ uuids t2.
Proof. apply omap_app. Qed.
Lemma manifests_app t1 t2 : stored_manifests (t1 ++ t2) = stored_manifests t1 ++ stored_manifests t2.
Proof. apply omap_app. Qed.
Lemma quotes_app t1 t2 : quotes (t1 ++ t2) = quotes t1 ++ quotes t2.
Proof. apply omap_app. Qed.
Lemma posts_app t1 t2 : posts (t1 ++ t2) = posts t1 ++ posts t2.
Proof. apply omap_app. Qed.
Lemma cost_app t1 t2 : cost_reading (t1 ++ t2) = fold_left read_cost t2 (cost_reading t1).
Proof. apply fold_left_app. Qed.

(** ** Kinds of questions

    A part of a history that asks only questions of one kind has nothing of the other kinds. *)

Definition only (kind : query → bool) (t : trace) : Prop := Forall (λ e, kind (ev_query e) = true) t.

Lemma omap_only {A} (f : event answer → option A) kind t :
  (∀ e, kind (ev_query e) = true → f e = None) → only kind t → omap f t = [].
Proof.
  intros Hf. unfold only. induction 1 as [|e t He _ IH]; cbn; [done|]. rewrite (Hf e He). exact IH.
Qed.

Lemma cost_only kind t acc :
  (∀ e acc, kind (ev_query e) = true → read_cost acc e = acc) → only kind t →
  fold_left read_cost t acc = acc.
Proof.
  intros Hf H. revert acc. unfold only in H. induction H as [|e t He _ IH]; intros acc; cbn; [done|].
  by rewrite IH, Hf.
Qed.

Lemma only_impl kind kind' t :
  (∀ q, kind q = true → kind' q = true) → only kind t → only kind' t.
Proof. intros Hk H. eapply Forall_impl; [exact H|]. intros e. apply Hk. Qed.

Ltac by_kind := first [apply omap_only|apply cost_only|apply only_impl]; by intros [[] ?] || by intros [].

(** Questions that neither record, charge, name, store nor send anything. *)
Definition quiet_query (q : query) : bool :=
  match q with
  | Q_ledger_record _ _ | Q_uuid4 | Q_record_manifest _ _ | Q_run_cost _ | Q_post _ _ _
  | Q_cache_get _ => false
  | _ => true
  end.
(** Questions of the transport, and quiet ones. *)
Definition calm_query (q : query) : bool :=
  match q with
  | Q_ledger_record _ _ | Q_uuid4 | Q_record_manifest _ _ | Q_run_cost _ | Q_cache_get _ => false
  | _ => true
  end.
(** Questions that settle a call. *)
Definition after_query (q : query) : bool :=
  match q with
  | Q_uuid4 | Q_record_manifest _ _ | Q_run_cost _ | Q_post _ _ _ | Q_cache_get _ => false
  | _ => true
  end.
(** Questions of the checks before a slot is taken. *)
Definition before_query (q : query) : bool :=
  match q with
  | Q_ledger_record _ _ | Q_uuid4 | Q_record_manifest _ _ | Q_post _ _ _ | Q_cache_get _ => false
  | _ => true
  end.
(** Questions that name and store a manifest. *)
Definition naming_query (q : query) : bool :=
  match q with Q_uuid4 | Q_now | Q_record_manifest _ _ => true | _ => false end.

Definition quiet : trace → Prop := only quiet_query.
Definition calm : trace → Prop := only calm_query.
Definition after : trace → Prop := only after_query.
Definition before : trace → Prop := only before_query.
Definition naming : trace → Prop := only naming_query.

Lemma quiet_calm t : quiet t → calm t.
Proof. by_kind. Qed.
Lemma quiet_after t : quiet t → after t.
Proof. by_kind. Qed.
Lemma quiet_before t : quiet t → before t.
Proof. by_kind. Qed.
Lemma quiet_posts t : quiet t → posts t = [].
Proof. by_kind. Qed.
Lemma quiet_completions t : quiet t → completions t = [].
Proof. by_kind. Qed.
Lemma quiet_ledgers t : quiet t → ledgers t = [].
Proof. by_kind. Qed.
Lemma calm_ledgers t : calm t → ledgers t = [].
Proof. by_kind. Qed.
Lemma calm_uuids t : calm t → uuids t = [].
Proof. by_kind. Qed.
Lemma after_posts t : after t → posts t = [].
Proof. by_kind. Qed.
Lemma after_completions t : after t → completions t = [].
Proof. by_kind. Qed.
Lemma before_completions t : before t → completions t = [].
Proof. by_kind. Qed.
Lemma before_ledgers t : before t → ledgers t = [].
Proof. by_kind. Qed.
Lemma naming_completions t : naming t → completions t = [].
Proof. by_kind. Qed.
Lemma naming_ledgers t : naming t → ledgers t = [].
Proof. by_kind. Qed.
Lemma quiet_cost t acc : quiet t → fold_left read_cost t acc = acc.
Proof. by_kind. Qed.
Lemma naming_cost t acc : naming t → fold_left read_cost t acc = acc.
Proof. by_kind. Qed.
Lemma calm_cost t acc : calm t → fold_left read_cost t acc = acc.
Proof. by_kind. Qed.
