(* ===== verification/LlmFacts.v ===== *)
(** * What the gateway guarantees

    One specification of [generate], kept by every interleaving of the calls of a process: how many
    calls an attempt makes, what is checked before a request is sent, that a paid answer is recorded,
    and what an accepted answer was checked against. *)

From Stdlib Require Import String SpecFloat.
From stdpp Require Import numbers gmap list.
From S2P Require Import Prelude PyText PyHash PyFloat PyDecimal PyValue Effects DiffMap RunFailures.
From S2P Require Import RunStore ReviewIgnore PolicySnapshots PromptRender PromptBudget Manifests.
From S2P Require Import Llm LlmSettings LlmTransport LlmTasks LlmGateway LlmHistory.
#[local] Open Scope Z_scope.

(** ** Reading a response *)

Lemma check_usage_cases doc a :
  match check_usage doc a with
  | Ok _ | Err (Parse_decimal _) => True
  | Err (Parse_transport e) => te_paid_response e ≠ None
  end.
Proof.
  unfold check_usage. destruct (pa_invalid_usage a); [done|]. cbv zeta.
  repeat case_match; simplify_eq/=; done.
Qed.

Lemma status_error_unpaid repr r keys : te_paid_response (status_error repr r keys) = None.
Proof. unfold status_error. by repeat case_match. Qed.

Lemma parse_response_cases repr r p :
  if is_completion r
  then match parse_response repr r p with
       | Ok _ | Err (Parse_decimal _) => True
       | Err (Parse_transport e) => te_paid_response e ≠ None
       end
  else ∃ e, parse_response repr r p = Err (Parse_transport e) ∧ te_paid_response e = None.
Proof.
  unfold is_completion, parse_response. destruct (hr_status_code r =? 200); cbn [andb negb].
  - repeat case_match; try done; simplify_eq/=; try (by eexists);
      pose proof (check_usage_cases (VDict kvs) (parse_usage repr kvs kvs0 kvs1 p)) as H;
      rewrite ?H in *; try by repeat case_match; simplify_eq.
  - eexists. split; [done|]. apply status_error_unpaid.
Qed.

Lemma rotates_no_completion r : rotates (hr_status_code r) = true → is_completion r = false.
Proof.
  unfold rotates, is_completion. intros H. apply bool_decide_eq_true in H.
  destruct (hr_status_code r =? 200) eqn:E; [|done]. apply Z.eqb_eq in E. rewrite E in H.
  by apply list_elem_of_In in H; cbn in H; lia.
Qed.

(** ** The specification *)

Section Spec.
Context (repr_value : pyval → pystr).
Context (urlsplit : pystr → option UrlParts) (idna : pystr → option pystr).
Context (markdown_parse : pystr → list MdToken).
Context (g : GatewayConfig) (tk : StructuredTask) (c : RunCallContext).

Abbreviation policy := (st_policy (gw_settings g)).
Abbreviation max_calls := (gp_max_calls_per_attempt policy).
Abbreviation primary := (fst (route_of (gw_settings g) (tk_route tk))).
Abbreviation fallback := (snd (route_of (gw_settings g) (tk_route tk))).

(** The counters of the attempts. *)
Definition calls_capped (s : Shared) : Prop :=
  Forall (λ k, 0 ≤ ac_calls k ≤ Z.max 0 max_calls) (sh_counters s).

(** The checkpoint and the clock were asked last, and the time suffices. *)
Definition fenced (t : trace) : Prop :=
  ∃ t0 now, t = t0 ++ [Event (Q_checkpoint c) (Ok tt); Event Q_now now]
            ∧ short_of_time policy tk c (seconds_left c now) = false.

(** The price of the call: the configured one, or that of a quote for a route billed in EUR. *)
Definition priced (t : trace) (p : ModelProfile) (price : ModelPrice) : Prop :=
  (is_eurouter_route urlsplit idna p = Ok false ∧ price = mo_price p)
  ∨ (is_eurouter_route urlsplit idna p = Ok true
     ∧ ∃ q, q ∈ quotes t ∧ price_at_eur_quote urlsplit p (qt_rate_usd_per_eur q) = Ok price).

(** The prompt fits the model, and the cost of the run with the most this call may cost is within
    the limit. *)
Definition affordable (t : trace) (p : ModelProfile) (messages : list ChatMessage) : Prop :=
  ∃ estimate price next spent total,
    estimate_messages p (tk_counter tk) messages = Ok estimate
    ∧ estimate + mo_max_output_tokens p ≤ context_limit policy p (cx_engine c)
    ∧ priced t p price
    ∧ cost_usd price estimate (mo_max_output_tokens p) 0 = Ok next
    ∧ cost_reading t = Some spent
    ∧ dec_add spent next = Ok total
    ∧ dec_gt total (gp_run_cost_limit_usd policy (cx_engine c)) = Ok false.

Definition base_ids : list UUID :=
  match tk_base_manifest tk with Some m => [cm_call_id m] | None => [] end.

(** On the snapshot path with a store: what the model is shown was stored before.  Identifiers are
    random: the statement is about histories in which no two are equal. *)
Definition input_stored (t : trace) (messages : list ChatMessage) : Prop :=
  tk_policy_snapshot tk ≠ None → tk_base_manifest tk ≠ None → gw_manifest_store g = true →
  NoDup (base_ids ++ uuids t) →
  ∃ e, e ∈ stored_manifests t
       ∧ rendered_messages_sha256 messages = Ok (me_rendered_messages_sha256 e).

Definition may_send (t : trace) (r : ChatRequest) : Prop :=
  fenced t ∧ affordable t (rq_profile r) (rq_messages r) ∧ input_stored t (rq_messages r).

(** The answer a provider is paid for. *)
Definition answered (r : ChatRequest) (http : HttpResponse) (response : ChatResponse) : Prop :=
  parse_response repr_value http (rq_profile r) = Ok response
  ∨ ∃ e, parse_response repr_value http (rq_profile r) = Err (Parse_transport e)
         ∧ te_paid_response e = Some response.

(** What the gateway may ask, after what it was told. *)
Definition allowed (t : trace) (q : query) : Prop :=
  match q with
  | Q_post r body key =>
      may_send t r ∧ body = request_body r ∧ key ∈ key_pool (rq_profile r)
      ∧ (rq_profile r = primary ∨ fallback = Some (rq_profile r))
  | Q_sleep delay =>
      ∃ t0 now, t = t0 ++ [Event Q_now now]
                ∧ short_of_time policy tk c (fsub (seconds_left c now) delay) = false
  | Q_ledger_record c' u =>
      c' = c ∧ length (completions t) = S (length (ledgers t))
      ∧ ∃ r http response estimate price quote conservative,
          last (completions t) = Some (r, http) ∧ answered r http response
          ∧ usage_of (rq_profile r) (tk_operation tk) response estimate price quote conservative = Ok u
  | Q_record_call run_id r =>
      run_id = cx_run_id c ∧ 1 ≤ cr_call_no r ≤ max_calls - tk_reserved_calls tk
  | Q_record_manifest run_id e => run_id = cx_run_id c
  | _ => True
  end.

Abbreviation gsafe m l t Φ := (tsafe calls_capped allowed m l t Φ).

(** Nothing but quiet events happened, and the object is unchanged. *)
Definition idle (l : AttemptState) (t t' : trace) (l' : AttemptState) : Prop :=
  l' = l ∧ ∃ ext, t' = t ++ ext ∧ quiet ext.

Lemma idle_refl l t : idle l t t l.
Proof. split; [done|]. exists []. rewrite app_nil_r. split; [done|constructor]. Qed.

Lemma idle_trans l t1 t2 t3 l2 l3 : idle l t1 t2 l2 → idle l2 t2 t3 l3 → idle l t1 t3 l3.
Proof.
  intros [-> (e1 & -> & H1)] [-> (e2 & -> & H2)]. split; [done|]. exists (e1 ++ e2).
  rewrite app_assoc. split; [done|by apply Forall_app].
Qed.

Lemma idle_snoc l t (e : event answer) : quiet_query (ev_query e) = true → idle l t (t ++ [e]) l.
Proof. intros He. split; [done|]. exists [e]. split; [done|by constructor]. Qed.

Ltac tmono H := eapply tsafe_mono; [apply H|].
Lemma ask_rule q l t (Φ : trace → AttemptState → result exc (answer q) → Prop) :
  allowed t q → (∀ r, Φ (t ++ [Event q r]) l (Ok r)) → gsafe (ask q) l t Φ.
Proof. done. Qed.

(** Step over a question. *)
Ltac tasks q := apply tsafe_bind; apply (ask_rule q).
Ltac tred := cbv beta iota zeta.

Lemma checkpoint_spec l t :
  gsafe (checkpoint c) l t (λ t' l' r, idle l t t' l'
    ∧ ∀ u, r = Ok u → t' = t ++ [Event (Q_checkpoint c) (Ok tt)]).
Proof.
  tasks (Q_checkpoint c); [done|]. intros a. apply tsafe_lift.
  split; [by apply idle_snoc|]. destruct a as [[]|e]; [done|]. intros u [=].
Qed.

Lemma check_time_spec l t separator after_send :
  gsafe (check_time g tk c separator after_send) l t (λ t' l' r, idle l t t' l'
    ∧ (∀ u, r = Ok u → ∃ now, t' = t ++ [Event Q_now now]
                              ∧ short_of_time policy tk c (seconds_left c now) = false)
    ∧ ∀ e, r = Err e → ∃ f, e = E_failed f after_send).
Proof.
  tasks Q_now; [done|]. intros now. tred.
  destruct (short_of_time _ _ _ _) eqn:E.
  - apply tsafe_bind, tsafe_own, tsafe_raise. split; [by apply idle_snoc|]. split; [done|].
    intros e [= <-]. unfold out_of_time, failed. case_match; eauto.
  - apply tsafe_ret. split; [by apply idle_snoc|]. split; [|done]. intros u _. by exists now.
Qed.

Lemma record_trace_spec r l t :
  1 ≤ cr_call_no r ≤ max_calls - tk_reserved_calls tk →
  gsafe (record_trace c r) l t (λ t' l' _, idle l t t' l').
Proof.
  intros Hr. tasks (Q_record_call (cx_run_id c) r); [done|]. intros [[]|e]; [by apply idle_snoc|].
  unfold swallow. case_match; by apply idle_snoc.
Qed.

Lemma get_fx_quote_spec l t :
  gsafe (get_fx_quote g) l t (λ t' l' r, idle l t t' l'
    ∧ (∀ qr q, r = Ok (Some qr) → qr_quote qr = Some q → q ∈ quotes t')
    ∧ ∀ e, r = Err e → e = E_cancelled).
Proof.
  unfold get_fx_quote. destruct (gw_fx_provider g).
  - tasks Q_fx_quote; [done|]. intros [qr|e]; [apply tsafe_ret|unfold swallow].
    + split; [by apply idle_snoc|]. split; [|done]. intros qr' q [= <-] Hq.
      rewrite quotes_app. apply elem_of_app. right. cbn. rewrite Hq. apply list_elem_of_here.
    + destruct e; cbn [caught]; (split; [by apply idle_snoc|]); (split; [by intros ? ? [=]|]);
        by intros e [= <-].
  - apply tsafe_ret. split; [apply idle_refl|]. split; by intros.
Qed.

Lemma stored_calm t ext messages : calm ext → input_stored t messages → input_stored (t ++ ext) messages.
Proof.
  intros He H Hs Hb Hg Hn. rewrite uuids_app, (calm_uuids ext), app_nil_r in Hn by done.
  destruct (H Hs Hb Hg Hn) as (e & Hin & Hsha). exists e. split; [|done].
  rewrite manifests_app. apply elem_of_app. by left.
Qed.

Lemma priced_mono t ext p price : priced t p price → priced (t ++ ext) p price.
Proof.
  intros [H|(H & q & Hq & Hp)]; [by left|]. right. split; [done|]. exists q. split; [|done].
  rewrite quotes_app. apply elem_of_app. by left.
Qed.

Lemma affordable_calm t ext p messages : calm ext → affordable t p messages → affordable (t ++ ext) p messages.
Proof.
  intros He (estimate & price & next & spent & total & H1 & H2 & H3 & H4 & H5 & H6).
  exists estimate, price, next, spent, total. rewrite cost_app, calm_cost by done.
  eauto 10 using priced_mono.
Qed.

(** The errors a collaborator or a fence raises. *)
Definition outside (e : exc) : Prop := (∃ w, e = of_world w) ∨ ∃ f b, e = E_failed f b.

Lemma send_checkpoint_spec l t :
  gsafe (send_checkpoint g tk c) l t (λ t' l' r,
    (∃ b, l' = set_sent b l) ∧ (∃ ext, t' = t ++ ext ∧ quiet ext)
    ∧ (∀ u, r = Ok u → fenced t') ∧ ∀ e, r = Err e → outside e).
Proof.
  assert (Hl : ∃ b, l = set_sent b l) by (exists (as_sent l); by destruct l).
  apply tsafe_bind. apply tsafe_bind, (ask_rule (Q_checkpoint c)); [done|]. intros [[]|w]; tred.
  2: { split; [done|]. split; [eexists; split; [done|by constructor]|]. split; [by intros ? [=]|].
       intros e [= <-]. left. by exists w. }
  apply tsafe_lift. cbn [map_err]. apply tsafe_bind, tsafe_own. apply tsafe_bind.
  tmono (check_time_spec l (t ++ [Event (Q_checkpoint c) (Ok tt)]) (u8 ";") (as_sent l)).
  intros t' l' r ([-> (ext & -> & Hext)] & Hok & Herr).
  assert (Hq : ∃ ext', (t ++ [Event (Q_checkpoint c) (Ok tt)]) ++ ext = t ++ ext' ∧ quiet ext').
  { rewrite <- app_assoc. eexists. split; [done|]. by constructor. }
  destruct r as [[]|e].
  - apply tsafe_modify. split; [by exists true|]. split; [done|]. split; [|done]. intros _ _.
    destruct (Hok tt eq_refl) as (now & E & Hnow). exists t, now. rewrite E, <- app_assoc. done.
  - split; [done|]. split; [done|]. split; [by intros ? [=]|]. intros e' [= <-]. right.
    destruct (Herr e eq_refl) as [f ->]. eauto.
Qed.

(** How the rotation ends: [ext] are its events. *)
Definition sent (r : ChatRequest) (ext : trace) (res : result exc ChatResponse) : Prop :=
  match res with
  | Ok response =>
      ∃ http, last (posts ext) = Some (r, http) ∧ completions ext = [(r, http)]
              ∧ parse_response repr_value http (rq_profile r) = Ok response
  | Err (E_transport e) =>
      match te_paid_response e with
      | Some _ => ∃ http, completions ext = [(r, http)]
                    ∧ parse_response repr_value http (rq_profile r) = Err (Parse_transport e)
      | None => completions ext = []
      end
  | Err (E_decimal _) => length (completions ext) = 1%nat
  | Err _ => completions ext = []
  end.

Definition unpaid (e : TransportError) : Prop := te_paid_response e = None.
Definition keys_unpaid (k : KeyErrors) : Prop :=
  (∀ e, ke_last k = Some e → unpaid e) ∧ ∀ e, ke_rate_limited k = Some e → unpaid e.

Lemma note_error_unpaid e k : unpaid e → keys_unpaid k → keys_unpaid (note_error e k).
Proof. intros He [H1 H2]. unfold note_error. case_bool_decide; split; cbn; naive_solver. Qed.

Lemma all_rejected_sent r ext k : keys_unpaid k → completions ext = [] → sent r ext (Err (all_rejected k)).
Proof.
  intros [H1 H2] He. unfold all_rejected. destruct (ke_rate_limited k) as [e|]; cbn.
  - by rewrite (H2 e eq_refl).
  - destruct (ke_last k) as [e|]; [|done]. by rewrite (H1 e eq_refl).
Qed.

Lemma outside_sent r ext e : outside e → completions ext = [] → sent r ext (Err e).
Proof. intros [[w ->]|(f & b & ->)] H; [by destruct w|done]. Qed.

Lemma post_spec r body key l t :
  allowed t (Q_post r body key) →
  gsafe (post r body key) l t (λ t' l' res, l' = l ∧ ∃ a, t' = t ++ [Event (Q_post r body key) a]
    ∧ match res with
      | Ok http => a = Ok http
      | Err e => (∃ x, a = Err x) ∧ sent r [Event (Q_post r body key) a] (Err e)
      end).
Proof.
  intros Hok. tasks (Q_post r body key); [done|]. intros a. tred.
  assert (Hn : ∀ x, a = Err x → completions [Event (Q_post r body key) a] = []) by by intros x ->.
  destruct a as [http|x]; [by split; [|exists (Ok http)]|]. specialize (Hn x eq_refl).
  destruct x as [name|name|w]; (split; [done|]); eexists; (split; [done|]); (split; [by eexists|]);
    [exact Hn|exact Hn|]. by destruct w.
Qed.

Lemma sent_parse r body key http :
  sent r [Event (Q_post r body key) (Ok http)]
    (map_err parse_exc (parse_response repr_value http (rq_profile r))).
Proof.
  pose proof (parse_response_cases repr_value http (rq_profile r)) as H.
  assert (Hc : completions [Event (Q_post r body key) (Ok http)]
               = if is_completion http then [(r, http)] else []).
  { cbn. by destruct (is_completion http). }
  destruct (is_completion http).
  - destruct (parse_response _ _ _) as [response|[e|d]] eqn:E; cbn [map_err parse_exc sent].
    + exists http. done.
    + destruct (te_paid_response e) eqn:Ep; [|done]. by exists http.
    + by rewrite Hc.
  - destruct H as (e & -> & He). cbn [map_err parse_exc sent]. by rewrite He, Hc.
Qed.

Lemma sent_app r ext1 ext2 res : completions ext1 = [] → sent r ext2 res → sent r (ext1 ++ ext2) res.
Proof.
  intros H1 H2. unfold sent in *. rewrite completions_app, H1, posts_app. cbn [app].
  destruct res as [response|e]; [|by destruct e].
  destruct H2 as (http & Hl & H). exists http. split; [|done]. by rewrite last_app, Hl.
Qed.

Definition served (p : ModelProfile) : Prop := p = primary ∨ fallback = Some p.

Lemma rotate_spec r keys indexes : keys = key_pool (rq_profile r) → served (rq_profile r) →
  (∀ i, i ∈ indexes → (i < length keys)%nat) → ∀ k l t,
  keys_unpaid k → affordable t (rq_profile r) (rq_messages r) → input_stored t (rq_messages r) →
  gsafe (rotate repr_value r (send_checkpoint g tk c) (request_body r) keys indexes k) l t
    (λ t' l' res, (∃ b, l' = set_sent b l) ∧ ∃ ext, t' = t ++ ext ∧ calm ext ∧ sent r ext res).
Proof.
  intros -> Hp. induction indexes as [|i indexes IH]; intros Hi k l t Hk Ha Hs; cbn [rotate].
  { apply tsafe_raise. split; [exists (as_sent l); by destruct l|]. exists []. rewrite app_nil_r.
    split; [done|]. split; [constructor|by apply all_rejected_sent]. }
  apply tsafe_bind. tmono send_checkpoint_spec.
  intros t1 l1 res ([b1 ->] & (e1 & -> & Hq1) & Hok & Herr). destruct res as [[]|e].
  2: { split; [by exists b1|]. exists e1. split; [done|]. split; [by apply quiet_calm|].
       apply outside_sent; [by apply Herr|by apply quiet_completions]. }
  assert (Hkey : default None (key_pool (rq_profile r) !! i) ∈ key_pool (rq_profile r)).
  { destruct (lookup_lt_is_Some_2 (key_pool (rq_profile r)) i) as [x E]; [apply Hi, list_elem_of_here|].
    rewrite E. by eapply list_elem_of_lookup_2. }
  apply tsafe_bind. tmono (post_spec r (request_body r) (default None (key_pool (rq_profile r) !! i))).
  { split; [|done]. split; [by apply (Hok tt)|]. split; [apply affordable_calm|apply stored_calm];
      by try apply quiet_calm. }
  intros t2 l2 res [-> (a & -> & Hres)].
  set (ev := Event (Q_post r (request_body r) (default None (key_pool (rq_profile r) !! i))) a) in *.
  assert (Hcalm : calm (e1 ++ [ev])).
  { apply Forall_app. split; [by apply quiet_calm|by constructor]. }
  rewrite <- app_assoc. destruct res as [http|e].
  2: { split; [by exists b1|]. exists (e1 ++ [ev]). split; [done|]. split; [done|].
       apply sent_app; [by apply quiet_completions|apply Hres]. }
  subst a. destruct (rotates (hr_status_code http)) eqn:Er.
  - eapply tsafe_mono.
    { apply IH; [intros j Hj; apply Hi; by right| |by apply affordable_calm|by apply stored_calm].
      apply note_error_unpaid; [apply status_error_unpaid|done]. }
    intros t3 l3 res [[b3 ->] (e3 & -> & Hc3 & Hs3)]. split; [by exists b3|].
    exists ((e1 ++ [ev]) ++ e3). split; [by rewrite !app_assoc|]. split; [by apply Forall_app|].
    apply sent_app; [|done]. rewrite completions_app, quiet_completions by done. subst ev. cbn.
    by rewrite rotates_no_completion.
  - apply tsafe_bind, tsafe_shared. intros s Hcap. split; [done|]. apply tsafe_lift.
    split; [by exists b1|]. exists (e1 ++ [ev]). split; [done|]. split; [done|].
    apply sent_app; [by apply quiet_completions|apply sent_parse].
Qed.

Lemma key_order_bound start n i : (0 < n)%nat → i ∈ key_order start n → (i < n)%nat.
Proof.
  intros Hn (o & -> & _)%list_elem_of_fmap. by apply Nat.mod_upper_bound, Nat.neq_0_lt_0.
Qed.

Lemma complete_spec r l t :
  served (rq_profile r) → affordable t (rq_profile r) (rq_messages r) →
  input_stored t (rq_messages r) →
  gsafe (complete repr_value r (send_checkpoint g tk c)) l t
    (λ t' l' res, (∃ b, l' = set_sent b l) ∧ ∃ ext, t' = t ++ ext ∧ calm ext ∧ sent r ext res).
Proof.
  intros Hp Ha Hs. unfold complete. apply tsafe_bind, tsafe_peek. intros s Hcap.
  apply rotate_spec; [done|done| |by split; intros|done|done].
  intros i. apply key_order_bound. unfold key_pool. destruct (mo_api_keys (rq_profile r)); cbn; lia.
Qed.

(** ** After the transport *)

(** Every paid answer is in the ledger, or the last one is not yet. *)
Definition settled (t : trace) : Prop := length (completions t) = length (ledgers t).
Definition unsettled (t : trace) : Prop := length (completions t) = S (length (ledgers t)).

(** The arithmetic of money, tokens and times failed. *)
Definition arithmetic (e : exc) : Prop :=
  (∃ d, e = E_decimal d)
  ∨ ∃ name, e = E_python name ∧ name ∈ [u8 "ZeroDivisionError"; u8 "OverflowError"].

Definition or_arithmetic {A} (t : trace) (res : result exc A) : Prop :=
  settled t ∨ unsettled t ∧ ∃ e, res = Err e ∧ arithmetic e.

Lemma map_err_decimal {A} (m : deciding A) e : map_err E_decimal m = Err e → arithmetic e.
Proof. destruct m; cbn; intros [= <-]. left. eauto. Qed.

Lemma heuristic_count_errors cpt n e : heuristic_count cpt n = Err e → arithmetic e.
Proof.
  unfold heuristic_count, or_raise.
  repeat case_match; intros [= <-]; right; eexists; (split; [done|]); set_solver.
Qed.

Lemma provider_cost_errors cost currency quote e :
  provider_cost_usd cost currency quote = Err e → ∃ m, e = E_cost m.
Proof.
  unfold provider_cost_usd. cbv zeta. unfold mbind, result_bind.
  repeat case_match; intros; simplify_eq/=;
    repeat match goal with
    | H : map_err _ ?m = Err _ |- _ => destruct m; cbn in H; simplify_eq
    | H : map_err _ ?m = Ok _ |- _ => destruct m; cbn in H; simplify_eq
    end; eauto.
Qed.

Lemma usage_of_errors p operation r estimate price quote conservative e :
  usage_of p operation r estimate price quote conservative = Err e →
  arithmetic e ∨ conservative = false ∧ ∃ m, e = E_cost m.
Proof.
  unfold usage_of. cbv zeta. unfold mbind, result_bind.
  repeat case_match; intros; simplify_eq/=;
    eauto using map_err_decimal, heuristic_count_errors;
    try match goal with
        | H : provider_cost_usd _ _ _ = Err _ |- _ => apply provider_cost_errors in H as [m ?]
        end; simplify_eq; eauto.
Qed.

Lemma elapsed_errors a b e : elapsed_ms a b = Err e → arithmetic e.
Proof.
  unfold elapsed_ms, or_raise. destruct (float_trunc _); cbn; intros [= <-].
  right. eexists. split; [done|]. set_solver.
Qed.

Definition draft_ok (r : RecordDraft) : Prop := 1 ≤ rd_call_no r ≤ max_calls - tk_reserved_calls tk.

(** The call being settled has this answer, not yet in the ledger. *)
Definition owed (p : ModelProfile) (t : trace) (response : ChatResponse) : Prop :=
  unsettled t ∧ ∃ r http, last (completions t) = Some (r, http) ∧ rq_profile r = p
                          ∧ answered r http response.

Lemma owed_quiet p t ext response : quiet ext → owed p t response → owed p (t ++ ext) response.
Proof.
  intros He [Hu (r & http & Hl & Hr)]. unfold owed, unsettled in *.
  rewrite completions_app, ledgers_app, (quiet_completions ext), (quiet_ledgers ext), !app_nil_r by done.
  split; [done|]. by exists r, http.
Qed.

Definition settling (l : AttemptState) (t t' : trace) (l' : AttemptState) : Prop :=
  as_usage l' = ledgers t' ∧ as_manifests l' = as_manifests l ∧ as_calls l' = as_calls l
  ∧ ∃ ext, t' = t ++ ext ∧ after ext.

Lemma settling_idle l t t' l' : as_usage l = ledgers t → idle l t t' l' → settling l t t' l'.
Proof.
  intros Hu [-> (ext & -> & He)]. split; [by rewrite ledgers_app, (quiet_ledgers ext), app_nil_r|].
  split; [done|]. split; [done|]. exists ext. split; [done|by apply quiet_after].
Qed.

Lemma settling_trans l t1 l2 t2 l3 t3 : settling l t1 t2 l2 → settling l2 t2 t3 l3 → settling l t1 t3 l3.
Proof.
  intros (_ & Hm & Hc & e1 & -> & H1) (Hu & Hm' & Hc' & e2 & -> & H2).
  split; [done|]. split; [congruence|]. split; [congruence|]. exists (e1 ++ e2).
  rewrite app_assoc. split; [done|by apply Forall_app].
Qed.

Lemma record_paid_answer_spec p r duration_ms response u b l t estimate price quote conservative :
  as_usage l = ledgers t → draft_ok r → owed p t response →
  usage_of p (tk_operation tk) response estimate price quote conservative = Ok u →
  gsafe (record_paid_answer repr_value c r duration_ms response u b) l t
    (λ t' l' res, settling l t t' l' ∧ settled t').
Proof.
  intros Hu Hr [Hun (rq & http & Hl & Hp & Ha)] Hus. subst p.
  apply tsafe_bind, tsafe_attempt, tsafe_bind, tsafe_modify, tsafe_bind.
  tasks (Q_ledger_record c u).
  { split; [done|]. split; [done|].
    by exists rq, http, response, estimate, price, quote, conservative. }
  intros a. set (t1 := t ++ [_]). set (l1 := add_usage u l).
  assert (Hs1 : settling l t t1 l1 ∧ settled t1).
  { subst t1 l1. split.
    - split; [cbn; by rewrite ledgers_app, Hu|]. split; [done|]. split; [done|].
      eexists. split; [done|by constructor].
    - unfold settled, unsettled in *. rewrite completions_app, ledgers_app.
      rewrite !length_app. cbn. lia. }
  destruct Hs1 as [Hs1 Hd1]. apply tsafe_lift.
  assert (Hrest : ∀ t2 l2 (w : result exc unit), idle l1 t1 t2 l2 →
    gsafe (interrupted ← ask Q_interrupted; _ ← lift w;
           if interrupted : bool then raise E_cancelled else mret tt) l2 t2
      (λ t' l' _, settling l t t' l' ∧ settled t')).
  { intros t2 l2 w Hi. tasks Q_interrupted; [done|]. intros i.
    assert (Hj : idle l1 t1 (t2 ++ [Event Q_interrupted i]) l2).
    { eapply idle_trans; [exact Hi|by apply idle_snoc]. }
    assert (Hend : settling l t (t2 ++ [Event Q_interrupted i]) l2
                   ∧ settled (t2 ++ [Event Q_interrupted i])).
    { split; [eapply settling_trans, settling_idle; [exact Hs1|apply Hs1|done]|].
      destruct Hj as [-> (ext & E & He)]. rewrite E. unfold settled in *.
      by rewrite completions_app, ledgers_app, (quiet_completions ext), (quiet_ledgers ext), !app_nil_r. }
    apply tsafe_bind, tsafe_lift. destruct w as [[]|e]; [|done]. by destruct i. }
  destruct a as [[]|w]; cbn [map_err].
  - tmono (record_trace_spec (finish_record repr_value r duration_ms (cp_raw response) None b)); [done|].
    intros t2 l2 w Hi. apply (Hrest t2 l2 w Hi).
  - apply Hrest, idle_refl.
Qed.

(** The end of the settlement of an owed answer. *)
Definition settle_end {A} (l : AttemptState) (t t' : trace) (l' : AttemptState) (res : result exc A)
  : Prop := settling l t t' l' ∧ or_arithmetic t' res.

(** Charge the answer, write it down, and go on. *)
Lemma charge_spec {A} p r duration_ms response b l t estimate price quote (k : G A) Φ :
  as_usage l = ledgers t → draft_ok r → owed p t response →
  (∀ t' l', settling l t t' l' → settled t' → gsafe k l' t' Φ) →
  (∀ t' l' e, settling l t t' l' → or_arithmetic (A := A) t' (Err e) → Φ t' l' (Err e)) →
  gsafe (u ← lift (usage_of p (tk_operation tk) response estimate price quote true);
         _ ← record_paid_answer repr_value c r duration_ms response u b; k) l t Φ.
Proof.
  intros Hu Hr Ho Hk HΦ. apply tsafe_bind, tsafe_lift.
  destruct (usage_of _ _ _ _ _ _ _) as [u|e] eqn:E.
  - apply tsafe_bind. eapply tsafe_mono; [by eapply record_paid_answer_spec|].
    intros t' l' res [Hs Hd]. destruct res as [[]|e]; [by apply Hk|]. apply HΦ; [done|by left].
  - apply usage_of_errors in E as [E|[[=] _]].
    apply HΦ; [by apply settling_idle, idle_refl|]. right. split; [apply Ho|]. eauto.
Qed.

Lemma fail_spec {A} code message l t (Φ : trace → AttemptState → result exc A → Prop) :
  (∀ f, lf_error_code f = code → Φ t l (Err (E_failed f false))) → gsafe (raise_failed code message) l t Φ.
Proof. intros H. apply tsafe_bind, tsafe_own, tsafe_raise. by apply H. Qed.

Lemma quote_for_answer_spec p r duration_ms response l t estimate price quote :
  as_usage l = ledgers t → draft_ok r → owed p t response →
  gsafe (quote_for_answer repr_value g p tk c r duration_ms response estimate price quote) l t
    (λ t' l' res, match res with
                  | Ok qr => idle l t t' l' ∧ draft_ok (snd qr)
                  | Err e => settling l t t' l' ∧ or_arithmetic (A := Outcome) t' (Err e)
                  end).
Proof.
  intros Hu Hr Ho. unfold quote_for_answer. destruct (negb _ && _ && _).
  2: { apply tsafe_ret. split; [apply idle_refl|done]. }
  apply tsafe_bind, tsafe_attempt. tmono get_fx_quote_spec.
  intros t1 l1 q (Hi & _ & Herr). destruct q as [q|e].
  - apply tsafe_ret. split; [done|]. by destruct r.
  - rewrite (Herr e eq_refl). pose proof (settling_idle _ _ _ _ Hu Hi) as Hs1.
    destruct Hi as [-> (ext & -> & He)].
    apply (charge_spec p); [apply Hs1|done|by apply owed_quiet|..].
    + intros t' l' Hs Hd. apply tsafe_raise. split; [by eapply settling_trans|by left].
    + intros t' l' e' Hs [Ha|(Ha & e1 & [= <-] & Har)];
        (split; [by eapply settling_trans|]); [by left|right; eauto].
Qed.

Lemma settle_paid_error_spec p r duration_ms paid message l t estimate price quote :
  as_usage l = ledgers t → draft_ok r → owed p t paid →
  gsafe (settle_paid_error repr_value g p tk c r duration_ms paid message estimate price quote) l t
    (λ t' l' res, settle_end l t t' l' res ∧ ∃ e, res = Err e).
Proof.
  intros Hu Hr Ho. apply tsafe_bind. tmono (quote_for_answer_spec p); [done..|].
  intros t1 l1 [[q r']|e] H1; [|split; [exact H1|by eexists]].
  destruct H1 as [Hi Hr']. pose proof (settling_idle _ _ _ _ Hu Hi) as Hs1.
  destruct Hi as [-> (ext & -> & He)].
  apply (charge_spec p); [apply Hs1|done|by apply owed_quiet|..].
  - intros t' l' Hs Hd. apply fail_spec. intros f _.
    split; [|by eexists]. split; [by eapply settling_trans|by left].
  - intros t' l' e Hs Ha. split; [|by eexists]. split; [by eapply settling_trans|done].
Qed.

(** An accepted outcome is the validated answer. *)
Lemma validated_output response manifest o out :
  validated response tk manifest = Ok o → oc_output o = Some out →
  validated response tk manifest = Ok (accepted out).
Proof.
  unfold validated. unfold mbind, result_bind.
  repeat case_match; intros; simplify_eq/=; done.
Qed.

Lemma validated_error response manifest o :
  validated response tk manifest = Ok o → oc_output o = None → oc_error o ≠ None.
Proof.
  unfold validated. unfold mbind, result_bind.
  repeat case_match; intros; simplify_eq/=; done.
Qed.

Lemma settle_answer_spec p r duration_ms response l t estimate price quote manifest :
  as_usage l = ledgers t → draft_ok r → owed p t response →
  gsafe (settle_answer repr_value g p tk c r duration_ms response estimate price quote manifest) l t
    (λ t' l' res, settle_end l t t' l' res
                  ∧ ∀ o, res = Ok o → validated response tk manifest = Ok o).
Proof.
  intros Hu Hr Ho. apply tsafe_bind. tmono (quote_for_answer_spec p); [done..|].
  intros t1 l1 [[q r']|e] H1; [|by split; [exact H1|intros ? [=]]].
  destruct H1 as [Hi Hr']. pose proof (settling_idle _ _ _ _ Hu Hi) as Hs1.
  destruct Hi as [-> (ext & -> & He)]. apply (owed_quiet p t ext) in Ho; [|done]. tred.
  destruct (usage_of p (tk_operation tk) response estimate price q false) as [u|e] eqn:E.
  - apply tsafe_bind. eapply tsafe_mono; [eapply record_paid_answer_spec; [apply Hs1|done..]|].
    intros t' l' res [Hs Hd].
    assert (Hend : ∀ x : result exc Outcome, settle_end l t t' l' x).
    { intros x. split; [by eapply settling_trans|by left]. }
    destruct res as [[]|e]; [|by split; [apply Hend|intros ? [=]]].
    apply tsafe_lift. split; [apply Hend|done].
  - pose proof E as E'. apply usage_of_errors in E' as [E'|[_ [m ->]]].
    + assert (Hend : settle_end (A := Outcome) l t (t ++ ext) l (Err e)).
      { split; [done|]. right. split; [apply Ho|]. eauto. }
      destruct E' as [[d ->]|(n & -> & _)]; by split.
    + apply (charge_spec p); [apply Hs1|done..| |].
      * intros t' l' Hs Hd. apply fail_spec. intros f _.
        split; [|by intros ? [=]]. split; [by eapply settling_trans|by left].
      * intros t' l' e Hs Ha. split; [|by intros ? [=]]. split; [by eapply settling_trans|done].
Qed.

(** What the caller of one call learns from its outcome. *)
Definition outcome_ok (r : ChatRequest) (manifest : option CallManifest) (ps : list (ChatRequest * HttpResponse))
    (o : Outcome) : Prop :=
  (∀ out, oc_output o = Some out →
     ∃ http response, last ps = Some (r, http)
       ∧ parse_response repr_value http (rq_profile r) = Ok response
       ∧ validated response tk manifest = Ok (accepted out))
  ∧ (oc_output o = None → oc_error o ≠ None).

Lemma settled_or {A} t (res : result exc A) e :
  settled t ∨ unsettled t → res = Err e → arithmetic e → or_arithmetic t res.
Proof. intros [H|H] -> He; [by left|right; eauto]. Qed.

(** Read the clock and settle, whatever follows. *)
Lemma timed_spec started l t (k : Z → G Outcome) Φ :
  as_usage l = ledgers t → settled t ∨ unsettled t →
  (∀ d t', idle l t t' l → gsafe (k d) l t' Φ) →
  (∀ t' e, settle_end (A := Outcome) l t t' l (Err e) → Φ t' l (Err e)) →
  gsafe (finished ← ask Q_monotonic; duration_ms ← lift (elapsed_ms started finished); k duration_ms)
    l t Φ.
Proof.
  intros Hu Hs Hk HΦ. tasks Q_monotonic; [done|]. intros finished.
  assert (Hi : idle l t (t ++ [Event Q_monotonic finished]) l) by by apply idle_snoc.
  apply tsafe_bind, tsafe_lift. destruct (elapsed_ms started finished) as [d|e] eqn:E; [by apply Hk|].
  apply HΦ. split; [by apply settling_idle|]. eapply settled_or; [|done|by eapply elapsed_errors].
  unfold settled, unsettled in *.
  by rewrite completions_app, ledgers_app, (quiet_completions [_]), (quiet_ledgers [_]), !app_nil_r
    by (by constructor).
Qed.

Lemma idle_settled l t t' : settled t → idle l t t' l → settled t'.
Proof.
  intros H [_ (ext & -> & He)]. unfold settled in *.
  by rewrite completions_app, ledgers_app, (quiet_completions ext), (quiet_ledgers ext), !app_nil_r.
Qed.

Lemma idle_owed p l t t' response : owed p t response → idle l t t' l → owed p t' response.
Proof. intros H [_ (ext & -> & He)]. by apply owed_quiet. Qed.

Lemma sent_state r t0 ext0 res :
  settled t0 → calm ext0 → sent r ext0 res →
  match res with
  | Ok response => owed (rq_profile r) (t0 ++ ext0) response
  | Err (E_transport e) =>
      match te_paid_response e with
      | Some paid => owed (rq_profile r) (t0 ++ ext0) paid
      | None => settled (t0 ++ ext0)
      end
  | Err (E_decimal _) => unsettled (t0 ++ ext0)
  | Err _ => settled (t0 ++ ext0)
  end.
Proof.
  intros Hs Hc H. assert (Hlen : length (completions (t0 ++ ext0))
    = (length (ledgers (t0 ++ ext0)) + length (completions ext0))%nat).
  { unfold settled in Hs. rewrite completions_app, ledgers_app, (calm_ledgers ext0), app_nil_r by done.
    rewrite length_app. lia. }
  unfold sent in H. unfold owed, settled, unsettled.
  assert (Hlast : ∀ x, completions ext0 = [x] → last (completions (t0 ++ ext0)) = Some x).
  { intros x E. by rewrite completions_app, E, last_snoc. }
  destruct res as [response|e].
  - destruct H as (http & _ & Hx & Hp). rewrite Hx in Hlen. split; [cbn in Hlen; lia|].
    exists r, http. split; [by apply Hlast|]. split; [done|by left].
  - destruct e; try (rewrite H in Hlen; cbn in Hlen; lia).
    destruct (te_paid_response e) as [paid|] eqn:Ep.
    + destruct H as (http & Hx & Hp). rewrite Hx in Hlen. split; [cbn in Hlen; lia|].
      exists r, http. split; [by apply Hlast|]. split; [done|]. right. by exists e.
    + rewrite H in Hlen. cbn in Hlen. lia.
Qed.

(** A call that ends without a paid answer is traced. *)
Lemma unpaid_spec started l t (f : Z → LlmCallRecord) (k : G Outcome) Φ :
  as_usage l = ledgers t → settled t →
  (∀ d, 1 ≤ cr_call_no (f d) ≤ max_calls - tk_reserved_calls tk) →
  (∀ t', idle l t t' l → settled t' → gsafe k l t' Φ) →
  (∀ t' e, settle_end (A := Outcome) l t t' l (Err e) → Φ t' l (Err e)) →
  gsafe (finished ← ask Q_monotonic; duration_ms ← lift (elapsed_ms started finished);
         _ ← record_trace c (f duration_ms); k) l t Φ.
Proof.
  intros Hu Hs Hf Hk HΦ. apply timed_spec; [done|by left| |done].
  intros d t' Hi. apply tsafe_bind. tmono record_trace_spec; [done|].
  intros t2 l2 res [-> H2].
  assert (Hi2 : idle l t t2 l) by (eapply idle_trans; [exact Hi|by split]).
  pose proof (idle_settled _ _ _ Hs Hi2) as Hs2.
  destruct res as [[]|e]; [by apply Hk|]. apply HΦ. split; [by apply settling_idle|by left].
Qed.

Lemma settle_end_idle {A} l t t' (x : result exc A) :
  as_usage l = ledgers t → settled t → idle l t t' l → settle_end l t t' l x.
Proof. intros Hu Hs Hi. split; [by apply settling_idle|]. left. by eapply idle_settled. Qed.

Lemma settle_end_trans {A} l t t1 t2 l2 (x : result exc A) :
  as_usage l = ledgers t → idle l t t1 l → settle_end l t1 t2 l2 x → settle_end l t t2 l2 x.
Proof.
  intros Hu Hi [Hs Ha]. split; [|done]. eapply settling_trans; [by apply settling_idle|done].
Qed.

Lemma idle_usage l t t' : as_usage l = ledgers t → idle l t t' l → as_usage l = ledgers t'.
Proof. intros Hu Hi. by apply (settling_idle l t t' l). Qed.

Lemma settle_spec r draft started estimate price quote manifest res l t0 ext0 :
  as_usage l = ledgers t0 → settled t0 → calm ext0 → sent r ext0 res → draft_ok draft →
  gsafe (settle repr_value g (rq_profile r) tk c draft started estimate price quote manifest res)
    l (t0 ++ ext0)
    (λ t' l' res', settle_end l (t0 ++ ext0) t' l' res'
                   ∧ ∀ o, res' = Ok o → outcome_ok r manifest (posts ext0) o).
Proof.
  intros Hu Hs Hc Hsent Hd. pose proof (sent_state _ _ _ _ Hs Hc Hsent) as Hst.
  assert (Hu0 : as_usage l = ledgers (t0 ++ ext0)).
  { by rewrite ledgers_app, (calm_ledgers ext0), app_nil_r. }
  destruct res as [response|e]; unfold settle.
  - apply timed_spec; [done|right; apply Hst| |by split; [|intros ? [=]]].
    intros d t' Hi. eapply tsafe_mono.
    { apply settle_answer_spec; [by eapply idle_usage|done|by eapply idle_owed]. }
    intros t2 l2 res2 [Hend Hval]. split; [by eapply settle_end_trans|].
    destruct Hsent as (http & Hl & _ & Hp). intros o Ho. split.
    + intros out Hout. exists http, response. split; [done|]. split; [done|].
      eapply validated_output; [by apply Hval|done].
    + by eapply validated_error, Hval.
  - destruct e as [f [|]|e| | | | | | | | |]; try (split; [|by intros ? [=]]);
      try (by apply settle_end_idle; [..|apply idle_refl]).
    + apply unpaid_spec; [done..| |by split; [|intros ? [=]]].
      intros t' Hi Hs'. split; [by apply settle_end_idle|by intros ? [=]].
    + destruct (te_paid_response e) as [paid|].
      * apply timed_spec; [done|right; apply Hst| |by split; [|intros ? [=]]].
        intros d t' Hi. eapply tsafe_mono.
        { apply settle_paid_error_spec; [by eapply idle_usage|done|by eapply idle_owed]. }
        intros t2 l2 res2 [Hend [e2 ->]]. split; [by eapply settle_end_trans|by intros ? [=]].
      * apply unpaid_spec; [done..| |by split; [|intros ? [=]]]. intros t' Hi Hs'.
        case_bool_decide.
        -- apply fail_spec. intros f _. split; [by apply settle_end_idle|by intros ? [=]].
        -- apply tsafe_ret. split; [by apply settle_end_idle|].
           intros o [= <-]. split; [by intros ? [=]|done].
    + split; [apply settling_idle; [done|apply idle_refl]|]. right. split; [done|]. eexists. split; [done|].
      left. eauto.
Qed.

(** ** Before the transport *)

Lemma calls_capped_lookup s a : calls_capped s → 0 ≤ calls_of a s ≤ Z.max 0 max_calls.
Proof.
  intros H. unfold calls_of. destruct (sh_counters s !! a) eqn:E; [|lia].
  by eapply (Forall_lookup_1 _ _ _ _ H) in E.
Qed.

Lemma count_call_capped s a limit :
  limit ≤ max_calls → calls_of a s < limit → calls_capped s → calls_capped (count_call a s).
Proof.
  intros Hl Hc H. unfold calls_capped, count_call in *. cbn [sh_counters].
  unfold calls_of in Hc. apply Forall_lookup. intros i k.
  destruct (decide (i = a)) as [->|Hne].
  - rewrite list_lookup_alter_eq. destruct (sh_counters s !! a) as [k0|] eqn:E; [|done].
    intros [= <-]. cbn. apply (Forall_lookup_1 _ _ _ _ H) in E. lia.
  - rewrite list_lookup_alter_ne by done. intros E. by apply (Forall_lookup_1 _ _ _ _ H) in E.
Qed.

Lemma claim_slot_spec a l t :
  0 ≤ tk_reserved_calls tk →
  gsafe (claim_slot g tk c a) l t (λ t' l' res, t' = t
    ∧ match res with
      | Ok n => 1 ≤ n ≤ max_calls - tk_reserved_calls tk ∧ l' = add_call l
      | Err _ => l' = l
      end).
Proof.
  intros Hr. apply tsafe_bind, tsafe_shared. intros s Hs. tred.
  pose proof (calls_capped_lookup s a Hs).
  destruct (max_calls - tk_reserved_calls tk <=? calls_of a s) eqn:E; to_prop.
  - split; [done|]. apply fail_spec. done.
  - split; [eapply count_call_capped; [|exact E|done]; lia|].
    apply tsafe_bind, tsafe_modify, tsafe_ret. split; [done|]. split; [lia|done].
Qed.

Lemma call_price_spec p l t :
  gsafe (call_price urlsplit idna g p tk c) l t (λ t' l' res, idle l t t' l'
    ∧ ∀ price qr q, res = Ok (price, qr, q) → priced t' p price).
Proof.
  apply tsafe_bind, tsafe_lift.
  destruct (is_eurouter_route urlsplit idna p) as [b|e] eqn:E; cbn [map_err].
  2: { split; [apply idle_refl|by intros ? ? ? [=]]. }
  destruct b; cbn [negb].
  2: { apply tsafe_ret. split; [apply idle_refl|]. intros price qr q [= <- _ _]. by left. }
  apply tsafe_bind. tmono get_fx_quote_spec. intros t1 l1 res (Hi & Hq & _).
  destruct res as [qr|e]; [|split; [done|by intros ? ? ? [=]]].
  destruct (qr ≫= qr_quote) as [q|] eqn:Eq.
  2: { apply fail_spec. intros f _. split; [done|by intros ? ? ? [=]]. }
  destruct qr as [qr|]; [|done]. cbn in Eq. specialize (Hq qr q eq_refl Eq).
  apply tsafe_bind. destruct (price_at_eur_quote _ _ _) as [price|[m|d|]] eqn:Ep.
  - apply tsafe_ret, tsafe_bind. tmono check_time_spec. intros t2 l2 res (Hi2 & _ & _).
    assert (H12 : idle l t t2 l2) by by eapply idle_trans.
    destruct res as [[]|e]; [|split; [done|by intros ? ? ? [=]]].
    apply tsafe_ret. split; [done|]. intros price' qr' q' [= <- _ _]. right. split; [done|].
    exists q. split; [|done]. destruct Hi2 as [_ (ext & -> & _)].
    rewrite quotes_app. apply elem_of_app. by left.
  - apply fail_spec. intros f _. split; [done|by intros ? ? ? [=]].
  - apply fail_spec. intros f _. split; [done|by intros ? ? ? [=]].
  - apply tsafe_raise. split; [done|by intros ? ? ? [=]].
Qed.

(** The price of the call is known, and the budget allows it. *)
Definition within_budget (t : trace) (p : ModelProfile) (price : ModelPrice) (estimate : Z) : Prop :=
  ∃ next spent total,
    cost_usd price estimate (mo_max_output_tokens p) 0 = Ok next ∧ cost_reading t = Some spent
    ∧ dec_add spent next = Ok total
    ∧ dec_gt total (gp_run_cost_limit_usd policy (cx_engine c)) = Ok false.

Lemma within_budget_quiet t ext p price estimate :
  quiet ext → within_budget t p price estimate → within_budget (t ++ ext) p price estimate.
Proof.
  intros He (next & spent & total & H). exists next, spent, total.
  by rewrite cost_app, (quiet_cost ext).
Qed.

Lemma check_budget_spec p price estimate l t :
  gsafe (check_budget g c p price estimate) l t (λ t' l' res,
    l' = l ∧ (∃ ext, t' = t ++ ext ∧ before ext)
    ∧ ∀ u, res = Ok u → within_budget t' p price estimate).
Proof.
  apply tsafe_bind. tasks (Q_run_cost (cx_run_id c)); [done|]. intros a. apply tsafe_lift.
  assert (He : ∃ ext, t ++ [Event (Q_run_cost (cx_run_id c)) a] = t ++ ext ∧ before ext).
  { eexists. split; [done|by constructor]. }
  destruct a as [spent|w]; cbn [map_err]; [|split; [done|]; split; [done|by intros ? [=]]].
  apply tsafe_bind, tsafe_lift. destruct (cost_usd _ _ _ _) as [next|d] eqn:En; cbn [map_err].
  2: { split; [done|]. split; [done|by intros ? [=]]. }
  apply tsafe_bind, tsafe_lift. destruct (dec_add spent next) as [total|d] eqn:Et.
  2: { split; [done|]. split; [done|by intros ? [=]]. }
  cbn [mbind result_bind]. destruct (dec_gt total _) as [over|d] eqn:Eo; cbn [map_err].
  2: { split; [done|]. split; [done|by intros ? [=]]. }
  destruct over.
  - apply fail_spec. intros f _. split; [done|]. split; [done|by intros ? [=]].
  - apply tsafe_ret. split; [done|]. split; [done|]. intros _ _. exists next, spent, total.
    split; [done|]. split; [by rewrite cost_app|]. by split.
Qed.


(** ** Manifests *)

(** Every stored call is one of this generation's. *)
Definition ids_ok (l : AttemptState) (t : trace) : Prop :=
  ∀ cid mid, (cid, mid) ∈ as_manifests l → cid ∈ base_ids ++ uuids t.
Definition manifest_named (t : trace) (manifest : option CallManifest) : Prop :=
  ∀ m, manifest = Some m → cm_call_id m ∈ base_ids ++ uuids t.

(** If the manifest of the current call is stored, it was stored with these messages. *)
Definition recorded (l : AttemptState) (t : trace) (messages : list ChatMessage)
    (manifest : option CallManifest) : Prop :=
  tk_policy_snapshot tk ≠ None →
  ∀ m mid, manifest = Some m → manifest_of (cm_call_id m) (as_manifests l) = Some mid →
    NoDup (base_ids ++ uuids t) →
    ∃ e, e ∈ stored_manifests t
         ∧ rendered_messages_sha256 messages = Ok (me_rendered_messages_sha256 e).

Lemma ids_ok_app l t ext : ids_ok l t → ids_ok l (t ++ ext).
Proof. intros H cid mid Hin. rewrite uuids_app, app_assoc. apply elem_of_app. left. by eapply H. Qed.
Lemma manifest_named_app t ext m : manifest_named t m → manifest_named (t ++ ext) m.
Proof. intros H x Hx. rewrite uuids_app, app_assoc. apply elem_of_app. left. by apply H. Qed.
Lemma recorded_app l t ext messages m : recorded l t messages m → recorded l (t ++ ext) messages m.
Proof.
  intros H Hsn x mid Hx Hm Hn. rewrite uuids_app, app_assoc in Hn. apply NoDup_app in Hn as [Hn _].
  destruct (H Hsn x mid Hx Hm Hn) as (e & He & Hs). exists e. split; [|done].
  rewrite manifests_app. apply elem_of_app. by left.
Qed.

Lemma manifest_of_In cid l mid : manifest_of cid l = Some mid → (cid, mid) ∈ l.
Proof.
  induction l as [|[x y] l IH]; cbn; [done|]. destruct (x =? cid)%N eqn:E.
  - intros [= ->]. apply N.eqb_eq in E as ->. apply list_elem_of_here.
  - intros H. apply elem_of_cons. right. by apply IH.
Qed.

(** The object and the history after a manifest was looked for or stored. *)
Definition storing (l : AttemptState) (t t' : trace) (l' : AttemptState)
    (messages : list ChatMessage) (manifest : option CallManifest) : Prop :=
  as_usage l' = as_usage l ∧ as_calls l' = as_calls l ∧ ids_ok l' t'
  ∧ recorded l' t' messages manifest ∧ ∃ ext, t' = t ++ ext ∧ naming ext.

Lemma storing_app l t ext messages manifest :
  ids_ok l t → recorded l t messages manifest → naming ext →
  storing l t (t ++ ext) l messages manifest.
Proof.
  intros Hi Hr He. split; [done|]. split; [done|]. split; [by apply ids_ok_app|].
  split; [by apply recorded_app|]. by exists ext.
Qed.

Lemma store_manifest_spec manifest estimate messages l t :
  ids_ok l t → recorded l t messages manifest → manifest_named t manifest →
  gsafe (store_manifest g tk manifest c estimate messages) l t (λ t' l' res,
    storing l t t' l' messages manifest
    ∧ ∀ o, res = Ok o → manifest ≠ None → input_stored t' messages).
Proof.
  intros Hi Hr Hm. unfold store_manifest.
  assert (Hnil : storing l t t l messages manifest).
  { rewrite <- (app_nil_r t) at 2. apply storing_app; [done..|constructor]. }
  destruct manifest as [m|]; [|apply tsafe_ret; by split].
  destruct (tk_policy_snapshot tk) as [snapshot|] eqn:Esn.
  2: { apply tsafe_ret. split; [done|]. intros o _ _ Hsn. by rewrite Esn in Hsn. }
  destruct (gw_manifest_store g) eqn:Eg; cbn [negb].
  2: { apply tsafe_ret. split; [done|]. intros o _ _ _ _ Hg. by rewrite Eg in Hg. }
  apply tsafe_bind, tsafe_own.
  destruct (manifest_of (cm_call_id m) (as_manifests l)) as [mid|] eqn:Em.
  { apply tsafe_ret. split; [done|]. intros o _ _ Hsn _ _ Hn. by eapply Hr. }
  tasks Q_uuid4; [done|]. intros mid. tasks Q_now; [done|]. intros now.
  set (t2 := (t ++ [Event Q_uuid4 mid]) ++ [Event Q_now now]).
  assert (H2 : ∃ ext, t2 = t ++ ext ∧ naming ext).
  { subst t2. rewrite <- app_assoc. eexists. split; [done|]. by repeat constructor. }
  assert (Hs2 : storing l t t2 l messages (Some m)).
  { destruct H2 as (ext & -> & He). by apply storing_app. }
  apply tsafe_bind, tsafe_lift. destruct (rendered_messages_sha256 messages) as [sha|e] eqn:Esha.
  2: { split; [done|by intros ? [=]]. }
  apply tsafe_bind, tsafe_lift. destruct (or_raise _ _) as [profile|e]; [|split; [done|by intros ? [=]]].
  tred. match goal with |- context [Q_record_manifest _ ?e] => set (entry := e) end.
  tasks (Q_record_manifest (cx_run_id c) entry); [done|]. intros a.
  set (t3 := t2 ++ [Event (Q_record_manifest (cx_run_id c) entry) a]).
  assert (H3 : ∃ ext, t3 = t ++ ext ∧ naming ext).
  { destruct H2 as (ext & E2 & He). subst t3. rewrite E2, <- app_assoc. eexists. split; [done|].
    apply Forall_app. split; [done|by constructor]. }
  assert (Hs3 : storing l t t3 l messages (Some m)).
  { destruct H3 as (ext & -> & He). by apply storing_app. }
  destruct a as [[]|w]; tred.
  2: { destruct (caught w); apply tsafe_raise; (split; [done|by intros ? [=]]). }
  assert (Hentry : entry ∈ stored_manifests t3).
  { subst t3. rewrite manifests_app. apply elem_of_app. right. apply list_elem_of_here. }
  apply tsafe_bind, tsafe_modify, tsafe_ret. split.
  - split; [done|]. split; [done|]. split; [|split; [|done]].
    + intros cid mid' [[= -> ->]|Hin]%elem_of_cons; [|by eapply Hs3].
      destruct H3 as (ext & -> & _). by apply (manifest_named_app t ext (Some m) Hm).
    + intros _ m' mid' [= <-] _ _. by exists entry.
  - intros o _ _ _ _ _ _. by exists entry.
Qed.

(** ** One call *)

(** What holds of the object between two calls. *)
Record ready (l : AttemptState) (t : trace) (messages : list ChatMessage)
    (manifest : option CallManifest) : Prop := mkReady {
  rd_usage : as_usage l = ledgers t;
  rd_settled : settled t;
  rd_ids : ids_ok l t;
  rd_recorded : recorded l t messages manifest;
  rd_named : manifest_named t manifest;
  rd_base : tk_base_manifest tk ≠ None → manifest ≠ None
}.

(** What holds after a call, however it ends. *)
Record called (l : AttemptState) (t : trace) (messages : list ChatMessage)
    (manifest : option CallManifest) (res : result exc Outcome) (t' : trace) (l' : AttemptState)
  : Prop := mkCalled {
  cl_usage : as_usage l' = ledgers t';
  cl_settled : or_arithmetic t' res;
  cl_ids : ids_ok l' t';
  cl_recorded : recorded l' t' messages manifest;
  cl_ext : ∃ ext, t' = t ++ ext
}.

Lemma called_before l t messages manifest e ext :
  ready l t messages manifest → before ext → called l t messages manifest (Err e) (t ++ ext) l.
Proof.
  intros [Hu Hs Hi Hr Hn Hb] He. split.
  - by rewrite ledgers_app, (before_ledgers ext), app_nil_r.
  - left. unfold settled in *.
    by rewrite completions_app, ledgers_app, (before_completions ext), (before_ledgers ext), !app_nil_r.
  - by apply ids_ok_app.
  - by apply recorded_app.
  - by exists ext.
Qed.

Definition call_request (p : ModelProfile) (messages : list ChatMessage) : ChatRequest :=
  mkChatRequest p messages (Some (tk_schema tk)) (timeout_of g tk c).

Lemma last_app_some {A} (l1 l2 : list A) x : last l2 = Some x → last (l1 ++ l2) = Some x.
Proof. intros H. by rewrite last_app, H. Qed.

(** From the slot on. *)
(** Send the request and settle its answer. *)
Lemma transmit_spec p messages draft started estimate price q manifest l t :
  served p → as_usage l = ledgers t → settled t → draft_ok draft →
  affordable t p messages → input_stored t messages →
  gsafe (_ ← modify (set_sent false);
         sent ← attempt (complete repr_value (call_request p messages) (send_checkpoint g tk c));
         settle repr_value g p tk c draft started estimate price q manifest sent) l t
    (λ t' l' res, (as_usage l' = ledgers t' ∧ or_arithmetic t' res ∧ as_manifests l' = as_manifests l
                   ∧ ∃ ext, t' = t ++ ext)
       ∧ ∀ o, res = Ok o → outcome_ok (call_request p messages) manifest (posts t') o).
Proof.
  intros Hp Hu Hs Hd Ha Hi. apply tsafe_bind, tsafe_modify, tsafe_bind, tsafe_attempt.
  tmono (complete_spec (call_request p messages)); [done..|].
  intros t1 l1 res1 ([b ->] & e1 & -> & Hc1 & Hsent).
  eapply tsafe_mono; [by apply (settle_spec (call_request p messages))|].
  intros t2 l2 res2 [[(Hu2 & Hm2 & _ & e2 & -> & He2) Har2] Hout]. split.
  - split; [done|]. split; [done|]. split; [done|]. rewrite <- app_assoc. by eexists.
  - intros o Ho. destruct (Hout o Ho) as [Hacc Herr]. split; [|done]. intros out Hsome.
    destruct (Hacc out Hsome) as (http & response & Hl & Hrest). exists http, response. split; [|done].
    rewrite posts_app, (after_posts e2), app_nil_r, posts_app by done. by apply last_app_some.
Qed.

Lemma sending_spec p kind messages a manifest estimate price qr q l t :
  0 ≤ tk_reserved_calls tk → served p → ready l t messages manifest →
  estimate_messages p (tk_counter tk) messages = Ok estimate →
  estimate + mo_max_output_tokens p ≤ context_limit policy p (cx_engine c) →
  priced t p price → within_budget t p price estimate →
  gsafe (call_no ← claim_slot g tk c a;
         let named := if bool_decide (tk_policy_snapshot tk = None) then None else manifest in
         manifest_id ← store_manifest g tk named c estimate messages;
         started_at ← ask Q_now;
         started ← ask Q_monotonic;
         let r := mkRecordDraft kind (mo_model p) call_no c (timeout_of g tk c) estimate started_at
                    (tk_operation tk) (fx_provenance qr) (cm_call_id <$> named)
                    (cm_stage <$> named) (_ ← named; sn_snapshot_id <$> tk_policy_snapshot tk)
                    manifest_id (tk_redact_answer tk) in
         _ ← modify (set_sent false);
         sent ← attempt (complete repr_value (call_request p messages) (send_checkpoint g tk c));
         settle repr_value g p tk c r started estimate price q manifest sent) l t
    (λ t' l' res, called l t messages manifest res t' l'
       ∧ ∀ o, res = Ok o → outcome_ok (call_request p messages) manifest (posts t') o).
Proof.
  intros Hres Hp Hready Hest Hlim Hprice Hbud. apply tsafe_bind. tmono claim_slot_spec; [done|].
  intros t1 l1 [n|e] [-> Hn].
  2: { subst l1. split; [|by intros ? [=]]. rewrite <- (app_nil_r t) at 2.
       apply called_before; [done|constructor]. }
  destruct Hn as [Hn ->]. destruct Hready as [Hu Hs Hi Hr Hnm Hb]. tred.
  set (named := if bool_decide (tk_policy_snapshot tk = None) then None else manifest).
  assert (Hnamed : named = manifest ∨ named = None ∧ tk_policy_snapshot tk = None).
  { subst named. case_bool_decide; [by right|by left]. }
  apply tsafe_bind. tmono (store_manifest_spec named estimate messages (add_call l) t); [done|..].
  { destruct Hnamed as [->|[-> _]]; [done|by intros ? ? ? [=]]. }
  { destruct Hnamed as [->|[-> _]]; [done|by intros ? [=]]. }
  intros t2 l2 res2 ((Hu2 & _ & Hi2 & Hr2 & (e2 & -> & He2)) & Hst).
  assert (Hsettled2 : settled (t ++ e2)).
  { unfold settled in *. by rewrite completions_app, ledgers_app, (naming_completions e2),
      (naming_ledgers e2), !app_nil_r. }
  assert (Hled2 : as_usage l2 = ledgers (t ++ e2)).
  { rewrite ledgers_app, (naming_ledgers e2), app_nil_r by done. by rewrite Hu2. }
  assert (Hrec2 : recorded l2 (t ++ e2) messages manifest).
  { destruct Hnamed as [E|[En Esn]]; [by rewrite E in Hr2|by intros Hsn; rewrite Esn in Hsn]. }
  destruct res2 as [mid|e].
  2: { split; [|by intros ? [=]]. split; [done|by left|done|done|by exists e2]. }
  tasks Q_now; [done|]. intros started_at. tasks Q_monotonic; [done|]. intros started.
  set (e3 := [Event Q_now started_at; Event Q_monotonic started]).
  rewrite <- !app_assoc. change ([Event Q_now started_at] ++ [Event Q_monotonic started]) with e3.
  assert (Hq3 : quiet e3) by by repeat constructor.
  assert (Hled3 : ledgers (t ++ e2 ++ e3) = ledgers (t ++ e2)).
  { by rewrite (app_assoc t), ledgers_app, (quiet_ledgers e3), app_nil_r. }
  tred. tmono (transmit_spec p messages); [done|by rewrite Hled3| |done|..].
  { unfold settled in *.
    by rewrite (app_assoc t), completions_app, (quiet_completions e3), app_nil_r, <- app_assoc, Hled3. }
  { exists estimate, price. destruct Hbud as (next & spent & total & H1 & H2 & H3 & H4).
    exists next, spent, total. do 2 (split; [done|]). split; [by apply priced_mono|]. split; [done|].
    split; [|done]. by rewrite (app_assoc t), !cost_app, (quiet_cost e3), (naming_cost e2). }
  { rewrite app_assoc. apply stored_calm; [by apply quiet_calm|]. intros Hsn Hbs Hg Hnd.
    apply (Hst mid eq_refl); [|done..]. destruct Hnamed as [->|[_ Esn]]; [by apply Hb|done]. }
  intros t4 l4 res4 [(Hu4 & Har4 & Hm4 & e4 & ->) Hout]. split; [|done]. rewrite (app_assoc t), <- app_assoc.
  rewrite (app_assoc t), <- app_assoc in Hu4, Har4. split; [done|done| | |].
  - apply ids_ok_app. intros cid m. rewrite Hm4. apply Hi2.
  - apply recorded_app. intros Hsn m mid' Hm. rewrite Hm4. by apply Hrec2.
  - rewrite <- app_assoc. by eexists.
Qed.

Lemma call_spec p kind messages a manifest l t :
  0 ≤ tk_reserved_calls tk → served p → ready l t messages manifest →
  gsafe (call repr_value urlsplit idna g p kind messages tk c a manifest) l t
    (λ t' l' res, called l t messages manifest res t' l'
       ∧ ∀ o, res = Ok o → outcome_ok (call_request p messages) manifest (posts t') o).
Proof.
  intros Hres Hp Hready. unfold call.
  assert (Hend : ∀ e ext, before ext →
    called l t messages manifest (Err e) (t ++ ext) l
    ∧ ∀ o, Err e = Ok o → outcome_ok (call_request p messages) manifest (posts (t ++ ext)) o).
  { intros e ext He. split; [by apply called_before|by intros ? [=]]. }
  apply tsafe_bind. tmono checkpoint_spec. intros t1 l1 res1 [[-> (e1 & -> & H1)] _].
  apply quiet_before in H1. destruct res1 as [[]|e]; [|by apply Hend].
  apply tsafe_bind. tmono check_time_spec. intros t2 l2 res2 ([-> (e2 & -> & H2)] & _ & _).
  apply quiet_before in H2. rewrite <- app_assoc. assert (H12 := Forall_app_2 _ _ _ H1 H2).
  destruct res2 as [[]|e]; [|by apply Hend].
  apply tsafe_bind, tsafe_lift. destruct (estimate_messages _ _ _) as [estimate|e] eqn:Eest; [|by apply Hend].
  tred. destruct (context_limit _ _ _ <? _) eqn:Elim.
  { apply fail_spec. intros f _. by apply Hend. }
  to_prop. apply tsafe_bind. tmono call_price_spec. intros t3 l3 res3 ([-> (e3 & -> & H3)] & Hprice).
  apply quiet_before in H3. rewrite <- app_assoc. assert (H13 := Forall_app_2 _ _ _ H12 H3).
  destruct res3 as [[[price qr] q]|e]; [|by apply Hend].
  apply tsafe_bind. tmono check_budget_spec. intros t4 l4 res4 (-> & (e4 & -> & H4) & Hbud).
  rewrite <- app_assoc. assert (H14 := Forall_app_2 _ _ _ H13 H4).
  destruct res4 as [[]|e]; [|by apply Hend].
  apply tsafe_bind. tmono checkpoint_spec. intros t5 l5 res5 [[-> (e5 & -> & Hq5)] _].
  pose proof (quiet_before _ Hq5) as H5. rewrite <- app_assoc. assert (H15 := Forall_app_2 _ _ _ H14 H5).
  destruct res5 as [[]|e]; [|by apply Hend].
  apply tsafe_bind. tmono check_time_spec. intros t6 l6 res6 ([-> (e6 & -> & Hq6)] & _ & _).
  pose proof (quiet_before _ Hq6) as H6. rewrite <- app_assoc. assert (H16 := Forall_app_2 _ _ _ H15 H6).
  destruct res6 as [[]|e]; [|by apply Hend].
  destruct (Hend E_cancelled _ H16) as [[Hu [Hs|(_ & ? & [= <-] & Har)] Hi Hr _] _];
    [|by destruct Har as [[? [=]]|(? & [=] & _)]].
  eapply tsafe_mono.
  { apply sending_spec; [done|done| |done|done|..].
    - split; [done|done|done|done| |apply Hready]. apply manifest_named_app, Hready.
    - rewrite !app_assoc. do 3 apply priced_mono. rewrite !app_assoc in Hprice. by eapply Hprice.
    - rewrite !app_assoc. do 2 (apply within_budget_quiet; [done|]).
      rewrite !app_assoc in Hbud. by apply (Hbud tt). }
  intros t' l' res [[Hu' Hs' Hi' Hr' [ext ->]] Hout]. split; [|done]. split; try done.
  rewrite <- app_assoc. by eexists.
Qed.

(** ** One generation *)

Lemma failed_settled {A B} t f b : or_arithmetic (A := A) t (Err (E_failed f b)) →
  ∀ res : result exc B, or_arithmetic t res.
Proof.
  intros [H|(_ & e & [= <-] & [[d [=]]|(n & [=] & _)])] res. by left.
Qed.

Lemma recovery_spec p kind messages a manifest previous l t :
  0 ≤ tk_reserved_calls tk → served p → ready l t messages manifest →
  gsafe (recovery (call repr_value urlsplit idna g p kind messages tk c a manifest) previous tk) l t
    (λ t' l' res, called l t messages manifest res t' l'
       ∧ ∀ o, res = Ok o → outcome_ok (call_request p messages) manifest (posts t') o).
Proof.
  intros Hres Hp Hr. apply tsafe_catch. tmono call_spec; [done..|].
  intros t' l' [o|e] [Hc Ho]; [done|].
  assert (Hsame : ∀ e', or_arithmetic (A := Outcome) t' (Err e') →
    called l t messages manifest (Err e') t' l'
    ∧ ∀ o, Err e' = Ok o → outcome_ok (call_request p messages) manifest (posts t') o).
  { intros e' He'. split; [by destruct Hc|by intros ? [=]]. }
  assert (Hraise : gsafe (raise e) l' t' (λ t' l' res, called l t messages manifest res t' l'
    ∧ ∀ o, res = Ok o → outcome_ok (call_request p messages) manifest (posts t') o)).
  { apply tsafe_raise, Hsame, Hc. }
  destruct e as [f [|]| | | | | | | | | |]; try exact Hraise. destruct previous as [o|]; [|exact Hraise].
  case_match; [|exact Hraise]. apply fail_spec. intros f' _. apply Hsame.
  eapply failed_settled, Hc.
Qed.

(** A manifest a call may be made with: the base, or one the guard passed. *)
Definition manifest_checked (manifest : option CallManifest) : Prop :=
  manifest = tk_base_manifest tk
  ∨ ∃ m, manifest = Some m
         ∧ verify_provenance_pre_send_guard markdown_parse m (tk_review_context tk)
             (tk_policy_snapshot tk) = Ok tt.

(** The result comes from the last request: its answer passed the validator and the checks against
    the manifest of that call, and all usage is in the ledger. *)
Definition from_provider (t : trace) (r : GatewayResult) : Prop :=
  ∃ p messages http response,
    served p ∧ last (posts t) = Some (call_request p messages, http)
    ∧ parse_response repr_value http p = Ok response
    ∧ validated response tk (gr_accepted_manifest r) = Ok (accepted (gr_output r))
    ∧ manifest_checked (gr_accepted_manifest r)
    ∧ gr_provider r = mo_provider p ∧ gr_usage r = ledgers t ∧ settled t.

(** The recoveries that are left. *)
Definition recoveries_left (s : LoopState) : nat :=
  (length (gp_timeout_retry_delays_s policy) - lp_timeouts s)
  + (length (gp_unavailable_retry_delays_s policy) - lp_unavailable s)
  + (if lp_rate_limit_waited s then 0 else 1) + (if lp_repaired s then 0 else 1).

Definition loop_ok (s : LoopState) (l : AttemptState) (t : trace) : Prop :=
  ready l t (lp_messages s) (lp_manifest s) ∧ manifest_checked (lp_manifest s)
  ∧ (tk_base_manifest tk = None → lp_manifest s = None).

(** The object and the history when nothing is owed. *)
Definition quiescent (l : AttemptState) (t : trace) : Prop :=
  as_usage l = ledgers t ∧ settled t ∧ ids_ok l t.

Definition turned (s : LoopState) (t : trace) (l : AttemptState) (res : result exc turn_end) : Prop :=
  match res with
  | Ok (Turn_return r) => from_provider t r ∧ as_usage l = ledgers t
  | Ok (Turn_break o s') =>
      quiescent l t ∧ oc_error o ≠ None ∧ (tk_base_manifest tk = None → lp_manifest s' = None)
  | Ok (Turn_again s') => loop_ok s' l t ∧ (recoveries_left s' < recoveries_left s)%nat
  | Err e => as_usage l = ledgers t ∧ or_arithmetic t (A := GatewayResult) (Err e)
  end.

Lemma quiescent_quiet l t ext : quiet ext → quiescent l t → quiescent l (t ++ ext).
Proof.
  intros He (Hu & Hs & Hi). split; [by rewrite ledgers_app, (quiet_ledgers ext), app_nil_r|].
  split; [|by apply ids_ok_app]. unfold settled in *.
  by rewrite completions_app, ledgers_app, (quiet_completions ext), (quiet_ledgers ext), !app_nil_r.
Qed.

Lemma quiescent_uuid l t u : quiescent l t → quiescent l (t ++ [Event Q_uuid4 u]).
Proof.
  intros (Hu & Hs & Hi). unfold quiescent, settled.
  rewrite completions_app, ledgers_app, (naming_completions [_]), (naming_ledgers [_]), !app_nil_r
    by (by constructor).
  split; [done|]. split; [done|by apply ids_ok_app].
Qed.

(** A call under a fresh identifier. *)
Lemma fresh_ready l t u messages m :
  quiescent l t → cm_call_id m = u → ready l (t ++ [Event Q_uuid4 u]) messages (Some m).
Proof.
  intros Hq Hid. destruct (quiescent_uuid l t u Hq) as (Hu' & Hs' & Hi'). destruct Hq as (Hu & Hs & Hi).
  split; [done|done|done| | |done].
  - intros _ x mid [= <-] Hm Hn. exfalso. rewrite Hid in Hm. apply manifest_of_In, Hi in Hm.
    rewrite uuids_app, app_assoc in Hn. apply NoDup_app in Hn as (_ & Hn & _).
    apply (Hn u Hm). apply list_elem_of_here.
  - intros x [= <-]. rewrite Hid, uuids_app, app_assoc. apply elem_of_app. right. apply list_elem_of_here.
Qed.

Lemma err_end l t e s : quiescent l t → turned s t l (Err e).
Proof. intros (Hu & Hs & _). split; [done|by left]. Qed.

Lemma plan_wait_next o s base jittered next :
  recovery_plan policy o s = Plan_wait base jittered next →
  lp_messages next = lp_messages s ∧ lp_manifest next = lp_manifest s
  ∧ (recoveries_left next < recoveries_left s)%nat.
Proof.
  unfold recovery_plan. destruct (oc_error o) as [[]|]; try done.
  - destruct (_ !! _) eqn:E; [|done]. intros [= _ _ <-]. apply lookup_lt_Some in E.
    split; [done|]. split; [done|]. unfold recoveries_left. cbn. lia.
  - destruct (lp_rate_limit_waited s) eqn:E; [done|].
    repeat case_match; intros; simplify_eq/=; (split; [done|]); (split; [done|]);
      unfold recoveries_left; cbn; rewrite E; lia.
  - destruct (oc_retryable o); [|done]. destruct (_ !! _) eqn:E; [|done]. intros [= _ _ <-].
    apply lookup_lt_Some in E. split; [done|]. split; [done|]. unfold recoveries_left. cbn. lia.
  - by case_match.
Qed.

Lemma plan_repair_left o s :
  recovery_plan policy o s = Plan_repair → lp_repaired s = false.
Proof.
  unfold recovery_plan. repeat case_match; try done. intros _. by destruct (lp_repaired s).
Qed.

Lemma ready_quiescent l t messages manifest : ready l t messages manifest → quiescent l t.
Proof. by intros [Hu Hs Hi _ _ _]. Qed.

Lemma ready_quiet l t messages manifest ext :
  quiet ext → ready l t messages manifest → ready l (t ++ ext) messages manifest.
Proof.
  intros He Hr. destruct (quiescent_quiet l t ext He (ready_quiescent _ _ _ _ Hr)) as (? & ? & ?).
  destruct Hr. split; [done..|by apply recorded_app|by apply manifest_named_app|done].
Qed.

Lemma prepare_retry_spec o s base jittered next l t :
  loop_ok s l t → oc_error o ≠ None → recovery_plan policy o s = Plan_wait base jittered next →
  gsafe (prepare_retry g tk c o s base jittered next) l t (λ t' l' res, turned s t' l' res).
Proof.
  intros (Hr & Hm & Hb) Ho Hplan. apply plan_wait_next in Hplan as (E1 & E2 & Hless).
  assert (Hnext : ∀ ext, quiet ext → loop_ok (as_retry next) l (t ++ ext)).
  { intros ext He. unfold loop_ok, as_retry. cbn [lp_messages lp_manifest]. rewrite E1, E2.
    split; [by apply ready_quiet|done]. }
  assert (Hbreak : ∀ ext, quiet ext → turned s (t ++ ext) l (Ok (Turn_break o next))).
  { intros ext He. split; [eapply quiescent_quiet, ready_quiescent; done|]. split; [done|]. by rewrite E2. }
  apply tsafe_bind.
  assert (Hgo : ∀ ext delay, quiet ext →
    gsafe (now ← ask Q_now;
           if short_of_time policy tk c (fsub (seconds_left c now) delay) then mret (Turn_break o next)
           else _ ← await (ask (Q_sleep delay)); mret (Turn_again (as_retry next))) l (t ++ ext)
      (λ t' l' res, turned s t' l' res)).
  { intros ext delay He. tasks Q_now; [done|]. intros now. rewrite <- app_assoc.
    assert (He' : quiet (ext ++ [Event Q_now now])) by (apply Forall_app; split; [done|by constructor]).
    tred. destruct (short_of_time _ _ _ _) eqn:E; [by apply tsafe_ret, Hbreak|].
    apply tsafe_bind, tsafe_bind, (ask_rule (Q_sleep delay)).
    { exists (t ++ ext), now. by rewrite <- app_assoc. }
    intros a. apply tsafe_lift. rewrite <- app_assoc.
    assert (He'' : quiet ((ext ++ [Event Q_now now]) ++ [Event (Q_sleep delay) a])).
    { apply Forall_app. split; [done|by constructor]. }
    destruct a as [[]|w]; cbn [map_err].
    - apply tsafe_ret. split; [by apply Hnext|]. done.
    - eapply err_end, quiescent_quiet, ready_quiescent; done. }
  destruct jittered.
  - tasks Q_jitter; [done|]. intros j. apply tsafe_ret. apply Hgo. by constructor.
  - apply tsafe_ret. rewrite <- (app_nil_r t). apply Hgo. constructor.
Qed.

Lemma prepare_repair_spec p o s l t :
  loop_ok s l t → oc_error o ≠ None → lp_repaired s = false →
  gsafe (prepare_repair markdown_parse g p tk c o s) l t (λ t' l' res, turned s t' l' res).
Proof.
  intros (Hr & Hm & Hb) Ho Hrep. pose proof (ready_quiescent _ _ _ _ Hr) as Hq.
  assert (Hless : ∀ messages m, (recoveries_left (as_repair messages m s) < recoveries_left s)%nat).
  { intros messages m. unfold recoveries_left. cbn. rewrite Hrep. lia. }
  unfold prepare_repair. destruct (repair_turn tk o (lp_messages s)) as [shown messages].
  apply tsafe_bind, tsafe_lift. destruct (fits_context _ _ _ _ _) as [fits|e]; [|by apply err_end].
  destruct fits; cbn [negb]; [|by apply tsafe_ret].
  destruct (tk_base_manifest tk) as [base|] eqn:Eb.
  - apply tsafe_bind, tsafe_lift. destruct (or_raise _ _) as [sha|e]; [|by apply err_end].
    tasks Q_uuid4; [done|]. intros u. tred. apply tsafe_bind, tsafe_lift.
    destruct (verify_provenance_pre_send_guard _ _ _ _) as [[]|e] eqn:Eg; cbn [map_err].
    + apply tsafe_ret. split; [|done]. split; [by apply fresh_ready|].
      split; [right; by eexists|]. by rewrite Eb.
    + by apply err_end, quiescent_uuid.
  - apply tsafe_ret. split; [|done]. rewrite (Hb eq_refl). destruct Hq as (Hu & Hs & Hi).
    split; [split; [done..| | |by rewrite Eb]|].
    + by intros _ ? ? [=].
    + by intros ? [=].
    + split; [|done]. left. by rewrite Eb.
Qed.

Lemma remember_spec key o source l t :
  gsafe (remember_review_result g key o source) l t (λ t' l' res, idle l t t' l').
Proof.
  unfold remember_review_result. destruct key as [k|]; [|apply idle_refl].
  destruct (gw_result_cache g); cbn [negb]; [|apply idle_refl].
  tasks (Q_cache_set k (review_result_entry o source)); [done|]. intros [[]|w]; tred.
  - by apply idle_snoc.
  - unfold swallow. destruct (caught w); by apply idle_snoc.
Qed.

Lemma called_ready l t messages manifest o t' l' :
  ready l t messages manifest → called l t messages manifest (Ok o) t' l' →
  ready l' t' messages manifest.
Proof.
  intros Hr [Hu [Hs|(_ & e & [=] & _)] Hi Hrec [ext ->]]. destruct Hr.
  split; [done..|by apply manifest_named_app|done].
Qed.

Lemma result_from_provider p messages out manifest l t :
  served p → manifest_checked manifest → quiescent l t →
  (∃ http response, last (posts t) = Some (call_request p messages, http)
     ∧ parse_response repr_value http p = Ok response
     ∧ validated response tk manifest = Ok (accepted out)) →
  from_provider t (result_of p out l manifest).
Proof.
  intros Hp Hm (Hu & Hs & _) (http & response & H1 & H2 & H3). exists p, messages, http, response.
  do 5 (split; [done|]). split; [done|]. by split.
Qed.

Lemma turn_spec a key limit s l t :
  0 ≤ tk_reserved_calls tk → loop_ok s l t →
  gsafe (turn repr_value urlsplit idna markdown_parse g primary tk c a key limit s) l t
    (λ t' l' res, turned s t' l' res).
Proof.
  intros Hres Hok. pose proof Hok as (Hr & Hm & Hb). apply tsafe_bind.
  tmono recovery_spec; [done|by left|done|]. intros t1 l1 [o|e] [Hc Hout].
  2: { split; [apply Hc|]. destruct (cl_settled _ _ _ _ _ _ _ Hc) as [H|(H & e' & [= <-] & Ha)];
         [by left|right; eauto]. }
  pose proof (called_ready _ _ _ _ _ _ _ Hr Hc) as Hr1. pose proof (ready_quiescent _ _ _ _ Hr1) as Hq1.
  destruct (Hout o eq_refl) as [Hacc Herr]. destruct (oc_output o) as [out|].
  - apply tsafe_bind, tsafe_own, tsafe_bind. tmono remember_spec.
    intros t2 l2 res2 [-> (ext & -> & He)].
    pose proof (quiescent_quiet l1 t1 ext He Hq1) as Hq2.
    destruct res2 as [[]|e]; [|by apply err_end]. apply tsafe_bind, tsafe_own, tsafe_ret.
    split; [|apply Hq2]. apply (result_from_provider primary (lp_messages s)); [by left|done|done|].
    destruct (Hacc out eq_refl) as (http & response & H1 & H2 & H3). exists http, response.
    split; [by rewrite posts_app, (quiet_posts ext), app_nil_r|done].
  - apply tsafe_bind, tsafe_lift. specialize (Herr eq_refl). rewrite bool_decide_eq_false_2 by done.
    cbn [raise_when]. apply tsafe_bind, tsafe_peek. intros sh _. tred.
    set (s1 := set_outcome o _ s).
    assert (Hok1 : loop_ok s1 l1 t1) by by split.
    assert (Hbreak : turned s t1 l1 (Ok (Turn_break o s1))) by by split.
    destruct (limit <=? calls_of a sh); [by apply tsafe_ret|].
    destruct (recovery_plan policy o s1) as [base jittered next| |] eqn:Ep; [..|by apply tsafe_ret].
    + by apply (prepare_retry_spec o s1 base jittered next).
    + apply plan_repair_left in Ep. by apply (prepare_repair_spec primary o s1).
Qed.

Lemma turns_spec a key limit fuel s l t :
  0 ≤ tk_reserved_calls tk → loop_ok s l t → (recoveries_left s < fuel)%nat →
  gsafe (turns repr_value urlsplit idna markdown_parse g fuel primary tk c a key limit s) l t
    (λ t' l' res, turned s t' l' res ∧ ∀ s', res ≠ Ok (Turn_again s')).
Proof.
  intros Hres. revert s l t. induction fuel as [|fuel IH]; intros s l t Hok Hf; [lia|].
  cbn [turns]. apply tsafe_bind. tmono turn_spec; [done..|].
  intros t1 l1 [[r|o s1|s1]|e] H1.
  - apply tsafe_ret. by split.
  - apply tsafe_ret. by split.
  - destruct H1 as [Hok1 Hless]. tmono IH; [done|lia|].
    intros t2 l2 res [H2 Hne]. split; [|done]. by destruct res as [[]|]; [..|by destruct (Hne s0)|].
  - by split.
Qed.

(** The result was cached: read under the key of this task, validated again, and checked against this
    run's manifest; nothing was sent. *)
Definition from_cache (t : trace) (r : GatewayResult) : Prop :=
  ∃ key d answer source,
    review_result_key (gw_result_cache g) tk c primary = Ok (Some key)
    ∧ Event (Q_cache_get key) (Ok (VDict d)) ∈ t
    ∧ stored_review_result d = Some (answer, source)
    ∧ tk_validate tk (plain_dumps (VDict answer)) = Ok (gr_output r)
    ∧ (∀ check, tk_check_answer tk = Some check →
         ∃ m, tk_base_manifest tk = Some m ∧ check (gr_output r) m = Ok [])
    ∧ gr_accepted_manifest r = tk_base_manifest tk ∧ gr_usage r = [] ∧ posts t = [].

Definition generated (t : trace) (l : AttemptState) (res : result exc GatewayResult) : Prop :=
  as_usage l = ledgers t ∧ or_arithmetic t res
  ∧ ∀ r, res = Ok r → from_cache t r ∨ from_provider t r.

Lemma quiescent_err l t e : quiescent l t → generated t l (Err e).
Proof. intros (Hu & Hs & _). split; [done|]. split; [by left|by intros ? [=]]. Qed.

Lemma raise_last_spec o hint l t :
  quiescent l t → gsafe (raise_last o hint) l t (λ t' l' res, generated t' l' res).
Proof.
  intros Hq. unfold raise_last. destruct (oc_error o).
  - apply tsafe_bind, tsafe_own, tsafe_raise. by apply quiescent_err.
  - apply tsafe_raise. by apply quiescent_err.
Qed.

Lemma fall_back_spec a limit o s l t :
  0 ≤ tk_reserved_calls tk → quiescent l t → (tk_base_manifest tk = None → lp_manifest s = None) →
  gsafe (fall_back repr_value urlsplit idna markdown_parse g fallback tk c a limit o s) l t
    (λ t' l' res, generated t' l' res).
Proof.
  intros Hres Hq Hb. unfold fall_back. apply tsafe_bind, tsafe_peek. intros sh _.
  destruct fallback as [f|] eqn:Ef; [|by apply raise_last_spec].
  destruct (limit <=? calls_of a sh); [by apply raise_last_spec|].
  apply tsafe_bind, tsafe_lift. destruct (fits_context _ _ _ _ _) as [fits|e]; [|by apply quiescent_err].
  destruct fits; cbn [negb]; [|by apply raise_last_spec].
  assert (Hcall : ∀ manifest l1 t1, ready l1 t1 (tk_messages tk) manifest → manifest_checked manifest →
    gsafe (o' ← recovery (call repr_value urlsplit idna g f Kind_fallback (tk_messages tk) tk c a manifest)
                  (Some o) tk;
           match oc_output o' with
           | Some out => state ← own; mret (result_of f out state manifest)
           | None => raise_last o' (longest_retry_after (lp_rate_limit_hint s) o')
           end) l1 t1 (λ t' l' res, generated t' l' res)).
  { intros manifest l1 t1 Hr Hm. apply tsafe_bind. tmono recovery_spec; [done|by right|done|].
    intros t2 l2 [o2|e] [Hc Hout].
    2: { split; [apply Hc|]. split; [|by intros ? [=]].
         destruct (cl_settled _ _ _ _ _ _ _ Hc) as [H|(H & e' & [= <-] & Ha)]; [by left|right; eauto]. }
    pose proof (ready_quiescent _ _ _ _ (called_ready _ _ _ _ _ _ _ Hr Hc)) as Hq2.
    destruct (Hout o2 eq_refl) as [Hacc _]. destruct (oc_output o2) as [out|]; [|by apply raise_last_spec].
    apply tsafe_bind, tsafe_own, tsafe_ret. split; [apply Hq2|]. split; [left; apply Hq2|].
    intros ? [= <-]. right. apply (result_from_provider f (tk_messages tk)); [by right|done|done|by apply Hacc]. }
  apply tsafe_bind. destruct (tk_base_manifest tk) as [base|] eqn:Eb.
  - tasks Q_uuid4; [done|]. intros u. tred. apply tsafe_bind, tsafe_lift.
    destruct (verify_provenance_pre_send_guard _ _ _ _) as [[]|e] eqn:Eg; cbn [map_err].
    + apply tsafe_ret, Hcall; [by apply fresh_ready|]. right. by eexists.
    + by apply quiescent_err, quiescent_uuid.
  - apply tsafe_ret. rewrite (Hb eq_refl). apply Hcall; [|left; by rewrite Eb].
    destruct Hq as (Hu & Hs & Hi).
    split; [done..|by intros _ ? ? [=]|by intros ? [=]|by rewrite Eb].
Qed.

Lemma ready_nil : ready (mkAttemptState 0 [] [] false) [] (tk_messages tk) (tk_base_manifest tk).
Proof.
  split; [done|done|by intros ? ? ?%elem_of_nil|done| |done].
  intros m Hm. unfold base_ids. rewrite Hm. apply list_elem_of_here.
Qed.

Lemma ready_cache_get l t messages manifest key a :
  ready l t messages manifest → ready l (t ++ [Event (Q_cache_get key) a]) messages manifest.
Proof.
  intros [Hu Hs Hi Hr Hn Hb].
  assert (E : completions [Event (Q_cache_get key) a] = [] ∧ ledgers [Event (Q_cache_get key) a] = [])
    by done. destruct E as [E1 E2].
  split; [by rewrite ledgers_app, E2, app_nil_r| |by apply ids_ok_app|by apply recorded_app
         |by apply manifest_named_app|done].
  unfold settled in *. by rewrite completions_app, ledgers_app, E1, E2, !app_nil_r.
Qed.

Lemma generate_uncached_spec a key l t :
  0 ≤ tk_reserved_calls tk → ready l t (tk_messages tk) (tk_base_manifest tk) →
  gsafe (generate_uncached repr_value urlsplit idna markdown_parse g tk c a key) l t
    (λ t' l' res, generated t' l' res).
Proof.
  intros Hres Hr. unfold generate_uncached.
  destruct (route_of (gw_settings g) (tk_route tk)) as [p f] eqn:Er.
  apply tsafe_bind, tsafe_peek. intros sh _. tred.
  destruct (max_calls - tk_reserved_calls tk <=? calls_of a sh).
  { apply fail_spec. intros ? _. by eapply quiescent_err, ready_quiescent. }
  apply tsafe_bind. replace p with primary by by rewrite Er. replace f with fallback by by rewrite Er.
  eapply tsafe_mono.
  { apply turns_spec; [done| |unfold recoveries_left, turn_fuel; cbn; lia].
    split; [exact Hr|]. split; [by left|done]. }
  intros t1 l1 [[r|o s|s]|e] [H1 Hne].
  - destruct H1 as [H1 Hu]. apply tsafe_ret. split; [done|].
    split; [left; by destruct H1 as (?&?&?&?&?&?&?&?&?&?&?&Hst)|]. intros ? [= <-]. by right.
  - destruct H1 as (Hq & _ & Hb). by apply fall_back_spec.
  - by destruct (Hne s).
  - destruct H1. split; [done|]. split; [done|by intros ? [=]].
Qed.

Lemma cached_passes o :
  cached_answer_passes tk o = Ok true → ∀ check, tk_check_answer tk = Some check →
  ∃ m, tk_base_manifest tk = Some m ∧ check o m = Ok [].
Proof.
  unfold cached_answer_passes. intros H check Hc. rewrite Hc in H.
  destruct (tk_base_manifest tk) as [m|]; [|done]. exists m. split; [done|].
  destruct (check o m) as [errors|e]; [|by destruct (is_exception e)].
  injection H as H. apply bool_decide_eq_true in H. by rewrite H.
Qed.

Lemma cached_spec key l t :
  review_result_key (gw_result_cache g) tk c primary = Ok (Some key) → posts t = [] →
  ready l t (tk_messages tk) (tk_base_manifest tk) →
  gsafe (cached_review_result tk c primary key) l t (λ t' l' res,
    l' = l ∧ ready l t' (tk_messages tk) (tk_base_manifest tk)
    ∧ ∀ r, res = Ok (Some r) → from_cache t' r).
Proof.
  intros Hkey Hposts Hr. tasks (Q_cache_get key); [done|]. intros stored.
  pose proof (ready_cache_get _ _ _ _ key stored Hr) as Hr1.
  set (t1 := t ++ [Event (Q_cache_get key) stored]).
  assert (Hnone : ∀ x : result exc (option GatewayResult), (∀ r, x ≠ Ok (Some r)) →
    l = l ∧ ready l t1 (tk_messages tk) (tk_base_manifest tk) ∧ ∀ r, x = Ok (Some r) → from_cache t1 r).
  { intros x Hx. split; [done|]. split; [done|]. intros r E. by destruct (Hx r). }
  destruct stored as [v|w]; [|unfold swallow; destruct (caught w); by apply Hnone].
  destruct v as [| | | | | |d]; try by apply Hnone.
  destruct (stored_review_result d) as [[ans source]|] eqn:Es; [|by apply Hnone].
  destruct (tk_validate tk _) as [o|e] eqn:Ev; [|destruct (is_exception e); by apply Hnone].
  apply tsafe_bind, tsafe_lift. destruct (cached_answer_passes tk o) as [b|e] eqn:Ep; [|by apply Hnone].
  destruct b; cbn [negb]; [|by apply Hnone].
  tasks Q_now; [done|]. intros now. set (t2 := t1 ++ [Event Q_now now]).
  tasks (Q_record_hit (cx_run_id c) (tk_operation tk) now source); [done|]. intros hit.
  set (t3 := t2 ++ [_]).
  assert (Hr3 : ready l t3 (tk_messages tk) (tk_base_manifest tk)).
  { subst t3 t2. do 2 (apply ready_quiet; [by repeat constructor|]). done. }
  apply tsafe_bind.
  assert (Hend : ∀ r, r = mkGatewayResult o (mo_provider primary) (mo_model primary) [] 0
      (rs_call_id source) (tk_base_manifest tk) (rs_manifest_id source) → from_cache t3 r).
  { intros r ->. exists key, d, ans, source. split; [done|]. split.
    - subst t3 t2 t1. rewrite <- !app_assoc. apply elem_of_app. right. apply list_elem_of_here.
    - split; [done|]. split; [done|]. split; [by apply cached_passes|]. split; [done|]. split; [done|].
      subst t3 t2 t1. by rewrite !posts_app, Hposts. }
  destruct hit as [[]|w]; [|unfold swallow; destruct (caught w)].
  - apply tsafe_ret, tsafe_ret. split; [done|]. split; [done|]. intros r [= <-]. by apply Hend.
  - apply tsafe_ret, tsafe_ret. split; [done|]. split; [done|]. intros r [= <-]. by apply Hend.
  - apply tsafe_raise. split; [done|]. split; [done|by intros ? [=]].
Qed.

Lemma track_attempt_capped s : calls_capped s → calls_capped (track_attempt c s).
Proof.
  intros H. unfold calls_capped, track_attempt. cbn [sh_counters]. case_match; [done|].
  apply Forall_app. split; [done|]. constructor; [cbn; lia|constructor].
Qed.

Lemma generate_spec :
  0 ≤ tk_reserved_calls tk →
  safe calls_capped allowed (λ t lr, generated t (fst lr) (snd lr))
    (generate_task repr_value urlsplit idna markdown_parse g tk c) [].
Proof.
  intros Hres. apply tsafe_bind, tsafe_shared. intros s Hs. split; [by apply track_attempt_capped|]. tred.
  pose proof ready_nil as Hr. set (l := mkAttemptState 0 [] [] false) in *.
  apply tsafe_bind. tmono checkpoint_spec. intros t1 l1 res1 [[-> (e1 & -> & He1)] _].
  apply (ready_quiet _ _ _ _ e1 He1) in Hr.
  assert (Hp1 : posts ([] ++ e1) = []) by by apply quiet_posts.
  destruct res1 as [[]|e]; [|by eapply quiescent_err, ready_quiescent].
  apply tsafe_bind, tsafe_lift.
  destruct (review_result_key _ _ _ _) as [key|e] eqn:Ek; [|by eapply quiescent_err, ready_quiescent].
  apply tsafe_bind. destruct key as [key|].
  - tmono cached_spec; [done..|]. intros t2 l2 res2 (-> & Hr2 & Hc).
    destruct res2 as [[r|]|e]; [| |by eapply quiescent_err, ready_quiescent].
    + apply tsafe_ret. split; [apply Hr2|]. split; [left; apply Hr2|].
      intros ? [= <-]. left. by apply Hc.
    + by apply generate_uncached_spec.
  - apply tsafe_ret. by apply generate_uncached_spec.
Qed.
End Spec.
