(* ===== verification/LlmCalls.v ===== *)
(** * Counting the calls of an attempt

    A program logic for what a slot of an attempt pays for.  The tokens of the shared state are the
    pairs of a run and a call number that its counter has given out; a coroutine may send requests and
    trace a call only out of a token it was given, at most one request for each key of a profile and
    one trace for each token.  [paid_pool] adds this up over all coroutines, in every interleaving. *)

From Stdlib Require Import String SpecFloat.
From stdpp Require Import numbers gmap list relations.
From S2P Require Import Prelude PyText PyHash PyFloat PyDecimal PyValue Effects DiffMap RunFailures.
From S2P Require Import RunStore ReviewIgnore PolicySnapshots PromptRender PromptBudget Manifests.
From S2P Require Import Llm LlmSettings LlmTransport LlmTasks LlmGateway LlmHistory.
#[local] Open Scope Z_scope.

(** A call of a run, by its number. *)
Abbreviation call_token := (UUID * Z)%type.

Definition request_event (e : event answer) : bool :=
  match ev_query e with Q_post _ _ _ => true | _ => false end.
(** The requests sent, answered or not. *)
Definition requests (t : trace) : nat := length (List.filter request_event t).

Definition traced_call (e : event answer) : option call_token :=
  match ev_query e with Q_record_call run_id r => Some (run_id, cr_call_no r) | _ => None end.
Definition traced_calls (t : trace) : list call_token := omap traced_call t.

Lemma requests_snoc t e : requests (t ++ [e]) = (requests t + if request_event e then 1 else 0)%nat.
Proof. unfold requests. rewrite List.filter_app, length_app. cbn. by destruct (request_event e). Qed.

Lemma traced_calls_snoc t e : traced_calls (t ++ [e]) = traced_calls t ++ option_list (traced_call e).
Proof. unfold traced_calls. rewrite omap_app. cbn. by destruct (traced_call e). Qed.

(** The tokens given out so far: the numbers up to each counter of the table. *)
Definition given_tokens (s : Shared) : list call_token :=
  flat_map (λ e, (λ n, (fst e, n)) <$> seqZ 1 (calls_of (snd e) s)) (sh_attempts s).

(** A counter of the table is kept under its run. *)
Definition rely (s s' : Shared) : Prop :=
  ∀ run_id a, attempt_entry run_id (sh_attempts s) = Some a →
    attempt_entry run_id (sh_attempts s') = Some a.

Lemma rely_refl s : rely s s.
Proof. by intros run_id a. Qed.

Lemma rely_trans s1 s2 s3 : rely s1 s2 → rely s2 s3 → rely s1 s3.
Proof. intros H1 H2 run_id a H. by apply H2, H1. Qed.
#[local] Hint Resolve rely_refl : core.

Section Paid.
Context (I : Shared → Prop) (keys : nat) (run : UUID).

(** [paid s0 n r p Φ]: from a state [rely]-after [s0], with [n] requests and the trace of [r] left. *)
Fixpoint paid {A} (s0 : Shared) (n : nat) (r : option call_token) (p : prog Shared answer A)
    (Φ : Shared → nat → option call_token → A → Prop) : Prop :=
  match p with
  | Ret a => Φ s0 n r a
  | Local f k => ∀ s, I s → rely s0 s → I (f s) ∧ rely s (f s)
      ∧ (given_tokens (f s) ≡ₚ given_tokens s ∧ paid (f s) n r (k s) Φ
         ∨ ∃ no, given_tokens (f s) ≡ₚ given_tokens s ++ [(run, no)] ∧ paid (f s) keys (Some (run, no)) (k s) Φ)
  | Ask q k =>
      match q return (answer q → prog Shared answer A) → Prop with
      | Q_post _ _ _ => λ k, ∃ n', n = S n' ∧ ∀ x, paid s0 n' r (k x) Φ
      | Q_record_call run_id rec => λ k, r = Some (run_id, cr_call_no rec) ∧ ∀ x, paid s0 n None (k x) Φ
      | _ => λ k, ∀ x, paid s0 n r (k x) Φ
      end k
  end.

Lemma paid_mono {A} (p : prog Shared answer A) : ∀ s0 n r Φ Ψ,
  paid s0 n r p Φ → (∀ s n' r' a, Φ s n' r' a → Ψ s n' r' a) → paid s0 n r p Ψ.
Proof.
  induction p as [a|f k IH|q k IH]; intros s0 n r Φ Ψ H HΦ; cbn in *; [by apply HΦ| |].
  - intros s Hs Hr. destruct (H s Hs Hr) as (? & ? & [[? ?]|(no & ? & ?)]); (do 2 (split; [done|]));
      [left|right; exists no]; (split; [done|]); by eapply IH.
  - destruct q; try (intros x; by eapply IH).
    + destruct H as [-> H]. split; [done|]. intros x. by eapply IH.
    + destruct H as (n' & -> & H). exists n'. split; [done|]. intros x. by eapply IH.
Qed.

Lemma paid_bind {A B} (f : A → prog Shared answer B) (p : prog Shared answer A) : ∀ s0 n r Φ,
  paid s0 n r p (λ s n' r' a, paid s n' r' (f a) Φ) → paid s0 n r (prog_bind f p) Φ.
Proof.
  induction p as [a|g k IH|q k IH]; intros s0 n r Φ H; cbn in *; [done| |].
  - intros s Hs Hr. destruct (H s Hs Hr) as (? & ? & [[? ?]|(no & ? & ?)]); (do 2 (split; [done|]));
      [left|right; exists no]; (split; [done|]); by apply IH.
  - destruct q; try (intros x; by apply IH).
    + destruct H as [-> H]. split; [done|]. intros x. by apply IH.
    + destruct H as (n' & -> & H). exists n'. split; [done|]. intros x. by apply IH.
Qed.

(** What a coroutine has been given: tokens of its run that cover its requests and traced calls. *)
Definition covered (n : nat) (r : option call_token) (t : trace) (h : list call_token) : Prop :=
  Forall (λ tok, fst tok = run) h ∧ traced_calls t ++ option_list r ⊆+ h
  ∧ (requests t + n ≤ keys * length h)%nat.

Definition holding {A} (s : Shared) (p : prog Shared answer A) (t : trace) (h : list call_token) : Prop :=
  ∃ s0 n r, rely s0 s ∧ paid s0 n r p (λ _ _ _ _, True) ∧ covered n r t h.

Lemma holding_rely {A} s s' (p : prog Shared answer A) t h :
  rely s s' → holding s p t h → holding s' p t h.
Proof. intros Hr (s0 & n & r & H & ?). exists s0, n, r. split; [by eapply rely_trans|done]. Qed.

(** A step of a coroutine uses what it holds, or gets one more token. *)
Lemma holding_step {A} s (p : prog Shared answer A) t h s' p' t' :
  step s p t s' p' t' → I s → holding s p t h →
  I s' ∧ rely s s' ∧ ∃ new, given_tokens s' ≡ₚ given_tokens s ++ new ∧ holding s' p' t' (h ++ new).
Proof.
  destruct 1 as [s f k t|s q k t x]; intros Hs (s0 & n & r & Hrel & Hp & Hown & Hsub & Hreq); cbn in Hp.
  - destruct (Hp s Hs Hrel) as (? & ? & [[Ht Hk]|(no & Ht & Hk)]); (do 2 (split; [done|])).
    + exists []. rewrite !app_nil_r. split; [done|]. by exists (f s), n, r.
    + exists [(run, no)]. split; [done|]. exists (f s), keys, (Some (run, no)).
      split; [done|]. split; [done|]. split_and!.
      * apply Forall_app. split; [done|]. by constructor.
      * apply submseteq_app; [|done]. etransitivity; [|exact Hsub]. apply submseteq_inserts_r. done.
      * rewrite length_app. cbn. lia.
  - split; [done|]. split; [done|]. exists []. rewrite !app_nil_r. split; [done|].
    unfold holding, covered. rewrite requests_snoc, traced_calls_snoc.
    destruct q; cbn [request_event traced_call ev_query option_list];
      try (exists s0, n, r; split_and!; [done|apply Hp|done|by rewrite app_nil_r|lia]).
    + destruct Hp as [-> Hp]. exists s0, n, None. split_and!; [done|apply Hp|done|cbn; by rewrite app_nil_r|lia].
    + destruct Hp as (n' & -> & Hp). exists s0, n', r. split_and!; [done|apply Hp|done|by rewrite app_nil_r|lia].
Qed.
End Paid.

(** In every interleaving the tokens given out are those the coroutines hold. *)
Lemma paid_pool {A} (I : Shared → Prop) (keys : nat) (runs : nat → UUID) s ps
    (c : pool Shared answer A) :
  I s → given_tokens s = [] → (∀ i p, ps !! i = Some p → paid I keys (runs i) s 0 None p (λ _ _ _ _, True)) →
  rtc pool_step (pool_start s ps) c →
  I (pl_state c) ∧ ∃ hs, given_tokens (pl_state c) ≡ₚ concat hs ∧ length hs = length (pl_tasks c)
    ∧ ∀ i p t h, pl_tasks c !! i = Some (p, t) → hs !! i = Some h →
        holding I keys (runs i) (pl_state c) p t h.
Proof.
  intros Hs Ht Hps Hc.
  set (Inv := λ c : pool Shared answer A, I (pl_state c) ∧ ∃ hs, given_tokens (pl_state c) ≡ₚ concat hs
    ∧ length hs = length (pl_tasks c) ∧ ∀ i p t h, pl_tasks c !! i = Some (p, t) → hs !! i = Some h →
        holding I keys (runs i) (pl_state c) p t h).
  assert (H0 : Inv (pool_start s ps)).
  { split; [done|]. exists (replicate (length ps) []). cbn [pool_start pl_state pl_tasks]. split_and!.
    - rewrite Ht. clear. induction (length ps) as [|n IH]; [done|exact IH].
    - by rewrite length_replicate, length_fmap.
    - intros i p t h Hi [-> _]%lookup_replicate. rewrite list_lookup_fmap in Hi.
      destruct (ps !! i) as [p'|] eqn:E; [|done]. injection Hi as -> <-.
      exists s, 0%nat, None. split_and!; [done|by apply Hps|]. split_and!; [constructor|done|cbn; lia]. }
  change (Inv c). revert H0. induction Hc as [|c1 c2 c3 H12 _ IH]; [done|]. intros H1. apply IH.
  clear IH. destruct H12 as [s1 s2 tasks i p t p' t' Hi Hstep].
  destruct H1 as (Hs1 & hs & Htok & Hlen & Hh). cbn [pl_state pl_tasks] in *.
  destruct (lookup_lt_is_Some_2 hs i) as [h Hhi]; [rewrite Hlen; by eapply lookup_lt_Some|].
  destruct (holding_step _ _ _ _ _ _ _ _ _ _ Hstep Hs1 (Hh _ _ _ _ Hi Hhi))
    as (Hs2 & Hrel & new & Hnew & Hhold).
  split; [done|]. exists (<[i := h ++ new]> hs). cbn [pl_state pl_tasks]. split_and!.
  - rewrite Hnew, Htok. rewrite <- (take_drop_middle hs i h Hhi) at 1.
    rewrite insert_take_drop by (by eapply lookup_lt_Some).
    rewrite !concat_app. cbn [concat]. solve_Permutation.
  - by rewrite !length_insert.
  - intros j p1 t1 h1 Hj Hhj. destruct (decide (j = i)) as [->|Hne].
    + rewrite list_lookup_insert_eq in Hj by (by eapply lookup_lt_Some).
      rewrite list_lookup_insert_eq in Hhj by (by eapply lookup_lt_Some). by simplify_eq.
    + rewrite list_lookup_insert_ne in Hj by done. rewrite list_lookup_insert_ne in Hhj by done.
      eapply holding_rely; [exact Hrel|]. by eapply Hh.
Qed.

(** ** The table of attempts *)

Lemma attempt_entry_elem run_id a l :
  NoDup (fst <$> l) → attempt_entry run_id l = Some a ↔ (run_id, a) ∈ l.
Proof.
  induction l as [|[r b] l IH]; cbn; [split; [done|by intros ?%elem_of_nil]|].
  intros [Hn Hl]%NoDup_cons. rewrite elem_of_cons. destruct (r =? run_id)%N eqn:E; to_prop.
  - subst r. split; [intros [= ->]; by left|]. intros [[= ->]|Hin]; [done|].
    destruct Hn. by apply (list_elem_of_fmap_2 fst) in Hin.
  - rewrite IH by done. split; [intros ?; by right|]. intros [[= -> ->]|?]; done.
Qed.

Lemma flat_map_ext_elem {A B} (f f' : A → list B) l :
  (∀ x, x ∈ l → f x = f' x) → flat_map f l = flat_map f' l.
Proof.
  induction l as [|x l IH]; intros H; [done|]. cbn. rewrite H by (by left). f_equal.
  apply IH. intros y Hy. apply H. by right.
Qed.

Section Table.
Context (attempt_of : UUID → Z) (known : list UUID) (limit : Z).

(** Each known run has one entry at most, with a counter of its own and of its attempt. *)
Definition table_ok (s : Shared) : Prop :=
  NoDup (fst <$> sh_attempts s) ∧ NoDup (snd <$> sh_attempts s)
  ∧ ∀ run_id a, (run_id, a) ∈ sh_attempts s → run_id ∈ known
      ∧ ∃ k, sh_counters s !! a = Some k ∧ ac_attempt k = attempt_of run_id
             ∧ 0 ≤ ac_calls k ≤ Z.max 0 limit.

Lemma tokens_nodup s : table_ok s → NoDup (given_tokens s).
Proof.
  intros (Hn & _ & _). unfold given_tokens. induction (sh_attempts s) as [|[r a] l IH]; [constructor|].
  cbn in *. apply NoDup_cons in Hn as [Hr Hl]. apply NoDup_app. split_and!; [|..|by apply IH].
  - apply NoDup_fmap_2; [by intros ? ? [=]|apply NoDup_seqZ].
  - intros tok (n & -> & _)%list_elem_of_fmap Hin. apply Hr.
    apply list_elem_of_In, in_flat_map in Hin as ([r' a'] & Hin & Htok).
    apply list_elem_of_In, list_elem_of_fmap in Htok as (n' & [= -> _] & _).
    apply list_elem_of_In in Hin. by apply (list_elem_of_fmap_2 fst) in Hin.
Qed.

Lemma tokens_bounded s run_id n : table_ok s → (run_id, n) ∈ given_tokens s → 1 ≤ n ≤ limit.
Proof.
  intros (_ & _ & H). unfold given_tokens. intros ([r a] & Hin & Htok)%list_elem_of_In%in_flat_map.
  apply list_elem_of_In, list_elem_of_fmap in Htok as (n' & [= -> ->] & Hn).
  apply elem_of_seqZ in Hn. apply list_elem_of_In, H in Hin as (_ & k & Hk & _ & Hb).
  cbn in Hn. unfold calls_of in Hn. rewrite Hk in Hn. lia.
Qed.

(** Counting a call gives out the next number of the run. *)
Lemma count_call_gives s run_id a :
  table_ok s → attempt_entry run_id (sh_attempts s) = Some a → calls_of a s < limit →
  table_ok (count_call a s) ∧ rely s (count_call a s)
  ∧ given_tokens (count_call a s) ≡ₚ given_tokens s ++ [(run_id, calls_of a s + 1)].
Proof.
  intros Hok Hin Hlt. pose proof Hok as (Hn & Hm & Hall). apply attempt_entry_elem in Hin; [|done].
  destruct (Hall _ _ Hin) as (_ & k & Hk & _ & Hb).
  assert (Hcalls : calls_of a s = ac_calls k) by (unfold calls_of; by rewrite Hk).
  assert (Hsame : ∀ b, b ≠ a → calls_of b (count_call a s) = calls_of b s).
  { intros b Hne. unfold calls_of, count_call. cbn. by rewrite list_lookup_alter_ne. }
  assert (Hinc : calls_of a (count_call a s) = calls_of a s + 1).
  { unfold calls_of, count_call. cbn. by rewrite list_lookup_alter_eq, Hk. }
  split; [|split; [by intros ? ? ?|]].
  - split; [done|]. split; [done|]. intros r b Hr. destruct (Hall r b Hr) as (Hkn & kb & Hkb & Hat & Hc).
    split; [done|]. cbn [count_call sh_counters sh_attempts] in *. destruct (decide (b = a)) as [->|Hne].
    + eexists. rewrite list_lookup_alter_eq, Hkb. split; [done|]. simplify_eq. cbn. split; [done|lia].
    + rewrite list_lookup_alter_ne by done. eauto.
  - unfold given_tokens. cbn [count_call sh_attempts]. fold (count_call a s).
    apply list_elem_of_split in Hin as (l1 & l2 & Hs). rewrite Hs in *.
    assert (Hother : ∀ e, e ∈ l1 ++ l2 → calls_of (snd e) (count_call a s) = calls_of (snd e) s).
    { intros e He. apply Hsame. intros Hea. rewrite fmap_app, fmap_cons in Hm.
      rewrite <- Permutation_middle in Hm. apply NoDup_cons in Hm as [Hm _]. apply Hm. cbn.
      rewrite <- fmap_app, <- Hea. by apply list_elem_of_fmap_2. }
    rewrite <- !Permutation_middle. cbn [flat_map fst snd]. rewrite Hinc.
    rewrite (flat_map_ext_elem _ (λ e, (λ n, (fst e, n)) <$> seqZ 1 (calls_of (snd e) s)) (l1 ++ l2))
      by (intros e He; by rewrite Hother).
    rewrite seqZ_app, (seqZ_cons _ 1), (seqZ_nil _ (Z.pred 1)), fmap_app by lia.
    replace (1 + calls_of a s) with (calls_of a s + 1) by lia. cbn [fmap list_fmap]. solve_Permutation.
Qed.

Lemma attempt_entry_cases run_id s :
  table_ok s →
  match attempt_entry run_id (sh_attempts s) with
  | Some a => (run_id, a) ∈ sh_attempts s
  | None => run_id ∉ (fst <$> sh_attempts s)
  end.
Proof.
  intros (Hn & _ & _). destruct (attempt_entry _ _) as [a|] eqn:E; [by apply attempt_entry_elem in E|].
  intros ([r a] & -> & Hin)%list_elem_of_fmap. apply attempt_entry_elem in Hin; [|done]. cbn in E. congruence.
Qed.

Context (c : RunCallContext) (Hknown : cx_run_id c ∈ known) (Hattempt : cx_attempt c = attempt_of (cx_run_id c)).
Context (Htracked : (length (remove_dups known) ≤ TRACKED_RUNS)%nat).
#[local] Set Default Proof Using "Type*".

Lemma current_counter_entry s :
  table_ok s → current_counter c s = attempt_entry (cx_run_id c) (sh_attempts s).
Proof using Hattempt.
  intros Hok. pose proof (attempt_entry_cases (cx_run_id c) s Hok) as Hc. unfold current_counter.
  destruct (attempt_entry _ _) as [a|]; [|done]. cbn. destruct Hok as (_ & _ & H).
  destruct (H _ _ Hc) as (_ & k & Hk & Hat & _). rewrite Hk. cbn. by rewrite Hat, <- Hattempt, Z.eqb_refl.
Qed.

(** The table has room for every known run. *)
Lemma table_room s : table_ok s → (length (sh_attempts s) ≤ length (remove_dups known))%nat.
Proof using Type.
  intros (Hn & _ & H). rewrite <- (length_fmap fst). apply submseteq_length, NoDup_submseteq; [done|].
  intros r ([r' a] & -> & Hin)%list_elem_of_fmap. apply elem_of_remove_dups. by destruct (H _ _ Hin).
Qed.

Abbreviation others s := (List.filter (λ e, negb (fst e =? cx_run_id c)%N) (sh_attempts s)).

Lemma others_entry s a :
  table_ok s → attempt_entry (cx_run_id c) (sh_attempts s) = Some a →
  others s ++ [(cx_run_id c, a)] ≡ₚ sh_attempts s.
Proof using Type.
  intros (Hn & _ & _) Ha. apply attempt_entry_elem in Ha; [|done].
  apply list_elem_of_split in Ha as (l1 & l2 & Hs). rewrite Hs in *. rewrite fmap_app, fmap_cons, <- Permutation_middle in Hn.
  apply NoDup_cons in Hn as [Hn _]. rewrite <- fmap_app in Hn. cbn in Hn.
  assert (Hall : ∀ l, l ⊆ l1 ++ l2 → List.filter (λ e, negb (fst e =? cx_run_id c)%N) l = l).
  { intros l Hl. apply forallb_filter_id, forallb_forall. intros [r b] Hin. apply negb_true_iff, N.eqb_neq.
    cbn. intros ->. apply Hn. apply list_elem_of_In, Hl in Hin. by apply (list_elem_of_fmap_2 fst) in Hin. }
  rewrite List.filter_app. cbn [List.filter fst]. rewrite N.eqb_refl. cbn [negb].
  rewrite !Hall by (intros x Hx; apply elem_of_app; auto). solve_Permutation.
Qed.

Lemma others_absent s :
  table_ok s → attempt_entry (cx_run_id c) (sh_attempts s) = None → others s = sh_attempts s.
Proof using Type.
  intros Hok Ha. pose proof (attempt_entry_cases (cx_run_id c) s Hok) as Hc. rewrite Ha in Hc.
  apply forallb_filter_id, forallb_forall. intros [r b] Hin. apply negb_true_iff, N.eqb_neq. cbn. intros ->.
  apply Hc. apply list_elem_of_In in Hin. by apply (list_elem_of_fmap_2 fst) in Hin.
Qed.

(** A table of known runs is never cut. *)
Lemma track_table s l counters :
  table_ok (mkShared counters l (sh_current_key s)) →
  drop (length l - TRACKED_RUNS) l = l.
Proof.
  intros H%table_room. cbn [sh_attempts] in H. by replace (length l - TRACKED_RUNS)%nat with 0%nat by lia.
Qed.

Lemma table_ok_perm counters l l' k k' :
  l ≡ₚ l' → table_ok (mkShared counters l k) → table_ok (mkShared counters l' k').
Proof using Type. intros Hp (H1 & H2 & H3). unfold table_ok. cbn in *. by setoid_rewrite <- Hp. Qed.

Lemma rely_elem s s' :
  table_ok s → table_ok s' → sh_attempts s ⊆ sh_attempts s' → rely s s'.
Proof using Type.
  intros (H1 & _) (H2 & _) Hs r a Ha. apply attempt_entry_elem in Ha; [|done].
  apply attempt_entry_elem; [done|by apply Hs].
Qed.

Lemma track_attempt_keeps s :
  table_ok s →
  table_ok (track_attempt c s) ∧ rely s (track_attempt c s) ∧ given_tokens (track_attempt c s) ≡ₚ given_tokens s
  ∧ attempt_entry (cx_run_id c) (sh_attempts (track_attempt c s)) = Some (counter_ref c s).
Proof.
  intros Hok. unfold track_attempt, counter_ref. rewrite (current_counter_entry s Hok).
  destruct (attempt_entry (cx_run_id c) (sh_attempts s)) as [a|] eqn:Ha; cbn [default from_option id].
  - pose proof (others_entry s a Hok Ha) as Hp.
    assert (Hok' : table_ok (mkShared (sh_counters s) (others s ++ [(cx_run_id c, a)]) (sh_current_key s))).
    { eapply (table_ok_perm _ _ _ (sh_current_key s)); [symmetry; exact Hp|]. by destruct s. }
    rewrite (track_table s _ _ Hok'). split; [done|]. split; [|split].
    + apply rely_elem; [done..|]. cbn. by rewrite Hp.
    + unfold given_tokens. cbn [sh_attempts]. by rewrite Hp.
    + apply attempt_entry_elem; [apply Hok'|]. cbn. apply elem_of_app. right. by left.
  - rewrite (others_absent s Hok Ha).
    pose proof (attempt_entry_cases (cx_run_id c) s Hok) as Hno. rewrite Ha in Hno.
    pose proof Hok as (H1 & H2 & H3).
    assert (Hlt : ∀ r a, (r, a) ∈ sh_attempts s → (a < length (sh_counters s))%nat).
    { intros r b Hin. destruct (H3 _ _ Hin) as (_ & k & Hk & _). by eapply lookup_lt_Some. }
    set (s' := mkShared (sh_counters s ++ [mkAttemptCalls (cx_attempt c) 0])
                 (sh_attempts s ++ [(cx_run_id c, length (sh_counters s))]) (sh_current_key s)).
    assert (Hok' : table_ok s').
    { unfold table_ok. cbn [s' sh_attempts sh_counters]. rewrite !fmap_app. split_and!.
      - apply NoDup_app. split_and!; [done| |apply NoDup_singleton]. by intros r Hr ->%list_elem_of_singleton.
      - apply NoDup_app. split_and!; [done| |apply NoDup_singleton].
        intros b ([r b'] & -> & Hin)%list_elem_of_fmap Heq%list_elem_of_singleton. apply Hlt in Hin. cbn in Heq. lia.
      - intros r b [Hin|[= -> ->]%list_elem_of_singleton]%elem_of_app.
        + destruct (H3 _ _ Hin) as (? & k & Hk & ?). split; [done|]. exists k.
          split; [by apply lookup_app_l_Some|done].
        + split; [done|]. eexists. rewrite lookup_app_r, Nat.sub_diag by lia. split; [done|].
          cbn [ac_attempt ac_calls]. split; [done|lia]. }
    change (mkShared _ (drop _ _) _) with
      (mkShared (sh_counters s') (drop (length (sh_attempts s') - TRACKED_RUNS) (sh_attempts s')) (sh_current_key s)).
    rewrite (track_table s _ (sh_counters s')) by done. split; [done|]. split; [|split].
    + apply rely_elem; [done..|]. cbn. set_solver.
    + unfold given_tokens. cbn [s' sh_attempts]. rewrite flat_map_app. cbn [flat_map fst snd].
      unfold calls_of at 2. cbn [sh_counters s']. rewrite lookup_app_r, Nat.sub_diag by lia. cbn. rewrite app_nil_r.
      rewrite (flat_map_ext_elem _ (λ e, (λ n, (fst e, n)) <$> seqZ 1 (calls_of (snd e) s))); [done|].
      intros [r b] Hin. unfold calls_of. cbn. by rewrite lookup_app_l by (by eapply Hlt).
    + apply attempt_entry_elem; [apply Hok'|]. cbn. apply elem_of_app. right. by left.
Qed.
End Table.

(** ** The gateway *)

Section Gateway.
Context (repr_value : pyval → pystr).
Context (urlsplit : pystr → option UrlParts) (idna : pystr → option pystr).
Context (markdown_parse : pystr → list MdToken).
Context (g : GatewayConfig) (tk : StructuredTask) (c : RunCallContext) (keys : nat).
Context (attempt_of : UUID → Z) (known : list UUID).

Abbreviation policy := (st_policy (gw_settings g)).
Abbreviation max_calls := (gp_max_calls_per_attempt policy).
Abbreviation table := (table_ok attempt_of known max_calls).
Abbreviation pays := (paid table keys (cx_run_id c)).
Abbreviation entered a s := (attempt_entry (cx_run_id c) (sh_attempts s) = Some a).

(** [silent]: no request, no trace, no slot.  [sends]: requests only, out of [n].  [settles]: an
    exception may have used up anything.  [spends]: whatever is left is left. *)
Definition silent {A} (m : G A) : Prop := ∀ l s0 n r Φ,
  (∀ s l' res, rely s0 s → Φ s n r (l', res)) → pays s0 n r (m l) Φ.
Definition sends {A} (n : nat) (m : G A) : Prop := ∀ l s0 r Φ,
  (∀ s n' l' res, rely s0 s → Φ s n' r (l', res)) → pays s0 n r (m l) Φ.
Definition settles {A} (a : nat) (n : nat) (r : option call_token) (m : G A) (P : A → Prop) : Prop :=
  ∀ l s0 Φ, entered a s0 → (∀ s l' x, rely s0 s → P x → Φ s n r (l', Ok x)) → (∀ s n' r' l' e, rely s0 s → Φ s n' r' (l', Err e)) →
  pays s0 n r (m l) Φ.
Definition spends {A} (a : nat) (n : nat) (r : option call_token) (m : G A) : Prop := ∀ l s0 Φ,
  entered a s0 → (∀ s n' r' l' res, rely s0 s → Φ s n' r' (l', res)) → pays s0 n r (m l) Φ.

Lemma silent_pure {A} (m : G A) : (∀ l, ∃ l' res, m l = Ret (l', res)) → silent m.
Proof. intros H l s0 n r Φ HΦ. destruct (H l) as (l' & res & ->). cbn. by apply HΦ. Qed.

Lemma silent_ret {A} (x : A) : silent (mret x).
Proof. apply silent_pure. intros l. by eexists _, _. Qed.
Lemma silent_raise {A} e : silent (raise e : G A).
Proof. apply silent_pure. intros l. by eexists _, _. Qed.
Lemma silent_lift {A} (x : result exc A) : silent (lift x).
Proof. apply silent_pure. intros l. by eexists _, _. Qed.
Lemma silent_own : silent own.
Proof. apply silent_pure. intros l. by eexists _, _. Qed.
Lemma silent_modify f : silent (modify f).
Proof. apply silent_pure. intros l. by eexists _, _. Qed.

Definition plain_query (q : query) : bool :=
  match q with Q_post _ _ _ | Q_record_call _ _ => false | _ => true end.

Lemma silent_ask q : plain_query q = true → silent (ask q).
Proof. intros Hq l s0 n r Φ HΦ. cbn. destruct q; try done; intros x; by apply HΦ. Qed.

Lemma silent_shared f :
  (∀ s, table s → table (f s) ∧ rely s (f s) ∧ given_tokens (f s) ≡ₚ given_tokens s) → silent (shared f).
Proof.
  intros Hf l s0 n r Φ HΦ. cbn. intros s Hs Hr. destruct (Hf s Hs) as (H1 & H2 & H3).
  do 2 (split; [done|]). left. split; [done|]. apply HΦ. by eapply rely_trans.
Qed.

Lemma silent_peek : silent peek.
Proof. by apply silent_shared. Qed.

Lemma silent_bind {A B} (m : G A) (f : A → G B) : silent m → (∀ x, silent (f x)) → silent (m ≫= f).
Proof.
  intros Hm Hf l s0 n r Φ HΦ. apply paid_bind, Hm. intros s l' [x|e] Hr; cbn; [|by apply HΦ].
  apply Hf. intros. apply HΦ. by eapply rely_trans.
Qed.

Lemma silent_attempt {A} (m : G A) : silent m → silent (attempt m).
Proof. intros Hm l s0 n r Φ HΦ. apply paid_bind, Hm. intros s l' res Hr. cbn. by apply HΦ. Qed.

Lemma silent_catch {A} (m : G A) h : silent m → (∀ e, silent (h e)) → silent (try_catch m h).
Proof.
  intros Hm Hh l s0 n r Φ HΦ. apply paid_bind, Hm. intros s l' [x|e] Hr; cbn; [by apply HΦ|].
  apply Hh. intros. apply HΦ. by eapply rely_trans.
Qed.

Lemma silent_spends {A} a n r (m : G A) : silent m → spends a n r m.
Proof. intros Hm l s0 Φ _ HΦ. apply Hm. intros. by apply HΦ. Qed.

Lemma spends_silent_bind {A B} a n r (m : G A) (f : A → G B) :
  silent m → (∀ x, spends a n r (f x)) → spends a n r (m ≫= f).
Proof.
  intros Hm Hf l s0 Φ He HΦ. apply paid_bind, Hm. intros s l' [x|e] Hr; cbn; [|by apply HΦ].
  apply Hf; [by apply Hr|]. intros. apply HΦ. by eapply rely_trans.
Qed.

Lemma spends_settles_bind {A B} a n r (m : G A) (f : A → G B) P :
  settles a n r m P → (∀ x, P x → spends a n r (f x)) → spends a n r (m ≫= f).
Proof.
  intros Hm Hf l s0 Φ He HΦ. apply paid_bind, Hm; cbn; [done| |intros; by apply HΦ].
  intros s l' x Hr Hx. apply Hf; [done|by apply Hr|]. intros. apply HΦ. by eapply rely_trans.
Qed.

Lemma spends_bind {A B} a n r (m : G A) (f : A → G B) :
  spends a n r m → (∀ x n' r', spends a n' r' (f x)) → spends a n r (m ≫= f).
Proof.
  intros Hm Hf l s0 Φ He HΦ. apply paid_bind, Hm; [done|]. intros s n' r' l' [x|e] Hr; cbn; [|by apply HΦ].
  apply Hf; [by apply Hr|]. intros. apply HΦ. by eapply rely_trans.
Qed.

Lemma spends_catch {A} a n r (m : G A) h :
  spends a n r m → (∀ e n' r', spends a n' r' (h e)) → spends a n r (try_catch m h).
Proof.
  intros Hm Hh l s0 Φ He HΦ. apply paid_bind, Hm; [done|]. intros s n' r' l' [x|e] Hr; cbn; [by apply HΦ|].
  apply Hh; [by apply Hr|]. intros. apply HΦ. by eapply rely_trans.
Qed.

Lemma spends_attempt {A} a n r (m : G A) : spends a n r m → spends a n r (attempt m).
Proof. intros Hm l s0 Φ He HΦ. apply paid_bind, Hm; [done|]. intros. cbn. by apply HΦ. Qed.

Lemma spends_sends_bind {A B} a n r (m : G A) (f : result exc A → G B) :
  sends n m → (∀ x n', spends a n' r (f x)) → spends a n r (attempt m ≫= f).
Proof.
  intros Hm Hf l s0 Φ He HΦ. apply paid_bind. unfold attempt. apply paid_bind, Hm.
  intros s n' l' res Hr. cbn. apply Hf; [by apply Hr|]. intros. apply HΦ. by eapply rely_trans.
Qed.

Ltac silently :=
  repeat first
    [ assumption | match goal with |- silent (let _ := _ in _) => cbv zeta end | apply silent_ret | apply silent_raise | apply silent_lift | apply silent_own
    | apply silent_modify | apply silent_peek | apply silent_attempt
    | match goal with |- silent (ask ?q) => exact (silent_ask q eq_refl) end
    | apply silent_bind; [|intros ?]
    | match goal with |- silent (match ?x with _ => _ end) => destruct x end ].

Lemma await_silent {A} (m : G (result world_exc A)) : silent m → silent (await m).
Proof. intros H. unfold await. silently. Qed.

Lemma swallow_silent {A} (x : A) e : silent (swallow x e).
Proof. unfold swallow. silently. Qed.

Lemma checkpoint_silent c' : silent (checkpoint c').
Proof. apply await_silent. silently. Qed.

Lemma check_time_silent t c' sep sent : silent (check_time g t c' sep sent).
Proof. unfold check_time. silently. Qed.

Lemma raise_failed_silent {A} code message : silent (raise_failed code message : G A).
Proof. unfold raise_failed. silently. Qed.

Lemma get_fx_quote_silent : silent (get_fx_quote g).
Proof. unfold get_fx_quote. silently. apply swallow_silent. Qed.

Lemma call_price_silent p t c' : silent (call_price urlsplit idna g p t c').
Proof.
  unfold call_price. silently. apply get_fx_quote_silent.
Qed.

Lemma check_budget_silent c' p price estimate : silent (check_budget g c' p price estimate).
Proof.
  unfold check_budget. silently; first [apply raise_failed_silent|apply await_silent; silently].
Qed.

Lemma store_manifest_silent t m c' estimate messages : silent (store_manifest g t m c' estimate messages).
Proof. unfold store_manifest. silently. Qed.

Lemma send_checkpoint_silent t c' : silent (send_checkpoint g t c').
Proof. unfold send_checkpoint. silently; first [apply checkpoint_silent|apply check_time_silent]. Qed.

Lemma set_current_key_keeps url ks index s :
  table s → table (set_current_key url ks index s) ∧ rely s (set_current_key url ks index s)
  ∧ given_tokens (set_current_key url ks index s) ≡ₚ given_tokens s.
Proof. intros H. split; [exact H|]. split; [by intros ? ? ?|done]. Qed.

(** *** The transport: one request for each key *)

Lemma post_pays r body key n l s0 tok Φ :
  (∀ s l' res, rely s0 s → Φ s n tok (l', res)) → pays s0 (S n) tok (post r body key l) Φ.
Proof.
  intros HΦ. unfold post. apply paid_bind. cbn. exists n. split; [done|]. intros x. cbn.
  destruct x as [response|[name|name|e]]; cbn; by apply HΦ.
Qed.

Lemma rotate_sends r check body pool indexes : ∀ k n,
  silent check → (length indexes ≤ n)%nat → sends n (rotate repr_value r check body pool indexes k).
Proof.
  induction indexes as [|index indexes IH]; intros k n Hc Hn; cbn [rotate].
  { intros l s0 tok Φ HΦ. cbn. by apply HΦ. }
  destruct n as [|n]; [cbn in Hn; lia|]. intros l s0 tok Φ HΦ.
  apply paid_bind, Hc. intros s1 l1 [[]|e] Hr1; cbn beta iota; [|by apply HΦ].
  apply paid_bind, post_pays. intros s2 l2 [response|e] Hr2; cbn beta iota.
  2: { apply HΦ. by eapply rely_trans. }
  assert (Hr : rely s0 s2) by (by eapply rely_trans). cbn [fst snd].
  destruct (rotates _).
  - apply IH; [done|cbn in Hn; lia|]. intros. apply HΦ. by eapply rely_trans.
  - apply (silent_bind (shared _) (λ _, lift _)); [|intros ?; apply silent_lift|].
    + apply silent_shared. intros s Hs. by apply set_current_key_keeps.
    + intros. apply HΦ. by eapply rely_trans.
Qed.

Lemma complete_sends r check n :
  silent check → (length (key_pool (rq_profile r)) ≤ n)%nat → sends n (complete repr_value r check).
Proof.
  intros Hc Hn l s0 tok Φ HΦ. unfold complete. apply paid_bind, silent_peek.
  intros s l' [x|e] Hr; cbn beta iota; [|by apply HΦ].
  apply rotate_sends; [done| |intros; apply HΦ; by eapply rely_trans].
  unfold key_order. by rewrite length_fmap, length_seq.
Qed.

(** *** The records of a call *)

Lemma record_trace_spends a n rec :
  spends a n (Some (cx_run_id c, cr_call_no rec)) (record_trace c rec).
Proof.
  intros l s0 Φ _ HΦ. unfold record_trace. apply paid_bind. cbn. split; [done|]. intros x. cbn.
  destruct x as [?|e]; [by apply HΦ|]. apply swallow_silent. intros. by apply HΦ.
Qed.

Abbreviation drafted r := (Some (cx_run_id c, rd_call_no r)).

Lemma draft_trace_spends a n r duration body error paid_error :
  spends a n (drafted r) (record_trace c (finish_record repr_value r duration body error paid_error)).
Proof. exact (record_trace_spends a n (finish_record repr_value r duration body error paid_error)). Qed.

Lemma record_paid_answer_spends a n r duration response u paid_error :
  spends a n (drafted r) (record_paid_answer repr_value c r duration response u paid_error).
Proof.
  unfold record_paid_answer. apply spends_bind.
  - apply spends_attempt, spends_silent_bind; [apply silent_modify|]. intros _.
    apply spends_silent_bind; [apply await_silent; silently|]. intros _. apply draft_trace_spends.
  - intros. apply silent_spends. silently.
Qed.

(** What always ends in an exception may use up what is left. *)
Lemma settles_raises {A B} a n r (m : G A) e P :
  spends a n r m → settles a n r (m ≫= λ _, raise e : G B) P.
Proof.
  intros Hm l s0 Φ He _ HΦ. apply paid_bind, Hm; [done|]. intros s n' r' l' [x|e'] Hr; cbn; by apply HΦ.
Qed.

Lemma settles_silent_bind {A B} a n r (m : G A) (f : A → G B) P :
  silent m → (∀ x, settles a n r (f x) P) → settles a n r (m ≫= f) P.
Proof.
  intros Hm Hf l s0 Φ He H1 H2. apply paid_bind, Hm. intros s l' [x|e] Hr; cbn; [|by apply H2].
  apply Hf; [by apply Hr|intros; apply H1; [|done]|intros; apply H2]; by eapply rely_trans.
Qed.

Lemma settles_ret {A} a n r (x : A) (P : A → Prop) : P x → settles a n r (mret x) P.
Proof. intros Hx l s0 Φ _ H1 _. cbn. by apply H1. Qed.

Lemma settles_raise {A} a n r e (P : A → Prop) : settles a n r (raise e) P.
Proof. intros l s0 Φ _ _ H2. cbn. by apply H2. Qed.

Lemma quote_for_answer_settles a n p t r duration response estimate price quote :
  settles a n (drafted r) (quote_for_answer repr_value g p t c r duration response estimate price quote)
    (λ x, rd_call_no (snd x) = rd_call_no r).
Proof.
  unfold quote_for_answer. destruct (_ && _ && _); [|by apply settles_ret].
  apply settles_silent_bind; [apply silent_attempt, get_fx_quote_silent|]. intros q.
  destruct q as [q|e]; [by apply settles_ret|]. destruct e; try apply settles_raise.
  apply settles_silent_bind; [silently|]. intros u. apply settles_raises, record_paid_answer_spends.
Qed.

Lemma raise_failed_spends {A} a n r code message : spends a n r (raise_failed code message : G A).
Proof. apply silent_spends, raise_failed_silent. Qed.

Lemma settle_paid_error_spends a n p t r duration paid_response message estimate price quote :
  spends a n (drafted r)
    (settle_paid_error repr_value g p t c r duration paid_response message estimate price quote).
Proof.
  unfold settle_paid_error. eapply spends_settles_bind; [apply quote_for_answer_settles|].
  intros [q r'] Hr. cbn [snd] in Hr. rewrite <- Hr.
  apply spends_silent_bind; [silently|]. intros u.
  apply spends_bind; [apply record_paid_answer_spends|]. intros. apply raise_failed_spends.
Qed.

Lemma settle_answer_spends a n p t r duration response estimate price quote m :
  spends a n (drafted r) (settle_answer repr_value g p t c r duration response estimate price quote m).
Proof.
  unfold settle_answer. eapply spends_settles_bind; [apply quote_for_answer_settles|].
  intros [q r'] Hr. cbn [snd] in Hr. rewrite <- Hr.
  destruct (usage_of _ _ _ _ _ _ _) as [u|e].
  - apply spends_bind; [apply record_paid_answer_spends|]. intros. apply silent_spends. silently.
  - destruct e; try (apply silent_spends, silent_raise).
    apply spends_silent_bind; [silently|]. intros u.
    apply spends_bind; [apply record_paid_answer_spends|]. intros. apply raise_failed_spends.
Qed.

Lemma settle_spends a n p t r started estimate price quote m sent :
  spends a n (drafted r) (settle repr_value g p t c r started estimate price quote m sent).
Proof.
  unfold settle. destruct sent as [response|e].
  - do 2 (apply spends_silent_bind; [silently|]; intros ?). apply settle_answer_spends.
  - destruct e as [f [|]|e| | | | | | | | |]; try (apply silent_spends, silent_raise);
      do 2 (apply spends_silent_bind; [silently|]; intros ?).
    + apply spends_bind; [apply draft_trace_spends|]. intros. apply silent_spends. silently.
    + destruct (te_paid_response e); [apply settle_paid_error_spends|].
      apply spends_bind; [apply draft_trace_spends|]. intros. apply silent_spends.
      case_bool_decide; [apply raise_failed_silent|silently].
Qed.

(** *** One call *)

(** Taking a slot gives one token, for a request to each key and one trace. *)
Lemma claim_slot_spends {B} a n r t (f : Z → G B) :
  0 ≤ tk_reserved_calls t → (∀ no, spends a keys (Some (cx_run_id c, no)) (f no)) →
  spends a n r (claim_slot g t c a ≫= f).
Proof.
  intros Hres Hf l s0 Φ He HΦ. unfold claim_slot, raise_failed. cbn.
  intros s Hs Hr. cbn [prog_bind fst snd]. destruct (_ <=? calls_of a s) eqn:E.
  - split; [done|]. split; [done|]. left. split; [done|]. cbn. by apply HΦ.
  - apply Z.leb_gt in E. destruct (count_call_gives attempt_of known max_calls s (cx_run_id c) a Hs (Hr _ _ He))
      as (H1 & H2 & H3); [lia|]. do 2 (split; [done|]). right. exists (calls_of a s + 1).
    split; [done|]. cbn. apply Hf; [by apply H2, Hr|]. intros. apply HΦ.
    by do 2 (eapply rely_trans; [eassumption|]).
Qed.

Section Task.
Context (Hreserved : 0 ≤ tk_reserved_calls tk) (a : nat).
#[local] Set Default Proof Using "Type*".

Lemma call_spends n r p kind messages m :
  (length (key_pool p) ≤ keys)%nat →
  spends a n r (call repr_value urlsplit idna g p kind messages tk c a m).
Proof.
  intros Hp. unfold call. apply spends_silent_bind; [apply checkpoint_silent|intros _].
  apply spends_silent_bind; [apply check_time_silent|intros _].
  apply spends_silent_bind; [silently|intros estimate]. cbv zeta.
  destruct (_ <? _); [apply raise_failed_spends|].
  apply spends_silent_bind; [apply call_price_silent|intros [[price qr] quote]].
  apply spends_silent_bind; [apply check_budget_silent|intros _].
  apply spends_silent_bind; [apply checkpoint_silent|intros _].
  apply spends_silent_bind; [apply check_time_silent|intros _].
  apply claim_slot_spends; [done|]. intros no.
  apply spends_silent_bind; [apply store_manifest_silent|intros manifest_id].
  do 2 (apply spends_silent_bind; [silently|intros ?]).
  apply spends_silent_bind; [silently|intros _].
  apply spends_sends_bind; [apply complete_sends; [apply send_checkpoint_silent|done]|].
  intros sent n'. apply (settle_spends a n' _ _ (mkRecordDraft _ _ no _ _ _ _ _ _ _ _ _ _ _)).
Qed.

Lemma recovery_spends n r m previous : spends a n r m → spends a n r (recovery m previous tk).
Proof.
  intros Hm. apply spends_catch; [done|]. intros e n' r'. apply silent_spends.
  repeat case_match; first [apply raise_failed_silent|apply silent_raise].
Qed.

Lemma remember_silent key o source : silent (remember_review_result g key o source).
Proof. unfold remember_review_result. silently. apply swallow_silent. Qed.

Lemma prepare_repair_silent p o st : silent (prepare_repair markdown_parse g p tk c o st).
Proof. unfold prepare_repair, guard_manifest. destruct (repair_turn _ _ _). silently. Qed.

Lemma prepare_retry_silent o st base jittered next : silent (prepare_retry g tk c o st base jittered next).
Proof. unfold prepare_retry. silently. Qed.

Lemma turn_spends n r p key limit st :
  (length (key_pool p) ≤ keys)%nat →
  spends a n r (turn repr_value urlsplit idna markdown_parse g p tk c a key limit st).
Proof.
  intros Hp. unfold turn. apply spends_bind; [by apply recovery_spends, call_spends|].
  intros o n' r'. apply silent_spends. destruct (oc_output o).
  - silently. apply remember_silent.
  - silently; first [apply prepare_retry_silent|apply prepare_repair_silent].
Qed.

Lemma turns_spends fuel : ∀ n r p key limit st,
  (length (key_pool p) ≤ keys)%nat →
  spends a n r (turns repr_value urlsplit idna markdown_parse g fuel p tk c a key limit st).
Proof.
  induction fuel as [|fuel IH]; intros n r p key limit st Hp; cbn [turns];
    [apply silent_spends; silently|].
  apply spends_bind; [by apply turn_spends|]. intros e n' r'.
  destruct e; first [by apply IH|apply silent_spends; silently].
Qed.

Lemma raise_last_silent {A} o hint : silent (raise_last o hint : G A).
Proof. unfold raise_last. silently. Qed.

Lemma fall_back_spends n r fallback limit o st :
  (∀ p, fallback = Some p → (length (key_pool p) ≤ keys)%nat) →
  spends a n r (fall_back repr_value urlsplit idna markdown_parse g fallback tk c a limit o st).
Proof.
  intros Hf. unfold fall_back. apply spends_silent_bind; [silently|intros now].
  destruct fallback as [p|]; [|apply silent_spends, raise_last_silent].
  destruct (_ <=? _); [apply silent_spends, raise_last_silent|].
  apply spends_silent_bind; [silently|intros fits].
  destruct (negb fits); [apply silent_spends, raise_last_silent|].
  apply spends_silent_bind; [unfold guard_manifest; silently|intros m].
  apply spends_bind; [by apply recovery_spends, call_spends, Hf|].
  intros o' n' r'. apply silent_spends. destruct (oc_output o'); [silently|apply raise_last_silent].
Qed.

Context (Hkeys : let '(primary, fallback) := route_of (gw_settings g) (tk_route tk) in
  (length (key_pool primary) ≤ keys)%nat ∧ ∀ p, fallback = Some p → (length (key_pool p) ≤ keys)%nat).

Lemma generate_uncached_spends n r key :
  spends a n r (generate_uncached repr_value urlsplit idna markdown_parse g tk c a key).
Proof.
  unfold generate_uncached. destruct (route_of _ _) as [primary fallback]. destruct Hkeys as [H1 H2].
  apply spends_silent_bind; [silently|intros s]. destruct (_ <=? _); [apply raise_failed_spends|].
  apply spends_bind; [by apply turns_spends|]. intros e n' r'.
  destruct e; first [by apply fall_back_spends|apply silent_spends; silently].
Qed.
End Task.

Lemma cached_silent t p key : silent (cached_review_result t c p key).
Proof. unfold cached_review_result. silently; apply swallow_silent. Qed.

(** One coroutine: whatever is answered, it sends and traces only what its slots pay for. *)
Lemma generate_pays s0 :
  cx_run_id c ∈ known → cx_attempt c = attempt_of (cx_run_id c) →
  (length (remove_dups known) ≤ TRACKED_RUNS)%nat → 0 ≤ tk_reserved_calls tk →
  (let '(primary, fallback) := route_of (gw_settings g) (tk_route tk) in
   (length (key_pool primary) ≤ keys)%nat ∧ ∀ p, fallback = Some p → (length (key_pool p) ≤ keys)%nat) →
  pays s0 0 None (generate_task repr_value urlsplit idna markdown_parse g tk c) (λ _ _ _ _, True).
Proof.
  intros Hk Ha Ht Hres Hkeys. unfold generate_task, generate. apply paid_bind. cbn [shared paid].
  intros s Hs Hr. destruct (track_attempt_keeps attempt_of known max_calls c Hk Ha Ht s Hs)
    as (H1 & H2 & H3 & H4). do 2 (split; [done|]). left. split; [done|]. cbn [fst snd].
  set (a := counter_ref c s) in *.
  assert (Hrest : spends a 0 None (_ ← checkpoint c;
    cache_key ← lift (review_result_key (gw_result_cache g) tk c (fst (route_of (gw_settings g) (tk_route tk))));
    cached ← match cache_key with
             | Some key => cached_review_result tk c (fst (route_of (gw_settings g) (tk_route tk))) key
             | None => mret None
             end;
    match cached with
    | Some r => mret r
    | None => generate_uncached repr_value urlsplit idna markdown_parse g tk c a cache_key
    end)).
  { apply spends_silent_bind; [apply checkpoint_silent|intros _].
    apply spends_silent_bind; [silently|intros key].
    apply spends_silent_bind; [destruct key; [apply cached_silent|silently]|intros cached].
    destruct cached; [apply silent_spends; silently|by apply generate_uncached_spends]. }
  by apply Hrest.
Qed.
End Gateway.

(** ** All coroutines of a run *)

Lemma concat_sublist {A} (l l' : list (list A)) : l `sublist_of` l' → concat l `sublist_of` concat l'.
Proof.
  induction 1 as [|x l l' _ IH|x l l' _ IH]; cbn; [done|by apply sublist_app|].
  by apply sublist_inserts_l.
Qed.

(** What covers each of some histories covers them together. *)
Lemma covered_all (keys : nat) (run : UUID) ts hs :
  Forall2 (λ t h, ∃ n r, covered keys run n r t h) ts hs →
  concat (traced_calls <$> ts) ⊆+ concat hs
  ∧ (sum_list (requests <$> ts) ≤ keys * length (concat hs))%nat
  ∧ Forall (λ tok, fst tok = run) (concat hs).
Proof.
  induction 1 as [|t h ts hs (n & r & Hrun & Hsub & Hreq) _ (H1 & H2 & H3)]; cbn.
  { split_and!; [done|lia|constructor]. }
  split_and!.
  - apply submseteq_app; [|done]. etransitivity; [|exact Hsub]. by apply submseteq_inserts_r.
  - rewrite length_app. lia.
  - by apply Forall_app.
Qed.

(** The numbers of one run that were given out are at most as many as its limit. *)
Lemma run_tokens_bounded attempt_of known limit s run toks :
  table_ok attempt_of known limit s → toks ⊆+ given_tokens s → Forall (λ tok, fst tok = run) toks →
  NoDup toks ∧ Forall (λ tok, 1 ≤ snd tok ≤ limit) toks ∧ (length toks ≤ Z.to_nat limit)%nat.
Proof.
  intros Hs Hsub Hrun. assert (Hn : NoDup toks).
  { apply submseteq_Permutation in Hsub as [k Hk]. pose proof (tokens_nodup _ _ _ _ Hs) as H.
    rewrite Hk in H. by apply NoDup_app in H as [? _]. }
  assert (Hb : Forall (λ tok, 1 ≤ snd tok ≤ limit) toks).
  { apply Forall_forall. intros [r n] Hin. eapply tokens_bounded; [exact Hs|].
    by eapply elem_of_submseteq. }
  split; [done|]. split; [done|].
  replace (Z.to_nat limit) with (length ((λ n, (run, n)) <$> seqZ 1 limit))
    by (by rewrite length_fmap, length_seqZ).
  apply submseteq_length, NoDup_submseteq; [done|]. intros [r n] Hin.
  rewrite Forall_forall in Hrun, Hb. specialize (Hrun _ Hin). specialize (Hb _ Hin). cbn in Hrun, Hb. subst r.
  apply list_elem_of_fmap_2, elem_of_seqZ. lia.
Qed.
