(* ===== verification/LlmTheorems.v ===== *)
(** * Theorems on model calls

    What the processes of the gateway do in every interleaving of their calls, and on sample runs. *)

From Stdlib Require Import String SpecFloat.
From stdpp Require Import numbers gmap list relations.
From S2P Require Import Prelude PyText PyHash PyFloat PyDecimal PyValue Effects DiffMap RunFailures.
From S2P Require Import RunStore ReviewIgnore PolicySnapshots PromptRender PromptBudget Manifests.
From S2P Require Import Llm LlmSettings LlmTransport LlmTasks LlmGateway LlmHistory LlmFacts LlmCalls.
#[local] Open Scope Z_scope.

Definition idle_process : Shared := mkShared [] [] [].

Section Process.
Context (repr_value : pyval → pystr).
Context (urlsplit : pystr → option UrlParts) (idna : pystr → option pystr).
Context (markdown_parse : pystr → list MdToken).
Context (g : GatewayConfig).

(** Tasks a [StructuredTask] can be built for, each in the context of its run. *)
Abbreviation job := (StructuredTask * RunCallContext)%type.

(** The process runs its calls concurrently, from the start. *)
Definition reachable (jobs : list job)
    (ps : pool Shared answer (AttemptState * result exc GatewayResult)) : Prop :=
  rtc pool_step
    (pool_start idle_process
       ((λ j, generate_task repr_value urlsplit idna markdown_parse g (fst j) (snd j)) <$> jobs))
    ps.

Definition jobs_ok (jobs : list job) : Prop := Forall (λ j, task_ok (fst j) = true) jobs.

Lemma reserved_nonneg jobs tk c : jobs_ok jobs → (tk, c) ∈ jobs → 0 ≤ tk_reserved_calls tk.
Proof.
  intros H Hin. eapply Forall_forall in H; [|exact Hin]. cbn in H. unfold task_ok in H.
  apply andb_true_iff in H as [H _]. apply andb_true_iff in H as [_ H].
  apply negb_true_iff, Z.ltb_ge in H. lia.
Qed.

(** Every call of every interleaving respects the specification of [generate]. *)
Lemma process_spec jobs ps :
  jobs_ok jobs → reachable jobs ps →
  calls_capped g (pl_state ps)
  ∧ ∀ i tk c p t, jobs !! i = Some (tk, c) → pl_tasks ps !! i = Some (p, t) →
      asked_ok (allowed repr_value urlsplit idna g tk c) t
      ∧ safe (calls_capped g) (allowed repr_value urlsplit idna g tk c)
          (λ t' lr, generated repr_value markdown_parse g tk c t' (fst lr) (snd lr)) p t.
Proof.
  intros Hok Hr. set (at_ (A : Type) (d : A) (f : StructuredTask → RunCallContext → A) (i : nat) :=
    match jobs !! i with Some (tk, c) => f tk c | None => d end).
  assert (H0 : calls_capped g idle_process) by by constructor.
  set (ok := at_ _ (λ _ _, True) (allowed repr_value urlsplit idna g)).
  set (Φ := at_ _ (λ _ _, True)
    (λ tk c t' lr, generated repr_value markdown_parse g tk c t' (fst lr) (snd lr))).
  assert (HP : ∀ i p, ((λ j, generate_task repr_value urlsplit idna markdown_parse g (fst j) (snd j)) <$> jobs)
                        !! i = Some p → safe (calls_capped g) (ok i) (Φ i) p []).
  { intros i p Hp. rewrite list_lookup_fmap in Hp. subst ok Φ at_. cbv beta.
    destruct (jobs !! i) as [[tk c]|] eqn:E; [|done]. injection Hp as <-. apply generate_spec.
    eapply reserved_nonneg; [done|by eapply list_elem_of_lookup_2]. }
  destruct (safe_pool (calls_capped g) ok Φ _ _ ps H0 HP Hr) as [Hi Ht].
  split; [done|]. intros i tk c p t Hj Hp. specialize (Ht i p t Hp). subst ok Φ at_. cbv beta in Ht.
  by rewrite Hj in Ht.
Qed.

(** The histories of the coroutines that work for a run. *)
Definition traces_of {A} (jobs : list job) (ps : pool Shared answer A) (run_id : UUID) : list trace :=
  omap (λ jt, if (cx_run_id (snd (fst jt)) =? run_id)%N then Some (snd (snd jt)) else None)
    (zip jobs (pl_tasks ps)).

(** A run has one attempt at a time, the table of the process has room for its runs, and no model of
    a task has more than [keys] keys. *)
Definition one_attempt (jobs : list job) : Prop :=
  ∀ j j', j ∈ jobs → j' ∈ jobs → cx_run_id (snd j) = cx_run_id (snd j') →
    cx_attempt (snd j) = cx_attempt (snd j').
Definition runs_tracked (jobs : list job) : Prop :=
  (length (remove_dups ((λ j, cx_run_id (snd j)) <$> jobs)) ≤ TRACKED_RUNS)%nat.
Definition keys_within (keys : nat) (jobs : list job) : Prop :=
  ∀ j, j ∈ jobs →
    let '(primary, fallback) := route_of (gw_settings g) (tk_route (fst j)) in
    (length (key_pool primary) ≤ keys)%nat ∧ ∀ p, fallback = Some p → (length (key_pool p) ≤ keys)%nat.

(** The attempt of a run in the process. *)
Definition attempt_in (jobs : list job) (run_id : UUID) : Z :=
  match find_first (λ j, (cx_run_id (snd j) =? run_id)%N) jobs with
  | Some j => cx_attempt (snd j)
  | None => 0
  end.

Lemma attempt_in_job jobs j :
  one_attempt jobs → j ∈ jobs → cx_attempt (snd j) = attempt_in jobs (cx_run_id (snd j)).
Proof.
  intros H1 Hj. unfold attempt_in. destruct (find_first _ jobs) as [j'|] eqn:E.
  - apply find_first_some in E as [Hin Hrun]. apply N.eqb_eq in Hrun. apply list_elem_of_In in Hin.
    by apply H1.
  - rewrite find_first_none in E. specialize (E j (proj1 (list_elem_of_In _ _) Hj)). cbn in E.
    by rewrite N.eqb_refl in E.
Qed.

(** The histories of a run, with what their coroutines hold. *)
Lemma traces_of_held {A} (jobs : list job) (ps : pool Shared answer A) run_id hs (Q : UUID → trace → list call_token → Prop) :
  length hs = length (pl_tasks ps) →
  (∀ i j p t h, jobs !! i = Some j → pl_tasks ps !! i = Some (p, t) → hs !! i = Some h →
     Q (cx_run_id (snd j)) t h) →
  ∃ sel, sel `sublist_of` hs ∧ Forall2 (Q run_id) (traces_of jobs ps run_id) sel.
Proof.
  unfold traces_of. generalize (pl_tasks ps) as tasks. clear ps. revert hs.
  induction jobs as [|j jobs IH]; intros hs tasks Hlen HQ.
  { exists []. split; [apply sublist_nil_l|constructor]. }
  destruct tasks as [|[p t] tasks], hs as [|h hs]; try done.
  { exists []. split; [done|constructor]. }
  destruct (IH hs tasks) as (sel & Hsub & Hall); [by injection Hlen|by intros i; apply (HQ (S i))|].
  cbn [zip zip_with omap list_omap fst snd]. destruct (_ =? run_id)%N eqn:E; apply N.eqb_eq in E || clear E.
  - exists (h :: sel). split; [by constructor|]. constructor; [|done]. rewrite <- E.
    by apply (HQ 0%nat j p t h).
  - exists sel. split; [by constructor|done].
Qed.

(** The tokens the coroutines of a run hold cover its calls, and are within its limit. *)
Lemma run_held jobs ps keys run_id :
  jobs_ok jobs → one_attempt jobs → runs_tracked jobs → keys_within keys jobs → reachable jobs ps →
  let max_calls := gp_max_calls_per_attempt (st_policy (gw_settings g)) in
  let ts := traces_of jobs ps run_id in
  ∃ held, concat (traced_calls <$> ts) ⊆+ held ∧ (sum_list (requests <$> ts) ≤ keys * length held)%nat
    ∧ NoDup held ∧ Forall (λ call, fst call = run_id ∧ 1 ≤ snd call ≤ max_calls) held
    ∧ (length held ≤ Z.to_nat max_calls)%nat.
Proof.
  intros Hok Hone Htrack Hkeys Hr max_calls ts. set (known := (λ j : job, cx_run_id (snd j)) <$> jobs).
  assert (H0 : table_ok (attempt_in jobs) known max_calls idle_process).
  { split; [constructor|]. split; [constructor|]. by intros ? ? ?%elem_of_nil. }
  set (runs := λ i, match jobs !! i with Some j => cx_run_id (snd j) | None => 0%N end).
  assert (Hpay : ∀ i p, ((λ j, generate_task repr_value urlsplit idna markdown_parse g (fst j) (snd j)) <$> jobs)
    !! i = Some p → paid (table_ok (attempt_in jobs) known max_calls) keys (runs i) idle_process 0 None p
                      (λ _ _ _ _, True)).
  { intros i p Hp. rewrite list_lookup_fmap in Hp. unfold runs.
    destruct (jobs !! i) as [[tk c]|] eqn:E; [|done]. injection Hp as <-. cbn [fst snd].
    assert (Hin : (tk, c) ∈ jobs) by (by eapply list_elem_of_lookup_2).
    apply generate_pays; [by apply (list_elem_of_fmap_2 (λ j : job, cx_run_id (snd j)) jobs (tk, c))
      |by apply (attempt_in_job jobs (tk, c))|done|by eapply reserved_nonneg|by apply (Hkeys (tk, c))]. }
  destruct (paid_pool _ _ _ _ _ ps H0 eq_refl Hpay Hr) as (Hs & hs & Htok & Hlen & Hheld).
  destruct (traces_of_held jobs ps run_id hs (λ run t h, ∃ n r, covered keys run n r t h))
    as (sel & Hsub & Hall); [done| |].
  { intros i j p t h Hj Hp Hh. destruct (Hheld i p t h Hp Hh) as (_ & n & r & _ & _ & Hcov).
    unfold runs in Hcov. rewrite Hj in Hcov. eauto. }
  apply covered_all in Hall as (H1 & H2 & H3).
  destruct (run_tokens_bounded _ _ _ _ run_id (concat sel) Hs) as (H4 & H5 & H6); [|done|].
  { rewrite Htok. by apply sublist_submseteq, concat_sublist. }
  exists (concat sel). split_and!; try done. by apply Forall_and.
Qed.


Section Claims.
Context (jobs : list job) (ps : pool Shared answer (AttemptState * result exc GatewayResult)).
Context (i : nat) (tk : StructuredTask) (c : RunCallContext).

(** C16. Every request to a provider passes the fences: the run was checkpointed and the clock read
    just before it, with time left for the call; its prompt and reserved answer fit the model; the
    cost of the run, read since the last recorded usage, plus the most this call may cost is within
    the limit, at the configured price or at a quote obtained before; on the snapshot path with a
    manifest store the digest of exactly these messages was stored before; it carries the body of the
    request and a key of the pool of a profile on the route of the task. *)
Theorem requests_fenced p t1 r body key a t2 :
  jobs_ok jobs → reachable jobs ps → jobs !! i = Some (tk, c) →
  pl_tasks ps !! i = Some (p, t1 ++ Event (Q_post r body key) a :: t2) →
  fenced g tk c t1
  ∧ affordable urlsplit idna g tk c t1 (rq_profile r) (rq_messages r)
  ∧ input_stored g tk t1 (rq_messages r)
  ∧ body = request_body r ∧ key ∈ key_pool (rq_profile r) ∧ served g tk (rq_profile r).
Proof.
  intros Hok Hr Hj Hp. destruct (process_spec jobs ps Hok Hr) as [_ H].
  destruct (H i tk c _ _ Hj Hp) as [Ha _]. specialize (Ha _ _ _ eq_refl).
  destruct Ha as ((H1 & H2 & H3) & H4). done.
Qed.

(** C18. Paid answers are recorded: each usage sent to the ledger is the charge of the latest paid
    answer, which was not recorded before; when [generate] ends, by a result, an error or a
    cancellation, every chat completion the provider returned was recorded, and the usage of the
    attempt is what was recorded, unless the arithmetic of the charge failed. *)
Theorem paid_answers_recorded t l res :
  jobs_ok jobs → reachable jobs ps → jobs !! i = Some (tk, c) →
  pl_tasks ps !! i = Some (Ret (l, res), t) →
  as_usage l = ledgers t
  ∧ (length (completions t) = length (ledgers t)
     ∨ length (completions t) = S (length (ledgers t)) ∧ ∃ e, res = Err e ∧ arithmetic e)
  ∧ ∀ t1 c' u a t2, t = t1 ++ Event (Q_ledger_record c' u) a :: t2 →
      c' = c ∧ length (completions t1) = S (length (ledgers t1))
      ∧ ∃ r http response estimate price quote conservative,
          last (completions t1) = Some (r, http) ∧ answered repr_value r http response
          ∧ usage_of (rq_profile r) (tk_operation tk) response estimate price quote conservative = Ok u.
Proof.
  intros Hok Hr Hj Hp. destruct (process_spec jobs ps Hok Hr) as [_ H].
  destruct (H i tk c _ _ Hj Hp) as [Ha Hg]. cbn in Hg. destruct Hg as [Hu Hg].
  split; [done|]. split; [apply Hg|]. intros t1 c' u a t2 ->. apply (Ha _ _ _ eq_refl).
Qed.

(** C20. An answer is given only when it was checked: it is the cached answer of this very task and
    model, validated again and checked against this run's manifest with nothing sent; or the last
    response of a provider on the route of the task, a well-formed completion that the task validated
    and checked against the manifest of the accepted call: the manifest of the task, or that of a
    repair or a fallback call which the pre-send guard passed. *)
Theorem answers_checked t l r :
  jobs_ok jobs → reachable jobs ps → jobs !! i = Some (tk, c) →
  pl_tasks ps !! i = Some (Ret (l, Ok r), t) →
  from_cache g tk c t r ∨ from_provider repr_value markdown_parse g tk c t r.
Proof.
  intros Hok Hr Hj Hp. destruct (process_spec jobs ps Hok Hr) as [_ H].
  destruct (H i tk c _ _ Hj Hp) as [_ (_ & _ & Hg)]. by apply Hg.
Qed.

(** C26. The loop over the primary model ends: whatever the providers and the collaborators answer and
    whatever the other coroutines of the process do meanwhile, it returns a result, leaves for the
    fallback or raises within [turn_fuel] turns, one per delay of the policy, the wait after a rate
    limit and the repair, and the first. *)
Theorem turns_end a key limit :
  0 ≤ tk_reserved_calls tk →
  safe (calls_capped g) (λ _ _, True) (λ _ lr, ∀ s, snd lr ≠ Ok (Turn_again s))
    (turns repr_value urlsplit idna markdown_parse g (turn_fuel g)
       (fst (route_of (gw_settings g) (tk_route tk))) tk c a key limit (first_turn tk)
       (mkAttemptState 0 [] [] false)) [].
Proof.
  intros Hres. assert (Ht := turns_spec repr_value urlsplit idna markdown_parse g tk c a key limit
    (turn_fuel g) (first_turn tk) (mkAttemptState 0 [] [] false) [] Hres).
  eapply safe_weaken; [apply Ht|done|by intros t [l res] [_ H]].
  - split; [apply ready_nil|]. split; [by left|done].
  - unfold recoveries_left, turn_fuel. cbn. lia.
Qed.
End Claims.
End Process.

(** ** A sample process

    A local model with one key, asked for conventions; the world answers by what was posted before. *)

Section Sample.
Definition sample_profile (keys : list pystr) (name : pystr) : ModelProfile :=
  mkModelProfile (u8 "local") (u8 "http://localhost/v1") name 32768 1024
    (mkModelPrice (D "1") (D "2") (D "0")) Out_json_schema (float_of_Z 4) keys [].

Definition sample_gateway (keys : list pystr) (fallback : option ModelProfile) : GatewayConfig :=
  mkGatewayConfig
    (mkLlmSettings (sample_profile keys (u8 "m1")) fallback default_policy None None)
    false false false.

Definition sample_task : StructuredTask :=
  mkStructuredTask (u8 "conventions") [mkChatMessage Role_user (u8 "list the conventions")]
    (mkResponseSchema (u8 "conventions") []) (λ s, Ok [(u8 "text", VStr s)])
    None None None None Route_review false 0 (S754_zero false) None None.

Definition sample_context : RunCallContext :=
  mkRunCallContext 7 8 1 Engine_fast 3600000000 None None (Some 9%N).

Definition sample_urlsplit (url : pystr) : option UrlParts :=
  Some (mkUrlParts (u8 "http") (Some (u8 "localhost")) None None None (u8 "/v1") [] []).

(** The responses of the provider in order; nothing else fails and no time passes. *)
Definition sample_world (responses : list HttpResponse) (t : trace) (q : query) : answer q :=
  match q return answer q with
  | Q_now => 0
  | Q_monotonic | Q_jitter => S754_zero false
  | Q_uuid4 => 1%N
  | Q_fx_quote => Err (W_other (u8 "RuntimeError"))
  | Q_run_cost _ => Ok (dec_of_Z 0)
  | Q_post _ _ _ =>
      match responses !! length (posts t) with
      | Some r => Ok r
      | None => Err (Post_timeout (u8 "ReadTimeout"))
      end
  | Q_cache_get _ => Err (W_other (u8 "RuntimeError"))
  | Q_interrupted => false
  | _ => Ok tt
  end.

Definition sample_completion (cost : pyval) : HttpResponse :=
  mkHttpResponse 200 [] None (Some (VDict
    [(u8 "model", VStr (u8 "m1"));
     (u8 "choices", VList [VDict [(u8 "finish_reason", VStr (u8 "stop"));
                                  (u8 "message", VDict [(u8 "content", VStr (u8 "{}"))])]]);
     (u8 "usage", VDict [(u8 "prompt_tokens", VInt 12); (u8 "completion_tokens", VInt 3);
                         (u8 "cost", cost)])])).

Definition sample_status (status : Z) (hint : option pystr) : HttpResponse :=
  mkHttpResponse status [] hint None.

Definition sample_run (g : GatewayConfig) (responses : list HttpResponse) :=
  run_alone (sample_world responses)
    (generate_task (λ _, []) sample_urlsplit Some (λ _, []) g sample_task sample_context)
    idle_process [].

Definition sample_jobs : list (StructuredTask * RunCallContext) := [(sample_task, sample_context)].

Definition sample_pool (g : GatewayConfig) (responses : list HttpResponse)
  : pool Shared answer (AttemptState * result exc GatewayResult) :=
  mkPool (fst (fst (sample_run g responses)))
    [(Ret (snd (sample_run g responses)), snd (fst (sample_run g responses)))].

Definition sample_reachable (g : GatewayConfig) (responses : list HttpResponse) : Prop :=
  reachable (λ _, []) sample_urlsplit Some (λ _, []) g sample_jobs (sample_pool g responses).

Lemma sample_reached g responses : sample_reachable g responses.
Proof.
  unfold sample_reachable, reachable, sample_pool, sample_run.
  assert (H := run_alone_pool (sample_world responses)
    (generate_task (λ _, []) sample_urlsplit Some (λ _, []) g sample_task sample_context)
    idle_process []).
  by destruct (run_alone _ _ _ _) as [[s t] a].
Qed.

Lemma sample_ok : jobs_ok sample_jobs.
Proof. by constructor. Qed.

(** One key, a rate limit with a hint of a second, then an answer. *)
Abbreviation g1 := (sample_gateway [u8 "k"] None).
Abbreviation rs1 := [sample_status 429 (Some (u8 "1")); sample_completion (VInt 0)].
Abbreviation run1 := (sample_run g1 rs1).

(** Two coroutines of one attempt, each with a rate limit and then an answer. *)
Definition two_jobs : list (StructuredTask * RunCallContext) :=
  [(sample_task, sample_context); (sample_task, sample_context)].
Definition second_run :=
  run_alone (sample_world rs1)
    (generate_task (λ _, []) sample_urlsplit Some (λ _, []) g1 sample_task sample_context) (fst (fst run1)) [].
Definition two_pool : pool Shared answer (AttemptState * result exc GatewayResult) :=
  mkPool (fst (fst second_run))
    [(Ret (snd run1), snd (fst run1)); (Ret (snd second_run), snd (fst second_run))].

Lemma two_reached : reachable (λ _, []) sample_urlsplit Some (λ _, []) g1 two_jobs two_pool.
Proof.
  unfold reachable, two_pool, second_run, sample_run.
  set (p := generate_task (λ _, []) sample_urlsplit Some (λ _, []) g1 sample_task sample_context).
  assert (H1 := run_alone_at (sample_world rs1) p idle_process [] 0 [(p, []); (p, [])] eq_refl).
  destruct (run_alone _ p idle_process []) as [[s1 t1] a1]. cbn [fst snd].
  assert (H2 := run_alone_at (sample_world rs1) p s1 [] 1 [(Ret a1, t1); (p, [])] eq_refl).
  destruct (run_alone _ p s1 []) as [[s2 t2] a2]. etransitivity; [exact H1|exact H2].
Qed.


(** The second request, after its fence. *)
Abbreviation request1 :=
  (call_request g1 sample_task sample_context (sample_profile [u8 "k"] (u8 "m1")) (tk_messages sample_task)).

Lemma requests_fenced_witness :
  let t1 := take 24 (snd (fst run1)) in
  length (posts t1) = 1%nat
  ∧ fenced g1 sample_task sample_context t1
  ∧ affordable sample_urlsplit Some g1 sample_task sample_context t1 (rq_profile request1)
      (tk_messages sample_task).
Proof.
  intros t1. split; [vm_compute; reflexivity|].
  destruct (requests_fenced (λ _, []) sample_urlsplit Some (λ _, []) g1 sample_jobs (sample_pool g1 rs1) 0
    sample_task sample_context (Ret (snd run1)) t1 request1 (request_body request1) (Some (u8 "k"))
    (Ok (sample_completion (VInt 0))) (drop 25 (snd (fst run1)))) as (H1 & H2 & _);
    [exact sample_ok|exact (sample_reached g1 rs1)|reflexivity|vm_compute; reflexivity|].
  split; [exact H1|exact H2].
Defined.

Lemma paid_answers_recorded_witness :
  length (completions (snd (fst run1))) = 1%nat
  ∧ as_usage (fst (snd run1)) = ledgers (snd (fst run1)).
Proof.
  split; [vm_compute; reflexivity|].
  destruct (paid_answers_recorded (λ _, []) sample_urlsplit Some (λ _, []) g1 sample_jobs
    (sample_pool g1 rs1) 0 sample_task sample_context (snd (fst run1)) (fst (snd run1)) (snd (snd run1)))
    as [H _]; [exact sample_ok|exact (sample_reached g1 rs1)|reflexivity|vm_compute; reflexivity|exact H].
Defined.

Lemma answers_checked_witness :
  ∃ r, snd (snd run1) = Ok r ∧ gr_calls r = 2
    ∧ (from_cache g1 sample_task sample_context (snd (fst run1)) r
       ∨ from_provider (λ _, []) (λ _, []) g1 sample_task sample_context (snd (fst run1)) r).
Proof.
  eexists. split; [vm_compute; reflexivity|]. split; [reflexivity|].
  apply (answers_checked (λ _, []) sample_urlsplit Some (λ _, []) g1 sample_jobs
    (sample_pool g1 rs1) 0 sample_task sample_context (snd (fst run1)) (fst (snd run1)));
    [exact sample_ok|exact (sample_reached g1 rs1)|reflexivity|vm_compute; reflexivity].
Defined.

Lemma turns_end_witness :
  safe (calls_capped g1) (λ _ _, True) (λ _ lr, ∀ s, snd lr ≠ Ok (Turn_again s))
    (turns (λ _, []) sample_urlsplit Some (λ _, []) g1 6 (sample_profile [u8 "k"] (u8 "m1")) sample_task
       sample_context 0 None 4 (first_turn sample_task) (mkAttemptState 0 [] [] false)) [].
Proof.
  apply (turns_end (λ _, []) sample_urlsplit Some (λ _, []) g1 sample_task sample_context 0 None 4).
  vm_compute. discriminate.
Defined.

(** A paid answer whose cost is a number [Decimal] cannot hold is neither recorded nor traced: the
    exception is none of those the transport and the gateway expect. *)
Theorem huge_cost_unrecorded :
  let t := snd (fst (sample_run g1 [sample_completion (VFloat (u8 "1e9999999999999999999"))])) in
  length (completions t) = 1%nat ∧ ledgers t = []
  ∧ Forall (λ e, match ev_query e with Q_record_call _ _ => False | _ => True end) t.
Proof.
  vm_compute. split; [reflexivity|]. split; [reflexivity|]. repeat constructor.
Qed.

(** The hint of a rate-limited key is lost when the rotation goes on to a key that fails in another
    way: after 429 with Retry-After 3600 and 500 on the other key, a final 429 of the fallback
    carries its own 5 seconds. *)
Theorem rotated_hint_lost :
  ∃ f, snd (snd (sample_run
         (sample_gateway [u8 "k1"; u8 "k2"] (Some (sample_profile [u8 "k3"] (u8 "m2"))))
         [sample_status 429 (Some (u8 "3600")); sample_status 500 None; sample_status 500 None;
          sample_status 500 None; sample_status 429 (Some (u8 "5"))])) = Err (E_failed f false)
    ∧ lf_error_code f = LLM_RATE_LIMITED ∧ lf_retry_after_s f = Some (float_of_Z 5).
Proof. eexists. split; [vm_compute; reflexivity|]. split; vm_compute; reflexivity. Qed.
End Sample.
