(* ===== verification/LlmCache.v ===== *)
(** * Cached answers

    What [review_result_entry] stores, [stored_review_result] reads back. *)

From Stdlib Require Import String.
From stdpp Require Import numbers list.
From S2P Require Import Prelude PyText PyHash PyFloat PyValue DiffMap PolicySnapshots Llm.
#[local] Open Scope Z_scope.

Definition HEX : pystr := u8 "0123456789abcdef".

Lemma hex_char_in d : (d < 16)%N → hex_char d ∈ HEX.
Proof.
  intros Hd. assert (H : d ∈ N.of_nat <$> seq 0 16).
  { apply list_elem_of_fmap. exists (N.to_nat d). rewrite N2Nat.id. split; [done|]. apply elem_of_seq. lia. }
  apply list_elem_of_In in H. cbn in H. unfold HEX. cbn.
  repeat destruct H as [<-|H]; try done; by apply (bool_decide_unpack _); vm_compute.
Qed.

Lemma hex_fixed_in w n : Forall (λ c, c ∈ HEX) (hex_fixed w n).
Proof.
  revert n. induction w as [|w IH]; intros n; cbn [hex_fixed]; [constructor|].
  apply Forall_app. split; [done|]. constructor; [|constructor]. apply hex_char_in, N.mod_lt. lia.
Qed.

(** A decidable property of the sixteen digits. *)
Lemma hex_case (P : char → bool) c : forallb P HEX = true → c ∈ HEX → P c = true.
Proof. intros H Hc. apply (proj1 (forallb_forall _ _) H). by apply list_elem_of_In. Qed.

Lemma str_replace_absent old new c s :
  head old = Some c → c ∉ s → str_replace s old new = s.
Proof.
  intros Ho. unfold str_replace. generalize (length s). intros fuel. revert s.
  induction fuel as [|fuel IH]; intros s Hs; [by destruct s|]. destruct s as [|d s]; [done|]. cbn.
  apply not_elem_of_cons in Hs as [Hd Hs]. rewrite (IH s) by done. destruct old as [|c' old]; [done|].
  injection Ho as ->. cbn. by rewrite (proj2 (N.eqb_neq _ _)) by done.
Qed.

Lemma strip_absent p s : Forall (λ c, p c = false) s → strip_with p s = s.
Proof.
  assert (Hl : ∀ s, Forall (λ c, p c = false) s → lstrip_with p s = s).
  { intros s' H. destruct H as [|c s' Hc _]; [done|]. cbn. by rewrite Hc. }
  intros H. unfold strip_with, rstrip_with. rewrite (Hl s), (Hl (rev s)); [apply rev_involutive|..|done].
  by apply Forall_rev.
Qed.

Lemma hex_number_fold acc s :
  Forall (λ c, c ∈ HEX) s → s ≠ [] ∨ acc ≠ None → hex_number acc s = hex_fold (default 0%N acc) s.
Proof.
  intros H. revert acc. induction H as [|c s Hc _ IH]; intros acc Ha; cbn.
  { destruct acc; [done|by destruct Ha]. }
  pose proof (hex_case (λ c, negb (c =? 95)%N && bool_decide (hex_value c = hex_digit c)) c eq_refl Hc) as E.
  apply andb_true_iff in E as [E1%negb_true_iff E2%bool_decide_eq_true]. rewrite E1, E2.
  destruct (hex_digit c) as [d|]; [|done]. cbn. rewrite IH; [done|by right].
Qed.

Lemma str_lower_hex s : Forall (λ c, c ∈ HEX) s → str_lower s = s.
Proof.
  induction 1 as [|c s Hc _ IH]; [done|].
  pose proof (hex_case (λ c, bool_decide (lower_char c = [c])) c eq_refl Hc) as E.
  apply bool_decide_eq_true in E. change (lower_char c ++ str_lower s = c :: s). by rewrite E, IH.
Qed.

Lemma int_base16_hex s : Forall (λ c, c ∈ HEX) s → s ≠ [] → int_base16 s = Z.of_N <$> hex_fold 0 s.
Proof.
  intros H Hs. unfold int_base16. rewrite strip_absent.
  2: { eapply Forall_impl; [exact H|]. intros c Hc. apply negb_true_iff.
       exact (hex_case (λ c, negb (is_space c)) c eq_refl Hc). }
  assert (Hsign : take_sign s = (false, s)).
  { destruct H as [|c s Hc _]; [done|]. cbn.
    pose proof (hex_case (λ c, negb (c =? 45)%N && negb (c =? 43)%N) c eq_refl Hc) as E.
    apply andb_true_iff in E as [->%negb_true_iff ->%negb_true_iff]. done. }
  rewrite Hsign.
  assert (Hx : startswith (str_lower s) (u8 "0x") = false).
  { rewrite str_lower_hex by done. destruct H as [|c s Hc H]; [done|].
    change (u8 "0x") with [48%N; 120%N]. destruct H as [|d s Hd _]; cbn [startswith]; [apply andb_false_r|].
    pose proof (hex_case (λ c, negb (120 =? c)%N) d eq_refl Hd) as E.
    apply negb_true_iff in E. by rewrite E, andb_false_r. }
  rewrite Hx. cbn [andb].
  assert (E : match s with [] => [] | _ :: _ => s end = s) by by destruct s.
  rewrite E, hex_number_fold by (done || by left). by destruct (hex_fold _ _).
Qed.

(** The other spellings [UUID] reads do not matter for what [str] writes. *)
Lemma UUID_of_str_of u : (u < 2 ^ 128)%N → UUID_of_str (str_of_uuid u) = Some u.
Proof.
  intros Hu. pose proof (uuid_roundtrip u Hu) as Hr. unfold uuid_of_str in Hr.
  assert (Hin : Forall (λ c, c ∈ 45%N :: HEX) (str_of_uuid u)).
  { pose proof (hex_fixed_in 32 u) as H.
    assert (Hh : Forall (λ c, c ∈ 45%N :: HEX) (hex_fixed 32 u)).
    { eapply Forall_impl; [exact H|]. intros c. by right. }
    unfold str_of_uuid. rewrite !Forall_app. split_and!; auto using Forall_take, Forall_drop;
      constructor; try constructor; left. }
  assert (Hab : ∀ x, bool_decide (x ∈ 45%N :: HEX) = false → x ∉ str_of_uuid u).
  { intros x Hx Hi. apply bool_decide_eq_false in Hx. apply Hx.
    by apply (proj1 (Forall_forall _ _) Hin). }
  unfold UUID_of_str. rewrite (str_replace_absent (u8 "urn:") _ 117%N) by (done || by apply Hab).
  rewrite (str_replace_absent (u8 "uuid:") _ 117%N) by (done || by apply Hab).
  rewrite strip_absent.
  2: { apply Forall_forall. intros c Hc. apply orb_false_iff.
       split; apply N.eqb_neq; intros ->; [exact (Hab 123%N eq_refl Hc)|exact (Hab 125%N eq_refl Hc)]. }
  destruct (length _ =? 32)%nat eqn:El; [|done].
  set (h := List.filter _ (str_of_uuid u)) in *.
  assert (Hh : Forall (λ c, c ∈ HEX) h).
  { apply Forall_forall. intros c Hc. apply list_elem_of_In, filter_In in Hc as [Hc Hn].
    apply list_elem_of_In, (proj1 (Forall_forall _ _) Hin), elem_of_cons in Hc as [->|Hc]; done. }
  rewrite int_base16_hex; [|done|by intros E; rewrite E in El].
  rewrite Hr. cbn. rewrite N2Z.id.
  by rewrite (proj2 (Z.leb_le _ _)), (proj2 (Z.ltb_lt _ _)) by lia.
Qed.

Lemma parse_id_uuid o required :
  uuid_ok o → (o ≠ None ∨ required = false) → parse_id (Some (uuid_or_none o)) required = (true, o).
Proof.
  intros Ho H. destruct o as [u|]; [|by destruct H as [H| ->]].
  change (match UUID_of_str (str_of_uuid u) with
          | Some u => (true, Some u)
          | None => (false, None)
          end = (true, Some u)).
  by rewrite UUID_of_str_of by by apply Ho.
Qed.

(** A cached answer comes back whole: reading an entry the gateway stored gives the answer and
    the run, call and manifest it came from. *)
Theorem cached_entry_roundtrip answer source :
  (rs_run_id source < 2 ^ 128)%N → uuid_ok (rs_call_id source) → uuid_ok (rs_manifest_id source) →
  stored_review_result (review_result_entry answer source) = Some (answer, source).
Proof.
  intros H1 H2 H3. destruct source as [run_id call_id manifest_id].
  change ((let '(run_ok, run) := parse_id (Some (uuid_or_none (Some run_id))) true in
          let '(call_ok, call) := parse_id (Some (uuid_or_none call_id)) false in
          let '(manifest_ok, manifest) := parse_id (Some (uuid_or_none manifest_id)) false in
          if run_ok && call_ok && manifest_ok
          then r ← run; Some (answer, mkReviewResultSource r call manifest) else None)
          = Some (answer, mkReviewResultSource run_id call_id manifest_id)).
  rewrite (parse_id_uuid call_id), (parse_id_uuid manifest_id) by (done || by right).
  rewrite parse_id_uuid; [done|by intros u [= <-]|by left].
Qed.

Lemma cached_entry_roundtrip_witness :
  let source := mkReviewResultSource 7 (Some 11%N) None in
  stored_review_result (review_result_entry [(u8 "summary", VStr (u8 "fine"))] source)
  = Some ([(u8 "summary", VStr (u8 "fine"))], source).
Proof.
  intros source. apply (cached_entry_roundtrip [(u8 "summary", VStr (u8 "fine"))] source).
  - reflexivity.
  - intros u [= <-]. reflexivity.
  - discriminate.
Defined.
