(* ===== verification/LlmKeys.v ===== *)
(** * The keys of the models

    Where an API key of the environment can be sent. *)

From Stdlib Require Import String SpecFloat.
From stdpp Require Import numbers list sets.
From S2P Require Import Prelude PyText PyHash PyFloat PyDecimal PyValue DiffMap RunStore Llm LlmSettings.
#[local] Open Scope Z_scope.

(** A host keys may be sent to without https: by its name one of this machine or of the internal
    network, which can be another machine. *)
Definition internal_host (host : pystr) : Prop :=
  host ∈ LOCAL_HOSTS
  ∨ ∃ name suffix, host = name ++ suffix ∧ suffix ∈ [u8 ".localhost"; u8 ".local"; u8 ".internal"].

Lemma is_local_internal (urlsplit : pystr → option UrlParts) url :
  is_local urlsplit url = true → ∃ host, (parts ← urlsplit url; ur_hostname parts) = Some host ∧ internal_host host.
Proof.
  unfold is_local. destruct (parts ← urlsplit url; ur_hostname parts) as [host|]; cbn [from_option id]; [|by vm_compute].
  intros H. exists host. split; [done|]. unfold internal_host.
  apply orb_true_iff in H as [[[H|H]%orb_true_iff|H]%orb_true_iff|H]; [left; by apply list_elem_of_In, str_mem_In|right..];
    apply endswith_iff in H as [r ->]; exists r; eexists; (split; [done|]); apply list_elem_of_In; cbn; tauto.
Qed.

Section Keys.
Context (urlsplit : pystr → option UrlParts) (json_loads : pystr → option pyval).
Context (env : list (pystr * pystr)).

Abbreviation identity := (endpoint_identity urlsplit).
Abbreviation profile := (profile_from_env urlsplit json_loads env).

(** The scheme of the URL is https, or its host is internal. *)
Definition may_carry_keys (url : pystr) : Prop :=
  str_lower (default [] (ur_scheme <$> urlsplit url)) = u8 "https"
  ∨ ∃ host, (parts ← urlsplit url; ur_hostname parts) = Some host ∧ internal_host host.

(** The keys the variable of one profile lists. *)
Definition listed_keys (prefix : pystr) : list pystr := env_keys env prefix None.

Lemma identity_prefix url prefix prefix' e : identity url prefix = Ok e → identity url prefix' = Ok e.
Proof. unfold endpoint_identity. by repeat case_match. Qed.

Lemma env_number_positive prefix name d n :
  env_number env prefix name d = Ok n → (∀ m, d = Some m → 0 < m) → 0 < n.
Proof.
  unfold env_number. intros H Hd. destruct (env_value env prefix name); [|destruct d; simplify_eq; eauto].
  repeat case_match; simplify_eq. lia.
Qed.

Lemma known_positive model k :
  assoc model KNOWN_MODELS = Some k → 0 < mo_context_window k ∧ 0 < mo_max_output_tokens k.
Proof.
  cut (Forall (λ m, 0 < mo_context_window (snd m) ∧ 0 < mo_max_output_tokens (snd m)) KNOWN_MODELS).
  - induction 1 as [|[m v] l Hm _ IH]; cbn [assoc]; [done|]. destruct (model =?s m); [|done].
    by intros [= <-].
  - repeat constructor.
Qed.

(** What one profile is, when its variables are accepted. *)
Record accepted_profile (prefix : pystr) (inherit : option ModelProfile) (p : ModelProfile) : Prop := mkProfileOk {
  po_carry : mo_api_keys p ≠ [] → may_carry_keys (mo_base_url p);
  po_tokens : 0 < mo_max_output_tokens p < mo_context_window p;
  po_endpoint : ∃ e, identity (mo_base_url p) prefix = Ok e
    ∧ (mo_api_keys p = listed_keys prefix
       ∨ env_value env prefix (u8 "API_KEYS") = None
         ∧ ∃ i, inherit = Some i ∧ mo_api_keys p = mo_api_keys i ∧ identity (mo_base_url i) prefix = Ok e)
}.

Lemma env_keys_inherited prefix inherited :
  env_keys env prefix inherited = listed_keys prefix
  ∨ env_value env prefix (u8 "API_KEYS") = None
    ∧ ∃ i, inherited = Some i ∧ env_keys env prefix inherited = mo_api_keys i.
Proof.
  unfold listed_keys, env_keys. destruct (env_value _ _ _); [by left|].
  destruct inherited as [i|]; [right; split; [done|]; by exists i|by left].
Qed.

Lemma profile_from_env_ok prefix inherit allow p :
  profile prefix inherit allow = Ok p → accepted_profile prefix inherit p.
Proof.
  unfold profile_from_env. destruct (env_value env prefix (u8 "MODEL")) as [model|]; [|done]. cbv zeta.
  intros (base_url & _ & H)%bind_ok. apply bind_ok in H as (e & He & H).
  apply bind_ok in H as (_ & _ & H). apply bind_ok in H as (kid & _ & H).
  apply bind_ok in H as (_ & _ & H). apply bind_ok in H as (inherited & Hi & H).
  apply bind_ok in H as (_ & _ & H). apply bind_ok in H as (_ & Hs%raise_when_ok & H).
  apply bind_ok in H as (structured & _ & H). apply bind_ok in H as (extra & _ & H).
  apply bind_ok in H as (window & Hw & H). apply bind_ok in H as (tokens & Ht & H).
  apply bind_ok in H as (_ & Hlt%raise_when_ok & H). apply bind_ok in H as (input & _ & H).
  apply bind_ok in H as (output & _ & H). apply bind_ok in H as (cache & _ & H).
  apply bind_ok in H as (price & _ & [= <-]). split; cbn [mo_api_keys mo_base_url mo_max_output_tokens mo_context_window].
  - intros Hk. rewrite bool_decide_eq_false_2 in Hs by done. cbn [negb andb] in Hs. unfold may_carry_keys.
    apply andb_false_iff in Hs as [Hs|Hs]; apply negb_false_iff in Hs; [left; by apply str_eqb_eq|right; by apply is_local_internal].
  - apply Z.leb_gt in Hlt. split; [|done]. eapply env_number_positive; [exact Ht|].
    intros m Hm. destruct (assoc model KNOWN_MODELS) as [k|] eqn:Ek; injection Hm as <-; [|lia].
    by apply (known_positive model).
  - exists e. split; [done|]. destruct (env_keys_inherited prefix inherited) as [Hk|(Hu & i & -> & Hk)]; [by left|].
    right. split; [done|]. exists i. destruct inherit as [i'|]; [|done]. apply bind_ok in Hi as (e' & He' & Hi).
    case_bool_decide as E; [|done]. injection Hi as ->. by subst e'.
Qed.

(** The profiles of the settings with the prefix of their variables. *)
Definition named (prefix : pystr) (p : option ModelProfile) : list (pystr * ModelProfile) :=
  match p with Some p => [(prefix, p)] | None => [] end.
Definition profiles (s : LlmSettings) : list (pystr * ModelProfile) :=
  (u8 "LLM_", st_primary s) :: named (u8 "LLM_FALLBACK_") (st_fallback s)
  ++ named (u8 "LLM_VERIFIER_") (st_verifier s)
  ++ named (u8 "LLM_VERIFIER_FALLBACK_") (st_verifier_fallback s).

(** The profile whose keys the profile of a prefix may inherit. *)
Definition before (s : LlmSettings) (prefix : pystr) : option ModelProfile :=
  if prefix =?s u8 "LLM_" then None
  else if prefix =?s u8 "LLM_VERIFIER_FALLBACK_" then Some (default (st_primary s) (st_verifier s))
  else Some (st_primary s).

(** Every key of [p] is listed for a profile of [ps] at the same endpoint. *)
Definition keys_listed (ps : list (pystr * ModelProfile)) (p : ModelProfile) : Prop :=
  ∃ prefix q e, (prefix, q) ∈ ps ∧ mo_api_keys p = listed_keys prefix
    ∧ identity (mo_base_url q) prefix = Ok e ∧ identity (mo_base_url p) prefix = Ok e.

Lemma keys_listed_mono ps ps' p : ps ⊆ ps' → keys_listed ps p → keys_listed ps' p.
Proof. intros H (prefix & q & e & Hin & Hr). exists prefix, q, e. split; [by apply H|done]. Qed.

Lemma profile_ok_listed prefix inherit p :
  accepted_profile prefix inherit p → ∀ ps, (∀ i, inherit = Some i → keys_listed ps i) →
  keys_listed ((prefix, p) :: ps) p.
Proof.
  intros [_ _ (e & He & [Hk|(_ & i & -> & Hk & Hi)])] ps Hps.
  - exists prefix, p, e. split; [apply list_elem_of_here|done].
  - destruct (Hps i eq_refl) as (pre & q & e' & Hin & Hl & Hq & Hi').
    exists pre, q, e'. split; [by right|]. split; [congruence|]. split; [done|].
    apply (identity_prefix _ _ pre) in He, Hi. congruence.
Qed.

Lemma optional_profile_ok prefix i allow o :
  optional_profile urlsplit json_loads env prefix i allow = Ok o →
  ∀ p, o = Some p → accepted_profile prefix (Some i) p.
Proof.
  unfold optional_profile. destruct (env_set _ _); [|by intros [= <-]].
  intros (p & Hp & [= <-])%bind_ok p' [= <-]. by eapply profile_from_env_ok.
Qed.

Lemma named_forall (P : pystr * ModelProfile → Prop) prefix o :
  (∀ q, o = Some q → P (prefix, q)) → Forall P (named prefix o).
Proof. intros H. destruct o; cbn; [|constructor]. constructor; [by apply H|constructor]. Qed.

Lemma optional_listed prefix i allow o q ps :
  optional_profile urlsplit json_loads env prefix i allow = Ok o → o = Some q →
  (prefix, q) ∈ ps → keys_listed ps i →
  accepted_profile prefix (Some i) q ∧ keys_listed ps q.
Proof.
  intros Ho Hq Hin Hi. pose proof (optional_profile_ok _ _ _ _ Ho q Hq) as Hok.
  split; [done|]. eapply keys_listed_mono.
  2: { apply (profile_ok_listed _ _ _ Hok ps). by intros ? [= <-]. }
  by intros x [->|Hx]%elem_of_cons.
Qed.

Lemma settings_listed s :
  from_env urlsplit json_loads env = Ok s →
  Forall (λ x, accepted_profile (fst x) (before s (fst x)) (snd x) ∧ keys_listed (profiles s) (snd x))
    (profiles s).
Proof.
  unfold from_env. cbv zeta. intros (p1 & H1 & H)%bind_ok. apply bind_ok in H as (o2 & H2 & H).
  apply bind_ok in H as (o3 & H3 & H). apply bind_ok in H as (o4 & H4 & [= <-]).
  apply profile_from_env_ok in H1. set (s := mkLlmSettings p1 o2 default_policy o3 o4).
  assert (L1 : keys_listed (profiles s) p1).
  { eapply keys_listed_mono, (profile_ok_listed _ _ _ H1 []); [|by intros ? [=]].
    intros x ->%list_elem_of_singleton. left. }
  assert (L3 : ∀ q, o3 = Some q → accepted_profile (u8 "LLM_VERIFIER_") (Some p1) q ∧ keys_listed (profiles s) q).
  { intros q Hq. eapply optional_listed; [exact H3|done| |done].
    unfold profiles. cbn. rewrite Hq. set_solver. }
  constructor; [by split|].
  apply Forall_app; split; [|apply Forall_app; split]; apply named_forall; intros q Hq.
  - eapply optional_listed; [exact H2|exact Hq| |done]. unfold profiles. rewrite Hq. set_solver.
  - by apply L3.
  - eapply optional_listed; [exact H4|exact Hq| |].
    + unfold profiles. rewrite Hq. set_solver.
    + destruct o3 as [v|]; [by apply L3|done].
Qed.

(** C21. A key leaves the process only for the endpoint it was configured for.  In settings read from
    the environment, a profile that has keys is reached over https, or its host is localhost,
    127.0.0.1, ::1, host.docker.internal or a name that ends in .localhost, .local or .internal; to
    such a host, which may be another machine, keys may go over plain http.  The keys of a profile are
    those its own variable lists; or the variable is not set, and they are those of the profile it
    inherits from (the primary; for the verifier's fallback the verifier when there is one), whose
    endpoint (scheme, host, port and path) is the same.  So they are the keys some profile of that very
    endpoint lists.  Every profile reserves fewer tokens for the answer than its window has. *)
Theorem keys_follow_endpoint s prefix p :
  from_env urlsplit json_loads env = Ok s → (prefix, p) ∈ profiles s →
  (mo_api_keys p ≠ [] → may_carry_keys (mo_base_url p))
  ∧ (mo_api_keys p = listed_keys prefix
     ∨ env_value env prefix (u8 "API_KEYS") = None
       ∧ ∃ i e, before s prefix = Some i ∧ mo_api_keys p = mo_api_keys i
           ∧ identity (mo_base_url i) prefix = Ok e ∧ identity (mo_base_url p) prefix = Ok e)
  ∧ (∃ prefix' q e, (prefix', q) ∈ profiles s ∧ mo_api_keys p = listed_keys prefix'
       ∧ identity (mo_base_url q) prefix' = Ok e ∧ identity (mo_base_url p) prefix' = Ok e)
  ∧ 0 < mo_max_output_tokens p < mo_context_window p.
Proof.
  intros Hs Hin. destruct (proj1 (Forall_forall _ _) (settings_listed s Hs) _ Hin) as [[Hc Ht (e & He & Hk)] Hl].
  split; [done|split; [|by split]]. destruct Hk as [Hk|(Hu & i & Hb & Hk & Hi)]; [by left|right].
  split; [done|]. by exists i, e.
Qed.
End Keys.

(** A known model with one key, and a fallback of another name at the same endpoint. *)
Definition sample_env : list (pystr * pystr) :=
  [(u8 "LLM_MODEL", u8 "mistral-small-4"); (u8 "LLM_API_KEYS", u8 "k1, k2");
   (u8 "LLM_FALLBACK_MODEL", u8 "other"); (u8 "LLM_FALLBACK_BASE_URL", EUROUTER_URL);
   (u8 "LLM_FALLBACK_CONTEXT_WINDOW", u8 "32000")].

Definition sample_split (url : pystr) : option UrlParts :=
  Some (mkUrlParts (u8 "https") (Some (u8 "api.eurouter.ai")) None None None (u8 "/v1") [] []).

Lemma keys_follow_endpoint_witness :
  ∃ s p, from_env sample_split (λ _, None) sample_env = Ok s ∧ st_fallback s = Some p
    ∧ (u8 "LLM_FALLBACK_", p) ∈ profiles s ∧ mo_api_keys p = [u8 "k1"; u8 "k2"]
    ∧ may_carry_keys sample_split (mo_base_url p)
    ∧ (mo_api_keys p = listed_keys sample_env (u8 "LLM_FALLBACK_")
       ∨ env_value sample_env (u8 "LLM_FALLBACK_") (u8 "API_KEYS") = None
         ∧ ∃ i e, before s (u8 "LLM_FALLBACK_") = Some i ∧ mo_api_keys p = mo_api_keys i
             ∧ endpoint_identity sample_split (mo_base_url i) (u8 "LLM_FALLBACK_") = Ok e
             ∧ endpoint_identity sample_split (mo_base_url p) (u8 "LLM_FALLBACK_") = Ok e).
Proof.
  eexists _, _. split; [vm_compute; reflexivity|]. split; [reflexivity|].
  split; [right; left|]. split; [reflexivity|].
  match goal with |- may_carry_keys _ (mo_base_url ?p) ∧ (_ ∨ _ ∧ ∃ i e, before ?s _ = _ ∧ _) =>
    destruct (keys_follow_endpoint sample_split (λ _, None) sample_env s (u8 "LLM_FALLBACK_") p)
      as (Hc & Ho & _)
  end.
  - vm_compute; reflexivity.
  - right. left.
  - split; [apply Hc; discriminate|exact Ho].
Defined.
