(* ===== verification/CheckRuns.v ===== *)
(** * What the author of a pull request is told ([check_runs.py], [bitbucket_status.py])

    The check-run of a run on GitHub and its build status on Bitbucket, as functions of the state
    of the run. *)

From Stdlib Require Import String QArith.
From stdpp Require Import numbers gmap.
From S2P Require Import Prelude PyText PyHash DiffMap Verdict RunFailures RunStore Findings.
#[local] Open Scope Z_scope.

(** ** Texts of the error codes *)

Definition ERROR_TEXTS : list (pystr * pystr) :=
  [(u8 "llm_timeout", u8 "Модель не ответила вовремя. Прогон можно перезапустить из UI.");
   (u8 "llm_rate_limited",
    u8 "Провайдер модели ограничил частоту запросов. Перезапустите прогон позже.");
   (u8 "llm_payment_required", u8 "AI-ревью временно недоступно.");
   (u8 "llm_unavailable", u8 "Провайдер модели недоступен.");
   (u8 "llm_invalid_output", u8 "Модель вернула ответ не по контракту.");
   (u8 "llm_context_overflow", u8 "PR не помещается в контекст модели.");
   (u8 "budget_exceeded", u8 "Превышен лимит стоимости прогона.");
   (u8 "deadline_exceeded", u8 "Прогон не уложился в лимит времени.");
   (u8 "diff_fetch_failed", u8 "Не удалось получить дифф из GitHub.");
   (u8 "bitbucket_fetch_failed", u8 "Не удалось получить данные ревью из Bitbucket.");
   (u8 "bitbucket_request_budget_exceeded", u8 "Лимит запросов к Bitbucket для ревью исчерпан.");
   (u8 "bitbucket_invalid_response", u8 "Bitbucket вернул некорректные данные для ревью.");
   (u8 "commit_messages_fetch_failed", u8 "Не удалось получить сообщения коммитов PR из GitHub.");
   (u8 "bitbucket_commit_messages_fetch_failed",
    u8 "Не удалось получить сообщения коммитов PR из Bitbucket.");
   (u8 "github_forbidden", u8 "У GitHub App нет доступа к репозиторию или PR.");
   (u8 "bitbucket_source_unavailable", u8 "Нет доступа к исходному fork-репозиторию Bitbucket.");
   (u8 "bitbucket_review_limit_exceeded", u8 "PR Bitbucket превышает лимит файлов для ревью.");
   (u8 "bitbucket_response_budget_exceeded",
    u8 "Исчерпан бюджет ответов Bitbucket для одного прогона.");
   (u8 "bitbucket_engine_unsupported", u8 "Выбранный движок ревью не поддерживается Bitbucket.");
   (u8 "github_publish_failed", u8 "GitHub не принял ревью.");
   (u8 "pr_base_changed",
    u8 "Целевая ветка PR изменилась после запуска ревью. Перезапустите ревью из UI.");
   (u8 "lease_expired", u8 "Обработка прервалась 3 раза подряд.");
   (u8 "internal_error", u8 "Внутренняя ошибка сервиса.");
   (u8 "superseded", u8 "В PR новый коммит — ревью будет для него.");
   (u8 "cancelled_by_user", u8 "Прогон отменён из UI.");
   (u8 "pr_closed", u8 "PR закрыт.");
   (u8 "rule_not_matched", u8 "Целевая ветка PR не подходит под фильтр веток репозитория.");
   (u8 "all_changes_ignored", u8 "Все изменения исключены из AI-ревью.");
   (u8 "no_changes", u8 "В PR нет изменённых файлов. Ревью не выполнялось.");
   (u8 "policy_document_too_large",
    u8 "Документ правил превышает 64 КиБ. Ревью не выполнено; уменьшите документ.");
   (u8 "policy_document_decode_error",
    u8 "Документ правил должен быть корректным UTF-8. Исправьте кодировку.");
   (u8 "policy_document_control_character",
    u8 "В документе правил есть недопустимый управляющий символ.");
   (u8 "policy_document_type_unsupported",
    u8 "Документ правил должен быть обычным файлом в Git.");
   (u8 "policy_ignore_block_duplicate",
    u8 "В .review/rules.md допустим один блок review-ignore.");
   (u8 "policy_ignore_block_nested",
    u8 "Блок review-ignore должен быть на верхнем уровне .review/rules.md.");
   (u8 "policy_ignore_block_unclosed", u8 "Блок review-ignore в .review/rules.md не закрыт.");
   (u8 "policy_ignore_info_invalid", u8 "review-ignore не принимает дополнительные параметры.");
   (u8 "policy_ignore_pattern_invalid", u8 "В блоке review-ignore недопустимая маска.");
   (u8 "policy_ignore_limit_exceeded",
    u8 "В блоке review-ignore слишком много масок или слишком длинная маска.");
   (u8 "policy_path_invalid", u8 "В изменениях есть недопустимый путь файла.");
   (u8 "policy_match_budget_exceeded",
    u8 "Маски review-ignore слишком дороги в проверке. Упростите политику.");
   (u8 "policy_prompt_budget_exceeded",
    u8 "Документы правил не помещаются целиком в контекст модели.");
   (u8 "policy_access_denied", u8 "Нет доступа к документам правил репозитория.");
   (u8 "policy_revision_unavailable", u8 "Закреплённая ревизия правил недоступна.");
   (u8 "policy_fetch_transient", u8 "Не удалось прочитать документы правил из GitHub.");
   (u8 "policy_rate_limited", u8 "GitHub ограничил частоту запросов при чтении правил.");
   (u8 "policy_snapshot_integrity_error", u8 "Снимок правил прогона повреждён или противоречив.");
   (u8 "policy_context_violation", u8 "В контекст модели попал запрещённый источник.");
   (u8 "budget_paused", u8 "Дневной бюджет исчерпан, ревью на паузе.");
   (u8 "verification_context_overflow",
    u8 "Обязательные данные проверки не помещаются в контекст.");
   (u8 "verification_invalid_output", u8 "Проверяющий вернул ответ не по контракту.");
   (u8 "verification_unavailable", u8 "Проверяющий временно недоступен.");
   (u8 "verification_budget_exceeded", u8 "Бюджета недостаточно для обязательной проверки.");
   (u8 "verification_deadline_exceeded", u8 "Недостаточно времени для обязательной проверки.")].

(** [code or ''] *)
Definition or_empty (o : option pystr) : pystr := default [] o.

Definition failure_reason (error_code detail : option pystr) : pystr :=
  let reason := default (or_empty error_code) (assoc (or_empty error_code) ERROR_TEXTS) in
  match detail with
  | Some ((_ :: _) as d) => reason ++ u8 " Where: " ++ d ++ u8 "."
  | _ => reason
  end.

(** ** The check-run *)

Record CheckRunView : Type := mkCheckRunView {
  cv_status : pystr;
  cv_conclusion : option pystr;
  cv_title : pystr;
  cv_summary : pystr;
  cv_details_url : option pystr
}.

(** [CheckRunReport], without the address of the check-run. *)
Record CheckRunReport : Type := mkCheckRunReport {
  cr_state : pystr;
  cr_attempt : Z;
  cr_error_code : option pystr;
  cr_error_detail : option pystr;
  cr_verdict : option pystr;
  cr_severity_counts : Severity → Z;
  cr_inline_count : Z;
  cr_body_count : Z;
  cr_below_threshold_count : Z;
  cr_summary_only : bool;
  cr_summary_reason : option pystr;
  cr_run_url : option pystr;
  cr_coverage_status : option pystr;
  cr_saved_summary : option (pystr * pystr)
}.

(** The reason of a summary-only payload of [context.build]. *)
Definition summary_only_reason_of (summary : json) : option pystr :=
  match summary with
  | JObj kvs =>
      match assoc (u8 "status") kvs with
      | Some (JStr s) =>
          if s =?s u8 "summary_only"
          then match assoc (u8 "reason") kvs with Some (JStr r) => Some r | _ => None end
          else None
      | _ => None
      end
  | _ => None
  end.

Definition is_summary_only_stop (summary : json) : bool :=
  match summary with
  | JObj kvs =>
      match assoc (u8 "status") kvs with
      | Some (JStr s) =>
          (s =?s u8 "summary_only")
          && match assoc (u8 "reviewable_lines") kvs with None => true | Some _ => false end
      | _ => false
      end
  | _ => false
  end.

Definition ACTIVE_STATES : list pystr := [u8 "queued"; u8 "running"; u8 "publishing"].

Definition link (r : CheckRunReport) : pystr :=
  match cr_run_url r with
  | Some ((_ :: _) as url) => [LF; LF] ++ url
  | _ => []
  end.

Definition explanation (r : CheckRunReport) : pystr :=
  match cr_saved_summary r with
  | Some (problem, done_well) => [LF] ++ problem ++ [LF] ++ done_well
  | None => []
  end.

(** The summary of a review that was published. *)
Definition succeeded_view (r : CheckRunReport) : CheckRunView :=
  if cr_summary_only r
  then mkCheckRunView (u8 "completed") (Some (u8 "neutral")) (u8 "AI-ревью: только сводка")
         (summary_only_line (cr_summary_reason r) ++ explanation r ++ link r) (cr_run_url r)
  else
    let below := if cr_below_threshold_count r =? 0 then []
                 else [LF] ++ u8 "ниже порога severity: " ++ str_of_Z (cr_below_threshold_count r) in
    let title :=
      match cr_verdict r with
      | Some ((_ :: _) as v) => v
      | _ => if ostr_eqb (cr_coverage_status r) (Some (u8 "none"))
             then u8 "нет доступных для анализа изменений" else u8 "проверка неполная"
      end in
    mkCheckRunView (u8 "completed") (Some (u8 "neutral")) (u8 "AI-ревью: " ++ title)
      (severity_count_phrase (cr_severity_counts r) ++ [LF] ++ u8 "inline: "
       ++ str_of_Z (cr_inline_count r) ++ u8 ", в теле ревью: " ++ str_of_Z (cr_body_count r)
       ++ explanation r ++ below ++ link r) (cr_run_url r).

Definition check_run_view (r : CheckRunReport) : CheckRunView :=
  if str_mem (cr_state r) ACTIVE_STATES
  then mkCheckRunView (u8 "in_progress") None (u8 "AI-ревью выполняется")
         (u8 "попытка " ++ str_of_Z (Z.max (cr_attempt r) 1) ++ u8 " из " ++ str_of_Z MAX_ATTEMPTS)
         (cr_run_url r)
  else if cr_state r =?s u8 "succeeded" then succeeded_view r
  else
    let reason := failure_reason (cr_error_code r) (cr_error_detail r) in
    if cr_state r =?s u8 "failed" then
      mkCheckRunView (u8 "completed") (Some (u8 "neutral")) (u8 "AI-ревью не выполнено")
        (if ostr_eqb (cr_error_code r) (Some (u8 "llm_payment_required"))
         then reason ++ link r
         else u8 "`" ++ default (u8 "None") (cr_error_code r) ++ u8 "`: " ++ reason ++ link r)
        (cr_run_url r)
    else if cr_state r =?s u8 "cancelled" then
      mkCheckRunView (u8 "completed") (Some (u8 "cancelled")) (u8 "AI-ревью отменено") reason
        (cr_run_url r)
    else mkCheckRunView (u8 "completed") (Some (u8 "skipped")) (u8 "AI-ревью пропущено") reason
           (cr_run_url r).

(** ** The build status on Bitbucket *)

Definition is_sha_char (c : char) : bool := in_range c (48, 57)%N || in_range c (97, 102)%N.

Definition RUN_STATES : list pystr :=
  ACTIVE_STATES ++ [u8 "succeeded"; u8 "failed"; u8 "cancelled"; u8 "skipped"].

Definition bitbucket_status_valid (pr_number : Z) (head_sha source_branch run_url state : pystr)
  : bool :=
  (0 <? pr_number) && (length head_sha =? 40)%nat && forallb is_sha_char head_sha
  && negb (source_branch =?s []) && (length source_branch <=? 255)%nat
  && startswith run_url (u8 "https://") && str_mem state RUN_STATES.

(** The key of a status; ASCII text is always encodable. *)
Definition bitbucket_status_key (workspace_id repository_uuid : UUID) (pr_number : Z)
    (head_sha : pystr) : option pystr :=
  (λ bytes, u8 "AI-REVIEW-" ++ take 30 (sha256_hex bytes))
    <$> utf8_encode (str_of_uuid workspace_id ++ u8 ":" ++ str_of_uuid repository_uuid ++ u8 ":"
                     ++ str_of_Z pr_number ++ u8 ":" ++ head_sha).

Definition bitbucket_state (state : pystr) (coverage_status : option pystr) : pystr * pystr :=
  if str_mem state ACTIVE_STATES then (u8 "INPROGRESS", u8 "AI review running")
  else if state =?s u8 "succeeded" then
    (u8 "SUCCESSFUL",
     if ostr_eqb coverage_status (Some (u8 "none")) then u8 "AI review: nothing reviewable"
     else if ostr_eqb coverage_status (Some (u8 "partial")) then u8 "AI review incomplete"
     else u8 "AI review complete")
  else (u8 "STOPPED",
        if state =?s u8 "failed" then u8 "AI review did not complete"
        else if state =?s u8 "cancelled" then u8 "AI review cancelled"
        else u8 "AI review skipped").

Definition bitbucket_status_payload (workspace_id repository_uuid : UUID) (pr_number : Z)
    (head_sha source_branch run_url state : pystr) (coverage_status : option pystr)
  : option (list (pystr * pystr)) :=
  if negb (bitbucket_status_valid pr_number head_sha source_branch run_url state) then None
  else
    match bitbucket_status_key workspace_id repository_uuid pr_number head_sha with
    | Some key =>
        let '(remote_state, description) := bitbucket_state state coverage_status in
        Some [(u8 "key", key); (u8 "state", remote_state); (u8 "name", u8 "AI Code Reviewer");
              (u8 "description", description); (u8 "url", run_url); (u8 "refname", source_branch)]
    | None => None
    end.

(** [update_bitbucket_status]: what the gateway raises is logged and dropped. *)
Definition update_bitbucket_status {E} (gateway : option (result E unit)) : list E :=
  match gateway with
  | Some (Err e) => [e]
  | _ => []
  end.

(** ** Facts *)

(** The codes a run can end with while its author can still be told: those of the catalogue and the
    reasons of a cancellation. *)
Definition told_codes : list pystr :=
  KNOWN_ERROR_CODES ++ [u8 "pr_closed"; u8 "superseded"; u8 "cancelled_by_user"].

Definition has_text (code : pystr) : bool :=
  match assoc code ERROR_TEXTS with
  | Some ((_ :: _) as text) => negb (text =?s code)
  | _ => false
  end.

Lemma told_codes_have_text : forallb has_text told_codes = true.
Proof. vm_compute. reflexivity. Qed.

Lemma told_code_text code :
  str_mem code told_codes = true → ∃ text, assoc code ERROR_TEXTS = Some text ∧ text ≠ [] ∧ text ≠ code.
Proof.
  intros H%str_mem_In. pose proof told_codes_have_text as Hall. rewrite forallb_forall in Hall.
  specialize (Hall code H). unfold has_text in Hall.
  destruct (assoc code ERROR_TEXTS) as [[|c text]|]; [done| |done]. exists (c :: text).
  split_and!; [done|done|]. by apply str_eqb_neq, negb_true_iff.
Qed.

Lemma classify_known exc :
  (∀ f, exc ≠ ExcRunFailure f) → str_mem (rf_error_code (classify_failure exc)) told_codes = true.
Proof.
  intros Hf. unfold told_codes. rewrite str_mem_In, in_app_iff. left. apply str_mem_In.
  destruct exc as [f|text|class_name text [c|] hint]; [by destruct (Hf f)|by vm_compute| |by vm_compute].
  cbn [classify_failure]. destruct (str_mem c KNOWN_ERROR_CODES) eqn:E; [|by vm_compute].
  by destruct (c =?s _).
Qed.

(** The run of a state as [RunStore] keeps it. *)
Definition RunState_value (s : RunState) : pystr :=
  match s with
  | Queued => u8 "queued"
  | Running => u8 "running"
  | Publishing => u8 "publishing"
  | Succeeded => u8 "succeeded"
  | Failed => u8 "failed"
  | Cancelled => u8 "cancelled"
  | Skipped => u8 "skipped"
  end.

Lemma failure_reason_text code text detail :
  assoc code ERROR_TEXTS = Some text → ∃ rest, failure_reason (Some code) detail = text ++ rest.
Proof.
  intros Ht. unfold failure_reason. change (or_empty (Some code)) with code. rewrite Ht.
  destruct detail as [[|x d]|]; cbn; [exists []; by rewrite app_nil_r|by eexists|].
  exists []. by rewrite app_nil_r.
Qed.

Lemma ended_summary s r :
  cr_state r = RunState_value s → s ∈ [Failed; Cancelled; Skipped] →
  let reason := failure_reason (cr_error_code r) (cr_error_detail r) in
  cv_summary (check_run_view r)
  = if bool_decide (s = Failed) then
      if ostr_eqb (cr_error_code r) (Some (u8 "llm_payment_required")) then reason ++ link r
      else u8 "`" ++ default (u8 "None") (cr_error_code r) ++ u8 "`: " ++ reason ++ link r
    else reason.
Proof.
  intros Hs Hin. unfold check_run_view. rewrite Hs. rewrite !elem_of_cons in Hin.
  destruct Hin as [->|[->|[->|Hin%elem_of_nil]]]; [reflexivity..|done].
Qed.

(** The check-run says what happened and never blocks a merge.  For every state of a run: it is
    in progress exactly while the run is active, and otherwise completed with a conclusion that no
    branch protection counts as a failure; the classified failure of an attempt and every
    cancellation whose author can be told has a text of its own, which the summary contains, so no
    bare code is shown; and a failed payment does not show its code. *)
Theorem check_run_tells s r :
  cr_state r = RunState_value s →
  (cv_status (check_run_view r) = u8 "in_progress" ↔ active s = true)
  ∧ (active s = false →
     cv_status (check_run_view r) = u8 "completed"
     ∧ ∃ c, cv_conclusion (check_run_view r) = Some c
            ∧ In c [u8 "neutral"; u8 "cancelled"; u8 "skipped"])
  ∧ (∀ code, s ∈ [Failed; Cancelled; Skipped] → cr_error_code r = Some code →
     str_mem code told_codes = true →
     ∃ text rest, assoc code ERROR_TEXTS = Some text ∧ text ≠ [] ∧ text ≠ code
       ∧ cv_summary (check_run_view r)
         = (if bool_decide (s = Failed) && negb (code =?s u8 "llm_payment_required")
            then u8 "`" ++ code ++ u8 "`: " else []) ++ text ++ rest)
  ∧ (∀ exc, (∀ f, exc ≠ ExcRunFailure f) →
     str_mem (rf_error_code (classify_failure exc)) told_codes = true).
Proof.
  intros Hs. split_and!; [| | |apply classify_known].
  - unfold check_run_view. rewrite Hs. destruct s; cbn; try done.
    unfold succeeded_view. by destruct (cr_summary_only r).
  - unfold check_run_view. rewrite Hs. destruct s; cbn; try done; intros _; split; try done;
      try (eexists; split; [reflexivity|cbn; tauto]).
    + unfold succeeded_view. by destruct (cr_summary_only r).
    + unfold succeeded_view. destruct (cr_summary_only r); (eexists; split; [reflexivity|cbn; tauto]).
  - intros code Hst Hc (text & Ht & Hne & Hnc)%told_code_text.
    destruct (failure_reason_text code text (cr_error_detail r) Ht) as [rest Hf]. exists text.
    rewrite (ended_summary s r Hs Hst), Hc, Hf. case_bool_decide; cbn [ostr_eqb andb default].
    + exists (rest ++ link r). split_and!; try done.
      destruct (code =?s _); cbn [negb]; by rewrite <- !app_assoc.
    + by exists rest.
Qed.

(** ** The key of a Bitbucket status *)

Lemma str_of_uuid_ascii u : Forall (λ c, (c < 128)%N) (str_of_uuid u).
Proof.
  unfold str_of_uuid. pose proof (hex_fixed_ascii 32 u) as H.
  rewrite !Forall_app. split_and!; auto using Forall_take, Forall_drop; vm_compute; repeat constructor.
Qed.

(** Every accepted status is sent, under a key of the head alone that fits Bitbucket's 40
    characters, so a rerun overwrites the status before it; a failed review never fails the build. *)
Lemma bitbucket_status_sent ws repository pr head branch url state cov :
  bitbucket_status_valid pr head branch url state = true →
  ∃ key description, bitbucket_status_key ws repository pr head = Some key ∧ length key = 40%nat
    ∧ bitbucket_status_payload ws repository pr head branch url state cov
      = Some [(u8 "key", key); (u8 "state", fst (bitbucket_state state cov));
              (u8 "name", u8 "AI Code Reviewer"); (u8 "description", description);
              (u8 "url", url); (u8 "refname", branch)]
    ∧ In (fst (bitbucket_state state cov)) [u8 "INPROGRESS"; u8 "SUCCESSFUL"; u8 "STOPPED"].
Proof.
  intros Hv. unfold bitbucket_status_payload. rewrite Hv. cbn [negb].
  assert (Hh : Forall (λ c, (c < 128)%N) head).
  { unfold bitbucket_status_valid in Hv. rewrite !andb_true_iff in Hv.
    destruct Hv as [[[[[[_ _] Hx] _] _] _] _]. apply Forall_forall. intros c Hc%list_elem_of_In.
    rewrite forallb_forall in Hx. specialize (Hx c Hc). unfold is_sha_char, in_range in Hx.
    cbn in Hx. to_prop. lia. }
  unfold bitbucket_status_key. rewrite utf8_encode_ascii.
  2: { rewrite !Forall_app. split_and!; auto using str_of_uuid_ascii, str_of_Z_ascii;
         vm_compute; repeat constructor. }
  cbn [fmap option_fmap option_map]. eexists _, (snd (bitbucket_state state cov)).
  split; [reflexivity|]. split.
  { rewrite length_app, length_take, sha256_hex_length. reflexivity. }
  destruct (bitbucket_state state cov) as [s description] eqn:E. split; [reflexivity|].
  unfold bitbucket_state in E. destruct (str_mem state ACTIVE_STATES); [injection E as <- _; cbn; tauto|].
  destruct (state =?s _); injection E as <- _; cbn; tauto.
Qed.

(** ** Witness *)

Definition sample_report : CheckRunReport :=
  mkCheckRunReport (u8 "failed") 3 (Some (u8 "lease_expired")) None None (λ _, 0) 0 0 0 false None
    (Some (u8 "https://ui/runs/1")) None None.

Lemma check_run_tells_witness :
  cv_summary (check_run_view sample_report)
  = u8 "`lease_expired`: Обработка прервалась 3 раза подряд." ++ [LF; LF] ++ u8 "https://ui/runs/1"
  ∧ ∃ c, cv_conclusion (check_run_view sample_report) = Some c
         ∧ In c [u8 "neutral"; u8 "cancelled"; u8 "skipped"].
Proof.
  split; [vm_compute; reflexivity|].
  destruct (check_run_tells Failed sample_report) as (_ & H & _ & _); [reflexivity|].
  apply H. reflexivity.
Defined.
