(* ===== verification/Jsonb.v ===== *)
(** * The JSONB columns

    What PostgreSQL keeps of a Python value written to a [JSONB] column.  Which values it refuses is
    written out; the order in which it returns the keys of an object and the notation in which it
    returns a number are its own, so the form a value is read back in is a parameter, with the
    documented promise that it is the same JSON. *)

From Stdlib Require Import String SpecFloat.
From stdpp Require Import numbers list.
From S2P Require Import Prelude PyText PyHash PyFloat PyValue PyJson.
#[local] Open Scope Z_scope.

(** ** What is refused *)

(** [json.dumps] writes no integer of more than 4300 digits. *)
Fixpoint dumpable (v : pyval) : bool :=
  match v with
  | VInt z => py_len (str_of_N (Z.abs_N z)) <=? MAX_INT_DIGITS
  | VList l => forallb dumpable l
  | VDict kvs => forallb (λ kv, dumpable (snd kv)) kvs
  | _ => true
  end.

(** A text of the column has neither U+0000 nor a lone surrogate. *)
Definition jsonb_text (s : pystr) : bool := forallb (λ c, negb (c =? 0)%N && negb (is_Cs c)) s.

(** [NaN], [Infinity] and [-Infinity] are no numbers of the column. *)
Definition jsonb_number (literal : pystr) : bool :=
  match float_of_str literal with Some x => is_finite x | None => false end.

Fixpoint jsonb_accepts (v : pyval) : bool :=
  match v with
  | VNone | VBool _ | VInt _ => true
  | VFloat literal => jsonb_number literal
  | VStr s => jsonb_text s
  | VList l => forallb jsonb_accepts l
  | VDict kvs => forallb (λ kv, jsonb_text (fst kv) && jsonb_accepts (snd kv)) kvs
  end.

(** ** What is read back *)

(** Equal numbers: a number with a fraction or an exponent may come back as an integer. *)
Definition same_number (a b : pyval) : Prop :=
  match a, b with
  | VFloat l, VFloat l' =>
      ∃ x y, float_of_str l = Some x ∧ float_of_str l' = Some y ∧ SFeqb x y = true
  | VFloat l, VInt z => ∃ x, float_of_str l = Some x ∧ SFeqb x (float_of_Z z) = true
  | VInt z, VInt z' => z = z'
  | _, _ => False
  end.

(** The same JSON: up to the order of keys and the notation of numbers. *)
Inductive same_json : pyval → pyval → Prop :=
| same_none : same_json VNone VNone
| same_bool b : same_json (VBool b) (VBool b)
| same_num a b : same_number a b → same_json a b
| same_str s : same_json (VStr s) (VStr s)
| same_list l l' : Forall2 same_json l l' → same_json (VList l) (VList l')
| same_dict kvs kvs' kvs'' :
    Forall2 (λ a b, fst a = fst b ∧ same_json (snd a) (snd b)) kvs kvs' → kvs' ≡ₚ kvs'' →
    same_json (VDict kvs) (VDict kvs'').

(** A value of Python: distinct keys, and literals of floats. *)
Fixpoint python_value (v : pyval) : bool :=
  match v with
  | VFloat literal => match float_of_str literal with Some _ => true | None => false end
  | VList l => forallb python_value l
  | VDict kvs => bool_decide (NoDup (fst <$> kvs)) && forallb (λ kv, python_value (snd kv)) kvs
  | _ => true
  end.

Class JsonbColumn : Type := mkJsonbColumn {
  column_form : pyval → pyval;
  column_form_same v : python_value v = true → jsonb_accepts v = true → same_json v (column_form v)
}.

(** The value of a column after a write; [None] is the error of the write. *)
Definition jsonb `{column : JsonbColumn} (v : pyval) : option pyval :=
  if dumpable v && jsonb_accepts v then Some (column_form v) else None.

Lemma same_json_none v w : same_json v w → is_none_value w = is_none_value v.
Proof. intros []; try done. by destruct a, b. Qed.

(** ** The text of a value has no control character *)

Definition visible (s : pystr) : Prop := Forall (λ c, 32 ≤ c)%N s.

Lemma visible_u8 s : forallb (λ c, (32 <=? c)%N) (u8 s) = true → visible (u8 s).
Proof. rewrite forallb_forall. intros H. apply Forall_forall. intros c Hc%list_elem_of_In%H. by apply N.leb_le. Qed.

Ltac visible_text := apply visible_u8; vm_compute; reflexivity.

Lemma visible_str_of_N n : visible (str_of_N n).
Proof.
  unfold visible, str_of_N. apply Forall_fmap. set (l := uint_digits _). clearbody l.
  apply Forall_forall. intros d _. cbn. lia.
Qed.

Lemma visible_str_of_Z z : visible (str_of_Z z).
Proof. destruct z; [apply visible_str_of_N..|constructor; [lia|apply visible_str_of_N]]. Qed.

Lemma visible_zeros n : visible (zeros n).
Proof. unfold visible, zeros. induction (Z.to_nat n); cbn; constructor; [lia|done]. Qed.

Lemma visible_lstrip p s : visible s → visible (lstrip_with p s).
Proof. induction 1 as [|c s Hc Hs IH]; cbn; [constructor|]. destruct (p c); [done|by constructor]. Qed.

Lemma visible_strip s : visible s → visible (strip_zeros s).
Proof. intros H. unfold strip_zeros, rstrip_with. by apply Forall_rev, visible_lstrip, Forall_rev. Qed.

Create HintDb visible.
#[export] Hint Resolve visible_str_of_Z visible_str_of_N visible_zeros visible_strip : visible.
#[export] Hint Extern 2 (visible (u8 _)) => visible_text : visible.
#[export] Hint Extern 1 (visible []) => constructor : visible.

Lemma visible_app a b : visible a → visible b → visible (a ++ b).
Proof. apply Forall_app_2. Qed.
#[export] Hint Resolve visible_app : visible.

Lemma visible_scientific ds x : visible ds → visible (scientific ds x).
Proof.
  intros H. unfold scientific, dotted, exponent_text.
  assert (visible (take 1 ds)) by (by apply Forall_take). assert (visible (drop 1 ds)) by (by apply Forall_drop).
  repeat apply visible_app; repeat case_match; auto with visible.
Qed.

Lemma visible_float x : visible (float_repr x).
Proof.
  assert (Hs : ∀ b, visible (sign_text b)) by (intros []; cbn; auto with visible).
  destruct x as [s|s| |s m e]; cbn [float_repr special_text from_option id];
    [by apply visible_app; auto with visible|by apply visible_app; auto with visible|auto with visible|].
  destruct (fraction m e) as [a b]. destruct (shortest_from _ _ _ _ _) as [[d k]|]; [|auto with visible].
  cbv zeta. assert (Hd : visible (strip_zeros (str_of_Z d))) by auto with visible.
  apply visible_app; [done|]. destruct (_ && _); [|by apply visible_scientific].
  unfold positional. destruct (k <? 0); repeat apply visible_app; try case_match; auto with visible;
    by (apply Forall_take || apply Forall_drop).
Qed.

Lemma visible_json_float l : is_Some (float_of_str l) → visible (json_float l).
Proof.
  intros [x Hx]. unfold json_float. rewrite Hx. destruct (special_text x); [|apply visible_float].
  repeat case_match; auto with visible.
Qed.

Lemma visible_hex w n : visible (hex_fixed w n).
Proof.
  revert n. induction w as [|w IH]; intros n; [constructor|]. cbn. apply visible_app; [apply IH|].
  constructor; [|constructor]. generalize (n mod 16)%N. intros d. unfold hex_char. destruct (d <? 10)%N; lia.
Qed.

Lemma visible_json_char c : visible (json_char false c).
Proof.
  unfold json_char. destruct (json_short_escape c) as [e|] eqn:E.
  - unfold json_short_escape in E. repeat case_match; simplify_eq; repeat constructor; lia.
  - destruct (c <? 32)%N eqn:Hc; [|constructor; [by apply N.ltb_ge|constructor]].
    unfold u_escape. do 2 (constructor; [lia|]). apply visible_hex.
Qed.

Lemma visible_json_string s : visible (json_string false s).
Proof.
  unfold json_string. constructor; [lia|]. apply visible_app; [|repeat constructor; lia].
  induction s as [|c s IH]; [constructor|]. cbn [mbind list_bind]. apply visible_app; [apply visible_json_char|done].
Qed.

Lemma visible_join sep l : visible sep → Forall visible l → visible (join sep l).
Proof.
  intros Hs. induction 1 as [|w l Hw Hl IH]; [constructor|]. destruct l as [|w' l]; [done|].
  rewrite join_cons by done. repeat apply visible_app; done.
Qed.

Lemma visible_dumps item key v :
  visible item → visible key → python_value v = true → visible (dumps false item key v).
Proof.
  intros Hi Hk. induction v as [|b|z|l|t|l IH|kvs IH] using pyval_nested; cbn [dumps python_value]; intros H;
    auto using visible_json_string with visible.
  - destruct b; auto with visible.
  - apply visible_json_float. by destruct (float_of_str l).
  - repeat apply visible_app; auto with visible. apply visible_join; [done|]. apply Forall_fmap.
    rewrite forallb_forall in H. rewrite Forall_forall in IH |- *. intros x Hx. apply (IH x Hx), H. by apply list_elem_of_In.
  - apply andb_true_iff in H as [_ H]. cbv zeta. repeat apply visible_app; auto with visible.
    apply visible_join; [done|]. rewrite map_map. apply Forall_fmap.
    rewrite forallb_forall in H. rewrite Forall_forall in IH |- *. intros [k x] Hx. cbn [compose fst snd].
    apply (visible_app (json_string false k)); [apply visible_json_string|]. apply visible_app; [done|]. apply (IH _ Hx). apply list_elem_of_In, H in Hx. done.
Qed.

(** ** A column that returns the keys of an object sorted *)

Fixpoint sorted_form (v : pyval) : pyval :=
  match v with
  | VList l => VList (map sorted_form l)
  | VDict kvs => VDict (py_sorted key_leb (map (λ kv, (fst kv, sorted_form (snd kv))) kvs))
  | _ => v
  end.

Lemma SFeqb_refl x : is_finite x = true → SFeqb x x = true.
Proof.
  destruct x as [s|s| |s m e]; try done. intros _. unfold SFeqb. cbn.
  rewrite Z.compare_refl, Pos.compare_cont_refl. by destruct s.
Qed.

Lemma sorted_form_same v : jsonb_accepts v = true → same_json v (sorted_form v).
Proof.
  induction v as [|b|z|l|t|l IH|kvs IH] using pyval_nested; cbn [jsonb_accepts sorted_form]; intros H;
    try by (constructor || apply same_num).
  - apply same_num. unfold jsonb_number in H. cbn. destruct (float_of_str l) as [x|]; [|done].
    exists x, x. split_and!; [done..|by apply SFeqb_refl].
  - apply same_list, Forall2_fmap_r, Forall_Forall2_diag. rewrite forallb_forall in H.
    rewrite Forall_forall in IH |- *. intros x Hx. apply IH, H; [done|by apply list_elem_of_In].
  - eapply same_dict; [|symmetry; apply py_sorted_perm]. apply Forall2_fmap_r, Forall_Forall2_diag.
    rewrite forallb_forall in H. rewrite Forall_forall in IH |- *. intros [k x] Hx. cbn. split; [done|].
    apply (IH _ Hx). apply list_elem_of_In, H, andb_true_iff in Hx as [_ ?]. done.
Qed.

Definition sorted_column : JsonbColumn := mkJsonbColumn sorted_form (λ v _ H, sorted_form_same v H).

Example jsonb_samples :
  @jsonb sorted_column
    <$> [VDict [(u8 "b", VInt 1); (u8 "a", VNone)]; VStr [0%N]; VStr [55357%N]; VFloat (u8 "NaN");
         VList [VFloat (u8 "Infinity")]; VInt (10 ^ 4299); VInt (10 ^ 4300)]
  = [Some (VDict [(u8 "a", VNone); (u8 "b", VInt 1)]); None; None; None; None; Some (VInt (10 ^ 4299)); None].
Proof. by vm_compute. Qed.
