(* ===== verification/RunActions.v ===== *)
(** * The trace of a run ([run_action_records.py] and [run_action_payloads.py])

    Every step of a run is a row of [run_actions] with the next index.  Its response stays in the
    row up to 64 KB of JSON, is a row of its own up to 1 MiB, and is cut to the longest text whose
    wrapper still fits above that.  Requests, responses and bodies are [JSONB] columns.  The theorems
    show which steps are recorded, that a trace is read back as it was recorded, in order, and what a
    cut response keeps.  The size limit of a column (256 MB) is not modelled. *)

From Stdlib Require Import String.
From stdpp Require Import numbers gmap.
From S2P Require Import Prelude PyText PyHash DiffMap PyValue PyJson Jsonb PolicyDocuments PromptFacts.
#[local] Open Scope Z_scope.

Definition INLINE_LIMIT_BYTES : Z := 64 * 1024.
Definition ROW_LIMIT_BYTES : Z := 1024 * 1024.

(** [json.dumps(value, ensure_ascii=False, separators=(",", ":"))] *)
Definition serialized (value : pyval) : pystr := dumps false (u8 ",") (u8 ":") value.

(** [len(s.encode())]; [None] is the [UnicodeEncodeError] of a lone surrogate. *)
Definition byte_length (s : pystr) : option Z := py_len <$> utf8_encode s.

(** ** Truncation *)

Definition wrapper (raw : pystr) (original_bytes size : Z) : pyval :=
  VDict [(u8 "truncated", VBool true); (u8 "original_bytes", VInt original_bytes);
         (u8 "text", VStr (py_prefix size raw))].

(** The loop of [truncated]; every turn halves the range, so one turn per character is enough. *)
Fixpoint bisect (turns : nat) (wrap : Z → pyval) (limit low high : Z) : option Z :=
  match turns with
  | O => Some low
  | S turns' =>
      if low <? high then
        let middle := (low + high + 1) / 2 in
        size ← byte_length (serialized (wrap middle));
        if size <=? limit then bisect turns' wrap limit middle high
        else bisect turns' wrap limit low (middle - 1)
      else Some low
  end.

Definition truncated (raw : pystr) (limit : Z) : option pyval :=
  original_bytes ← byte_length raw;
  low ← bisect (length raw) (wrapper raw original_bytes) limit 0 (py_len raw);
  Some (wrapper raw original_bytes low).

(** ** Records *)

(** A row of [run_actions], its columns as they are read; [response_ref] is the text of the id it
    holds. *)
Record RunAction : Type := mkRunAction {
  ac_index : Z;
  ac_tool : pystr;
  ac_request : pyval;
  ac_response : option pyval;
  ac_response_ref : option UUID;
  ac_started_at : Z;
  ac_duration_ms : Z
}.

(** The payload of one [NOTIFY run_step]. *)
Record RunStep : Type := mkRunStep {
  rn_run_id : UUID;
  rn_tool : pystr;
  rn_index : Z;
  rn_ok : bool;
  rn_started_at : Z;
  rn_duration_ms : Z;
  rn_attempt : Z;
  rn_llm_operation : option pystr
}.

(** The attempts of the runs, the rows of the two tables and the notifications sent. *)
Record Trace : Type := mkTrace {
  tr_attempts : gmap UUID Z;
  tr_actions : gmap UUID (list RunAction);
  tr_bodies : gmap UUID (UUID * pyval);
  tr_steps : list RunStep
}.

(** The errors of the run, the [ValueError] of a response that cannot be written ([UnicodeEncodeError]
    is one), and the error of a flush that writes a value its column refuses. *)
Inductive TraceExc : Type :=
| TE_not_found
| TE_attempt (attempt : Z)
| TE_encode
| TE_data.

(** The range of an [INTEGER] column. *)
Definition INTEGER_MAX : Z := 2 ^ 31 - 1.
Definition in_integer (z : Z) : bool := (- 2 ^ 31 <=? z) && (z <=? INTEGER_MAX).

(** The columns of [models.RunAction] besides the JSON ones. *)
Definition step_accepted (tool : pystr) (index duration_ms : Z) : bool :=
  (py_len tool <=? 100) && jsonb_text tool && in_integer index && in_integer duration_ms.

Section Columns.
Context `{column : JsonbColumn}.

(** The columns after a flush. *)
Definition flushed (v : pyval) : result TraceExc pyval :=
  match jsonb v with Some w => Ok w | None => Err TE_data end.
Definition flushed_null (v : option pyval) : result TraceExc (option pyval) :=
  match v with Some v => w ← flushed v; Ok (Some w) | None => Ok None end.

(** [len(_serialized(response).encode())] *)
Definition response_size (response : pyval) : option Z :=
  if dumpable response then byte_length (serialized response) else None.

(** Where a response goes: in the row, or in a row of its own. *)
Definition place_response (bodies : gmap UUID (UUID * pyval)) (fresh run_id : UUID) (response : pyval)
  : result TraceExc (option pyval * option UUID * gmap UUID (UUID * pyval)) :=
  if is_none_value response then Ok (None, None, bodies)
  else
    let raw := serialized response in
    match response_size response with
    | None => Err TE_encode
    | Some size =>
        if size <=? INLINE_LIMIT_BYTES then Ok (Some response, None, bodies)
        else
          match (if size <=? ROW_LIMIT_BYTES then Some response else truncated raw ROW_LIMIT_BYTES) with
          | None => Err TE_encode
          | Some body =>
              body ← flushed body;
              Ok (None, Some fresh, <[fresh := (run_id, body)]> bodies)
          end
    end.

(** [not (isinstance(response, dict) and "error" in response)] *)
Definition step_succeeded (response : pyval) : bool :=
  match response with
  | VDict kvs => match assoc (u8 "error") kvs with Some _ => false | None => true end
  | _ => true
  end.

Definition LLM_CALL_TOOL : pystr := u8 "llm.call".
Definition SSE_LLM_OPERATIONS : list pystr := [u8 "conventions"; u8 "review"].

(** [request.get("operation")], when it is one of the operations a client follows. *)
Definition followed_operation (tool : pystr) (request : pyval) : option pystr :=
  if negb (tool =?s LLM_CALL_TOOL) then None
  else match request with
  | VDict kvs =>
      match assoc (u8 "operation") kvs with
      | Some (VStr operation) =>
          if bool_decide (operation ∈ SSE_LLM_OPERATIONS) then Some operation else None
      | _ => None
      end
  | _ => None
  end.

(** [coalesce(max(index), -1) + 1] *)
Definition next_index (actions : list RunAction) : Z :=
  foldr (λ a m, Z.max (ac_index a) m) (-1) actions + 1.

Definition run_actions (t : Trace) (run_id : UUID) : list RunAction :=
  default [] (tr_actions t !! run_id).

Definition insert_run_action (fresh run_id : UUID) (tool : pystr) (request response : pyval)
    (started_at duration_ms : Z) (t : Trace) : result TraceExc Trace :=
  match tr_attempts t !! run_id with
  | None => Err TE_not_found
  | Some attempt =>
      if attempt <? 1 then Err (TE_attempt attempt)
      else
        let actions := run_actions t run_id in
        let index := next_index actions in
        '(stored, response_ref, bodies) ← place_response (tr_bodies t) fresh run_id response;
        row_request ← flushed request;
        row_response ← flushed_null stored;
        _ ← (if step_accepted tool index duration_ms then Ok tt else Err TE_data);
        Ok (mkTrace (tr_attempts t)
              (<[run_id := actions ++ [mkRunAction index tool row_request row_response response_ref
                                         started_at duration_ms]]> (tr_actions t))
              bodies
              (tr_steps t ++ [mkRunStep run_id tool index (step_succeeded response) started_at
                                duration_ms attempt (followed_operation tool request)]))
  end.
End Columns.

(** ** Reading *)

(** The body a row refers to, when it is of the same run; a stored null reads as an absent body. *)
Definition referenced_body (t : Trace) (run_id : UUID) (a : RunAction) : option pyval :=
  id ← ac_response_ref a;
  '(owner, body) ← tr_bodies t !! id;
  if (owner =? run_id)%N && negb (is_none_value body) then Some body else None.

(** [get_run_action_response]: the body, else what the row holds ([None] is a null). *)
Definition get_run_action_response (t : Trace) (run_id : UUID) (index : Z) : option pyval :=
  a ← find_first (λ a, ac_index a =? index) (run_actions t run_id);
  Some (match referenced_body t run_id a with
        | Some body => body
        | None => default VNone (ac_response a)
        end).

(** [get_run_actions]: the rows by index, [None] without the run. *)
Definition index_leb (a b : RunAction) : bool := ac_index a <=? ac_index b.
Definition get_run_actions (t : Trace) (run_id : UUID) : option (list RunAction) :=
  match tr_attempts t !! run_id with
  | None => None
  | Some _ => Some (py_sorted index_leb (run_actions t run_id))
  end.

(** ** Lengths *)

Lemma byte_length_app a b :
  byte_length (a ++ b) = x ← byte_length a; y ← byte_length b; Some (x + y).
Proof.
  unfold byte_length. rewrite utf8_encode_app.
  destruct (utf8_encode a), (utf8_encode b); cbn; try done. by rewrite py_len_app.
Qed.

Lemma byte_length_nonneg s n : byte_length s = Some n → 0 ≤ n.
Proof. unfold byte_length. destruct (utf8_encode s); [|done]. intros [= <-]. apply py_len_nonneg. Qed.

Lemma byte_length_ascii s : Forall (λ c, (c < 128)%N) s → byte_length s = Some (py_len s).
Proof. intros H. unfold byte_length. by rewrite utf8_encode_ascii. Qed.

(** An escaped text encodes when the text does, and grows with it. *)
Lemma json_char_length c : is_Some (utf8_char c) → is_Some (byte_length (json_char false c)).
Proof.
  intros [bs Hc]. unfold json_char. destruct (json_short_escape c) as [e|] eqn:E.
  - unfold json_short_escape in E. repeat case_match; simplify_eq; by eexists.
  - destruct (c <? 32)%N.
    + eexists. apply byte_length_ascii. unfold u_escape. do 2 (constructor; [lia|]). apply hex_fixed_ascii.
    + unfold byte_length. cbn. rewrite Hc. by eexists.
Qed.

Lemma escaped_length s : is_Some (byte_length s) → is_Some (byte_length (s ≫= json_char false)).
Proof.
  induction s as [|c s IH]; [by eexists|]. unfold byte_length at 1. cbn [utf8_encode].
  destruct (utf8_char c) as [bs|] eqn:Hc; [|by intros [? ?]]. intros H.
  destruct (json_char_length c) as [x Hx]; [by eexists|].
  destruct IH as [y Hy]. { unfold byte_length. destruct (utf8_encode s); [by eexists|by destruct H]. }
  exists (x + y). cbn [mbind list_bind]. by rewrite byte_length_app, Hx, Hy.
Qed.

Lemma json_string_length s :
  is_Some (byte_length s) → ∃ n, byte_length (json_string false s) = Some n ∧ 2 ≤ n.
Proof.
  intros Hs. destruct (escaped_length s Hs) as [n Hn]. exists (1 + (n + 1)).
  unfold json_string. change (34%N :: ?r ++ [34%N]) with ([34%N] ++ (r ++ [34%N])).
  rewrite !byte_length_app, Hn. cbn. pose proof (byte_length_nonneg _ _ Hn). split; [done|lia].
Qed.

Lemma prefix_length s n : is_Some (byte_length s) → is_Some (byte_length (py_prefix n s)).
Proof.
  intros [x Hx]. unfold py_prefix. set (k := if 0 <=? n then _ else _).
  assert (∃ m, k = take m s) as [m ->] by (unfold k; case_match; by eexists).
  rewrite <- (take_drop m s), byte_length_app in Hx. by destruct (byte_length (take m s)).
Qed.

(** ** Searching for the longest text *)

(** The search finds the last size that fits, when larger texts do not fit before smaller ones. *)
Lemma bisect_longest wrap limit f turns : ∀ low high,
  (∀ n, low ≤ n ≤ high → byte_length (serialized (wrap n)) = Some (f n)) →
  (∀ n m, low ≤ n ≤ m → m ≤ high → f n ≤ f m) →
  low ≤ high → (Z.to_nat (high - low) ≤ turns)%nat →
  ∃ r, bisect turns wrap limit low high = Some r ∧ low ≤ r ≤ high
    ∧ (f low ≤ limit → f r ≤ limit) ∧ ∀ n, r < n ≤ high → limit < f n.
Proof.
  induction turns as [|turns IH]; intros low high Hf Hm Hle Ht; cbn [bisect].
  { exists low. assert (high = low) as -> by lia. split_and!; (done || lia). }
  destruct (low <? high) eqn:E; to_prop; [|exists low; split_and!; (done || lia)].
  cbv zeta. set (middle := (low + high + 1) / 2).
  assert (Hmid : low < middle ≤ high) by (unfold middle; split; [apply Z.le_succ_l, Z.div_le_lower_bound|apply Z.div_le_upper_bound]; lia).
  rewrite Hf by lia. cbn [mbind option_bind]. destruct (f middle <=? limit) eqn:Ef; to_prop.
  - destruct (IH middle high) as (r & Hr & Hb & Hfit & Hmax); [intros; apply Hf; lia|intros; apply Hm; lia|lia|lia|].
    exists r. split_and!; [done|lia|lia|intros _; by apply Hfit|done].
  - destruct (IH low (middle - 1)) as (r & Hr & Hb & Hfit & Hmax); [intros; apply Hf; lia|intros; apply Hm; lia|lia|lia|].
    exists r. split_and!; [done|lia|lia|done|]. intros n Hn. destruct (Z.le_gt_cases n (middle - 1)).
    + apply Hmax. lia.
    + pose proof (Hm middle n). lia.
Qed.

(** The fixed part of a wrapper. *)
Definition wrapper_head : pystr := u8 "{" ++ [34%N] ++ u8 "truncated" ++ [34%N] ++ u8 ":true," ++ [34%N] ++ u8 "original_bytes" ++ [34%N] ++ u8 ":".
Definition wrapper_text : pystr := u8 "," ++ [34%N] ++ u8 "text" ++ [34%N] ++ u8 ":".

Lemma serialized_wrapper raw n k :
  serialized (wrapper raw n k)
  = wrapper_head ++ str_of_Z n ++ wrapper_text ++ json_string false (py_prefix k raw) ++ u8 "}".
Proof.
  unfold serialized, wrapper. cbn [dumps map join fst snd].
  rewrite <- !app_assoc. by rewrite !(assoc_L (++) _ _ (json_string false (py_prefix k raw) ++ _)).
Qed.

Lemma wrapper_length raw n k :
  is_Some (byte_length raw) → ∃ x,
    byte_length (json_string false (py_prefix k raw)) = Some x
    ∧ byte_length (serialized (wrapper raw n k)) = Some (44 + py_len (str_of_Z n) + x).
Proof.
  intros Hraw. destruct (json_string_length _ (prefix_length raw k Hraw)) as (x & Hx & _).
  exists x. split; [done|]. rewrite serialized_wrapper, !byte_length_app, Hx.
  rewrite (byte_length_ascii (str_of_Z n)) by apply str_of_Z_ascii.
  change (byte_length wrapper_head) with (Some 35). change (byte_length wrapper_text) with (Some 8).
  change (byte_length (u8 "}")) with (Some 1). cbn [mbind option_bind]. f_equal. lia.
Qed.

(** The size of a wrapper, as a function of the text it keeps. *)
Definition wrapper_size (raw : pystr) (n k : Z) : Z :=
  default 0 (byte_length (serialized (wrapper raw n k))).

Lemma wrapper_size_ok raw n k :
  is_Some (byte_length raw) →
  byte_length (serialized (wrapper raw n k)) = Some (wrapper_size raw n k).
Proof. intros (x & _ & Hs)%(wrapper_length raw n k). unfold wrapper_size. by rewrite Hs. Qed.

Lemma py_prefix_nonneg {A} k (l : list A) : 0 ≤ k → py_prefix k l = take (Z.to_nat k) l.
Proof. intros Hk. unfold py_prefix. by rewrite (proj2 (Z.leb_le 0 k)). Qed.

Lemma wrapper_size_mono raw n k m :
  is_Some (byte_length raw) → 0 ≤ k ≤ m → wrapper_size raw n k ≤ wrapper_size raw n m.
Proof.
  intros Hraw Hkm. destruct (wrapper_length raw n k Hraw) as (x & Hx & Hsx).
  destruct (wrapper_length raw n m Hraw) as (y & Hy & Hsy). unfold wrapper_size. rewrite Hsx, Hsy. cbn.
  enough (x ≤ y) by lia. revert Hx Hy. unfold json_string. rewrite !py_prefix_nonneg by lia.
  rewrite <- (take_drop (Z.to_nat k) (take (Z.to_nat m) raw)), take_take, Nat.min_l by lia.
  rewrite bind_app. set (t := _ ≫= json_char false). set (u := drop _ _ ≫= json_char false).
  change (34%N :: ?r ++ [34%N]) with ([34%N] ++ (r ++ [34%N])). rewrite !byte_length_app.
  destruct (byte_length t) as [a|], (byte_length u) as [b|] eqn:Hu; try done.
  apply byte_length_nonneg in Hu. cbn. intros [= <-] [= <-]. lia.
Qed.

(** Sizes in memory are below [2 ^ 63]. *)
Lemma wrapper_empty_fits raw n limit :
  is_Some (byte_length raw) → 0 ≤ n < 2 ^ 63 → 128 ≤ limit → wrapper_size raw n 0 ≤ limit.
Proof.
  intros Hraw Hn Hl. destruct (wrapper_length raw n 0 Hraw) as (x & Hx & Hs).
  change (py_prefix 0 raw) with (@nil N) in Hx. injection Hx as <-. unfold wrapper_size. rewrite Hs.
  pose proof (length_str_of_Z n (2 ^ 63) ltac:(lia)) as Hd. change (py_len (str_of_Z (2 ^ 63))) with 19 in Hd.
  change (44 + py_len (str_of_Z n) + 2 ≤ limit). lia.
Qed.

Lemma truncated_ok raw n limit :
  byte_length raw = Some n → n < 2 ^ 63 → 128 ≤ limit →
  ∃ k, truncated raw limit = Some (wrapper raw n k) ∧ 0 ≤ k ≤ py_len raw
    ∧ wrapper_size raw n k ≤ limit ∧ ∀ m, k < m ≤ py_len raw → limit < wrapper_size raw n m.
Proof.
  intros Hraw Hn Hl. assert (Hs : is_Some (byte_length raw)) by (by eexists).
  pose proof (byte_length_nonneg _ _ Hraw) as Hpos. unfold truncated. rewrite Hraw. cbn [mbind option_bind].
  destruct (bisect_longest (wrapper raw n) limit (wrapper_size raw n) (length raw) 0 (py_len raw))
    as (k & -> & Hk & Hfit & Hmax).
  - intros m _. by apply wrapper_size_ok.
  - intros a b Ha _. by apply wrapper_size_mono.
  - apply py_len_nonneg.
  - unfold py_len. lia.
  - exists k. split_and!; [done|lia|lia| |done]. apply Hfit. by apply wrapper_empty_fits.
Qed.

(** ** What a trace keeps *)

(** A call of [insert_run_action], with the id a row of its body would get. *)
Record StepCall : Type := mkStepCall {
  sc_fresh : UUID;
  sc_run_id : UUID;
  sc_tool : pystr;
  sc_request : pyval;
  sc_response : pyval;
  sc_started_at : Z;
  sc_duration_ms : Z
}.

(** Its arguments are Python values, and the text of the response fits in memory. *)
Definition python_call (c : StepCall) : Prop :=
  python_value (sc_request c) = true ∧ python_value (sc_response c) = true
  ∧ ∀ n, byte_length (serialized (sc_response c)) = Some n → n < 2 ^ 63.

Definition steps_of (run_id : UUID) (calls : list StepCall) : list StepCall :=
  List.filter (λ c, (sc_run_id c =? run_id)%N) calls.

(** A response that is written: of at most 1 MiB, when its column accepts it. *)
Definition response_writable (response : pyval) : Prop :=
  ∃ n, response_size response = Some n ∧ (n ≤ ROW_LIMIT_BYTES → jsonb_accepts response = true).

(** A running attempt of the run, values in range, and a request and a response that are written. *)
Definition recordable (t : Trace) (c : StepCall) : Prop :=
  (∃ attempt, tr_attempts t !! sc_run_id c = Some attempt ∧ 1 ≤ attempt)
  ∧ step_accepted (sc_tool c) (next_index (run_actions t (sc_run_id c))) (sc_duration_ms c) = true
  ∧ dumpable (sc_request c) = true ∧ jsonb_accepts (sc_request c) = true
  ∧ response_writable (sc_response c).

(** The response, or above the row limit the longest text whose wrapper fits; the column keeps
    either up to the order of keys and the notation of numbers. *)
Definition kept (response v : pyval) : Prop :=
  ∃ n, byte_length (serialized response) = Some n
  ∧ ((n ≤ ROW_LIMIT_BYTES ∧ same_json response v)
     ∨ ROW_LIMIT_BYTES < n ∧ ∃ k,
         same_json (wrapper (serialized response) n k) v
         ∧ wrapper_size (serialized response) n k ≤ ROW_LIMIT_BYTES
         ∧ ∀ m, k < m ≤ py_len (serialized response) →
             ROW_LIMIT_BYTES < wrapper_size (serialized response) n m).

Definition read_action (t : Trace) (run_id : UUID) (a : RunAction) : pyval :=
  match referenced_body t run_id a with Some body => body | None => default VNone (ac_response a) end.

Definition recorded_as (t : Trace) (i : nat) (c : StepCall) (a : RunAction) : Prop :=
  ac_index a = Z.of_nat i ∧ ac_tool a = sc_tool c ∧ same_json (sc_request c) (ac_request a)
  ∧ (∀ id, ac_response_ref a = Some id → id = sc_fresh c)
  ∧ kept (sc_response c) (read_action t (sc_run_id c) a).

(** The rows of every run are its calls, in their order. *)
Definition traced (calls : list StepCall) (t : Trace) : Prop :=
  ∀ run_id, length (run_actions t run_id) = length (steps_of run_id calls)
  ∧ ∀ i c a, steps_of run_id calls !! i = Some c → run_actions t run_id !! i = Some a →
      recorded_as t i c a.

Lemma next_index_positions actions :
  (∀ i a, actions !! i = Some a → ac_index a = Z.of_nat i) → next_index actions = py_len actions.
Proof.
  intros H. unfold next_index. enough (foldr (λ a m, Z.max (ac_index a) m) (-1) actions = py_len actions - 1) by lia.
  induction actions as [|a actions IH] using rev_ind; [done|].
  rewrite foldr_app. cbn. assert (Ha : ac_index a = py_len actions).
  { rewrite (H (length actions) a); [done|]. by rewrite lookup_app_r, Nat.sub_diag by lia. }
  rewrite Ha. rewrite py_len_app. change (py_len [a]) with 1.
  assert (Hmax : ∀ b, foldr (λ a m, Z.max (ac_index a) m) b actions
                      = Z.max b (foldr (λ a m, Z.max (ac_index a) m) (-1) actions) ∨ b < -1).
  { intros b. destruct (Z.lt_ge_cases b (-1)) as [Hb|Hb]; [by right|left]. clear - Hb. induction actions as [|x l IH]; cbn; lia. }
  pose proof (py_len_nonneg actions). destruct (Hmax (Z.max (py_len actions) (-1))) as [->|]; [|lia].
  rewrite IH; [lia|]. intros i x Hx. apply H. by apply lookup_app_l_Some.
Qed.

(** The text of a wrapper is of the visible characters of the JSON, so its column takes it. *)
Lemma wrapper_accepted response n k :
  python_value response = true → byte_length (serialized response) = Some n →
  jsonb_accepts (wrapper (serialized response) n k) = true.
Proof.
  intros Hp Hn. cbn. rewrite !andb_true_r. unfold jsonb_text. apply forallb_forall. intros c Hc.
  assert (Hin : c ∈ serialized response).
  { apply list_elem_of_In in Hc. unfold py_prefix in Hc. revert Hc. case_match; apply subseteq_take. }
  assert (Hv : visible (serialized response)) by (by apply visible_dumps; [visible_text..|]).
  assert (Hs : Forall (λ c, is_Cs c = false) (serialized response)).
  { apply utf8_encode_is_Some. unfold byte_length in Hn. by destruct (utf8_encode _); [eexists|]. }
  unfold visible in Hv. rewrite Forall_forall in Hv, Hs. rewrite (Hs c Hin). specialize (Hv c Hin).
  by rewrite (proj2 (N.eqb_neq c 0)) by lia.
Qed.

Lemma small_dumpable n : 0 ≤ n < 2 ^ 63 → dumpable (VInt n) = true.
Proof.
  intros Hn. cbn. apply Z.leb_le. pose proof (length_str_of_Z n (2 ^ 63) ltac:(lia)) as Hd.
  change (py_len (str_of_Z (2 ^ 63))) with 19 in Hd. replace (str_of_N (Z.abs_N n)) with (str_of_Z n).
  - unfold MAX_INT_DIGITS. lia.
  - unfold str_of_Z. destruct n; [done..|lia].
Qed.

Section Kept.
Context `{column : JsonbColumn}.

Definition record_step (c : StepCall) (t : Trace) : result TraceExc Trace :=
  insert_run_action (sc_fresh c) (sc_run_id c) (sc_tool c) (sc_request c) (sc_response c)
    (sc_started_at c) (sc_duration_ms c) t.

Fixpoint record_all (calls : list StepCall) (t : Trace) : result TraceExc Trace :=
  match calls with
  | [] => Ok t
  | c :: calls' => t' ← record_step c t; record_all calls' t'
  end.

Lemma flushed_ok v :
  python_value v = true → dumpable v = true → jsonb_accepts v = true →
  ∃ w, flushed v = Ok w ∧ same_json v w.
Proof.
  intros Hp Hd Ha. exists (column_form v). unfold flushed, jsonb. rewrite Hd, Ha.
  split; [done|]. by apply column_form_same.
Qed.

Lemma flushed_accepts v w : flushed v = Ok w → dumpable v = true ∧ jsonb_accepts v = true.
Proof. unfold flushed, jsonb. by destruct (dumpable v), (jsonb_accepts v). Qed.

Lemma place_response_ok bodies fresh run_id response :
  python_value response = true → (∀ n, byte_length (serialized response) = Some n → n < 2 ^ 63) →
  response_writable response →
  ∃ stored ref bodies' row, place_response bodies fresh run_id response = Ok (stored, ref, bodies')
    ∧ flushed_null stored = Ok row
    ∧ ((ref = None ∧ bodies' = bodies ∧ kept response (default VNone row))
       ∨ ref = Some fresh ∧ ∃ body, bodies' = <[fresh := (run_id, body)]> bodies ∧ is_none_value body = false
                         ∧ kept response body).
Proof.
  intros Hp Hmem (n & Hn & Hacc). unfold place_response. destruct (is_none_value response) eqn:En.
  { destruct response; try done. injection Hn as <-. do 4 eexists. split_and!; [done|done|left]. split_and!; [done..|].
    exists 4. split; [done|]. left. split; [by vm_compute|apply same_none]. }
  cbv zeta. rewrite Hn. unfold response_size in Hn. destruct (dumpable response) eqn:Hd; [|done].
  pose proof (Hmem n Hn) as Hlt. destruct (n <=? INLINE_LIMIT_BYTES) eqn:E1; to_prop.
  { assert (n ≤ ROW_LIMIT_BYTES) by (unfold INLINE_LIMIT_BYTES, ROW_LIMIT_BYTES in *; lia).
    destruct (flushed_ok response) as (w & Hw & Hs); [auto..|]. exists (Some response), None, bodies, (Some w).
    cbn [flushed_null]. rewrite Hw. split_and!; [done|done|left]. split_and!; [done..|]. exists n. by split; [|left]. }
  destruct (n <=? ROW_LIMIT_BYTES) eqn:E2; to_prop.
  { destruct (flushed_ok response) as (w & Hw & Hs); [auto..|]. rewrite Hw. cbn [mbind result_bind].
    do 4 eexists. split_and!; [done|done|right]. split; [done|]. exists w.
    split_and!; [done|by rewrite (same_json_none _ _ Hs)|]. exists n. by split; [|left]. }
  destruct (truncated_ok (serialized response) n ROW_LIMIT_BYTES Hn Hlt) as (k & -> & Hk & Hfit & Hmax); [by vm_compute|].
  destruct (flushed_ok (wrapper (serialized response) n k)) as (w & Hw & Hs).
  { by cbn; rewrite bool_decide_true by (apply (bool_decide_unpack _); vm_compute; exact I). }
  { pose proof (byte_length_nonneg _ _ Hn). change (dumpable (wrapper _ n k)) with (dumpable (VInt n) && true).
    by rewrite small_dumpable by lia. }
  { by apply wrapper_accepted. }
  rewrite Hw. cbn [mbind result_bind]. do 4 eexists. split_and!; [done|done|right]. split; [done|].
  exists w. split_and!; [done|by rewrite (same_json_none _ _ Hs)|]. exists n.
  split; [done|]. right. split; [lia|]. by exists k.
Qed.

Lemma place_response_writable bodies fresh run_id response stored ref bodies' row :
  place_response bodies fresh run_id response = Ok (stored, ref, bodies') →
  flushed_null stored = Ok row → response_writable response.
Proof.
  unfold place_response. destruct (is_none_value response) eqn:En.
  { destruct response; try done. intros _ _. by exists 4. }
  cbv zeta. unfold response_writable. destruct (response_size response) as [n|]; [|done]. intros Hp Hf.
  exists n. split; [done|]. intros Hle. destruct (n <=? INLINE_LIMIT_BYTES).
  - injection Hp as <- _ _. cbn in Hf. apply bind_ok in Hf as (w & Hw & _). by apply flushed_accepts in Hw as [_ ?].
  - rewrite (proj2 (Z.leb_le _ _) Hle) in Hp. apply bind_ok in Hp as (w & Hw & _). by apply flushed_accepts in Hw as [_ ?].
Qed.

(** A step is recorded exactly when it is recordable. *)
Lemma record_step_exact c t :
  python_call c → (∃ t', record_step c t = Ok t') ↔ recordable t c.
Proof.
  intros (Hq & Hr & Hmem). unfold record_step, insert_run_action, recordable. split.
  - intros [t' H']. destruct (tr_attempts t !! sc_run_id c) as [attempt|]; [|done].
    destruct (attempt <? 1) eqn:E; to_prop; [done|]. cbv zeta in H'.
    apply bind_ok in H' as ([[stored ref] bodies] & Hp & (q & Hfq & (row & Hrow & ([] & Hs & _)%bind_ok)%bind_ok)%bind_ok).
    destruct (step_accepted _ _ _) eqn:E2; [|done].
    apply flushed_accepts in Hfq as [? ?]. split_and!; [by exists attempt|done..|by eapply place_response_writable].
  - intros ((attempt & -> & Ha) & Hs & Hd & Hacc & Hw). rewrite (proj2 (Z.ltb_ge attempt 1)) by lia. cbv zeta.
    destruct (place_response_ok (tr_bodies t) (sc_fresh c) (sc_run_id c) _ Hr Hmem Hw)
      as (stored & ref & bodies & row & -> & Hrow & _).
    destruct (flushed_ok _ Hq Hd Hacc) as (q & Hfq & _). cbn [mbind result_bind]. rewrite Hfq. cbn [mbind result_bind].
    rewrite Hrow. cbn [mbind result_bind]. rewrite Hs. by eexists.
Qed.

Lemma steps_of_snoc run_id calls c :
  steps_of run_id (calls ++ [c])
  = steps_of run_id calls ++ (if (sc_run_id c =? run_id)%N then [c] else []).
Proof. unfold steps_of. rewrite List.filter_app. cbn. by destruct (_ =? _)%N. Qed.

Lemma steps_of_elem run_id calls c : c ∈ steps_of run_id calls → c ∈ calls ∧ sc_run_id c = run_id.
Proof. intros [Hc E]%list_elem_of_In%filter_In. apply N.eqb_eq in E. by rewrite list_elem_of_In. Qed.

Lemma traced_next_index calls t run_id :
  traced calls t → next_index (run_actions t run_id) = py_len (run_actions t run_id).
Proof.
  intros Ht. apply next_index_positions. intros i a Hi. destruct (Ht run_id) as [Hl Hr].
  assert (is_Some (steps_of run_id calls !! i)) as [c' Hc'].
  { apply lookup_lt_is_Some. rewrite <- Hl. by eapply lookup_lt_Some. }
  by destruct (Hr i c' a Hc' Hi) as [? _].
Qed.

(** What is recordable at first is so later, while the indexes are in range. *)
Lemma recordable_later calls t t' c :
  recordable t c → traced calls t' → tr_attempts t' = tr_attempts t → py_len calls ≤ INTEGER_MAX →
  recordable t' c.
Proof.
  intros (Ha & Hs & Hrest) Ht' Hatt Hlen. split_and!; [by rewrite Hatt| |apply Hrest..].
  rewrite (traced_next_index _ _ _ Ht'). unfold step_accepted, in_integer in *. rewrite !andb_true_iff, !Z.leb_le in *.
  destruct (Ht' (sc_run_id c)) as [Hl _]. pose proof (py_len_nonneg (run_actions t' (sc_run_id c))).
  assert (py_len (run_actions t' (sc_run_id c)) ≤ py_len calls).
  { unfold py_len. rewrite Hl. unfold steps_of. pose proof (List.filter_length_le (λ c', (sc_run_id c' =? sc_run_id c)%N) calls). lia. }
  naive_solver lia.
Qed.

Lemma record_step_ok calls c t :
  traced calls t → python_call c → recordable t c → sc_fresh c ∉ sc_fresh <$> calls →
  ∃ t', record_step c t = Ok t' ∧ traced (calls ++ [c]) t' ∧ tr_attempts t' = tr_attempts t.
Proof.
  intros Ht (Hpq & Hpr & Hmem) ((attempt & Ha & Hpos) & Hst & Hd & Hacc & Hw) Hfresh.
  unfold record_step, insert_run_action.
  rewrite Ha, (proj2 (Z.ltb_ge attempt 1)) by lia. cbv zeta.
  destruct (place_response_ok (tr_bodies t) (sc_fresh c) (sc_run_id c) (sc_response c) Hpr Hmem Hw)
    as (stored & ref & bodies & resp & -> & Hresp & Hplace).
  destruct (flushed_ok _ Hpq Hd Hacc) as (req & Hreq & Hsame). cbn [mbind result_bind]. rewrite Hreq.
  cbn [mbind result_bind]. rewrite Hresp. cbn [mbind result_bind].
  rewrite Hst. cbn [mbind result_bind]. eexists. split; [done|]. split; [|done]. set (row := mkRunAction _ _ _ _ _ _ _). set (t' := mkTrace _ _ _ _).
  assert (Hact : ∀ q, run_actions t' q = run_actions t q ++ (if (sc_run_id c =? q)%N then [row] else [])).
  { intros q. unfold run_actions at 1, t'. cbn [tr_actions]. destruct (N.eqb_spec (sc_run_id c) q) as [<-|Hne].
    - by rewrite lookup_insert_eq.
    - rewrite lookup_insert_ne by done. by rewrite app_nil_r. }
  intros run_id. destruct (Ht run_id) as [Hlen Hrows].
  assert (Hidx := traced_next_index _ _ (sc_run_id c) Ht).
  (** Rows recorded before are read as before. *)
  assert (Hold : ∀ i c' a, c' ∈ calls → recorded_as t i c' a → recorded_as t' i c' a).
  { intros i c' a Hc' (H1 & H2 & H3 & Href & Hk). split_and!; try done.
    unfold read_action, referenced_body in Hk |- *. destruct (ac_response_ref a) as [id|]; [|done].
    assert (Hid : id ≠ sc_fresh c).
    { intros ->. apply Hfresh. rewrite (Href _ eq_refl). by apply list_elem_of_fmap_2. }
    cbn [mbind option_bind] in Hk |- *. change (tr_bodies t') with bodies.
    destruct Hplace as [(_ & -> & _)|(_ & body & -> & _ & _)]; [done|]. by rewrite lookup_insert_ne. }
  rewrite Hact, steps_of_snoc, !length_app, Hlen. split; [by destruct (_ =? _)%N|].
  intros i c' a [Hc'|[Hi Hc']]%lookup_app_Some Ha'.
  - rewrite lookup_app_l in Ha' by (rewrite Hlen; by eapply lookup_lt_Some).
    eapply Hold; [|by apply Hrows]. by eapply steps_of_elem, list_elem_of_lookup_2.
  - rewrite lookup_app_r in Ha' by lia. rewrite Hlen in Ha'.
    destruct (N.eqb_spec (sc_run_id c) run_id) as [<-|]; [|done].
    apply list_lookup_singleton_Some in Hc' as [Hz <-], Ha' as [_ <-]. unfold recorded_as, row. cbn.
    split_and!; [rewrite Hidx; unfold py_len; lia|done|done| |].
    + intros id. destruct Hplace as [(-> & _)|(-> & _)]; congruence.
    + unfold read_action, referenced_body. cbn.
      destruct Hplace as [(-> & _ & Hk)|(-> & body & -> & Hnone & Hk)]; cbn.
      * exact Hk.
      * rewrite lookup_insert_eq. cbn. by rewrite N.eqb_refl, Hnone.
Qed.

Lemma record_all_ok calls : ∀ before t,
  traced before t → Forall python_call calls → Forall (recordable t) calls →
  NoDup (sc_fresh <$> before ++ calls) → py_len (before ++ calls) ≤ INTEGER_MAX →
  ∃ t', record_all calls t = Ok t' ∧ traced (before ++ calls) t' ∧ tr_attempts t' = tr_attempts t.
Proof.
  induction calls as [|c calls IH]; intros before t Ht Hpy Hall Hn Hlen; cbn [record_all].
  { exists t. by rewrite app_nil_r. }
  apply Forall_cons in Hall as [Hc Hall]. apply Forall_cons in Hpy as [Hp Hpy].
  destruct (record_step_ok before c t Ht Hp Hc) as (t1 & -> & Ht1 & Ha1).
  { rewrite fmap_app in Hn. apply NoDup_app in Hn as (_ & Hd & _). intros Hin. apply (Hd _ Hin). by left. }
  cbn [mbind result_bind]. destruct (IH (before ++ [c]) t1) as (t2 & H2 & Ht2 & Ha2); [done|done| | | |].
  - eapply Forall_impl; [exact Hall|]. intros c' Hc'. eapply recordable_later; [done..|].
    rewrite py_len_app in Hlen |- *. unfold py_len in *. cbn [length] in *. lia.
  - by rewrite <- app_assoc.
  - by rewrite <- app_assoc.
  - exists t2. rewrite <- app_assoc in Ht2. split_and!; [done..|congruence].
Qed.

Lemma find_index l i a :
  (∀ j b, l !! j = Some b → ac_index b = Z.of_nat j) → l !! i = Some a →
  find_first (λ b, ac_index b =? Z.of_nat i) l = Some a.
Proof.
  intros Hl Hi. destruct (find_first _ l) as [b|] eqn:E.
  - apply find_first_some in E as [Hin Eb]. apply list_elem_of_In, list_elem_of_lookup in Hin as [j Hj].
    to_prop. rewrite (Hl j b Hj) in Eb. assert (j = i) as -> by lia. congruence.
  - rewrite find_first_none in E. assert (Hin : In a l) by (by eapply list_elem_of_In, list_elem_of_lookup_2).
    apply E in Hin. rewrite (Hl i a Hi), Z.eqb_refl in Hin. done.
Qed.

Lemma positions_sorted l : ∀ k,
  (∀ j b, l !! j = Some b → ac_index b = k + Z.of_nat j) → Sorted (leP index_leb) l.
Proof.
  induction l as [|a l IH]; intros k Hl; constructor.
  - apply (IH (k + 1)). intros j b Hj. rewrite (Hl (S j) b Hj). lia.
  - destruct l as [|b l]; constructor. unfold leP, index_leb.
    rewrite (Hl 0%nat a eq_refl), (Hl 1%nat b eq_refl). apply Z.leb_le. lia.
Qed.

(** The rows of a trace, listed and read one by one. *)
Lemma traced_reads_back calls t run_id :
  traced calls t →
  (∀ l, get_run_actions t run_id = Some l →
     Forall2 (λ a c, ac_tool a = sc_tool c ∧ same_json (sc_request c) (ac_request a))
       l (steps_of run_id calls)
     ∧ ac_index <$> l = seqZ 0 (py_len (steps_of run_id calls)))
  ∧ ∀ i c, steps_of run_id calls !! i = Some c →
      ∃ v, get_run_action_response t run_id (Z.of_nat i) = Some v ∧ kept (sc_response c) v.
Proof.
  intros Ht. destruct (Ht run_id) as [Hlen Hrows].
  assert (Hrow : ∀ i a, run_actions t run_id !! i = Some a →
                   ∃ c, steps_of run_id calls !! i = Some c ∧ recorded_as t i c a).
  { intros i a Hi. assert (is_Some (steps_of run_id calls !! i)) as [c Hc].
    { apply lookup_lt_is_Some. rewrite <- Hlen. by eapply lookup_lt_Some. }
    exists c. split; [done|]. by apply Hrows. }
  split.
  - unfold get_run_actions. destruct (tr_attempts t !! run_id); [|done]. intros l [= <-].
    assert (Hidx : ac_index <$> run_actions t run_id = seqZ 0 (py_len (steps_of run_id calls))).
    { apply list_eq. intros i. rewrite list_lookup_fmap. destruct (run_actions t run_id !! i) as [a|] eqn:Hi; cbn.
      - destruct (Hrow i a Hi) as (c & Hc & -> & _). apply lookup_lt_Some in Hc.
        symmetry. apply lookup_seqZ. unfold py_len. lia.
      - symmetry. apply lookup_seqZ_ge. apply lookup_ge_None in Hi. unfold py_len. lia. }
    rewrite py_sorted_id; [split; [|exact Hidx]|].
    + apply Forall2_same_length_lookup_2; [done|]. intros i a c Ha Hc.
      by destruct (Hrows i c a Hc Ha) as (_ & ? & ? & _).
    + apply (positions_sorted _ 0). intros j b Hj. by destruct (Hrow j b Hj) as (? & _ & ? & _).
  - intros i c Hc. assert (is_Some (run_actions t run_id !! i)) as [a Ha].
    { apply lookup_lt_is_Some. rewrite Hlen. by eapply lookup_lt_Some. }
    destruct (Hrows i c a Hc Ha) as (_ & _ & _ & _ & Hk).
    apply list_elem_of_lookup_2, steps_of_elem in Hc as [_ Hc].
    exists (read_action t run_id a). unfold get_run_action_response.
    rewrite (find_index _ _ a); [split; [done|by rewrite <- Hc]| |done].
    intros j b Hj. by destruct (Hrow j b Hj) as (? & _ & ? & _).
Qed.

End Kept.

(** ** Examples *)

(** With room for 50 bytes, the escape of the third character does not fit. *)
Example truncated_sample :
  truncated (u8 "ab" ++ [LF] ++ u8 "cdef") 50
  = Some (wrapper (u8 "ab" ++ [LF] ++ u8 "cdef") 7 2)
  ∧ wrapper_size (u8 "ab" ++ [LF] ++ u8 "cdef") 7 2 = 49
  ∧ wrapper_size (u8 "ab" ++ [LF] ++ u8 "cdef") 7 3 = 51.
Proof. by vm_compute. Qed.

Definition sample_trace : Trace := mkTrace {[ 1%N := 2; 2%N := 1 ]} ∅ ∅ [].
Definition sample_calls : list StepCall :=
  [mkStepCall 10 1 (u8 "context.build") (VDict []) (VDict [(u8 "status", VStr (u8 "ready")); (u8 "cost", VFloat (u8 "0.5"))]) 100 5;
   mkStepCall 11 2 (u8 "vcs.diff") (VDict []) VNone 101 7;
   mkStepCall 12 1 LLM_CALL_TOOL (VDict [(u8 "operation", VStr (u8 "review")); (u8 "attempt", VInt 1)])
     (VDict [(u8 "error", VStr (u8 "timeout"))]) 102 9].

#[local] Existing Instance sorted_column.


Example sample_steps :
  (λ t, (λ s, (rn_index s, rn_ok s, rn_attempt s, rn_llm_operation s)) <$> tr_steps t)
    <$> (match record_all sample_calls sample_trace with Ok t => Some t | Err _ => None end)
  = Some [(0, true, 2, None); (0, true, 1, None); (1, false, 2, Some (u8 "review"))].
Proof. by vm_compute. Qed.

(** Keys come back in the order of the column, and the column refuses U+0000 and NaN in a request and
    in a response. *)
Example sample_columns :
  (λ '(request, response),
     match record_step (mkStepCall 10 1 (u8 "vcs.diff") request response 100 5) sample_trace with
     | Ok t => Ok ((λ a, (ac_request a, ac_response a)) <$> run_actions t 1)
     | Err e => Err e
     end)
    <$> [(VDict [(u8 "b", VInt 1); (u8 "a", VInt 2)], VDict []); (VDict [(u8 "b", VStr [0%N])], VDict []);
         (VDict [], VFloat (u8 "NaN")); (VDict [], VStr [0%N]); (VDict [], VStr [55357%N])]
  = [Ok [(VDict [(u8 "a", VInt 2); (u8 "b", VInt 1)], Some (VDict []))]; Err TE_data; Err TE_data; Err TE_data;
     Err TE_encode].
Proof. by vm_compute. Qed.
