(* ===== verification/StoreReview.v ===== *)
(** * From an accepted answer to a stored review ([store_review_output.py])

    [StoreReviewOutput] reads back what a run is handed, post-processes it against the durable diff
    of the run, and stores findings, summary, trace and the publishing state in one transaction; the
    message to the publisher goes out after the commit. *)

From Stdlib Require Import String QArith.
From stdpp Require Import numbers gmap sets.
From S2P Require Import Prelude PyText PyHash UnifiedDiff DiffMap PyFloat PyDecimal PyValue Verdict RunStore.
From S2P Require Import VcsInput Publication DiffSnapshots CoverageSchema RunCoverage Findings AnswersV2 VerifiedReview.
From S2P Require Import Reflection CheckRuns Jsonb RunActions.
#[local] Open Scope Z_scope.

(** What the use case raises: [InvalidReviewOutput], an error of post-processing, a lone surrogate,
    a value its column refuses, or a step that cannot be recorded. *)
Inductive StoreExc : Type :=
| SX_invalid
| SX_process (e : process_error)
| SX_encode
| SX_data
| SX_trace (e : TraceExc).

(** ** The answer, read again *)

(** What [execute] is given. *)
Inductive StoreInput : Type :=
| In_no_model
| In_verified (v : VerifiedReviewOutput)
| In_mapping (data : AnswerData)
| In_text (loaded : LoadedJson).
Definition handed_input (h : Handed) : StoreInput :=
  match h with Hand_no_model => In_no_model | Hand_answer v => In_verified v end.

(** [ReviewSummary.model_validate] *)
Definition SUMMARY_KEYS : list pystr := [u8 "problem"; u8 "done_well"; u8 "effort"].
Definition read_effort (s : pystr) : option Effort :=
  find_first (λ e, Effort_value e =?s s) [Effort_none; Effort_small; Effort_medium; Effort_large].
Definition read_summary (v : pyval) : option ReviewSummary :=
  match v with
  | VDict kvs =>
      match assoc (u8 "problem") kvs, assoc (u8 "done_well") kvs, assoc (u8 "effort") kvs with
      | Some (VStr problem), Some (VStr done_well), Some (VStr effort) =>
          if py_all (λ kv, str_mem (fst kv) SUMMARY_KEYS) kvs
          then mkReviewSummary problem done_well <$> read_effort effort else None
      | _, _, _ => None
      end
  | _ => None
  end.

(** An item of [findings] without its [evidence_refs]. *)
Definition cleaned_item (item : RawFinding) : option ReviewFinding :=
  match item with
  | Item_fields f => Some (f2_finding f)
  | Item_no_evidence v1 | Item_unreadable _ v1 => v1
  | Item_unsupported _ => None
  end.

Definition model_validated (findings : list ReviewFinding) (summary : ReviewSummary) : result StoreExc ReviewOutput :=
  let output := mkReviewOutput findings summary in
  if output_valid output then Ok output else Err SX_invalid.

Definition parse_data (data : AnswerData) : result StoreExc ReviewOutput :=
  match ad_findings data with
  | Findings_list items =>
      match mapM cleaned_item items, assoc (u8 "summary") (ad_rest data) ≫= read_summary with
      | Some findings, Some summary =>
          if bool_decide (other_keys data = []) then model_validated findings summary else Err SX_invalid
      | _, _ => Err SX_invalid
      end
  | _ => Err SX_invalid
  end.

Definition parse_payload (p : AnswerPayload) : result StoreExc ReviewOutput :=
  match p with
  | Payload_raw data => parse_data data
  | Payload_verified findings summary rest =>
      if bool_decide (rest = []) then model_validated (f2_finding <$> findings) summary else Err SX_invalid
  end.

(** [parse_review_output]; [None] for the marker of a run without a model call. *)
Definition parse_review_output (input : StoreInput) : result StoreExc (option ReviewOutput) :=
  match input with
  | In_no_model => Ok None
  | In_verified v => Some <$> parse_payload (vo_payload v)
  | In_mapping data | In_text (Loaded_dict data) => Some <$> parse_data data
  | In_text _ => Err SX_invalid
  end.

(** The answer kept in the trace ([_as_json_object]). *)
Definition answer_of (input : StoreInput) : option AnswerPayload :=
  match input with
  | In_verified v => Some (vo_payload v)
  | In_mapping data | In_text (Loaded_dict data) => Some (Payload_raw data)
  | In_no_model | In_text _ => None
  end.

(** ** Findings dropped before *)

(** The finding of a dropped entry: an instance of either version, a dict (what it reads as without
    [evidence_refs]), or another object. *)
Inductive DroppedFinding : Type :=
| Dropped_v1 (f : ReviewFinding)
| Dropped_v2 (f : ReviewFindingV2)
| Dropped_fields (v1 : option ReviewFinding)
| Dropped_other.

Inductive EntryPosition : Type := Pos_absent | Pos_int (z : Z) | Pos_other.

(** A record or a dict, with its reason when that is a text; or another object. *)
Inductive DroppedEntry : Type :=
| Entry_item (finding : DroppedFinding) (drop_reason : option pystr) (position : EntryPosition)
| Entry_other.
Inductive DroppedInput : Type :=
| Dropped_entries (entries : list DroppedEntry)
| Dropped_not_a_sequence.

Definition record_entry (r : DroppedCandidateRecord) : DroppedEntry :=
  Entry_item (Dropped_v2 (dc_finding r)) (Some (dc_drop_reason r)) (Pos_int (dc_position r)).

Definition dropped_model (d : DroppedFinding) : option ReviewFinding :=
  let checked f := if finding_valid f then Some f else None in
  match d with
  | Dropped_v1 f => Some f
  | Dropped_v2 f => checked (f2_finding f)
  | Dropped_fields v1 => v1 ≫= checked
  | Dropped_other => None
  end.

Definition entry_position (idx : nat) (p : EntryPosition) : option Z :=
  match p with Pos_absent => Some (Z.of_nat idx) | Pos_int z => Some z | Pos_other => None end.

Definition coerce_entry (idx : nat) (e : DroppedEntry) : option ProcessedFinding :=
  match e with
  | Entry_item finding (Some ((_ :: _) as reason)) position =>
      position ← entry_position idx position;
      f ← dropped_model finding;
      Some (mkProcessedFinding f position Bucket_dropped (Some reason))
  | _ => None
  end.

Definition coerce_dropped_findings (raw_items : option DroppedInput)
  : result StoreExc (list ProcessedFinding) :=
  match raw_items with
  | None => Ok []
  | Some Dropped_not_a_sequence => Err SX_invalid
  | Some (Dropped_entries entries) =>
      match mapM id (imap coerce_entry entries) with
      | Some items => Ok items
      | None => Err SX_invalid
      end
  end.

(** ** The context of post-processing ([run_repository.py]) *)

Record FindingPostProcessingInput : Type := mkFindingPostProcessingInput {
  fx_diff_map : DiffMap;
  fx_checked_paths : gset pystr;
  fx_rule_names : gset pystr;
  fx_repository_max_inline : option Z;
  fx_severity_threshold : SeverityThreshold;
  fx_allowed_v2_rules : option (gset pystr);
  fx_coverage : option RunCoverage;
  fx_summary_only : bool;
  fx_summary_reason : option pystr
}.

(** [diff_map_from_snapshots] of [post_processing_diff_map.py] *)
Definition diff_map_from_snapshots (repository_id : UUID) (number : Z) (head_sha base_sha : pystr)
    (diff_old_sha : option pystr) (snapshots : list DiffSnapshot) (provider : VcsProviderName)
    (file_list_complete : bool) : result MapError DiffMap :=
  build_diff_map_from_facts (snapshot_vcs_file <$> snapshots) provider repository_id number base_sha
    head_sha diff_old_sha file_list_complete.

(** The joined row of a run and its stored rows.  A check constraint keeps the cap and the threshold
    pinned at creation both null or both set. *)
Record ReviewRow : Type := mkReviewRow {
  rr_head_sha : pystr;
  rr_base_sha : pystr;
  rr_repository_id : UUID;
  rr_external_number : Z;
  rr_provider : VcsProviderName;
  rr_rules : list (list (pystr * json));
  rr_publication_pair : option (Z * SeverityThreshold);
  rr_live_cap : Z;
  rr_live_threshold : SeverityThreshold;
  rr_diffs : list DiffSnapshot
}.

(** The last [context.build] record with a coverage: its request, its response in the row and its
    stored body. *)
Record ContextRecord : Type := mkContextRecord {
  ct_request : json;
  ct_inline : option json;
  ct_body : option json
}.

(** [body if body is not None else inline]: a stored null reads as [None]. *)
Definition recorded_response (r : ContextRecord) : option json :=
  match ct_body r with Some JNull | None => ct_inline r | body => body end.

Definition rule_name (rule : list (pystr * json)) : option pystr := jstr (jget (u8 "name") rule).

(** [Err] is an exception of the diff map or of the coverage. *)
Definition get_post_processing_input (row : option ReviewRow) (context : option ContextRecord)
  : result unit (option FindingPostProcessingInput) :=
  match row with
  | None => Ok None
  | Some r =>
      let '(max_comments, threshold) :=
        default (rr_live_cap r, rr_live_threshold r) (rr_publication_pair r) in
      let durable := py_sorted (λ a b, str_leb (ds_filename a) (ds_filename b)) (rr_diffs r) in
      let request := ct_request <$> context in
      let response := context ≫= recorded_response in
      let pins := read_context_coverage_pins request response (rr_head_sha r) in
      match diff_map_from_snapshots (rr_repository_id r) (rr_external_number r) (rr_head_sha r)
              (rr_base_sha r) (pins ≫= cp_diff_old_sha) durable (rr_provider r)
              (match pins with Some p => cp_file_list_complete p | None => true end) with
      | Ok diff_map =>
          match restore_context_coverage request response durable diff_map with
          | None => Err tt
          | Some coverage =>
              Ok (Some (mkFindingPostProcessingInput diff_map
                (list_to_set (ds_filename <$> List.filter (λ s, negb (bool_decide (ds_review_patch s = None))) durable))
                (list_to_set (omap rule_name (rr_rules r))) (Some max_comments) threshold None (Some coverage)
                (py_any ds_summary_only durable
                 || match response with Some v => is_summary_only_stop v | None => false end)
                (response ≫= summary_only_reason_of)))
          end
      | Err _ => Err tt
      end
  end.

(** ** Rows of [findings] *)

Definition line_start (f : ReviewFinding) : Z :=
  match fg_start_line f with
  | Some s => if s =? 0 then fg_line f else s
  | None => fg_line f
  end.
Definition line_end (f : ReviewFinding) : option Z := (λ _, fg_line f) <$> fg_start_line f.

Definition hashed (item : ProcessedFinding) : HashedFinding :=
  let f := pf_finding item in
  mkHashedFinding (fg_path f) (line_start f) (line_end f) (fg_severity f) (fg_category f) (fg_title f)
    (fg_body f) (fg_suggestion f) (in_bucket Bucket_inline item).

Definition hashed_findings (r : ProcessedReviewOutput) : list HashedFinding :=
  hashed <$> (po_inline r ++ po_body_only r).

(** [Decimal(str(confidence))] as a [Numeric(3, 2)] holds it. *)
Definition confidence_float (q : Q) : float := true_divide (Qnum q) (Zpos (Qden q)).
Definition scale_2 (q : Q) : Q := ((200 * Qnum q + Zpos (Qden q)) / (2 * Zpos (Qden q))) # 100.
Definition stored_confidence (q : Q) : Q :=
  match dec_of_str (float_repr (confidence_float q)) with
  | Some d => scale_2 (dec_value d)
  | None => 0%Q
  end.

Definition to_finding (id : UUID) (item : ProcessedFinding) : Finding :=
  mkFinding id (hashed item) (stored_confidence (fg_confidence (pf_finding item)))
    (fg_rule_name (pf_finding item)) (in_bucket Bucket_inline item) (pf_drop_reason item) false.

Definition review_rows (row_id : nat → UUID) (r : ProcessedReviewOutput) : list Finding :=
  imap (λ n, to_finding (row_id n)) (po_inline r ++ po_body_only r ++ po_dropped r).

(** The columns of [models.Finding]; [text_accepts] is what the database takes as a text. *)
Definition opt_all {A} (p : A → bool) (o : option A) : bool := match o with Some a => p a | None => true end.

Definition row_accepted (text_accepts : pystr → bool) (f : Finding) : bool :=
  let h := fi_hashed f in
  let string n s := (py_len s <=? n) && text_accepts s in
  string 1024 (hf_path h) && in_integer (hf_line_start h) && opt_all in_integer (hf_line_end h)
  && opt_all text_accepts (hf_suggestion h) && string 500 (hf_title h) && text_accepts (hf_body h)
  && opt_all (string 255) (fi_rule_name f) && opt_all (string 100) (fi_drop_reason f)
  && (0 <? hf_line_start h) && opt_all (Z.leb (hf_line_start h)) (hf_line_end h)
  && Qle_bool 0 (fi_confidence f) && Qle_bool (fi_confidence f) 1.

(** ** Post-processing *)

Record PreparedReview : Type := mkPreparedReview {
  pr_output : ReviewOutput;
  pr_processed : ProcessedReviewOutput;
  pr_threshold : SeverityThreshold;
  pr_verdict : option Verdict;
  pr_hash : pystr
}.

Definition verified_part {A} (f : VerifiedReviewOutput → option A) (input : StoreInput) : option A :=
  match input with In_verified v => f v | _ => None end.

Definition effective_dropped (given : option DroppedInput) (input : StoreInput) : option DroppedInput :=
  match given with
  | Some d => Some d
  | None => verified_part (λ v, Some (Dropped_entries (record_entry <$> vo_dropped_findings v))) input
  end.

Definition effective_threshold (given : option SeverityThreshold) (input : StoreInput)
  : option SeverityThreshold :=
  match given with Some t => Some t | None => verified_part vo_severity_threshold input end.

Definition UNAVAILABLE_COVERAGE : RunCoverage :=
  mkRunCoverage Cov_partial 0 [] [bare_item None (u8 "classification_unavailable")] [] [] [] 0 false [] []
    None [].

Definition process_input (input : StoreInput) (pre_dropped : list ProcessedFinding)
    (threshold : option SeverityThreshold) (context : FindingPostProcessingInput) : ProcessInput :=
  mkProcessInput (fx_diff_map context) (fx_checked_paths context) (fx_rule_names context)
    (fx_repository_max_inline context) (default (fx_severity_threshold context) threshold)
    (match verified_part vo_allowed_v2_rules input with Some rules => Some rules | None => fx_allowed_v2_rules context end)
    pre_dropped (bool_decide (threshold = None)) (Some (default UNAVAILABLE_COVERAGE (fx_coverage context)))
    (fx_summary_only context) (default [] (verified_part (λ v, Some (vo_incomplete_paths v)) input))
    (fx_summary_reason context).

(** The part of [execute] between its two transactions. *)
Definition post_process (patterns : LintFilterPatterns) (run_url : option pystr) (input : StoreInput)
    (pre_dropped : list ProcessedFinding) (parsed : option ReviewOutput)
    (threshold : option SeverityThreshold) (context : FindingPostProcessingInput)
  : result StoreExc PreparedReview :=
  let i := process_input input pre_dropped threshold context in
  parsed ← (match parsed with
            | Some p => Ok p
            | None =>
                summary ← map_err SX_process
                  (summary_from_result [] [] (default UNAVAILABLE_COVERAGE (fx_coverage context))
                     (if fx_summary_only context then fx_summary_reason context else None)
                     (fx_summary_only context));
                Ok (mkReviewOutput [] summary)
            end);
  processed ← map_err SX_process (process patterns parsed i);
  match po_summary processed with
  | None => Err SX_invalid
  | Some summary =>
      let parsed := set_summary parsed summary in
      match finalize_stored_review_body parsed processed (fx_checked_paths context)
              (Findings.pi_severity_threshold i)
              (count_reason (u8 "severity_threshold") (po_dropped processed)) run_url with
      | None => Err (SX_process Err_key)
      | Some processed =>
          let findings := hashed_findings processed in
          match findings_hash findings with
          | None => Err SX_encode
          | Some hash_ =>
              Ok (mkPreparedReview parsed processed (Findings.pi_severity_threshold i)
                    (coverage_verdict (hf_severity <$> findings)
                       (Some (CoverageStatus_value (rc_status (po_coverage processed))))) hash_)
          end
      end
  end.

(** ** The trace of the transaction *)

Fixpoint pyval_of_json (j : json) : pyval :=
  match j with
  | JNull => VNone
  | JBool b => VBool b
  | JInt z => VInt z
  | JStr s => VStr s
  | JList l => VList (map pyval_of_json l)
  | JObj kvs => VDict (map (λ kv, (fst kv, pyval_of_json (snd kv))) kvs)
  end.

Definition dump_summary (s : ReviewSummary) : pyval :=
  VDict [(u8 "problem", VStr (sm_problem s)); (u8 "done_well", VStr (sm_done_well s));
         (u8 "effort", VStr (Effort_value (sm_effort s)))].

(** The keys of an answer in any order: [jsonb] keeps none. *)
Definition answer_value (dict_of : AnswerData → pyval) (p : AnswerPayload) : pyval :=
  match p with
  | Payload_raw data => dict_of data
  | Payload_verified findings summary rest =>
      VDict (rest ++ [(u8 "findings", VList (dump_finding <$> findings)); (u8 "summary", dump_summary summary)])
  end.

Definition VUuid (o : option UUID) : pyval := VOpt (λ u, VStr (str_of_uuid u)) o.
Definition verify_request_value (q : VerifyRequest) : pyval :=
  VDict [(u8 "candidate_ids", VList (VStr <$> vq_candidate_ids q));
         (u8 "accepted_call_id", VUuid (vq_accepted_call_id q));
         (u8 "manifest_id", VUuid (vq_manifest_id q))].

Definition dump_requirement_ref (r : RequirementRef) : pyval :=
  VDict [(u8 "block_id", VStr (qr_block_id r)); (u8 "start_line", VInt (qr_start_line r));
         (u8 "end_line", VInt (qr_end_line r)); (u8 "check_id", VOpt VStr (qr_check_id r))].
Definition decision_value (d : StoredDecision) : pyval :=
  VDict [(u8 "candidate_id", VStr (sd_candidate_id d));
         (u8 "status", VStr (VerificationStatus_value (sd_status d)));
         (u8 "evidence_refs", VList (dump_evidence_ref <$> sd_evidence_refs d));
         (u8 "requirement_refs", VList (dump_requirement_ref <$> sd_requirement_refs d))].
Definition verify_response_value (ds : list StoredDecision) : pyval :=
  VDict [(u8 "decisions", VList (decision_value <$> ds))].

Definition postprocess_request (patterns : LintFilterPatterns) (cap : option Z) (p : PreparedReview) : pyval :=
  VDict [(u8 "min_confidence", VReal (confidence_float (lp_min_confidence patterns)));
         (u8 "max_inline", VOpt VInt cap);
         (u8 "severity_threshold", VStr (SeverityThreshold_value (pr_threshold p)))].

Definition dropped_value (item : ProcessedFinding) : pyval :=
  VDict [(u8 "index", VInt (pf_position item)); (u8 "drop_reason", VOpt VStr (pf_drop_reason item))].

Definition postprocess_response (p : PreparedReview) : pyval :=
  let r := pr_processed p in
  let severities := hf_severity <$> hashed_findings r in
  VDict ([(u8 "inline", VInt (py_len (po_inline r))); (u8 "body_only", VInt (py_len (po_body_only r)));
          (u8 "omitted_body_only_count", VInt (po_omitted_body_only_count r))]
         ++ (if po_review_body_budget_degraded r then [(u8 "review_body_budget_degraded", VBool true)] else [])
         ++ [(u8 "dropped", VList (dropped_value <$> po_dropped r));
             (u8 "verdict", VOpt (λ v, VStr (Verdict_value v)) (pr_verdict p));
             (u8 "coverage", pyval_of_json (to_json (po_coverage r)));
             (u8 "severity_counts",
              VDict ((λ s, (Severity_value s, VInt (severity_counts severities s))) <$> SEVERITIES));
             (u8 "findings_hash", VStr (pr_hash p));
             (u8 "summary", dump_summary (ro_summary (pr_output p)))]).

(** ** The use case *)

(** The tables it reads and writes. *)
Record Store : Type := mkStore {
  ss_db : Db;
  ss_actions : gmap UUID (list RunAction);
  ss_bodies : gmap UUID (UUID * pyval);
  ss_steps : list RunStep
}.

Definition trace_of (s : Store) : Trace :=
  mkTrace (run_attempt <$> db_runs (ss_db s)) (ss_actions s) (ss_bodies s) (ss_steps s).
Definition with_trace (s : Store) (d : Db) (t : Trace) : Store :=
  mkStore d (tr_actions t) (tr_bodies t) (tr_steps t).

Definition REVIEW_OUTPUT : pystr := u8 "llm.review_output".
Definition VERIFY : pystr := u8 "llm.verify".
Definition POSTPROCESS : pystr := u8 "review.postprocess".
Definition has_action (t : Trace) (run_id : UUID) (tool : pystr) : bool :=
  py_any (λ a, ac_tool a =?s tool) (run_actions t run_id).

Section Store.
Context `{column : JsonbColumn}.
Context (patterns : LintFilterPatterns) (text_accepts : pystr → bool) (dict_of : AnswerData → pyval).
(** The ids of new rows, the clock and the settings of the adapter. *)
Context (row_id : nat → UUID) (body_id : pystr → UUID) (started_at lease_until duration_ms : Z).
Context (worker_id : pystr) (run_url : UUID → option pystr) (repository_event : UUID → pystr).

Definition add_step (run_id : UUID) (tool : pystr) (request response : pyval) (duration : Z) (t : Trace)
  : result StoreExc Trace :=
  map_err SX_trace (insert_run_action (body_id tool) run_id tool request response started_at duration t).

(** [store_review_output]: the trace with the answer, and whether one was recorded before. *)
Definition add_answer (run_id : UUID) (answer : option AnswerPayload) (rows : list Finding) (t : Trace)
  : result StoreExc (Trace * bool) :=
  if has_action t run_id REVIEW_OUTPUT then Ok (t, true)
  else
    t ← (match answer with
         | Some a => add_step run_id REVIEW_OUTPUT (VDict []) (answer_value dict_of a) 0 t
         | None => Ok t
         end);
    if py_all (row_accepted text_accepts) rows then Ok (t, false) else Err SX_data.

(** The records of [enter_publishing]. *)
Definition add_results (run_id : UUID) (input : StoreInput) (cap : option Z) (p : PreparedReview) (t : Trace)
  : result StoreExc Trace :=
  t ← (match verified_part vo_verify_request input with
       | Some q =>
           if has_action t run_id VERIFY then Ok t
           else add_step run_id VERIFY (verify_request_value q)
                  (VOpt verify_response_value (verified_part vo_verify_response input)) 0 t
       | None => Ok t
       end);
  add_step run_id POSTPROCESS (postprocess_request patterns cap p) (postprocess_response p) duration_ms t.

(** The second transaction; [None] returns [False] and stores nothing. *)
Definition store_prepared (run_id : UUID) (input : StoreInput) (cap : option Z) (p : PreparedReview) (s : Store)
  : result StoreExc (Store * option ReviewPublishPointer) :=
  match joined (ss_db s) run_id with
  | None => Ok (s, None)
  | Some (r, c) =>
      if negb (publishing_guard worker_id r c) then Ok (s, None)
      else
        let event := review_event (repository_event (cc_repository_id c)) (pr_verdict p) in
        let rows := review_rows row_id (pr_processed p) in
        '(t, answered) ← add_answer run_id (answer_of input) rows (trace_of s);
        t ← add_results run_id input cap p t;
        let '(d, stored) := store_output run_id worker_id (po_review_body (pr_processed p)) rows answered
                              lease_until (ss_db s) in
        if stored then
          Ok (with_trace s d t, Some (mkReviewPublishPointer run_id (run_head_sha r) (pr_hash p) event))
        else Ok (s, None)
  end.

(** [execute]: the pointer is published after the commit, and a failed publication is only logged. *)
Definition store_review (get_context : result StoreExc (option FindingPostProcessingInput)) (run_id : UUID)
    (input : StoreInput) (dropped_findings : option DroppedInput)
    (severity_threshold : option SeverityThreshold) (s : Store)
  : result StoreExc (Store * option ReviewPublishPointer) :=
  pre_dropped ← coerce_dropped_findings (effective_dropped dropped_findings input);
  parsed ← parse_review_output input;
  context ← get_context;
  match context with
  | None => Ok (s, None)
  | Some context =>
      p ← post_process patterns (run_url run_id) input pre_dropped parsed
            (effective_threshold severity_threshold input) context;
      store_prepared run_id input (fx_repository_max_inline context) p s
  end.
End Store.
