(* ===== verification/ModelAnswers.v ===== *)
(** * Validation of a model's answer ([answers.py])

    The text of a completion is decoded, held against the answer schema, repaired where a repair loses
    nothing, and read by the models of [review_output.py] and [reflection_pass.py].  The schema files
    under [review/schemas/] are data here, read by the keywords they use; the messages of the two
    validators are arguments.  A confidence that is not a finite number is refused. *)

From Stdlib Require Import String QArith SpecFloat.
From stdpp Require Import numbers gmap.
From S2P Require Import Prelude PyText PyHash UnifiedDiff DiffMap PyFloat PyDecimal PyValue PyJson Verdict.
From S2P Require Import PolicyErrors ReviewIgnore Findings AnswersV2 Reflection ReviewPath Llm LlmTasks VerifiedReview StoreReview.
#[local] Open Scope Z_scope.

(** ** Schemas *)

(** An object requires its properties and has no other; [nullable] adds [null] to the type. *)
Inductive Schema : Type :=
| Sch_string (nullable : bool) (min_length : Z) (max_length : option Z) (pattern : option (pystr → bool))
| Sch_enum (values : list pystr)
| Sch_integer (nullable : bool) (minimum : Z)
| Sch_number (minimum maximum : Z)
| Sch_array (min_items : Z) (max_items : Z) (items : Schema)
| Sch_object (properties : list (pystr * Schema)).

Definition is_zero_fraction (x : float) : bool :=
  match x with
  | S754_zero _ => true
  | S754_finite _ m e => let '(a, b) := fraction m e in a mod b =? 0
  | _ => false
  end.

Definition float_Q (x : float) : option Q :=
  match x with
  | S754_zero _ => Some 0%Q
  | S754_finite s m e => let '(a, b) := fraction m e in Some ((if s : bool then - a else a) # Z.to_pos b)
  | _ => None
  end.

(** [instance < bound] and [instance > bound] of a JSON number; both fail when it is not a number. *)
Definition number_below (v : pyval) (bound : Z) : bool :=
  match v with
  | VInt z => z <? bound
  | VFloat l =>
      match float_of_str l with
      | Some (S754_infinity s) => s
      | Some x => match float_Q x with Some q => Qltb q (bound # 1) | None => false end
      | None => false
      end
  | _ => false
  end.
Definition number_above (v : pyval) (bound : Z) : bool :=
  match v with
  | VInt z => bound <? z
  | VFloat l =>
      match float_of_str l with
      | Some (S754_infinity s) => negb s
      | Some x => match float_Q x with Some q => Qltb (bound # 1) q | None => false end
      | None => false
      end
  | _ => false
  end.

Definition is_number (v : pyval) : bool := match v with VInt _ | VFloat _ => true | _ => false end.
(** An integer of the schema language may be written with a zero fraction. *)
Definition is_integer (v : pyval) : bool :=
  match v with
  | VInt _ => true
  | VFloat l => match float_of_str l with Some x => is_zero_fraction x | None => false end
  | _ => false
  end.

Fixpoint accepts (s : Schema) (v : pyval) : bool :=
  match s with
  | Sch_string nullable min_length max_length pattern =>
      match v with
      | VStr t => (min_length <=? py_len t) && opt_all (λ n, py_len t <=? n) max_length
                  && opt_all (λ p, p t) pattern
      | VNone => nullable
      | _ => false
      end
  | Sch_enum values => match v with VStr t => str_mem t values | _ => false end
  | Sch_integer nullable minimum =>
      nullable && is_none_value v || is_integer v && negb (number_below v minimum)
  | Sch_number minimum maximum =>
      is_number v && negb (number_below v minimum) && negb (number_above v maximum)
  | Sch_array min_items max_items items =>
      match v with
      | VList l => between min_items max_items (py_len l) && forallb (accepts items) l
      | _ => false
      end
  | Sch_object properties =>
      match v with
      | VDict kvs =>
          forallb (λ p, match assoc (fst p) kvs with Some w => accepts (snd p) w | None => false end) properties
          && forallb (λ kv, str_mem (fst kv) (fst <$> properties)) kvs
      | _ => false
      end
  end.

Definition text_of (min max : Z) : Schema := Sch_string false min (Some max) None.
Definition severities : Schema := Sch_enum (Severity_value <$> SEVERITIES).
Definition categories : Schema :=
  Sch_enum (Category_value <$> [Cat_security; Cat_correctness; Cat_performance; Cat_readability]).

Definition summary_schema : Schema :=
  Sch_object [(u8 "problem", Sch_string false 1 None None); (u8 "done_well", Sch_string false 1 None None);
              (u8 "effort", Sch_enum [u8 "none"; u8 "small"; u8 "medium"; u8 "large"])].

Definition finding_schema : Schema :=
  Sch_object
    [(u8 "path", Sch_string false 1 None None); (u8 "line", Sch_integer false 1);
     (u8 "start_line", Sch_integer true 1); (u8 "severity", severities); (u8 "category", categories);
     (u8 "title", text_of 1 80); (u8 "body", text_of 1 1200); (u8 "suggestion", Sch_string true 0 None None);
     (u8 "confidence", Sch_number 0 1); (u8 "rule_name", Sch_string true 0 None None)].

Definition review_output_schema : Schema :=
  Sch_object [(u8 "findings", Sch_array 0 10 finding_schema); (u8 "summary", summary_schema)].

Definition evidence_ref_schema : Schema :=
  Sch_object [(u8 "block_id", text_of 1 128); (u8 "start_line", Sch_integer false 1);
              (u8 "end_line", Sch_integer false 1)].

(** [^(?:\.review/rules\.md|AGENTS\.md|service-defaults:[A-Za-z0-9_-]+)(?![\s\S])] *)
Definition rule_pattern (t : pystr) : bool := v2_rule_valid (Some t).

Definition finding_v2_schema : Schema :=
  Sch_object
    [(u8 "path", text_of 1 1024); (u8 "line", Sch_integer false 1);
     (u8 "start_line", Sch_integer true 1); (u8 "severity", severities); (u8 "category", categories);
     (u8 "title", text_of 1 80); (u8 "body", text_of 1 1200); (u8 "suggestion", Sch_string true 0 None None);
     (u8 "confidence", Sch_number 0 1);
     (u8 "rule_name", Sch_string true 0 (Some 128) (Some rule_pattern));
     (u8 "evidence_refs", Sch_array 1 8 evidence_ref_schema)].

Definition review_output_schema_v2 : Schema :=
  Sch_object [(u8 "findings", Sch_array 0 10 finding_v2_schema); (u8 "summary", summary_schema)].

Definition requirement_ref_schema : Schema :=
  Sch_object [(u8 "block_id", text_of 1 128); (u8 "start_line", Sch_integer false 1);
              (u8 "end_line", Sch_integer false 1); (u8 "check_id", Sch_string true 1 (Some 128) None)].

Definition verifier_output_schema : Schema :=
  Sch_object
    [(u8 "decisions", Sch_array 1 10 (Sch_object
       [(u8 "candidate_id", text_of 1 64);
        (u8 "status", Sch_enum [u8 "supported"; u8 "contradicted"; u8 "insufficient_context"]);
        (u8 "reason", text_of 1 600); (u8 "evidence_refs", Sch_array 0 8 evidence_ref_schema);
        (u8 "requirement_refs", Sch_array 0 8 requirement_ref_schema)]))].

(** ** Strict models *)

(** [extra="forbid"] *)
Definition only_keys (keys : list pystr) (kvs : list (pystr * pyval)) : bool :=
  forallb (λ kv, str_mem (fst kv) keys) kvs.

Definition read_text (v : pyval) : option pystr := match v with VStr s => Some s | _ => None end.
Definition read_integer (v : pyval) : option Z := match v with VInt z => Some z | _ => None end.
Definition read_null {A} (read : pyval → option A) (v : pyval) : option (option A) :=
  match v with VNone => Some None | _ => Some <$> read v end.
Definition read_list {A} (read : pyval → option A) (v : pyval) : option (list A) :=
  match v with VList l => mapM read l | _ => None end.

(** A float field takes an integer. *)
Definition read_float (v : pyval) : option Q :=
  match v with
  | VInt z => Some (z # 1)
  | VFloat l => float_of_str l ≫= float_Q
  | _ => None
  end.

Definition read_member {A} (value : A → pystr) (all : list A) (v : pyval) : option A :=
  match v with VStr s => find_first (λ a, value a =?s s) all | _ => None end.
Definition read_severity : pyval → option Severity := read_member Severity_value SEVERITIES.
Definition read_category : pyval → option Category :=
  read_member Category_value [Cat_security; Cat_correctness; Cat_performance; Cat_readability].

Definition FINDING_KEYS : list pystr :=
  [u8 "path"; u8 "line"; u8 "start_line"; u8 "severity"; u8 "category"; u8 "title"; u8 "body";
   u8 "suggestion"; u8 "confidence"; u8 "rule_name"].

Definition read_fields (kvs : list (pystr * pyval)) : option ReviewFinding :=
  path ← assoc (u8 "path") kvs ≫= read_text;
  line ← assoc (u8 "line") kvs ≫= read_integer;
  start_line ← assoc (u8 "start_line") kvs ≫= read_null read_integer;
  severity ← assoc (u8 "severity") kvs ≫= read_severity;
  category ← assoc (u8 "category") kvs ≫= read_category;
  title ← assoc (u8 "title") kvs ≫= read_text;
  body ← assoc (u8 "body") kvs ≫= read_text;
  suggestion ← assoc (u8 "suggestion") kvs ≫= read_null read_text;
  confidence ← assoc (u8 "confidence") kvs ≫= read_float;
  rule_name ← assoc (u8 "rule_name") kvs ≫= read_null read_text;
  Some (mkReviewFinding path line start_line severity category title body suggestion confidence rule_name).

Definition read_finding_v1 (v : pyval) : option ReviewFinding :=
  match v with VDict kvs => if only_keys FINDING_KEYS kvs then read_fields kvs else None | _ => None end.

Definition read_evidence_ref (v : pyval) : option EvidenceRef :=
  match v with
  | VDict kvs =>
      if only_keys [u8 "block_id"; u8 "start_line"; u8 "end_line"] kvs then
        block_id ← assoc (u8 "block_id") kvs ≫= read_text;
        start_line ← assoc (u8 "start_line") kvs ≫= read_integer;
        end_line ← assoc (u8 "end_line") kvs ≫= read_integer;
        Some (mkEvidenceRef block_id start_line end_line)
      else None
  | _ => None
  end.

Definition read_finding_v2 (v : pyval) : option ReviewFindingV2 :=
  match v with
  | VDict kvs =>
      if only_keys (FINDING_KEYS ++ [u8 "evidence_refs"]) kvs then
        f ← read_fields kvs;
        refs ← assoc (u8 "evidence_refs") kvs ≫= read_list read_evidence_ref;
        Some (mkReviewFindingV2 f refs)
      else None
  | _ => None
  end.

(** [model_validate] of a finding of either version. *)
Definition checked_v1 (v : pyval) : option ReviewFinding :=
  f ← read_finding_v1 v; if finding_valid f then Some f else None.
Definition checked_v2 (v : pyval) : option ReviewFindingV2 :=
  f ← read_finding_v2 v; if finding_v2_valid f then Some f else None.

(** [parse_review_output_v2] *)
Definition parse_review_output_v2 (v : pyval) : option ReviewOutputV2 :=
  match v with
  | VDict kvs =>
      if only_keys [u8 "findings"; u8 "summary"] kvs then
        findings ← assoc (u8 "findings") kvs ≫= read_list read_finding_v2;
        summary ← assoc (u8 "summary") kvs ≫= read_summary;
        let output := mkReviewOutputV2 findings summary in
        if output_v2_valid output then Some output else None
      else None
  | _ => None
  end.

Definition read_requirement_ref (v : pyval) : option RequirementRef :=
  match v with
  | VDict kvs =>
      if only_keys [u8 "block_id"; u8 "start_line"; u8 "end_line"; u8 "check_id"] kvs then
        block_id ← assoc (u8 "block_id") kvs ≫= read_text;
        start_line ← assoc (u8 "start_line") kvs ≫= read_integer;
        end_line ← assoc (u8 "end_line") kvs ≫= read_integer;
        check_id ← assoc (u8 "check_id") kvs ≫= read_null read_text;
        Some (mkRequirementRef block_id start_line end_line check_id)
      else None
  | _ => None
  end.

Definition read_decision (v : pyval) : option VerificationDecision :=
  match v with
  | VDict kvs =>
      if only_keys [u8 "candidate_id"; u8 "status"; u8 "reason"; u8 "evidence_refs"; u8 "requirement_refs"] kvs
      then
        candidate_id ← assoc (u8 "candidate_id") kvs ≫= read_text;
        status ← assoc (u8 "status") kvs
          ≫= read_member VerificationStatus_value [Ver_supported; Ver_contradicted; Ver_insufficient_context];
        reason ← assoc (u8 "reason") kvs ≫= read_text;
        evidence_refs ← assoc (u8 "evidence_refs") kvs ≫= read_list read_evidence_ref;
        requirement_refs ← assoc (u8 "requirement_refs") kvs ≫= read_list read_requirement_ref;
        Some (mkVerificationDecision candidate_id status reason evidence_refs requirement_refs)
      else None
  | _ => None
  end.

(** [VerificationOutput.model_validate] *)
Definition read_verification (v : pyval) : option (list VerificationDecision) :=
  match v with
  | VDict kvs =>
      if only_keys [u8 "decisions"] kvs then
        decisions ← assoc (u8 "decisions") kvs ≫= read_list read_decision;
        if verification_valid decisions then Some decisions else None
      else None
  | _ => None
  end.

(** ** The schema a provider is sent *)

Definition ANNOTATIONS : list pystr := [u8 "$schema"; u8 "$id"; u8 "$comment"].
Definition PYTHON_END_ANCHOR : pystr := u8 "(?![\s\S])".

Definition ecma_end_anchor (pattern : pystr) : pystr :=
  if endswith pattern PYTHON_END_ANCHOR
  then take (length pattern - length PYTHON_END_ANCHOR) pattern ++ u8 "$"
  else pattern.

Fixpoint strip_annotations (node : pyval) : pyval :=
  match node with
  | VDict kvs =>
      VDict (flat_map (λ kv, if str_mem (fst kv) ANNOTATIONS then []
                             else [(fst kv, match (if fst kv =?s u8 "pattern" then snd kv else VNone) with
                                            | VStr pattern => VStr (ecma_end_anchor pattern)
                                            | _ => strip_annotations (snd kv)
                                            end)]) kvs)
  | VList l => VList (map strip_annotations l)
  | _ => node
  end.

(** ** Answers *)

(** One error of the schema validator: the path that orders it, the parts of its location, its text. *)
Record Violation : Type := mkViolation {
  vi_json_path : pystr;
  vi_path : list pystr;
  vi_message : pystr
}.
(** An error of a model: its location and its text. *)
Abbreviation ModelError := (list pystr * pystr)%type.

Definition MAX_ERRORS : nat := 20.
Definition location (parts : list pystr) : pystr :=
  if join (u8 "/") parts =?s [] then u8 "(root)" else join (u8 "/") parts.
Definition schema_error (e : Violation) : pystr := bounded (location (vi_path e) ++ u8 ": " ++ vi_message e).
Definition validation_messages (prefix : list pystr) (errors : list ModelError) : list pystr :=
  (λ e, bounded (location (prefix ++ fst e) ++ u8 ": " ++ snd e)) <$> take MAX_ERRORS errors.

(** The dict of an answer, as the review reads it; [type_name] and [message] are the texts of an item
    that is no dict and of one pydantic does not read. *)
Definition without_evidence (kvs : list (pystr * pyval)) : list (pystr * pyval) :=
  List.filter (λ kv, negb (fst kv =?s u8 "evidence_refs")) kvs.
Definition raw_finding (type_name message : pyval → pystr) (v : pyval) : RawFinding :=
  match v with
  | VDict kvs =>
      match assoc (u8 "evidence_refs") kvs with
      | None => Item_no_evidence (read_finding_v1 v)
      | Some _ =>
          match read_finding_v2 v with
          | Some f => Item_fields f
          | None => Item_unreadable (message v) (read_finding_v1 (VDict (without_evidence kvs)))
          end
      end
  | _ => Item_unsupported (type_name v)
  end.
Definition answer_data_of (type_name message : pyval → pystr) (kvs : list (pystr * pyval)) : AnswerData :=
  mkAnswerData
    (match assoc (u8 "findings") kvs with
     | None | Some VNone => Findings_missing
     | Some (VList l) => Findings_list (raw_finding type_name message <$> l)
     | Some _ => Findings_not_a_list
     end)
    (List.filter (λ kv, negb (fst kv =?s u8 "findings")) kvs).

(** [isinstance(v, int)], which a [bool] is. *)
Definition py_int (v : pyval) : option Z :=
  match v with VInt z => Some z | VBool b => Some (Z.b2z b) | _ => None end.

(** One finding with a start line that repeats its line removed; [None] is a [KeyError]. *)
Definition normalize_finding (v : pyval) : option pyval :=
  match v with
  | VDict kvs =>
      line ← assoc (u8 "line") kvs;
      start_line ← assoc (u8 "start_line") kvs;
      Some (VDict (match py_int line, py_int start_line with
                   | Some a, Some b => if b =? a then dict_set (u8 "start_line") VNone kvs else kvs
                   | _, _ => kvs
                   end))
  | _ => None
  end.

(** The key a normalized finding is sorted by; [None] is a [KeyError]. *)
Definition raw_order_key (v : pyval) : option (Z * Q) :=
  match v with
  | VDict kvs =>
      severity ← assoc (u8 "severity") kvs ≫= read_severity;
      confidence ← assoc (u8 "confidence") kvs ≫= read_float;
      Some (finding_order_key severity confidence)
  | _ => None
  end.
Definition raw_order (a b : pyval) : bool :=
  match raw_order_key a, raw_order_key b with
  | Some ka, Some kb => order_key_leb ka kb
  | _, _ => true
  end.

Definition invalid_errors {A} (errors : list pystr) : result exc A := Err (E_invalid_answer errors).
Definition key_error {A} : result exc A := Err (E_python (u8 "KeyError")).

(** [_decode_object]: the legacy decoder lets two of the decoder's errors through. *)
Definition decode_object (depth : nat) (content : pystr) : result exc output :=
  match loads depth content with
  | Ok (VDict kvs) => Ok kvs
  | Ok _ => invalid_errors [u8 "the answer must be one JSON object"]
  | Err (J_decode msg rest) =>
      invalid_errors [u8 "not valid JSON: " ++ msg ++ u8 " at line " ++ str_of_Z (error_line content rest)]
  | Err J_nested => Err (E_python (u8 "RecursionError"))
  | Err J_digits => Err (E_python (u8 "ValueError"))
  | Err J_fuel => Err E_fuel
  end.

Definition decode_object_fail_closed (depth : nat) (content : pystr) : result exc output :=
  match loads depth content with
  | Err J_nested => invalid_errors [u8 "not valid JSON: nested too deeply"]
  | Err J_digits => invalid_errors [u8 "not valid JSON: a number has too many digits"]
  | _ => decode_object depth content
  end.

Section Answers.
(** The nesting the decoder allows. *)
Context (depth : nat).
(** The errors of the schema validator, and those of the models, each with its first. *)
Context (violations : Schema → pyval → Violation * list Violation).
Context (finding_errors finding_errors_v2 output_errors : pyval → ModelError * list ModelError).
Context (verification_errors : pyval → ModelError * list ModelError).
Context (type_name message : pyval → pystr).

Definition schema_errors (s : Schema) (v : pyval) : list pystr :=
  if accepts s v then []
  else
    let '(first, more) := violations s v in
    take MAX_ERRORS (schema_error <$> py_sorted (λ a b, str_leb (vi_json_path a) (vi_json_path b)) (first :: more)).

Definition model_errors (errors : pyval → ModelError * list ModelError) (prefix : list pystr) (v : pyval)
  : list pystr :=
  let '(first, more) := errors v in validation_messages prefix (first :: more).

(** [_normalize_review_answer] *)
Definition normalize_review_answer {A} (checked : pyval → option A)
    (errors : pyval → ModelError * list ModelError) (decoded : output) : result exc output :=
  match assoc (u8 "findings") decoded with
  | Some (VList findings) =>
      match mapM normalize_finding findings with
      | None => key_error
      | Some normalized =>
          let broken index v := match checked v with
                                | Some _ => []
                                | None => model_errors errors [u8 "findings"; str_of_nat index] v
                                end in
          match mjoin (imap broken normalized) with
          | [] =>
              match mapM raw_order_key normalized with
              | None => key_error
              | Some _ => Ok (dict_set (u8 "findings") (VList (py_sorted raw_order normalized)) decoded)
              end
          | messages => invalid_errors (take MAX_ERRORS messages)
          end
      end
  | _ => key_error
  end.

Definition validate_review_answer (content : pystr) : result exc output :=
  decoded ← decode_object depth content;
  match schema_errors review_output_schema (VDict decoded) with
  | [] =>
      normalized ← normalize_review_answer checked_v1 finding_errors decoded;
      match parse_review_output (In_mapping (answer_data_of type_name message normalized)) with
      | Ok _ => Ok normalized
      | Err _ => invalid_errors (model_errors output_errors [] (VDict normalized))
      end
  | errors => invalid_errors errors
  end.

Definition validate_review_answer_v2 (content : pystr) : result exc output :=
  decoded ← decode_object_fail_closed depth content;
  match schema_errors review_output_schema_v2 (VDict decoded) with
  | [] =>
      normalized ← normalize_review_answer checked_v2 finding_errors_v2 decoded;
      match parse_review_output_v2 (VDict normalized) with
      | Some _ => Ok normalized
      | None => invalid_errors (model_errors output_errors [] (VDict normalized))
      end
  | errors => invalid_errors errors
  end.

Definition validate_verifier_answer (content : pystr) : result exc output :=
  decoded ← decode_object_fail_closed depth content;
  match schema_errors verifier_output_schema (VDict decoded) with
  | [] =>
      match read_verification (VDict decoded) with
      | Some _ => Ok decoded
      | None => invalid_errors (model_errors verification_errors [] (VDict decoded))
      end
  | errors => invalid_errors errors
  end.

(** What [llm.call] stores of a verifier's answer: no reason, and nothing of any other text. *)
Definition verifier_answer_without_reasons (content : pystr) : pystr :=
  match validate_verifier_answer content ≫= (λ o, match read_verification (VDict o) with
                                                   | Some ds => Ok ds | None => key_error end) with
  | Ok decisions =>
      plain_dumps (VDict [(u8 "decisions", VList (decision_value ∘ stored_decision <$> decisions))])
  | Err _ => u8 "[withheld: " ++ str_of_Z (py_len content) ++ u8 " characters that are not a valid verifier answer]"
  end.

(** [review_answer_contract] *)
Record ReviewAnswerContract : Type := mkReviewAnswerContract {
  rac_name : pystr;
  rac_schema : Schema;
  rac_validate : pystr → result exc output
}.
Definition V1_REVIEW_PROMPT_VERSIONS : list pystr := [u8 "v1"; u8 "v2"; u8 "v3"].
Definition review_answer_contract (review_system_version : option pystr) : result PolicyError ReviewAnswerContract :=
  match review_system_version with
  | None => Ok (mkReviewAnswerContract (u8 "ReviewOutput") review_output_schema validate_review_answer)
  | Some version =>
      if str_mem version V1_REVIEW_PROMPT_VERSIONS
      then Ok (mkReviewAnswerContract (u8 "ReviewOutput") review_output_schema validate_review_answer)
      else if str_mem version SNAPSHOT_REVIEW_PROMPT_VERSIONS
      then Ok (mkReviewAnswerContract (u8 "ReviewOutputV2") review_output_schema_v2 validate_review_answer_v2)
      else Err (policy_error SNAPSHOT_INTEGRITY_ERROR
                  (u8 "Unknown review prompt version '" ++ version
                   ++ u8 "' in prompt bindings: no review answer schema is bound to it") no_args)
  end.
End Answers.
