(* ===== verification/ModelAnswerFacts.v ===== *)
(** * Theorems on accepted answers

    Which texts [validate_review_answer_v2] accepts, what it makes of them, and that a stored answer is
    accepted again. *)

From Stdlib Require Import String QArith SpecFloat.
From stdpp Require Import numbers gmap sorting list.
From S2P Require Import Prelude PyText PyHash UnifiedDiff DiffMap PyFloat PyDecimal PyValue PyJson Verdict.
From S2P Require Import PolicyErrors ReviewIgnore Findings FindingsFacts AnswersV2 Reflection ReviewPath Llm LlmTasks.
From S2P Require Import VerifiedReview StoreReview ModelAnswers.
#[local] Open Scope Z_scope.

(** ** What a model reads, its schema accepts *)

Lemma read_text_accepts v s lo hi p : read_text v = Some s → lo ≤ py_len s → opt_all (λ n, py_len s <=? n) hi = true →
  opt_all (λ q, q s) p = true → ∀ nullable, accepts (Sch_string nullable lo hi p) v = true.
Proof. destruct v; try done. intros [= ->] H1 H2 H3 nullable. cbn. rewrite H2, H3. by rewrite (proj2 (Z.leb_le _ _)). Qed.

Lemma read_null_accepts {A} (read : pyval → option A) v o s :
  read_null read v = Some o → accepts s VNone = true → (∀ a, read v = Some a → o = Some a → accepts s v = true) →
  accepts s v = true.
Proof.
  destruct v; cbn [read_null]; [by intros [= <-]|..]; intros (a & Ha & ->)%fmap_Some _ H; by apply (H a).
Qed.

Lemma read_integer_accepts v z lo nullable : read_integer v = Some z → lo ≤ z → accepts (Sch_integer nullable lo) v = true.
Proof.
  destruct v; try done. intros [= ->] H. cbn. rewrite (proj2 (Z.ltb_ge _ _)) by done. by destruct nullable.
Qed.

Lemma read_member_accepts {A} (value : A → pystr) all v a :
  read_member value all v = Some a → accepts (Sch_enum (value <$> all)) v = true.
Proof.
  destruct v; try done. cbn. intros (Hin & <-%str_eqb_eq)%find_first_some. apply str_mem_In, list_elem_of_In.
  apply list_elem_of_fmap_2. by apply list_elem_of_In.
Qed.

Lemma accepts_object properties kvs :
  Forall (λ p, ∃ v, assoc (fst p) kvs = Some v ∧ accepts (snd p) v = true) properties →
  only_keys (fst <$> properties) kvs = true → accepts (Sch_object properties) (VDict kvs) = true.
Proof.
  intros H Hk. cbn. unfold only_keys in Hk. rewrite Hk, andb_true_r. apply forallb_forall. intros p Hp.
  rewrite Forall_forall in H. destruct (H p) as (v & -> & Hv); [by apply list_elem_of_In|done].
Qed.

Lemma accepts_array lo hi s l : between lo hi (py_len l) = true → Forall (λ v, accepts s v = true) l →
  accepts (Sch_array lo hi s) (VList l) = true.
Proof.
  intros H1 H2. cbn. rewrite H1. apply forallb_forall. intros v Hv. rewrite Forall_forall in H2.
  by apply H2, list_elem_of_In.
Qed.

Lemma read_list_some {A} (read : pyval → option A) v xs :
  read_list read v = Some xs → ∃ l, v = VList l ∧ Forall2 (λ v x, read v = Some x) l xs.
Proof. destruct v; try done. cbn. intros H%mapM_Some_1. eauto. Qed.

Lemma read_float_accepts v q : read_float v = Some q → (0 <= q)%Q → (q <= 1)%Q → accepts (Sch_number 0 1) v = true.
Proof.
  intros Hr H0 H1. assert (number_below v 0 = false ∧ number_above v 1 = false ∧ is_number v = true) as (E1 & E2 & E3).
  { destruct v as [| |z|l| | |]; try done; cbn in *.
    - injection Hr as <-. unfold Qle in *. cbn in *. rewrite !(proj2 (Z.ltb_ge _ _)) by lia. done.
    - apply bind_Some in Hr as (x & -> & Hr). destruct x; try done; cbn in Hr |- *.
      all: rewrite Hr; unfold Qltb; rewrite !negb_false_iff, !Qle_bool_iff; done. }
  cbn. by rewrite E1, E2, E3.
Qed.

Lemma read_fields_some kvs f : read_fields kvs = Some f →
  assoc (u8 "path") kvs ≫= read_text = Some (fg_path f)
  ∧ assoc (u8 "line") kvs ≫= read_integer = Some (fg_line f)
  ∧ assoc (u8 "start_line") kvs ≫= read_null read_integer = Some (fg_start_line f)
  ∧ assoc (u8 "severity") kvs ≫= read_severity = Some (fg_severity f)
  ∧ assoc (u8 "category") kvs ≫= read_category = Some (fg_category f)
  ∧ assoc (u8 "title") kvs ≫= read_text = Some (fg_title f)
  ∧ assoc (u8 "body") kvs ≫= read_text = Some (fg_body f)
  ∧ assoc (u8 "suggestion") kvs ≫= read_null read_text = Some (fg_suggestion f)
  ∧ assoc (u8 "confidence") kvs ≫= read_float = Some (fg_confidence f)
  ∧ assoc (u8 "rule_name") kvs ≫= read_null read_text = Some (fg_rule_name f).
Proof.
  unfold read_fields. intros H.
  apply bind_Some in H as (path & H1 & H). apply bind_Some in H as (line & H2 & H).
  apply bind_Some in H as (start_line & H3 & H). apply bind_Some in H as (severity & H4 & H).
  apply bind_Some in H as (category & H5 & H). apply bind_Some in H as (title & H6 & H).
  apply bind_Some in H as (body & H7 & H). apply bind_Some in H as (suggestion & H8 & H).
  apply bind_Some in H as (confidence & H9 & H). apply bind_Some in H as (rule_name & H10 & [= <-]).
  by split_and!.
Qed.

Lemma read_evidence_accepts v r : read_evidence_ref v = Some r → evidence_valid r = true →
  accepts evidence_ref_schema v = true.
Proof.
  unfold read_evidence_ref. destruct v as [| | | | | |kvs]; try done. destruct (only_keys _ kvs) eqn:Hk; [|done].
  intros H. apply bind_Some in H as (b & (vb & Hb & Hrb)%bind_Some & H).
  apply bind_Some in H as (a & (va & Ha & Hra)%bind_Some & H).
  apply bind_Some in H as (e & (ve & He & Hre)%bind_Some & [= <-]).
  unfold evidence_valid, between. cbn [er_block_id er_start_line er_end_line].
  rewrite !andb_true_iff, !Z.leb_le. intros (((((H1 & H2) & H3) & H4) & _) & _).
  apply accepts_object; [|done]. repeat constructor; cbn [fst snd]; eexists; (split; [done|]).
  - eapply read_text_accepts; [done|done|by apply Z.leb_le|done].
  - by eapply read_integer_accepts.
  - by eapply read_integer_accepts.
Qed.

Lemma checked_v2_accepts v f : checked_v2 v = Some f → accepts finding_v2_schema v = true.
Proof.
  unfold checked_v2. intros (f' & Hr & H)%bind_Some. destruct (finding_v2_valid f') eqn:Hv; [|done]. injection H as ->.
  unfold read_finding_v2 in Hr. destruct v as [| | | | | |kvs]; try done. destruct (only_keys _ kvs) eqn:Hk; [|done].
  apply bind_Some in Hr as (g & Hg & (refs & (vr & Hrefs & Hlist)%bind_Some & [= <-])%bind_Some).
  apply read_fields_some in Hg as (H1 & H2 & H3 & H4 & H5 & H6 & H7 & H8 & H9 & H10).
  apply bind_Some in H1 as (v1 & E1 & R1). apply bind_Some in H2 as (v2 & E2 & R2).
  apply bind_Some in H3 as (v3 & E3 & R3). apply bind_Some in H4 as (v4 & E4 & R4).
  apply bind_Some in H5 as (v5 & E5 & R5). apply bind_Some in H6 as (v6 & E6 & R6).
  apply bind_Some in H7 as (v7 & E7 & R7). apply bind_Some in H8 as (v8 & E8 & R8).
  apply bind_Some in H9 as (v9 & E9 & R9). apply bind_Some in H10 as (v10 & E10 & R10).
  apply read_list_some in Hlist as (l & -> & Hl).
  unfold finding_v2_valid, finding_valid, finding_fields_ok, between in Hv. cbn [f2_finding f2_evidence_refs] in Hv.
  rewrite !andb_true_iff in Hv.
  destruct Hv as (((((((((((((Hp1 & Hln) & Hst) & Ht) & Hbd) & Hc0) & Hc1) & _) & _) & Hp2) & Hrn) & Hev) & Hrefs') & Hrule).
  apply accepts_object; [|exact Hk]. unfold text_of. repeat constructor; cbn [fst snd]; eexists; (split; [done|]).
  - eapply read_text_accepts; [done|by apply Z.leb_le|by cbn|done].
  - eapply read_integer_accepts; [done|by apply Z.leb_le].
  - eapply read_null_accepts; [done|done|]. intros a Ha Hs. rewrite Hs in Hst. eapply read_integer_accepts; [done|by apply Z.leb_le].
  - by eapply read_member_accepts.
  - by eapply read_member_accepts.
  - destruct Ht as [? ?]. eapply read_text_accepts; [done|by apply Z.leb_le|by cbn|done].
  - destruct Hbd as [? ?]. eapply read_text_accepts; [done|by apply Z.leb_le|by cbn|done].
  - eapply read_null_accepts; [done|done|]. intros a Ha _. eapply read_text_accepts; [done|unfold py_len; lia|done|done].
  - eapply read_float_accepts; [done|by apply Qle_bool_iff|by apply Qle_bool_iff].
  - eapply read_null_accepts; [done|done|]. intros a Ha Hs. rewrite Hs in Hrn, Hrule. apply andb_true_iff in Hrn as [Hrn _].
    eapply read_text_accepts; [done|unfold py_len; lia|by cbn|by cbn].
  - destruct Hev as [Hlo Hhi]. apply accepts_array.
    + unfold between. apply Forall2_length in Hl. unfold py_len in *. by rewrite Hl, Hlo, Hhi.
    + apply Forall_forall. intros v (i & Hi)%list_elem_of_lookup.
      destruct (Forall2_lookup_l _ _ _ _ _ Hl Hi) as (r & Hr & Hread).
      eapply read_evidence_accepts; [done|]. unfold py_all in Hrefs'. rewrite forallb_forall in Hrefs'.
      apply Hrefs', list_elem_of_In. by eapply list_elem_of_lookup_2.
Qed.

Lemma read_summary_accepts v s : read_summary v = Some s → summary_valid s = true → accepts summary_schema v = true.
Proof.
  unfold read_summary. destruct v as [| | | | | |kvs]; try done.
  destruct (assoc (u8 "problem") kvs) as [[| | | |p| |]|] eqn:E1; try done.
  destruct (assoc (u8 "done_well") kvs) as [[| | | |w| |]|] eqn:E2; try done.
  destruct (assoc (u8 "effort") kvs) as [[| | | |e| |]|] eqn:E3; try done.
  destruct (py_all _ kvs) eqn:Hk; [|done]. intros (eff & He & ->)%fmap_Some.
  unfold summary_valid. cbn [sm_problem sm_done_well]. rewrite !andb_true_iff. intros [[[[H1 H2] _] _] _].
  apply accepts_object; [|exact Hk]. repeat constructor; cbn [fst snd]; eexists; (split; [done|]).
  - cbn. by rewrite H1.
  - cbn. by rewrite H2.
  - change (accepts (Sch_enum (Effort_value <$> [Effort_none; Effort_small; Effort_medium; Effort_large])) (VStr e) = true).
    by eapply (read_member_accepts Effort_value).
Qed.

(** ** Normalized findings *)

Lemma assoc_dict_set {A} k (v : A) d k' : assoc k' (dict_set k v d) = if k =?s k' then Some v else assoc k' d.
Proof.
  destruct (decide (k' = k)) as [->|Hne].
  - rewrite str_eqb_refl. induction d as [|[k2 v2] d IH]; cbn [dict_set assoc fst]; [by rewrite str_eqb_refl|].
    destruct (k2 =?s k) eqn:E; cbn [assoc]; [by rewrite str_eqb_refl|]. by rewrite str_eqb_sym, E.
  - rewrite (proj2 (str_eqb_neq k k')) by done.
    induction d as [|[k2 v2] d IH]; cbn [dict_set assoc fst]; [by rewrite (proj2 (str_eqb_neq k' k))|].
    destruct (k2 =?s k) eqn:E; cbn [assoc]; [|by rewrite IH].
    apply str_eqb_eq in E as ->. by rewrite (proj2 (str_eqb_neq k' k)).
Qed.

Lemma dict_set_same {A} k (v : A) d : assoc k d = Some v → dict_set k v d = d.
Proof.
  induction d as [|[k' v'] d IH]; [done|]. cbn. rewrite str_eqb_sym. destruct (k' =?s k) eqn:E.
  - apply str_eqb_eq in E as ->. by intros [= ->].
  - intros H. by rewrite IH.
Qed.

(** A finding the model takes is already normal. *)
Lemma checked_v2_normal v f : checked_v2 v = Some f → normalize_finding v = Some v.
Proof.
  unfold checked_v2. intros (f' & Hr & H)%bind_Some. destruct (finding_v2_valid f') eqn:Hv; [|done]. injection H as ->.
  unfold read_finding_v2 in Hr. destruct v as [| | | | | |kvs]; try done. destruct (only_keys _ kvs) eqn:Hk; [|done].
  apply bind_Some in Hr as (g & Hg & (refs & _ & [= <-])%bind_Some).
  apply read_fields_some in Hg as (_ & H2 & H3 & _).
  apply bind_Some in H2 as (v2 & E2 & R2). apply bind_Some in H3 as (v3 & E3 & R3).
  unfold normalize_finding. rewrite E2, E3. cbn [mbind option_bind]. do 2 f_equal.
  destruct v2 as [| |line| | | |]; try done. injection R2 as ->. cbn [py_int].
  destruct v3 as [| |start| | | |]; try done. cbn in R3. injection R3 as R3.
  unfold finding_v2_valid, finding_valid, validate_range in Hv. cbn [f2_finding] in Hv. rewrite <- R3 in Hv.
  assert (Hlt : (start <? fg_line g) = true) by (rewrite !andb_true_iff in Hv; tauto).
  apply Z.ltb_lt in Hlt. cbn [py_int]. by rewrite (proj2 (Z.eqb_neq _ _)) by lia.
Qed.

Lemma checked_v2_key v f : checked_v2 v = Some f → raw_order_key v = Some (finding_key (f2_finding f)).
Proof.
  unfold checked_v2. intros (f' & Hr & H)%bind_Some. destruct (finding_v2_valid f') eqn:Hv; [|done]. injection H as ->.
  unfold read_finding_v2 in Hr. destruct v as [| | | | | |kvs]; try done. destruct (only_keys _ kvs) eqn:Hk; [|done].
  apply bind_Some in Hr as (g & Hg & (refs & _ & [= <-])%bind_Some).
  apply read_fields_some in Hg as (_ & _ & _ & H4 & _ & _ & _ & _ & H9 & _).
  unfold raw_order_key. rewrite H4, H9. done.
Qed.

Lemma raw_order_total a b : raw_order a b = true ∨ raw_order b a = true.
Proof.
  unfold raw_order. destruct (raw_order_key a), (raw_order_key b); try (by left). apply order_key_total.
Qed.

(** The sorted findings are in the order of an answer. *)
Lemma sorted_ordered l fs : Forall2 (λ v f, checked_v2 v = Some f) l fs → Sorted (leP raw_order) l →
  findings_ordered (f2_finding <$> fs) = true.
Proof.
  intros H Hs. apply findings_ordered_sorted. induction H as [|v f l fs Hf Hl IH]; [constructor|].
  inversion Hs as [|? ? Hss Hhd]; subst. cbn. constructor; [by apply IH|].
  destruct Hl as [|v' f' l fs Hf' _]; [constructor|]. cbn. constructor. inversion Hhd; subst.
  unfold leP, raw_order in *. by rewrite (checked_v2_key _ _ Hf), (checked_v2_key _ _ Hf') in H0.
Qed.

(** The key set of an object is kept when a key it has is replaced. *)
Lemma only_keys_set keys k v kvs : str_mem k keys = true → only_keys keys kvs = true → only_keys keys (dict_set k v kvs) = true.
Proof.
  intros Hk. unfold only_keys. induction kvs as [|[k' v'] kvs IH]; cbn; [by rewrite Hk|]. intros [H1 H2]%andb_true_iff.
  destruct (k' =?s k); cbn; [by rewrite Hk|]. rewrite H1. by apply IH.
Qed.

Lemma schema_findings kvs : accepts review_output_schema_v2 (VDict kvs) = true →
  ∃ l, assoc (u8 "findings") kvs = Some (VList l) ∧ (py_len l <=? 10) = true
  ∧ only_keys [u8 "findings"; u8 "summary"] kvs = true ∧ is_Some (mapM normalize_finding l).
Proof.
  unfold review_output_schema_v2. cbn [accepts forallb fst snd fmap list_fmap]. rewrite !andb_true_iff.
  intros [[H _] Hk]. destruct (assoc _ kvs) as [[| | | | |l|]|] eqn:E; try done. cbn [accepts] in H.
  apply andb_true_iff in H as [Hlen Hall]. exists l. split; [done|]. split; [|split; [done|]].
  { unfold between in Hlen. by apply andb_true_iff in Hlen as [_ ?]. }
  apply mapM_is_Some. apply Forall_forall. intros v Hv%list_elem_of_In. rewrite forallb_forall in Hall.
  specialize (Hall v Hv). unfold finding_v2_schema in Hall.
  destruct v as [| | | | | |fkvs]; cbn [accepts] in Hall; try done.
  apply andb_true_iff in Hall as [Hall _]. rewrite forallb_forall in Hall.
  change (is_Some (normalize_finding (VDict fkvs))). cbn [normalize_finding].
  destruct (assoc (u8 "line") fkvs) eqn:E1.
  - destruct (assoc (u8 "start_line") fkvs) eqn:E2; [by eexists|].
    specialize (Hall (u8 "start_line", Sch_integer true 1)). cbn [fst] in Hall. rewrite E2 in Hall.
    discriminate Hall. cbn. tauto.
  - specialize (Hall (u8 "line", Sch_integer false 1)). cbn [fst] in Hall. rewrite E1 in Hall.
    discriminate Hall. cbn. tauto.
Qed.

(** ** The answers of the second version *)

Section Claims.
Context (depth : nat) (violations : Schema → pyval → Violation * list Violation).
Context (finding_errors_v2 output_errors : pyval → ModelError * list ModelError).
Context (type_name message : pyval → pystr).
Abbreviation validate := (validate_review_answer_v2 depth violations finding_errors_v2 output_errors).

Definition some_errors (errors : list pystr) : Prop := (1 ≤ length errors ≤ MAX_ERRORS)%nat.

Lemma model_errors_some errors prefix v : some_errors (model_errors errors prefix v).
Proof.
  unfold some_errors, model_errors, validation_messages, MAX_ERRORS. destruct (errors v) as [first more].
  rewrite length_fmap, length_take. cbn [length]. lia.
Qed.

Lemma schema_errors_none s v : schema_errors violations s v = [] ↔ accepts s v = true.
Proof.
  unfold schema_errors. destruct (accepts s v); [done|]. destruct (violations s v) as [first more].
  split; [|done]. intros H%(f_equal length). revert H. unfold MAX_ERRORS.
  rewrite length_take, length_fmap, length_py_sorted. cbn [length]. lia.
Qed.

Lemma schema_errors_some s v : accepts s v = false → some_errors (schema_errors violations s v).
Proof.
  unfold schema_errors. intros ->. destruct (violations s v) as [first more].
  unfold some_errors, MAX_ERRORS. rewrite length_take, length_fmap, length_py_sorted. cbn [length]. lia.
Qed.

Lemma decode_spec content :
  match decode_object_fail_closed depth content with
  | Ok kvs => loads depth content = Ok (VDict kvs)
  | Err e => (∃ errors, e = E_invalid_answer errors ∧ some_errors errors) ∧ ∀ kvs, loads depth content ≠ Ok (VDict kvs)
  end.
Proof.
  unfold decode_object_fail_closed, decode_object. assert (Hf := loads_ends depth content).
  assert (H1 : ∀ t, some_errors [t]) by (intros t; unfold some_errors, MAX_ERRORS; cbn; lia).
  destruct (loads depth content) as [[| | | | | |kvs]|[msg rest| | |]]; cbn; try done; (split; [|done]); eexists; (split; [done|]); done.
Qed.

(** What a normalized list of findings gives. *)
Lemma normalize_spec kvs l ns : assoc (u8 "findings") kvs = Some (VList l) → mapM normalize_finding l = Some ns →
  match normalize_review_answer checked_v2 finding_errors_v2 kvs with
  | Ok d => d = dict_set (u8 "findings") (VList (py_sorted raw_order ns)) kvs ∧ is_Some (mapM checked_v2 ns)
  | Err e => (∃ errors, e = E_invalid_answer errors ∧ some_errors errors) ∧ mapM checked_v2 ns = None
  end.
Proof.
  intros Hl Hns. unfold normalize_review_answer. rewrite Hl, Hns.
  match goal with |- context [imap ?b ns] => set (broken := b) end. cbv zeta.
  assert (Hall : mjoin (imap broken ns) = [] ↔ Forall (is_Some ∘ checked_v2) ns).
  { split.
    - intros H. apply Forall_lookup. intros i v Hi. cbn. destruct (checked_v2 v) eqn:E; [by eexists|].
      destruct (model_errors finding_errors_v2 [u8 "findings"; str_of_nat i] v) as [|m ms] eqn:Em.
      + assert (Hs := model_errors_some finding_errors_v2 [u8 "findings"; str_of_nat i] v).
        rewrite Em in Hs. unfold some_errors in Hs. cbn in Hs. lia.
      + assert (m ∈ mjoin (imap broken ns)); [|rewrite H in *; exfalso; by eapply not_elem_of_nil].
        apply list_elem_of_join. exists (broken i v). split; [unfold broken; rewrite E, Em; by left|].
        apply list_elem_of_lookup. exists i. by rewrite list_lookup_imap, Hi.
    - intros H. apply elem_of_nil_inv. intros m (b & Hm & (i & Hi)%list_elem_of_lookup)%list_elem_of_join.
      rewrite list_lookup_imap in Hi. destruct (ns !! i) as [v|] eqn:Ev; [|done]. cbn in Hi. injection Hi as <-.
      rewrite Forall_lookup in H. destruct (H i v Ev) as [f Hf]. unfold broken in Hm. rewrite Hf in Hm. by apply elem_of_nil in Hm. }
  destruct (mjoin (imap broken ns)) as [|m ms] eqn:Em.
  - assert (His : is_Some (mapM checked_v2 ns)) by (apply mapM_is_Some; by apply Hall).
    destruct His as [fs Hfs]. assert (is_Some (mapM raw_order_key ns)) as [ks ->]; [|by split].
    apply mapM_is_Some. apply mapM_Some_1 in Hfs. apply Forall_lookup. intros i v Hi.
    destruct (Forall2_lookup_l _ _ _ _ _ Hfs Hi) as (f & _ & Hf). cbn. rewrite (checked_v2_key _ _ Hf). by eexists.
  - split.
    + eexists. split; [done|]. unfold some_errors, MAX_ERRORS. rewrite length_take. cbn [length]. lia.
    + destruct (mapM checked_v2 ns) as [fs|] eqn:E; [|done]. exfalso.
      assert (m :: ms = []); [|done]. apply Hall. apply mapM_is_Some. by rewrite E.
Qed.
(** [content] is read as an object of the schema whose findings, once normal, are valid and whose
    summary is: the answer [d] is that object with its normal findings in their order. *)
Definition accepted_from (content : pystr) (d : output) : Prop :=
  ∃ kvs l ns fs s,
    loads depth content = Ok (VDict kvs) ∧ accepts review_output_schema_v2 (VDict kvs) = true
    ∧ assoc (u8 "findings") kvs = Some (VList l) ∧ mapM normalize_finding l = Some ns
    ∧ mapM checked_v2 ns = Some fs
    ∧ assoc (u8 "summary") kvs ≫= read_summary = Some s ∧ summary_valid s = true
    ∧ d = dict_set (u8 "findings") (VList (py_sorted raw_order ns)) kvs.

(** The answer has exactly the findings [fs], in order, and the summary [s]. *)
Definition answer_of_findings (d : output) (fs : list ReviewFindingV2) (s : ReviewSummary) : Prop :=
  ∃ l, assoc (u8 "findings") d = Some (VList l) ∧ Forall2 (λ v f, checked_v2 v = Some f) l fs
  ∧ Sorted (leP raw_order) l ∧ only_keys [u8 "findings"; u8 "summary"] d = true ∧ (py_len l <=? 10) = true
  ∧ assoc (u8 "summary") d ≫= read_summary = Some s ∧ summary_valid s = true.

Lemma checked_v2_some v f : checked_v2 v = Some f → read_finding_v2 v = Some f ∧ finding_v2_valid f = true.
Proof.
  unfold checked_v2. intros (f' & Hr & H)%bind_Some. destruct (finding_v2_valid f') eqn:Hv; [|done]. by injection H as ->.
Qed.

Lemma answer_parsed d fs s : answer_of_findings d fs s →
  parse_review_output_v2 (VDict d) = Some (mkReviewOutputV2 fs s).
Proof.
  intros (l & Hl & Hfs & Hs & Hk & Hten & Hsum & Hvs). unfold parse_review_output_v2. rewrite Hk, Hl.
  cbn [mbind option_bind read_list].
  assert (mapM read_finding_v2 l = Some fs) as ->.
  { apply mapM_Some_2. eapply Forall2_impl; [exact Hfs|]. intros v f Hf. by apply checked_v2_some in Hf as [? _]. }
  cbn [mbind option_bind]. fold (assoc (u8 "summary") d ≫= read_summary). unfold mbind, option_bind in Hsum |- *.
  rewrite Hsum. unfold output_v2_valid. cbn [o2_findings o2_summary].
  rewrite (sorted_ordered _ _ Hfs Hs), Hvs. apply Forall2_length in Hfs as Hlen. unfold py_len in *. rewrite <- Hlen, Hten.
  replace (py_all finding_v2_valid fs) with true; [done|]. symmetry. apply forallb_forall.
  intros f (i & Hi)%list_elem_of_In%list_elem_of_lookup.
  destruct (Forall2_lookup_r _ _ _ _ _ Hfs Hi) as (v & _ & Hf). by apply checked_v2_some in Hf as [_ ?].
Qed.

Lemma normalized_answer kvs l ns fs s d :
  accepts review_output_schema_v2 (VDict kvs) = true → assoc (u8 "findings") kvs = Some (VList l) →
  mapM normalize_finding l = Some ns → mapM checked_v2 ns = Some fs →
  assoc (u8 "summary") kvs ≫= read_summary = Some s → summary_valid s = true →
  d = dict_set (u8 "findings") (VList (py_sorted raw_order ns)) kvs →
  ∃ fs', Permutation fs fs' ∧ answer_of_findings d fs' s.
Proof.
  intros Hacc Hl Hns Hfs Hsum Hvs ->. apply schema_findings in Hacc as (l' & Hl' & Hten & Hk & _).
  rewrite Hl in Hl'. injection Hl' as <-. apply mapM_Some_1 in Hfs.
  destruct (Permutation_Forall2 (symmetry (py_sorted_perm raw_order ns)) Hfs) as (fs' & Hp & Hfs').
  exists fs'. split; [done|]. exists (py_sorted raw_order ns). rewrite !assoc_dict_set. rewrite str_eqb_refl.
  split_and!; [done|done|apply py_sorted_sorted, raw_order_total|by apply only_keys_set| |done|done].
  apply mapM_Some_1, Forall2_length in Hns. unfold py_len in *. by rewrite length_py_sorted, <- Hns.
Qed.

Lemma parsed_summary kvs o : parse_review_output_v2 (VDict kvs) = Some o →
  assoc (u8 "summary") kvs ≫= read_summary = Some (o2_summary o) ∧ summary_valid (o2_summary o) = true.
Proof.
  unfold parse_review_output_v2. destruct (only_keys _ kvs); [|done].
  intros (fs & _ & (s & Hs & H)%bind_Some)%bind_Some. destruct (output_v2_valid _) eqn:Hv; [|done].
  injection H as <-. split; [exact Hs|]. unfold output_v2_valid in Hv. by apply andb_true_iff in Hv as [_ ?].
Qed.

Lemma validate_spec content :
  match validate content with
  | Ok d => accepted_from content d
  | Err e => (∃ errors, e = E_invalid_answer errors ∧ some_errors errors) ∧ ∀ d, ¬ accepted_from content d
  end.
Proof.
  unfold validate_review_answer_v2. assert (Hd := decode_spec content).
  destruct (decode_object_fail_closed depth content) as [kvs|e]; cbn [mbind result_bind].
  2:{ destruct Hd as [He Hn]. split; [done|]. intros d (kvs & _ & _ & _ & _ & H & _). by apply (Hn kvs). }
  assert (Huse : ∀ d, accepted_from content d → accepts review_output_schema_v2 (VDict kvs) = true
    ∧ ∃ l ns fs, assoc (u8 "findings") kvs = Some (VList l) ∧ mapM normalize_finding l = Some ns
      ∧ mapM checked_v2 ns = Some fs ∧ parse_review_output_v2 (VDict d) ≠ None
      ∧ d = dict_set (u8 "findings") (VList (py_sorted raw_order ns)) kvs).
  { intros d (k' & l & ns & fs & s & Hk & Hacc & Hl & Hns & Hfs & Hs & Hvs & Hdict).
    rewrite Hd in Hk. injection Hk as <-. split; [done|]. exists l, ns, fs. split_and!; try done.
    destruct (normalized_answer _ _ _ _ _ _ Hacc Hl Hns Hfs Hs Hvs Hdict) as (fs' & _ & Ha).
    by rewrite (answer_parsed _ _ _ Ha). }
  destruct (schema_errors violations review_output_schema_v2 (VDict kvs)) as [|m ms] eqn:Es.
  2:{ assert (Hrej : accepts review_output_schema_v2 (VDict kvs) ≠ true) by (intros H%schema_errors_none; congruence).
      split; [|by intros d [? _]%Huse]. eexists. split; [done|]. rewrite <- Es.
      by apply schema_errors_some, not_true_iff_false. }
  apply schema_errors_none in Es. destruct (schema_findings _ Es) as (l & Hl & _ & _ & ns & Hns).
  assert (Hspec := normalize_spec _ _ _ Hl Hns).
  destruct (normalize_review_answer checked_v2 finding_errors_v2 kvs) as [d|e]; cbn [mbind result_bind].
  2:{ destruct Hspec as [He Hnone]. split; [done|]. intros d (_ & l' & n' & f' & Hl' & Hn' & Hf' & _)%Huse. congruence. }
  destruct Hspec as [-> [fs Hfs]]. destruct (parse_review_output_v2 _) as [o|] eqn:Ep.
  - apply parsed_summary in Ep as [Hs Hvs]. rewrite assoc_dict_set in Hs.
    exists kvs, l, ns, fs, (o2_summary o). by split_and!.
  - split; [eexists; split; [done|apply model_errors_some]|].
    intros d (_ & l' & n' & f' & Hl' & Hn' & Hf' & Hp & Hdict)%Huse. apply Hp. rewrite Hdict. congruence.
Qed.

Lemma accepted_once content d d' : accepted_from content d → accepted_from content d' → d = d'.
Proof.
  intros (k & l & ns & fs & s & H1 & _ & H2 & H3 & _ & _ & _ & ->) (k' & l' & ns' & fs' & s' & H1' & _ & H2' & H3' & _ & _ & _ & ->).
  rewrite H1 in H1'. injection H1' as <-. rewrite H2 in H2'. injection H2' as <-. congruence.
Qed.

Lemma raw_finding_checked v f : checked_v2 v = Some f → raw_finding type_name message v = Item_fields f.
Proof.
  intros [Hr _]%checked_v2_some. unfold raw_finding. destruct v as [| | | | | |kvs]; try done.
  rewrite Hr. unfold read_finding_v2 in Hr. destruct (only_keys _ kvs); [|done].
  apply bind_Some in Hr as (g & _ & (refs & (w & -> & _)%bind_Some & _)%bind_Some). done.
Qed.

Lemma no_other_keys d : only_keys [u8 "findings"; u8 "summary"] d = true →
  other_keys (answer_data_of type_name message d) = [].
Proof.
  unfold other_keys, answer_data_of. cbn [ad_rest]. induction d as [|[k v] d IH]; [done|].
  cbn [only_keys forallb fst List.filter]. unfold only_keys in *. cbn [forallb fst]. intros [Hk Hd]%andb_true_iff.
  destruct (k =?s u8 "findings") eqn:Ef; cbn [negb]; [by apply IH|].
  cbn [List.filter fst]. destruct (k =?s u8 "summary") eqn:Es; cbn [negb]; [by apply IH|].
  unfold str_mem in Hk. cbn [existsb] in Hk. by rewrite Ef, Es in Hk.
Qed.

(** The review finds the answer whole: every item with its fields, in order, and no other key. *)
Lemma accepted_handed content d : accepted_from content d → ∃ fs s,
  parse_review_output_v2 (VDict d) = Some (mkReviewOutputV2 fs s)
  ∧ ad_findings (answer_data_of type_name message d) = Findings_list (Item_fields <$> fs)
  ∧ other_keys (answer_data_of type_name message d) = []
  ∧ Forall (λ f, finding_v2_valid f = true) fs ∧ findings_ordered (f2_finding <$> fs) = true
  ∧ (length fs ≤ 10)%nat.
Proof.
  intros (kvs & l & ns & fs & s & _ & Hacc & Hl & Hns & Hfs & Hs & Hvs & Hd).
  destruct (normalized_answer _ _ _ _ _ _ Hacc Hl Hns Hfs Hs Hvs Hd) as (fs' & _ & Ha).
  exists fs', s. split; [by apply answer_parsed|]. destruct Ha as (l' & Hl' & Hfs' & Hsort & Hk & Hten & _).
  split_and!; [|by apply no_other_keys| |by eapply sorted_ordered|].
  + unfold answer_data_of. cbn [ad_findings]. rewrite Hl'. f_equal. clear -Hfs'.
    induction Hfs' as [|v f l fs Hf Hl IH]; [done|]. rewrite !fmap_cons. f_equal; [by apply raw_finding_checked|done].
  + apply Forall_forall. intros f (i & Hi)%list_elem_of_lookup.
    destruct (Forall2_lookup_r _ _ _ _ _ Hfs' Hi) as (v & _ & Hf). by apply checked_v2_some in Hf as [_ ?].
  + apply Forall2_length in Hfs'. apply Z.leb_le in Hten. unfold py_len in Hten. lia.
Qed.

(** C22.  A text is accepted as an answer of the second version exactly when it is the JSON of one
    object of the schema whose findings, each start line that repeats its line removed, are valid and
    whose summary is (a path, title, body, block id or text of the summary with a lone surrogate is not
    valid): neither an order of findings nor such a start line loses an answer.  Every other
    text, whatever the decoder makes of it, is refused with one to twenty messages for the repair call
    and nothing else.  The accepted object is read whole: its findings are the ones of the answer, in
    order, at most ten and each valid, its summary is valid, and the review finds every item of it with
    its fields and no other key. *)
Theorem answer_accepted_exact content :
  (∀ d, validate content = Ok d ↔ accepted_from content d)
  ∧ (∀ e, validate content = Err e → ∃ errors, e = E_invalid_answer errors ∧ some_errors errors)
  ∧ ∀ d, accepted_from content d → ∃ fs s,
      parse_review_output_v2 (VDict d) = Some (mkReviewOutputV2 fs s)
      ∧ ad_findings (answer_data_of type_name message d) = Findings_list (Item_fields <$> fs)
      ∧ other_keys (answer_data_of type_name message d) = []
      ∧ Forall (λ f, finding_v2_valid f = true) fs ∧ findings_ordered (f2_finding <$> fs) = true
      ∧ (length fs ≤ 10)%nat.
Proof.
  assert (Hspec := validate_spec content). split_and!.
  - intros d. destruct (validate content) as [d'|e].
    + split; [by intros [= <-]|]. intros H. by rewrite (accepted_once _ _ _ H Hspec).
    + split; [done|]. intros H. by apply Hspec in H.
  - intros e He. rewrite He in Hspec. apply Hspec.
  - apply accepted_handed.
Qed.
End Claims.

(** ** A stored answer is accepted again *)

(** A number whose text is read back as the same number. *)
Definition float_stable (literal : pystr) : bool :=
  float_writable literal && bool_decide (float_of_str (json_float literal) = float_of_str literal).
Abbreviation stable := (every_float float_stable).

Definition written_output (d : output) : output := map (λ kv, (fst kv, as_written (snd kv))) d.

Lemma assoc_written k kvs : assoc k (written_output kvs) = as_written <$> assoc k kvs.
Proof. induction kvs as [|[k' v] kvs IH]; [done|]. cbn. by destruct (k =?s k'). Qed.

Lemma only_keys_written keys kvs : only_keys keys (written_output kvs) = only_keys keys kvs.
Proof. unfold only_keys. induction kvs as [|kv kvs IH]; [done|]. cbn [written_output map forallb fst]. by f_equal. Qed.

Lemma stable_assoc k kvs v : stable (VDict kvs) = true → assoc k kvs = Some v → stable v = true.
Proof.
  cbn [every_float]. induction kvs as [|[k' v'] kvs IH]; [done|]. cbn [forallb assoc snd].
  intros [H1 H2]%andb_true_iff. destruct (k =?s k'); [by intros [= <-]|by apply IH].
Qed.

(** A reader that sees no difference. *)
Definition same_read {A} (read : pyval → option A) : Prop := ∀ v, stable v = true → read (as_written v) = read v.

Lemma same_key {A} (read : pyval → option A) k kvs : same_read read → stable (VDict kvs) = true →
  assoc k (written_output kvs) ≫= read = assoc k kvs ≫= read.
Proof.
  intros Hr Hs. rewrite assoc_written. destruct (assoc k kvs) as [v|] eqn:E; [|done]. cbn.
  apply Hr. by eapply stable_assoc.
Qed.

Lemma same_str : same_read read_text. Proof. by intros []. Qed.
Lemma same_int : same_read read_integer. Proof. by intros []. Qed.
Lemma same_member {A} (value : A → pystr) all : same_read (read_member value all). Proof. by intros []. Qed.
Lemma same_null {A} (read : pyval → option A) : same_read read → same_read (read_null read).
Proof. intros H v Hs. destruct v; try done; cbn [as_written read_null]; by rewrite <- (H _ Hs). Qed.
Lemma same_float : same_read read_float.
Proof.
  intros v Hs. destruct v; try done. cbn [every_float as_written read_float] in *. unfold float_stable in Hs.
  apply andb_true_iff in Hs as [_ Hs]. apply bool_decide_eq_true_1 in Hs. by rewrite Hs.
Qed.
Lemma same_list {A} (read : pyval → option A) : same_read read → same_read (read_list read).
Proof.
  intros H v Hs. destruct v as [| | | | |l|]; try done. cbn [every_float as_written read_list] in *.
  induction l as [|v l IH]; [done|]. cbn [forallb] in Hs. apply andb_true_iff in Hs as [Hv Hs].
  cbn [map mapM]. by rewrite (H v Hv), (IH Hs).
Qed.

#[local] Hint Resolve same_str same_int same_member same_null same_float same_list : core.

Lemma same_fields kvs : stable (VDict kvs) = true → read_fields (written_output kvs) = read_fields kvs.
Proof. intros Hs. unfold read_fields, read_severity, read_category. by rewrite !same_key by auto. Qed.

Lemma same_evidence : same_read read_evidence_ref.
Proof.
  intros v Hs. destruct v as [| | | | | |kvs]; try done. cbn [as_written]. fold (written_output kvs).
  unfold read_evidence_ref. rewrite only_keys_written. destruct (only_keys _ kvs); [|done].
  by rewrite !same_key by auto.
Qed.
#[local] Hint Resolve same_evidence : core.

Lemma same_checked_v2 : same_read checked_v2.
Proof.
  intros v Hs. unfold checked_v2. assert (read_finding_v2 (as_written v) = read_finding_v2 v) as ->; [|done].
  destruct v as [| | | | | |kvs]; try done. cbn [as_written]. fold (written_output kvs).
  unfold read_finding_v2. rewrite only_keys_written, same_fields by done. destruct (only_keys _ kvs); [|done].
  by rewrite !same_key by auto.
Qed.

Lemma same_summary : same_read read_summary.
Proof.
  intros v Hs. destruct v as [| | | | | |kvs]; try done. cbn [as_written]. fold (written_output kvs).
  unfold read_summary. rewrite !assoc_written.
  change (py_all (λ kv, str_mem (fst kv) SUMMARY_KEYS) (written_output kvs)) with (only_keys SUMMARY_KEYS (written_output kvs)).
  rewrite only_keys_written.
  destruct (assoc (u8 "problem") kvs) as [[]|]; try done; destruct (assoc (u8 "done_well") kvs) as [[]|]; try done;
    by destruct (assoc (u8 "effort") kvs) as [[]|].
Qed.

Lemma same_order_key v : stable v = true → raw_order_key (as_written v) = raw_order_key v.
Proof.
  intros Hs. destruct v as [| | | | | |kvs]; try done. cbn [as_written]. fold (written_output kvs).
  unfold raw_order_key, read_severity. by rewrite !same_key by auto.
Qed.

Lemma writable_normal p n v v' : normalize_finding v = Some v' → writable_as p n v = true → writable_as p n v' = true.
Proof.
  unfold normalize_finding. destruct v as [| | | | | |kvs]; try done.
  intros (a & _ & (b & _ & [= <-])%bind_Some)%bind_Some. destruct n as [|n]; [done|].
  destruct (py_int a), (py_int b); try done. destruct (_ =? _); [|done].
  cbn [writable_as]. intros [Hnd Hall]%andb_true_iff. apply bool_decide_eq_true_1 in Hnd.
  rewrite bool_decide_true by by apply dict_set_distinct. cbn [andb]. by apply (dict_set_forall (writable_as p n)).
Qed.

Section Again.
Context (depth : nat) (violations : Schema → pyval → Violation * list Violation).
Context (finding_errors_v2 output_errors : pyval → ModelError * list ModelError).
Abbreviation validate := (validate_review_answer_v2 depth violations finding_errors_v2 output_errors).

(** An answer made of writable parts can be written. *)
Lemma accepted_writable content d : accepted_from depth content d → stable (VDict d) = true → writable depth (VDict d) = true.
Proof.
  intros (kvs & l & ns & fs & s & Hload & _ & Hl & Hns & _ & _ & _ & ->) Hs.
  assert (Hfl : every_float float_writable (VDict (dict_set (u8 "findings") (VList (py_sorted raw_order ns)) kvs)) = true).
  { revert Hs. generalize (VDict (dict_set (u8 "findings") (VList (py_sorted raw_order ns)) kvs)). clear. intros v.
    induction v as [|b|z|t|t|l IH|kvs IH] using pyval_nested; try done.
    - cbn. unfold float_stable. by intros [? _]%andb_true_iff.
    - cbn [every_float]. rewrite !forallb_forall. rewrite Forall_forall in IH. intros H x Hx.
      apply IH; [by apply list_elem_of_In|by apply H].
    - cbn [every_float]. rewrite !forallb_forall. rewrite Forall_forall in IH. intros H x Hx.
      apply IH; [by apply list_elem_of_In|by apply H]. }
  apply writable_floats; [|done]. clear Hs Hfl. apply loads_nested in Hload.
  destruct depth as [|n]; [done|]. cbn [writable_as] in *. apply andb_true_iff in Hload as [Hnd Hall].
  apply bool_decide_eq_true_1 in Hnd. rewrite bool_decide_true by by apply dict_set_distinct.
  assert (Hw : writable_as (λ _, true) n (VList l) = true).
  { rewrite forallb_forall in Hall. clear -Hl Hall. induction kvs as [|[k v] kvs IH]; [done|]. cbn [assoc] in Hl.
    destruct (u8 "findings" =?s k); [injection Hl as ->; by apply (Hall (k, VList l)); left|].
    apply IH; [|done]. intros kv Hkv. apply Hall. by right. }
  apply (dict_set_forall (writable_as (λ _, true) n)); [|done].
  destruct n as [|n]; [done|]. cbn [writable_as] in *. rewrite forallb_forall in Hw |- *.
  intros v [i Hi]%In_py_sorted%list_elem_of_In%list_elem_of_lookup.
  destruct (Forall2_lookup_r _ _ _ _ _ (mapM_Some_1 _ _ _ Hns) Hi) as (v0 & Hv0 & Hv).
  eapply writable_normal; [exact Hv|]. apply Hw, list_elem_of_In. by eapply list_elem_of_lookup_2.
Qed.

Lemma sorted_written l : Forall (λ v, stable v = true) l → Sorted (leP raw_order) l → Sorted (leP raw_order) (map as_written l).
Proof.
  intros Hst Hs. induction Hs as [|v l Hs IH Hhd]; [constructor|]. apply Forall_cons_1 in Hst as [Hv Hst].
  cbn [map]. constructor; [by apply IH|]. destruct Hhd as [|w l Hvw]; cbn [map]; constructor.
  apply Forall_cons_1 in Hst as [Hw _]. unfold leP, raw_order in *. by rewrite !same_order_key.
Qed.

(** C25.  An accepted answer survives the cache.  Written as JSON it is accepted again, as the same
    object with each number written as Python writes it, so with the same findings in the same order
    and the same summary: a hit of the result cache is never lost to the validation of the entry.  The
    numbers of the answer with a fraction must be numbers that are read back from their text. *)
Theorem stored_answer_accepted content d :
  validate content = Ok d → stable (VDict d) = true →
  validate (plain_dumps (VDict d)) = Ok (written_output d)
  ∧ is_Some (parse_review_output_v2 (VDict d))
  ∧ parse_review_output_v2 (VDict (written_output d)) = parse_review_output_v2 (VDict d).
Proof.
  intros Hv Hst. assert (Hspec := validate_spec depth violations finding_errors_v2 output_errors content).
  rewrite Hv in Hspec. assert (Hw := accepted_writable _ _ Hspec Hst).
  destruct Hspec as (kvs & l & ns & fs0 & s & _ & Hacc & Hl & Hns & Hfs & Hs & Hvs & Hd).
  destruct (normalized_answer _ _ _ _ _ _ Hacc Hl Hns Hfs Hs Hvs Hd) as (fs & _ & Ha). clear - Ha Hst Hw.
  assert (Ha' : answer_of_findings (written_output d) fs s ∧ accepted_from depth (plain_dumps (VDict d)) (written_output d)).
  { destruct Ha as (L & HL & Hfs & Hsort & Hk & Hten & Hsum & Hvs).
    assert (HstL : Forall (λ v, stable v = true) L).
    { apply (stable_assoc _ _ _ Hst) in HL. cbn [every_float] in HL. rewrite forallb_forall in HL.
      apply Forall_forall. intros v Hv. by apply HL, list_elem_of_In. }
    assert (Hfs' : Forall2 (λ v f, checked_v2 v = Some f) (map as_written L) fs).
    { clear -Hfs HstL. induction Hfs as [|v f L fs Hf Hfs IH]; [constructor|]. apply Forall_cons_1 in HstL as [Hv HL].
      cbn [map]. constructor; [by rewrite same_checked_v2|by apply IH]. }
    assert (HL' : assoc (u8 "findings") (written_output d) = Some (VList (map as_written L)))
      by (rewrite assoc_written, HL; done).
    assert (Hsort' := sorted_written _ HstL Hsort).
    assert (Hsum' : assoc (u8 "summary") (written_output d) ≫= read_summary = Some s)
      by (rewrite same_key; [done|apply same_summary|done]).
    assert (Hten' : (py_len (map as_written L) <=? 10) = true) by (unfold py_len in *; by rewrite length_map).
    split; [exists (map as_written L); by rewrite only_keys_written|].
    exists (written_output d), (map as_written L), (map as_written L), fs, s. split_and!; try done.
    - exact (loads_dumps depth [32%N] [32%N] (VDict d) eq_refl eq_refl Hw).
    - apply accepts_object; [|by rewrite only_keys_written]. repeat constructor; cbn [fst snd].
      + eexists. split; [exact HL'|]. apply accepts_array.
        * unfold between. rewrite Hten', andb_true_r. apply Z.leb_le. unfold py_len. lia.
        * apply Forall_forall. intros v (i & Hi)%list_elem_of_lookup.
          destruct (Forall2_lookup_l _ _ _ _ _ Hfs' Hi) as (f & _ & Hf). by eapply checked_v2_accepts.
      + apply bind_Some in Hsum' as (v & Hv & Hr). eexists. split; [exact Hv|]. by eapply read_summary_accepts.
    - apply mapM_Some_2. apply Forall2_same_length_lookup. split; [done|]. intros i v w Hi Hj.
      rewrite Hi in Hj. injection Hj as <-. destruct (Forall2_lookup_l _ _ _ _ _ Hfs' Hi) as (f & _ & Hf).
      by eapply checked_v2_normal.
    - by apply mapM_Some_2.
    - rewrite py_sorted_id by done. symmetry. by apply dict_set_same. }
  destruct Ha' as [Ha' Hfrom]. split_and!.
  - assert (Hspec := validate_spec depth violations finding_errors_v2 output_errors (plain_dumps (VDict d))).
    destruct (validate _) as [d'|e]; [|by destruct Hspec as [_ H]; apply H in Hfrom].
    f_equal. by eapply accepted_once.
  - rewrite (answer_parsed _ _ _ Ha). by eexists.
  - by rewrite (answer_parsed _ _ _ Ha), (answer_parsed _ _ _ Ha').
Qed.
End Again.

(** ** Examples *)

Definition no_violation (_ : Schema) (_ : pyval) : Violation * list Violation := (mkViolation [] [] (u8 "is not valid"), []).
Definition no_error (_ : pyval) : ModelError * list ModelError := (([], u8 "is not valid"), []).
Definition sample_validate : pystr → result exc output := validate_review_answer_v2 50 no_violation no_error no_error.

Definition sample_item (path start_line severity confidence : string) : pystr :=
  json_text "{'path':'" ++ u8 path ++ json_text "','line':2,'start_line':" ++ u8 start_line
  ++ json_text ",'severity':'" ++ u8 severity
  ++ json_text "','category':'correctness','title':'Check the guard','body':'The guard is \u0022missing\u0022.',"
  ++ json_text "'suggestion':null,'confidence':" ++ u8 confidence
  ++ json_text ",'rule_name':null,'evidence_refs':[{'block_id':'file-a-py','start_line':1,'end_line':2}]}".
Definition sample_summary : pystr := json_text "'summary':{'problem':'One guard is missing.','done_well':'Fine.','effort':'small'}".
Arguments sample_item (_ _ _ _)%_string.
(** The second item comes first, and its start line repeats its line. *)
Definition sample_content : pystr :=
  json_text "{'findings': [" ++ sample_item "b.py" "1" "low" "1" ++ u8 ", " ++ sample_item "a.py" "2" "high" "0.90"
  ++ u8 "], " ++ sample_summary ++ u8 "}".

Definition sample_answer : output := match sample_validate sample_content with Ok d => d | Err _ => [] end.
Lemma sample_answer_ok : sample_validate sample_content = Ok sample_answer.
Proof. by vm_compute. Qed.

Example sample_answer_read :
  (λ o, ((λ f, (fg_path (f2_finding f), fg_start_line (f2_finding f))) <$> o2_findings o, sm_problem (o2_summary o)))
    <$> parse_review_output_v2 (VDict sample_answer)
  = Some ([(u8 "a.py", None); (u8 "b.py", Some 1)], u8 "One guard is missing.").
Proof. by vm_compute. Qed.

(** A wrong shape, a broken finding, prose around the object and deep nesting are each one message. *)
Example refused_samples :
  (λ t, match sample_validate t with Err (E_invalid_answer e) => e | _ => [] end) <$>
    [json_text "{'findings':[]}"; json_text "{'findings':[" ++ sample_item "b.py" "3" "low" "1" ++ u8 "]," ++ sample_summary ++ u8 "}";
     u8 "Here it is:" ++ [LF] ++ u8 "{}"; repeat 91%N 51; u8 "[]"]
  = [[u8 "(root): is not valid"]; [u8 "findings/0: is not valid"];
     [u8 "not valid JSON: Expecting value at line 1"]; [u8 "not valid JSON: nested too deeply"];
     [u8 "the answer must be one JSON object"]].
Proof. by vm_compute. Qed.

(** A path of two escapes is one character; of the first alone, it is no text a field takes. *)
Example surrogate_samples :
  (λ p, match sample_validate (json_text "{'findings':[" ++ sample_item p "1" "low" "1" ++ u8 "]," ++ sample_summary ++ u8 "}") with
        | Ok d => Ok ((λ f, fg_path (f2_finding f)) <$> match parse_review_output_v2 (VDict d) with Some o => o2_findings o | None => [] end)
        | Err (E_invalid_answer e) => Err e
        | Err _ => Err []
        end) <$> ["\ud83d\ude00"%string; "\ud83d"%string]
  = [Ok [[128512%N]]; Err [u8 "findings/0: is not valid"]].
Proof. by vm_compute. Qed.

Lemma stored_answer_accepted_witness :
  sample_validate sample_content = Ok sample_answer
  ∧ sample_validate (plain_dumps (VDict sample_answer)) = Ok (written_output sample_answer)
  ∧ written_output sample_answer ≠ sample_answer.
Proof.
  split; [exact sample_answer_ok|]. split; [|by vm_compute].
  apply (stored_answer_accepted 50 no_violation no_error no_error sample_content sample_answer sample_answer_ok).
  vm_compute. reflexivity.
Defined.

Lemma answer_accepted_exact_witness :
  sample_validate sample_content = Ok sample_answer ∧ accepted_from 50 sample_content sample_answer.
Proof.
  split; [exact sample_answer_ok|].
  exact (proj1 (proj1 (answer_accepted_exact 50 no_violation no_error no_error (λ _, []) (λ _, []) sample_content)
                  sample_answer) sample_answer_ok).
Defined.
