(* ===== verification/StoreReviewTheorems.v ===== *)
(** * What is stored of an accepted answer

    A stored review has one row per finding of the answer and per finding dropped before, under the
    hash the publisher is sent; and an answer of the reflection pass always gets that far. *)

From Stdlib Require Import String QArith.
From stdpp Require Import numbers gmap sets list.
From S2P Require Import Prelude PyText PyHash UnifiedDiff DiffMap PyValue Verdict RunStore VcsInput Publication.
From S2P Require Import CoverageSchema RunCoverage Findings FindingsFacts AnswersV2 Reflection ReflectionFacts.
From S2P Require Import DiffSnapshots VerifiedReview VerifiedReviewTheorems Jsonb RunActions StoreReview.
#[local] Open Scope Z_scope.

(** ** Post-processing *)

Lemma finalize_keeps output r checked threshold below url r' :
  finalize_stored_review_body output r checked threshold below url = Some r' →
  po_inline r' = po_inline r ∧ po_body_only r' = po_body_only r ∧ po_dropped r' = po_dropped r
  ∧ po_coverage r' = po_coverage r ∧ po_summary r' = po_summary r.
Proof.
  unfold finalize_stored_review_body. destruct (_ <=? 0); [by intros [= <-]|].
  intros ([[b o]|[b o]] & _ & H)%bind_Some; [by injection H as <-|].
  apply bind_Some in H as ([b' o'] & _ & [= <-]). done.
Qed.

Definition answer_findings (parsed : option ReviewOutput) : list ReviewFinding :=
  match parsed with Some o => ro_findings o | None => [] end.

Lemma reshaped_claim f g : reshaped f g → same_claim f g.
Proof. intros (h & [->| ->] & [->|[->|(? & ? & _ & ->)]]); by constructor. Qed.

Lemma post_process_ok patterns url input pre parsed threshold context p :
  post_process patterns url input pre parsed threshold context = Ok p →
  ∃ output r, ro_findings output = answer_findings parsed
    ∧ process patterns output (process_input input pre threshold context) = Ok r
    ∧ po_inline (pr_processed p) = po_inline r ∧ po_body_only (pr_processed p) = po_body_only r
    ∧ po_dropped (pr_processed p) = po_dropped r
    ∧ findings_hash (hashed_findings (pr_processed p)) = Some (pr_hash p)
    ∧ pr_verdict p = coverage_verdict (hf_severity <$> hashed_findings (pr_processed p))
                       (Some (CoverageStatus_value (rc_status (po_coverage (pr_processed p))))).
Proof.
  unfold post_process. cbv zeta. intros (output & Hout & (r & Hr%map_err_ok & H)%bind_ok)%bind_ok.
  destruct (po_summary r) as [summary|]; [|done].
  destruct (finalize_stored_review_body _ _ _ _ _ _) as [r'|] eqn:Hf; [|done].
  apply finalize_keeps in Hf as (H1 & H2 & H3 & _).
  destruct (findings_hash _) as [hash|] eqn:Hh; [|done]. injection H as <-.
  exists output, r. split_and!; try done. destruct parsed as [o|]; [by injection Hout as <-|].
  by apply bind_ok in Hout as (? & _ & [= <-]).
Qed.

(** ** Rows *)

Lemma imap_filter {A B} (keep : B → bool) (l1 : list A) : ∀ l2 (f : nat → A → B),
  (∀ n x, x ∈ l1 → keep (f n x) = true) → (∀ n x, x ∈ l2 → keep (f n x) = false) →
  List.filter keep (imap f (l1 ++ l2)) = imap f l1.
Proof.
  induction l1 as [|x l1 IH]; intros l2 f H1 H2; cbn [app].
  - clear H1. revert f H2. induction l2 as [|y l2 IH2]; intros f H2; [done|]. rewrite imap_cons. cbn.
    rewrite H2 by (by left). apply IH2. intros. apply H2. by right.
  - rewrite !imap_cons. cbn. rewrite H1 by (by left). f_equal.
    apply IH; [intros; apply H1; by right|intros; by apply H2].
Qed.

Lemma imap_project {A B C} (f : nat → A → B) (g : B → C) (h : A → C) l :
  (∀ m x, g (f m x) = h x) → g <$> imap f l = h <$> l.
Proof. intros H. rewrite fmap_imap, <- (imap_const h). apply imap_ext. intros. apply H. Qed.

(** What the transaction leaves in the tables. *)
Lemma store_output_ok id worker body rows answered lease d r c :
  joined d id = Some (r, c) → publishing_guard worker r c = true →
  ∃ r' d', store_output id worker body rows answered lease d = (d', true)
    ∧ db_runs d' = <[id := r']> (db_runs d)
    ∧ run_state r' = Publishing ∧ run_lease_until r' = Some lease ∧ run_pinned r' = run_pinned r
    ∧ run_review_body r' = (if answered then run_review_body r else Some body)
    ∧ db_findings d' = (if answered then db_findings d
                        else <[id := default [] (db_findings d !! id) ++ rows]> (db_findings d)).
Proof.
  intros Hj Hg. unfold store_output. rewrite Hj, Hg. cbn [negb].
  assert (Hs : run_state r = Running).
  { unfold publishing_guard in Hg. do 3 apply andb_true_iff in Hg as [Hg _]. by apply bool_decide_eq_true in Hg. }
  rewrite Hs. change (bool_decide (Running ∈ [Succeeded; Cancelled])) with false. cbn iota.
  destruct answered; do 2 eexists; (split; [reflexivity|]); cbn; by split_and!.
Qed.

Lemma filter_stages_keep_dropped p i l kept dropped x :
  filter_stages p i l = (kept, dropped) → x ∈ pi_pre_dropped i → x ∈ dropped.
Proof.
  unfold filter_stages. intros H Hx. destruct (if pi_summary_only i then _ else _) as [c0 d0] eqn:E0.
  destruct (drop_lint_patterns p c0) as [c1 d1]. destruct (deduplicate c1) as [c2 d2].
  destruct (if pi_apply_severity_threshold i then _ else _) as [c3 d3]. injection H as _ <-.
  apply elem_of_app. left. destruct (pi_summary_only i); injection E0 as _ <-; [|done]. apply elem_of_app. by left.
Qed.

Section Store.
Context `{column : JsonbColumn}.
Context (patterns : LintFilterPatterns) (text_accepts : pystr → bool) (dict_of : AnswerData → pyval).
Context (row_id : nat → UUID) (body_id : pystr → UUID) (started_at lease_until duration_ms : Z).
Context (worker_id : pystr) (run_url : UUID → option pystr) (repository_event : UUID → pystr).

Abbreviation add := (add_answer text_accepts dict_of body_id started_at).
Abbreviation prepared_store :=
  (store_prepared patterns text_accepts dict_of row_id body_id started_at lease_until duration_ms worker_id
     repository_event).
Abbreviation store :=
  (store_review patterns text_accepts dict_of row_id body_id started_at lease_until duration_ms worker_id
     run_url repository_event).

Lemma store_prepared_ok run_id input cap p s s' pointer :
  prepared_store run_id input cap p s = Ok (s', Some pointer) →
  ∃ r c t answered r',
    joined (ss_db s) run_id = Some (r, c) ∧ publishing_guard worker_id r c = true
    ∧ add run_id (answer_of input) (review_rows row_id (pr_processed p)) (trace_of s) = Ok (t, answered)
    ∧ pointer = mkReviewPublishPointer run_id (run_head_sha r) (pr_hash p)
                  (review_event (repository_event (cc_repository_id c)) (pr_verdict p))
    ∧ db_runs (ss_db s') = <[run_id := r']> (db_runs (ss_db s))
    ∧ run_state r' = Publishing ∧ run_lease_until r' = Some lease_until ∧ run_pinned r' = run_pinned r
    ∧ run_review_body r' = (if answered then run_review_body r else Some (po_review_body (pr_processed p)))
    ∧ db_findings (ss_db s')
      = (if answered then db_findings (ss_db s)
         else <[run_id := default [] (db_findings (ss_db s) !! run_id)
                          ++ review_rows row_id (pr_processed p)]> (db_findings (ss_db s))).
Proof.
  unfold store_prepared. destruct (joined (ss_db s) run_id) as [[r c]|] eqn:Hj; [|done].
  destruct (publishing_guard worker_id r c) eqn:Hg; [|done]. cbn [negb]. cbv zeta.
  intros ([t answered] & Ht & (t' & _ & H)%bind_ok)%bind_ok.
  destruct (store_output_ok run_id worker_id (po_review_body (pr_processed p))
              (review_rows row_id (pr_processed p)) answered lease_until (ss_db s) r c Hj Hg)
    as (r' & d' & Hs & Hr & ? & ? & ? & ? & ?).
  rewrite Hs in H. injection H as <- <-. exists r, c, t, answered, r'. by split_and!.
Qed.

Lemma add_answer_new run_id answer rows t t' answered :
  add run_id answer rows t = Ok (t', answered) → has_action t run_id REVIEW_OUTPUT = false →
  answered = false ∧ py_all (row_accepted text_accepts) rows = true.
Proof.
  unfold add_answer. intros H Hn. rewrite Hn in H. apply bind_ok in H as (t1 & _ & H).
  destruct (py_all _ rows); [|done]. by injection H as _ <-.
Qed.

(** The rows the publisher reads are those of the inline and body-only items. *)
Lemma published_rows r output i p :
  process p output i = Ok r → (∀ x, In x (pi_pre_dropped i) → dropped_ok x) →
  List.filter (λ f, bool_decide (fi_drop_reason f = None)) (review_rows row_id r)
  = imap (λ n, to_finding (row_id n)) (po_inline r ++ po_body_only r).
Proof.
  intros H Hpre. unfold review_rows. rewrite (assoc_L (++)). apply imap_filter.
  - intros n x Hx. apply bool_decide_eq_true. cbn.
    pose proof (process_reason _ _ _ _ H) as Hr. rewrite Forall_forall in Hr. by apply Hr.
  - intros n x Hx%list_elem_of_In. apply bool_decide_eq_false. cbn.
    destruct (process_positions _ _ _ _ H) as (_ & _ & _ & Hd).
    enough (dropped_ok x) as [_ [reason ->]] by done. destruct (Hd x Hx); auto.
Qed.

Lemma review_row_inline r output i p f :
  process p output i = Ok r → (∀ x, In x (pi_pre_dropped i) → dropped_ok x) →
  f ∈ review_rows row_id r → fi_published f = false ∧ (fi_inline f = true → fi_drop_reason f = None).
Proof.
  intros H Hpre (n & x & -> & Hx%list_elem_of_lookup_2)%elem_of_lookup_imap. split; [done|]. cbn.
  unfold in_bucket. intros Hb%bool_decide_eq_true. rewrite (assoc_L (++)) in Hx.
  apply elem_of_app in Hx as [Hx|Hx].
  - pose proof (process_reason _ _ _ _ H) as Hr. rewrite Forall_forall in Hr. by apply Hr.
  - destruct (process_positions _ _ _ _ H) as (_ & _ & _ & Hd). apply list_elem_of_In in Hx.
    enough (dropped_ok x) as [Hx' _] by congruence. destruct (Hd x Hx); auto.
Qed.

Lemma coerce_dropped_ok raw pre :
  coerce_dropped_findings raw = Ok pre → ∀ x, In x pre → dropped_ok x.
Proof.
  unfold coerce_dropped_findings. destruct raw as [[entries|]|]; [|done|by intros [= <-]].
  destruct (mapM id _) as [items|] eqn:Hm; [|done]. intros [= <-] x Hx%list_elem_of_In.
  apply mapM_Some in Hm. apply list_elem_of_lookup in Hx as [n Hn].
  destruct (Forall2_lookup_r _ _ _ _ _ Hm Hn) as (y & Hy & E). rewrite list_lookup_imap in Hy.
  destruct (entries !! n) as [e|]; [|done]. injection Hy as <-. unfold id in E.
  destruct e as [f [[|ch reason]|] pos|]; try done. cbn [coerce_entry] in E.
  apply bind_Some in E as (z & _ & (g & _ & [= <-])%bind_Some). split; [done|by eexists].
Qed.

Lemma long_line_row id x : INTEGER_MAX < fg_line (pf_finding x) → row_accepted text_accepts (to_finding id x) = false.
Proof.
  intros Hl. assert (Hi : in_integer (fg_line (pf_finding x)) = false).
  { unfold in_integer. apply andb_false_iff. right. by apply Z.leb_gt. }
  apply not_true_is_false. unfold row_accepted, to_finding, hashed, line_start, line_end.
  cbn [fi_hashed hf_line_start hf_line_end hf_path]. rewrite !andb_true_iff. intros H.
  destruct (fg_start_line (pf_finding x)) as [s|]; cbn in H; rewrite ?Hi in H; by destruct_and?.
Qed.

(** C40.  One dropped finding can fail a whole review.  The schema of an answer bounds no line, and the
    row of a finding is written whether it is published or not, to an [INTEGER] column: when a finding
    dropped before names a line above the column's maximum, the review is not stored. *)
Theorem long_line_never_stored get_context run_id input dropped threshold s s' pointer pre x :
  coerce_dropped_findings (effective_dropped dropped input) = Ok pre → x ∈ pre →
  INTEGER_MAX < fg_line (pf_finding x) → has_action (trace_of s) run_id REVIEW_OUTPUT = false →
  store get_context run_id input dropped threshold s ≠ Ok (s', Some pointer).
Proof.
  intros Hpre Hx Hl Hnew H. unfold store_review in H. rewrite Hpre in H. cbn [mbind result_bind] in H.
  apply bind_ok in H as (parsed & _ & (context & _ & H)%bind_ok). destruct context as [context|]; [|done].
  apply bind_ok in H as (p & Hp & H). apply post_process_ok in Hp as (output & pro & _ & Hpro & _ & _ & Hdr & _).
  apply store_prepared_ok in H as (r & c & t & answered & r' & _ & _ & Hadd & _).
  apply add_answer_new in Hadd as [_ Hacc]; [|done]. unfold py_all in Hacc. rewrite forallb_forall in Hacc.
  apply process_parts in Hpro as (cs & d & prepared & unknown & Hf & _ & _ & Hd).
  apply (filter_stages_keep_dropped _ _ _ _ _ x) in Hf; [|done].
  assert (Hin : x ∈ po_inline (pr_processed p) ++ po_body_only (pr_processed p) ++ po_dropped (pr_processed p)).
  { apply elem_of_app. right. apply elem_of_app. right. rewrite Hdr, Hd. apply elem_of_py_sorted, elem_of_app. by left. }
  apply list_elem_of_lookup in Hin as [n Hn].
  assert (Hrow : to_finding (row_id n) x ∈ review_rows row_id (pr_processed p)).
  { apply list_elem_of_lookup. exists n. unfold review_rows. by rewrite list_lookup_imap, Hn. }
  apply list_elem_of_In, Hacc in Hrow. by rewrite long_line_row in Hrow.
Qed.
End Store.

#[local] Existing Instance sorted_column.

(** ** A stored review *)

Definition stored_diff : DiffSnapshot :=
  mkDiffSnapshot (u8 "a.py")
    (Some (u8 "@@ -1,2 +1,2 @@" ++ [LF] ++ u8 " x" ++ [LF] ++ u8 "-z" ++ [LF] ++ u8 "+y" ++ [LF])) None
    Status_modified None 1 1 2 None
    (Some (u8 "@@ -1,2 +1,2 @@" ++ [LF] ++ u8 " x" ++ [LF] ++ u8 "-z" ++ [LF] ++ u8 "+y" ++ [LF])) false.
Definition stored_row : ReviewRow :=
  mkReviewRow (u8 "head") (u8 "base") 5 12 Provider_github [] None 10 Th_all [stored_diff].
Definition stored_context : FindingPostProcessingInput :=
  match get_post_processing_input (Some stored_row) None with
  | Ok (Some fx) => fx
  | _ => mkFindingPostProcessingInput
           (mkDiffMap 1 [] Provider_github 5 12 [] [] None true [] [] []) ∅ ∅ None Th_all None None false None
  end.
Lemma stored_context_ok : get_post_processing_input (Some stored_row) None = Ok (Some stored_context).
Proof. vm_compute. reflexivity. Qed.

Definition running_run : Run :=
  mkRun (mkPinned 2 None (u8 "base") (u8 "head") Engine_fast) Running 1 0 (Some 9) (Some (u8 "w")) false
    None None (Some 1) None None None.
Definition open_change : CodeChange :=
  mkCodeChange true (u8 "head") 5 true 3 false true (u8 "github") 4 1 0.
Definition running_store : Store :=
  mkStore (mkDb {[ 1%N := running_run ]} {[ 2%N := open_change ]} ∅ [] ∅ ∅ []) ∅ ∅ [].

Definition sample_stored : result StoreExc (Store * option ReviewPublishPointer) :=
  store_review no_patterns (λ _, true) (λ _, VNone) N.of_nat (λ _, 77%N) 100 400 3 (u8 "w") (λ _, None)
    (λ _, u8 "request_changes") (Ok (Some stored_context)) 1 (In_verified reviewed_output) None None running_store.
Example sample_stored_rows :
  match sample_stored with
  | Ok (s, Some pointer) =>
      (λ f, (hf_line_start (fi_hashed f), fi_inline f, fi_drop_reason f)) <$> default [] (db_findings (ss_db s) !! 1%N)
      = [(1, true, None); (1, false, Some (u8 "line_absent"))]
      ∧ rp_review_event pointer = u8 "REQUEST_CHANGES"
      ∧ ac_tool <$> run_actions (trace_of s) 1 = [REVIEW_OUTPUT; VERIFY; POSTPROCESS]
  | _ => False
  end.
Proof. vm_compute. auto. Qed.

Definition stored_part (r : result StoreExc (Store * option ReviewPublishPointer)) : Store * ReviewPublishPointer :=
  match r with
  | Ok (s, Some pointer) => (s, pointer)
  | _ => (running_store, mkReviewPublishPointer 0 [] [] [])
  end.
Definition stored_store : Store := fst (stored_part sample_stored).
Definition stored_pointer : ReviewPublishPointer := snd (stored_part sample_stored).
Lemma sample_stored_ok : sample_stored = Ok (stored_store, Some stored_pointer).
Proof.
  assert (H : match sample_stored with Ok (_, Some _) => True | _ => False end) by (vm_compute; exact I).
  unfold stored_store, stored_pointer. by destruct sample_stored as [[s [pointer|]]|].
Qed.


(** The same run with a drop on a line no [INTEGER] holds: the finding satisfies the answer's schema. *)
Definition long_line_record : DroppedCandidateRecord :=
  mkDroppedCandidateRecord (AnswersV2.sample_finding (2 ^ 31)) (u8 "line_absent") 0.
Definition long_line_input : StoreInput :=
  In_verified (mkVerifiedReviewOutput (vo_payload reviewed_output) [long_line_record] (Some Th_all) None None None []).
Definition store_long_line : result StoreExc (Store * option ReviewPublishPointer) :=
  store_review no_patterns (λ _, true) (λ _, VNone) N.of_nat (λ _, 77%N) 100 400 3 (u8 "w") (λ _, None)
    (λ _, u8 "request_changes") (Ok (Some stored_context)) 1 long_line_input None None running_store.

Lemma long_line_never_stored_witness :
  finding_v2_valid (dc_finding long_line_record) = true
  ∧ store_long_line = Err SX_data
  ∧ ∀ s' pointer, store_long_line ≠ Ok (s', Some pointer).
Proof.
  split; [vm_compute; reflexivity|]. split; [vm_compute; reflexivity|]. intros s' pointer.
  eapply (long_line_never_stored no_patterns (λ _, true) (λ _, VNone) N.of_nat (λ _, 77%N) 100 400 3 (u8 "w")
            (λ _, None) (λ _, u8 "request_changes")).
  - vm_compute. reflexivity.
  - apply list_elem_of_here.
  - vm_compute. reflexivity.
  - vm_compute. reflexivity.
Defined.
