(* ===== verification/AnswerHandoff.v ===== *)
(** * An answer of the reflection pass can be stored

    [run_reflection_pass] hands its findings and its dropped candidates to [StoreReviewOutput], which
    validates both again.  This file follows every value over that boundary. *)

From Stdlib Require Import String QArith.
From stdpp Require Import numbers gmap sets list sorting.
From S2P Require Import Prelude PyText PyHash UnifiedDiff DiffMap PyValue Verdict RunStore VcsInput Publication.
From S2P Require Import CoverageSchema RunCoverage CoverageRestore Findings FindingsFacts PolicySnapshots Manifests AnswersV2.
From S2P Require Import ReviewPath Reflection ReflectionFacts VerifiedReview VerifiedReviewFacts VerifiedReviewTheorems.
From S2P Require Import PyJson Jsonb RunActions StoreReview StoreReviewTheorems LlmTasks ModelAnswers ModelAnswerFacts.
#[local] Open Scope Z_scope.

(** ** Reasons *)

Lemma first_reason_some {A} (f : A → option pystr) l r :
  first_reason f l = Some r → ∃ a, f a = Some r.
Proof. induction l as [|a l IH]; cbn; [done|]. destruct (f a) eqn:E; [intros [= ->]; eauto|done]. Qed.

Lemma evidence_code m meta ref reason : evidence_reason m meta ref = Some reason → drop_code reason ≠ [].
Proof.
  unfold evidence_reason. destruct (get_block m _) as [b|]; [|intros [= <-]; by vm_compute].
  destruct (negb _); [intros [= <-]; by vm_compute|].
  destruct (meta ← meta; revision_reason b meta) as [r|] eqn:Hr.
  - intros [= <-]. apply bind_Some in Hr as (pm & _ & Hr). unfold revision_reason in Hr.
    destruct (mb_revision b); [|done]. cbv zeta in Hr. destruct (_ && _); [done|].
    injection Hr as <-. destruct (bool_decide _); by vm_compute.
  - destruct (is_range_shown _ _ _ _); [done|]. intros [= <-]. by vm_compute.
Qed.

(** The code of a refused attribution is a text. *)
Lemma attribution_code f m meta snapshot reason :
  validate_v2_attribution f m meta snapshot = Some reason → drop_code reason ≠ [].
Proof.
  unfold validate_v2_attribution. destruct (first_reason _ _) as [r|] eqn:E.
  - intros [= ->]. apply first_reason_some in E as [ref E]. by eapply evidence_code.
  - unfold rule_reason, document_reason. intros H. repeat case_match; try done; simplify_option_eq; by vm_compute.
Qed.

(** ** The repaired finding *)

Lemma expect_length p s r : expect p s = Some r → (length r ≤ length s)%nat.
Proof.
  unfold expect. destruct (startswith s p); [|done]. intros [= <-]. rewrite length_drop. lia.
Qed.

Lemma span_until_length stop s : (length (snd (span_until stop s)) ≤ length s)%nat.
Proof.
  induction s as [|c s IH]; cbn; [done|]. destruct (c =? stop)%N; [done|].
  destruct (span_until stop s). cbn in *. lia.
Qed.

Lemma attribution_length body name rest :
  match_attribution body = Some (name, rest) → (length rest ≤ length body)%nat.
Proof.
  unfold match_attribution. intros (s & H1%expect_length & H)%bind_Some.
  pose proof (span_until_length 39 s). destruct (span_until 39%N s) as [n s1]. destruct (n =?s []); [done|].
  apply bind_Some in H as (s2 & H2%expect_length & (s3 & H3%expect_length & [= _ <-])%bind_Some).
  pose proof (span_until_length 41 s2). cbn [snd] in *. lia.
Qed.

(** The text left after an attribution is of the characters of the body. *)
Lemma expect_encodable p s r : expect p s = Some r → encodable s = true → encodable r = true.
Proof.
  unfold expect. destruct (startswith s p); [|done]. intros [= <-]. unfold encodable.
  rewrite <- (take_drop (length p) s) at 1. rewrite forallb_app. by intros [_ ?]%andb_true_iff.
Qed.

Lemma span_encodable stop s : encodable s = true → encodable (snd (span_until stop s)) = true.
Proof.
  induction s as [|c s IH]; cbn; [done|]. intros [Hc Hs]%andb_true_iff.
  destruct (c =? stop)%N; [cbn; by rewrite Hc|]. destruct (span_until stop s). by apply IH.
Qed.

Lemma attribution_encodable body name rest :
  match_attribution body = Some (name, rest) → encodable body = true → encodable rest = true.
Proof.
  unfold match_attribution. intros (s & H1 & H)%bind_Some Hb. pose proof (expect_encodable _ _ _ H1 Hb) as Hs.
  pose proof (span_encodable 39 s Hs). destruct (span_until 39%N s) as [n s1]. destruct (n =?s []); [done|].
  apply bind_Some in H as (s2 & H2 & (s3 & H3 & [= _ <-])%bind_Some).
  by eapply expect_encodable, span_encodable, expect_encodable.
Qed.

(** A body that is more than a quoted attribution. *)
Definition body_survives (f : ReviewFinding) : Prop :=
  ∀ name rest, match_attribution (fg_body f) = Some (name, rest) → rest ≠ [].

Lemma repair_valid f i b rules allowed :
  finding_valid f = true → body_survives f →
  finding_valid (pf_finding (repair_attribution (mkProcessedFinding f i b None) rules allowed)) = true.
Proof.
  intros Hv Hb. unfold repair_attribution. cbn [pf_finding].
  destruct (match fg_rule_name f with Some r => _ | None => _ end); [done|].
  destruct (match match_attribution _ with Some _ => _ | None => _ end); [done|].
  destruct (match_attribution (fg_body f)) as [[name rest]|] eqn:Hm; cbn [pf_finding]; [|done].
  pose proof (attribution_length _ _ _ Hm) as Hl. pose proof (attribution_encodable _ _ _ Hm) as He. apply Hb in Hm.
  unfold finding_valid, finding_fields_ok, set_rule, validate_range, between in *. cbn [fg_path fg_line fg_start_line fg_title fg_body fg_confidence] in *.
  unfold py_all in *. cbn [forallb] in *.
  rewrite !andb_true_iff, !Z.leb_le in *. unfold py_len in *.
  destruct rest as [|ch rest]; [done|]. cbn [length] in *. naive_solver lia.
Qed.

(** ** Order *)

Lemma same_claim_finding_key f g : same_claim f g → finding_key g = finding_key f.
Proof. intros []. unfold finding_key. congruence. Qed.

(** ** What the pass hands over *)

Definition item_finding (item : RawFinding) : option ReviewFindingV2 :=
  match item with Item_fields f => Some f | _ => None end.

(** A record that [coerce_dropped_findings] takes. *)
Definition storable_drop (d : DroppedCandidateRecord) : Prop :=
  finding_valid (f2_finding (dc_finding d)) = true ∧ dc_drop_reason d ≠ [].

Lemma finding_v2_v1 f : finding_v2_valid f = true → finding_valid (f2_finding f) = true.
Proof. unfold finding_v2_valid. intros H. by do 5 apply andb_true_iff in H as [H _]. Qed.

Lemma screen_dropped refusal c original ignored m s idx item d :
  screen refusal c original ignored m s idx item = Ok (inl d) → dc_drop_reason d ≠ [].
Proof.
  unfold screen. intros (f & _ & (id & _ & (coords & _ & H)%bind_ok)%bind_ok)%bind_ok.
  destruct coords as [reason|].
  - injection H as <-. cbn. destruct (reason =?s []) eqn:E; [by vm_compute|]. intros ->. done.
  - destruct (validate_v2_attribution _ _ _ _) as [reason|] eqn:Ha; [|done]. injection H as <-.
    by eapply attribution_code.
Qed.

Lemma screen_all_handoff refusal c original ignored m s items : ∀ idx dropped kept,
  screen_all refusal c original ignored m s idx items = Ok (dropped, kept) →
  Forall storable_drop dropped
  ∧ (λ p, ci_finding (snd p)) <$> kept `sublist_of` omap item_finding items
  ∧ Forall (λ p, Item_fields (ci_finding (snd p)) ∈ items
                 ∧ finding_valid (f2_finding (ci_finding (snd p))) = true) kept.
Proof.
  induction items as [|item items IH]; intros idx dropped kept H; cbn [screen_all] in H.
  { injection H as <- <-. by split_and!. }
  apply bind_ok in H as (r & Hr & ([dropped' kept'] & Hrest & H)%bind_ok).
  apply IH in Hrest as (Hd & Hk & Hin).
  assert (Hin' : Forall (λ p, Item_fields (ci_finding (snd p)) ∈ item :: items
                   ∧ finding_valid (f2_finding (ci_finding (snd p))) = true) kept').
  { eapply Forall_impl; [exact Hin|]. intros p [? ?]. split; [by right|done]. }
  pose proof (screen_ok _ _ _ _ _ _ _ _ _ Hr) as (f & -> & Hv & Hcase). apply finding_v2_v1 in Hv.
  destruct r as [d|[i cand]]; injection H as <- <-; cbn [omap list_omap item_finding].
  - destruct Hcase as [Hf _]. apply screen_dropped in Hr. split_and!; [|by apply sublist_cons|done].
    constructor; [|done]. split; [by rewrite Hf|done].
  - destruct Hcase as (-> & Hf & _). split_and!; [done| |].
    + rewrite fmap_cons. cbn [snd]. rewrite Hf. by constructor.
    + constructor; [|done]. cbn [snd]. rewrite Hf. split; [by left|done].
Qed.

Lemma dropped_records_handoff cands reason items :
  reason ≠ [] → Forall (λ p, finding_valid (f2_finding (ci_finding (snd p))) = true) cands →
  Forall storable_drop (dropped_records cands reason items).
Proof.
  intros Hr Hc. apply Forall_forall. intros d Hd. apply list_elem_of_omap in Hd as (i & _ & H).
  apply bind_Some in H as (cand & Hcand & [= <-]). split; [|done]. cbn.
  unfold candidate_at in Hcand. apply fmap_Some in Hcand as (p & Hp & ->).
  apply find_first_some in Hp as [Hp _]. rewrite Forall_forall in Hc. by apply Hc, list_elem_of_In.
Qed.

Lemma rejected_handoff decisions l :
  Forall (λ p, finding_valid (f2_finding (ci_finding (snd p))) = true) l →
  Forall storable_drop (rejected_records decisions l).
Proof.
  intros Hl. unfold rejected_records. rewrite Forall_fmap. apply Forall_forall.
  intros p [Hp _]%list_elem_of_In%filter_In. rewrite Forall_forall in Hl. split; [by apply Hl, list_elem_of_In|].
  cbn. destruct (decision_of _ _) as [d|]; [by destruct (vd_status d)|done].
Qed.

Lemma filter_forall {A} (P : A → Prop) (f : A → bool) l : Forall P l → Forall P (List.filter f l).
Proof.
  intros Hl. apply Forall_forall. intros x [Hx _]%list_elem_of_In%filter_In. rewrite Forall_forall in Hl.
  by apply Hl, list_elem_of_In.
Qed.

Lemma sublist_map {A B} (f : A → B) k l : k `sublist_of` l → f <$> k `sublist_of` f <$> l.
Proof. induction 1; cbn; by constructor. Qed.

Lemma filter_sublist {A} (f : A → bool) l : List.filter f l `sublist_of` l.
Proof. induction l as [|x l IH]; cbn; [done|]. destruct (f x); by constructor. Qed.

Lemma sublist_forall {A} (P : A → Prop) k l : k `sublist_of` l → Forall P l → Forall P k.
Proof.
  intros Hs Hl. apply Forall_forall. intros x Hx. rewrite Forall_forall in Hl. apply Hl.
  by eapply elem_of_sublist.
Qed.

Section Pass.
Context (repr : pystr → pystr) (patterns : LintFilterPatterns) (refusal : ReviewFindingV2 → pystr).

Abbreviation valid_placed := (λ p : placed, finding_valid (f2_finding (ci_finding (snd p))) = true).
Abbreviation placed_key := (λ p : placed, finding_key (f2_finding (ci_finding (snd p)))).

Lemma prefilter_handoff cands filtered early :
  prefilter patterns cands = (filtered, early) → Forall valid_placed cands →
  filtered `sublist_of` cands ∧ Forall storable_drop early.
Proof.
  unfold prefilter. destruct (drop_lint_patterns _ _) as [unlinted lint].
  destruct (deduplicate unlinted) as [kept dup]. intros [= <- <-] Hc. split; [apply filter_sublist|].
  apply Forall_app. split; by apply dropped_records_handoff.
Qed.

Lemma above_threshold_handoff supported threshold surviving below :
  above_threshold supported threshold = (surviving, below) → Forall valid_placed supported →
  surviving `sublist_of` supported ∧ Forall storable_drop below.
Proof.
  unfold above_threshold. destruct (drop_below_threshold _ _) as [kept under]. intros [= <- <-] Hs.
  split; [apply filter_sublist|by apply dropped_records_handoff].
Qed.

Lemma repair_candidate_handoff rules allowed p :
  body_survives (f2_finding (ci_finding (snd p))) → valid_placed p → valid_placed (repair_candidate rules allowed p).
Proof. intros Hb Hv. unfold repair_candidate. cbn. by apply repair_valid. Qed.

Lemma repair_candidate_key rules allowed p : placed_key (repair_candidate rules allowed p) = placed_key p.
Proof. destruct (repair_candidate_ok rules allowed p) as (_ & _ & _ & Hs & _). by apply same_claim_finding_key. Qed.

(** The findings keep the order of the answer, and everything handed over satisfies the schema it is
    validated against again, when no body is an attribution and nothing else. *)
Lemma pass_handoff verify output c s manifest call_id original ignored v :
  run_reflection_pass repr patterns refusal verify output c s manifest call_id original ignored = Ok v →
  ∃ data items findings n,
    answer_data output = Ok data ∧ raw_items data = Ok items
    ∧ vo_payload v = Payload_verified findings (build_deterministic_summary findings n) (other_keys data)
    ∧ (finding_key <$> (f2_finding <$> findings))
        `sublist_of` (finding_key <$> (f2_finding <$> omap item_finding items))
    ∧ ((∀ f, Item_fields f ∈ items → body_survives (f2_finding f)) →
       Forall (λ g, finding_valid (f2_finding g) = true) findings ∧ Forall storable_drop (vo_dropped_findings v)).
Proof.
  unfold run_reflection_pass. intros (data & Hd & (items & Hi & (m & Hm & H)%bind_ok)%bind_ok)%bind_ok.
  exists data, items. apply bind_ok in H as ([dropped cands] & Hs & H).
  apply screen_all_handoff in Hs as (Hdropped & Hsub & Hin).
  destruct (prefilter patterns cands) as [filtered early] eqn:Hf.
  assert (Hvalid : Forall valid_placed cands) by (eapply Forall_impl; [exact Hin|by intros p [_ ?]]).
  apply prefilter_handoff in Hf as [Hfs Hearly]; [|exact Hvalid].
  destruct filtered as [|first others] eqn:Ef.
  { injection H as <-. exists [], 0. split_and!; [done..|apply sublist_nil_l|]. intros _. split; [constructor|].
    by apply Forall_app. }
  rewrite <- Ef in *. clear Ef. set (repaired := repair_candidate _ _ <$> filtered) in *.
  apply bind_ok in H as (record & _ & H). cbv zeta in H.
  destruct (above_threshold _ _) as [surviving below] eqn:Ht. injection H as <-.
  exists ((λ p, ci_finding (snd p)) <$> surviving), (py_len below). cbn [vo_payload vo_dropped_findings].
  assert (Hss : surviving `sublist_of` repaired).
  { unfold above_threshold in Ht. destruct (drop_below_threshold _ _). injection Ht as <- _.
    etransitivity; apply filter_sublist. }
  split_and!; [done..| |].
  - rewrite <- !list_fmap_compose. change (finding_key ∘ f2_finding ∘ (λ p : placed, ci_finding (snd p))) with placed_key.
    etransitivity; [by apply sublist_map|]. unfold repaired. rewrite <- list_fmap_compose.
    rewrite (list_fmap_ext _ placed_key filtered) by (intros ? p _; apply repair_candidate_key).
    etransitivity; [by apply sublist_map|]. apply (sublist_map (finding_key ∘ f2_finding)) in Hsub.
    by rewrite <- list_fmap_compose in Hsub.
  - intros Hbody. assert (Hrep : Forall valid_placed repaired).
    { unfold repaired. rewrite Forall_fmap. eapply Forall_impl; [exact (sublist_forall _ _ _ Hfs Hin)|].
      intros p [? ?]. apply repair_candidate_handoff; [by apply Hbody|done]. }
    apply above_threshold_handoff in Ht as [_ Hbelow]; [|by apply filter_forall].
    split; [rewrite Forall_fmap; exact (sublist_forall _ _ _ Hss Hrep)|].
    rewrite !Forall_app. split_and!; [done..|by apply rejected_handoff|done].
Qed.
End Pass.

(** ** The coverage the context holds *)

Lemma read_counts_allowed allowed kvs : ∀ acc m,
  read_counts kvs allowed acc = Some m → (∀ k, chas acc k = true → In k allowed) →
  ∀ k, chas m k = true → In k allowed.
Proof.
  induction kvs as [|[k0 j] kvs IH]; intros acc m; cbn [read_counts]; [by intros [= <-]|].
  destruct j as [| |z| | |]; try done. destruct (negb (str_mem k0 allowed)) eqn:Hk; [done|].
  apply negb_false_iff, str_mem_In in Hk. cbn [orb]. destruct (negb _); [done|].
  intros H Hacc. eapply IH; [exact H|]. intros k. unfold chas.
  destruct (decide (k0 = k)) as [->|Hne]; [done|]. rewrite lookup_insert_ne by done. apply Hacc.
Qed.

Lemma read_coverage_counts_allowed value allowed m :
  read_coverage_counts value allowed = Some m → ∀ k, chas m k = true → In k allowed.
Proof. unfold read_coverage_counts. destruct value; try done. intros H. eapply read_counts_allowed; [exact H|].
  intros k Hk. unfold chas in Hk. rewrite lookup_empty in Hk. by apply bool_decide_eq_true, is_Some_None in Hk.
Qed.

Lemma variants_known items k : chas (counter (omap reason_variant items)) k = true → In k REASON_VARIANT_CODES.
Proof.
  intros Hk%chas_counter. apply list_elem_of_In, list_elem_of_omap in Hk as (i & _ & Hi). by eapply reason_variant_code.
Qed.

Lemma read_reason_variants_known value cs items m k :
  read_reason_variants value cs items = Some m → chas m k = true → In k REASON_VARIANT_CODES.
Proof.
  unfold read_reason_variants. assert (Hl := variants_known items k).
  destruct value as [v|]; [|intros [= <-]; exact Hl].
  enough (∀ v', (variants ← read_coverage_counts v' REASON_VARIANT_CODES;
    if py_any (λ kv, cget variants (fst kv) <? snd kv) (citems (counter (omap reason_variant items))) then None
    else if py_any (λ kv, cget cs (fst kv) - cget (counter (ci_reason <$> items)) (fst kv)
                     + cget (by_reason (counter (omap reason_variant items))) (fst kv) <? snd kv)
              (citems (by_reason variants)) then None else Some variants) = Some m → chas m k = true → In k REASON_VARIANT_CODES) as H.
  { destruct v; first [exact (H _)|intros [= <-]; exact Hl]. }
  intros v' (variants & Hv & H)%bind_Some. do 2 (destruct (py_any _ _); [done|]). injection H as <-.
  by eapply read_coverage_counts_allowed.
Qed.

Lemma restored_known value ss m digest c :
  restore_run_coverage_ value ss m digest = Some (Some c) → coverage_known c.
Proof.
  unfold restore_run_coverage_. destruct value as [| | | | |kvs]; try done. cbv zeta.
  match goal with |- context [if ?b then Some None else _] => destruct b; [done|] end.
  destruct (jint _) as [reviewed|]; [|done]. destruct (_ ≫= coverage_status) as [status|]; [|done].
  destruct (negb _); [done|].
  destruct (read_coverage_counts _ COVERAGE_REASON_CODES) as [reasons|] eqn:Hr; [|done].
  destruct (read_coverage_counts _ COVERAGE_EXCLUSION_CODES) as [exclusions|]; [|done].
  destruct (project_run_coverage_ ss m None digest false) as [a|]; [|done]. cbn [mbind option_bind].
  match goal with |- context [if ?b then Some None else _] => destruct b; [done|] end.
  intros E. injection E as E. apply bind_Some in E as (ri & Hri & E). apply bind_Some in E as (ei & _ & E).
  destruct (py_any _ ri); [done|]. apply bind_Some in E as (variants & Hv & E).
  destruct (counts_within variants _ _); [|done]. injection E as <-.
  apply read_items_facts in Hri as [Hrn _]. split.
  - unfold reason_counts. cbn [rc_stored_reason_counts rc_reasons]. rewrite stored_or_counts by (intros E; by rewrite Hrn).
    exact (read_coverage_counts_allowed _ _ _ Hr).
  - intros k. unfold reason_variant_counts. cbn [rc_stored_reason_variant_counts rc_reasons]. unfold stored_or.
    destruct (sorted_items variants) eqn:Es; [exact (variants_known ri k)|].
    rewrite <- Es, sorted_items_map. intros Hk. by eapply read_reason_variants_known.
Qed.

Lemma unavailable_known snapshots head metadata_only digest :
  coverage_known (unavailable_run_coverage_ snapshots head metadata_only digest).
Proof.
  split; [|intros k; exact (variants_known _ k)]. intros k Hk%chas_counter.
  cbn [rc_reasons unavailable_run_coverage_] in Hk.
  apply list_elem_of_In, list_elem_of_fmap in Hk as (i & -> & [->|Hi]%elem_of_cons); [known_code|].
  apply list_elem_of_omap in Hi as (x & Hx & E). apply list_elem_of_fmap in Hx as (s & -> & _).
  unfold unavailable_class in E. repeat case_match; cbn in E; simplify_eq; known_code.
Qed.

(** The context of post-processing always has a coverage with the stored vocabulary. *)
Lemma context_known row context fx :
  get_post_processing_input row context = Ok (Some fx) → ∃ c, fx_coverage fx = Some c ∧ coverage_known c.
Proof.
  unfold get_post_processing_input. destruct row as [r|]; [|done].
  destruct (default _ (rr_publication_pair r)) as [cap threshold]. cbv zeta.
  destruct (diff_map_from_snapshots _ _ _ _ _ _ _ _) as [m|]; [|done].
  destruct (restore_context_coverage _ _ _ _) as [c|] eqn:Hc; [|done]. intros [= <-]. exists c. split; [done|].
  unfold restore_context_coverage in Hc. destruct (read_context_coverage_pins _ _ _) as [pins|].
  2:{ injection Hc as <-. apply unavailable_known. }
  destruct (context ≫= recorded_response) as [[| | | | |resp]|]; try (injection Hc as <-; apply unavailable_known).
  destruct (_ && _); [|injection Hc as <-; apply unavailable_known].
  apply bind_Some in Hc as (restored & Hres & [= <-]). destruct restored as [c|]; [|apply unavailable_known].
  by eapply restored_known.
Qed.

(** ** Nothing after the pass fails *)

Definition dropped_item (d : DroppedCandidateRecord) : ProcessedFinding :=
  mkProcessedFinding (f2_finding (dc_finding d)) (dc_position d) Bucket_dropped (Some (dc_drop_reason d)).

Lemma coerce_records ds :
  Forall storable_drop ds →
  coerce_dropped_findings (Some (Dropped_entries (record_entry <$> ds))) = Ok (dropped_item <$> ds).
Proof.
  intros H. unfold coerce_dropped_findings.
  rewrite (proj2 (mapM_Some id _ (dropped_item <$> ds))); [done|].
  rewrite imap_fmap. apply Forall2_same_length_lookup. split; [by rewrite length_imap, length_fmap|].
  intros i x y Hx Hy. rewrite list_lookup_imap in Hx. rewrite list_lookup_fmap in Hy.
  destruct (ds !! i) as [d|] eqn:Hd; [|done]. injection Hx as <-. injection Hy as <-. unfold id, compose.
  rewrite Forall_forall in H. apply list_elem_of_lookup_2, H in Hd as [Hv Hr]. unfold coerce_entry, record_entry.
  destruct (dc_drop_reason d) as [|ch reason] eqn:E; [done|]. cbn. rewrite Hv. cbn. unfold dropped_item. by rewrite E.
Qed.

Lemma model_validated_ok findings summary :
  Forall (λ f, finding_valid f = true) findings → (py_len findings <=? 10) = true →
  findings_ordered findings = true → summary_valid summary = true →
  model_validated findings summary = Ok (mkReviewOutput findings summary).
Proof.
  intros Hf Hl Ho Hs. unfold model_validated, output_valid. cbn [ro_findings ro_summary]. rewrite Hl, Ho, Hs.
  assert (py_all finding_valid findings = true) as ->; [|done].
  apply forallb_forall. intros f Hin%list_elem_of_In. rewrite Forall_forall in Hf. by apply Hf.
Qed.

Lemma process_result p output i r :
  process p output i = Ok r →
  is_Some (po_summary r)
  ∧ ∃ incomplete n, po_coverage r
      = finalize_run_coverage (default (unclassified_coverage (pi_diff_map i)) (pi_coverage i)) incomplete n.
Proof.
  unfold process. cbv zeta. destruct (filter_stages p i (candidates_from output)) as [cs d].
  intros ([prepared unknown] & _ & H)%bind_ok. destruct (route p i prepared) as [inline body].
  apply bind_ok in H as (summary & _ & H). destruct (pack_review_body _ _ _ _ _ _ _ _) as [[b o]|]; [|done].
  injection H as <-. cbn [po_summary po_coverage]. split; [by eexists|by do 2 eexists].
Qed.

Lemma fit_footer_total turns repack footer : (∀ n, is_Some (repack n)) →
  ∀ body omitted, is_Some (fit_footer turns repack footer body omitted).
Proof.
  intros Hr. induction turns as [|turns IH]; intros body omitted; cbn [fit_footer]; [by eexists|].
  destruct (Hr (REVIEW_BODY_CHAR_BUDGET - py_len (footer omitted))) as [[b o] Hb].
  destruct (_ <? _); [rewrite Hb|]; cbn [mbind option_bind]; (destruct (_ <=? _); [by eexists|apply IH]).
Qed.

Lemma pack_review_body_total output kept body_only checked threshold below budget coverage :
  coverage_known coverage →
  is_Some (pack_review_body output kept body_only checked threshold below budget coverage).
Proof.
  intros Hk. unfold pack_review_body. apply pack_total. unfold packing. by destruct (str_partition _ _) as [[? ?] ?].
Qed.

Lemma finalize_total output r checked threshold below url :
  coverage_known (po_coverage r) →
  is_Some (finalize_stored_review_body output r checked threshold below url).
Proof.
  intros Hk. unfold finalize_stored_review_body. destruct (_ <=? 0); [by eexists|]. cbv zeta.
  match goal with |- context [fit_footer 4 ?repack ?f ?b ?o] =>
    destruct (fit_footer_total 4 repack f (λ n, pack_review_body_total _ _ _ _ _ _ n _ Hk) b o)
      as [[[b1 o1]|[b1 o1]] ->] end; cbn [mbind option_bind]; [by eexists|].
  match goal with |- context [pack_review_body ?a ?b ?d ?e ?f ?g ?h ?i] =>
    destruct (pack_review_body_total a b d e f g h i Hk) as [[b2 o2] ->] end. by eexists.
Qed.

(** Post-processing of a valid answer gives a prepared review, or cannot encode its hash. *)
Lemma post_process_total patterns url input pre output threshold context c :
  output_valid output = true → fx_coverage context = Some c → coverage_known c →
  (∃ p, post_process patterns url input pre (Some output) threshold context = Ok p)
  ∨ post_process patterns url input pre (Some output) threshold context = Err SX_encode.
Proof.
  intros Hv Hc Hk. unfold post_process. cbv zeta. cbn [mbind result_bind].
  destruct (process_total patterns output (process_input input pre threshold context) Hv) as [r Hr].
  { cbn. rewrite Hc. by intros ? [= <-]. }
  rewrite Hr. cbn [map_err mbind result_bind].
  destruct (process_result _ _ _ _ Hr) as ([summary ->] & inc & n & Hcov). cbn [pi_coverage process_input] in Hcov.
  rewrite Hc in Hcov. cbn [default] in Hcov. unfold from_option, id in Hcov.
  match goal with |- context [finalize_stored_review_body ?o r ?a ?b ?d ?e] =>
    destruct (finalize_total o r a b d e) as [r' ->] end.
  { rewrite Hcov. by apply finalize_known. }
  destruct (findings_hash _) as [hash|]; [left; by eexists|by right].
Qed.

Section Claim.
Context `{column : JsonbColumn}.
Context (repr : pystr → pystr) (patterns : LintFilterPatterns) (refusal : ReviewFindingV2 → pystr).
Context (text_accepts : pystr → bool) (dict_of : AnswerData → pyval).
Context (row_id : nat → UUID) (body_id : pystr → UUID) (started_at lease_until duration_ms : Z).
Context (worker_id : pystr) (run_url : UUID → option pystr) (repository_event : UUID → pystr).

Abbreviation transaction :=
  (store_prepared patterns text_accepts dict_of row_id body_id started_at lease_until duration_ms worker_id
     repository_event).

(** Whatever the pass was given. *)
Lemma handed_over_stores verify output c s manifest call_id original ignored v v' incomplete data items
    row context fx run_id st :
  run_reflection_pass repr patterns refusal verify output c s manifest call_id original ignored = Ok v →
  answer_data output = Ok data → raw_items data = Ok items →
  other_keys data = [] → findings_ordered (f2_finding <$> omap item_finding items) = true →
  (∀ f, Item_fields f ∈ items → body_survives (f2_finding f)) →
  published_answer (Out_verified v) incomplete = Ok v' →
  get_post_processing_input row context = Ok (Some fx) →
  ∃ pre parsed,
    coerce_dropped_findings (effective_dropped None (In_verified v')) = Ok pre
    ∧ parse_review_output (In_verified v') = Ok (Some parsed)
    ∧ (length pre + length (ro_findings parsed))%nat = length items
    ∧ let stored := store_review patterns text_accepts dict_of row_id body_id started_at lease_until
                      duration_ms worker_id run_url repository_event (Ok (Some fx)) run_id (In_verified v')
                      None None st in
      (∃ p, stored = transaction run_id (In_verified v') (fx_repository_max_inline fx) p st)
      ∨ stored = Err SX_encode.
Proof.
  intros Hpass Hdata Hitems Hkeys Hord Hbody Hpub Hfx.
  pose proof (pass_ok _ _ _ _ _ _ _ _ _ _ _ _ Hpass) as (d1 & i1 & m & published & n1 & Hd1 & Hi1 & _ & Hv1 & Hpos & _).
  apply pass_handoff in Hpass as (d2 & i2 & findings & n & Hd2 & Hi2 & Hv & Hsub & Hvalid).
  rewrite Hdata in Hd1, Hd2. injection Hd1 as <-. injection Hd2 as <-.
  rewrite Hitems in Hi1, Hi2. injection Hi1 as <-. injection Hi2 as <-.
  destruct (Hvalid Hbody) as [Hf Hd]. cbn in Hpub. injection Hpub as <-.
  assert (Hlen : (length (vo_dropped_findings v) + length findings)%nat = length items).
  { rewrite Hv in Hv1. injection Hv1 as -> _. apply Permutation_length in Hpos.
    rewrite length_app, !length_fmap, length_seqZ in Hpos. rewrite length_fmap, Hpos. unfold py_len. lia. }
  assert (Hten : (py_len (f2_finding <$> findings) <=? 10) = true).
  { apply Z.leb_le. unfold raw_items in Hitems. destruct (ad_findings data) as [| |l]; try done.
    destruct (10 <? py_len l) eqn:E; [done|]. injection Hitems as ->. apply Z.ltb_ge in E.
    unfold py_len in *. rewrite length_fmap. lia. }
  set (output' := mkReviewOutput (f2_finding <$> findings) (build_deterministic_summary findings n)).
  assert (Hok : model_validated (f2_finding <$> findings) (build_deterministic_summary findings n) = Ok output').
  { apply model_validated_ok; [by rewrite Forall_fmap|done|by eapply sublist_ordered|apply deterministic_summary_valid]. }
  exists (dropped_item <$> vo_dropped_findings v), output'.
  assert (Hpre := coerce_records _ Hd).
  assert (Hparse : parse_review_output (In_verified (mkVerifiedReviewOutput (vo_payload v) (vo_dropped_findings v)
             (vo_severity_threshold v) (vo_allowed_v2_rules v) (vo_verify_request v) (vo_verify_response v) incomplete))
           = Ok (Some output')).
  { cbn [parse_review_output vo_payload]. unfold parse_payload. rewrite Hv, Hkeys, bool_decide_true by done. by rewrite Hok. }
  split_and!; [exact Hpre|exact Hparse|by rewrite length_fmap; cbn; rewrite length_fmap|].
  unfold store_review. cbn [effective_dropped verified_part vo_dropped_findings]. rewrite Hpre.
  cbn [mbind result_bind]. rewrite Hparse. cbn [mbind result_bind].
  apply context_known in Hfx as (cov & Hcov & Hknown).
  match goal with |- context [post_process ?a ?b ?i ?d ?e ?f ?g] =>
    destruct (post_process_total a b i d output' f g cov) as [[p Hp]|Hp] end; [|done|done| |].
  - unfold output', output_valid. unfold model_validated, output_valid in Hok. by destruct (_ && _).
  - left. exists p. by rewrite Hp.
  - right. by rewrite Hp.
Qed.

(** C23.  Nothing between an accepted answer and the storing transaction fails.  The text of a model
    that the gateway accepted is reviewed by the reflection pass; when the pass returns and no body is a
    quoted attribution and nothing else, what it hands over is accepted again: every record of a drop
    and every finding is valid, together they are as many as the findings of the text, and against
    whatever context the stored rows give, post-processing ends in a review to store, or in the encoding
    error of a text with a lone surrogate. *)
Theorem handed_answer_stores depth violations finding_errors output_errors type_name message content d answer
    verify c s manifest call_id original ignored v v' incomplete row context fx run_id st :
  validate_review_answer_v2 depth violations finding_errors output_errors content = Ok d →
  parse_review_output_v2 (VDict d) = Some answer →
  run_reflection_pass repr patterns refusal verify (Out_mapping (answer_data_of type_name message d)) c s
    manifest call_id original ignored = Ok v →
  (∀ f, f ∈ o2_findings answer → body_survives (f2_finding f)) →
  published_answer (Out_verified v) incomplete = Ok v' →
  get_post_processing_input row context = Ok (Some fx) →
  ∃ pre parsed,
    coerce_dropped_findings (effective_dropped None (In_verified v')) = Ok pre
    ∧ parse_review_output (In_verified v') = Ok (Some parsed)
    ∧ (length pre + length (ro_findings parsed))%nat = length (o2_findings answer)
    ∧ let stored := store_review patterns text_accepts dict_of row_id body_id started_at lease_until
                      duration_ms worker_id run_url repository_event (Ok (Some fx)) run_id (In_verified v')
                      None None st in
      (∃ p, stored = transaction run_id (In_verified v') (fx_repository_max_inline fx) p st)
      ∨ stored = Err SX_encode.
Proof.
  intros Hval Hans Hpass Hbody Hpub Hfx.
  assert (Hfrom := validate_spec depth violations finding_errors output_errors content). rewrite Hval in Hfrom.
  destruct (accepted_handed depth type_name message _ _ Hfrom) as (fs & sm & Hp & Hf & Ho & _ & Hord & Hten).
  rewrite Hans in Hp. injection Hp as ->. cbn [o2_findings] in *.
  rewrite <- (length_fmap Item_fields fs).
  eapply (handed_over_stores _ _ _ _ _ _ _ _ _ _ _ _ _ _ _ _ _ _ Hpass); [reflexivity| |exact Ho| | |done|done].
  - unfold raw_items. rewrite Hf. rewrite (proj2 (Z.ltb_ge _ _)); [done|]. unfold py_len. rewrite length_fmap. lia.
  - replace (omap item_finding (Item_fields <$> fs)) with fs; [done|].
    clear. induction fs as [|f fs IH]; [done|]. cbn. by f_equal.
  - intros f (g & [= <-] & Hg)%list_elem_of_fmap. by apply Hbody.
Qed.
End Claim.

#[local] Existing Instance sorted_column.

(** ** An answer on its way from the text of a model to the stored rows *)

(** The pass depends on the items of its answer and on its other keys. *)
Lemma pass_same_data repr patterns refusal verify data data' c s manifest call_id original ignored :
  ad_findings data = ad_findings data' → other_keys data = other_keys data' →
  run_reflection_pass repr patterns refusal verify (Out_mapping data) c s manifest call_id original ignored
  = run_reflection_pass repr patterns refusal verify (Out_mapping data') c s manifest call_id original ignored.
Proof.
  intros Hf Ho. unfold run_reflection_pass. cbn [answer_data mbind result_bind]. unfold raw_items. by rewrite Hf, Ho.
Qed.

Definition json_item (f : ReviewFindingV2) : pyval :=
  match dump_finding f with
  | VDict kvs => VDict (dict_set (u8 "confidence") (VInt 1) kvs)
  | v => v
  end.
Definition reviewed_text : pystr :=
  plain_dumps (VDict
    [(u8 "findings", VList [json_item absent_finding; json_item checked_finding]);
     (u8 "summary", dump_summary (mkReviewSummary (u8 "A guard is missing.") (u8 "Fine.") Effort_small))]).
Definition reviewed_answer : output := match sample_validate reviewed_text with Ok d => d | Err _ => [] end.
Lemma reviewed_answer_ok :
  validate_review_answer_v2 50 no_violation no_error no_error reviewed_text = Ok reviewed_answer.
Proof. by vm_compute. Qed.
Lemma reviewed_answer_read :
  o2_findings <$> parse_review_output_v2 (VDict reviewed_answer) = Some [absent_finding; checked_finding].
Proof. by vm_compute. Qed.

Lemma handed_answer_stores_witness :
  ∃ pre parsed,
    coerce_dropped_findings (effective_dropped None (In_verified reviewed_output)) = Ok pre
    ∧ parse_review_output (In_verified reviewed_output) = Ok (Some parsed)
    ∧ (length pre + length (ro_findings parsed))%nat = 2%nat.
Proof.
  pose proof reviewed_ok as Hok. unfold reviewed, two_items in Hok.
  rewrite (pass_same_data _ _ _ _ _ (answer_data_of (λ _, []) (λ _, []) reviewed_answer)) in Hok by (vm_compute; reflexivity).
  pose proof reviewed_answer_read as Hread.
  destruct (parse_review_output_v2 (VDict reviewed_answer)) as [answer|] eqn:Hp; [|discriminate Hread].
  injection Hread as Hread.
  assert (Hbody : ∀ f, f ∈ o2_findings answer → body_survives (f2_finding f)).
  { rewrite Hread. intros f [->|[->|[]%elem_of_nil]%elem_of_cons]%elem_of_cons name rest Hm;
      vm_compute in Hm; discriminate Hm. }
  destruct (handed_answer_stores id no_patterns (λ _, []) (λ _, true) (λ _, VNone) N.of_nat (λ _, 77%N) 100 400 3
              (u8 "w") (λ _, None) (λ _, []) 50 no_violation no_error no_error (λ _, []) (λ _, []) reviewed_text
              reviewed_answer answer _ _ _ _ _ _ _ reviewed_output reviewed_output []
              (Some stored_row) None stored_context 1 running_store reviewed_answer_ok Hp Hok Hbody)
    as (pre & parsed & Hpre & Hparsed & Hlen & _);
    [vm_compute; reflexivity|exact stored_context_ok|].
  exists pre, parsed. split; [exact Hpre|]. split; [exact Hparsed|]. rewrite Hlen, Hread. reflexivity.
Defined.
